(* ===== verification/_CoqProject ===== *)
-Q . S2P
Prelude.v
Contract.v
Coin.v
DposTypes.v
DposMath.v
DposStorage.v
DposHandlers.v
DposElection.v
DposCallTheorems.v
DposElectionTheorems.v
DposInvariants.v
ValidatorsManager.v
Store.v
Middleware.v
App.v
AppReplay.v
ChainConfig.v
AddressMapper.v
PlasmaCash.v
DeployerWhitelist.v
EthCoin.v
EvmTokens.v
Gateway.v
GatewayFrame.v
GatewayWithdrawals.v
GatewayCalls.v
GatewayDeposits.v
GatewayClaims.v
GatewayMappings.v
GatewayOracles.v
GatewayWitnesses.v
Karma.v
KarmaSources.v
KarmaUpkeep.v
KarmaTheorems.v
KarmaContracts.v
KarmaCharges.v
KarmaWitnesses.v
KarmaThrottle.v
OriginValidator.v
MultiChain.v
Registry.v
TxHandlers.v
FnConsensus.v
FnConsensusTheorems.v
Receipts.v
ReceiptsTheorems.v
EthJson.v
EthQuery.v
EthQueryTheorems.v
ReceiptsWitnesses.v
EventStore.v
EventStoreTheorems.v
EventWitnesses.v
PluginVM.v
PluginTheorems.v
PluginWitnesses.v
Loader.v
FnReactor.v
FnReactorTheorems.v
FnReactorWitnesses.v
AppStores.v
AppStoreTheorems.v
BlockStores.v
BlockStoreTheorems.v
StoreWitnesses.v
Outcomes.v
Dpos1.v
Dpos1Theorems.v
Dpos1Witnesses.v
Dpos2Types.v
Dpos2Handlers.v
Dpos2Election.v
Dpos2Theorems.v
Dpos2Migration.v
Dpos2Witnesses.v
MainnetOracle.v
OracleTheorems.v
PlasmaOracle.v
PlasmaOracleTheorems.v
