(* ===== verification/Prelude.v ===== *)
(** * Verification of the Diadem application chain

    Diadem is a node of a proof-of-stake side chain: an ABCI application that the
    Tendermint consensus engine drives, a versioned key-value store, a chain of
    transaction middleware, and built-in contracts (coin, delegated proof of
    stake and others) that run on slices of the store.  This library models the
    core of it from the Go sources under src/ and proves what makes it correct.

    ** How the parts interact

    The engine calls [BeginBlock], [DeliverTx] for each transaction, [EndBlock]
    and [Commit] of the application (src/app.go), and [CheckTx] for the
    transactions of its pool.  Each call opens a write-back transaction over the
    store (src/store/store.go) and, for transactions, passes through signature
    and nonce checks (src/auth/auth.go) chained by src/middleware.go before a
    router (src/router.go) picks a handler, which may run a contract.  At the end
    of a block the validators manager (src/plugin/validators_manager_v3.go) runs
    an election of the staking contract (src/builtin/plugins/dposv3) and returns
    the changes of the validator set to the engine.  The staking contract moves
    tokens by calling the coin contract (src/builtin/plugins/coin).  The transfer
    gateway (src/builtin/plugins/gateway) credits what was deposited on Ethereum and
    issues receipts for what may be withdrawn there; validators sign these receipts
    after voting on them off the chain (src/fnConsensus).  The karma middleware
    (src/throttle) asks the karma contract (src/builtin/plugins/karma) how much an
    account may call and deploy.

    ** Files

    - [Prelude]: machine integers, the state and error monad [M] with its
      rules and tactics, generic lemmas on lists, maps and sorting.
    - [Contract]: addresses and the client library go-diadem, which is not in
      the repository, as the classes [DiademLib] (operations) and
      [DiademLibSpec] (what the code relies on), with the instance [SimpleLib]
      for evaluation; the interface [ERC20] between the staking contract and its
      token with its laws [ERC20Spec].
    - [Coin]: src/builtin/plugins/coin/coin.go.  [CoinStore] is the contract's
      store; one definition per method.  The contract is an instance of [ERC20]
      and of [ERC20Spec].
    - [DposTypes], [DposMath], [DposStorage], [DposHandlers], [DposElection]:
      src/builtin/plugins/dposv3 (types and requests; util.go and the formulas
      of dpos.go; storage.go; the methods of dpos.go and erc20.go; elections,
      rewards and slashing of dpos.go).  [DposStore] has one field per family of
      store keys and [DWorld] adds the token and the emitted events.
    - [DposCallTheorems], [DposElectionTheorems], [DposInvariants]: theorems on
      the staking contract.
    - [ValidatorsManager]: src/plugin/validators_manager_v3.go.
    - [Store]: src/store/store.go and memstore.go; [KVStore], [KVStoreSpec] and
      [VersionedKVStore] are the interfaces, which the application uses.
    - [Middleware]: src/middleware.go, router.go, sequence.go, auth/auth.go.
    - [App]: src/app.go.  [Application] is the struct's components, [AppState]
      its memory.  [AppReplay]: histories of calls and replay protection.
    - [ChainConfig]: src/builtin/plugins/chainconfig/chainconfig.go, where
      validators vote on features, and src/plugin/chain_config_manager.go.
    - [AddressMapper]: src/builtin/plugins/address_mapper/address_mapper.go.
    - [PlasmaCash]: src/builtin/plugins/plasma_cash/plasma_cash.go.
    - [DeployerWhitelist]: src/builtin/plugins/deployer_whitelist and the
      middleware of src/throttle that guards deployments.
    - [EthCoin]: src/builtin/plugins/ethcoin/eth_coin.go.  [EvmTokens]: the calls of
      token contracts of the EVM by the gateway (erc20_context.go and the like).
    - [Gateway]: src/builtin/plugins/gateway/gateway.go, unsafe_gateway.go,
      gateway_contract_mapping.go and the coin contexts; [GState] has one field per
      family of keys and [GWorld] adds the contracts the gateway calls.
      [GatewayFrame] says what each method leaves alone; [GatewayWithdrawals],
      [GatewayCalls], [GatewayDeposits], [GatewayClaims], [GatewayMappings] and
      [GatewayOracles] are theorems, [GatewayWitnesses] their instances.
    - [Karma], [KarmaSources], [KarmaUpkeep]: src/builtin/plugins/karma/karma.go and
      upkeep.go; [KarmaTheorems], [KarmaContracts], [KarmaCharges] are theorems,
      [KarmaWitnesses] their instances.
    - [KarmaThrottle], [OriginValidator]: src/throttle/throttle.go,
      karma-middleware.go and handler.go.
    - [MultiChain]: src/auth/multi_chain_sigtx_middleware.go,
      chainconfig_middleware.go, config.go and eth.go.
    - [Registry]: src/registry, both versions, as instances of the class
      [Registry] with the laws [RegistrySpec].
    - [TxHandlers]: src/vm/vm.go and handler.go, src/tx_handler and
      src/migrations: what runs when a transaction reaches its handler.
    - [FnConsensus]: src/fnConsensus/types.go and registry.go;
      [FnConsensusTheorems]: theorems.  [FnReactor]: reactor.go, config.go and
      store.go there; [FnReactorTheorems]: theorems, [FnReactorWitnesses]: instances.
    - [Receipts]: src/receipts (handler, chain and leveldb) and src/eth/bloom;
      [ReceiptsTheorems]: theorems.
    - [EthJson]: the values of src/rpc/eth/jsonrpc_conversion.go.
    - [EthQuery]: src/eth/utils, src/eth/query/eth.go and src/eth/polls;
      [EthQueryTheorems]: theorems, [ReceiptsWitnesses]: instances of them and of
      those on receipts.
    - [EventStore]: src/event.go, src/events/db_indexer.go, src/store/eventstore.go;
      [EventStoreTheorems]: theorems, [EventWitnesses]: instances.
    - [PluginVM]: src/plugin/vm.go and src/evm/loomevm.go; [PluginTheorems]: theorems,
      [PluginWitnesses]: instances.  [Loader]: src/plugin/loader.go, internal.go.
    - [AppStores]: the persistent stores of src/store (iavlstore.go,
      pruning_iavlstore.go, multi_reader_iavl_store.go, cachingstore.go, logstore.go)
      over a tree and a database that are parameters; [BlockStores]: block_store.go and
      its two caches; [AppStoreTheorems], [BlockStoreTheorems]: theorems,
      [StoreWitnesses]: instances.
    - [Dpos2Types], [Dpos2Handlers], [Dpos2Election]: src/builtin/plugins/dposv2, the
      manager src/plugin/validators_manager.go that runs its elections and
      src/migrations/dposv3_migration.go; [Dpos2Theorems], [Dpos2Migration]: theorems,
      [Dpos2Witnesses]: instances.  [Outcomes]: lemmas that they and the next share.
    - [Dpos1]: src/builtin/plugins/dpos; [Dpos1Theorems]: theorems, [Dpos1Witnesses]:
      instances.
    - [MainnetOracle]: src/gateway (oracle.go, fns.go, mainnet_client.go, config.go,
      dappchain_gateway.go), the process that feeds the gateway; the contract is reached
      through the class [DAppChainGateway] with the laws [DAppChainSpec], of which the
      model of the gateway contract is an instance; [OracleTheorems]: theorems
      and instances.
    - [PlasmaOracle]: src/builtin/plugins/plasma_cash/oracle, the workers between the
      plasma contract and Ethereum; [PlasmaOracleTheorems]: theorems and instances.

    ** Conventions

    A method is a computation of type [M W A]: a function from the world [W] to
    an outcome and a new world.  The outcome is a value, an error, or a panic
    ([Res]); writes made before an error stay in the world, as they do in the
    code, and it is [processTx] that discards them.  A method that only reads is
    a function of the store.  An error keeps the fixed part of its text.
    Fixed-width integers are [Z] with the wrap-around written out ([u64], [i64],
    [u32], [i32]); [BigUInt] is a [Z]; the float64 arithmetic of [applyPowerCap]
    is on integers rounded to 53 bits ([DposMath.round53]).  Go maps are [gmap]s and where the code iterates over one
    the result is shown not to depend on the order.  nil pointers that the code
    checks or dereferences are [option]s; dereferencing [None] is a panic.
    A history ([..._reachable], [rtc ..._step]) is made of calls that succeed
    where the statement is about the committed state: what a failed call wrote
    is discarded by the application ([deliver_tx_is_atomic]).

    ** What the theorems show

    - Application ([App], [AppReplay], [Middleware], [Store]): after a
      transaction was delivered, no later history lets it through again; a
      failed transaction leaves the store as it was and a successful one has the
      effect of its handler; [CheckTx] never changes the committed state; the
      nonce check passes exactly the next nonce; a committed [cacheTx] refines
      its store; prefix stores are isolated.
    - Coin ([Coin]): in every reachable ledger without transfers of an account
      to itself the total supply is the sum of the balances; transfers move
      exactly their amount and stay within the allowance; only the gateway
      mints and burns.  [self_transfer_creates_coins] shows why the restriction
      is needed.
    - Staking, calls ([DposCallTheorems]): what delegating adds to what the
      contract owes; unbonding needs an expired lock; the oracle's methods are
      guarded; a request batch is consumed once.
    - Staking, elections ([DposElectionTheorems]): the candidates with the
      largest totals are elected, at most once in a cycle, whatever the order of
      Go's maps; settling a delegation changes what is owed by exactly what is
      paid; faults are bounded.
    - Staking, invariants ([DposInvariants]): what holds in every world reached
      from [Init] by calls, elections and faults in any order.
    - Arithmetic and storage ([DposMath], [DposStorage]): rewards and shares
      are within their caps, the power cap holds and keeps the order, keys of
      different records never clash, delegations round trip.
    - Manager ([ValidatorsManager]): after the end of a block the engine's
      validators are the contract's, those without power left out.
    - Chain configuration ([ChainConfig]): features move through their life one
      step at a time, a block promotes them by the votes and confirmations, and
      an enabled feature stays enabled; only the owner and the validators have a
      say.
    - Other contracts ([AddressMapper], [PlasmaCash], [DeployerWhitelist]):
      address links are one to one and need both parties; every plasma coin has
      one owner, is moved only by its owner and not while it exits; deployments
      pass exactly with the right flag.
    - Gateway ([GatewayWithdrawals] and the following): receipts for an account
      of this chain carry distinct nonces ([recipients_repeat_nonces] shows that a
      caller who names recipients of several chain names gets the same nonce twice for
      one Ethereum account), the lists and accounts agree on what is pending, a
      reported withdrawal can always be settled, deposits are credited or kept in
      full and counted once, mappings of contracts are one to one.
    - Karma ([KarmaTheorems], [KarmaContracts], [KarmaCharges], [KarmaThrottle],
      [OriginValidator]): while no upkeep runs, stored karma is the worth of its
      sources; with upkeep, deposits can still be withdrawn, up to what the upkeep took;
      upkeep charges what is due in any order of the users, inactive contracts are not
      called, and the ring of recent calls behaves as a log.
    - Handlers ([MultiChain], [Registry], [TxHandlers]): transactions of other chains
      pass as the account that signed them, handlers act for the origin only, a name
      once registered stays, a migration runs once.
    - Function consensus ([FnConsensusTheorems], [FnReactorTheorems]): vote sets stay
      valid and unite when merged, the selected hash is the one behind which the
      threshold stands; an honest node votes once for a nonce, and honest nodes submit
      the same message while the others have at most a third of the power.  The system
      of nodes ([sys_step]) interleaves whole turns of their vote and commit routines
      with messages of anyone; it leaves out restarts and turns that another thread
      interrupts, of which [interleaved_vote_signs_twice] and
      [added_votes_are_not_saved] show why.
    - Receipts and queries ([ReceiptsTheorems], [EthQueryTheorems], [EthJson]): the
      receipt database is a queue of the newest receipts, a log query finds all logs
      the filter selects, polls report every transaction once, filters live while
      they are polled, and values survive the way to the client and back.
    - Events ([EventStoreTheorems]): a query for a range of blocks returns exactly the
      events that these blocks emitted, in their order.
    - Contract calls ([PluginTheorems], [Loader]): a contract writes only its slice of
      the store, a static call writes nothing, what was deployed is what is called.
    - Stores ([AppStoreTheorems], [BlockStoreTheorems]): snapshots of every kind hold the
      state that was saved last, given a tree whose leaves are what was set; pruning leaves
      the newest versions alone, through restarts and on databases of any history; the
      caches of values and of blocks answer as what they cache does.
    - Former staking contracts ([Dpos2Theorems], [Dpos2Migration], [Dpos1Theorems]): the
      tokens of the second contract cover what is delegated, and the migration to the new
      contract carries all delegations and unclaimed rewards, outside the cases that
      further theorems show; votes of the first contract are conserved, and the candidates
      with the most power are elected.
    - Gateway oracle ([OracleTheorems]): several oracles ([net_step]) that send
      overlapping batches, restart, and lose calls or their answers settle every event of
      the confirmed blocks of Ethereum at most once and in order; what an oracle signs is
      new to it, and the signatures of a batch reach their withdrawals.
    - Plasma oracle ([PlasmaOracleTheorems]): blocks of transfers reach Ethereum without
      gaps and with the roots of this chain, and a batch of events is applied in the order
      of Ethereum with none left out.

    Theorems whose names say that something is lost or counted twice state
    behaviour that the code has and that its authors hardly intend.

    ** Bounds and fuel

    Every recursion is structural except the search for a free delegation index
    ([nextIndexFrom]), whose fuel is one more than the number of stored
    delegations; [next_index_terminates] shows that this is enough, since each
    step that does not stop meets another stored record.  Hexadecimal numbers are
    printed with fuel for the 16 digits that 64 bits have.  Contracts that call each
    other ([PluginVM.run]) do so to a depth; a call that is nested deeper exhausts the
    stack and is a panic.  The theorems hold for every depth.

    ** What is not modelled

    Logging, metrics and contract metadata; protocol buffer encoding, Ed25519
    and address derivation, which are in other packages (parameters with laws);
    the IAVL tree, LevelDB and the cache libraries, which are parameters of the stores
    over them; the EVM, RPC and peer-to-peer code, which are input and output or bindings
    of other packages; [Query] and the read-only states of the application; the command
    line, the oracle process that feeds the second staking contract from Ethereum, the
    hubs that push events to subscribers, key storage, and the test harness; the first
    gateway, which the node keeps only to replay old blocks. *)

From Stdlib Require Export ZArith Lia.
From stdpp Require Export base numbers sorting gmap strings option list.

Declare Scope diadem_scope.
Delimit Scope diadem_scope with diadem.
#[global] Open Scope Z_scope.

(** ** Machine integers

    Go's fixed-width integers are kept as [Z] with the wrap-around written
    out.  [u64] and [u32] are the unsigned conversions, [i64] and [i32] the
    two's complement ones. *)

Definition u64 (x : Z) : Z := x mod 2 ^ 64.
Definition u32 (x : Z) : Z := x mod 2 ^ 32.
Definition i64 (x : Z) : Z := (x + 2 ^ 63) mod 2 ^ 64 - 2 ^ 63.
Definition i32 (x : Z) : Z := (x + 2 ^ 31) mod 2 ^ 32 - 2 ^ 31.

Lemma u64_small x : 0 <= x < 2 ^ 64 → u64 x = x.
Proof. intros. by apply Z.mod_small. Qed.

Lemma u64_range x : 0 <= u64 x < 2 ^ 64.
Proof. by apply Z.mod_pos_bound. Qed.

Lemma i64_small x : - 2 ^ 63 <= x < 2 ^ 63 → i64 x = x.
Proof. intros. unfold i64. rewrite Z.mod_small; lia. Qed.

Lemma i64_range x : - 2 ^ 63 <= i64 x < 2 ^ 63.
Proof.
  unfold i64. pose proof (Z.mod_pos_bound (x + 2 ^ 63) (2 ^ 64) ltac:(lia)). lia.
Qed.

Lemma i32_small x : - 2 ^ 31 <= x < 2 ^ 31 → i32 x = x.
Proof. intros. unfold i32. rewrite Z.mod_small; lia. Qed.

(** ** Results and effectful code

    A Go function returns a value or an error, or panics.  Errors are compared
    by the code only with [contract.ErrNotFound]; every other one is its
    message. *)

Inductive error :=
  | ErrNotFound
  | ErrMsg (msg : string).

#[global] Instance error_eq_dec : EqDecision error.
Proof. solve_decision. Defined.

Inductive Res (A : Type) : Type :=
  | Ok (a : A)
  | Err (e : error)
  | Panic.
Arguments Ok {A} a.
Arguments Err {A} e.
Arguments Panic {A}.

#[global] Instance Res_ret : MRet Res := λ A a, Ok a.
#[global] Instance Res_bind : MBind Res := λ A B k r,
  match r with Ok a => k a | Err e => Err e | Panic => Panic end.

Definition is_ok {A} (r : Res A) : bool := match r with Ok _ => true | _ => false end.

(** [M W A]: code that reads and writes a world [W].  An error or a panic keeps
    the writes made before it, as in Go; undoing them is the caller's task
    (file [App]). *)
Definition M (W A : Type) : Type := W → Res A * W.

#[global] Instance M_ret {W} : MRet (M W) := λ A a w, (Ok a, w).
#[global] Instance M_bind {W} : MBind (M W) := λ A B k m w,
  match m w with
  | (Ok a, w') => k a w'
  | (Err e, w') => (Err e, w')
  | (Panic, w') => (Panic, w')
  end.

Section Ops.
Context {W : Type}.

Definition throw {A} (e : error) : M W A := λ w, (Err e, w).
Definition panic {A} : M W A := λ w, (Panic, w).
Definition gets {A} (f : W → A) : M W A := λ w, (Ok (f w), w).
Definition modify (f : W → W) : M W unit := λ w, (Ok (), f w).
Definition lift_res {A} (r : Res A) : M W A := λ w, (r, w).

(** Dereferencing a pointer: a nil pointer panics. *)
Definition deref {A} (o : option A) : M W A :=
  match o with Some a => mret a | None => panic end.

(** [if c { return err }] *)
Definition guard_not (c : bool) (e : error) : M W unit :=
  if c then throw e else mret ().

(** Calling code whose error is looked at or dropped by the caller. *)
Definition try_ {A} (m : M W A) : M W (A + error) := λ w,
  match m w with
  | (Ok a, w') => (Ok (inl a), w')
  | (Err e, w') => (Ok (inr e), w')
  | (Panic, w') => (Panic, w')
  end.

Definition ignore_err (m : M W unit) : M W unit := _ ← try_ m; mret ().

(** [for _, x := range l { ... }] with loop state [a]. *)
Fixpoint foldM {A B} (f : A → B → M W A) (a : A) (l : list B) : M W A :=
  match l with
  | [] => mret a
  | x :: l' => a' ← f a x; foldM f a' l'
  end.

Definition forM {B} (l : list B) (f : B → M W unit) : M W unit :=
  foldM (λ _ x, f x) () l.
End Ops.

(** Running code on a component of a larger world. *)
Definition zoom {W V A} (get : W → V) (put : V → W → W) (m : M V A) : M W A :=
  λ w, match m (get w) with (r, v) => (r, put v w) end.

(** ** A small program logic

    [wp m Q w]: running [m] from [w] ends in a result and a world related by
    [Q]. *)

Definition wp {W A} (m : M W A) (Q : Res A → W → Prop) (w : W) : Prop :=
  Q (m w).1 (m w).2.

Section WP.
Context {W : Type}.
Implicit Types w : W.

Lemma wp_ret {A} (a : A) Q w : Q (Ok a) w → wp (mret a : M W A) Q w.
Proof. done. Qed.

Lemma wp_bind {A B} (m : M W A) (k : A → M W B) Q w :
  wp m (λ r w', match r with
                | Ok a => wp (k a) Q w'
                | Err e => Q (Err e) w'
                | Panic => Q Panic w'
                end) w →
  wp (m ≫= k) Q w.
Proof.
  unfold wp, mbind, M_bind. destruct (m w) as [[a|e|] w']; simpl; auto.
Qed.

Lemma wp_mono {A} (m : M W A) (Q Q' : Res A → W → Prop) w :
  wp m Q w → (∀ r w', Q r w' → Q' r w') → wp m Q' w.
Proof. unfold wp. auto. Qed.

Lemma wp_throw {A} e (Q : Res A → W → Prop) w : Q (Err e) w → wp (throw e) Q w.
Proof. done. Qed.

Lemma wp_panic {A} (Q : Res A → W → Prop) w : Q Panic w → wp panic Q w.
Proof. done. Qed.

Lemma wp_gets {A} (f : W → A) (Q : Res A → W → Prop) w :
  Q (Ok (f w)) w → wp (gets f) Q w.
Proof. done. Qed.

Lemma wp_modify (f : W → W) (Q : Res unit → W → Prop) w : Q (Ok ()) (f w) → wp (modify f) Q w.
Proof. done. Qed.

Lemma wp_lift_res {A} (r : Res A) (Q : Res A → W → Prop) w :
  Q r w → wp (lift_res r) Q w.
Proof. done. Qed.

Lemma wp_deref {A} (o : option A) (Q : Res A → W → Prop) w :
  match o with Some a => Q (Ok a) w | None => Q Panic w end → wp (deref o) Q w.
Proof. destruct o; auto. Qed.

Lemma wp_guard_not (c : bool) e (Q : Res unit → W → Prop) w :
  (if c then Q (Err e) w else Q (Ok ()) w) → wp (guard_not c e) Q w.
Proof. destruct c; auto. Qed.

Lemma wp_try {A} (m : M W A) (Q : Res (A + error) → W → Prop) w :
  wp m (λ r w', match r with
                | Ok a => Q (Ok (inl a)) w'
                | Err e => Q (Ok (inr e)) w'
                | Panic => Q Panic w'
                end) w →
  wp (try_ m) Q w.
Proof. unfold wp, try_. destruct (m w) as [[a|e|] w']; auto. Qed.

(** Loop rule: [I] holds of the elements still to visit and the loop state;
    [Q] collects the early exits. *)
Lemma wp_foldM {A B} (f : A → B → M W A) (I : list B → A → W → Prop)
    (Q : Res A → W → Prop) l a w :
  I l a w →
  (∀ a w, I [] a w → Q (Ok a) w) →
  (∀ x l a w, I (x :: l) a w →
     wp (f a x) (λ r w', match r with
                         | Ok a' => I l a' w'
                         | Err e => Q (Err e) w'
                         | Panic => Q Panic w'
                         end) w) →
  wp (foldM f a l) Q w.
Proof.
  revert a w. induction l as [|x l IH]; intros a w HI Hnil Hstep; [by apply Hnil|].
  simpl. apply wp_bind. eapply wp_mono; [by apply Hstep|].
  intros [a'|e|] w' H; auto.
Qed.
End WP.

(** Running a sequence whose first part succeeds, and reading off the parts of
    a run that succeeded. *)
Section Runs.
Context {W A B : Type}.

Lemma bind_ok (m : M W A) (k : A → M W B) w a w' :
  m w = (Ok a, w') → (m ≫= k) w = k a w'.
Proof. intros H. unfold mbind, M_bind. by rewrite H. Qed.

Lemma bind_inv (m : M W A) (k : A → M W B) w b w' :
  (m ≫= k) w = (Ok b, w') → ∃ a w1, m w = (Ok a, w1) ∧ k a w1 = (Ok b, w').
Proof.
  unfold mbind, M_bind. destruct (m w) as [[a|e|] w1]; intros H; [by eauto|done|done].
Qed.

Lemma gets_inv (f : W → A) w a w' : gets f w = (Ok a, w') → a = f w ∧ w' = w.
Proof. intros [= <- <-]. done. Qed.

Lemma deref_inv (o : option A) (w : W) a w' : deref o w = (Ok a, w') → o = Some a ∧ w' = w.
Proof. destruct o; [intros [= <- <-]; done|done]. Qed.

Lemma ret_inv (x a : A) (w w' : W) : (mret x : M W A) w = (Ok a, w') → a = x ∧ w' = w.
Proof. intros [= <- <-]. done. Qed.
End Runs.

(** A loop that succeeds keeps what each of its successful steps keeps. *)
Lemma foldM_ok {W A B} (f : A → B → M W A) (I : A → W → Prop) l a w a' w' :
  (∀ x a w a' w', x ∈ l → I a w → f a x w = (Ok a', w') → I a' w') →
  I a w → foldM f a l w = (Ok a', w') → I a' w'.
Proof.
  revert a w. induction l as [|x l IH]; intros a w Hstep HI H.
  - by apply ret_inv in H as [-> ->].
  - cbn in H. apply bind_inv in H as (a1 & w1 & H1 & H).
    eapply (IH a1 w1); [|by eapply Hstep; [left| |]|done].
    intros y b v b' v' Hy. apply Hstep. by right.
Qed.

Lemma run_ok {W A} (p : Res A * W) a : p.1 = Ok a → p = (Ok a, p.2).
Proof. destruct p. by intros [= ->]. Qed.

Lemma guard_not_inv {W} (c : bool) e (w w' : W) u :
  guard_not c e w = (Ok u, w') → c = false ∧ w' = w.
Proof. destruct c; [done|]. intros [= <- <-]. done. Qed.

(** Invariants kept by code whatever its outcome. *)
Definition preserves {W A} (I : W → Prop) (m : M W A) : Prop :=
  ∀ w, I w → wp m (λ _ w', I w') w.

Create HintDb preserves.

Section Preserves.
Context {W : Type} (I : W → Prop).

Lemma preserves_ret {A} (a : A) : preserves I (mret a).
Proof. by intros w. Qed.
Lemma preserves_throw {A} e : preserves I (throw e : M W A).
Proof. by intros w. Qed.
Lemma preserves_panic {A} : preserves I (panic : M W A).
Proof. by intros w. Qed.
Lemma preserves_gets {A} (f : W → A) : preserves I (gets f).
Proof. by intros w. Qed.
Lemma preserves_lift_res {A} (r : Res A) : preserves I (lift_res r).
Proof. by intros w. Qed.
Lemma preserves_deref {A} (o : option A) : preserves I (deref o : M W A).
Proof. by destruct o; intros w. Qed.
Lemma preserves_guard_not (c : bool) e : preserves I (guard_not c e).
Proof. by destruct c; intros w. Qed.
Lemma preserves_modify (f : W → W) : (∀ w, I w → I (f w)) → preserves I (modify f).
Proof. intros H w Hw. by apply H. Qed.
Lemma preserves_bind {A B} (m : M W A) (k : A → M W B) :
  preserves I m → (∀ a, preserves I (k a)) → preserves I (m ≫= k).
Proof.
  intros Hm Hk w Hw. apply wp_bind. eapply wp_mono; [by apply Hm|].
  intros [a|e|] w' Hw'; auto. by apply Hk.
Qed.
Lemma preserves_try {A} (m : M W A) : preserves I m → preserves I (try_ m).
Proof.
  intros Hm w Hw. apply wp_try. eapply wp_mono; [by apply Hm|]. by intros [].
Qed.
Lemma preserves_ignore_err (m : M W unit) : preserves I m → preserves I (ignore_err m).
Proof.
  intros. apply preserves_bind; [by apply preserves_try|intros; apply preserves_ret].
Qed.
Lemma preserves_foldM {A B} (f : A → B → M W A) a l :
  (∀ a x, preserves I (f a x)) → preserves I (foldM f a l).
Proof.
  intros Hf w Hw. apply wp_foldM with (λ _ _ w, I w); auto.
  intros x l' a' w' Hw'. eapply wp_mono; [by apply Hf|]. by intros [].
Qed.
Lemma preserves_forM {B} (l : list B) (f : B → M W unit) :
  (∀ x, preserves I (f x)) → preserves I (forM l f).
Proof. intros. by apply preserves_foldM. Qed.
Lemma preserves_forM_in {B} (l : list B) (f : B → M W unit) :
  (∀ x, x ∈ l → preserves I (f x)) → preserves I (forM l f).
Proof.
  intros Hf w Hw. unfold forM. apply wp_foldM with (λ l' _ w, l' ⊆ l ∧ I w); [done|naive_solver|].
  intros x l' a w' [Hsub Hw']. eapply wp_mono; [apply Hf; [set_solver|done]|].
  intros [] w'' H; [split; [set_solver|done]|done|done].
Qed.
(** What is read from the world satisfies what the invariant says of it. *)
Lemma preserves_gets_bind {A B} (f : W → A) (k : A → M W B) :
  (∀ w, I w → preserves I (k (f w))) → preserves I (gets f ≫= k).
Proof. intros Hk w Hw. apply wp_bind, wp_gets. by apply Hk. Qed.
Lemma preserves_deref_bind {A B} (o : option A) (k : A → M W B) :
  (∀ a, o = Some a → preserves I (k a)) → preserves I (deref o ≫= k).
Proof. intros Hk w Hw. destruct o as [a|]; [by apply (Hk a)|done]. Qed.
Lemma preserves_if {A} (b : bool) (m1 m2 : M W A) :
  preserves I m1 → preserves I m2 → preserves I (if b then m1 else m2).
Proof. by destruct b. Qed.
Lemma preserves_zoom {V A} (get : W → V) put (m : M V A) :
  (∀ w v, I w → I (put v w)) → preserves I (zoom get put m).
Proof.
  intros H w Hw. unfold wp, zoom. destruct (m (get w)). simpl. auto.
Qed.
End Preserves.

#[export] Hint Resolve preserves_ret preserves_throw preserves_panic preserves_gets
  preserves_lift_res preserves_deref preserves_guard_not preserves_modify
  preserves_bind preserves_try preserves_ignore_err preserves_foldM preserves_forM
  preserves_if preserves_zoom : preserves.

(** ** Sums *)

Definition sumZ {A} (f : A → Z) (l : list A) : Z := foldr (λ x acc, f x + acc) 0 l.

Section Sums.
Context {A : Type}.
Implicit Types (f g : A → Z) (l : list A).

Lemma sumZ_app f l1 l2 : sumZ f (l1 ++ l2) = sumZ f l1 + sumZ f l2.
Proof. induction l1 as [|x l1 IH]; simpl; [done|]. rewrite IH. lia. Qed.

Lemma sumZ_permutation f l1 l2 : l1 ≡ₚ l2 → sumZ f l1 = sumZ f l2.
Proof. induction 1; simpl; lia. Qed.

Lemma sumZ_le f g l : (∀ x, x ∈ l → f x <= g x) → sumZ f l <= sumZ g l.
Proof.
  induction l as [|x l IH]; intros H; simpl; [lia|].
  pose proof (H x ltac:(set_solver)). pose proof (IH ltac:(set_solver)). lia.
Qed.

Lemma sumZ_ext f g l : (∀ x, x ∈ l → f x = g x) → sumZ f l = sumZ g l.
Proof.
  intros H. apply Z.le_antisymm; apply sumZ_le; intros x Hx; rewrite (H x Hx); lia.
Qed.

Lemma sumZ_nonneg f l : (∀ x, x ∈ l → 0 <= f x) → 0 <= sumZ f l.
Proof.
  induction l as [|x l IH]; intros H; simpl; [lia|].
  pose proof (H x ltac:(set_solver)). pose proof (IH ltac:(set_solver)). lia.
Qed.

Lemma sumZ_elem_le f l x : (∀ y, y ∈ l → 0 <= f y) → x ∈ l → f x <= sumZ f l.
Proof.
  intros H (l1 & l2 & ->)%list_elem_of_split. rewrite sumZ_app. simpl.
  pose proof (sumZ_nonneg f l1 ltac:(set_solver)).
  pose proof (sumZ_nonneg f l2 ltac:(set_solver)). lia.
Qed.

Lemma sumZ_add f g l : sumZ (λ x, f x + g x) l = sumZ f l + sumZ g l.
Proof. induction l as [|x l IH]; simpl; [done|]. rewrite IH. lia. Qed.

Lemma sumZ_mul_r f c l : sumZ (λ x, f x * c) l = sumZ f l * c.
Proof. induction l as [|x l IH]; simpl; [done|]. rewrite IH. lia. Qed.

(** Rounding each term down loses no more than rounding the sum. *)
Lemma sumZ_div_le f c l : 0 < c → sumZ (λ x, f x / c) l <= sumZ f l / c.
Proof.
  intros Hc. induction l as [|x l IH]; simpl; [by rewrite Z.div_0_l by lia|].
  pose proof (Z.mul_div_le (f x) c Hc). pose proof (Z.mul_div_le (sumZ f l) c Hc).
  apply Z.div_le_lower_bound; [lia|]. nia.
Qed.
End Sums.

Lemma sumZ_fmap {A B} (h : A → B) (f : B → Z) (l : list A) :
  sumZ f (h <$> l) = sumZ (f ∘ h) l.
Proof. induction l as [|x l IH]; [done|]. csimpl. by rewrite <- IH. Qed.

Definition map_sumZ `{Countable K} {A} (f : A → Z) (m : gmap K A) : Z :=
  sumZ (λ kv, f kv.2) (map_to_list m).

Section MapSums.
Context `{Countable K} {A : Type} (f : A → Z).
Implicit Types m : gmap K A.

Lemma map_sumZ_empty : map_sumZ f (∅ : gmap K A) = 0.
Proof. unfold map_sumZ. by rewrite map_to_list_empty. Qed.

Lemma map_sumZ_insert_fresh m k v :
  m !! k = None → map_sumZ f (<[k := v]> m) = f v + map_sumZ f m.
Proof.
  intros Hk. unfold map_sumZ.
  by rewrite (sumZ_permutation _ _ _ (map_to_list_insert m k v Hk)).
Qed.

Lemma map_sumZ_delete m k :
  map_sumZ f (delete k m) = map_sumZ f m - from_option f 0 (m !! k).
Proof.
  destruct (m !! k) as [v|] eqn:Hk; simpl.
  - rewrite <- (insert_id m k v Hk) at 2. rewrite <- insert_delete_eq.
    rewrite map_sumZ_insert_fresh by apply lookup_delete_eq. lia.
  - rewrite delete_id by done. lia.
Qed.

Lemma map_sumZ_insert m k v :
  map_sumZ f (<[k := v]> m) = map_sumZ f m + f v - from_option f 0 (m !! k).
Proof.
  rewrite <- insert_delete_eq, map_sumZ_insert_fresh by apply lookup_delete_eq.
  rewrite map_sumZ_delete. lia.
Qed.

Lemma map_sumZ_nonneg m :
  (∀ k v, m !! k = Some v → 0 <= f v) → 0 <= map_sumZ f m.
Proof.
  intros Hm. apply sumZ_nonneg. intros [k v] Hkv%elem_of_map_to_list. by eapply Hm.
Qed.

Lemma map_sumZ_lookup_le m k v :
  (∀ k v, m !! k = Some v → 0 <= f v) → m !! k = Some v → f v <= map_sumZ f m.
Proof.
  intros Hm Hk. unfold map_sumZ.
  apply (sumZ_elem_le (λ kv : K * A, f kv.2) (map_to_list m) (k, v)).
  - intros [k' v'] Hkv%elem_of_map_to_list. by eapply Hm.
  - by apply elem_of_map_to_list.
Qed.
End MapSums.

(** ** Sorting

    [sort.Sort] of Go's library promises a permutation of its input ordered by
    [Less]; the order of elements that are equal under [Less] is unspecified.
    [go_sort] is one such function, and [go_sort_unique] says that where [Less]
    tells all elements apart there is no other. *)

Section GoSort.
Context {A : Type} (less : A → A → bool).

Definition sort_le (x y : A) : Prop := less y x = false.

#[global] Instance sort_le_dec : RelDecision sort_le.
Proof. intros x y. unfold sort_le. apply _. Defined.

Definition go_sort (l : list A) : list A := merge_sort sort_le l.

Lemma go_sort_permutation l : go_sort l ≡ₚ l.
Proof. apply merge_sort_Permutation. Qed.

Lemma elem_of_go_sort x l : x ∈ go_sort l ↔ x ∈ l.
Proof. by rewrite go_sort_permutation. Qed.

(** What is asked of [Less]: a strict weak order. *)
Class LessOrder : Prop := {
  less_asym x y : less x y = true → less y x = false;
  less_negtrans x y z : less x y = false → less y z = false → less x z = false;
}.

Context `{!LessOrder}.

#[local] Instance sort_le_trans : Transitive sort_le.
Proof. intros x y z Hxy Hyz. unfold sort_le in *. by eapply less_negtrans. Qed.

#[local] Instance sort_le_total : Total sort_le.
Proof.
  intros x y. unfold sort_le. destruct (less y x) eqn:Hyx; [right|left]; auto.
  by apply less_asym.
Qed.

Lemma go_sort_sorted l : StronglySorted sort_le (go_sort l).
Proof. apply (StronglySorted_merge_sort sort_le). Qed.

(** Elements of [l] that are equal under [Less] are equal. *)
Definition distinguishes (l : list A) : Prop :=
  ∀ x y, x ∈ l → y ∈ l → less x y = false → less y x = false → x = y.

Lemma StronglySorted_sort_unique l1 l2 :
  distinguishes l1 → StronglySorted sort_le l1 → StronglySorted sort_le l2 →
  l1 ≡ₚ l2 → l1 = l2.
Proof.
  intros Hd H1 H2 Hp. apply (StronglySorted_unique_strong sort_le); auto.
  intros x y Hx Hy Hxy Hyx. rewrite <- Hp in Hy. by apply Hd.
Qed.

Lemma go_sort_unique l l' :
  distinguishes l → l' ≡ₚ l → StronglySorted sort_le l' → l' = go_sort l.
Proof.
  intros Hd Hp Hs. apply StronglySorted_sort_unique; auto using go_sort_sorted.
  - intros x y Hx Hy. apply Hd; by rewrite <- Hp.
  - by rewrite go_sort_permutation.
Qed.

Lemma go_sort_proper l l' :
  distinguishes l → l' ≡ₚ l → go_sort l' = go_sort l.
Proof.
  intros Hd Hp. apply go_sort_unique; auto using go_sort_sorted.
  by rewrite go_sort_permutation.
Qed.
End GoSort.

(** ** Filters *)

Section Filters.
Context {A : Type} (P Q : A → Prop) `{!∀ x, Decision (P x), !∀ x, Decision (Q x)}.

Lemma filter_ext_in (l : list A) : (∀ x, x ∈ l → P x ↔ Q x) → filter P l = filter Q l.
Proof.
  induction l as [|x l IH]; intros Hiff; [done|].
  pose proof (Hiff x ltac:(by left)) as Hx.
  rewrite !filter_cons. rewrite IH by (intros y Hy; apply Hiff; by right).
  repeat case_decide; tauto.
Qed.

Lemma filter_all (l : list A) : (∀ x, x ∈ l → P x) → filter P l = l.
Proof.
  induction l as [|x l IH]; intros Hall; [done|].
  rewrite filter_cons_True by (apply Hall; by left).
  by rewrite IH by (intros y Hy; apply Hall; by right).
Qed.
End Filters.

Lemma filter_fmap {A B} (f : A → B) (P : B → Prop) `{!∀ x, Decision (P x)} (l : list A) :
  filter P (f <$> l) = f <$> filter (λ x, P (f x)) l.
Proof.
  induction l as [|x l IH]; [done|]. csimpl. rewrite !filter_cons, IH.
  by repeat case_decide.
Qed.

(** Elements with distinct keys are determined by their keys. *)
Lemma NoDup_fmap_inj_in {A B} (f : A → B) (l : list A) x y :
  NoDup (f <$> l) → x ∈ l → y ∈ l → f x = f y → x = y.
Proof.
  intros Hnd [i Hi]%list_elem_of_lookup [j Hj]%list_elem_of_lookup Heq.
  assert (i = j) as ->; [|congruence].
  eapply NoDup_lookup; [exact Hnd|..]; rewrite list_lookup_fmap.
  - by rewrite Hi.
  - by rewrite Hj, Heq.
Qed.

(** ** Byte strings *)

Lemma append_length (x y : string) :
  String.length (x +:+ y) = (String.length x + String.length y)%nat.
Proof.
  induction x as [|a x IH]; [done|].
  change (S (String.length (x +:+ y)) = S (String.length x + String.length y)). by rewrite IH.
Qed.

Lemma append_assoc (a b c : string) : (a +:+ b) +:+ c = a +:+ (b +:+ c).
Proof. induction a as [|x a IH]; [done|]. exact (f_equal (String x) IH). Qed.
Lemma append_nil (s : string) : s +:+ "" = s.
Proof. induction s as [|x s IH]; [done|]. exact (f_equal (String x) IH). Qed.

Lemma append_length_inj (x y s t : string) :
  String.length x = String.length y → x +:+ s = y +:+ t → x = y ∧ s = t.
Proof.
  revert y. induction x as [|a x IH]; intros [|b y]; cbn; intros Hl H; try done.
  inversion H; subst. destruct (IH y) as [-> ->]; auto.
Qed.

Lemma append_inj_r (x y s t : string) :
  String.length s = String.length t → x +:+ s = y +:+ t → x = y ∧ s = t.
Proof.
  intros Hl H. apply append_length_inj; [|done].
  apply (f_equal String.length) in H. rewrite !append_length in H. lia.
Qed.

(** ** Tactics

    [run_m] evaluates the monad's operations in the goal; [run_m_in H] in a
    hypothesis.  [pres] proves that code keeps an invariant by going through
    its structure with the [preserves] hints. *)

Ltac unfold_m :=
  unfold mbind, M_bind, mret, M_ret, guard_not, gets, modify, throw, panic, deref,
    lift_res, try_, ignore_err, zoom.
Ltac unfold_m_in H :=
  unfold mbind, M_bind, mret, M_ret, guard_not, gets, modify, throw, panic, deref,
    lift_res, try_, ignore_err, zoom in H.
Ltac run_m := unfold_m; simpl.
Ltac run_m_in H := unfold_m_in H; simpl in H.

(** [m_eval] unfolds the monad completely and reduces what is then visible. *)
Ltac m_eval :=
  unfold deref, guard_not, ignore_err, forM;
  unfold mbind, M_bind, mret, M_ret, gets, modify, throw, panic, lift_res, try_, zoom;
  cbv beta iota.

Ltac m_eval_in H :=
  unfold deref, guard_not, ignore_err, forM in H;
  unfold mbind, M_bind, mret, M_ret, gets, modify, throw, panic, lift_res, try_, zoom in H;
  cbv beta iota in H.

Ltac pres :=
  repeat first
    [ progress intros
    | solve [auto with preserves]
    | apply preserves_bind
    | apply preserves_foldM
    | apply preserves_forM
    | apply preserves_try
    | apply preserves_ignore_err
    | case_match ].
