(* ===== verification/Contract.v ===== *)
(** * Addresses, the client library and the contract context

    Contracts are written against the go-diadem client library, whose code is
    not part of this repository.  What they use of it is the class
    [DiademLib]; what they rely on is the class [DiademLibSpec].  [BigUInt] is
    a struct around Go's [*big.Int] (the literals [diadem.BigUInt{big.NewInt(x)}]
    in the sources show it) and is a [Z] here: [Add], [Sub], [Mul], [Cmp] are
    the integer operations, [Div] is [big.Int]'s Euclidean division, which for
    the positive divisors used is [Z.div].

    The library's permissions are the class [Permissions], the order of
    [ctx.Range] the class [RangeOrder].

    [SimpleLib] is one implementation of the library, for evaluating the
    definitions on concrete inputs. *)

From S2P Require Import Prelude.

(** Byte strings ([[]byte], [string], [LocalAddress]) are [string]s: sequences
    of 8-bit characters, compared as [bytes.Compare] compares them. *)
Abbreviation bytes := string (only parsing).

(** [diadem.Address], and [types.Address], its protocol buffer form. *)
Record Address := mkAddress { ChainID : string; Local : bytes }.

#[global] Instance Address_eq_dec : EqDecision Address.
Proof. solve_decision. Defined.

#[global] Instance Address_countable : Countable Address.
Proof.
  apply (inj_countable' (λ a, (ChainID a, Local a)) (λ p, mkAddress p.1 p.2)).
  by intros [].
Defined.

(** [bytes.Compare] and [strings.Compare] of Go's library. *)
Definition bytes_compare (x y : bytes) : Z :=
  match String.compare x y with Lt => -1 | Eq => 0 | Gt => 1 end.

Class DiademLib := {
  (** [LocalAddress.Compare] *)
  local_compare : bytes → bytes → Z;
  (** [Address.Compare] *)
  address_compare : Address → Address → Z;
  (** [Address.String] *)
  address_string : Address → string;
  (** [MustParseAddress]; [None] is its panic *)
  parse_address : string → option Address;
  (** [Address.Bytes] *)
  address_bytes : Address → bytes;
  (** [LocalAddressFromPublicKey] *)
  local_from_pubkey : bytes → bytes;
  (** [util.PrefixKey] *)
  prefix_key : list bytes → bytes;
}.

(** A comparison function in the style of [bytes.Compare]: zero exactly on
    equal arguments, and a total order. *)
Class CompareSpec {A} (cmp : A → A → Z) : Prop := {
  cmp_eq x y : cmp x y = 0 ↔ x = y;
  cmp_antisym x y : cmp x y < 0 ↔ 0 < cmp y x;
  cmp_trans x y z : cmp x y < 0 → cmp y z < 0 → cmp x z < 0;
}.

(** Addresses are encoded without clashes as long as they are well formed: a
    local address has 20 bytes, a chain id has no zero byte. *)
Definition wf_address (a : Address) : Prop :=
  String.length (Local a) = 20%nat ∧ String.index 0 (String (Ascii.ascii_of_nat 0) "") (ChainID a) = None.

Class DiademLibSpec `{DiademLib} : Prop := {
  local_compare_spec :: CompareSpec local_compare;
  address_compare_spec :: CompareSpec address_compare;
  prefix_key_inj1 p x y : prefix_key [p; x] = prefix_key [p; y] → x = y;
  prefix_key_inj2 p a b :
    wf_address a → wf_address b →
    prefix_key [p; address_bytes a] = prefix_key [p; address_bytes b] → a = b;
  prefix_key_inj3 p a b c d :
    wf_address a → wf_address b → wf_address c → wf_address d →
    prefix_key [p; address_bytes a; address_bytes b] =
    prefix_key [p; address_bytes c; address_bytes d] → a = c ∧ b = d;
}.

Section Compare.
Context {A : Type} (cmp : A → A → Z) `{!CompareSpec cmp}.

Lemma cmp_refl x : cmp x x = 0.
Proof. by apply cmp_eq. Qed.

Lemma cmp_ne x y : x ≠ y → cmp x y ≠ 0.
Proof. by rewrite cmp_eq. Qed.

Lemma cmp_trichotomy x y : cmp x y < 0 ∨ x = y ∨ cmp y x < 0.
Proof.
  destruct (Z.lt_trichotomy (cmp x y) 0) as [?|[?|Hgt]]; [by left| |].
  - right; left. by apply cmp_eq.
  - right; right. by apply (cmp_antisym y x).
Qed.

Lemma cmp_eqb x y : (cmp x y =? 0) = true ↔ x = y.
Proof. rewrite Z.eqb_eq. apply cmp_eq. Qed.

Lemma cmp_eqb_false x y : (cmp x y =? 0) = false ↔ x ≠ y.
Proof. rewrite Z.eqb_neq. by rewrite cmp_eq. Qed.

Lemma cmp_cases x y : x = y ∨ x ≠ y ∧ (cmp x y =? 0) = false.
Proof.
  destruct (cmp x y =? 0) eqn:E; [left; by apply cmp_eqb|right].
  split; [by apply cmp_eqb_false|done].
Qed.

(** [Less] functions of the form [cmp (key x) (key y) < 0]. *)
Lemma less_of_cmp {B} (key : B → A) :
  LessOrder (λ x y, cmp (key x) (key y) <? 0).
Proof.
  split; intros x y; rewrite ?Z.ltb_lt, ?Z.ltb_ge.
  - rewrite cmp_antisym. lia.
  - intros z Hxy Hyz. rewrite Z.ltb_ge in *. apply Z.nlt_ge. intros Hxz.
    destruct (cmp_trichotomy (key x) (key y)) as [?|[Heq|Hyx]]; [lia| |].
    + rewrite Heq in Hxz. lia.
    + pose proof (cmp_trans _ _ _ Hyx Hxz). lia.
Qed.
End Compare.

(** ** The context of a contract call

    [ctx.Message().Sender], [ctx.Now().Unix()], [ctx.ContractAddress()],
    [ctx.Block()] and the registry behind [ctx.Resolve].  The store part of the
    context is the world the code runs in. *)
Record Ctx := mkCtx {
  ctx_sender : Address;
  ctx_now : Z;
  ctx_contract : Address;
  ctx_chain : string;
  ctx_height : Z;
  ctx_registry : gmap string Address;
}.

Definition ctx_resolve {W} (ctx : Ctx) (name : string) : M W Address :=
  match ctx_registry ctx !! name with
  | Some a => mret a
  | None => throw ErrNotFound
  end.

(** [common.IsZero], [common.IsPositive] *)
Definition IsZero (x : Z) : bool := x =? 0.
Definition IsPositive (x : Z) : bool := 0 <? x.

(** ** The ERC20 interface

    The calls a contract makes to a token contract at address [contract], with
    the caller as the message sender ([ERC20.Transfer] and [ERC20.TransferFrom]
    of the dpos packages).  [L] is the state of the token contracts. *)
Class ERC20 (L : Type) := {
  erc20_transfer (contract caller to : Address) (amount : Z) : M L unit;
  erc20_transfer_from (contract caller from to : Address) (amount : Z) : M L unit;
  erc20_balance (contract : Address) (l : L) (owner : Address) : Z;
}.

(** What a client relies on: a call that succeeds between distinct accounts
    moves exactly [amount], and a call that fails moves nothing. *)
Class ERC20Spec (L : Type) `{ERC20 L} (good : L → Prop) : Prop := {
  erc20_transfer_moves contract caller to amount l l' :
    good l → 0 <= amount → wf_address caller → wf_address to → caller ≠ to →
    erc20_transfer contract caller to amount l = (Ok (), l') →
    good l' ∧
    erc20_balance contract l' caller = erc20_balance contract l caller - amount ∧
    erc20_balance contract l' to = erc20_balance contract l to + amount ∧
    0 <= erc20_balance contract l' caller;
  erc20_transfer_from_moves contract caller from to amount l l' :
    good l → 0 <= amount → wf_address caller → wf_address from → wf_address to → from ≠ to →
    erc20_transfer_from contract caller from to amount l = (Ok (), l') →
    good l' ∧
    erc20_balance contract l' from = erc20_balance contract l from - amount ∧
    erc20_balance contract l' to = erc20_balance contract l to + amount ∧
    0 <= erc20_balance contract l' from;
}.

(** ** Permissions

    [ctx.GrantPermissionTo], [ctx.RevokePermissionFrom] and [ctx.HasPermission]
    of the client library: a permission is a token that an address holds in a
    role.  [HasPermission] asks whether the sender holds the token in one of the
    roles.  [P] is where the library keeps the permissions of a contract. *)
Class Permissions (P : Type) := {
  perm_none : P;
  perm_grant (addr : Address) (token : bytes) (role : string) : P → P;
  perm_revoke (addr : Address) (token : bytes) (role : string) : P → P;
  perm_has (p : P) (addr : Address) (token : bytes) (roles : list string) : bool;
}.

Class PermissionsSpec (P : Type) `{Permissions P} : Prop := {
  perm_has_none a t rs : perm_has perm_none a t rs = false;
  perm_has_grant p a t r b u :
    wf_address a → wf_address b →
    perm_has (perm_grant b u r p) a t [r] =
      if decide (a = b ∧ t = u) then true else perm_has p a t [r];
  perm_has_revoke p a t r b u :
    wf_address a → wf_address b →
    perm_has (perm_revoke b u r p) a t [r] =
      if decide (a = b ∧ t = u) then false else perm_has p a t [r];
  perm_has_grant_other p a t r b u r' :
    r ≠ r' → perm_has (perm_grant b u r' p) a t [r] = perm_has p a t [r];
  perm_has_revoke_other p a t r b u r' :
    r ≠ r' → perm_has (perm_revoke b u r' p) a t [r] = perm_has p a t [r];
}.

(** ** Ranges

    [ctx.Range(prefix)] returns the records under a prefix in an order that
    depends on the store. *)
Class RangeOrder := {
  range_of {V : Type} : gmap bytes V → list (bytes * V);
}.

Class RangeOrderSpec `{RangeOrder} : Prop := {
  range_of_perm {V} (m : gmap bytes V) : range_of m ≡ₚ map_to_list m;
}.

(** ** A concrete library *)

Lemma string_compare_trans s1 s2 s3 :
  String.compare s1 s2 = Lt → String.compare s2 s3 = Lt → String.compare s1 s3 = Lt.
Proof.
  revert s2 s3. induction s1 as [|a s1 IH]; intros [|b s2] [|c s3]; simpl; try done.
  unfold Ascii.compare.
  destruct (N.compare_spec (Ascii.N_of_ascii a) (Ascii.N_of_ascii b)) as [Hab|Hab|Hab];
    destruct (N.compare_spec (Ascii.N_of_ascii b) (Ascii.N_of_ascii c)) as [Hbc|Hbc|Hbc];
    try done; intros H1 H2.
  - rewrite Hab, Hbc, N.compare_refl. eauto.
  - rewrite Hab. by apply N.compare_lt_iff in Hbc as ->.
  - rewrite <- Hbc. by apply N.compare_lt_iff in Hab as ->.
  - pose proof (N.lt_trans _ _ _ Hab Hbc) as Hac. by apply N.compare_lt_iff in Hac as ->.
Qed.

#[global] Instance bytes_compare_spec : CompareSpec bytes_compare.
Proof.
  unfold bytes_compare. split.
  - intros x y. split.
    + pose proof (String.compare_eq_iff x y). destruct (String.compare x y); naive_solver.
    + intros ->. pose proof (String.compare_antisym y y).
      by destruct (String.compare y y).
  - intros x y. rewrite (String.compare_antisym y x).
    destruct (String.compare x y); simpl; lia.
  - intros x y z. pose proof (string_compare_trans x y z) as Ht.
    destruct (String.compare x y); try lia. destruct (String.compare y z); try lia.
    rewrite Ht by done. lia.
Qed.

(** The lexicographic product of two comparisons. *)
Definition lex_compare {A B} (ca : A → A → Z) (cb : B → B → Z) (x y : A * B) : Z :=
  if ca x.1 y.1 =? 0 then cb x.2 y.2 else ca x.1 y.1.

#[global] Instance lex_compare_spec {A B} (ca : A → A → Z) (cb : B → B → Z) :
  CompareSpec ca → CompareSpec cb → CompareSpec (lex_compare ca cb).
Proof.
  intros Ha Hb. unfold lex_compare. split.
  - intros [x1 x2] [y1 y2]; simpl. destruct (ca x1 y1 =? 0) eqn:E.
    + apply (cmp_eqb ca) in E as ->. rewrite (cmp_eq (cmp := cb)). naive_solver.
    + apply Z.eqb_neq in E. split; [lia|]. intros [= -> ->]. by rewrite cmp_refl in E.
  - intros [x1 x2] [y1 y2]; simpl.
    destruct (cmp_cases ca x1 y1) as [->|[Hne ->]].
    + rewrite (cmp_refl ca). simpl. apply cmp_antisym.
    + destruct (cmp_cases ca y1 x1) as [->|[_ ->]]; [done|]. apply cmp_antisym.
  - intros [x1 x2] [y1 y2] [z1 z2]; simpl.
    destruct (cmp_cases ca x1 y1) as [->|[Hxy Exy]]; [rewrite (cmp_refl ca); simpl|].
    { destruct (ca y1 z1 =? 0); [apply cmp_trans|lia]. }
    rewrite Exy. destruct (cmp_cases ca y1 z1) as [->|[Hyz ->]].
    { rewrite (cmp_refl ca), Exy. simpl. lia. }
    intros H1 H2. pose proof (cmp_trans _ _ _ H1 H2) as H3.
    assert (E : (ca x1 z1 =? 0) = false) by (apply Z.eqb_neq; lia). by rewrite E.
Qed.

#[global] Instance Zsub_compare_spec : CompareSpec (λ x y : Z, x - y).
Proof. split; intros; lia. Qed.

(** Events of another chain are ordered by block, transaction and log. *)
Definition event_compare : Z * (Z * Z) → Z * (Z * Z) → Z :=
  lex_compare (λ x y, x - y) (lex_compare (λ x y, x - y) (λ x y, x - y)).

#[global] Instance event_compare_spec : CompareSpec event_compare.
Proof. apply _. Qed.

Lemma event_compare_trans x y z :
  event_compare x y <= 0 → event_compare y z <= 0 → event_compare x z <= 0.
Proof.
  intros H1 H2. destruct (decide (x = y)) as [->|Hxy]; [done|].
  destruct (decide (y = z)) as [->|Hyz]; [done|].
  apply (cmp_ne event_compare) in Hxy, Hyz.
  pose proof (cmp_trans x y z (cmp := event_compare)). lia.
Qed.

Lemma event_compare_total x y : ¬ event_compare x y <= 0 → event_compare y x <= 0.
Proof. intros H. pose proof (cmp_antisym y x (cmp := event_compare)). lia. Qed.

Module SimpleLib.
Definition pair_of (a : Address) : string * bytes := (ChainID a, Local a).

(** Each part preceded by its length in unary. *)
Fixpoint unary (n : nat) : string :=
  match n with O => ";" | S n => "|" +:+ unary n end.

Fixpoint encode (l : list bytes) : bytes :=
  match l with [] => "" | x :: l => unary (String.length x) +:+ x +:+ encode l end.

(** The 20 bytes of a local address, then the chain id. *)
Definition to_string (a : Address) : string := Local a +:+ ChainID a.
Definition of_string (s : string) : option Address :=
  if decide (20 <= String.length s)%nat then
    Some (mkAddress (String.substring 20 (String.length s - 20) s) (String.substring 0 20 s))
  else None.

#[global] Instance lib : DiademLib := {
  local_compare := bytes_compare;
  address_compare a b := lex_compare bytes_compare bytes_compare (pair_of a) (pair_of b);
  address_string := to_string;
  parse_address := of_string;
  address_bytes := to_string;
  local_from_pubkey pk := String.substring 0 20 pk;
  prefix_key := encode;
}.

Lemma unary_app_inj n m s t : unary n +:+ s = unary m +:+ t → n = m ∧ s = t.
Proof.
  revert m. induction n as [|n IH]; intros [|m]; cbn; intros H; inversion H; [done|].
  destruct (IH m) as [-> ->]; done.
Qed.

Lemma encode_inj l l' : encode l = encode l' → l = l'.
Proof.
  revert l'. induction l as [|x l IH]; intros [|y l']; simpl; intros H; [done| | |].
  - by destruct (String.length y).
  - by destruct (String.length x).
  - apply unary_app_inj in H as [Hl H]. apply append_length_inj in H as [-> H]; [|done].
    f_equal. by apply IH.
Qed.

Lemma to_string_inj a b : wf_address a → wf_address b → to_string a = to_string b → a = b.
Proof.
  destruct a as [c l], b as [c' l']. intros [Hl _] [Hl' _] H. unfold to_string in H. simpl in *.
  apply append_length_inj in H as [-> ->]; [done|congruence].
Qed.

#[global] Instance lib_spec : DiademLibSpec.
Proof.
  split; try apply _.
  - split; intros *; cbn -[lex_compare].
    + rewrite (cmp_eq (cmp := lex_compare bytes_compare bytes_compare)).
      unfold pair_of. destruct x, y. naive_solver.
    + apply cmp_antisym.
    + apply cmp_trans.
  - intros p x y H%encode_inj. by injection H.
  - intros p a b Ha Hb H%encode_inj. injection H as H. by apply to_string_inj.
  - intros p a b c d Ha Hb Hc Hd H%encode_inj. inversion H. split; by apply to_string_inj.
Qed.

(** Permissions as a set of triples. *)
#[global] Instance perms : Permissions (gset (Address * bytes * string)) := {
  perm_none := ∅;
  perm_grant a t r p := {[ (a, t, r) ]} ∪ p;
  perm_revoke a t r p := p ∖ {[ (a, t, r) ]};
  perm_has p a t rs := existsb (λ r, bool_decide ((a, t, r) ∈ p)) rs;
}.

#[global] Instance perms_spec : PermissionsSpec (gset (Address * bytes * string)).
Proof.
  split.
  - intros a t rs. cbn. induction rs as [|r rs IH]; [done|]. cbn. rewrite IH, bool_decide_eq_false_2; [done|set_solver].
  - intros p a t r b u _ _. cbn. rewrite !orb_false_r. case_decide as Hd.
    + apply bool_decide_eq_true_2. destruct Hd as [-> ->]. set_solver.
    + apply bool_decide_ext. set_solver.
  - intros p a t r b u _ _. cbn. rewrite !orb_false_r. case_decide as Hd.
    + apply bool_decide_eq_false_2. destruct Hd as [-> ->]. set_solver.
    + apply bool_decide_ext. set_solver.
  - intros p a t r b u r' Hr. cbn. rewrite !orb_false_r. apply bool_decide_ext. set_solver.
  - intros p a t r b u r' Hr. cbn. rewrite !orb_false_r. apply bool_decide_ext. set_solver.
Qed.

#[global] Instance range : RangeOrder := {| range_of V m := map_to_list m |}.

#[global] Instance range_spec : RangeOrderSpec.
Proof. by split. Qed.

(** Any countable data as a string: positive numbers in binary digits. *)
Fixpoint pos_string (p : positive) : string :=
  match p with xH => "" | xO p => "0" +:+ pos_string p | xI p => "1" +:+ pos_string p end.
Fixpoint string_pos (s : string) : positive :=
  match s with
  | "" => xH
  | String c s => if String.eqb (String c "") "0" then xO (string_pos s) else xI (string_pos s)
  end.
Definition pack `{Countable A} (a : A) : string := pos_string (countable.encode a).
Definition unpack `{Countable A} (s : string) : option A := countable.decode (string_pos s).

Lemma string_pos_string p : string_pos (pos_string p) = p.
Proof. induction p as [p IH|p IH|]; [..|done]; by rewrite <- IH at 2. Qed.

Lemma unpack_pack `{Countable A} (a : A) : unpack (pack a) = Some a.
Proof. unfold unpack, pack. by rewrite string_pos_string, decode_encode. Qed.

Lemma pack_inj `{Countable A} (a b : A) : pack a = pack b → a = b.
Proof. intros H1. apply (f_equal (unpack (A := A))) in H1. rewrite !unpack_pack in H1. by injection H1. Qed.

(** Sample well-formed addresses: [sample "a"], [sample "b"], ... *)
Definition sample (c : string) : Address :=
  mkAddress "diadem" (c +:+ "0000000000000000000").

(** A call context with the given sender and time, contract [sample "X"]. *)
Definition sample_ctx (sender : Address) (now : Z) : Ctx :=
  mkCtx sender now (sample "X") "diadem" 1
    {[ "diademcoin-gateway" := sample "G"; "coin" := sample "C" ]}.
End SimpleLib.
