(* ===== verification/Coin.v ===== *)
(** * The coin contract (src/builtin/plugins/coin/coin.go)

    [CoinStore] is the contract's slice of the store: the economy record and
    the account and allowance records under their keys.  Section [Ops] has one
    definition per method or helper; the rest of the file proves the ledger
    invariant ([coin_wf]: the recorded total supply is the sum of the balances
    and nothing is negative), the exact effect of transfers, and that the
    contract implements the [ERC20] interface. *)

From S2P Require Import Prelude Contract.

Record Account := mkAccount { acct_Owner : Address; acct_Balance : Z }.
Record Allowance := mkAllowance {
  al_Owner : Address; al_Spender : Address; al_Amount : option Z }.
Record Economy := mkEconomy { TotalSupply : Z }.

Record InitialAccount := mkInitialAccount { ia_Owner : option Address; ia_Balance : Z }.
Record TransferRequest := mkTransferRequest { tr_To : option Address; tr_Amount : option Z }.
Record ApproveRequest := mkApproveRequest { ap_Spender : option Address; ap_Amount : option Z }.
Record TransferFromRequest := mkTransferFromRequest {
  tf_From : option Address; tf_To : option Address; tf_Amount : option Z }.
Record BurnRequest := mkBurnRequest { br_Owner : option Address; br_Amount : option Z }.

Record CoinStore := mkCoinStore {
  cs_economy : option Economy;
  cs_accounts : gmap bytes Account;
  cs_allowances : gmap bytes Allowance;
}.

Definition empty_coin_store : CoinStore := mkCoinStore None ∅ ∅.

Definition set_economy (e : Economy) (s : CoinStore) : CoinStore :=
  mkCoinStore (Some e) (cs_accounts s) (cs_allowances s).
Definition set_account (k : bytes) (a : Account) (s : CoinStore) : CoinStore :=
  mkCoinStore (cs_economy s) (<[k := a]> (cs_accounts s)) (cs_allowances s).
Definition set_allowance (k : bytes) (a : Allowance) (s : CoinStore) : CoinStore :=
  mkCoinStore (cs_economy s) (cs_accounts s) (<[k := a]> (cs_allowances s)).

Section Ops.
Context {LIB : DiademLib}.

Definition accountKey (addr : Address) : bytes :=
  prefix_key ["account"; address_bytes addr].

Definition allowanceKey (owner spender : Address) : bytes :=
  prefix_key ["allowance"; address_bytes owner; address_bytes spender].

(** [diadem.UnmarshalAddressPB] of a request field: nil panics. *)
Definition UnmarshalAddressPB {W} (a : option Address) : M W Address := deref a.

(** A missing record leaves the zero balance the function starts from. *)
Definition loadAccount (s : CoinStore) (owner : Address) : Account :=
  default (mkAccount owner 0) (cs_accounts s !! accountKey owner).

Definition saveAccount (acct : Account) : M CoinStore unit :=
  modify (set_account (accountKey (acct_Owner acct)) acct).

Definition loadAllowance (s : CoinStore) (owner spender : Address) : Allowance :=
  default (mkAllowance owner spender (Some 0))
    (cs_allowances s !! allowanceKey owner spender).

Definition saveAllowance (allow : Allowance) : M CoinStore unit :=
  modify (set_allowance (allowanceKey (al_Owner allow) (al_Spender allow)) allow).

Definition loadEconomy (s : CoinStore) : Economy := default (mkEconomy 0) (cs_economy s).

(** [Coin.Init]: the balances of the request are whole coins, stored with 18
    decimals. *)
Definition Init (accounts : list InitialAccount) : M CoinStore unit :=
  let div := 10 ^ 18 in
  supply ← foldM (λ supply initAcct,
      owner ← UnmarshalAddressPB (ia_Owner initAcct);
      let balance := i64 (ia_Balance initAcct) * div in
      let acct := mkAccount owner balance in
      modify (set_account (accountKey owner) acct);;
      mret (supply + acct_Balance acct)) 0 accounts;
  modify (set_economy (mkEconomy supply)).

Definition burn (from : Address) (amount : Z) : M CoinStore unit :=
  account ← gets (λ s, loadAccount s from);
  econ ← gets loadEconomy;
  let bal := acct_Balance account in
  let supply := TotalSupply econ in
  guard_not ((bal <? amount) || (supply <? amount))
    (ErrMsg "cant burn coins more than available balance");;
  saveAccount (mkAccount (acct_Owner account) (bal - amount));;
  modify (set_economy (mkEconomy (supply - amount))).

Definition mint (to : Address) (amount : Z) : M CoinStore unit :=
  account ← gets (λ s, loadAccount s to);
  econ ← gets loadEconomy;
  saveAccount (mkAccount (acct_Owner account) (acct_Balance account + amount));;
  modify (set_economy (mkEconomy (TotalSupply econ + amount))).

Definition MintToGateway (ctx : Ctx) (amount : option Z) : M CoinStore unit :=
  gatewayAddr ← ctx_resolve ctx "diademcoin-gateway";
  guard_not (negb (address_compare (ctx_sender ctx) gatewayAddr =? 0))
    (ErrMsg "not authorized to mint Diadem coin");;
  amount ← deref amount;
  mint gatewayAddr amount.

Definition Burn (ctx : Ctx) (req : BurnRequest) : M CoinStore unit :=
  match br_Owner req, br_Amount req with
  | Some owner, Some amount =>
      gatewayAddr ← ctx_resolve ctx "diademcoin-gateway";
      guard_not (negb (address_compare (ctx_sender ctx) gatewayAddr =? 0))
        (ErrMsg "not authorized to burn Diadem coin");;
      burn owner amount
  | _, _ => throw (ErrMsg "owner or amount is nil")
  end.

Definition TotalSupplyOf (s : CoinStore) : Res Z :=
  match cs_economy s with
  | Some econ => Ok (TotalSupply econ)
  | None => Err ErrNotFound
  end.

Definition BalanceOf (s : CoinStore) (owner : option Address) : Res Z :=
  match owner with
  | Some owner => Ok (acct_Balance (loadAccount s owner))
  | None => Panic
  end.

Definition Transfer (ctx : Ctx) (req : TransferRequest) : M CoinStore unit :=
  let from := ctx_sender ctx in
  to ← UnmarshalAddressPB (tr_To req);
  fromAccount ← gets (λ s, loadAccount s from);
  toAccount ← gets (λ s, loadAccount s to);
  amount ← deref (tr_Amount req);
  let fromBalance := acct_Balance fromAccount in
  let toBalance := acct_Balance toAccount in
  guard_not (fromBalance <? amount) (ErrMsg "sender balance is too low");;
  let fromBalance := fromBalance - amount in
  let toBalance := toBalance + amount in
  saveAccount (mkAccount (acct_Owner fromAccount) fromBalance);;
  saveAccount (mkAccount (acct_Owner toAccount) toBalance).

Definition Approve (ctx : Ctx) (req : ApproveRequest) : M CoinStore unit :=
  let owner := ctx_sender ctx in
  spender ← UnmarshalAddressPB (ap_Spender req);
  allow ← gets (λ s, loadAllowance s owner spender);
  saveAllowance (mkAllowance (al_Owner allow) (al_Spender allow) (ap_Amount req)).

Definition AllowanceOf (s : CoinStore) (owner spender : option Address) : Res (option Z) :=
  match owner, spender with
  | Some owner, Some spender => Ok (al_Amount (loadAllowance s owner spender))
  | _, _ => Panic
  end.

Definition TransferFrom (ctx : Ctx) (req : TransferFromRequest) : M CoinStore unit :=
  let spender := ctx_sender ctx in
  from ← UnmarshalAddressPB (tf_From req);
  to ← UnmarshalAddressPB (tf_To req);
  fromAccount ← gets (λ s, loadAccount s from);
  toAccount ← gets (λ s, loadAccount s to);
  allow ← gets (λ s, loadAllowance s from spender);
  allowAmount ← deref (al_Amount allow);
  amount ← deref (tf_Amount req);
  let fromBalance := acct_Balance fromAccount in
  let toBalance := acct_Balance toAccount in
  guard_not (allowAmount <? amount) (ErrMsg "amount is over spender's limit");;
  guard_not (fromBalance <? amount) (ErrMsg "sender balance is too low");;
  let fromBalance := fromBalance - amount in
  let toBalance := toBalance + amount in
  saveAccount (mkAccount (acct_Owner fromAccount) fromBalance);;
  saveAccount (mkAccount (acct_Owner toAccount) toBalance);;
  let allowAmount := allowAmount - amount in
  saveAllowance (mkAllowance (al_Owner allow) (al_Spender allow) (Some allowAmount)).
End Ops.

(** ** The ledger invariant *)

Section Ledger.
Context {LIB : DiademLib} {SPEC : DiademLibSpec}.
Implicit Types s : CoinStore.

Definition balance s (a : Address) : Z := acct_Balance (loadAccount s a).
Definition supply s : Z := TotalSupply (loadEconomy s).

(** Records sit under the key of the address they name. *)
Definition account_ok (k : bytes) (a : Account) : Prop :=
  k = accountKey (acct_Owner a) ∧ wf_address (acct_Owner a) ∧ 0 <= acct_Balance a.

Definition allowance_ok (k : bytes) (al : Allowance) : Prop :=
  k = allowanceKey (al_Owner al) (al_Spender al) ∧
  wf_address (al_Owner al) ∧ wf_address (al_Spender al) ∧
  0 <= default 0 (al_Amount al).

Record coin_wf s : Prop := {
  wf_accounts : map_Forall account_ok (cs_accounts s);
  wf_allowances : map_Forall allowance_ok (cs_allowances s);
  wf_supply : supply s = map_sumZ acct_Balance (cs_accounts s);
}.

Lemma coin_wf_empty : coin_wf empty_coin_store.
Proof. split; [apply map_Forall_empty..|]. symmetry. apply map_sumZ_empty. Qed.

(** Writing balance [v] for [a], the common effect of all operations. *)
Definition put_balance (a : Address) (v : Z) s : CoinStore :=
  set_account (accountKey a) (mkAccount a v) s.

Lemma accountKey_inj a b :
  wf_address a → wf_address b → accountKey a = accountKey b → a = b.
Proof. apply prefix_key_inj2. Qed.

Lemma allowanceKey_inj a b c d :
  wf_address a → wf_address b → wf_address c → wf_address d →
  allowanceKey a b = allowanceKey c d → a = c ∧ b = d.
Proof. apply prefix_key_inj3. Qed.

Lemma loadAccount_eq s a :
  coin_wf s → wf_address a → loadAccount s a = mkAccount a (balance s a).
Proof.
  intros Hwf Ha. unfold balance, loadAccount.
  destruct (cs_accounts s !! accountKey a) as [[o v]|] eqn:E; simpl; [|done].
  destruct (wf_accounts _ Hwf _ _ E) as (Hk & Ho & _). simpl in *.
  by rewrite (accountKey_inj a o).
Qed.

Lemma loadAllowance_eq s a b :
  coin_wf s → wf_address a → wf_address b →
  loadAllowance s a b = mkAllowance a b (al_Amount (loadAllowance s a b)).
Proof.
  intros Hwf Ha Hb. unfold loadAllowance.
  destruct (cs_allowances s !! allowanceKey a b) as [[o p v]|] eqn:E; simpl; [|done].
  destruct (wf_allowances _ Hwf _ _ E) as (Hk & Ho & Hp & _). simpl in *.
  by destruct (allowanceKey_inj a b o p) as [-> ->].
Qed.

Lemma balance_nonneg s a : coin_wf s → 0 <= balance s a.
Proof.
  intros Hwf. unfold balance, loadAccount.
  destruct (cs_accounts s !! accountKey a) eqn:E; simpl; [|lia].
  by apply (wf_accounts _ Hwf _ _ E).
Qed.

Lemma balance_put s a b v :
  wf_address a → wf_address b →
  balance (put_balance a v s) b = if decide (a = b) then v else balance s b.
Proof.
  intros Ha Hb. unfold balance, loadAccount, put_balance. simpl. rewrite lookup_insert.
  repeat case_decide; simpl; try congruence.
  exfalso. naive_solver eauto using accountKey_inj.
Qed.

Lemma balance_set_allowance s k al a : balance (set_allowance k al s) a = balance s a.
Proof. done. Qed.

Lemma balance_set_economy s e a : balance (set_economy e s) a = balance s a.
Proof. done. Qed.

(** Reading any balance after a move of [x] from [a] to [b]. *)
Lemma balance_move s a b c x :
  wf_address a → wf_address b → wf_address c → a ≠ b →
  balance (put_balance b (balance s b + x) (put_balance a (balance s a - x) s)) c =
    if decide (c = a) then balance s a - x
    else if decide (c = b) then balance s b + x else balance s c.
Proof.
  intros. rewrite !balance_put by done. repeat case_decide; congruence.
Qed.

Lemma supply_put s a v : supply (put_balance a v s) = supply s.
Proof. done. Qed.

Lemma sum_put s a v :
  map_sumZ acct_Balance (cs_accounts (put_balance a v s)) =
  map_sumZ acct_Balance (cs_accounts s) + v - balance s a.
Proof.
  simpl. rewrite map_sumZ_insert. unfold balance, loadAccount. simpl.
  by destruct (cs_accounts s !! accountKey a).
Qed.

Lemma put_accounts_ok s a v :
  coin_wf s → wf_address a → 0 <= v →
  map_Forall account_ok (cs_accounts (put_balance a v s)).
Proof. intros Hwf Ha Hv. apply map_Forall_insert_2; [done|apply Hwf]. Qed.

(** Two balance writes that cancel out keep the invariant. *)
Lemma coin_wf_move s a b x :
  coin_wf s → wf_address a → wf_address b → a ≠ b →
  0 <= x <= balance s a →
  coin_wf (put_balance b (balance s b + x) (put_balance a (balance s a - x) s)).
Proof.
  intros Hwf Ha Hb Hab Hx. pose proof (balance_nonneg s b Hwf).
  assert (Hb' : balance (put_balance a (balance s a - x) s) b = balance s b).
  { rewrite balance_put by done. by case_decide. }
  split.
  - apply map_Forall_insert_2; [split; simpl; [done|split; [done|lia]]|].
    apply put_accounts_ok; [done..|lia].
  - apply Hwf.
  - rewrite !supply_put, !sum_put, Hb', (wf_supply _ Hwf). lia.
Qed.

Lemma coin_wf_set_allowance s a b v :
  coin_wf s → wf_address a → wf_address b → 0 <= default 0 v →
  coin_wf (set_allowance (allowanceKey a b) (mkAllowance a b v) s).
Proof.
  intros Hwf Ha Hb Hv. split; [apply Hwf| |apply Hwf].
  apply map_Forall_insert_2; [done|apply Hwf].
Qed.

(** A supply change that goes with a balance change. *)
Lemma coin_wf_resupply s a x :
  coin_wf s → wf_address a → 0 <= balance s a + x →
  coin_wf (set_economy (mkEconomy (supply s + x)) (put_balance a (balance s a + x) s)).
Proof.
  intros Hwf Ha Hx. split; [by apply put_accounts_ok|apply Hwf|].
  pose proof (wf_supply _ Hwf). pose proof (sum_put s a (balance s a + x)).
  change (supply s + x = map_sumZ acct_Balance (cs_accounts (put_balance a (balance s a + x) s))).
  lia.
Qed.

(** ** The operations as updates of the ledger *)

Lemma Transfer_eq ctx s to amount :
  coin_wf s → wf_address (ctx_sender ctx) → wf_address to →
  Transfer ctx (mkTransferRequest (Some to) (Some amount)) s =
    if balance s (ctx_sender ctx) <? amount then
      (Err (ErrMsg "sender balance is too low"), s)
    else
      (Ok (), put_balance to (balance s to + amount)
                (put_balance (ctx_sender ctx) (balance s (ctx_sender ctx) - amount) s)).
Proof.
  intros Hwf Hf Ht. unfold Transfer. run_m.
  rewrite !loadAccount_eq by done. simpl. by destruct (_ <? _).
Qed.

Lemma TransferFrom_eq ctx s from to amount allowed :
  coin_wf s → wf_address (ctx_sender ctx) → wf_address from → wf_address to →
  al_Amount (loadAllowance s from (ctx_sender ctx)) = Some allowed →
  TransferFrom ctx (mkTransferFromRequest (Some from) (Some to) (Some amount)) s =
    if allowed <? amount then (Err (ErrMsg "amount is over spender's limit"), s)
    else if balance s from <? amount then (Err (ErrMsg "sender balance is too low"), s)
    else
      (Ok (), set_allowance (allowanceKey from (ctx_sender ctx))
                (mkAllowance from (ctx_sender ctx) (Some (allowed - amount)))
                (put_balance to (balance s to + amount)
                  (put_balance from (balance s from - amount) s))).
Proof.
  intros Hwf Hs Hf Ht Hal. unfold TransferFrom. run_m.
  rewrite !loadAccount_eq, loadAllowance_eq, Hal by done. simpl. by repeat destruct (_ <? _).
Qed.

Lemma mint_eq s to amount :
  coin_wf s → wf_address to →
  mint to amount s =
    (Ok (), set_economy (mkEconomy (supply s + amount))
              (put_balance to (balance s to + amount) s)).
Proof.
  intros Hwf Ht. unfold mint. run_m. by rewrite loadAccount_eq.
Qed.

Lemma burn_eq s from amount :
  coin_wf s → wf_address from →
  burn from amount s =
    if (balance s from <? amount) || (supply s <? amount) then
      (Err (ErrMsg "cant burn coins more than available balance"), s)
    else
      (Ok (), set_economy (mkEconomy (supply s - amount))
                (put_balance from (balance s from - amount) s)).
Proof.
  intros Hwf Ht. unfold burn. run_m.
  rewrite loadAccount_eq by done. simpl. by destruct (_ || _).
Qed.

Lemma balance_le_supply s a : coin_wf s → balance s a <= supply s.
Proof.
  intros Hwf. rewrite (wf_supply _ Hwf). unfold balance, loadAccount.
  assert (Hn : ∀ k v, cs_accounts s !! k = Some v → 0 <= acct_Balance v).
  { intros k v Hk. by apply (wf_accounts _ Hwf _ _ Hk). }
  destruct (cs_accounts s !! accountKey a) eqn:E; simpl.
  - by eapply map_sumZ_lookup_le.
  - by apply map_sumZ_nonneg.
Qed.
End Ledger.

(** ** Reachable ledgers

    A ledger is built by [Init] and then by calls in any order, whether they
    succeed or fail. *)

Inductive CoinCall :=
  | CallMintToGateway (amount : Z)
  | CallBurn (owner : Address) (amount : Z)
  | CallTransfer (to : Address) (amount : Z)
  | CallApprove (spender : Address) (amount : Z)
  | CallTransferFrom (from to : Address) (amount : Z).

Section Reachable.
Context {LIB : DiademLib} {SPEC : DiademLibSpec}.
Implicit Types s : CoinStore.

Definition run_call (ctx : Ctx) (c : CoinCall) : M CoinStore unit :=
  match c with
  | CallMintToGateway x => MintToGateway ctx (Some x)
  | CallBurn o x => Burn ctx (mkBurnRequest (Some o) (Some x))
  | CallTransfer to x => Transfer ctx (mkTransferRequest (Some to) (Some x))
  | CallApprove sp x => Approve ctx (mkApproveRequest (Some sp) (Some x))
  | CallTransferFrom f t x =>
      TransferFrom ctx (mkTransferFromRequest (Some f) (Some t) (Some x))
  end.

(** Amounts are unsigned on the wire and addresses well formed; the two
    transfer calls are between distinct accounts. *)
Definition call_ok (ctx : Ctx) (c : CoinCall) : Prop :=
  wf_address (ctx_sender ctx) ∧
  match c with
  | CallMintToGateway x => 0 <= x
  | CallBurn o x => 0 <= x ∧ wf_address o
  | CallTransfer to x => 0 <= x ∧ wf_address to ∧ ctx_sender ctx ≠ to
  | CallApprove sp x => 0 <= x ∧ wf_address sp
  | CallTransferFrom f t x => 0 <= x ∧ wf_address f ∧ wf_address t ∧ f ≠ t
  end.

(** Genesis accounts: named once each, with an [int64] balance. *)
Definition genesis_ok (accounts : list (Address * Z)) : Prop :=
  NoDup accounts.*1 ∧
  Forall (λ ab, wf_address ab.1 ∧ 0 <= ab.2 < 2 ^ 63) accounts.

Definition genesis (accounts : list (Address * Z)) : list InitialAccount :=
  (λ ab, mkInitialAccount (Some ab.1) ab.2) <$> accounts.

Inductive coin_reachable : CoinStore → Prop :=
  | reach_init accounts s :
      genesis_ok accounts →
      Init (genesis accounts) empty_coin_store = (Ok (), s) →
      coin_reachable s
  | reach_call s ctx c :
      coin_reachable s → call_ok ctx c →
      coin_reachable (run_call ctx c s).2.

Lemma MintToGateway_authorized ctx s amount :
  MintToGateway ctx amount s =
    match ctx_registry ctx !! "diademcoin-gateway" with
    | None => (Err ErrNotFound, s)
    | Some gw =>
        if decide (ctx_sender ctx = gw) then
          match amount with Some x => mint gw x s | None => (Panic, s) end
        else (Err (ErrMsg "not authorized to mint Diadem coin"), s)
    end.
Proof.
  unfold MintToGateway, ctx_resolve. run_m. destruct (_ !! _) as [gw|]; [|done]. simpl.
  case_decide as Hgw.
  - subst. rewrite (cmp_refl address_compare). by destruct amount.
  - by rewrite (proj2 (cmp_eqb_false address_compare _ _) Hgw).
Qed.

Lemma Burn_authorized ctx s owner amount :
  Burn ctx (mkBurnRequest (Some owner) (Some amount)) s =
    match ctx_registry ctx !! "diademcoin-gateway" with
    | None => (Err ErrNotFound, s)
    | Some gw =>
        if decide (ctx_sender ctx = gw) then burn owner amount s
        else (Err (ErrMsg "not authorized to burn Diadem coin"), s)
    end.
Proof.
  unfold Burn, ctx_resolve. run_m. destruct (_ !! _) as [gw|]; [|done]. simpl.
  case_decide as Hgw.
  - subst. by rewrite (cmp_refl address_compare).
  - by rewrite (proj2 (cmp_eqb_false address_compare _ _) Hgw).
Qed.

Lemma Approve_eq ctx s spender amount :
  coin_wf s → wf_address (ctx_sender ctx) → wf_address spender →
  Approve ctx (mkApproveRequest (Some spender) amount) s =
    (Ok (), set_allowance (allowanceKey (ctx_sender ctx) spender)
              (mkAllowance (ctx_sender ctx) spender amount) s).
Proof.
  intros Hwf Hs Hp. unfold Approve. run_m. by rewrite loadAllowance_eq.
Qed.

Lemma loadAllowance_nonneg s a b :
  coin_wf s → 0 <= default 0 (al_Amount (loadAllowance s a b)).
Proof.
  intros Hwf. unfold loadAllowance.
  destruct (cs_allowances s !! allowanceKey a b) eqn:E; simpl; [|lia].
  by apply (wf_allowances _ Hwf _ _ E).
Qed.

Lemma TransferFrom_nil ctx s from to amount :
  al_Amount (loadAllowance s from (ctx_sender ctx)) = None →
  TransferFrom ctx (mkTransferFromRequest (Some from) (Some to) (Some amount)) s
    = (Panic, s).
Proof. intros Hal. unfold TransferFrom. run_m. by rewrite Hal. Qed.

Lemma run_call_wf ctx c s :
  coin_wf s → call_ok ctx c → coin_wf (run_call ctx c s).2.
Proof.
  intros Hwf [Hs Hc]. destruct c as [x|o x|to x|sp x|f t x]; cbn [run_call] in *;
    destruct_and?.
  - rewrite MintToGateway_authorized. case_match; [|done]. case_decide; [|done].
    subst. rewrite mint_eq by done. apply coin_wf_resupply; auto.
    pose proof (balance_nonneg s (ctx_sender ctx) Hwf). lia.
  - rewrite Burn_authorized. case_match; [|done]. case_decide; [|done].
    rewrite burn_eq by done. destruct (_ || _) eqn:Hlow; [done|].
    apply orb_false_iff in Hlow as [?%Z.ltb_ge _].
    rewrite <- !Z.add_opp_r. apply coin_wf_resupply; [done|done|lia].
  - rewrite Transfer_eq by done. destruct (_ <? _) eqn:Hlow; [done|].
    apply Z.ltb_ge in Hlow. apply coin_wf_move; done || lia.
  - rewrite Approve_eq by done. apply coin_wf_set_allowance; done || lia.
  - pose proof (loadAllowance_nonneg s f (ctx_sender ctx) Hwf).
    destruct (al_Amount (loadAllowance s f (ctx_sender ctx))) as [al|] eqn:Hal.
    + rewrite (TransferFrom_eq ctx s f t x al) by done.
      destruct (al <? x) eqn:Hl; [done|]. destruct (balance s f <? x) eqn:Hb; [done|].
      apply Z.ltb_ge in Hl, Hb.
      apply coin_wf_set_allowance; [|done..|simpl; lia].
      apply coin_wf_move; done || lia.
    + by rewrite TransferFrom_nil.
Qed.

(** The loop of [Init] adds each account once and totals the balances. *)
Lemma Init_loop accounts s acc :
  genesis_ok accounts →
  map_Forall account_ok (cs_accounts s) →
  (∀ a, a ∈ accounts.*1 → cs_accounts s !! accountKey a = None) →
  map_sumZ acct_Balance (cs_accounts s) = acc →
  wp (foldM (λ supply initAcct,
        owner ← UnmarshalAddressPB (ia_Owner initAcct);
        let balance := i64 (ia_Balance initAcct) * 10 ^ 18 in
        let acct := mkAccount owner balance in
        modify (set_account (accountKey owner) acct);;
        mret (supply + acct_Balance acct)) acc (genesis accounts))
     (λ r s', ∃ total, r = Ok total ∧
        map_Forall account_ok (cs_accounts s') ∧
        cs_allowances s' = cs_allowances s ∧
        map_sumZ acct_Balance (cs_accounts s') = total) s.
Proof.
  revert s acc. induction accounts as [|[a b] accounts IH]; intros s acc [Hnd Hok] Hf Hfresh Hsum.
  { exists acc. done. }
  inversion Hnd as [|? ? Hnin Hnd']; inversion Hok as [|? ? [Ha Hb] Hok']; subst. simpl in *.
  unfold wp. run_m. rewrite i64_small by lia.
  specialize (IH (set_account (accountKey a) (mkAccount a (b * 10 ^ 18)) s)
                 (map_sumZ acct_Balance (cs_accounts s) + b * 10 ^ 18)).
  apply IH; [done|apply map_Forall_insert_2; [split_and!; [done|done|simpl; lia]|done]| |].
  - intros a' Ha'. simpl. rewrite lookup_insert_ne; [apply Hfresh; by right|].
    apply list_elem_of_fmap in Ha' as ([a'' b''] & -> & Hin).
    intros Hk. apply accountKey_inj in Hk as ->; [|done|].
    + apply Hnin. apply list_elem_of_fmap. by exists (a'', b'').
    + rewrite Forall_forall in Hok'. by apply (Hok' _ Hin).
  - simpl. rewrite map_sumZ_insert_fresh by (apply Hfresh; by left). simpl. lia.
Qed.

Lemma Init_wf accounts s :
  genesis_ok accounts → Init (genesis accounts) empty_coin_store = (Ok (), s) → coin_wf s.
Proof.
  intros Hok Hinit. pose proof (Init_loop accounts empty_coin_store 0 Hok) as Hloop.
  unfold wp in Hloop. unfold Init, mbind at 1, M_bind at 1 in Hinit.
  destruct (foldM _ _ _ _) as [r s'] eqn:E. simpl in Hloop.
  destruct Hloop as (total & -> & H1 & H2 & H3); [apply map_Forall_empty|done|done|].
  injection Hinit as <-. split; simpl; [done|rewrite H2; apply map_Forall_empty|].
  by rewrite H3.
Qed.

Lemma coin_reachable_wf s : coin_reachable s → coin_wf s.
Proof. induction 1; eauto using Init_wf, run_call_wf. Qed.
End Reachable.

(** ** Properties *)

Section Properties.
Context {LIB : DiademLib} {SPEC : DiademLibSpec}.
Implicit Types s : CoinStore.

(** C3. Whatever calls are made after genesis, successful or not and in any
    order, the recorded total supply is the sum of all balances and no
    balance is negative, provided transfers are between distinct accounts. *)
Theorem reachable_supply_is_sum_of_balances s :
  coin_reachable s →
  supply s = map_sumZ acct_Balance (cs_accounts s) ∧ ∀ a, 0 <= balance s a <= supply s.
Proof.
  intros Hwf%coin_reachable_wf. split; [apply Hwf|].
  intros a. split; [by apply balance_nonneg|by apply balance_le_supply].
Qed.

(** [Transfer] between distinct accounts fails without any effect when
    the sender's balance is below the amount; otherwise it moves exactly the
    amount and leaves every other balance, the supply and all allowances
    alone. *)
Theorem transfer_moves_exactly ctx s to amount :
  coin_wf s → wf_address (ctx_sender ctx) → wf_address to → ctx_sender ctx ≠ to →
  let '(r, s') := Transfer ctx (mkTransferRequest (Some to) (Some amount)) s in
  if decide (amount <= balance s (ctx_sender ctx)) then
    r = Ok () ∧
    balance s' (ctx_sender ctx) = balance s (ctx_sender ctx) - amount ∧
    balance s' to = balance s to + amount ∧
    (∀ a, wf_address a → a ≠ ctx_sender ctx → a ≠ to → balance s' a = balance s a) ∧
    supply s' = supply s ∧ cs_allowances s' = cs_allowances s
  else r = Err (ErrMsg "sender balance is too low") ∧ s' = s.
Proof.
  intros Hwf Hf Ht Hne. rewrite Transfer_eq by done.
  destruct (_ <? _) eqn:Hlow; case_decide; [lia|done| |lia].
  split_and!; try done.
  - rewrite balance_move by done. by case_decide.
  - rewrite balance_move by done. by repeat case_decide.
  - intros a Ha ??. rewrite balance_move by done. by repeat case_decide.
Qed.

(** [TransferFrom] moves the owner's coins only within the allowance of
    the caller: it fails without effect when the allowance or the balance is
    too small, and otherwise lowers the allowance by exactly what it moved. *)
Theorem transferFrom_within_allowance ctx s from to amount allowed :
  coin_wf s → wf_address (ctx_sender ctx) → wf_address from → wf_address to → from ≠ to →
  al_Amount (loadAllowance s from (ctx_sender ctx)) = Some allowed →
  let '(r, s') :=
    TransferFrom ctx (mkTransferFromRequest (Some from) (Some to) (Some amount)) s in
  if decide (amount <= allowed ∧ amount <= balance s from) then
    r = Ok () ∧
    balance s' from = balance s from - amount ∧
    balance s' to = balance s to + amount ∧
    (∀ a, wf_address a → a ≠ from → a ≠ to → balance s' a = balance s a) ∧
    al_Amount (loadAllowance s' from (ctx_sender ctx)) = Some (allowed - amount) ∧
    supply s' = supply s
  else is_ok r = false ∧ s' = s.
Proof.
  intros Hwf Hs Hf Ht Hne Hal. rewrite (TransferFrom_eq _ _ _ _ _ allowed) by done.
  destruct (allowed <? amount) eqn:H1; [case_decide; [lia|done]|].
  destruct (balance s from <? amount) eqn:H2; case_decide; [lia|done| |lia].
  split_and!; try done.
  - rewrite balance_set_allowance, balance_move by done. by case_decide.
  - rewrite balance_set_allowance, balance_move by done. by repeat case_decide.
  - intros a Ha ??. rewrite balance_set_allowance, balance_move by done.
    by repeat case_decide.
  - unfold loadAllowance. simpl. by rewrite lookup_insert_eq.
Qed.

(** A transfer to oneself creates coins: the two account records are
    loaded separately and the credited one is written last, so the balance
    grows by the amount while the recorded supply stays the same. *)
Theorem self_transfer_creates_coins ctx s amount :
  coin_wf s → wf_address (ctx_sender ctx) →
  0 < amount <= balance s (ctx_sender ctx) →
  let '(r, s') := Transfer ctx (mkTransferRequest (Some (ctx_sender ctx)) (Some amount)) s in
  r = Ok () ∧ balance s' (ctx_sender ctx) = balance s (ctx_sender ctx) + amount ∧
  supply s' = supply s ∧ supply s' < map_sumZ acct_Balance (cs_accounts s').
Proof.
  intros Hwf Hf Ha. rewrite Transfer_eq by done.
  destruct (_ <? _) eqn:Hlow; [lia|]. split_and!; try done.
  - rewrite !balance_put by done. by case_decide.
  - rewrite !supply_put, !sum_put, (wf_supply _ Hwf), balance_put by done.
    case_decide; [lia|done].
Qed.

(** Only the contract registered as "diademcoin-gateway" changes the
    supply: a mint by it adds exactly the amount to its balance and to the
    supply, a burn by it takes exactly the amount from the owner, and both
    fail without effect for every other sender. *)
Theorem only_gateway_changes_supply ctx s owner amount :
  coin_wf s → wf_address (ctx_sender ctx) → wf_address owner →
  let '(r, s') := MintToGateway ctx (Some amount) s in
  let '(r', s'') := Burn ctx (mkBurnRequest (Some owner) (Some amount)) s in
  if decide (ctx_registry ctx !! "diademcoin-gateway" = Some (ctx_sender ctx)) then
    (r = Ok () ∧ supply s' = supply s + amount ∧
     balance s' (ctx_sender ctx) = balance s (ctx_sender ctx) + amount) ∧
    (if decide (amount <= balance s owner) then
       r' = Ok () ∧ supply s'' = supply s - amount ∧
       balance s'' owner = balance s owner - amount
     else is_ok r' = false ∧ s'' = s)
  else is_ok r = false ∧ s' = s ∧ is_ok r' = false ∧ s'' = s.
Proof.
  intros Hwf Hs Ho. rewrite MintToGateway_authorized, Burn_authorized.
  destruct (_ !! _) as [gw|]; [|by case_decide].
  destruct (decide (ctx_sender ctx = gw)) as [<-|Hne]; [|case_decide; [congruence|done]].
  destruct (decide (Some _ = Some _)); [|done].
  rewrite mint_eq, burn_eq by done. pose proof (balance_le_supply s owner Hwf).
  assert (Hput : ∀ e a v, wf_address a →
      balance (set_economy e (put_balance a v s)) a = v).
  { intros. rewrite balance_set_economy, balance_put by done. by case_decide. }
  destruct (_ || _) eqn:Hlow; (split; [by rewrite Hput|]); case_decide; try lia; [done|].
  by rewrite Hput.
Qed.
End Properties.

(** ** The coin as a token for other contracts *)

(** The coin contract deployed at [cw_addr]; a call to any other address finds
    no contract. *)
Record CoinWorld := mkCoinWorld { cw_addr : Address; cw_store : CoinStore }.

Definition call_ctx (caller contract : Address) : Ctx := mkCtx caller 0 contract "" 0 ∅.

Section AsToken.
Context {LIB : DiademLib} {SPEC : DiademLibSpec}.

Definition coin_call (contract : Address) (m : M CoinStore unit) : M CoinWorld unit :=
  λ w, if decide (contract = cw_addr w)
       then zoom cw_store (λ s w, mkCoinWorld (cw_addr w) s) m w
       else (Err (ErrMsg "contract not found"), w).

#[global] Instance coin_erc20 : ERC20 CoinWorld := {
  erc20_transfer contract caller to amount :=
    coin_call contract
      (Transfer (call_ctx caller contract) (mkTransferRequest (Some to) (Some amount)));
  erc20_transfer_from contract caller from to amount :=
    coin_call contract
      (TransferFrom (call_ctx caller contract)
         (mkTransferFromRequest (Some from) (Some to) (Some amount)));
  erc20_balance contract w owner :=
    if decide (contract = cw_addr w) then balance (cw_store w) owner else 0;
}.

#[global] Instance coin_erc20_spec : ERC20Spec CoinWorld (λ w, coin_wf (cw_store w)).
Proof.
  split; simpl; unfold coin_call, zoom.
  - intros contract caller to amount [ca s] l' Hwf Hx Hc Ht Hne. simpl in *.
    case_decide; [subst|done]. rewrite Transfer_eq by done. simpl.
    destruct (_ <? _) eqn:Hlow; [done|]. intros [= <-]. simpl.
    rewrite decide_True, !balance_move by done. repeat case_decide; try done.
    split_and!; [apply coin_wf_move; auto; lia|done|done|lia].
  - intros contract caller from to amount [ca s] l' Hwf Hx Hc Hf Ht Hne. simpl in *.
    case_decide; [subst|done].
    destruct (al_Amount (loadAllowance s from caller)) as [al|] eqn:Hal;
      [|by rewrite TransferFrom_nil].
    rewrite (TransferFrom_eq _ _ _ _ _ al) by done. simpl.
    destruct (al <? amount) eqn:H1; [done|]. destruct (balance s from <? amount) eqn:H2; [done|].
    intros [= <-]. simpl. rewrite decide_True, !balance_set_allowance, !balance_move by done.
    repeat case_decide; try done. split_and!; [|done|done|lia].
    apply coin_wf_set_allowance; [apply coin_wf_move; auto; lia|done..|simpl; lia].
Qed.
End AsToken.

(** ** Witnesses *)

Module CoinWitness.
Import SimpleLib.

Definition accounts : list (Address * Z) := [(sample "a", 100); (sample "b", 50)].
Definition start : CoinStore := (Init (genesis accounts) empty_coin_store).2.
Definition approved : CoinStore :=
  (run_call (sample_ctx (sample "a") 0) (CallApprove (sample "b") 70) start).2.

Lemma sample_wf : wf_address (sample "a") ∧ wf_address (sample "b") ∧ wf_address (sample "G").
Proof. by repeat split. Qed.

Lemma genesis_is_ok : genesis_ok accounts.
Proof.
  split; [by refine (bool_decide_unpack (NoDup accounts.*1) _)|].
  repeat constructor; simpl; (done || lia).
Qed.

Lemma start_reachable : coin_reachable start.
Proof. by apply (reach_init accounts); [apply genesis_is_ok|]. Qed.

Lemma approved_reachable : coin_reachable approved.
Proof.
  apply reach_call; [apply start_reachable|]. simpl. split_and!; try apply sample_wf; lia.
Qed.

Lemma reachable_supply_witness :
  supply approved = map_sumZ acct_Balance (cs_accounts approved) ∧
  ∀ a, 0 <= balance approved a <= supply approved.
Proof.
  apply (reachable_supply_is_sum_of_balances approved). apply approved_reachable.
Defined.

Lemma transfer_moves_witness :
  let '(r, s') := Transfer (sample_ctx (sample "a") 0)
               (mkTransferRequest (Some (sample "b")) (Some 30)) start in
  r = Ok () ∧ balance s' (sample "b") = 50 * 10 ^ 18 + 30.
Proof.
  pose proof (transfer_moves_exactly (sample_ctx (sample "a") 0) start (sample "b") 30
    (coin_reachable_wf _ start_reachable) ltac:(apply sample_wf) ltac:(apply sample_wf)
    ltac:(done)) as H.
  destruct (Transfer _ _ _) as [r s']. rewrite decide_True in H by (by vm_compute).
  destruct H as (-> & _ & -> & _). by vm_compute.
Defined.

Lemma transferFrom_witness :
  let '(r, s') := TransferFrom (sample_ctx (sample "b") 0)
               (mkTransferFromRequest (Some (sample "a")) (Some (sample "G")) (Some 30))
               approved in
  r = Ok () ∧ al_Amount (loadAllowance s' (sample "a") (sample "b")) = Some 40.
Proof.
  pose proof (transferFrom_within_allowance (sample_ctx (sample "b") 0) approved
    (sample "a") (sample "G") 30 70
    (coin_reachable_wf _ approved_reachable) ltac:(apply sample_wf) ltac:(apply sample_wf)
    ltac:(apply sample_wf) ltac:(done) ltac:(by vm_compute)) as H.
  destruct (TransferFrom _ _ _) as [r s']. rewrite decide_True in H by (by vm_compute).
  split; apply H.
Defined.

Lemma self_transfer_witness :
  let '(r, s') := Transfer (sample_ctx (sample "a") 0)
               (mkTransferRequest (Some (sample "a")) (Some 30)) start in
  r = Ok () ∧ balance s' (sample "a") = balance start (sample "a") + 30 ∧
  supply s' = supply start ∧ supply s' < map_sumZ acct_Balance (cs_accounts s').
Proof.
  apply (self_transfer_creates_coins (sample_ctx (sample "a") 0) start 30).
  - apply coin_reachable_wf, start_reachable.
  - apply sample_wf.
  - by vm_compute.
Defined.

Lemma only_gateway_witness :
  let '(r, s') := MintToGateway (sample_ctx (sample "G") 0) (Some 7) start in
  r = Ok () ∧ supply s' = 150 * 10 ^ 18 + 7.
Proof.
  pose proof (only_gateway_changes_supply (sample_ctx (sample "G") 0) start (sample "a") 7
    (coin_reachable_wf _ start_reachable) ltac:(apply sample_wf) ltac:(apply sample_wf)) as H.
  destruct (MintToGateway _ _ _) as [r s']. destruct (Burn _ _ _) as [r' s''].
  rewrite decide_True in H by done. destruct H as [(-> & -> & _) _]. by vm_compute.
Defined.
End CoinWitness.
