(* ===== verification/DposTypes.v ===== *)
(** * Data of the delegated proof of stake contract (src/builtin/plugins/dposv3)

    The records of the contract's protocol buffer messages, as the sources use
    them.  A field that the code checks for nil or that a request may leave out
    is an [option]. *)

From S2P Require Import Prelude Contract.

(** [dtypes.Delegation_DelegationState] *)
Inductive DelegationState := BONDING | BONDED | UNBONDING | REDELEGATING.

#[global] Instance DelegationState_eq_dec : EqDecision DelegationState.
Proof. solve_decision. Defined.

(** [dtypes.Candidate_CandidateState] *)
Inductive CandidateState := REGISTERED | UNREGISTERING | ABOUT_TO_CHANGE_FEE | CHANGING_FEE.

#[global] Instance CandidateState_eq_dec : EqDecision CandidateState.
Proof. solve_decision. Defined.

(** [LocktimeTier] is a protocol buffer enum: an [int32] whose named values are
    the four tiers. *)
Definition TIER_ZERO : Z := 0.
Definition TIER_ONE : Z := 1.
Definition TIER_TWO : Z := 2.
Definition TIER_THREE : Z := 3.

Record Delegation := mkDelegation {
  d_Validator : Address;
  d_Delegator : Address;
  d_Index : Z;
  d_Amount : Z;
  d_UpdateAmount : Z;
  d_UpdateValidator : option Address;
  d_LocktimeTier : Z;
  d_LockTime : Z;
  d_State : DelegationState;
  d_Referrer : string;
}.

Record DelegationIndex := mkDelegationIndex {
  di_Validator : Address;
  di_Delegator : Address;
  di_Index : Z;
}.

Record Candidate := mkCandidate {
  c_PubKey : bytes;
  c_Address : Address;
  c_Fee : Z;
  c_NewFee : Z;
  c_Name : string;
  c_Description : string;
  c_Website : string;
  c_State : CandidateState;
  c_MaxReferralPercentage : Z;
}.

Record ValidatorStatistic := mkStatistic {
  vs_Address : Address;
  vs_PubKey : bytes;
  vs_WhitelistAmount : option Z;
  vs_LocktimeTier : Z;
  vs_DelegationTotal : option Z;
  vs_SlashPercentage : option Z;
}.

Record Validator := mkValidator { v_PubKey : bytes; v_Power : Z }.

Record Params := mkParams {
  p_ValidatorCount : Z;
  p_ElectionCycleLength : Z;
  p_CoinContractAddress : option Address;
  p_OracleAddress : option Address;
  p_MaxYearlyReward : option Z;
  p_RegistrationRequirement : option Z;
  p_CrashSlashingPercentage : option Z;
  p_ByzantineSlashingPercentage : option Z;
}.

Record State := mkState {
  st_Params : Params;
  st_Validators : list Validator;
  st_LastElectionTime : Z;
  st_TotalValidatorDelegations : Z;
  st_TotalRewardDistribution : Z;
}.

Record RequestBatchTally := mkTally {
  LastSeenBlockNumber : Z;
  LastSeenTxIndex : Z;
  LastSeenLogIndex : Z;
}.

Record DelegationResult := mkDelegationResult {
  dr_ValidatorAddress : Address;
  dr_DelegationTotal : Z;
}.

#[global] Instance Delegation_eq_dec : EqDecision Delegation.
Proof. solve_decision. Defined.
#[global] Instance DelegationIndex_eq_dec : EqDecision DelegationIndex.
Proof. solve_decision. Defined.
#[global] Instance Candidate_eq_dec : EqDecision Candidate.
Proof. solve_decision. Defined.
#[global] Instance Validator_eq_dec : EqDecision Validator.
Proof. solve_decision. Defined.
#[global] Instance DelegationResult_eq_dec : EqDecision DelegationResult.
Proof. solve_decision. Defined.

(** Field updates. *)
Definition d_with_Amount (x : Z) (d : Delegation) : Delegation :=
  mkDelegation (d_Validator d) (d_Delegator d) (d_Index d) x (d_UpdateAmount d)
    (d_UpdateValidator d) (d_LocktimeTier d) (d_LockTime d) (d_State d) (d_Referrer d).
Definition d_with_UpdateAmount (x : Z) (d : Delegation) : Delegation :=
  mkDelegation (d_Validator d) (d_Delegator d) (d_Index d) (d_Amount d) x
    (d_UpdateValidator d) (d_LocktimeTier d) (d_LockTime d) (d_State d) (d_Referrer d).
Definition d_with_State (x : DelegationState) (d : Delegation) : Delegation :=
  mkDelegation (d_Validator d) (d_Delegator d) (d_Index d) (d_Amount d) (d_UpdateAmount d)
    (d_UpdateValidator d) (d_LocktimeTier d) (d_LockTime d) x (d_Referrer d).
Definition d_with_Validator (x : Address) (d : Delegation) : Delegation :=
  mkDelegation x (d_Delegator d) (d_Index d) (d_Amount d) (d_UpdateAmount d)
    (d_UpdateValidator d) (d_LocktimeTier d) (d_LockTime d) (d_State d) (d_Referrer d).
Definition d_with_LocktimeTier (x : Z) (d : Delegation) : Delegation :=
  mkDelegation (d_Validator d) (d_Delegator d) (d_Index d) (d_Amount d) (d_UpdateAmount d)
    (d_UpdateValidator d) x (d_LockTime d) (d_State d) (d_Referrer d).

Definition c_with_State (x : CandidateState) (c : Candidate) : Candidate :=
  mkCandidate (c_PubKey c) (c_Address c) (c_Fee c) (c_NewFee c) (c_Name c)
    (c_Description c) (c_Website c) x (c_MaxReferralPercentage c).
Definition c_with_Fee (x : Z) (c : Candidate) : Candidate :=
  mkCandidate (c_PubKey c) (c_Address c) x (c_NewFee c) (c_Name c)
    (c_Description c) (c_Website c) (c_State c) (c_MaxReferralPercentage c).
Definition c_with_NewFee (x : Z) (c : Candidate) : Candidate :=
  mkCandidate (c_PubKey c) (c_Address c) (c_Fee c) x (c_Name c)
    (c_Description c) (c_Website c) (c_State c) (c_MaxReferralPercentage c).

Definition st_with_Params (x : Params) (st : State) : State :=
  mkState x (st_Validators st) (st_LastElectionTime st)
    (st_TotalValidatorDelegations st) (st_TotalRewardDistribution st).
Definition st_with_Validators (x : list Validator) (st : State) : State :=
  mkState (st_Params st) x (st_LastElectionTime st)
    (st_TotalValidatorDelegations st) (st_TotalRewardDistribution st).
Definition st_add_rewards (x : Z) (st : State) : State :=
  mkState (st_Params st) (st_Validators st) (st_LastElectionTime st)
    (st_TotalValidatorDelegations st) (st_TotalRewardDistribution st + x).
