(* ===== verification/DposMath.v ===== *)
(** * Arithmetic of the dpos contract

    src/builtin/plugins/dposv3/util.go (tiers, fractions, shares), the reward
    formula [calculateRewards] and the power cap [applyPowerCap] of dpos.go.
    The theorems bound what the integer divisions may hand out, and show that
    the power cap holds and keeps the order of the validators. *)

From S2P Require Import Prelude Contract DposTypes.

Definition billionth : Z := 1000000000.
Definition billionthsBasisPointRatio : Z := 100000.
Definition secondsInYear : Z := 60 * 60 * 24 * 365.
Definition blockRewardPercentage : Z := 500.
Definition defaultReferrerFee : Z := 300.
Definition powerCorrection : Z := 1000000000000.

(** [big.Int.Div]: Euclidean division. *)
Definition bigDiv (x y : Z) : Z := Z.sgn y * (x / Z.abs y).

(** Reading a Go map at a missing key gives the zero value. *)
Definition TierMap (n : Z) : Z :=
  if n =? 0 then TIER_ZERO else if n =? 1 then TIER_ONE
  else if n =? 2 then TIER_TWO else if n =? 3 then TIER_THREE else 0.

Definition TierLocktimeMap (t : Z) : Z :=
  if t =? TIER_ZERO then 1209600 else if t =? TIER_ONE then 7884000
  else if t =? TIER_TWO then 15768000 else if t =? TIER_THREE then 31536000 else 0.

Definition TierBonusMap (t : Z) : option Z :=
  if t =? TIER_ZERO then Some 10000 else if t =? TIER_ONE then Some 15000
  else if t =? TIER_TWO then Some 20000 else if t =? TIER_THREE then Some 40000 else None.

Definition basisPointsToBillionths (bps : Z) : Z := billionthsBasisPointRatio * bps.

Definition CalculatePreciseFraction (frac total : Z) : Z := bigDiv (total * frac) billionth.

Definition CalculateFraction (frac total : Z) : Z :=
  CalculatePreciseFraction (basisPointsToBillionths frac) total.

Definition calculateShare (delegation total rewards : Z) : Z :=
  let frac := if IsZero total then 0 else bigDiv (delegation * billionth) total in
  CalculatePreciseFraction frac rewards.

Definition scientificNotation (m n : Z) : Z := 10 ^ n * m.

Definition calculateWeightedDelegationAmount (delegation : Delegation) : Z :=
  let bonusPercentage :=
    match TierBonusMap (d_LocktimeTier delegation) with
    | Some b => b
    | None => default 0 (TierBonusMap TIER_ZERO)
    end in
  CalculateFraction bonusPercentage (d_Amount delegation).

(** Reads [statistic.WhitelistAmount.Value], so a nil amount panics. *)
Definition calculateWeightedWhitelistAmount (statistic : ValidatorStatistic) : Res Z :=
  let bonusPercentage :=
    match TierBonusMap (vs_LocktimeTier statistic) with
    | Some b => b
    | None => default 0 (TierBonusMap TIER_ZERO)
    end in
  match vs_WhitelistAmount statistic with
  | Some x => Ok (CalculateFraction bonusPercentage x)
  | None => Panic
  end.

Definition validateFee (fee : Z) : Res unit :=
  if 10000 <? fee then Err (ErrMsg "Fee percentage cannot be greater than 100%.") else Ok ().

(** The reward of one election cycle for [delegationTotal] tokens.
    [params.MaxYearlyReward] is dereferenced, so nil panics. *)
Definition calculateRewards (delegationTotal : Z) (params : Params)
    (totalValidatorDelegations : Z) : Res Z :=
  match p_MaxYearlyReward params with
  | None => Panic
  | Some maxYearlyReward =>
      let cycleSeconds := p_ElectionCycleLength params in
      let reward := CalculateFraction blockRewardPercentage delegationTotal in
      let yearlyRewardTotal :=
        CalculateFraction blockRewardPercentage totalValidatorDelegations in
      let reward :=
        if maxYearlyReward <? yearlyRewardTotal
        then bigDiv (reward * maxYearlyReward) yearlyRewardTotal
        else reward in
      let cycleSeconds := if cycleSeconds =? 0 then 2 else cycleSeconds in
      Ok (bigDiv (reward * cycleSeconds) secondsInYear)
  end.

(** ** Floating point

    [applyPowerCap] computes with [float64].  A non-negative double is an
    integer times a power of two; [round53 n] rounds an integer to the 53
    significant bits of a double, to nearest with ties to even.  The exponents
    met here stay far from the limits of the format. *)
Definition round53 (n : Z) : Z :=
  if n <? 2 ^ 53 then n
  else
    let e := Z.log2 n - 52 in
    let q := n / 2 ^ e in
    let r := n mod 2 ^ e in
    let up := (2 ^ e <? 2 * r) || ((2 * r =? 2 ^ e) && Z.odd q) in
    (if up then q + 1 else q) * 2 ^ e.

(** [float64(0.28)] is 5044031582654956 / 2^54. *)
Definition limit28 : Z := 5044031582654956.

(** [int64(limit * float64(powerSum))] for a non-negative [powerSum]: the
    product is exact in units of 2^-54 before it is rounded. *)
Definition maxPower28 (powerSum : Z) : Z := round53 (limit28 * round53 powerSum) / 2 ^ 54.

(** [int64(float64(extraSum) / float64(underCount))]: the quotient in units of
    2^-64 (64 fractional bits; enough to decide every rounding of a quotient of
    an [int64] by a count below 2^11, a sticky bit standing for what is cut
    off). *)
Definition floatDiv (extraSum underCount : Z) : Z :=
  let a := round53 extraSum in
  let q := (a * 2 ^ 64) / underCount in
  let sticky := if (a * 2 ^ 64) mod underCount =? 0 then 0 else 1 in
  round53 (2 * q + sticky) / 2 ^ 65.

(** [applyPowerCap] on validators with non-negative powers. *)
Definition applyPowerCap (validators : list Validator) : list Validator :=
  if (length validators <? 4)%nat then validators
  else
    let '(powerSum, max) := foldl (λ '(powerSum, max) v,
        (i64 (powerSum + v_Power v), if max <? v_Power v then v_Power v else max))
        (0, 0) validators in
    let maximumIndividualPower := maxPower28 powerSum in
    if maximumIndividualPower <? max then
      let '(extraSum, underCount, capped) := foldl (λ '(extraSum, underCount, capped) v,
          if maximumIndividualPower <? v_Power v
          then (i64 (extraSum + (v_Power v - maximumIndividualPower)), underCount,
                capped ++ [mkValidator (v_PubKey v) maximumIndividualPower])
          else (extraSum, underCount + 1, capped ++ [v]))
          (0, 0, []) validators in
      let underBoost := floatDiv extraSum underCount in
      (λ v,
        if v_Power v <? maximumIndividualPower then
          if maximumIndividualPower <? i64 (v_Power v + underBoost)
          then mkValidator (v_PubKey v) maximumIndividualPower
          else mkValidator (v_PubKey v) (i64 (v_Power v + underBoost))
        else v) <$> capped
    else validators.

(** ** Fractions *)

Lemma bigDiv_pos x y : 0 < y → bigDiv x y = x / y.
Proof. intros. unfold bigDiv. rewrite Z.sgn_pos, Z.abs_eq by lia. lia. Qed.

Lemma bigDiv_nonneg x y : 0 <= x → 0 < y → 0 <= bigDiv x y.
Proof. intros. rewrite bigDiv_pos by lia. apply Z.div_pos; lia. Qed.

Lemma CalculatePreciseFraction_eq f t :
  CalculatePreciseFraction f t = t * f / billionth.
Proof. unfold CalculatePreciseFraction. by rewrite bigDiv_pos. Qed.

(** A fraction of [bps] basis points is [total * bps / 10000], rounded down. *)
Lemma CalculateFraction_eq bps total : CalculateFraction bps total = total * bps / 10000.
Proof.
  unfold CalculateFraction, basisPointsToBillionths.
  rewrite CalculatePreciseFraction_eq.
  replace (total * (billionthsBasisPointRatio * bps))
    with ((total * bps) * billionthsBasisPointRatio) by lia.
  change billionth with (10000 * billionthsBasisPointRatio).
  by rewrite Z.div_mul_cancel_r.
Qed.

Lemma CalculateFraction_nonneg bps total :
  0 <= bps → 0 <= total → 0 <= CalculateFraction bps total.
Proof. intros. rewrite CalculateFraction_eq. apply Z.div_pos; nia. Qed.

Lemma CalculateFraction_le bps total :
  0 <= bps <= 10000 → 0 <= total → CalculateFraction bps total <= total.
Proof. intros. rewrite CalculateFraction_eq. apply Z.div_le_upper_bound; nia. Qed.

Lemma calculateShare_eq d total rewards :
  0 < total → calculateShare d total rewards = rewards * (d * billionth / total) / billionth.
Proof.
  intros. unfold calculateShare, IsZero.
  destruct (total =? 0) eqn:E; [lia|]. by rewrite CalculatePreciseFraction_eq, bigDiv_pos.
Qed.

Lemma calculateShare_zero d rewards : calculateShare d 0 rewards = 0.
Proof. unfold calculateShare. simpl. rewrite CalculatePreciseFraction_eq. by rewrite Z.mul_0_r. Qed.

Lemma calculateShare_nonneg d total rewards :
  0 <= d → 0 <= total → 0 <= rewards → 0 <= calculateShare d total rewards.
Proof.
  intros. destruct (decide (total = 0)) as [->|]; [by rewrite calculateShare_zero|].
  rewrite calculateShare_eq by lia. apply Z.div_pos; [|done].
  apply Z.mul_nonneg_nonneg; [done|]. apply Z.div_pos; unfold billionth; lia.
Qed.

(** [Σ ⌊x_i * c / n⌋ <= c] when [Σ x_i <= n]. *)
Lemma sum_scaled_le {A} (f : A → Z) (l : list A) c n :
  0 <= c → 0 < n → sumZ f l <= n → sumZ (λ x, f x * c / n) l <= c.
Proof.
  intros Hc Hn Hl. etransitivity; [by apply (sumZ_div_le (λ x, f x * c))|].
  rewrite sumZ_mul_r. apply Z.div_le_upper_bound; nia.
Qed.

(** The shares handed to the delegators of a validator never add up to more
    than the rewards to be shared, when the weighted delegations add up to at
    most the total they are measured against. *)
Theorem shares_never_exceed_rewards (ds : list Z) total rewards :
  0 <= rewards → 0 <= total → Forall (λ d, 0 <= d) ds → sumZ id ds <= total →
  sumZ (λ d, calculateShare d total rewards) ds <= rewards.
Proof.
  intros Hr Ht Hds Hsum. destruct (decide (total = 0)) as [->|].
  { rewrite (sumZ_ext _ (λ _, 0 * 0)) by (intros; apply calculateShare_zero).
    rewrite (sumZ_mul_r (λ _, 0)). lia. }
  rewrite (sumZ_ext _ (λ d, (d * billionth / total) * rewards / billionth)).
  - apply (sum_scaled_le (λ d, d * billionth / total)); [done|done|].
    by apply (sum_scaled_le id); [|lia|].
  - intros d _. rewrite calculateShare_eq by lia. by rewrite (Z.mul_comm rewards).
Qed.

(** ** Rewards *)

Definition cycle_seconds (params : Params) : Z :=
  if p_ElectionCycleLength params =? 0 then 2 else p_ElectionCycleLength params.

(** The yearly reward before it is scaled to the election cycle. *)
Definition yearly_reward (max d T : Z) : Z :=
  let r := CalculateFraction blockRewardPercentage d in
  let y := CalculateFraction blockRewardPercentage T in
  if max <? y then bigDiv (r * max) y else r.

Lemma calculateRewards_eq d params T max :
  p_MaxYearlyReward params = Some max →
  calculateRewards d params T =
    Ok (yearly_reward max d T * cycle_seconds params / secondsInYear).
Proof.
  intros Hm. unfold calculateRewards. rewrite Hm. by rewrite bigDiv_pos.
Qed.

Lemma yearly_reward_nonneg max d T :
  0 <= max → 0 <= d → 0 <= yearly_reward max d T.
Proof.
  intros. unfold yearly_reward, blockRewardPercentage.
  pose proof (CalculateFraction_nonneg 500 d). case_match; [|lia].
  apply bigDiv_nonneg; nia.
Qed.

Lemma yearly_rewards_capped max (ds : list Z) T :
  0 <= max → Forall (λ d, 0 <= d) ds → sumZ id ds <= T →
  sumZ (λ d, yearly_reward max d T) ds <= max.
Proof.
  intros Hmax Hds HT. unfold yearly_reward, blockRewardPercentage.
  assert (Hsum : sumZ (λ d, CalculateFraction 500 d) ds <= CalculateFraction 500 T).
  { rewrite (sumZ_ext _ (λ d, d * 500 / 10000)) by (intros; apply CalculateFraction_eq).
    rewrite CalculateFraction_eq. etransitivity; [by apply (sumZ_div_le (λ d, d * 500))|].
    apply Z.div_le_mono; [done|]. rewrite (sumZ_mul_r id). lia. }
  destruct (max <? CalculateFraction 500 T) eqn:E; [|lia].
  rewrite (sumZ_ext _ (λ d, CalculateFraction 500 d * max / CalculateFraction 500 T))
    by (intros; apply bigDiv_pos; lia).
  apply (sum_scaled_le (λ d, CalculateFraction 500 d)); lia.
Qed.

(** No election distributes more than the yearly maximum scaled to the
    election cycle: the rewards computed for all validators of an election,
    whose delegation totals add up to the recorded total, sum to at most
    [MaxYearlyReward * cycle / year]. *)
Theorem election_rewards_capped params max T (ds rs : list Z) :
  p_MaxYearlyReward params = Some max → 0 <= max →
  0 <= p_ElectionCycleLength params →
  Forall (λ d, 0 <= d) ds → sumZ id ds <= T →
  Forall2 (λ d r, calculateRewards d params T = Ok r) ds rs →
  Forall (λ r, 0 <= r) rs ∧
  sumZ id rs <= max * cycle_seconds params / secondsInYear.
Proof.
  intros Hm Hmax Hc Hds HT Hrs. set (c := cycle_seconds params).
  assert (Hc' : 0 <= c) by (unfold c, cycle_seconds; case_match; lia).
  assert (Hrs' : rs = (λ d, yearly_reward max d T * c / secondsInYear) <$> ds).
  { clear Hds HT. induction Hrs as [|d r ds rs Hr _ IH]; [done|]. csimpl.
    rewrite (calculateRewards_eq _ _ _ max) in Hr by done. injection Hr as <-. by f_equal. }
  subst rs. split.
  - rewrite Forall_fmap. eapply Forall_impl; [exact Hds|]. intros d Hd. simpl.
    apply Z.div_pos; [|done]. pose proof (yearly_reward_nonneg max d T Hmax Hd). nia.
  - rewrite sumZ_fmap. etransitivity;
      [by apply (sumZ_div_le (λ d, yearly_reward max d T * c) secondsInYear)|].
    apply Z.div_le_mono; [done|]. rewrite (sumZ_mul_r (λ d, yearly_reward max d T)).
    pose proof (yearly_rewards_capped max ds T Hmax Hds HT). nia.
Qed.

(** ** The power cap *)

Lemma round53_nonneg n : 0 <= n → 0 <= round53 n.
Proof.
  intros Hn. unfold round53. case_match; [done|].
  pose proof (Z.pow_nonneg 2 (Z.log2 n - 52)). apply Z.mul_nonneg_nonneg; [|lia].
  pose proof (Z.div_pos n (2 ^ (Z.log2 n - 52)) Hn) as Hq.
  assert (0 < 2 ^ (Z.log2 n - 52)).
  { apply Z.pow_pos_nonneg; [done|]. apply Z.ltb_ge in H.
    pose proof (Z.log2_le_mono (2 ^ 53) n H). rewrite Z.log2_pow2 in *; lia. }
  case_match; lia.
Qed.

(** Rounding to a double is off by at most half of the last bit. *)
Lemma round53_le n : 0 <= n → 2 ^ 53 * round53 n <= (2 ^ 53 + 1) * n.
Proof.
  intros Hn. unfold round53. destruct (n <? 2 ^ 53) eqn:Hbig; [lia|]. apply Z.ltb_ge in Hbig.
  set (e := Z.log2 n - 52).
  assert (He : 0 <= e) by (pose proof (Z.log2_le_mono (2 ^ 53) n Hbig);
    rewrite Z.log2_pow2 in *; unfold e; lia).
  assert (Hp : 0 < 2 ^ e) by (by apply Z.pow_pos_nonneg).
  assert (Hlog : 2 ^ 52 * 2 ^ e <= n).
  { rewrite <- Z.pow_add_r by lia. replace (52 + e) with (Z.log2 n) by (unfold e; lia).
    apply Z.log2_spec. lia. }
  pose proof (Z.div_mod n (2 ^ e) ltac:(lia)) as Hdm.
  pose proof (Z.mod_pos_bound n (2 ^ e) Hp).
  destruct (_ || _) eqn:Hup; [|lia].
  assert (2 ^ e <= 2 * (n mod 2 ^ e)) by lia. lia.
Qed.

Lemma round53_ge n : 0 <= n → (2 ^ 53 - 1) * n <= 2 ^ 53 * round53 n.
Proof.
  intros Hn. unfold round53. destruct (n <? 2 ^ 53) eqn:Hbig; [lia|]. apply Z.ltb_ge in Hbig.
  set (e := Z.log2 n - 52).
  assert (He : 0 <= e) by (pose proof (Z.log2_le_mono (2 ^ 53) n Hbig);
    rewrite Z.log2_pow2 in *; unfold e; lia).
  assert (Hp : 0 < 2 ^ e) by (by apply Z.pow_pos_nonneg).
  assert (Hlog : 2 ^ 52 * 2 ^ e <= n).
  { rewrite <- Z.pow_add_r by lia. replace (52 + e) with (Z.log2 n) by (unfold e; lia).
    apply Z.log2_spec. lia. }
  pose proof (Z.div_mod n (2 ^ e) ltac:(lia)) as Hdm.
  pose proof (Z.mod_pos_bound n (2 ^ e) Hp).
  destruct (_ || _) eqn:Hup; [lia|].
  assert (2 * (n mod 2 ^ e) <= 2 ^ e) by lia. lia.
Qed.

Lemma round53_exact n : n <= 2 ^ 53 → round53 n = n.
Proof.
  intros Hn. unfold round53. destruct (n <? 2 ^ 53) eqn:Hbig; [done|].
  assert (n = 2 ^ 53) as -> by lia. done.
Qed.

Lemma maxPower28_nonneg S : 0 <= S → 0 <= maxPower28 S.
Proof.
  intros. unfold maxPower28. apply Z.div_pos; [|done]. apply round53_nonneg.
  pose proof (round53_nonneg S). unfold limit28. lia.
Qed.

(** The cap is 28% of the total up to rounding. *)
Lemma maxPower28_le S : 0 <= S <= 2 ^ 53 → 100 * maxPower28 S <= 28 * S + 100.
Proof.
  intros HS. unfold maxPower28. rewrite (round53_exact S) by lia.
  set (n := limit28 * S). pose proof (round53_le n ltac:(unfold n, limit28; lia)).
  pose proof (Z.mul_div_le (round53 n) (2 ^ 54) ltac:(lia)).
  unfold n, limit28 in *. lia.
Qed.

Lemma maxPower28_ge S : 0 <= S <= 2 ^ 53 → S < 4 * (maxPower28 S + 1).
Proof.
  intros HS. unfold maxPower28. rewrite (round53_exact S) by lia.
  set (n := limit28 * S). pose proof (round53_ge n ltac:(unfold n, limit28; lia)).
  pose proof (Z.mul_succ_div_gt (round53 n) (2 ^ 54) ltac:(lia)).
  unfold n, limit28 in *. lia.
Qed.

Lemma floatDiv_nonneg a b : 0 <= a → 0 < b → 0 <= floatDiv a b.
Proof.
  intros Ha Hb. unfold floatDiv. apply Z.div_pos; [|done]. apply round53_nonneg.
  pose proof (Z.div_pos (round53 a * 2 ^ 64) b). pose proof (round53_nonneg a Ha).
  case_match; lia.
Qed.

(** The float quotient exceeds the real one by less than one. *)
Lemma floatDiv_le a b : 0 <= a <= 2 ^ 53 → 0 < b → floatDiv a b * b <= a + b.
Proof.
  intros Ha Hb. unfold floatDiv. rewrite (round53_exact a) by lia.
  set (q := a * 2 ^ 64 / b). set (N := 2 * q + _).
  assert (HN : 0 <= N <= 2 * q + 1).
  { pose proof (Z.div_pos (a * 2 ^ 64) b). unfold N, q. case_match; lia. }
  assert (Hqb : q * b <= a * 2 ^ 64) by (unfold q; pose proof (Z.mul_div_le (a * 2 ^ 64) b Hb); lia).
  pose proof (round53_le N ltac:(lia)) as Hr.
  set (m := round53 N / 2 ^ 65).
  assert (Hm : 2 ^ 65 * m <= round53 N) by (apply Z.mul_div_le; lia).
  assert (H1 : 2 ^ 118 * m <= (2 ^ 53 + 1) * (2 * q + 1)) by lia.
  assert (H2 : 2 ^ 118 * (m * b) <= (2 ^ 53 + 1) * (2 * (a * 2 ^ 64) + b)) by nia.
  lia.
Qed.

Section PowerCap.
Context (vs : list Validator).

(** The first pass: total and maximum. *)
Lemma power_scan_eq :
  Forall (λ v, 0 <= v_Power v) vs → sumZ v_Power vs < 2 ^ 63 →
  foldl (λ '(powerSum, max) v,
      (i64 (powerSum + v_Power v), if max <? v_Power v then v_Power v else max))
    (0, 0) vs = (sumZ v_Power vs, foldl (λ m v, Z.max m (v_Power v)) 0 vs).
Proof.
  intros Hpos Hsum.
  assert (Hgen : ∀ s m, 0 <= s → s + sumZ v_Power vs < 2 ^ 63 →
    foldl (λ '(powerSum, max) v,
      (i64 (powerSum + v_Power v), if max <? v_Power v then v_Power v else max))
    (s, m) vs = (s + sumZ v_Power vs, foldl (λ m v, Z.max m (v_Power v)) m vs)).
  { clear Hsum. induction vs as [|v l IH]; intros s m Hs Hlt; simpl in *; [f_equal; lia|].
    apply Forall_cons in Hpos as [Hv Hpos].
    pose proof (sumZ_nonneg v_Power l) as Hl. rewrite Forall_forall in Hpos.
    specialize (Hl Hpos). rewrite i64_small by lia.
    rewrite IH by (try apply Forall_forall; auto; lia).
    f_equal; [lia|]. f_equal. destruct (m <? v_Power v) eqn:E; lia. }
  rewrite Hgen by lia. done.
Qed.

Lemma foldl_max_le m : ∀ v, v ∈ vs → v_Power v <= foldl (λ m v, Z.max m (v_Power v)) m vs.
Proof.
  assert (Hmono : ∀ l m, m <= foldl (λ m v, Z.max m (v_Power v)) m l).
  { induction l as [|v l IH]; intros m'; simpl; [lia|]. specialize (IH (Z.max m' (v_Power v))). lia. }
  revert m. induction vs as [|w l IH]; intros m v Hv; [set_solver|]. simpl.
  apply elem_of_cons in Hv as [->|Hv]; [|by apply IH].
  specialize (Hmono l (Z.max m (v_Power w))). lia.
Qed.

(** What the cap does to one validator. *)
Definition cap_power (cap boost p : Z) : Z :=
  if cap <? p then cap
  else if p <? cap then (if cap <? i64 (p + boost) then cap else i64 (p + boost)) else p.

Definition excess (cap : Z) (v : Validator) : Z := Z.max 0 (v_Power v - cap).
Definition under (cap : Z) (v : Validator) : Z := if cap <? v_Power v then 0 else 1.

(** The second pass: excess power and number of validators under the cap. *)
Lemma power_split_eq cap :
  0 <= cap → Forall (λ v, 0 <= v_Power v) vs → sumZ v_Power vs < 2 ^ 63 →
  foldl (λ '(extraSum, underCount, capped) v,
      if cap <? v_Power v
      then (i64 (extraSum + (v_Power v - cap)), underCount,
            capped ++ [mkValidator (v_PubKey v) cap])
      else (extraSum, underCount + 1, capped ++ [v]))
    (0, 0, []) vs =
  (sumZ (excess cap) vs, sumZ (under cap) vs,
   (λ v, mkValidator (v_PubKey v) (Z.min cap (v_Power v))) <$> vs).
Proof.
  intros Hcap Hpos Hsum.
  assert (Hgen : ∀ l e u c, 0 <= e → e + sumZ v_Power l < 2 ^ 63 →
    Forall (λ v, 0 <= v_Power v) l →
    foldl (λ '(extraSum, underCount, capped) v,
      if cap <? v_Power v
      then (i64 (extraSum + (v_Power v - cap)), underCount,
            capped ++ [mkValidator (v_PubKey v) cap])
      else (extraSum, underCount + 1, capped ++ [v])) (e, u, c) l =
    (e + sumZ (excess cap) l, u + sumZ (under cap) l,
     c ++ ((λ v, mkValidator (v_PubKey v) (Z.min cap (v_Power v))) <$> l))).
  { clear Hpos Hsum. intros l. induction l as [|v l IH]; intros e u c He Hlt Hpos; csimpl.
    { rewrite app_nil_r. f_equal. f_equal; lia. }
    simpl in Hlt. apply Forall_cons in Hpos as [Hv Hpos].
    assert (Hl : 0 <= sumZ v_Power l)
      by (apply sumZ_nonneg; by rewrite Forall_forall in Hpos).
    unfold excess at 1, under at 1. destruct (cap <? v_Power v) eqn:E.
    - apply Z.ltb_lt in E. rewrite i64_small by lia. rewrite IH by (done || lia).
      rewrite <- app_assoc. simpl. rewrite Z.min_l by lia. f_equal. f_equal; lia.
    - apply Z.ltb_ge in E. rewrite IH by (done || lia).
      rewrite <- app_assoc. simpl. rewrite Z.min_r by lia. destruct v; simpl in *.
      f_equal. f_equal; lia. }
  rewrite Hgen by (done || lia). done.
Qed.

Lemma under_bounds_aux l cap : 0 <= sumZ (under cap) l <= Z.of_nat (length l).
Proof.
  induction l as [|v l IH]; cbn [sumZ foldr length]; [done|].
  fold (sumZ (under cap) l). unfold under at 1 3. case_match; lia.
Qed.

Lemma under_bounds cap : 0 <= sumZ (under cap) vs <= Z.of_nat (length vs).
Proof. apply under_bounds_aux. Qed.

Lemma excess_bounds cap :
  0 <= cap → Forall (λ v, 0 <= v_Power v) vs → 0 <= sumZ (excess cap) vs <= sumZ v_Power vs.
Proof.
  intros Hcap Hpos. rewrite Forall_forall in Hpos. split.
  - apply sumZ_nonneg. unfold excess. lia.
  - apply sumZ_le. intros v Hv. specialize (Hpos v Hv). unfold excess. lia.
Qed.

(** Four validators cannot all be above 28% of the total. *)
Lemma someone_under :
  (4 <= length vs)%nat → 0 <= sumZ v_Power vs <= 2 ^ 53 →
  0 < sumZ (under (maxPower28 (sumZ v_Power vs))) vs.
Proof.
  intros Hlen HS. set (M := maxPower28 (sumZ v_Power vs)).
  assert (HM : 0 <= M) by (apply maxPower28_nonneg; lia).
  pose proof (under_bounds M) as Hu. pose proof (maxPower28_ge _ HS) as Hge. fold M in Hge.
  destruct (decide (sumZ (under M) vs = 0)) as [Hz|]; [|lia]. exfalso.
  assert (Hall : Z.of_nat (length vs) * (M + 1) <= sumZ v_Power vs).
  { clear Hlen HS Hge. clearbody M. clear Hu. revert Hz.
    induction vs as [|v l IH]; cbn [sumZ foldr length]; [lia|].
    fold (sumZ (under M) l) (sumZ v_Power l). pose proof (under_bounds_aux l M).
    unfold under at 1. destruct (M <? v_Power v) eqn:E; intros; [|lia].
    specialize (IH ltac:(lia)). lia. }
  nia.
Qed.

(** The result of [applyPowerCap], validator by validator. *)
Lemma applyPowerCap_eq :
  (4 <= length vs)%nat → Forall (λ v, 0 <= v_Power v) vs → sumZ v_Power vs <= 2 ^ 53 →
  let cap := maxPower28 (sumZ v_Power vs) in
  applyPowerCap vs =
    if cap <? foldl (λ m v, Z.max m (v_Power v)) 0 vs then
      let boost := floatDiv (sumZ (excess cap) vs) (sumZ (under cap) vs) in
      (λ v, mkValidator (v_PubKey v) (cap_power cap boost (v_Power v))) <$> vs
    else vs.
Proof.
  intros Hlen Hpos HS cap. unfold applyPowerCap.
  destruct (length vs <? 4)%nat eqn:E; [apply Nat.ltb_lt in E; lia|].
  rewrite power_scan_eq by (done || lia). fold cap.
  destruct (cap <? _); [|done].
  assert (Hcap : 0 <= cap).
  { apply maxPower28_nonneg, sumZ_nonneg. by rewrite Forall_forall in Hpos. }
  rewrite power_split_eq by (done || lia). rewrite <- list_fmap_compose.
  apply list_fmap_ext. intros i v _. unfold compose, cap_power. simpl.
  destruct (cap <? v_Power v) eqn:Hc.
  - rewrite Z.min_l by lia. by rewrite Z.ltb_irrefl.
  - rewrite Z.min_r by lia. destruct (v_Power v <? cap) eqn:Hc'; [by case_match|by destruct v].
Qed.
End PowerCap.

Lemma cap_power_le cap boost p : cap_power cap boost p <= cap.
Proof. unfold cap_power. repeat case_match; lia. Qed.

Lemma cap_power_nonneg cap boost p :
  0 <= cap → 0 <= p → 0 <= boost → p + boost < 2 ^ 63 → 0 <= cap_power cap boost p.
Proof. intros. unfold cap_power. rewrite i64_small by lia. repeat case_match; lia. Qed.

Lemma cap_power_mono cap boost p q :
  0 <= p <= q → 0 <= boost → q + boost < 2 ^ 63 →
  cap_power cap boost p <= cap_power cap boost q.
Proof. intros. unfold cap_power. rewrite !i64_small by lia. repeat case_match; lia. Qed.

(** What the boost adds is what the cap took, up to one unit each. *)
Lemma cap_power_sum cap boost (vs : list Validator) :
  0 <= cap → 0 <= boost → Forall (λ v, 0 <= v_Power v ∧ v_Power v + boost < 2 ^ 63) vs →
  sumZ (λ v, cap_power cap boost (v_Power v)) vs <=
  sumZ v_Power vs - sumZ (excess cap) vs + sumZ (under cap) vs * boost.
Proof.
  intros Hcap Hb Hvs. rewrite <- sumZ_mul_r.
  enough (sumZ (λ v, cap_power cap boost (v_Power v) + excess cap v) vs <=
          sumZ (λ v, v_Power v + under cap v * boost) vs) as Hle.
  { rewrite !sumZ_add in Hle. lia. }
  apply sumZ_le. intros v Hv. rewrite Forall_forall in Hvs. specialize (Hvs v Hv) as [??].
  unfold cap_power, excess, under. rewrite i64_small by lia. repeat case_match; lia.
Qed.

Section PowerCapProperties.
Context (vs : list Validator).
Context (Hlen : (4 <= length vs)%nat) (Hpos : Forall (λ v, 0 <= v_Power v) vs).
Context (Hsum : sumZ v_Power vs <= 2 ^ 53).

Let cap := maxPower28 (sumZ v_Power vs).
Let boost := floatDiv (sumZ (excess cap) vs) (sumZ (under cap) vs).

Lemma total_nonneg : 0 <= sumZ v_Power vs.
Proof. apply sumZ_nonneg. by rewrite Forall_forall in Hpos. Qed.

Lemma cap_nonneg : 0 <= cap.
Proof. apply maxPower28_nonneg, total_nonneg. Qed.

Lemma boost_bounds :
  0 <= boost <= 2 ^ 53 + 1 ∧
  sumZ (under cap) vs * boost <= sumZ (excess cap) vs + sumZ (under cap) vs.
Proof.
  pose proof (excess_bounds vs cap cap_nonneg Hpos) as He.
  pose proof (someone_under vs Hlen ltac:(pose proof total_nonneg; lia)) as Hu. fold cap in Hu.
  pose proof (floatDiv_le (sumZ (excess cap) vs) (sumZ (under cap) vs) ltac:(lia) Hu) as Hfl.
  pose proof (floatDiv_nonneg (sumZ (excess cap) vs) (sumZ (under cap) vs) ltac:(lia) Hu) as Hfn.
  fold boost in Hfl, Hfn. split_and!; nia.
Qed.

Lemma power_small v : v ∈ vs → 0 <= v_Power v <= 2 ^ 53.
Proof.
  intros Hv. rewrite Forall_forall in Hpos. split; [by apply Hpos|].
  etransitivity; [|exact Hsum]. by apply sumZ_elem_le.
Qed.
End PowerCapProperties.

(** The bounds for four validators or more. *)
Lemma power_cap_bounds_4 (vs : list Validator) :
  (4 <= length vs)%nat → Forall (λ v, 0 <= v_Power v) vs → sumZ v_Power vs <= 2 ^ 53 →
  let vs' := applyPowerCap vs in
  v_PubKey <$> vs' = v_PubKey <$> vs ∧
  Forall (λ v, 0 <= v_Power v ∧ 100 * v_Power v <= 28 * sumZ v_Power vs + 100) vs' ∧
  sumZ v_Power vs' <= sumZ v_Power vs + Z.of_nat (length vs).
Proof.
  intros Hlen Hpos Hsum vs'. unfold vs'. rewrite applyPowerCap_eq by done.
  pose proof (total_nonneg vs Hpos) as HS.
  pose proof (maxPower28_le (sumZ v_Power vs) ltac:(lia)) as Hcap.
  pose proof (cap_nonneg vs Hpos) as Hcap0.
  destruct (_ <? _) eqn:E; cbn zeta.
  - destruct (boost_bounds vs Hlen Hpos Hsum) as [Hb Hub].
    set (cap := maxPower28 _) in *. set (boost := floatDiv _ _) in *.
    assert (Hsmall : Forall (λ v, 0 <= v_Power v ∧ v_Power v + boost < 2 ^ 63) vs).
    { apply Forall_forall. intros v Hv. pose proof (power_small vs Hpos Hsum v Hv). lia. }
    split_and!.
    + rewrite <- list_fmap_compose. apply list_fmap_ext. intros; reflexivity.
    + apply Forall_fmap, Forall_forall. intros v Hv. simpl.
      pose proof (cap_power_le cap boost (v_Power v)). rewrite Forall_forall in Hsmall.
      destruct (Hsmall v Hv). split; [apply cap_power_nonneg; done || lia|lia].
    + rewrite sumZ_fmap. pose proof (cap_power_sum cap boost vs Hcap0 ltac:(lia) Hsmall).
      pose proof (under_bounds vs cap). unfold compose; simpl. lia.
  - apply Z.ltb_ge in E. split_and!; [done| |lia]. apply Forall_forall. intros v Hv.
    pose proof (foldl_max_le vs 0 v Hv). rewrite Forall_forall in Hpos. split; [by apply Hpos|lia].
Qed.

(** C39. The power cap keeps the validators and their order, and powers stay
    non-negative.  Fewer than four validators keep their powers, as no share of at
    most 28% is possible.  From four validators on every power is at most 28% of
    the former total (up to rounding: one unit), and the total has grown by at
    most one unit per validator.  The total of the powers, which are not negative,
    is within the 53 bits of a double. *)
Theorem power_cap_bounds (vs : list Validator) :
  Forall (λ v, 0 <= v_Power v) vs → sumZ v_Power vs <= 2 ^ 53 →
  let vs' := applyPowerCap vs in
  v_PubKey <$> vs' = v_PubKey <$> vs ∧ Forall (λ v, 0 <= v_Power v) vs' ∧
  if (length vs <? 4)%nat then vs' = vs
  else Forall (λ v, 100 * v_Power v <= 28 * sumZ v_Power vs + 100) vs' ∧
       sumZ v_Power vs' <= sumZ v_Power vs + Z.of_nat (length vs).
Proof.
  intros Hpos Hsum vs'. destruct (Nat.ltb_spec (length vs) 4) as [Hlt|Hlen].
  { unfold vs', applyPowerCap. by rewrite (proj2 (Nat.ltb_lt _ _) Hlt). }
  destruct (power_cap_bounds_4 vs Hlen Hpos Hsum) as (H1 & H2 & H3). split_and!; [done| | |done];
    (eapply Forall_impl; [exact H2|]; naive_solver).
Qed.

(** The power cap keeps the order of the validators by power. *)
Theorem power_cap_keeps_order (vs : list Validator) i j v w v' w' :
  (4 <= length vs)%nat → Forall (λ v, 0 <= v_Power v) vs → sumZ v_Power vs <= 2 ^ 53 →
  vs !! i = Some v → vs !! j = Some w →
  applyPowerCap vs !! i = Some v' → applyPowerCap vs !! j = Some w' →
  v_Power v <= v_Power w → v_Power v' <= v_Power w'.
Proof.
  intros Hlen Hpos Hsum Hi Hj. rewrite applyPowerCap_eq by done.
  destruct (_ <? _) eqn:E; cbn zeta; [|intros; by simplify_eq].
  destruct (boost_bounds vs Hlen Hpos Hsum) as [Hb _].
  rewrite !list_lookup_fmap, Hi, Hj. simpl. intros [= <-] [= <-] Hle. simpl.
  pose proof (power_small vs Hpos Hsum v ltac:(by eapply list_elem_of_lookup_2)).
  pose proof (power_small vs Hpos Hsum w ltac:(by eapply list_elem_of_lookup_2)).
  apply cap_power_mono; lia.
Qed.

(** ** Witnesses *)

Module MathWitness.
Definition params : Params := mkParams 21 3600 None None (Some 60000000) None None None.
Definition powers (l : list Z) : list Validator := (λ p, mkValidator "k" p) <$> l.

Lemma shares_witness :
  sumZ (λ d, calculateShare d 1000 77) [300; 500] <= 77.
Proof.
  apply (shares_never_exceed_rewards [300; 500] 1000 77); [lia|lia| |by vm_compute].
  repeat constructor; lia.
Defined.

Lemma rewards_witness :
  Forall (λ r, 0 <= r) [4566; 2283] ∧
  sumZ id [4566; 2283] <= 60000000 * cycle_seconds params / secondsInYear.
Proof.
  apply (election_rewards_capped params 60000000 6000000000 [4000000000; 2000000000]).
  - reflexivity.
  - lia.
  - simpl; lia.
  - repeat constructor; lia.
  - by vm_compute.
  - by repeat constructor.
Defined.

Lemma power_cap_bounds_witness :
  Forall (λ v, 100 * v_Power v <= 28 * 1030 + 100)
    (applyPowerCap (powers [1000; 10; 10; 10])).
Proof.
  apply (power_cap_bounds (powers [1000; 10; 10; 10])).
  - repeat constructor; by vm_compute.
  - by vm_compute.
Defined.

Lemma power_cap_order_witness :
  v_Power (mkValidator "k" 335) <= v_Power (mkValidator "k" 425).
Proof.
  apply (power_cap_keeps_order (powers [1000; 500; 10; 10]) 3 1
    (mkValidator "k" 10) (mkValidator "k" 500)
    (mkValidator "k" 335) (mkValidator "k" 425));
    try (by vm_compute); repeat constructor; by vm_compute.
Defined.
End MathWitness.
