(* ===== verification/DposStorage.v ===== *)
(** * Storage of the dpos contract (src/builtin/plugins/dposv3/storage.go)

    [DposStore] is the contract's slice of the store, one field per key family;
    the families have the distinct prefixes "state", "candidates",
    "delegation", "statistic", "referrers" and "request_batch_tally"
    ([key_families_disjoint]).  Inside a family the keys are the byte strings
    the code builds.  Reading an absent record is [None] ([contract.ErrNotFound]);
    the records are typed, so there is no unmarshalling error, and writing
    never fails: readers are functions of the store and writers are functions
    from store to store. *)

From stdpp Require Import pretty.
From S2P Require Import Prelude Contract DposTypes DposMath.

Definition REWARD_DELEGATION_INDEX : Z := 0.
Definition DELEGATION_START_INDEX : Z := 1.

Record DposStore := mkDposStore {
  ds_state : option State;
  ds_candidates : option (list Candidate);
  ds_delegations : option (list DelegationIndex);
  ds_delegation : gmap bytes Delegation;
  ds_statistics : gmap bytes ValidatorStatistic;
  ds_referrers : gmap string Address;
  ds_tally : option RequestBatchTally;
}.

Definition empty_dpos_store : DposStore := mkDposStore None None None ∅ ∅ ∅ None.

(** [ctx.Set] and [ctx.Delete] on each family. *)
Definition put_state (x : State) (s : DposStore) : DposStore :=
  mkDposStore (Some x) (ds_candidates s) (ds_delegations s) (ds_delegation s)
    (ds_statistics s) (ds_referrers s) (ds_tally s).
Definition put_candidates (x : list Candidate) (s : DposStore) : DposStore :=
  mkDposStore (ds_state s) (Some x) (ds_delegations s) (ds_delegation s)
    (ds_statistics s) (ds_referrers s) (ds_tally s).
Definition put_delegations (x : list DelegationIndex) (s : DposStore) : DposStore :=
  mkDposStore (ds_state s) (ds_candidates s) (Some x) (ds_delegation s)
    (ds_statistics s) (ds_referrers s) (ds_tally s).
Definition put_delegation (x : gmap bytes Delegation) (s : DposStore) : DposStore :=
  mkDposStore (ds_state s) (ds_candidates s) (ds_delegations s) x
    (ds_statistics s) (ds_referrers s) (ds_tally s).
Definition put_statistics (x : gmap bytes ValidatorStatistic) (s : DposStore) : DposStore :=
  mkDposStore (ds_state s) (ds_candidates s) (ds_delegations s) (ds_delegation s)
    x (ds_referrers s) (ds_tally s).
Definition put_referrers (x : gmap string Address) (s : DposStore) : DposStore :=
  mkDposStore (ds_state s) (ds_candidates s) (ds_delegations s) (ds_delegation s)
    (ds_statistics s) x (ds_tally s).
Definition put_tally (x : RequestBatchTally) (s : DposStore) : DposStore :=
  mkDposStore (ds_state s) (ds_candidates s) (ds_delegations s) (ds_delegation s)
    (ds_statistics s) (ds_referrers s) (Some x).

(** Removing the first element that satisfies [p]
    ([copy(l[i:], l[i+1:]); l = l[:len(l)-1]; break]). *)
Fixpoint remove_first {A} (p : A → bool) (l : list A) : list A :=
  match l with
  | [] => []
  | x :: l => if p x then l else x :: remove_first p l
  end.

(** ** Delegations *)

(** [fmt.Sprintf("%d", index)] followed by the two local addresses. *)
Definition computeDelegationsKey (index : Z) (validator delegator : Address) : bytes :=
  pretty (Z.to_N index) +:+ Local validator +:+ Local delegator.

Definition GetDelegation (s : DposStore) (index : Z) (validator delegator : Address) :
    option Delegation :=
  ds_delegation s !! computeDelegationsKey index validator delegator.

Fixpoint nextIndexFrom (fuel : nat) (s : DposStore) (validator delegator : Address)
    (index : Z) : option Z :=
  match fuel with
  | O => None
  | S fuel =>
      match GetDelegation s index validator delegator with
      | None => Some index
      | Some _ => nextIndexFrom fuel s validator delegator (u64 (index + 1))
      end
  end.

(** The loop stops at the first free index.  [None] stands for a loop that does
    not stop; [next_index_terminates] excludes it. *)
Definition GetNextDelegationIndex (s : DposStore) (validator delegator : Address) : option Z :=
  nextIndexFrom (S (size (ds_delegation s))) s validator delegator DELEGATION_START_INDEX.

Definition loadDelegationList (s : DposStore) : list DelegationIndex :=
  default [] (ds_delegations s).

Definition DelegationsCount (s : DposStore) : nat := length (loadDelegationList s).

Section Delegations.
Context {LIB : DiademLib}.

(** [byValidatorAndDelegator.Less] *)
Definition lessValidatorAndDelegator (x y : DelegationIndex) : bool :=
  let diff := address_compare (di_Validator x) (di_Validator y) in
  let diff := if diff =? 0 then address_compare (di_Delegator x) (di_Delegator y) else diff in
  if diff =? 0 then di_Index x <? di_Index y else diff <? 0.

Definition sortDelegations (l : list DelegationIndex) : list DelegationIndex :=
  go_sort lessValidatorAndDelegator l.

Definition saveDelegationList (dl : list DelegationIndex) (s : DposStore) : DposStore :=
  put_delegations (sortDelegations dl) s.

Definition SetDelegation (delegation : Delegation) (s : DposStore) : DposStore :=
  let delegations := loadDelegationList s in
  let delegationIndex :=
    mkDelegationIndex (d_Validator delegation) (d_Delegator delegation) (d_Index delegation) in
  let pastvalue :=
    GetDelegation s (d_Index delegation) (d_Validator delegation) (d_Delegator delegation) in
  let s :=
    match pastvalue with
    | None => saveDelegationList (delegations ++ [delegationIndex]) s
    | Some _ => s
    end in
  let delegationKey :=
    computeDelegationsKey (di_Index delegationIndex) (d_Validator delegation)
      (d_Delegator delegation) in
  put_delegation (<[delegationKey := delegation]> (ds_delegation s)) s.

(** The test of the loop in [DeleteDelegation]: the two local addresses. *)
Definition samePair (delegation : Delegation) (d : DelegationIndex) : bool :=
  (local_compare (Local (d_Validator delegation)) (Local (di_Validator d)) =? 0) &&
  (local_compare (Local (d_Delegator delegation)) (Local (di_Delegator d)) =? 0).

Definition DeleteDelegation (delegation : Delegation) (s : DposStore) : DposStore :=
  let delegations := remove_first (samePair delegation) (loadDelegationList s) in
  let s := saveDelegationList delegations s in
  let delegationKey :=
    computeDelegationsKey (d_Index delegation) (d_Validator delegation)
      (d_Delegator delegation) in
  put_delegation (delete delegationKey (ds_delegation s)) s.

Definition IncreaseRewardDelegation (validator delegator : Address) (increase : Z)
    (s : DposStore) : DposStore :=
  let delegation :=
    match GetDelegation s REWARD_DELEGATION_INDEX validator delegator with
    | None =>
        mkDelegation validator delegator REWARD_DELEGATION_INDEX 0 0 None 0 0 BONDED ""
    | Some delegation => delegation
    end in
  SetDelegation (d_with_Amount (d_Amount delegation + increase) delegation) s.
End Delegations.

(** ** Statistics and referrers *)

Definition GetStatisticByAddressBytes (s : DposStore) (addressBytes : bytes) :
    option ValidatorStatistic := ds_statistics s !! addressBytes.

Definition GetStatistic (s : DposStore) (address : Address) : option ValidatorStatistic :=
  GetStatisticByAddressBytes s (Local address).

Definition SetStatistic (statistic : ValidatorStatistic) (s : DposStore) : DposStore :=
  put_statistics (<[Local (vs_Address statistic) := statistic]> (ds_statistics s)) s.

Definition GetReferrer (s : DposStore) (name : string) : option Address := ds_referrers s !! name.

Definition SetReferrer (name : string) (address : Address) (s : DposStore) : DposStore :=
  put_referrers (<[name := address]> (ds_referrers s)) s.

(** ** Candidates *)

Definition loadCandidateList (s : DposStore) : list Candidate := default [] (ds_candidates s).

Section Candidates.
Context {LIB : DiademLib}.

Definition isAt (addr : Address) (cand : Candidate) : bool :=
  local_compare (Local (c_Address cand)) (Local addr) =? 0.

(** [CandidateList.Get]: the first match of a scan. *)
Definition CandidateList_Get (c : list Candidate) (addr : Address) : option Candidate :=
  List.find (isAt addr) c.

Definition GetCandidate (s : DposStore) (addr : Address) : option Candidate :=
  List.find (isAt addr) (loadCandidateList s).

Definition GetCandidateByPubKey (s : DposStore) (pubkey : bytes) : option Candidate :=
  List.find (λ cand, bytes_compare (c_PubKey cand) pubkey =? 0) (loadCandidateList s).

(** [CandidateList.Set]: when the candidate is found the assignment goes to
    the loop variable, so the list stays as it was. *)
Definition CandidateList_Set (cand : Candidate) (c : list Candidate) : list Candidate :=
  let found := existsb (λ candidate,
      local_compare (Local (c_Address cand)) (Local (c_Address candidate)) =? 0) c in
  if found then c else c ++ [cand].

Definition CandidateList_Delete (addr : Address) (c : list Candidate) : list Candidate :=
  remove_first (isAt addr) c.

(** [byAddress.Less] *)
Definition lessCandidateAddress (x y : Candidate) : bool :=
  local_compare (Local (c_Address x)) (Local (c_Address y)) <? 0.

Definition sortCandidates (cands : list Candidate) : list Candidate :=
  go_sort lessCandidateAddress cands.

Definition saveCandidateList (cl : list Candidate) (s : DposStore) : DposStore :=
  put_candidates (sortCandidates cl) s.

(** The first loop of [updateCandidateList]: one election moves a fee change
    one step on. *)
Definition stepCandidate (c : Candidate) : Candidate :=
  match c_State c with
  | ABOUT_TO_CHANGE_FEE => c_with_State CHANGING_FEE c
  | CHANGING_FEE => c_with_State REGISTERED (c_with_Fee (c_NewFee c) c)
  | _ => c
  end.

Definition updateCandidateList (s : DposStore) : DposStore :=
  let candidates := loadCandidateList s in
  let deleteList :=
    c_Address <$> filter (λ c, c_State c = UNREGISTERING) candidates in
  let candidates := stepCandidate <$> candidates in
  let candidates :=
    foldl (λ candidates addr, CandidateList_Delete addr candidates) candidates deleteList in
  saveCandidateList candidates s.
End Candidates.

(** ** State *)

(** [byPubkey.Less] *)
Definition lessPubkey (x y : Validator) : bool :=
  bytes_compare (v_PubKey x) (v_PubKey y) <? 0.

Definition sortValidators (validators : list Validator) : list Validator :=
  go_sort lessPubkey validators.

Definition saveState (state : State) (s : DposStore) : DposStore :=
  put_state (st_with_Validators (sortValidators (st_Validators state)) state) s.

Definition loadState (s : DposStore) : Res State :=
  match ds_state s with Some state => Ok state | None => Err ErrNotFound end.

(** [byDelegationTotal.Less]: larger totals first, ties by address. *)
Definition lessDelegationTotal `{DiademLib} (x y : DelegationResult) : bool :=
  let diff := Z.sgn (dr_DelegationTotal x - dr_DelegationTotal y) in
  let diff :=
    if diff =? 0 then address_compare (dr_ValidatorAddress x) (dr_ValidatorAddress y) else diff in
  0 <? diff.

(** The two indices only move forward; the recursion is on both lists. *)
Fixpoint MissingValidators (former : list Validator) : list Validator → list Validator :=
  fix scan (current : list Validator) : list Validator :=
    match former with
    | [] => []
    | f :: former' =>
        match current with
        | [] => former
        | c :: current' =>
            match String.compare (v_PubKey f) (v_PubKey c) with
            | Lt => f :: MissingValidators former' current
            | Eq => MissingValidators former' current'
            | Gt => scan current'
            end
        end
    end.

Definition loadRequestBatchTally (s : DposStore) : RequestBatchTally :=
  default (mkTally 0 0 0) (ds_tally s).

Definition saveRequestBatchTally (tally : RequestBatchTally) (s : DposStore) : DposStore :=
  put_tally tally s.

(** ** Keys *)

(** The keys the contract uses in its store. *)
Inductive StoreKey :=
  | KState
  | KCandidates
  | KDelegations
  | KDelegation (index : Z) (validator delegator : Address)
  | KStatistic (addressBytes : bytes)
  | KReferrer (name : string)
  | KRequestBatchTally.

Definition key_bytes (k : StoreKey) : bytes :=
  match k with
  | KState => "state"
  | KCandidates => "candidates"
  | KDelegations => "delegation"
  | KDelegation i v d => "delegation" +:+ computeDelegationsKey i v d
  | KStatistic a => "statistic" +:+ a
  | KReferrer n => "referrers" +:+ n
  | KRequestBatchTally => "request_batch_tally"
  end.

Lemma pretty_N_go_nonempty (x : N) s : s ≠ "" ∨ (0 < x)%N → pretty_N_go x s ≠ "".
Proof.
  revert s. induction (N.lt_wf_0 x) as [x _ IH]; intros s Hs.
  destruct (decide (x = 0%N)) as [->|Hx]; [rewrite pretty_N_go_0; by destruct Hs|].
  rewrite pretty_N_go_step by lia. apply IH; [apply N.div_lt; lia|by left].
Qed.

Lemma pretty_nonempty (n : N) : pretty n ≠ "".
Proof.
  unfold pretty, pretty_N. case_decide; [done|]. apply pretty_N_go_nonempty. right. lia.
Qed.

Lemma computeDelegationsKey_inj i j v w d e :
  0 <= i → 0 <= j →
  String.length (Local v) = String.length (Local w) →
  String.length (Local d) = String.length (Local e) →
  computeDelegationsKey i v d = computeDelegationsKey j w e →
  i = j ∧ Local v = Local w ∧ Local d = Local e.
Proof.
  intros Hi Hj Hv Hd H. unfold computeDelegationsKey in H.
  apply append_inj_r in H as [Hp H]; [|rewrite !append_length; lia].
  apply append_length_inj in H as [? ?]; [|done].
  apply (inj pretty) in Hp. split; [lia|done].
Qed.

(** Well-formed keys: indices are unsigned and local addresses have 20 bytes. *)
Definition wf_key (k : StoreKey) : Prop :=
  match k with
  | KDelegation i v d =>
      0 <= i ∧ String.length (Local v) = 20%nat ∧ String.length (Local d) = 20%nat
  | _ => True
  end.

(** Two keys name the same record; delegation records are told apart by local
    addresses. *)
Definition same_key (k k' : StoreKey) : Prop :=
  match k, k' with
  | KDelegation i v d, KDelegation j w e => i = j ∧ Local v = Local w ∧ Local d = Local e
  | _, _ => k = k'
  end.

Lemma append_cancel_l (p x y : string) : p +:+ x = p +:+ y → x = y.
Proof. intros H. by apply append_length_inj in H as [_ ?]. Qed.

(** Distinct records never share a key in the contract's store: equal key
    bytes mean the same kind of record with the same index and addresses. *)
Theorem store_keys_never_clash k k' :
  wf_key k → wf_key k' → key_bytes k = key_bytes k' → same_key k k'.
Proof.
  intros Hk Hk' H. destruct k as [| | |i v d|a|n|], k' as [| | |j w e|a'|n'|];
    cbn in *; try done; try (by inversion H).
  - exfalso. injection H as H. unfold computeDelegationsKey in H.
    destruct (pretty (Z.to_N j)) eqn:E; [by apply pretty_nonempty in E|done].
  - exfalso. injection H as H. unfold computeDelegationsKey in H.
    destruct (pretty (Z.to_N i)) eqn:E; [by apply pretty_nonempty in E|done].
  - injection H as H. apply computeDelegationsKey_inj in H; destruct_and?; (done || lia).
  - f_equal. by apply (append_cancel_l "statistic").
  - f_equal. by apply (append_cancel_l "referrers").
Qed.

(** ** The next free index *)

Section NextIndex.
Context (s : DposStore) (v d : Address).

Lemma key_index_inj i j :
  0 <= i → 0 <= j → computeDelegationsKey i v d = computeDelegationsKey j v d → i = j.
Proof. intros. by eapply (computeDelegationsKey_inj i j v v d d). Qed.

(** Consecutive occupied indices are distinct records. *)
Lemma occupied_le_size (n : nat) :
  (∀ k, (k < n)%nat → is_Some (GetDelegation s (1 + Z.of_nat k) v d)) →
  (n <= size (ds_delegation s))%nat.
Proof.
  intros Hocc.
  set (keys := (λ k : nat, computeDelegationsKey (1 + Z.of_nat k) v d) <$> seq 0 n).
  assert (Hnd : NoDup keys).
  { unfold keys. apply NoDup_fmap_2_strong; [|apply NoDup_seq].
    intros x y _ _ Hxy. apply key_index_inj in Hxy; lia. }
  assert (Hsub : list_to_set keys ⊆ dom (ds_delegation s)).
  { intros k Hk. apply elem_of_list_to_set, list_elem_of_fmap in Hk as (i & -> & Hi).
    apply elem_of_dom. apply Hocc. apply elem_of_seq in Hi. lia. }
  apply subseteq_size in Hsub. rewrite size_list_to_set, size_dom in Hsub by done.
  unfold keys in Hsub. by rewrite length_fmap, length_seq in Hsub.
Qed.

Lemma nextIndexFrom_spec fuel k :
  Z.of_nat k + Z.of_nat fuel < 2 ^ 64 - 1 →
  (∀ j, (j < k)%nat → is_Some (GetDelegation s (1 + Z.of_nat j) v d)) →
  match nextIndexFrom fuel s v d (1 + Z.of_nat k) with
  | Some i => 1 <= i <= Z.of_nat k + Z.of_nat fuel ∧ GetDelegation s i v d = None ∧
              ∀ j, 1 <= j < i → is_Some (GetDelegation s j v d)
  | None => ∀ j, (j < k + fuel)%nat → is_Some (GetDelegation s (1 + Z.of_nat j) v d)
  end.
Proof.
  revert k. induction fuel as [|fuel IH]; intros k Hlt Hocc; simpl.
  { intros j Hj. apply Hocc. lia. }
  destruct (GetDelegation s (1 + Z.of_nat k) v d) eqn:E.
  - rewrite u64_small by lia. replace (1 + Z.of_nat k + 1) with (1 + Z.of_nat (S k)) by lia.
    specialize (IH (S k) ltac:(lia)).
    assert (Hocc' : ∀ j, (j < S k)%nat → is_Some (GetDelegation s (1 + Z.of_nat j) v d)).
    { intros j Hj. destruct (decide (j = k)) as [->|]; [by eexists|apply Hocc; lia]. }
    specialize (IH Hocc'). case_match.
    + destruct IH as (? & ? & ?). split_and!; [lia|lia|done|done].
    + intros j Hj. apply IH. lia.
  - split_and!; [lia|lia|done|]. intros j Hj.
    replace j with (1 + Z.of_nat (Z.to_nat (j - 1))) by lia. apply Hocc. lia.
Qed.

Lemma next_index_found :
  Z.of_nat (size (ds_delegation s)) < 2 ^ 64 - 2 →
  ∃ i, GetNextDelegationIndex s v d = Some i ∧
       1 <= i <= Z.of_nat (size (ds_delegation s)) + 1 ∧
       GetDelegation s i v d = None ∧
       ∀ j, 1 <= j < i → is_Some (GetDelegation s j v d).
Proof.
  intros Hsize. unfold GetNextDelegationIndex, DELEGATION_START_INDEX.
  pose proof (nextIndexFrom_spec (S (size (ds_delegation s))) 0) as H.
  change (1 + Z.of_nat 0) with 1 in H.
  destruct (nextIndexFrom _ s v d 1) as [i|].
  - exists i. destruct H as (? & ? & ?); [lia|lia|]. split_and!; (done || lia).
  - pose proof (occupied_le_size (S (size (ds_delegation s)))) as Hle.
    exfalso. assert (S (size (ds_delegation s)) <= size (ds_delegation s))%nat; [|lia].
    apply Hle. intros k Hk. apply H; [lia|lia|lia].
Qed.

(** C40. The search for a free delegation index stops after at most one step
    per stored delegation and returns the least unused index, as long as the
    store holds fewer than 2^64 - 2 delegations. *)
Theorem next_index_terminates :
  Z.of_nat (size (ds_delegation s)) < 2 ^ 64 - 2 →
  ∃ i, GetNextDelegationIndex s v d = Some i ∧
       1 <= i <= Z.of_nat (size (ds_delegation s)) + 1 ∧
       GetDelegation s i v d = None ∧
       ∀ j, 1 <= j < i → is_Some (GetDelegation s j v d).
Proof. apply next_index_found. Qed.
End NextIndex.

(** ** Validators that leave *)

Definition pubkey_lt (x y : Validator) : Prop := String.compare (v_PubKey x) (v_PubKey y) = Lt.

Lemma string_compare_lt_ne (x y : string) : String.compare x y = Lt → x ≠ y.
Proof. intros H ->. pose proof (String.compare_antisym y y). rewrite H in *. done. Qed.

Lemma string_compare_gt (x y : string) : String.compare x y = Gt → String.compare y x = Lt.
Proof. intros H. rewrite String.compare_antisym, H. done. Qed.

(** A key below all keys of a sorted list is not in it. *)
Lemma pubkey_below_notin f (l : list Validator) :
  (∀ c, c ∈ l → pubkey_lt f c) → v_PubKey f ∉ v_PubKey <$> l.
Proof.
  intros H (c & Hc & Hin)%list_elem_of_fmap. apply H in Hin.
  by apply string_compare_lt_ne in Hin.
Qed.

Lemma filter_notin_cons (l : list Validator) c ks :
  (∀ x, x ∈ l → pubkey_lt c x) →
  filter (λ x, v_PubKey x ∉ v_PubKey c :: ks) l = filter (λ x, v_PubKey x ∉ ks) l.
Proof.
  intros H. apply filter_ext_in. intros x Hx. rewrite elem_of_cons.
  apply H, string_compare_lt_ne in Hx. naive_solver.
Qed.

Lemma missing_validators_eq former current :
  StronglySorted pubkey_lt former → StronglySorted pubkey_lt current →
  MissingValidators former current =
    filter (λ f, v_PubKey f ∉ v_PubKey <$> current) former.
Proof.
  intros Hf. revert current. induction Hf as [|f former Hf IHf Hfs].
  { intros []; done. }
  intros current Hc. induction Hc as [|c current Hc IHc Hcs].
  { symmetry. apply filter_all. intros x _. by apply not_elem_of_nil. }
  rewrite Forall_forall in Hfs, Hcs.
  cbn [MissingValidators]. destruct (String.compare (v_PubKey f) (v_PubKey c)) eqn:E.
  - apply String.compare_eq_iff in E.
    rewrite IHf by done. csimpl. rewrite filter_cons_False by (rewrite E; set_solver).
    symmetry. apply filter_notin_cons. intros x Hx. unfold pubkey_lt. rewrite <- E. by apply Hfs.
  - rewrite IHf by (by constructor; [|apply Forall_forall]).
    rewrite filter_cons_True; [done|]. csimpl. rewrite not_elem_of_cons. split.
    + by apply string_compare_lt_ne.
    + apply pubkey_below_notin. intros x Hx. unfold pubkey_lt.
      eapply string_compare_trans; [exact E|]. by apply Hcs.
  - fold MissingValidators. apply string_compare_gt in E.
    change ((fix scan (current : list Validator) : list Validator := _) current)
      with (MissingValidators (f :: former) current).
    rewrite IHc. csimpl. symmetry. apply (filter_notin_cons (f :: former)).
    intros x [->|Hx]%elem_of_cons; [done|].
    eapply string_compare_trans; [exact E|]. by apply Hfs.
Qed.

(** [MissingValidators] returns exactly the members of the former validator
    list whose public key is not in the current one, for lists sorted by public
    key without repetitions, which is how they are stored. *)
Theorem missing_validators_correct former current :
  StronglySorted pubkey_lt former → StronglySorted pubkey_lt current →
  MissingValidators former current =
    filter (λ f, v_PubKey f ∉ v_PubKey <$> current) former.
Proof. apply missing_validators_eq. Qed.

(** ** The delegation index

    [loadDelegationList] is an index of the delegation records: elections and
    listings go through it.  It is consistent when the keys of its entries are
    exactly the keys of the stored records. *)

Definition entry_key (e : DelegationIndex) : bytes :=
  computeDelegationsKey (di_Index e) (di_Validator e) (di_Delegator e).

Definition delegation_key (d : Delegation) : bytes :=
  computeDelegationsKey (d_Index d) (d_Validator d) (d_Delegator d).

Definition index_wf (s : DposStore) : Prop :=
  (entry_key <$> loadDelegationList s) ≡ₚ (map_to_list (ds_delegation s)).*1.

Lemma index_wf_empty : index_wf empty_dpos_store.
Proof. unfold index_wf. simpl. by rewrite map_to_list_empty. Qed.

Lemma index_wf_listed s k :
  index_wf s → k ∈ entry_key <$> loadDelegationList s ↔ is_Some (ds_delegation s !! k).
Proof.
  unfold index_wf. intros Hwf. rewrite Hwf, list_elem_of_fmap. split.
  - intros ([k' d] & -> & Hin%elem_of_map_to_list). by exists d.
  - intros [d Hd]. exists (k, d). by rewrite elem_of_map_to_list.
Qed.

Lemma index_wf_nodup s : index_wf s → NoDup (entry_key <$> loadDelegationList s).
Proof. unfold index_wf. intros Hwf. rewrite Hwf. apply NoDup_fst_map_to_list. Qed.

Lemma remove_first_spec {A} (p : A → bool) (l : list A) :
  match List.find p l with
  | Some x => p x = true ∧ x :: remove_first p l ≡ₚ l
  | None => remove_first p l = l
  end.
Proof.
  induction l as [|x l IH]; simpl; [done|].
  destruct (p x) eqn:E; [done|]. destruct (List.find p l) as [y|].
  - destruct IH as [? IH]. split; [done|]. rewrite Permutation_swap. by rewrite IH.
  - by rewrite IH.
Qed.

Section Index.
Context {LIB : DiademLib}.

Lemma index_wf_list s l :
  index_wf (saveDelegationList l s) ↔ (entry_key <$> l) ≡ₚ (map_to_list (ds_delegation s)).*1.
Proof.
  unfold index_wf, loadDelegationList. simpl. unfold sortDelegations.
  by rewrite go_sort_permutation.
Qed.

Lemma SetDelegation_index d s : index_wf s → index_wf (SetDelegation d s).
Proof.
  intros Hwf. unfold SetDelegation. cbn zeta. cbn [di_Index di_Validator di_Delegator].
  fold (delegation_key d). unfold GetDelegation. fold (delegation_key d).
  destruct (ds_delegation s !! delegation_key d) as [d0|] eqn:E; unfold index_wf in *.
  - cbn. change (loadDelegationList (put_delegation (<[delegation_key d:=d]> (ds_delegation s)) s))
      with (loadDelegationList s). rewrite Hwf.
    rewrite <- (insert_id _ _ _ E) at 1. rewrite <- (insert_delete_eq _ _ d0).
    rewrite <- (insert_delete_eq _ _ d).
    rewrite !map_to_list_insert by apply lookup_delete_eq. done.
  - cbn. unfold loadDelegationList at 1. cbn. unfold sortDelegations.
    rewrite go_sort_permutation, fmap_app, map_to_list_insert by done. csimpl.
    change (entry_key _) with (delegation_key d). rewrite Hwf. by rewrite Permutation_app_comm.
Qed.

Lemma SetDelegation_lookup d s k :
  ds_delegation (SetDelegation d s) !! k =
    if decide (k = delegation_key d) then Some d else ds_delegation s !! k.
Proof.
  unfold SetDelegation. cbn. fold (delegation_key d). rewrite lookup_insert.
  by destruct (GetDelegation s _ _ _); cbn; repeat case_decide; subst.
Qed.

Lemma DeleteDelegation_lookup d s k :
  ds_delegation (DeleteDelegation d s) !! k =
    if decide (k = delegation_key d) then None else ds_delegation s !! k.
Proof.
  unfold DeleteDelegation. cbn. fold (delegation_key d). rewrite lookup_delete.
  by repeat case_decide; subst.
Qed.

Lemma DeleteDelegation_index d s :
  index_wf s →
  (∃ e, List.find (samePair d) (loadDelegationList s) = Some e ∧ entry_key e = delegation_key d) →
  index_wf (DeleteDelegation d s).
Proof.
  intros Hwf (e & He & Hk). pose proof (remove_first_spec (samePair d) (loadDelegationList s)) as Hr.
  rewrite He in Hr. destruct Hr as [_ Hr]. unfold DeleteDelegation. cbn zeta.
  fold (delegation_key d). unfold index_wf, loadDelegationList at 1. cbn.
  unfold sortDelegations. rewrite go_sort_permutation.
  assert (Hd : is_Some (ds_delegation s !! delegation_key d)).
  { apply (index_wf_listed s _ Hwf). rewrite <- Hr. csimpl. rewrite Hk. by left. }
  destruct Hd as [d0 Hd0]. apply (Permutation_cons_inv (a := delegation_key d)).
  trans (entry_key <$> (e :: remove_first (samePair d) (loadDelegationList s)));
    [csimpl; by rewrite Hk|].
  rewrite Hr. unfold index_wf in Hwf. rewrite Hwf. rewrite <- (insert_id _ _ _ Hd0) at 1. rewrite <- insert_delete_eq.
  by rewrite map_to_list_insert by apply lookup_delete_eq.
Qed.

Lemma IncreaseRewardDelegation_index v d x s :
  index_wf s → index_wf (IncreaseRewardDelegation v d x s).
Proof. apply SetDelegation_index. Qed.

(** Storing a delegation keeps the index consistent and is read back: the
    record is found under its index and pair, every other record is untouched,
    and the index still lists exactly the stored records. *)
Theorem set_delegation_roundtrip d s :
  index_wf s →
  let s' := SetDelegation d s in
  index_wf s' ∧
  GetDelegation s' (d_Index d) (d_Validator d) (d_Delegator d) = Some d ∧
  ∀ i v w, computeDelegationsKey i v w ≠ delegation_key d →
    GetDelegation s' i v w = GetDelegation s i v w.
Proof.
  intros Hwf s'. split_and!; [by apply SetDelegation_index| |].
  - unfold GetDelegation, s'. rewrite SetDelegation_lookup. by case_decide.
  - intros i v w Hne. unfold GetDelegation, s'. rewrite SetDelegation_lookup. by case_decide.
Qed.

(** Deleting a delegation that is not the first of its pair in the index
    removes the index entry of the first one instead: that other delegation
    stays in the store but is listed nowhere, so elections, unbonding
    payments and listings no longer see it. *)
Theorem delete_delegation_orphans_sibling d s e :
  index_wf s →
  List.find (samePair d) (loadDelegationList s) = Some e →
  entry_key e ≠ delegation_key d →
  let s' := DeleteDelegation d s in
  ds_delegation s' !! entry_key e = ds_delegation s !! entry_key e ∧
  is_Some (ds_delegation s' !! entry_key e) ∧
  entry_key e ∉ entry_key <$> loadDelegationList s'.
Proof.
  intros Hwf He Hne s'. pose proof (remove_first_spec (samePair d) (loadDelegationList s)) as Hr.
  rewrite He in Hr. destruct Hr as [_ Hr].
  assert (Hs : is_Some (ds_delegation s !! entry_key e)).
  { apply (index_wf_listed s _ Hwf). rewrite <- Hr. csimpl. by left. }
  unfold s'. rewrite DeleteDelegation_lookup. case_decide; [done|]. split_and!; [done|done|].
  unfold DeleteDelegation, loadDelegationList at 1. cbn. unfold sortDelegations.
  rewrite go_sort_permutation. pose proof (index_wf_nodup s Hwf) as Hnd.
  rewrite <- Hr in Hnd. by apply NoDup_cons in Hnd as [? _].
Qed.
End Index.

(** ** The candidate list *)

Section CandidateProperties.
Context {LIB : DiademLib} {SPEC : DiademLibSpec}.

Definition cand_local (c : Candidate) : bytes := Local (c_Address c).

Lemma isAt_true a c : isAt a c = true ↔ cand_local c = Local a.
Proof. unfold isAt. apply (cmp_eqb local_compare). Qed.

Lemma stepCandidate_local c : cand_local (stepCandidate c) = cand_local c.
Proof. unfold stepCandidate. by destruct (c_State c). Qed.

Lemma CandidateList_Delete_eq a l :
  NoDup (cand_local <$> l) →
  CandidateList_Delete a l = filter (λ c, cand_local c ≠ Local a) l.
Proof.
  unfold CandidateList_Delete. induction l as [|c l IH]; intros Hnd; [done|].
  apply NoDup_cons in Hnd as [Hc Hnd]. cbn [remove_first]. destruct (isAt a c) eqn:E.
  - apply isAt_true in E. rewrite filter_cons_False by naive_solver.
    symmetry. apply filter_all. intros c' Hc' Heq. apply Hc. rewrite E, <- Heq.
    apply list_elem_of_fmap. by exists c'.
  - rewrite filter_cons_True; [by rewrite IH|]. rewrite <- isAt_true. by rewrite E.
Qed.

Lemma NoDup_filter_local (P : Candidate → Prop) `{!∀ c, Decision (P c)} l :
  NoDup (cand_local <$> l) → NoDup (cand_local <$> filter P l).
Proof.
  intros Hnd. eapply sublist_NoDup; [exact Hnd|]. apply fmap_sublist, sublist_filter.
Qed.

Lemma delete_all_eq (dl : list Address) l :
  NoDup (cand_local <$> l) →
  foldl (λ candidates addr, CandidateList_Delete addr candidates) l dl =
  filter (λ c, cand_local c ∉ Local <$> dl) l.
Proof.
  revert l. induction dl as [|a dl IH]; intros l Hnd; simpl.
  { symmetry. apply filter_all. intros c _. by apply not_elem_of_nil. }
  rewrite CandidateList_Delete_eq, IH by auto using NoDup_filter_local.
  rewrite list_filter_filter. apply filter_ext_in. intros c _. csimpl.
  rewrite not_elem_of_cons. tauto.
Qed.

(** Each election moves the candidates one step on: a candidate that is
    unregistering disappears, an announced fee change becomes pending and a
    pending one takes effect, and every other candidate stays as it was; the
    list is stored sorted by address.  (Candidates have distinct addresses.) *)
Theorem update_candidate_list_steps s :
  NoDup (cand_local <$> loadCandidateList s) →
  let cs' := loadCandidateList (updateCandidateList s) in
  cs' ≡ₚ stepCandidate <$> filter (λ c, c_State c ≠ UNREGISTERING) (loadCandidateList s) ∧
  StronglySorted (sort_le lessCandidateAddress) cs' ∧
  Forall (λ c, c_State c ≠ UNREGISTERING) cs'.
Proof.
  intros Hnd cs'. set (cs := loadCandidateList s) in *.
  assert (Hcs : cs' ≡ₚ stepCandidate <$> filter (λ c, c_State c ≠ UNREGISTERING) cs).
  { unfold cs', updateCandidateList. cbn. unfold sortCandidates.
    rewrite go_sort_permutation, delete_all_eq.
    - fold cs. rewrite filter_fmap. apply fmap_Permutation. erewrite filter_ext_in; [done|].
      intros c Hc. rewrite stepCandidate_local.
      rewrite <- list_fmap_compose, list_elem_of_fmap. split.
      + intros Hn Hst. apply Hn. exists c. by rewrite list_elem_of_filter.
      + intros Hst (c' & Heq & [Hst' Hc']%list_elem_of_filter). apply Hst.
        assert (c = c') as ->; [|done].
        by apply (NoDup_fmap_inj_in cand_local cs).
    - rewrite <- list_fmap_compose. erewrite list_fmap_ext; [exact Hnd|].
      intros i c _. apply stepCandidate_local. }
  split_and!; [done| |].
  - unfold cs', updateCandidateList. cbn. apply go_sort_sorted.
    apply (less_of_cmp local_compare cand_local).
  - rewrite Hcs. apply Forall_fmap, Forall_forall. intros c [Hst _]%list_elem_of_filter.
    unfold compose, stepCandidate. destruct (c_State c) eqn:E; cbn; by rewrite ?E.
Qed.
End CandidateProperties.

(** ** The orders used for sorting *)

Section Orders.
Context {LIB : DiademLib} {SPEC : DiademLibSpec}.

Definition entry_triple (x : DelegationIndex) : Address * (Address * Z) :=
  (di_Validator x, (di_Delegator x, di_Index x)).

Definition entry_compare : Address * (Address * Z) → Address * (Address * Z) → Z :=
  lex_compare address_compare (lex_compare address_compare (λ x y, x - y)).

Lemma lessValidatorAndDelegator_eq x y :
  lessValidatorAndDelegator x y = (entry_compare (entry_triple x) (entry_triple y) <? 0).
Proof.
  unfold lessValidatorAndDelegator, entry_compare, lex_compare. cbn.
  destruct (address_compare (di_Validator x) (di_Validator y) =? 0) eqn:E; cbn; [|by rewrite E].
  destruct (address_compare (di_Delegator x) (di_Delegator y) =? 0) eqn:E'; cbn; [|done].
  destruct (Z.ltb_spec (di_Index x) (di_Index y)), (Z.ltb_spec (di_Index x - di_Index y) 0); lia.
Qed.

#[global] Instance lessValidatorAndDelegator_order : LessOrder lessValidatorAndDelegator.
Proof.
  pose proof (less_of_cmp entry_compare entry_triple) as [Ha Hn].
  split; intros *; rewrite !lessValidatorAndDelegator_eq; eauto.
Qed.

(** The index order tells distinct entries apart, so the stored list depends
    only on the set of entries. *)
Lemma lessValidatorAndDelegator_distinguishes l : distinguishes lessValidatorAndDelegator l.
Proof.
  intros x y _ _. rewrite !lessValidatorAndDelegator_eq, !Z.ltb_ge. intros H1 H2.
  destruct (cmp_trichotomy entry_compare (entry_triple x) (entry_triple y)) as [?|[Heq|?]];
    [lia| |lia]. destruct x, y. cbv in Heq. by simplify_eq.
Qed.

Definition result_pair (x : DelegationResult) : Z * Address :=
  (dr_DelegationTotal x, dr_ValidatorAddress x).

Definition result_compare : Z * Address → Z * Address → Z :=
  lex_compare (λ x y, x - y) address_compare.

Lemma lessDelegationTotal_eq x y :
  lessDelegationTotal x y = (result_compare (result_pair y) (result_pair x) <? 0).
Proof.
  unfold lessDelegationTotal, result_compare, lex_compare. cbn.
  set (a := dr_DelegationTotal x). set (b := dr_DelegationTotal y).
  pose proof (cmp_antisym (dr_ValidatorAddress y) (dr_ValidatorAddress x)
    (cmp := address_compare)) as Ha.
  destruct (Z.lt_trichotomy a b) as [Hab|[->|Hab]].
  - rewrite (Z.sgn_neg (a - b)) by lia. rewrite (proj2 (Z.eqb_neq (b - a) 0)) by lia.
    symmetry. apply Z.ltb_ge. lia.
  - rewrite !Z.sub_diag. cbn. destruct (Z.ltb_spec 0 (address_compare (dr_ValidatorAddress x)
      (dr_ValidatorAddress y))), (Z.ltb_spec (address_compare (dr_ValidatorAddress y)
      (dr_ValidatorAddress x)) 0); lia.
  - rewrite (Z.sgn_pos (a - b)) by lia. rewrite (proj2 (Z.eqb_neq (b - a) 0)) by lia.
    symmetry. apply Z.ltb_lt. lia.
Qed.

#[global] Instance lessDelegationTotal_order : LessOrder lessDelegationTotal.
Proof.
  pose proof (less_of_cmp result_compare result_pair) as [Ha Hn].
  split; intros *; rewrite !lessDelegationTotal_eq; eauto.
Qed.

Lemma lessDelegationTotal_distinguishes l : distinguishes lessDelegationTotal l.
Proof.
  intros x y _ _. rewrite !lessDelegationTotal_eq, !Z.ltb_ge. intros H1 H2.
  destruct (cmp_trichotomy result_compare (result_pair x) (result_pair y)) as [?|[Heq|?]];
    [lia| |lia]. destruct x, y. cbv in Heq. by simplify_eq.
Qed.

Lemma sort_le_delegation_total x y :
  sort_le lessDelegationTotal x y → dr_DelegationTotal y <= dr_DelegationTotal x.
Proof.
  unfold sort_le, lessDelegationTotal. rewrite Z.ltb_ge. intros H.
  destruct (Z.lt_trichotomy (dr_DelegationTotal x) (dr_DelegationTotal y)) as [Hlt|[|]]; [|lia|lia].
  rewrite (Z.sgn_pos (_ - _)) in H by lia. cbn in H. lia.
Qed.
End Orders.

(** ** Witnesses *)

Module StorageWitness.
Import SimpleLib.

Definition bond (index amount : Z) : Delegation :=
  mkDelegation (sample "v") (sample "d") index amount 0 None 0 0 BONDED "".

(** Delegations 1 and 2 of one pair. *)
Definition two : DposStore := SetDelegation (bond 2 50) (SetDelegation (bond 1 70) empty_dpos_store).

Lemma two_wf : index_wf two.
Proof. apply SetDelegation_index, SetDelegation_index, index_wf_empty. Qed.

Lemma store_keys_witness :
  same_key (KDelegation 1 (sample "v") (sample "d"))
    (KDelegation 1 (mkAddress "eth" (Local (sample "v"))) (sample "d")).
Proof. by apply store_keys_never_clash. Defined.

Lemma next_index_witness :
  ∃ i, GetNextDelegationIndex two (sample "v") (sample "d") = Some i ∧ 1 <= i <= 3.
Proof.
  destruct (next_index_terminates two (sample "v") (sample "d")) as (i & Hi & Hr & _);
    [by vm_compute|]. exists i. split; [done|]. vm_compute in Hr. vm_compute. tauto.
Defined.

Definition former : list Validator := [mkValidator "a" 1; mkValidator "b" 1; mkValidator "d" 1].
Definition current : list Validator := [mkValidator "b" 1; mkValidator "c" 1].

Lemma missing_validators_witness :
  MissingValidators former current = [mkValidator "a" 1; mkValidator "d" 1].
Proof.
  rewrite missing_validators_correct; [by vm_compute| |]; repeat constructor.
Defined.

Lemma set_delegation_witness :
  GetDelegation (SetDelegation (bond 3 5) two) 3 (sample "v") (sample "d") = Some (bond 3 5) ∧
  GetDelegation (SetDelegation (bond 3 5) two) 1 (sample "v") (sample "d") = Some (bond 1 70).
Proof.
  destruct (set_delegation_roundtrip (bond 3 5) two two_wf) as (_ & Hget & Hother).
  split; [exact Hget|]. rewrite Hother by (by vm_compute). by vm_compute.
Defined.

Lemma delete_delegation_witness :
  let s' := DeleteDelegation (bond 2 50) two in
  GetDelegation s' 1 (sample "v") (sample "d") = Some (bond 1 70) ∧
  entry_key (mkDelegationIndex (sample "v") (sample "d") 1) ∉ entry_key <$> loadDelegationList s'.
Proof.
  destruct (delete_delegation_orphans_sibling (bond 2 50) two
    (mkDelegationIndex (sample "v") (sample "d") 1) two_wf) as (Hget & _ & Hin);
    [by vm_compute|by vm_compute|]. split; [|exact Hin].
  etrans; [exact Hget|by vm_compute].
Defined.

Definition cand (c : string) (st : CandidateState) : Candidate :=
  mkCandidate c (sample c) 100 200 "" "" "" st 0.

Lemma update_candidates_witness :
  let s := saveCandidateList [cand "a" UNREGISTERING; cand "b" CHANGING_FEE; cand "c" REGISTERED]
             empty_dpos_store in
  Permutation (loadCandidateList (updateCandidateList s))
    [c_with_Fee 200 (cand "b" REGISTERED); cand "c" REGISTERED].
Proof.
  intros s. destruct (update_candidate_list_steps s) as (Hp & _).
  - by refine (bool_decide_unpack (NoDup (cand_local <$> loadCandidateList s)) _).
  - rewrite Hp. by vm_compute.
Defined.
End StorageWitness.
