(* ===== verification/DposHandlers.v ===== *)
(** * Calls of the dpos contract (src/builtin/plugins/dposv3/dpos.go)

    One definition per method: delegation, candidate registration, oracle
    methods and queries.  Elections, rewards and slashing are in
    [DposElection].  The world [DWorld] is the contract's store, the state of
    the token contracts it calls and the events it has emitted.  A method whose
    context is static is a function of the store. *)

From S2P Require Import Prelude Contract DposTypes DposMath DposStorage.

Definition limboValidatorAddress : Address :=
  mkAddress "limbo" (String.concat "" (replicate 20 (String (Ascii.ascii_of_nat 0) ""))).

Definition errCandidateNotFound : error := ErrMsg "Candidate record not found.".
Definition errCandidateAlreadyRegistered : error := ErrMsg "candidate already registered".
Definition errOnlyOracle : error := ErrMsg "Function can only be called with oracle address.".

Definition defaultRegistrationRequirement : Z := 1250000.
Definition defaultMaxYearlyReward : Z := 60000000.
Definition tokenDecimals : Z := 18.
Definition doubleSignSlashPercentage : Z := 500.
Definition inactivitySlashPercentage : Z := 100.

Inductive DposEvent :=
  | DposElectionEvent (blockNumber : Z)
  | DposSlashEvent (validator : Address) (slashPercentage : Z)
  | DposCandidateRegistersEvent (address : Address) (fee : Z)
  | DposCandidateUnregistersEvent (address : Address)
  | DposCandidateFeeChangeEvent (address : Address) (newFee : Z)
  | DposUpdateCandidateInfoEvent (address : Address)
  | DposDelegatorDelegatesEvent (address : Address) (amount : option Z) (referrer : string)
  | DposDelegatorRedelegatesEvent (address : Address) (amount : option Z) (referrer : string)
  | DposDelegatorConsolidatesEvent (address validator : Address)
  | DposDelegatorUnbondsEvent (address : Address) (amount : option Z)
  | DposReferrerRegistersEvent (name : string) (address : option Address).

Record DWorld (L : Type) := mkDWorld {
  dw_store : DposStore;
  dw_ledger : L;
  dw_events : list DposEvent;
}.
Arguments mkDWorld {L}.
Arguments dw_store {L}.
Arguments dw_ledger {L}.
Arguments dw_events {L}.

(** ** Requests *)

Record DelegateRequest := mkDelegateRequest {
  dq_ValidatorAddress : option Address; dq_Amount : option Z;
  dq_LocktimeTier : Z; dq_Referrer : string }.
Record RedelegateRequest := mkRedelegateRequest {
  rq_ValidatorAddress : option Address; rq_FormerValidatorAddress : option Address;
  rq_Index : Z; rq_Amount : option Z; rq_NewLocktimeTier : Z; rq_Referrer : string }.
Record UnbondRequest := mkUnbondRequest {
  uq_ValidatorAddress : option Address; uq_Amount : option Z; uq_Index : Z }.
Record WhitelistCandidateRequest := mkWhitelistRequest {
  wq_CandidateAddress : option Address; wq_Amount : option Z; wq_LocktimeTier : Z }.
Record RegisterCandidateRequest := mkRegisterRequest {
  cq_PubKey : bytes; cq_Fee : Z; cq_Name : string; cq_Description : string;
  cq_Website : string; cq_MaxReferralPercentage : Z; cq_LocktimeTier : Z }.
Record UpdateCandidateInfoRequest := mkUpdateInfoRequest {
  iq_Name : string; iq_Description : string; iq_Website : string;
  iq_MaxReferralPercentage : Z }.
Record BatchRequestMeta := mkMeta { BlockNumber : Z; TxIndex : Z; LogIndex : Z }.
Inductive BatchPayload :=
  | BatchRequest_WhitelistCandidate (req : WhitelistCandidateRequest)
  | BatchRequest_Other.
Record BatchRequest := mkBatchRequest {
  bq_Payload : BatchPayload; bq_Meta : option BatchRequestMeta }.

(** ** Basic steps *)

Section Steps.
Context {LIB : DiademLib} {L : Type} {TOKEN : ERC20 L}.
Abbreviation W := (DWorld L).

Definition from_store {A} (f : DposStore → A) : M W A := gets (λ w, f (dw_store w)).
Definition on_store (f : DposStore → DposStore) : M W unit :=
  modify (λ w, mkDWorld (f (dw_store w)) (dw_ledger w) (dw_events w)).
Definition emit (e : DposEvent) : M W unit :=
  modify (λ w, mkDWorld (dw_store w) (dw_ledger w) (dw_events w ++ [e])).

(** The [emit...Event] functions. *)
Definition emitCandidateRegistersEvent (candidate : Address) (fee : Z) : M W unit :=
  emit (DposCandidateRegistersEvent candidate fee).
Definition emitCandidateUnregistersEvent (candidate : Address) : M W unit :=
  emit (DposCandidateUnregistersEvent candidate).
Definition emitCandidateFeeChangeEvent (candidate : Address) (fee : Z) : M W unit :=
  emit (DposCandidateFeeChangeEvent candidate fee).
Definition emitUpdateCandidateInfoEvent (candidate : Address) : M W unit :=
  emit (DposUpdateCandidateInfoEvent candidate).
Definition emitDelegatorDelegatesEvent (delegator : Address) (amount : option Z)
    (referrer : string) : M W unit :=
  emit (DposDelegatorDelegatesEvent delegator amount referrer).
Definition emitDelegatorRedelegatesEvent (delegator : Address) (amount : option Z)
    (referrer : string) : M W unit :=
  emit (DposDelegatorRedelegatesEvent delegator amount referrer).
Definition emitDelegatorConsolidatesEvent (delegator validator : Address) : M W unit :=
  emit (DposDelegatorConsolidatesEvent delegator validator).
Definition emitDelegatorUnbondsEvent (delegator : Address) (amount : option Z) : M W unit :=
  emit (DposDelegatorUnbondsEvent delegator amount).
Definition emitReferrerRegistersEvent (name : string) (address : option Address) : M W unit :=
  emit (DposReferrerRegistersEvent name address).

Definition get_state : M W State := λ w, (loadState (dw_store w), w).
Definition set_ledger (l : L) (w : W) : W := mkDWorld (dw_store w) l (dw_events w).

(** [GetNextDelegationIndex]; a search that never ends has no result. *)
Definition next_index (validator delegator : Address) : M W Z :=
  i ← from_store (λ s, GetNextDelegationIndex s validator delegator);
  deref i.

(** [loadCoin]: the address of the token contract. *)
Definition loadCoin : M W Address :=
  state ← get_state;
  deref (p_CoinContractAddress (st_Params state)).

(** [ERC20.Transfer] and [ERC20.TransferFrom]: calls made by this contract. *)
Definition ERC20_Transfer (ctx : Ctx) (coin to : Address) (amount : Z) : M W unit :=
  zoom dw_ledger set_ledger (erc20_transfer coin (ctx_contract ctx) to amount).
Definition ERC20_TransferFrom (ctx : Ctx) (coin from to : Address) (amount : Z) : M W unit :=
  zoom dw_ledger set_ledger (erc20_transfer_from coin (ctx_contract ctx) from to amount).

(** The check at the head of every oracle method. *)
Definition isOracle (ctx : Ctx) (state : State) : bool :=
  match p_OracleAddress (st_Params state) with
  | None => false
  | Some oracle => local_compare (Local (ctx_sender ctx)) (Local oracle) =? 0
  end.

Definition isLimbo (a : Address) : bool :=
  local_compare (Local a) (Local limboValidatorAddress) =? 0.

(** The referrer check shared by [Delegate] and [Redelegate]. *)
Definition check_referrer (referrer : string) (cand : Candidate) : M W unit :=
  referrerAddress ← from_store (λ s, GetReferrer s referrer);
  match referrerAddress with
  | None =>
      guard_not (negb (String.eqb referrer "")) (ErrMsg "Invalid Referrer.")
  | Some _ =>
      guard_not (c_MaxReferralPercentage cand <? defaultReferrerFee)
        (ErrMsg "Candidate does not accept delegations with referral fees as high.")
  end.

Definition require_candidate (addr : Address) : M W Candidate :=
  cand ← from_store (λ s, GetCandidate s addr);
  match cand with Some c => mret c | None => throw errCandidateNotFound end.

(** [returnMatchingDelegations] *)
Definition returnMatchingDelegations (s : DposStore) (validator delegator : Address) :
    list Delegation :=
  omap (λ d,
      if negb (local_compare (Local (di_Delegator d)) (Local delegator) =? 0)
         || negb (local_compare (Local (di_Validator d)) (Local validator) =? 0)
      then None
      else GetDelegation s (di_Index d) (di_Validator d) (di_Delegator d))
    (loadDelegationList s).
End Steps.

(** ** Delegation *)

Section Delegation.
Context {LIB : DiademLib} {L : Type} {TOKEN : ERC20 L}.
Abbreviation W := (DWorld L).

Definition Init (ctx : Ctx) (params : option Params) (validators : list Validator) : M W unit :=
  params ← deref params;
  coinAddr ← match p_CoinContractAddress params with
             | Some a => mret a
             | None => ctx_resolve ctx "coin"
             end;
  let params := mkParams (p_ValidatorCount params) (p_ElectionCycleLength params)
    (Some coinAddr) (p_OracleAddress params)
    (Some (default (scientificNotation defaultMaxYearlyReward tokenDecimals)
             (p_MaxYearlyReward params)))
    (Some (default (scientificNotation defaultRegistrationRequirement tokenDecimals)
             (p_RegistrationRequirement params)))
    (Some (default inactivitySlashPercentage (p_CrashSlashingPercentage params)))
    (Some (default doubleSignSlashPercentage (p_ByzantineSlashingPercentage params))) in
  on_store (saveState (mkState params validators 0 0 0)).

Definition Delegate (ctx : Ctx) (req : DelegateRequest) : M W unit :=
  let delegator := ctx_sender ctx in
  validator ← deref (dq_ValidatorAddress req);
  cand ← require_candidate validator;
  amount ← match dq_Amount req with
           | Some x => if IsPositive x then mret x
                       else throw (ErrMsg "Must Delegate a positive number of tokens.")
           | None => throw (ErrMsg "Must Delegate a positive number of tokens.")
           end;
  check_referrer (dq_Referrer req) cand;;
  coin ← loadCoin;
  ERC20_TransferFrom ctx coin delegator (ctx_contract ctx) amount;;
  index ← next_index validator delegator;
  let tierNumber := dq_LocktimeTier req in
  guard_not (3 <? tierNumber) (ErrMsg "Invalid delegation tier");;
  let locktimeTier := TierMap tierNumber in
  let tierTime := TierLocktimeMap locktimeTier in
  let now := u64 (ctx_now ctx) in
  let lockTime := u64 (now + tierTime) in
  guard_not (lockTime <? now) (ErrMsg "Overflow in set locktime!");;
  on_store (SetDelegation (mkDelegation validator delegator index 0 amount None
    locktimeTier lockTime BONDING (dq_Referrer req)));;
  emitDelegatorDelegatesEvent delegator (Some amount) (dq_Referrer req).

Definition Redelegate (ctx : Ctx) (req : RedelegateRequest) : M W unit :=
  let delegator := ctx_sender ctx in
  former ← deref (rq_FormerValidatorAddress req);
  validator ← deref (rq_ValidatorAddress req);
  guard_not (local_compare (Local former) (Local validator) =? 0)
    (ErrMsg "Redelegating self-delegations is not permitted.");;
  guard_not (match rq_Amount req with Some x => negb (IsPositive x) | None => false end)
    (ErrMsg "Must Redelegate a positive number of tokens.");;
  (if negb (isLimbo validator) then
     candidate ← require_candidate validator;
     check_referrer (rq_Referrer req) candidate
   else mret ());;
  prior ← from_store (λ s, GetDelegation s (rq_Index req) former delegator);
  priorDelegation ← match prior with
                    | Some d => mret d
                    | None => throw (ErrMsg "No delegation to redelegate.")
                    end;
  let newLocktimeTier := d_LocktimeTier priorDelegation in
  (* the lock time computed inside the [if] is a new variable of that block:
     only its overflow check has an effect *)
  let newLocktime := d_LockTime priorDelegation in
  newLocktimeTier ←
    (if u64 newLocktimeTier <? rq_NewLocktimeTier req then
       state ← get_state;
       let newLocktimeTier := i32 (rq_NewLocktimeTier req) in
       let tierTime := TierLocktimeMap newLocktimeTier in
       let now := u64 (ctx_now ctx) in
       let remainingTime :=
         i64 (p_ElectionCycleLength (st_Params state)
              - i64 (ctx_now ctx - st_LastElectionTime state)) in
       guard_not (u64 (now + tierTime + u64 remainingTime) <? now)
         (ErrMsg "Overflow in set locktime!");;
       mret newLocktimeTier
     else mret newLocktimeTier);
  let full := match rq_Amount req with
              | None => true
              | Some x => d_Amount priorDelegation =? x
              end in
  priorDelegation ←
    (if full then
       mret (mkDelegation (d_Validator priorDelegation) (d_Delegator priorDelegation)
         (d_Index priorDelegation) (d_Amount priorDelegation) (d_UpdateAmount priorDelegation)
         (Some validator) newLocktimeTier newLocktime REDELEGATING (rq_Referrer req))
     else
       amount ← deref (rq_Amount req);
       if d_Amount priorDelegation <? amount then
         throw (ErrMsg "Redelegation amount out of range.")
       else
         index ← next_index validator (d_Delegator priorDelegation);
         on_store (SetDelegation (mkDelegation validator (d_Delegator priorDelegation) index
           0 amount None newLocktimeTier newLocktime BONDING (rq_Referrer req)));;
         mret (d_with_UpdateAmount amount (d_with_State UNBONDING priorDelegation)));
  on_store (SetDelegation priorDelegation);;
  emitDelegatorRedelegatesEvent delegator (rq_Amount req) (rq_Referrer req).

(** Returns the number of delegations that were not consolidated. *)
Definition consolidateDelegations (ctx : Ctx) (validator delegator : Address) : M W Z :=
  delegations ← from_store (λ s, returnMatchingDelegations s validator delegator);
  r ← foldM (λ '(unconsolidated, total) delegation,
      if (u64 (ctx_now ctx) <? d_LockTime delegation)
         || negb (bool_decide (d_State delegation = BONDED))
      then mret (unconsolidated + 1, total)
      else
        on_store (DeleteDelegation delegation);;
        mret (unconsolidated, total + d_Amount delegation)) (0, 0) delegations;
  let '(unconsolidated, total) := r in
  index ← next_index validator delegator;
  on_store (SetDelegation (mkDelegation validator delegator index total 0 None 0 0 BONDED ""));;
  mret unconsolidated.

Definition ConsolidateDelegations (ctx : Ctx) (validatorAddress : option Address) : M W unit :=
  let delegator := ctx_sender ctx in
  validator ← deref validatorAddress;
  (if negb (isLimbo validator) then _ ← require_candidate validator; mret () else mret ());;
  consolidateDelegations ctx validator delegator;;
  emitDelegatorConsolidatesEvent delegator validator.

Definition Unbond (ctx : Ctx) (req : UnbondRequest) : M W unit :=
  let delegator := ctx_sender ctx in
  match uq_ValidatorAddress req, uq_Amount req with
  | None, _ => throw (ErrMsg "Unbond called with req.ValidatorAddress == nil")
  | _, None => throw (ErrMsg "Unbond called with req.Amount == nil")
  | Some validator, Some amount =>
      found ← from_store (λ s, GetDelegation s (uq_Index req) validator delegator);
      delegation ← match found with
                   | Some d => mret d
                   | None => throw (ErrMsg "delegation not found")
                   end;
      state ← get_state;
      let instantUnlock :=
        (p_ElectionCycleLength (st_Params state) =? 0)
        && (d_LocktimeTier delegation =? TIER_ZERO) in
      if d_Amount delegation <? amount then
        throw (ErrMsg "Unbond amount exceeds delegation amount.")
      else if (u64 (ctx_now ctx) <? d_LockTime delegation) && negb instantUnlock then
        throw (ErrMsg "Delegation currently locked.")
      else if negb (bool_decide (d_State delegation = BONDED)) then
        throw (ErrMsg "Existing delegation not in BONDED state.")
      else
        let updateAmount := if IsZero amount then d_Amount delegation else amount in
        on_store (SetDelegation
          (d_with_UpdateAmount updateAmount (d_with_State UNBONDING delegation)));;
        emitDelegatorUnbondsEvent delegator (Some amount)
  end.

(** *** Queries on delegations: amount, weighted amount and delegations. *)

Definition sum_delegations (l : list Delegation) : Z * Z * list Delegation :=
  (foldl (λ acc d, acc + d_Amount d) 0 l,
   foldl (λ acc d, acc + calculateWeightedDelegationAmount d) 0 l, l).

Definition CheckDelegation (s : DposStore) (validator delegator : option Address) :
    Res (Z * Z * list Delegation) :=
  match validator, delegator with
  | None, _ => Err (ErrMsg "request made with req.ValidatorAddress == nil")
  | _, None => Err (ErrMsg "request made with req.DelegatorAddress == nil")
  | Some v, Some d => Ok (sum_delegations (returnMatchingDelegations s v d))
  end.

Definition CheckAllDelegations (s : DposStore) (delegator : option Address) :
    Res (Z * Z * list Delegation) :=
  match delegator with
  | None => Err (ErrMsg "CheckAllDelegations called with req.DelegatorAddress == nil")
  | Some delegator =>
      Ok (sum_delegations (omap (λ d,
        if negb (local_compare (Local (di_Delegator d)) (Local delegator) =? 0) then None
        else GetDelegation s (di_Index d) (di_Validator d) (di_Delegator d))
        (loadDelegationList s)))
  end.

Definition ListDelegations (s : DposStore) (candidate : option Address) :
    Res (list Delegation * Z) :=
  match candidate with
  | None => Err (ErrMsg "ListDelegations called with req.Candidate == nil")
  | Some candidate =>
      let l := omap (λ d,
        if negb (local_compare (Local (di_Validator d)) (Local candidate) =? 0) then None
        else GetDelegation s (di_Index d) (di_Validator d) (di_Delegator d))
        (loadDelegationList s) in
      Ok (l, foldl (λ acc d, acc + d_Amount d) 0 l)
  end.

Definition ListAllDelegations (s : DposStore) : Res (list (list Delegation * Z)) :=
  foldr (λ candidate acc,
      response ← ListDelegations s (Some (c_Address candidate));
      rest ← acc;
      mret (response :: rest)) (mret []) (loadCandidateList s).

Definition CheckRewardDelegation (ctx : Ctx) (s : DposStore) (validator : option Address) :
    Res Delegation :=
  let delegator := ctx_sender ctx in
  match validator with
  | None => Err (ErrMsg "CheckRewardDelegation called with req.ValdiatorAddress == nil")
  | Some validator =>
      Ok (default (mkDelegation validator delegator REWARD_DELEGATION_INDEX 0 0 None
                     (TierMap 0) 0 BONDED "")
           (GetDelegation s REWARD_DELEGATION_INDEX validator delegator))
  end.
End Delegation.

(** Updating the first element that satisfies [p]: a pointer into a loaded list
    is changed in place. *)
Fixpoint alter_first {A} (p : A → bool) (f : A → A) (l : list A) : list A :=
  match l with
  | [] => []
  | x :: l => if p x then f x :: l else x :: alter_first p f l
  end.

(** ** Slashing of delegations

    [slashValidatorDelegations] changes the stored delegations, and in memory
    the statistic it is given, which is the result here.  It is also called
    when a candidate unregisters. *)
Section Slashing.
Context {LIB : DiademLib} {L : Type}.
Abbreviation W := (DWorld L).

Definition slashValidatorDelegations (statistic : ValidatorStatistic)
    (validatorAddress : Address) : M W ValidatorStatistic :=
  delegations ← from_store loadDelegationList;
  forM delegations (λ d,
    found ← from_store (λ s,
      GetDelegation s (di_Index d) (di_Validator d) (di_Delegator d));
    match found with
    | None => mret ()
    | Some delegation =>
        if local_compare (Local (d_Validator delegation)) (Local validatorAddress) =? 0 then
          slashPercentage ← deref (vs_SlashPercentage statistic);
          if IsZero slashPercentage then mret ()
          else
            let toSlash := CalculateFraction slashPercentage (d_Amount delegation) in
            on_store (SetDelegation (d_with_Amount (d_Amount delegation - toSlash) delegation))
        else mret ()
    end);;
  whitelistAmount ← deref (vs_WhitelistAmount statistic);
  whitelistAmount ←
    (if IsZero whitelistAmount then mret whitelistAmount
     else
       slashPercentage ← deref (vs_SlashPercentage statistic);
       mret (whitelistAmount - CalculateFraction slashPercentage whitelistAmount));
  mret (mkStatistic (vs_Address statistic) (vs_PubKey statistic) (Some whitelistAmount)
    (vs_LocktimeTier statistic) (vs_DelegationTotal statistic) (Some 0)).
End Slashing.

(** ** Candidate registration *)

Section Candidates.
Context {LIB : DiademLib} {L : Type} {TOKEN : ERC20 L}.
Abbreviation W := (DWorld L).

Definition addCandidateToStatisticList (req : WhitelistCandidateRequest) : M W unit :=
  candidate ← deref (wq_CandidateAddress req);
  found ← from_store (λ s, GetStatistic s candidate);
  let tierNumber := wq_LocktimeTier req in
  guard_not (3 <? tierNumber) (ErrMsg "Invalid whitelist tier");;
  match found with
  | None =>
      on_store (SetStatistic (mkStatistic candidate "" (wq_Amount req) tierNumber
        (Some 0) (Some 0)))
  | Some _ => throw (ErrMsg "Cannot whitelist an already whitelisted candidate.")
  end.

Definition WhitelistCandidate (ctx : Ctx) (req : WhitelistCandidateRequest) : M W unit :=
  state ← get_state;
  guard_not (negb (isOracle ctx state)) errOnlyOracle;;
  addCandidateToStatisticList req.

Definition RemoveWhitelistedCandidate (ctx : Ctx) (candidateAddress : option Address) :
    M W unit :=
  state ← get_state;
  guard_not (negb (isOracle ctx state)) errOnlyOracle;;
  candidate ← deref candidateAddress;
  found ← from_store (λ s, GetStatistic s candidate);
  match found with
  | None => throw (ErrMsg "Candidate is not whitelisted.")
  | Some statistic =>
      on_store (SetStatistic (mkStatistic (vs_Address statistic) (vs_PubKey statistic)
        (Some 0) (vs_LocktimeTier statistic) (vs_DelegationTotal statistic)
        (vs_SlashPercentage statistic)))
  end.

Definition ChangeWhitelistInfo (ctx : Ctx) (req : WhitelistCandidateRequest) : M W unit :=
  state ← get_state;
  guard_not (negb (isOracle ctx state)) errOnlyOracle;;
  let tierNumber := wq_LocktimeTier req in
  guard_not (3 <? tierNumber) (ErrMsg "Invalid whitelist tier");;
  candidate ← deref (wq_CandidateAddress req);
  found ← from_store (λ s, GetStatistic s candidate);
  match found with
  | None => throw (ErrMsg "Candidate is not whitelisted.")
  | Some statistic =>
      on_store (SetStatistic (mkStatistic (vs_Address statistic) (vs_PubKey statistic)
        (wq_Amount req) tierNumber (vs_DelegationTotal statistic)
        (vs_SlashPercentage statistic)))
  end.

Definition RegisterCandidate (ctx : Ctx) (req : RegisterCandidateRequest) : M W unit :=
  let candidateAddress := ctx_sender ctx in
  candidates ← from_store loadCandidateList;
  guard_not (negb (local_compare (Local candidateAddress)
                     (local_from_pubkey (cq_PubKey req)) =? 0))
    (ErrMsg "Public key does not match address.");;
  guard_not (bool_decide (is_Some (CandidateList_Get candidates candidateAddress)))
    errCandidateAlreadyRegistered;;
  lift_res (validateFee (cq_Fee req));;
  lift_res (validateFee (cq_MaxReferralPercentage req));;
  statistic ← from_store (λ s, GetStatistic s candidateAddress);
  state ← get_state;
  notWhitelisted ← match statistic with
                   | None => mret true
                   | Some st => x ← deref (vs_WhitelistAmount st); mret (IsZero x)
                   end;
  (if notWhitelisted : bool then
     requirement ← deref (p_RegistrationRequirement (st_Params state));
     if IsPositive requirement then
       coin ← loadCoin;
       ERC20_TransferFrom ctx coin candidateAddress (ctx_contract ctx) requirement;;
       let tier := cq_LocktimeTier req in
       guard_not (3 <? tier) (ErrMsg "Invalid locktime tier");;
       let locktimeTier := TierMap tier in
       let tierTime := TierLocktimeMap locktimeTier in
       let now := u64 (ctx_now ctx) in
       let lockTime := u64 (now + tierTime) in
       on_store (SetDelegation (mkDelegation candidateAddress candidateAddress
         DELEGATION_START_INDEX 0 requirement None locktimeTier lockTime BONDING ""))
     else mret ()
   else mret ());;
  let newCandidate := mkCandidate (cq_PubKey req) candidateAddress (cq_Fee req) (cq_Fee req)
    (cq_Name req) (cq_Description req) (cq_Website req) REGISTERED
    (cq_MaxReferralPercentage req) in
  on_store (saveCandidateList (CandidateList_Set newCandidate candidates));;
  emitCandidateRegistersEvent candidateAddress (cq_Fee req).

Definition ChangeFee (ctx : Ctx) (fee : Z) : M W unit :=
  let candidateAddress := ctx_sender ctx in
  candidates ← from_store loadCandidateList;
  match CandidateList_Get candidates candidateAddress with
  | None => throw errCandidateNotFound
  | Some cand =>
      guard_not (negb (bool_decide (c_State cand = REGISTERED)))
        (ErrMsg "Candidate not in REGISTERED state.");;
      lift_res (validateFee fee);;
      on_store (saveCandidateList
        (alter_first (isAt candidateAddress)
           (λ c, c_with_State ABOUT_TO_CHANGE_FEE (c_with_NewFee fee c)) candidates));;
      emitCandidateFeeChangeEvent candidateAddress fee
  end.

Definition UpdateCandidateInfo (ctx : Ctx) (req : UpdateCandidateInfoRequest) : M W unit :=
  let candidateAddress := ctx_sender ctx in
  candidates ← from_store loadCandidateList;
  match CandidateList_Get candidates candidateAddress with
  | None => throw errCandidateNotFound
  | Some cand =>
      lift_res (validateFee (iq_MaxReferralPercentage req));;
      on_store (saveCandidateList
        (alter_first (isAt candidateAddress)
           (λ c, mkCandidate (c_PubKey c) (c_Address c) (c_Fee c) (c_NewFee c)
              (iq_Name req) (iq_Description req) (iq_Website req) (c_State c)
              (iq_MaxReferralPercentage req)) candidates));;
      emitUpdateCandidateInfoEvent candidateAddress
  end.

Definition UnregisterCandidate (ctx : Ctx) : M W unit :=
  let candidateAddress := ctx_sender ctx in
  candidates ← from_store loadCandidateList;
  match CandidateList_Get candidates candidateAddress with
  | None => throw errCandidateNotFound
  | Some cand =>
      guard_not (negb (bool_decide (c_State cand = REGISTERED)))
        (ErrMsg "Candidate not in REGISTERED state.");;
      let candidates :=
        alter_first (isAt candidateAddress) (c_with_State UNREGISTERING) candidates in
      lockedDelegations ← consolidateDelegations ctx candidateAddress candidateAddress;
      guard_not (negb (lockedDelegations =? 0))
        (ErrMsg "Validator has locked self-delegations.");;
      found ← from_store (λ s,
        GetDelegation s DELEGATION_START_INDEX candidateAddress candidateAddress);
      match found with
      | Some delegation =>
          if IsZero (d_Amount delegation) then mret ()
          else if u64 (ctx_now ctx) <? d_LockTime delegation then
            throw (ErrMsg "Validator's self-delegation currently locked.")
          else if negb (bool_decide (d_State delegation = BONDED)) then
            throw (ErrMsg "Existing delegation not in BONDED state.")
          else
            on_store (SetDelegation
              (d_with_UpdateAmount (d_Amount delegation) (d_with_State UNBONDING delegation)))
      | None => mret ()
      end;;
      found ← from_store (λ s, GetStatistic s candidateAddress);
      statistic ← match found with Some st => mret st | None => throw ErrNotFound end;
      on_store (saveCandidateList candidates);;
      slashValidatorDelegations statistic candidateAddress;;
      emitCandidateUnregistersEvent candidateAddress
  end.

Definition ListCandidates (s : DposStore) : list (Candidate * option ValidatorStatistic) :=
  (λ candidate, (candidate, GetStatistic s (c_Address candidate))) <$> loadCandidateList s.
End Candidates.

(** ** Oracle methods and state queries *)

Section Oracle.
Context {LIB : DiademLib} {L : Type} {TOKEN : ERC20 L}.
Abbreviation W := (DWorld L).

(** [SetReferrer] of a nil address fails and the error is dropped. *)
Definition RegisterReferrer (ctx : Ctx) (name : string) (address : option Address) : M W unit :=
  state ← get_state;
  guard_not (negb (isOracle ctx state)) errOnlyOracle;;
  match address with
  | Some a => on_store (SetReferrer name a)
  | None => mret ()
  end;;
  emitReferrerRegistersEvent name address.

Definition isRequestAlreadySeen (meta : BatchRequestMeta) (currentTally : RequestBatchTally) :
    bool :=
  if negb (BlockNumber meta =? LastSeenBlockNumber currentTally)
  then BlockNumber meta <=? LastSeenBlockNumber currentTally
  else if negb (TxIndex meta =? LastSeenTxIndex currentTally)
  then TxIndex meta <=? LastSeenTxIndex currentTally
  else if negb (LogIndex meta =? LastSeenLogIndex currentTally)
  then LogIndex meta <=? LastSeenLogIndex currentTally
  else true.

(** The loop over a batch: the current error and tally.  A failing whitelist
    request leaves the loop; an unsupported request sets the error and goes
    on. *)
Fixpoint processBatch (err : option error) (tally : RequestBatchTally)
    (batch : list BatchRequest) : M W (option error * RequestBatchTally) :=
  match batch with
  | [] => mret (err, tally)
  | request :: batch =>
      match bq_Payload request with
      | BatchRequest_WhitelistCandidate payload =>
          meta ← deref (bq_Meta request);
          if isRequestAlreadySeen meta tally then processBatch err tally batch
          else
            r ← try_ (addCandidateToStatisticList payload);
            match r with
            | inr e => mret (Some e, tally)
            | inl _ =>
                processBatch None
                  (mkTally (BlockNumber meta) (TxIndex meta) (LogIndex meta)) batch
            end
      | BatchRequest_Other =>
          processBatch (Some (ErrMsg "unsupported type of request in request batch"))
            tally batch
      end
  end.

Definition ProcessRequestBatch (ctx : Ctx) (batch : list BatchRequest) : M W unit :=
  state ← get_state;
  guard_not (negb (isOracle ctx state))
    (ErrMsg "[ProcessRequestBatch] only oracle is authorized to call ProcessRequestBatch");;
  match last batch with
  | None => throw (ErrMsg "[ProcessRequestBatch] invalid Request, no batch request found")
  | Some lastRequest =>
      tally ← from_store loadRequestBatchTally;
      meta ← deref (bq_Meta lastRequest);
      guard_not (isRequestAlreadySeen meta tally)
        (ErrMsg "[ProcessRequestBatch] invalid Request, all events has been already seen");;
      r ← processBatch None tally batch;
      let '(err, tally) := r in
      match err with
      | Some _ => throw (ErrMsg "[ProcessRequestBatch] unable to consume one or more request")
      | None => on_store (saveRequestBatchTally tally)
      end
  end.

(** The setters load the state, check the oracle, change a parameter and save. *)
Definition set_params (ctx : Ctx) (f : Params → Params) : M W unit :=
  state ← get_state;
  guard_not (negb (isOracle ctx state)) errOnlyOracle;;
  on_store (saveState (st_with_Params (f (st_Params state)) state)).

Definition SetElectionCycle (ctx : Ctx) (electionCycle : Z) : M W unit :=
  set_params ctx (λ p, mkParams (p_ValidatorCount p) electionCycle (p_CoinContractAddress p)
    (p_OracleAddress p) (p_MaxYearlyReward p) (p_RegistrationRequirement p)
    (p_CrashSlashingPercentage p) (p_ByzantineSlashingPercentage p)).

Definition SetMaxYearlyReward (ctx : Ctx) (maxYearlyReward : option Z) : M W unit :=
  set_params ctx (λ p, mkParams (p_ValidatorCount p) (p_ElectionCycleLength p)
    (p_CoinContractAddress p) (p_OracleAddress p) maxYearlyReward
    (p_RegistrationRequirement p) (p_CrashSlashingPercentage p)
    (p_ByzantineSlashingPercentage p)).

Definition SetRegistrationRequirement (ctx : Ctx) (requirement : option Z) : M W unit :=
  set_params ctx (λ p, mkParams (p_ValidatorCount p) (p_ElectionCycleLength p)
    (p_CoinContractAddress p) (p_OracleAddress p) (p_MaxYearlyReward p) requirement
    (p_CrashSlashingPercentage p) (p_ByzantineSlashingPercentage p)).

(** [SetValidatorCount] checks the oracle and saves the state it loaded: the
    requested count is not used. *)
Definition SetValidatorCount (ctx : Ctx) (validatorCount : Z) : M W unit :=
  set_params ctx (λ p, p).

Definition SetOracleAddress (ctx : Ctx) (oracle : option Address) : M W unit :=
  set_params ctx (λ p, mkParams (p_ValidatorCount p) (p_ElectionCycleLength p)
    (p_CoinContractAddress p) oracle (p_MaxYearlyReward p) (p_RegistrationRequirement p)
    (p_CrashSlashingPercentage p) (p_ByzantineSlashingPercentage p)).

Definition SetSlashingPercentages (ctx : Ctx) (crash byzantine : option Z) : M W unit :=
  set_params ctx (λ p, mkParams (p_ValidatorCount p) (p_ElectionCycleLength p)
    (p_CoinContractAddress p) (p_OracleAddress p) (p_MaxYearlyReward p)
    (p_RegistrationRequirement p) crash byzantine).

Definition TimeUntilElection (ctx : Ctx) (s : DposStore) : Res Z :=
  state ← loadState s;
  mret (i64 (p_ElectionCycleLength (st_Params state)
             - i64 (ctx_now ctx - st_LastElectionTime state))).

Definition ValidatorList (s : DposStore) : Res (list Validator) :=
  state ← loadState s;
  mret (st_Validators state).

Definition ListValidators (ctx : Ctx) (s : DposStore) : Res (list ValidatorStatistic) :=
  validators ← ValidatorList s;
  Ok ((λ validator : Validator,
    let address := mkAddress (ctx_chain ctx) (local_from_pubkey (v_PubKey validator)) in
    default (mkStatistic address (v_PubKey validator) None 0 None None)
      (GetStatistic s address)) <$> (validators : list Validator)).

Definition CheckRewards (s : DposStore) : Res Z :=
  state ← loadState s;
  mret (st_TotalRewardDistribution state).

Definition GetState (s : DposStore) : Res State := loadState s.

Definition GetRequestBatchTally (s : DposStore) : RequestBatchTally := loadRequestBatchTally s.

(** [Initialize], called instead of [Init] when migrating from dpos v2. *)
Definition Initialize (state : State) (candidates : list Candidate)
    (delegations : list Delegation) (statistics : list ValidatorStatistic) : M W unit :=
  on_store (saveState state);;
  on_store (saveCandidateList candidates);;
  forM delegations (λ d, on_store (SetDelegation d));;
  forM statistics (λ st, on_store (SetStatistic st)).
End Oracle.
