(* ===== verification/DposElection.v ===== *)
(** * Elections, rewards and slashing (src/builtin/plugins/dposv3/dpos.go)

    [Elect] and what it calls: [rewardAndSlash] settles the rewards of the
    validators of the last cycle, [distributeDelegatorRewards] settles every
    delegation and computes the new totals, and the candidates with the largest
    totals become the validators.  [slash] records faults between elections.

    Go's maps keyed by address strings are [gmap]s; a map is iterated in an
    unspecified order, which is why the results are sorted, and
    [election_order_unique] shows that the order does not matter. *)

From S2P Require Import Prelude Contract DposTypes DposMath DposStorage DposHandlers.

Section Ops.
Context {LIB : DiademLib} {L : Type} {TOKEN : ERC20 L}.
Abbreviation W := (DWorld L).

(** ** Faults *)

Definition emitSlashEvent (validator : Address) (slashPercentage : Z) : M W unit :=
  emit (DposSlashEvent validator slashPercentage).

Definition slash (validatorAddr : bytes) (slashPercentage : Z) : M W unit :=
  found ← from_store (λ s, GetStatisticByAddressBytes s validatorAddr);
  match found with
  | None => throw ErrNotFound
  | Some statistic =>
      current ← deref (vs_SlashPercentage statistic);
      if slashPercentage <? current then mret ()
      else
        on_store (SetStatistic (mkStatistic (vs_Address statistic) (vs_PubKey statistic)
          (vs_WhitelistAmount statistic) (vs_LocktimeTier statistic)
          (vs_DelegationTotal statistic) (Some (current + slashPercentage))));;
        emitSlashEvent (vs_Address statistic) slashPercentage
  end.

Definition SlashInactivity (validatorAddr : bytes) : M W unit :=
  state ← get_state;
  percentage ← deref (p_CrashSlashingPercentage (st_Params state));
  slash validatorAddr percentage.

Definition SlashDoubleSign (validatorAddr : bytes) : M W unit :=
  state ← get_state;
  percentage ← deref (p_ByzantineSlashingPercentage (st_Params state));
  slash validatorAddr percentage.

(** ** Rewards of the validators *)

(** What [rewardAndSlash] accumulates: [formerValidatorTotals],
    [delegatorRewards] and the state, whose reward total it increases. *)
Record Rewards := mkRewards {
  rw_formerValidatorTotals : gmap string Z;
  rw_delegatorRewards : gmap string Z;
  rw_state : State;
}.

(** The loop over the delegations that rewards referrers: what is left of
    the validator's share. *)
Definition rewardReferrers (state : State) (candidate : Candidate)
    (delegations : list DelegationIndex) (validatorShare : Z) : M W Z :=
  foldM (λ validatorShare d,
    if local_compare (Local (di_Validator d)) (Local (c_Address candidate)) =? 0 then
      found ← from_store (λ s,
        GetDelegation s (di_Index d) (di_Validator d) (di_Delegator d));
      match found with
      | None => mret validatorShare
      | Some delegation =>
          if String.eqb (d_Referrer delegation) "" then mret validatorShare
          else
            referrer ← from_store (λ s, GetReferrer s (d_Referrer delegation));
            match referrer with
            | None => mret validatorShare
            | Some referrerAddress =>
                reward ← lift_res (calculateRewards (d_Amount delegation) (st_Params state)
                  (st_TotalValidatorDelegations state));
                let reward := CalculateFraction (i64 (c_Fee candidate)) reward in
                let reward := CalculateFraction defaultReferrerFee reward in
                on_store (IncreaseRewardDelegation limboValidatorAddress referrerAddress reward);;
                mret (validatorShare - reward)
            end
      end
    else mret validatorShare) validatorShare delegations.

(** The branch of a validator without faults: the new state and the
    delegators' share. *)
Definition rewardFaultless (state : State) (candidate : Candidate)
    (statistic : ValidatorStatistic) (delegations : list DelegationIndex) : M W (State * Z) :=
  delegationTotal ← deref (vs_DelegationTotal statistic);
  distributionTotal ← lift_res (calculateRewards delegationTotal (st_Params state)
    (st_TotalValidatorDelegations state));
  let validatorShare := CalculateFraction (i64 (c_Fee candidate)) distributionTotal in
  validatorShare ← rewardReferrers state candidate delegations validatorShare;
  on_store (IncreaseRewardDelegation (c_Address candidate) (c_Address candidate)
    validatorShare);;
  let delegatorsShare := distributionTotal - validatorShare in
  whitelistAmount ← deref (vs_WhitelistAmount statistic);
  (if IsZero whitelistAmount then mret ()
   else
     amount ← lift_res (calculateWeightedWhitelistAmount statistic);
     on_store (IncreaseRewardDelegation (c_Address candidate) (c_Address candidate)
       (calculateShare amount delegationTotal delegatorsShare)));;
  mret (st_add_rewards distributionTotal state, delegatorsShare).

(** The body of the loop over the validators.  The statistic that
    [slashValidatorDelegations] changes in memory is not stored. *)
Definition rewardValidator (delegations : list DelegationIndex) (rw : Rewards)
    (validator : Validator) : M W Rewards :=
  candidate ← from_store (λ s, GetCandidateByPubKey s (v_PubKey validator));
  match candidate with
  | None => mret rw
  | Some candidate =>
      let candidateAddress := c_Address candidate in
      let validatorKey := address_string candidateAddress in
      found ← from_store (λ s, GetStatistic s candidateAddress);
      match found with
      | None =>
          mret (mkRewards (<[validatorKey := 0]> (rw_formerValidatorTotals rw))
            (<[validatorKey := 0]> (rw_delegatorRewards rw)) (rw_state rw))
      | Some statistic =>
          slashPercentage ← deref (vs_SlashPercentage statistic);
          r ← (if IsZero slashPercentage then
                 r ← rewardFaultless (rw_state rw) candidate statistic delegations;
                 let '(state, delegatorsShare) := (r : State * Z) in
                 mret (<[validatorKey := delegatorsShare]> (rw_delegatorRewards rw), state)
               else
                 slashValidatorDelegations statistic candidateAddress;;
                 mret (rw_delegatorRewards rw, rw_state rw));
          let '(delegatorRewards, state) := (r : gmap string Z * State) in
          delegationTotal ← deref (vs_DelegationTotal statistic);
          mret (mkRewards (<[validatorKey := delegationTotal]> (rw_formerValidatorTotals rw))
            delegatorRewards state)
      end
  end.

(** ** Settling the delegations *)

Definition resetDelegationIfExpired (ctx : Ctx) (delegation : Delegation) : Delegation :=
  let now := u64 (ctx_now ctx) in
  if negb (d_LocktimeTier delegation =? TIER_ZERO) && (d_LockTime delegation <? now)
  then d_with_LocktimeTier TIER_ZERO delegation
  else delegation.

Definition delegationRewards (delegation : Delegation) (former rewards : gmap string Z) :
    M W unit :=
  let validatorKey := address_string (d_Validator delegation) in
  if isLimbo (d_Validator delegation) then mret ()
  else
    match rewards !! validatorKey with
    | None => mret ()
    | Some rewardsTotal =>
        delegationTotal ← deref (former !! validatorKey);
        on_store (IncreaseRewardDelegation (d_Validator delegation) (d_Delegator delegation)
          (calculateShare (calculateWeightedDelegationAmount delegation) delegationTotal
             rewardsTotal))
    end.

(** The pending update of a delegation: its new value, still in its old
    state. *)
Definition settleUpdate (ctx : Ctx) (delegation : Delegation) : M W Delegation :=
  match d_State delegation with
  | BONDING =>
      mret (d_with_Amount (d_Amount delegation + d_UpdateAmount delegation) delegation)
  | UNBONDING =>
      coin ← loadCoin;
      ERC20_Transfer ctx coin (d_Delegator delegation) (d_UpdateAmount delegation);;
      mret (d_with_Amount (d_Amount delegation - d_UpdateAmount delegation) delegation)
  | REDELEGATING =>
      on_store (DeleteDelegation delegation);;
      validator ← deref (d_UpdateValidator delegation);
      mret (d_with_Validator validator delegation)
  | BONDED => mret delegation
  end.

(** Deletes a delegation that is fully unbonded, and otherwise stores it as
    bonded. *)
Definition finishUpdate (ctx : Ctx) (delegation : Delegation) : M W Delegation :=
  if IsZero (d_Amount delegation) && bool_decide (d_State delegation = UNBONDING) then
    on_store (DeleteDelegation delegation);;
    mret delegation
  else
    let delegation := d_with_UpdateAmount 0 (d_with_State BONDED delegation) in
    let delegation := resetDelegationIfExpired ctx delegation in
    on_store (SetDelegation delegation);;
    mret delegation.

Definition addToTotal (delegation : Delegation) (totals : gmap string Z) : gmap string Z :=
  if isLimbo (d_Validator delegation) then totals
  else
    let validatorKey := address_string (d_Validator delegation) in
    <[validatorKey :=
        calculateWeightedDelegationAmount delegation + default 0 (totals !! validatorKey)]>
      totals.

(** The body of the loop over the delegations. *)
Definition settleDelegation (ctx : Ctx) (former rewards totals : gmap string Z)
    (d : DelegationIndex) : M W (gmap string Z) :=
  found ← from_store (λ s, GetDelegation s (di_Index d) (di_Validator d) (di_Delegator d));
  match found with
  | None => mret totals
  | Some delegation =>
      delegationRewards delegation former rewards;;
      delegation ← settleUpdate ctx delegation;
      delegation ← finishUpdate ctx delegation;
      mret (addToTotal delegation totals)
  end.

(** The totals start from the weighted whitelist amounts. *)
Definition initialTotals (s : DposStore) : gmap string Z :=
  foldl (λ totals candidate,
    match GetStatistic s (c_Address candidate) with
    | None => totals
    | Some statistic =>
        match vs_WhitelistAmount statistic, calculateWeightedWhitelistAmount statistic with
        | Some x, Ok amount =>
            if IsZero x then totals
            else <[address_string (vs_Address statistic) := amount]> totals
        | _, _ => totals
        end
    end) ∅ (loadCandidateList s).

Definition distributeDelegatorRewards (ctx : Ctx) (former rewards : gmap string Z) :
    M W (gmap string Z) :=
  totals ← from_store initialTotals;
  delegations ← from_store loadDelegationList;
  foldM (settleDelegation ctx former rewards) totals delegations.

Definition MustParseAddress (s : string) : M W Address := deref (parse_address s).

Definition rewardAndSlash (ctx : Ctx) (state : State) : M W (State * list DelegationResult) :=
  delegations ← from_store loadDelegationList;
  rw ← foldM (rewardValidator delegations) (mkRewards ∅ ∅ state) (st_Validators state);
  newDelegationTotals ←
    distributeDelegatorRewards ctx (rw_formerValidatorTotals rw) (rw_delegatorRewards rw);
  delegationResults ← foldM (λ acc '(validator, total),
      address ← MustParseAddress validator;
      mret (acc ++ [mkDelegationResult address total])) [] (map_to_list newDelegationTotals);
  mret (rw_state rw, go_sort lessDelegationTotal delegationResults).

(** ** Elections *)

(** The body of the loop over the results that are elected. *)
Definition electResult (acc : list Validator * Z) (res : DelegationResult) :
    M W (list Validator * Z) :=
  let '(validators, totalValidatorDelegations) := acc in
  candidate ← from_store (λ s, GetCandidate s (dr_ValidatorAddress res));
  match candidate with
  | None => mret acc
  | Some candidate =>
      if IsPositive (dr_DelegationTotal res) then
        let validatorPower := i64 (dr_DelegationTotal res / powerCorrection) in
        found ← from_store (λ s, GetStatistic s (c_Address candidate));
        let statistic :=
          match found with
          | None =>
              mkStatistic (dr_ValidatorAddress res) (c_PubKey candidate) (Some 0) 0
                (Some (dr_DelegationTotal res)) (Some 0)
          | Some statistic =>
              mkStatistic (vs_Address statistic) (c_PubKey candidate)
                (vs_WhitelistAmount statistic) (vs_LocktimeTier statistic)
                (Some (dr_DelegationTotal res)) (vs_SlashPercentage statistic)
          end in
        on_store (SetStatistic statistic);;
        mret (validators ++ [mkValidator (c_PubKey candidate) validatorPower],
              totalValidatorDelegations + dr_DelegationTotal res)
      else mret acc
  end.

Definition emitElectionEvent (ctx : Ctx) : M W unit :=
  emit (DposElectionEvent (u64 (ctx_height ctx))).

(** [delegationResults[:validatorCount]]: a negative bound panics. *)
Definition electedResults (validatorCount : Z) (results : list DelegationResult) :
    M W (list DelegationResult) :=
  let validatorCount := i64 validatorCount in
  let validatorCount :=
    if Z.of_nat (length results) <? validatorCount
    then Z.of_nat (length results) else validatorCount in
  if validatorCount <? 0 then panic else mret (take (Z.to_nat validatorCount) results).

Definition Elect (ctx : Ctx) : M W unit :=
  state ← get_state;
  if i64 (ctx_now ctx - st_LastElectionTime state)
       <? p_ElectionCycleLength (st_Params state)
  then mret ()
  else
    r ← rewardAndSlash ctx state;
    let '(state, delegationResults) := (r : State * list DelegationResult) in
    elected ← electedResults (p_ValidatorCount (st_Params state)) delegationResults;
    r ← foldM electResult ([], 0) elected;
    let '(validators, totalValidatorDelegations) := (r : list Validator * Z) in
    (if IsPositive totalValidatorDelegations then
       on_store (saveState (mkState (st_Params state) (applyPowerCap validators) (ctx_now ctx)
         totalValidatorDelegations (st_TotalRewardDistribution state)))
     else mret ());;
    on_store updateCandidateList;;
    emitElectionEvent ctx.
End Ops.
