(* ===== verification/DposCallTheorems.v ===== *)
(** * What the calls of the dpos contract do

    Theorems on the methods of [DposHandlers]: the effect of delegating,
    redelegating and unbonding on what the contract owes to delegators, the
    oracle's exclusive rights, and that a request batch is consumed once.
    The token is any contract that satisfies [ERC20Spec]; the witnesses use
    the coin contract of [Coin]. *)

From S2P Require Import Prelude Contract Coin DposTypes DposMath DposStorage DposHandlers.

(** ** What the contract owes

    A delegation is worth its amount, and a bonding one also the tokens that
    the next election adds to it. *)

Definition owed_of (d : Delegation) : Z :=
  d_Amount d + (if decide (d_State d = BONDING) then d_UpdateAmount d else 0).

Definition owed (s : DposStore) : Z := map_sumZ owed_of (ds_delegation s).

(** Every record is stored under its own key. *)
Definition records_keyed (s : DposStore) : Prop :=
  ∀ k d, ds_delegation s !! k = Some d → k = delegation_key d.

Section Owed.
Context {LIB : DiademLib}.

Lemma ds_delegation_Set d s :
  ds_delegation (SetDelegation d s) = <[delegation_key d := d]> (ds_delegation s).
Proof. unfold SetDelegation. cbn. by destruct (GetDelegation _ _ _ _). Qed.

Lemma ds_delegation_Delete d s :
  ds_delegation (DeleteDelegation d s) = delete (delegation_key d) (ds_delegation s).
Proof. done. Qed.

Lemma owed_Set d s :
  owed (SetDelegation d s) =
    owed s + owed_of d - from_option owed_of 0 (ds_delegation s !! delegation_key d).
Proof. unfold owed. by rewrite ds_delegation_Set, map_sumZ_insert. Qed.

Lemma owed_Delete d s :
  owed (DeleteDelegation d s) =
    owed s - from_option owed_of 0 (ds_delegation s !! delegation_key d).
Proof. unfold owed. by rewrite ds_delegation_Delete, map_sumZ_delete. Qed.

Lemma records_keyed_empty : records_keyed empty_dpos_store.
Proof. intros k d. cbn. by rewrite lookup_empty. Qed.

Lemma records_keyed_Set d s : records_keyed s → records_keyed (SetDelegation d s).
Proof.
  intros Hs k d'. rewrite ds_delegation_Set, lookup_insert. case_decide; [|apply Hs].
  by intros [= ->].
Qed.

Lemma records_keyed_Delete d s : records_keyed s → records_keyed (DeleteDelegation d s).
Proof.
  intros Hs k d'. rewrite ds_delegation_Delete, lookup_delete. case_decide; [done|apply Hs].
Qed.
End Owed.

(** ** Delegating *)

Section Delegating.
Context {LIB : DiademLib} {L : Type} {TOKEN : ERC20 L}.
Abbreviation W := (DWorld L).
Implicit Types w : W.

(** The delegation a successful [Delegate] creates. *)
Definition new_delegation (ctx : Ctx) (validator : Address) (amount tier index : Z)
    (referrer : string) : Delegation :=
  mkDelegation validator (ctx_sender ctx) index 0 amount None (TierMap tier)
    (u64 (u64 (ctx_now ctx) + TierLocktimeMap (TierMap tier))) BONDING referrer.

(** A referrer is acceptable: none, or a registered one the candidate accepts. *)
Definition referrer_ok (s : DposStore) (referrer : string) (cand : Candidate) : Prop :=
  match GetReferrer s referrer with
  | None => referrer = ""
  | Some _ => defaultReferrerFee <= c_MaxReferralPercentage cand
  end.

Lemma check_referrer_ok referrer cand w :
  referrer_ok (dw_store w) referrer cand → check_referrer referrer cand w = (Ok (), w).
Proof.
  unfold referrer_ok, check_referrer, from_store. run_m.
  destruct (GetReferrer _ _).
  - intros Hle. by rewrite (proj2 (Z.ltb_ge _ _)) by lia.
  - intros ->. done.
Qed.

Lemma TierLocktimeMap_range t : 0 <= TierLocktimeMap t < 2 ^ 32.
Proof. unfold TierLocktimeMap. repeat case_match; lia. Qed.

Lemma next_index_run w v d i :
  GetNextDelegationIndex (dw_store w) v d = Some i → next_index v d w = (Ok i, w).
Proof. intros H. unfold next_index, from_store. run_m. by rewrite H. Qed.

Lemma Delegate_run ctx w validator amount tier referrer cand state coin l' index :
  GetCandidate (dw_store w) validator = Some cand →
  0 < amount →
  referrer_ok (dw_store w) referrer cand →
  ds_state (dw_store w) = Some state →
  p_CoinContractAddress (st_Params state) = Some coin →
  erc20_transfer_from coin (ctx_contract ctx) (ctx_sender ctx) (ctx_contract ctx) amount
    (dw_ledger w) = (Ok (), l') →
  GetNextDelegationIndex (dw_store w) validator (ctx_sender ctx) = Some index →
  0 <= tier <= 3 →
  0 <= ctx_now ctx < 2 ^ 63 →
  Delegate ctx (mkDelegateRequest (Some validator) (Some amount) tier referrer) w =
    (Ok (), mkDWorld
      (SetDelegation (new_delegation ctx validator amount tier index referrer) (dw_store w)) l'
      (dw_events w ++ [DposDelegatorDelegatesEvent (ctx_sender ctx) (Some amount) referrer])).
Proof.
  intros Hc Ha Hr Hst Hcoin Ht Hi Htier Hnow. unfold Delegate. cbn [dq_ValidatorAddress
    dq_Amount dq_LocktimeTier dq_Referrer].
  unfold require_candidate, from_store. unfold_m. cbn. rewrite Hc.
  unfold IsPositive. rewrite (proj2 (Z.ltb_lt _ _) Ha).
  rewrite check_referrer_ok by done. unfold loadCoin, get_state, loadState. unfold_m.
  rewrite Hst, Hcoin. unfold ERC20_TransferFrom. unfold_m. rewrite Ht.
  erewrite next_index_run by done. cbn [set_ledger dw_store dw_ledger dw_events].
  rewrite (proj2 (Z.ltb_ge 3 tier)) by lia.
  pose proof (TierLocktimeMap_range (TierMap tier)).
  rewrite (proj2 (Z.ltb_ge _ _)); [done|].
  rewrite (u64_small (ctx_now ctx)) by lia. rewrite u64_small; lia.
Qed.
End Delegating.

Section DelegateTheorem.
Context {LIB : DiademLib} {L : Type} {TOKEN : ERC20 L} {good : L → Prop}
  {TSPEC : ERC20Spec L good}.
Abbreviation W := (DWorld L).

(** Delegating to a registered candidate, when the token transfer
    succeeds: the contract's token balance grows by exactly the amount, and so
    does what it owes; the delegation is stored under an index that was free,
    bonding, with the requested tier and lock; all other delegations stay and
    the index remains consistent. *)
Theorem delegate_effect ctx (w : W) validator amount tier referrer cand state coin l' :
  index_wf (dw_store w) →
  Z.of_nat (size (ds_delegation (dw_store w))) < 2 ^ 64 - 2 →
  good (dw_ledger w) →
  wf_address (ctx_sender ctx) → wf_address (ctx_contract ctx) →
  ctx_sender ctx ≠ ctx_contract ctx →
  GetCandidate (dw_store w) validator = Some cand →
  0 < amount →
  referrer_ok (dw_store w) referrer cand →
  ds_state (dw_store w) = Some state →
  p_CoinContractAddress (st_Params state) = Some coin →
  erc20_transfer_from coin (ctx_contract ctx) (ctx_sender ctx) (ctx_contract ctx) amount
    (dw_ledger w) = (Ok (), l') →
  0 <= tier <= 3 →
  0 <= ctx_now ctx < 2 ^ 63 →
  ∃ w' index,
    Delegate ctx (mkDelegateRequest (Some validator) (Some amount) tier referrer) w
      = (Ok (), w') ∧
    GetDelegation (dw_store w) index validator (ctx_sender ctx) = None ∧
    GetDelegation (dw_store w') index validator (ctx_sender ctx) =
      Some (new_delegation ctx validator amount tier index referrer) ∧
    (∀ k, k ≠ computeDelegationsKey index validator (ctx_sender ctx) →
       ds_delegation (dw_store w') !! k = ds_delegation (dw_store w) !! k) ∧
    index_wf (dw_store w') ∧
    owed (dw_store w') = owed (dw_store w) + amount ∧
    erc20_balance coin (dw_ledger w') (ctx_contract ctx) =
      erc20_balance coin (dw_ledger w) (ctx_contract ctx) + amount ∧
    erc20_balance coin (dw_ledger w') (ctx_sender ctx) =
      erc20_balance coin (dw_ledger w) (ctx_sender ctx) - amount.
Proof.
  intros Hwf Hsize Hgood Hs Hc Hne Hcand Ha Hr Hst Hcoin Ht Htier Hnow.
  destruct (next_index_found (dw_store w) validator (ctx_sender ctx) Hsize)
    as (index & Hi & Hir & Hfree & _).
  eexists _, index. split; [by eapply Delegate_run|].
  destruct (erc20_transfer_from_moves coin (ctx_contract ctx) (ctx_sender ctx)
    (ctx_contract ctx) amount (dw_ledger w) l') as (_ & Hfrom & Hto & _); try done; [lia|].
  cbn [dw_store dw_ledger]. unfold GetDelegation in *. split_and!; try done.
  - rewrite SetDelegation_lookup. by case_decide.
  - intros k Hk. rewrite SetDelegation_lookup. by case_decide.
  - by apply SetDelegation_index.
  - rewrite owed_Set. change (delegation_key _) with
      (computeDelegationsKey index validator (ctx_sender ctx)). rewrite Hfree.
    change (owed_of _) with (0 + amount). cbn. lia.
Qed.
End DelegateTheorem.

(** ** Redelegating *)

Section Redelegating.
Context {LIB : DiademLib} {SPEC : DiademLibSpec} {L : Type} {TOKEN : ERC20 L}.
Abbreviation W := (DWorld L).
Implicit Types w : W.

(** The tier after a redelegation that asks for [newTier]. *)
Definition redelegation_tier (prior : Delegation) (newTier : Z) : Z :=
  if u64 (d_LocktimeTier prior) <? newTier then i32 newTier else d_LocktimeTier prior.

(** The overflow check on the new lock time passes. *)
Definition locktime_in_range (ctx : Ctx) (state : State) (newTier : Z) : Prop :=
  u64 (ctx_now ctx) <=
    u64 (u64 (ctx_now ctx) + TierLocktimeMap (i32 newTier)
         + u64 (i64 (p_ElectionCycleLength (st_Params state)
                     - i64 (ctx_now ctx - st_LastElectionTime state)))).

(** What [Redelegate] stores when it redelegates everything. *)
Definition redelegated (prior : Delegation) (validator : Address) (newTier : Z)
    (referrer : string) : Delegation :=
  mkDelegation (d_Validator prior) (d_Delegator prior) (d_Index prior) (d_Amount prior)
    (d_UpdateAmount prior) (Some validator) (redelegation_tier prior newTier)
    (d_LockTime prior) REDELEGATING referrer.

Context (ctx : Ctx) (w : W) (former validator : Address) (index newTier : Z)
  (referrer : string) (prior : Delegation) (cand : Candidate) (state : State).

(** The checks of [Redelegate] that do not depend on the amount. *)
Definition redelegate_allowed : Prop :=
  Local former ≠ Local validator ∧
  isLimbo validator = false ∧
  GetCandidate (dw_store w) validator = Some cand ∧
  referrer_ok (dw_store w) referrer cand ∧
  GetDelegation (dw_store w) index former (ctx_sender ctx) = Some prior ∧
  ds_state (dw_store w) = Some state ∧
  locktime_in_range ctx state newTier.

Definition redelegate_request (amount : option Z) : RedelegateRequest :=
  mkRedelegateRequest (Some validator) (Some former) index amount newTier referrer.

(** The tail of [Redelegate], after the checks. *)
Definition redelegate_tail (amount : option Z) : M W unit :=
  let tier := redelegation_tier prior newTier in
  d ← (if (match amount with None => true | Some x => d_Amount prior =? x end : bool) then
         mret (redelegated prior validator newTier referrer)
       else
         x ← deref amount;
         if d_Amount prior <? x then throw (ErrMsg "Redelegation amount out of range.")
         else
           i ← next_index validator (d_Delegator prior);
           on_store (SetDelegation (mkDelegation validator (d_Delegator prior) i
             0 x None tier (d_LockTime prior) BONDING referrer));;
           mret (d_with_UpdateAmount x (d_with_State UNBONDING prior)));
  on_store (SetDelegation d);;
  emit (DposDelegatorRedelegatesEvent (ctx_sender ctx) amount referrer).

Lemma Redelegate_run amount :
  redelegate_allowed →
  match amount with Some x => 0 < x | None => True end →
  Redelegate ctx (redelegate_request amount) w = redelegate_tail amount w.
Proof.
  intros (Hne & Hlimbo & Hc & Hr & Hp & Hst & Hlock) Ha. unfold Redelegate, redelegate_tail.
  cbn [redelegate_request rq_ValidatorAddress rq_FormerValidatorAddress rq_Index rq_Amount
    rq_NewLocktimeTier rq_Referrer].
  destruct (cmp_cases local_compare (Local former) (Local validator)) as [|[_ E]]; [done|].
  unfold require_candidate, get_state, loadState, from_store, redelegated, redelegation_tier.
  assert (Hpos : (match amount with Some x => negb (IsPositive x) | None => false end) = false).
  { destruct amount as [x|]; [|done]. unfold IsPositive.
    by rewrite (proj2 (Z.ltb_lt _ _) Ha). }
  m_eval. rewrite E, Hpos, Hlimbo. cbn [negb]. rewrite Hc. cbv beta iota.
  rewrite check_referrer_ok by done. rewrite Hp. cbv beta iota.
  destruct (u64 (d_LocktimeTier prior) <? newTier) eqn:Et; [|done]. rewrite Hst. cbv beta iota.
  unfold locktime_in_range in Hlock. by rewrite (proj2 (Z.ltb_ge _ _) Hlock).
Qed.

(** Redelegating a whole delegation to a longer tier raises the tier, and
    with it the rewards, but leaves the lock time of the delegation as it
    was: the new lock time is computed and then dropped. *)
Theorem redelegate_keeps_old_locktime :
  redelegate_allowed → records_keyed (dw_store w) →
  u64 (d_LocktimeTier prior) < newTier →
  ∃ w' d,
    Redelegate ctx (redelegate_request None) w = (Ok (), w') ∧
    GetDelegation (dw_store w') index former (ctx_sender ctx) = Some d ∧
    d_State d = REDELEGATING ∧ d_UpdateValidator d = Some validator ∧
    d_Amount d = d_Amount prior ∧
    d_LocktimeTier d = i32 newTier ∧ d_LockTime d = d_LockTime prior ∧
    dw_ledger w' = dw_ledger w.
Proof.
  intros Hok Hkey Htier. eexists _, (redelegated prior validator newTier referrer).
  rewrite Redelegate_run by done. split; [reflexivity|].
  destruct Hok as (_ & _ & _ & _ & Hp & _). apply Hkey in Hp.
  cbn [dw_store dw_ledger]. unfold GetDelegation. rewrite SetDelegation_lookup, Hp.
  change (delegation_key (redelegated _ _ _ _)) with (delegation_key prior).
  rewrite decide_True by done. split_and!; try done.
  cbn. unfold redelegation_tier. by rewrite (proj2 (Z.ltb_lt _ _) Htier).
Qed.

(** Redelegating part of a bonded delegation adds the amount to what the
    contract owes without receiving a token: the amount is bonded to the new
    validator and also marked for unbonding from the old one, where the next
    election pays it out. *)
Theorem partial_redelegate_owes_twice amount :
  redelegate_allowed → records_keyed (dw_store w) →
  Z.of_nat (size (ds_delegation (dw_store w))) < 2 ^ 64 - 2 →
  d_State prior = BONDED →
  0 < amount < d_Amount prior →
  ∃ w' i,
    Redelegate ctx (redelegate_request (Some amount)) w = (Ok (), w') ∧
    owed (dw_store w') = owed (dw_store w) + amount ∧
    dw_ledger w' = dw_ledger w ∧
    GetDelegation (dw_store w') index former (ctx_sender ctx) =
      Some (d_with_UpdateAmount amount (d_with_State UNBONDING prior)) ∧
    (d_UpdateAmount <$> GetDelegation (dw_store w') i validator (d_Delegator prior)) =
      Some amount.
Proof.
  intros Hok Hkey Hsize Hb Ha. rewrite Redelegate_run by (done || lia).
  destruct Hok as (_ & _ & _ & _ & Hp & _). pose proof (Hkey _ _ Hp) as Hk.
  destruct (next_index_found (dw_store w) validator (d_Delegator prior) Hsize)
    as (i & Hi & _ & Hfree & _).
  unfold redelegate_tail. rewrite (proj2 (Z.eqb_neq _ _)) by lia.
  m_eval. rewrite (proj2 (Z.ltb_ge _ _)) by lia. rewrite (next_index_run w _ _ i) by done.
  eexists _, i. split; [reflexivity|]. cbn [on_store modify emit dw_store dw_ledger].
  unfold on_store, emit, modify. cbn [dw_store dw_ledger].
  unfold GetDelegation in *. rewrite Hk in Hp |- *.
  set (d1 := mkDelegation validator _ i _ _ _ _ _ _ _).
  set (d2 := d_with_UpdateAmount _ _).
  assert (Hne : delegation_key prior ≠ delegation_key d1).
  { intros Heq. change (delegation_key d1) with
      (computeDelegationsKey i validator (d_Delegator prior)) in Heq.
    rewrite Heq, Hfree in Hp. done. }
  rewrite owed_Set, owed_Set, !SetDelegation_lookup.
  change (delegation_key d2) with (delegation_key prior).
  change (delegation_key d1) with (computeDelegationsKey i validator (d_Delegator prior)) in *.
  rewrite Hfree, Hp. rewrite (decide_False (P := delegation_key prior = _)) by done.
  change (owed_of d1) with (0 + amount). cbn [from_option].
  change (owed_of d2) with (d_Amount prior + 0).
  assert (owed_of prior = d_Amount prior + 0) as -> by (unfold owed_of; by rewrite Hb).
  split_and!; [lia|done|by rewrite decide_True|].
  rewrite decide_False by congruence. by rewrite decide_True.
Qed.
End Redelegating.

(** ** Unbonding *)

Section Unbonding.
Context {LIB : DiademLib} {L : Type} {TOKEN : ERC20 L}.
Abbreviation W := (DWorld L).

(** A successful unbond names a bonded delegation of the caller whose lock
    has expired (or, with elections at every block, one of the shortest
    tier); it asks for no more than is bonded, marks that amount (everything,
    when asked for zero) for the next election, and changes nothing else: no
    token moves and the contract owes what it owed. *)
Theorem unbond_only_unlocked ctx req (w w' : W) :
  records_keyed (dw_store w) →
  Unbond ctx req w = (Ok (), w') →
  ∃ v x d state,
    uq_ValidatorAddress req = Some v ∧ uq_Amount req = Some x ∧
    GetDelegation (dw_store w) (uq_Index req) v (ctx_sender ctx) = Some d ∧
    ds_state (dw_store w) = Some state ∧
    d_State d = BONDED ∧ x <= d_Amount d ∧
    (d_LockTime d <= u64 (ctx_now ctx) ∨
     p_ElectionCycleLength (st_Params state) = 0 ∧ d_LocktimeTier d = TIER_ZERO) ∧
    dw_store w' = SetDelegation (d_with_UpdateAmount (if decide (x = 0) then d_Amount d else x)
                    (d_with_State UNBONDING d)) (dw_store w) ∧
    dw_ledger w' = dw_ledger w ∧
    owed (dw_store w') = owed (dw_store w).
Proof.
  intros Hkey. unfold Unbond. destruct (uq_ValidatorAddress req) as [v|]; [|done].
  destruct (uq_Amount req) as [x|]; [|done]. unfold from_store.
  intros (found & w1 & [-> ->]%gets_inv & H)%bind_inv.
  apply bind_inv in H as (d & w1 & Hd & H).
  destruct (GetDelegation (dw_store w) _ v _) as [d'|] eqn:Hget; [|done].
  apply ret_inv in Hd as [-> ->]. apply bind_inv in H as (state & w1 & Hst & H).
  unfold get_state, loadState in Hst.
  destruct (ds_state (dw_store w)) as [state'|] eqn:Hds; [|done]. injection Hst as <- <-.
  destruct (Z.ltb_spec (d_Amount d') x); [done|].
  destruct (_ && _) eqn:Hlock in H; [done|].
  destruct (bool_decide _) eqn:Hb in H; [|done]. apply bool_decide_eq_true in Hb. cbn in H.
  injection H as <-. exists v, x, d', state'. cbn [dw_store dw_ledger].
  split_and!; try done.
  - apply andb_false_iff in Hlock as [Hl|Hl].
    + left. by apply Z.ltb_ge.
    + right. apply negb_false_iff, andb_true_iff in Hl as [? ?]. lia.
  - unfold IsZero. by destruct (Z.eqb_spec x 0), (decide (x = 0)).
  - rewrite owed_Set. apply Hkey in Hget as Hk. unfold GetDelegation in Hget. rewrite Hk in Hget.
    change (delegation_key (d_with_UpdateAmount _ _)) with (delegation_key d').
    rewrite Hget. cbn [from_option]. assert (owed_of d' = d_Amount d' + 0) as ->
      by (unfold owed_of; by rewrite Hb). change (owed_of _) with (d_Amount d' + 0). lia.
Qed.
End Unbonding.

(** ** The oracle *)

Section OracleOnly.
Context {LIB : DiademLib} {L : Type}.
Abbreviation W := (DWorld L).
Implicit Types w : W.

Inductive OracleCall :=
  | CallWhitelistCandidate (req : WhitelistCandidateRequest)
  | CallRemoveWhitelistedCandidate (candidate : option Address)
  | CallChangeWhitelistInfo (req : WhitelistCandidateRequest)
  | CallRegisterReferrer (name : string) (address : option Address)
  | CallProcessRequestBatch (batch : list BatchRequest)
  | CallSetElectionCycle (cycle : Z)
  | CallSetMaxYearlyReward (reward : option Z)
  | CallSetRegistrationRequirement (requirement : option Z)
  | CallSetValidatorCount (count : Z)
  | CallSetOracleAddress (oracle : option Address)
  | CallSetSlashingPercentages (crash byzantine : option Z).

Definition run_oracle (ctx : Ctx) (c : OracleCall) : M W unit :=
  match c with
  | CallWhitelistCandidate req => WhitelistCandidate ctx req
  | CallRemoveWhitelistedCandidate a => RemoveWhitelistedCandidate ctx a
  | CallChangeWhitelistInfo req => ChangeWhitelistInfo ctx req
  | CallRegisterReferrer n a => RegisterReferrer ctx n a
  | CallProcessRequestBatch b => ProcessRequestBatch ctx b
  | CallSetElectionCycle z => SetElectionCycle ctx z
  | CallSetMaxYearlyReward z => SetMaxYearlyReward ctx z
  | CallSetRegistrationRequirement z => SetRegistrationRequirement ctx z
  | CallSetValidatorCount z => SetValidatorCount ctx z
  | CallSetOracleAddress a => SetOracleAddress ctx a
  | CallSetSlashingPercentages c b => SetSlashingPercentages ctx c b
  end.

(** The sender of the call is the oracle of the stored state. *)
Definition sender_is_oracle (ctx : Ctx) (s : DposStore) : bool :=
  match ds_state s with Some state => isOracle ctx state | None => false end.

(** Whitelisting, referrer registration, request batches and every
    parameter change are reserved to the oracle: any other sender gets an
    error and nothing changes, and when no oracle is set nobody can call
    them. *)
Theorem oracle_methods_are_guarded ctx c w :
  sender_is_oracle ctx (dw_store w) = false → ∃ e, run_oracle ctx c w = (Err e, w).
Proof.
  unfold sender_is_oracle. intros H.
  destruct c; cbn; unfold WhitelistCandidate, RemoveWhitelistedCandidate, ChangeWhitelistInfo,
    RegisterReferrer, ProcessRequestBatch, SetElectionCycle, SetMaxYearlyReward,
    SetRegistrationRequirement, SetValidatorCount, SetOracleAddress, SetSlashingPercentages,
    set_params, get_state, loadState; m_eval;
    (destruct (ds_state (dw_store w)); [rewrite H|]); eauto.
Qed.

(** [SetValidatorCount] never changes the number of validators: called by
    the oracle it succeeds, and the stored state is the one before with its
    validators sorted again, whatever count was asked for. *)
Theorem set_validator_count_ignores_request ctx count w :
  sender_is_oracle ctx (dw_store w) = true →
  let '(r, w') := SetValidatorCount ctx count w in
  r = Ok () ∧
  (p_ValidatorCount ∘ st_Params <$> ds_state (dw_store w')) =
    (p_ValidatorCount ∘ st_Params <$> ds_state (dw_store w)) ∧
  (st_Params <$> ds_state (dw_store w')) = (st_Params <$> ds_state (dw_store w)).
Proof.
  unfold sender_is_oracle. intros H. unfold SetValidatorCount, set_params, get_state, loadState.
  m_eval. destruct (ds_state (dw_store w)) as [state|]; [|done]. rewrite H. cbn. done.
Qed.
End OracleOnly.

(** ** Request batches *)

Section Batches.
Context {LIB : DiademLib} {L : Type}.
Abbreviation W := (DWorld L).
Implicit Types (w : W) (t : RequestBatchTally).

Definition meta_triple (m : BatchRequestMeta) : Z * (Z * Z) :=
  (BlockNumber m, (TxIndex m, LogIndex m)).
Definition tally_triple t : Z * (Z * Z) :=
  (LastSeenBlockNumber t, (LastSeenTxIndex t, LastSeenLogIndex t)).

(** Events are ordered by block, transaction and log. *)
Lemma isRequestAlreadySeen_lex m t :
  isRequestAlreadySeen m t = true ↔ event_compare (meta_triple m) (tally_triple t) <= 0.
Proof.
  unfold isRequestAlreadySeen, event_compare, lex_compare. cbn.
  repeat match goal with |- context [?a =? ?b] => destruct (Z.eqb_spec a b); cbn end;
    try lia; rewrite ?Z.leb_le; lia.
Qed.

Definition tally_le t t' : Prop := event_compare (tally_triple t) (tally_triple t') <= 0.

(** The requests the loop has dealt with. *)
Definition consumed t (r : BatchRequest) : Prop :=
  ∀ p, bq_Payload r = BatchRequest_WhitelistCandidate p →
    ∃ m, bq_Meta r = Some m ∧ isRequestAlreadySeen m t = true.

Lemma consumed_mono t t' r : tally_le t t' → consumed t r → consumed t' r.
Proof.
  intros Hle Hr p Hp. destruct (Hr p Hp) as (m & Hm & Hseen). exists m. split; [done|].
  rewrite isRequestAlreadySeen_lex in *. by eapply event_compare_trans.
Qed.

Lemma processBatch_consumes batch err t w t' w' :
  processBatch err t batch w = (Ok (None, t'), w') →
  tally_le t t' ∧ Forall (consumed t') batch ∧
  (err = None ∨ batch ≠ []) ∧
  (∀ r, last batch = Some r → bq_Payload r ≠ BatchRequest_Other).
Proof.
  revert err t w. induction batch as [|r batch IH]; intros err t w H.
  { injection H as -> -> ->. unfold tally_le. rewrite (cmp_refl event_compare).
    split_and!; [lia|done|by left|done]. }
  cbn [processBatch] in H. destruct (bq_Payload r) as [p|] eqn:Hp.
  - apply bind_inv in H as (m & w1 & [Hm ->]%deref_inv & H).
    destruct (isRequestAlreadySeen m t) eqn:Hseen.
    + apply IH in H as (Hle & Hall & _ & Hlast). split_and!; [done| |by right|].
      * constructor; [|done]. apply (consumed_mono t); [done|]. intros ??. by exists m.
      * intros r' Hr'. destruct batch; [|by apply Hlast]. injection Hr' as <-. by rewrite Hp.
    + apply bind_inv in H as (res & w1 & _ & H). destruct res; [|done].
      apply IH in H as (Hle & Hall & _ & Hlast). split_and!.
      * eapply event_compare_trans; [|exact Hle]. apply event_compare_total.
        change (tally_triple (mkTally _ _ _)) with (meta_triple m).
        rewrite <- isRequestAlreadySeen_lex. by rewrite Hseen.
      * constructor; [|done]. intros ??. exists m. split; [done|]. by apply isRequestAlreadySeen_lex.
      * by right.
      * intros r' Hr'. destruct batch; [|by apply Hlast]. injection Hr' as <-. by rewrite Hp.
  - apply IH in H as (Hle & Hall & Herr & Hlast). destruct Herr as [|Hne]; [done|].
    split_and!; [done| |by right|].
    + constructor; [|done]. intros ??. congruence.
    + intros r' Hr'. destruct batch; [done|]. by apply Hlast.
Qed.

Lemma processBatch_keeps_state st batch err t :
  preserves (λ w, ds_state (dw_store w) = st) (processBatch err t batch).
Proof.
  revert err t. induction batch as [|r batch IH]; intros err t; cbn [processBatch]; [pres|].
  destruct (bq_Payload r); [|apply IH]. apply preserves_bind; [pres|intros m].
  destruct (isRequestAlreadySeen m t); [apply IH|]. apply preserves_bind.
  - unfold addCandidateToStatisticList, from_store, on_store. pres.
  - intros [|]; [apply IH|pres].
Qed.

(** A request batch takes effect at most once: after a batch has been
    processed, every whitelist request in it counts as seen, and the same
    batch submitted again by the oracle is refused and changes nothing. *)
Theorem request_batch_not_replayable ctx ctx' batch w w' :
  ProcessRequestBatch ctx batch w = (Ok (), w') →
  Forall (consumed (loadRequestBatchTally (dw_store w'))) batch ∧
  ∃ e, ProcessRequestBatch ctx' batch w' = (Err e, w').
Proof.
  unfold ProcessRequestBatch. intros H.
  apply bind_inv in H as (state & w1 & Hst & H). unfold get_state in Hst.
  destruct (loadState (dw_store w)) as [st| |] eqn:Hload; try done. injection Hst as <- <-.
  apply bind_inv in H as ([] & w1 & [Ho ->]%guard_not_inv & H).
  destruct (last batch) as [lastr|] eqn:Hlast; [|done].
  apply bind_inv in H as (t & w1 & [-> ->]%gets_inv & H).
  apply bind_inv in H as (m & w1 & [Hm ->]%deref_inv & H).
  apply bind_inv in H as ([] & w1 & [Hseen ->]%guard_not_inv & H).
  apply bind_inv in H as ([e t'] & w1 & Hp & H). destruct e; [done|].
  injection H as <-. apply processBatch_consumes in Hp as Hc. destruct Hc as (_ & Hall & _ & Hl).
  split; [exact Hall|].
  pose proof (processBatch_keeps_state (ds_state (dw_store w)) batch None
    (loadRequestBatchTally (dw_store w)) w eq_refl) as Hk.
  unfold wp in Hk. rewrite Hp in Hk. cbn in Hk.
  unfold loadState in Hload. rewrite <- Hk in Hload.
  unfold get_state, loadState. m_eval. cbn [dw_store]. cbn -[isRequestAlreadySeen].
  destruct (ds_state (dw_store w1)) as [st'|]; [|done].
  destruct (isOracle ctx' st'); [|by eauto]. cbn -[isRequestAlreadySeen].
  rewrite Forall_forall in Hall. specialize (Hall lastr). apply last_Some in Hlast as [b' ->].
  destruct (bq_Payload lastr) as [p|] eqn:Hpay; [|by destruct (Hl lastr); [rewrite last_snoc|]].
  destruct (Hall ltac:(set_solver) p Hpay) as (m' & Hm' & Hs). rewrite Hm in Hm' |- *.
  injection Hm' as <-. unfold from_store, gets. cbn -[isRequestAlreadySeen]. rewrite Hs. by eauto.
Qed.
End Batches.

(** ** Witnesses *)

Module CallWitness.
Import SimpleLib CoinWitness.

(** The dpos contract [sample "X"] with the coin [sample "C"] and the oracle
    [sample "o"]; [sample "v"] and [sample "u"] are candidates. *)
Definition params : Params :=
  mkParams 21 100 (Some (sample "C")) (Some (sample "o")) (Some (60 * 10 ^ 24)) (Some 0)
    (Some 100) (Some 500).
Definition state : State := mkState params [] 0 0 0.
Definition cand (c : string) : Candidate :=
  mkCandidate c (sample c) 100 100 "" "" "" REGISTERED 1000.
Definition base : DposStore :=
  saveCandidateList [cand "v"; cand "u"] (saveState state empty_dpos_store).

(** The account [sample "a"] lets the dpos contract spend 70 of its coins. *)
Definition ledger : CoinWorld :=
  mkCoinWorld (sample "C")
    (run_call (sample_ctx (sample "a") 0) (CallApprove (sample "X") 70) start).2.
Definition world : DWorld CoinWorld := mkDWorld base ledger [].

Lemma ledger_good : coin_wf (cw_store ledger).
Proof.
  apply coin_reachable_wf. apply reach_call; [apply start_reachable|]. cbn.
  split_and!; try apply sample_wf; try (by repeat split); lia.
Qed.

Definition ctx : Ctx := sample_ctx (sample "a") 1000.

Lemma delegate_effect_witness :
  ∃ w', Delegate ctx (mkDelegateRequest (Some (sample "v")) (Some 30) 2 "") world = (Ok (), w') ∧
        owed (dw_store w') = 30.
Proof.
  destruct (delegate_effect ctx world (sample "v") 30 2 "" (cand "v") state (sample "C")
    (erc20_transfer_from (sample "C") (sample "X") (sample "a") (sample "X") 30 ledger).2)
    as (w' & i & Hrun & _ & _ & _ & _ & Howed & _).
  - apply index_wf_empty.
  - by vm_compute.
  - apply ledger_good.
  - by repeat split.
  - by repeat split.
  - done.
  - by vm_compute.
  - lia.
  - by vm_compute.
  - by vm_compute.
  - by vm_compute.
  - apply run_ok. by vm_compute.
  - lia.
  - cbn. lia.
  - exists w'. split; [exact Hrun|]. rewrite Howed. by vm_compute.
Defined.

(** The same contract with a bonded delegation of 50 from [sample "a"]. *)
Definition bonded : Delegation :=
  mkDelegation (sample "v") (sample "a") 1 50 0 None 0 500 BONDED "".
Definition world_bonded : DWorld CoinWorld := mkDWorld (SetDelegation bonded base) ledger [].

Lemma bonded_keyed : records_keyed (dw_store world_bonded).
Proof. apply records_keyed_Set, records_keyed_empty. Qed.

Lemma redelegation_allowed tier :
  tier = 0 ∨ tier = 3 →
  redelegate_allowed ctx world_bonded (sample "v") (sample "u") 1 tier "" bonded (cand "u") state.
Proof. by intros [-> | ->]; vm_compute. Qed.

Lemma redelegate_locktime_witness :
  ∃ w' d,
    Redelegate ctx (redelegate_request (sample "v") (sample "u") 1 3 "" None) world_bonded
      = (Ok (), w') ∧
    GetDelegation (dw_store w') 1 (sample "v") (sample "a") = Some d ∧
    d_LocktimeTier d = TIER_THREE ∧ d_LockTime d = 500.
Proof.
  destruct (redelegate_keeps_old_locktime ctx world_bonded (sample "v") (sample "u") 1 3 ""
    bonded (cand "u") state) as (w' & d & H1 & H2 & _ & _ & _ & H3 & H4 & _).
  - apply redelegation_allowed. lia.
  - apply bonded_keyed.
  - by vm_compute.
  - exists w', d. rewrite H3, H4. split_and!; (done || by vm_compute).
Defined.

Lemma partial_redelegate_witness :
  ∃ w' (i : Z),
    Redelegate ctx (redelegate_request (sample "v") (sample "u") 1 0 "" (Some 20)) world_bonded
      = (Ok (), w') ∧ owed (dw_store w') = 70 ∧ dw_ledger w' = ledger.
Proof.
  destruct (partial_redelegate_owes_twice ctx world_bonded (sample "v") (sample "u") 1 0 ""
    bonded (cand "u") state 20) as (w' & i & H1 & H2 & H3 & _).
  - apply redelegation_allowed. lia.
  - apply bonded_keyed.
  - by vm_compute.
  - done.
  - cbn. lia.
  - exists w', i. rewrite H2, H3. split_and!; (done || by vm_compute).
Defined.

Definition unbond_request : UnbondRequest := mkUnbondRequest (Some (sample "v")) (Some 20) 1.

Lemma unbond_witness :
  ∃ d, GetDelegation (dw_store world_bonded) 1 (sample "v") (sample "a") = Some d ∧
       d_State d = BONDED ∧
       owed (dw_store (Unbond ctx unbond_request world_bonded).2) = owed (dw_store world_bonded).
Proof.
  destruct (unbond_only_unlocked ctx unbond_request world_bonded
    (Unbond ctx unbond_request world_bonded).2) as
    (v & x & d & st & Hv & Hx & Hd & _ & Hb & _ & _ & _ & _ & Ho); [apply bonded_keyed|apply run_ok; by vm_compute|].
  exists d. cbn [unbond_request uq_ValidatorAddress uq_Index] in Hv, Hd.
  injection Hv as <-. split_and!; done.
Defined.

Lemma oracle_guard_witness :
  ∃ e, run_oracle ctx (CallSetElectionCycle 5) world = (Err e, world).
Proof. apply oracle_methods_are_guarded. by vm_compute. Defined.

Definition oracle_ctx : Ctx := sample_ctx (sample "o") 1000.

Lemma validator_count_witness :
  p_ValidatorCount ∘ st_Params <$> ds_state (dw_store (SetValidatorCount oracle_ctx 5 world).2)
    = Some 21.
Proof.
  pose proof (set_validator_count_ignores_request oracle_ctx 5 world ltac:(by vm_compute)) as H.
  destruct (SetValidatorCount oracle_ctx 5 world) as [r w']. cbn [snd].
  destruct H as (_ & -> & _). by vm_compute.
Defined.

Definition batch : list BatchRequest :=
  [mkBatchRequest (BatchRequest_WhitelistCandidate
     (mkWhitelistRequest (Some (sample "v")) (Some 100) 1)) (Some (mkMeta 10 2 1))].

Lemma request_batch_witness :
  let w' := (ProcessRequestBatch oracle_ctx batch world).2 in
  (ProcessRequestBatch oracle_ctx batch world).1 = Ok () ∧
  ∃ e, ProcessRequestBatch oracle_ctx batch w' = (Err e, w').
Proof.
  intros w'. split; [by vm_compute|].
  apply (request_batch_not_replayable oracle_ctx oracle_ctx batch world w').
  apply run_ok. by vm_compute.
Defined.
End CallWitness.
