(* ===== verification/DposElectionTheorems.v ===== *)
(** * What elections do

    Theorems on [DposElection]: when an election takes place and what it
    changes, who is elected, that the result does not depend on the iteration
    order of Go's maps, how settling a delegation changes what the contract
    owes, and how faults are recorded and applied. *)

From S2P Require Import Prelude Contract Coin DposTypes DposMath DposStorage DposHandlers DposElection DposCallTheorems.

(** ** What settling leaves alone

    Rewards, slashing and settling only touch delegation records. *)

Definition delegations_only (s s' : DposStore) : Prop :=
  ds_state s' = ds_state s ∧ ds_candidates s' = ds_candidates s ∧
  ds_statistics s' = ds_statistics s ∧ ds_referrers s' = ds_referrers s ∧
  ds_tally s' = ds_tally s.

Section Frame.
Context {LIB : DiademLib} {L : Type} {TOKEN : ERC20 L}.
Abbreviation W := (DWorld L).

Lemma SetDelegation_only d s0 s :
  delegations_only s0 s → delegations_only s0 (SetDelegation d s).
Proof. unfold SetDelegation. cbn. by destruct (GetDelegation _ _ _ _). Qed.

Lemma DeleteDelegation_only d s0 s :
  delegations_only s0 s → delegations_only s0 (DeleteDelegation d s).
Proof. done. Qed.

Lemma IncreaseRewardDelegation_only v d x s0 s :
  delegations_only s0 s → delegations_only s0 (IncreaseRewardDelegation v d x s).
Proof. apply SetDelegation_only. Qed.

(** The world changed only in its delegations, ledger and events. *)
Definition frame (s0 : DposStore) (w : W) : Prop := delegations_only s0 (dw_store w).

Lemma preserves_on_store (I : DposStore → Prop) (f : DposStore → DposStore) :
  (∀ s, I s → I (f s)) → preserves (λ w : W, I (dw_store w)) (on_store f).
Proof. intros H w Hw. by apply H. Qed.

Lemma preserves_from_store {A} (I : W → Prop) (f : DposStore → A) : preserves I (from_store f).
Proof. apply preserves_gets. Qed.

Lemma preserves_get_state (I : W → Prop) : preserves I get_state.
Proof. by intros w. Qed.

Lemma frame_set s0 d : preserves (frame s0) (on_store (SetDelegation d)).
Proof. apply preserves_on_store. intros s. apply SetDelegation_only. Qed.

Lemma frame_delete s0 d : preserves (frame s0) (on_store (DeleteDelegation d)).
Proof. apply preserves_on_store. intros s. apply DeleteDelegation_only. Qed.

Lemma frame_increase s0 v d x : preserves (frame s0) (on_store (IncreaseRewardDelegation v d x)).
Proof. apply preserves_on_store. intros s. apply IncreaseRewardDelegation_only. Qed.

Lemma frame_transfer s0 ctx coin to x : preserves (frame s0) (ERC20_Transfer ctx coin to x).
Proof. by apply preserves_zoom. Qed.

Lemma frame_loadCoin s0 : preserves (frame s0) loadCoin.
Proof. apply preserves_bind; [apply preserves_get_state|]. intros. apply preserves_deref. Qed.
End Frame.

#[export] Hint Resolve preserves_from_store preserves_get_state frame_set frame_delete
  frame_increase frame_transfer frame_loadCoin : preserves.

Section FrameElection.
Context {LIB : DiademLib} {L : Type} {TOKEN : ERC20 L}.
Abbreviation W := (DWorld L).
Context (s0 : DposStore).

Lemma frame_slash statistic v :
  preserves (frame (L := L) s0) (slashValidatorDelegations statistic v).
Proof. unfold slashValidatorDelegations. pres. Qed.

Lemma frame_rewardReferrers state c ds x :
  preserves (frame (L := L) s0) (rewardReferrers state c ds x).
Proof. unfold rewardReferrers. pres. Qed.

Lemma frame_rewardFaultless state c st ds :
  preserves (frame (L := L) s0) (rewardFaultless state c st ds).
Proof. pose proof frame_rewardReferrers. unfold rewardFaultless. pres. Qed.

Lemma frame_rewardValidator ds rw v :
  preserves (frame (L := L) s0) (rewardValidator ds rw v).
Proof.
  pose proof frame_rewardFaultless. pose proof frame_slash. unfold rewardValidator. pres.
Qed.

Lemma frame_settleDelegation ctx former rewards totals d :
  preserves (frame (L := L) s0) (settleDelegation ctx former rewards totals d).
Proof.
  unfold settleDelegation, delegationRewards, settleUpdate, finishUpdate. pres.
Qed.

Lemma frame_rewardAndSlash ctx state :
  preserves (frame (L := L) s0) (rewardAndSlash ctx state).
Proof.
  pose proof frame_rewardValidator. pose proof frame_settleDelegation.
  unfold rewardAndSlash, distributeDelegatorRewards, MustParseAddress. pres.
Qed.
End FrameElection.

(** ** The course of an election *)

Section Course.
Context {LIB : DiademLib} {SPEC : DiademLibSpec} {L : Type} {TOKEN : ERC20 L}.
Abbreviation W := (DWorld L).
Implicit Types (w : W) (s : DposStore).

(** The validator a result is elected as, if it is. *)
Definition elected_of s (res : DelegationResult) : option Validator :=
  candidate ← GetCandidate s (dr_ValidatorAddress res);
  if IsPositive (dr_DelegationTotal res)
  then Some (mkValidator (c_PubKey candidate) (i64 (dr_DelegationTotal res / powerCorrection)))
  else None.

Definition elected_total s (res : DelegationResult) : Z :=
  match elected_of s res with Some _ => dr_DelegationTotal res | None => 0 end.

(** Two stores with the same state and candidates. *)
Definition same_roster s s' : Prop :=
  ds_state s' = ds_state s ∧ ds_candidates s' = ds_candidates s.

Lemma GetCandidate_roster s s' a : same_roster s s' → GetCandidate s' a = GetCandidate s a.
Proof. intros [_ H]. unfold GetCandidate, loadCandidateList. by rewrite H. Qed.

Lemma elected_of_roster s s' res : same_roster s s' → elected_of s' res = elected_of s res.
Proof. intros H. unfold elected_of. by rewrite (GetCandidate_roster s s'). Qed.

Lemma omap_elected_roster s s' (l : list DelegationResult) :
  same_roster s s' → omap (elected_of s') l = omap (elected_of s) l.
Proof.
  intros H. apply list_omap_ext, Forall2_same_length_lookup_2; [done|]. intros i x y Hx Hy.
  assert (x = y) as -> by congruence. by apply elected_of_roster.
Qed.

Lemma total_elected_roster s s' (l : list DelegationResult) :
  same_roster s s' → sumZ (elected_total s') l = sumZ (elected_total s) l.
Proof.
  intros H. apply sumZ_ext. intros x _. unfold elected_total. by rewrite (elected_of_roster _ _ _ H).
Qed.

Lemma electResult_run vs t res w :
  ∃ w', electResult (vs, t) res w =
          (Ok (vs ++ option_list (elected_of (dw_store w) res),
               t + elected_total (dw_store w) res), w') ∧
        same_roster (dw_store w) (dw_store w').
Proof.
  unfold electResult, elected_total, elected_of, from_store. m_eval.
  destruct (GetCandidate _ _) as [c|]; cbn [mbind option_bind].
  - destruct (IsPositive _); cbn.
    + eexists. split; [reflexivity|]. done.
    + exists w. rewrite app_nil_r, Z.add_0_r. done.
  - exists w. cbn. rewrite app_nil_r, Z.add_0_r. done.
Qed.

Lemma electResults_run elected vs t w :
  ∃ w', foldM electResult (vs, t) elected w =
          (Ok (vs ++ omap (elected_of (dw_store w)) elected,
               t + sumZ (elected_total (dw_store w)) elected), w') ∧
        same_roster (dw_store w) (dw_store w').
Proof.
  revert vs t w. induction elected as [|res elected IH]; intros vs t w.
  { exists w. cbn. rewrite app_nil_r, Z.add_0_r. done. }
  destruct (electResult_run vs t res w) as (w1 & H1 & Hr1).
  destruct (IH (vs ++ option_list (elected_of (dw_store w) res))
    (t + elected_total (dw_store w) res) w1) as (w2 & H2 & Hr2).
  exists w2. cbn [foldM]. rewrite (bind_ok _ _ _ _ _ H1), H2. split.
  - rewrite (omap_elected_roster _ _ _ Hr1), (total_elected_roster _ _ _ Hr1).
    cbn. rewrite Z.add_assoc, <- app_assoc. by destruct (elected_of (dw_store w) res).
  - destruct Hr1, Hr2. split; congruence.
Qed.

Definition too_early (ctx : Ctx) (state : State) : bool :=
  i64 (ctx_now ctx - st_LastElectionTime state) <? p_ElectionCycleLength (st_Params state).

Lemma electedResults_inv n results (w : W) elected w' :
  electedResults n results w = (Ok elected, w') →
  w' = w ∧ elected = take (Z.to_nat (i64 n)) results.
Proof.
  unfold electedResults. cbv zeta.
  destruct (Z.ltb_spec (Z.of_nat (length results)) (i64 n)) as [Hlt|Hge];
    match goal with |- context [?x <? 0] => destruct (Z.ltb_spec x 0) end; try done;
    intros [= <- <-]; (split; [done|]); [|done]. rewrite !take_ge; [done|lia|lia].
Qed.

(** What a successful [Elect] has done. *)
Record election_run (ctx : Ctx) (w w' : W) (state state1 : State)
    (results elected : list DelegationResult) (w1 : W) : Prop := {
  er_settled : rewardAndSlash ctx state w = (Ok (state1, results), w1);
  er_frame : delegations_only (dw_store w) (dw_store w1);
  er_elected : elected = take (Z.to_nat (i64 (p_ValidatorCount (st_Params state1)))) results;
  er_state : ds_state (dw_store w') =
    if IsPositive (sumZ (elected_total (dw_store w)) elected)
    then Some (st_with_Validators (sortValidators (applyPowerCap
                 (omap (elected_of (dw_store w)) elected)))
                (mkState (st_Params state1) (applyPowerCap
                   (omap (elected_of (dw_store w)) elected)) (ctx_now ctx)
                   (sumZ (elected_total (dw_store w)) elected)
                   (st_TotalRewardDistribution state1)))
    else ds_state (dw_store w);
  er_candidates : ds_candidates (dw_store w') =
    ds_candidates (updateCandidateList (dw_store w));
}.

Lemma updateCandidateList_candidates s s' :
  ds_candidates s' = ds_candidates s →
  ds_candidates (updateCandidateList s') = ds_candidates (updateCandidateList s).
Proof. intros H. unfold updateCandidateList, loadCandidateList. by rewrite H. Qed.

Lemma Elect_inv ctx w w' :
  Elect ctx w = (Ok (), w') →
  ∃ state, ds_state (dw_store w) = Some state ∧
    ((too_early ctx state = true ∧ w' = w) ∨
     (too_early ctx state = false ∧
      ∃ state1 results elected w1, election_run ctx w w' state state1 results elected w1)).
Proof.
  unfold Elect, get_state, loadState. intros (state & w0 & Hst & H)%bind_inv.
  destruct (ds_state (dw_store w)) as [st|] eqn:Hds; [|done]. injection Hst as <- <-.
  exists st. split; [done|]. fold (too_early ctx st) in H. destruct (too_early ctx st) eqn:Early.
  { left. injection H as <-. done. }
  right. split; [done|]. apply bind_inv in H as ([state1 results] & w1 & Hrs & H).
  pose proof (frame_rewardAndSlash (dw_store w) ctx st w) as Hf. unfold wp in Hf.
  rewrite Hrs in Hf. cbn in Hf. specialize (Hf ltac:(done)).
  apply bind_inv in H as (elected & w2 & [-> Hk]%electedResults_inv & H).
  apply bind_inv in H as ([vs total] & w2 & Hfold & H).
  destruct (electResults_run elected [] 0 w1) as (w2' & Hrun & Hroster).
  rewrite Hrun in Hfold. injection Hfold as <- <- <-.
  assert (Hr : same_roster (dw_store w) (dw_store w1)) by (destruct Hf as (? & ? & _); done).
  cbn [app] in H. rewrite ?Z.add_0_l in H.
  rewrite (omap_elected_roster _ _ _ Hr), (total_elected_roster _ _ _ Hr) in H.
  exists state1, results, elected, w1.
  destruct Hroster as [Hs2 Hc2], Hr as [Hs1 Hc1].
  destruct (IsPositive _) eqn:Hpos; cbn in H; injection H as <-; split; try done;
    cbn [dw_store]; rewrite ?Hpos; try done.
  - by apply updateCandidateList_candidates; cbn; congruence.
  - change (ds_state (dw_store w2') = ds_state (dw_store w)). congruence.
  - by apply updateCandidateList_candidates; congruence.
Qed.
End Course.

(** ** Who is elected, and when *)

Section Elected.
Context {LIB : DiademLib} {SPEC : DiademLibSpec} {L : Type} {TOKEN : ERC20 L}.
Abbreviation W := (DWorld L).
Implicit Types (w : W) (s : DposStore).

Lemma rewardValidator_params ds rw v w rw' w' :
  rewardValidator ds rw v w = (Ok rw', w') →
  st_Params (rw_state rw') = st_Params (rw_state rw).
Proof.
  unfold rewardValidator. intros (c & w1 & [-> ->]%gets_inv & H)%bind_inv.
  destruct (GetCandidateByPubKey _ _) as [c|]; [|by apply ret_inv in H as [-> _]].
  apply bind_inv in H as (st & w1 & [-> ->]%gets_inv & H).
  destruct (GetStatistic _ _) as [st|]; [|by apply ret_inv in H as [-> _]].
  apply bind_inv in H as (p & w1 & [_ ->]%deref_inv & H).
  apply bind_inv in H as ([rewards state] & w1 & Hr & H).
  apply bind_inv in H as (t & w2 & [_ ->]%deref_inv & H). apply ret_inv in H as [-> _]. cbn.
  destruct (IsZero p).
  - apply bind_inv in Hr as ([state1 share] & w2 & Hr & H2). apply ret_inv in H2 as [[= -> ->] _].
    unfold rewardFaultless in Hr.
    repeat match type of Hr with (_ ≫= _) _ = _ => apply bind_inv in Hr as (? & ? & _ & Hr) end.
    by apply ret_inv in Hr as [[= -> ->] _].
  - apply bind_inv in Hr as (? & ? & _ & Hr). by apply ret_inv in Hr as [[= -> ->] _].
Qed.

Lemma rewardValidators_params ds vs rw w rw' w' :
  foldM (rewardValidator ds) rw vs w = (Ok rw', w') →
  st_Params (rw_state rw') = st_Params (rw_state rw).
Proof.
  revert rw w. induction vs as [|v vs IH]; intros rw w H.
  - by apply ret_inv in H as [-> _].
  - cbn [foldM] in H. apply bind_inv in H as (rw1 & w1 & H1 & H2).
    apply IH in H2. apply rewardValidator_params in H1. congruence.
Qed.

Lemma rewardAndSlash_inv ctx state w state1 results w1 :
  rewardAndSlash ctx state w = (Ok (state1, results), w1) →
  st_Params state1 = st_Params state ∧
  StronglySorted (sort_le lessDelegationTotal) results.
Proof.
  unfold rewardAndSlash. intros (ds & w2 & _ & H)%bind_inv.
  apply bind_inv in H as (rw & w3 & Hrw & H). apply rewardValidators_params in Hrw.
  apply bind_inv in H as (totals & w4 & _ & H). apply bind_inv in H as (rs & w5 & _ & H).
  apply ret_inv in H as [[= -> ->] _]. split; [done|]. apply go_sort_sorted. apply _.
Qed.

Lemma elected_total_pos s r v : elected_of s r = Some v → 0 < elected_total s r.
Proof.
  unfold elected_total. intros H. rewrite H. unfold elected_of in H.
  destruct (GetCandidate _ _); [|done]. cbn in H.
  destruct (IsPositive _) eqn:E; [|done]. unfold IsPositive in E. lia.
Qed.

Lemma elected_total_nonneg s r : 0 <= elected_total s r.
Proof.
  destruct (elected_of s r) eqn:E; [by apply elected_total_pos in E; lia|].
  unfold elected_total. by rewrite E.
Qed.

Lemma elected_sum_pos s (l : list DelegationResult) :
  omap (elected_of s) l ≠ [] → 0 < sumZ (elected_total s) l.
Proof.
  induction l as [|r l IH]; [done|]. cbn.
  pose proof (sumZ_nonneg (elected_total s) l) as Hl.
  specialize (Hl ltac:(intros; apply elected_total_nonneg)).
  pose proof (elected_total_nonneg s r). destruct (elected_of s r) eqn:E.
  - intros _. apply elected_total_pos in E. fold (sumZ (elected_total s) l). lia.
  - intros Hne%IH. fold (sumZ (elected_total s) l). lia.
Qed.

Lemma elected_sum_none s (l : list DelegationResult) :
  omap (elected_of s) l = [] → sumZ (elected_total s) l = 0.
Proof.
  induction l as [|r l IH]; [done|]. cbn. destruct (elected_of s r) eqn:E; [done|].
  intros H%IH. fold (sumZ (elected_total s) l). rewrite H. unfold elected_total. by rewrite E.
Qed.

Lemma StronglySorted_take_drop {A} (R : A → A → Prop) l k x y :
  StronglySorted R l → x ∈ take k l → y ∈ drop k l → R x y.
Proof.
  intros Hs Hx Hy. rewrite <- (take_drop k l) in Hs.
  revert Hs Hx. generalize (take k l). intros pre. induction pre as [|z pre IH]; [set_solver|].
  cbn. intros Hs [->|Hx]%elem_of_cons; apply StronglySorted_inv in Hs as [Hs Hz]; [|auto].
  rewrite Forall_forall in Hz. apply Hz. set_solver.
Qed.

(** C6. An election that takes place elects the first [ValidatorCount] results in
    the order of their delegation totals: nobody who is left out has a larger
    total than somebody who is in.  Those of them that are registered candidates
    with a positive total become validators with the power cap applied, under
    the public keys of the candidates; if there is none the stored state, with
    the validators of the last election, stays. *)
Theorem election_picks_largest_totals ctx w w' state :
  ds_state (dw_store w) = Some state → too_early ctx state = false →
  Elect ctx w = (Ok (), w') →
  let k := Z.to_nat (i64 (p_ValidatorCount (st_Params state))) in
  ∃ state1 results w1,
    rewardAndSlash ctx state w = (Ok (state1, results), w1) ∧
    (∀ r r', r ∈ take k results → r' ∈ drop k results →
       dr_DelegationTotal r' <= dr_DelegationTotal r) ∧
    let validators := omap (elected_of (dw_store w)) (take k results) in
    Forall (λ v, ∃ c, c ∈ loadCandidateList (dw_store w) ∧ c_PubKey c = v_PubKey v) validators ∧
    if decide (validators = []) then ds_state (dw_store w') = Some state
    else ∃ state', ds_state (dw_store w') = Some state' ∧
         st_Validators state' ≡ₚ applyPowerCap validators ∧
         st_LastElectionTime state' = ctx_now ctx ∧ st_Params state' = st_Params state.
Proof.
  intros Hst Hearly (st & Hst' & [[Ht _]|(_ & state1 & results & elected & w1 & Hrun)])%Elect_inv;
    [congruence|].
  assert (st = state) as -> by congruence.
  destruct Hrun as [Hrs _ -> Hstate _].
  destruct (rewardAndSlash_inv _ _ _ _ _ _ Hrs) as [Hparams Hsorted].
  rewrite Hparams in Hstate. cbv zeta. set (k := Z.to_nat _) in *.
  exists state1, results, w1. split_and!; try done.
  - intros r r' Hr Hr'. apply sort_le_delegation_total.
    by eapply StronglySorted_take_drop.
  - apply Forall_forall. intros v (r & Hr & Hv)%list_elem_of_omap.
    unfold elected_of in Hv. destruct (GetCandidate _ _) as [c|] eqn:Hc; [|done].
    cbn in Hv. destruct (IsPositive (dr_DelegationTotal r)); [|done]. injection Hv as <-. exists c. split; [|done].
    unfold GetCandidate in Hc. by apply List.find_some in Hc as [?%list_elem_of_In _].
  - rewrite Hstate. case_decide as Hne; [by rewrite (elected_sum_none _ _ Hne)|].
    apply elected_sum_pos in Hne as Hpos.
    unfold IsPositive. rewrite (proj2 (Z.ltb_lt _ _) Hpos). eexists. split; [reflexivity|].
    split_and!; [|done|done]. cbn. unfold sortValidators. apply go_sort_permutation.
Qed.

(** Elections are at least one cycle apart: once an election has elected
    validators, another call before the cycle is over changes nothing. *)
Theorem no_second_election_in_cycle ctx ctx' w w' state state' :
  ds_state (dw_store w) = Some state → too_early ctx state = false →
  Elect ctx w = (Ok (), w') →
  ds_state (dw_store w') = Some state' → st_LastElectionTime state' ≠ st_LastElectionTime state →
  0 <= ctx_now ctx' - ctx_now ctx < p_ElectionCycleLength (st_Params state) →
  p_ElectionCycleLength (st_Params state) < 2 ^ 63 →
  Elect ctx' w' = (Ok (), w').
Proof.
  intros Hst Hearly (st & Hst' & [[Ht _]|(_ & state1 & results & elected & w1 & Hrun)])%Elect_inv
    Hs' Hne Hnow Hcycle; [congruence|].
  assert (st = state) as -> by congruence. destruct Hrun as [Hrs _ _ Hstate _].
  apply rewardAndSlash_inv in Hrs as [Hparams _]. rewrite Hs' in Hstate.
  destruct (IsPositive _); [|congruence]. injection Hstate as ->.
  unfold Elect, get_state, loadState. m_eval. rewrite Hs'. cbn [st_with_Validators
    st_Params st_LastElectionTime]. rewrite Hparams, i64_small by lia.
  by rewrite (proj2 (Z.ltb_lt _ _)) by lia.
Qed.

(** The outcome of an election does not depend on the order in which Go
    iterates over the map of totals: the sorted result list is the only sorted
    arrangement of the results. *)
Theorem election_order_unique ctx state w state1 results w1 l :
  rewardAndSlash ctx state w = (Ok (state1, results), w1) →
  l ≡ₚ results → StronglySorted (sort_le lessDelegationTotal) l → l = results.
Proof.
  intros [_ Hs]%rewardAndSlash_inv Hp Hl.
  apply (StronglySorted_sort_unique lessDelegationTotal);
    auto using lessDelegationTotal_distinguishes.
Qed.
End Elected.

(** ** Faults *)

(** Statistics are stored under the local address they carry. *)
Definition statistics_keyed (s : DposStore) : Prop :=
  ∀ k st, ds_statistics s !! k = Some st → Local (vs_Address st) = k.

Definition slash_of (s : DposStore) (addr : bytes) : option Z :=
  st ← GetStatisticByAddressBytes s addr; vs_SlashPercentage st.

Inductive Fault := Inactivity | DoubleSign.

Section Faults.
Context {LIB : DiademLib} {L : Type}.
Abbreviation W := (DWorld L).
Implicit Types (w : W) (s : DposStore).

Definition run_fault (addr : bytes) (f : Fault) : M W unit :=
  match f with Inactivity => SlashInactivity addr | DoubleSign => SlashDoubleSign addr end.

Definition fault_percentage (crash byzantine : Z) (f : Fault) : Z :=
  match f with Inactivity => crash | DoubleSign => byzantine end.

(** The accumulated percentage after one more fault. *)
Definition add_fault (current p : Z) : Z := if p <? current then current else current + p.

Lemma statistics_keyed_Set st s : statistics_keyed s → statistics_keyed (SetStatistic st s).
Proof.
  intros Hs k st'. cbn. rewrite lookup_insert. case_decide; [|apply Hs]. intros [= <-]. done.
Qed.

Lemma run_fault_run addr f w state crash byzantine current :
  statistics_keyed (dw_store w) →
  ds_state (dw_store w) = Some state →
  p_CrashSlashingPercentage (st_Params state) = Some crash →
  p_ByzantineSlashingPercentage (st_Params state) = Some byzantine →
  slash_of (dw_store w) addr = Some current →
  ∃ w', run_fault addr f w = (Ok (), w') ∧
    slash_of (dw_store w') addr =
      Some (add_fault current (fault_percentage crash byzantine f)) ∧
    statistics_keyed (dw_store w') ∧ ds_state (dw_store w') = Some state.
Proof.
  intros Hk Hst Hc Hb Hs. unfold slash_of in Hs.
  destruct (GetStatisticByAddressBytes (dw_store w) addr) as [st|] eqn:Hget; [|done].
  cbn in Hs. unfold add_fault.
  assert (Hrun : ∀ p, ∃ w', slash addr p w = (Ok (), w') ∧
    slash_of (dw_store w') addr = Some (if p <? current then current else current + p) ∧
    statistics_keyed (dw_store w') ∧ ds_state (dw_store w') = Some state).
  { intros p. unfold slash, from_store. m_eval. rewrite Hget. cbn. rewrite Hs.
    destruct (p <? current).
    - exists w. split_and!; try done. unfold slash_of. by rewrite Hget.
    - eexists. split; [reflexivity|]. cbn [dw_store].
      split_and!; [|by apply statistics_keyed_Set|done].
      unfold slash_of, GetStatisticByAddressBytes. cbn.
      rewrite (Hk _ _ Hget), lookup_insert_eq. done. }
  unfold run_fault, SlashInactivity, SlashDoubleSign, get_state, loadState.
  destruct f; cbn [fault_percentage].
  - destruct (Hrun crash) as (w' & H & ?). exists w'. split; [|done].
    m_eval. by rewrite Hst, Hc.
  - destruct (Hrun byzantine) as (w' & H & ?). exists w'. split; [|done].
    m_eval. by rewrite Hst, Hb.
Qed.

Lemma add_fault_bound current p m :
  0 <= current <= 2 * m → 0 <= p <= m → 0 <= add_fault current p <= 2 * m.
Proof. unfold add_fault. intros. destruct (Z.ltb_spec p current); lia. Qed.

Lemma run_faults faults addr w state crash byzantine current :
  statistics_keyed (dw_store w) →
  ds_state (dw_store w) = Some state →
  p_CrashSlashingPercentage (st_Params state) = Some crash →
  p_ByzantineSlashingPercentage (st_Params state) = Some byzantine →
  slash_of (dw_store w) addr = Some current →
  ∃ w', forM faults (run_fault addr) w = (Ok (), w') ∧
    slash_of (dw_store w') addr =
      Some (foldl add_fault current (fault_percentage crash byzantine <$> faults)).
Proof.
  revert w current. induction faults as [|f faults IH]; intros w current Hk Hst Hc Hb Hs.
  { exists w. split; done. }
  destruct (run_fault_run addr f w state crash byzantine current) as (w1 & H1 & Hs1 & Hk1 & Hst1);
    try done.
  destruct (IH w1 _ Hk1 Hst1 Hc Hb Hs1) as (w2 & H2 & Hs2). exists w2.
  unfold forM in *. cbn [foldM]. rewrite (bind_ok _ _ _ _ _ H1). split; [exact H2|exact Hs2].
Qed.

(** Between two elections a validator can report any number of faults, and
    each is recorded without failing; the accumulated slashing percentage never
    exceeds twice the larger of the two configured percentages. *)
Theorem faults_bounded faults addr w state crash byzantine :
  statistics_keyed (dw_store w) →
  ds_state (dw_store w) = Some state →
  p_CrashSlashingPercentage (st_Params state) = Some crash →
  p_ByzantineSlashingPercentage (st_Params state) = Some byzantine →
  0 <= crash → 0 <= byzantine →
  slash_of (dw_store w) addr = Some 0 →
  ∃ w' p, forM faults (run_fault addr) w = (Ok (), w') ∧
    slash_of (dw_store w') addr = Some p ∧ 0 <= p <= 2 * Z.max crash byzantine.
Proof.
  intros Hk Hst Hc Hb Hc0 Hb0 Hs.
  destruct (run_faults faults addr w state crash byzantine 0) as (w' & H & Hs'); try done.
  exists w', (foldl add_fault 0 (fault_percentage crash byzantine <$> faults)).
  split_and!; try done; clear H Hs';
    (assert (Hb1 : ∀ current, 0 <= current <= 2 * Z.max crash byzantine →
       0 <= foldl add_fault current (fault_percentage crash byzantine <$> faults)
         <= 2 * Z.max crash byzantine); [|apply Hb1; lia]);
    induction faults as [|f faults IH]; intros current Hcur; csimpl; auto;
    apply IH, add_fault_bound; auto; destruct f; cbn; lia.
Qed.

(** Two double signs in one cycle slash twice the double-sign percentage,
    which is more than the sum of the two percentages whenever double signs are
    slashed harder than inactivity. *)
Theorem two_double_signs_exceed_sum addr w state crash byzantine :
  statistics_keyed (dw_store w) →
  ds_state (dw_store w) = Some state →
  p_CrashSlashingPercentage (st_Params state) = Some crash →
  p_ByzantineSlashingPercentage (st_Params state) = Some byzantine →
  0 <= crash < byzantine →
  slash_of (dw_store w) addr = Some 0 →
  ∃ w' p, forM [DoubleSign; DoubleSign] (run_fault addr) w = (Ok (), w') ∧
    slash_of (dw_store w') addr = Some p ∧ p = 2 * byzantine ∧ crash + byzantine < p.
Proof.
  intros Hk Hst Hc Hb Hlt Hs.
  destruct (run_faults [DoubleSign; DoubleSign] addr w state crash byzantine 0)
    as (w' & H & Hs'); try done.
  exists w', (2 * byzantine). rewrite Hs'. split_and!; try done; [|lia]. csimpl. unfold add_fault.
  rewrite (proj2 (Z.ltb_ge byzantine 0)) by lia.
  rewrite (proj2 (Z.ltb_ge _ _)) by lia. f_equal. lia.
Qed.
End Faults.

(** ** Slashing is never reset *)

Section SlashKept.
Context {LIB : DiademLib} {SPEC : DiademLibSpec} {L : Type} {TOKEN : ERC20 L}.
Abbreviation W := (DWorld L).

(** The slashing percentages of [s0] are still there. *)
Definition slash_kept (s0 s : DposStore) : Prop :=
  statistics_keyed s ∧ ∀ a p, slash_of s0 a = Some p → slash_of s a = Some p.

Lemma slash_kept_same s0 s s' :
  ds_statistics s' = ds_statistics s → slash_kept s0 s → slash_kept s0 s'.
Proof.
  intros Heq [Hk Hs]. unfold slash_kept, statistics_keyed, slash_of, GetStatisticByAddressBytes in *.
  by rewrite Heq.
Qed.

Lemma slash_kept_Set s0 s st :
  slash_kept s0 s →
  (∀ st', ds_statistics s !! Local (vs_Address st) = Some st' →
     vs_SlashPercentage st = vs_SlashPercentage st') →
  slash_kept s0 (SetStatistic st s).
Proof.
  intros [Hk Hs] Hst. split; [by apply statistics_keyed_Set|]. intros a p Hp%Hs.
  unfold slash_of, GetStatisticByAddressBytes in *. cbn. rewrite lookup_insert. case_decide as Ha.
  - subst a. destruct (ds_statistics s !! _) as [st'|]; [|done]. cbn in *. by rewrite (Hst st').
  - done.
Qed.

Lemma electResult_keeps s0 acc res :
  preserves (λ w : W, slash_kept s0 (dw_store w)) (electResult acc res).
Proof.
  destruct acc as [vs t]. intros w Hw. unfold wp, electResult, from_store. m_eval.
  destruct (GetCandidate (dw_store w) _) as [c|] eqn:Hc; [|done].
  destruct (IsPositive _); [|done]. cbn [fst snd on_store modify dw_store].
  apply slash_kept_Set; [done|]. unfold GetCandidate in Hc.
  apply List.find_some in Hc as [_ Hc%isAt_true]. unfold cand_local in Hc.
  unfold GetStatistic, GetStatisticByAddressBytes.
  destruct (ds_statistics (dw_store w) !! Local (c_Address c)) as [st|] eqn:Hst; intros st'; cbn.
  - destruct Hw as [Hk _]. rewrite (Hk _ _ Hst), Hst. congruence.
  - rewrite <- Hc, Hst. done.
Qed.

Lemma rewardAndSlash_keeps s0 ctx state :
  preserves (λ w : W, slash_kept s0 (dw_store w)) (rewardAndSlash ctx state).
Proof.
  intros w Hw. pose proof (frame_rewardAndSlash (dw_store w) ctx state w ltac:(done)) as Hf.
  unfold wp in *. destruct Hf as (_ & _ & Hf & _). by eapply slash_kept_same.
Qed.

Lemma Elect_keeps s0 ctx : preserves (λ w : W, slash_kept s0 (dw_store w)) (Elect ctx).
Proof.
  pose proof rewardAndSlash_keeps. pose proof electResult_keeps.
  unfold Elect, electedResults, emitElectionEvent, emit.
  pres; apply preserves_on_store; intros ?; by apply slash_kept_same.
Qed.

(** An election applies the recorded slashing percentages to the
    delegations but leaves them recorded, although the code resets them in
    memory: a slashed validator has the same percentage after the election and
    is slashed again, and not rewarded, at every later one. *)
Theorem slash_percentage_survives_election ctx (w : W) a p :
  statistics_keyed (dw_store w) →
  slash_of (dw_store w) a = Some p →
  slash_of (dw_store (Elect ctx w).2) a = Some p.
Proof.
  intros Hk Hp. by apply (Elect_keeps (dw_store w) ctx w ltac:(done)).
Qed.
End SlashKept.

(** ** Settling a delegation *)

Section Settling.
Context {LIB : DiademLib} {L : Type} {TOKEN : ERC20 L}.
Abbreviation W := (DWorld L).
Implicit Types (w : W) (s : DposStore).

Lemma owed_Increase v d x s :
  records_keyed s → owed (IncreaseRewardDelegation v d x s) = owed s + x.
Proof.
  intros Hk. unfold IncreaseRewardDelegation, GetDelegation.
  destruct (ds_delegation s !! computeDelegationsKey _ v d) as [rec|] eqn:E; rewrite owed_Set.
  - pose proof (Hk _ _ E) as Hkey. change (delegation_key (d_with_Amount _ rec)) with
      (delegation_key rec). rewrite <- Hkey, E. unfold owed_of. cbn. destruct (decide _); lia.
  - change (delegation_key _) with (computeDelegationsKey REWARD_DELEGATION_INDEX v d).
    rewrite E. change (owed_of _) with (0 + x + 0). cbn. lia.
Qed.

Lemma records_keyed_Increase v d x s :
  records_keyed s → records_keyed (IncreaseRewardDelegation v d x s).
Proof. intros. by apply records_keyed_Set. Qed.

Lemma Increase_lookup_other v d x s k :
  records_keyed s → k ≠ computeDelegationsKey REWARD_DELEGATION_INDEX v d →
  ds_delegation (IncreaseRewardDelegation v d x s) !! k = ds_delegation s !! k.
Proof.
  intros Hk Hne. unfold IncreaseRewardDelegation, GetDelegation.
  destruct (ds_delegation s !! computeDelegationsKey _ v d) as [rec|] eqn:E;
    rewrite SetDelegation_lookup; (case_decide as Heq; [|done]); destruct Hne; rewrite Heq.
  - pose proof (Hk _ _ E) as Hkey. by rewrite Hkey.
  - done.
Qed.

(** The reward a delegation gets, zero when it gets none. *)
Definition reward_of (del : Delegation) (former rewards : gmap string Z) : Z :=
  if isLimbo (d_Validator del) then 0
  else
    match rewards !! address_string (d_Validator del),
          former !! address_string (d_Validator del) with
    | Some r, Some t => calculateShare (calculateWeightedDelegationAmount del) t r
    | _, _ => 0
    end.

(** The tokens paid out when it is settled. *)
Definition paid (del : Delegation) : Z :=
  if decide (d_State del = UNBONDING) then d_UpdateAmount del else 0.

Lemma delegationRewards_inv del former rewards w u w' :
  records_keyed (dw_store w) →
  delegationRewards del former rewards w = (Ok u, w') →
  records_keyed (dw_store w') ∧ dw_ledger w' = dw_ledger w ∧
  ds_state (dw_store w') = ds_state (dw_store w) ∧
  owed (dw_store w') = owed (dw_store w) + reward_of del former rewards ∧
  ∀ k, k ≠ computeDelegationsKey REWARD_DELEGATION_INDEX (d_Validator del) (d_Delegator del) →
    ds_delegation (dw_store w') !! k = ds_delegation (dw_store w) !! k.
Proof.
  intros Hk. unfold delegationRewards, reward_of.
  destruct (isLimbo _); [intros [-> ->]%ret_inv; split_and!; (done || lia)|].
  destruct (rewards !! _) as [r|]; [|intros [-> ->]%ret_inv; split_and!; (done || lia)].
  intros (t & w1 & [-> ->]%deref_inv & H)%bind_inv. injection H as _ <-. cbn [dw_store dw_ledger].
  split_and!; [by apply records_keyed_Increase|done| |by apply owed_Increase|].
  - unfold IncreaseRewardDelegation, SetDelegation. cbn. by destruct (GetDelegation _ _ _ _).
  - intros k Hne. by apply Increase_lookup_other.
Qed.

Lemma reset_key ctx d : delegation_key (resetDelegationIfExpired ctx d) = delegation_key d.
Proof. unfold resetDelegationIfExpired. by case_match. Qed.

Lemma reset_owed ctx d : owed_of (resetDelegationIfExpired ctx d) = owed_of d.
Proof. unfold resetDelegationIfExpired. by case_match. Qed.

(** Settling a record that is stored: the record that replaces it, and what
    happens to the total. *)
Lemma finishUpdate_owed ctx del del' w r w' :
  ds_delegation (dw_store w) !! delegation_key del = Some del →
  delegation_key del' = delegation_key del → d_State del' = d_State del →
  d_Amount del' = owed_of del - paid del →
  finishUpdate ctx del' w = (Ok r, w') →
  dw_ledger w' = dw_ledger w ∧ owed (dw_store w') = owed (dw_store w) - paid del.
Proof.
  intros Hrec Hkey Hst Ha. unfold finishUpdate.
  destruct (_ && _) eqn:Hdel.
  - apply andb_true_iff in Hdel as [Hz Hu]. apply bool_decide_eq_true in Hu.
    unfold IsZero in Hz. intros H. injection H as _ <-. cbn [dw_store dw_ledger]. split; [done|].
    rewrite owed_Delete, Hkey, Hrec. cbn [from_option]. unfold paid in *.
    rewrite Hst in Hu. rewrite Hu in *. cbn in *. lia.
  - intros H. injection H as _ <-. cbn [dw_store dw_ledger]. split; [done|].
    rewrite owed_Set, reset_key, reset_owed. change (delegation_key (d_with_UpdateAmount _ _)) with
      (delegation_key del'). rewrite Hkey, Hrec. cbn [from_option].
    change (owed_of (d_with_UpdateAmount _ _)) with (d_Amount del' + 0). lia.
Qed.

(** The pending update, for a delegation that is not moving to another
    validator: its amount becomes what it was worth less what is paid out. *)
Lemma settleUpdate_inv ctx del w del' w' :
  d_State del ≠ REDELEGATING →
  settleUpdate ctx del w = (Ok del', w') →
  dw_store w' = dw_store w ∧ delegation_key del' = delegation_key del ∧
  d_State del' = d_State del ∧ d_Amount del' = owed_of del - paid del ∧
  if decide (d_State del = UNBONDING) then
    ∃ state coin, ds_state (dw_store w) = Some state ∧
      p_CoinContractAddress (st_Params state) = Some coin ∧
      erc20_transfer coin (ctx_contract ctx) (d_Delegator del) (d_UpdateAmount del) (dw_ledger w)
        = (Ok (), dw_ledger w')
  else dw_ledger w' = dw_ledger w.
Proof.
  intros Hr. unfold settleUpdate, owed_of, paid. destruct (d_State del) eqn:Hst; try done.
  - intros [-> ->]%ret_inv. split_and!; try done; cbn; repeat case_decide; (done || lia).
  - intros [-> ->]%ret_inv. split_and!; try done; cbn; repeat case_decide; (done || lia).
  - intros (coin & w1 & Hcoin & H)%bind_inv. unfold loadCoin in Hcoin.
    apply bind_inv in Hcoin as (state & w2 & Hget & [Hc ->]%deref_inv).
    unfold get_state, loadState in Hget.
    destruct (ds_state (dw_store w)) as [state'|] eqn:Hds; [|done]. injection Hget as <- <-.
    apply bind_inv in H as ([] & w1 & Ht & [-> ->]%ret_inv). unfold ERC20_Transfer, zoom in Ht.
    destruct (erc20_transfer _ _ _ _ _) as [r l] eqn:E. injection Ht as -> <-.
    split_and!; try done; [cbn; repeat case_decide; (done || lia)|].
    rewrite decide_True by done. by exists state', coin.
Qed.

Definition entry_of (del : Delegation) : DelegationIndex :=
  mkDelegationIndex (d_Validator del) (d_Delegator del) (d_Index del).

(** What settling a stored delegation does, reward delegation or not. *)
Lemma settleDelegation_inv ctx former rewards totals del w totals' w' :
  records_keyed (dw_store w) →
  ds_delegation (dw_store w) !! delegation_key del = Some del →
  d_State del ≠ REDELEGATING →
  settleDelegation ctx former rewards totals (entry_of del) w = (Ok totals', w') →
  ∃ w1 del' w2 r,
    delegationRewards del former rewards w = (Ok (), w1) ∧
    settleUpdate ctx del w1 = (Ok del', w2) ∧ finishUpdate ctx del' w2 = (Ok r, w').
Proof.
  intros Hk Hrec Hst. unfold settleDelegation, from_store.
  intros (found & w0 & [-> ->]%gets_inv & H)%bind_inv. unfold GetDelegation in H.
  change (computeDelegationsKey _ _ _) with (delegation_key del) in H. rewrite Hrec in H.
  apply bind_inv in H as ([] & w1 & H1 & H). apply bind_inv in H as (del' & w2 & H2 & H).
  apply bind_inv in H as (r & w3 & H3 & [_ ->]%ret_inv). by exists w1, del', w2, r.
Qed.

End Settling.

Section SettlingTheorems.
Context {LIB : DiademLib} {L : Type} {TOKEN : ERC20 L} {good : L → Prop}
  {TSPEC : ERC20Spec L good}.
Abbreviation W := (DWorld L).
Implicit Types (w : W) (s : DposStore).

(** C5. Settling an ordinary delegation at an election keeps the books: what the
    contract owes grows by exactly the reward of the delegation and shrinks by
    exactly the tokens paid out for an unbonding, and the contract's token
    balance shrinks by exactly those tokens. *)
Theorem settlement_keeps_books ctx former rewards totals del w totals' w' :
  records_keyed (dw_store w) →
  ds_delegation (dw_store w) !! delegation_key del = Some del →
  d_State del ≠ REDELEGATING → 1 <= d_Index del →
  good (dw_ledger w) → 0 <= d_UpdateAmount del →
  wf_address (ctx_contract ctx) → wf_address (d_Delegator del) →
  ctx_contract ctx ≠ d_Delegator del →
  settleDelegation ctx former rewards totals (entry_of del) w = (Ok totals', w') →
  owed (dw_store w') = owed (dw_store w) + reward_of del former rewards - paid del ∧
  ∀ state coin, ds_state (dw_store w) = Some state →
    p_CoinContractAddress (st_Params state) = Some coin →
    erc20_balance coin (dw_ledger w') (ctx_contract ctx) =
      erc20_balance coin (dw_ledger w) (ctx_contract ctx) - paid del.
Proof.
  intros Hk Hrec Hst Hidx Hgood Hu Hwc Hwd Hne Hrun.
  apply settleDelegation_inv in Hrun as (w1 & del' & w2 & r & H1 & H2 & H3); try done.
  apply delegationRewards_inv in H1 as (Hk1 & Hl1 & Hds & Ho1 & Hother); [|done].
  apply settleUpdate_inv in H2 as (Hs2 & Hkey & Hst' & Ha & Hl2); [|done].
  assert (Hrec1 : ds_delegation (dw_store w2) !! delegation_key del = Some del).
  { rewrite Hs2, Hother; [done|]. intros Heq%key_index_inj; [|lia|done].
    unfold REWARD_DELEGATION_INDEX in Heq. lia. }
  destruct (finishUpdate_owed ctx del del' w2 r w') as [Hl3 Ho3]; try done.
  split; [rewrite Ho3, Hs2; lia|]. intros state coin Hstate Hcoin. rewrite Hl3.
  unfold paid. case_decide as Hunb; [|rewrite Hl2, Hl1; lia].
  destruct Hl2 as (state' & coin' & Hst2 & Hc2 & Ht). rewrite Hds in Hst2.
  assert (coin' = coin) as -> by congruence. rewrite Hl1 in Ht.
  by destruct (erc20_transfer_moves coin (ctx_contract ctx) (d_Delegator del)
    (d_UpdateAmount del) (dw_ledger w) (dw_ledger w2)) as (_ & Hb & _).
Qed.

(** A reward delegation (index 0) loses the reward it earns itself: the
    reward is added to the stored record, which is then overwritten with the
    value read before, so what the contract owes does not change when a bonded
    reward delegation is settled, however large its reward. *)
Theorem reward_delegation_loses_reward ctx former rewards totals del w totals' w' :
  records_keyed (dw_store w) →
  ds_delegation (dw_store w) !! delegation_key del = Some del →
  d_State del = BONDED → d_Index del = REWARD_DELEGATION_INDEX →
  settleDelegation ctx former rewards totals (entry_of del) w = (Ok totals', w') →
  owed (dw_store w') = owed (dw_store w).
Proof.
  intros Hk Hrec Hst Hidx Hrun.
  apply settleDelegation_inv in Hrun as (w1 & del' & w2 & r & H1 & H2 & H3); [|done..|by rewrite Hst].
  apply delegationRewards_inv in H1 as (Hk1 & _ & _ & Ho1 & Hother) ; [|done].
  unfold settleUpdate in H2. rewrite Hst in H2. apply ret_inv in H2 as [-> ->].
  unfold finishUpdate in H3. rewrite Hst in H3. rewrite andb_false_r in H3. injection H3 as _ <-.
  cbn [dw_store]. unfold owed. rewrite ds_delegation_Set, reset_key.
  change (delegation_key (d_with_UpdateAmount _ _)) with (delegation_key del).
  rewrite <- (insert_delete_eq (ds_delegation (dw_store w1))).
  assert (Hdel : delete (delegation_key del) (ds_delegation (dw_store w1)) =
                 delete (delegation_key del) (ds_delegation (dw_store w))).
  { apply map_eq. intros k. rewrite !lookup_delete. case_decide; [done|].
    apply Hother. unfold delegation_key in *. rewrite Hidx in *. congruence. }
  rewrite Hdel, insert_delete_eq, map_sumZ_insert, Hrec, reset_owed. cbn [from_option].
  assert (owed_of del = d_Amount del + 0) as -> by (unfold owed_of; by rewrite Hst).
  change (owed_of (d_with_UpdateAmount _ _)) with (d_Amount del + 0). lia.
Qed.
End SettlingTheorems.

(** ** The rewards of a validator *)

Section RewardBooks.
Context {LIB : DiademLib} {L : Type}.
Abbreviation W := (DWorld L).
Implicit Types (w : W).

(** Rewarding referrers: what is owed grows by what the share loses. *)
Lemma rewardReferrers_owed state c ds share w share' w' :
  records_keyed (dw_store w) →
  rewardReferrers state c ds share w = (Ok share', w') →
  records_keyed (dw_store w') ∧ owed (dw_store w') = owed (dw_store w) + (share - share').
Proof.
  revert share w. induction ds as [|d ds IH]; intros share w Hk H.
  { apply ret_inv in H as [-> ->]. split; [done|lia]. }
  unfold rewardReferrers in H, IH. cbn [foldM] in H. apply bind_inv in H as (x & w1 & Hb & H).
  assert (Hstep : records_keyed (dw_store w1) ∧ owed (dw_store w1) = owed (dw_store w) + (share - x)).
  { destruct (_ =? 0) in Hb; [|apply ret_inv in Hb as [-> ->]; split; [done|lia]].
    apply bind_inv in Hb as (found & w2 & [-> ->]%gets_inv & Hb).
    destruct (GetDelegation _ _ _ _) as [del|]; [|apply ret_inv in Hb as [-> ->]; split; [done|lia]].
    destruct (String.eqb _ _); [apply ret_inv in Hb as [-> ->]; split; [done|lia]|].
    apply bind_inv in Hb as (ref & w2 & [-> ->]%gets_inv & Hb).
    destruct (GetReferrer _ _) as [a|]; [|apply ret_inv in Hb as [-> ->]; split; [done|lia]].
    apply bind_inv in Hb as (r & w2 & Hr & Hb). injection Hr as _ <-.
    apply bind_inv in Hb as ([] & w2 & Hs & [-> ->]%ret_inv). injection Hs as <-.
    cbn [dw_store]. split; [by apply records_keyed_Increase|]. rewrite owed_Increase by done. lia. }
  destruct Hstep as [Hk1 Ho1]. apply IH in H as [Hk2 Ho2]; [|done]. split; [done|lia].
Qed.

(** The rewards of a validator's referrers come on top of its rewards: for
    a validator without whitelist amount, what is credited to the validator and
    the referrers together with the share set aside for the delegators is the
    computed reward plus the referrers' rewards, while only the computed reward
    is recorded as distributed. *)
Theorem referrer_rewards_come_on_top state c st ds w state1 delegatorsShare w' :
  records_keyed (dw_store w) →
  vs_WhitelistAmount st = Some 0 →
  rewardFaultless state c st ds w = (Ok (state1, delegatorsShare), w') →
  ∃ total reward share w1,
    vs_DelegationTotal st = Some total ∧
    calculateRewards total (st_Params state) (st_TotalValidatorDelegations state) = Ok reward ∧
    let full := CalculateFraction (i64 (c_Fee c)) reward in
    rewardReferrers state c ds full w = (Ok share, w1) ∧
    let referrers := full - share in
    owed (dw_store w1) = owed (dw_store w) + referrers ∧
    (owed (dw_store w') - owed (dw_store w)) + delegatorsShare = reward + referrers ∧
    st_TotalRewardDistribution state1 = st_TotalRewardDistribution state + reward.
Proof.
  intros Hk Hwl H. unfold rewardFaultless in H.
  apply bind_inv in H as (total & w0 & [Htot ->]%deref_inv & H).
  apply bind_inv in H as (reward & w0 & Hrew & H). injection Hrew as Hrew <-.
  apply bind_inv in H as (share & w1 & Hshare & H).
  pose proof (rewardReferrers_owed _ _ _ _ _ _ _ Hk Hshare) as [Hk1 Ho1].
  apply bind_inv in H as ([] & w2 & Hinc & H). injection Hinc as <-.
  apply bind_inv in H as (wl & w2 & [Hwl' ->]%deref_inv & H).
  assert (wl = 0) as -> by congruence. cbn in H. injection H as <- <- <-.
  exists total, reward, share, w1. cbn [dw_store]. cbv zeta. rewrite owed_Increase by done.
  split_and!; try done; lia.
Qed.
End RewardBooks.

(** ** Witnesses *)

Module ElectionWitness.
Import SimpleLib CoinWitness CallWitness.

(** Candidate [sample "v"] is the validator of the last cycle; the delegation 1
    of [sample "a"] to it is bonded, the one of [sample "b"] is unbonding, and
    [sample "a"] has a reward delegation. *)
Definition coins : Z := 10 ^ 15.
Definition del (c : string) (i amount update : Z) (st : DelegationState) (ref : string) : Delegation :=
  mkDelegation (sample "v") (sample c) i amount update None 0 0 st ref.
Definition da : Delegation := del "a" 1 (5 * coins) 0 BONDED "friend".
Definition db : Delegation := del "b" 1 (3 * coins) (2 * coins) UNBONDING "".
Definition dr : Delegation := del "a" 0 coins 0 BONDED "".

Definition last_state : State := mkState params [mkValidator "v" 8] 0 (9 * coins) 0.
Definition stat (slashed : Z) : ValidatorStatistic :=
  mkStatistic (sample "v") "v" (Some 0) 0 (Some (9 * coins)) (Some slashed).
Definition estore (slashed : Z) : DposStore :=
  SetReferrer "friend" (sample "r")
    (SetStatistic (stat slashed)
      (SetDelegation da (SetDelegation db (SetDelegation dr
        (saveCandidateList [cand "v"; cand "u"] (saveState last_state empty_dpos_store)))))).

(** The dpos contract holds coins to pay the unbonding. *)
Definition eledger : CoinWorld :=
  mkCoinWorld (sample "C")
    (run_call (sample_ctx (sample "a") 0) (CallTransfer (sample "X") (20 * coins)) start).2.
Definition eworld (slashed : Z) : DWorld CoinWorld := mkDWorld (estore slashed) eledger [].

Lemma eledger_good : coin_wf (cw_store eledger).
Proof.
  apply coin_reachable_wf. apply reach_call; [apply start_reachable|]. cbn.
  split_and!; try (by repeat split); try done; lia.
Qed.

Lemma estore_keyed slashed : records_keyed (estore slashed).
Proof.
  intros k d. change (ds_delegation (estore slashed)) with
    (ds_delegation (SetDelegation da (SetDelegation db (SetDelegation dr empty_dpos_store)))).
  revert k d. apply records_keyed_Set, records_keyed_Set, records_keyed_Set, records_keyed_empty.
Qed.

Lemma estore_statistics slashed : statistics_keyed (estore slashed).
Proof.
  intros k st. change (ds_statistics (estore slashed)) with
    (<[Local (sample "v") := stat slashed]> (∅ : gmap bytes ValidatorStatistic)).
  rewrite lookup_insert, lookup_empty. case_decide; [|done]. by intros [= <-].
Qed.

Definition after : DWorld CoinWorld := (Elect ctx (eworld 0)).2.

Lemma after_run : Elect ctx (eworld 0) = (Ok (), after).
Proof. unfold after. apply run_ok. by vm_compute. Qed.

Lemma last_state_eq slashed : ds_state (dw_store (eworld slashed)) = Some last_state.
Proof. by vm_compute. Qed.

Lemma election_witness :
  ∃ state', ds_state (dw_store after) = Some state' ∧
    st_LastElectionTime state' = 1000 ∧ length (st_Validators state') = 1%nat.
Proof.
  destruct (election_picks_largest_totals ctx (eworld 0) after last_state)
    as (state1 & results & w1 & Hrs & _ & _ & H);
    [apply last_state_eq|by vm_compute|apply after_run|].
  assert (Hcount : length <$> (st_Validators <$> ds_state (dw_store after)) = Some 1%nat)
    by (clear; by vm_compute).
  case_decide as Hd.
  - exfalso. assert (Ht : st_LastElectionTime <$> ds_state (dw_store after) = Some 1000)
      by (clear; by vm_compute).
    rewrite H in Ht. discriminate Ht.
  - destruct H as (state' & Hst & _ & Ht & _). exists state'. rewrite Hst in Hcount.
    injection Hcount as Hcount. split_and!; [exact Hst|exact Ht|exact Hcount].
Defined.

Lemma second_election_witness :
  Elect (sample_ctx (sample "a") 1050) after = (Ok (), after).
Proof.
  destruct (ds_state (dw_store after)) as [state'|] eqn:E.
  - assert (Htime : st_LastElectionTime <$> ds_state (dw_store after) = Some 1000)
      by (by vm_compute).
    rewrite E in Htime. injection Htime as Htime.
    apply (no_second_election_in_cycle ctx (sample_ctx (sample "a") 1050) (eworld 0) after
      last_state state'); [apply last_state_eq|by vm_compute|apply after_run|done|..].
    + rewrite Htime. done.
    + cbn. lia.
    + cbn. lia.
  - assert (Hnone : is_Some (ds_state (dw_store after))) by (vm_compute; eauto).
    rewrite E in Hnone. by destruct Hnone.
Defined.

Definition results_of (r : Res (State * list DelegationResult)) : list DelegationResult :=
  match r with Ok (_, results) => results | _ => [] end.

Lemma order_unique_witness :
  let results := results_of (rewardAndSlash ctx last_state (eworld 0)).1 in
  go_sort lessDelegationTotal (reverse results) = results ∧ (0 < length results)%nat.
Proof.
  intros results. split; [|by vm_compute]. subst results.
  assert (Hok : is_ok (rewardAndSlash ctx last_state (eworld 0)).1 = true) by (by vm_compute).
  destruct (rewardAndSlash ctx last_state (eworld 0)) as [r w1] eqn:E.
  cbn [fst] in *. destruct r as [[state1 results]| |]; [|done|done].
  apply (election_order_unique ctx last_state (eworld 0) state1 results w1); [exact E|..].
  - rewrite go_sort_permutation. by rewrite reverse_Permutation.
  - apply go_sort_sorted, lessDelegationTotal_order.
Defined.

Lemma faults_witness :
  ∃ w' p, forM [Inactivity; DoubleSign; Inactivity] (run_fault (Local (sample "v"))) (eworld 0)
            = (Ok (), w') ∧
    slash_of (dw_store w') (Local (sample "v")) = Some p ∧ 0 <= p <= 1000.
Proof.
  apply (faults_bounded [Inactivity; DoubleSign; Inactivity] (Local (sample "v")) (eworld 0)
    last_state 100 500); first [apply estore_statistics|lia|by vm_compute].
Defined.

Lemma double_signs_witness :
  ∃ w' p, forM [DoubleSign; DoubleSign] (run_fault (Local (sample "v"))) (eworld 0) = (Ok (), w') ∧
    slash_of (dw_store w') (Local (sample "v")) = Some p ∧ p = 1000 ∧ 600 < p.
Proof.
  apply (two_double_signs_exceed_sum (Local (sample "v")) (eworld 0) last_state 100 500);
    first [apply estore_statistics|lia|by vm_compute].
Defined.

Lemma slash_survives_witness :
  slash_of (dw_store (Elect ctx (eworld 500)).2) (Local (sample "v")) = Some 500.
Proof.
  apply (slash_percentage_survives_election ctx (eworld 500)); [apply estore_statistics|by vm_compute].
Defined.

Definition totals0 : gmap string Z := {[ to_string (sample "v") := 9 * coins ]}.
Definition rewards0 : gmap string Z := {[ to_string (sample "v") := 900 ]}.

Lemma settlement_witness :
  let w' := (settleDelegation ctx totals0 rewards0 ∅ (entry_of db) (eworld 0)).2 in
  owed (dw_store w') =
    owed (estore 0) + reward_of db totals0 rewards0 - 2 * coins.
Proof.
  assert (Hok : is_ok (settleDelegation ctx totals0 rewards0 ∅ (entry_of db) (eworld 0)).1 = true)
    by (by vm_compute).
  destruct (settleDelegation ctx totals0 rewards0 ∅ (entry_of db) (eworld 0)) as [r w'] eqn:E.
  cbn [fst snd] in *. destruct r as [totals'| |]; [|done|done].
  refine (proj1 (settlement_keeps_books ctx totals0 rewards0 ∅ db (eworld 0) totals' w'
    _ _ _ _ _ _ _ _ _ E)).
  - apply estore_keyed.
  - by vm_compute.
  - done.
  - done.
  - apply eledger_good.
  - by vm_compute.
  - by repeat split.
  - by repeat split.
  - done.
Defined.

Lemma reward_lost_witness :
  let w' := (settleDelegation ctx totals0 rewards0 ∅ (entry_of dr) (eworld 0)).2 in
  owed (dw_store w') = owed (estore 0) ∧ 0 < reward_of dr totals0 rewards0.
Proof.
  split; [|by vm_compute].
  assert (Hok : is_ok (settleDelegation ctx totals0 rewards0 ∅ (entry_of dr) (eworld 0)).1 = true)
    by (by vm_compute).
  destruct (settleDelegation ctx totals0 rewards0 ∅ (entry_of dr) (eworld 0)) as [r w'] eqn:E.
  cbn [fst snd] in *. destruct r as [totals'| |]; [|done|done].
  apply (reward_delegation_loses_reward ctx totals0 rewards0 ∅ dr (eworld 0) totals' w'); try done.
  apply estore_keyed.
Defined.

Lemma referrer_witness :
  let r := rewardFaultless last_state (cand "v") (stat 0) (loadDelegationList (estore 0)) (eworld 0) in
  ∃ state1 share, r.1 = Ok (state1, share) ∧
    ∃ reward referrers,
      owed (dw_store r.2) - owed (estore 0) + share = reward + referrers.
Proof.
  intros r. assert (Hok : is_ok r.1 = true) by (by vm_compute).
  destruct r as [o w'] eqn:E. cbn [fst snd] in *. destruct o as [[state1 share]| |]; [|done|done].
  exists state1, share. split; [done|].
  destruct (referrer_rewards_come_on_top last_state (cand "v") (stat 0)
    (loadDelegationList (estore 0)) (eworld 0) state1 share w') as
    (total & reward & sh & w1 & _ & _ & _ & _ & H & _); [apply estore_keyed|done|exact E|].
  by eexists _, _.
Defined.
End ElectionWitness.
