(* ===== verification/DposInvariants.v ===== *)
(** * Invariants of the dpos contract

    [DposCall] are the calls that change the contract's state, elections and
    faults included, and [dpos_reachable] are the worlds reached from [Init] by
    any sequence of them, successful or not.  [dpos_inv] holds in all of them:
    records and statistics are stored under their own keys, candidates have
    distinct addresses and fees of at most 100%, and the validators are sorted
    by public key. *)

From S2P Require Import Prelude Contract Coin DposTypes DposMath DposStorage DposHandlers DposElection DposCallTheorems DposElectionTheorems.

(** A fee in basis points. *)
Definition fee_ok (x : Z) : Prop := 0 <= x <= 10000.

Definition candidate_ok (c : Candidate) : Prop :=
  fee_ok (c_Fee c) ∧ fee_ok (c_NewFee c) ∧ fee_ok (c_MaxReferralPercentage c).

Definition roster_ok (cs : list Candidate) : Prop :=
  NoDup (cand_local <$> cs) ∧ Forall candidate_ok cs.

Definition validators_sorted (s : DposStore) : Prop :=
  ∀ st, ds_state s = Some st → StronglySorted (sort_le lessPubkey) (st_Validators st).

Record dpos_inv (s : DposStore) : Prop := {
  inv_records : records_keyed s;
  inv_statistics : statistics_keyed s;
  inv_roster : roster_ok (loadCandidateList s);
  inv_validators : validators_sorted s;
}.

Section Rosters.
Context {LIB : DiademLib} {SPEC : DiademLibSpec}.

Lemma roster_ok_permutation cs cs' : cs' ≡ₚ cs → roster_ok cs → roster_ok cs'.
Proof. intros Hp [Hn Ha]. split; by rewrite Hp. Qed.

Lemma roster_ok_add c cs :
  CandidateList_Get cs (c_Address c) = None → candidate_ok c → roster_ok cs →
  roster_ok (CandidateList_Set c cs).
Proof.
  intros Hget Hc [Hn Ha]. unfold CandidateList_Set.
  assert (Hfresh : cand_local c ∉ cand_local <$> cs).
  { intros (c' & Heq & Hin)%list_elem_of_fmap. unfold CandidateList_Get in Hget.
    pose proof (List.find_none _ _ Hget c' ltac:(by apply list_elem_of_In)) as Hno.
    assert (isAt (c_Address c) c' = true) by (by apply isAt_true). congruence. }
  assert (existsb (λ candidate, local_compare (Local (c_Address c))
    (Local (c_Address candidate)) =? 0) cs = false) as ->.
  { apply not_true_is_false. intros (c' & Hin & Heq)%existsb_exists.
    apply (cmp_eqb local_compare) in Heq. apply Hfresh. apply list_elem_of_fmap. exists c'.
    split; [done|]. by apply list_elem_of_In. }
  split.
  - rewrite fmap_app. apply NoDup_app. split_and!; [done| |by apply NoDup_singleton].
    intros x Hx Hx'%list_elem_of_singleton. by subst.
  - apply Forall_app. split; [done|by constructor].
Qed.

Lemma alter_first_locals (p : Candidate → bool) f cs :
  (∀ c, cand_local (f c) = cand_local c) →
  cand_local <$> alter_first p f cs = cand_local <$> cs.
Proof.
  intros Hf. induction cs as [|c cs IH]; [done|]. cbn. destruct (p c); csimpl; [by rewrite Hf|].
  by rewrite IH.
Qed.

Lemma roster_ok_alter p f cs :
  (∀ c, cand_local (f c) = cand_local c) → (∀ c, candidate_ok c → candidate_ok (f c)) →
  roster_ok cs → roster_ok (alter_first p f cs).
Proof.
  intros Hf Hok [Hn Ha]. split; [by rewrite alter_first_locals|].
  clear Hn. induction Ha as [|c cs Hc Ha IH]; [by constructor|].
  cbn. destruct (p c); constructor; auto.
Qed.

Lemma roster_ok_update s :
  roster_ok (loadCandidateList s) → roster_ok (loadCandidateList (updateCandidateList s)).
Proof.
  intros [Hn Ha]. unfold updateCandidateList. cbn. eapply roster_ok_permutation;
    [apply go_sort_permutation|]. rewrite delete_all_eq.
  2:{ rewrite <- list_fmap_compose. erewrite list_fmap_ext; [exact Hn|].
      intros i c _. apply stepCandidate_local. }
  split.
  - apply NoDup_filter_local. rewrite <- list_fmap_compose. erewrite list_fmap_ext; [exact Hn|].
    intros i c _. apply stepCandidate_local.
  - apply Forall_forall. intros c [_ Hin]%list_elem_of_filter.
    apply list_elem_of_fmap in Hin as (c' & -> & Hin). rewrite Forall_forall in Ha.
    destruct (Ha c' Hin) as (? & ? & ?). unfold stepCandidate.
    destruct (c_State c'); split_and!; done.
Qed.
End Rosters.

(** ** Writers keep the invariant *)

Section Writers.
Context {LIB : DiademLib} {SPEC : DiademLibSpec}.
Implicit Types s : DposStore.

Lemma inv_only s s' :
  delegations_only s s' → records_keyed s' → dpos_inv s → dpos_inv s'.
Proof.
  intros (Hst & Hc & Hs & _) Hk [_ H2 H3 H4]. split.
  - done.
  - unfold statistics_keyed. by rewrite Hs.
  - unfold loadCandidateList in *. by rewrite Hc.
  - unfold validators_sorted. by rewrite Hst.
Qed.

Lemma inv_SetDelegation d s : dpos_inv s → dpos_inv (SetDelegation d s).
Proof.
  intros Hi. eapply inv_only; [|by apply records_keyed_Set, Hi|done]. by apply SetDelegation_only.
Qed.

Lemma inv_DeleteDelegation d s : dpos_inv s → dpos_inv (DeleteDelegation d s).
Proof. intros Hi. eapply inv_only; [|by apply records_keyed_Delete, Hi|done]. done. Qed.

Lemma inv_IncreaseReward v d x s : dpos_inv s → dpos_inv (IncreaseRewardDelegation v d x s).
Proof. apply inv_SetDelegation. Qed.

Lemma inv_SetStatistic st s : dpos_inv s → dpos_inv (SetStatistic st s).
Proof. intros [H1 H2 H3 H4]. split; try done. by apply statistics_keyed_Set. Qed.

Lemma inv_SetReferrer n a s : dpos_inv s → dpos_inv (SetReferrer n a s).
Proof. by intros []; split. Qed.

Lemma inv_saveTally t s : dpos_inv s → dpos_inv (saveRequestBatchTally t s).
Proof. by intros []; split. Qed.

Lemma lessPubkey_order : LessOrder lessPubkey.
Proof. apply (less_of_cmp bytes_compare v_PubKey). Qed.

Lemma inv_saveState st s : dpos_inv s → dpos_inv (saveState st s).
Proof.
  intros [H1 H2 H3 H4]. split; try done. intros st' [= <-]. cbn.
  apply go_sort_sorted, lessPubkey_order.
Qed.

Lemma inv_saveCandidates cs s : roster_ok cs → dpos_inv s → dpos_inv (saveCandidateList cs s).
Proof.
  intros Hr [H1 H2 H3 H4]. split; try done. eapply roster_ok_permutation; [|exact Hr].
  apply go_sort_permutation.
Qed.

Lemma inv_updateCandidates s : dpos_inv s → dpos_inv (updateCandidateList s).
Proof. intros [H1 H2 H3 H4]. split; try done. by apply roster_ok_update. Qed.

Lemma inv_empty : dpos_inv empty_dpos_store.
Proof.
  split; [apply records_keyed_empty| | |done].
  - intros k st. cbn. by rewrite lookup_empty.
  - split; [apply NoDup_nil_2|by constructor].
Qed.
End Writers.

(** ** Calls keep the invariant *)

Section Calls.
Context {LIB : DiademLib} {SPEC : DiademLibSpec} {L : Type} {TOKEN : ERC20 L}.
Abbreviation W := (DWorld L).
Implicit Types w : W.

Definition inv (w : W) : Prop := dpos_inv (dw_store w).

Lemma inv_on_store (f : DposStore → DposStore) :
  (∀ s, dpos_inv s → dpos_inv (f s)) → preserves inv (on_store f).
Proof. apply (preserves_on_store dpos_inv). Qed.

Lemma inv_set d : preserves inv (on_store (SetDelegation d)).
Proof. apply inv_on_store, inv_SetDelegation. Qed.
Lemma inv_delete d : preserves inv (on_store (DeleteDelegation d)).
Proof. apply inv_on_store, inv_DeleteDelegation. Qed.
Lemma inv_increase v d x : preserves inv (on_store (IncreaseRewardDelegation v d x)).
Proof. apply inv_on_store, inv_IncreaseReward. Qed.
Lemma inv_statistic st : preserves inv (on_store (SetStatistic st)).
Proof. apply inv_on_store, inv_SetStatistic. Qed.
Lemma inv_referrer n a : preserves inv (on_store (SetReferrer n a)).
Proof. apply inv_on_store, inv_SetReferrer. Qed.
Lemma inv_tally t : preserves inv (on_store (saveRequestBatchTally t)).
Proof. apply inv_on_store, inv_saveTally. Qed.
Lemma inv_state st : preserves inv (on_store (saveState st)).
Proof. apply inv_on_store, inv_saveState. Qed.
Lemma inv_update : preserves inv (on_store updateCandidateList).
Proof. apply inv_on_store, inv_updateCandidates. Qed.
Lemma inv_candidates cs : roster_ok cs → preserves inv (on_store (saveCandidateList cs)).
Proof. intros. apply inv_on_store. intros s. by apply inv_saveCandidates. Qed.
Lemma inv_emit e : preserves inv (emit e).
Proof. by intros w. Qed.
Lemma inv_transfer ctx coin to x : preserves inv (ERC20_Transfer ctx coin to x).
Proof. by apply preserves_zoom. Qed.
Lemma inv_transferFrom ctx coin from to x : preserves inv (ERC20_TransferFrom ctx coin from to x).
Proof. by apply preserves_zoom. Qed.
Lemma inv_loadCoin : preserves inv loadCoin.
Proof. unfold loadCoin. pres. Qed.
Lemma inv_next_index v d : preserves inv (next_index v d).
Proof. unfold next_index. pres. Qed.
Lemma inv_resolve ctx name : preserves inv (ctx_resolve ctx name).
Proof. unfold ctx_resolve. pres. Qed.

(** Sequences where the first part tells something about its result. *)
Lemma inv_bind_roster {A} (k : list Candidate → M W A) :
  (∀ cs, roster_ok cs → preserves inv (k cs)) → preserves inv (from_store loadCandidateList ≫= k).
Proof. intros Hk w Hw. apply wp_bind. apply wp_gets. apply Hk; [apply Hw|done]. Qed.

Lemma inv_bind_fee {A} fee (k : unit → M W A) :
  (fee <= 10000 → preserves inv (k ())) → preserves inv (lift_res (validateFee fee) ≫= k).
Proof.
  intros Hk w Hw. apply wp_bind, wp_lift_res. unfold validateFee.
  destruct (Z.ltb_spec 10000 fee); [done|]. by apply Hk.
Qed.

Lemma inv_bind_guard {A} c e (k : unit → M W A) :
  (c = false → preserves inv (k ())) → preserves inv (guard_not c e ≫= k).
Proof. intros Hk w Hw. apply wp_bind, wp_guard_not. destruct c; [done|]. by apply Hk. Qed.
End Calls.

#[export] Hint Resolve inv_set inv_delete inv_increase inv_statistic inv_referrer inv_tally
  inv_state inv_update inv_emit inv_transfer inv_transferFrom inv_loadCoin inv_next_index
  inv_resolve : preserves.

Section Handlers.
Context {LIB : DiademLib} {SPEC : DiademLibSpec} {L : Type} {TOKEN : ERC20 L}.
Abbreviation W := (DWorld L).
Abbreviation inv := (inv (L := L)).

Lemma inv_check_referrer r c : preserves inv (check_referrer r c).
Proof. unfold check_referrer. pres. Qed.
Lemma inv_require_candidate a : preserves inv (require_candidate a).
Proof. unfold require_candidate. pres. Qed.
#[local] Hint Resolve inv_check_referrer inv_require_candidate : preserves.

Lemma inv_Init ctx p vs : preserves inv (Init ctx p vs).
Proof. unfold Init. pres. Qed.
Lemma inv_Delegate ctx req : preserves inv (Delegate ctx req).
Proof. unfold Delegate, emitDelegatorDelegatesEvent. pres. Qed.
Lemma inv_Redelegate ctx req : preserves inv (Redelegate ctx req).
Proof. unfold Redelegate, emitDelegatorRedelegatesEvent. pres. Qed.
Lemma inv_consolidate ctx v d : preserves inv (consolidateDelegations ctx v d).
Proof. unfold consolidateDelegations. pres. Qed.
#[local] Hint Resolve inv_consolidate : preserves.
Lemma inv_Consolidate ctx v : preserves inv (ConsolidateDelegations ctx v).
Proof. unfold ConsolidateDelegations, emitDelegatorConsolidatesEvent. pres. Qed.
Lemma inv_Unbond ctx req : preserves inv (Unbond ctx req).
Proof. unfold Unbond, emitDelegatorUnbondsEvent. pres. Qed.
Lemma inv_addStatistic req : preserves inv (addCandidateToStatisticList req).
Proof. unfold addCandidateToStatisticList. pres. Qed.
#[local] Hint Resolve inv_addStatistic : preserves.
Lemma inv_processBatch batch err t : preserves inv (processBatch err t batch).
Proof.
  revert err t. induction batch as [|r batch IH]; intros err t; cbn [processBatch]; [pres|].
  destruct (bq_Payload r); [|apply IH]. apply preserves_bind; [pres|intros m].
  destruct (isRequestAlreadySeen m t); [apply IH|]. apply preserves_bind; [pres|].
  intros [|]; [apply IH|pres].
Qed.
#[local] Hint Resolve inv_processBatch : preserves.
Lemma inv_oracle ctx c : preserves inv (run_oracle ctx c).
Proof.
  destruct c; cbn; unfold WhitelistCandidate, RemoveWhitelistedCandidate, ChangeWhitelistInfo,
    RegisterReferrer, ProcessRequestBatch, SetElectionCycle, SetMaxYearlyReward,
    SetRegistrationRequirement, SetValidatorCount, SetOracleAddress, SetSlashingPercentages,
    set_params, emitReferrerRegistersEvent; pres.
Qed.

Lemma inv_slashDelegations st v : preserves inv (slashValidatorDelegations st v).
Proof. unfold slashValidatorDelegations. pres. Qed.
#[local] Hint Resolve inv_slashDelegations : preserves.

Lemma inv_Register ctx req :
  0 <= cq_Fee req → 0 <= cq_MaxReferralPercentage req → preserves inv (RegisterCandidate ctx req).
Proof.
  intros Hf Hm. unfold RegisterCandidate, emitCandidateRegistersEvent.
  apply inv_bind_roster. intros cs Hcs. apply inv_bind_guard. intros _.
  apply inv_bind_guard. intros Hget. apply bool_decide_eq_false in Hget.
  apply inv_bind_fee. intros Hf'. apply inv_bind_fee. intros Hm'.
  repeat (apply preserves_bind; [solve [pres]|intros]).
  apply preserves_bind; [|pres]. apply inv_candidates, roster_ok_add; try done.
  by apply eq_None_not_Some.
Qed.

Lemma inv_ChangeFee ctx fee : 0 <= fee → preserves inv (ChangeFee ctx fee).
Proof.
  intros Hf. unfold ChangeFee, emitCandidateFeeChangeEvent.
  apply inv_bind_roster. intros cs Hcs. destruct (CandidateList_Get cs _); [|pres].
  apply inv_bind_guard. intros _. apply inv_bind_fee. intros Hf'.
  apply preserves_bind; [|pres]. apply inv_candidates, roster_ok_alter; try done.
  by intros c' (? & ? & ?).
Qed.

Lemma inv_UpdateInfo ctx req :
  0 <= iq_MaxReferralPercentage req → preserves inv (UpdateCandidateInfo ctx req).
Proof.
  intros Hf. unfold UpdateCandidateInfo, emitUpdateCandidateInfoEvent.
  apply inv_bind_roster. intros cs Hcs. destruct (CandidateList_Get cs _); [|pres].
  apply inv_bind_fee. intros Hf'.
  apply preserves_bind; [|pres]. apply inv_candidates, roster_ok_alter; try done.
  by intros c' (? & ? & ?).
Qed.

Lemma inv_Unregister ctx : preserves inv (UnregisterCandidate ctx).
Proof.
  unfold UnregisterCandidate, emitCandidateUnregistersEvent.
  apply inv_bind_roster. intros cs Hcs. destruct (CandidateList_Get cs _); [|pres].
  apply inv_bind_guard. intros _. cbv zeta.
  assert (Hcs' : roster_ok (alter_first (isAt (ctx_sender ctx)) (c_with_State UNREGISTERING) cs))
    by (by apply roster_ok_alter).
  pose proof (inv_candidates (L := L) _ Hcs'). pres.
Qed.

Lemma inv_fault addr f : preserves inv (run_fault addr f).
Proof. destruct f; cbn; unfold SlashInactivity, SlashDoubleSign, slash, emitSlashEvent; pres. Qed.

Lemma inv_rewardAndSlash ctx state : preserves inv (rewardAndSlash ctx state).
Proof.
  assert (H1 : ∀ c ds x st, preserves inv (rewardReferrers st c ds x))
    by (intros; unfold rewardReferrers; pres).
  assert (H2 : ∀ st c s ds, preserves inv (rewardFaultless st c s ds))
    by (intros; unfold rewardFaultless; pres).
  unfold rewardAndSlash, rewardValidator, distributeDelegatorRewards, settleDelegation,
    delegationRewards, settleUpdate, finishUpdate, MustParseAddress. pres.
Qed.

Lemma inv_Elect ctx : preserves inv (Elect ctx).
Proof.
  pose proof inv_rewardAndSlash. unfold Elect, electResult, electedResults, emitElectionEvent. pres.
Qed.
End Handlers.

(** ** Reachable worlds *)

Inductive DposCall :=
  | CallDelegate (req : DelegateRequest)
  | CallRedelegate (req : RedelegateRequest)
  | CallConsolidate (validator : option Address)
  | CallUnbond (req : UnbondRequest)
  | CallRegisterCandidate (req : RegisterCandidateRequest)
  | CallChangeFee (fee : Z)
  | CallUpdateCandidateInfo (req : UpdateCandidateInfoRequest)
  | CallUnregisterCandidate
  | CallOracle (c : OracleCall)
  | CallFault (addr : bytes) (f : Fault)
  | CallElect.

Section Reachability.
Context {LIB : DiademLib} {SPEC : DiademLibSpec} {L : Type} {TOKEN : ERC20 L}.
Abbreviation W := (DWorld L).

Definition run_dpos (ctx : Ctx) (c : DposCall) : M W unit :=
  match c with
  | CallDelegate req => Delegate ctx req
  | CallRedelegate req => Redelegate ctx req
  | CallConsolidate v => ConsolidateDelegations ctx v
  | CallUnbond req => Unbond ctx req
  | CallRegisterCandidate req => RegisterCandidate ctx req
  | CallChangeFee fee => ChangeFee ctx fee
  | CallUpdateCandidateInfo req => UpdateCandidateInfo ctx req
  | CallUnregisterCandidate => UnregisterCandidate ctx
  | CallOracle c => run_oracle ctx c
  | CallFault addr f => run_fault addr f
  | CallElect => Elect ctx
  end.

(** The fees of a request are unsigned. *)
Definition call_unsigned (c : DposCall) : Prop :=
  match c with
  | CallRegisterCandidate req => 0 <= cq_Fee req ∧ 0 <= cq_MaxReferralPercentage req
  | CallChangeFee fee => 0 <= fee
  | CallUpdateCandidateInfo req => 0 <= iq_MaxReferralPercentage req
  | _ => True
  end.

(** Between calls the token contracts change as they like. *)
Inductive dpos_reachable : W → Prop :=
  | reach_dpos_init ctx p vs l : dpos_reachable (Init ctx p vs (mkDWorld empty_dpos_store l [])).2
  | reach_dpos_call ctx c w :
      dpos_reachable w → call_unsigned c → dpos_reachable (run_dpos ctx c w).2
  | reach_dpos_ledger l w :
      dpos_reachable w → dpos_reachable (mkDWorld (dw_store w) l (dw_events w)).

Lemma run_dpos_inv ctx c : call_unsigned c → preserves (inv (L := L)) (run_dpos ctx c).
Proof.
  destruct c; cbn; intros H; auto using inv_Delegate, inv_Redelegate, inv_Consolidate, inv_Unbond,
    inv_ChangeFee, inv_UpdateInfo, inv_Unregister, inv_oracle, inv_fault, inv_Elect.
  destruct H. by apply inv_Register.
Qed.

Lemma dpos_reachable_inv w : dpos_reachable w → dpos_inv (dw_store w).
Proof.
  induction 1 as [ctx p vs l|ctx c w Hw IH Hc|l w Hw IH].
  - apply (inv_Init ctx p vs (mkDWorld empty_dpos_store l [])). apply inv_empty.
  - by apply (run_dpos_inv ctx c Hc w).
  - done.
Qed.

(** C4. Whatever calls, faults and elections happen after [Init], and whether
    they succeed or fail: candidates have distinct addresses, no fee or maximal
    referral fee exceeds 100%, delegations and statistics are stored under their
    own addresses, and the validators are sorted by public key. *)
Theorem reachable_contract_invariant w :
  dpos_reachable w →
  NoDup (cand_local <$> loadCandidateList (dw_store w)) ∧
  Forall candidate_ok (loadCandidateList (dw_store w)) ∧
  records_keyed (dw_store w) ∧ statistics_keyed (dw_store w) ∧
  validators_sorted (dw_store w).
Proof. intros [H1 H2 [H3 H4] H5]%dpos_reachable_inv. done. Qed.
End Reachability.

(** ** Witness *)

Module InvariantWitness.
Import SimpleLib CallWitness.

Definition init_params : Params := params.
Definition pubkey : bytes := Local (sample "v").
Definition reached : DWorld CoinWorld :=
  (run_dpos (sample_ctx (sample "v") 10) (CallChangeFee 300)
    (run_dpos (sample_ctx (sample "v") 10) (CallRegisterCandidate
       (mkRegisterRequest pubkey 250 "n" "d" "w" 1000 0))
      (Init ctx (Some init_params) [] (mkDWorld empty_dpos_store ledger [])).2).2).2.

Lemma invariant_witness :
  (length (loadCandidateList (dw_store reached)) = 1)%nat ∧
  Forall candidate_ok (loadCandidateList (dw_store reached)).
Proof.
  split; [by vm_compute|].
  destruct (reachable_contract_invariant reached) as (_ & H & _); [|exact H].
  apply reach_dpos_call; [apply reach_dpos_call; [apply reach_dpos_init|]|]; cbn; lia.
Defined.
End InvariantWitness.
