(* ===== verification/ValidatorsManager.v ===== *)
(** * The validators manager (src/plugin/validators_manager_v3.go)

    The application's end of block runs an election and tells the consensus
    engine which validators left and which are in.  The engine is not part of
    the repository: [tm_apply] stands for how it applies a list of updates, and
    [tm_apply_spec] for what the ABCI documentation says about it.  The theorem
    is that the engine's validator set follows the contract's. *)

From S2P Require Import Prelude Contract Coin DposTypes DposMath DposStorage DposHandlers DposElection DposCallTheorems DposElectionTheorems DposInvariants.

(** [abci.ValidatorUpdate], whose key type is always Ed25519. *)
Record ValidatorUpdate := mkUpdate { vu_PubKey : bytes; vu_Power : Z }.

(** [abci.VoteInfo] and [abci.Evidence], the fields the manager reads. *)
Record VoteInfo := mkVoteInfo { vi_Address : bytes; vi_SignedLastBlock : bool }.
Record Evidence := mkEvidence { ev_Address : bytes; ev_Height : Z }.

Section Manager.
Context {LIB : DiademLib} {L : Type} {TOKEN : ERC20 L}.
Abbreviation W := (DWorld L).

Definition Manager_ValidatorList : M W (list Validator) := λ w, (ValidatorList (dw_store w), w).
Definition Manager_Elect (ctx : Ctx) : M W unit := Elect ctx.
Definition Manager_SlashInactivity (validatorAddr : bytes) : M W unit :=
  SlashInactivity validatorAddr.
Definition Manager_SlashDoubleSign (validatorAddr : bytes) : M W unit :=
  SlashDoubleSign validatorAddr.

(** [BeginBlock] goes through the votes and the evidence and only logs: the
    calls that slash are commented out. *)
Definition BeginBlock (votes : list VoteInfo) (evidence : list Evidence) (currentHeight : Z) :
    M W unit :=
  forM votes (λ voteInfo, if negb (vi_SignedLastBlock voteInfo) then mret () else mret ());;
  forM evidence (λ ev, if currentHeight - 100 <? ev_Height ev then mret () else mret ()).

Definition EndBlock (ctx : Ctx) : M W (list ValidatorUpdate) :=
  oldValidatorList ← Manager_ValidatorList;
  Manager_Elect ctx;;
  validatorList ← Manager_ValidatorList;
  let removedValidators := MissingValidators oldValidatorList validatorList in
  mret (((λ v, mkUpdate (v_PubKey v) 0) <$> removedValidators) ++
        ((λ v, mkUpdate (v_PubKey v) (v_Power v)) <$> (validatorList : list Validator))).
End Manager.

(** ** The consensus engine's validator set *)

(** The validator set of a list: public keys with their power. *)
Definition validator_set (vs : list Validator) : gmap bytes Z :=
  list_to_map ((λ v, (v_PubKey v, v_Power v)) <$> vs).

Lemma validator_set_lookup vs k p :
  NoDup (v_PubKey <$> vs) →
  validator_set vs !! k = Some p ↔ mkValidator k p ∈ vs.
Proof.
  intros Hnd. unfold validator_set. rewrite <- elem_of_list_to_map.
  - rewrite list_elem_of_fmap. split.
    + by intros ([] & [= -> ->] & ?).
    + intros Hin. by exists (mkValidator k p).
  - rewrite <- list_fmap_compose. exact Hnd.
Qed.

Lemma validator_set_None vs k : validator_set vs !! k = None ↔ k ∉ v_PubKey <$> vs.
Proof.
  unfold validator_set. rewrite <- not_elem_of_list_to_map, <- list_fmap_compose. done.
Qed.

(** The validators that the engine has: power zero is no membership. *)
Definition engine_set (vs : list Validator) : gmap bytes Z := validator_set (filter (λ v, v_Power v ≠ 0) vs).

Lemma powered_nodup vs : NoDup (v_PubKey <$> vs) → NoDup (v_PubKey <$> filter (λ v, v_Power v ≠ 0) vs).
Proof. intros H. eapply sublist_NoDup; [exact H|]. apply fmap_sublist, sublist_filter. Qed.

Lemma engine_set_lookup vs v : NoDup (v_PubKey <$> vs) → v ∈ vs → engine_set vs !! v_PubKey v = if decide (v_Power v = 0) then None else Some (v_Power v).
Proof.
  intros Hnd Hv. unfold engine_set. case_decide as Hp.
  - apply validator_set_None. intros (v' & Hk & [Hp' Hv']%list_elem_of_filter)%list_elem_of_fmap.
    by rewrite (NoDup_fmap_inj_in v_PubKey vs v v' Hnd Hv Hv' Hk) in Hp.
  - apply validator_set_lookup; [by apply powered_nodup|]. apply list_elem_of_filter. split; [done|]. by destruct v.
Qed.

Lemma engine_set_None vs k : k ∉ v_PubKey <$> vs → engine_set vs !! k = None.
Proof.
  intros Hk. apply validator_set_None. intros (v & -> & [_ Hv]%list_elem_of_filter)%list_elem_of_fmap. apply Hk, list_elem_of_fmap. by exists v.
Qed.

Lemma sorted_pubkeys vs :
  StronglySorted (sort_le lessPubkey) vs → NoDup (v_PubKey <$> vs) →
  StronglySorted pubkey_lt vs.
Proof.
  induction 1 as [|v vs Hs IH Hv]; intros Hnd; [by constructor|].
  apply NoDup_cons in Hnd as [Hnin Hnd]. constructor; [by apply IH|].
  rewrite Forall_forall in Hv |- *. intros v' Hin. specialize (Hv v' Hin).
  unfold sort_le, lessPubkey, bytes_compare in Hv. unfold pubkey_lt.
  destruct (String.compare (v_PubKey v) (v_PubKey v')) eqn:E; [|done|].
  - apply String.compare_eq_iff in E. destruct Hnin. rewrite E. apply list_elem_of_fmap. by exists v'.
  - apply string_compare_gt in E. by rewrite E in Hv.
Qed.

Section Sync.
Context {LIB : DiademLib} {SPEC : DiademLibSpec} {L : Type} {TOKEN : ERC20 L}.
Abbreviation W := (DWorld L).

(** How the engine applies updates with distinct keys: power zero removes, any
    other power sets, and validators not mentioned stay. *)
Context (tm_apply : gmap bytes Z → list ValidatorUpdate → gmap bytes Z).
Definition tm_apply_spec : Prop :=
  ∀ m us, NoDup (vu_PubKey <$> us) →
    (∀ u, u ∈ us → tm_apply m us !! vu_PubKey u =
       if decide (vu_Power u = 0) then None else Some (vu_Power u)) ∧
    (∀ k, k ∉ vu_PubKey <$> us → tm_apply m us !! k = m !! k).

Lemma EndBlock_inv ctx (w : W) updates w' :
  EndBlock ctx w = (Ok updates, w') →
  ∃ old new, ds_state (dw_store w) = Some old ∧ ds_state (dw_store w') = Some new ∧
    updates =
      ((λ v, mkUpdate (v_PubKey v) 0) <$> MissingValidators (st_Validators old) (st_Validators new))
      ++ ((λ v, mkUpdate (v_PubKey v) (v_Power v)) <$> st_Validators new) ∧
    Elect ctx w = (Ok (), w').
Proof.
  unfold EndBlock, Manager_Elect, Manager_ValidatorList, ValidatorList, loadState.
  intros (oldl & w0 & Hold & H)%bind_inv.
  destruct (ds_state (dw_store w)) as [old|] eqn:E; [|done]. injection Hold as <- <-.
  apply bind_inv in H as ([] & w1 & Hel & H). apply bind_inv in H as (newl & w2 & Hnew & H).
  destruct (ds_state (dw_store w1)) as [new|] eqn:E'; [|done]. injection Hnew as <- <-.
  injection H as <- <-. by exists old, new.
Qed.

Lemma updates_nodup old new :
  NoDup (v_PubKey <$> old) → NoDup (v_PubKey <$> new) →
  NoDup (vu_PubKey <$>
    ((λ v, mkUpdate (v_PubKey v) 0) <$> filter (λ f, v_PubKey f ∉ v_PubKey <$> new) old)
    ++ ((λ v, mkUpdate (v_PubKey v) (v_Power v)) <$> new)).
Proof.
  intros Ho Hn. rewrite fmap_app, <- !list_fmap_compose. apply NoDup_app. split_and!.
  - eapply sublist_NoDup; [exact Ho|]. apply fmap_sublist, sublist_filter.
  - intros k (f & -> & [Hf _]%list_elem_of_filter)%list_elem_of_fmap. exact Hf.
  - exact Hn.
Qed.

(** The updates take the engine from the old validators to the new ones. *)
Lemma updates_sync old new :
  tm_apply_spec →
  NoDup (v_PubKey <$> old) → NoDup (v_PubKey <$> new) →
  tm_apply (engine_set old)
    (((λ v, mkUpdate (v_PubKey v) 0) <$> filter (λ f, v_PubKey f ∉ v_PubKey <$> new) old)
     ++ ((λ v, mkUpdate (v_PubKey v) (v_Power v)) <$> new))
  = engine_set new.
Proof.
  intros Htm Ho Hn. set (us := _ ++ _).
  destruct (Htm (engine_set old) us (updates_nodup old new Ho Hn)) as [Hin Hout].
  apply map_eq. intros k. destruct (decide (k ∈ v_PubKey <$> new)) as [Hk|Hk].
  - apply list_elem_of_fmap in Hk as (v & -> & Hv). rewrite (engine_set_lookup new v Hn Hv).
    apply (Hin (mkUpdate (v_PubKey v) (v_Power v))). apply elem_of_app. right. apply list_elem_of_fmap. by exists v.
  - rewrite (engine_set_None new k Hk). destruct (decide (k ∈ v_PubKey <$> old)) as [Hko|Hko].
    + apply list_elem_of_fmap in Hko as (v & -> & Hv). etrans; [apply (Hin (mkUpdate (v_PubKey v) 0))|done].
      apply elem_of_app. left. apply list_elem_of_fmap. exists v. split; [done|]. by apply list_elem_of_filter.
    + rewrite Hout; [by apply engine_set_None|]. unfold us.
      rewrite fmap_app, <- !list_fmap_compose, elem_of_app, !list_elem_of_fmap.
      intros [(f & -> & [_ Hf]%list_elem_of_filter)|(v & -> & Hv)].
      * apply Hko, list_elem_of_fmap. by exists f.
      * apply Hk, list_elem_of_fmap. by exists v.
Qed.

(** C20. At the end of every block the engine's validator set follows the
    contract's: if before the block the engine had the contract's validators of
    nonzero power, applying the updates that [EndBlock] returns makes it have the
    validators of nonzero power after the block, whoever was elected, provided
    that neither list has a public key twice.  A validator whose power is rounded
    down to zero is one for the contract but not for the engine, and
    [candidate_elected_twice] shows how a key can come twice. *)
Theorem end_block_syncs_engine ctx (w : W) updates w' old new :
  tm_apply_spec →
  dpos_reachable w →
  EndBlock ctx w = (Ok updates, w') →
  ds_state (dw_store w) = Some old → ds_state (dw_store w') = Some new →
  NoDup (v_PubKey <$> st_Validators old) → NoDup (v_PubKey <$> st_Validators new) →
  tm_apply (engine_set (st_Validators old)) updates = engine_set (st_Validators new).
Proof.
  intros Htm Hreach (old' & new' & Ho & Hn & -> & Helect)%EndBlock_inv Ho' Hn' Hnd Hnd'.
  assert (old' = old) as -> by congruence. assert (new' = new) as -> by congruence.
  pose proof (inv_validators _ (dpos_reachable_inv w Hreach) _ Ho) as Hs.
  assert (Hreach' : dpos_reachable w').
  { pose proof (reach_dpos_call ctx CallElect w Hreach I) as Hr. cbn in Hr. by rewrite Helect in Hr. }
  pose proof (inv_validators _ (dpos_reachable_inv w' Hreach') _ Hn) as Hs'.
  rewrite missing_validators_eq by auto using sorted_pubkeys. by apply updates_sync.
Qed.
End Sync.

(** ** Witness *)

Module ManagerWitness.
Import SimpleLib CallWitness.

(** One way to apply updates. *)
Definition apply_update (m : gmap bytes Z) (u : ValidatorUpdate) : gmap bytes Z :=
  if decide (vu_Power u = 0) then delete (vu_PubKey u) m else <[vu_PubKey u := vu_Power u]> m.
Definition apply_updates (m : gmap bytes Z) (us : list ValidatorUpdate) : gmap bytes Z :=
  foldl apply_update m us.

Lemma apply_updates_spec : tm_apply_spec apply_updates.
Proof.
  intros m us. unfold apply_updates. revert m. induction us as [|u us IH]; intros m Hnd.
  { split; [set_solver|done]. }
  apply NoDup_cons in Hnd as [Hu Hnd]. cbn [foldl]. destruct (IH (apply_update m u) Hnd) as [Hin Hout].
  split.
  - intros u' [->|Hu']%elem_of_cons; [|by apply Hin].
    rewrite Hout by done. unfold apply_update. case_decide.
    + by rewrite lookup_delete_eq.
    + by rewrite lookup_insert_eq.
  - intros k Hk. csimpl in Hk. apply not_elem_of_cons in Hk as [Hne Hk].
    rewrite Hout by done. unfold apply_update. case_decide.
    + by rewrite lookup_delete_ne.
    + by rewrite lookup_insert_ne.
Qed.

(** The genesis validator "z" is not a candidate; a delegation of [sample "a"]
    makes [sample "v"] the only validator. *)
Definition amount : Z := 3 * 10 ^ 13.
Definition ledger0 : CoinWorld :=
  mkCoinWorld (sample "C")
    (run_call (sample_ctx (sample "a") 0) (CallApprove (sample "X") amount)
       CoinWitness.start).2.
Definition world1 : DWorld CoinWorld :=
  (run_dpos ctx (CallDelegate (mkDelegateRequest (Some (sample "v")) (Some amount) 0 ""))
    (run_dpos (sample_ctx (sample "v") 10) (CallRegisterCandidate
       (mkRegisterRequest (Local (sample "v")) 250 "n" "d" "w" 1000 0))
      (Init ctx (Some params) [mkValidator "z" 5] (mkDWorld empty_dpos_store ledger0 [])).2).2).2.

Lemma world1_reachable : dpos_reachable world1.
Proof.
  unfold world1. apply reach_dpos_call; [|done]. apply reach_dpos_call; [|cbn; lia].
  apply reach_dpos_init.
Qed.

Definition block : Res (list ValidatorUpdate) * DWorld CoinWorld := EndBlock ctx world1.

Lemma end_block_witness :
  match block.1 with
  | Ok updates => apply_updates {[ "z" := 5 ]} updates = {[ Local (sample "v") := 30 ]}
  | _ => False
  end.
Proof.
  assert (Hok : is_ok block.1 = true) by (by vm_compute).
  assert (Hold : ds_state (dw_store world1) = Some (mkState params [mkValidator "z" 5] 0 0 0))
    by (by vm_compute).
  assert (Hnew : st_Validators <$> ds_state (dw_store block.2)
                 = Some [mkValidator (Local (sample "v")) 30]) by (by vm_compute).
  destruct block as [r w'] eqn:E. cbn [fst snd] in *. destruct r as [updates| |]; [|discriminate Hok|discriminate Hok].
  destruct (ds_state (dw_store w')) as [new|] eqn:En; [|discriminate Hnew]. injection Hnew as Hnew.
  pose proof (end_block_syncs_engine apply_updates ctx world1 updates w' _ new
    apply_updates_spec world1_reachable E Hold En) as H.
  rewrite Hnew in H. etrans; [|etrans; [apply H|]].
  - clear. vm_compute. reflexivity.
  - by apply NoDup_singleton.
  - by apply NoDup_singleton.
  - clear. vm_compute. reflexivity.
Defined.

(** A candidate is found by the local part of its address, but totals are kept by
    whole addresses: delegating to it under the name of another chain as well
    gives it two results, and its key is in the validators twice. *)
Definition world2 : DWorld CoinWorld :=
  (run_dpos ctx (CallDelegate (mkDelegateRequest (Some (mkAddress "other" (Local (sample "v")))) (Some (10 ^ 13)) 0 ""))
    (run_dpos ctx (CallDelegate (mkDelegateRequest (Some (sample "v")) (Some (2 * 10 ^ 13)) 0 ""))
      (run_dpos (sample_ctx (sample "v") 10) (CallRegisterCandidate
         (mkRegisterRequest (Local (sample "v")) 250 "n" "d" "w" 1000 0))
        (Init ctx (Some params) [mkValidator "z" 5] (mkDWorld empty_dpos_store ledger0 [])).2).2).2).2.
Example candidate_elected_twice :
  (EndBlock ctx world2).1 = Ok [mkUpdate "z" 0; mkUpdate (Local (sample "v")) 20; mkUpdate (Local (sample "v")) 10].
Proof. by vm_compute. Qed.
End ManagerWitness.
