(* ===== verification/Store.v ===== *)
(** * Key-value stores (src/store/store.go, src/store/memstore.go)

    [KVStore] is the interface of the same name and [KVStoreSpec] what its
    comments promise.  [MemStore], the write-back cache [cacheTx] and the prefix
    store implement it.  A value is a byte string; [None] is Go's nil, which
    [Get] returns exactly for missing keys.

    The theorems are that a committed [cacheTx] has the effect of its operations
    on the store below, that before the commit or after a rollback that store is
    as it was, and that prefix stores are isolated from each other's keys. *)

From S2P Require Import Prelude Contract.

(** ** The interface *)

Class KVStore (S : Type) := {
  kv_Get : S → bytes → option bytes;
  kv_Has : S → bytes → bool;
  kv_Range : S → bytes → Res (list (bytes * bytes));
  kv_Set : bytes → bytes → S → S;
  kv_Delete : bytes → S → S;
}.

(** [kv_ok] is the representation invariant of an implementation. *)
Class KVStoreSpec (S : Type) `{KVStore S} := {
  kv_ok : S → Prop;
  kv_Set_ok k v s : kv_ok s → kv_ok (kv_Set k v s);
  kv_Delete_ok k s : kv_ok s → kv_ok (kv_Delete k s);
  kv_Has_Get s k : kv_ok s → kv_Has s k = bool_decide (is_Some (kv_Get s k));
  kv_Get_Set s k v k' :
    kv_ok s → kv_Get (kv_Set k v s) k' = if decide (k' = k) then Some v else kv_Get s k';
  kv_Get_Delete s k k' :
    kv_ok s → kv_Get (kv_Delete k s) k' = if decide (k' = k) then None else kv_Get s k';
}.

(** [store.VersionedKVStore] *)
Class VersionedKVStore (S : Type) `{KVStore S} := {
  vkv_Hash : S → bytes;
  vkv_Version : S → Z;
  vkv_SaveVersion : M S (bytes * Z);
  vkv_Prune : M S unit;
}.

(** Two stores with the same contents. *)
Definition same_content {S T} `{KVStore S, KVStore T} (s : S) (t : T) : Prop :=
  ∀ k, kv_Get s k = kv_Get t k.

#[global] Instance same_content_equivalence {S} `{KVStore S} :
  Equivalence (same_content (S := S) (T := S)).
Proof.
  split.
  - by intros s k.
  - intros s t Hst k. by rewrite Hst.
  - intros s t u Hst Htu k. by rewrite Hst.
Qed.

(** Writes, for sequences of them. *)
Inductive KVOp := OpSet (key value : bytes) | OpDelete (key : bytes).

Definition run_op {S} `{KVStore S} (s : S) (op : KVOp) : S :=
  match op with OpSet k v => kv_Set k v s | OpDelete k => kv_Delete k s end.

Definition run_ops {S} `{KVStore S} (s : S) (ops : list KVOp) : S := foldl run_op s ops.

(** The effect of a write on one key. *)
Definition op_effect (op : KVOp) (k : bytes) (v : option bytes) : option bytes :=
  match op with
  | OpSet k' v' => if decide (k = k') then Some v' else v
  | OpDelete k' => if decide (k = k') then None else v
  end.

Section Ops.
Context {S : Type} `{KVStoreSpec S}.

Lemma run_op_ok s op : kv_ok s → kv_ok (run_op s op).
Proof. destruct op; [apply kv_Set_ok|apply kv_Delete_ok]. Qed.

Lemma run_ops_ok s ops : kv_ok s → kv_ok (run_ops s ops).
Proof. revert s. induction ops as [|op ops IH]; intros s Hs; [done|]. by apply IH, run_op_ok. Qed.

Lemma run_op_get s op k : kv_ok s → kv_Get (run_op s op) k = op_effect op k (kv_Get s k).
Proof. destruct op; [apply kv_Get_Set|apply kv_Get_Delete]. Qed.

Lemma run_ops_get s ops k :
  kv_ok s → kv_Get (run_ops s ops) k = foldl (λ v op, op_effect op k v) (kv_Get s k) ops.
Proof.
  revert s. induction ops as [|op ops IH]; intros s Hs; [done|]. cbn.
  rewrite <- run_op_get by done. apply IH. by apply run_op_ok.
Qed.
End Ops.

(** Stores with the same contents have the same contents after the same writes,
    whatever their implementations. *)
Lemma run_ops_same {S T} `{KVStoreSpec S, KVStoreSpec T} (s : S) (t : T) ops :
  kv_ok s → kv_ok t → same_content s t → same_content (run_ops s ops) (run_ops t ops).
Proof. intros Hs Ht Hst k. rewrite !run_ops_get by done. by rewrite (Hst k). Qed.

(** ** The in-memory store *)

Record MemStore := mkMemStore { mem_store : gmap string bytes }.

Definition NewMemStore : MemStore := mkMemStore ∅.

Section Mem.
(** [util.UnprefixKey] of the client library; [None] is its error. *)
Context (unprefix_key : bytes → bytes → option bytes).

Definition MemStore_Get (m : MemStore) (key : bytes) : option bytes := mem_store m !! key.
Definition MemStore_Has (m : MemStore) (key : bytes) : bool :=
  bool_decide (is_Some (mem_store m !! key)).
Definition MemStore_Set (key value : bytes) (m : MemStore) : MemStore :=
  mkMemStore (<[key := value]> (mem_store m)).
Definition MemStore_Delete (key : bytes) (m : MemStore) : MemStore :=
  mkMemStore (delete key (mem_store m)).

(** In Go's unspecified map order; a key that cannot be unprefixed panics. *)
Definition MemStore_Range (m : MemStore) (prefix : bytes) : Res (list (bytes * bytes)) :=
  foldr (λ '(key, value) acc,
      if String.prefix prefix key then
        match unprefix_key key prefix, acc with
        | Some k, Ok ret => Ok ((k, value) :: ret)
        | Some _, r => r
        | None, _ => Panic
        end
      else acc) (Ok []) (map_to_list (mem_store m)).

#[local] Instance mem_kvstore : KVStore MemStore := {
  kv_Get := MemStore_Get;
  kv_Has := MemStore_Has;
  kv_Range := MemStore_Range;
  kv_Set := MemStore_Set;
  kv_Delete := MemStore_Delete;
}.

Definition MemStore_Hash (m : MemStore) : bytes := "123".
Definition MemStore_Version (m : MemStore) : Z := 1.
Definition MemStore_SaveVersion : M MemStore (bytes * Z) :=
  λ m, (Ok (MemStore_Hash m, MemStore_Version m), m).
Definition MemStore_Prune : M MemStore unit := mret ().

#[local] Instance mem_versioned_kvstore : VersionedKVStore MemStore := {
  vkv_Hash := MemStore_Hash;
  vkv_Version := MemStore_Version;
  vkv_SaveVersion := MemStore_SaveVersion;
  vkv_Prune := MemStore_Prune;
}.

#[local] Instance mem_kvstore_spec : KVStoreSpec MemStore.
Proof.
  refine {| kv_ok := λ _ : MemStore, True |}; cbn; intros; try done.
  - unfold MemStore_Get, MemStore_Set. cbn. rewrite lookup_insert.
    repeat case_decide; naive_solver.
  - unfold MemStore_Get, MemStore_Delete. cbn. rewrite lookup_delete.
    repeat case_decide; naive_solver.
Defined.
End Mem.

(** ** The write-back cache *)

Record cacheItem := mkCacheItem { ci_Value : option bytes; ci_Deleted : bool }.

(** [tempTx]: the action with its operands. *)
Inductive tempTx := txSet (Key Value : bytes) | txDelete (Key : bytes).

Record cacheTx (S : Type) := mkCacheTx {
  cx_store : S;
  cx_cache : gmap string cacheItem;
  cx_tmpTxs : list tempTx;
}.
Arguments mkCacheTx {S}.
Arguments cx_store {S}.
Arguments cx_cache {S}.
Arguments cx_tmpTxs {S}.

Section Cache.
Context {S : Type} {KV : KVStore S}.
Implicit Types c : cacheTx S.

Definition Rollback c : cacheTx S := mkCacheTx (cx_store c) ∅ [].
Definition newCacheTx (store : S) : cacheTx S := Rollback (mkCacheTx store ∅ []).

Definition addAction (a : tempTx) c : cacheTx S :=
  mkCacheTx (cx_store c) (cx_cache c) (cx_tmpTxs c ++ [a]).
Definition setCache (key : bytes) (val : option bytes) (deleted : bool) c : cacheTx S :=
  mkCacheTx (cx_store c) (<[key := mkCacheItem val deleted]> (cx_cache c)) (cx_tmpTxs c).

Definition cacheTx_Delete (key : bytes) c : cacheTx S :=
  setCache key None true (addAction (txDelete key) c).
Definition cacheTx_Set (key val : bytes) c : cacheTx S :=
  setCache key (Some val) false (addAction (txSet key val) c).
Definition cacheTx_Range c (prefix : bytes) : Res (list (bytes * bytes)) :=
  kv_Range (cx_store c) prefix.
Definition cacheTx_Has c (key : bytes) : bool :=
  match cx_cache c !! key with
  | Some item => negb (ci_Deleted item)
  | None => kv_Has (cx_store c) key
  end.
Definition cacheTx_Get c (key : bytes) : option bytes :=
  match cx_cache c !! key with
  | Some item => ci_Value item
  | None => kv_Get (cx_store c) key
  end.

(** The commit writes the actions in order to the store below. *)
Definition commitAction (store : S) (tx : tempTx) : S :=
  match tx with
  | txSet k v => kv_Set k v store
  | txDelete k => kv_Delete k store
  end.
Definition Commit c : cacheTx S :=
  mkCacheTx (foldl commitAction (cx_store c) (cx_tmpTxs c)) (cx_cache c) (cx_tmpTxs c).

#[global] Instance cache_kvstore : KVStore (cacheTx S) := {
  kv_Get := cacheTx_Get;
  kv_Has := cacheTx_Has;
  kv_Range := cacheTx_Range;
  kv_Set := cacheTx_Set;
  kv_Delete := cacheTx_Delete;
}.
End Cache.

Section CacheSpec.
Context {S : Type} {KV : KVStore S} {KVS : KVStoreSpec S}.
Implicit Types c : cacheTx S.

(** The cache holds, for every key written, its last value. *)
Definition op_of (a : tempTx) : KVOp :=
  match a with txSet k v => OpSet k v | txDelete k => OpDelete k end.

Definition cache_step (m : gmap string cacheItem) (a : tempTx) : gmap string cacheItem :=
  match a with
  | txSet k v => <[k := mkCacheItem (Some v) false]> m
  | txDelete k => <[k := mkCacheItem None true]> m
  end.

Definition cache_ok c : Prop :=
  kv_ok (cx_store c) ∧ cx_cache c = foldl cache_step ∅ (cx_tmpTxs c).

Lemma commit_ops (store : S) (txs : list tempTx) :
  foldl commitAction store txs = run_ops store (op_of <$> txs).
Proof.
  revert store. induction txs as [|a txs IH]; intros store; [done|]. csimpl.
  rewrite IH. by destruct a.
Qed.

Lemma cache_lookup txs (v : option bytes) k :
  match foldl cache_step ∅ txs !! k with
  | Some item => ci_Value item = foldl (λ v op, op_effect op k v) v (op_of <$> txs) ∧
                 ci_Deleted item = bool_decide (ci_Value item = None)
  | None => foldl (λ v op, op_effect op k v) v (op_of <$> txs) = v
  end.
Proof.
  induction txs as [|a txs IH] using rev_ind; [cbn; by rewrite lookup_empty|].
  rewrite fmap_app, !foldl_app. cbn.
  destruct a as [k' v'|k']; cbn; rewrite lookup_insert;
    repeat case_decide; subst; try done; by cbn.
Qed.

Lemma cache_get c k :
  cache_ok c → kv_Get c k = kv_Get (run_ops (cx_store c) (op_of <$> cx_tmpTxs c)) k.
Proof.
  intros [Hok Hc]. cbn. unfold cacheTx_Get. rewrite Hc, run_ops_get by done.
  pose proof (cache_lookup (cx_tmpTxs c) (kv_Get (cx_store c) k) k) as H.
  destruct (foldl cache_step ∅ (cx_tmpTxs c) !! k); [by destruct H|done].
Qed.

#[global] Instance cache_kvstore_spec : KVStoreSpec (cacheTx S).
Proof.
  refine {| kv_ok := cache_ok |}.
  - intros k v c [Hok Hc]. split; [done|]. cbn. rewrite foldl_app. cbn. by rewrite Hc.
  - intros k c [Hok Hc]. split; [done|]. cbn. rewrite foldl_app. cbn. by rewrite Hc.
  - intros c k [Hok Hc]. cbn. unfold cacheTx_Has, cacheTx_Get.
    destruct (cx_cache c !! k) as [item|] eqn:E; [|by apply kv_Has_Get].
    rewrite Hc in E. pose proof (cache_lookup (cx_tmpTxs c) None k) as H.
    rewrite E in H. destruct H as [_ ->].
    destruct (ci_Value item); repeat case_bool_decide; naive_solver.
  - intros c k v k' _. cbn. unfold cacheTx_Get. cbn. rewrite lookup_insert.
    repeat case_decide; naive_solver.
  - intros c k k' _. cbn. unfold cacheTx_Get. cbn. rewrite lookup_insert.
    repeat case_decide; naive_solver.
Defined.

Lemma newCacheTx_ok store : kv_ok store → kv_ok (newCacheTx store).
Proof. intros H. by split. Qed.

Lemma newCacheTx_same store : same_content (newCacheTx store) store.
Proof. intros k. cbn. unfold cacheTx_Get. cbn. by rewrite lookup_empty. Qed.

(** Writes to the transaction never reach the store below. *)
Lemma run_ops_store c ops : cx_store (run_ops c ops) = cx_store c.
Proof.
  revert c. induction ops as [|op ops IH]; intros c; [done|]. etrans; [apply (IH (run_op c op))|by destruct op].
Qed.

(** The store a commit leaves has the contents of the transaction. *)
Lemma commit_content c : kv_ok c → same_content (cx_store (Commit c)) c.
Proof. intros Hc k. cbn [Commit cx_store]. rewrite commit_ops. by rewrite cache_get. Qed.

Lemma commit_ok c : kv_ok c → kv_ok (cx_store (Commit c)).
Proof. intros [Hok _]. cbn [Commit cx_store]. rewrite commit_ops. by apply run_ops_ok. Qed.
End CacheSpec.

(** ** Theorems on transactions *)

Section Transactions.
Context {S : Type} {KV : KVStore S} {KVS : KVStoreSpec S}.

(** Range queries do not see a transaction's own writes: whatever has been
    set or deleted in it, [Range] answers from the store below. *)
Theorem range_ignores_own_writes (store : S) ops prefix :
  kv_Range (run_ops (newCacheTx store) ops) prefix = kv_Range store prefix.
Proof. cbn. unfold cacheTx_Range. by rewrite run_ops_store. Qed.
(** C21. A transaction on a store refines the store for reads of keys: after any
    writes, [Get] and [Has] of the transaction give what the store would give had
    the writes gone to it directly, and committing leaves the store below with
    exactly these contents.  [Range] is outside of the refinement: it answers as
    the store below does without the writes. *)
Theorem cache_tx_refines_store (store : S) ops :
  kv_ok store →
  let tx := run_ops (newCacheTx store) ops in
  same_content tx (run_ops store ops) ∧
  (∀ k, kv_Has tx k = kv_Has (run_ops store ops) k) ∧
  same_content (cx_store (Commit tx)) (run_ops store ops) ∧
  ∀ prefix, kv_Range tx prefix = kv_Range store prefix.
Proof.
  intros Hok tx. assert (Htx : kv_ok tx) by (by apply run_ops_ok, newCacheTx_ok).
  assert (Hs : same_content tx (run_ops store ops)).
  { apply run_ops_same; [by apply newCacheTx_ok|done|apply newCacheTx_same]. }
  split_and!; [done| | |].
  - intros k. rewrite !kv_Has_Get by (done || by apply run_ops_ok). by rewrite Hs.
  - intros k. by rewrite (commit_content tx Htx k), Hs.
  - intros prefix. apply range_ignores_own_writes.
Qed.

(** Nothing leaves a transaction before its commit: after any writes the
    store below is the one the transaction began with, and a rollback brings the
    transaction back to it. *)
Theorem uncommitted_writes_are_invisible (store : S) ops :
  let tx := run_ops (newCacheTx store) ops in
  cx_store tx = store ∧ cx_store (Rollback tx) = store ∧
  same_content (Rollback tx) store.
Proof.
  intros tx. assert (cx_store tx = store) as Hs by (unfold tx; by rewrite run_ops_store).
  split_and!; [done|done|]. intros k. cbn. unfold cacheTx_Get. cbn. by rewrite lookup_empty, Hs.
Qed.

End Transactions.

(** ** Prefix stores *)

Record prefixStore (S : Type) := mkPrefixStore { ps_prefix : bytes; ps_store : S }.
Arguments mkPrefixStore {S}.
Arguments ps_prefix {S}.
Arguments ps_store {S}.

Section Prefix.
Context {LIB : DiademLib} {S : Type} {KV : KVStore S}.
Implicit Types p : prefixStore S.

(** [util.PrefixKey(prefix, key)] *)
Definition prefixed (prefix key : bytes) : bytes := prefix_key [prefix; key].

Definition PrefixKVStore (prefix : bytes) (store : S) : prefixStore S := mkPrefixStore prefix store.

Definition prefixReader_Range p (prefix : bytes) : Res (list (bytes * bytes)) :=
  kv_Range (ps_store p) (prefixed (ps_prefix p) prefix).
Definition prefixReader_Get p (key : bytes) : option bytes :=
  kv_Get (ps_store p) (prefixed (ps_prefix p) key).
Definition prefixReader_Has p (key : bytes) : bool :=
  kv_Has (ps_store p) (prefixed (ps_prefix p) key).
Definition prefixWriter_Set (key val : bytes) p : prefixStore S :=
  mkPrefixStore (ps_prefix p) (kv_Set (prefixed (ps_prefix p) key) val (ps_store p)).
Definition prefixWriter_Delete (key : bytes) p : prefixStore S :=
  mkPrefixStore (ps_prefix p) (kv_Delete (prefixed (ps_prefix p) key) (ps_store p)).

#[global] Instance prefix_kvstore : KVStore (prefixStore S) := {
  kv_Get := prefixReader_Get;
  kv_Has := prefixReader_Has;
  kv_Range := prefixReader_Range;
  kv_Set := prefixWriter_Set;
  kv_Delete := prefixWriter_Delete;
}.
End Prefix.

Section PrefixSpec.
Context {LIB : DiademLib} {S : Type} {KV : KVStore S} {KVS : KVStoreSpec S}.

(** [PrefixKey] joins its parts with a separator, so two keys under the same
    prefix are distinct. *)
Definition prefix_injective : Prop := ∀ p k k', prefixed p k = prefixed p k' → k = k'.

Context (PINJ : prefix_injective).

#[local] Instance prefix_kvstore_spec : KVStoreSpec (prefixStore S).
Proof.
  refine {| kv_ok := λ p : prefixStore S, kv_ok (ps_store p) |}; cbn.
  - intros k v p. apply kv_Set_ok.
  - intros k p. apply kv_Delete_ok.
  - intros p k. apply kv_Has_Get.
  - intros p k v k' Hok. unfold prefixReader_Get. cbn. rewrite kv_Get_Set by done.
    repeat case_decide; try done; [by exfalso; eauto|by subst].
  - intros p k k' Hok. unfold prefixReader_Get. cbn. rewrite kv_Get_Delete by done.
    repeat case_decide; try done; [by exfalso; eauto|by subst].
Defined.

Lemma prefix_ops_prefix (p : prefixStore S) ops : ps_prefix (run_ops p ops) = ps_prefix p.
Proof.
  revert p. induction ops as [|op ops IH]; intros p; [done|]. etrans; [apply (IH (run_op p op))|by destruct op].
Qed.

(** A contract sees its slice of the store as a store of its own: writes
    through a prefix behave as on a store that starts with the same contents,
    and keys that do not carry the prefix keep their value. *)
Theorem prefix_store_is_isolated (store : S) prefix ops :
  kv_ok store →
  let p := run_ops (PrefixKVStore prefix store) ops in
  (∀ k, kv_Get p k = foldl (λ v op, op_effect op k v) (kv_Get store (prefixed prefix k)) ops) ∧
  (∀ k, (∀ k', k ≠ prefixed prefix k') → kv_Get (ps_store p) k = kv_Get store k).
Proof.
  intros Hok p. split.
  - intros k. unfold p. by rewrite (run_ops_get (S := prefixStore S)).
  - intros k Hk. unfold p. clear p.
    assert (Hgen : ∀ q : prefixStore S, ps_prefix q = prefix → kv_ok (ps_store q) →
      kv_Get (ps_store (run_ops q ops)) k = kv_Get (ps_store q) k); [|by apply Hgen].
    induction ops as [|op ops IH]; intros q Hq Hqok; [done|].
    etrans; [apply (IH (run_op q op))|].
    + by destruct op.
    + destruct op; cbn; [by apply kv_Set_ok|by apply kv_Delete_ok].
    + destruct op; cbn.
      * rewrite kv_Get_Set by done. case_decide; [|done]. subst. by destruct (Hk key).
      * rewrite kv_Get_Delete by done. case_decide; [|done]. subst. by destruct (Hk key).
Qed.
End PrefixSpec.

(** ** Witnesses *)

Module StoreWitness.
Import SimpleLib.
#[local] Instance mem : KVStore MemStore := mem_kvstore (λ k p, Some k).
#[local] Instance mem_spec : KVStoreSpec MemStore := mem_kvstore_spec (λ k p, Some k).

Definition store : MemStore := MemStore_Set "a" "1" NewMemStore.
Definition ops : list KVOp := [OpSet "b" "2"; OpDelete "a"; OpSet "b" "3"].

Lemma cache_tx_witness :
  kv_Get (cx_store (Commit (run_ops (newCacheTx store) ops))) "b" = Some "3" ∧
  kv_Get (run_ops (newCacheTx store) ops) "a" = None.
Proof.
  destruct (cache_tx_refines_store (KVS := mem_spec) store ops I) as (H1 & _ & H3 & _). split.
  - rewrite (H3 "b"). by vm_compute.
  - rewrite (H1 "a"). by vm_compute.
Defined.

Lemma prefixed_injective : prefix_injective.
Proof. intros p k k' H%encode_inj. by injection H. Qed.

Lemma prefix_witness :
  kv_Get (run_ops (PrefixKVStore "x" store) ops) "b" = Some "3" ∧
  kv_Get (ps_store (run_ops (PrefixKVStore "x" store) ops)) "a" = Some "1".
Proof.
  destruct (prefix_store_is_isolated (KVS := mem_spec) prefixed_injective store "x" ops I) as [H1 H2]. split.
  - rewrite (H1 "b"). by vm_compute.
  - rewrite H2; [by vm_compute|]. intros k'. by vm_compute.
Defined.
End StoreWitness.
