(* ===== verification/Middleware.v ===== *)
(** * Transaction handlers and middleware

    src/middleware.go (chaining, recovery), src/router.go, src/sequence.go and
    src/auth/auth.go (signatures and nonces).  A handler runs on a [TxWorld]:
    the store the transaction writes to, the nonce cache (a global of package
    auth) and the rest of the node's memory.  What a handler reads of the block
    and the request context is its [TxState].

    Decoding protocol buffers and checking Ed25519 signatures is outside the
    repository: class [TxLib]. *)

From S2P Require Import Prelude Contract Store.

(** ** Sequences *)

(** [binary.Write] and [binary.Read] with [binary.BigEndian]. *)
Fixpoint be_encode (n : nat) (x : Z) : bytes :=
  match n with
  | O => ""
  | S n => String (Ascii.ascii_of_N (Z.to_N (x / 256 ^ Z.of_nat n mod 256))) (be_encode n x)
  end.

Fixpoint be_decode_from (acc : Z) (s : bytes) : Z :=
  match s with
  | "" => acc
  | String c s => be_decode_from (acc * 256 + Z.of_N (Ascii.N_of_ascii c)) s
  end.

Definition be_decode (s : bytes) : Z := be_decode_from 0 s.

Section Sequence.
Context {T : Type} {KV : KVStore T}.

(** [Sequence.Value]: fewer than eight bytes panic. *)
Definition Sequence_Value (key : bytes) (state : T) : Res Z :=
  match kv_Get state key with
  | None => Ok 0
  | Some data =>
      if (String.length data =? 0)%nat then Ok 0
      else if (String.length data <? 8)%nat then Panic
      else Ok (be_decode (String.substring 0 8 data))
  end.

Definition Sequence_Next (key : bytes) : M T Z :=
  seq ← (λ state, (Sequence_Value key state, state));
  let seq := u64 (seq + 1) in
  modify (kv_Set key (be_encode 8 seq));;
  mret seq.
End Sequence.

(** ** Handlers *)

Record NonceHandler := mkNonceHandler {
  nonceCache : gmap string Z;
  lastHeight : Z;
}.

Record TxHandlerResult := mkResult { r_Data : bytes; r_Info : string }.

(** The block header fields and the context value that handlers read. *)
Record TxState := mkTxState {
  ts_ChainID : string;
  ts_Height : Z;
  ts_origin : option Address;
}.

Record TxWorld (T E : Type) := mkTxWorld {
  tw_store : T;
  tw_nonce : NonceHandler;
  tw_env : E;
}.
Arguments mkTxWorld {T E}.
Arguments tw_store {T E}.
Arguments tw_nonce {T E}.
Arguments tw_env {T E}.

Record SignedTx := mkSignedTx { sx_Inner : bytes; sx_PublicKey : bytes; sx_Signature : bytes }.
Record NonceTx := mkNonceTx { nx_Inner : bytes; nx_Sequence : Z }.
Record Transaction := mkTransaction { tx_Id : Z; tx_Data : bytes }.

(** [proto.Unmarshal] of the three messages, [ed25519.Verify], and
    [Address.IsEmpty] of the client library. *)
Class TxLib := {
  unmarshal_SignedTx : bytes → option SignedTx;
  unmarshal_NonceTx : bytes → option NonceTx;
  unmarshal_Transaction : bytes → option Transaction;
  ed25519_Verify : bytes → bytes → bytes → bool;
  address_IsEmpty : Address → bool;
}.

Definition errUnmarshal : error := ErrMsg "proto: unmarshal".

Section Handlers.
Context {LIB : DiademLib} {TXL : TxLib} {T E : Type} {KV : KVStore T}.
Abbreviation W := (TxWorld T E).

Definition TxHandler : Type := TxState → bytes → bool → M W TxHandlerResult.
Definition TxMiddleware : Type := TxState → bytes → TxHandler → bool → M W TxHandlerResult.
Definition PostCommitHandler : Type := TxState → bytes → TxHandlerResult → M W unit.
Definition PostCommitMiddleware : Type :=
  TxState → bytes → TxHandlerResult → PostCommitHandler → M W unit.

(** Both chains are built from the last element on. *)
Definition MiddlewareTxHandler (middlewares : list TxMiddleware) (handler : TxHandler)
    (postMiddlewares : list PostCommitMiddleware) : TxHandler :=
  let postChain : PostCommitHandler :=
    foldr (λ m localNext, λ state txBytes res, m state txBytes res localNext)
      (λ _ _ _, mret ()) postMiddlewares in
  let next : TxHandler := λ state txBytes isCheckTx,
    result ← handler state txBytes isCheckTx;
    postChain state txBytes result;;
    mret result in
  foldr (λ m nextLocal, λ state txBytes isCheckTx, m state txBytes nextLocal isCheckTx)
    next middlewares.

Definition NoopTxHandler : TxHandler := λ _ _ _, mret (mkResult "" "").

(** A panic becomes an error; what was written before it stays. *)
Definition RecoveryTxMiddleware : TxMiddleware := λ state txBytes next isCheckTx w,
  match next state txBytes isCheckTx w with
  | (Panic, w') => (Err (ErrMsg "panic"), w')
  | r => r
  end.

Definition LogTxMiddleware : TxMiddleware := λ state txBytes next isCheckTx,
  next state txBytes isCheckTx.

Definition LogPostCommitMiddleware : PostCommitMiddleware := λ state txBytes res next,
  next state txBytes res.

(** ** Signatures *)

Definition GetOrigin (tx : SignedTx) (chainId : string) : Res Address :=
  if negb (String.length (sx_PublicKey tx) =? 32)%nat
  then Err (ErrMsg "invalid public key length")
  else if negb (String.length (sx_Signature tx) =? 64)%nat
  then Err (ErrMsg "invalid signature ed25519 signature size length")
  else if negb (ed25519_Verify (sx_PublicKey tx) (sx_Inner tx) (sx_Signature tx))
  then Err (ErrMsg "invalid signature ed25519 verify")
  else Ok (mkAddress chainId (local_from_pubkey (sx_PublicKey tx))).

Definition SignatureTxMiddleware : TxMiddleware := λ state txBytes next isCheckTx,
  match unmarshal_SignedTx txBytes with
  | None => throw errUnmarshal
  | Some tx =>
      origin ← lift_res (GetOrigin tx (ts_ChainID state));
      next (mkTxState (ts_ChainID state) (ts_Height state) (Some origin)) (sx_Inner tx) isCheckTx
  end.

(** ** Nonces *)

Definition nonceKey (addr : Address) : bytes := prefix_key ["nonce"; address_bytes addr].

Definition Nonce (state : T) (addr : Address) : Res Z := Sequence_Value (nonceKey addr) state.

Definition on_tx {A} (m : M T A) : M W A :=
  zoom tw_store (λ t w, mkTxWorld t (tw_nonce w) (tw_env w)) m.
Definition put_nonce (n : NonceHandler) : M W unit :=
  modify (λ w, mkTxWorld (tw_store w) n (tw_env w)).

(** [Origin]: the type assertion panics when no origin was set. *)
Definition Origin (state : TxState) : M W Address := deref (ts_origin state).

(** The cache entry of an address; a missing entry reads as zero. *)
Definition cached (n : NonceHandler) (origin : Address) : Z :=
  default 0 (nonceCache n !! address_string origin).
Definition with_cached (n : NonceHandler) (origin : Address) (seq : Z) : NonceHandler :=
  mkNonceHandler (<[address_string origin := seq]> (nonceCache n)) (lastHeight n).

Definition NonceHandler_Nonce : TxMiddleware := λ state txBytes next isCheckTx,
  origin ← Origin state;
  guard_not (address_IsEmpty origin) (ErrMsg "transaction has no origin [nonce]");;
  n ← gets tw_nonce;
  (if negb (lastHeight n =? ts_Height state) then put_nonce (mkNonceHandler ∅ (ts_Height state))
   else mret ());;
  seq ← on_tx (Sequence_Next (nonceKey origin));
  match unmarshal_NonceTx txBytes with
  | None => throw errUnmarshal
  | Some tx =>
      n ← gets tw_nonce;
      let cacheSeq := cached n origin in
      seq ← (if negb (cacheSeq =? 0) && isCheckTx then mret cacheSeq
             else put_nonce (with_cached n origin seq);; mret seq);
      guard_not (negb (nx_Sequence tx =? seq))
        (ErrMsg "sequence number does not match expected");;
      next state (nx_Inner tx) isCheckTx
  end.

(** [IncNonce] ends the post-commit chain. *)
Definition NonceHandler_IncNonce : PostCommitMiddleware := λ state txBytes result postcommit,
  origin ← Origin state;
  guard_not (address_IsEmpty origin) (ErrMsg "transaction has no origin [IncNonce]");;
  n ← gets tw_nonce;
  put_nonce (with_cached n origin (u64 (cached n origin + 1))).

(** ** The router *)

Definition RouteHandler : Type := Z → TxState → bytes → bool → M W TxHandlerResult.

Record TxRouter := mkTxRouter {
  deliverTxRoutes : gmap Z RouteHandler;
  checkTxRoutes : gmap Z RouteHandler;
}.

Definition NewTxRouter : TxRouter := mkTxRouter ∅ ∅.

Definition HandleDeliverTx (txID : Z) (handler : RouteHandler) (r : TxRouter) : Res TxRouter :=
  match deliverTxRoutes r !! txID with
  | Some _ => Panic
  | None => Ok (mkTxRouter (<[txID := handler]> (deliverTxRoutes r)) (checkTxRoutes r))
  end.

Definition HandleCheckTx (txID : Z) (handler : RouteHandler) (r : TxRouter) : Res TxRouter :=
  match checkTxRoutes r !! txID with
  | Some _ => Panic
  | None => Ok (mkTxRouter (deliverTxRoutes r) (<[txID := handler]> (checkTxRoutes r)))
  end.

Definition GeneratePassthroughRouteHandler (txHandler : TxHandler) : RouteHandler :=
  λ txID state txBytes isCheckTx, txHandler state txBytes isCheckTx.

Definition GenerateConditionalRouteHandler
    (conditionFn : Z → TxState → bytes → bool → M W bool) (onTrue onFalse : TxHandler) :
    RouteHandler := λ txId state txBytes isCheckTx,
  c ← conditionFn txId state txBytes isCheckTx;
  if (c : bool) then onTrue state txBytes isCheckTx else onFalse state txBytes isCheckTx.

(** A missing route is a nil function, whose call panics. *)
Definition TxRouter_ProcessTx (r : TxRouter) : TxHandler := λ state txBytes isCheckTx,
  match unmarshal_Transaction txBytes with
  | None => throw errUnmarshal
  | Some tx =>
      let routeHandler :=
        if isCheckTx then checkTxRoutes r !! tx_Id tx else deliverTxRoutes r !! tx_Id tx in
      match routeHandler with
      | None => panic
      | Some h => h (tx_Id tx) state (tx_Data tx) isCheckTx
      end
  end.
End Handlers.

(** ** Sequences count *)

Lemma be_decode_from_encode n acc x :
  0 <= x →
  be_decode_from acc (be_encode n x) = acc * 256 ^ Z.of_nat n + x mod 256 ^ Z.of_nat n.
Proof.
  intros Hx. revert acc. induction n as [|n IH]; intros acc; cbn [be_encode be_decode_from].
  { rewrite Z.pow_0_r, Z.mod_1_r. lia. }
  rewrite IH. set (b := 256 ^ Z.of_nat n).
  assert (Hb : 0 < b) by (apply Z.pow_pos_nonneg; lia).
  replace (256 ^ Z.of_nat (S n)) with (b * 256) by (rewrite Nat2Z.inj_succ, Z.pow_succ_r; lia).
  assert (Hbyte : 0 <= x / b mod 256 < 256) by (apply Z.mod_pos_bound; lia).
  rewrite Ascii.N_ascii_embedding by lia. rewrite Z2N.id by lia.
  rewrite (Z.rem_mul_r x b 256) by lia. lia.
Qed.

Lemma be_encode_length n x : String.length (be_encode n x) = n.
Proof. induction n as [|n IH]; [done|]. cbn. by rewrite IH. Qed.

Lemma substring_all (s : string) : String.substring 0 (String.length s) s = s.
Proof. induction s as [|c s IH]; [done|]. cbn. by rewrite IH. Qed.

Lemma be_roundtrip x : 0 <= x < 2 ^ 64 → be_decode (be_encode 8 x) = x.
Proof.
  intros Hx. unfold be_decode. rewrite be_decode_from_encode by lia.
  change (256 ^ Z.of_nat 8) with (2 ^ 64). rewrite Z.mod_small; lia.
Qed.

Section SequenceProps.
Context {T : Type} {KV : KVStore T} {KVS : KVStoreSpec T}.

Lemma Sequence_Value_set key seq (s : T) :
  kv_ok s → 0 <= seq < 2 ^ 64 →
  Sequence_Value key (kv_Set key (be_encode 8 seq) s) = Ok seq.
Proof.
  intros Hs Hseq. unfold Sequence_Value. rewrite kv_Get_Set by done. rewrite decide_True by done.
  rewrite be_encode_length. change (8 =? 0)%nat with false. change (8 <? 8)%nat with false.
  cbv iota. pose proof (substring_all (be_encode 8 seq)) as Hall.
  rewrite be_encode_length in Hall. by rewrite Hall, be_roundtrip.
Qed.

Lemma Sequence_Next_run key v (s : T) :
  Sequence_Value key s = Ok v →
  Sequence_Next key s = (Ok (u64 (v + 1)), kv_Set key (be_encode 8 (u64 (v + 1))) s).
Proof. intros Hv. unfold Sequence_Next. m_eval. by rewrite Hv. Qed.

(** A sequence counts: [Next] returns one more than the current value
    (modulo 2^64), stores it in eight big-endian bytes so that [Value] reads it
    back, and touches no other key. *)
Theorem sequence_counts key v (s : T) :
  kv_ok s → Sequence_Value key s = Ok v →
  let '(r, s') := Sequence_Next key s in
  r = Ok (u64 (v + 1)) ∧ Sequence_Value key s' = Ok (u64 (v + 1)) ∧
  ∀ k, k ≠ key → kv_Get s' k = kv_Get s k.
Proof.
  intros Hs Hv. rewrite (Sequence_Next_run key v) by done. split_and!; [done| |].
  - apply Sequence_Value_set; [done|apply u64_range].
  - intros k Hk. rewrite kv_Get_Set by done. by rewrite decide_False.
Qed.
End SequenceProps.

(** ** Nonces *)

Section NonceProps.
Context {LIB : DiademLib} {TXL : TxLib} {T E : Type} {KV : KVStore T} {KVS : KVStoreSpec T}.
Abbreviation W := (TxWorld T E).
Implicit Types w : W.

(** The nonce cache as a transaction at height [h] finds it. *)
Definition cache_at (n : NonceHandler) (h : Z) : NonceHandler :=
  if lastHeight n =? h then n else mkNonceHandler ∅ h.

(** The sequence number the middleware expects. *)
Definition expected_seq (n : NonceHandler) (origin : Address) (v : Z) (isCheckTx : bool) : Z :=
  if negb (cached n origin =? 0) && isCheckTx then cached n origin else u64 (v + 1).

(** The world in which the middleware calls the next handler. *)
Definition nonce_passed (state : TxState) (origin : Address) (v : Z) (isCheckTx : bool) w : W :=
  let n := cache_at (tw_nonce w) (ts_Height state) in
  mkTxWorld (kv_Set (nonceKey origin) (be_encode 8 (u64 (v + 1))) (tw_store w))
    (if negb (cached n origin =? 0) && isCheckTx then n
     else with_cached n origin (u64 (v + 1)))
    (tw_env w).

Lemma Nonce_run state origin v tx txBytes next isCheckTx w :
  ts_origin state = Some origin → address_IsEmpty origin = false →
  Nonce (tw_store w) origin = Ok v →
  unmarshal_NonceTx txBytes = Some tx →
  NonceHandler_Nonce state txBytes next isCheckTx w =
    let w1 := nonce_passed state origin v isCheckTx w in
    if nx_Sequence tx =? expected_seq (cache_at (tw_nonce w) (ts_Height state)) origin v isCheckTx
    then next state (nx_Inner tx) isCheckTx w1
    else (Err (ErrMsg "sequence number does not match expected"), w1).
Proof.
  intros Ho He Hv Htx. unfold NonceHandler_Nonce, Origin, on_tx, put_nonce, nonce_passed,
    expected_seq, cache_at. rewrite Ho. m_eval. rewrite He.
  unfold Nonce in Hv.
  destruct (lastHeight (tw_nonce w) =? ts_Height state); cbn [negb tw_store tw_nonce tw_env];
    rewrite (Sequence_Next_run _ v) by done; cbv beta iota; rewrite Htx;
    cbn [tw_store tw_nonce tw_env]; destruct (_ && isCheckTx); cbv beta iota zeta;
    destruct (nx_Sequence tx =? _); done.
Qed.

(** While delivering a transaction the nonce middleware lets exactly the
    next sequence number through: it calls the rest of the chain when the
    number is the stored nonce plus one, with the nonce already advanced in the
    transaction's store, and otherwise fails; the cache used for checking
    plays no part. *)
Theorem nonce_lets_exactly_next_through state origin v tx txBytes next w :
  kv_ok (tw_store w) →
  ts_origin state = Some origin → address_IsEmpty origin = false →
  Nonce (tw_store w) origin = Ok v →
  unmarshal_NonceTx txBytes = Some tx →
  ∃ w1,
    tw_env w1 = tw_env w ∧ Nonce (tw_store w1) origin = Ok (u64 (v + 1)) ∧
    (∀ k, k ≠ nonceKey origin → kv_Get (tw_store w1) k = kv_Get (tw_store w) k) ∧
    NonceHandler_Nonce state txBytes next false w =
      if decide (nx_Sequence tx = u64 (v + 1)) then next state (nx_Inner tx) false w1
      else (Err (ErrMsg "sequence number does not match expected"), w1).
Proof.
  intros Hok Ho He Hv Htx. exists (nonce_passed state origin v false w). split_and!; [done| | |].
  - apply Sequence_Value_set; [done|apply u64_range].
  - intros k Hk. cbn. rewrite kv_Get_Set by done. by rewrite decide_False.
  - rewrite (Nonce_run state origin v tx) by done. cbv zeta. unfold expected_seq.
    rewrite andb_false_r. destruct (Z.eqb_spec (nx_Sequence tx) (u64 (v + 1))); case_decide; done.
Qed.

(** Checking with the middleware and [IncNonce] around a handler that succeeds. *)
Definition checked (next : TxHandler (T := T) (E := E)) : TxHandler :=
  MiddlewareTxHandler [NonceHandler_Nonce] next [NonceHandler_IncNonce].

(** Checking transactions of one sender within a block, none of which is
    committed yet, lets consecutive sequence numbers through: after a check has
    accepted number [n], the next check at the same height accepts exactly
    [n + 1], although the stored nonce has not moved. *)
Theorem check_accepts_consecutive state origin v tx txBytes tx' txBytes' w w1 r :
  ts_origin state = Some origin → address_IsEmpty origin = false →
  Nonce (tw_store w) origin = Ok v → 0 <= v →
  unmarshal_NonceTx txBytes = Some tx → unmarshal_NonceTx txBytes' = Some tx' →
  0 <= nx_Sequence tx < 2 ^ 64 - 1 →
  checked NoopTxHandler state txBytes true w = (Ok r, w1) →
  let w2 := mkTxWorld (tw_store w) (tw_nonce w1) (tw_env w1) in
  is_ok (checked NoopTxHandler state txBytes' true w2).1 = true ↔
    nx_Sequence tx' = nx_Sequence tx + 1.
Proof.
  intros Ho He Hv Hv0 Htx Htx' Hseq. unfold checked, MiddlewareTxHandler. cbn [foldr].
  set (tail := λ st b c, NoopTxHandler st b c ≫= _).
  assert (Htail : ∀ b wx, tail state b true wx =
    (Ok (mkResult "" ""), mkTxWorld (tw_store wx)
       (with_cached (tw_nonce wx) origin (u64 (cached (tw_nonce wx) origin + 1))) (tw_env wx))).
  { intros b wx. unfold tail, NoopTxHandler, NonceHandler_IncNonce, Origin, put_nonce.
    rewrite Ho. m_eval. by rewrite He. }
  rewrite (Nonce_run state origin v tx) by done. cbv zeta.
  destruct (Z.eqb_spec (nx_Sequence tx) (expected_seq (cache_at (tw_nonce w) (ts_Height state))
    origin v true)) as [Heq|]; [|done].
  rewrite Htail. remember (tw_nonce (nonce_passed state origin v true w)) as n1 eqn:Hn1.
  intros [= <- <-].
  assert (Hc1 : cached n1 origin = nx_Sequence tx ∧ lastHeight n1 = ts_Height state).
  { rewrite Heq, Hn1. unfold nonce_passed, expected_seq. cbn [tw_nonce].
    set (n := cache_at _ _). assert (Hh : lastHeight n = ts_Height state)
      by (unfold n, cache_at; destruct (Z.eqb_spec (lastHeight (tw_nonce w)) (ts_Height state)); done).
    destruct (_ && true); [done|]. unfold cached, with_cached. cbn. by rewrite lookup_insert_eq. }
  destruct Hc1 as [Hc1 Hh1]. clear Hn1 Heq.
  rewrite (Nonce_run state origin v tx') by done. cbv zeta. cbn [tw_nonce].
  assert (Hat : cache_at (with_cached n1 origin (u64 (cached n1 origin + 1))) (ts_Height state)
    = with_cached n1 origin (u64 (cached n1 origin + 1))).
  { unfold cache_at. change (lastHeight (with_cached _ _ _)) with (lastHeight n1).
    by rewrite Hh1, Z.eqb_refl. }
  rewrite Hat, Hc1, (u64_small (nx_Sequence tx + 1)) by lia.
  unfold expected_seq at 1. unfold cached at 1 2, with_cached at 1 2. cbn [nonceCache].
  rewrite lookup_insert_eq. cbn [default]. unfold id. rewrite (proj2 (Z.eqb_neq _ 0)) by lia. cbn [negb andb].
  destruct (Z.eqb_spec (nx_Sequence tx') (nx_Sequence tx + 1)); [|cbn; done].
  rewrite Htail. done.
Qed.
End NonceProps.

(** ** Witnesses *)

Module MiddlewareWitness.
Import SimpleLib.
#[local] Instance mem : KVStore MemStore := mem_kvstore (λ k p, Some k).
#[local] Instance mem_spec : KVStoreSpec MemStore := mem_kvstore_spec (λ k p, Some k).

(** A nonce transaction is a number in unary. *)
#[local] Instance txlib : TxLib := {
  unmarshal_SignedTx b := None;
  unmarshal_NonceTx b := Some (mkNonceTx b (Z.of_nat (String.length b)));
  unmarshal_Transaction b := None;
  ed25519_Verify pk msg sig := false;
  address_IsEmpty a := false;
}.

Definition state : TxState := mkTxState "diadem" 5 (Some (sample "a")).
Definition world : TxWorld MemStore unit := mkTxWorld NewMemStore (mkNonceHandler ∅ 0) ().

Lemma sequence_witness :
  Sequence_Value "k" (Sequence_Next "k" NewMemStore).2 = Ok 1.
Proof.
  pose proof (sequence_counts "k" 0 NewMemStore (KVS := mem_spec) I eq_refl) as H.
  destruct (Sequence_Next "k" NewMemStore) as [r s']. cbn. by destruct H as (_ & -> & _).
Defined.

Lemma nonce_witness :
  ∃ w1, NonceHandler_Nonce state "|" NoopTxHandler false world = (Ok (mkResult "" ""), w1) ∧
        Nonce (tw_store w1) (sample "a") = Ok 1.
Proof.
  destruct (nonce_lets_exactly_next_through (KVS := mem_spec) state (sample "a") 0
    (mkNonceTx "|" 1) "|" NoopTxHandler world) as (w1 & _ & Hn & _ & Hrun); try done.
  exists w1. split; [|exact Hn]. rewrite Hrun. by rewrite decide_True.
Defined.

Lemma check_witness :
  let w1 := (checked NoopTxHandler state "|" true world).2 in
  is_ok (checked NoopTxHandler state "||" true
    (mkTxWorld NewMemStore (tw_nonce w1) ())).1 = true.
Proof.
  intros w1. apply (check_accepts_consecutive state (sample "a") 0 (mkNonceTx "|" 1) "|"
    (mkNonceTx "||" 2) "||" world w1 (mkResult "" "")); done.
Defined.
End MiddlewareWitness.
