(* ===== verification/App.v ===== *)
(** * The ABCI application (src/app.go)

    [AppState] is the application's memory: the versioned store, the block
    headers, the nonce cache and the memory of the components it calls.  The
    components themselves (transaction handler, receipt handlers, validator and
    chain config managers, origin handler) are fields of [Application] as in the
    code.  Every callback that gets a [StoreState] runs on the transaction the
    application opened for it; [with_tx] runs it and [commit_tx] commits.
    Metrics, logs and the events emitted by a goroutine after a commit are left
    out. *)

From S2P Require Import Prelude Contract Store Middleware.

Record Header := mkHeader { hd_ChainID : string; hd_Height : Z; hd_Time : Z }.

Definition empty_header : Header := mkHeader "" 0 0.

Definition featureKey `{DiademLib} (featureName : string) : bytes :=
  prefix_key ["feature"; featureName].

(** [binary.LittleEndian.PutUint64] *)
Fixpoint le_encode (n : nat) (x : Z) : bytes :=
  match n with
  | O => ""
  | S n => String (Ascii.ascii_of_N (Z.to_N (x mod 256))) (le_encode n (x / 256))
  end.

Definition EvmDBMapperKey `{DiademLib} (blockHeight : Z) : bytes :=
  prefix_key ["evmdbmapper"; le_encode 8 (u64 blockHeight)].

Definition evmRootKey : bytes := "vmroot".
Definition EvmTxReceiptsVersion2Feature : string := "receipts:v2".

Section Features.
Context {LIB : DiademLib} {T : Type} {KV : KVStore T}.

Definition FeatureEnabled (state : T) (name : string) (val : bool) : bool :=
  match kv_Get state (featureKey name) with
  | None => val
  | Some data =>
      if (String.length data =? 0)%nat then val
      else String.eqb data (String (Ascii.ascii_of_nat 1) "")
  end.

Definition SetFeature (name : string) (val : bool) (state : T) : T :=
  kv_Set (featureKey name)
    (String (Ascii.ascii_of_nat (if val then 1 else 0)%nat) "") state.
End Features.

(** ** The application *)

Section App.
Context {LIB : DiademLib} {S E U B : Type} {KV : KVStore S} {VKV : VersionedKVStore S}.

(** The world of a callback: the open transaction and the node's memory. *)
Abbreviation TxW := (TxWorld (cacheTx S) E).

Record AppState := mkApp {
  app_store : S;
  app_nonce : NonceHandler;
  app_env : E;
  app_curBlockHeader : Header;
  app_lastBlockHeader : Header;
  app_curBlockHash : bytes;
}.

(** [WriteReceiptHandler], the methods the application calls. *)
Record ReceiptHandler := mkReceiptHandler {
  rh_CommitBlock : Z → M TxW unit;
  rh_DiscardCurrentReceipt : M E unit;
  rh_CommitCurrentReceipt : M E unit;
}.

(** [ValidatorsManager]; [B] is the request of [BeginBlock], [U] a validator
    update. *)
Record ValidatorsManager := mkValidatorsManager {
  vm_BeginBlock : B → Z → M TxW unit;
  vm_EndBlock : Z → M TxW (list U);
}.

Record Application := mkApplication {
  a_Init : option (M (TxWorld S E) unit);
  a_TxHandler : TxHandler (T := cacheTx S) (E := E);
  a_StoreAt : Z → bool → M E ReceiptHandler;
  a_EmitLegacyTxEvent : bytes → string → M E unit;
  a_EmitReceiptTxEvent : Z → bool → M E unit;
  a_ValidateOrigin : bytes → string → Z → M E unit;
  a_ResetOrigin : Z → M E unit;
  a_CreateValidatorManager : M TxW ValidatorsManager;
  a_CreateChainConfigManager : M TxW (option (Z → M TxW unit));
  a_CreateContractUpkeepHandler : option (M TxW (option (M TxW unit)));
}.

Definition put_store (s : S) (a : AppState) : AppState :=
  mkApp s (app_nonce a) (app_env a) (app_curBlockHeader a) (app_lastBlockHeader a)
    (app_curBlockHash a).
Definition put_memory (n : NonceHandler) (e : E) (a : AppState) : AppState :=
  mkApp (app_store a) n e (app_curBlockHeader a) (app_lastBlockHeader a) (app_curBlockHash a).

Definition on_env {A} (m : M E A) : M AppState A :=
  zoom app_env (λ e a, put_memory (app_nonce a) e a) m.

(** An error that the code turns into a panic. *)
Definition must {A} (m : M AppState A) : M AppState A :=
  r ← try_ m;
  match r with inl x => mret x | inr _ => panic end.

(** Running a callback on a transaction: its outcome and the transaction. *)
Definition with_tx {A} (tx : cacheTx S) (m : M TxW A) : M AppState ((A + error) * cacheTx S) :=
  λ a,
    match m (mkTxWorld tx (app_nonce a) (app_env a)) with
    | (Ok x, w) => (Ok (inl x, tw_store w), put_memory (tw_nonce w) (tw_env w) a)
    | (Err e, w) => (Ok (inr e, tw_store w), put_memory (tw_nonce w) (tw_env w) a)
    | (Panic, w) => (Panic, put_memory (tw_nonce w) (tw_env w) a)
    end.

(** The same when every error is a panic. *)
Definition must_tx {A} (tx : cacheTx S) (m : M TxW A) : M AppState (A * cacheTx S) :=
  out ← with_tx tx m;
  match out with
  | (inl x, tx) => mret (x, tx)
  | (inr _, _) => panic
  end.

Definition begin_tx : M AppState (cacheTx S) := gets (λ a, newCacheTx (app_store a)).
Definition commit_tx (tx : cacheTx S) : M AppState unit := modify (put_store (cx_store (Commit tx))).

Definition height (a : AppState) : Z := vkv_Version (app_store a) + 1.

Definition tx_state (a : AppState) : TxState :=
  mkTxState (hd_ChainID (app_curBlockHeader a)) (hd_Height (app_curBlockHeader a)) None.

Definition Info (a : AppState) : bytes * Z :=
  (vkv_Hash (app_store a), vkv_Version (app_store a)).

Definition InitChain (app : Application) : M AppState unit :=
  h ← gets height;
  if negb (h =? 1) then panic
  else
    match a_Init app with
    | None => mret ()
    | Some init => λ a,
        match init (mkTxWorld (app_store a) (app_nonce a) (app_env a)) with
        | (r, w) =>
            (match r with Ok () => Ok () | _ => Panic end,
             put_store (tw_store w) (put_memory (tw_nonce w) (tw_env w) a))
        end
    end.

Definition set_block (block : Header) (hash : bytes) : M AppState unit :=
  modify (λ a, mkApp (app_store a) (app_nonce a) (app_env a) block (app_lastBlockHeader a) hash).

Definition BeginBlock (app : Application) (block : Header) (hash : bytes) (req : B) :
    M AppState unit :=
  h ← gets height;
  if negb (hd_Height block =? h) then panic
  else
    set_block block hash;;
    match a_CreateContractUpkeepHandler app with
    | None => mret ()
    | Some create =>
        upkeepStoreTx ← begin_tx;
        out ← must_tx upkeepStoreTx create;
        let '(contractUpkeepHandler, upkeepStoreTx) := out in
        match contractUpkeepHandler with
        | None => mret ()
        | Some upkeep =>
            out ← must_tx upkeepStoreTx upkeep;
            commit_tx out.2
        end
    end;;
    on_env (a_ResetOrigin app (hd_Height block));;
    storeTx ← begin_tx;
    out ← with_tx storeTx (a_CreateValidatorManager app);
    storeTx ← match out with
              | (inr ErrNotFound, storeTx) => mret storeTx
              | (inr _, _) => panic
              | (inl validatorManager, storeTx) =>
                  h ← gets height;
                  out ← must_tx storeTx (vm_BeginBlock validatorManager req h);
                  mret out.2
              end;
    out ← must_tx storeTx (a_CreateChainConfigManager app);
    let '(chainConfigManager, storeTx) := out in
    storeTx ← match chainConfigManager with
              | None => mret storeTx
              | Some enableFeatures =>
                  h ← gets height;
                  out ← must_tx storeTx (enableFeatures h);
                  mret out.2
              end;
    commit_tx storeTx.

Definition EndBlock (app : Application) (reqHeight : Z) : M AppState (list U) :=
  h ← gets height;
  if negb (reqHeight =? h) then panic
  else
    storeTx ← begin_tx;
    receiptHandler ← must (on_env (a_StoreAt app h
      (FeatureEnabled storeTx EvmTxReceiptsVersion2Feature false)));
    out ← with_tx storeTx (rh_CommitBlock receiptHandler h);
    match out with
    | (inr _, _) => mret ()
    | (inl _, storeTx) => commit_tx storeTx
    end;;
    storeTx ← begin_tx;
    out ← with_tx storeTx (a_CreateValidatorManager app);
    match out with
    | (inr ErrNotFound, _) => mret []
    | (inr _, _) => panic
    | (inl validatorManager, storeTx) =>
        out ← must_tx storeTx (vm_EndBlock validatorManager reqHeight);
        commit_tx out.2;;
        mret out.1
    end.

Definition is_evm_result (r : TxHandlerResult) : bool :=
  String.eqb (r_Info r) "call.evm" || String.eqb (r_Info r) "deploy.evm".

Definition processTx (app : Application) (txBytes : bytes) (isCheckTx : bool) :
    M AppState TxHandlerResult :=
  storeTx ← begin_tx;
  state ← gets tx_state;
  (if isCheckTx then
     on_env (a_ValidateOrigin app txBytes (ts_ChainID state) (ts_Height state))
   else mret ());;
  h ← gets height;
  receiptHandler ← must (on_env (a_StoreAt app h
    (FeatureEnabled storeTx EvmTxReceiptsVersion2Feature false)));
  out ← with_tx storeTx (a_TxHandler app state txBytes isCheckTx);
  match out with
  | (inr e, storeTx) =>
      (* [storeTx.Rollback()]: the transaction is dropped *)
      on_env (rh_DiscardCurrentReceipt receiptHandler);;
      throw e
  | (inl r, storeTx) =>
      (if isCheckTx then mret ()
       else
         (if is_evm_result r then
            ignore_err (on_env (a_EmitLegacyTxEvent app (r_Data r) (r_Info r)));;
            ignore_err (on_env (a_EmitReceiptTxEvent app (ts_Height state)
              (FeatureEnabled storeTx EvmTxReceiptsVersion2Feature false)));;
            on_env (rh_CommitCurrentReceipt receiptHandler)
          else mret ());;
         commit_tx storeTx);;
      mret r
  end.

(** [Code], [Data], [Info] of a response. *)
Record Response := mkResponse { resp_Code : Z; resp_Data : bytes; resp_Info : string }.
Definition CodeTypeOK : Z := 0.

Definition CheckTx (app : Application) (txBytes : bytes) : M AppState Response :=
  cur ← gets app_curBlockHeader;
  if hd_Height cur =? 0 then mret (mkResponse CodeTypeOK "" "")
  else
    r ← try_ (processTx app txBytes true);
    match r with
    | inl _ => mret (mkResponse CodeTypeOK "" "")
    | inr _ => mret (mkResponse 1 "" "")
    end.

Definition DeliverTx (app : Application) (txBytes : bytes) : M AppState Response :=
  r ← try_ (processTx app txBytes false);
  match r with
  | inl r => mret (mkResponse CodeTypeOK (r_Data r) (r_Info r))
  | inr _ => mret (mkResponse 1 "" "")
  end.

(** [Application.Commit]: when the version cannot be saved the EVM root is set back to the
    previous block's and the node panics; pruning errors are only logged. *)
Definition Application_Commit (app : Application) : M AppState bytes := λ a,
  match vkv_SaveVersion (app_store a) with
  | (Ok (appHash, _), s) =>
      let a := mkApp s (app_nonce a) (app_env a) (app_curBlockHeader a)
        (app_curBlockHeader a) (app_curBlockHash a) in
      match vkv_Prune s with
      | (Panic, s') => (Panic, put_store s' a)
      | (_, s') => (Ok appHash, put_store s' a)
      end
  | (Err _, s) =>
      match kv_Get s (EvmDBMapperKey (hd_Height (app_curBlockHeader a) - 1)) with
      | Some previousBlockRoot => (Panic, put_store (kv_Set evmRootKey previousBlockRoot s) a)
      | None => (Panic, put_store s a)
      end
  | (Panic, s) => (Panic, put_store s a)
  end.
End App.

(** ** Atomicity *)

Section Atomicity.
Context {LIB : DiademLib} {S E U B : Type} {KV : KVStore S} {VKV : VersionedKVStore S}
  {KVS : KVStoreSpec S}.
Abbreviation TxW := (TxWorld (cacheTx S) E).
Abbreviation AppS := (AppState (S := S) (E := E)).
Abbreviation App := (Application (S := S) (E := E) (U := U) (B := B)).
Implicit Types (a : AppS) (app : App).

(** Code that keeps the application's store. *)
Definition keeps_store {A} (m : M AppS A) : Prop :=
  ∀ s, preserves (λ a, app_store a = s) m.

Lemma keeps_on_env {A} (m : M E A) : keeps_store (on_env m).
Proof. intros s. by apply preserves_zoom. Qed.

Lemma keeps_must {A} (m : M AppS A) : keeps_store m → keeps_store (must m).
Proof. intros Hm s. specialize (Hm s). unfold must. pres. Qed.

Lemma keeps_with_tx {A} tx (m : M TxW A) : keeps_store (with_tx tx m).
Proof. intros s a Ha. unfold wp, with_tx. by destruct (m _) as [[| |] w]. Qed.

Lemma keeps_store_eq {A} (m : M AppS A) a r a' :
  keeps_store m → m a = (r, a') → app_store a' = app_store a.
Proof. intros Hm H. pose proof (Hm (app_store a) a eq_refl) as Hp. unfold wp in Hp. by rewrite H in Hp. Qed.

(** The part of [processTx] before the transaction handler. *)
Lemma processTx_check_keeps app txBytes : keeps_store (processTx app txBytes true).
Proof.
  intros s. unfold processTx, begin_tx. pose proof (λ A (m : M E A), keeps_on_env m s) as H1.
  pose proof (λ A (m : M E A), keeps_must (on_env m) (keeps_on_env m) s) as H2.
  pose proof (λ A tx (m : M TxW A), keeps_with_tx tx m s) as H3. pres.
Qed.

Lemma CheckTx_store app txBytes a : app_store (CheckTx app txBytes a).2 = app_store a.
Proof.
  assert (Hk : keeps_store (CheckTx app txBytes)).
  { intros s. pose proof (processTx_check_keeps app txBytes s). unfold CheckTx. pres. }
  by apply (Hk (app_store a)).
Qed.

(** Checking a transaction never changes the application's state, whatever
    the transaction handler writes and however it ends. *)
Theorem check_tx_is_read_only app txBytes a :
  app_store (CheckTx app txBytes a).2 = app_store a.
Proof. apply CheckTx_store. Qed.

(** Calls to other components change only the node's memory. *)
Lemma wp_on_env {A} (m : M E A) (Q : Res A → AppS → Prop) a :
  (∀ r e, Q r (put_memory (app_nonce a) e a)) → wp (on_env m) Q a.
Proof. intros H. unfold wp, on_env, zoom. destruct (m (app_env a)). apply H. Qed.

Lemma wp_must {A} (m : M AppS A) (Q : Res A → AppS → Prop) a :
  wp m (λ r a', match r with Ok x => Q (Ok x) a' | _ => Q Panic a' end) a → wp (must m) Q a.
Proof.
  intros H. unfold must. apply wp_bind, wp_try. eapply wp_mono; [exact H|].
  by intros [x|e|] a'.
Qed.

Lemma wp_ignore_env (m : M E unit) (Q : Res unit → AppS → Prop) a :
  (∀ e, Q (Ok ()) (put_memory (app_nonce a) e a)) →
  (∀ e, Q Panic (put_memory (app_nonce a) e a)) →
  wp (ignore_err (on_env m)) Q a.
Proof.
  intros Hok Hp. unfold ignore_err. apply wp_bind, wp_try, wp_on_env.
  intros [|e0|] env; [apply wp_ret, Hok|apply wp_ret, Hok|apply Hp].
Qed.

(** What a delivery has done when it did not crash the node: the world the
    handler started in, its outcome, and what became of the store. *)
Definition delivered app txBytes a (r : Res TxHandlerResult) a' : Prop :=
  ∃ w0 out w1,
    tw_store w0 = newCacheTx (app_store a) ∧ tw_nonce w0 = app_nonce a ∧
    a_TxHandler app (tx_state a) txBytes false w0 = (out, w1) ∧
    match out with
    | Ok res => r = Ok res ∧ app_store a' = cx_store (Commit (tw_store w1))
    | Err _ => is_ok r = false ∧ app_store a' = app_store a
    | Panic => False
    end.

Lemma processTx_deliver app txBytes a :
  wp (processTx app txBytes false) (λ r a', r = Panic ∨ delivered app txBytes a r a' ∨
    is_ok r = false ∧ app_store a' = app_store a) a.
Proof.
  unfold processTx, begin_tx. apply wp_bind, wp_gets. apply wp_bind, wp_gets.
  apply wp_bind, wp_ret. apply wp_bind, wp_gets. apply wp_bind, wp_must, wp_on_env.
  intros [rh|e|] env; [|by left|by left]. set (a1 := put_memory _ env a).
  apply wp_bind. unfold wp at 1, with_tx.
  destruct (a_TxHandler app (tx_state a) txBytes false
    (mkTxWorld (newCacheTx (app_store a)) (app_nonce a1) (app_env a1))) as [out w1] eqn:Hh.
  assert (Hd : ∀ r a', match out with
    | Ok res => r = Ok res ∧ app_store a' = cx_store (Commit (tw_store w1))
    | Err _ => is_ok r = false ∧ app_store a' = app_store a
    | Panic => False
    end → delivered app txBytes a r a').
  { intros r a' H. eexists _, out, w1. split_and!; [| |exact Hh|exact H]; done. }
  destruct out as [res|e|]; cbn [fst snd]; [| |by left].
  - apply wp_bind. apply wp_bind.
    assert (Hcommit : ∀ a2, wp (commit_tx (tw_store w1)) (λ r a', match r with
      | Ok _ => wp (mret res) (λ r a', r = Panic ∨ delivered app txBytes a r a' ∨
          is_ok r = false ∧ app_store a' = app_store a) a'
      | Err e => Err (A := TxHandlerResult) e = Panic ∨ delivered app txBytes a (Err e) a' ∨
          is_ok (Err (A := TxHandlerResult) e) = false ∧ app_store a' = app_store a
      | Panic => Panic (A := TxHandlerResult) = Panic ∨ delivered app txBytes a Panic a' ∨
          is_ok (Panic (A := TxHandlerResult)) = false ∧ app_store a' = app_store a end) a2).
    { intros a2. apply wp_modify, wp_ret. right; left. by apply Hd. }
    destruct (is_evm_result res); [|by apply wp_ret, Hcommit].
    apply wp_bind, wp_ignore_env; [|by left]. intros e1.
    apply wp_bind, wp_ignore_env; [|by left]. intros e2.
    apply wp_on_env. intros [|e'|] e3; [by apply Hcommit|by right; right|by left].
  - apply wp_bind, wp_on_env. intros [|e'|] e1; [|by right; right|by left].
    apply wp_throw. right; left. by apply Hd.
Qed.
(** A transaction handler that reads and writes its store only through the
    store's methods. *)
Definition uses_interface (h : TxHandler (T := cacheTx S) (E := E)) : Prop :=
  ∀ st txBytes isCheckTx s0,
    preserves (λ w, kv_ok (tw_store w) ∧ cx_store (tw_store w) = s0) (h st txBytes isCheckTx).

Lemma DeliverTx_inv app txBytes a resp a' :
  DeliverTx app txBytes a = (Ok resp, a') →
  (resp_Code resp = 0 ∧ ∃ res, delivered app txBytes a (Ok res) a') ∨
  (resp_Code resp = 1 ∧ app_store a' = app_store a).
Proof.
  intros H. pose proof (processTx_deliver app txBytes a) as Hp. unfold wp in Hp.
  unfold DeliverTx in H. m_eval_in H.
  destruct (processTx app txBytes false a) as [[res|e|] a1]; cbn in *; [| |done];
    injection H as <- <-; cbn.
  - left. split; [done|]. exists res. by destruct Hp as [|[|[? _]]].
  - right. split; [done|]. destruct Hp as [|[(w0 & out & w1 & _ & _ & _ & Ho)|[_ ?]]]; [done| |done].
    destruct out; [by destruct Ho|by destruct Ho|done].
Qed.

(** C2. Delivering a transaction is all or nothing: if it fails, the
    application's state is the one before; if it succeeds, the state has exactly
    the contents that the handler left in its transaction, which it started on
    the state before. *)
Theorem deliver_tx_is_atomic app txBytes a resp a' :
  kv_ok (app_store a) → uses_interface (a_TxHandler app) →
  DeliverTx app txBytes a = (Ok resp, a') →
  kv_ok (app_store a') ∧
  (resp_Code resp ≠ 0 → app_store a' = app_store a) ∧
  (resp_Code resp = 0 → ∃ w0 res w1,
     tw_store w0 = newCacheTx (app_store a) ∧
     a_TxHandler app (tx_state a) txBytes false w0 = (Ok res, w1) ∧
     same_content (app_store a') (tw_store w1)).
Proof.
  intros Hok Hi [[Hc (res & w0 & out & w1 & Hw0 & _ & Hh & Ho)]|[Hc Hs]]%DeliverTx_inv.
  - destruct out as [res'| |]; [|by destruct Ho|done]. destruct Ho as [[= <-] Hs].
    pose proof (Hi (tx_state a) txBytes false (app_store a) w0) as Hp. unfold wp in Hp.
    rewrite Hh in Hp. cbn [snd] in Hp.
    destruct Hp as [Hok1 _]; [rewrite Hw0; split; [by apply newCacheTx_ok|done]|].
    rewrite Hs. split_and!; [by apply commit_ok|lia|]. intros _. exists w0, res, w1.
    split_and!; [done|done|by apply commit_content].
  - rewrite Hs. split_and!; [done|done|lia].
Qed.
End Atomicity.

(** ** Witnesses *)

Module AppWitness.
Import SimpleLib.
#[local] Instance mem : KVStore MemStore := mem_kvstore (λ k p, Some k).
#[local] Instance mem_spec : KVStoreSpec MemStore := mem_kvstore_spec (λ k p, Some k).
#[local] Instance mem_versioned : VersionedKVStore MemStore := mem_versioned_kvstore (λ k p, Some k).

(** A transaction is its payload, signed by one key, with sequence number 1. *)
Definition pubkey : bytes := "01234567890123456789012345678901".
#[local] Instance txlib : TxLib := {
  unmarshal_SignedTx b := Some (mkSignedTx b pubkey (pubkey +:+ pubkey));
  unmarshal_NonceTx b := Some (mkNonceTx b 1);
  unmarshal_Transaction b := Some (mkTransaction 1 b);
  ed25519_Verify pk msg sig := true;
  address_IsEmpty a := false;
}.

Abbreviation W := (TxWorld (cacheTx MemStore) unit).

(** A handler that writes one key. *)
Definition inner : TxHandler (T := cacheTx MemStore) (E := unit) := λ _ txBytes _,
  on_tx (modify (kv_Set "x" txBytes));; mret (mkResult txBytes "").

Definition application (h : TxHandler (T := cacheTx MemStore) (E := unit)) :
    Application (S := MemStore) (E := unit) (U := unit) (B := unit) :=
  mkApplication None h
    (λ _ _, mret (mkReceiptHandler (λ _, mret ()) (mret ()) (mret ())))
    (λ _ _, mret ()) (λ _ _, mret ()) (λ _ _ _, mret ()) (λ _, mret ())
    (throw ErrNotFound) (mret None) None.

Definition app0 : AppState (S := MemStore) (E := unit) :=
  mkApp NewMemStore (mkNonceHandler ∅ 0) () (mkHeader "diadem" 2 0) empty_header "".

Lemma inner_interface : uses_interface inner.
Proof.
  intros st b c s0 w [Hok Hs]. unfold wp, inner, on_tx. m_eval. cbn [fst snd tw_store].
  split; [by apply kv_Set_ok|done].
Qed.

Lemma deliver_tx_witness :
  let a' := (DeliverTx (application inner) "hello" app0).2 in
  kv_Get (app_store a') "x" = Some "hello".
Proof.
  destruct (deliver_tx_is_atomic (application inner) "hello" app0 (mkResponse 0 "hello" "")
    (DeliverTx (application inner) "hello" app0).2) as (_ & _ & H); [done|apply inner_interface|done|].
  destruct (H eq_refl) as (w0 & res & w1 & Hw0 & Hh & Hsame).
  intros a'. etrans; [exact (Hsame "x")|]. cbn in Hh. unfold inner, on_tx in Hh. m_eval_in Hh.
  injection Hh as _ <-. cbn [tw_store].
  unfold kv_Get, cache_kvstore, cacheTx_Get, cacheTx_Set. cbn. by rewrite lookup_insert_eq.
Defined.
End AppWitness.
