(* ===== verification/AppReplay.v ===== *)
(** * Replay protection of the application

    The handler chain of a node ([tx_chain]) around any inner handler, the calls
    the consensus engine makes ([AppCall]) and the theorem that a transaction
    that was delivered once is rejected ever after, whatever the node has done
    in between. *)

From S2P Require Import Prelude Contract Store Middleware App.

Section Replay.
Context {LIB : DiademLib} {TXL : TxLib} {S E U B : Type} {KV : KVStore S}
  {VKV : VersionedKVStore S} {KVS : KVStoreSpec S}.
Abbreviation TxW := (TxWorld (cacheTx S) E).
Abbreviation AppS := (AppState (S := S) (E := E)).
Abbreviation App := (Application (S := S) (E := E) (U := U) (B := B)).
Implicit Types (a : AppS) (app : App) (tx : cacheTx S).

(** The handler chain around [inner]: the middleware that a node (cmd/diadem)
    always has for signed transactions, and its post-commit middleware. *)
Definition tx_chain (inner : TxHandler (T := cacheTx S) (E := E)) : TxHandler :=
  MiddlewareTxHandler
    [LogTxMiddleware; RecoveryTxMiddleware; SignatureTxMiddleware; NonceHandler_Nonce]
    inner [LogPostCommitMiddleware; NonceHandler_IncNonce].

(** ** Nonces in stores and transactions *)

(** A store with its nonces. *)
Definition nonces_are {T} `{KVStoreSpec T} (v : Address → Res Z) (s : T) : Prop :=
  kv_ok s ∧ ∀ o, Nonce s o = v o.

Definition tx_nonces (v : Address → Res Z) (w : TxW) : Prop := nonces_are v (tw_store w).

Lemma Nonce_same {T T'} `{KVStore T, KVStore T'} (s : T) (t : T') origin :
  same_content s t → Nonce s origin = Nonce t origin.
Proof. intros Hst. unfold Nonce, Sequence_Value. by rewrite (Hst (nonceKey origin)). Qed.

Lemma nonces_newCacheTx v (s : S) : nonces_are v s → nonces_are v (newCacheTx s).
Proof.
  intros [Hok Hv]. split; [by apply newCacheTx_ok|]. intros o. rewrite <- Hv.
  apply Nonce_same, newCacheTx_same.
Qed.

Lemma nonces_commit v tx : nonces_are v tx → nonces_are v (cx_store (Commit tx)).
Proof.
  intros [Hok Hv]. split; [by apply commit_ok|]. intros o. rewrite <- Hv.
  by apply Nonce_same, commit_content.
Qed.

(** A callback that works through the store's methods, leaves the nonces alone
    (contracts only see their own prefix) and returns a good value. *)
Definition nonce_safe {A} (good : A → Prop) (m : M TxW A) : Prop :=
  ∀ v w, tx_nonces v w → wp m (λ r w', tx_nonces v w' ∧ ∀ x, r = Ok x → good x) w.

Definition keeps_nonces (inner : TxHandler (T := cacheTx S) (E := E)) : Prop :=
  ∀ st txBytes isCheckTx, nonce_safe (λ _, True) (inner st txBytes isCheckTx).

(** ** The chain *)

(** What the chain needs to know of a transaction. *)
Record tx_of (chain : string) (txBytes : bytes) (origin : Address) (ntx : NonceTx) : Prop := {
  to_signed : ∃ stx, unmarshal_SignedTx txBytes = Some stx ∧ GetOrigin stx chain = Ok origin ∧
                     unmarshal_NonceTx (sx_Inner stx) = Some ntx;
  to_origin : address_IsEmpty origin = false;
}.

(** The innermost part of the chain: the handler and what follows it. *)
Definition tx_tail (inner : TxHandler (T := cacheTx S) (E := E)) : TxHandler := λ st b c,
  result ← inner st b c;
  NonceHandler_IncNonce st b result (λ _ _ _, mret ());;
  mret result.

Definition recovered {A} (p : Res A * TxW) : Res A * TxW :=
  match p with
  | (Ok a, w) => (Ok a, w)
  | (Err e, w) => (Err e, w)
  | (Panic, w) => (Err (ErrMsg "panic"), w)
  end.

Lemma tx_chain_eq inner st txBytes w origin ntx v :
  tx_of (ts_ChainID st) txBytes origin ntx →
  Nonce (tw_store w) origin = Ok v →
  let st1 := mkTxState (ts_ChainID st) (ts_Height st) (Some origin) in
  let w1 := nonce_passed st1 origin v false w in
  tx_chain inner st txBytes false w =
    recovered (if nx_Sequence ntx =? u64 (v + 1) then tx_tail inner st1 (nx_Inner ntx) false w1
               else (Err (ErrMsg "sequence number does not match expected"), w1)).
Proof.
  intros [(stx & Hstx & Horigin & Hntx) Hempty] Hv st1 w1.
  unfold tx_chain, MiddlewareTxHandler. cbn [foldr].
  unfold LogTxMiddleware, RecoveryTxMiddleware, SignatureTxMiddleware.
  rewrite Hstx, (bind_ok (lift_res (GetOrigin stx (ts_ChainID st))) _ w origin w)
    by (unfold lift_res; by rewrite Horigin).
  fold st1. rewrite (Nonce_run st1 origin v ntx) by done. cbv zeta. unfold expected_seq.
  by rewrite andb_false_r.
Qed.

(** The nonces after [origin]'s has been advanced from [v]. *)
Definition advanced (origin : Address) (v : Z) (nonces : Address → Res Z) : Address → Res Z :=
  λ o, if decide (nonceKey o = nonceKey origin) then Ok (u64 (v + 1)) else nonces o.

Lemma nonces_passed st origin v nonces c (w : TxW) :
  nonces_are nonces (tw_store w) →
  nonces_are (advanced origin v nonces) (tw_store (nonce_passed st origin v c w)).
Proof.
  intros [Hok Hn]. split; [by apply kv_Set_ok|]. intros o. unfold advanced, Nonce, nonce_passed.
  cbv zeta. cbn [tw_store].
  case_decide as Hk.
  - rewrite Hk. apply Sequence_Value_set; [done|apply u64_range].
  - rewrite <- Hn. unfold Nonce, Sequence_Value. rewrite kv_Get_Set by done.
    by rewrite decide_False by done.
Qed.

Lemma tx_tail_keeps inner st b origin w nonces :
  keeps_nonces inner → ts_origin st = Some origin → address_IsEmpty origin = false →
  tx_nonces nonces w → wp (tx_tail inner st b false) (λ r w2, tx_nonces nonces w2) w.
Proof.
  intros Hinner Ho He Hw. unfold tx_tail. apply wp_bind. eapply wp_mono.
  - by apply (Hinner st b false nonces w).
  - intros [res|e|] w2 [Hw2 _]; [|done|done].
    unfold wp, NonceHandler_IncNonce, Origin, put_nonce. rewrite Ho. m_eval. by rewrite He.
Qed.

Lemma tx_chain_run inner st txBytes w origin ntx nonces v :
  keeps_nonces inner → tx_nonces nonces w →
  tx_of (ts_ChainID st) txBytes origin ntx →
  nonces origin = Ok v →
  if decide (nx_Sequence ntx = u64 (v + 1)) then
    match tx_chain inner st txBytes false w with
    | (Ok _, w1) => tx_nonces (advanced origin v nonces) w1
    | (Err _, _) => True
    | (Panic, _) => False
    end
  else ∃ e w1, tx_chain inner st txBytes false w = (Err e, w1).
Proof.
  intros Hinner Hn Htx Hv. rewrite (tx_chain_eq inner st txBytes w origin ntx v)
    by (done || by rewrite (proj2 Hn)).
  cbv zeta. destruct (Z.eqb_spec (nx_Sequence ntx) (u64 (v + 1))) as [Heq|Hne];
    [rewrite decide_True by done|rewrite decide_False by done; cbn; by eauto].
  set (st1 := mkTxState _ _ _). set (w1 := nonce_passed _ _ _ _ _).
  pose proof (tx_tail_keeps inner st1 (nx_Inner ntx) origin w1 (advanced origin v nonces)
    Hinner eq_refl (to_origin _ _ _ _ Htx)) as Hp.
  unfold wp in Hp. specialize (Hp (nonces_passed _ _ _ _ _ _ Hn)).
  by destruct (tx_tail inner st1 (nx_Inner ntx) false w1) as [[res|e|] w2].
Qed.

Lemma tx_chain_ok_inv inner st txBytes w r w1 :
  tx_chain inner st txBytes false w = (Ok r, w1) →
  (∀ origin, ∃ v, Nonce (tw_store w) origin = Ok v) →
  ∃ origin ntx, tx_of (ts_ChainID st) txBytes origin ntx.
Proof.
  unfold tx_chain, MiddlewareTxHandler. cbn [foldr].
  unfold LogTxMiddleware, RecoveryTxMiddleware at 1, SignatureTxMiddleware at 1.
  intros H Hn. destruct (unmarshal_SignedTx txBytes) as [stx|] eqn:Hstx; [|done].
  destruct (GetOrigin stx (ts_ChainID st)) as [origin|e|] eqn:Ho.
  2,3: by m_eval_in H.
  rewrite (bind_ok (lift_res (Ok origin)) _ w origin w eq_refl) in H.
  destruct (address_IsEmpty origin) eqn:He.
  { unfold NonceHandler_Nonce at 1, Origin in H. m_eval_in H. cbn in H. by rewrite He in H. }
  destruct (Hn origin) as [v Hv].
  destruct (unmarshal_NonceTx (sx_Inner stx)) as [ntx|] eqn:Hntx.
  - exists origin, ntx. split; [by exists stx|done].
  - exfalso. revert H. unfold NonceHandler_Nonce at 1, Origin, on_tx, put_nonce. m_eval. cbn [ts_origin].
    rewrite He. unfold Nonce in Hv.
    destruct (lastHeight (tw_nonce w) =? _); cbn [negb tw_store tw_nonce tw_env];
      rewrite (Sequence_Next_run _ v) by done; cbv beta iota; by rewrite Hntx.
Qed.
(** The receipt handlers always come up and discard a receipt without failing. *)
Definition receipts_available app : Prop :=
  ∀ h v2 e, ∃ rh e', a_StoreAt app h v2 e = (Ok rh, e') ∧
    ∀ e1, ∃ e2, rh_DiscardCurrentReceipt rh e1 = (Ok (), e2).

(** A delivery whose handler fails is answered with code 1. *)
Lemma DeliverTx_rejects app txBytes a :
  receipts_available app →
  (∀ w0, tw_store w0 = newCacheTx (app_store a) →
     ∃ e w1, a_TxHandler app (tx_state a) txBytes false w0 = (Err e, w1)) →
  ∃ resp a', DeliverTx app txBytes a = (Ok resp, a') ∧ resp_Code resp = 1 ∧
    app_store a' = app_store a.
Proof.
  intros Hr Hh. unfold DeliverTx.
  assert (Hp : ∃ e a', processTx app txBytes false a = (Err e, a') ∧ app_store a' = app_store a).
  { unfold processTx, begin_tx.
    do 4 (erewrite bind_ok; [|reflexivity]).
    destruct (Hr (height a) (FeatureEnabled (newCacheTx (app_store a))
      EvmTxReceiptsVersion2Feature false) (app_env a)) as (rh & e1 & Hsa & Hdis).
    set (a1 := put_memory (app_nonce a) e1 a).
    erewrite (bind_ok _ _ a rh a1); [|unfold must, on_env; m_eval; by rewrite Hsa].
    destruct (Hh (mkTxWorld (newCacheTx (app_store a)) (app_nonce a1) (app_env a1)) eq_refl)
      as (e & w1 & Hh1).
    set (a2 := put_memory (tw_nonce w1) (tw_env w1) a1).
    erewrite (bind_ok _ _ a1 (inr e, tw_store w1) a2); [|unfold with_tx; by rewrite Hh1].
    destruct (Hdis (app_env a2)) as (e2 & Hd).
    rewrite (bind_ok _ _ a2 () (put_memory (app_nonce a2) e2 a2));
      [|unfold on_env, zoom; by rewrite Hd]. by eexists _, _. }
  destruct Hp as (e & a' & Hp & Hs). exists (mkResponse 1 "" ""), a'.
  split_and!; [|done|done]. m_eval. by rewrite Hp.
Qed.

Lemma u64_succ_ne x : u64 (x + 1) ≠ x.
Proof.
  unfold u64. intros H. pose proof (Z.mod_pos_bound (x + 1) (2 ^ 64) ltac:(lia)) as Hb.
  rewrite H in Hb. pose proof (Z.div_mod (x + 1) (2 ^ 64) ltac:(lia)) as Hd. rewrite H in Hd. lia.
Qed.

(** ** What the other calls do to nonces *)

(** The components an application calls leave the nonces alone, and saving and
    pruning a version keep the contents of the store. *)
Record hooks_safe app : Prop := {
  hs_upkeep create : a_CreateContractUpkeepHandler app = Some create →
    nonce_safe (λ o, ∀ u, o = Some u → nonce_safe (λ _, True) u) create;
  hs_manager : nonce_safe (λ vm, (∀ req h, nonce_safe (λ _, True) (vm_BeginBlock vm req h)) ∧
                                 ∀ h, nonce_safe (λ _, True) (vm_EndBlock vm h))
                 (a_CreateValidatorManager app);
  hs_config : nonce_safe (λ o, ∀ f, o = Some f → ∀ h, nonce_safe (λ _, True) (f h))
                (a_CreateChainConfigManager app);
  hs_receipts h v2 e rh e' : a_StoreAt app h v2 e = (Ok rh, e') →
    ∀ h', nonce_safe (λ _, True) (rh_CommitBlock rh h');
  hs_save (s : S) : kv_ok s →
    kv_ok (vkv_SaveVersion s).2 ∧ same_content s (vkv_SaveVersion s).2;
  hs_prune (s : S) : kv_ok s → kv_ok (vkv_Prune s).2 ∧ same_content s (vkv_Prune s).2;
}.

Definition app_nonces (v : Address → Res Z) a : Prop := nonces_are v (app_store a).

(** A computation that leaves the nonces alone unless it crashes the node. *)
Definition same_nonces {A} (v : Address → Res Z) (r : Res A) a : Prop :=
  match r with Panic => True | _ => app_nonces v a end.

Lemma wp_with_tx_safe {A} (good : A → Prop) (m : M TxW A) v tx a
    (Q : Res ((A + error) * cacheTx S) → AppS → Prop) :
  nonce_safe good m → nonces_are v tx →
  (∀ x tx' n e, nonces_are v tx' → good x → Q (Ok (inl x, tx')) (put_memory n e a)) →
  (∀ err tx' n e, nonces_are v tx' → Q (Ok (inr err, tx')) (put_memory n e a)) →
  (∀ a', Q Panic a') → wp (with_tx tx m) Q a.
Proof.
  intros Hm Htx Hok Herr Hp. unfold wp, with_tx.
  specialize (Hm v (mkTxWorld tx (app_nonce a) (app_env a)) Htx). unfold wp in Hm.
  destruct (m _) as [[x|err|] w]; destruct Hm as [Hn Hg]; cbn [fst snd] in *; auto.
Qed.

Lemma wp_must_tx_safe {A} (good : A → Prop) (m : M TxW A) v tx a
    (Q : Res (A * cacheTx S) → AppS → Prop) :
  nonce_safe good m → nonces_are v tx →
  (∀ x tx' n e, nonces_are v tx' → good x → Q (Ok (x, tx')) (put_memory n e a)) →
  (∀ a', Q Panic a') → wp (must_tx tx m) Q a.
Proof.
  intros Hm Htx Hok Hp. unfold must_tx. apply wp_bind.
  eapply wp_with_tx_safe; [exact Hm|exact Htx|..].
  - intros x tx' n e Hn Hg. by apply wp_ret, Hok.
  - intros. by apply wp_panic.
  - done.
Qed.

Lemma commit_same {A} v tx a (x : A) :
  nonces_are v tx → same_nonces v (Ok x) (put_store (cx_store (Commit tx)) a).
Proof. apply nonces_commit. Qed.

Lemma wp_bind_same {A C} v (m : M AppS A) (k : A → M AppS C) a :
  wp m (same_nonces v) a → (∀ x a', app_nonces v a' → wp (k x) (same_nonces v) a') →
  wp (m ≫= k) (same_nonces v) a.
Proof.
  intros Hm Hk. apply wp_bind. eapply wp_mono; [exact Hm|]. intros [x|e|] a' H; [by apply Hk|done|done].
Qed.

Lemma on_env_nonces {A} v (m : M E A) a : app_nonces v a → wp (on_env m) (same_nonces v) a.
Proof. intros Hv. apply wp_on_env. by intros [x|e|] env. Qed.

Lemma BeginBlock_nonces app block hash req v a :
  hooks_safe app → app_nonces v a → wp (BeginBlock app block hash req) (same_nonces v) a.
Proof.
  intros Hs Hv. unfold BeginBlock, set_block. apply wp_bind, wp_gets.
  destruct (negb _); [by apply wp_panic|]. apply wp_bind_same; [by apply wp_modify|].
  clear Hv a. intros _ a Hv. apply wp_bind_same; [|clear Hv a; intros _ a Hv].
  { destruct (a_CreateContractUpkeepHandler app) as [create|] eqn:Hc; [|by apply wp_ret].
    apply wp_bind, wp_gets. apply wp_bind.
    eapply wp_must_tx_safe; [by eapply hs_upkeep|by apply nonces_newCacheTx| |done].
    intros [u|] tx' n e Hn Hg; [|by apply wp_ret]. apply wp_bind.
    eapply wp_must_tx_safe; [by apply Hg|done| |done].
    intros [] tx2 n2 e2 Hn2 _. by apply wp_modify, commit_same. }
  apply wp_bind_same; [by apply on_env_nonces|clear Hv a; intros _ a Hv].
  apply wp_bind, wp_gets. apply wp_bind.
  set (rest := λ storeTx : cacheTx S, must_tx storeTx (a_CreateChainConfigManager app) ≫= _).
  assert (Hrest : ∀ tx a, nonces_are v tx → wp (rest tx) (same_nonces v) a).
  { clear Hv a. intros tx a Htx. unfold rest. apply wp_bind.
    eapply wp_must_tx_safe; [by apply hs_config|done| |done].
    intros [f|] tx1 n1 e1 H1 Hg; apply wp_bind; [|by apply wp_ret, wp_modify, commit_same].
    apply wp_bind, wp_gets. apply wp_bind.
    eapply wp_must_tx_safe; [by apply Hg|done| |done].
    intros [] tx2 n2 e2 H2 _. by apply wp_ret, wp_modify, commit_same. }
  eapply wp_with_tx_safe; [by apply hs_manager|by apply nonces_newCacheTx| | |done].
  - intros vm tx1 n1 e1 H1 [Hb _]. apply wp_bind. apply wp_bind, wp_gets. apply wp_bind.
    eapply wp_must_tx_safe; [by apply Hb|done| |done].
    intros [] tx2 n2 e2 H2 _. by apply wp_ret, Hrest.
  - intros [|msg] tx1 n1 e1 H1; apply wp_bind; [by apply wp_ret, Hrest|by apply wp_panic].
Qed.

Lemma EndBlock_nonces app h v a :
  hooks_safe app → app_nonces v a → wp (EndBlock app h) (same_nonces v) a.
Proof.
  intros Hs Hv. unfold EndBlock. apply wp_bind, wp_gets.
  destruct (negb _); [by apply wp_panic|]. apply wp_bind, wp_gets.
  apply wp_bind. unfold must, on_env. apply wp_bind, wp_try. unfold wp at 1, zoom.
  destruct (a_StoreAt app _ _ _) as [[rh|e|] env] eqn:Hrh; cbn [fst snd]; [|done|done].
  apply wp_ret, wp_bind. set (a1 := put_memory _ env a).
  set (rest := begin_tx ≫= λ storeTx, with_tx storeTx (a_CreateValidatorManager app) ≫= _).
  assert (Hrest : ∀ a, app_nonces v a → wp rest (same_nonces v) a).
  { clear Hrh a1 Hv a. intros a Hv. apply wp_bind, wp_gets. apply wp_bind.
    eapply wp_with_tx_safe; [by apply hs_manager|by apply nonces_newCacheTx| | |done].
    - intros vm tx1 n1 e1 H1 [_ He]. apply wp_bind.
      eapply wp_must_tx_safe; [by apply He|done| |done].
      intros us tx2 n2 e2 H2 _. apply wp_bind, wp_modify, wp_ret. by apply nonces_commit.
    - intros [|msg] tx1 n1 e1 H1; [by apply wp_ret|by apply wp_panic]. }
  eapply wp_with_tx_safe; [by eapply hs_receipts|by apply nonces_newCacheTx| | |done];
    intros x tx1 n1 e1 H1.
  - intros _. apply wp_bind, wp_modify, Hrest. by apply nonces_commit.
  - by apply wp_bind, wp_ret, Hrest.
Qed.

Lemma nonces_same_content v (s s' : S) :
  nonces_are v s → kv_ok s' → same_content s s' → nonces_are v s'.
Proof. intros [Hok Hv] Hok' Hss. split; [done|]. intros o. rewrite <- Hv. symmetry. by apply Nonce_same. Qed.

Lemma Commit_nonces app v a :
  hooks_safe app → app_nonces v a → wp (Application_Commit app) (same_nonces v) a.
Proof.
  intros Hs Hv. unfold wp, Application_Commit.
  destruct (hs_save app Hs (app_store a) (proj1 Hv)) as [Hok1 Hs1].
  destruct (vkv_SaveVersion (app_store a)) as [[[hash ver]|e|] s1]; cbn [snd] in *;
    [|by case_match|done].
  destruct (hs_prune app Hs s1 Hok1) as [Hok2 Hs2].
  assert (Hv1 : nonces_are v s1) by (by eapply nonces_same_content).
  destruct (vkv_Prune s1) as [[[]|e|] s2]; cbn [snd] in *; [| |done];
    by eapply (nonces_same_content v s1).
Qed.

(** ** Deliveries *)

Lemma DeliverTx_nonces app inner txBytes nonces a resp a' :
  a_TxHandler app = tx_chain inner → keeps_nonces inner →
  app_nonces nonces a → (∀ o, ∃ v, nonces o = Ok v) →
  DeliverTx app txBytes a = (Ok resp, a') →
  (resp_Code resp = 0 ∧ ∃ origin ntx v, tx_of (ts_ChainID (tx_state a)) txBytes origin ntx ∧
     nonces origin = Ok v ∧ nx_Sequence ntx = u64 (v + 1) ∧
     app_nonces (advanced origin v nonces) a') ∨
  (resp_Code resp = 1 ∧ app_store a' = app_store a).
Proof.
  intros Happ Hinner Ha Hread [[Hc Hdel]|?]%DeliverTx_inv; [left; split; [done|]|by right].
  destruct Hdel as (res & w0 & out & w1 & Hw0 & _ & Hh & Ho). rewrite Happ in Hh.
  destruct out as [res'| |]; [|by destruct Ho|done]. destruct Ho as [_ Hs].
  assert (Hn0 : tx_nonces nonces w0) by (unfold tx_nonces; rewrite Hw0; by apply nonces_newCacheTx).
  destruct (tx_chain_ok_inv inner (tx_state a) txBytes w0 res' w1 Hh) as (origin & ntx & Htx).
  { intros origin. rewrite (proj2 Hn0). apply Hread. }
  destruct (Hread origin) as [v Hv]. exists origin, ntx, v.
  pose proof (tx_chain_run inner (tx_state a) txBytes w0 origin ntx nonces v Hinner Hn0 Htx Hv) as Hrun.
  case_decide as Hseq; [|destruct Hrun as (e & w2 & Hrun); by rewrite Hrun in Hh].
  rewrite Hh in Hrun. split_and!; [done|done|done|].
  unfold app_nonces. rewrite Hs. by apply nonces_commit.
Qed.

Lemma DeliverTx_wrong_sequence app inner txBytes nonces a origin ntx v :
  a_TxHandler app = tx_chain inner → keeps_nonces inner → receipts_available app →
  app_nonces nonces a → tx_of (ts_ChainID (tx_state a)) txBytes origin ntx →
  nonces origin = Ok v → nx_Sequence ntx ≠ u64 (v + 1) →
  ∃ resp a', DeliverTx app txBytes a = (Ok resp, a') ∧ resp_Code resp = 1 ∧
    app_store a' = app_store a.
Proof.
  intros Happ Hinner Hrec Ha Htx Hv Hne. apply DeliverTx_rejects; [done|].
  intros w0 Hw0. rewrite Happ.
  assert (Hn0 : tx_nonces nonces w0) by (unfold tx_nonces; rewrite Hw0; by apply nonces_newCacheTx).
  pose proof (tx_chain_run inner (tx_state a) txBytes w0 origin ntx nonces v Hinner Hn0 Htx Hv) as Hrun.
  by rewrite decide_False in Hrun by done.
Qed.

(** ** Histories *)

(** The calls of the consensus engine. *)
Inductive AppCall :=
  | CallBeginBlock (block : Header) (hash : bytes) (req : B)
  | CallCheckTx (txBytes : bytes)
  | CallDeliverTx (txBytes : bytes)
  | CallEndBlock (height : Z)
  | CallCommit.

Definition run_app_call app (c : AppCall) : M AppS unit :=
  match c with
  | CallBeginBlock block hash req => BeginBlock app block hash req
  | CallCheckTx txBytes => CheckTx app txBytes;; mret ()
  | CallDeliverTx txBytes => DeliverTx app txBytes;; mret ()
  | CallEndBlock h => EndBlock app h;; mret ()
  | CallCommit => Application_Commit app;; mret ()
  end.

(** A nonce stays or is advanced by one. *)
Definition nonces_step (nonces nonces' : Address → Res Z) : Prop :=
  ∀ o v, nonces o = Ok v → nonces' o = Ok v ∨ nonces' o = Ok (u64 (v + 1)).

Lemma nonces_step_refl nonces : nonces_step nonces nonces.
Proof. by left. Qed.

Lemma nonces_step_readable nonces nonces' :
  nonces_step nonces nonces' → (∀ o, ∃ v, nonces o = Ok v) → ∀ o, ∃ v, nonces' o = Ok v.
Proof. intros Hs Hr o. destruct (Hr o) as [v Hv]. destruct (Hs o v Hv); eauto. Qed.

Lemma advanced_step nonces origin v :
  nonces origin = Ok v → (∀ o, nonceKey o = nonceKey origin → nonces o = Ok v) →
  nonces_step nonces (advanced origin v nonces).
Proof.
  intros Hv Hk o x Hx. unfold advanced. case_decide as Ho; [|by left].
  right. rewrite (Hk o Ho) in Hx. by injection Hx as ->.
Qed.

Lemma run_app_call_nonces app inner c nonces a a' :
  a_TxHandler app = tx_chain inner → keeps_nonces inner → hooks_safe app →
  app_nonces nonces a → (∀ o, ∃ v, nonces o = Ok v) →
  run_app_call app c a = (Ok (), a') →
  ∃ nonces', app_nonces nonces' a' ∧ nonces_step nonces nonces'.
Proof.
  intros Happ Hinner Hs Ha Hread. destruct c as [block hash req|b|b|h|]; cbn [run_app_call]; intros H.
  - exists nonces. split; [|apply nonces_step_refl].
    pose proof (BeginBlock_nonces app block hash req nonces a Hs Ha) as Hp. unfold wp in Hp.
    by rewrite H in Hp.
  - apply bind_inv in H as (r & a1 & H & [_ ->]%ret_inv). exists nonces.
    split; [|apply nonces_step_refl]. pose proof (CheckTx_store app b a) as Hst.
    rewrite H in Hst. cbn [snd] in Hst. unfold app_nonces. by rewrite Hst.
  - apply bind_inv in H as (r & a1 & H & [_ ->]%ret_inv).
    destruct (DeliverTx_nonces app inner b nonces a r a1) as
      [[_ (origin & ntx & v & _ & Hv & _ & Hn)]|[_ Hst]]; try done.
    + exists (advanced origin v nonces). split; [done|]. apply advanced_step; [done|].
      intros o Hk. rewrite <- (proj2 Ha), <- Hv, <- (proj2 Ha origin). unfold Nonce. by rewrite Hk.
    + exists nonces. split; [|apply nonces_step_refl]. unfold app_nonces. by rewrite Hst.
  - apply bind_inv in H as (r & a1 & H & [_ ->]%ret_inv). exists nonces.
    split; [|apply nonces_step_refl].
    pose proof (EndBlock_nonces app h nonces a Hs Ha) as Hp. unfold wp in Hp. by rewrite H in Hp.
  - apply bind_inv in H as (r & a1 & H & [_ ->]%ret_inv). exists nonces.
    split; [|apply nonces_step_refl].
    pose proof (Commit_nonces app nonces a Hs Ha) as Hp. unfold wp in Hp. by rewrite H in Hp.
Qed.

(** Along a history a nonce never goes back. *)
Lemma history_nonces app inner calls nonces a a' o v :
  a_TxHandler app = tx_chain inner → keeps_nonces inner → hooks_safe app →
  app_nonces nonces a → (∀ o, ∃ v, nonces o = Ok v) →
  forM calls (run_app_call app) a = (Ok (), a') →
  nonces o = Ok v → 0 <= v → v + Z.of_nat (length calls) < 2 ^ 64 →
  ∃ nonces' v', app_nonces nonces' a' ∧ nonces' o = Ok v' ∧
    v <= v' <= v + Z.of_nat (length calls).
Proof.
  intros Happ Hinner Hs. revert nonces a v. induction calls as [|c calls IH];
    intros nonces a v Ha Hread H Hv H0 Hlen.
  - injection H as <-. exists nonces, v. split_and!; [done|done|lia|cbn; lia].
  - unfold forM in H. cbn [foldM] in H. apply bind_inv in H as ([] & a1 & Hc & H).
    destruct (run_app_call_nonces app inner c nonces a a1) as (n1 & Hn1 & Hstep); try done.
    assert (∃ v1, n1 o = Ok v1 ∧ v <= v1 <= v + 1) as (v1 & Hv1 & Hb1).
    { cbn [length] in Hlen. destruct (Hstep o v Hv) as [?|Hn]; [exists v; split; [done|lia]|].
      rewrite u64_small in Hn by lia. exists (v + 1). split; [done|lia]. }
    destruct (IH n1 a1 v1) as (n2 & v2 & Hn2 & Hv2 & Hb2); try done;
      [by eapply nonces_step_readable|lia|cbn [length] in Hlen; lia|].
    exists n2, v2. split_and!; [done|done|lia|cbn [length]; lia].
Qed.

(** C1. A delivered transaction cannot be replayed: once a signed transaction has
    been delivered successfully, its origin's stored nonce is the transaction's
    sequence number, and after any further history of blocks, checks and
    deliveries, delivering the same bytes again is rejected and leaves the
    application's state alone (as long as the nonce does not exceed 64 bits). *)
Theorem delivered_tx_cannot_be_replayed app inner txBytes a resp a' :
  a_TxHandler app = tx_chain inner → keeps_nonces inner → hooks_safe app →
  receipts_available app →
  kv_ok (app_store a) → (∀ origin, ∃ v, Nonce (app_store a) origin = Ok v) →
  DeliverTx app txBytes a = (Ok resp, a') → resp_Code resp = 0 →
  ∃ origin ntx, tx_of (ts_ChainID (tx_state a)) txBytes origin ntx ∧
    Nonce (app_store a') origin = Ok (nx_Sequence ntx) ∧
    ∀ calls a1, forM calls (run_app_call app) a' = (Ok (), a1) →
      nx_Sequence ntx + Z.of_nat (length calls) < 2 ^ 64 - 1 →
      ts_ChainID (tx_state a1) = ts_ChainID (tx_state a) →
      ∃ resp' a2, DeliverTx app txBytes a1 = (Ok resp', a2) ∧ resp_Code resp' = 1 ∧
        app_store a2 = app_store a1.
Proof.
  intros Happ Hinner Hs Hrec Hok Hread H Hcode.
  assert (Ha : app_nonces (Nonce (app_store a)) a) by done.
  destruct (DeliverTx_nonces app inner txBytes _ a resp a' Happ Hinner Ha Hread H) as
    [[_ (origin & ntx & v & Htx & Hv & Hseq & Hn)]|[? _]]; [|lia].
  assert (Hadv : advanced origin v (Nonce (app_store a)) origin = Ok (nx_Sequence ntx))
    by (unfold advanced; by rewrite decide_True, Hseq).
  exists origin, ntx. split_and!; [done|by rewrite (proj2 Hn)|].
  intros calls a1 Hcalls Hlen Hchain.
  destruct (history_nonces app inner calls _ a' a1 origin (nx_Sequence ntx) Happ Hinner Hs Hn)
    as (n1 & v1 & Hn1 & Hv1 & Hb); try done; [|rewrite Hseq; apply u64_range|lia|].
  - eapply nonces_step_readable; [|exact Hread]. apply advanced_step; [done|].
    intros o Hk. rewrite <- Hv. unfold Nonce. by rewrite Hk.
  - eapply (DeliverTx_wrong_sequence app inner txBytes n1 a1 origin ntx v1); try done.
    + by rewrite Hchain.
    + pose proof (u64_range (v + 1)). rewrite u64_small; lia.
Qed.
End Replay.

(** ** Witness *)

Module ReplayWitness.
Import SimpleLib AppWitness.
#[local] Existing Instance AppWitness.mem.
#[local] Existing Instance AppWitness.mem_spec.
#[local] Existing Instance AppWitness.mem_versioned.
#[local] Existing Instance AppWitness.txlib.

Definition chain_app : Application (S := MemStore) (E := unit) (U := unit) (B := unit) :=
  application (tx_chain inner).

Lemma inner_nonces : keeps_nonces inner.
Proof.
  intros st b c v w [Hok Hn]. unfold wp, inner, on_tx. m_eval.
  split; [|done]. split; [by apply kv_Set_ok|]. intros o. rewrite <- Hn.
  unfold Nonce, Sequence_Value. cbn [snd tw_store]. by rewrite kv_Get_Set.
Qed.

Lemma ret_safe {A} (good : A → Prop) x : good x → nonce_safe (S := MemStore) (E := unit) good (mret x).
Proof. intros Hx v w Hw. split; [done|]. by intros y [= <-]. Qed.

Lemma chain_app_safe : hooks_safe chain_app.
Proof.
  split.
  - done.
  - intros v w Hw. by split.
  - by apply ret_safe.
  - intros h v2 e rh e' [= <- _] h'. by apply ret_safe.
  - done.
  - done.
Qed.

(** The next block, with a check of the same transaction. *)
Definition next_block : list (AppCall (B := unit)) :=
  [CallEndBlock 2; CallCommit; CallBeginBlock (mkHeader "diadem" 2 0) "" (); CallCheckTx "hello";
   CallDeliverTx "other"].

Lemma replay_witness :
  let a' := (DeliverTx chain_app "hello" app0).2 in
  let a1 := (forM next_block (run_app_call chain_app) a').2 in
  ∃ resp' a2, DeliverTx chain_app "hello" a1 = (Ok resp', a2) ∧ resp_Code resp' = 1 ∧
    app_store a2 = app_store a1.
Proof.
  intros a' a1. assert (Hrun : DeliverTx chain_app "hello" app0 = (Ok (mkResponse 0 "hello" ""), a'))
    by (unfold a'; apply run_ok; by vm_compute).
  destruct (delivered_tx_cannot_be_replayed chain_app inner "hello" app0
    (mkResponse 0 "hello" "") a') as (origin & ntx & [(stx & Hstx & _ & Hntx) _] & _ & H).
  - done.
  - apply inner_nonces.
  - apply chain_app_safe.
  - intros h v2 e. eexists _, _. split; [done|]. intros e1. by exists e1.
  - done.
  - intros origin. by exists 0.
  - exact Hrun.
  - done.
  - apply (H next_block a1).
    + unfold a1. apply run_ok. clear. unfold a'. vm_compute. reflexivity.
    + injection Hntx as <-. cbn. lia.
    + clear. unfold a1, a'. vm_compute. reflexivity.
Defined.
End ReplayWitness.
