(* ===== verification/ChainConfig.v ===== *)
(** * Chain configuration

    The contract src/builtin/plugins/chainconfig/chainconfig.go, in which the
    validators vote on features, and src/plugin/chain_config_manager.go, which
    activates them at the start of a block.  [CCStore] is the contract's slice
    of the store; [MWorld] adds the chain's state, where the active features are
    flagged.

    The theorems are who may do what, how votes are counted, that the manager
    moves each feature one step through PENDING, WAITING, ENABLED, and that an
    enabled feature stays enabled and flagged for ever. *)

From S2P Require Import Prelude Contract DposTypes DposMath DposStorage DposHandlers Store App.

(** [cctypes.Feature_Status] *)
Inductive FeatureStatus := PENDING | WAITING | ENABLED | DISABLED.

#[global] Instance FeatureStatus_eq_dec : EqDecision FeatureStatus.
Proof. solve_decision. Defined.

Record Feature := mkFeature {
  f_Name : string;
  f_BuildNumber : Z;
  f_BlockHeight : Z;
  f_Status : FeatureStatus;
  f_Validators : list Address;
  f_Percentage : Z;
  f_AutoEnable : bool;
}.

Definition f_with_Status (st : FeatureStatus) (f : Feature) : Feature :=
  mkFeature (f_Name f) (f_BuildNumber f) (f_BlockHeight f) st (f_Validators f)
    (f_Percentage f) (f_AutoEnable f).
Definition f_with_BlockHeight (h : Z) (f : Feature) : Feature :=
  mkFeature (f_Name f) (f_BuildNumber f) h (f_Status f) (f_Validators f)
    (f_Percentage f) (f_AutoEnable f).
Definition f_with_Validators (vs : list Address) (f : Feature) : Feature :=
  mkFeature (f_Name f) (f_BuildNumber f) (f_BlockHeight f) (f_Status f) vs
    (f_Percentage f) (f_AutoEnable f).
Definition f_with_Percentage (p : Z) (f : Feature) : Feature :=
  mkFeature (f_Name f) (f_BuildNumber f) (f_BlockHeight f) (f_Status f) (f_Validators f)
    p (f_AutoEnable f).

(** [cctypes.Params] *)
Record CCParams := mkCCParams { VoteThreshold : Z; NumBlockConfirmations : Z }.

Record InitRequest := mkInitRequest {
  ir_Owner : option Address;
  ir_Features : list Feature;
  ir_Params : option CCParams;
}.

Definition ErrNotAuthorized : error := ErrMsg "[ChainConfig] not authorized".
Definition ErrInvalidRequest : error := ErrMsg "[ChainConfig] invalid request".
Definition ErrOwnerNotSpecified : error := ErrMsg "[ChainConfig] owner not specified".
Definition ErrFeatureAlreadyExists : error := ErrMsg "[ChainConfig] feature already exists".
Definition ErrInvalidParams : error := ErrMsg "[ChainConfig] invalid params".
Definition ErrFeatureAlreadyEnabled : error := ErrMsg "[ChainConfig] feature already enabled".
Definition ErrEmptyValidatorsList : error := ErrMsg "[ChainConfig] empty validators list".
Definition ErrFeatureNotSupported : error :=
  ErrMsg "[ChainConfig] feature is not supported in the current build".
Definition ErrFeatureNotFound : error := ErrMsg "[ChainConfig] feature not found".

Definition ownerRole : string := "owner".
Definition setParamsPerm : bytes := "setp".
Definition addFeaturePerm : bytes := "addf".

Definition DPOSVersion3Feature : string := "dpos:v3".
Definition ChainCfgVersion1_1 : string := "chaincfg:v1.1".

(** ** The contract *)

Section Ops.
Context {LIB : DiademLib} {RANGE : RangeOrder} {P : Type} {PERM : Permissions P}.

Record CCStore := mkCCStore {
  cc_params : option CCParams;
  cc_features : gmap bytes Feature;
  cc_perms : P;
}.

Definition set_features (fs : gmap bytes Feature) (s : CCStore) : CCStore :=
  mkCCStore (cc_params s) fs (cc_perms s).
Definition set_params (p : CCParams) (s : CCStore) : CCStore :=
  mkCCStore (Some p) (cc_features s) (cc_perms s).
Definition set_perms (p : P) (s : CCStore) : CCStore :=
  mkCCStore (cc_params s) (cc_features s) p.

(** What a call reads of the chain besides its own store: the feature flags, the
    validators of the consensus engine (public keys; nil pointers are [None]),
    the store of the dpos v3 contract, and the addresses in the answer of
    [ListValidatorsSimple] of dpos v2. *)
Record CCCtx := mkCCCtx {
  cx_ctx : Ctx;
  cx_FeatureEnabled : string → bool → bool;
  cx_Validators : list (option bytes);
  cx_dposV3 : DposStore;
  cx_dposV2 : Res (list (option Address));
}.

Definition featureKey (featureName : string) : bytes := prefix_key ["ft"; featureName].

Definition has_feature (name : string) : M CCStore bool :=
  gets (λ s, bool_decide (is_Some (cc_features s !! featureKey name))).
Definition put_feature (f : Feature) : M CCStore unit :=
  modify (λ s, set_features (<[featureKey (f_Name f) := f]> (cc_features s)) s).

Definition has_permission (ctx : CCCtx) (token : bytes) : M CCStore bool :=
  gets (λ s, perm_has (cc_perms s) (ctx_sender (cx_ctx ctx)) token [ownerRole]).

Definition getParams (s : CCStore) : CCParams := default (mkCCParams 0 0) (cc_params s).

Definition setParams (voteThreshold numBlockConfirmations : Z) : M CCStore unit :=
  guard_not (100 <? voteThreshold) ErrInvalidParams;;
  params ← gets getParams;
  modify (set_params (mkCCParams
    (if negb (voteThreshold =? 0) then voteThreshold else VoteThreshold params)
    (if negb (numBlockConfirmations =? 0) then numBlockConfirmations
     else NumBlockConfirmations params))).

Definition Init (req : InitRequest) : M CCStore unit :=
  match ir_Owner req with
  | None => throw ErrOwnerNotSpecified
  | Some ownerAddr =>
      modify (λ s, set_perms (perm_grant ownerAddr setParamsPerm ownerRole (cc_perms s)) s);;
      modify (λ s, set_perms (perm_grant ownerAddr addFeaturePerm ownerRole (cc_perms s)) s);;
      forM (ir_Features req) (λ feature,
        guard_not (negb (bool_decide (f_Status feature = PENDING)) &&
                   negb (bool_decide (f_Status feature = WAITING))) ErrInvalidRequest;;
        found ← has_feature (f_Name feature);
        guard_not found ErrFeatureAlreadyExists;;
        put_feature feature);;
      match ir_Params req with
      | Some p => setParams (VoteThreshold p) (NumBlockConfirmations p)
      | None => mret ()
      end
  end.

Definition SetParams (ctx : CCCtx) (params : option CCParams) : M CCStore unit :=
  match params with
  | None => throw ErrInvalidRequest
  | Some p =>
      ok ← has_permission ctx setParamsPerm;
      guard_not (negb ok) ErrNotAuthorized;;
      setParams (VoteThreshold p) (NumBlockConfirmations p)
  end.

Definition GetParams (s : CCStore) : CCParams := getParams s.

Definition ChainConfig_FeatureEnabled (ctx : CCCtx) (name : string) (defaultVal : bool) :
    Res bool :=
  if String.eqb name "" then Err ErrInvalidRequest
  else Ok (cx_FeatureEnabled ctx name defaultVal).

(** [resp.Statistics] with nil entries skipped. *)
Definition addresses (l : list (option Address)) : list Address := omap id l.

Definition getCurrentValidatorsFromDPOS (ctx : CCCtx) : Res (list Address) :=
  if cx_FeatureEnabled ctx DPOSVersion3Feature false then
    match ctx_registry (cx_ctx ctx) !! "dposV3" with
    | None => Err (ErrMsg "failed to resolve address of DPOSv3 contract")
    | Some contractAddr =>
        match ListValidators (cx_ctx ctx) (cx_dposV3 ctx) with
        | Ok statistics => Ok (vs_Address <$> statistics)
        | Err _ => Err (ErrMsg "failed to call ListValidators")
        | Panic => Panic
        end
    end
  else
    match ctx_registry (cx_ctx ctx) !! "dposV2" with
    | None => Ok []
    | Some contractAddr =>
        match cx_dposV2 ctx with
        | Ok statistics =>
            if (length (addresses statistics) =? 0)%nat then Err ErrEmptyValidatorsList
            else Ok (addresses statistics)
        | Err _ => Err (ErrMsg "failed to call ListValidators")
        | Panic => Panic
        end
    end.

Definition getCurrentValidators (ctx : CCCtx) : Res (list Address) :=
  if negb (cx_FeatureEnabled ctx ChainCfgVersion1_1 false) then getCurrentValidatorsFromDPOS ctx
  else if (length (cx_Validators ctx) =? 0)%nat then Err ErrEmptyValidatorsList
  else Ok ((λ pubKey, mkAddress (ctx_chain (cx_ctx ctx)) (local_from_pubkey pubKey)) <$>
           omap id (cx_Validators ctx)).

(** The votes of a feature: [validatorsHashMap], keyed by the hexadecimal form
    of the local address, and the number of its true entries. *)
Definition validatorsHashMap (curValidators validators : list Address) : gmap bytes bool :=
  foldl (λ m v, <[Local v := true]> m)
    (foldl (λ m v, <[Local v := false]> m) ∅ curValidators) validators.
Definition enabledValidatorsCount (m : gmap bytes bool) : Z :=
  Z.of_nat (size (filter (λ kv, kv.2 = true) m)).

(** The feature with its percentage brought up to date. *)
Definition with_votes (curValidators : list Address) (feature : Feature) : Feature :=
  if negb (bool_decide (f_Status feature = PENDING)) then feature
  else
    let n := Z.of_nat (length curValidators) in
    if 0 <? n then
      f_with_Percentage (u64 (i64 (enabledValidatorsCount
        (validatorsHashMap curValidators (f_Validators feature)) * 100) ÷ n)) feature
    else feature.

Definition getFeature (name : string) (curValidators : list Address) (s : CCStore) :
    Res Feature :=
  match cc_features s !! featureKey name with
  | None => Err ErrNotFound
  | Some feature => Ok (with_votes curValidators feature)
  end.

Definition enableFeature (ctx : CCCtx) (name : string) : M CCStore unit :=
  guard_not (String.eqb name "") ErrInvalidRequest;;
  curValidators ← lift_res (getCurrentValidators ctx);
  let sender := ctx_sender (cx_ctx ctx) in
  guard_not (negb (existsb (λ v, address_compare sender v =? 0) curValidators)) ErrNotAuthorized;;
  feature ← gets (λ s, cc_features s !! featureKey name);
  match feature with
  | None => throw (ErrMsg "feature not found")
  | Some feature =>
      guard_not (bool_decide (f_Status feature = ENABLED)) ErrFeatureAlreadyEnabled;;
      guard_not (existsb (λ v, address_compare sender v =? 0) (f_Validators feature))
        ErrFeatureAlreadyEnabled;;
      modify (λ s, set_features (<[featureKey name :=
        f_with_Validators (f_Validators feature ++ [sender]) feature]> (cc_features s)) s)
  end.

Definition addFeature (ctx : CCCtx) (buildNumber : Z) (autoEnable : bool) (name : string) :
    M CCStore unit :=
  guard_not (String.eqb name "") ErrInvalidRequest;;
  ok ← has_permission ctx addFeaturePerm;
  guard_not (negb ok) ErrNotAuthorized;;
  found ← has_feature name;
  guard_not found ErrFeatureAlreadyExists;;
  put_feature (mkFeature name buildNumber 0 PENDING [] 0 autoEnable).

Definition removeFeature (ctx : CCCtx) (name : string) : M CCStore unit :=
  guard_not (String.eqb name "") ErrInvalidRequest;;
  ok ← has_permission ctx addFeaturePerm;
  guard_not (negb ok) ErrNotAuthorized;;
  found ← has_feature name;
  guard_not (negb found) ErrFeatureNotFound;;
  guard_not (cx_FeatureEnabled ctx name false) ErrFeatureAlreadyEnabled;;
  modify (λ s, set_features (delete (featureKey name) (cc_features s)) s).

Definition EnableFeature (ctx : CCCtx) (names : list string) : M CCStore unit :=
  guard_not (length names =? 0)%nat ErrInvalidRequest;;
  forM names (enableFeature ctx).

Definition AddFeature (ctx : CCCtx) (names : list string) (buildNumber : Z) (autoEnable : bool) :
    M CCStore unit :=
  guard_not (length names =? 0)%nat ErrInvalidRequest;;
  forM names (addFeature ctx buildNumber autoEnable).

Definition RemoveFeature (ctx : CCCtx) (names : list string) : M CCStore unit :=
  guard_not (length names =? 0)%nat ErrInvalidRequest;;
  forM names (removeFeature ctx).

Fixpoint collect_features (curValidators : list Address) (s : CCStore)
    (l : list (bytes * Feature)) : Res (list Feature) :=
  match l with
  | [] => Ok []
  | (_, f) :: l =>
      feature ← getFeature (f_Name f) curValidators s;
      features ← collect_features curValidators s l;
      Ok (feature :: features)
  end.

Definition ListFeatures (ctx : CCCtx) (s : CCStore) : Res (list Feature) :=
  curValidators ← getCurrentValidators ctx;
  collect_features curValidators s (range_of (cc_features s)).

Definition GetFeature (ctx : CCCtx) (name : string) (s : CCStore) : Res Feature :=
  if String.eqb name "" then Err ErrInvalidRequest
  else curValidators ← getCurrentValidators ctx; getFeature name curValidators s.

(** The body of the loop of [EnableFeatures]. *)
Definition promoteFeature (params : CCParams) (curValidators : list Address)
    (blockHeight buildNumber : Z) (enabledFeatures : list Feature) (entry : bytes * Feature) :
    M CCStore (list Feature) :=
  r ← gets (getFeature (f_Name entry.2) curValidators);
  match r with
  | Panic => panic
  | Err _ => throw (ErrMsg "unable to get feature info")
  | Ok feature =>
      match f_Status feature with
      | PENDING =>
          if VoteThreshold params <=? f_Percentage feature then
            put_feature (f_with_BlockHeight blockHeight (f_with_Status WAITING feature));;
            mret enabledFeatures
          else mret enabledFeatures
      | WAITING =>
          if u64 (f_BlockHeight feature + NumBlockConfirmations params) <? blockHeight then
            guard_not (buildNumber <? f_BuildNumber feature) ErrFeatureNotSupported;;
            put_feature (f_with_Status ENABLED feature);;
            mret (enabledFeatures ++ [f_with_Status ENABLED feature])
          else mret enabledFeatures
      | _ => mret enabledFeatures
      end
  end.

Definition EnableFeatures (ctx : CCCtx) (blockHeight buildNumber : Z) : M CCStore (list Feature) :=
  params ← gets getParams;
  curValidators ← lift_res (getCurrentValidators ctx);
  featureRange ← gets (λ s, range_of (cc_features s));
  foldM (promoteFeature params curValidators blockHeight buildNumber) [] featureRange.
End Ops.
Arguments CCStore : clear implicits.

(** ** The manager *)

Section Manager.
Context {LIB : DiademLib} {RANGE : RangeOrder} {P : Type} {PERM : Permissions P}.
Context {T : Type} {KV : KVStore T}.

(** The contract's store and the chain's state. *)
Record MWorld := mkMWorld { mw_contract : CCStore P; mw_state : T }.

Definition on_contract {A} (m : M (CCStore P) A) : M MWorld A :=
  zoom mw_contract (λ s w, mkMWorld s (mw_state w)) m.

Definition Manager_EnableFeatures (ctx : CCCtx) (build blockHeight : Z) : M MWorld unit :=
  r ← on_contract (try_ (EnableFeatures ctx (u64 blockHeight) build));
  match r with
  | inr err => if decide (err = ErrFeatureNotSupported) then panic else throw err
  | inl features =>
      forM features (λ feature, modify (λ w,
        mkMWorld (mw_contract w) (SetFeature (f_Name feature) true (mw_state w))))
  end.
End Manager.
Arguments MWorld : clear implicits.

(** ** Promotion *)

Section Promotion.
Context {LIB : DiademLib} {RANGE : RangeOrder} {P : Type} {PERM : Permissions P}.
Implicit Types s : CCStore P.

(** What the start of a block does to a feature. *)
Definition activates (params : CCParams) (h : Z) (f : Feature) : bool :=
  bool_decide (f_Status f = WAITING) &&
  (u64 (f_BlockHeight f + NumBlockConfirmations params) <? h).

Definition promote (params : CCParams) (cur : list Address) (h : Z) (f : Feature) : Feature :=
  match f_Status f with
  | PENDING =>
      if VoteThreshold params <=? f_Percentage (with_votes cur f)
      then f_with_BlockHeight h (f_with_Status WAITING (with_votes cur f)) else f
  | WAITING => if activates params h f then f_with_Status ENABLED f else f
  | _ => f
  end.

(** Every feature is stored under its name. *)
Definition features_keyed s : Prop :=
  ∀ k f, cc_features s !! k = Some f → k = featureKey (f_Name f).

Lemma with_votes_Name cur f : f_Name (with_votes cur f) = f_Name f.
Proof. unfold with_votes. destruct (negb _); [done|]. cbv zeta. by destruct (0 <? _). Qed.

Lemma with_votes_Status cur f : f_Status (with_votes cur f) = f_Status f.
Proof. unfold with_votes. destruct (negb _); [done|]. cbv zeta. by destruct (0 <? _). Qed.

Lemma with_votes_not_pending cur f : f_Status f ≠ PENDING → with_votes cur f = f.
Proof. intros H. unfold with_votes. by rewrite bool_decide_eq_false_2. Qed.

Lemma promote_Name params cur h f : f_Name (promote params cur h f) = f_Name f.
Proof.
  unfold promote. destruct (f_Status f); [|by case_match|done|done].
  case_match; [|done]. cbn. apply with_votes_Name.
Qed.

(** One round of the loop. *)
Lemma promoteFeature_run params cur h b acc k f s :
  cc_features s !! k = Some f → k = featureKey (f_Name f) →
  promoteFeature params cur h b acc (k, f) s =
    if activates params h f && (b <? f_BuildNumber f) then (Err ErrFeatureNotSupported, s)
    else (Ok (if activates params h f then acc ++ [promote params cur h f] else acc),
          set_features (<[k := promote params cur h f]> (cc_features s)) s).
Proof.
  intros Hf Hk. unfold promoteFeature, getFeature. cbn [snd]. m_eval. rewrite <- Hk, Hf. cbv iota.
  assert (Hsame : set_features (<[k:=f]> (cc_features s)) s = s)
    by (destruct s; unfold set_features; cbn in *; by rewrite insert_id).
  rewrite with_votes_Status. unfold promote, activates.
  destruct (f_Status f) eqn:Hst; rewrite ?bool_decide_eq_true_2, ?bool_decide_eq_false_2 by done;
    cbn [andb]; rewrite ?Hsame; try done.
  - case_match; [|by rewrite Hsame]. unfold put_feature. m_eval. cbn [f_Name f_with_BlockHeight f_with_Status].
    by rewrite with_votes_Name, <- Hk.
  - rewrite with_votes_not_pending by (by rewrite Hst). destruct (u64 _ <? h); [|by rewrite Hsame]. cbn [andb].
    destruct (b <? f_BuildNumber f); m_eval; [done|]. cbn. by rewrite <- Hk.
Qed.

Definition newly (params : CCParams) (cur : list Address) (h : Z) (l : list (bytes * Feature)) :
    list Feature :=
  promote params cur h <$> filter (λ f, activates params h f = true) (snd <$> l).

(** The loop over a range of the store. *)
Lemma promote_loop params cur h b l acc s :
  NoDup l.*1 →
  Forall (λ kf, cc_features s !! kf.1 = Some kf.2 ∧ kf.1 = featureKey (f_Name kf.2)) l →
  match foldM (promoteFeature params cur h b) acc l s with
  | (Ok fs, s') =>
      Forall (λ f, activates params h f = true → f_BuildNumber f <= b) l.*2 ∧
      fs = acc ++ newly params cur h l ∧
      cc_params s' = cc_params s ∧ cc_perms s' = cc_perms s ∧
      ∀ k, cc_features s' !! k =
        match (list_to_map l : gmap bytes Feature) !! k with
        | Some f => Some (promote params cur h f)
        | None => cc_features s !! k
        end
  | (Err e, _) => e = ErrFeatureNotSupported ∧
      ¬ Forall (λ f, activates params h f = true → f_BuildNumber f <= b) l.*2
  | (Panic, _) => False
  end.
Proof.
  revert acc s. induction l as [|[k f] l IH]; intros acc s Hnd Hl.
  { cbn. split_and!; [constructor|by rewrite app_nil_r|done|done|]. intros k. by rewrite lookup_empty. }
  cbn [fmap list_fmap] in Hnd. apply NoDup_cons in Hnd as [Hk Hnd].
  apply Forall_cons in Hl as [[Hf Hkey] Hl]. cbn [fst snd] in *.
  cbn [foldM]. unfold mbind at 1, M_bind at 1. rewrite promoteFeature_run by done.
  destruct (activates params h f && (b <? f_BuildNumber f)) eqn:Hact.
  { apply andb_true_iff in Hact as [Ha Hb%Z.ltb_lt]. split; [done|]. intros [Hcontra _]%Forall_cons.
    cbn in Hcontra. specialize (Hcontra Ha). lia. }
  set (s1 := set_features _ s).
  specialize (IH (if activates params h f then acc ++ [promote params cur h f] else acc) s1 Hnd).
  assert (Hl1 : Forall (λ kf, cc_features s1 !! kf.1 = Some kf.2 ∧
    kf.1 = featureKey (f_Name kf.2)) l).
  { rewrite Forall_forall in Hl |- *. intros kf Hin. destruct (Hl kf Hin) as [Hm Hkf].
    cbn. split; [|done]. rewrite lookup_insert_ne; [done|].
    intros ->. apply Hk. by apply list_elem_of_fmap_2. }
  specialize (IH Hl1).
  assert (Hsup : activates params h f = true → f_BuildNumber f <= b).
  { intros Ha. rewrite Ha in Hact. apply Z.ltb_ge in Hact. lia. }
  destruct (foldM _ _ l s1) as [[fs|e|] s']; [|destruct IH as [-> IH]; split; [done|];
    intros [_ ?]%Forall_cons; done|done].
  destruct IH as (Hs & -> & Hp & Hq & Hm). cbn [fmap list_fmap fst snd]. split_and!; [by constructor| |done|done|].
  - unfold newly. cbn [fmap list_fmap snd]. rewrite filter_cons.
    destruct (activates params h f); [rewrite decide_True by done|rewrite decide_False by done]; [|done].
    cbn. by rewrite <- app_assoc.
  - intros k'. rewrite Hm. cbn [list_to_map foldr]. cbn. destruct (decide (k = k')) as [<-|Hne].
    + rewrite not_elem_of_list_to_map_1 by done. by rewrite !lookup_insert_eq.
    + by rewrite !lookup_insert_ne by done.
Qed.

Context {RSPEC : RangeOrderSpec}.

(** Whether all features due at this height are supported by the build. *)
Definition all_supported (params : CCParams) (h b : Z) s : Prop :=
  map_Forall (λ _ f, activates params h f = true → f_BuildNumber f <= b) (cc_features s).

Lemma EnableFeatures_run ctx h b s cur :
  features_keyed s → getCurrentValidators ctx = Ok cur →
  let params := getParams s in
  match EnableFeatures ctx h b s with
  | (Ok fs, s') =>
      all_supported params h b s ∧
      fs ≡ₚ newly params cur h (map_to_list (cc_features s)) ∧
      s' = set_features (promote params cur h <$> cc_features s) s
  | (Err e, _) => e = ErrFeatureNotSupported ∧ ¬ all_supported params h b s
  | (Panic, _) => False
  end.
Proof.
  intros Hkey Hcur params. unfold EnableFeatures. m_eval. rewrite Hcur. cbv beta iota.
  fold params. set (l := range_of (cc_features s)).
  pose proof (range_of_perm (cc_features s)) as Hperm. fold l in Hperm.
  assert (Hsup : Forall (λ f, activates params h f = true → f_BuildNumber f <= b) l.*2 ↔
    all_supported params h b s).
  { unfold all_supported. rewrite map_Forall_to_list, Forall_fmap, Hperm.
    apply Forall_proper; [|done]. by intros [k f]. }
  assert (Hnd : NoDup l.*1) by (rewrite Hperm; apply NoDup_fst_map_to_list).
  pose proof (promote_loop params cur h b l [] s Hnd) as Hloop.
  assert (Hl : Forall (λ kf, cc_features s !! kf.1 = Some kf.2 ∧
    kf.1 = featureKey (f_Name kf.2)) l).
  { rewrite Hperm. apply Forall_forall. intros [k f] Hin%elem_of_map_to_list. split; [done|]. by apply Hkey. }
  specialize (Hloop Hl).
  destruct (foldM _ [] l s) as [[fs|e|] s']; [|destruct Hloop as [-> Hn]; by rewrite Hsup in Hn|done].
  destruct Hloop as (Hs & -> & Hp & Hq & Hm). split_and!; [by apply Hsup| |].
  - cbn [app]. unfold newly. by rewrite Hperm.
  - destruct s' as [p' fs' q']. unfold set_features. cbn in *. rewrite Hp, Hq. f_equal. apply map_eq.
    intros k. rewrite Hm, lookup_fmap.
    rewrite (list_to_map_proper l (map_to_list (cc_features s))) by done.
    rewrite list_to_map_to_list. by destruct (cc_features s !! k).
Qed.
End Promotion.

(** ** Histories *)

Section History.
Context {LIB : DiademLib} {SPEC : DiademLibSpec} {RANGE : RangeOrder} {RSPEC : RangeOrderSpec}.
Context {P : Type} {PERM : Permissions P} {PSPEC : PermissionsSpec P}.
Context {T : Type} {KV : KVStore T} {KVS : KVStoreSpec T}.
Abbreviation W := (MWorld P T).
Implicit Types (w : W) (s : CCStore P).

(** What surrounds a call; the feature flags are those of the chain's state. *)
Record Env := mkEnv {
  env_ctx : Ctx;
  env_Validators : list (option bytes);
  env_dposV3 : DposStore;
  env_dposV2 : Res (list (option Address));
}.

Definition ctx_in (env : Env) w : CCCtx :=
  mkCCCtx (env_ctx env) (FeatureEnabled (mw_state w)) (env_Validators env)
    (env_dposV3 env) (env_dposV2 env).

Inductive CCCall :=
  | CallSetParams (params : option CCParams)
  | CallEnableFeature (names : list string)
  | CallAddFeature (names : list string) (buildNumber : Z) (autoEnable : bool)
  | CallRemoveFeature (names : list string)
  | CallBlock (build blockHeight : Z).

Definition run_cc_call (env : Env) (c : CCCall) : M W unit := λ w,
  match c with
  | CallSetParams params => on_contract (SetParams (ctx_in env w) params) w
  | CallEnableFeature names => on_contract (EnableFeature (ctx_in env w) names) w
  | CallAddFeature names b auto => on_contract (AddFeature (ctx_in env w) names b auto) w
  | CallRemoveFeature names => on_contract (RemoveFeature (ctx_in env w) names) w
  | CallBlock build h => Manager_EnableFeatures (ctx_in env w) build h w
  end.

(** One call that goes through; the application discards what a failed one wrote. *)
Definition cc_step w w' : Prop := ∃ env c, run_cc_call env c w = (Ok (), w').

(** Genesis: [Init] on an empty contract, no address having voted twice. *)
Definition cc_genesis w : Prop :=
  kv_ok (mw_state w) ∧
  ∃ req, Init req (mkCCStore None ∅ perm_none) = (Ok (), mw_contract w) ∧
         Forall (λ f, NoDup (f_Validators f)) (ir_Features req).

Definition cc_reachable w : Prop := ∃ w0, cc_genesis w0 ∧ rtc cc_step w0 w.

(** The invariant. *)
Record cc_inv w : Prop := {
  ci_state : kv_ok (mw_state w);
  ci_keyed : features_keyed (mw_contract w);
  ci_votes : map_Forall (λ _ f, NoDup (f_Validators f)) (cc_features (mw_contract w));
  ci_threshold : VoteThreshold (getParams (mw_contract w)) <= 100;
  ci_flags : map_Forall (λ _ f, f_Status f = ENABLED →
    FeatureEnabled (mw_state w) (f_Name f) false = true) (cc_features (mw_contract w));
}.

(** The part of it that is about the contract's store; [on] are the flags. *)
Record store_inv (on : string → bool) s : Prop := {
  si_keyed : features_keyed s;
  si_votes : map_Forall (λ _ f, NoDup (f_Validators f)) (cc_features s);
  si_threshold : VoteThreshold (getParams s) <= 100;
  si_flags : map_Forall (λ _ f, f_Status f = ENABLED → on (f_Name f) = true) (cc_features s);
}.

Lemma store_inv_insert on s f :
  store_inv on s → NoDup (f_Validators f) → (f_Status f = ENABLED → on (f_Name f) = true) →
  store_inv on (set_features (<[featureKey (f_Name f) := f]> (cc_features s)) s).
Proof.
  intros [Hk Hv Ht Hf] Hnd Hon. split; [|cbn..|].
  - intros k g. cbn. rewrite lookup_insert. case_decide as Hd; [intros [= <-]; done|apply Hk].
  - by apply map_Forall_insert_2.
  - done.
  - by apply map_Forall_insert_2.
Qed.

Lemma setParams_inv on v n : preserves (store_inv on) (setParams v n).
Proof.
  unfold setParams. intros s Hs. apply wp_bind, wp_guard_not.
  destruct (Z.ltb_spec 100 v) as [|Hv]; [done|]. apply wp_bind, wp_gets, wp_modify.
  destruct Hs as [Hk Hvs Ht Hf]. split; [done|done| |done]. cbn. unfold getParams in *. cbn.
  destruct (negb _); [lia|done].
Qed.

Lemma enableFeature_inv on ctx name : preserves (store_inv on) (enableFeature ctx name).
Proof.
  intros s Hs. unfold enableFeature. apply wp_bind, wp_guard_not. destruct (String.eqb _ _); [done|].
  apply wp_bind, wp_lift_res. destruct (getCurrentValidators ctx) as [cur| |]; [|done|done].
  apply wp_bind, wp_guard_not. destruct (negb _); [done|]. apply wp_bind, wp_gets.
  destruct (cc_features s !! featureKey name) as [f|] eqn:Hf; [|done].
  apply wp_bind, wp_guard_not. case_bool_decide as Hst; [done|].
  apply wp_bind, wp_guard_not. destruct (existsb _ (f_Validators f)) eqn:Hex; [done|].
  apply wp_modify. rewrite (si_keyed _ _ Hs _ _ Hf).
  apply (store_inv_insert on s (f_with_Validators _ f)); [done| |done]. cbn.
  apply NoDup_app. split_and!; [by apply (si_votes _ _ Hs _ _ Hf)| |by apply NoDup_singleton].
  intros v Hin Heq%list_elem_of_singleton. subst v. apply not_true_iff_false in Hex. apply Hex.
  apply existsb_exists. exists (ctx_sender (cx_ctx ctx)). split; [by apply list_elem_of_In|].
  apply Z.eqb_eq. by apply (cmp_eq (cmp := address_compare)).
Qed.

Lemma addFeature_inv on ctx b auto name : preserves (store_inv on) (addFeature ctx b auto name).
Proof.
  intros s Hs. unfold addFeature. apply wp_bind, wp_guard_not. destruct (String.eqb _ _); [done|].
  apply wp_bind, wp_gets, wp_bind, wp_guard_not. destruct (negb _); [done|].
  apply wp_bind, wp_gets, wp_bind, wp_guard_not. case_bool_decide; [done|].
  apply wp_modify, store_inv_insert; [done|constructor|done].
Qed.

Lemma removeFeature_inv on ctx name : preserves (store_inv on) (removeFeature ctx name).
Proof.
  intros s Hs. unfold removeFeature. apply wp_bind, wp_guard_not. destruct (String.eqb _ _); [done|].
  apply wp_bind, wp_gets, wp_bind, wp_guard_not. destruct (negb _); [done|].
  apply wp_bind, wp_gets, wp_bind, wp_guard_not. destruct (negb _); [done|].
  apply wp_bind, wp_guard_not. destruct (cx_FeatureEnabled _ _ _); [done|]. apply wp_modify.
  destruct Hs as [Hk Hv Ht Hf]. split; [|cbn..|].
  - intros k g. cbn. intros [_ ?]%lookup_delete_Some. by apply Hk.
  - by apply map_Forall_delete.
  - done.
  - by apply map_Forall_delete.
Qed.

(** ** Flags *)

Lemma FeatureEnabled_set (t : T) n n' :
  kv_ok t →
  FeatureEnabled (SetFeature n true t) n' false =
    if decide (n = n') then true else FeatureEnabled t n' false.
Proof.
  intros Hok. unfold FeatureEnabled, SetFeature. rewrite kv_Get_Set by done.
  destruct (decide (n = n')) as [->|Hne]; [by rewrite decide_True|].
  rewrite decide_False; [done|]. intros H%prefix_key_inj1. done.
Qed.

(** The manager's loop over the features it activates. *)
Lemma set_flags fs (w : W) :
  kv_ok (mw_state w) →
  ∃ t, forM fs (λ feature, modify (λ w,
         mkMWorld (mw_contract w) (SetFeature (f_Name feature) true (mw_state w)))) w
       = (Ok (), mkMWorld (mw_contract w) t) ∧ kv_ok t ∧
    ∀ n, FeatureEnabled t n false =
      bool_decide (n ∈ f_Name <$> fs) || FeatureEnabled (mw_state w) n false.
Proof.
  revert w. induction fs as [|f fs IH]; intros w Hok.
  - exists (mw_state w). by destruct w.
  - destruct (IH (mkMWorld (mw_contract w) (SetFeature (f_Name f) true (mw_state w)))) as
      (t & Hrun & Ht & Hn); [by apply kv_Set_ok|].
    exists t. split_and!; [exact Hrun|done|]. intros n. rewrite Hn. cbn [mw_state].
    rewrite FeatureEnabled_set by done. cbn [fmap list_fmap].
    destruct (decide (f_Name f = n)) as [->|Hne].
    + rewrite orb_true_r. by rewrite bool_decide_eq_true_2 by set_solver.
    + f_equal. apply bool_decide_ext. set_solver.
Qed.

(** A block that goes through: what happens to features and flags. *)
Lemma block_run env build h w w' :
  cc_inv w → run_cc_call env (CallBlock build h) w = (Ok (), w') →
  ∃ cur, getCurrentValidators (ctx_in env w) = Ok cur ∧
    let params := getParams (mw_contract w) in
    mw_contract w' = set_features (promote params cur (u64 h) <$> cc_features (mw_contract w))
                       (mw_contract w) ∧
    kv_ok (mw_state w') ∧
    ∀ n, FeatureEnabled (mw_state w') n false =
      bool_decide (n ∈ f_Name <$> newly params cur (u64 h) (map_to_list (cc_features (mw_contract w))))
      || FeatureEnabled (mw_state w) n false.
Proof.
  intros Hinv. cbn [run_cc_call]. unfold Manager_EnableFeatures.
  intros (r & w1 & Hr & H)%bind_inv. unfold on_contract, zoom, try_ in Hr.
  destruct (getCurrentValidators (ctx_in env w)) as [cur|e|] eqn:Hcur.
  2,3: unfold EnableFeatures in Hr; m_eval_in Hr; rewrite Hcur in Hr; cbn in Hr;
    injection Hr as <- <- || done; by case_decide.
  exists cur. split; [done|]. cbv zeta.
  pose proof (EnableFeatures_run (ctx_in env w) (u64 h) build (mw_contract w) cur
    (ci_keyed _ Hinv) Hcur) as Hrun.
  destruct (EnableFeatures _ _ _ _) as [[fs|e|] s']; [|injection Hr as <- <-; by case_decide|done].
  destruct Hrun as (_ & Hfs & ->). injection Hr as <- <-.
  destruct (set_flags fs (mkMWorld (set_features (promote (getParams (mw_contract w)) cur (u64 h)
    <$> cc_features (mw_contract w)) (mw_contract w)) (mw_state w)) (ci_state _ Hinv))
    as (t & Hrun & Ht & Hn).
  cbn [mw_contract mw_state] in *. rewrite Hrun in H. injection H as <-. cbn [mw_contract mw_state].
  split_and!; [done|done|]. intros n. rewrite Hn. f_equal. apply bool_decide_ext. by rewrite Hfs.
Qed.

Lemma promote_Validators params cur h f : f_Validators (promote params cur h f) = f_Validators f.
Proof.
  unfold promote. destruct (f_Status f); [|by case_match|done|done].
  case_match; [|done]. cbn. unfold with_votes. destruct (negb _); [done|]. cbv zeta. by destruct (0 <? _).
Qed.

Lemma promote_ENABLED params cur h f :
  f_Status (promote params cur h f) = ENABLED →
  f_Status f = ENABLED ∨ activates params h f = true.
Proof.
  unfold promote. destruct (f_Status f) eqn:Hst; [|case_match|by left|congruence].
  - case_match; cbn; congruence.
  - by right.
  - congruence.
Qed.

Lemma on_contract_inv (m : M (CCStore P) unit) w w' :
  on_contract m w = (Ok (), w') →
  ∃ s', m (mw_contract w) = (Ok (), s') ∧ w' = mkMWorld s' (mw_state w).
Proof.
  unfold on_contract, zoom. destruct (m (mw_contract w)) as [r s'] eqn:E. intros [= -> <-]. by exists s'.
Qed.

Lemma cc_inv_contract w s' :
  cc_inv w → store_inv (λ n, FeatureEnabled (mw_state w) n false) s' →
  cc_inv (mkMWorld s' (mw_state w)).
Proof. intros [Ht _ _ _ _] [? ? ? ?]. by split. Qed.

Lemma cc_inv_store w :
  cc_inv w → store_inv (λ n, FeatureEnabled (mw_state w) n false) (mw_contract w).
Proof. intros [? ? ? ? ?]. by split. Qed.

Lemma contract_call_inv (m : M (CCStore P) unit) w w' :
  preserves (store_inv (λ n, FeatureEnabled (mw_state w) n false)) m →
  cc_inv w → on_contract m w = (Ok (), w') → cc_inv w'.
Proof.
  intros Hm Hw (s' & Hrun & ->)%on_contract_inv. apply cc_inv_contract; [done|].
  pose proof (Hm (mw_contract w) (cc_inv_store w Hw)) as Hp. unfold wp in Hp. by rewrite Hrun in Hp.
Qed.

Lemma cc_step_inv w w' : cc_inv w → cc_step w w' → cc_inv w'.
Proof.
  intros Hw (env & c & H). destruct c as [p|names|names b auto|names|build h].
  - eapply contract_call_inv; [|done|exact H]. unfold SetParams. destruct p as [p|]; [|pres].
    unfold has_permission. pose proof (setParams_inv (λ n, FeatureEnabled (mw_state w) n false)). pres.
  - eapply contract_call_inv; [|done|exact H]. unfold EnableFeature.
    pose proof (enableFeature_inv (λ n, FeatureEnabled (mw_state w) n false)). pres.
  - eapply contract_call_inv; [|done|exact H]. unfold AddFeature.
    pose proof (addFeature_inv (λ n, FeatureEnabled (mw_state w) n false)). pres.
  - eapply contract_call_inv; [|done|exact H]. unfold RemoveFeature.
    pose proof (removeFeature_inv (λ n, FeatureEnabled (mw_state w) n false)). pres.
  - destruct (block_run env build h w w' Hw H) as (cur & _ & Hc & Ht & Hn). cbv zeta in *.
    destruct Hw as [_ Hk Hv Hthr Hf].
    split; [done|rewrite Hc; cbn..].
    + intros k f. cbn. rewrite lookup_fmap. intros (g & Hg & ->)%fmap_Some. rewrite promote_Name. by apply Hk.
    + apply map_Forall_fmap. intros k f Hkf. cbn. rewrite promote_Validators. by apply (Hv k).
    + done.
    + apply map_Forall_fmap. intros k f Hkf. cbn. rewrite promote_Name, Hn.
      intros [He|Ha]%promote_ENABLED; [rewrite (Hf k f Hkf He); by rewrite orb_true_r|].
      apply orb_true_iff. left. apply bool_decide_eq_true_2. apply list_elem_of_fmap.
      eexists. split; [symmetry; apply promote_Name|]. unfold newly.
      apply list_elem_of_fmap_2, list_elem_of_filter. split; [done|].
      apply list_elem_of_fmap. exists (k, f). split; [done|]. by apply elem_of_map_to_list.
Qed.

(** ** Genesis *)

Lemma Init_inv req s' :
  Init req (mkCCStore None ∅ perm_none) = (Ok (), s') →
  Forall (λ f, NoDup (f_Validators f)) (ir_Features req) → store_inv (λ _, false) s'.
Proof.
  intros H Hnd. set (I := store_inv (λ _, false)).
  assert (Hw : wp (Init req) (λ _ s, I s) (mkCCStore None ∅ perm_none)); [|unfold wp in Hw; by rewrite H in Hw].
  assert (H0 : ∀ p, I (mkCCStore None ∅ p)).
  { intros p. split; [intros k f Hf; cbn in Hf; by rewrite lookup_empty in Hf|apply map_Forall_empty|done|apply map_Forall_empty]. }
  unfold Init. destruct (ir_Owner req) as [owner|]; [|apply wp_throw, H0].
  apply wp_bind, wp_modify. apply wp_bind, wp_modify. apply wp_bind.
  assert (Hloop : ∀ fs s, Forall (λ f, NoDup (f_Validators f)) fs → I s →
    wp (forM fs (λ feature,
        guard_not (negb (bool_decide (f_Status feature = PENDING)) &&
                   negb (bool_decide (f_Status feature = WAITING))) ErrInvalidRequest;;
        found ← has_feature (f_Name feature);
        guard_not found ErrFeatureAlreadyExists;;
        put_feature feature)) (λ _ s', I s') s).
  { clear. induction fs as [|f fs IH]; intros s Hnd Hs; [done|].
    apply Forall_cons in Hnd as [Hf Hnd]. unfold forM. cbn [foldM]. apply wp_bind. apply wp_bind, wp_guard_not.
    destruct (negb _ && _) eqn:Hst; [done|].
    apply wp_bind, wp_gets, wp_bind, wp_guard_not. destruct (bool_decide (is_Some _)); [done|].
    apply wp_modify. apply IH; [done|]. apply store_inv_insert; [done|done|].
    intros He. by rewrite He in Hst. }
  eapply wp_mono; [apply Hloop; [done|apply H0]|]. intros [[]|e|] s Hs; [|done|done].
  destruct (ir_Params req) as [p|]; [|done]. by apply setParams_inv.
Qed.

Lemma cc_steps_inv w w' : rtc cc_step w w' → cc_inv w → cc_inv w'.
Proof. induction 1; eauto using cc_step_inv. Qed.

Lemma cc_reachable_inv w : cc_reachable w → cc_inv w.
Proof.
  intros (w0 & [Hok (req & Hreq & Hnd)] & Hsteps). apply (cc_steps_inv w0 w Hsteps).
  destruct (Init_inv req _ Hreq Hnd) as [? ? ? Hf]. split; [done..|].
  intros k f Hkf He. by specialize (Hf k f Hkf He).
Qed.

(** ** The life of a feature *)

Inductive lifecycle : option FeatureStatus → option FeatureStatus → Prop :=
  | lc_same o : lifecycle o o
  | lc_added : lifecycle None (Some PENDING)
  | lc_removed st : st ≠ ENABLED → lifecycle (Some st) None
  | lc_accepted : lifecycle (Some PENDING) (Some WAITING)
  | lc_activated : lifecycle (Some WAITING) (Some ENABLED).

Definition status_at s (k : bytes) : option FeatureStatus := f_Status <$> cc_features s !! k.

Lemma promote_lifecycle params cur h f :
  lifecycle (Some (f_Status f)) (Some (f_Status (promote params cur h f))).
Proof.
  unfold promote. destruct (f_Status f) eqn:Hst; try (case_match; cbn; rewrite ?Hst; constructor);
    rewrite Hst; constructor.
Qed.

(** Votes keep every status. *)
Lemma enableFeature_status s0 ctx name :
  preserves (λ s, ∀ k, status_at s k = status_at s0 k) (enableFeature ctx name).
Proof.
  intros s Hs. unfold enableFeature. apply wp_bind, wp_guard_not. destruct (String.eqb _ _); [done|].
  apply wp_bind, wp_lift_res. destruct (getCurrentValidators ctx) as [cur| |]; [|done|done].
  apply wp_bind, wp_guard_not. destruct (negb _); [done|]. apply wp_bind, wp_gets.
  destruct (cc_features s !! featureKey name) as [f|] eqn:Hf; [|done].
  apply wp_bind, wp_guard_not. case_bool_decide as Hst; [done|].
  apply wp_bind, wp_guard_not. destruct (existsb _ (f_Validators f)); [done|].
  apply wp_modify. intros k. rewrite <- Hs. unfold status_at. cbn.
  destruct (decide (featureKey name = k)) as [<-|Hne]; [by rewrite lookup_insert_eq, Hf|].
  by rewrite lookup_insert_ne.
Qed.

(** Added features are pending. *)
Lemma addFeature_status s0 ctx b auto name :
  preserves (λ s, ∀ k, status_at s k = status_at s0 k ∨
                       status_at s0 k = None ∧ status_at s k = Some PENDING)
    (addFeature ctx b auto name).
Proof.
  intros s Hs. unfold addFeature. apply wp_bind, wp_guard_not. destruct (String.eqb _ _); [done|].
  apply wp_bind, wp_gets, wp_bind, wp_guard_not. destruct (negb _); [done|].
  apply wp_bind, wp_gets, wp_bind, wp_guard_not. case_bool_decide as Hnone; [done|].
  apply wp_modify. intros k. specialize (Hs k). unfold status_at in *. cbn.
  destruct (decide (featureKey name = k)) as [<-|Hne]; [|by rewrite lookup_insert_ne].
  rewrite lookup_insert_eq. right. split; [|done]. apply eq_None_not_Some in Hnone.
  rewrite Hnone in Hs. destruct Hs as [<-|[-> _]]; done.
Qed.

(** Features whose flag is set are not removed. *)
Lemma removeFeature_status s0 ctx name :
  store_inv (λ n, cx_FeatureEnabled ctx n false) s0 →
  preserves (λ s, ∀ k, status_at s k = status_at s0 k ∨
                       status_at s k = None ∧ status_at s0 k ≠ Some ENABLED)
    (removeFeature ctx name).
Proof.
  intros H0 s Hs. unfold removeFeature. apply wp_bind, wp_guard_not. destruct (String.eqb _ _); [done|].
  apply wp_bind, wp_gets, wp_bind, wp_guard_not. destruct (negb _); [done|].
  apply wp_bind, wp_gets, wp_bind, wp_guard_not. destruct (negb _); [done|].
  apply wp_bind, wp_guard_not. destruct (cx_FeatureEnabled _ _ _) eqn:Hflag; [done|]. apply wp_modify.
  intros k. specialize (Hs k). unfold status_at in *. cbn.
  destruct (decide (featureKey name = k)) as [<-|Hne]; [|by rewrite lookup_delete_ne].
  rewrite lookup_delete_eq. right. split; [done|]. intros (f & Hf & He)%fmap_Some.
  pose proof (si_keyed _ _ H0 _ _ Hf) as Hn%prefix_key_inj1.
  pose proof (si_flags _ _ H0 _ _ Hf (eq_sym He)) as Hon. cbv beta in Hon. congruence.
Qed.

Lemma lifecycle_step w w' :
  cc_inv w → cc_step w w' →
  ∀ k, lifecycle (status_at (mw_contract w) k) (status_at (mw_contract w') k).
Proof.
  intros Hw (env & c & H) k. set (s0 := mw_contract w).
  assert (Hrun : ∀ (m : M (CCStore P) unit) (I : CCStore P → Prop),
    preserves I m → I s0 → on_contract m w = (Ok (), w') → I (mw_contract w')).
  { intros m I Hm HI (s' & Hrun & ->)%on_contract_inv. pose proof (Hm s0 HI) as Hp.
    unfold wp in Hp. unfold s0 in Hp; by rewrite Hrun in Hp. }
  destruct c as [p|names|names b auto|names|build h].
  - rewrite (Hrun (SetParams (ctx_in env w) p) (λ s, status_at s k = status_at s0 k));
      [constructor| |done|exact H].
    unfold SetParams, setParams, has_permission. destruct p; pres.
  - rewrite (Hrun (EnableFeature (ctx_in env w) names) (λ s, ∀ k, status_at s k = status_at s0 k));
      [constructor| |done|exact H].
    unfold EnableFeature. pose proof (enableFeature_status s0). pres.
  - destruct (Hrun (AddFeature (ctx_in env w) names b auto) (λ s, ∀ k, status_at s k = status_at s0 k ∨
      status_at s0 k = None ∧ status_at s k = Some PENDING)) with (k := k) as [->|[-> ->]];
      [|by left|exact H|constructor..].
    unfold AddFeature. pose proof (addFeature_status s0). pres.
  - destruct (Hrun (RemoveFeature (ctx_in env w) names) (λ s, ∀ k, status_at s k = status_at s0 k ∨
      status_at s k = None ∧ status_at s0 k ≠ Some ENABLED)) with (k := k) as [->|[-> Hne]];
      [|by left|exact H|constructor|].
    + unfold RemoveFeature.
      pose proof (λ n, removeFeature_status s0 (ctx_in env w) n (cc_inv_store w Hw)). pres.
    + destruct (status_at s0 k) as [st|]; constructor. congruence.
  - destruct (block_run env build h w w' Hw H) as (cur & _ & Hc & _ & _). cbv zeta in Hc.
    rewrite Hc. unfold status_at. cbn. rewrite lookup_fmap. fold s0.
    destruct (cc_features s0 !! k) as [f|]; [apply promote_lifecycle|constructor].
Qed.

(** ** Who may do what *)

Lemma perms_kept p ctx :
  (∀ params, preserves (λ s, cc_perms s = p) (SetParams ctx params)) ∧
  (∀ names, preserves (λ s, cc_perms s = p) (EnableFeature ctx names)) ∧
  (∀ names b auto, preserves (λ s, cc_perms s = p) (AddFeature ctx names b auto)) ∧
  (∀ names, preserves (λ s, cc_perms s = p) (RemoveFeature ctx names)).
Proof.
  split_and!; intros; unfold SetParams, EnableFeature, AddFeature, RemoveFeature, setParams,
    enableFeature, addFeature, removeFeature, has_permission, has_feature, put_feature; pres.
Qed.

Lemma cc_step_perms w w' : cc_inv w → cc_step w w' → cc_perms (mw_contract w') = cc_perms (mw_contract w).
Proof.
  intros Hw (env & c & H).
  destruct (perms_kept (cc_perms (mw_contract w)) (ctx_in env w)) as (H1 & H2 & H3 & H4).
  assert (Hrun : ∀ m : M (CCStore P) unit,
    preserves (λ s, cc_perms s = cc_perms (mw_contract w)) m →
    on_contract m w = (Ok (), w') → cc_perms (mw_contract w') = cc_perms (mw_contract w)).
  { intros m Hm (s' & Hrun & ->)%on_contract_inv. pose proof (Hm (mw_contract w) eq_refl) as Hp.
    unfold wp in Hp. by rewrite Hrun in Hp. }
  destruct c as [p|names|names b auto|names|build h]; [eapply Hrun; [|exact H]; auto..|].
  destruct (block_run env build h w w' Hw H) as (cur & _ & Hc & _ & _). by rewrite Hc.
Qed.

Lemma cc_steps_perms w w' :
  cc_inv w → rtc cc_step w w' → cc_perms (mw_contract w') = cc_perms (mw_contract w).
Proof.
  intros Hw Hsteps. revert Hw. induction Hsteps as [|w w1 w' Hs _ IH]; intros Hw; [done|].
  rewrite IH by (by eapply cc_step_inv). by apply cc_step_perms.
Qed.

Lemma Init_perms req owner s' addr token :
  ir_Owner req = Some owner → wf_address owner → wf_address addr → addr ≠ owner →
  Init req (mkCCStore None ∅ perm_none) = (Ok (), s') →
  perm_has (cc_perms s') addr token [ownerRole] = false.
Proof.
  intros Ho Hwo Hwa Hne. unfold Init. rewrite Ho. intros H.
  set (p := perm_grant owner addFeaturePerm ownerRole
              (perm_grant owner setParamsPerm ownerRole perm_none)).
  assert (Hp : cc_perms s' = p).
  { apply bind_inv in H as ([] & s1 & [= <-] & H). apply bind_inv in H as ([] & s2 & [= <-] & H).
    apply bind_inv in H as ([] & s3 & Hl & H).
    match type of Hl with forM ?l ?f ?st = _ =>
      assert (Hf : preserves (λ s, cc_perms s = p) (forM l f)) by (unfold has_feature, put_feature; pres);
      pose proof (Hf st eq_refl) as Hp end.
    unfold wp in Hp. rewrite Hl in Hp. cbn in Hp.
    assert (Hg : preserves (λ s, cc_perms s = p) (match ir_Params req with
      | Some q => setParams (VoteThreshold q) (NumBlockConfirmations q)
      | None => mret ()
      end)) by (unfold setParams; destruct (ir_Params req); pres).
    pose proof (Hg s3 Hp) as Hq. unfold wp in Hq. by rewrite H in Hq. }
  rewrite Hp. unfold p. rewrite !perm_has_grant by done.
  rewrite !decide_False by naive_solver. apply perm_has_none.
Qed.

(** The calls reserved to the owner, on the contract's store. *)
Lemma owner_calls_fail ctx s :
  (∀ token, perm_has (cc_perms s) (ctx_sender (cx_ctx ctx)) token [ownerRole] = false) →
  (∀ p, ∃ e, SetParams ctx p s = (Err e, s)) ∧
  (∀ names b auto, ∃ e, AddFeature ctx names b auto s = (Err e, s)) ∧
  (∀ names, ∃ e, RemoveFeature ctx names s = (Err e, s)).
Proof.
  intros Hno. unfold SetParams, AddFeature, RemoveFeature, addFeature, removeFeature, has_permission.
  split_and!; [intros [p|]|intros [|n names] b auto|intros [|n names]]; m_eval;
    cbn [length Nat.eqb foldM]; rewrite ?Hno; eauto; m_eval;
    destruct (String.eqb n ""); rewrite ?Hno; eauto.
Qed.

Lemma voter_calls_fail ctx names s :
  (∀ cur, getCurrentValidators ctx = Ok cur → ctx_sender (cx_ctx ctx) ∉ cur) →
  EnableFeature ctx names s = (Panic, s) ∨ ∃ e, EnableFeature ctx names s = (Err e, s).
Proof.
  intros Hcur. unfold EnableFeature. destruct names as [|n names]; m_eval;
    cbn [length Nat.eqb foldM]; [eauto|]. unfold enableFeature. m_eval.
  destruct (String.eqb n ""); [eauto|].
  destruct (getCurrentValidators ctx) as [cur|e|]; [|eauto|eauto].
  destruct (existsb _ cur) eqn:Hex; [|eauto].
  exfalso. apply existsb_exists in Hex as (v & Hv%list_elem_of_In & Hcmp%Z.eqb_eq).
  apply (cmp_eq (cmp := address_compare)) in Hcmp. rewrite <- Hcmp in Hv. by apply (Hcur cur).
Qed.

Lemma on_contract_err (m : M (CCStore P) unit) w e :
  m (mw_contract w) = (Err e, mw_contract w) → on_contract m w = (Err e, w).
Proof. intros H. unfold on_contract, zoom. rewrite H. by destruct w. Qed.

(** ** Votes *)

Lemma hash_map_lookup cur votes k :
  validatorsHashMap cur votes !! k =
    if decide (k ∈ Local <$> votes) then Some true
    else if decide (k ∈ Local <$> cur) then Some false else None.
Proof.
  unfold validatorsHashMap.
  assert (Hf : ∀ (b : bool) l (m : gmap bytes bool),
    foldl (λ m v, <[Local v := b]> m) m l !! k =
      if decide (k ∈ Local <$> l) then Some b else m !! k).
  { intros b l. induction l as [|v l IH]; intros m; [done|]. cbn [foldl]. rewrite IH.
    destruct (decide (k ∈ Local <$> l)) as [Hin|Hin].
    - rewrite decide_True; [done|]. cbn. set_solver.
    - rewrite lookup_insert. destruct (decide (Local v = k)) as [Heq|Hne].
      + rewrite decide_True; [done|]. cbn. set_solver.
      + rewrite decide_False; [done|]. cbn. set_solver. }
  rewrite !Hf. by rewrite lookup_empty.
Qed.

(** Every distinct voter counts, whether it still is a validator or not. *)
Lemma count_votes cur votes :
  enabledValidatorsCount (validatorsHashMap cur votes) =
    Z.of_nat (size (list_to_set (Local <$> votes) : gset bytes)).
Proof.
  unfold enabledValidatorsCount. f_equal.
  rewrite <- (size_dom (D := gset bytes)). f_equal. apply leibniz_equiv. intros k.
  rewrite elem_of_dom, elem_of_list_to_set. unfold is_Some. setoid_rewrite map_lookup_filter_Some.
  setoid_rewrite hash_map_lookup. case_decide as Hv; cbn.
  - split; [done|]. intros _. by exists true.
  - split; [|done]. intros (b & Hb & ->). case_decide; congruence.
Qed.

(** ** Properties *)

(** Whatever the owner, the validators and the blocks do, a feature goes
    through its life one step at a time: it is added as pending, accepted by the
    votes, then activated; only features that are not active are removed, and
    there is no other change of status. *)
Theorem feature_lifecycle w w' k :
  cc_reachable w → cc_step w w' →
  lifecycle (status_at (mw_contract w) k) (status_at (mw_contract w') k).
Proof. intros Hw%cc_reachable_inv Hs. by apply lifecycle_step. Qed.

(** C18. Activation is for ever: once a feature is enabled, it stays enabled and
    flagged in the chain's state whatever calls and blocks follow. *)
Theorem enabled_is_forever w w' k f :
  cc_reachable w → cc_features (mw_contract w) !! k = Some f → f_Status f = ENABLED →
  rtc cc_step w w' →
  status_at (mw_contract w') k = Some ENABLED ∧
  FeatureEnabled (mw_state w') (f_Name f) false = true.
Proof.
  intros Hw%cc_reachable_inv Hf He Hsteps.
  assert (Hst : status_at (mw_contract w') k = Some ENABLED).
  { assert (H0 : status_at (mw_contract w) k = Some ENABLED) by (unfold status_at; rewrite Hf; cbn; congruence).
    clear Hf He. revert Hw H0. induction Hsteps as [|w w1 w' Hs _ IH]; intros Hw H0; [done|].
    apply IH; [by eapply cc_step_inv|]. pose proof (lifecycle_step w w1 Hw Hs k) as Hl.
    rewrite H0 in Hl. by inversion Hl. }
  split; [done|]. apply (cc_steps_inv w w' Hsteps) in Hw as Hw'.
  apply fmap_Some in Hst as (f' & Hf' & He').
  pose proof (ci_keyed _ Hw k f Hf) as Hk. pose proof (ci_keyed _ Hw' k f' Hf') as Hk'.
  rewrite Hk in Hk'. apply prefix_key_inj1 in Hk'. rewrite Hk'. by apply (ci_flags _ Hw' k).
Qed.

(** C19. The start of a block promotes every feature by exactly one rule: a
    pending feature whose percentage of votes has reached the threshold is
    accepted at this height, an accepted one whose confirmations have passed is
    activated, and exactly the activated ones are flagged in the chain's state.
    If one of these needs a newer build the node stops, and nothing else can go
    wrong. *)
Theorem block_promotes_features env build h w cur :
  cc_reachable w → getCurrentValidators (ctx_in env w) = Ok cur →
  let params := getParams (mw_contract w) in
  let features := cc_features (mw_contract w) in
  match run_cc_call env (CallBlock build h) w with
  | (Ok (), w') =>
      all_supported params (u64 h) build (mw_contract w) ∧
      cc_features (mw_contract w') = promote params cur (u64 h) <$> features ∧
      ∀ n, FeatureEnabled (mw_state w') n false = true ↔
        (∃ k f, features !! k = Some f ∧ f_Name f = n ∧ activates params (u64 h) f = true) ∨
        FeatureEnabled (mw_state w) n false = true
  | (Panic, _) => ¬ all_supported params (u64 h) build (mw_contract w)
  | (Err _, _) => False
  end.
Proof.
  intros Hw%cc_reachable_inv Hcur params features.
  pose proof (EnableFeatures_run (ctx_in env w) (u64 h) build (mw_contract w) cur
    (ci_keyed _ Hw) Hcur) as Hrun. cbv zeta in Hrun. fold params in Hrun.
  destruct (run_cc_call env (CallBlock build h) w) as [r w'] eqn:E.
  pose proof E as E0. cbn [run_cc_call] in E. unfold Manager_EnableFeatures, on_contract, zoom, try_ in E.
  unfold mbind at 1, M_bind at 1 in E.
  destruct (EnableFeatures _ _ _ _) as [[fs|e|] s']; cbn in E; [| |done].
  - destruct Hrun as (Hsup & _ & ->).
    destruct (set_flags fs (mkMWorld (set_features (promote params cur (u64 h)
      <$> cc_features (mw_contract w)) (mw_contract w)) (mw_state w)) (ci_state _ Hw)) as (t & Hset & _).
    cbn [mw_contract mw_state] in Hset. rewrite Hset in E. injection E as <- <-.
    destruct (block_run env build h w _ Hw E0) as (cur' & Hcur' & Hc & _ & Hn).
    assert (cur' = cur) as -> by congruence. cbv zeta in *.
    split_and!; [done|by rewrite Hc|]. intros n. rewrite Hn, orb_true_iff, bool_decide_eq_true.
    f_equiv. unfold newly. rewrite <- list_fmap_compose. split.
    + intros (f & -> & Hf)%list_elem_of_fmap. apply list_elem_of_filter in Hf as [Ha Hf].
      apply list_elem_of_fmap in Hf as ([k g] & -> & Hk%elem_of_map_to_list).
      exists k, g. split_and!; [done| |done]. symmetry. apply promote_Name.
    + intros (k & f & Hk & <- & Ha). apply list_elem_of_fmap. exists f.
      split; [symmetry; apply promote_Name|]. apply list_elem_of_filter. split; [done|].
      apply list_elem_of_fmap. exists (k, f). split; [done|]. by apply elem_of_map_to_list.
  - destruct Hrun as [-> Hn]. rewrite decide_True in E by done. by injection E as <- <-.
Qed.

(** Only the owner named at genesis changes the parameters and the list of
    features, and only a validator votes: for anybody else the call fails and
    nothing changes, after any history. *)
Theorem config_calls_are_guarded env w0 req owner w :
  kv_ok (mw_state w0) → ir_Owner req = Some owner → wf_address owner →
  Init req (mkCCStore None ∅ perm_none) = (Ok (), mw_contract w0) →
  Forall (λ f, NoDup (f_Validators f)) (ir_Features req) →
  rtc cc_step w0 w →
  wf_address (ctx_sender (env_ctx env)) →
  (ctx_sender (env_ctx env) ≠ owner → ∀ c,
     match c with CallSetParams _ | CallAddFeature _ _ _ | CallRemoveFeature _ => True | _ => False end →
     ∃ e, run_cc_call env c w = (Err e, w)) ∧
  ((∀ cur, getCurrentValidators (ctx_in env w) = Ok cur → ctx_sender (env_ctx env) ∉ cur) →
     ∀ names, run_cc_call env (CallEnableFeature names) w = (Panic, w) ∨
       ∃ e, run_cc_call env (CallEnableFeature names) w = (Err e, w)).
Proof.
  intros Hok Ho Hwo Hinit Hnd Hsteps Hws.
  assert (Hinv : cc_inv w0) by (apply cc_reachable_inv; exists w0; split; [|done]; split; eauto).
  split.
  - intros Hne c Hc. destruct (owner_calls_fail (ctx_in env w) (mw_contract w)) as (H1 & H2 & H3).
    { intros token. rewrite (cc_steps_perms w0 w) by done. by eapply Init_perms. }
    destruct c as [p|names|names b auto|names|]; [|done| | |done]; cbn [run_cc_call].
    + destruct (H1 p) as [e He]. exists e. by apply on_contract_err.
    + destruct (H2 names b auto) as [e He]. exists e. by apply on_contract_err.
    + destruct (H3 names) as [e He]. exists e. by apply on_contract_err.
  - intros Hcur names. cbn [run_cc_call].
    destruct (voter_calls_fail (ctx_in env w) names (mw_contract w) Hcur) as [H|[e H]].
    + left. unfold on_contract, zoom. rewrite H. by destruct w.
    + right. exists e. by apply on_contract_err.
Qed.

(** The percentage of a pending feature is the number of distinct voters in
    relation to the number of current validators.  A vote keeps counting after
    its voter has ceased to be a validator. *)
Theorem percentage_counts_voters cur f :
  f_Status f = PENDING → cur ≠ [] →
  let voters := size (list_to_set (Local <$> f_Validators f) : gset bytes) in
  Z.of_nat voters < 2 ^ 56 →
  f_Percentage (with_votes cur f) = 100 * Z.of_nat voters / Z.of_nat (length cur).
Proof.
  intros Hst Hne voters Hb. unfold with_votes. rewrite bool_decide_eq_true_2 by done. cbn [negb].
  assert (Hlen : 0 < Z.of_nat (length cur)) by (destruct cur; [done|cbn [length]; lia]).
  cbv zeta. rewrite (proj2 (Z.ltb_lt _ _) Hlen), count_votes. fold voters. cbn [f_Percentage f_with_Percentage].
  rewrite i64_small by lia. rewrite Z.quot_div_nonneg by lia. rewrite (Z.mul_comm _ 100).
  apply u64_small. split; [apply Z.div_pos; lia|].
  eapply Z.le_lt_trans; [apply Z.div_le_upper_bound with (q := 100 * Z.of_nat voters); nia|lia].
Qed.
End History.

(** ** Witnesses *)

Module ChainConfigWitness.
Import SimpleLib.
#[local] Instance mem : KVStore MemStore := mem_kvstore (λ k p, Some k).
#[local] Instance mem_spec : KVStoreSpec MemStore := mem_kvstore_spec (λ k p, Some k).

Abbreviation Perms := (gset (Address * bytes * string)).
Abbreviation World := (MWorld Perms MemStore).

Definition waiting : Feature := mkFeature "auth:v2" 3 10 WAITING [] 0 false.
Definition pending : Feature := mkFeature "evm:v2" 3 0 PENDING [sample "v"] 0 false.

Definition request : InitRequest :=
  mkInitRequest (Some (sample "o")) [waiting; pending] (Some (mkCCParams 60 5)).

Definition genesis : World :=
  mkMWorld (Init request (mkCCStore None ∅ perm_none)).2 NewMemStore.

(** Two validators of dpos v2; [c] is the caller. *)
Definition env (c : string) : Env :=
  mkEnv (mkCtx (sample c) 0 (sample "X") "diadem" 1 {[ "dposV2" := sample "D" ]})
    [] empty_dpos_store (Ok [Some (sample "v"); None; Some (sample "u")]).

(** A block at height 20 activates the first feature. *)
Definition activated : World := (run_cc_call (env "r") (CallBlock 3 20) genesis).2.
(** The second validator votes, and the next block accepts the second feature. *)
Definition voted : World := (run_cc_call (env "u") (CallEnableFeature ["evm:v2"]) activated).2.

Lemma genesis_init : Init request (mkCCStore None ∅ perm_none) = (Ok (), mw_contract genesis).
Proof. unfold genesis. cbn [mw_contract]. apply run_ok. by vm_compute. Qed.

Lemma genesis_votes : Forall (λ f, NoDup (f_Validators f)) (ir_Features request).
Proof. repeat constructor; set_solver. Qed.

Lemma genesis_reachable : cc_reachable genesis.
Proof.
  exists genesis. split; [|done]. split; [done|]. exists request.
  split; [apply genesis_init|apply genesis_votes].
Qed.

Lemma activated_step : cc_step genesis activated.
Proof. exists (env "r"), (CallBlock 3 20). unfold activated. apply run_ok. by vm_compute. Qed.

Lemma voted_step : cc_step activated voted.
Proof. exists (env "u"), (CallEnableFeature ["evm:v2"]). unfold voted. apply run_ok. by vm_compute. Qed.

Lemma activated_reachable : cc_reachable activated.
Proof.
  destruct genesis_reachable as (w0 & H0 & Hs). exists w0. split; [done|].
  eapply rtc_r; [done|apply activated_step].
Qed.

Lemma lifecycle_witness :
  status_at (mw_contract genesis) (featureKey "auth:v2") = Some WAITING ∧
  lifecycle (Some WAITING) (status_at (mw_contract activated) (featureKey "auth:v2")).
Proof.
  assert (H0 : status_at (mw_contract genesis) (featureKey "auth:v2") = Some WAITING) by (by vm_compute).
  split; [exact H0|]. rewrite <- H0.
  exact (feature_lifecycle genesis activated (featureKey "auth:v2") genesis_reachable activated_step).
Defined.

Lemma forever_witness :
  status_at (mw_contract voted) (featureKey "auth:v2") = Some ENABLED ∧
  FeatureEnabled (mw_state voted) "auth:v2" false = true.
Proof.
  apply (enabled_is_forever activated voted (featureKey "auth:v2") (f_with_Status ENABLED waiting)).
  - apply activated_reachable.
  - by vm_compute.
  - reflexivity.
  - apply rtc_once, voted_step.
Defined.

Lemma block_witness :
  FeatureEnabled (mw_state activated) "auth:v2" false = true.
Proof.
  pose proof (block_promotes_features (env "r") 3 20 genesis [sample "v"; sample "u"]
    genesis_reachable eq_refl) as H. cbv zeta in H.
  assert (E : run_cc_call (env "r") (CallBlock 3 20) genesis = (Ok (), activated))
    by (unfold activated; apply run_ok; by vm_compute).
  rewrite E in H. destruct H as (_ & _ & H). apply H. left.
  exists (featureKey "auth:v2"), waiting. split_and!; by vm_compute.
Defined.

Lemma guarded_witness :
  ∃ e, run_cc_call (env "r") (CallRemoveFeature ["evm:v2"]) activated = (Err e, activated).
Proof.
  destruct (config_calls_are_guarded (env "r") genesis request (sample "o") activated) as [H _].
  - done.
  - reflexivity.
  - by split.
  - apply genesis_init.
  - apply genesis_votes.
  - apply rtc_once, activated_step.
  - by split.
  - by apply (H ltac:(done) (CallRemoveFeature ["evm:v2"])).
Defined.

Lemma percentage_witness :
  f_Percentage (with_votes [sample "v"; sample "u"] pending) = 50.
Proof.
  etrans; [apply (percentage_counts_voters [sample "v"; sample "u"] pending); [reflexivity|discriminate|]|].
  - by vm_compute.
  - by vm_compute.
Defined.
End ChainConfigWitness.
