(* ===== verification/AddressMapper.v ===== *)
(** * The address mapper (src/builtin/plugins/address_mapper/address_mapper.go)

    Links an account of this chain with an account of another one, both ways.
    Hashing and signature recovery are in go-ethereum and go-solidity-sha3:
    class [EvmLib].

    The theorems are that a link needs both parties, that the links form a
    one-to-one relation that works both ways, and that a link never changes. *)

From S2P Require Import Prelude Contract.

Class EvmLib := {
  (** [common.BytesToAddress] *)
  eth_address : bytes → bytes;
  (** [SoliditySHA3] of two addresses *)
  sha3_addresses : bytes → bytes → bytes;
  (** [evmcompat.RecoverAddressFromTypedSig], the bytes of the address *)
  recover_typed_sig : bytes → bytes → Res bytes;
}.

Record AddressMapping := mkMapping { am_From : Address; am_To : Address }.

#[global] Instance AddressMapping_eq_dec : EqDecision AddressMapping.
Proof. solve_decision. Defined.

Record AddIdentityMappingRequest := mkAddIdentity {
  ai_From : option Address; ai_To : option Address; ai_Signature : option bytes }.

Definition ErrNotAuthorized : error := ErrMsg "[Address Mapper] not authorized".
Definition ErrInvalidRequest : error := ErrMsg "[Address Mapper] invalid request".
Definition ErrAlreadyRegistered : error :=
  ErrMsg "[Address Mapper] identity mapping already exists".

(** The records under the prefix "addr". *)
Abbreviation AMStore := (gmap bytes AddressMapping).

Section Ops.
Context {LIB : DiademLib} {EVM : EvmLib} {RANGE : RangeOrder}.

Definition addressKey (addr : Address) : bytes := prefix_key ["addr"; address_bytes addr].

Definition verifySig (from to : Address) (chainID : string) (sig : bytes) : Res unit :=
  if negb (String.eqb chainID (ChainID from)) && negb (String.eqb chainID (ChainID to)) then
    Err (ErrMsg "chain ID doesn't match either address")
  else
    let hash := sha3_addresses (eth_address (Local from)) (eth_address (Local to)) in
    signerAddr ← recover_typed_sig hash sig;
    if String.eqb chainID (ChainID from) && negb (bytes_compare signerAddr (Local from) =? 0) then
      Err (ErrMsg "signer address doesn't match")
    else if String.eqb chainID (ChainID to) && negb (bytes_compare signerAddr (Local to) =? 0) then
      Err (ErrMsg "signer address doesn't match")
    else Ok ().

(** [errors.Wrap(err, ErrNotAuthorized.Error())] *)
Definition verify (from to : Address) (chainID : string) (sig : bytes) : M AMStore unit :=
  match verifySig from to chainID sig with
  | Ok () => mret ()
  | Err _ => throw ErrNotAuthorized
  | Panic => panic
  end.

Definition AddIdentityMapping (ctx : Ctx) (req : AddIdentityMappingRequest) : M AMStore unit :=
  match ai_From req, ai_To req, ai_Signature req with
  | Some from, Some to, Some signature =>
      guard_not (String.eqb (ChainID from) "" || String.eqb (ChainID to) "") ErrInvalidRequest;;
      guard_not (address_compare from to =? 0) ErrInvalidRequest;;
      let callerAddr := ctx_sender ctx in
      (if address_compare callerAddr from =? 0 then verify from to (ChainID to) signature
       else if address_compare callerAddr to =? 0 then verify from to (ChainID from) signature
       else throw ErrInvalidRequest);;
      existing ← gets (λ s : AMStore, s !! addressKey from);
      guard_not (bool_decide (is_Some existing)) ErrAlreadyRegistered;;
      existing ← gets (λ s : AMStore, s !! addressKey to);
      guard_not (bool_decide (is_Some existing)) ErrAlreadyRegistered;;
      modify (λ s : AMStore, <[addressKey from := mkMapping from to]> s);;
      modify (λ s : AMStore, <[addressKey to := mkMapping to from]> s)
  | _, _, _ => throw ErrInvalidRequest
  end.

(** Not implemented in the code. *)
Definition RemoveMapping (s : AMStore) : Res unit := Ok ().

Definition ListMapping (s : AMStore) : list AddressMapping :=
  (λ m : bytes * AddressMapping, mkMapping (am_From m.2) (am_To m.2)) <$> range_of s.

Definition HasMapping (from : option Address) (s : AMStore) : Res bool :=
  match from with
  | None => Err ErrInvalidRequest
  | Some addr => Ok (bool_decide (is_Some (s !! addressKey addr)))
  end.

Definition GetMapping (from : option Address) (s : AMStore) : Res AddressMapping :=
  match from with
  | None => Err ErrInvalidRequest
  | Some addr =>
      match s !! addressKey addr with
      | Some mapping => Ok (mkMapping (am_From mapping) (am_To mapping))
      | None => Err (ErrMsg "[Address Mapper] failed to map address")
      end
  end.
End Ops.

Section Properties.
Context {LIB : DiademLib} {SPEC : DiademLibSpec} {EVM : EvmLib} {RANGE : RangeOrder}.
Implicit Types s : AMStore.

(** What a successful link has checked and done. *)
Lemma AddIdentityMapping_inv ctx req s s' :
  AddIdentityMapping ctx req s = (Ok (), s') →
  ∃ from to sig,
    req = mkAddIdentity (Some from) (Some to) (Some sig) ∧ from ≠ to ∧
    (ctx_sender ctx = from ∧ verifySig from to (ChainID to) sig = Ok () ∨
     ctx_sender ctx = to ∧ verifySig from to (ChainID from) sig = Ok ()) ∧
    s !! addressKey from = None ∧ s !! addressKey to = None ∧
    s' = <[addressKey to := mkMapping to from]> (<[addressKey from := mkMapping from to]> s).
Proof.
  unfold AddIdentityMapping. destruct req as [[from|] [to|] [sig|]]; cbn; try done.
  intros H. exists from, to, sig. split; [done|].
  apply bind_inv in H as ([] & s1 & [_ ->]%guard_not_inv & H).
  apply bind_inv in H as ([] & s1 & [Hne ->]%guard_not_inv & H).
  apply (cmp_eqb_false address_compare) in Hne.
  apply bind_inv in H as ([] & s1 & Hv & H).
  assert (s1 = s ∧ (ctx_sender ctx = from ∧ verifySig from to (ChainID to) sig = Ok () ∨
     ctx_sender ctx = to ∧ verifySig from to (ChainID from) sig = Ok ())) as [-> Hauth].
  { unfold verify in Hv. destruct (address_compare (ctx_sender ctx) from =? 0) eqn:E1.
    - apply (cmp_eqb address_compare) in E1.
      destruct (verifySig from to (ChainID to) sig) as [[]| |] eqn:Hs; try done.
      apply ret_inv in Hv as [_ ->]. auto.
    - destruct (address_compare (ctx_sender ctx) to =? 0) eqn:E2; [|done].
      apply (cmp_eqb address_compare) in E2.
      destruct (verifySig from to (ChainID from) sig) as [[]| |] eqn:Hs; try done.
      apply ret_inv in Hv as [_ ->]. auto. }
  apply bind_inv in H as (e1 & s2 & [-> ->]%gets_inv & H).
  apply bind_inv in H as ([] & s2 & [H1%bool_decide_eq_false ->]%guard_not_inv & H).
  apply bind_inv in H as (e2 & s2 & [-> ->]%gets_inv & H).
  apply bind_inv in H as ([] & s2 & [H2%bool_decide_eq_false ->]%guard_not_inv & H).
  injection H as <-. split_and!; [done|done|by apply eq_None_not_Some..|done].
Qed.

Lemma verifySig_ok from to chain sig :
  verifySig from to chain sig = Ok () →
  ∃ signer, recover_typed_sig (sha3_addresses (eth_address (Local from)) (eth_address (Local to))) sig
              = Ok signer ∧
    (chain = ChainID from → signer = Local from) ∧ (chain = ChainID to → signer = Local to).
Proof.
  unfold verifySig. destruct (negb _ && negb _); [done|].
  destruct (recover_typed_sig _ sig) as [signer| |]; try done. cbn. intros H. exists signer.
  split; [done|]. split; intros ->; rewrite String.eqb_refl in H; cbn in H.
  - destruct (bytes_compare signer (Local from) =? 0) eqn:E; [|done]. by apply (cmp_eqb bytes_compare) in E.
  - destruct (_ && _); [done|]. destruct (bytes_compare signer (Local to) =? 0) eqn:E; [|done].
    by apply (cmp_eqb bytes_compare) in E.
Qed.

(** ** Histories *)

(** A link that goes through, between well-formed addresses. *)
Definition am_step s s' : Prop :=
  ∃ ctx req, AddIdentityMapping ctx req s = (Ok (), s') ∧
    (∀ a, ai_From req = Some a → wf_address a) ∧ (∀ a, ai_To req = Some a → wf_address a).

(** Every record is under its own address and has its converse. *)
Definition am_wf s : Prop :=
  map_Forall (λ k m, k = addressKey (am_From m) ∧ wf_address (am_From m) ∧ wf_address (am_To m) ∧
    s !! addressKey (am_To m) = Some (mkMapping (am_To m) (am_From m))) s.

Lemma addressKey_inj a b : wf_address a → wf_address b → addressKey a = addressKey b → a = b.
Proof. apply prefix_key_inj2. Qed.

Lemma am_step_inv s s' :
  am_step s s' →
  ∃ from to, wf_address from ∧ wf_address to ∧ addressKey from ≠ addressKey to ∧
    s !! addressKey from = None ∧ s !! addressKey to = None ∧
    s' = <[addressKey to := mkMapping to from]> (<[addressKey from := mkMapping from to]> s).
Proof.
  intros (ctx & req & (from & to & sig & -> & Hne & _ & H1 & H2 & ->)%AddIdentityMapping_inv & Hf & Ht).
  exists from, to. split_and!; auto. intros Heq%addressKey_inj; auto.
Qed.

Lemma am_step_wf s s' : am_wf s → am_step s s' → am_wf s'.
Proof.
  intros Hwf (from & to & Hf & Ht & Hne & H1 & H2 & ->)%am_step_inv k m.
  rewrite lookup_insert. case_decide as Hk; [intros [= <-]|].
  { split_and!; [done|done|done|]. cbn. rewrite lookup_insert_ne, lookup_insert_eq by done. done. }
  rewrite lookup_insert. case_decide as Hk'; [intros [= <-]|].
  { split_and!; [done|done|done|]. cbn. by rewrite lookup_insert_eq. }
  intros Hm. destruct (Hwf k m Hm) as (-> & Hw1 & Hw2 & Hconv). split_and!; [done|done|done|].
  rewrite !lookup_insert_ne; [done| |]; congruence.
Qed.

Lemma am_steps_wf s s' : rtc am_step s s' → am_wf s → am_wf s'.
Proof. induction 1; eauto using am_step_wf. Qed.

Lemma am_steps_keep s s' k m : rtc am_step s s' → s !! k = Some m → s' !! k = Some m.
Proof.
  induction 1 as [|s s1 s' (from & to & _ & _ & _ & H1 & H2 & ->)%am_step_inv _ IH]; [done|].
  intros Hm. apply IH. rewrite !lookup_insert_ne; [done| |]; congruence.
Qed.

(** ** Theorems *)

(** A link needs both parties: the caller is one of the two accounts, the
    signature recovers to the other one, and the accounts are on different
    chains; neither of them was linked before. *)
Theorem link_needs_both_parties ctx req s s' :
  AddIdentityMapping ctx req s = (Ok (), s') →
  ∃ from to sig signer,
    req = mkAddIdentity (Some from) (Some to) (Some sig) ∧
    recover_typed_sig (sha3_addresses (eth_address (Local from)) (eth_address (Local to))) sig
      = Ok signer ∧
    (ctx_sender ctx = from ∧ signer = Local to ∨ ctx_sender ctx = to ∧ signer = Local from) ∧
    ChainID from ≠ ChainID to ∧
    HasMapping (Some from) s = Ok false ∧ HasMapping (Some to) s = Ok false.
Proof.
  intros (from & to & sig & -> & Hne & Hauth & H1 & H2 & ->)%AddIdentityMapping_inv.
  assert (Hdiff : ∀ signer, (ChainID to = ChainID from → signer = Local from) →
    (ChainID from = ChainID to → signer = Local to) → ChainID from ≠ ChainID to).
  { intros signer Hf Ht Heq. apply Hne. destruct from as [c l], to as [c' l']. cbn in *.
    specialize (Ht Heq). specialize (Hf (eq_sym Heq)). congruence. }
  destruct Hauth as [[Hc (signer & Hr & Hf & Ht)%verifySig_ok]|[Hc (signer & Hr & Hf & Ht)%verifySig_ok]];
    exists from, to, sig, signer; unfold HasMapping; rewrite H1, H2; split_and!; try done;
    try (left; by auto); try (right; by auto); apply (Hdiff signer); auto.
Qed.

(** C24. The links are one to one, work both ways and never change: whoever asks
    for the partner of an account finds an account whose partner it is, no two
    accounts share a partner, and later links leave all of this alone. *)
Theorem links_are_one_to_one s a m :
  rtc am_step ∅ s → wf_address a → GetMapping (Some a) s = Ok m →
  am_From m = a ∧
  GetMapping (Some (am_To m)) s = Ok (mkMapping (am_To m) a) ∧
  (∀ a' m', wf_address a' → GetMapping (Some a') s = Ok m' → am_To m' = am_To m → a' = a) ∧
  ∀ s', rtc am_step s s' → GetMapping (Some a) s' = Ok m.
Proof.
  intros Hs Ha H.
  assert (Hwf : am_wf s) by (apply (am_steps_wf ∅ s Hs), map_Forall_empty).
  assert (Hget : ∀ b mb, wf_address b → GetMapping (Some b) s = Ok mb →
    s !! addressKey b = Some mb ∧ am_From mb = b ∧
    s !! addressKey (am_To mb) = Some (mkMapping (am_To mb) b)).
  { intros b mb Hb Hg. unfold GetMapping in Hg. destruct (s !! addressKey b) as [x|] eqn:Hx; [|done].
    destruct x as [f t]. injection Hg as <-. destruct (Hwf _ _ Hx) as (Hk & Hf & Ht & Hconv). cbn in *.
    apply addressKey_inj in Hk as ->; auto. }
  destruct (Hget a m Ha H) as (Hm & Hfrom & Hconv). split_and!; [done| | |].
  - unfold GetMapping. by rewrite Hconv.
  - intros a' m' Ha' (_ & _ & Hconv')%Hget Hto; [|done]. rewrite Hto, Hconv in Hconv'. congruence.
  - intros s' Hs'. unfold GetMapping. rewrite (am_steps_keep s s' _ m) by done. by destruct m.
Qed.
End Properties.

(** ** Witnesses *)

Module MapperWitness.
Import SimpleLib.

(** A signature is the address of its signer. *)
#[local] Instance evm : EvmLib := {
  eth_address b := b; sha3_addresses a b := a +:+ b; recover_typed_sig h sig := Ok sig }.

Definition foreign : Address := mkAddress "eth" (Local (sample "e")).
Definition request : AddIdentityMappingRequest :=
  mkAddIdentity (Some (sample "a")) (Some foreign) (Some (Local foreign)).
Definition linked : AMStore := (AddIdentityMapping (sample_ctx (sample "a") 0) request ∅).2.

Lemma linked_run : AddIdentityMapping (sample_ctx (sample "a") 0) request ∅ = (Ok (), linked).
Proof. unfold linked. apply run_ok. by vm_compute. Qed.

Lemma linked_step : rtc am_step ∅ linked.
Proof.
  apply rtc_once. eexists _, _. split; [apply linked_run|]. split; intros a [= <-]; by split.
Qed.

Lemma link_witness :
  HasMapping (Some (sample "a")) ∅ = Ok false ∧ ChainID (sample "a") ≠ ChainID foreign.
Proof.
  destruct (link_needs_both_parties (sample_ctx (sample "a") 0) request ∅ linked linked_run)
    as (from & to & sig & signer & [= <- <- <-] & _ & _ & Hc & Hh & _).
  split; [exact Hh|exact Hc].
Defined.

Lemma one_to_one_witness :
  GetMapping (Some foreign) linked = Ok (mkMapping foreign (sample "a")).
Proof.
  destruct (links_are_one_to_one linked (sample "a") (mkMapping (sample "a") foreign)) as (_ & H & _).
  - apply linked_step.
  - by split.
  - by vm_compute.
  - exact H.
Defined.
End MapperWitness.
