(* ===== verification/PlasmaCash.v ===== *)
(** * Plasma cash (src/builtin/plugins/plasma_cash/plasma_cash.go)

    Coins of the main chain are held as numbered slots in accounts of this
    chain.  An oracle reports deposits, exits and withdrawals on the main chain
    in batches; owners transfer coins by signed plasma transactions, which are
    collected and submitted to the main chain in blocks.  [PStore] is the
    contract's slice of the store and [PWorld] adds the emitted events.

    Hashing, signatures, RLP and the sparse Merkle tree are in other packages:
    class [PlasmaLib].  The address mapper is called as [AddressMapper] models
    it.

    The theorems are that every coin has exactly one owner, what a transfer
    checks and does, the states of a coin, how blocks are numbered and filled,
    and that a batch is consumed once. *)

From stdpp Require Import pretty.
From S2P Require Import Prelude Contract Coin AddressMapper Store Middleware.

Record PlasmaTx := mkPlasmaTx {
  ptx_Slot : Z;
  ptx_PreviousBlock : option Z;
  ptx_Denomination : option Z;
  ptx_NewOwner : option Address;
  ptx_Sender : option Address;
  ptx_Signature : bytes;
  ptx_Proof : bytes;
  ptx_MerkleHash : bytes;
}.

Definition ptx_with_Proof (p : bytes) (t : PlasmaTx) : PlasmaTx :=
  mkPlasmaTx (ptx_Slot t) (ptx_PreviousBlock t) (ptx_Denomination t) (ptx_NewOwner t)
    (ptx_Sender t) (ptx_Signature t) p (ptx_MerkleHash t).
Definition ptx_with_MerkleHash (h : bytes) (t : PlasmaTx) : PlasmaTx :=
  mkPlasmaTx (ptx_Slot t) (ptx_PreviousBlock t) (ptx_Denomination t) (ptx_NewOwner t)
    (ptx_Sender t) (ptx_Signature t) (ptx_Proof t) h.

(** [&PlasmaTx{}] *)
Definition empty_tx : PlasmaTx := mkPlasmaTx 0 None None None None "" "" "".

Record PlasmaBlock := mkPlasmaBlock {
  pb_MerkleHash : bytes;
  pb_Transactions : list PlasmaTx;
  pb_Uid : option Z;
}.

(** [pctypes.PlasmaCashCoinState] *)
Inductive CoinState := DEPOSITED | EXITING | CHALLENGED | EXITED.

#[global] Instance CoinState_eq_dec : EqDecision CoinState.
Proof. solve_decision. Defined.

Record PCoin := mkPCoin {
  coin_Slot : Z;
  coin_State : CoinState;
  coin_Token : option Z;
  coin_Contract : option Address;
}.

Definition coin_with_State (st : CoinState) (c : PCoin) : PCoin :=
  mkPCoin (coin_Slot c) st (coin_Token c) (coin_Contract c).

Record PAccount := mkPAccount { pa_Owner : Address; pa_Slots : list Z }.

Record EventMeta := mkEventMeta { em_BlockNumber : Z; em_TxIndex : Z; em_LogIndex : Z }.
Record PTally := mkPTally { pt_BlockNumber : Z; pt_TxIndex : Z; pt_LogIndex : Z }.

Record DepositRequest := mkDeposit {
  dep_Slot : Z;
  dep_DepositBlock : option Z;
  dep_Denomination : option Z;
  dep_From : option Address;
  dep_Contract : option Address;
}.

(** Requests that name a coin and its owner ([CoinResetRequest],
    [ExitCoinRequest], [WithdrawCoinRequest]). *)
Record CoinRequest := mkCoinRequest { cq_Owner : option Address; cq_Slot : Z }.

(** The cases of [PlasmaCashRequest.Data]; any other value is skipped. *)
Inductive RequestData :=
  | Request_Deposit (r : DepositRequest)
  | Request_CoinReset (r : CoinRequest)
  | Request_StartedExit (r : CoinRequest)
  | Request_Withdraw (r : CoinRequest)
  | Request_Other.

Record PlasmaRequest := mkPlasmaRequest { pr_Meta : option EventMeta; pr_Data : RequestData }.

Inductive PlasmaEvent :=
  | MerkleRootEvent (root : bytes)
  | SubmitBlockConfirmedEvent (pending : Z) (height : Z) (merkleHash : bytes)
  | ExitConfirmedEvent (owner : option Address) (slot : Z)
  | WithdrawConfirmedEvent (coin : PCoin) (owner : option Address) (slot : Z)
  | ResetConfirmedEvent (owner : option Address) (slot : Z)
  | DepositConfirmedEvent (coin : PCoin) (owner : option Address)
  | TransferConfirmedEvent (from to : Address) (slot : Z).

Definition ErrNotAuthorized : error := ErrMsg "sender is not authorized to call this method".
Definition oracleRole : string := "pcash_role_oracle".
Definition ChangeOraclePermission : bytes := "change_oracle".
Definition SubmitEventsPermission : bytes := "submit_events".

(** The packages the contract calls. *)
Class PlasmaLib := {
  (** [DiademTx.Hash] of slot, denomination, owner, previous block and proof *)
  diadem_tx_hash : Z → Z → bytes → Z → bytes → Res bytes;
  (** [evmcompat.SoliditySHA3] of a uint64 *)
  solidity_sha3_u64 : Z → Res bytes;
  (** [rlp.EncodeToBytes] of a slot, a previous block, a denomination, an owner *)
  rlp_encode : Z → Z → Z → bytes → Res bytes;
  keccak256 : bytes → bytes;
  (** [mamamerkle]: a tree of depth 64 over leaves, its root and proofs *)
  SMT : Type;
  new_smt : gmap Z bytes → Res SMT;
  smt_root : SMT → bytes;
  smt_proof : SMT → Z → bytes;
}.

Section Ops.
Context {LIB : DiademLib} {EVM : EvmLib} {PL : PlasmaLib} {P : Type} {PERM : Permissions P}.

Record PStore := mkPStore {
  ps_height : option Z;
  ps_pending : list PlasmaTx;
  ps_accounts : gmap bytes PAccount;
  ps_coins : gmap bytes PCoin;
  ps_blocks : gmap bytes PlasmaBlock;
  ps_tally : option PTally;
  ps_perms : P;
}.

Record PWorld := mkPWorld { pw_store : PStore; pw_events : list PlasmaEvent }.

Definition on_pstore (f : PStore → PStore) : M PWorld unit :=
  modify (λ w, mkPWorld (f (pw_store w)) (pw_events w)).
Definition from_pstore {A} (f : PStore → A) : M PWorld A := gets (λ w, f (pw_store w)).
Definition emit (e : PlasmaEvent) : M PWorld unit :=
  modify (λ w, mkPWorld (pw_store w) (pw_events w ++ [e])).

Definition set_height (h : Z) (s : PStore) : PStore :=
  mkPStore (Some h) (ps_pending s) (ps_accounts s) (ps_coins s) (ps_blocks s) (ps_tally s) (ps_perms s).
Definition set_pending (l : list PlasmaTx) (s : PStore) : PStore :=
  mkPStore (ps_height s) l (ps_accounts s) (ps_coins s) (ps_blocks s) (ps_tally s) (ps_perms s).
Definition set_accounts (a : gmap bytes PAccount) (s : PStore) : PStore :=
  mkPStore (ps_height s) (ps_pending s) a (ps_coins s) (ps_blocks s) (ps_tally s) (ps_perms s).
Definition set_coins (c : gmap bytes PCoin) (s : PStore) : PStore :=
  mkPStore (ps_height s) (ps_pending s) (ps_accounts s) c (ps_blocks s) (ps_tally s) (ps_perms s).
Definition set_blocks (b : gmap bytes PlasmaBlock) (s : PStore) : PStore :=
  mkPStore (ps_height s) (ps_pending s) (ps_accounts s) (ps_coins s) b (ps_tally s) (ps_perms s).
Definition set_tally (t : PTally) (s : PStore) : PStore :=
  mkPStore (ps_height s) (ps_pending s) (ps_accounts s) (ps_coins s) (ps_blocks s) (Some t) (ps_perms s).
Definition set_pperms (p : P) (s : PStore) : PStore :=
  mkPStore (ps_height s) (ps_pending s) (ps_accounts s) (ps_coins s) (ps_blocks s) (ps_tally s) p.

Definition accountKey (addr : Address) : bytes := prefix_key ["account"; address_bytes addr].
Definition coinKey (slot : Z) : bytes := prefix_key ["coin"; be_encode 8 slot].
Definition blockKey (height : Z) : bytes := prefix_key ["pcash_block_"; pretty height].

Definition GetRequestBatchTally (s : PStore) : PTally := default (mkPTally 0 0 0) (ps_tally s).
Definition GetPendingTxs (s : PStore) : list PlasmaTx := ps_pending s.

Definition loadAccount (s : PStore) (owner : Address) : PAccount :=
  default (mkPAccount owner []) (ps_accounts s !! accountKey owner).
Definition saveAccount (acct : PAccount) : M PWorld unit :=
  on_pstore (λ s, set_accounts (<[accountKey (pa_Owner acct) := acct]> (ps_accounts s)) s).

Definition loadCoin (slot : Z) : M PWorld PCoin :=
  c ← from_pstore (λ s, ps_coins s !! coinKey slot);
  match c with
  | Some c => mret c
  | None => throw (ErrMsg "failed to load coin")
  end.
Definition saveCoin (coin : PCoin) : M PWorld unit :=
  on_pstore (λ s, set_coins (<[coinKey (coin_Slot coin) := coin]> (ps_coins s)) s).

Definition has_permission (ctx : Ctx) (token : bytes) : M PWorld bool :=
  from_pstore (λ s, perm_has (ps_perms s) (ctx_sender ctx) token [oracleRole]).

Definition registerOracle `{TXL : TxLib} (pbOracle : option Address) (currentOracle : option Address) :
    M PWorld unit :=
  match pbOracle with
  | None => throw (ErrMsg "oracle address cannot be null")
  | Some newOracleAddr =>
      guard_not (address_IsEmpty newOracleAddr) (ErrMsg "oracle address cannot be empty");;
      match currentOracle with
      | Some cur =>
          on_pstore (λ s, set_pperms (perm_revoke cur ChangeOraclePermission oracleRole (ps_perms s)) s);;
          on_pstore (λ s, set_pperms (perm_revoke cur SubmitEventsPermission oracleRole (ps_perms s)) s)
      | None => mret ()
      end;;
      on_pstore (λ s, set_pperms (perm_grant newOracleAddr ChangeOraclePermission oracleRole (ps_perms s)) s);;
      on_pstore (λ s, set_pperms (perm_grant newOracleAddr SubmitEventsPermission oracleRole (ps_perms s)) s)
  end.

Definition Init `{TXL : TxLib} (oracle : option Address) : M PWorld unit :=
  registerOracle oracle None;;
  on_pstore (set_height 0).

Definition UpdateOracle `{TXL : TxLib} (ctx : Ctx) (newOracle : option Address) : M PWorld unit :=
  hasPermission ← has_permission ctx ChangeOraclePermission;
  guard_not (negb hasPermission) ErrNotAuthorized;;
  registerOracle newOracle (Some (ctx_sender ctx)).

Definition round (num near : Z) : Z :=
  if num =? 0 then near
  else if Z.rem num near =? 0 then i64 (num + near)
  else i64 (i64 (num + (near - 1)) ÷ near * near).

(** ** Blocks *)

Definition soliditySha3 (data : Z) : Res bytes := solidity_sha3_u64 data.

Definition rlpEncode (pb : PlasmaTx) : M PWorld bytes :=
  previousBlock ← deref (ptx_PreviousBlock pb);
  denomination ← deref (ptx_Denomination pb);
  newOwner ← deref (ptx_NewOwner pb);
  lift_res (rlp_encode (ptx_Slot pb) previousBlock (u32 (i64 denomination)) (Local newOwner)).

Definition rlpEncodeWithSha3 (pb : PlasmaTx) : M PWorld bytes :=
  hash ← rlpEncode pb;
  mret (keccak256 hash).

(** The Merkle hash of a pending transaction. *)
Definition hashTx (v : PlasmaTx) : M PWorld bytes :=
  match ptx_PreviousBlock v with
  | None => lift_res (soliditySha3 (ptx_Slot v))
  | Some b => if i64 b =? 0 then lift_res (soliditySha3 (ptx_Slot v)) else rlpEncodeWithSha3 v
  end.

Definition hashPending (acc : list PlasmaTx * gmap Z bytes) (v : PlasmaTx) :
    M PWorld (list PlasmaTx * gmap Z bytes) :=
  hash ← hashTx v;
  mret (acc.1 ++ [ptx_with_MerkleHash hash v], <[ptx_Slot v := hash]> acc.2).

Definition emitSubmitBlockConfirmedEvent (numPendingTransactions height : Z) (merkleHash : bytes) :
    M PWorld unit := emit (SubmitBlockConfirmedEvent (u64 numPendingTransactions) height merkleHash).

Definition SubmitBlockToMainnet (ctx : Ctx) : M PWorld bytes :=
  hasPermission ← has_permission ctx SubmitEventsPermission;
  guard_not (negb hasPermission) ErrNotAuthorized;;
  pbk ← from_pstore ps_height;
  pending ← from_pstore ps_pending;
  if (length pending =? 0)%nat then mret ""
  else
    height ← deref pbk;
    let height := round (i64 height) 1000 in
    on_pstore (set_height height);;
    r ← foldM hashPending ([], ∅) pending;
    let '(txs, leaves) := (r : list PlasmaTx * gmap Z bytes) in
    smt ← lift_res (new_smt leaves);
    let txs := (λ v, ptx_with_Proof (smt_proof smt (ptx_Slot v)) v) <$> txs in
    let merkleHash := smt_root smt in
    on_pstore (λ s, set_blocks (<[blockKey height := mkPlasmaBlock merkleHash txs (Some height)]>
      (ps_blocks s)) s);;
    emit (MerkleRootEvent merkleHash);;
    on_pstore (set_pending []);;
    emitSubmitBlockConfirmedEvent (Z.of_nat (length pending)) height merkleHash;;
    mret merkleHash.

(** ** Transfers *)

(** [slots[i] = slots[len(slots)-1]; slots[:len(slots)-1]] *)
Definition swap_remove (i : nat) (slots : list Z) : list Z :=
  take (length slots - 1) (<[i := default 0 (last slots)]> slots).

(** The index of the first slot that is the coin's. *)
Fixpoint slot_index (slot : Z) (slots : list Z) : option nat :=
  match slots with
  | [] => None
  | x :: slots => if x =? slot then Some O else S <$> slot_index slot slots
  end.

Definition transferCoin (coin : PCoin) (sender receiver : Address) : M PWorld unit :=
  guard_not (negb (bool_decide (coin_State coin = DEPOSITED))) (ErrMsg "can't transfer coin in state");;
  fromAcct ← from_pstore (λ s, loadAccount s sender);
  match slot_index (coin_Slot coin) (pa_Slots fromAcct) with
  | None => throw (ErrMsg "can't transfer coin: sender doesn't own it")
  | Some coinIdx =>
      toAcct ← from_pstore (λ s, loadAccount s receiver);
      let fromSlots := pa_Slots fromAcct in
      let toAcct := mkPAccount (pa_Owner toAcct)
                      (pa_Slots toAcct ++ [default 0 (fromSlots !! coinIdx)]) in
      let fromAcct := mkPAccount (pa_Owner fromAcct) (swap_remove coinIdx fromSlots) in
      saveAccount fromAcct;;
      saveAccount toAcct;;
      emit (TransferConfirmedEvent (pa_Owner fromAcct) (pa_Owner toAcct) (coin_Slot coin))
  end.

(** [mapper] is the store of the address mapper contract. *)
Definition verifyPlasmaRequest (ctx : Ctx) (mapper : AMStore) (plasmatx : option PlasmaTx) :
    Res unit :=
  match plasmatx with
  | Some tx =>
      match ptx_Sender tx, ptx_Denomination tx, ptx_PreviousBlock tx, ptx_NewOwner tx with
      | Some claimedSender, Some denomination, Some previousBlock, Some newOwner =>
          hash ← diadem_tx_hash (ptx_Slot tx) denomination (eth_address (Local newOwner))
                   previousBlock (ptx_Proof tx);
          signer ← recover_typed_sig hash (ptx_Signature tx);
          match ctx_registry ctx !! "addressmapper" with
          | None => Err (ErrMsg "error while resolving address mapper contract address")
          | Some _ =>
              mapping ← GetMapping (Some (ctx_sender ctx)) mapper;
              if negb (bytes_compare signer (Local claimedSender) =? 0) ||
                 negb (bytes_compare (Local claimedSender) (Local (am_To mapping)) =? 0)
              then Err (ErrMsg "plasmatx signature doesn't match sender")
              else Ok ()
          end
      | _, _, _, _ => Err (ErrMsg "one or more required fields are nil")
      end
  | None => Err (ErrMsg "one or more required fields are nil")
  end.

Definition PlasmaTxRequest (ctx : Ctx) (mapper : AMStore) (plasmatx : option PlasmaTx) :
    M PWorld unit :=
  match verifyPlasmaRequest ctx mapper plasmatx with
  | Panic => panic
  | Err _ => throw ErrNotAuthorized
  | Ok () =>
      tx ← deref plasmatx;
      sender ← UnmarshalAddressPB (ptx_Sender tx);
      pending ← from_pstore ps_pending;
      guard_not (existsb (λ v, ptx_Slot v =? ptx_Slot tx) pending)
        (ErrMsg "Error appending plasma transaction with existing slot");;
      receiver ← UnmarshalAddressPB (ptx_NewOwner tx);
      coin ← loadCoin (ptx_Slot tx);
      transferCoin coin sender receiver;;
      on_pstore (set_pending (pending ++ [tx]))
  end.

(** ** Requests of the oracle *)

Definition emitDepositConfirmedEvent (coin : PCoin) (owner : option Address) : M PWorld unit :=
  emit (DepositConfirmedEvent coin owner).
Definition emitResetConfirmedEvent (owner : option Address) (slot : Z) : M PWorld unit :=
  emit (ResetConfirmedEvent owner slot).
Definition emitExitConfirmedEvent (owner : option Address) (slot : Z) : M PWorld unit :=
  emit (ExitConfirmedEvent owner slot).
Definition emitWithdrawConfirmedEvent (coin : PCoin) (owner : option Address) (slot : Z) :
    M PWorld unit := emit (WithdrawConfirmedEvent coin owner slot).

Definition depositRequest (req : DepositRequest) : M PWorld unit :=
  pbk ← from_pstore ps_height;
  let tx := mkPlasmaTx (dep_Slot req) None (dep_Denomination req) (dep_From req) None ""
              (String.concat "" (replicate 8 (String (Ascii.ascii_of_nat 0) ""))) "" in
  depositBlock ← deref (dep_DepositBlock req);
  on_pstore (λ s, set_blocks (<[blockKey depositBlock :=
    mkPlasmaBlock "" [tx] (dep_DepositBlock req)]> (ps_blocks s)) s);;
  ownerAddr ← UnmarshalAddressPB (dep_From req);
  account ← from_pstore (λ s, loadAccount s ownerAddr);
  let coin := mkPCoin (dep_Slot req) DEPOSITED (dep_Denomination req) (dep_Contract req) in
  saveCoin coin;;
  saveAccount (mkPAccount (pa_Owner account) (pa_Slots account ++ [dep_Slot req]));;
  emitDepositConfirmedEvent coin (dep_From req);;
  currentHeight ← deref pbk;
  if currentHeight <? depositBlock then on_pstore (set_height depositBlock) else mret ().

Definition coinReset (req : CoinRequest) : M PWorld unit :=
  coin ← loadCoin (cq_Slot req);
  guard_not (negb (bool_decide (coin_State coin = EXITING)))
    (ErrMsg "[PlasmaCash] can't reset coin in state");;
  saveCoin (coin_with_State DEPOSITED coin);;
  emitResetConfirmedEvent (cq_Owner req) (cq_Slot req).

Definition exitCoin (req : CoinRequest) : M PWorld unit :=
  coin ← loadCoin (cq_Slot req);
  guard_not (negb (bool_decide (coin_State coin = DEPOSITED)))
    (ErrMsg "[PlasmaCash] can't exit coin in state");;
  saveCoin (coin_with_State EXITING coin);;
  emitExitConfirmedEvent (cq_Owner req) (cq_Slot req).

Definition withdrawCoin (req : CoinRequest) : M PWorld unit :=
  coin ← loadCoin (cq_Slot req);
  ownerAddr ← UnmarshalAddressPB (cq_Owner req);
  account ← from_pstore (λ s, loadAccount s ownerAddr);
  match slot_index (coin_Slot coin) (pa_Slots account) with
  | Some i =>
      saveAccount (mkPAccount (pa_Owner account) (swap_remove i (pa_Slots account)));;
      on_pstore (λ s, set_coins (delete (coinKey (coin_Slot coin)) (ps_coins s)) s);;
      emitWithdrawConfirmedEvent coin (cq_Owner req) (cq_Slot req)
  | None => throw (ErrMsg "[PlasmaCash] failed to withdraw coin")
  end.

Definition isRequestAlreadySeen (meta : EventMeta) (currentTally : PTally) : bool :=
  if negb (em_BlockNumber meta =? pt_BlockNumber currentTally)
  then em_BlockNumber meta <=? pt_BlockNumber currentTally
  else if negb (em_TxIndex meta =? pt_TxIndex currentTally)
  then em_TxIndex meta <=? pt_TxIndex currentTally
  else if negb (em_LogIndex meta =? pt_LogIndex currentTally)
  then em_LogIndex meta <=? pt_LogIndex currentTally
  else true.

Definition runRequest (data : RequestData) : M PWorld unit :=
  match data with
  | Request_Deposit r => depositRequest r
  | Request_CoinReset r => coinReset r
  | Request_StartedExit r => exitCoin r
  | Request_Withdraw r => withdrawCoin r
  | Request_Other => mret ()
  end.

(** One round of the loop of [ProcessRequestBatch]; an error leaves the loop. *)
Definition processRequest (tally : PTally) (request : PlasmaRequest) : M PWorld PTally :=
  match pr_Data request with
  | Request_Other => mret tally
  | data =>
      meta ← deref (pr_Meta request);
      if isRequestAlreadySeen meta tally then mret tally
      else
        runRequest data;;
        mret (mkPTally (em_BlockNumber meta) (em_TxIndex meta) (em_LogIndex meta))
  end.

Definition ProcessRequestBatch (ctx : Ctx) (requests : list PlasmaRequest) : M PWorld unit :=
  hasPermission ← has_permission ctx SubmitEventsPermission;
  guard_not (negb hasPermission) ErrNotAuthorized;;
  match last requests with
  | None => mret ()
  | Some lastRequest =>
      requestBatchTally ← from_pstore GetRequestBatchTally;
      meta ← deref (pr_Meta lastRequest);
      if isRequestAlreadySeen meta requestBatchTally then mret ()
      else
        r ← try_ (foldM processRequest requestBatchTally requests);
        match r with
        | inr _ => throw (ErrMsg "unable to consume one or more requests")
        | inl requestBatchTally => on_pstore (set_tally requestBatchTally)
        end
  end.

(** ** Queries *)

Definition BalanceOf (owner : option Address) (s : PStore) : Res (list (option PCoin)) :=
  match owner with
  | None => Panic
  | Some ownerAddr =>
      Ok ((λ slot, ps_coins s !! coinKey slot) <$> pa_Slots (loadAccount s ownerAddr))
  end.

Definition GetCurrentBlockRequest (s : PStore) : option Z := ps_height s.

Definition GetBlockRequest (height : option Z) (s : PStore) : Res PlasmaBlock :=
  match height with
  | None => Panic
  | Some h => match ps_blocks s !! blockKey h with Some b => Ok b | None => Err ErrNotFound end
  end.

Definition GetUserSlotsRequest (from : option Address) (s : PStore) : Res (list Z) :=
  match from with
  | None => Err (ErrMsg "invalid account parameter")
  | Some a => Ok (pa_Slots (loadAccount s a))
  end.

Definition GetPlasmaTxRequest (height : option Z) (slot : Z) (s : PStore) : Res PlasmaTx :=
  match height with
  | None => Err (ErrMsg "invalid BlockHeight")
  | Some h =>
      match ps_blocks s !! blockKey h with
      | None => Err ErrNotFound
      | Some pb =>
          let leaves := foldl (λ m v, <[ptx_Slot v := ptx_MerkleHash v]> m) (∅ : gmap Z bytes)
                          (pb_Transactions pb) in
          let tx := foldl (λ tx v, if ptx_Slot v =? slot then v else tx) empty_tx
                      (pb_Transactions pb) in
          smt ← new_smt leaves;
          Ok (ptx_with_Proof (smt_proof smt slot) tx)
      end
  end.
End Ops.
Arguments PStore : clear implicits.
Arguments PWorld : clear implicits.

(** ** Lists of slots *)

Lemma slot_index_Some x l i : slot_index x l = Some i → l !! i = Some x.
Proof.
  revert i. induction l as [|y l IH]; intros i; [done|]. cbn. destruct (Z.eqb_spec y x) as [->|].
  - by intros [= <-].
  - intros (j & Hj & ->)%fmap_Some. by apply IH.
Qed.

Lemma slot_index_None x l : slot_index x l = None → x ∉ l.
Proof.
  induction l as [|y l IH]; [set_solver|]. cbn. destruct (Z.eqb_spec y x); [done|].
  intros ?%fmap_None. set_solver.
Qed.

Lemma slot_index_is_Some x l : x ∈ l → is_Some (slot_index x l).
Proof. intros H. destruct (slot_index x l) eqn:E; [done|]. by apply slot_index_None in E. Qed.

Lemma swap_remove_perm l i x : l !! i = Some x → x :: swap_remove i l ≡ₚ l.
Proof.
  intros Hi. destruct l as [|y l _] using rev_ind; [done|].
  unfold swap_remove. rewrite last_snoc, length_app. cbn [length default].
  replace (length l + 1 - 1)%nat with (length l) by lia.
  destruct (decide (i = length l)) as [->|Hne].
  - rewrite lookup_app_r, Nat.sub_diag in Hi by lia. injection Hi as <-.
    rewrite insert_app_r_alt by lia. rewrite take_app_le by lia. rewrite take_ge by lia.
    by rewrite <- Permutation_cons_append.
  - apply lookup_lt_Some in Hi as Hlt. rewrite length_app in Hlt. cbn in Hlt.
    rewrite lookup_app_l in Hi by lia. rewrite insert_app_l by lia.
    rewrite take_app_le by (rewrite length_insert; lia). rewrite take_ge by (rewrite length_insert; lia).
    rewrite <- Permutation_cons_append. unfold id.
    rewrite (insert_take_drop l i y) by lia. rewrite <- (take_drop_middle l i x Hi) at 3.
    rewrite <- !Permutation_middle. constructor 3.
Qed.

Section Invariant.
Context {LIB : DiademLib} {SPEC : DiademLibSpec} {EVM : EvmLib} {PL : PlasmaLib} {TXL : TxLib}.
Context {P : Type} {PERM : Permissions P}.
Abbreviation Store := (PStore P).
Abbreviation W := (PWorld P).
Implicit Types (s : Store) (w : W).

Definition slot_ok (x : Z) : Prop := 0 <= x < 2 ^ 64.

Lemma coinKey_inj x y : slot_ok x → slot_ok y → coinKey x = coinKey y → x = y.
Proof.
  intros Hx Hy H%prefix_key_inj1. rewrite <- (be_roundtrip x), <- (be_roundtrip y) by done. by rewrite H.
Qed.

(** The slots of the account under a key. *)
Definition slots_at s (k : bytes) : list Z := from_option pa_Slots [] (ps_accounts s !! k).

Record pc_inv s : Prop := {
  pi_keyed : map_Forall (λ k a, k = accountKey (pa_Owner a)) (ps_accounts s);
  pi_coins : map_Forall (λ k c, k = coinKey (coin_Slot c) ∧ slot_ok (coin_Slot c) ∧
                                (coin_State c = DEPOSITED ∨ coin_State c = EXITING)) (ps_coins s);
  pi_nodup k : NoDup (slots_at s k);
  pi_unique k k' x : x ∈ slots_at s k → x ∈ slots_at s k' → k = k';
  pi_backed k x : x ∈ slots_at s k → ∃ c, ps_coins s !! coinKey x = Some c ∧ coin_Slot c = x;
  pi_owned k c : ps_coins s !! k = Some c → ∃ k', coin_Slot c ∈ slots_at s k';
}.

Lemma loadAccount_slots s a : pa_Slots (loadAccount s a) = slots_at s (accountKey a).
Proof. unfold loadAccount, slots_at. by destruct (ps_accounts s !! accountKey a). Qed.

Lemma loadAccount_key s a :
  map_Forall (λ k a, k = accountKey (pa_Owner a)) (ps_accounts s) →
  accountKey (pa_Owner (loadAccount s a)) = accountKey a.
Proof.
  intros Hk. unfold loadAccount. destruct (ps_accounts s !! accountKey a) eqn:E; [|done].
  symmetry. by apply (Hk _ _ E).
Qed.

(** Writing an account. *)
Definition write_account (k : bytes) (a : PAccount) s : Store :=
  set_accounts (<[k := a]> (ps_accounts s)) s.

Lemma slots_at_write k a s k' :
  slots_at (write_account k a s) k' = if decide (k = k') then pa_Slots a else slots_at s k'.
Proof. unfold slots_at, write_account. cbn. rewrite lookup_insert. by case_decide. Qed.

Lemma keyed_write a s :
  map_Forall (λ k a, k = accountKey (pa_Owner a)) (ps_accounts s) →
  map_Forall (λ k a, k = accountKey (pa_Owner a))
    (ps_accounts (write_account (accountKey (pa_Owner a)) a s)).
Proof. intros H. by apply map_Forall_insert_2. Qed.

(** Moving a slot from one account to another. *)
Lemma pc_inv_move s kf kt i x af at_ :
  pc_inv s → kf ≠ kt → slots_at s kf !! i = Some x →
  accountKey (pa_Owner af) = kf → pa_Slots af = swap_remove i (slots_at s kf) →
  accountKey (pa_Owner at_) = kt → pa_Slots at_ = slots_at s kt ++ [x] →
  pc_inv (write_account kt at_ (write_account kf af s)).
Proof.
  intros [Hk Hc Hnd Hu Hb Ho] Hne Hi Hkf Hsf Hkt Hst.
  pose proof (swap_remove_perm _ _ _ Hi) as Hperm. rewrite <- Hsf in Hperm.
  assert (Hxf : x ∈ slots_at s kf) by (by apply list_elem_of_lookup_2 in Hi).
  assert (Hx : x ∉ slots_at s kt) by (intros Hx; apply Hne; by eapply Hu).
  pose proof (Hnd kf) as Hndf. rewrite <- Hperm in Hndf. apply NoDup_cons in Hndf as [Hxaf Hndf].
  set (s' := write_account kt at_ (write_account kf af s)).
  assert (Hat : ∀ k y, y ∈ slots_at s' k ↔
    (if decide (y = x) then k = kt else y ∈ slots_at s k)).
  { intros k y. unfold s'. rewrite slots_at_write. destruct (decide (kt = k)) as [<-|Hk1].
    - rewrite Hst, elem_of_app, list_elem_of_singleton. case_decide; set_solver.
    - rewrite slots_at_write. destruct (decide (kf = k)) as [<-|Hk2].
      + case_decide as Hy; [subst y; naive_solver|]. rewrite <- Hperm, elem_of_cons. naive_solver.
      + case_decide as Hy; [subst y|done]. split; [|naive_solver].
        intros Hy. destruct Hk2. by eapply Hu. }
  split.
  - unfold s'. rewrite <- Hkt. apply keyed_write. rewrite <- Hkf. by apply keyed_write.
  - done.
  - intros k. unfold s'. rewrite !slots_at_write. destruct (decide (kt = k)) as [<-|]; [|by case_decide].
    rewrite Hst. apply NoDup_app. split_and!; [done|set_solver|by apply NoDup_singleton].
  - intros k k' y. rewrite !Hat. case_decide; [congruence|]. apply Hu.
  - intros k y. rewrite Hat. case_decide as Hy; [subst y; intros ->; by apply (Hb kf)|by apply (Hb k)].
  - intros k c (k' & Hk')%Ho. destruct (decide (coin_Slot c = x)) as [Heq|Hy].
    + exists kt. apply Hat. by rewrite decide_True.
    + exists k'. apply Hat. by rewrite decide_False.
Qed.

(** A new coin in an account. *)
Lemma pc_inv_deposit s c a k :
  pc_inv s → slot_ok (coin_Slot c) → coin_State c = DEPOSITED →
  ps_coins s !! coinKey (coin_Slot c) = None →
  accountKey (pa_Owner a) = k → pa_Slots a = slots_at s k ++ [coin_Slot c] →
  pc_inv (write_account k a (set_coins (<[coinKey (coin_Slot c) := c]> (ps_coins s)) s)).
Proof.
  intros [Hk Hc Hnd Hu Hb Ho] Hx Hst Hnone Hka Hsl. set (x := coin_Slot c) in *.
  set (s' := write_account _ _ _).
  assert (Hfree : ∀ k', x ∉ slots_at s k').
  { intros k' (c' & Hc' & _)%Hb. congruence. }
  assert (Hat : ∀ k' y, y ∈ slots_at s' k' ↔ y ∈ slots_at s k' ∨ (k = k' ∧ y = x)).
  { intros k' y. unfold s'. rewrite slots_at_write. case_decide as Hd; [|naive_solver].
    rewrite Hsl, elem_of_app, list_elem_of_singleton, Hd. naive_solver. }
  split.
  - unfold s'. rewrite <- Hka. by apply keyed_write.
  - cbn. apply map_Forall_insert_2; auto.
  - intros k'. unfold s'. rewrite slots_at_write. case_decide as Hd; [|apply Hnd].
    rewrite Hsl. apply NoDup_app. split_and!; [apply Hnd|set_solver|by apply NoDup_singleton].
  - intros k1 k2 y [H1|[<- ->]]%Hat [H2|[<- ?]]%Hat; subst; try done; try (by destruct (Hfree _ H1));
      try (by destruct (Hfree _ H2)). by eapply Hu.
  - intros k' y [(c' & Hc' & Hy)%Hb|[<- ->]]%Hat; cbn.
    + exists c'. split; [|done]. rewrite lookup_insert_ne; [done|]. intros Heq. rewrite Heq in Hnone. congruence.
    + exists c. by rewrite lookup_insert_eq.
  - intros k' c'. cbn. rewrite lookup_insert. case_decide as Hd.
    + intros [= <-]. exists k. apply Hat. by right.
    + intros (k2 & Hk2)%Ho. exists k2. apply Hat. by left.
Qed.

(** A coin leaves. *)
Lemma pc_inv_withdraw s a k i x :
  pc_inv s → slots_at s k !! i = Some x →
  accountKey (pa_Owner a) = k → pa_Slots a = swap_remove i (slots_at s k) →
  pc_inv (set_coins (delete (coinKey x) (ps_coins s)) (write_account k a s)).
Proof.
  intros [Hk Hc Hnd Hu Hb Ho] Hi Hka Hsl.
  pose proof (swap_remove_perm _ _ _ Hi) as Hperm. rewrite <- Hsl in Hperm.
  assert (Hxk : x ∈ slots_at s k) by (by apply list_elem_of_lookup_2 in Hi).
  pose proof (Hnd k) as Hndk. rewrite <- Hperm in Hndk. apply NoDup_cons in Hndk as [Hxa Hnda].
  set (s' := set_coins _ _).
  assert (Hat : ∀ k' y, y ∈ slots_at s' k' ↔ y ∈ slots_at s k' ∧ y ≠ x).
  { intros k' y. change (slots_at s' k') with (slots_at (write_account k a s) k').
    rewrite slots_at_write. case_decide as Hd.
    - rewrite <- Hd, <- Hperm, elem_of_cons. split; [|naive_solver]. intros Hy. split; [by right|].
      intros ->. done.
    - split; [|naive_solver]. intros Hy. split; [done|]. intros ->. apply Hd. by eapply Hu. }
  assert (Hok : ∀ k' y, y ∈ slots_at s k' → slot_ok y).
  { intros k' y (c & Hcy & <-)%Hb. by apply (Hc _ _ Hcy). }
  split.
  - cbn. rewrite <- Hka. by apply keyed_write.
  - cbn. by apply map_Forall_delete.
  - intros k'. change (slots_at s' k') with (slots_at (write_account k a s) k').
    rewrite slots_at_write. by case_decide.
  - intros k1 k2 y [H1 _]%Hat [H2 _]%Hat. by eapply Hu.
  - intros k' y [Hy Hne]%Hat. destruct (Hb k' y Hy) as (c & Hcy & Heq). exists c. cbn.
    rewrite lookup_delete_ne; [done|]. intros Hkey%coinKey_inj; eauto.
  - intros k' c. cbn. intros [Hne Hkc]%lookup_delete_Some. destruct (Ho k' c Hkc) as (k2 & Hk2).
    exists k2. apply Hat. split; [done|]. intros Heq. destruct (Hc _ _ Hkc) as (-> & _). by rewrite Heq in Hne.
Qed.

(** The state of a coin changes. *)
Lemma pc_inv_state s c st :
  pc_inv s → ps_coins s !! coinKey (coin_Slot c) = Some c → st = DEPOSITED ∨ st = EXITING →
  pc_inv (set_coins (<[coinKey (coin_Slot c) := coin_with_State st c]> (ps_coins s)) s).
Proof.
  intros [Hk Hc Hnd Hu Hb Ho] Hcoin Hst. destruct (Hc _ _ Hcoin) as (_ & Hok & _).
  split; cbn; try done.
  - apply map_Forall_insert_2; [|done]. done.
  - intros k x (c' & Hc' & Hx)%Hb. rewrite lookup_insert. case_decide as Hd; [|eauto].
    exists (coin_with_State st c). split; [done|]. cbn. rewrite <- Hd in Hc'. congruence.
  - intros k c'. rewrite lookup_insert. case_decide as Hd; [|apply Ho].
    intros [= <-]. cbn. by apply (Ho _ _ Hcoin).
Qed.

(** The invariant does not speak of heights, pending transactions, blocks,
    tallies and permissions. *)
Lemma pc_inv_ext s s' :
  ps_accounts s' = ps_accounts s → ps_coins s' = ps_coins s → pc_inv s → pc_inv s'.
Proof.
  intros Ha Hc [H1 H2 H3 H4 H5 H6].
  assert (Hs : ∀ k, slots_at s' k = slots_at s k) by (intros k; unfold slots_at; by rewrite Ha).
  split; rewrite ?Ha, ?Hc; try done; setoid_rewrite Hs; done.
Qed.

(** ** What each operation has done when it succeeds *)

Lemma loadCoin_inv slot w c w' :
  loadCoin slot w = (Ok c, w') → w' = w ∧ ps_coins (pw_store w) !! coinKey slot = Some c.
Proof.
  unfold loadCoin, from_pstore. m_eval. destruct (ps_coins (pw_store w) !! coinKey slot); [|done].
  intros [= <- <-]. done.
Qed.

Lemma transferCoin_inv coin a b w w' :
  pc_inv (pw_store w) → transferCoin coin a b w = (Ok (), w') →
  let s := pw_store w in
  coin_State coin = DEPOSITED ∧
  ∃ i af at_, slots_at s (accountKey a) !! i = Some (coin_Slot coin) ∧
    accountKey (pa_Owner af) = accountKey a ∧
    pa_Slots af = swap_remove i (slots_at s (accountKey a)) ∧
    accountKey (pa_Owner at_) = accountKey b ∧
    pa_Slots at_ = slots_at s (accountKey b) ++ [coin_Slot coin] ∧
    pw_store w' = write_account (accountKey b) at_ (write_account (accountKey a) af s).
Proof.
  intros Hinv H s. unfold transferCoin in H.
  apply bind_inv in H as ([] & w1 & [Hst ->]%guard_not_inv & H).
  apply negb_false_iff, bool_decide_eq_true in Hst. split; [done|].
  apply bind_inv in H as (af & w1 & [-> ->]%gets_inv & H). fold s in H. rewrite loadAccount_slots in H.
  destruct (slot_index (coin_Slot coin) (slots_at s (accountKey a))) as [i|] eqn:Hi; [|done].
  apply slot_index_Some in Hi. apply bind_inv in H as (at_ & w1 & [-> ->]%gets_inv & H).
  fold s in H. rewrite Hi in H. cbv zeta in H. cbn [default] in H. unfold id in H.
  rewrite loadAccount_slots in H.
  exists i, (mkPAccount (pa_Owner (loadAccount s a)) (swap_remove i (slots_at s (accountKey a)))),
    (mkPAccount (pa_Owner (loadAccount s b)) (slots_at s (accountKey b) ++ [coin_Slot coin])).
  pose proof (loadAccount_key s a (pi_keyed _ Hinv)) as Ha.
  pose proof (loadAccount_key s b (pi_keyed _ Hinv)) as Hb.
  split_and!; [done|done|done|done|done|].
  unfold saveAccount, on_pstore, emit in H. m_eval_in H. injection H as <-. cbn [pa_Owner].
  rewrite Ha, Hb. reflexivity.
Qed.

Lemma depositRequest_inv r w w' :
  pc_inv (pw_store w) → depositRequest r w = (Ok (), w') →
  let s := pw_store w in
  ∃ b from a c, dep_DepositBlock r = Some b ∧ dep_From r = Some from ∧
    c = mkPCoin (dep_Slot r) DEPOSITED (dep_Denomination r) (dep_Contract r) ∧
    accountKey (pa_Owner a) = accountKey from ∧
    pa_Slots a = slots_at s (accountKey from) ++ [dep_Slot r] ∧
    ps_accounts (pw_store w') = <[accountKey from := a]> (ps_accounts s) ∧
    ps_coins (pw_store w') = <[coinKey (dep_Slot r) := c]> (ps_coins s).
Proof.
  intros Hinv H s. unfold depositRequest in H.
  apply bind_inv in H as (h & w1 & [-> ->]%gets_inv & H). cbv zeta in H.
  apply bind_inv in H as (b & w1 & [Hb ->]%deref_inv & H).
  apply bind_inv in H as ([] & w1 & [= <-] & H).
  apply bind_inv in H as (from & w1 & [Hfrom ->]%deref_inv & H).
  apply bind_inv in H as (a & w1 & [-> ->]%gets_inv & H). cbn [pw_store] in H.
  match type of H with context [loadAccount ?st from] =>
    assert (Hl : loadAccount st from = loadAccount s from) by reflexivity; rewrite Hl in H end.
  unfold saveCoin, saveAccount, emitDepositConfirmedEvent, emit, on_pstore in H. m_eval_in H.
  exists b, from, (mkPAccount (pa_Owner (loadAccount s from))
    (pa_Slots (loadAccount s from) ++ [dep_Slot r])).
  pose proof (loadAccount_key s from (pi_keyed _ Hinv)) as Hk.
  eexists. cbn [pa_Owner pa_Slots]. rewrite loadAccount_slots in *.
  destruct (ps_height (pw_store w)) as [h0|]; [|done]. cbv beta iota in H.
  destruct (h0 <? b); injection H as <-; split_and!; try done; try reflexivity; cbn; by rewrite Hk.
Qed.

Lemma withdrawCoin_inv r w w' :
  pc_inv (pw_store w) → withdrawCoin r w = (Ok (), w') →
  let s := pw_store w in
  ∃ c owner i a, ps_coins s !! coinKey (cq_Slot r) = Some c ∧ cq_Owner r = Some owner ∧
    slots_at s (accountKey owner) !! i = Some (coin_Slot c) ∧
    accountKey (pa_Owner a) = accountKey owner ∧
    pa_Slots a = swap_remove i (slots_at s (accountKey owner)) ∧
    pw_store w' = set_coins (delete (coinKey (coin_Slot c)) (ps_coins s))
                    (write_account (accountKey owner) a s).
Proof.
  intros Hinv H s. unfold withdrawCoin in H.
  apply bind_inv in H as (c & w1 & [-> Hc]%loadCoin_inv & H).
  apply bind_inv in H as (owner & w1 & [Ho ->]%deref_inv & H).
  apply bind_inv in H as (a & w1 & [-> ->]%gets_inv & H). fold s in H.
  rewrite loadAccount_slots in H.
  destruct (slot_index (coin_Slot c) (slots_at s (accountKey owner))) as [i|] eqn:Hi; [|done].
  apply slot_index_Some in Hi. exists c, owner, i.
  exists (mkPAccount (pa_Owner (loadAccount s owner)) (swap_remove i (slots_at s (accountKey owner)))).
  pose proof (loadAccount_key s owner (pi_keyed _ Hinv)) as Hk.
  split_and!; [done|done|done|done|done|].
  unfold saveAccount, emitWithdrawConfirmedEvent, emit, on_pstore in H. m_eval_in H.
  injection H as <-. cbn [pw_store]. cbn [pa_Owner]. rewrite Hk. reflexivity.
Qed.

(** [coinReset] and [exitCoin] differ in the states. *)
Lemma change_state_inv (from to : CoinState) slot e (ev : M W unit) w w' :
  (∀ w0, ∃ w1, ev w0 = (Ok (), w1) ∧ pw_store w1 = pw_store w0) →
  (coin ← loadCoin slot;
   guard_not (negb (bool_decide (coin_State coin = from))) e;;
   saveCoin (coin_with_State to coin);; ev) w = (Ok (), w') →
  ∃ c, ps_coins (pw_store w) !! coinKey slot = Some c ∧ coin_State c = from ∧
    pw_store w' = set_coins (<[coinKey (coin_Slot c) := coin_with_State to c]>
                    (ps_coins (pw_store w))) (pw_store w).
Proof.
  intros Hev (c & w1 & [-> Hc]%loadCoin_inv & H)%bind_inv.
  apply bind_inv in H as ([] & w1 & [Hst ->]%guard_not_inv & H).
  apply negb_false_iff, bool_decide_eq_true in Hst. exists c. split_and!; [done|done|].
  apply bind_inv in H as ([] & w1 & [= <-] & H).
  match type of H with ev ?w0 = _ => destruct (Hev w0) as (w1 & Hw1 & Hs) end.
  rewrite Hw1 in H. injection H as <-. by rewrite Hs.
Qed.

(** ** Histories *)

Definition deposit_slot (data : RequestData) : option Z :=
  match data with Request_Deposit r => Some (dep_Slot r) | _ => None end.

(** The main chain numbers its coins: a deposit is always of a new slot. *)
Definition deposits_fresh s (slots : list Z) : Prop :=
  NoDup slots ∧ Forall (λ x, slot_ok x ∧ ps_coins s !! coinKey x = None) slots.

Lemma runRequest_inv data w w' :
  pc_inv (pw_store w) →
  (∀ x, deposit_slot data = Some x → slot_ok x ∧ ps_coins (pw_store w) !! coinKey x = None) →
  runRequest data w = (Ok (), w') →
  pc_inv (pw_store w') ∧
  ∀ x, slot_ok x → deposit_slot data ≠ Some x → ps_coins (pw_store w) !! coinKey x = None →
    ps_coins (pw_store w') !! coinKey x = None.
Proof.
  intros Hinv Hfresh H. destruct data as [r|r|r|r|]; cbn [runRequest deposit_slot] in *.
  - destruct (depositRequest_inv r w w' Hinv H) as (b & from & a & c & _ & _ & -> & Hka & Hsl & Ha & Hc).
    destruct (Hfresh _ eq_refl) as [Hok Hnone]. split.
    + eapply (pc_inv_ext (write_account (accountKey from) a (set_coins _ (pw_store w))));
        [exact Ha|exact Hc|]. by apply pc_inv_deposit.
    + intros x Hx Hne Hx0. rewrite Hc. rewrite lookup_insert_ne; [done|]. intros Heq%coinKey_inj; [|done|done].
      congruence.
  - apply (change_state_inv EXITING DEPOSITED) in H as (c & Hc & _ & ->); [|intros; by eexists].
    destruct (pi_coins _ Hinv _ _ Hc) as [Hk _]. rewrite Hk in Hc. split; [apply pc_inv_state; auto|].
    intros x _ _ Hx. cbn. rewrite lookup_insert_ne; [done|]. congruence.
  - apply (change_state_inv DEPOSITED EXITING) in H as (c & Hc & _ & ->); [|intros; by eexists].
    destruct (pi_coins _ Hinv _ _ Hc) as [Hk _]. rewrite Hk in Hc. split; [apply pc_inv_state; auto|].
    intros x _ _ Hx. cbn. rewrite lookup_insert_ne; [done|]. congruence.
  - destruct (withdrawCoin_inv r w w' Hinv H) as (c & owner & i & a & Hc & _ & Hi & Hka & Hsl & ->).
    split; [by eapply pc_inv_withdraw|].
    intros x _ _ Hx. cbn. rewrite lookup_delete. by case_decide.
  - by injection H as <-.
Qed.

Lemma processRequests_inv reqs tally w t w' :
  pc_inv (pw_store w) →
  deposits_fresh (pw_store w) (omap (λ r, deposit_slot (pr_Data r)) reqs) →
  foldM processRequest tally reqs w = (Ok t, w') → pc_inv (pw_store w').
Proof.
  revert tally w. induction reqs as [|r reqs IH]; intros tally w Hinv Hf H; [by injection H as _ <-|].
  cbn [foldM] in H. apply bind_inv in H as (t1 & w1 & Hr & H).
  assert (Hrun : w1 = w ∨ runRequest (pr_Data r) w = (Ok (), w1)).
  { unfold processRequest in Hr. destruct (pr_Data r); [..|apply ret_inv in Hr as [_ ->]; by left];
      (apply bind_inv in Hr as (m & w2 & [_ ->]%deref_inv & Hr);
       destruct (isRequestAlreadySeen m tally); [apply ret_inv in Hr as [_ ->]; by left|];
       apply bind_inv in Hr as ([] & w2 & Hr & [_ ->]%ret_inv); by right). }
  assert (Hfw : deposits_fresh (pw_store w) (omap (λ r, deposit_slot (pr_Data r)) reqs) ∧
    ∀ x, deposit_slot (pr_Data r) = Some x →
      slot_ok x ∧ ps_coins (pw_store w) !! coinKey x = None ∧
      x ∉ omap (λ r, deposit_slot (pr_Data r)) reqs).
  { destruct Hf as [Hnd Hall]. cbn in Hnd, Hall. destruct (deposit_slot (pr_Data r)) as [x|].
    - apply NoDup_cons in Hnd as [Hx Hnd]. apply Forall_cons in Hall as [[Hok Hn] Hall].
      split; [by split|]. intros y [= <-]. done.
    - by split. }
  destruct Hfw as [Hf1 Hf2]. destruct Hrun as [->|Hrun]; [by apply (IH t1 w)|].
  destruct (runRequest_inv (pr_Data r) w w1 Hinv) as [Hinv1 Hnone]; [|done|].
  { intros x Hx. destruct (Hf2 x Hx) as (? & ? & _). done. }
  apply (IH t1 w1); [done| |done]. destruct Hf1 as [Hnd Hall]. split; [done|].
  rewrite Forall_forall in Hall |- *. intros x Hx. destruct (Hall x Hx) as [Hok Hn]. split; [done|].
  apply Hnone; [done| |done]. intros Heq. by destruct (Hf2 x Heq) as (_ & _ & ?).
Qed.

Inductive PCall :=
  | CallPlasmaTx (ctx : Ctx) (mapper : AMStore) (tx : option PlasmaTx)
  | CallBatch (ctx : Ctx) (requests : list PlasmaRequest)
  | CallSubmitBlock (ctx : Ctx)
  | CallUpdateOracle (ctx : Ctx) (newOracle : option Address).

Definition run_pcall (c : PCall) : M W unit :=
  match c with
  | CallPlasmaTx ctx mapper tx => PlasmaTxRequest ctx mapper tx
  | CallBatch ctx requests => ProcessRequestBatch ctx requests
  | CallSubmitBlock ctx => SubmitBlockToMainnet ctx;; mret ()
  | CallUpdateOracle ctx newOracle => UpdateOracle ctx newOracle
  end.

(** Transfers are to somebody else, and deposits are of new slots. *)
Definition pcall_ok w (c : PCall) : Prop :=
  match c with
  | CallPlasmaTx _ _ (Some tx) => ∀ a b, ptx_Sender tx = Some a → ptx_NewOwner tx = Some b →
      wf_address a ∧ wf_address b ∧ a ≠ b
  | CallBatch _ requests =>
      deposits_fresh (pw_store w) (omap (λ r, deposit_slot (pr_Data r)) requests)
  | _ => True
  end.

(** One call that goes through; the application discards what a failed one wrote. *)
Definition pc_step w w' : Prop := ∃ c, pcall_ok w c ∧ run_pcall c w = (Ok (), w').

Definition pc_genesis w : Prop :=
  ∃ oracle p, Init oracle (mkPWorld (mkPStore None [] ∅ ∅ ∅ None p) []) = (Ok (), w).

Definition pc_reachable w : Prop := ∃ w0, pc_genesis w0 ∧ rtc pc_step w0 w.

(** Parts of the store that a computation leaves alone. *)
Definition keeps_coins s s' : Prop :=
  ps_accounts s' = ps_accounts s ∧ ps_coins s' = ps_coins s.

Lemma registerOracle_keeps s0 o cur :
  preserves (λ w, keeps_coins s0 (pw_store w)) (registerOracle o cur).
Proof. unfold registerOracle, on_pstore. pres. Qed.

Lemma hashTx_keeps w0 v : preserves (λ w, w = w0) (hashTx v).
Proof. unfold hashTx, rlpEncodeWithSha3, rlpEncode. pres. Qed.

Lemma SubmitBlock_keeps s0 ctx : preserves (λ w, keeps_coins s0 (pw_store w)) (SubmitBlockToMainnet ctx).
Proof.
  unfold SubmitBlockToMainnet, has_permission, from_pstore, on_pstore, emit,
    emitSubmitBlockConfirmedEvent, hashPending, hashTx, rlpEncodeWithSha3, rlpEncode, emit. pres.
Qed.

Lemma PlasmaTxRequest_inv ctx mapper ptx w w' :
  PlasmaTxRequest ctx mapper ptx w = (Ok (), w') →
  ∃ tx a b coin w1, ptx = Some tx ∧ verifyPlasmaRequest ctx mapper ptx = Ok () ∧
    ptx_Sender tx = Some a ∧ ptx_NewOwner tx = Some b ∧
    ptx_Slot tx ∉ ptx_Slot <$> ps_pending (pw_store w) ∧
    ps_coins (pw_store w) !! coinKey (ptx_Slot tx) = Some coin ∧
    transferCoin coin a b w = (Ok (), w1) ∧
    pw_store w' = set_pending (ps_pending (pw_store w) ++ [tx]) (pw_store w1).
Proof.
  unfold PlasmaTxRequest. destruct (verifyPlasmaRequest ctx mapper ptx) as [[]| |] eqn:Hv; [|done|done].
  intros (tx & w1 & [-> ->]%deref_inv & H)%bind_inv.
  apply bind_inv in H as (a & w1 & [Ha ->]%deref_inv & H).
  apply bind_inv in H as (pending & w1 & [-> ->]%gets_inv & H).
  apply bind_inv in H as ([] & w1 & [Hex ->]%guard_not_inv & H).
  apply bind_inv in H as (b & w1 & [Hb ->]%deref_inv & H).
  apply bind_inv in H as (coin & w1 & [-> Hc]%loadCoin_inv & H).
  apply bind_inv in H as ([] & w1 & Ht & H). injection H as <-.
  exists tx, a, b, coin, w1. split_and!; try done. intros (v & Hv1 & Hin)%list_elem_of_fmap.
  apply not_true_iff_false in Hex. apply Hex, existsb_exists. exists v.
  split; [by apply list_elem_of_In|]. apply Z.eqb_eq. done.
Qed.

Lemma pc_step_inv w w' : pc_inv (pw_store w) → pc_step w w' → pc_inv (pw_store w').
Proof.
  intros Hinv (c & Hok & H). destruct c as [ctx mapper ptx|ctx reqs|ctx|ctx o]; cbn [run_pcall] in H.
  - apply PlasmaTxRequest_inv in H as (tx & a & b & coin & w1 & -> & _ & Ha & Hb & _ & Hc & Ht & ->).
    apply (pc_inv_ext (pw_store w1)); [reflexivity|reflexivity|].
    destruct (Hok a b Ha Hb) as (Hwa & Hwb & Hne).
    destruct (transferCoin_inv coin a b w w1 Hinv Ht) as (_ & i & af & at_ & Hi & Hkf & Hsf & Hkt & Hst & ->).
    eapply pc_inv_move; [done| |exact Hi|done..]. intros Heq%prefix_key_inj2; done.
  - unfold ProcessRequestBatch in H. apply bind_inv in H as (p & w1 & [-> ->]%gets_inv & H).
    apply bind_inv in H as ([] & w1 & [_ ->]%guard_not_inv & H).
    destruct (last reqs) as [lr|]; [|by injection H as <-].
    apply bind_inv in H as (t & w1 & [-> ->]%gets_inv & H).
    apply bind_inv in H as (m & w1 & [_ ->]%deref_inv & H).
    destruct (isRequestAlreadySeen m _); [by injection H as <-|].
    apply bind_inv in H as (r & w1 & Hr & H). unfold try_ in Hr.
    destruct (foldM processRequest _ reqs w) as [[t|e|] w2] eqn:E; [|injection Hr as <- <-; done|done].
    injection Hr as <- <-. injection H as <-. cbn [pw_store].
    apply (pc_inv_ext (pw_store w2)); [reflexivity|reflexivity|]. by eapply processRequests_inv.
  - apply bind_inv in H as (r & w1 & H & [_ ->]%ret_inv).
    pose proof (SubmitBlock_keeps (pw_store w) ctx w (conj eq_refl eq_refl)) as [Ha Hc].
    rewrite H in Ha, Hc. by eapply pc_inv_ext.
  - assert (Hk : preserves (λ w0, keeps_coins (pw_store w) (pw_store w0)) (UpdateOracle ctx o)).
    { unfold UpdateOracle, has_permission, from_pstore. pose proof registerOracle_keeps. pres. }
    destruct (Hk w (conj eq_refl eq_refl)) as [Ha Hc]. rewrite H in Ha, Hc. by eapply pc_inv_ext.
Qed.

Lemma pc_reachable_inv w : pc_reachable w → pc_inv (pw_store w).
Proof.
  intros (w0 & (oracle & p & H0) & Hs).
  assert (Hinv : pc_inv (pw_store w0)).
  { set (s0 := mkPStore None [] ∅ ∅ ∅ None p) in H0.
    assert (Hk : preserves (λ w, keeps_coins s0 (pw_store w)) (Init oracle)).
    { unfold Init, on_pstore. pose proof (registerOracle_keeps s0). pres. }
    destruct (Hk (mkPWorld s0 []) (conj eq_refl eq_refl)) as [Ha Hc]. rewrite H0 in Ha, Hc.
    eapply (pc_inv_ext s0); [exact Ha|exact Hc|].
    split; cbn; try (apply map_Forall_empty); unfold slots_at; cbn; intros *; rewrite ?lookup_empty; cbn;
      try done; [constructor|set_solver..]. }
  clear H0. induction Hs; eauto using pc_step_inv.
Qed.

(** ** Batches *)

Definition em_triple (m : EventMeta) : Z * (Z * Z) := (em_BlockNumber m, (em_TxIndex m, em_LogIndex m)).
Definition pt_triple (t : PTally) : Z * (Z * Z) := (pt_BlockNumber t, (pt_TxIndex t, pt_LogIndex t)).

Lemma seen_lex m t :
  isRequestAlreadySeen m t = true ↔ event_compare (em_triple m) (pt_triple t) <= 0.
Proof.
  unfold isRequestAlreadySeen, event_compare, lex_compare. cbn.
  repeat match goal with |- context [?a =? ?b] => destruct (Z.eqb_spec a b); cbn end;
    try lia; rewrite ?Z.leb_le; lia.
Qed.

(** A request that a tally covers. *)
Definition dealt (t : PTally) (r : PlasmaRequest) : Prop :=
  pr_Data r = Request_Other ∨ ∃ m, pr_Meta r = Some m ∧ isRequestAlreadySeen m t = true.

Lemma dealt_mono t t' r :
  event_compare (pt_triple t) (pt_triple t') <= 0 → dealt t r → dealt t' r.
Proof.
  intros Hle [?|(m & Hm & Hs)]; [by left|right]. exists m. split; [done|].
  rewrite seen_lex in *. by eapply event_compare_trans.
Qed.

Lemma processRequest_tally t r w t' w' :
  processRequest t r w = (Ok t', w') → event_compare (pt_triple t) (pt_triple t') <= 0 ∧ dealt t' r.
Proof.
  unfold processRequest. intros H.
  assert (Hrefl : event_compare (pt_triple t) (pt_triple t) <= 0) by (by rewrite (cmp_refl event_compare)).
  destruct (pr_Data r) eqn:Hd; [..|by apply ret_inv in H as [-> _]; split; [|left]];
    (apply bind_inv in H as (m & w1 & [Hm ->]%deref_inv & H);
     destruct (isRequestAlreadySeen m t) eqn:Hs;
     [apply ret_inv in H as [-> _]; split; [done|right; eauto]|];
     apply bind_inv in H as ([] & w1 & _ & [-> _]%ret_inv); split;
     [apply event_compare_total; intros Hle; apply not_true_iff_false in Hs; apply Hs; by apply seen_lex
     |right; exists m; split; [done|]; apply seen_lex; by rewrite (cmp_refl event_compare)]).
Qed.

Lemma processRequests_tally reqs t w t' w' :
  foldM processRequest t reqs w = (Ok t', w') →
  event_compare (pt_triple t) (pt_triple t') <= 0 ∧ Forall (dealt t') reqs.
Proof.
  revert t w. induction reqs as [|r reqs IH]; intros t w H.
  { injection H as -> _. split; [by rewrite (cmp_refl event_compare)|constructor]. }
  cbn [foldM] in H. apply bind_inv in H as (t1 & w1 & [Hle Hd]%processRequest_tally & [Hle' Hds]%IH).
  split; [by eapply event_compare_trans|]. constructor; [by eapply dealt_mono|done].
Qed.

Lemma processRequests_dealt reqs t w :
  Forall (dealt t) reqs → foldM processRequest t reqs w = (Ok t, w).
Proof.
  induction 1 as [|r reqs Hr _ IH]; [done|]. cbn [foldM].
  rewrite (bind_ok _ _ w t w); [done|]. unfold processRequest.
  destruct Hr as [->|(m & Hm & Hs)]; [done|].
  destruct (pr_Data r); try done; rewrite Hm; m_eval; by rewrite Hs.
Qed.

(** ** Signatures and blocks *)

Lemma verifyPlasmaRequest_ok ctx mapper tx a :
  verifyPlasmaRequest ctx mapper (Some tx) = Ok () → ptx_Sender tx = Some a →
  ∃ m hash, recover_typed_sig hash (ptx_Signature tx) = Ok (Local a) ∧
    GetMapping (Some (ctx_sender ctx)) mapper = Ok m ∧ Local (am_To m) = Local a.
Proof.
  intros Hv Ha. unfold verifyPlasmaRequest in Hv. rewrite Ha in Hv.
  destruct (ptx_Denomination tx); [|done]. destruct (ptx_PreviousBlock tx); [|done].
  destruct (ptx_NewOwner tx); [|done].
  destruct (diadem_tx_hash _ _ _ _ _) as [hash| |]; [|done|done]. cbn -[GetMapping] in Hv.
  destruct (recover_typed_sig hash (ptx_Signature tx)) as [signer| |] eqn:Hsig; [|done|done].
  cbn -[GetMapping] in Hv. destruct (ctx_registry ctx !! _); [|done].
  destruct (GetMapping (Some (ctx_sender ctx)) mapper) as [m| |] eqn:Hm; [|done|done].
  unfold mbind, Res_bind in Hv. destruct (_ || _) eqn:Hcmp; [done|].
  apply orb_false_iff in Hcmp as [H1 H2]. apply negb_false_iff in H1, H2.
  apply (cmp_eqb bytes_compare) in H1, H2. exists m, hash. split_and!; [by rewrite Hsig, H1|done|done].
Qed.

Lemma hashPending_run pending acc w r w' :
  foldM hashPending acc pending w = (Ok r, w') →
  w' = w ∧ ptx_Slot <$> r.1 = (ptx_Slot <$> acc.1) ++ (ptx_Slot <$> pending).
Proof.
  revert acc w. induction pending as [|v pending IH]; intros acc w H.
  { injection H as <- <-. by rewrite app_nil_r. }
  cbn [foldM] in H. apply bind_inv in H as (acc1 & w1 & H1 & [-> Hr]%IH).
  unfold hashPending in H1. apply bind_inv in H1 as (hash & w2 & Hh & [-> ->]%ret_inv).
  pose proof (hashTx_keeps w v w eq_refl) as Hk. unfold wp in Hk. rewrite Hh in Hk. cbn in Hk.
  split; [done|]. rewrite Hr. cbn [fst]. rewrite fmap_app. cbn. by rewrite <- app_assoc.
Qed.

(** The next multiple of 1000. *)
Lemma round_next h : 0 <= h < 2 ^ 62 → round (i64 h) 1000 = (h / 1000 + 1) * 1000.
Proof.
  intros Hb. rewrite i64_small by lia. unfold round. destruct (Z.eqb_spec h 0) as [->|]; [done|].
  rewrite Z.rem_mod_nonneg by lia. pose proof (Z.div_mod h 1000 ltac:(lia)) as Hdm.
  pose proof (Z.mod_pos_bound h 1000 ltac:(lia)).
  destruct (Z.eqb_spec (h mod 1000) 0); [rewrite i64_small by lia; lia|].
  rewrite (i64_small (h + _)) by lia. rewrite Z.quot_div_nonneg by lia.
  assert (Hq : (h + (1000 - 1)) / 1000 = h / 1000 + 1)
    by (symmetry; apply (Z.div_unique _ _ _ (h mod 1000 - 1)); lia).
  rewrite Hq. apply i64_small. lia.
Qed.

(** ** Theorems *)

(** C22. Every coin has exactly one owner: after any history in which deposits
    are of new slots and transfers are to somebody else, no account lists a slot
    twice, no two accounts list the same slot, and the slots listed are exactly
    those of the coins held by the contract. *)
Theorem every_coin_has_one_owner w :
  pc_reachable w →
  let s := pw_store w in
  (∀ k, NoDup (slots_at s k)) ∧
  (∀ k k' x, x ∈ slots_at s k → x ∈ slots_at s k' → k = k') ∧
  ∀ x, slot_ok x → is_Some (ps_coins s !! coinKey x) ↔ ∃ k, x ∈ slots_at s k.
Proof.
  intros Hinv%pc_reachable_inv s. split_and!; [apply Hinv|apply Hinv|]. intros x Hx. split.
  - intros [c Hc]. destruct (pi_coins _ Hinv _ _ Hc) as (Hk%coinKey_inj & Hok & _); [|done|].
    + rewrite Hk. by eapply pi_owned.
    + by destruct (pi_coins _ Hinv _ _ Hc) as (_ & ? & _).
  - intros (k & Hk). destruct (pi_backed _ Hinv k x Hk) as (c & Hc & _). by exists c.
Qed.

(** A plasma transaction that goes through was signed by the sender it
    names, which is the foreign account linked to the caller; the sender owned
    the coin, which was not exiting and not yet moved in this block; the coin is
    now the receiver's and no longer the sender's, nothing else has moved, and
    the transaction waits for the next block. *)
Theorem plasma_transfer_moves_coin ctx mapper ptx w w' :
  pc_reachable w → pcall_ok w (CallPlasmaTx ctx mapper ptx) →
  PlasmaTxRequest ctx mapper ptx w = (Ok (), w') →
  let s := pw_store w in let s' := pw_store w' in
  ∃ tx a b coin m hash,
    ptx = Some tx ∧ ptx_Sender tx = Some a ∧ ptx_NewOwner tx = Some b ∧
    recover_typed_sig hash (ptx_Signature tx) = Ok (Local a) ∧
    GetMapping (Some (ctx_sender ctx)) mapper = Ok m ∧ Local (am_To m) = Local a ∧
    ps_coins s !! coinKey (ptx_Slot tx) = Some coin ∧ coin_State coin = DEPOSITED ∧
    ptx_Slot tx ∉ ptx_Slot <$> ps_pending s ∧
    coin_Slot coin ∈ slots_at s (accountKey a) ∧
    coin_Slot coin ∉ slots_at s' (accountKey a) ∧ coin_Slot coin ∈ slots_at s' (accountKey b) ∧
    (∀ k x, x ≠ coin_Slot coin → x ∈ slots_at s' k ↔ x ∈ slots_at s k) ∧
    ps_pending s' = ps_pending s ++ [tx] ∧ ps_coins s' = ps_coins s.
Proof.
  intros Hinv%pc_reachable_inv Hok H s s'.
  destruct (PlasmaTxRequest_inv ctx mapper ptx w w' H) as
    (tx & a & b & coin & w1 & -> & Hv & Ha & Hb & Hpend & Hc & Ht & Hs').
  destruct (Hok a b Ha Hb) as (Hwa & Hwb & Hne).
  assert (Hkne : accountKey a ≠ accountKey b) by (intros Heq%prefix_key_inj2; done).
  destruct (transferCoin_inv coin a b w w1 Hinv Ht) as (Hst & i & af & at_ & Hi & Hkf & Hsf & Hkt & Hst' & Hw1).
  cbv zeta in *. fold s in Hi, Hsf, Hst', Hw1, Hinv, Hc, Hpend.
  pose proof (pc_inv_move s _ _ i _ af at_ Hinv Hkne Hi Hkf Hsf Hkt Hst') as Hinv'.
  assert (Hat : ∀ k, slots_at s' k = slots_at (write_account (accountKey b) at_
    (write_account (accountKey a) af s)) k) by (intros k; unfold s'; rewrite Hs', Hw1; reflexivity).
  pose proof (swap_remove_perm _ _ _ Hi) as Hperm. rewrite <- Hsf in Hperm.
  destruct (verifyPlasmaRequest_ok ctx mapper tx a Hv Ha) as (m & hash & Hsig & Hm & Hto).
  assert (Hb' : coin_Slot coin ∈ slots_at s' (accountKey b)).
  { rewrite Hat, slots_at_write, decide_True by done. rewrite Hst'. set_solver. }
  exists tx, a, b, coin, m, hash. split_and!; try done.
  - by apply list_elem_of_lookup_2 in Hi.
  - intros Hin. apply Hkne. rewrite Hat in Hin, Hb'. by apply (pi_unique _ Hinv' _ _ _ Hin Hb').
  - intros k x Hx. rewrite Hat, slots_at_write. destruct (decide (accountKey b = k)) as [<-|].
    { rewrite Hst'. set_solver. }
    rewrite slots_at_write. destruct (decide (accountKey a = k)) as [<-|]; [|done].
    rewrite <- Hperm, elem_of_cons. naive_solver.
  - unfold s'. by rewrite Hs'.
  - unfold s'. rewrite Hs', Hw1. reflexivity.
Qed.

(** A coin whose exit has started is frozen: no plasma transaction moves it
    until the exit is reset, and a failed attempt changes nothing. *)
Theorem exiting_coin_is_frozen ctx mapper tx coin w :
  ps_coins (pw_store w) !! coinKey (ptx_Slot tx) = Some coin → coin_State coin ≠ DEPOSITED →
  ∃ r, PlasmaTxRequest ctx mapper (Some tx) w = (r, w) ∧ is_ok r = false.
Proof.
  intros Hc Hst. unfold PlasmaTxRequest.
  destruct (verifyPlasmaRequest ctx mapper (Some tx)) as [[]| |] eqn:Hv; [|eexists; done|eexists; done].
  unfold UnmarshalAddressPB, loadCoin, from_pstore, transferCoin. m_eval.
  destruct (ptx_Sender tx); [|eexists; done]. destruct (existsb _ _); [eexists; done|].
  destruct (ptx_NewOwner tx); [|eexists; done]. rewrite Hc. rewrite bool_decide_eq_false_2 by done.
  eexists; done.
Qed.

(** Submitting a block numbers it with the least multiple of 1000 above the
    current height, fills it with all pending transactions in their order, each
    with its proof in the block's tree, and leaves nothing pending; without
    pending transactions nothing changes. *)
Theorem submit_block_takes_all_pending ctx w root w' h :
  ps_height (pw_store w) = Some h → 0 <= h < 2 ^ 62 →
  SubmitBlockToMainnet ctx w = (Ok root, w') →
  if decide (ps_pending (pw_store w) = []) then w' = w
  else ∃ txs smt,
    let height := (h / 1000 + 1) * 1000 in
    ps_height (pw_store w') = Some height ∧ h < height <= h + 1000 ∧
    ps_pending (pw_store w') = [] ∧
    ps_blocks (pw_store w') = <[blockKey height := mkPlasmaBlock root txs (Some height)]> (ps_blocks (pw_store w)) ∧
    ptx_Slot <$> txs = ptx_Slot <$> ps_pending (pw_store w) ∧
    root = smt_root smt ∧ Forall (λ t, ptx_Proof t = smt_proof smt (ptx_Slot t)) txs ∧
    ps_accounts (pw_store w') = ps_accounts (pw_store w) ∧
    ps_coins (pw_store w') = ps_coins (pw_store w).
Proof.
  intros Hh Hb H. pose proof (SubmitBlock_keeps (pw_store w) ctx w (conj eq_refl eq_refl)) as [Hka Hkc].
  rewrite H in Hka, Hkc. cbn [snd] in Hka, Hkc. unfold SubmitBlockToMainnet in H.
  apply bind_inv in H as (p & w1 & [-> ->]%gets_inv & H).
  apply bind_inv in H as ([] & w1 & [_ ->]%guard_not_inv & H).
  apply bind_inv in H as (ph & w1 & [-> ->]%gets_inv & H).
  apply bind_inv in H as (pending & w1 & [-> ->]%gets_inv & H).
  case_decide as Hp; [rewrite Hp in H; by injection H as _ <-|].
  destruct (length (ps_pending (pw_store w)) =? 0)%nat eqn:Hlen.
  { apply Nat.eqb_eq, nil_length_inv in Hlen. done. }
  apply bind_inv in H as (h' & w1 & [Hh' ->]%deref_inv & H).
  assert (h' = h) as -> by congruence. cbv zeta in H.
  rewrite round_next in H by done. set (height := (h / 1000 + 1) * 1000) in *.
  apply bind_inv in H as ([] & w1 & [= <-] & H).
  apply bind_inv in H as ([txs leaves] & w1 & [-> Hslots]%hashPending_run & H).
  apply bind_inv in H as (smt & w1 & Hsmt & H). unfold lift_res in Hsmt.
  destruct (new_smt leaves) as [t| |]; [|done|done]. injection Hsmt as -> <-.
  unfold emitSubmitBlockConfirmedEvent, emit, on_pstore in H. m_eval_in H. injection H as <- <-.
  exists ((λ v, ptx_with_Proof (smt_proof smt (ptx_Slot v)) v) <$> txs), smt. cbv zeta.
  pose proof (Z.div_mod h 1000 ltac:(lia)). pose proof (Z.mod_pos_bound h 1000 ltac:(lia)).
  cbn [pw_store] in *. split_and!; try done; try (unfold height; lia).
  - rewrite <- list_fmap_compose. cbn in Hslots. rewrite <- Hslots. by apply list_fmap_ext.
  - apply Forall_fmap, Forall_forall. done.
Qed.

(** A batch of reports is consumed once: processing the same batch again
    succeeds and changes nothing. *)
Theorem plasma_batch_consumed_once ctx ctx' reqs w w' :
  ProcessRequestBatch ctx reqs w = (Ok (), w') →
  perm_has (ps_perms (pw_store w')) (ctx_sender ctx') SubmitEventsPermission [oracleRole] = true →
  ProcessRequestBatch ctx' reqs w' = (Ok (), w').
Proof.
  intros H Hperm. unfold ProcessRequestBatch in H |- *.
  rewrite (bind_ok (has_permission ctx' SubmitEventsPermission) _ w' true w')
    by (unfold has_permission, from_pstore; m_eval; by rewrite Hperm).
  rewrite (bind_ok (guard_not (negb true) ErrNotAuthorized) _ w' () w') by done.
  apply bind_inv in H as (p & w1 & [-> ->]%gets_inv & H).
  apply bind_inv in H as ([] & w1 & [_ ->]%guard_not_inv & H).
  destruct (last reqs) as [lr|] eqn:Hlast; [|done].
  apply bind_inv in H as (t & w1 & [-> ->]%gets_inv & H).
  apply bind_inv in H as (m & w1 & [Hm ->]%deref_inv & H). 
  rewrite (bind_ok (from_pstore GetRequestBatchTally) _ w' (GetRequestBatchTally (pw_store w')) w') by done.
  rewrite (bind_ok (deref (pr_Meta lr)) _ w' m w') by (unfold deref; by rewrite Hm).
  destruct (isRequestAlreadySeen m (GetRequestBatchTally (pw_store w))) eqn:Hseen.
  { injection H as <-. by rewrite Hseen. }
  apply bind_inv in H as (r & w1 & Hr & H). unfold try_ in Hr.
  destruct (foldM processRequest _ reqs w) as [[t|e|] w2] eqn:E; [|injection Hr as <- <-; done|done].
  injection Hr as <- <-. injection H as <-. cbn [pw_store].
  change (GetRequestBatchTally (set_tally t (pw_store w2))) with t.
  destruct (isRequestAlreadySeen m t); [done|].
  apply processRequests_tally in E as [_ Hd]. unfold try_.
  erewrite bind_ok; [|by rewrite processRequests_dealt]. reflexivity.
Qed.

(** A transfer to oneself lists the coin twice: the two copies of the account
    are loaded separately and the credited one is written last. *)
Lemma self_transfer_duplicates_slot coin a w w' :
  pc_inv (pw_store w) → transferCoin coin a a w = (Ok (), w') →
  slots_at (pw_store w') (accountKey a) = slots_at (pw_store w) (accountKey a) ++ [coin_Slot coin] ∧
  coin_Slot coin ∈ slots_at (pw_store w) (accountKey a).
Proof.
  intros Hinv H. destruct (transferCoin_inv coin a a w w' Hinv H) as
    (_ & i & af & at_ & Hi & _ & _ & _ & Hst & ->).
  split; [by rewrite slots_at_write, decide_True|by apply list_elem_of_lookup_2 in Hi].
Qed.
End Invariant.

(** ** Witnesses *)

Module PlasmaWitness.
Import SimpleLib MapperWitness.
#[local] Existing Instance MapperWitness.evm.

#[local] Instance txlib : TxLib := {
  unmarshal_SignedTx b := None; unmarshal_NonceTx b := None; unmarshal_Transaction b := None;
  ed25519_Verify pk msg sig := false; address_IsEmpty a := false }.

(** A tree is its leaves. *)
#[local] Instance plasma : PlasmaLib := {
  diadem_tx_hash slot denomination owner previous proof := Ok (pretty slot);
  solidity_sha3_u64 slot := Ok (pretty slot);
  rlp_encode slot previous denomination owner := Ok owner;
  keccak256 b := b;
  SMT := gmap Z bytes;
  new_smt leaves := Ok leaves;
  smt_root t := "root";
  smt_proof t slot := default "" (t !! slot) }.

Abbreviation World := (PWorld (gset (Address * bytes * string))).

Definition ctx (c : string) : Ctx :=
  mkCtx (sample c) 0 (sample "X") "diadem" 1 {[ "addressmapper" := sample "M" ]}.

Definition other : Address := mkAddress "eth" (Local (sample "f")).

Definition genesis : World :=
  (Init (Some (sample "o")) (mkPWorld (mkPStore None [] ∅ ∅ ∅ None perm_none) [])).2.

(** Slots 5 and 6 are deposited by the foreign account linked to [sample "a"],
    and the second is about to exit. *)
Definition reports : list PlasmaRequest :=
  [mkPlasmaRequest (Some (mkEventMeta 1 0 0)) (Request_Deposit (mkDeposit 5 (Some 1) (Some 1) (Some foreign) None));
   mkPlasmaRequest (Some (mkEventMeta 1 0 1)) (Request_Deposit (mkDeposit 6 (Some 2) (Some 1) (Some foreign) None));
   mkPlasmaRequest (Some (mkEventMeta 2 0 0)) (Request_StartedExit (mkCoinRequest (Some foreign) 6))].
Definition deposited : World := (ProcessRequestBatch (ctx "o") reports genesis).2.

Definition transfer (slot : Z) : PlasmaTx :=
  mkPlasmaTx slot (Some 1) (Some 1) (Some other) (Some foreign) (Local foreign) "" "".
Definition moved : World := (PlasmaTxRequest (ctx "a") linked (Some (transfer 5)) deposited).2.

Lemma deposited_run : ProcessRequestBatch (ctx "o") reports genesis = (Ok (), deposited).
Proof. unfold deposited. apply run_ok. by vm_compute. Qed.

Lemma moved_run : PlasmaTxRequest (ctx "a") linked (Some (transfer 5)) deposited = (Ok (), moved).
Proof. unfold moved. apply run_ok. by vm_compute. Qed.

Lemma transfer_ok (slot : Z) (w : World) : pcall_ok w (CallPlasmaTx (ctx "a") linked (Some (transfer slot))).
Proof. intros a b [= <-] [= <-]. split_and!; [by split|by split|done]. Qed.

Lemma deposited_reachable : pc_reachable deposited.
Proof.
  exists genesis. split.
  - exists (Some (sample "o")), perm_none. unfold genesis. apply run_ok. by vm_compute.
  - apply rtc_once. exists (CallBatch (ctx "o") reports). split; [|apply deposited_run].
    split; [by refine (bool_decide_unpack (NoDup [5; 6]) _)|].
    repeat constructor; by vm_compute.
Qed.

Lemma moved_reachable : pc_reachable moved.
Proof.
  destruct deposited_reachable as (w0 & H0 & Hs). exists w0. split; [done|].
  eapply rtc_r; [done|]. exists (CallPlasmaTx (ctx "a") linked (Some (transfer 5))).
  split; [apply transfer_ok|apply moved_run].
Qed.

Lemma one_owner_witness :
  NoDup (slots_at (pw_store moved) (accountKey other)) ∧
  (5 ∈ slots_at (pw_store moved) (accountKey other) ∧
   is_Some (ps_coins (pw_store moved) !! coinKey 5)).
Proof.
  destruct (every_coin_has_one_owner moved moved_reachable) as (Hnd & _ & Hin).
  assert (E : slots_at (pw_store moved) (accountKey other) = [5]) by (clear; by vm_compute).
  assert (H5 : 5 ∈ slots_at (pw_store moved) (accountKey other)) by (rewrite E; apply list_elem_of_here).
  clear E. assert (Hok : slot_ok 5) by (unfold slot_ok; lia).
  exact (conj (Hnd (accountKey other)) (conj H5 (proj2 (Hin 5 Hok) (ex_intro _ (accountKey other) H5)))).
Defined.

Lemma transfer_witness :
  5 ∉ slots_at (pw_store moved) (accountKey foreign) ∧
  ps_pending (pw_store moved) = [transfer 5].
Proof.
  destruct (plasma_transfer_moves_coin (ctx "a") linked (Some (transfer 5)) deposited moved)
    as (tx & a & b & coin & m & hash & [= <-] & [= <-] & _ & _ & _ & _ & Hc & _ & _ & _ & Hn & _ & _ & Hp & _).
  - apply deposited_reachable.
  - apply transfer_ok.
  - apply moved_run.
  - assert (Hs : coin_Slot <$> ps_coins (pw_store deposited) !! coinKey (ptx_Slot (transfer 5)) = Some 5)
      by (clear; by vm_compute).
    rewrite Hc in Hs. injection Hs as Hs. rewrite Hs in Hn. split; [exact Hn|].
    assert (E : ps_pending (pw_store deposited) = []) by (clear; by vm_compute). rewrite Hp, E. reflexivity.
Defined.

Lemma frozen_witness :
  ∃ r, PlasmaTxRequest (ctx "a") linked (Some (transfer 6)) deposited = (r, deposited) ∧ is_ok r = false.
Proof.
  apply (exiting_coin_is_frozen (ctx "a") linked (transfer 6) (mkPCoin 6 EXITING (Some 1) None) deposited).
  - clear. by vm_compute.
  - discriminate.
Defined.

Lemma submit_witness :
  ps_height (pw_store (SubmitBlockToMainnet (ctx "o") moved).2) = Some 1000.
Proof.
  pose proof (submit_block_takes_all_pending (ctx "o") moved "root"
    (SubmitBlockToMainnet (ctx "o") moved).2 2) as H.
  assert (Hne : ps_pending (pw_store moved) ≠ []).
  { assert (E : length (ps_pending (pw_store moved)) = 1%nat) by (clear; by vm_compute).
    intros Heq. rewrite Heq in E. discriminate E. }
  rewrite decide_False in H by exact Hne. destruct H as (txs & smt & H & _).
  - clear. by vm_compute.
  - lia.
  - apply run_ok. clear. by vm_compute.
  - exact H.
Defined.

Lemma batch_witness :
  ProcessRequestBatch (ctx "o") reports deposited = (Ok (), deposited).
Proof.
  apply (plasma_batch_consumed_once (ctx "o") (ctx "o") reports genesis deposited).
  - apply deposited_run.
  - clear. by vm_compute.
Defined.
End PlasmaWitness.
