(* ===== verification/DeployerWhitelist.v ===== *)
(** * Who may deploy contracts

    The contract src/builtin/plugins/deployer_whitelist/deployer_whitelist.go
    and the middleware that asks it, src/throttle/deployer-middleware.go, with
    the two middlewares of src/throttle/middleware.go.  The values of the flags
    and the decoding of messages are in other packages: classes [DeployFlags]
    and [VmLib].

    The theorems are that flags survive packing, that only the owner changes the
    list, and that a deployment reaches the next handler exactly when its origin
    holds the flag it needs. *)

From S2P Require Import Prelude Contract Store Middleware App.

(** [dwtypes.Flags_EVM], [dwtypes.Flags_GO], [dwtypes.Flags_MIGRATION] *)
Class DeployFlags := {
  AllowEVMDeployFlag : Z;
  AllowGoDeployFlag : Z;
  AllowMigrationFlag : Z;
}.

(** [vm.VMType] *)
Inductive VMType := VMType_PLUGIN | VMType_EVM | VMType_other.

Record MessageTx := mkMessageTx { msg_From : option Address; msg_To : option Address; msg_Data : bytes }.

(** [proto.Unmarshal] of [vm.MessageTx] and of [vm.DeployTx] (its [VmType]) *)
Class VmLib := {
  unmarshal_MessageTx : bytes → option MessageTx;
  unmarshal_DeployTx : bytes → option VMType;
}.

Record Deployer := mkDeployer { dp_Address : Address; dp_Flags : Z }.

Definition ErrNotAuthorized : error := ErrMsg "[DeployerWhitelist] not authorized".
Definition ErrInvalidRequest : error := ErrMsg "[DeployerWhitelist] invalid request".
Definition ErrOwnerNotSpecified : error := ErrMsg "[DeployerWhitelist] owner not specified".
Definition ErrDeployerAlreadyExists : error := ErrMsg "[DeployerWhitelist] deployer already exists".
Definition ErrDeployerDoesNotExist : error := ErrMsg "[DeployerWhitelist] deployer does not exist".

Definition ownerRole : string := "owner".
Definition modifyPerm : bytes := "modp".

(** ** Flags *)

Definition PackFlags (flags : list Z) : Z := foldl (λ packedFlags flag, Z.lor packedFlags flag) 0 flags.

Definition UnpackFlags (flags : Z) : list Z :=
  foldl (λ allFlags i, let f := u32 (Z.shiftl 1 (Z.of_nat i)) in
           if negb (Z.land f flags =? 0) then allFlags ++ [f] else allFlags) [] (seq 0 32).

Definition IsFlagSet (flags flag : Z) : bool := negb (Z.land flags flag =? 0).

(** ** The contract *)

Section Ops.
Context {LIB : DiademLib} {RANGE : RangeOrder} {FLAGS : DeployFlags} {P : Type} {PERM : Permissions P}.

Record DWStore := mkDWStore { dw_deployers : gmap bytes Deployer; dw_perms : P }.

Definition deployerKey (addr : Address) : bytes := prefix_key ["dep"; address_bytes addr].

Definition put_deployer (addr : Address) (d : Deployer) : M DWStore unit :=
  modify (λ s, mkDWStore (<[deployerKey addr := d]> (dw_deployers s)) (dw_perms s)).
Definition has_deployer (addr : Address) : M DWStore bool :=
  gets (λ s, bool_decide (is_Some (dw_deployers s !! deployerKey addr))).
Definition has_permission (ctx : Ctx) : M DWStore bool :=
  gets (λ s, perm_has (dw_perms s) (ctx_sender ctx) modifyPerm [ownerRole]).

Definition Init (owner : option Address) (deployers : list Deployer) : M DWStore unit :=
  match owner with
  | None => throw ErrOwnerNotSpecified
  | Some ownerAddr =>
      modify (λ s, mkDWStore (dw_deployers s) (perm_grant ownerAddr modifyPerm ownerRole (dw_perms s)));;
      let flags := PackFlags [u32 AllowEVMDeployFlag; u32 AllowGoDeployFlag; u32 AllowMigrationFlag] in
      put_deployer ownerAddr (mkDeployer ownerAddr flags);;
      forM deployers (λ d, put_deployer (dp_Address d) d)
  end.

(** The flags of a request are unsigned: [req.Flags <= 0] is [req.Flags = 0]. *)
Definition AddDeployer (ctx : Ctx) (deployerAddr : option Address) (flags : Z) : M DWStore unit :=
  ok ← has_permission ctx;
  guard_not (negb ok) ErrNotAuthorized;;
  match deployerAddr with
  | None => throw ErrInvalidRequest
  | Some deployerAddr =>
      guard_not (flags <=? 0) ErrInvalidRequest;;
      found ← has_deployer deployerAddr;
      guard_not found ErrDeployerAlreadyExists;;
      put_deployer deployerAddr (mkDeployer deployerAddr flags)
  end.

(** The package function [GetDeployer]: somebody unknown has no flags. *)
Definition GetDeployer (s : DWStore) (deployerAddr : Address) : Deployer :=
  default (mkDeployer deployerAddr 0) (dw_deployers s !! deployerKey deployerAddr).

Definition DeployerWhitelist_GetDeployer (s : DWStore) (deployerAddr : option Address) : Res Deployer :=
  match deployerAddr with
  | None => Err ErrInvalidRequest
  | Some a => Ok (GetDeployer s a)
  end.

Definition RemoveDeployer (ctx : Ctx) (deployerAddr : option Address) : M DWStore unit :=
  match deployerAddr with
  | None => throw ErrInvalidRequest
  | Some deployerAddr =>
      ok ← has_permission ctx;
      guard_not (negb ok) ErrNotAuthorized;;
      found ← has_deployer deployerAddr;
      guard_not (negb found) ErrDeployerDoesNotExist;;
      modify (λ s, mkDWStore (delete (deployerKey deployerAddr) (dw_deployers s)) (dw_perms s))
  end.

Definition ListDeployers (s : DWStore) : list Deployer := snd <$> range_of (dw_deployers s).
End Ops.
Arguments DWStore : clear implicits.

(** ** The middleware *)

Definition DeployerWhitelistFeature : string := "mw:deploy-wl".
Definition deployId : Z := 1.
Definition callId : Z := 2.
Definition migrationId : Z := 3.
Definition ErrDeployNotAuthorized : error := ErrMsg "[DeployerWhitelistMiddleware] not authorized".

Section Middleware.
Context {LIB : DiademLib} {TXL : TxLib} {VML : VmLib} {FLAGS : DeployFlags}.
Context {P T E : Type} {KV : KVStore T}.
Abbreviation W := (TxWorld T E).

Definition isAllowed (flag : Z) (ctx : DWStore P) (deployerAddr : Address) : Res unit :=
  let deployer := GetDeployer ctx deployerAddr in
  if IsFlagSet (u32 (dp_Flags deployer)) (u32 flag) then Ok () else Err ErrDeployNotAuthorized.
Definition isAllowedToDeployGo := isAllowed AllowGoDeployFlag.
Definition isAllowedToDeployEVM := isAllowed AllowEVMDeployFlag.
Definition isAllowedToMigrate := isAllowed AllowMigrationFlag.

(** [createDeployerWhitelistCtx] opens the whitelist contract in the state. *)
Definition NewDeployerWhitelistMiddleware
    (createDeployerWhitelistCtx : TxState → M W (DWStore P)) : TxMiddleware (T := T) (E := E) :=
  λ state txBytes next isCheckTx,
  enabled ← gets (λ w, FeatureEnabled (tw_store w) DeployerWhitelistFeature false);
  if negb enabled then next state txBytes isCheckTx
  else
    match unmarshal_NonceTx txBytes with
    | None => throw (ErrMsg "throttle: unwrap nonce Tx")
    | Some nonceTx =>
        match unmarshal_Transaction (nx_Inner nonceTx) with
        | None => throw (ErrMsg "throttle: unmarshal tx")
        | Some tx =>
            if negb (tx_Id tx =? deployId) && negb (tx_Id tx =? migrationId)
            then next state txBytes isCheckTx
            else
              match unmarshal_MessageTx (tx_Data tx) with
              | None => throw (ErrMsg "unmarshal message tx")
              | Some msg =>
                  (if tx_Id tx =? deployId then
                     match unmarshal_DeployTx (msg_Data msg) with
                     | None => throw (ErrMsg "unmarshal deploy tx")
                     | Some VMType_PLUGIN =>
                         origin ← Origin state;
                         ctx ← createDeployerWhitelistCtx state;
                         lift_res (isAllowedToDeployGo ctx origin)
                     | Some VMType_EVM =>
                         origin ← Origin state;
                         ctx ← createDeployerWhitelistCtx state;
                         lift_res (isAllowedToDeployEVM ctx origin)
                     | Some VMType_other => mret ()
                     end
                   else if tx_Id tx =? migrationId then
                     origin ← Origin state;
                     ctx ← createDeployerWhitelistCtx state;
                     lift_res (isAllowedToMigrate ctx origin)
                   else mret ());;
                  next state txBytes isCheckTx
              end
        end
    end.

Definition GetThrottleTxMiddleWare (deployEnabled callEnabled : Z → bool) (oracle : Address) :
    TxMiddleware (T := T) (E := E) :=
  λ state txBytes next isCheckTx,
  let blockHeight := ts_Height state in
  (if negb (deployEnabled blockHeight) || negb (callEnabled blockHeight) then
     origin ← Origin state;
     guard_not (address_IsEmpty origin) (ErrMsg "throttle: transaction has no origin");;
     match unmarshal_Transaction txBytes with
     | None => throw (ErrMsg "throttle: unmarshal tx")
     | Some tx =>
         guard_not ((tx_Id tx =? 1) && negb (deployEnabled blockHeight) &&
                    negb (address_compare origin oracle =? 0))
           (ErrMsg "throttle: deploy transactions not enabled");;
         guard_not ((tx_Id tx =? 2) && negb (callEnabled blockHeight) &&
                    negb (address_compare origin oracle =? 0))
           (ErrMsg "throttle: call transactions not enabled")
     end
   else mret ());;
  next state txBytes isCheckTx.

Definition GetGoDeployTxMiddleWare (allowedDeployers : list Address) : TxMiddleware (T := T) (E := E) :=
  λ state txBytes next isCheckTx,
  match unmarshal_Transaction txBytes with
  | None => throw (ErrMsg "unmarshal tx")
  | Some tx =>
      if negb (tx_Id tx =? deployId) then next state txBytes isCheckTx
      else
        match unmarshal_MessageTx (tx_Data tx) with
        | None => throw (ErrMsg "unmarshal message tx")
        | Some msg =>
            match unmarshal_DeployTx (msg_Data msg) with
            | None => throw (ErrMsg "unmarshal call tx")
            | Some VMType_PLUGIN =>
                origin ← Origin state;
                if existsb (λ allowed, address_compare origin allowed =? 0) allowedDeployers
                then next state txBytes isCheckTx
                else throw (ErrMsg "not authorized to deploy Go contract")
            | Some _ => next state txBytes isCheckTx
            end
        end
  end.
End Middleware.

(** ** Theorems *)

Lemma PackFlags_app l f : PackFlags (l ++ [f]) = Z.lor (PackFlags l) f.
Proof. unfold PackFlags. by rewrite foldl_app. Qed.

(** The flags unpacked from the first [n] bits. *)
Lemma unpack_bits x n :
  (n <= 32)%nat →
  PackFlags (foldl (λ allFlags i, let f := u32 (Z.shiftl 1 (Z.of_nat i)) in
     if negb (Z.land f x =? 0) then allFlags ++ [f] else allFlags) [] (seq 0 n)) =
  Z.land x (Z.ones (Z.of_nat n)).
Proof.
  induction n as [|n IH]; intros Hn; [by rewrite Z.land_0_r|].
  rewrite seq_S, foldl_app. cbn [foldl Nat.add]. cbv zeta in IH |- *.
  assert (Hbit : u32 (Z.shiftl 1 (Z.of_nat n)) = 2 ^ Z.of_nat n).
  { rewrite Z.shiftl_1_l. apply Z.mod_small. split; [lia|]. apply Z.pow_lt_mono_r; lia. }
  rewrite Hbit.
  assert (Hland : Z.land (2 ^ Z.of_nat n) x = if Z.testbit x (Z.of_nat n) then 2 ^ Z.of_nat n else 0).
  { apply Z.bits_inj'. intros i Hi. rewrite Z.land_spec, Z.pow2_bits_eqb by lia.
    destruct (Z.testbit x (Z.of_nat n)) eqn:Hb; rewrite ?Z.pow2_bits_eqb, ?Z.bits_0 by lia;
      destruct (Z.eqb_spec (Z.of_nat n) i) as [<-|]; rewrite ?Hb; done. }
  rewrite Hland. specialize (IH ltac:(lia)).
  assert (Hone : Z.land x (Z.ones (Z.of_nat (S n))) =
    Z.lor (Z.land x (Z.ones (Z.of_nat n))) (if Z.testbit x (Z.of_nat n) then 2 ^ Z.of_nat n else 0)).
  { apply Z.bits_inj'. intros i Hi. rewrite Z.lor_spec, !Z.land_spec, !Z.testbit_ones_nonneg by lia.
    destruct (Z.testbit x (Z.of_nat n)) eqn:Hb; rewrite ?Z.pow2_bits_eqb, ?Z.bits_0 by lia.
    - destruct (Z.eqb_spec (Z.of_nat n) i) as [<-|].
      + rewrite Hb, orb_true_r. cbn. apply Z.ltb_lt. lia.
      + rewrite orb_false_r. f_equal. destruct (Z.ltb_spec i (Z.of_nat n)), (Z.ltb_spec i (Z.of_nat (S n))); lia.
    - rewrite orb_false_r. destruct (decide (i = Z.of_nat n)) as [->|]; [by rewrite Hb|].
      f_equal. destruct (Z.ltb_spec i (Z.of_nat n)), (Z.ltb_spec i (Z.of_nat (S n))); lia. }
  rewrite Hone. destruct (Z.testbit x (Z.of_nat n)).
  - rewrite (proj2 (Z.eqb_neq _ _)) by lia. cbn [negb]. by rewrite PackFlags_app, IH.
  - rewrite Z.eqb_refl. cbn [negb]. by rewrite IH, Z.lor_0_r.
Qed.

(** Packing undoes unpacking: the single flags in a word of 32 bits make up
    the word. *)
Theorem pack_unpack_flags x : 0 <= x < 2 ^ 32 → PackFlags (UnpackFlags x) = x.
Proof.
  intros Hx. unfold UnpackFlags. rewrite unpack_bits by lia.
  rewrite Z.land_ones by lia. by apply Z.mod_small.
Qed.

Section Properties.
Context {LIB : DiademLib} {SPEC : DiademLibSpec} {RANGE : RangeOrder} {FLAGS : DeployFlags}.
Context {P : Type} {PERM : Permissions P} {PSPEC : PermissionsSpec P}.
Implicit Types s : DWStore P.

Inductive DWCall :=
  | CallAddDeployer (ctx : Ctx) (addr : option Address) (flags : Z)
  | CallRemoveDeployer (ctx : Ctx) (addr : option Address).

Definition call_ctx (c : DWCall) : Ctx :=
  match c with CallAddDeployer ctx _ _ => ctx | CallRemoveDeployer ctx _ => ctx end.
Definition run_dw_call (c : DWCall) : M (DWStore P) unit :=
  match c with
  | CallAddDeployer ctx addr flags => AddDeployer ctx addr flags
  | CallRemoveDeployer ctx addr => RemoveDeployer ctx addr
  end.

Lemma run_dw_call_perms p c : preserves (λ s, dw_perms s = p) (run_dw_call c).
Proof.
  destruct c; unfold run_dw_call, AddDeployer, RemoveDeployer, has_permission, has_deployer,
    put_deployer; pres.
Qed.

Lemma Init_owner owner deployers s0 s :
  Init (Some owner) deployers s0 = (Ok (), s) →
  dw_perms s = perm_grant owner modifyPerm ownerRole (dw_perms s0).
Proof.
  intros H. unfold Init in H. apply bind_inv in H as ([] & s1 & [= <-] & H).
  apply bind_inv in H as ([] & s2 & [= <-] & H).
  match type of H with forM ?l ?f ?st = _ =>
    assert (Hf : preserves (λ s, dw_perms s = perm_grant owner modifyPerm ownerRole (dw_perms s0))
      (forM l f)) by (unfold put_deployer; pres); pose proof (Hf st eq_refl) as Hp end.
  unfold wp in Hp. by rewrite H in Hp.
Qed.

(** Only the owner named at genesis changes the whitelist, after any calls:
    for anybody else the call fails and nothing changes.  The owner adds
    somebody new with exactly the flags asked for, and removes somebody who then
    has none. *)
Theorem only_owner_changes_whitelist owner deployers calls s c :
  wf_address owner → wf_address (ctx_sender (call_ctx c)) →
  (Init (Some owner) deployers;; forM calls (λ c, ignore_err (run_dw_call c)))
    (mkDWStore ∅ perm_none) = (Ok (), s) →
  if decide (ctx_sender (call_ctx c) = owner) then
    match c with
    | CallAddDeployer ctx (Some a) flags =>
        0 < flags → dw_deployers s !! deployerKey a = None →
        ∃ s', run_dw_call c s = (Ok (), s') ∧ GetDeployer s' a = mkDeployer a flags
    | CallRemoveDeployer ctx (Some a) =>
        is_Some (dw_deployers s !! deployerKey a) →
        ∃ s', run_dw_call c s = (Ok (), s') ∧ GetDeployer s' a = mkDeployer a 0
    | _ => ∃ e, run_dw_call c s = (Err e, s)
    end
  else ∃ e, run_dw_call c s = (Err e, s).
Proof.
  intros Hwo Hws H. apply bind_inv in H as ([] & s1 & Hinit%Init_owner & H).
  assert (Hp : dw_perms s = perm_grant owner modifyPerm ownerRole perm_none).
  { assert (Hk : preserves (λ s, dw_perms s = perm_grant owner modifyPerm ownerRole perm_none)
      (forM calls (λ c, ignore_err (run_dw_call c)))).
    { pose proof (run_dw_call_perms (perm_grant owner modifyPerm ownerRole perm_none)). pres. }
    pose proof (Hk s1 Hinit) as Hq. unfold wp in Hq. by rewrite H in Hq. }
  assert (Hhas : ∀ c', ctx_sender c' = ctx_sender (call_ctx c) →
    perm_has (dw_perms s) (ctx_sender c') modifyPerm [ownerRole] =
      bool_decide (ctx_sender (call_ctx c) = owner)).
  { intros c' ->. rewrite Hp, perm_has_grant, perm_has_none by done.
    destruct (decide (ctx_sender (call_ctx c) = owner)) as [->|Hne].
    - rewrite decide_True by done. by rewrite bool_decide_eq_true_2.
    - rewrite decide_False by naive_solver. by rewrite bool_decide_eq_false_2. }
  destruct c as [ctx [a|] flags|ctx [a|]]; cbn [call_ctx run_dw_call] in *;
    unfold AddDeployer, RemoveDeployer, has_permission, has_deployer, put_deployer; m_eval;
    rewrite ?(Hhas ctx eq_refl); destruct (decide (ctx_sender ctx = owner)) as [Hd|Hd];
    rewrite ?bool_decide_eq_true_2, ?bool_decide_eq_false_2 by done; cbn [negb]; eauto.
  - intros Hf Hnone. rewrite (proj2 (Z.leb_gt _ _)) by lia. rewrite Hnone. cbn.
    eexists. split; [reflexivity|]. unfold GetDeployer. cbn. by rewrite lookup_insert_eq.
  - intros Hsome. rewrite bool_decide_eq_true_2 by done. cbn [negb].
    eexists. split; [reflexivity|]. unfold GetDeployer. cbn. by rewrite lookup_delete_eq.
Qed.
End Properties.

Section Guard.
Context {LIB : DiademLib} {TXL : TxLib} {VML : VmLib} {FLAGS : DeployFlags}.
Context {P T E : Type} {KV : KVStore T}.
Abbreviation W := (TxWorld T E).

(** The flag that a transaction needs, if any. *)
Definition required_flag (tx : Transaction) (msg : MessageTx) : option Z :=
  if tx_Id tx =? deployId then
    match unmarshal_DeployTx (msg_Data msg) with
    | Some VMType_PLUGIN => Some AllowGoDeployFlag
    | Some VMType_EVM => Some AllowEVMDeployFlag
    | _ => None
    end
  else if tx_Id tx =? migrationId then Some AllowMigrationFlag else None.

(** With the whitelist switched on, a deployment or migration reaches the
    next handler exactly when the list gives its origin the flag it needs;
    otherwise it is refused and nothing changes.  Other transactions pass, and
    so does everything when the whitelist is off. *)
Theorem whitelist_guards_deployment create st txBytes (next : TxHandler (T := T) (E := E)) c (w : W)
    ntx tx msg origin (whitelist : DWStore P) :
  unmarshal_NonceTx txBytes = Some ntx → unmarshal_Transaction (nx_Inner ntx) = Some tx →
  unmarshal_MessageTx (tx_Data tx) = Some msg →
  (tx_Id tx = deployId → is_Some (unmarshal_DeployTx (msg_Data msg))) →
  ts_origin st = Some origin → create st w = (Ok whitelist, w) →
  NewDeployerWhitelistMiddleware create st txBytes next c w =
    if FeatureEnabled (tw_store w) DeployerWhitelistFeature false then
      match required_flag tx msg with
      | None => next st txBytes c w
      | Some flag =>
          if IsFlagSet (u32 (dp_Flags (GetDeployer whitelist origin))) (u32 flag)
          then next st txBytes c w else (Err ErrDeployNotAuthorized, w)
      end
    else next st txBytes c w.
Proof.
  intros Hn Ht Hm Hd Ho Hc. unfold NewDeployerWhitelistMiddleware, Origin, required_flag. m_eval.
  destruct (FeatureEnabled _ _ _); [|done]. cbn [negb]. rewrite Hn, Ht, Ho.
  assert (Hrun : ∀ flag, (let (r, w') := let (r, w') := create st w in
      match r with Ok a => (isAllowed flag a origin, w') | Err e => (Err e, w') | Panic => (Panic, w') end in
      match r with Ok _ => next st txBytes c w' | Err e => (Err e, w') | Panic => (Panic, w') end) =
    if IsFlagSet (u32 (dp_Flags (GetDeployer whitelist origin))) (u32 flag)
    then next st txBytes c w else (Err ErrDeployNotAuthorized, w)).
  { intros flag. rewrite Hc. unfold isAllowed. cbv zeta. by destruct (IsFlagSet _ _). }
  destruct (Z.eqb_spec (tx_Id tx) deployId) as [Hid|Hid]; cbn [negb andb].
  - rewrite Hm. destruct (Hd Hid) as [[] ->]; [apply Hrun|apply Hrun|done].
  - destruct (Z.eqb_spec (tx_Id tx) migrationId); cbn [negb]; [|done]. rewrite Hm. apply Hrun.
Qed.
End Guard.

(** ** Witnesses *)

Module WhitelistWitness.
Import SimpleLib.
#[local] Instance mem : KVStore MemStore := mem_kvstore (λ k p, Some k).
#[local] Instance flags : DeployFlags :=
  {| AllowEVMDeployFlag := 1; AllowGoDeployFlag := 2; AllowMigrationFlag := 4 |}.
#[local] Instance txlib : TxLib := {
  unmarshal_SignedTx b := None; unmarshal_NonceTx b := Some (mkNonceTx b 1);
  unmarshal_Transaction b := Some (mkTransaction 1 b);
  ed25519_Verify pk msg sig := false; address_IsEmpty a := false }.
#[local] Instance vmlib : VmLib :=
  {| unmarshal_MessageTx b := Some (mkMessageTx None None b); unmarshal_DeployTx b := Some VMType_EVM |}.

Abbreviation Whitelist := (DWStore (gset (Address * bytes * string))).
Definition genesis : Whitelist := (Init (Some (sample "o")) [] (mkDWStore ∅ perm_none)).2.

Lemma flags_witness : PackFlags (UnpackFlags 13) = 13.
Proof. apply (pack_unpack_flags 13). lia. Defined.

Lemma owner_witness :
  ∃ e, run_dw_call (CallAddDeployer (sample_ctx (sample "r") 0) (Some (sample "r")) 7) genesis
       = (Err e, genesis).
Proof.
  pose proof (only_owner_changes_whitelist (sample "o") [] [] genesis
    (CallAddDeployer (sample_ctx (sample "r") 0) (Some (sample "r")) 7)) as H.
  rewrite decide_False in H by discriminate. apply H.
  - by split.
  - by split.
  - rewrite (bind_ok (Init (Some (sample "o")) []) _ _ () genesis);
      [reflexivity|unfold genesis; apply run_ok; reflexivity].
Defined.

(** With the feature on, a stranger deploys nothing. *)
Definition world : TxWorld MemStore unit :=
  mkTxWorld (SetFeature DeployerWhitelistFeature true NewMemStore) (mkNonceHandler ∅ 0) ().

Lemma guard_witness :
  NewDeployerWhitelistMiddleware (λ _, mret genesis) (mkTxState "diadem" 1 (Some (sample "r"))) "code"
    NoopTxHandler false world = (Err ErrDeployNotAuthorized, world).
Proof.
  rewrite (whitelist_guards_deployment (λ _, mret genesis) (mkTxState "diadem" 1 (Some (sample "r")))
    "code" NoopTxHandler false world (mkNonceTx "code" 1) (mkTransaction 1 "code") (mkMessageTx None None "code")
    (sample "r") genesis); [|reflexivity|reflexivity|reflexivity|intros _; by eexists|reflexivity|reflexivity].
  assert (Hon : FeatureEnabled (tw_store world) DeployerWhitelistFeature false = true) by (by vm_compute).
  assert (Hno : IsFlagSet (u32 (dp_Flags (GetDeployer genesis (sample "r")))) (u32 1) = false)
    by (by vm_compute).
  assert (Hf : required_flag (mkTransaction 1 "code") (mkMessageTx None None "code") = Some 1) by reflexivity.
  rewrite Hon, Hf, Hno. reflexivity.
Defined.
End WhitelistWitness.
