(* ===== verification/EthCoin.v ===== *)
(** * The ethcoin contract (src/builtin/plugins/ethcoin/eth_coin.go)

    Ether on this chain, minted by the transfer gateway only.  The contract has
    the record types of the coin contract and its own copy of the token methods;
    [transfer_as_coin] and its companions show that the copies behave alike, so
    the ledger of the file [Coin] is the ledger here.  [AddBalance],
    [SubBalance], [SetBalance] and [transfer] are the interface of the EVM
    (src/plugin/account_balance_manager.go). *)

From S2P Require Import Prelude Contract Coin.

Section Ops.
Context {LIB : DiademLib}.

Definition accountKey (addr : Address) : bytes :=
  prefix_key ["account"; address_bytes addr].

Definition allowanceKey (owner spender : Address) : bytes :=
  prefix_key ["allowance"; address_bytes owner; address_bytes spender].

Definition loadAccount (s : CoinStore) (owner : Address) : Account :=
  default (mkAccount owner 0) (cs_accounts s !! accountKey owner).

Definition saveAccount (acct : Account) : M CoinStore unit :=
  modify (set_account (accountKey (acct_Owner acct)) acct).

Definition loadAllowance (s : CoinStore) (owner spender : Address) : Allowance :=
  default (mkAllowance owner spender (Some 0))
    (cs_allowances s !! allowanceKey owner spender).

Definition saveAllowance (allow : Allowance) : M CoinStore unit :=
  modify (set_allowance (allowanceKey (al_Owner allow) (al_Spender allow)) allow).

Definition Init : M CoinStore unit := mret ().

Definition Mint (to : Address) (amount : Z) : M CoinStore unit :=
  account ← gets (λ s, loadAccount s to);
  econ ← gets (λ s, default (mkEconomy 0) (cs_economy s));
  let bal := acct_Balance account + amount in
  let supply := TotalSupply econ + amount in
  saveAccount (mkAccount (acct_Owner account) bal);;
  modify (set_economy (mkEconomy supply)).

Definition MintToGateway (ctx : Ctx) (amount : option Z) : M CoinStore unit :=
  gatewayAddr ←
    match ctx_registry ctx !! "gateway" with
    | Some a => mret a
    | None => throw (ErrMsg "failed to mint ETH")
    end;
  guard_not (negb (address_compare (ctx_sender ctx) gatewayAddr =? 0))
    (ErrMsg "not authorized to mint ETH");;
  amount ← deref amount;
  Mint gatewayAddr amount.

Definition TotalSupplyOf (s : CoinStore) : Res Z :=
  match cs_economy s with
  | Some econ => Ok (TotalSupply econ)
  | None => Err ErrNotFound
  end.

(** The exported function, then the method. *)
Definition balanceOf (s : CoinStore) (owner : Address) : Z := acct_Balance (loadAccount s owner).

Definition BalanceOf (s : CoinStore) (owner : option Address) : Res Z :=
  match owner with
  | Some owner => Ok (balanceOf s owner)
  | None => Panic
  end.

Definition AddBalance (addr : Address) (amount : Z) : M CoinStore unit :=
  account ← gets (λ s, loadAccount s addr);
  saveAccount (mkAccount (acct_Owner account) (acct_Balance account + amount)).

Definition SubBalance (addr : Address) (amount : Z) : M CoinStore unit :=
  account ← gets (λ s, loadAccount s addr);
  saveAccount (mkAccount (acct_Owner account) (acct_Balance account - amount)).

Definition SetBalance (addr : Address) (amount : Z) : M CoinStore unit :=
  account ← gets (λ s, loadAccount s addr);
  saveAccount (mkAccount (acct_Owner account) amount).

(** The exported function [Transfer]. *)
Definition transfer (from to : Address) (amount : Z) : M CoinStore unit :=
  fromAccount ← gets (λ s, loadAccount s from);
  toAccount ← gets (λ s, loadAccount s to);
  let fromBalance := acct_Balance fromAccount in
  let toBalance := acct_Balance toAccount in
  guard_not (fromBalance <? amount) (ErrMsg "sender balance is too low");;
  saveAccount (mkAccount (acct_Owner fromAccount) (fromBalance - amount));;
  saveAccount (mkAccount (acct_Owner toAccount) (toBalance + amount)).

Definition Transfer (ctx : Ctx) (req : TransferRequest) : M CoinStore unit :=
  let from := ctx_sender ctx in
  to ← UnmarshalAddressPB (tr_To req);
  amount ← deref (tr_Amount req);
  transfer from to amount.

Definition Approve (ctx : Ctx) (req : ApproveRequest) : M CoinStore unit :=
  let owner := ctx_sender ctx in
  spender ← UnmarshalAddressPB (ap_Spender req);
  allow ← gets (λ s, loadAllowance s owner spender);
  saveAllowance (mkAllowance (al_Owner allow) (al_Spender allow) (ap_Amount req)).

Definition AllowanceOf (s : CoinStore) (owner spender : option Address) : Res (option Z) :=
  match owner, spender with
  | Some owner, Some spender => Ok (al_Amount (loadAllowance s owner spender))
  | _, _ => Panic
  end.

Definition TransferFrom (ctx : Ctx) (req : TransferFromRequest) : M CoinStore unit :=
  let spender := ctx_sender ctx in
  from ← UnmarshalAddressPB (tf_From req);
  to ← UnmarshalAddressPB (tf_To req);
  fromAccount ← gets (λ s, loadAccount s from);
  toAccount ← gets (λ s, loadAccount s to);
  allow ← gets (λ s, loadAllowance s from spender);
  allowAmount ← deref (al_Amount allow);
  amount ← deref (tf_Amount req);
  let fromBalance := acct_Balance fromAccount in
  let toBalance := acct_Balance toAccount in
  guard_not (allowAmount <? amount) (ErrMsg "amount is over spender's limit");;
  guard_not (fromBalance <? amount) (ErrMsg "sender balance is too low");;
  saveAccount (mkAccount (acct_Owner fromAccount) (fromBalance - amount));;
  saveAccount (mkAccount (acct_Owner toAccount) (toBalance + amount));;
  saveAllowance (mkAllowance (al_Owner allow) (al_Spender allow) (Some (allowAmount - amount))).
End Ops.

(** ** The copies behave like the coin contract *)

Section AsCoin.
Context {LIB : DiademLib} {SPEC : DiademLibSpec}.
Implicit Types s : CoinStore.

Lemma transfer_as_coin ctx to amount s :
  Transfer ctx (mkTransferRequest (Some to) (Some amount)) s =
  Coin.Transfer ctx (mkTransferRequest (Some to) (Some amount)) s.
Proof. done. Qed.

Lemma approve_as_coin ctx req s : Approve ctx req s = Coin.Approve ctx req s.
Proof. by destruct req as [[]]. Qed.

Lemma transferFrom_as_coin ctx req s : TransferFrom ctx req s = Coin.TransferFrom ctx req s.
Proof. by destruct req as [[] []]. Qed.

Lemma Mint_as_coin to amount s : Mint to amount s = Coin.mint to amount s.
Proof. done. Qed.

Lemma balanceOf_as_coin s a : balanceOf s a = balance s a.
Proof. done. Qed.

Lemma ethAccount_eq s a :
  coin_wf s → wf_address a → loadAccount s a = mkAccount a (balance s a).
Proof. exact (loadAccount_eq s a). Qed.

Lemma MintToGateway_eq ctx amount s :
  MintToGateway ctx amount s =
    match ctx_registry ctx !! "gateway" with
    | None => (Err (ErrMsg "failed to mint ETH"), s)
    | Some gw =>
        if decide (ctx_sender ctx = gw) then
          match amount with Some x => Coin.mint gw x s | None => (Panic, s) end
        else (Err (ErrMsg "not authorized to mint ETH"), s)
    end.
Proof.
  unfold MintToGateway. destruct (_ !! _) as [gw|]; [|done]. run_m.
  case_decide as Hgw.
  - subst. rewrite (cmp_refl address_compare). by destruct amount.
  - by rewrite (proj2 (cmp_eqb_false address_compare _ _) Hgw).
Qed.

(** ** Reachable ledgers: the methods and the transfers of the EVM *)

Inductive EthCall :=
  | EthMint (ctx : Ctx) (amount : Z)
  | EthTransfer (ctx : Ctx) (to : Address) (amount : Z)
  | EthApprove (ctx : Ctx) (spender : Address) (amount : Z)
  | EthTransferFrom (ctx : Ctx) (from to : Address) (amount : Z)
  | EvmTransfer (from to : Address) (amount : Z).

Definition run_eth (c : EthCall) : M CoinStore unit :=
  match c with
  | EthMint ctx x => MintToGateway ctx (Some x)
  | EthTransfer ctx to x => Transfer ctx (mkTransferRequest (Some to) (Some x))
  | EthApprove ctx sp x => Approve ctx (mkApproveRequest (Some sp) (Some x))
  | EthTransferFrom ctx f t x => TransferFrom ctx (mkTransferFromRequest (Some f) (Some t) (Some x))
  | EvmTransfer f t x => transfer f t x
  end.

(** The same call of the coin contract, apart from minting. *)
Definition coin_call (c : EthCall) : option (Ctx * CoinCall) :=
  match c with
  | EthMint _ _ => None
  | EthTransfer ctx to x => Some (ctx, CallTransfer to x)
  | EthApprove ctx sp x => Some (ctx, CallApprove sp x)
  | EthTransferFrom ctx f t x => Some (ctx, CallTransferFrom f t x)
  | EvmTransfer f t x => Some (mkCtx f 0 f "" 0 ∅, CallTransfer t x)
  end.

Definition eth_call_ok (c : EthCall) : Prop :=
  match c with
  | EthMint ctx x => wf_address (ctx_sender ctx) ∧ 0 <= x
  | _ => ∀ ctx c', coin_call c = Some (ctx, c') → call_ok ctx c'
  end.

Lemma run_eth_as_coin c ctx c' s :
  coin_call c = Some (ctx, c') → run_eth c s = run_call ctx c' s.
Proof. by destruct c; intros [= <- <-]. Qed.

Inductive eth_reachable : CoinStore → Prop :=
  | eth_init s : Init empty_coin_store = (Ok (), s) → eth_reachable s
  | eth_call s c : eth_reachable s → eth_call_ok c → eth_reachable (run_eth c s).2.

(** What each call does to the recorded supply. *)
Definition minted (c : EthCall) : Z :=
  match c with
  | EthMint ctx x => if decide (ctx_registry ctx !! "gateway" = Some (ctx_sender ctx)) then x else 0
  | _ => 0
  end.

Lemma run_eth_wf c s :
  coin_wf s → eth_call_ok c → coin_wf (run_eth c s).2 ∧ supply (run_eth c s).2 = supply s + minted c.
Proof.
  intros Hwf Hok. destruct (coin_call c) as [[ctx c']|] eqn:Hc.
  - assert (Hcall : call_ok ctx c') by (destruct c; [done|by apply Hok..]).
    rewrite (run_eth_as_coin c ctx c' s Hc). split; [by apply run_call_wf|].
    destruct c; try done; cbn in Hc; injection Hc as <- <-; destruct Hcall as [Hs Hcall];
      cbn [run_call minted ctx_sender] in *; destruct_and?; rewrite ?Z.add_0_r, ?Transfer_eq, ?Approve_eq by done;
      cbn [ctx_sender]; try done.
    + by case_match.
    + destruct (al_Amount (Coin.loadAllowance s from (ctx_sender ctx0))) as [al|] eqn:Hal.
      * rewrite (TransferFrom_eq _ _ _ _ _ al) by done. by repeat case_match.
      * by rewrite TransferFrom_nil.
    + by case_match.
  - destruct c as [ctx x| | | |]; try done. cbn. rewrite MintToGateway_eq.
    destruct Hok as [Hs Hx]. destruct (ctx_registry ctx !! "gateway") as [gw|] eqn:Hg.
    + case_decide as Hgw.
      * subst. rewrite decide_True by done. rewrite mint_eq by done. split; [|done].
        apply coin_wf_resupply; [done|done|]. pose proof (balance_nonneg s (ctx_sender ctx) Hwf). lia.
      * rewrite decide_False by congruence. cbn. rewrite Z.add_0_r. done.
    + rewrite decide_False by done. cbn. rewrite Z.add_0_r. done.
Qed.

Lemma eth_reachable_wf s : eth_reachable s → coin_wf s.
Proof.
  induction 1 as [s H|s c _ IH Hok]; [|by apply run_eth_wf].
  injection H as <-. apply coin_wf_empty.
Qed.

(** ** Theorems *)

(** The ledger of ether is sound: the supply starts at zero and is always the
    sum of the balances, and a call changes it only when it is a mint by the
    registered gateway, by exactly the minted amount ([minted]). *)
Theorem ether_is_minted_by_the_gateway_only s c :
  eth_reachable s → eth_call_ok c →
  supply s = map_sumZ acct_Balance (cs_accounts s) ∧
  (∀ a, 0 <= balanceOf s a <= supply s) ∧
  supply (run_eth c s).2 = supply s + minted c.
Proof.
  intros Hwf%eth_reachable_wf Hok. split_and!.
  - apply Hwf.
  - intros a. split; [by apply balance_nonneg|by apply balance_le_supply].
  - by apply run_eth_wf.
Qed.

(** The EVM moves ether by subtracting and adding: the two together move the
    amount, while one of them alone changes the sum of the balances but not the
    recorded supply. *)
Lemma evm_balance_moves s a b x :
  coin_wf s → wf_address a → wf_address b → a ≠ b → 0 <= x <= balance s a →
  let s' := (AddBalance b x (SubBalance a x s).2).2 in
  s' = put_balance b (balance s b + x) (put_balance a (balance s a - x) s) ∧ coin_wf s'.
Proof.
  intros Hwf Ha Hb Hne Hx.
  assert (E : (AddBalance b x (SubBalance a x s).2).2 =
    put_balance b (balance s b + x) (put_balance a (balance s a - x) s)).
  { unfold AddBalance, SubBalance. run_m. rewrite (ethAccount_eq s a) by done.
    change (set_account _ _ s) with (put_balance a (balance s a - x) s).
    assert (Hl : loadAccount (put_balance a (balance s a - x) s) b = mkAccount b (balance s b)).
    { unfold loadAccount. cbn. rewrite lookup_insert_ne.
      - exact (loadAccount_eq s b Hwf Hb).
      - by intros Hk%accountKey_inj. }
    by rewrite Hl. }
  cbv zeta. rewrite E. split; [done|]. by apply coin_wf_move.
Qed.

Lemma add_balance_unbacked s a x :
  coin_wf s → wf_address a → 0 < x →
  supply (AddBalance a x s).2 < map_sumZ acct_Balance (cs_accounts (AddBalance a x s).2).
Proof.
  intros Hwf Ha Hx. unfold AddBalance. run_m. rewrite (ethAccount_eq s a) by done.
  change (supply s < map_sumZ acct_Balance (cs_accounts (put_balance a (balance s a + x) s))).
  rewrite sum_put, (wf_supply _ Hwf). lia.
Qed.
End AsCoin.

(** ** Witness *)

Module EthWitness.
Import SimpleLib.

Definition ctx (a : Address) : Ctx := mkCtx a 0 (sample "E") "diadem" 1 {[ "gateway" := sample "G" ]}.
Definition minted1 : CoinStore := (run_eth (EthMint (ctx (sample "G")) 100) empty_coin_store).2.

Lemma minted1_reachable : eth_reachable minted1.
Proof. apply eth_call; [by apply eth_init|]. by repeat split. Qed.

Lemma ether_witness :
  supply minted1 = map_sumZ acct_Balance (cs_accounts minted1) ∧
  supply (run_eth (EthTransfer (ctx (sample "G")) (sample "a") 40) minted1).2 = 100.
Proof.
  destruct (ether_is_minted_by_the_gateway_only minted1
    (EthTransfer (ctx (sample "G")) (sample "a") 40)) as (H1 & _ & H3).
  - apply minted1_reachable.
  - intros c c' [= <- <-]. repeat split; done.
  - split; [exact H1|]. rewrite H3. reflexivity.
Defined.
End EthWitness.
