(* ===== verification/EvmTokens.v ===== *)
(** * Token contracts of the EVM

    The helpers through which the gateway calls ERC20, ERC721 and ERC721X contracts
    (src/builtin/plugins/gateway/erc20_context.go, erc721_context.go and
    erc721x_context.go): the arguments are packed by the ABI of the token, the EVM
    is called, and the output of a view is unpacked.  The ABI codec and the EVM are
    the class [EvmTokens]. *)

From S2P Require Import Prelude Contract AddressMapper.

(** The ABI texts of the three files. *)
Inductive TokenABI := erc20ABI | erc721ABI | erc721xABI.

Inductive AbiArg := AbiAddress (b : bytes) | AbiUint256 (x : Z) | AbiBytes (b : bytes).

Class EvmTokens (E : Type) := {
  abi_pack : TokenABI → string → list AbiArg → Res bytes;
  abi_unpack_uint256 : TokenABI → string → bytes → Res Z;
  abi_unpack_bool : TokenABI → string → bytes → Res bool;
  abi_unpack_address : TokenABI → string → bytes → Res bytes;
  (** [contract.StaticCallEVM] and [contract.CallEVM]: the calling contract, the
      contract called and the packed input. *)
  StaticCallEVM : Address → Address → bytes → E → Res bytes;
  CallEVM : Address → Address → bytes → M E bytes;
}.

Section Contexts.
Context {EVM : EvmLib} {E : Type} {TOKENS : EvmTokens E}.
Implicit Types (token caller from to owner spender : Address) (tokenID amount : Z) (evm : E).

(** The bodies that the three contexts share. *)
Definition static_call {A} (unpack : TokenABI → string → bytes → Res A) (abi : TokenABI)
    token caller (method : string) (params : list AbiArg) evm : Res A :=
  input ← abi_pack abi method params;
  output ← StaticCallEVM caller token input evm;
  unpack abi method output.

Definition call (abi : TokenABI) token caller (method : string) (params : list AbiArg) : M E bytes :=
  input ← lift_res (abi_pack abi method params);
  CallEVM caller token input.

Definition abi_address (a : Address) : AbiArg := AbiAddress (eth_address (Local a)).

(** ** ERC20 *)

Definition evm20_staticCallEVM token caller method params evm : Res Z :=
  static_call abi_unpack_uint256 erc20ABI token caller method params evm.
Definition evm20_callEVM token caller method params : M E bytes :=
  call erc20ABI token caller method params.

Definition evm20_balanceOf token caller owner evm : Res Z :=
  evm20_staticCallEVM token caller "balanceOf" [abi_address owner] evm.
Definition evm20_transferFrom token caller from to amount : M E unit :=
  _ ← evm20_callEVM token caller "transferFrom" [abi_address from; abi_address to; AbiUint256 amount];
  mret ().
Definition evm20_transfer token caller to amount : M E unit :=
  _ ← evm20_callEVM token caller "transfer" [abi_address to; AbiUint256 amount];
  mret ().
Definition evm20_mintToGateway token caller amount : M E unit :=
  _ ← evm20_callEVM token caller "mintToGateway" [AbiUint256 amount];
  mret ().

(** ** ERC721 *)

Definition evm721_staticCallEVM {A} (unpack : TokenABI → string → bytes → Res A)
    token caller method params evm : Res A :=
  static_call unpack erc721ABI token caller method params evm.
Definition evm721_callEVM token caller method params : M E bytes :=
  call erc721ABI token caller method params.

(** The result variable is returned in the statement that has it filled in; this
    is its value after the call. *)
Definition evm721_exists token caller tokenID evm : Res bool :=
  evm721_staticCallEVM abi_unpack_bool token caller "exists" [AbiUint256 tokenID] evm.
Definition evm721_ownerOf (chainID : string) token caller tokenID evm : Res Address :=
  result ← evm721_staticCallEVM abi_unpack_address token caller "ownerOf" [AbiUint256 tokenID] evm;
  Ok (mkAddress chainID result).
Definition evm721_mintToGateway token caller tokenID : M E unit :=
  _ ← evm721_callEVM token caller "mintToGateway" [AbiUint256 tokenID];
  mret ().
Definition evm721_safeTransferFrom token caller from to tokenID : M E unit :=
  _ ← evm721_callEVM token caller "safeTransferFrom"
        [abi_address from; abi_address to; AbiUint256 tokenID; AbiBytes ""];
  mret ().
Definition evm721_approve token caller spender tokenID : M E unit :=
  _ ← evm721_callEVM token caller "approve" [abi_address spender; AbiUint256 tokenID];
  mret ().

(** ** ERC721X *)

Definition evm721x_staticCallEVM token caller method params evm : Res Z :=
  static_call abi_unpack_uint256 erc721xABI token caller method params evm.
Definition evm721x_callEVM token caller method params : M E bytes :=
  call erc721xABI token caller method params.

Definition evm721x_balanceOf token caller owner tokenID evm : Res Z :=
  evm721x_staticCallEVM token caller "balanceOf" [abi_address owner; AbiUint256 tokenID] evm.
Definition evm721x_mintToGateway token caller tokenID amount : M E unit :=
  _ ← evm721x_callEVM token caller "mintToGateway" [AbiUint256 tokenID; AbiUint256 amount];
  mret ().
Definition evm721x_safeTransferFrom token caller from to tokenID amount : M E unit :=
  _ ← evm721x_callEVM token caller "safeTransferFrom"
        [abi_address from; abi_address to; AbiUint256 tokenID; AbiUint256 amount; AbiBytes ""];
  mret ().
End Contexts.
