(* ===== verification/Gateway.v ===== *)
(** * The transfer gateway (src/builtin/plugins/gateway)

    The gateway moves tokens between this chain and Ethereum.  Oracles report
    deposits and withdrawals on Ethereum in batches ([ProcessEventBatch]); a
    deposit is credited to the linked account or kept as an unclaimed token; a
    withdrawal is prepared here ([WithdrawToken], [WithdrawETH],
    [WithdrawDiademCoin]) as a receipt that an oracle signs and that is settled
    by the report that it was used.

    gateway.go, gateway_contract_mapping.go, coin_context.go, eth_context.go and
    unsafe_gateway.go are modelled in full.  [GStore] has a field per family of
    store keys; the unclaimed tokens, which the code also ranges over by owner
    and by contract, are maps of maps.  [GWorld] adds the coin and the ethcoin
    contract, which the gateway calls as [Coin] and [EthCoin] model them, the
    token contracts of the EVM (class [EvmTokens]) and the emitted events.
    A record of several fields that are absent on the wire is an [option] field;
    an empty byte string is an absent one.

    [Gateway.diademCoinTG], which tells the two instances of the contract apart,
    is the argument of that name. *)

From S2P Require Import Prelude Contract Coin EthCoin AddressMapper Store Middleware EvmTokens.

(** [tgtypes.TransferGatewayTokenKind]; an integer on the wire. *)
Inductive TokenKind :=
  | TokenKind_ERC721X
  | TokenKind_ERC721
  | TokenKind_ERC20
  | TokenKind_ETH
  | TokenKind_DiademCoin
  | TokenKind_Other (n : Z).

#[global] Instance TokenKind_eq_dec : EqDecision TokenKind.
Proof. solve_decision. Defined.

Definition kind_eqb (k k' : TokenKind) : bool := bool_decide (k = k').

Record WithdrawalReceipt := mkReceipt {
  wr_TokenOwner : Address;
  wr_TokenContract : Address;
  wr_TokenKind : TokenKind;
  wr_TokenID : option Z;
  wr_TokenAmount : option Z;
  wr_WithdrawalNonce : Z;
  wr_OracleSignature : option bytes;
}.

Definition wr_sign (sig : bytes) (r : WithdrawalReceipt) : WithdrawalReceipt :=
  mkReceipt (wr_TokenOwner r) (wr_TokenContract r) (wr_TokenKind r) (wr_TokenID r)
    (wr_TokenAmount r) (wr_WithdrawalNonce r) (Some sig).

Record LocalAccount := mkLocalAccount {
  la_Owner : Address; la_WithdrawalReceipt : option WithdrawalReceipt }.

Record ForeignAccount := mkForeignAccount {
  fa_Owner : Address; fa_WithdrawalNonce : Z; fa_CurrentWithdrawer : option Address }.

Record GatewayState := mkGatewayState {
  gs_Owner : option Address;
  gs_NextContractMappingID : Z;
  gs_LastMainnetBlockNum : Z;
  gs_TokenWithdrawers : list Address;
}.

Record TokenAmount := mkTokenAmount { ta_TokenID : option Z; ta_TokenAmount : option Z }.

Record UnclaimedToken := mkUnclaimedToken {
  ut_TokenContract : option Address;
  ut_TokenKind : TokenKind;
  ut_Amounts : list TokenAmount;
}.

Definition ut_with_Amounts (l : list TokenAmount) (u : UnclaimedToken) : UnclaimedToken :=
  mkUnclaimedToken (ut_TokenContract u) (ut_TokenKind u) l.

Record PendingContractMapping := mkPendingMapping {
  pcm_ID : Z;
  pcm_ForeignContract : Address;
  pcm_LocalContract : Address;
  pcm_ForeignContractCreator : Address;
  pcm_ForeignContractTxHash : bytes;
}.

Record ContractAddressMapping := mkContractMapping { cam_From : Address; cam_To : Address }.

(** ** Requests and events of the main chain *)

Record MainnetTokenDeposited := mkMainnetDeposit {
  md_TokenOwner : option Address;
  md_TokenContract : option Address;
  md_TokenKind : TokenKind;
  md_TokenID : option Z;
  md_TokenAmount : option Z;
  md_TxHash : bytes;
}.

Record MainnetTokenWithdrawn := mkMainnetWithdrawal {
  mw_TokenOwner : option Address;
  mw_TokenContract : option Address;
  mw_TokenKind : TokenKind;
  mw_TokenID : option Z;
  mw_TokenAmount : option Z;
  mw_TxHash : bytes;
}.

Inductive Payload :=
  | Payload_Deposit (d : MainnetTokenDeposited)
  | Payload_Withdrawal (w : MainnetTokenWithdrawn)
  | Payload_None.

Record MainnetEvent := mkMainnetEvent { ev_EthBlock : Z; ev_Payload : Payload }.

Record WithdrawTokenRequest := mkWithdrawToken {
  wt_TokenContract : option Address;
  wt_TokenKind : TokenKind;
  wt_TokenID : option Z;
  wt_TokenAmount : option Z;
  wt_Recipient : option Address;
}.

Record WithdrawETHRequest := mkWithdrawETH {
  we_Amount : option Z; we_MainnetGateway : option Address; we_Recipient : option Address }.

Record WithdrawDiademCoinRequest := mkWithdrawCoin {
  wc_Amount : option Z; wc_TokenContract : option Address; wc_Recipient : option Address }.

Record ConfirmWithdrawalReceiptRequest := mkConfirmReceipt {
  cr_TokenOwner : option Address; cr_OracleSignature : option bytes }.

Record GatewayInitRequest := mkGatewayInit {
  gi_Owner : option Address; gi_Oracles : list (option Address); gi_FirstMainnetBlockNum : Z }.

Record AddContractMappingRequest := mkAddMapping {
  ac_ForeignContract : option Address;
  ac_LocalContract : option Address;
  ac_ForeignContractCreatorSig : option bytes;
  ac_ForeignContractTxHash : option bytes;
}.

Record VerifiedContractCreator := mkVerifiedCreator {
  vc_ContractMappingID : Z; vc_Creator : option Address; vc_Contract : option Address }.

(** Emitted events, by topic. *)
Inductive GEvent :=
  | TokenWithdrawalSigned (tokenOwner tokenContract : Address) (kind : TokenKind)
      (tokenID tokenAmount : option Z) (sig : option bytes)
  | ContractMappingConfirmed (foreignContract localContract : Address)
  | WithdrawETHTopic (receipt : WithdrawalReceipt)
  | WithdrawDiademCoinTopic (receipt : WithdrawalReceipt)
  | WithdrawTokenTopic (receipt : WithdrawalReceipt)
  | MainnetDepositEvent (d : MainnetTokenDeposited)
  | MainnetWithdrawalEvent (w : MainnetTokenWithdrawn)
  | MainnetProcessEventError (ev : MainnetEvent) (e : error)
  | ReclaimError (owner : Address) (e : error)
  | WithdrawETHError (req : WithdrawETHRequest) (e : error)
  | WithdrawDiademCoinError (req : WithdrawDiademCoinRequest) (e : error)
  | WithdrawTokenError (req : WithdrawTokenRequest) (e : error)
  | StoreUnclaimedToken (u : UnclaimedToken).

Definition ErrNotAuthorized : error := ErrMsg "TG001: not authorized".
Definition ErrInvalidRequest : error := ErrMsg "TG002: invalid request".
Definition ErrPendingWithdrawalExists : error := ErrMsg "TG003: pending withdrawal already exists".
Definition ErrNoPendingWithdrawalExists : error := ErrMsg "TG004: no pending withdrawal exists".
Definition ErrMissingWithdrawalReceipt : error := ErrMsg "TG005: missing withdrawal receipt".
Definition ErrWithdrawalReceiptSigned : error := ErrMsg "TG006: withdrawal receipt already signed".
Definition ErrInvalidEventBatch : error := ErrMsg "TG007: invalid event batch".
Definition ErrOwnerNotSpecified : error := ErrMsg "TG008: owner not specified".
Definition ErrOracleAlreadyRegistered : error := ErrMsg "TG009: oracle already registered".
Definition ErrOracleNotRegistered : error := ErrMsg "TG010: oracle not registered".
Definition ErrContractMappingExists : error := ErrMsg "TG012: contract mapping already exists".
Definition ErrFailedToReclaimToken : error := ErrMsg "TG013: failed to reclaim token".

Definition ownerRole : string := "owner".
Definition oracleRole : string := "oracle".
Definition changeOraclesPerm : bytes := "change-oracles".
Definition submitEventsPerm : bytes := "submit-events".
Definition signWithdrawalsPerm : bytes := "sign-withdrawals".
Definition verifyCreatorsPerm : bytes := "verify-creators".
Definition TGCheckTxHashFeature : string := "tg:check-txhash".

(** ** The packages the gateway calls *)

(** The arguments of [ssha.SoliditySHA3]. *)
Inductive SolArg := SolUint256 (x : Z) | SolAddress (b : bytes) | SolBytes (b : bytes).

Class GatewayLib := {
  (** [diadem.RootAddress] *)
  root_address : string → Address;
  (** [Address.IsEmpty] *)
  address_empty : Address → bool;
  (** the token kind that is 0 on the wire *)
  kind_zero : TokenKind;
  solidity_sha3 : list SolArg → bytes;
}.

(** What a call reads of the chain besides its world: the flags of features, the
    store of the address mapper, the creators of registered contracts and the
    answer of [ListValidatorsSimple] of dpos v2. *)
Record GCtx := mkGCtx {
  gx_ctx : Ctx;
  gx_FeatureEnabled : string → bool → bool;
  gx_mapper : AMStore;
  gx_creator : Address → option Address;
  gx_dposV2 : Res (list (option Address));
}.

Section Ops.
Context {LIB : DiademLib} {EVM : EvmLib} {RANGE : RangeOrder} {GLIB : GatewayLib}.
Context {P : Type} {PERM : Permissions P} {E : Type} {TOKENS : EvmTokens E}.

Record GStore := mkGStore {
  gs_state : option GatewayState;
  gs_oracles : gmap bytes Address;
  gs_local : gmap bytes LocalAccount;
  gs_foreign : gmap bytes ForeignAccount;
  gs_pending : gmap bytes PendingContractMapping;
  gs_mappings : gmap bytes ContractAddressMapping;
  gs_depositors : gmap bytes (gmap bytes Address);
  gs_unclaimed : gmap bytes (gmap bytes UnclaimedToken);
  gs_seen : gmap bytes TokenKind;
  gs_perms : P;
}.

Record GWorld := mkGWorld {
  gw_store : GStore;
  gw_coin : CoinStore;
  gw_eth : CoinStore;
  gw_evm : E;
  gw_events : list GEvent;
}.

Definition set_gstate (x : GatewayState) (s : GStore) : GStore :=
  mkGStore (Some x) (gs_oracles s) (gs_local s) (gs_foreign s) (gs_pending s) (gs_mappings s)
    (gs_depositors s) (gs_unclaimed s) (gs_seen s) (gs_perms s).
Definition set_oracles (x : gmap bytes Address) (s : GStore) : GStore :=
  mkGStore (gs_state s) x (gs_local s) (gs_foreign s) (gs_pending s) (gs_mappings s)
    (gs_depositors s) (gs_unclaimed s) (gs_seen s) (gs_perms s).
Definition set_local (x : gmap bytes LocalAccount) (s : GStore) : GStore :=
  mkGStore (gs_state s) (gs_oracles s) x (gs_foreign s) (gs_pending s) (gs_mappings s)
    (gs_depositors s) (gs_unclaimed s) (gs_seen s) (gs_perms s).
Definition set_foreign (x : gmap bytes ForeignAccount) (s : GStore) : GStore :=
  mkGStore (gs_state s) (gs_oracles s) (gs_local s) x (gs_pending s) (gs_mappings s)
    (gs_depositors s) (gs_unclaimed s) (gs_seen s) (gs_perms s).
Definition set_pending (x : gmap bytes PendingContractMapping) (s : GStore) : GStore :=
  mkGStore (gs_state s) (gs_oracles s) (gs_local s) (gs_foreign s) x (gs_mappings s)
    (gs_depositors s) (gs_unclaimed s) (gs_seen s) (gs_perms s).
Definition set_mappings (x : gmap bytes ContractAddressMapping) (s : GStore) : GStore :=
  mkGStore (gs_state s) (gs_oracles s) (gs_local s) (gs_foreign s) (gs_pending s) x
    (gs_depositors s) (gs_unclaimed s) (gs_seen s) (gs_perms s).
Definition set_claims (d : gmap bytes (gmap bytes Address))
    (u : gmap bytes (gmap bytes UnclaimedToken)) (s : GStore) : GStore :=
  mkGStore (gs_state s) (gs_oracles s) (gs_local s) (gs_foreign s) (gs_pending s) (gs_mappings s)
    d u (gs_seen s) (gs_perms s).
Definition set_seen (x : gmap bytes TokenKind) (s : GStore) : GStore :=
  mkGStore (gs_state s) (gs_oracles s) (gs_local s) (gs_foreign s) (gs_pending s) (gs_mappings s)
    (gs_depositors s) (gs_unclaimed s) x (gs_perms s).
Definition set_gperms (x : P) (s : GStore) : GStore :=
  mkGStore (gs_state s) (gs_oracles s) (gs_local s) (gs_foreign s) (gs_pending s) (gs_mappings s)
    (gs_depositors s) (gs_unclaimed s) (gs_seen s) x.

Definition from_store {A} (f : GStore → A) : M GWorld A := gets (λ w, f (gw_store w)).
Definition on_store (f : GStore → GStore) : M GWorld unit :=
  modify (λ w, mkGWorld (f (gw_store w)) (gw_coin w) (gw_eth w) (gw_evm w) (gw_events w)).
Definition on_coin {A} (m : M CoinStore A) : M GWorld A :=
  zoom gw_coin (λ c w, mkGWorld (gw_store w) c (gw_eth w) (gw_evm w) (gw_events w)) m.
Definition on_eth {A} (m : M CoinStore A) : M GWorld A :=
  zoom gw_eth (λ c w, mkGWorld (gw_store w) (gw_coin w) c (gw_evm w) (gw_events w)) m.
Definition on_evm {A} (m : M E A) : M GWorld A :=
  zoom gw_evm (λ e w, mkGWorld (gw_store w) (gw_coin w) (gw_eth w) e (gw_events w)) m.
Definition emit (ev : GEvent) : M GWorld unit :=
  modify (λ w, mkGWorld (gw_store w) (gw_coin w) (gw_eth w) (gw_evm w) (gw_events w ++ [ev])).

(** [if err != nil { emit...Error(ctx, err.Error(), ...); return err }] *)
Definition fail_with {A} (onErr : error → GEvent) (e : error) : M GWorld A :=
  emit (onErr e);; throw e.
Definition or_emit {A} (onErr : error → GEvent) (m : M GWorld A) : M GWorld A :=
  r ← try_ m;
  match r with inl a => mret a | inr e => fail_with onErr e end.

(** [errors.Wrap(err, msg)] *)
Definition wrap {A} (msg : error) (m : M GWorld A) : M GWorld A :=
  r ← try_ m;
  match r with inl a => mret a | inr _ => throw msg end.

(** The context of a contract that the gateway calls. *)
Definition callee (gx : GCtx) (addr : Address) : Ctx :=
  let ctx := gx_ctx gx in
  mkCtx (ctx_contract ctx) (ctx_now ctx) addr (ctx_chain ctx) (ctx_height ctx) (ctx_registry ctx).

Definition sender (gx : GCtx) : Address := ctx_sender (gx_ctx gx).
Definition self (gx : GCtx) : Address := ctx_contract (gx_ctx gx).

(** ** Keys *)

Definition localAccountKey (owner : Address) : bytes := prefix_key ["account"; address_bytes owner].
Definition foreignAccountKey (owner : Address) : bytes := prefix_key ["facct"; address_bytes owner].
Definition oracleStateKey (oracle : Address) : bytes := prefix_key ["oracle"; address_bytes oracle].
Definition pendingContractMappingKey (mappingID : Z) : bytes :=
  prefix_key ["pcm"; be_encode 8 mappingID].
Definition contractAddrMappingKey (contractAddr : Address) : bytes :=
  prefix_key ["cam"; address_bytes contractAddr].
Definition unclaimedTokenDepositorsRangePrefix (contractAddr : Address) : bytes :=
  prefix_key ["utdc"; address_bytes contractAddr].
Definition unclaimedTokensRangePrefix (ownerAddr : Address) : bytes :=
  prefix_key ["uto"; address_bytes ownerAddr].
Definition seenTxHashKey (txHash : bytes) : bytes := prefix_key ["stx"; txHash].

(** The two key functions that extend a range prefix by an address: the address
    is the key within the range. *)
Definition unclaimedTokenDepositorKey (contractAddr ownerAddr : Address) : bytes * bytes :=
  (unclaimedTokenDepositorsRangePrefix contractAddr, address_bytes ownerAddr).
Definition unclaimedTokenKey (ownerAddr contractAddr : Address) : bytes * bytes :=
  (unclaimedTokensRangePrefix ownerAddr, address_bytes contractAddr).

Definition get2 {V} (k : bytes * bytes) (m : gmap bytes (gmap bytes V)) : option V :=
  m !! k.1 ≫= (.!! k.2).
Definition set2 {V} (k : bytes * bytes) (v : V) (m : gmap bytes (gmap bytes V)) :
    gmap bytes (gmap bytes V) := <[k.1 := <[k.2 := v]> (default ∅ (m !! k.1))]> m.
Definition delete2 {V} (k : bytes * bytes) (m : gmap bytes (gmap bytes V)) :
    gmap bytes (gmap bytes V) := <[k.1 := delete k.2 (default ∅ (m !! k.1))]> m.
Definition range2 {V} (k : bytes) (m : gmap bytes (gmap bytes V)) : list (bytes * V) :=
  range_of (default ∅ (m !! k)).

(** ** Records *)

Definition loadState (s : GStore) : GatewayState :=
  default (mkGatewayState None 0 0 []) (gs_state s).
Definition saveState (state : GatewayState) : M GWorld unit := on_store (set_gstate state).

Definition loadLocalAccount (s : GStore) (owner : Address) : LocalAccount :=
  default (mkLocalAccount owner None) (gs_local s !! localAccountKey owner).
Definition saveLocalAccount (acct : LocalAccount) : M GWorld unit :=
  on_store (λ s, set_local (<[localAccountKey (la_Owner acct) := acct]> (gs_local s)) s).

Definition loadForeignAccount (s : GStore) (owner : Address) : ForeignAccount :=
  default (mkForeignAccount owner 0 None) (gs_foreign s !! foreignAccountKey owner).
Definition saveForeignAccount (acct : ForeignAccount) : M GWorld unit :=
  on_store (λ s, set_foreign (<[foreignAccountKey (fa_Owner acct) := acct]> (gs_foreign s)) s).

Definition hasSeenTxHash (txHash : bytes) (s : GStore) : bool :=
  bool_decide (is_Some (gs_seen s !! seenTxHashKey txHash)).
Definition saveSeenTxHash (txHash : bytes) (tokenKind : TokenKind) : M GWorld unit :=
  on_store (λ s, set_seen (<[seenTxHashKey txHash := tokenKind]> (gs_seen s)) s).

(** The comparison of two protocol buffer addresses, field by field. *)
Definition same_address (a b : Address) : bool :=
  String.eqb (ChainID a) (ChainID b) && (local_compare (Local a) (Local b) =? 0).

Definition addTokenWithdrawer (state : GatewayState) (owner : Address) : Res GatewayState :=
  if existsb (same_address owner) (gs_TokenWithdrawers state) then Err ErrPendingWithdrawalExists
  else Ok (mkGatewayState (gs_Owner state) (gs_NextContractMappingID state)
             (gs_LastMainnetBlockNum state) (gs_TokenWithdrawers state ++ [owner])).

(** The first match is overwritten with the last entry, which is cut off. *)
Fixpoint swap_out (owner : Address) (before after : list Address) : option (list Address) :=
  match after with
  | [] => None
  | addr :: after' =>
      if same_address owner addr then
        Some (before ++ match last after' with
                        | Some x => x :: take (length after' - 1) after'
                        | None => []
                        end)
      else swap_out owner (before ++ [addr]) after'
  end.

Definition removeTokenWithdrawer (state : GatewayState) (owner : Address) : Res GatewayState :=
  match swap_out owner [] (gs_TokenWithdrawers state) with
  | Some l => Ok (mkGatewayState (gs_Owner state) (gs_NextContractMappingID state)
                    (gs_LastMainnetBlockNum state) l)
  | None => Err ErrNoPendingWithdrawalExists
  end.

(** ** Oracles and owner *)

Definition has_permission (gx : GCtx) (token : bytes) (role : string) : M GWorld bool :=
  from_store (λ s, perm_has (gs_perms s) (sender gx) token [role]).
Definition grant (addr : Address) (token : bytes) (role : string) : M GWorld unit :=
  on_store (λ s, set_gperms (perm_grant addr token role (gs_perms s)) s).
Definition revoke (addr : Address) (token : bytes) (role : string) : M GWorld unit :=
  on_store (λ s, set_gperms (perm_revoke addr token role (gs_perms s)) s).
Definition has_oracle (addr : Address) (s : GStore) : bool :=
  bool_decide (is_Some (gs_oracles s !! oracleStateKey addr)).

Definition addOracle (oracleAddr : Address) : M GWorld unit :=
  grant oracleAddr submitEventsPerm oracleRole;;
  grant oracleAddr signWithdrawalsPerm oracleRole;;
  grant oracleAddr verifyCreatorsPerm oracleRole;;
  on_store (λ s, set_oracles (<[oracleStateKey oracleAddr := oracleAddr]> (gs_oracles s)) s).

Definition removeOracle (oracleAddr : Address) : M GWorld unit :=
  revoke oracleAddr submitEventsPerm oracleRole;;
  revoke oracleAddr signWithdrawalsPerm oracleRole;;
  revoke oracleAddr verifyCreatorsPerm oracleRole;;
  on_store (λ s, set_oracles (delete (oracleStateKey oracleAddr) (gs_oracles s)) s).

Definition Init (req : GatewayInitRequest) : M GWorld unit :=
  match gi_Owner req with
  | None => throw ErrOwnerNotSpecified
  | Some ownerAddr =>
      grant ownerAddr changeOraclesPerm ownerRole;;
      forM (gi_Oracles req) (λ oracleAddrPB,
        oracleAddr ← UnmarshalAddressPB oracleAddrPB;
        addOracle oracleAddr);;
      saveState (mkGatewayState (Some ownerAddr) 1 (gi_FirstMainnetBlockNum req) [])
  end.

Definition AddOracle (gx : GCtx) (oracle : option Address) : M GWorld unit :=
  match oracle with
  | None => throw ErrInvalidRequest
  | Some oracleAddr =>
      ok ← has_permission gx changeOraclesPerm ownerRole;
      guard_not (negb ok) ErrNotAuthorized;;
      found ← from_store (has_oracle oracleAddr);
      guard_not found ErrOracleAlreadyRegistered;;
      addOracle oracleAddr
  end.

Definition RemoveOracle (gx : GCtx) (oracle : option Address) : M GWorld unit :=
  match oracle with
  | None => throw ErrInvalidRequest
  | Some oracleAddr =>
      ok ← has_permission gx changeOraclesPerm ownerRole;
      guard_not (negb ok) ErrNotAuthorized;;
      found ← from_store (has_oracle oracleAddr);
      guard_not (negb found) ErrOracleNotRegistered;;
      removeOracle oracleAddr
  end.

Definition with_Owner (owner : Address) (state : GatewayState) : GatewayState :=
  mkGatewayState (Some owner) (gs_NextContractMappingID state) (gs_LastMainnetBlockNum state)
    (gs_TokenWithdrawers state).

Definition ReplaceOwner (gx : GCtx) (oracle : option Address) : M GWorld unit :=
  match oracle with
  | None => throw ErrInvalidRequest
  | Some ownerAddr =>
      state ← from_store loadState;
      oldOwnerAddr ← UnmarshalAddressPB (gs_Owner state);
      guard_not (negb (address_compare oldOwnerAddr (sender gx) =? 0)) ErrNotAuthorized;;
      revoke oldOwnerAddr changeOraclesPerm ownerRole;;
      grant ownerAddr changeOraclesPerm ownerRole;;
      saveState (with_Owner ownerAddr state)
  end.

Definition GetOracles (s : GStore) : list Address := snd <$> range_of (gs_oracles s).
Definition GetState (s : GStore) : GatewayState := loadState s.

(** ** The address mapper and the contract mappings *)

Definition resolveToDAppAddr (gx : GCtx) (ethAddr : Address) : Res Address :=
  mapping ← GetMapping (Some ethAddr) (gx_mapper gx);
  Ok (am_To mapping).

Definition resolveToEthAddr (gx : GCtx) (dappAddr : Address) : Res Address :=
  mapping ← GetMapping (Some dappAddr) (gx_mapper gx);
  Ok (am_To mapping).

Definition resolveToLocalContractAddr (foreignContractAddr : Address) (s : GStore) : Res Address :=
  match gs_mappings s !! contractAddrMappingKey foreignContractAddr with
  | Some mapping => Ok (cam_To mapping)
  | None => Err ErrNotFound
  end.

Definition resolveToForeignContractAddr (localContractAddr : Address) (s : GStore) : Res Address :=
  match gs_mappings s !! contractAddrMappingKey localContractAddr with
  | Some mapping => Ok (cam_To mapping)
  | None => Err ErrNotFound
  end.

Definition resolve_in (f : GStore → Res Address) : M GWorld Address :=
  r ← from_store f; lift_res r.

(** ** The native token contracts *)

(** [newCoinContext] and [newETHContext] panic when the contract is missing. *)
Definition resolve_or_panic (gx : GCtx) (name : string) : M GWorld Address :=
  match ctx_registry (gx_ctx gx) !! name with Some a => mret a | None => panic end.
Definition newCoinContext (gx : GCtx) : M GWorld Address := resolve_or_panic gx "coin".
Definition newETHContext (gx : GCtx) : M GWorld Address := resolve_or_panic gx "ethcoin".

Definition coin_balanceOf (owner : Address) : M GWorld Z :=
  r ← gets (λ w, Coin.BalanceOf (gw_coin w) (Some owner)); lift_res r.
Definition coin_transfer (gx : GCtx) (coin to : Address) (amount : Z) : M GWorld unit :=
  on_coin (Coin.Transfer (callee gx coin) (mkTransferRequest (Some to) (Some amount))).
Definition coin_transferFrom (gx : GCtx) (coin from to : Address) (amount : Z) : M GWorld unit :=
  on_coin (Coin.TransferFrom (callee gx coin) (mkTransferFromRequest (Some from) (Some to) (Some amount))).
Definition coin_burn (gx : GCtx) (coin owner : Address) (amount : Z) : M GWorld unit :=
  on_coin (Coin.Burn (callee gx coin) (mkBurnRequest (Some owner) (Some amount))).
Definition coin_mintToGateway (gx : GCtx) (coin : Address) (amount : Z) : M GWorld unit :=
  on_coin (Coin.MintToGateway (callee gx coin) (Some amount)).

Definition eth_balanceOf (owner : Address) : M GWorld Z :=
  r ← gets (λ w, EthCoin.BalanceOf (gw_eth w) (Some owner)); lift_res r.
Definition eth_transferFrom (gx : GCtx) (eth from to : Address) (amount : Z) : M GWorld unit :=
  on_eth (EthCoin.TransferFrom (callee gx eth) (mkTransferFromRequest (Some from) (Some to) (Some amount))).
Definition eth_transfer (gx : GCtx) (eth to : Address) (amount : Z) : M GWorld unit :=
  on_eth (EthCoin.Transfer (callee gx eth) (mkTransferRequest (Some to) (Some amount))).
Definition eth_mintToGateway (gx : GCtx) (eth : Address) (amount : Z) : M GWorld unit :=
  on_eth (EthCoin.MintToGateway (callee gx eth) (Some amount)).
End Ops.
Arguments GStore : clear implicits.
Arguments GWorld : clear implicits.

Section Deposits.
Context {LIB : DiademLib} {EVM : EvmLib} {RANGE : RangeOrder} {GLIB : GatewayLib}.
Context {P : Type} {PERM : Permissions P} {E : Type} {TOKENS : EvmTokens E}.
Abbreviation World := (GWorld P E).
Abbreviation GM := (M World).

(** ** Deposits *)

Definition validateTokenDeposit (deposit : MainnetTokenDeposited) : Res unit :=
  match md_TokenOwner deposit with
  | None => Err ErrInvalidRequest
  | Some _ =>
      if negb (kind_eqb (md_TokenKind deposit) TokenKind_ETH) &&
         bool_decide (md_TokenContract deposit = None) then Err ErrInvalidRequest
      else
        match md_TokenKind deposit with
        | TokenKind_ERC721 => Ok ()
        | TokenKind_ERC721X | TokenKind_ERC20 | TokenKind_ETH | TokenKind_DiademCoin =>
            match md_TokenAmount deposit with None => Err ErrInvalidRequest | Some _ => Ok () end
        | TokenKind_Other _ => Err (ErrMsg "deposits not supported")
        end
  end.

Definition transferTokenDeposit (gx : GCtx) (ownerEthAddr tokenEthAddr : Address)
    (kind : TokenKind) (tokenID tokenAmount : option Z) : GM unit :=
  mapperAddr ← ctx_resolve (gx_ctx gx) "addressmapper";
  ownerAddr ← wrap (ErrMsg "no mapping exists for account")
                (lift_res (resolveToDAppAddr gx ownerEthAddr));
  tokenAddr ←
    (if negb (kind_eqb kind TokenKind_ETH) && negb (kind_eqb kind TokenKind_DiademCoin) then
       wrap (ErrMsg "no mapping exists for token") (resolve_in (resolveToLocalContractAddr tokenEthAddr))
     else mret (mkAddress "" ""));
  let safeTokenID := default 0 tokenID in
  let safeAmount := default 0 tokenAmount in
  let gateway := self gx in
  match kind with
  | TokenKind_ERC721 =>
      exists_ ← (r ← gets (λ w : World, evm721_exists tokenAddr gateway safeTokenID (gw_evm w)); lift_res r);
      (if negb exists_ then
         wrap (ErrMsg "failed to mint token") (on_evm (evm721_mintToGateway tokenAddr gateway safeTokenID))
       else mret ());;
      wrap (ErrMsg "failed to transfer ERC721 token")
        (on_evm (evm721_safeTransferFrom tokenAddr gateway gateway ownerAddr safeTokenID))
  | TokenKind_ERC721X =>
      availableFunds ← (r ← gets (λ w : World, evm721x_balanceOf tokenAddr gateway gateway safeTokenID (gw_evm w));
                        lift_res r);
      (if availableFunds <? safeAmount then
         let shortage := safeAmount - availableFunds in
         wrap (ErrMsg "failed to mint tokens")
           (on_evm (evm721x_mintToGateway tokenAddr gateway safeTokenID shortage))
       else mret ());;
      wrap (ErrMsg "failed to transfer ERC721X token")
        (on_evm (evm721x_safeTransferFrom tokenAddr gateway gateway ownerAddr safeTokenID safeAmount))
  | TokenKind_ERC20 =>
      availableFunds ← (r ← gets (λ w : World, evm20_balanceOf tokenAddr gateway gateway (gw_evm w)); lift_res r);
      (if availableFunds <? safeAmount then
         wrap (ErrMsg "failed to mint tokens") (on_evm (evm20_mintToGateway tokenAddr gateway safeAmount))
       else mret ());;
      wrap (ErrMsg "failed to transfer ERC20 tokens")
        (on_evm (evm20_transfer tokenAddr gateway ownerAddr safeAmount))
  | TokenKind_ETH =>
      eth ← newETHContext gx;
      availableFunds ← eth_balanceOf gateway;
      (if availableFunds <? safeAmount then
         wrap (ErrMsg "failed to mint ETH") (eth_mintToGateway gx eth safeAmount)
       else mret ());;
      wrap (ErrMsg "failed to transfer ETH") (eth_transfer gx eth ownerAddr safeAmount)
  | TokenKind_DiademCoin =>
      coin ← newCoinContext gx;
      availableFunds ← coin_balanceOf gateway;
      (if availableFunds <? safeAmount then
         wrap (ErrMsg "failed to mint diadem coin") (coin_mintToGateway gx coin safeAmount)
       else mret ());;
      wrap (ErrMsg "failed to transfer diadem coin") (coin_transfer gx coin ownerAddr safeAmount)
  | TokenKind_Other _ => mret ()
  end.

(** The amounts of an ERC721X token: the first entry with the token's number is
    raised, or a new entry is added. *)
Fixpoint add_721x (tokenID tokenAmount : option Z) (amounts : list TokenAmount) :
    Res (list TokenAmount) :=
  match amounts with
  | [] => Ok [mkTokenAmount tokenID tokenAmount]
  | a :: rest =>
      match ta_TokenID a, tokenID with
      | Some x, Some y =>
          if x =? y then
            match ta_TokenAmount a, tokenAmount with
            | Some old, Some new => Ok (mkTokenAmount (Some x) (Some (old + new)) :: rest)
            | _, _ => Panic
            end
          else
            rest' ← add_721x tokenID tokenAmount rest;
            Ok (a :: rest')
      | _, _ => Panic
      end
  end.

(** The new [Amounts] of the record, by the kind of the deposit. *)
Definition add_unclaimed (deposit : MainnetTokenDeposited) (amounts : list TokenAmount) :
    Res (list TokenAmount) :=
  match md_TokenKind deposit with
  | TokenKind_ERC721 => Ok (amounts ++ [mkTokenAmount (md_TokenID deposit) None])
  | TokenKind_ERC721X => add_721x (md_TokenID deposit) (md_TokenAmount deposit) amounts
  | TokenKind_ERC20 | TokenKind_ETH | TokenKind_DiademCoin =>
      oldAmount ← match amounts with
                  | [a] => match ta_TokenAmount a with Some x => Ok x | None => Panic end
                  | _ => Ok 0
                  end;
      match md_TokenAmount deposit with
      | Some x => Ok [mkTokenAmount None (Some (oldAmount + x))]
      | None => Panic
      end
  | TokenKind_Other _ => Ok amounts
  end.

(** [RootAddress("eth")] stands for ether. *)
Definition token_address (tokenContract : option Address) : Address :=
  match tokenContract with Some a => a | None => root_address "eth" end.

Definition set_unclaimed (k : bytes * bytes) (u : UnclaimedToken) : GM unit :=
  on_store (λ s, set_claims (gs_depositors s) (set2 k u (gs_unclaimed s)) s).

Definition storeUnclaimedToken (deposit : MainnetTokenDeposited) : GM unit :=
  ownerAddr ← UnmarshalAddressPB (md_TokenOwner deposit);
  let tokenAddr := token_address (md_TokenContract deposit) in
  let tokenKey := unclaimedTokenKey ownerAddr tokenAddr in
  unclaimedToken ← from_store (λ s, default
    (mkUnclaimedToken (md_TokenContract deposit) (md_TokenKind deposit) [])
    (get2 tokenKey (gs_unclaimed s)));
  amounts ← lift_res (add_unclaimed deposit (ut_Amounts unclaimedToken));
  let unclaimedToken := ut_with_Amounts amounts unclaimedToken in
  let depositorKey := unclaimedTokenDepositorKey tokenAddr ownerAddr in
  on_store (λ s, set_claims (set2 depositorKey ownerAddr (gs_depositors s)) (gs_unclaimed s) s);;
  emit (StoreUnclaimedToken unclaimedToken);;
  set_unclaimed tokenKey unclaimedToken.

(** ** Completed withdrawals *)

Definition completeTokenWithdraw (state : GatewayState) (withdrawal : MainnetTokenWithdrawn) :
    GM GatewayState :=
  match mw_TokenOwner withdrawal with
  | None => throw ErrInvalidRequest
  | Some ownerEthAddr =>
      guard_not (negb (kind_eqb (mw_TokenKind withdrawal) TokenKind_ETH) &&
                 bool_decide (mw_TokenContract withdrawal = None)) ErrInvalidRequest;;
      match mw_TokenKind withdrawal with
      | TokenKind_ERC721 => mret ()
      | TokenKind_ERC721X | TokenKind_ERC20 | TokenKind_ETH | TokenKind_DiademCoin =>
          guard_not (bool_decide (mw_TokenAmount withdrawal = None)) ErrInvalidRequest
      | TokenKind_Other _ => throw (ErrMsg "withdrawals not supported")
      end;;
      foreignAccount ← from_store (λ s, loadForeignAccount s ownerEthAddr);
      match fa_CurrentWithdrawer foreignAccount with
      | None => throw (ErrMsg "no pending withdrawal found")
      | Some ownerAddr =>
          account ← from_store (λ s, loadLocalAccount s ownerAddr);
          guard_not (bool_decide (la_WithdrawalReceipt account = None))
            (ErrMsg "no pending withdrawal found");;
          saveLocalAccount (mkLocalAccount (la_Owner account) None);;
          saveForeignAccount (mkForeignAccount (fa_Owner foreignAccount)
            (u64 (fa_WithdrawalNonce foreignAccount + 1)) None);;
          lift_res (removeTokenWithdrawer state ownerAddr)
      end
  end.

(** ** Event batches *)

(** [Some x]: the event counts; [None]: the loop goes on to the next event. *)
Definition processDeposit (diademCoinTG : bool) (gx : GCtx) (ev : MainnetEvent)
    (deposit : MainnetTokenDeposited) : GM bool :=
  let checkTxHash := gx_FeatureEnabled gx TGCheckTxHashFeature false in
  guard_not (negb (eqb diademCoinTG (kind_eqb (md_TokenKind deposit) TokenKind_DiademCoin)))
    ErrInvalidRequest;;
  match validateTokenDeposit deposit with
  | Panic => panic
  | Err e => emit (MainnetProcessEventError ev e);; mret false
  | Ok () =>
      guard_not (checkTxHash && (String.length (md_TxHash deposit) =? 0)%nat) ErrInvalidRequest;;
      seen ← from_store (hasSeenTxHash (md_TxHash deposit));
      if checkTxHash && seen then
        emit (MainnetProcessEventError ev (ErrMsg "skipping Mainnet deposit with dupe tx hash"));;
        mret false
      else
        ownerAddr ← UnmarshalAddressPB (md_TokenOwner deposit);
        let tokenAddr := token_address (md_TokenContract deposit) in
        r ← try_ (transferTokenDeposit gx ownerAddr tokenAddr (md_TokenKind deposit)
                    (md_TokenID deposit) (md_TokenAmount deposit));
        match r with
        | inr e =>
            emit (MainnetProcessEventError ev e);;
            or_emit (MainnetProcessEventError ev) (storeUnclaimedToken deposit)
        | inl _ => emit (MainnetDepositEvent deposit)
        end;;
        (if checkTxHash then saveSeenTxHash (md_TxHash deposit) (md_TokenKind deposit) else mret ());;
        mret true
  end.

Definition processWithdrawal (diademCoinTG : bool) (gx : GCtx) (state : GatewayState)
    (ev : MainnetEvent) (withdrawal : MainnetTokenWithdrawn) : GM (option GatewayState) :=
  let checkTxHash := gx_FeatureEnabled gx TGCheckTxHashFeature false in
  guard_not (negb (eqb diademCoinTG (kind_eqb (mw_TokenKind withdrawal) TokenKind_DiademCoin)))
    ErrInvalidRequest;;
  guard_not (checkTxHash && (String.length (mw_TxHash withdrawal) =? 0)%nat) ErrInvalidRequest;;
  seen ← from_store (hasSeenTxHash (mw_TxHash withdrawal));
  if checkTxHash && seen then
    emit (MainnetProcessEventError ev (ErrMsg "skipping Mainnet withdrawal with dupe tx hash"));;
    mret None
  else
    r ← try_ (completeTokenWithdraw state withdrawal);
    match r with
    | inr e => emit (MainnetProcessEventError ev e);; mret None
    | inl state' =>
        emit (MainnetWithdrawalEvent withdrawal);;
        (if checkTxHash then saveSeenTxHash (mw_TxHash withdrawal) (mw_TokenKind withdrawal)
         else mret ());;
        mret (Some state')
    end.

(** The variables of the loop. *)
Record BatchLoop := mkBatchLoop { bl_state : GatewayState; bl_blockCount : Z; bl_lastEthBlock : Z }.

Definition count_block (ev : MainnetEvent) (state : GatewayState) (l : BatchLoop) : BatchLoop :=
  if bl_lastEthBlock l <? ev_EthBlock ev
  then mkBatchLoop state (bl_blockCount l + 1) (ev_EthBlock ev)
  else mkBatchLoop state (bl_blockCount l) (bl_lastEthBlock l).

Definition processEvent (diademCoinTG : bool) (gx : GCtx) (l : BatchLoop) (ev : MainnetEvent) :
    GM BatchLoop :=
  guard_not (ev_EthBlock ev <? bl_lastEthBlock l) ErrInvalidEventBatch;;
  if ev_EthBlock ev <=? gs_LastMainnetBlockNum (bl_state l) then mret l
  else
    match ev_Payload ev with
    | Payload_Deposit d =>
        counted ← processDeposit diademCoinTG gx ev d;
        mret (if counted : bool then count_block ev (bl_state l) l else l)
    | Payload_Withdrawal w =>
        r ← processWithdrawal diademCoinTG gx (bl_state l) ev w;
        mret (match r with Some state => count_block ev state l | None => l end)
    | Payload_None => mret l
    end.

Definition with_LastMainnetBlockNum (n : Z) (state : GatewayState) : GatewayState :=
  mkGatewayState (gs_Owner state) (gs_NextContractMappingID state) n (gs_TokenWithdrawers state).

Definition ProcessEventBatch (diademCoinTG : bool) (gx : GCtx) (events : list MainnetEvent) : GM unit :=
  ok ← has_permission gx submitEventsPerm oracleRole;
  guard_not (negb ok) ErrNotAuthorized;;
  state ← from_store loadState;
  l ← foldM (processEvent diademCoinTG gx) (mkBatchLoop state 0 0) events;
  guard_not (bl_blockCount l =? 0) (ErrMsg "no new events found in the batch");;
  saveState (with_LastMainnetBlockNum (bl_lastEthBlock l) (bl_state l)).
End Deposits.

Section Withdrawals.
Context {LIB : DiademLib} {EVM : EvmLib} {RANGE : RangeOrder} {GLIB : GatewayLib}.
Context {P : Type} {PERM : Permissions P} {E : Type} {TOKENS : EvmTokens E}.
Abbreviation World := (GWorld P E).
Abbreviation GM := (M World).

(** ** Withdrawals *)

(** What the three methods begin with: neither the sender nor the account on
    Ethereum has another withdrawal pending. *)
Definition beginWithdrawal (onErr : error → GEvent) (gx : GCtx) (recipient : option Address) :
    GM (LocalAccount * Address * ForeignAccount) :=
  let ownerAddr := sender gx in
  account ← from_store (λ s, loadLocalAccount s ownerAddr);
  (if bool_decide (la_WithdrawalReceipt account = None) then mret ()
   else fail_with onErr ErrPendingWithdrawalExists);;
  ownerEthAddr ←
    match recipient with
    | Some r => mret r
    | None =>
        mapperAddr ← or_emit onErr (ctx_resolve (gx_ctx gx) "addressmapper");
        or_emit onErr (lift_res (resolveToEthAddr gx ownerAddr))
    end;
  foreignAccount ← from_store (λ s, loadForeignAccount s ownerEthAddr);
  (if bool_decide (fa_CurrentWithdrawer foreignAccount = None) then mret ()
   else fail_with onErr ErrPendingWithdrawalExists);;
  mret (account, ownerEthAddr, foreignAccount).

(** What they end with: the receipt and the pending withdrawal are recorded. *)
Definition finishWithdrawal (onErr : error → GEvent) (topic : WithdrawalReceipt → GEvent) (gx : GCtx)
    (account : LocalAccount) (foreignAccount : ForeignAccount) (receipt : WithdrawalReceipt) : GM unit :=
  let ownerAddr := sender gx in
  emit (topic receipt);;
  saveForeignAccount (mkForeignAccount (fa_Owner foreignAccount)
    (fa_WithdrawalNonce foreignAccount) (Some ownerAddr));;
  saveLocalAccount (mkLocalAccount (la_Owner account) (Some receipt));;
  state ← from_store loadState;
  state ← or_emit onErr (lift_res (addTokenWithdrawer state ownerAddr));
  saveState state.

Definition WithdrawToken (gx : GCtx) (req : WithdrawTokenRequest) : GM unit :=
  let onErr := WithdrawTokenError req in
  match wt_TokenContract req with
  | None => throw ErrInvalidRequest
  | Some tokenAddr =>
      match wt_TokenKind req with
      | TokenKind_ERC721 => mret ()
      | TokenKind_ERC721X | TokenKind_ERC20 =>
          guard_not (bool_decide (wt_TokenAmount req = None)) ErrInvalidRequest
      | _ => throw ErrInvalidRequest
      end;;
      let ownerAddr := sender gx in
      '(account, ownerEthAddr, foreignAccount) ← beginWithdrawal onErr gx (wt_Recipient req);
      tokenEthAddr ← or_emit onErr (resolve_in (resolveToForeignContractAddr tokenAddr));
      let tokenID := default 0 (wt_TokenID req) in
      let tokenAmount := default 0 (wt_TokenAmount req) in
      or_emit onErr
        match wt_TokenKind req with
        | TokenKind_ERC721 => on_evm (evm721_safeTransferFrom tokenAddr (self gx) ownerAddr (self gx) tokenID)
        | TokenKind_ERC721X =>
            on_evm (evm721x_safeTransferFrom tokenAddr (self gx) ownerAddr (self gx) tokenID tokenAmount)
        | TokenKind_ERC20 => on_evm (evm20_transferFrom tokenAddr (self gx) ownerAddr (self gx) tokenAmount)
        | _ => mret ()
        end;;
      finishWithdrawal onErr WithdrawTokenTopic gx account foreignAccount
        (mkReceipt ownerEthAddr tokenEthAddr (wt_TokenKind req) (wt_TokenID req) (wt_TokenAmount req)
           (fa_WithdrawalNonce foreignAccount) None)
  end.

Definition WithdrawETH (diademCoinTG : bool) (gx : GCtx) (req : WithdrawETHRequest) : GM unit :=
  let onErr := WithdrawETHError req in
  match we_Amount req, we_MainnetGateway req with
  | Some amount, Some mainnetGateway =>
      guard_not diademCoinTG ErrInvalidRequest;;
      let ownerAddr := sender gx in
      '(account, ownerEthAddr, foreignAccount) ← beginWithdrawal onErr gx (we_Recipient req);
      eth ← newETHContext gx;
      eth_transferFrom gx eth ownerAddr (self gx) amount;;
      finishWithdrawal onErr WithdrawETHTopic gx account foreignAccount
        (mkReceipt ownerEthAddr mainnetGateway TokenKind_ETH None (Some amount)
           (fa_WithdrawalNonce foreignAccount) None)
  | _, _ => throw ErrInvalidRequest
  end.

Definition WithdrawDiademCoin (diademCoinTG : bool) (gx : GCtx) (req : WithdrawDiademCoinRequest) : GM unit :=
  let onErr := WithdrawDiademCoinError req in
  match wc_Amount req, wc_TokenContract req with
  | Some amount, Some tokenContract =>
      guard_not (negb diademCoinTG) ErrInvalidRequest;;
      let ownerAddr := sender gx in
      '(account, ownerEthAddr, foreignAccount) ← beginWithdrawal onErr gx (wc_Recipient req);
      coin ← newCoinContext gx;
      coin_burn gx coin ownerAddr amount;;
      finishWithdrawal onErr WithdrawDiademCoinTopic gx account foreignAccount
        (mkReceipt ownerEthAddr tokenContract TokenKind_DiademCoin None (Some amount)
           (fa_WithdrawalNonce foreignAccount) None)
  | _, _ => throw ErrInvalidRequest
  end.

(** The method [WithdrawalReceipt]. *)
Definition GetWithdrawalReceipt (gx : GCtx) (owner : option Address) (s : GStore P) :
    Res (option WithdrawalReceipt) :=
  let owner := match owner with Some a => a | None => sender gx end in
  if address_empty owner then Err (ErrMsg "no owner specified")
  else Ok (la_WithdrawalReceipt (loadLocalAccount s owner)).

Definition doConfirmWithdrawalReceipt (req : ConfirmWithdrawalReceiptRequest) : GM unit :=
  match cr_TokenOwner req, cr_OracleSignature req with
  | Some ownerAddr, Some sig =>
      account ← from_store (λ s, loadLocalAccount s ownerAddr);
      match la_WithdrawalReceipt account with
      | None => throw ErrMissingWithdrawalReceipt
      | Some receipt =>
          guard_not (bool_decide (wr_OracleSignature receipt ≠ None)) ErrWithdrawalReceiptSigned;;
          let wr := wr_sign sig receipt in
          saveLocalAccount (mkLocalAccount (la_Owner account) (Some wr));;
          emit (TokenWithdrawalSigned (wr_TokenOwner wr) (wr_TokenContract wr) (wr_TokenKind wr)
                  (wr_TokenID wr) (wr_TokenAmount wr) (wr_OracleSignature wr))
      end
  | _, _ => throw ErrInvalidRequest
  end.

Definition ConfirmWithdrawalReceipt (gx : GCtx) (req : ConfirmWithdrawalReceiptRequest) : GM unit :=
  ok ← has_permission gx signWithdrawalsPerm oracleRole;
  guard_not (negb ok) ErrNotAuthorized;;
  doConfirmWithdrawalReceipt req.

Fixpoint find_validator (who : Address) (validators : list (option Address)) : Res bool :=
  match validators with
  | [] => Ok false
  | None :: _ => Panic
  | Some v :: rest => if address_compare who v =? 0 then Ok true else find_validator who rest
  end.

Definition ConfirmWithdrawalReceiptV2 (gx : GCtx) (req : ConfirmWithdrawalReceiptRequest) : GM unit :=
  contractAddr ← ctx_resolve (gx_ctx gx) "dposV2";
  validators ← lift_res (gx_dposV2 gx);
  found ← lift_res (find_validator (sender gx) validators);
  guard_not (negb found) ErrNotAuthorized;;
  ok ← has_permission gx signWithdrawalsPerm oracleRole;
  guard_not (negb ok) ErrNotAuthorized;;
  doConfirmWithdrawalReceipt req.

(** The hash the oracle signs; [None] for a kind the code skips. *)
Definition receipt_hash (mainnetGateway : bytes) (r : WithdrawalReceipt) : option bytes :=
  let safeTokenID := default 0 (wr_TokenID r) in
  let safeAmount := default 0 (wr_TokenAmount r) in
  let token := SolAddress (eth_address (Local (wr_TokenContract r))) in
  hash ←
    match wr_TokenKind r with
    | TokenKind_ERC721 => Some (solidity_sha3 [SolUint256 safeTokenID; token])
    | TokenKind_ERC721X => Some (solidity_sha3 [SolUint256 safeTokenID; SolUint256 safeAmount; token])
    | TokenKind_ERC20 => Some (solidity_sha3 [SolUint256 safeAmount; token])
    | TokenKind_ETH => Some (solidity_sha3 [SolUint256 safeAmount])
    | TokenKind_DiademCoin => Some (solidity_sha3 [SolUint256 safeAmount; token])
    | TokenKind_Other _ => None
    end;
  Some (solidity_sha3 [SolAddress (eth_address (Local (wr_TokenOwner r)));
                       SolUint256 (wr_WithdrawalNonce r); SolAddress mainnetGateway; SolBytes hash]).

Fixpoint pending_summaries (mainnetGateway : bytes) (owners : list Address) (s : GStore P) :
    Res (list (Address * bytes)) :=
  match owners with
  | [] => Ok []
  | ownerAddr :: rest =>
      match la_WithdrawalReceipt (loadLocalAccount s ownerAddr) with
      | None => Err ErrMissingWithdrawalReceipt
      | Some receipt =>
          let this :=
            if bool_decide (wr_OracleSignature receipt ≠ None) then []
            else match receipt_hash mainnetGateway receipt with
                 | Some h => [(ownerAddr, h)]
                 | None => []
                 end in
          rest' ← pending_summaries mainnetGateway rest s;
          Ok (this ++ rest')
      end
  end.

Definition PendingWithdrawals (mainnetGateway : option Address) (s : GStore P) :
    Res (list (Address * bytes)) :=
  match mainnetGateway with
  | None => Err ErrInvalidRequest
  | Some gw => pending_summaries (eth_address (Local gw)) (gs_TokenWithdrawers (loadState s)) s
  end.

(** ** Unclaimed tokens *)

Definition reclaimDepositorTokensForContract (gx : GCtx) (ownerAddr tokenAddr : Address)
    (unclaimedToken : UnclaimedToken) : GM unit :=
  failed ← foldM (λ failed a,
      r ← try_ (transferTokenDeposit gx ownerAddr tokenAddr (ut_TokenKind unclaimedToken)
                  (ta_TokenID a) (ta_TokenAmount a));
      mret (match r with inl _ => failed | inr _ => failed ++ [a] end)) [] (ut_Amounts unclaimedToken);
  let tokenKey := unclaimedTokenKey ownerAddr tokenAddr in
  let depositorKey := unclaimedTokenDepositorKey tokenAddr ownerAddr in
  match failed with
  | [] => on_store (λ s, set_claims (delete2 depositorKey (gs_depositors s))
                           (delete2 tokenKey (gs_unclaimed s)) s)
  | _ => set_unclaimed tokenKey (ut_with_Amounts failed unclaimedToken)
  end.

Definition reclaimDepositorTokens (gx : GCtx) (ownerAddr : Address) : GM unit :=
  entries ← from_store (λ s, range2 (unclaimedTokensRangePrefix ownerAddr) (gs_unclaimed s));
  forM entries (λ entry,
    let tokenAddr := token_address (ut_TokenContract entry.2) in
    reclaimDepositorTokensForContract gx ownerAddr tokenAddr entry.2).

Definition ReclaimDepositorTokens (gx : GCtx) (depositors : list (option Address)) : GM unit :=
  if (length depositors =? 0)%nat then
    mapperAddr ← wrap ErrFailedToReclaimToken (ctx_resolve (gx_ctx gx) "addressmapper");
    match resolveToEthAddr gx (sender gx) with
    | Panic => panic
    | Err e => emit (ReclaimError (mkAddress "" "") e);; throw ErrFailedToReclaimToken
    | Ok ownerAddr => or_emit (ReclaimError ownerAddr) (reclaimDepositorTokens gx ownerAddr)
    end
  else
    state ← from_store loadState;
    gwOwner ← UnmarshalAddressPB (gs_Owner state);
    guard_not (negb (address_compare gwOwner (sender gx) =? 0)) ErrNotAuthorized;;
    forM depositors (λ depAddr,
      ownerAddr ← UnmarshalAddressPB depAddr;
      r ← try_ (reclaimDepositorTokens gx ownerAddr);
      match r with inl _ => mret () | inr e => emit (ReclaimError ownerAddr e) end).

Definition unclaimedTokensByOwner (s : GStore P) (ownerAddr : Address) : list UnclaimedToken :=
  snd <$> range2 (unclaimedTokensRangePrefix ownerAddr) (gs_unclaimed s).

Definition unclaimedTokenDepositorsByContract (s : GStore P) (tokenAddr : Address) : list Address :=
  snd <$> range2 (unclaimedTokenDepositorsRangePrefix tokenAddr) (gs_depositors s).

Definition GetUnclaimedTokens (owner : option Address) (s : GStore P) : Res (list UnclaimedToken) :=
  match owner with
  | None => Panic
  | Some ownerAddr => Ok (unclaimedTokensByOwner s ownerAddr)
  end.

(** The variables [unclaimedToken] and [amount] are declared outside the loop and
    keep their values from one depositor to the next. *)
Record UnclaimedLoop := mkUnclaimedLoop {
  ul_unclaimedAmount : Z; ul_unclaimedToken : UnclaimedToken; ul_amount : Z }.

Fixpoint sum_amounts (amounts : list TokenAmount) : Res Z :=
  match amounts with
  | [] => Ok 0
  | a :: rest =>
      match ta_TokenAmount a with
      | None => Panic
      | Some x => total ← sum_amounts rest; Ok (x + total)
      end
  end.

Definition count_unclaimed (s : GStore P) (ethTokenAddress : Address) (l : UnclaimedLoop)
    (address : Address) : Res UnclaimedLoop :=
  let unclaimedToken :=
    default (ul_unclaimedToken l) (get2 (unclaimedTokenKey address ethTokenAddress) (gs_unclaimed s)) in
  match ut_TokenKind unclaimedToken with
  | TokenKind_ERC721 =>
      Ok (mkUnclaimedLoop (ul_unclaimedAmount l + Z.of_nat (length (ut_Amounts unclaimedToken)))
            unclaimedToken (ul_amount l))
  | TokenKind_ERC721X =>
      total ← sum_amounts (ut_Amounts unclaimedToken);
      Ok (mkUnclaimedLoop (ul_unclaimedAmount l + total) unclaimedToken (ul_amount l))
  | TokenKind_ERC20 | TokenKind_ETH | TokenKind_DiademCoin =>
      amount ← match ut_Amounts unclaimedToken with
               | [a] => match ta_TokenAmount a with Some x => Ok x | None => Panic end
               | _ => Ok (ul_amount l)
               end;
      Ok (mkUnclaimedLoop (ul_unclaimedAmount l + amount) unclaimedToken amount)
  | TokenKind_Other _ => Ok (mkUnclaimedLoop (ul_unclaimedAmount l) unclaimedToken (ul_amount l))
  end.

Fixpoint count_all_unclaimed (s : GStore P) (ethTokenAddress : Address) (l : UnclaimedLoop)
    (depositors : list Address) : Res UnclaimedLoop :=
  match depositors with
  | [] => Ok l
  | address :: rest =>
      l' ← count_unclaimed s ethTokenAddress l address;
      count_all_unclaimed s ethTokenAddress l' rest
  end.

Definition GetUnclaimedContractTokens (tokenAddress : option Address) (s : GStore P) : Res Z :=
  match tokenAddress with
  | None => Err ErrInvalidRequest
  | Some ethTokenAddress =>
      l ← count_all_unclaimed s ethTokenAddress
            (mkUnclaimedLoop 0 (mkUnclaimedToken None kind_zero []) 0)
            (unclaimedTokenDepositorsByContract s ethTokenAddress);
      Ok (ul_unclaimedAmount l)
  end.

Definition ReclaimContractTokens (gx : GCtx) (tokenContract : option Address) : GM unit :=
  match tokenContract with
  | None => throw ErrInvalidRequest
  | Some foreignContractAddr =>
      r ← from_store (resolveToLocalContractAddr foreignContractAddr);
      match r with
      | Panic => panic
      | Err e => emit (ReclaimError (mkAddress "" "") e);; throw ErrFailedToReclaimToken
      | Ok localContractAddr =>
          match gx_creator gx localContractAddr with
          | None => emit (ReclaimError localContractAddr ErrNotFound);; throw ErrFailedToReclaimToken
          | Some creator =>
              let callerAddr := sender gx in
              (if address_compare creator callerAddr =? 0 then mret ()
               else
                 state ← from_store loadState;
                 gwOwner ← UnmarshalAddressPB (gs_Owner state);
                 if address_compare gwOwner callerAddr =? 0 then mret ()
                 else fail_with (ReclaimError localContractAddr) ErrNotAuthorized);;
              entries ← from_store (λ s,
                range2 (unclaimedTokenDepositorsRangePrefix foreignContractAddr) (gs_depositors s));
              forM entries (λ entry,
                let ownerAddr := entry.2 in
                u ← from_store (λ s, get2 (unclaimedTokenKey ownerAddr foreignContractAddr) (gs_unclaimed s));
                unclaimedToken ←
                  match u with
                  | Some u => mret u
                  | None => emit (ReclaimError ownerAddr ErrNotFound);;
                            mret (mkUnclaimedToken None kind_zero [])
                  end;
                r ← try_ (reclaimDepositorTokensForContract gx ownerAddr foreignContractAddr unclaimedToken);
                match r with inl _ => mret () | inr e => emit (ReclaimError ownerAddr e) end)
          end
      end
  end.
End Withdrawals.

Section Mappings.
Context {LIB : DiademLib} {EVM : EvmLib} {RANGE : RangeOrder}.
Context {P : Type} {PERM : Permissions P} {E : Type}.
Abbreviation World := (GWorld P E).
Abbreviation GM := (M World).

(** ** Contract mappings (gateway_contract_mapping.go) *)

Definition contractMappingExists (foreignContractAddr localContractAddr : Address) (s : GStore P) : bool :=
  bool_decide (is_Some (gs_mappings s !! contractAddrMappingKey foreignContractAddr)) ||
  bool_decide (is_Some (gs_mappings s !! contractAddrMappingKey localContractAddr)) ||
  existsb (λ entry : bytes * PendingContractMapping,
      (address_compare (pcm_ForeignContract entry.2) foreignContractAddr =? 0) ||
      (address_compare (pcm_LocalContract entry.2) localContractAddr =? 0))
    (range_of (gs_pending s)).

(** The checks both methods begin with. *)
Definition mapping_request_ok (foreignAddr localAddr : Address) : GM unit :=
  guard_not (String.eqb (ChainID foreignAddr) "" || String.eqb (ChainID localAddr) "") ErrInvalidRequest;;
  guard_not (address_compare foreignAddr localAddr =? 0) ErrInvalidRequest.

Definition put_mapping (from to : Address) : GM unit :=
  on_store (λ s, set_mappings (<[contractAddrMappingKey from := mkContractMapping from to]> (gs_mappings s)) s).

Definition AddContractMapping (gx : GCtx) (req : AddContractMappingRequest) : GM unit :=
  match ac_ForeignContract req, ac_LocalContract req, ac_ForeignContractCreatorSig req,
        ac_ForeignContractTxHash req with
  | Some foreignAddr, Some localAddr, Some sig, Some txHash =>
      mapping_request_ok foreignAddr localAddr;;
      match gx_creator gx localAddr with
      | None => throw ErrNotFound
      | Some creator =>
          guard_not (negb (address_compare (sender gx) creator =? 0)) ErrNotAuthorized;;
          found ← from_store (contractMappingExists foreignAddr localAddr);
          guard_not found ErrContractMappingExists;;
          state ← from_store loadState;
          let hash := sha3_addresses (eth_address (Local foreignAddr)) (eth_address (Local localAddr)) in
          signerAddr ← lift_res (recover_typed_sig hash sig);
          let id := gs_NextContractMappingID state in
          on_store (λ s, set_pending (<[pendingContractMappingKey id :=
            mkPendingMapping id foreignAddr localAddr (mkAddress (ChainID foreignAddr) signerAddr) txHash]>
            (gs_pending s)) s);;
          saveState (mkGatewayState (gs_Owner state) (u64 (id + 1)) (gs_LastMainnetBlockNum state)
                       (gs_TokenWithdrawers state))
      end
  | _, _, _, _ => throw ErrInvalidRequest
  end.

Definition AddAuthorizedContractMapping (gx : GCtx) (req : AddContractMappingRequest) : GM unit :=
  match ac_ForeignContract req, ac_LocalContract req with
  | Some foreignAddr, Some localAddr =>
      mapping_request_ok foreignAddr localAddr;;
      state ← from_store loadState;
      gwOwner ← UnmarshalAddressPB (gs_Owner state);
      guard_not (negb (address_compare (sender gx) gwOwner =? 0)) ErrNotAuthorized;;
      found ← from_store (contractMappingExists foreignAddr localAddr);
      guard_not found ErrContractMappingExists;;
      put_mapping foreignAddr localAddr;;
      put_mapping localAddr foreignAddr;;
      emit (ContractMappingConfirmed foreignAddr localAddr)
  | _, _ => throw ErrInvalidRequest
  end.

Definition UnverifiedContractCreators (s : GStore P) : list (Z * bytes) :=
  (λ entry : bytes * PendingContractMapping, (pcm_ID entry.2, pcm_ForeignContractTxHash entry.2)) <$>
    range_of (gs_pending s).

(** The message that is logged when the creators differ reads both fields of the
    confirmation, so a missing one panics in any case. *)
Definition confirmContractMapping (pendingMappingKey : bytes) (mapping : PendingContractMapping)
    (confirmation : VerifiedContractCreator) : GM unit :=
  on_store (λ s, set_pending (delete pendingMappingKey (gs_pending s)) s);;
  creator ← deref (vc_Creator confirmation);
  contract ← deref (vc_Contract confirmation);
  if negb (same_address (pcm_ForeignContractCreator mapping) creator) ||
     negb (same_address (pcm_ForeignContract mapping) contract) then mret ()
  else
    put_mapping (pcm_ForeignContract mapping) (pcm_LocalContract mapping);;
    put_mapping (pcm_LocalContract mapping) (pcm_ForeignContract mapping);;
    emit (ContractMappingConfirmed (pcm_ForeignContract mapping) (pcm_LocalContract mapping)).

Definition VerifyContractCreators (gx : GCtx) (creators : list VerifiedContractCreator) : GM unit :=
  guard_not (length creators =? 0)%nat ErrInvalidRequest;;
  ok ← has_permission gx verifyCreatorsPerm oracleRole;
  guard_not (negb ok) ErrNotAuthorized;;
  forM creators (λ creatorInfo,
    let mappingKey := pendingContractMappingKey (vc_ContractMappingID creatorInfo) in
    mapping ← from_store (λ s, gs_pending s !! mappingKey);
    match mapping with
    | None => mret ()
    | Some mapping => confirmContractMapping mappingKey mapping creatorInfo
    end).

(** ** The unsafe gateway (unsafe_gateway.go), for test chains *)

Definition ResetMainnetBlock (lastMainnetBlockNum : Z) : GM unit :=
  state ← from_store loadState;
  saveState (with_LastMainnetBlockNum lastMainnetBlockNum state).

Definition UnsafeAddOracle (oracle : option Address) : GM unit :=
  oracleAddr ← UnmarshalAddressPB oracle;
  found ← from_store (has_oracle oracleAddr);
  guard_not found ErrOracleAlreadyRegistered;;
  addOracle oracleAddr.

Definition UnsafeRemoveOracle (oracle : option Address) : GM unit :=
  oracleAddr ← UnmarshalAddressPB oracle;
  found ← from_store (has_oracle oracleAddr);
  guard_not (negb found) ErrOracleNotRegistered;;
  removeOracle oracleAddr.

Definition ResetOwnerKey (oracle : option Address) : GM unit :=
  state ← from_store loadState;
  oldOwnerAddr ← UnmarshalAddressPB (gs_Owner state);
  revoke oldOwnerAddr changeOraclesPerm ownerRole;;
  ownerAddr ← UnmarshalAddressPB oracle;
  grant ownerAddr changeOraclesPerm ownerRole;;
  saveState (with_Owner ownerAddr state).
End Mappings.
