(* ===== verification/GatewayFrame.v ===== *)
(** * What a call of the gateway leaves alone

    [frame part good w0 w]: from [w0] to [w] the part [part] of the gateway's
    store is unchanged, and the events only grew, by events that satisfy [good].
    [frame_tac] goes through the code of a call and proves that it keeps a frame;
    the files that follow use it with one part for each invariant. *)

From S2P Require Import Prelude Contract Coin EthCoin AddressMapper Store Middleware EvmTokens Gateway.

Section Frame.
Context {P E X : Type} (part : GStore P → X) (good : GEvent → bool).
Implicit Types w : GWorld P E.

Definition frame (w0 w : GWorld P E) : Prop :=
  part (gw_store w) = part (gw_store w0) ∧
  ∃ new, gw_events w = gw_events w0 ++ new ∧ Forall (λ ev, good ev = true) new.

Lemma frame_refl w : frame w w.
Proof. split; [done|]. exists []. by rewrite app_nil_r. Qed.

Lemma frame_trans w1 w2 w3 : frame w1 w2 → frame w2 w3 → frame w1 w3.
Proof.
  intros (H1 & n & Hn & Hi) (K1 & m & Hm & Hj). split; [congruence|].
  exists (n ++ m). rewrite Hm, Hn, app_assoc. split; [done|]. by apply Forall_app.
Qed.

Lemma frame_run {A} (m : M (GWorld P E) A) w : preserves (frame w) m → frame w (m w).2.
Proof. intros H. apply H, frame_refl. Qed.

Lemma frame_run_ok {A} (m : M (GWorld P E) A) w r w' : preserves (frame w) m → m w = (r, w') → frame w w'.
Proof. intros H Hm. pose proof (frame_run m w H) as Hf. by rewrite Hm in Hf. Qed.

Lemma frame_on_store w0 (g : GStore P → GStore P) :
  (∀ s, part (g s) = part s) → preserves (frame w0) (on_store g).
Proof.
  intros H w Hw. eapply frame_trans; [done|]. split; [apply H|]. exists []. by rewrite app_nil_r.
Qed.

Lemma frame_emit w0 ev : good ev = true → preserves (frame w0) (emit ev).
Proof.
  intros Hev w Hw. eapply frame_trans; [done|]. split; [done|]. exists [ev].
  split; [done|]. by apply Forall_singleton.
Qed.

Lemma frame_zoom_other {V A} w0 (get : GWorld P E → V) put (m : M V A) :
  (∀ v w, gw_store (put v w) = gw_store w) → (∀ v w, gw_events (put v w) = gw_events w) →
  preserves (frame w0) (zoom get put m).
Proof.
  intros H1 H2. apply preserves_zoom. intros w v Hw. eapply frame_trans; [done|].
  unfold frame. rewrite H1, H2. split; [done|]. exists []. by rewrite app_nil_r.
Qed.

Lemma frame_on_evm {A} w0 (m : M E A) : preserves (frame w0) (on_evm m).
Proof. by apply frame_zoom_other. Qed.
Lemma frame_on_coin {A} w0 (m : M CoinStore A) : preserves (frame w0) (on_coin m).
Proof. by apply frame_zoom_other. Qed.
Lemma frame_on_eth {A} w0 (m : M CoinStore A) : preserves (frame w0) (on_eth m).
Proof. by apply frame_zoom_other. Qed.

Lemma frame_fail_with {A} w0 onErr e :
  (∀ e, good (onErr e) = true) → preserves (frame w0) (fail_with onErr e : M (GWorld P E) A).
Proof. intros H. apply preserves_bind; [by apply frame_emit|auto with preserves]. Qed.

Lemma frame_or_emit {A} w0 onErr (m : M (GWorld P E) A) :
  (∀ e, good (onErr e) = true) → preserves (frame w0) m → preserves (frame w0) (or_emit onErr m).
Proof.
  intros H Hm. apply preserves_bind; [by apply preserves_try|]. intros [a|e]; [auto with preserves|].
  by apply frame_fail_with.
Qed.

Lemma frame_wrap {A} w0 msg (m : M (GWorld P E) A) : preserves (frame w0) m → preserves (frame w0) (wrap msg m).
Proof. intros Hm. apply preserves_bind; [by apply preserves_try|]. intros [a|e]; auto with preserves. Qed.
End Frame.

Create HintDb frame.
#[export] Hint Resolve frame_on_evm frame_on_coin frame_on_eth frame_wrap : frame.
#[export] Hint Extern 1 (preserves _ (on_store _)) => apply frame_on_store; intros; reflexivity : frame.
#[export] Hint Extern 1 (preserves _ (emit _)) => apply frame_emit; reflexivity : frame.
#[export] Hint Extern 1 (preserves _ (fail_with _ _)) => apply frame_fail_with; intros; reflexivity : frame.

Ltac frame_tac :=
  repeat first
    [ progress intros
    | solve [auto with frame preserves]
    | match goal with
      | |- preserves _ (or_emit _ _) => apply frame_or_emit; [intros; reflexivity|]
      | |- preserves _ (wrap _ _) => apply frame_wrap
      | |- preserves _ (_ ≫= _) => apply preserves_bind
      | |- preserves _ (foldM _ _ _) => apply preserves_foldM
      | |- preserves _ (forM _ _) => apply preserves_forM
      | |- preserves _ (try_ _) => apply preserves_try
      end
    | progress unfold from_store, resolve_in, ctx_resolve, UnmarshalAddressPB, deref, grant, revoke, put_mapping,
        set_unclaimed, saveSeenTxHash, newCoinContext, newETHContext, resolve_or_panic, coin_balanceOf, coin_transfer,
        coin_mintToGateway, coin_burn, eth_balanceOf, eth_transfer, eth_transferFrom, eth_mintToGateway,
        has_permission, mapping_request_ok, saveState, saveLocalAccount, saveForeignAccount
    | case_match ].

(** A deposit that is paid out touches the token contracts only. *)
Lemma frame_transferTokenDeposit `{DiademLib, EvmLib, Permissions P, EvmTokens E} {X}
    (part : GStore P → X) good w0 gx o t k i x :
  preserves (frame part good w0) (transferTokenDeposit gx o t k i x : M (GWorld P E) unit).
Proof. unfold transferTokenDeposit. frame_tac. Qed.
#[export] Hint Resolve frame_transferTokenDeposit : frame.

(** ** Reading off the parts of a run *)

Section Runs.
Context {P E : Type}.
Abbreviation World := (GWorld P E).
Implicit Types w : World.

Definition with_store (g : GStore P → GStore P) w : World :=
  mkGWorld (g (gw_store w)) (gw_coin w) (gw_eth w) (gw_evm w) (gw_events w).
Definition with_event (ev : GEvent) w : World :=
  mkGWorld (gw_store w) (gw_coin w) (gw_eth w) (gw_evm w) (gw_events w ++ [ev]).
Definition with_tokens w w1 : Prop := gw_store w1 = gw_store w ∧ gw_events w1 = gw_events w.

Lemma fail_with_not_ok {A} onErr e w (x : A) w' : fail_with onErr e w = (Ok x, w') → False.
Proof. by unfold fail_with; run_m. Qed.

Lemma or_emit_ok {A} onErr (m : M World A) w (x : A) w' : or_emit onErr m w = (Ok x, w') → m w = (Ok x, w').
Proof.
  unfold or_emit, fail_with. run_m. destruct (m w) as [[y|e|] w1]; cbn; by intros [= -> ->].
Qed.

Lemma lift_res_inv {A} (r : Res A) w x w' : (lift_res r : M World A) w = (Ok x, w') → r = Ok x ∧ w' = w.
Proof. by intros [= -> ->]. Qed.

Lemma from_store_inv {A} (g : GStore P → A) w x w' :
  (from_store g : M World A) w = (Ok x, w') → x = g (gw_store w) ∧ w' = w.
Proof. by intros [= <- <-]. Qed.

Lemma zoom_frame {V A} (get : World → V) put (m : M V A) w x w' :
  (∀ v w, with_tokens w (put v w)) → zoom get put m w = (x, w') → with_tokens w w'.
Proof. intros H. unfold zoom. destruct (m (get w)). intros [= _ <-]. apply H. Qed.
End Runs.
