(* ===== verification/GatewayWithdrawals.v ===== *)
(** * Withdrawals through the gateway

    The records of the file [Gateway] that make up a pending withdrawal (the list
    of withdrawers, the receipt in the account of the sender, the withdrawer in
    the account on Ethereum) agree in every world reached by any calls, and the
    receipts issued for an account on Ethereum carry distinct nonces, so that the
    contract on Ethereum pays each of them at most once. *)

From S2P Require Import Prelude Contract Coin EthCoin AddressMapper Store Middleware EvmTokens Gateway GatewayFrame.

Section Invariant.
Context {LIB : DiademLib} {SPEC : DiademLibSpec} {EVM : EvmLib} {RANGE : RangeOrder} {GLIB : GatewayLib}.
Context {P : Type} {PERM : Permissions P} {E : Type} {TOKENS : EvmTokens E}.
Abbreviation World := (GWorld P E).
Abbreviation GM := (M World).
Implicit Types (w : World) (s : GStore P) (a f : Address) (evs : list GEvent).

Definition receipt_of s a : option WithdrawalReceipt := la_WithdrawalReceipt (loadLocalAccount s a).
Definition withdrawer_of s f : option Address := fa_CurrentWithdrawer (loadForeignAccount s f).
Definition nonce_of s f : Z := fa_WithdrawalNonce (loadForeignAccount s f).

(** The account on Ethereum and the nonce of a receipt that was issued. *)
Definition issued_pair (ev : GEvent) : option (Address * Z) :=
  match ev with
  | WithdrawETHTopic r | WithdrawDiademCoinTopic r | WithdrawTokenTopic r =>
      Some (wr_TokenOwner r, wr_WithdrawalNonce r)
  | _ => None
  end.
Definition issued evs : list (Address * Z) := omap issued_pair evs.

(** The number of withdrawals reported as used. *)
Definition settled evs : Z :=
  sumZ (λ ev, match ev with MainnetWithdrawalEvent _ => 1 | _ => 0 end) evs.

Lemma issued_app evs evs' : issued (evs ++ evs') = issued evs ++ issued evs'.
Proof. apply omap_app. Qed.

Lemma settled_app evs evs' : settled (evs ++ evs') = settled evs + settled evs'.
Proof. apply sumZ_app. Qed.

Lemma settled_le_length evs : 0 <= settled evs <= Z.of_nat (length evs).
Proof.
  induction evs as [|ev evs IH]; [done|].
  change (ev :: evs) with ([ev] ++ evs). rewrite settled_app, length_app.
  assert (0 <= settled [ev] <= 1) by (by destruct ev). cbn [length]. lia.
Qed.

(** [W] is the list of withdrawers, which a batch keeps in memory while it runs. *)
Record winv (W : list Address) s evs : Prop := {
  wi_local : map_Forall (λ k acc, k = localAccountKey (la_Owner acc) ∧ wf_address (la_Owner acc)) (gs_local s);
  wi_foreign : map_Forall (λ k acc, k = foreignAccountKey (fa_Owner acc) ∧ wf_address (fa_Owner acc)) (gs_foreign s);
  wi_nodup : NoDup W;
  wi_members a : a ∈ W ↔ wf_address a ∧ is_Some (receipt_of s a);
  wi_receipt a r : wf_address a → receipt_of s a = Some r →
    wf_address (wr_TokenOwner r) ∧ withdrawer_of s (wr_TokenOwner r) = Some a ∧
    wr_WithdrawalNonce r = nonce_of s (wr_TokenOwner r);
  wi_withdrawer f a : wf_address f → withdrawer_of s f = Some a →
    wf_address a ∧ ∃ r, receipt_of s a = Some r ∧ wr_TokenOwner r = f;
  wi_nonce f : wf_address f → 0 <= nonce_of s f <= settled evs;
  wi_issued f n : (f, n) ∈ issued evs →
    wf_address f ∧ (n < nonce_of s f ∨ n = nonce_of s f ∧ is_Some (withdrawer_of s f));
  wi_fresh : NoDup (issued evs);
}.

(** ** Reading the accounts after a write *)

Lemma localAccountKey_inj a b : wf_address a → wf_address b → localAccountKey a = localAccountKey b → a = b.
Proof. apply prefix_key_inj2. Qed.
Lemma foreignAccountKey_inj a b : wf_address a → wf_address b → foreignAccountKey a = foreignAccountKey b → a = b.
Proof. apply prefix_key_inj2. Qed.

Definition put_local a (r : option WithdrawalReceipt) s : GStore P :=
  set_local (<[localAccountKey a := mkLocalAccount a r]> (gs_local s)) s.
Definition put_foreign f (n : Z) (x : option Address) s : GStore P :=
  set_foreign (<[foreignAccountKey f := mkForeignAccount f n x]> (gs_foreign s)) s.

Lemma receipt_of_put s a b r :
  wf_address a → wf_address b → receipt_of (put_local a r s) b = if decide (b = a) then r else receipt_of s b.
Proof.
  intros Ha Hb. unfold receipt_of, loadLocalAccount, put_local. cbn. rewrite lookup_insert.
  destruct (decide (b = a)) as [->|Hne]; [by rewrite decide_True|].
  rewrite decide_False; [done|]. intros Hk. apply Hne. symmetry. by apply localAccountKey_inj.
Qed.

Lemma foreign_of_put s f g n x :
  wf_address f → wf_address g →
  loadForeignAccount (put_foreign f n x s) g = if decide (g = f) then mkForeignAccount f n x else loadForeignAccount s g.
Proof.
  intros Hf Hg. unfold loadForeignAccount, put_foreign. cbn. rewrite lookup_insert.
  destruct (decide (g = f)) as [->|Hne]; [by rewrite decide_True|].
  rewrite decide_False; [done|]. intros Hk. apply Hne. symmetry. by apply foreignAccountKey_inj.
Qed.

Lemma withdrawer_of_put s f g n x :
  wf_address f → wf_address g →
  withdrawer_of (put_foreign f n x s) g = if decide (g = f) then x else withdrawer_of s g.
Proof. intros. unfold withdrawer_of. rewrite foreign_of_put by done. by case_decide. Qed.

Lemma nonce_of_put s f g n x :
  wf_address f → wf_address g →
  nonce_of (put_foreign f n x s) g = if decide (g = f) then n else nonce_of s g.
Proof. intros. unfold nonce_of. rewrite foreign_of_put by done. by case_decide. Qed.

Lemma local_owner W s evs a : winv W s evs → wf_address a → la_Owner (loadLocalAccount s a) = a.
Proof.
  intros Hw Ha. unfold loadLocalAccount. destruct (gs_local s !! _) as [acc|] eqn:Hl; [|done].
  destruct (wi_local _ _ _ Hw _ _ Hl) as [Hk Hwf]. cbn. symmetry. by apply localAccountKey_inj.
Qed.

Lemma foreign_owner W s evs f : winv W s evs → wf_address f → fa_Owner (loadForeignAccount s f) = f.
Proof.
  intros Hw Hf. unfold loadForeignAccount. destruct (gs_foreign s !! _) as [acc|] eqn:Hl; [|done].
  destruct (wi_foreign _ _ _ Hw _ _ Hl) as [Hk Hwf]. cbn. symmetry. by apply foreignAccountKey_inj.
Qed.

(** ** The transitions of the accounts *)

(** Only the accounts and the events matter. *)
Lemma winv_frame W s s' evs evs' :
  gs_local s' = gs_local s → gs_foreign s' = gs_foreign s →
  issued evs' = issued evs → settled evs <= settled evs' →
  winv W s evs → winv W s' evs'.
Proof.
  intros Hl Hf Hi Hs H.
  assert (Hr : ∀ a, receipt_of s' a = receipt_of s a)
    by (intros; unfold receipt_of, loadLocalAccount; by rewrite Hl).
  assert (Hx : ∀ a, loadForeignAccount s' a = loadForeignAccount s a)
    by (intros; unfold loadForeignAccount; by rewrite Hf).
  assert (Hwd : ∀ a, withdrawer_of s' a = withdrawer_of s a) by (intros; unfold withdrawer_of; by rewrite Hx).
  assert (Hn : ∀ a, nonce_of s' a = nonce_of s a) by (intros; unfold nonce_of; by rewrite Hx).
  destruct H. split; rewrite ?Hl, ?Hf, ?Hi; auto.
  - intros a. rewrite Hr. auto.
  - intros a r. rewrite Hr, Hwd, Hn. auto.
  - intros f a. rewrite Hwd, Hr. auto.
  - intros f Hwf. rewrite Hn. pose proof (wi_nonce0 f Hwf). lia.
  - intros f n. rewrite Hn, Hwd. auto.
Qed.

(** A receipt is issued. *)
Lemma winv_issue W s evs a f r ev :
  winv W s evs → wf_address a → wf_address f →
  receipt_of s a = None → withdrawer_of s f = None →
  wr_TokenOwner r = f → wr_WithdrawalNonce r = nonce_of s f → issued_pair ev = Some (f, nonce_of s f) →
  settled [ev] = 0 →
  winv (W ++ [a]) (put_local a (Some r) (put_foreign f (nonce_of s f) (Some a) s)) (evs ++ [ev]).
Proof.
  intros H Ha Hf Hra Hwf Hro Hrn Hev Hse.
  set (s1 := put_foreign f (nonce_of s f) (Some a) s). set (s2 := put_local a (Some r) s1).
  assert (Hr : ∀ b, wf_address b → receipt_of s2 b = if decide (b = a) then Some r else receipt_of s b)
    by (intros b Hb; apply (receipt_of_put s1); done).
  assert (Hw : ∀ g, wf_address g → withdrawer_of s2 g = if decide (g = f) then Some a else withdrawer_of s g)
    by (intros g Hg; apply (withdrawer_of_put s); done).
  assert (Hn : ∀ g, wf_address g → nonce_of s2 g = nonce_of s g).
  { intros g Hg. etransitivity; [apply (nonce_of_put s); done|]. by case_decide; subst. }
  assert (Hi : issued (evs ++ [ev]) = issued evs ++ [(f, nonce_of s f)])
    by (rewrite issued_app; cbn; by rewrite Hev).
  assert (Hs : settled (evs ++ [ev]) = settled evs) by (rewrite settled_app; lia).
  assert (Hout : a ∉ W) by (rewrite (wi_members _ _ _ H), Hra; by intros [_ []]).
  split; rewrite ?Hi, ?Hs.
  - apply map_Forall_insert_2; [done|apply H].
  - apply map_Forall_insert_2; [done|apply H].
  - apply NoDup_app. split_and!; [apply H| |apply NoDup_singleton]. by intros b Hb ->%list_elem_of_singleton.
  - intros b. rewrite elem_of_app, list_elem_of_singleton, (wi_members _ _ _ H). split.
    + intros [[Hb [x Hx]]| ->]; (split; [done|]); rewrite Hr by done; case_decide; rewrite ?Hx;
        try done; by eexists.
    + intros [Hb Hx]. rewrite Hr in Hx by done. case_decide; [by right|by left].
  - intros b x Hb Hx. rewrite Hr in Hx by done. case_decide as Hba.
    + injection Hx as <-. subst b. rewrite Hro, Hw, Hn by done. by rewrite decide_True.
    + destruct (wi_receipt _ _ _ H b x Hb Hx) as (Hwf' & Hwd & Hnx). rewrite Hw, Hn by done.
      rewrite decide_False by (intros Heq; rewrite Heq in Hwd; congruence). done.
  - intros g b Hg Hwd. rewrite Hw in Hwd by done. case_decide as Hgf.
    + injection Hwd as <-. subst g. split; [done|]. exists r. rewrite Hr by done. by rewrite decide_True.
    + destruct (wi_withdrawer _ _ _ H g b Hg Hwd) as (Hb & x & Hx & Ho). split; [done|]. exists x.
      rewrite Hr by done. rewrite decide_False by congruence. done.
  - intros g Hg. rewrite Hn by done. by apply H.
  - intros g n [Hin|Heq%list_elem_of_singleton]%elem_of_app.
    + destruct (wi_issued _ _ _ H g n Hin) as [Hg Hcase]. split; [done|]. rewrite Hn, Hw by done.
      case_decide; [|done]. subst. destruct Hcase as [|[-> _]]; [by left|right; eauto].
    + injection Heq as -> ->. split; [done|]. right. rewrite Hn, Hw by done. rewrite decide_True by done. eauto.
  - apply NoDup_app. split_and!; [apply H| |apply NoDup_singleton].
    intros p Hp ->%list_elem_of_singleton. destruct (wi_issued _ _ _ H _ _ Hp) as [_ [|[_ Hs']]]; [lia|].
    rewrite Hwf in Hs'. by destruct Hs'.
Qed.

(** A withdrawal is reported as used. *)
Lemma winv_complete W W' s evs a f r ev :
  winv W s evs → settled evs < 2 ^ 64 - 1 → wf_address f → withdrawer_of s f = Some a → receipt_of s a = Some r →
  NoDup W' → (∀ b, b ∈ W' ↔ b ∈ W ∧ b ≠ a) →
  issued_pair ev = None → settled [ev] = 1 →
  winv W' (put_foreign f (u64 (nonce_of s f + 1)) None (put_local a None s)) (evs ++ [ev]).
Proof.
  intros H Hmax Hf Hwd Hra Hnd HW' Hev Hse.
  destruct (wi_withdrawer _ _ _ H f a Hf Hwd) as (Ha & r' & Hr' & Hro).
  assert (r' = r) as -> by congruence.
  pose proof (wi_nonce _ _ _ H f Hf) as Hnf. rewrite u64_small by lia.
  set (s1 := put_local a None s). set (s2 := put_foreign f (nonce_of s f + 1) None s1).
  assert (Hr : ∀ b, wf_address b → receipt_of s2 b = if decide (b = a) then None else receipt_of s b)
    by (intros b Hb; apply (receipt_of_put s); done).
  assert (Hw : ∀ g, wf_address g → withdrawer_of s2 g = if decide (g = f) then None else withdrawer_of s g)
    by (intros g Hg; apply (withdrawer_of_put s1); done).
  assert (Hn : ∀ g, wf_address g → nonce_of s2 g = if decide (g = f) then nonce_of s f + 1 else nonce_of s g)
    by (intros g Hg; apply (nonce_of_put s1); done).
  assert (Hi : issued (evs ++ [ev]) = issued evs)
    by (rewrite issued_app; cbn; rewrite Hev; apply app_nil_r).
  assert (Hs : settled (evs ++ [ev]) = settled evs + 1) by (rewrite settled_app; lia).
  split; rewrite ?Hi, ?Hs.
  - apply map_Forall_insert_2; [done|apply H].
  - apply map_Forall_insert_2; [done|apply H].
  - done.
  - intros b. rewrite HW', (wi_members _ _ _ H). split.
    + intros [[Hb Hx] Hne]. split; [done|]. rewrite Hr by done. by rewrite decide_False.
    + intros [Hb Hx]. rewrite Hr in Hx by done. case_decide; [by destruct Hx|done].
  - intros b x Hb Hx. rewrite Hr in Hx by done. case_decide as Hba; [done|].
    destruct (wi_receipt _ _ _ H b x Hb Hx) as (Hwf' & Hwb & Hnx). rewrite Hw, Hn by done.
    rewrite !decide_False by congruence. done.
  - intros g b Hg Hwb. rewrite Hw in Hwb by done. case_decide as Hgf; [done|].
    destruct (wi_withdrawer _ _ _ H g b Hg Hwb) as (Hb & x & Hx & Ho). split; [done|]. exists x.
    rewrite Hr by done. rewrite decide_False by congruence. done.
  - intros g Hg. rewrite Hn by done. case_decide; [lia|]. pose proof (wi_nonce _ _ _ H g Hg). lia.
  - intros g n Hin. destruct (wi_issued _ _ _ H g n Hin) as [Hg Hcase]. split; [done|].
    rewrite Hn, Hw by done. case_decide; [|done]. subst. left. lia.
  - apply H.
Qed.

(** A receipt is signed. *)
Lemma winv_sign W s evs a r r' :
  winv W s evs → wf_address a → receipt_of s a = Some r →
  wr_TokenOwner r' = wr_TokenOwner r → wr_WithdrawalNonce r' = wr_WithdrawalNonce r →
  winv W (put_local a (Some r') s) evs.
Proof.
  intros H Ha Hra Ho Hn. set (s1 := put_local a (Some r') s).
  assert (Hr : ∀ b, wf_address b → receipt_of s1 b = if decide (b = a) then Some r' else receipt_of s b)
    by (intros b Hb; by apply (receipt_of_put s)).
  split; try apply H.
  - apply map_Forall_insert_2; [done|apply H].
  - intros b. rewrite (wi_members _ _ _ H). split; intros [Hb Hx]; (split; [done|]); rewrite Hr in * by done;
      case_decide; subst; rewrite ?Hra in *; eauto.
  - intros b x Hb Hx. rewrite Hr in Hx by done. case_decide; [|by apply H].
    injection Hx as <-. subst. rewrite Ho, Hn. by apply H.
  - intros f b Hf Hwd. destruct (wi_withdrawer _ _ _ H f b Hf Hwd) as (Hb & x & Hx & Hxo). split; [done|].
    rewrite Hr by done. case_decide; [|by eauto]. subst. exists r'. split; [done|]. congruence.
Qed.

(** ** The list of withdrawers *)

Lemma same_address_true a b : same_address a b = true ↔ a = b.
Proof.
  unfold same_address. rewrite andb_true_iff, String.eqb_eq, (cmp_eqb local_compare).
  destruct a, b; cbn. naive_solver.
Qed.

Lemma existsb_same_address a (l : list Address) : existsb (same_address a) l = true ↔ a ∈ l.
Proof.
  rewrite existsb_exists. split.
  - intros (b & Hb & ->%same_address_true). by apply list_elem_of_In.
  - intros Ha. exists a. split; [by apply list_elem_of_In|by apply same_address_true].
Qed.

Lemma swap_out_perm a before after l :
  swap_out a before after = Some l → a :: l ≡ₚ before ++ after.
Proof.
  revert before. induction after as [|b after IH]; intros before; cbn; [done|].
  destruct (same_address a b) eqn:Hab.
  - apply same_address_true in Hab as <-. intros [= <-]. rewrite <- Permutation_middle. constructor.
    apply Permutation_app_head. destruct (last after) as [x|] eqn:Hl.
    + apply last_Some in Hl as [l' ->]. rewrite length_app, Nat.add_sub, take_app_length.
      apply Permutation_cons_append.
    + by apply last_None in Hl as ->.
  - intros Hsw%IH. by rewrite Hsw, <- app_assoc.
Qed.

Lemma swap_out_None a before after : swap_out a before after = None → a ∉ after.
Proof.
  revert before. induction after as [|b after IH]; intros before; cbn; [set_solver|].
  destruct (same_address a b) eqn:Hab; [done|]. intros Hn%IH [->|Hin]%elem_of_cons; [|done].
  by rewrite (proj2 (same_address_true b b) eq_refl) in Hab.
Qed.

(** Removing a member: it succeeds and takes out exactly that member. *)
Lemma removeTokenWithdrawer_ok state a :
  NoDup (gs_TokenWithdrawers state) → a ∈ gs_TokenWithdrawers state →
  ∃ l, removeTokenWithdrawer state a =
      Ok (mkGatewayState (gs_Owner state) (gs_NextContractMappingID state) (gs_LastMainnetBlockNum state) l) ∧
    NoDup l ∧ ∀ b, b ∈ l ↔ b ∈ gs_TokenWithdrawers state ∧ b ≠ a.
Proof.
  intros Hnd Hin. unfold removeTokenWithdrawer.
  destruct (swap_out a [] (gs_TokenWithdrawers state)) as [l|] eqn:Hsw;
    [|by apply swap_out_None in Hsw].
  apply swap_out_perm in Hsw. cbn in Hsw. exists l. split; [done|].
  rewrite <- Hsw in Hnd. apply NoDup_cons in Hnd as [Hout Hnd]. split; [done|].
  intros b. rewrite <- Hsw, elem_of_cons. split; [|naive_solver].
  intros Hb. split; [by right|]. by intros ->.
Qed.

End Invariant.

(** ** Calls that leave the accounts alone *)

Definition accounts_part {P} (s : GStore P) := (gs_local s, gs_foreign s, gs_state s).
Definition no_receipt (ev : GEvent) : bool := match issued_pair ev with Some _ => false | None => true end.

(** From [w0] on: the accounts and the state are as they were and the events only
    grew, without receipts. *)
Abbreviation quiet := (frame accounts_part no_receipt).

Lemma quiet_inv {P E} (w0 w : GWorld P E) :
  quiet w0 w →
  gs_local (gw_store w) = gs_local (gw_store w0) ∧
  gs_foreign (gw_store w) = gs_foreign (gw_store w0) ∧
  gs_state (gw_store w) = gs_state (gw_store w0) ∧
  ∃ new, gw_events w = gw_events w0 ++ new ∧ issued new = [].
Proof.
  intros ([= H1 H2 H3] & new & He & Hn). split_and!; try done. exists new. split; [done|]. clear -Hn.
  induction Hn as [|ev new Hev _ IH]; [done|]. cbn. unfold no_receipt in Hev. by destruct (issued_pair ev).
Qed.

Section Quiet.
Context {LIB : DiademLib} {SPEC : DiademLibSpec} {EVM : EvmLib} {RANGE : RangeOrder} {GLIB : GatewayLib}.
Context {P : Type} {PERM : Permissions P} {E : Type} {TOKENS : EvmTokens E}.
Abbreviation World := (GWorld P E).
Abbreviation GM := (M World).
Implicit Types (w : World).

Lemma quiet_storeUnclaimedToken w0 d : preserves (quiet w0) (storeUnclaimedToken d : GM unit).
Proof. unfold storeUnclaimedToken. frame_tac. Qed.
Hint Resolve quiet_storeUnclaimedToken : frame.

Lemma quiet_processDeposit w0 tg gx ev d : preserves (quiet w0) (processDeposit tg gx ev d : GM bool).
Proof. unfold processDeposit. frame_tac. Qed.

Lemma quiet_AddOracle w0 gx o : preserves (quiet w0) (AddOracle gx o : GM unit).
Proof. unfold AddOracle, addOracle. frame_tac. Qed.
Lemma quiet_RemoveOracle w0 gx o : preserves (quiet w0) (RemoveOracle gx o : GM unit).
Proof. unfold RemoveOracle, removeOracle. frame_tac. Qed.

Lemma quiet_reclaimFor w0 gx o t u : preserves (quiet w0) (reclaimDepositorTokensForContract gx o t u : GM unit).
Proof. unfold reclaimDepositorTokensForContract. frame_tac. Qed.
Hint Resolve quiet_reclaimFor : frame.
Lemma quiet_reclaim w0 gx o : preserves (quiet w0) (reclaimDepositorTokens gx o : GM unit).
Proof. unfold reclaimDepositorTokens. frame_tac. Qed.
Hint Resolve quiet_reclaim : frame.
Lemma quiet_ReclaimDepositorTokens w0 gx ds : preserves (quiet w0) (ReclaimDepositorTokens gx ds : GM unit).
Proof. unfold ReclaimDepositorTokens. frame_tac. Qed.
Lemma quiet_ReclaimContractTokens w0 gx t : preserves (quiet w0) (ReclaimContractTokens gx t : GM unit).
Proof. unfold ReclaimContractTokens. frame_tac. Qed.
Lemma quiet_AddAuthorized w0 gx req : preserves (quiet w0) (AddAuthorizedContractMapping gx req : GM unit).
Proof. unfold AddAuthorizedContractMapping. frame_tac. Qed.
Lemma quiet_VerifyContractCreators w0 gx l : preserves (quiet w0) (VerifyContractCreators gx l : GM unit).
Proof. unfold VerifyContractCreators, confirmContractMapping. frame_tac. Qed.
End Quiet.

(** ** What the handlers do to the accounts *)

Section Handlers.
Context {LIB : DiademLib} {SPEC : DiademLibSpec} {EVM : EvmLib} {RANGE : RangeOrder} {GLIB : GatewayLib}.
Context {P : Type} {PERM : Permissions P} {E : Type} {TOKENS : EvmTokens E}.
Abbreviation World := (GWorld P E).
Abbreviation GM := (M World).
Implicit Types (w : World) (s : GStore P) (a f : Address).

(** The account on Ethereum that a withdrawal goes to. *)
Definition goes_to (gx : GCtx) (recipient : option Address) f : Prop :=
  recipient = Some f ∨ recipient = None ∧ resolveToEthAddr gx (sender gx) = Ok f.

Lemma beginWithdrawal_inv onErr gx recipient w acc f fa w' :
  beginWithdrawal onErr gx recipient w = (Ok (acc, f, fa), w') →
  w' = w ∧ goes_to gx recipient f ∧
  acc = loadLocalAccount (gw_store w) (sender gx) ∧ receipt_of (gw_store w) (sender gx) = None ∧
  fa = loadForeignAccount (gw_store w) f ∧ withdrawer_of (gw_store w) f = None.
Proof.
  unfold beginWithdrawal. intros H.
  apply bind_inv in H as (acc1 & w1 & [-> ->]%from_store_inv & H).
  apply bind_inv in H as (u & w1 & Hr & H).
  case_bool_decide as Hrec; [apply ret_inv in Hr as [_ ->]|by apply fail_with_not_ok in Hr].
  apply bind_inv in H as (f1 & w1 & Hf & H).
  assert (w1 = w ∧ goes_to gx recipient f1) as [-> Hto].
  { unfold goes_to. destruct recipient as [r|]; [apply ret_inv in Hf as [-> ->]; auto|].
    apply bind_inv in Hf as (m & w2 & Hm%or_emit_ok & Hf%or_emit_ok).
    apply lift_res_inv in Hf as [Hf ->]. unfold ctx_resolve in Hm.
    case_match; [|done]. apply ret_inv in Hm as [_ ->]. auto. }
  apply bind_inv in H as (fa1 & w1 & [-> ->]%from_store_inv & H).
  apply bind_inv in H as (u' & w1 & Hr & H).
  case_bool_decide as Hwd; [apply ret_inv in Hr as [_ ->]|by apply fail_with_not_ok in Hr].
  apply ret_inv in H as [[= -> -> ->] ->]. done.
Qed.

(** The common shape of the three methods. *)
Definition issues (gx : GCtx) (recipient : option Address) (r : WithdrawalReceipt) w w' : Prop :=
  ∃ onErr topic w1,
    goes_to gx recipient (wr_TokenOwner r) ∧
    receipt_of (gw_store w) (sender gx) = None ∧ withdrawer_of (gw_store w) (wr_TokenOwner r) = None ∧
    wr_WithdrawalNonce r = nonce_of (gw_store w) (wr_TokenOwner r) ∧ wr_OracleSignature r = None ∧
    with_tokens w w1 ∧
    (topic = WithdrawETHTopic ∨ topic = WithdrawDiademCoinTopic ∨ topic = WithdrawTokenTopic) ∧
    finishWithdrawal onErr topic gx (loadLocalAccount (gw_store w) (sender gx))
      (loadForeignAccount (gw_store w) (wr_TokenOwner r)) r w1 = (Ok (), w').

Lemma WithdrawToken_issues gx req w w' :
  WithdrawToken gx req w = (Ok (), w') → ∃ r, issues gx (wt_Recipient req) r w w'.
Proof.
  unfold WithdrawToken. destruct (wt_TokenContract req) as [tok|]; [|done]. intros H.
  apply bind_inv in H as ([] & w1 & Hk & H). assert (w1 = w) as ->.
  { destruct (wt_TokenKind req); try done;
      try (by apply ret_inv in Hk as [_ ->]); by apply guard_not_inv in Hk as [_ ->]. }
  apply bind_inv in H as ([[acc f] fa] & w1 & (-> & Hto & -> & Hr & -> & Hwd)%beginWithdrawal_inv & H).
  apply bind_inv in H as (teth & w1 & Ht%or_emit_ok & H).
  apply bind_inv in Ht as (? & ? & [-> ->]%from_store_inv & [Ht ->]%lift_res_inv).
  apply bind_inv in H as ([] & w1 & Hx%or_emit_ok & H).
  exists (mkReceipt f teth (wt_TokenKind req) (wt_TokenID req) (wt_TokenAmount req)
    (fa_WithdrawalNonce (loadForeignAccount (gw_store w) f)) None).
  exists (WithdrawTokenError req), WithdrawTokenTopic, w1.
  split_and!; [exact Hto|exact Hr|exact Hwd|reflexivity|reflexivity| |by auto|exact H].
  destruct (wt_TokenKind req); try (by apply ret_inv in Hx as [_ ->]);
    (by eapply zoom_frame, Hx).
Qed.

Lemma WithdrawETH_issues tg gx req w w' :
  WithdrawETH tg gx req w = (Ok (), w') → ∃ r, issues gx (we_Recipient req) r w w'.
Proof.
  unfold WithdrawETH. destruct (we_Amount req) as [x|], (we_MainnetGateway req) as [g|]; try done. intros H.
  apply bind_inv in H as ([] & w1 & [_ ->]%guard_not_inv & H).
  apply bind_inv in H as ([[acc f] fa] & w1 & (-> & Hto & -> & Hr & -> & Hwd)%beginWithdrawal_inv & H).
  apply bind_inv in H as (eth & w1 & He & H). unfold newETHContext, resolve_or_panic in He.
  case_match; [|done]. apply ret_inv in He as [-> ->].
  apply bind_inv in H as ([] & w1 & Hx & H).
  exists (mkReceipt f g TokenKind_ETH None (Some x)
    (fa_WithdrawalNonce (loadForeignAccount (gw_store w) f)) None).
  exists (WithdrawETHError req), WithdrawETHTopic, w1.
  split_and!; [exact Hto|exact Hr|exact Hwd|reflexivity|reflexivity| |by auto|exact H].
  by eapply zoom_frame, Hx.
Qed.

Lemma WithdrawDiademCoin_issues tg gx req w w' :
  WithdrawDiademCoin tg gx req w = (Ok (), w') → ∃ r, issues gx (wc_Recipient req) r w w'.
Proof.
  unfold WithdrawDiademCoin. destruct (wc_Amount req) as [x|], (wc_TokenContract req) as [g|]; try done. intros H.
  apply bind_inv in H as ([] & w1 & [_ ->]%guard_not_inv & H).
  apply bind_inv in H as ([[acc f] fa] & w1 & (-> & Hto & -> & Hr & -> & Hwd)%beginWithdrawal_inv & H).
  apply bind_inv in H as (coin & w1 & He & H). unfold newCoinContext, resolve_or_panic in He.
  case_match; [|done]. apply ret_inv in He as [-> ->].
  apply bind_inv in H as ([] & w1 & Hx & H).
  exists (mkReceipt f g TokenKind_DiademCoin None (Some x)
    (fa_WithdrawalNonce (loadForeignAccount (gw_store w) f)) None).
  exists (WithdrawDiademCoinError req), WithdrawDiademCoinTopic, w1.
  split_and!; [exact Hto|exact Hr|exact Hwd|reflexivity|reflexivity| |by auto|exact H].
  by eapply zoom_frame, Hx.
Qed.

Definition with_withdrawers (W : list Address) (state : GatewayState) : GatewayState :=
  mkGatewayState (gs_Owner state) (gs_NextContractMappingID state) (gs_LastMainnetBlockNum state) W.

(** The end of a withdrawal. *)
Lemma finishWithdrawal_inv onErr topic gx acc fa r w w' :
  finishWithdrawal onErr topic gx acc fa r w = (Ok (), w') →
  w' = with_store (λ s, set_gstate (with_withdrawers
         (gs_TokenWithdrawers (loadState (gw_store w)) ++ [sender gx]) (loadState (gw_store w)))
         (put_local (la_Owner acc) (Some r)
           (put_foreign (fa_Owner fa) (fa_WithdrawalNonce fa) (Some (sender gx)) s)))
       (with_event (topic r) w).
Proof.
  unfold finishWithdrawal. intros H.
  apply bind_inv in H as ([] & w1 & [= <-] & H). apply bind_inv in H as ([] & w1 & Hf & H).
  apply bind_inv in H as ([] & w2 & Hl & H). apply bind_inv in H as (st & w3 & [-> ->]%from_store_inv & H).
  apply bind_inv in H as (st & w3 & [Ha ->]%or_emit_ok%lift_res_inv & H).
  injection Hf as <-. injection Hl as <-. injection H as <-.
  unfold addTokenWithdrawer in Ha. destruct (existsb _ _); [done|]. by injection Ha as <-.
Qed.
End Handlers.

(** ** The invariant along calls *)

Section Steps.
Context {LIB : DiademLib} {SPEC : DiademLibSpec} {EVM : EvmLib} {RANGE : RangeOrder} {GLIB : GatewayLib}.
Context {P : Type} {PERM : Permissions P} {E : Type} {TOKENS : EvmTokens E}.
Abbreviation World := (GWorld P E).
Abbreviation GM := (M World).
Implicit Types (w : World) (s : GStore P) (a f : Address) (W : list Address).

Definition withdrawers w : list Address := gs_TokenWithdrawers (loadState (gw_store w)).

(** The nonces are 64 bits wide: the invariant holds as long as fewer events were
    emitted than there are nonces. *)
Definition few_events w : Prop := Z.of_nat (length (gw_events w)) < 2 ^ 64.
Definition cinv W w : Prop := few_events w → winv W (gw_store w) (gw_events w).

Lemma few_events_mono w w' new : gw_events w' = gw_events w ++ new → few_events w' → few_events w.
Proof. unfold few_events. intros ->. rewrite length_app. lia. Qed.

Lemma cinv_quiet W w w' : quiet w w' → cinv W w → cinv W w'.
Proof.
  intros (Hl & Hf & _ & new & He & Hi)%quiet_inv Hc Hfew.
  assert (H : winv W (gw_store w) (gw_events w)) by (apply Hc; by eapply few_events_mono).
  eapply winv_frame; [exact Hl|exact Hf|..|exact H]; rewrite He.
  - by rewrite issued_app, Hi, app_nil_r.
  - rewrite settled_app. pose proof (settled_le_length new). lia.
Qed.

Lemma quiet_withdrawers w w' : quiet w w' → withdrawers w' = withdrawers w.
Proof. intros (_ & _ & Hs & _)%quiet_inv. unfold withdrawers, loadState. by rewrite Hs. Qed.

Lemma cinv_withdraw gx rc r w w' :
  wf_address (sender gx) → (∀ f, goes_to gx rc f → wf_address f) →
  issues gx rc r w w' → cinv (withdrawers w) w → cinv (withdrawers w') w'.
Proof.
  intros Hs Hto (onErr & topic & w1 & Hgo & Hr & Hwd & Hn & _ & [Hst Hev] & Htopic & ->%finishWithdrawal_inv) Hc Hfew.
  specialize (Hto _ Hgo). set (f := wr_TokenOwner r) in *.
  assert (Hc' : winv (withdrawers w) (gw_store w) (gw_events w)).
  { apply Hc. eapply few_events_mono; [|exact Hfew]. cbn. by rewrite Hev. }
  eapply winv_frame; [reflexivity|reflexivity|reflexivity|reflexivity|].
  cbn [gw_store gw_events with_store with_event].
  replace (withdrawers _) with (withdrawers w ++ [sender gx]) by (unfold withdrawers; cbn; by rewrite Hst).
  eapply (winv_frame _ (put_local (sender gx) (Some r) (put_foreign f (nonce_of (gw_store w) f) (Some (sender gx)) (gw_store w)))
    _ (gw_events w ++ [topic r])).
  - cbn. by rewrite Hst, (local_owner _ _ _ _ Hc' Hs).
  - cbn. by rewrite Hst, (foreign_owner _ _ _ _ Hc' Hto).
  - by rewrite Hev.
  - by rewrite Hev.
  - apply winv_issue; try done.
    + by destruct Htopic as [->|[->| ->]]; cbn; rewrite Hn.
    + by destruct Htopic as [->|[->| ->]].
Qed.

(** A reported withdrawal either has no effect on the store or settles the
    withdrawal that is pending for the account on Ethereum. *)
Lemma completeTokenWithdraw_run state wd w :
  winv (gs_TokenWithdrawers state) (gw_store w) (gw_events w) →
  (∀ f, mw_TokenOwner wd = Some f → wf_address f) →
  (∃ e, completeTokenWithdraw state wd w = (Err e, w)) ∨
  ∃ f a r l, mw_TokenOwner wd = Some f ∧ withdrawer_of (gw_store w) f = Some a ∧
    receipt_of (gw_store w) a = Some r ∧ NoDup l ∧
    (∀ b, b ∈ l ↔ b ∈ gs_TokenWithdrawers state ∧ b ≠ a) ∧
    completeTokenWithdraw state wd w =
      (Ok (with_withdrawers l state),
       with_store (λ s, put_foreign f (u64 (nonce_of (gw_store w) f + 1)) None (put_local a None s)) w).
Proof.
  intros H Hf. unfold completeTokenWithdraw. destruct (mw_TokenOwner wd) as [f|]; [|by left; eexists].
  specialize (Hf f eq_refl). unfold guard_not at 1.
  destruct (negb _ && _); [by left; eexists|].
  assert (Hk : ∃ r, (match mw_TokenKind wd with
      | TokenKind_ERC721 => mret ()
      | TokenKind_Other _ => throw (ErrMsg "withdrawals not supported")
      | _ => guard_not (bool_decide (mw_TokenAmount wd = None)) ErrInvalidRequest
      end : GM unit) w = (r, w) ∧ r ≠ Panic).
  { unfold guard_not. destruct (mw_TokenKind wd); try (by eexists); case_match; by eexists. }
  destruct Hk as (r & Hk & Hnp). m_eval. m_eval_in Hk. rewrite Hk.
  destruct r as [[]|e|]; [|by left; eexists|done]. unfold from_store. m_eval.
  destruct (fa_CurrentWithdrawer (loadForeignAccount (gw_store w) f)) as [a|] eqn:Hwd; [|by left; eexists].
  destruct (wi_withdrawer _ _ _ H f a Hf Hwd) as (Ha & r & Hr & Hro).
  rewrite bool_decide_eq_false_2 by (unfold receipt_of in Hr; by rewrite Hr).
  destruct (removeTokenWithdrawer_ok state a) as (l & Hl & Hnd & Hmem); [apply H| |].
  { apply H. split; [done|]. by exists r. }
  right. exists f, a, r, l. split_and!; [done..|].
  unfold saveLocalAccount, saveForeignAccount, on_store. m_eval.
  by rewrite Hl, (local_owner _ _ _ a H Ha), (foreign_owner _ _ _ f H Hf).
Qed.

Lemma completeTokenWithdraw_events state wd w (r : Res GatewayState) w' :
  completeTokenWithdraw state wd w = (r, w') → gw_events w' = gw_events w.
Proof.
  intros H.
  assert (Hp : preserves (λ v, gw_events v = gw_events w) (completeTokenWithdraw state wd : GM GatewayState)).
  { unfold completeTokenWithdraw, saveForeignAccount, saveLocalAccount, on_store, from_store. pres. }
  pose proof (Hp w eq_refl) as Hp1. unfold wp in Hp1. by rewrite H in Hp1.
Qed.

Lemma cinv_complete state wd w st' w' ev :
  (∀ f, mw_TokenOwner wd = Some f → wf_address f) →
  issued_pair ev = None → settled [ev] = 1 →
  cinv (gs_TokenWithdrawers state) w → completeTokenWithdraw state wd w = (Ok st', w') →
  cinv (gs_TokenWithdrawers st') (with_event ev w').
Proof.
  intros Hf Hi Hs Hc H Hfew.
  pose proof (completeTokenWithdraw_events _ _ _ _ _ H) as Hev.
  assert (Hc' : winv (gs_TokenWithdrawers state) (gw_store w) (gw_events w)).
  { apply Hc. eapply few_events_mono; [|exact Hfew]. cbn. by rewrite Hev. }
  destruct (completeTokenWithdraw_run state wd w Hc' Hf)
    as [[e He]|(f & a & r & l & Ho & Hwd & Hr & Hnd & Hl & Hrun)]; [congruence|].
  rewrite Hrun in H. injection H as <- <-. cbn [gw_store gw_events with_store with_event].
  eapply winv_complete; [exact Hc'| |by apply Hf|exact Hwd|exact Hr|exact Hnd|exact Hl|done|done].
  unfold few_events in Hfew. cbn in Hfew. rewrite length_app in Hfew.
  pose proof (settled_le_length (gw_events w)). cbn in Hfew. lia.
Qed.

Lemma cinv_processWithdrawal tg gx state ev wd w r w' :
  (∀ f, mw_TokenOwner wd = Some f → wf_address f) →
  cinv (gs_TokenWithdrawers state) w → processWithdrawal tg gx state ev wd w = (Ok r, w') →
  cinv (gs_TokenWithdrawers (default state r)) w'.
Proof.
  intros Hf Hc H. unfold processWithdrawal in H.
  apply bind_inv in H as ([] & w1 & [_ ->]%guard_not_inv & H).
  apply bind_inv in H as ([] & w1 & [_ ->]%guard_not_inv & H).
  apply bind_inv in H as (seen & w1 & [-> ->]%from_store_inv & H).
  destruct (_ && _).
  { injection H as <- <-. eapply cinv_quiet; [|exact Hc]. apply (frame_run accounts_part no_receipt (emit _)). auto with frame. }
  apply bind_inv in H as (x & w1 & Hx & H). unfold try_ in Hx.
  destruct (completeTokenWithdraw state wd w) as [[st|e|] w2] eqn:Hcomp; [| |done]; injection Hx as <- <-.
  - apply bind_inv in H as ([] & w3 & [= <-] & H). apply bind_inv in H as ([] & w3 & Hsave & H).
    apply ret_inv in H as [-> ->]. cbn.
    assert (Hc2 : cinv (gs_TokenWithdrawers st) (with_event (MainnetWithdrawalEvent wd) w2))
      by (by eapply (cinv_complete state wd w)).
    eapply cinv_quiet; [|exact Hc2].
    assert (Hq : preserves (quiet (with_event (MainnetWithdrawalEvent wd) w2))
      (if gx_FeatureEnabled gx TGCheckTxHashFeature false then
         saveSeenTxHash (mw_TxHash wd) (mw_TokenKind wd) else mret () : GM unit)) by frame_tac.
    pose proof (frame_run accounts_part no_receipt _ _ Hq) as Hq'. unfold with_event in Hq' at 2. by rewrite Hsave in Hq'.
  - apply bind_inv in H as ([] & w3 & [= <-] & H). apply ret_inv in H as [-> ->]. cbn.
    intros Hfew. pose proof (completeTokenWithdraw_events _ _ _ _ _ Hcomp) as Hev.
    assert (Hc' : winv (gs_TokenWithdrawers state) (gw_store w) (gw_events w)).
    { apply Hc. eapply few_events_mono; [|exact Hfew]. cbn. by rewrite Hev. }
    destruct (completeTokenWithdraw_run state wd w Hc' Hf)
      as [[e' He]|(f & a & r & l & Ho & Hwd & Hr & Hnd & Hl & Hrun)]; [|congruence].
    rewrite He in Hcomp. injection Hcomp as <- <-.
    eapply (cinv_quiet _ w); [|exact Hc|exact Hfew]. apply (frame_run accounts_part no_receipt (emit _)). auto with frame.
Qed.

Definition wf_opt (o : option Address) : Prop := ∀ a, o = Some a → wf_address a.
Definition wf_event (ev : MainnetEvent) : Prop :=
  match ev_Payload ev with
  | Payload_Deposit d =>
      wf_opt (md_TokenOwner d) ∧ wf_opt (md_TokenContract d) ∧ 0 <= default 0 (md_TokenAmount d)
  | Payload_Withdrawal w => wf_opt (mw_TokenOwner w)
  | Payload_None => True
  end.

Lemma cinv_processEvent tg gx l ev w l' w' :
  wf_event ev → cinv (gs_TokenWithdrawers (bl_state l)) w → processEvent tg gx l ev w = (Ok l', w') →
  cinv (gs_TokenWithdrawers (bl_state l')) w'.
Proof.
  intros Hev Hc H. unfold processEvent in H. unfold wf_event in Hev.
  apply bind_inv in H as ([] & w1 & [_ ->]%guard_not_inv & H).
  destruct (_ <=? _); [by apply ret_inv in H as [-> ->]|].
  assert (Hcount : ∀ st, gs_TokenWithdrawers (bl_state (count_block ev st l)) = gs_TokenWithdrawers st)
    by (intros; unfold count_block; by destruct (_ <? _)).
  destruct (ev_Payload ev) as [d|wd|].
  - apply bind_inv in H as (c & w1 & Hd & H). apply ret_inv in H as [-> ->].
    assert (Hc1 : cinv (gs_TokenWithdrawers (bl_state l)) w1).
    { eapply cinv_quiet; [|exact Hc]. pose proof (frame_run accounts_part no_receipt _ _ (quiet_processDeposit w tg gx ev d)) as Hq.
      by rewrite Hd in Hq. }
    destruct c; [by rewrite Hcount|done].
  - apply bind_inv in H as (r & w1 & Hd & H). apply ret_inv in H as [-> ->].
    pose proof (cinv_processWithdrawal _ _ _ _ _ _ _ _ Hev Hc Hd) as Hc1.
    destruct r; [by rewrite Hcount|done].
  - by apply ret_inv in H as [-> ->].
Qed.

(** A write of the state with a given list of withdrawers. *)
Lemma cinv_saveState st w : cinv (gs_TokenWithdrawers st) w → cinv (withdrawers (saveState st w).2) (saveState st w).2.
Proof. intros Hc Hfew. apply (winv_frame _ (gw_store w) _ (gw_events w)); [reflexivity..|]. by apply Hc. Qed.

Lemma cinv_batch tg gx evs w w' :
  Forall wf_event evs → cinv (withdrawers w) w → ProcessEventBatch tg gx evs w = (Ok (), w') → cinv (withdrawers w') w'.
Proof.
  intros Hevs Hc H. unfold ProcessEventBatch in H.
  apply bind_inv in H as (ok & w1 & [-> ->]%from_store_inv & H).
  apply bind_inv in H as ([] & w1 & [_ ->]%guard_not_inv & H).
  apply bind_inv in H as (st & w1 & [-> ->]%from_store_inv & H).
  apply bind_inv in H as (l & w1 & Hloop & H).
  apply bind_inv in H as ([] & w2 & [_ ->]%guard_not_inv & H).
  assert (Hc1 : cinv (gs_TokenWithdrawers (bl_state l)) w1).
  { apply (foldM_ok _ (λ l v, cinv (gs_TokenWithdrawers (bl_state l)) v) _ _ _ _ _) with (3 := Hloop); [|exact Hc].
    intros ev l1 v l2 v' Hin Hv Hrun. eapply cinv_processEvent; [|exact Hv|exact Hrun].
    rewrite Forall_forall in Hevs. by apply Hevs. }
  injection H as <-. by apply (cinv_saveState (with_LastMainnetBlockNum (bl_lastEthBlock l) (bl_state l)) w1).
Qed.

(** Signing. *)
Lemma doConfirm_inv req w w' :
  doConfirmWithdrawalReceipt req w = (Ok (), w') →
  ∃ a sig r, cr_TokenOwner req = Some a ∧ cr_OracleSignature req = Some sig ∧
    receipt_of (gw_store w) a = Some r ∧ wr_OracleSignature r = None ∧
    w' = with_event (TokenWithdrawalSigned (wr_TokenOwner r) (wr_TokenContract r) (wr_TokenKind r)
           (wr_TokenID r) (wr_TokenAmount r) (Some sig))
         (with_store (put_local (la_Owner (loadLocalAccount (gw_store w) a)) (Some (wr_sign sig r))) w).
Proof.
  unfold doConfirmWithdrawalReceipt.
  destruct (cr_TokenOwner req) as [a|], (cr_OracleSignature req) as [sig|]; try done. intros H.
  apply bind_inv in H as (acc & w1 & [-> ->]%from_store_inv & H).
  destruct (la_WithdrawalReceipt _) as [r|] eqn:Hr; [|done].
  apply bind_inv in H as ([] & w1 & [Hsig ->]%guard_not_inv & H).
  apply bool_decide_eq_false in Hsig. apply dec_stable in Hsig.
  apply bind_inv in H as ([] & w1 & [= <-] & H). injection H as <-.
  exists a, sig, r. done.
Qed.

Lemma cinv_confirm req w w' :
  wf_opt (cr_TokenOwner req) → cinv (withdrawers w) w →
  doConfirmWithdrawalReceipt req w = (Ok (), w') → cinv (withdrawers w') w'.
Proof.
  intros Hwf Hc (a & sig & r & Ha & _ & Hr & _ & ->)%doConfirm_inv Hfew. apply Hwf in Ha.
  assert (Hc' : winv (withdrawers w) (gw_store w) (gw_events w)).
  { apply Hc. eapply few_events_mono; [|exact Hfew]. done. }
  cbn [gw_store gw_events with_store with_event].
  rewrite (local_owner _ _ _ a Hc' Ha).
  eapply (winv_frame _ (put_local a (Some (wr_sign sig r)) (gw_store w)) _ (gw_events w)); [done|done|..].
  - rewrite issued_app. cbn. by rewrite app_nil_r.
  - rewrite settled_app. cbn. lia.
  - by eapply winv_sign.
Qed.

(** ** Histories *)

Inductive GCall :=
  | CallAddOracle (gx : GCtx) (oracle : option Address)
  | CallRemoveOracle (gx : GCtx) (oracle : option Address)
  | CallReplaceOwner (gx : GCtx) (owner : option Address)
  | CallBatch (gx : GCtx) (events : list MainnetEvent)
  | CallWithdrawToken (gx : GCtx) (req : WithdrawTokenRequest)
  | CallWithdrawETH (gx : GCtx) (req : WithdrawETHRequest)
  | CallWithdrawDiademCoin (gx : GCtx) (req : WithdrawDiademCoinRequest)
  | CallConfirm (gx : GCtx) (req : ConfirmWithdrawalReceiptRequest)
  | CallConfirmV2 (gx : GCtx) (req : ConfirmWithdrawalReceiptRequest)
  | CallReclaimDepositorTokens (gx : GCtx) (depositors : list (option Address))
  | CallReclaimContractTokens (gx : GCtx) (token : option Address)
  | CallAddContractMapping (gx : GCtx) (req : AddContractMappingRequest)
  | CallAddAuthorizedContractMapping (gx : GCtx) (req : AddContractMappingRequest)
  | CallVerifyContractCreators (gx : GCtx) (creators : list VerifiedContractCreator).

Definition run_gcall (tg : bool) (c : GCall) : GM unit :=
  match c with
  | CallAddOracle gx o => AddOracle gx o
  | CallRemoveOracle gx o => RemoveOracle gx o
  | CallReplaceOwner gx o => ReplaceOwner gx o
  | CallBatch gx evs => ProcessEventBatch tg gx evs
  | CallWithdrawToken gx req => WithdrawToken gx req
  | CallWithdrawETH gx req => WithdrawETH tg gx req
  | CallWithdrawDiademCoin gx req => WithdrawDiademCoin tg gx req
  | CallConfirm gx req => ConfirmWithdrawalReceipt gx req
  | CallConfirmV2 gx req => ConfirmWithdrawalReceiptV2 gx req
  | CallReclaimDepositorTokens gx ds => ReclaimDepositorTokens gx ds
  | CallReclaimContractTokens gx t => ReclaimContractTokens gx t
  | CallAddContractMapping gx req => AddContractMapping gx req
  | CallAddAuthorizedContractMapping gx req => AddAuthorizedContractMapping gx req
  | CallVerifyContractCreators gx l => VerifyContractCreators gx l
  end.

Definition call_ctx (c : GCall) : GCtx :=
  match c with
  | CallAddOracle gx _ | CallRemoveOracle gx _ | CallReplaceOwner gx _ | CallBatch gx _
  | CallWithdrawToken gx _ | CallWithdrawETH gx _ | CallWithdrawDiademCoin gx _ | CallConfirm gx _
  | CallConfirmV2 gx _ | CallReclaimDepositorTokens gx _ | CallReclaimContractTokens gx _
  | CallAddContractMapping gx _ | CallAddAuthorizedContractMapping gx _
  | CallVerifyContractCreators gx _ => gx
  end.

(** The addresses of a call are well formed and the address mapper is in a state
    that it reaches. *)
Definition gcall_ok (c : GCall) : Prop :=
  wf_address (sender (call_ctx c)) ∧ am_wf (gx_mapper (call_ctx c)) ∧
  match c with
  | CallBatch _ evs => Forall wf_event evs
  | CallWithdrawToken _ req => wf_opt (wt_Recipient req)
  | CallWithdrawETH _ req => wf_opt (we_Recipient req)
  | CallWithdrawDiademCoin _ req => wf_opt (wc_Recipient req)
  | CallConfirm _ req | CallConfirmV2 _ req => wf_opt (cr_TokenOwner req)
  | CallAddOracle _ o | CallRemoveOracle _ o | CallReplaceOwner _ o => wf_opt o
  | CallAddContractMapping _ req | CallAddAuthorizedContractMapping _ req =>
      wf_opt (ac_ForeignContract req) ∧ wf_opt (ac_LocalContract req)
  | _ => True
  end.

(** A call that succeeds, or tokens that are moved by somebody else. *)
Definition gw_step (tg : bool) w w' : Prop :=
  (∃ c, gcall_ok c ∧ run_gcall tg c w = (Ok (), w')) ∨ with_tokens w w'.

Definition empty_gstore (p : P) : GStore P := mkGStore None ∅ ∅ ∅ ∅ ∅ ∅ ∅ ∅ p.

Definition gw_initial w : Prop :=
  ∃ req coin eth evm,
    wf_opt (gi_Owner req) ∧ Forall wf_opt (gi_Oracles req) ∧
    Init req (mkGWorld (empty_gstore perm_none) coin eth evm []) = (Ok (), w).

Definition gw_reachable (tg : bool) w : Prop := ∃ w0, gw_initial w0 ∧ rtc (gw_step tg) w0 w.

Lemma goes_to_wf gx rc f : am_wf (gx_mapper gx) → wf_opt rc → goes_to gx rc f → wf_address f.
Proof.
  intros Ham Hrc [H|[_ H]]; [by apply Hrc|]. unfold resolveToEthAddr, GetMapping in H.
  destruct (gx_mapper gx !! _) as [m|] eqn:Hm; [|done]. injection H as <-. by apply (Ham _ _ Hm).
Qed.

(** Calls that save the state with the withdrawers it had. *)
Lemma cinv_ReplaceOwner gx o w w' :
  cinv (withdrawers w) w → ReplaceOwner gx o w = (Ok (), w') → cinv (withdrawers w') w'.
Proof.
  intros Hc H. unfold ReplaceOwner in H. destruct o as [a|]; [|done].
  apply bind_inv in H as (st & w1 & [-> ->]%from_store_inv & H).
  apply bind_inv in H as (o & w1 & [_ ->]%deref_inv & H).
  apply bind_inv in H as ([] & w1 & [_ ->]%guard_not_inv & H).
  apply bind_inv in H as ([] & w1 & [= <-] & H). apply bind_inv in H as ([] & w1 & [= <-] & H).
  injection H as <-. intros Hfew. apply (winv_frame _ (gw_store w) _ (gw_events w)); [reflexivity..|]. by apply Hc.
Qed.

Lemma cinv_AddContractMapping gx req w w' :
  cinv (withdrawers w) w → AddContractMapping gx req w = (Ok (), w') → cinv (withdrawers w') w'.
Proof.
  intros Hc H. unfold AddContractMapping, mapping_request_ok in H. repeat (case_match; [|done]).
  apply bind_inv in H as ([] & w1 & Hok & H).
  apply bind_inv in Hok as ([] & w2 & [_ ->]%guard_not_inv & [_ ->]%guard_not_inv).
  repeat (case_match; [|done]). apply bind_inv in H as ([] & w1 & [_ ->]%guard_not_inv & H).
  apply bind_inv in H as (b & w1 & [-> ->]%from_store_inv & H).
  apply bind_inv in H as ([] & w1 & [_ ->]%guard_not_inv & H).
  apply bind_inv in H as (st & w1 & [-> ->]%from_store_inv & H).
  apply bind_inv in H as (sg & w1 & [_ ->]%lift_res_inv & H).
  apply bind_inv in H as ([] & w1 & [= <-] & H).
  injection H as <-. intros Hfew. apply (winv_frame _ (gw_store w) _ (gw_events w)); [reflexivity..|]. by apply Hc.
Qed.
End Steps.

(** ** Theorems *)

Section Theorems.
Context {LIB : DiademLib} {SPEC : DiademLibSpec} {EVM : EvmLib} {RANGE : RangeOrder} {GLIB : GatewayLib}.
Context {P : Type} {PERM : Permissions P} {E : Type} {TOKENS : EvmTokens E}.
Abbreviation World := (GWorld P E).
Abbreviation GM := (M World).
Implicit Types (w : World) (s : GStore P) (a f : Address).

Lemma cinv_run_quiet (m : GM unit) w w' :
  (∀ w0, preserves (quiet w0) m) → cinv (withdrawers w) w → m w = (Ok (), w') → cinv (withdrawers w') w'.
Proof.
  intros Hm Hc H. pose proof (frame_run accounts_part no_receipt m w (Hm w)) as Hq. rewrite H in Hq. cbn [snd] in Hq.
  rewrite (quiet_withdrawers _ _ Hq). by eapply cinv_quiet.
Qed.

Lemma cinv_step tg w w' : gw_step tg w w' → cinv (withdrawers w) w → cinv (withdrawers w') w'.
Proof.
  intros [(c & (Hs & Ham & Hok) & H)|[Hst Hev]] Hc.
  - destruct c; cbn [run_gcall call_ctx] in *.
    + eapply cinv_run_quiet, H; auto using quiet_AddOracle.
    + eapply cinv_run_quiet, H; auto using quiet_RemoveOracle.
    + by eapply cinv_ReplaceOwner.
    + by eapply cinv_batch.
    + apply WithdrawToken_issues in H as [r H]. eapply cinv_withdraw; eauto using goes_to_wf.
    + apply WithdrawETH_issues in H as [r H]. eapply cinv_withdraw; eauto using goes_to_wf.
    + apply WithdrawDiademCoin_issues in H as [r H]. eapply cinv_withdraw; eauto using goes_to_wf.
    + unfold ConfirmWithdrawalReceipt in H. apply bind_inv in H as (ok & w1 & [-> ->]%from_store_inv & H).
      apply bind_inv in H as ([] & w1 & [_ ->]%guard_not_inv & H). by eapply cinv_confirm.
    + unfold ConfirmWithdrawalReceiptV2, ctx_resolve in H.
      apply bind_inv in H as (ad & w1 & Hr & H). case_match; [|done]. apply ret_inv in Hr as [-> ->].
      apply bind_inv in H as (vs & w1 & [_ ->]%lift_res_inv & H).
      apply bind_inv in H as (found & w1 & [_ ->]%lift_res_inv & H).
      apply bind_inv in H as ([] & w1 & [_ ->]%guard_not_inv & H).
      apply bind_inv in H as (ok & w1 & [-> ->]%from_store_inv & H).
      apply bind_inv in H as ([] & w1 & [_ ->]%guard_not_inv & H). by eapply cinv_confirm.
    + eapply cinv_run_quiet, H; auto using quiet_ReclaimDepositorTokens.
    + eapply cinv_run_quiet, H; auto using quiet_ReclaimContractTokens.
    + by eapply cinv_AddContractMapping.
    + eapply cinv_run_quiet, H; auto using quiet_AddAuthorized.
    + eapply cinv_run_quiet, H; auto using quiet_VerifyContractCreators.
  - unfold cinv, few_events, withdrawers in *. rewrite Hst, Hev. done.
Qed.

Lemma cinv_initial w : gw_initial w → cinv (withdrawers w) w.
Proof.
  intros (req & coin & eth & evm & _ & _ & H) _. unfold Init in H.
  destruct (gi_Owner req) as [o|]; [|done]. apply bind_inv in H as ([] & w1 & [= <-] & H).
  apply bind_inv in H as ([] & w1 & Hloop & H). injection H as <-.
  set (w2 := mkGWorld _ _ _ _ _) in Hloop.
  assert (Hq : preserves (quiet w2) (forM (gi_Oracles req) (λ o,
    oracleAddr ← UnmarshalAddressPB o; addOracle oracleAddr) : GM unit))
    by (unfold addOracle; frame_tac).
  pose proof (frame_run accounts_part no_receipt _ _ Hq) as (Hl & Hf & _ & new & Hev & Hi)%quiet_inv. rewrite Hloop in Hl, Hf, Hev.
  cbn in Hl, Hf, Hev. cbn [saveState on_store gw_store gw_events].
  assert (Hr : ∀ a, receipt_of (gw_store w1) a = None)
    by (intros; unfold receipt_of, loadLocalAccount; by rewrite Hl, lookup_empty).
  assert (Hx : ∀ f, loadForeignAccount (gw_store w1) f = mkForeignAccount f 0 None)
    by (intros; unfold loadForeignAccount; by rewrite Hf, lookup_empty).
  split; cbn; rewrite ?Hl, ?Hf, ?Hev, ?Hi; try apply map_Forall_empty; try apply NoDup_nil_2.
  - intros a. change (receipt_of _ a) with (receipt_of (gw_store w1) a). rewrite Hr.
    split; [by intros ?%not_elem_of_nil|by intros [_ []]].
  - intros a r Ha. change (receipt_of _ a) with (receipt_of (gw_store w1) a). by rewrite Hr.
  - intros f a Hf'. change (withdrawer_of _ f) with (withdrawer_of (gw_store w1) f).
    unfold withdrawer_of. by rewrite Hx.
  - intros f Hf'. change (nonce_of _ f) with (nonce_of (gw_store w1) f). unfold nonce_of. rewrite Hx. cbn.
    pose proof (settled_le_length new). lia.
  - intros f n Hin. by apply not_elem_of_nil in Hin.
Qed.

Lemma gw_reachable_inv tg w : gw_reachable tg w → few_events w → winv (withdrawers w) (gw_store w) (gw_events w).
Proof.
  intros (w0 & H0 & Hs). change (cinv (withdrawers w) w).
  apply cinv_initial in H0. revert H0. induction Hs as [|w0 w1 w2 Hstep _ IH]; [done|].
  intros Hc. apply IH. by eapply cinv_step.
Qed.

(** What a receipt has signed of its account: the name of the chain is not in the hash. *)
Definition signed_pair (p : Address * Z) : bytes * Z := (Local p.1, p.2).

(** C10. Over the whole history of the gateway, the receipts issued for an account carry
    distinct nonces, and a receipt's nonce is below the account's current one unless it
    is the one pending.  An account is a chain and an address on it.  So among the
    receipts for accounts that are named with the same chain, as those of linked accounts
    on Ethereum are, no two have the same address and nonce, which is what the hash that
    the oracles sign tells apart.  The recipient that a caller gives may name any chain;
    [recipients_repeat_nonces] shows that across chains addresses and nonces repeat. *)
Theorem receipts_carry_distinct_nonces tg w :
  gw_reachable tg w → few_events w →
  NoDup (issued (gw_events w)) ∧
  (∀ f n, (f, n) ∈ issued (gw_events w) →
    n < nonce_of (gw_store w) f ∨ n = nonce_of (gw_store w) f ∧ is_Some (withdrawer_of (gw_store w) f)) ∧
  ∀ chain, NoDup (signed_pair <$> filter (λ p, ChainID p.1 = chain) (issued (gw_events w))).
Proof.
  intros Hr Hf. pose proof (gw_reachable_inv tg w Hr Hf) as H. split_and!; [apply H| |].
  - intros f n Hin. by apply (wi_issued _ _ _ H).
  - intros chain. apply NoDup_fmap_2_strong; [|apply NoDup_filter, H].
    intros [f n] [f' n'] [Hc _]%list_elem_of_filter [Hc' _]%list_elem_of_filter [= Hl ->]. cbn in *. destruct f, f'. cbn in *. congruence.
Qed.

(** C11. The records of pending withdrawals agree: the accounts listed as
    withdrawers are, once each, the accounts with a receipt, and a receipt of [a]
    for [f] exists exactly when [a] is the current withdrawer of [f]; so an account
    has at most one withdrawal pending on either side. *)
Theorem pending_withdrawals_agree tg w :
  gw_reachable tg w → few_events w →
  NoDup (withdrawers w) ∧
  (∀ a, wf_address a → a ∈ withdrawers w ↔ is_Some (receipt_of (gw_store w) a)) ∧
  ∀ a f, wf_address a → wf_address f →
    (∃ r, receipt_of (gw_store w) a = Some r ∧ wr_TokenOwner r = f) ↔ withdrawer_of (gw_store w) f = Some a.
Proof.
  intros Hr Hf. pose proof (gw_reachable_inv tg w Hr Hf) as H. split; [apply H|]. split.
  - intros a Ha. rewrite (wi_members _ _ _ H). naive_solver.
  - intros a f Ha Hwf. split.
    + intros (r & Hrec & <-). by apply (wi_receipt _ _ _ H a r).
    + intros Hwd. destruct (wi_withdrawer _ _ _ H f a Hwf Hwd) as (_ & r & Hrec & Ho). eauto.
Qed.

(** [PendingWithdrawals] never fails for want of a receipt: it returns, in the
    order of the list of withdrawers, the hash to sign of every withdrawal that
    has no signature yet. *)
Theorem pending_withdrawals_are_listed tg w gateway :
  gw_reachable tg w → few_events w →
  PendingWithdrawals (Some gateway) (gw_store w) =
    Ok (omap (λ a, r ← receipt_of (gw_store w) a;
                   if decide (wr_OracleSignature r = None)
                   then h ← receipt_hash (eth_address (Local gateway)) r; Some (a, h)
                   else None) (withdrawers w)).
Proof.
  intros Hr Hf. pose proof (gw_reachable_inv tg w Hr Hf) as H. unfold PendingWithdrawals.
  change (gs_TokenWithdrawers (loadState (gw_store w))) with (withdrawers w).
  assert (Hall : ∀ a, a ∈ withdrawers w → is_Some (receipt_of (gw_store w) a)) by (intros a; by apply H).
  clear H. revert Hall. generalize (withdrawers w) as l. induction l as [|a l IH]; intros Hall; [done|].
  cbn [pending_summaries omap list_omap]. destruct (Hall a) as [r Ha]; [by left|].
  change (la_WithdrawalReceipt (loadLocalAccount (gw_store w) a)) with (receipt_of (gw_store w) a).
  rewrite Ha, IH by (intros b Hb; apply Hall; by right). cbn.
  destruct (wr_OracleSignature r) as [sig|]; [by rewrite decide_False|].
  rewrite decide_True, bool_decide_eq_false_2 by naive_solver.
  by destruct (receipt_hash _ r).
Qed.
End Theorems.
