(* ===== verification/GatewayCalls.v ===== *)
(** * What the calls of the gateway do

    Withdrawals take exactly the tokens their receipt is for, a receipt is signed
    once and only by an oracle, and the report of a withdrawal that is pending
    always settles it. *)

From S2P Require Import Prelude Contract Coin EthCoin AddressMapper Store Middleware EvmTokens Gateway GatewayFrame GatewayWithdrawals.

Section Withdraw.
Context {LIB : DiademLib} {SPEC : DiademLibSpec} {EVM : EvmLib} {RANGE : RangeOrder} {GLIB : GatewayLib}.
Context {P : Type} {PERM : Permissions P} {E : Type} {TOKENS : EvmTokens E}.
Abbreviation World := (GWorld P E).
Abbreviation GM := (M World).
Implicit Types (w : World) (s : GStore P) (a f : Address).

(** The receipt that a withdrawal leaves behind. *)
Lemma issues_receipt tg gx rc r w w' :
  gw_reachable tg w → few_events w → wf_address (sender gx) →
  issues gx rc r w w' → receipt_of (gw_store w') (sender gx) = Some r.
Proof.
  intros Hre Hfew Hs (onErr & topic & w1 & _ & _ & _ & _ & _ & [Hst _] & _ & ->%finishWithdrawal_inv).
  pose proof (gw_reachable_inv tg w Hre Hfew) as H.
  rewrite (local_owner _ _ _ _ H Hs).
  change (receipt_of (put_local (sender gx) (Some r)
    (put_foreign (fa_Owner (loadForeignAccount (gw_store w) (wr_TokenOwner r)))
      (fa_WithdrawalNonce (loadForeignAccount (gw_store w) (wr_TokenOwner r))) (Some (sender gx)) (gw_store w1)))
    (sender gx) = Some r).
  rewrite receipt_of_put by done. by rewrite decide_True.
Qed.

Lemma finishWithdrawal_coin onErr topic gx acc fa r w w' :
  finishWithdrawal onErr topic gx acc fa r w = (Ok (), w') → gw_coin w' = gw_coin w ∧ gw_eth w' = gw_eth w.
Proof. by intros ->%finishWithdrawal_inv. Qed.

(** A withdrawal of coins burns exactly what its receipt promises on Ethereum:
    the sender had the coins, it and the supply have that much less afterwards,
    nobody else's balance changes, and the receipt names the amount and goes to
    the recipient asked for or linked. *)
Theorem coin_withdrawal_burns_what_it_promises tg gx req x t w w' :
  gw_reachable tg w → few_events w → coin_wf (gw_coin w) → wf_address (sender gx) →
  wc_Amount req = Some x → wc_TokenContract req = Some t →
  WithdrawDiademCoin tg gx req w = (Ok (), w') →
  tg = true ∧ x <= balance (gw_coin w) (sender gx) ∧
  supply (gw_coin w') = supply (gw_coin w) - x ∧
  (∀ a, wf_address a → balance (gw_coin w') a =
     balance (gw_coin w) a - (if decide (a = sender gx) then x else 0)) ∧
  gw_eth w' = gw_eth w ∧
  ∃ r, receipt_of (gw_store w') (sender gx) = Some r ∧ wr_TokenAmount r = Some x ∧
    wr_TokenContract r = t ∧ wr_TokenKind r = TokenKind_DiademCoin ∧ goes_to gx (wc_Recipient req) (wr_TokenOwner r).
Proof.
  intros Hre Hfew Hwf Hs Hx Ht H. unfold WithdrawDiademCoin in H. rewrite Hx, Ht in H.
  apply bind_inv in H as ([] & w1 & [Htg%negb_false_iff ->]%guard_not_inv & H).
  apply bind_inv in H as ([[acc f] fa] & w1 & (-> & Hto & -> & Hr & -> & Hwd)%beginWithdrawal_inv & H).
  apply bind_inv in H as (coin & w1 & He & H). unfold newCoinContext, resolve_or_panic in He.
  case_match; [|done]. apply ret_inv in He as [-> ->].
  apply bind_inv in H as ([] & w1 & Hburn & H). 
  set (r := mkReceipt f t TokenKind_DiademCoin None (Some x) _ _) in H.
  assert (Hi : issues gx (wc_Recipient req) r w w').
  { exists (WithdrawDiademCoinError req), WithdrawDiademCoinTopic, w1. split_and!; try done; [|by auto].
    by eapply zoom_frame, Hburn. }
  pose proof (issues_receipt _ _ _ _ _ _ Hre Hfew Hs Hi) as Hrec.
  destruct (finishWithdrawal_coin _ _ _ _ _ _ _ _ H) as [Hc' He'].
  unfold coin_burn, on_coin, zoom in Hburn. rewrite Burn_authorized in Hburn.
  destruct (_ !! "diademcoin-gateway"); [|done]. case_decide; [|done]. rewrite burn_eq in Hburn by done.
  destruct (_ || _) eqn:Hlow; [done|]. injection Hburn as <-. cbn in Hc', He'.
  apply orb_false_iff in Hlow as [Hlow%Z.ltb_ge _]. rewrite Hc', He'. split_and!; try done.
  - intros b Hb. rewrite balance_set_economy, balance_put by done.
    destruct (decide (sender gx = b)) as [->|Hne]; [by rewrite decide_True|]. rewrite decide_False by done. lia.
  - exists r. done.
Qed.

(** A withdrawal of ether moves exactly what its receipt promises on Ethereum
    from the sender to the gateway, within the sender's balance and the allowance
    it gave the gateway; the supply stays. *)
Theorem ether_withdrawal_moves_what_it_promises tg gx req x t w w' :
  gw_reachable tg w → few_events w → coin_wf (gw_eth w) → wf_address (sender gx) → wf_address (self gx) →
  sender gx ≠ self gx → we_Amount req = Some x → we_MainnetGateway req = Some t →
  WithdrawETH tg gx req w = (Ok (), w') →
  tg = false ∧ x <= balance (gw_eth w) (sender gx) ∧
  x <= default 0 (al_Amount (Coin.loadAllowance (gw_eth w) (sender gx) (self gx))) ∧
  supply (gw_eth w') = supply (gw_eth w) ∧
  (∀ a, wf_address a → balance (gw_eth w') a = balance (gw_eth w) a +
     (if decide (a = sender gx) then - x else if decide (a = self gx) then x else 0)) ∧
  gw_coin w' = gw_coin w ∧
  ∃ r, receipt_of (gw_store w') (sender gx) = Some r ∧ wr_TokenAmount r = Some x ∧
    wr_TokenContract r = t ∧ wr_TokenKind r = TokenKind_ETH ∧ goes_to gx (we_Recipient req) (wr_TokenOwner r).
Proof.
  intros Hre Hfew Hwf Hs Hself Hne Hx Ht H. unfold WithdrawETH in H. rewrite Hx, Ht in H.
  apply bind_inv in H as ([] & w1 & [Htg ->]%guard_not_inv & H).
  apply bind_inv in H as ([[acc f] fa] & w1 & (-> & Hto & -> & Hr & -> & Hwd)%beginWithdrawal_inv & H).
  apply bind_inv in H as (eth & w1 & He & H). unfold newETHContext, resolve_or_panic in He.
  case_match; [|done]. apply ret_inv in He as [-> ->]. rename a into en.
  apply bind_inv in H as ([] & w1 & Hmove & H).
  set (r := mkReceipt f t TokenKind_ETH None (Some x) _ _) in H.
  assert (Hi : issues gx (we_Recipient req) r w w').
  { exists (WithdrawETHError req), WithdrawETHTopic, w1. split_and!; try done; [|by auto].
    by eapply zoom_frame, Hmove. }
  pose proof (issues_receipt _ _ _ _ _ _ Hre Hfew Hs Hi) as Hrec.
  destruct (finishWithdrawal_coin _ _ _ _ _ _ _ _ H) as [Hc' He'].
  unfold eth_transferFrom, on_eth, zoom in Hmove. rewrite transferFrom_as_coin in Hmove.
  change (self gx) with (ctx_sender (callee gx en)) in Hself, Hne |- *.
  destruct (al_Amount (Coin.loadAllowance (gw_eth w) (sender gx) (ctx_sender (callee gx en)))) as [al|] eqn:Hal;
    [|by rewrite TransferFrom_nil in Hmove].
  rewrite (TransferFrom_eq _ _ _ _ _ al) in Hmove by done.
  destruct (al <? x) eqn:Hl; [done|]. destruct (balance (gw_eth w) (sender gx) <? x) eqn:Hb; [done|].
  injection Hmove as <-. cbn [gw_eth gw_coin] in Hc', He'. apply Z.ltb_ge in Hl, Hb. rewrite Hc', He'.
  split_and!; try done.
  - intros b Hb'. change (ctx_sender (callee gx en)) with (self gx) in *.
    rewrite balance_set_allowance, balance_move by done. repeat case_decide; subst; lia.
  - exists r. done.
Qed.

(** ** Signatures *)

Lemma Confirm_inv gx req w w' :
  ConfirmWithdrawalReceipt gx req w = (Ok (), w') →
  perm_has (gs_perms (gw_store w)) (sender gx) signWithdrawalsPerm [oracleRole] = true ∧
  doConfirmWithdrawalReceipt req w = (Ok (), w').
Proof.
  unfold ConfirmWithdrawalReceipt. intros H. apply bind_inv in H as (ok & w1 & [-> ->]%from_store_inv & H).
  by apply bind_inv in H as ([] & w1 & [Hok%negb_false_iff ->]%guard_not_inv & H).
Qed.

(** A receipt is signed once: only an oracle with the permission sets the
    signature, on a receipt that has none, and changes nothing else of it; every
    further attempt on that receipt fails without effect. *)
Theorem receipt_is_signed_once tg gx req w w' :
  gw_reachable tg w → few_events w → wf_opt (cr_TokenOwner req) →
  ConfirmWithdrawalReceipt gx req w = (Ok (), w') →
  perm_has (gs_perms (gw_store w)) (sender gx) signWithdrawalsPerm [oracleRole] = true ∧
  ∃ a sig r, cr_TokenOwner req = Some a ∧ cr_OracleSignature req = Some sig ∧
    receipt_of (gw_store w) a = Some r ∧ wr_OracleSignature r = None ∧
    receipt_of (gw_store w') a = Some (wr_sign sig r) ∧
    (∀ b, wf_address b → b ≠ a → receipt_of (gw_store w') b = receipt_of (gw_store w) b) ∧
    ∀ req', cr_TokenOwner req' = Some a → cr_OracleSignature req' ≠ None →
      doConfirmWithdrawalReceipt req' w' = (Err ErrWithdrawalReceiptSigned, w').
Proof.
  intros Hre Hfew Hwf [Hp (a & sig & r & Ha & Hsig & Hr & Hun & ->)%doConfirm_inv]%Confirm_inv.
  pose proof (gw_reachable_inv tg w Hre Hfew) as H. pose proof (Hwf a Ha) as Hwa.
  split; [done|]. exists a, sig, r. rewrite (local_owner _ _ _ _ H Hwa).
  assert (Hput : ∀ b, wf_address b → receipt_of (put_local a (Some (wr_sign sig r)) (gw_store w)) b =
    if decide (b = a) then Some (wr_sign sig r) else receipt_of (gw_store w) b)
    by (intros; by apply receipt_of_put).
  cbn [with_event with_store gw_store]. split_and!; try done.
  - rewrite Hput by done. by rewrite decide_True.
  - intros b Hb Hne. rewrite Hput by done. by rewrite decide_False.
  - intros req' Ha' Hs'. unfold doConfirmWithdrawalReceipt. rewrite Ha'.
    destruct (cr_OracleSignature req'); [|done]. unfold from_store. m_eval.
    cbn [with_event with_store gw_store].
    change (la_WithdrawalReceipt (loadLocalAccount ?s a)) with (receipt_of s a).
    rewrite Hput, decide_True by done. cbv iota. by rewrite bool_decide_eq_true_2.
Qed.

(** ** Settlement *)

(** A report that names its token and amount as its kind requires. *)
Definition report_ok (wd : MainnetTokenWithdrawn) : Prop :=
  match mw_TokenKind wd with
  | TokenKind_ETH => mw_TokenAmount wd ≠ None
  | TokenKind_ERC721 => mw_TokenContract wd ≠ None
  | TokenKind_Other _ => False
  | _ => mw_TokenContract wd ≠ None ∧ mw_TokenAmount wd ≠ None
  end.

Lemma report_ok_checks wd w :
  report_ok wd →
  negb (kind_eqb (mw_TokenKind wd) TokenKind_ETH) && bool_decide (mw_TokenContract wd = None) = false ∧
  (match mw_TokenKind wd with
   | TokenKind_ERC721 => mret ()
   | TokenKind_Other _ => throw (ErrMsg "withdrawals not supported")
   | _ => guard_not (bool_decide (mw_TokenAmount wd = None)) ErrInvalidRequest
   end : GM unit) w = (Ok (), w).
Proof.
  unfold report_ok. destruct (mw_TokenKind wd); intros Hok; destruct_and?; try done; split;
    rewrite ?(bool_decide_eq_false_2 (mw_TokenContract wd = None)), ?(bool_decide_eq_false_2 (mw_TokenAmount wd = None))
      by done; by rewrite ?andb_false_r.
Qed.

Lemma completeTokenWithdraw_ok state wd w f a :
  winv (gs_TokenWithdrawers state) (gw_store w) (gw_events w) → wf_address f →
  mw_TokenOwner wd = Some f → report_ok wd → withdrawer_of (gw_store w) f = Some a →
  ∃ l, a ∉ l ∧ completeTokenWithdraw state wd w =
    (Ok (with_withdrawers l state),
     with_store (λ s, put_foreign f (u64 (nonce_of (gw_store w) f + 1)) None (put_local a None s)) w).
Proof.
  intros H Hf Ho Hok Hwd.
  destruct (completeTokenWithdraw_run state wd w H) as [[e He]|(f' & a' & r & l & Ho' & Hwd' & Hr & Hnd & Hl & Hrun)].
  - intros f' Hf'. congruence.
  - exfalso. destruct (wi_withdrawer _ _ _ H f a Hf Hwd) as (Ha & r & Hr & _).
    destruct (removeTokenWithdrawer_ok state a) as (l & Hl & _); [apply H|apply H; split; [done|by exists r]|].
    destruct (report_ok_checks wd w Hok) as [Hc Hk].
    unfold completeTokenWithdraw in He. rewrite Ho, Hc in He. cbn [guard_not] in He.
    erewrite bind_ok in He by reflexivity. erewrite bind_ok in He by exact Hk. unfold from_store in He. m_eval_in He.
    unfold withdrawer_of in Hwd. unfold receipt_of in Hr. rewrite Hwd, Hr in He. rewrite bool_decide_eq_false_2 in He by done.
    unfold saveLocalAccount, saveForeignAccount, on_store in He. m_eval_in He. by rewrite Hl in He.
  - assert (f' = f) as -> by congruence. assert (a' = a) as -> by congruence.
    exists l. split; [|done]. rewrite Hl. by intros [_ []].
Qed.

(** C13. A pending withdrawal can always be settled: an oracle's report that it was
    used, in a new block, goes through; it takes the receipt, the withdrawer and
    the listing away together and moves the account's nonce on, so that both sides
    can withdraw again. *)
Theorem reported_withdrawal_settles tg gx block wd w a f :
  gw_reachable tg w → few_events w → wf_address f →
  perm_has (gs_perms (gw_store w)) (sender gx) submitEventsPerm [oracleRole] = true →
  mw_TokenOwner wd = Some f → report_ok wd → tg = kind_eqb (mw_TokenKind wd) TokenKind_DiademCoin →
  (gx_FeatureEnabled gx TGCheckTxHashFeature false = true →
     mw_TxHash wd ≠ "" ∧ hasSeenTxHash (mw_TxHash wd) (gw_store w) = false) →
  gs_LastMainnetBlockNum (loadState (gw_store w)) < block → 0 < block →
  withdrawer_of (gw_store w) f = Some a →
  ∃ w', ProcessEventBatch tg gx [mkMainnetEvent block (Payload_Withdrawal wd)] w = (Ok (), w') ∧
    receipt_of (gw_store w') a = None ∧ withdrawer_of (gw_store w') f = None ∧ a ∉ withdrawers w' ∧
    nonce_of (gw_store w') f = u64 (nonce_of (gw_store w) f + 1) ∧
    gs_LastMainnetBlockNum (loadState (gw_store w')) = block.
Proof.
  intros Hre Hfew Hf Hp Ho Hok Htg Hcheck Hb Hb0 Hwd.
  pose proof (gw_reachable_inv tg w Hre Hfew) as H.
  destruct (wi_withdrawer _ _ _ H f a Hf Hwd) as (Ha & _).
  destruct (completeTokenWithdraw_ok (loadState (gw_store w)) wd w f a H Hf Ho Hok Hwd) as (l & Hl & Hrun).
  set (w1 := with_store _ w) in Hrun.
  assert (Hproc : ∃ w2, processWithdrawal tg gx (loadState (gw_store w)) (mkMainnetEvent block (Payload_Withdrawal wd)) wd w =
    (Ok (Some (with_withdrawers l (loadState (gw_store w)))), w2) ∧
    gs_local (gw_store w2) = gs_local (gw_store w1) ∧ gs_foreign (gw_store w2) = gs_foreign (gw_store w1)).
  { unfold processWithdrawal. rewrite <- Htg, eqb_reflx. cbn [negb]. unfold from_store.
    destruct (gx_FeatureEnabled gx TGCheckTxHashFeature false); cbn [andb].
    - destruct Hcheck as [Hne Hseen]; [done|].
      assert ((String.length (mw_TxHash wd) =? 0)%nat = false) as ->.
      { apply Nat.eqb_neq. by destruct (mw_TxHash wd). }
      m_eval. rewrite Hseen, Hrun. eexists. split; [reflexivity|done].
    - m_eval. rewrite Hrun. eexists. split; [reflexivity|done]. }
  destruct Hproc as (w2 & Hproc & Hl2 & Hf2).
  exists (saveState (with_LastMainnetBlockNum block (with_withdrawers l (loadState (gw_store w)))) w2).2.
  split.
  - unfold ProcessEventBatch, has_permission, from_store. m_eval. rewrite Hp. cbn [negb foldM].
    unfold processEvent, guard_not. cbn [ev_EthBlock ev_Payload bl_lastEthBlock bl_state].
    rewrite (proj2 (Z.ltb_ge block 0)) by lia. rewrite (proj2 (Z.leb_gt _ _) Hb). m_eval. rewrite Hproc.
    unfold count_block. cbn [ev_EthBlock bl_lastEthBlock]. rewrite (proj2 (Z.ltb_lt _ _) Hb0). done.
  - assert (Hr : receipt_of (gw_store w2) a = None ∧ withdrawer_of (gw_store w2) f = None ∧
        nonce_of (gw_store w2) f = u64 (nonce_of (gw_store w) f + 1)).
    { split_and!.
      - transitivity (receipt_of (gw_store w1) a); [unfold receipt_of, loadLocalAccount; by rewrite Hl2|].
        change (receipt_of (put_local a None (gw_store w)) a = None). rewrite receipt_of_put by done. by rewrite decide_True.
      - transitivity (withdrawer_of (gw_store w1) f); [unfold withdrawer_of, loadForeignAccount; by rewrite Hf2|].
        cbn [w1 with_store gw_store]. rewrite withdrawer_of_put by done. by rewrite decide_True.
      - transitivity (nonce_of (gw_store w1) f); [unfold nonce_of, loadForeignAccount; by rewrite Hf2|].
        cbn [w1 with_store gw_store]. rewrite nonce_of_put by done. by rewrite decide_True. }
    destruct Hr as (H1 & H2 & H3). split_and!; done.
Qed.
End Withdraw.
