(* ===== verification/GatewayDeposits.v ===== *)
(** * Deposits through the gateway

    A reported deposit of coins is credited to the linked account to the unit or
    kept as unclaimed, a batch is consumed once, and with the check of
    transaction hashes no transaction of the main chain counts twice. *)

From S2P Require Import Prelude Contract Coin EthCoin AddressMapper Store Middleware EvmTokens Gateway GatewayFrame GatewayWithdrawals.

(** ** Batches *)

Section Batches.
Context {LIB : DiademLib} {SPEC : DiademLibSpec} {EVM : EvmLib} {RANGE : RangeOrder} {GLIB : GatewayLib}.
Context {P : Type} {PERM : Permissions P} {E : Type} {TOKENS : EvmTokens E}.
Abbreviation World := (GWorld P E).
Abbreviation GM := (M World).
Implicit Types (w : World) (s : GStore P) (a f : Address).

Definition last_block w : Z := gs_LastMainnetBlockNum (loadState (gw_store w)).

Lemma completeTokenWithdraw_last state wd w st' w' :
  completeTokenWithdraw state wd w = (Ok st', w') → gs_LastMainnetBlockNum st' = gs_LastMainnetBlockNum state.
Proof.
  unfold completeTokenWithdraw, removeTokenWithdrawer. destruct (mw_TokenOwner wd); [|done].
  intros H. apply bind_inv in H as ([] & w1 & _ & H). apply bind_inv in H as ([] & w2 & _ & H).
  apply bind_inv in H as (fa & w3 & _ & H). case_match; [|done].
  apply bind_inv in H as (acc & w4 & _ & H). apply bind_inv in H as ([] & w5 & _ & H).
  apply bind_inv in H as ([] & w6 & _ & H). apply bind_inv in H as ([] & w7 & _ & H).
  apply lift_res_inv in H as [H _]. case_match; [|done]. by injection H as <-.
Qed.

Lemma processWithdrawal_last tg gx state ev wd w st' w' :
  processWithdrawal tg gx state ev wd w = (Ok (Some st'), w') →
  gs_LastMainnetBlockNum st' = gs_LastMainnetBlockNum state.
Proof.
  unfold processWithdrawal. intros H.
  apply bind_inv in H as ([] & w1 & _ & H). apply bind_inv in H as ([] & w2 & _ & H).
  apply bind_inv in H as (seen & w3 & _ & H). destruct (_ && _).
  { apply bind_inv in H as ([] & w4 & _ & H). by apply ret_inv in H as [? _]. }
  apply bind_inv in H as (r & w4 & Hr & H). unfold try_ in Hr.
  destruct (completeTokenWithdraw state wd w3) as [[st|e|] w5] eqn:Hc; [| |done]; injection Hr as <- <-.
  - apply bind_inv in H as ([] & w6 & _ & H). apply bind_inv in H as ([] & w7 & _ & H).
    apply ret_inv in H as [[= ->] _]. by eapply completeTokenWithdraw_last.
  - apply bind_inv in H as ([] & w6 & _ & H). by apply ret_inv in H as [? _].
Qed.

(** The variables of the loop over a batch: no block counts before one beyond the
    last known block was seen. *)
Definition loop_ok (last : Z) (l : BatchLoop) : Prop :=
  gs_LastMainnetBlockNum (bl_state l) = last ∧
  (bl_blockCount l = 0 ∧ bl_lastEthBlock l = 0 ∨ 0 < bl_blockCount l ∧ last < bl_lastEthBlock l).

Lemma loop_ok_step tg gx last l ev w l' w' :
  0 <= last → loop_ok last l → processEvent tg gx l ev w = (Ok l', w') → loop_ok last l'.
Proof.
  intros H0 [Hl Hc] H. unfold processEvent in H.
  apply bind_inv in H as ([] & w1 & [_ ->]%guard_not_inv & H).
  destruct (_ <=? _) eqn:Hle; [by apply ret_inv in H as [-> _]|]. apply Z.leb_gt in Hle.
  assert (Hcount : ∀ st, gs_LastMainnetBlockNum st = last → loop_ok last (count_block ev st l)).
  { intros st Hst. unfold count_block. destruct (_ <? _) eqn:Hlt; (split; [done|]); cbn; [right; lia|].
    apply Z.ltb_ge in Hlt. destruct Hc as [[Hc0 Hl0]|Hc]; [|by right]. lia. }
  destruct (ev_Payload ev) as [d|wd|].
  - apply bind_inv in H as (c & w1 & _ & H). apply ret_inv in H as [-> _]. destruct c; [by apply Hcount|done].
  - apply bind_inv in H as (r & w1 & Hd & H). apply ret_inv in H as [-> _]. destruct r as [st|]; [|done].
    apply Hcount. apply processWithdrawal_last in Hd. congruence.
  - by apply ret_inv in H as [-> _].
Qed.

(** A batch is consumed once: it moves the last known block of the main chain
    forward, and submitting events up to that block again, in whatever selection
    and by whichever oracle, fails and leaves everything as it is. *)
Theorem batch_is_consumed_once tg gx events w w' :
  0 <= last_block w → ProcessEventBatch tg gx events w = (Ok (), w') →
  last_block w < last_block w' ∧
  ∀ gx' events',
    perm_has (gs_perms (gw_store w')) (sender gx') submitEventsPerm [oracleRole] = true →
    Forall (λ ev, 0 <= ev_EthBlock ev <= last_block w') events' →
    ProcessEventBatch tg gx' events' w' = (Err (ErrMsg "no new events found in the batch"), w').
Proof.
  intros H0 H. unfold ProcessEventBatch in H.
  apply bind_inv in H as (ok & w1 & [-> ->]%from_store_inv & H).
  apply bind_inv in H as ([] & w1 & [_ ->]%guard_not_inv & H).
  apply bind_inv in H as (st & w1 & [-> ->]%from_store_inv & H).
  apply bind_inv in H as (l & w1 & Hloop & H).
  apply bind_inv in H as ([] & w2 & [Hcount ->]%guard_not_inv & H). apply Z.eqb_neq in Hcount.
  assert (Hok : loop_ok (last_block w) l).
  { apply (foldM_ok _ (λ l _, loop_ok (last_block w) l) _ _ _ _ _) with (3 := Hloop).
    - intros ev l1 v l2 v' _ Hl. by eapply loop_ok_step.
    - split; [done|]. by left. }
  injection H as <-. destruct Hok as [_ [[]|[_ Hlt]]]; [done|].
  split; [exact Hlt|]. intros gx' events' Hp Hall.
  set (w2 := mkGWorld _ _ _ _ _) in Hp, Hall |- *.
  unfold ProcessEventBatch, has_permission, from_store, guard_not. m_eval. rewrite Hp. cbn [negb].
  assert (Hskip : ∀ evs (v : World), Forall (λ ev, 0 <= ev_EthBlock ev <= bl_lastEthBlock l) evs →
    foldM (processEvent tg gx') (mkBatchLoop (with_LastMainnetBlockNum (bl_lastEthBlock l) (bl_state l)) 0 0) evs v =
    (Ok (mkBatchLoop (with_LastMainnetBlockNum (bl_lastEthBlock l) (bl_state l)) 0 0), v)).
  { clear. intros evs v Hall. induction Hall as [|ev evs Hev _ IH]; [done|]. cbn [foldM].
    erewrite bind_ok; [exact IH|]. unfold processEvent, guard_not. cbn [bl_lastEthBlock bl_state].
    rewrite (proj2 (Z.ltb_ge _ _)) by lia. m_eval. cbn [gs_LastMainnetBlockNum with_LastMainnetBlockNum].
    by rewrite (proj2 (Z.leb_le _ _)) by lia. }
  change (loadState (gw_store w2)) with (with_LastMainnetBlockNum (bl_lastEthBlock l) (bl_state l)).
  by rewrite Hskip.
Qed.
End Batches.

(** ** Transaction hashes *)

Definition tx_hash_of (ev : GEvent) : option bytes :=
  match ev with
  | MainnetDepositEvent d => Some (md_TxHash d)
  | MainnetWithdrawalEvent w => Some (mw_TxHash w)
  | _ => None
  end.
Definition no_tx_hash (ev : GEvent) : bool := match tx_hash_of ev with Some _ => false | None => true end.
Definition seen_part {P} (s : GStore P) := gs_seen s.

Section Hashes.
Context {LIB : DiademLib} {SPEC : DiademLibSpec} {EVM : EvmLib} {RANGE : RangeOrder} {GLIB : GatewayLib}.
Context {P : Type} {PERM : Permissions P} {E : Type} {TOKENS : EvmTokens E}.
Abbreviation World := (GWorld P E).
Abbreviation GM := (M World).
Implicit Types (w : World) (s : GStore P).

(** The hashes of the transactions that counted. *)
Definition tx_hashes (evs : list GEvent) : list bytes := omap tx_hash_of evs.

Definition hash_inv w : Prop :=
  NoDup (tx_hashes (gw_events w)) ∧ ∀ h, h ∈ tx_hashes (gw_events w) → hasSeenTxHash h (gw_store w) = true.

Lemma tx_hashes_app evs evs' : tx_hashes (evs ++ evs') = tx_hashes evs ++ tx_hashes evs'.
Proof. apply omap_app. Qed.

Lemma no_tx_hashes evs : Forall (λ ev, no_tx_hash ev = true) evs → tx_hashes evs = [].
Proof.
  induction 1 as [|ev evs Hev _ IH]; [done|]. cbn. unfold no_tx_hash in Hev. by destruct (tx_hash_of ev).
Qed.

(** The second components of what [seen_frame] says. *)
Lemma seen_frame_inv w w' :
  frame seen_part no_tx_hash w w' →
  gs_seen (gw_store w') = gs_seen (gw_store w) ∧ tx_hashes (gw_events w') = tx_hashes (gw_events w).
Proof.
  intros (Hs & new & He & Hn). split; [done|]. by rewrite He, tx_hashes_app, (no_tx_hashes new), app_nil_r.
Qed.

Lemma hash_inv_frame w w' : frame seen_part no_tx_hash w w' → hash_inv w → hash_inv w'.
Proof.
  intros [Hs He]%seen_frame_inv [Hnd Hin]. unfold hash_inv, hasSeenTxHash in *. by rewrite He, Hs.
Qed.

Definition mark_seen (h : bytes) (k : TokenKind) w : World :=
  with_store (λ s, set_seen (<[seenTxHashKey h := k]> (gs_seen s)) s) w.

Lemma seen_mark h k w h' :
  hasSeenTxHash h' (gw_store (mark_seen h k w)) = true ↔ h' = h ∨ hasSeenTxHash h' (gw_store w) = true.
Proof.
  unfold hasSeenTxHash. cbn. rewrite lookup_insert, !bool_decide_eq_true. case_decide as Hk.
  - apply (prefix_key_inj1 "stx") in Hk as ->. split; [by left|]. by eexists.
  - split; [by right|]. intros [->|?]; done.
Qed.

(** A transaction with a new hash counts, or is only marked. *)
Lemma hash_inv_mark ev h k w :
  hasSeenTxHash h (gw_store w) = false → (tx_hash_of ev = Some h ∨ tx_hash_of ev = None) →
  hash_inv w → hash_inv (mark_seen h k (with_event ev w)).
Proof.
  intros Hnew Hev [Hnd Hin].
  assert (Hh : h ∉ tx_hashes (gw_events w)) by (intros Hx%Hin; congruence).
  split.
  - cbn [mark_seen with_store with_event gw_events]. rewrite tx_hashes_app. cbn.
    destruct Hev as [->| ->]; [|by rewrite app_nil_r].
    apply NoDup_app. split_and!; [done| |apply NoDup_singleton]. by intros x Hx ->%list_elem_of_singleton.
  - intros x Hx. apply seen_mark. cbn [mark_seen with_store with_event gw_events] in Hx.
    rewrite tx_hashes_app in Hx. cbn in Hx. apply elem_of_app in Hx as [Hx|Hx]; [right; by apply Hin|].
    destruct Hev as [Hev|Hev]; rewrite Hev in Hx; [|by apply not_elem_of_nil in Hx].
    apply list_elem_of_singleton in Hx. by left.
Qed.

Lemma hash_inv_marked h k w : hash_inv w → hash_inv (mark_seen h k w).
Proof. intros [Hnd Hin]. split; [done|]. intros x Hx. apply seen_mark. right. by apply Hin. Qed.

Lemma processDeposit_hash tg gx ev d w b w' :
  gx_FeatureEnabled gx TGCheckTxHashFeature false = true →
  processDeposit tg gx ev d w = (Ok b, w') → hash_inv w → hash_inv w'.
Proof.
  intros Hcheck H Hi. unfold processDeposit in H. rewrite Hcheck in H. cbn [andb] in H.
  apply bind_inv in H as ([] & w1 & [_ ->]%guard_not_inv & H).
  destruct (validateTokenDeposit d) as [[]|e|]; [| |done].
  2:{ apply bind_inv in H as ([] & w1 & He & H). apply ret_inv in H as [_ ->].
      eapply hash_inv_frame; [|exact Hi]. eapply frame_run_ok, He. auto with frame. }
  apply bind_inv in H as ([] & w1 & [_ ->]%guard_not_inv & H).
  apply bind_inv in H as (seen & w1 & [Hseen ->]%from_store_inv & H). symmetry in Hseen. destruct seen.
  { apply bind_inv in H as ([] & w1 & He & H). apply ret_inv in H as [_ ->].
    eapply hash_inv_frame; [|exact Hi]. eapply frame_run_ok, He. auto with frame. }
  apply bind_inv in H as (o & w1 & [_ ->]%deref_inv & H).
  apply bind_inv in H as (r & w1 & Hr & H).
  assert (Hw1 : frame seen_part no_tx_hash w w1) by (eapply frame_run_ok, Hr; frame_tac).
  apply bind_inv in H as ([] & w2 & Hout & H).
  apply bind_inv in H as ([] & w3 & Hsave & H). apply ret_inv in H as [_ ->].
  assert (w3 = mark_seen (md_TxHash d) (md_TokenKind d) w2) as -> by (by injection Hsave as <-).
  assert (Hnew : hasSeenTxHash (md_TxHash d) (gw_store w1) = false).
  { apply seen_frame_inv in Hw1 as [Hs _]. unfold hasSeenTxHash in *. by rewrite Hs. }
  destruct r as [[]|e].
  - injection Hout as <-. apply (hash_inv_mark (MainnetDepositEvent d)); [done|by left|].
    by eapply hash_inv_frame.
  - apply hash_inv_marked. eapply hash_inv_frame; [|by eapply hash_inv_frame].
    eapply frame_run_ok, Hout. unfold storeUnclaimedToken. frame_tac.
Qed.

Lemma processWithdrawal_hash tg gx state ev wd w r w' :
  gx_FeatureEnabled gx TGCheckTxHashFeature false = true →
  processWithdrawal tg gx state ev wd w = (Ok r, w') → hash_inv w → hash_inv w'.
Proof.
  intros Hcheck H Hi. unfold processWithdrawal in H. rewrite Hcheck in H. cbn [andb] in H.
  apply bind_inv in H as ([] & w1 & [_ ->]%guard_not_inv & H).
  apply bind_inv in H as ([] & w1 & [_ ->]%guard_not_inv & H).
  apply bind_inv in H as (seen & w1 & [Hseen ->]%from_store_inv & H). symmetry in Hseen. destruct seen.
  { apply bind_inv in H as ([] & w1 & He & H). apply ret_inv in H as [_ ->].
    eapply hash_inv_frame; [|exact Hi]. eapply frame_run_ok, He. auto with frame. }
  apply bind_inv in H as (x & w1 & Hr & H).
  assert (Hw1 : frame seen_part no_tx_hash w w1)
    by (eapply frame_run_ok, Hr; unfold completeTokenWithdraw; frame_tac).
  destruct x as [st|e].
  - apply bind_inv in H as ([] & w2 & [= <-] & H). apply bind_inv in H as ([] & w3 & [= <-] & H).
    apply ret_inv in H as [_ ->].
    apply (hash_inv_mark (MainnetWithdrawalEvent wd) _ (mw_TokenKind wd) w1); [|by left|by eapply hash_inv_frame].
    apply seen_frame_inv in Hw1 as [Hs _]. unfold hasSeenTxHash in *. by rewrite Hs.
  - apply bind_inv in H as ([] & w2 & He & H). apply ret_inv in H as [_ ->].
    eapply hash_inv_frame; [|by eapply hash_inv_frame]. eapply frame_run_ok, He. auto with frame.
Qed.

Lemma batch_hash tg gx evs w w' :
  gx_FeatureEnabled gx TGCheckTxHashFeature false = true →
  ProcessEventBatch tg gx evs w = (Ok (), w') → hash_inv w → hash_inv w'.
Proof.
  intros Hcheck H Hi. unfold ProcessEventBatch in H.
  apply bind_inv in H as (ok & w1 & [-> ->]%from_store_inv & H).
  apply bind_inv in H as ([] & w1 & [_ ->]%guard_not_inv & H).
  apply bind_inv in H as (st & w1 & [-> ->]%from_store_inv & H).
  apply bind_inv in H as (l & w1 & Hloop & H).
  apply bind_inv in H as ([] & w2 & [_ ->]%guard_not_inv & H).
  assert (Hi1 : hash_inv w1).
  { apply (foldM_ok _ (λ _ v, hash_inv v) _ _ _ _ _) with (3 := Hloop); [|exact Hi].
    intros ev l1 v l2 v' _ Hv Hrun. unfold processEvent in Hrun.
    apply bind_inv in Hrun as ([] & v1 & [_ ->]%guard_not_inv & Hrun).
    destruct (_ <=? _); [by apply ret_inv in Hrun as [_ ->]|]. destruct (ev_Payload ev) as [d|wd|].
    - apply bind_inv in Hrun as (c & v1 & Hd & Hrun). apply ret_inv in Hrun as [_ ->]. by eapply processDeposit_hash.
    - apply bind_inv in Hrun as (c & v1 & Hd & Hrun). apply ret_inv in Hrun as [_ ->]. by eapply processWithdrawal_hash.
    - by apply ret_inv in Hrun as [_ ->]. }
  eapply hash_inv_frame; [|exact Hi1]. eapply frame_run_ok, H. frame_tac.
Qed.

(** Steps in which every batch is processed with the check of hashes on. *)
Definition checked_step (tg : bool) w w' : Prop :=
  (∃ c, match c with CallBatch gx _ => gx_FeatureEnabled gx TGCheckTxHashFeature false = true | _ => True end ∧
        run_gcall tg c w = (Ok (), w')) ∨ with_tokens w w'.

Lemma checked_step_hash tg w w' : checked_step tg w w' → hash_inv w → hash_inv w'.
Proof.
  intros [(c & Hc & H)|[Hs He]] Hi.
  2:{ unfold hash_inv. by rewrite Hs, He. }
  destruct c as [| | |gx evs| | | | | | | | | |]; cbn [run_gcall] in H; [ | | |by eapply batch_hash|..];
    (eapply hash_inv_frame; [|exact Hi]); (eapply frame_run_ok, H);
    unfold AddOracle, addOracle, RemoveOracle, removeOracle, ReplaceOwner, WithdrawToken, WithdrawETH, WithdrawDiademCoin,
      beginWithdrawal, finishWithdrawal, ConfirmWithdrawalReceipt, ConfirmWithdrawalReceiptV2, doConfirmWithdrawalReceipt,
      ReclaimDepositorTokens, ReclaimContractTokens, reclaimDepositorTokens, reclaimDepositorTokensForContract,
      AddContractMapping, AddAuthorizedContractMapping, VerifyContractCreators, confirmContractMapping; frame_tac.
Qed.

Lemma initial_hash w : gw_initial w → hash_inv w.
Proof.
  intros (req & coin & eth & evm & _ & _ & H). eapply hash_inv_frame; [eapply frame_run_ok, H; unfold Init, addOracle; frame_tac|].
  split; [apply NoDup_nil_2|]. by intros h ?%not_elem_of_nil.
Qed.

(** With the check of transaction hashes on, no transaction of the main chain
    counts twice: over the whole history, the deposits credited and the withdrawals
    settled have pairwise distinct transaction hashes, all of them recorded as
    seen; and a deposit whose hash was seen moves no token and changes nothing in
    the store. *)
Theorem transaction_counts_once tg w0 w :
  gw_initial w0 → rtc (checked_step tg) w0 w →
  NoDup (tx_hashes (gw_events w)) ∧
  (∀ h, h ∈ tx_hashes (gw_events w) → hasSeenTxHash h (gw_store w) = true) ∧
  ∀ gx ev d, gx_FeatureEnabled gx TGCheckTxHashFeature false = true →
    hasSeenTxHash (md_TxHash d) (gw_store w) = true →
    ∃ r e, processDeposit tg gx ev d w = (r, w) ∨
           processDeposit tg gx ev d w = (r, with_event (MainnetProcessEventError ev e) w).
Proof.
  intros H0%initial_hash Hs.
  assert (Hi : hash_inv w) by (revert H0; induction Hs; eauto using checked_step_hash).
  split_and!; [apply Hi..|]. intros gx ev d Hcheck Hseen. unfold processDeposit, guard_not, from_store. rewrite Hcheck.
  destruct (negb _); [eexists _, ErrNotFound; by left|].
  destruct (validateTokenDeposit d) as [[]|e|]; [|by eexists _, e; right|eexists _, ErrNotFound; by left].
  cbn [andb]. destruct (_ =? _)%nat; [eexists _, ErrNotFound; by left|]. m_eval. rewrite Hseen.
  eexists _, _. by right.
Qed.
End Hashes.
