(* ===== verification/GatewayClaims.v ===== *)
(** * Deposits of coins and unclaimed coins

    In the gateway for coins, a reported deposit is either credited to the linked
    account to the unit or added to what is kept unclaimed for the depositor, and
    a depositor that links an account later gets exactly what was kept. *)

From S2P Require Import Prelude Contract Coin EthCoin AddressMapper Store Middleware EvmTokens Gateway GatewayFrame GatewayWithdrawals.

Section Maps2.
Context {V : Type}.
Implicit Types (m : gmap bytes (gmap bytes V)) (k : bytes * bytes).

Lemma get2_set2 k k' v m : get2 k' (set2 k v m) = if decide (k' = k) then Some v else get2 k' m.
Proof.
  unfold get2, set2. destruct k as [k1 k2], k' as [k1' k2']. cbn. rewrite lookup_insert.
  destruct (decide (k1 = k1')) as [->|Hne]; cbn.
  - rewrite lookup_insert. destruct (decide (k2 = k2')) as [->|Hne].
    + by rewrite decide_True.
    + rewrite decide_False by congruence. by destruct (m !! k1').
  - by rewrite decide_False by congruence.
Qed.

Lemma get2_delete2 k k' m : get2 k' (delete2 k m) = if decide (k' = k) then None else get2 k' m.
Proof.
  unfold get2, delete2. destruct k as [k1 k2], k' as [k1' k2']. cbn. rewrite lookup_insert.
  destruct (decide (k1 = k1')) as [->|Hne]; cbn.
  - rewrite lookup_delete. destruct (decide (k2 = k2')) as [->|Hne].
    + by rewrite decide_True.
    + rewrite decide_False by congruence. by destruct (m !! k1').
  - by rewrite decide_False by congruence.
Qed.

Lemma get2_range (k1 k2 : bytes) m : get2 (k1, k2) m = (default ∅ (m !! k1) : gmap bytes V) !! k2.
Proof. unfold get2. cbn. by destruct (m !! k1). Qed.
End Maps2.

Definition unclaimed_part {P} (s : GStore P) := gs_unclaimed s.
Definition any_event (ev : GEvent) : bool := true.

Section Claims.
Context {LIB : DiademLib} {SPEC : DiademLibSpec} {EVM : EvmLib} {RANGE : RangeOrder} {RSPEC : RangeOrderSpec}
  {GLIB : GatewayLib}.
Context {P : Type} {PERM : Permissions P} {E : Type} {TOKENS : EvmTokens E}.
Abbreviation World := (GWorld P E).
Abbreviation GM := (M World).
Implicit Types (w : World) (s : GStore P) (a o t : Address).

(** ** What is kept *)

Definition claim_total (u : UnclaimedToken) : Z := sumZ (λ x, default 0 (ta_TokenAmount x)) (ut_Amounts u).

(** The coins kept for the depositor [o] from deposits of the token [t], and in all. *)
Definition unclaimed_amount s o t : Z :=
  from_option claim_total 0 (get2 (unclaimedTokenKey o t) (gs_unclaimed s)).
Definition unclaimed_all s o : Z :=
  map_sumZ claim_total (default ∅ (gs_unclaimed s !! unclaimedTokensRangePrefix o)).

(** A record holds one amount, under the key of its depositor and token. *)
Definition claim_ok (k : bytes * bytes) (u : UnclaimedToken) : Prop :=
  ut_TokenKind u = TokenKind_DiademCoin ∧
  ∃ y o t, 0 <= y ∧ ut_Amounts u = [mkTokenAmount None (Some y)] ∧
    wf_address o ∧ wf_address t ∧ k = unclaimedTokenKey o t ∧ ut_TokenContract u = Some t.
Definition claims_ok s : Prop := ∀ k u, get2 k (gs_unclaimed s) = Some u → claim_ok k u.

Lemma address_bytes_inj a b : wf_address a → wf_address b → address_bytes a = address_bytes b → a = b.
Proof. intros Ha Hb H. apply (prefix_key_inj2 "" a b); auto. by rewrite H. Qed.

Lemma unclaimedTokenKey_inj o t o' t' :
  wf_address o → wf_address t → wf_address o' → wf_address t' →
  unclaimedTokenKey o t = unclaimedTokenKey o' t' → o = o' ∧ t = t'.
Proof.
  intros Ho Ht Ho' Ht' [= H1 H2]. split; [by apply (prefix_key_inj2 "uto")|by apply address_bytes_inj].
Qed.

(** ** Paying out coins *)

(** The gateway for coins at its own address, with the contracts it calls. *)
Definition coin_gateway (gx : GCtx) : Prop :=
  is_Some (ctx_registry (gx_ctx gx) !! "addressmapper") ∧ is_Some (ctx_registry (gx_ctx gx) !! "coin") ∧
  ctx_registry (gx_ctx gx) !! "diademcoin-gateway" = Some (self gx) ∧ wf_address (self gx).

(** What the gateway takes from its reserve to pay [x]: all of it or, when the
    reserve is too small, nothing, and [x] new coins are minted. *)
Definition from_reserve (c : CoinStore) gx (x : Z) : Z := if balance c (self gx) <? x then 0 else x.

Definition paid gx a (x : Z) (c c' : CoinStore) : Prop :=
  coin_wf c' ∧ supply c' = supply c + (x - from_reserve c gx x) ∧
  ∀ b, wf_address b → balance c' b = balance c b +
    (if decide (b = a) then x else 0) - (if decide (b = self gx) then from_reserve c gx x else 0).

Lemma coin_deposit_run gx o t i x w a :
  coin_gateway gx → resolveToDAppAddr gx o = Ok a → coin_wf (gw_coin w) → wf_address a → a ≠ self gx → 0 <= x →
  ∃ c', transferTokenDeposit gx o t TokenKind_DiademCoin i (Some x) w =
          (Ok (), mkGWorld (gw_store w) c' (gw_eth w) (gw_evm w) (gw_events w)) ∧ paid gx a x (gw_coin w) c'.
Proof.
  intros ([mp Hmp] & [cn Hcn] & Hgw & Hself) Hres Hwf Ha Hne Hx. unfold transferTokenDeposit, ctx_resolve, wrap.
  rewrite Hmp. m_eval. rewrite Hres. change (kind_eqb TokenKind_DiademCoin TokenKind_ETH) with false.
  change (kind_eqb TokenKind_DiademCoin TokenKind_DiademCoin) with true. cbn [negb andb].
  change (default 0 (Some x)) with x. unfold newCoinContext, resolve_or_panic, coin_balanceOf. rewrite Hcn. m_eval.
  cbn [Coin.BalanceOf]. change (acct_Balance (Coin.loadAccount (gw_coin w) (self gx))) with (balance (gw_coin w) (self gx)).
  assert (Hs : ctx_sender (callee gx cn) = self gx) by done.
  assert (Hgw' : ctx_registry (callee gx cn) !! "diademcoin-gateway" = Some (self gx)) by done.
  unfold paid, from_reserve. destruct (balance (gw_coin w) (self gx) <? x) eqn:Hlow.
  - unfold coin_mintToGateway, coin_transfer, on_coin. m_eval. rewrite MintToGateway_authorized, Hgw', decide_True by done.
    rewrite mint_eq by done. cbv beta iota.
    set (c1 := set_economy _ _). cbn [gw_coin gw_store gw_eth gw_evm gw_events].
    assert (Hw1 : coin_wf c1).
    { apply coin_wf_resupply; [done|done|]. pose proof (balance_nonneg (gw_coin w) (self gx) Hwf). lia. }
    assert (Hb1 : ∀ b, wf_address b → balance c1 b = balance (gw_coin w) b + if decide (b = self gx) then x else 0).
    { intros b Hb. unfold c1. rewrite balance_set_economy, balance_put by done.
      destruct (decide (self gx = b)) as [<-|]; [by rewrite decide_True|]. rewrite decide_False by done. lia. }
    rewrite Transfer_eq by done. rewrite Hs, Hb1, decide_True by done.
    pose proof (balance_nonneg (gw_coin w) (self gx) Hwf).
    rewrite (proj2 (Z.ltb_ge _ _)) by lia. eexists. split; [reflexivity|].
    assert (Hx1 : balance c1 (self gx) = balance (gw_coin w) (self gx) + x) by (rewrite Hb1 by done; by rewrite decide_True).
    rewrite <- Hx1. split_and!.
    + apply coin_wf_move; [done..|lia].
    + rewrite !supply_put. cbn. lia.
    + intros b Hb. rewrite balance_move by done. rewrite !Hb1 by done. repeat case_decide; subst; try done; lia.
  - unfold coin_transfer, on_coin. m_eval. rewrite Transfer_eq by done. rewrite Hs, Hlow.
    eexists. split; [reflexivity|]. apply Z.ltb_ge in Hlow. split_and!.
    + apply coin_wf_move; [done..|lia].
    + rewrite !supply_put. lia.
    + intros b Hb. rewrite balance_move by done. repeat case_decide; subst; try done; lia.
Qed.

(** Without a linked account nothing is paid. *)
Lemma coin_deposit_unlinked gx o t i x w e :
  coin_gateway gx → resolveToDAppAddr gx o = Err e →
  transferTokenDeposit gx o t TokenKind_DiademCoin i x w = (Err (ErrMsg "no mapping exists for account"), w).
Proof.
  intros ([mp Hmp] & _) Hres. unfold transferTokenDeposit, ctx_resolve, wrap. rewrite Hmp. m_eval. by rewrite Hres.
Qed.

(** ** Keeping coins *)

Definition keep o t (x : Z) s : GStore P :=
  let u := mkUnclaimedToken
             (from_option ut_TokenContract (Some t) (get2 (unclaimedTokenKey o t) (gs_unclaimed s)))
             TokenKind_DiademCoin [mkTokenAmount None (Some (unclaimed_amount s o t + x))] in
  set_claims (set2 (unclaimedTokenDepositorKey t o) o (gs_depositors s))
    (set2 (unclaimedTokenKey o t) u (gs_unclaimed s)) s.

Lemma storeUnclaimedToken_coin d o t x w :
  claims_ok (gw_store w) → md_TokenKind d = TokenKind_DiademCoin →
  md_TokenOwner d = Some o → md_TokenContract d = Some t → md_TokenAmount d = Some x →
  ∃ u, storeUnclaimedToken d w = (Ok (), with_store (λ _, keep o t x (gw_store w)) (with_event (StoreUnclaimedToken u) w)).
Proof.
  intros Hok Hk Ho Ht Hx. unfold storeUnclaimedToken, from_store, UnmarshalAddressPB. rewrite Ho, Ht, Hk. m_eval.
  cbn [token_address]. unfold add_unclaimed. rewrite Hk, Hx.
  unfold keep, unclaimed_amount. cbn [with_event with_store gw_store].
  destruct (get2 (unclaimedTokenKey o t) (gs_unclaimed (gw_store w))) as [u|] eqn:Hu.
  - destruct (Hok _ _ Hu) as (Hku & y & o' & t' & Hy & Hams & _). change (default ?x (Some u)) with u.
    rewrite Hams. cbn. eexists. unfold claim_total. rewrite Hams. cbn. rewrite Z.add_0_r.
    unfold ut_with_Amounts. rewrite Hku. reflexivity.
  - cbn. eexists. reflexivity.
Qed.

Lemma keep_claims_ok o t x s :
  claims_ok s → wf_address o → wf_address t → 0 <= x → claims_ok (keep o t x s).
Proof.
  intros Hok Ho Ht Hx k u. cbn [keep set_claims gs_unclaimed]. rewrite get2_set2. case_decide as Hk; [|apply Hok].
  intros [= <-]. split; [done|]. subst k. exists (unclaimed_amount s o t + x), o, t. split_and!; try done.
  - unfold unclaimed_amount. destruct (get2 _ _) as [u|] eqn:Hu; cbn; [|lia].
    destruct (Hok _ _ Hu) as (_ & y & o' & t' & Hy & Hams & _). unfold claim_total. rewrite Hams. cbn. lia.
  - cbn. destruct (get2 _ _) as [u|] eqn:Hu; cbn; [|done].
    destruct (Hok _ _ Hu) as (_ & y & o' & t' & Hy & Hams & Ho' & Ht' & Hkey & Hc).
    apply unclaimedTokenKey_inj in Hkey as [-> ->]; done.
Qed.

Lemma unclaimed_keep o t x s o' t' :
  wf_address o → wf_address t → wf_address o' → wf_address t' →
  unclaimed_amount (keep o t x s) o' t' =
    unclaimed_amount s o' t' + if decide (o' = o ∧ t' = t) then x else 0.
Proof.
  intros Ho Ht Ho' Ht'. unfold unclaimed_amount at 1. cbn [keep set_claims gs_unclaimed]. rewrite get2_set2.
  case_decide as Hk.
  - apply unclaimedTokenKey_inj in Hk as [-> ->]; try done. rewrite decide_True by done.
    unfold claim_total. cbn. lia.
  - rewrite decide_False; [unfold unclaimed_amount; lia|]. intros [-> ->]. done.
Qed.

(** ** The shape of the records along calls *)

Definition claims_inv w : Prop := claims_ok (gw_store w).

Lemma claims_inv_frame w w' : frame unclaimed_part any_event w w' → claims_inv w → claims_inv w'.
Proof. intros [Hs _] H k u. unfold unclaimed_part in Hs. rewrite Hs. apply H. Qed.

Lemma claims_inv_run {A} (m : GM A) : (∀ w0, preserves (frame unclaimed_part any_event w0) m) → preserves claims_inv m.
Proof. intros Hm w Hw. eapply claims_inv_frame; [apply frame_run, Hm|done]. Qed.

Lemma validate_coin d :
  validateTokenDeposit d = Ok () → md_TokenKind d = TokenKind_DiademCoin →
  ∃ o t x, md_TokenOwner d = Some o ∧ md_TokenContract d = Some t ∧ md_TokenAmount d = Some x.
Proof.
  unfold validateTokenDeposit. intros H Hk. rewrite Hk in H.
  destruct (md_TokenOwner d), (md_TokenContract d), (md_TokenAmount d); try done. by eexists _, _, _.
Qed.

Lemma claims_processDeposit gx ev d :
  wf_opt (md_TokenOwner d) ∧ wf_opt (md_TokenContract d) ∧ 0 <= default 0 (md_TokenAmount d) →
  preserves claims_inv (processDeposit true gx ev d : GM bool).
Proof.
  intros (Hwo & Hwt & Hx). unfold processDeposit.
  destruct (kind_eqb (md_TokenKind d) TokenKind_DiademCoin) eqn:Hk; [|by intros w Hw].
  apply bool_decide_eq_true in Hk. cbn [negb eqb guard_not].
  apply preserves_bind; [auto with preserves|]. intros _.
  destruct (validateTokenDeposit d) as [[]|e|] eqn:Hv; [| |auto with preserves].
  2:{ apply claims_inv_run. frame_tac. }
  destruct (validate_coin d Hv Hk) as (o & t & x & Ho & Ht & Hxx). rewrite Hxx in Hx. cbn in Hx.
  apply preserves_bind; [auto with preserves|]. intros _. apply preserves_bind; [unfold from_store; auto with preserves|].
  intros seen. destruct (_ && seen); [apply claims_inv_run; frame_tac|].
  apply preserves_bind; [unfold UnmarshalAddressPB; auto with preserves|]. intros o'.
  apply preserves_bind; [apply preserves_try, claims_inv_run; frame_tac|]. intros r.
  apply preserves_bind; [|intros _; apply claims_inv_run; frame_tac].
  destruct r as [_|e']; [apply claims_inv_run; frame_tac|].
  apply preserves_bind; [apply claims_inv_run; frame_tac|]. intros _ w Hw.
  destruct (storeUnclaimedToken_coin d o t x w) as [u Hu]; try done.
  unfold wp, or_emit, try_. m_eval. rewrite Hu. by apply keep_claims_ok; auto.
Qed.

(** A record that is in order, or empty. *)
Definition reclaimable o t (u : UnclaimedToken) : Prop :=
  claim_ok (unclaimedTokenKey o t) u ∨ ut_Amounts u = [].

Lemma claims_delete k w : claims_inv w → claims_ok (set_claims (gs_depositors (gw_store w)) (delete2 k (gs_unclaimed (gw_store w))) (gw_store w)).
Proof. intros Hw k' u. cbn. rewrite get2_delete2. case_decide; [done|]. apply Hw. Qed.

Lemma claims_reclaimFor gx o t u :
  reclaimable o t u → preserves claims_inv (reclaimDepositorTokensForContract gx o t u : GM unit).
Proof.
  intros Hu. unfold reclaimDepositorTokensForContract.
  assert (Hdel : preserves claims_inv (on_store (λ s, set_claims (delete2 (unclaimedTokenDepositorKey t o) (gs_depositors s))
    (delete2 (unclaimedTokenKey o t) (gs_unclaimed s)) s) : GM unit)) by (intros w Hw; by apply claims_delete).
  destruct Hu as [Hok|Hnil]; [|rewrite Hnil; intros w Hw; exact (Hdel w Hw)].
  pose proof Hok as (Hk & y & o' & t' & Hy & Hams & Ho' & Ht' & Hkey & Hc). rewrite Hams. cbn [foldM].
  intros w Hw. apply wp_bind, wp_bind. apply wp_bind.
  eapply wp_mono; [apply (preserves_try claims_inv); [apply claims_inv_run; frame_tac|done]|].
  intros [[[]|e]|e|] w1 Hw1; cbn; try done; [by apply Hdel|].
  intros k' u'. change (get2 k' (set2 (unclaimedTokenKey o t) (ut_with_Amounts [mkTokenAmount None (Some y)] u)
    (gs_unclaimed (gw_store w1))) = Some u' → claim_ok k' u').
  rewrite get2_set2. case_decide as Hkk; [|apply Hw1].
  intros [= <-]. subst k'. split; [done|]. exists y, o', t'. done.
Qed.

(** The entries of a range of a store in order. *)
Lemma range_reclaimable s o k u :
  claims_ok s → (k, u) ∈ range2 (unclaimedTokensRangePrefix o) (gs_unclaimed s) →
  claim_ok (unclaimedTokensRangePrefix o, k) u ∧
  ∃ t, ut_TokenContract u = Some t ∧ unclaimedTokenKey o t = (unclaimedTokensRangePrefix o, k).
Proof.
  unfold range2. rewrite range_of_perm, elem_of_map_to_list, <- get2_range. intros Hok Hu.
  pose proof (Hok _ _ Hu) as Hc. split; [done|]. destruct Hc as (_ & y & o' & t & _ & _ & _ & _ & [= Hko Hkt] & Ht).
  exists t. unfold unclaimedTokenKey. by rewrite Hkt.
Qed.

Lemma claims_reclaim gx o : preserves claims_inv (reclaimDepositorTokens gx o : GM unit).
Proof.
  apply preserves_gets_bind. intros w Hw. apply preserves_forM_in. intros [k u] Hin.
  destruct (range_reclaimable _ _ _ _ Hw Hin) as (Hc & t & Ht & Hkey). cbn [snd]. rewrite Ht. cbn.
  apply claims_reclaimFor. left. by rewrite Hkey.
Qed.

Lemma claims_ReclaimDepositorTokens gx ds : preserves claims_inv (ReclaimDepositorTokens gx ds : GM unit).
Proof.
  unfold ReclaimDepositorTokens. destruct (_ =? _)%nat.
  - apply preserves_bind; [apply claims_inv_run; frame_tac|]. intros _.
    destruct (resolveToEthAddr gx (sender gx)); [|apply claims_inv_run; frame_tac..].
    apply preserves_bind; [apply preserves_try, claims_reclaim|]. intros [[]|e]; apply claims_inv_run; frame_tac.
  - apply preserves_bind; [apply claims_inv_run; frame_tac|]. intros st.
    apply preserves_bind; [apply claims_inv_run; frame_tac|]. intros o.
    apply preserves_bind; [apply claims_inv_run; frame_tac|]. intros _.
    apply preserves_forM. intros dep. apply preserves_bind; [apply claims_inv_run; frame_tac|]. intros a.
    apply preserves_bind; [apply preserves_try, claims_reclaim|]. intros [[]|e]; apply claims_inv_run; frame_tac.
Qed.

Lemma claims_ReclaimContractTokens gx (tc : option Address) : preserves claims_inv (ReclaimContractTokens gx tc : GM unit).
Proof.
  unfold ReclaimContractTokens. destruct tc as [t|]; [|apply claims_inv_run; frame_tac].
  apply preserves_bind; [apply claims_inv_run; frame_tac|]. intros [lc|e|]; [|apply claims_inv_run; frame_tac..].
  destruct (gx_creator gx lc); [|apply claims_inv_run; frame_tac].
  apply preserves_bind; [apply claims_inv_run; frame_tac|]. intros _.
  apply preserves_bind; [apply claims_inv_run; frame_tac|]. intros entries.
  apply preserves_forM. intros [k o]. cbn [snd]. apply preserves_gets_bind. intros w Hw.
  assert (Hr : ∀ u, get2 (unclaimedTokenKey o t) (gs_unclaimed (gw_store w)) = Some u → reclaimable o t u)
    by (intros u Hu; left; by apply Hw).
  assert (Htail : ∀ u, reclaimable o t u → preserves claims_inv
    (r ← try_ (reclaimDepositorTokensForContract gx o t u);
     match r with inl _ => mret () | inr e => emit (ReclaimError o e) end : GM unit)).
  { intros u Hu. apply preserves_bind; [by apply preserves_try, claims_reclaimFor|].
    intros [[]|e]; apply claims_inv_run; frame_tac. }
  destruct (get2 _ _) as [u|] eqn:Hu.
  - intros v Hv. exact (Htail u (Hr u eq_refl) v Hv).
  - intros v Hv. apply (Htail (mkUnclaimedToken None kind_zero [])); [by right|]. exact Hv.
Qed.

Lemma claims_batch gx evs : Forall wf_event evs → preserves claims_inv (ProcessEventBatch true gx evs : GM unit).
Proof.
  intros Hevs. unfold ProcessEventBatch.
  apply preserves_bind; [apply claims_inv_run; frame_tac|]. intros ok.
  apply preserves_bind; [apply claims_inv_run; frame_tac|]. intros _.
  apply preserves_bind; [apply claims_inv_run; frame_tac|]. intros st.
  apply preserves_bind; [|intros l; apply claims_inv_run; frame_tac].
  intros w Hw. apply wp_foldM with (λ l _ w, l ⊆ evs ∧ claims_inv w); [done|naive_solver|].
  intros ev l bl v [Hsub Hv].
  assert (Hev : wf_event ev) by (rewrite Forall_forall in Hevs; apply Hevs; set_solver).
  assert (Hp : preserves claims_inv (processEvent true gx bl ev : GM BatchLoop)).
  { unfold processEvent. apply preserves_bind; [apply claims_inv_run; frame_tac|]. intros _.
    destruct (_ <=? _); [auto with preserves|]. unfold wf_event in Hev. destruct (ev_Payload ev).
    - apply preserves_bind; [by apply claims_processDeposit|auto with preserves].
    - apply preserves_bind; [|auto with preserves]. apply claims_inv_run.
      unfold processWithdrawal, completeTokenWithdraw. frame_tac.
    - auto with preserves. }
  eapply wp_mono; [by apply Hp|]. intros [] v' Hv'; [split; [set_solver|done]|done|done].
Qed.

Lemma claims_step w w' : gw_step true w w' → claims_inv w → claims_inv w'.
Proof.
  intros [(c & (_ & _ & Hok) & H)|[Hs _]] Hi; [|unfold claims_inv; by rewrite Hs].
  assert (Hp : preserves claims_inv (run_gcall true c : GM unit)).
  { destruct c; cbn [run_gcall];
      [| | |by apply claims_batch| | | | | |apply claims_ReclaimDepositorTokens|apply claims_ReclaimContractTokens| | |];
      apply claims_inv_run;
      unfold AddOracle, addOracle, RemoveOracle, removeOracle, ReplaceOwner, WithdrawToken, WithdrawETH, WithdrawDiademCoin,
        beginWithdrawal, finishWithdrawal, ConfirmWithdrawalReceipt, ConfirmWithdrawalReceiptV2, doConfirmWithdrawalReceipt,
        AddContractMapping, AddAuthorizedContractMapping, VerifyContractCreators, confirmContractMapping; frame_tac. }
  pose proof (Hp w Hi) as Hw. unfold wp in Hw. by rewrite H in Hw.
Qed.

Lemma claims_reachable w : gw_reachable true w → claims_ok (gw_store w).
Proof.
  intros (w0 & (req & coin & eth & evm & _ & _ & H0) & Hs).
  assert (Hi : claims_inv w0).
  { eapply claims_inv_frame; [eapply frame_run_ok, H0; unfold Init, addOracle; frame_tac|]. by intros k u. }
  clear H0. revert Hi. change (claims_inv w0 → claims_inv w). induction Hs; eauto using claims_step.
Qed.

(** ** Theorems *)

(** C12. Every deposit of coins is credited or kept: a valid report that was not seen
    before goes through, and either the linked account has exactly the amount more
    (paid from the gateway's reserve or newly minted) and the kept amounts stay, or,
    without a linked account, no coin moves and exactly the amount is added to what
    is kept for the depositor and nobody else. *)
Theorem deposit_is_credited_or_kept gx ev d o t x w :
  gw_reachable true w → coin_gateway gx → coin_wf (gw_coin w) → am_wf (gx_mapper gx) →
  md_TokenKind d = TokenKind_DiademCoin → md_TokenOwner d = Some o → md_TokenContract d = Some t →
  md_TokenAmount d = Some x → 0 <= x → wf_address o → wf_address t →
  (gx_FeatureEnabled gx TGCheckTxHashFeature false = true →
     md_TxHash d ≠ "" ∧ hasSeenTxHash (md_TxHash d) (gw_store w) = false) →
  (∀ a, resolveToDAppAddr gx o = Ok a → a ≠ self gx) →
  ∃ w', processDeposit true gx ev d w = (Ok true, w') ∧
    match resolveToDAppAddr gx o with
    | Ok a => paid gx a x (gw_coin w) (gw_coin w') ∧ gs_unclaimed (gw_store w') = gs_unclaimed (gw_store w)
    | _ => gw_coin w' = gw_coin w ∧
        ∀ o' t', wf_address o' → wf_address t' →
          unclaimed_amount (gw_store w') o' t' = unclaimed_amount (gw_store w) o' t' +
            if decide (o' = o ∧ t' = t) then x else 0
    end.
Proof.
  intros Hre Hgw Hwf Ham Hk Ho Ht Hx Hx0 Hwo Hwt Hcheck Hself. pose proof (claims_reachable w Hre) as Hc.
  unfold processDeposit. rewrite Hk. change (kind_eqb TokenKind_DiademCoin TokenKind_DiademCoin) with true.
  assert (Hv : validateTokenDeposit d = Ok ()).
  { unfold validateTokenDeposit. by rewrite Ho, Ht, Hk, Hx. }
  rewrite Hv, Ho, Ht, Hx. cbn [eqb negb token_address]. unfold guard_not, from_store, UnmarshalAddressPB.
  assert (Hg : gx_FeatureEnabled gx TGCheckTxHashFeature false && (String.length (md_TxHash d) =? 0)%nat = false ∧
    gx_FeatureEnabled gx TGCheckTxHashFeature false && hasSeenTxHash (md_TxHash d) (gw_store w) = false).
  { destruct (gx_FeatureEnabled gx TGCheckTxHashFeature false); [|done]. destruct Hcheck as [Hne ->]; [done|].
    split; [|done]. cbn. by destruct (md_TxHash d). }
  destruct Hg as [-> Hseen]. m_eval. rewrite Hseen.
  destruct (resolveToDAppAddr gx o) as [a|e|] eqn:Hres.
  - assert (Ha : wf_address a).
    { unfold resolveToDAppAddr, GetMapping in Hres. destruct (gx_mapper gx !! _) as [m|] eqn:Hm; [|done].
      injection Hres as <-. by apply (Ham _ _ Hm). }
    destruct (coin_deposit_run gx o t (md_TokenID d) x w a) as (c' & -> & Hpaid); auto.
    destruct (gx_FeatureEnabled gx TGCheckTxHashFeature false); (eexists; split; [reflexivity|]); done.
  - rewrite (coin_deposit_unlinked gx o t (md_TokenID d) (Some x) w e) by done. unfold or_emit. m_eval.
    unfold emit at 1. m_eval.
    set (w1 := mkGWorld _ _ _ _ _).
    destruct (storeUnclaimedToken_coin d o t x w1) as [u ->]; try done.
    assert (Hun : ∀ o' t', wf_address o' → wf_address t' → unclaimed_amount (keep o t x (gw_store w1)) o' t' =
      unclaimed_amount (gw_store w) o' t' + if decide (o' = o ∧ t' = t) then x else 0)
      by (intros; by apply (unclaimed_keep o t x (gw_store w))).
    destruct (gx_FeatureEnabled gx TGCheckTxHashFeature false); (eexists; split; [reflexivity|]); done.
  - exfalso. unfold resolveToDAppAddr, GetMapping in Hres. by destruct (gx_mapper gx !! _).
Qed.

(** ** Reclaiming *)

Lemma reclaimFor_run gx o t u a w :
  coin_gateway gx → resolveToDAppAddr gx o = Ok a → coin_wf (gw_coin w) → wf_address a → a ≠ self gx →
  claim_ok (unclaimedTokenKey o t) u →
  ∃ c', reclaimDepositorTokensForContract gx o t u w =
    (Ok (), mkGWorld (set_claims (delete2 (unclaimedTokenDepositorKey t o) (gs_depositors (gw_store w)))
       (delete2 (unclaimedTokenKey o t) (gs_unclaimed (gw_store w))) (gw_store w)) c' (gw_eth w) (gw_evm w) (gw_events w)) ∧
    paid gx a (claim_total u) (gw_coin w) c'.
Proof.
  intros Hgw Hres Hwf Ha Hne (Hk & y & o' & t' & Hy & Hams & _).
  destruct (coin_deposit_run gx o t None y w a) as (c' & Hrun & Hpaid); try done.
  exists c'. unfold claim_total. rewrite Hams. cbn. rewrite Z.add_0_r. split; [|done].
  unfold reclaimDepositorTokensForContract. rewrite Hams, Hk. cbn [foldM]. unfold try_. m_eval. cbn [ta_TokenID ta_TokenAmount].
  by rewrite Hrun.
Qed.

Definition delete_all (k1 : bytes) (l : list (bytes * UnclaimedToken)) (m : gmap bytes (gmap bytes UnclaimedToken)) :=
  foldl (λ m e, delete2 (k1, e.1) m) m l.

Lemma get2_delete_all k1 l m k :
  get2 k (delete_all k1 l m) = if decide (k.1 = k1 ∧ k.2 ∈ l.*1) then None else get2 k m.
Proof.
  revert m. induction l as [|[k2 u] l IH]; intros m.
  - rewrite decide_False; [done|]. by intros [_ ?%not_elem_of_nil].
  - change (delete_all k1 ((k2, u) :: l) m) with (delete_all k1 l (delete2 (k1, k2) m)).
    rewrite IH, get2_delete2. cbn.
    destruct k as [x1 x2]. cbn. repeat case_decide; try done; set_solver.
Qed.

Lemma reclaim_loop gx o a l w :
  coin_gateway gx → resolveToDAppAddr gx o = Ok a → coin_wf (gw_coin w) → wf_address a → a ≠ self gx →
  (∀ k u, (k, u) ∈ l → claim_ok (unclaimedTokensRangePrefix o, k) u ∧
     ∃ t, ut_TokenContract u = Some t ∧ unclaimedTokenKey o t = (unclaimedTokensRangePrefix o, k)) →
  ∃ w', forM l (λ entry, reclaimDepositorTokensForContract gx o (token_address (ut_TokenContract entry.2)) entry.2) w
          = (Ok (), w') ∧
    coin_wf (gw_coin w') ∧
    balance (gw_coin w') a = balance (gw_coin w) a + sumZ (λ e, claim_total e.2) l ∧
    (∀ b, wf_address b → b ≠ a → b ≠ self gx → balance (gw_coin w') b = balance (gw_coin w) b) ∧
    gs_unclaimed (gw_store w') = delete_all (unclaimedTokensRangePrefix o) l (gs_unclaimed (gw_store w)).
Proof.
  intros Hgw Hres. revert w. induction l as [|[k u] l IH]; intros w Hwf Ha Hne Hall.
  { exists w. split_and!; try done. cbn. lia. }
  destruct (Hall k u) as (Hc & t & Ht & Hkey); [by left|]. rewrite <- Hkey in Hc.
  destruct (reclaimFor_run gx o t u a w) as (c' & Hrun & Hwf' & Hsup & Hbal); try done.
  set (w1 := mkGWorld _ _ _ _ _) in Hrun.
  destruct (IH w1) as (w' & Hloop & Hwf'' & Hb & Hoth & Hun); try done.
  { intros k' u' Hin. apply Hall. by right. }
  exists w'. split_and!; [|done|..].
  - unfold forM. cbn [foldM snd]. erewrite bind_ok; [exact Hloop|]. by rewrite Ht.
  - rewrite Hb. cbn [w1 gw_coin]. rewrite Hbal by done. rewrite decide_True, decide_False by done.
    change (sumZ _ ((k, u) :: l)) with (claim_total u + sumZ (λ e : bytes * UnclaimedToken, claim_total e.2) l). lia.
  - intros b Hwb Hba Hbs. rewrite Hoth by done. cbn [w1 gw_coin]. rewrite Hbal by done.
    rewrite !decide_False by done. lia.
  - rewrite Hun. cbn [w1 gw_store set_claims gs_unclaimed]. by rewrite Hkey.
Qed.

(** A depositor that links an account gets exactly what was kept: the account
    has all of it more, nothing is kept for the depositor any more, and neither the
    coins of other accounts nor what is kept for other depositors change. *)
Theorem linked_depositor_reclaims_all gx o w :
  gw_reachable true w → coin_gateway gx → coin_wf (gw_coin w) → am_wf (gx_mapper gx) →
  wf_address (sender gx) → sender gx ≠ self gx → resolveToEthAddr gx (sender gx) = Ok o →
  ∃ w', ReclaimDepositorTokens gx [] w = (Ok (), w') ∧
    balance (gw_coin w') (sender gx) = balance (gw_coin w) (sender gx) + unclaimed_all (gw_store w) o ∧
    (∀ b, wf_address b → b ≠ sender gx → b ≠ self gx → balance (gw_coin w') b = balance (gw_coin w) b) ∧
    (∀ t, unclaimed_amount (gw_store w') o t = 0) ∧
    ∀ o' t, wf_address o' → o' ≠ o → unclaimed_amount (gw_store w') o' t = unclaimed_amount (gw_store w) o' t.
Proof.
  intros Hre Hgw Hwf Ham Hs Hne Hres. pose proof (claims_reachable w Hre) as Hc.
  assert (Hback : resolveToDAppAddr gx o = Ok (sender gx) ∧ wf_address o).
  { unfold resolveToEthAddr, resolveToDAppAddr, GetMapping in *.
    destruct (gx_mapper gx !! addressKey (sender gx)) as [m|] eqn:Hm; [|done].
    destruct (Ham _ _ Hm) as (Hk & Hwf1 & Hwf2 & Hconv). injection Hres as <-. cbn.
    apply addressKey_inj in Hk; try done. rewrite Hconv. cbn. by rewrite Hk. }
  destruct Hback as [Hback Hwo].
  set (l := range2 (unclaimedTokensRangePrefix o) (gs_unclaimed (gw_store w))).
  destruct (reclaim_loop gx o (sender gx) l w) as (w' & Hrun & _ & Hb & Hoth & Hun); try done.
  { intros k u Hin. by apply (range_reclaimable (gw_store w)). }
  exists w'. split_and!; [| |done|..].
  - unfold ReclaimDepositorTokens. cbn [length Nat.eqb]. destruct Hgw as ([mp Hmp] & _).
    unfold wrap, ctx_resolve. rewrite Hmp. m_eval. rewrite Hres. unfold or_emit, reclaimDepositorTokens, from_store.
    m_eval. fold l. change (foldM _ () l w) with (forM l (λ entry, reclaimDepositorTokensForContract gx o
      (token_address (ut_TokenContract entry.2)) entry.2) w). by rewrite Hrun.
  - rewrite Hb. f_equal. unfold unclaimed_all, map_sumZ. apply sumZ_permutation, range_of_perm.
  - intros t. unfold unclaimed_amount. rewrite Hun, get2_delete_all. case_decide as Hin; [done|].
    destruct (get2 (unclaimedTokenKey o t) (gs_unclaimed (gw_store w))) as [u|] eqn:Hu; [|done]. exfalso.
    apply Hin. split; [done|]. apply list_elem_of_fmap. exists (address_bytes t, u). split; [done|].
    unfold l, range2. rewrite range_of_perm, elem_of_map_to_list, <- get2_range. done.
  - intros o' t Hwo' Hoo. unfold unclaimed_amount. rewrite Hun, get2_delete_all. rewrite decide_False; [done|].
    intros [Hk _]. cbn in Hk. apply (prefix_key_inj2 "uto") in Hk; done.
Qed.
End Claims.
