(* ===== verification/GatewayMappings.v ===== *)
(** * Contract mappings in the gateway

    The confirmed mappings between contracts of this chain and of the main chain
    form a one-to-one relation that only grows. *)

From S2P Require Import Prelude Contract Coin EthCoin AddressMapper Store Middleware EvmTokens Gateway GatewayFrame GatewayWithdrawals.

Definition mappings_part {P} (s : GStore P) := (gs_pending s, gs_mappings s).
Definition any_event (ev : GEvent) : bool := true.

Section Mappings.
Context {LIB : DiademLib} {SPEC : DiademLibSpec} {EVM : EvmLib} {RANGE : RangeOrder} {RSPEC : RangeOrderSpec}
  {GLIB : GatewayLib}.
Context {P : Type} {PERM : Permissions P} {E : Type} {TOKENS : EvmTokens E}.
Abbreviation World := (GWorld P E).
Abbreviation GM := (M World).
Implicit Types (w : World) (s : GStore P) (a b f l : Address) (base : gmap bytes ContractAddressMapping).

Definition mapped s a : option ContractAddressMapping := gs_mappings s !! contractAddrMappingKey a.

(** [chain] is the id of this chain, [base] the mappings at some earlier time. *)
Record minv (chain : string) (base : gmap bytes ContractAddressMapping) s : Prop := {
  mi_base : base ⊆ gs_mappings s;
  mi_mappings : map_Forall (λ k m, k = contractAddrMappingKey (cam_From m) ∧ wf_address (cam_From m) ∧
    wf_address (cam_To m) ∧ mapped s (cam_To m) = Some (mkContractMapping (cam_To m) (cam_From m))) (gs_mappings s);
  mi_pending : map_Forall (λ _ p, wf_address (pcm_ForeignContract p) ∧ wf_address (pcm_LocalContract p) ∧
    ChainID (pcm_ForeignContract p) ≠ chain ∧ ChainID (pcm_LocalContract p) = chain ∧
    mapped s (pcm_ForeignContract p) = None ∧ mapped s (pcm_LocalContract p) = None) (gs_pending s);
  mi_distinct k k' p p' : gs_pending s !! k = Some p → gs_pending s !! k' = Some p' → k ≠ k' →
    pcm_ForeignContract p ≠ pcm_ForeignContract p' ∧ pcm_LocalContract p ≠ pcm_LocalContract p';
}.

Lemma contractAddrMappingKey_inj a b :
  wf_address a → wf_address b → contractAddrMappingKey a = contractAddrMappingKey b → a = b.
Proof. apply prefix_key_inj2. Qed.

(** Both directions of a mapping. *)
Definition put_both f l s : GStore P :=
  set_mappings (<[contractAddrMappingKey l := mkContractMapping l f]>
    (<[contractAddrMappingKey f := mkContractMapping f l]> (gs_mappings s))) s.

Lemma mapped_put_both f l s a :
  wf_address f → wf_address l → wf_address a →
  mapped (put_both f l s) a =
    if decide (a = l) then Some (mkContractMapping l f)
    else if decide (a = f) then Some (mkContractMapping f l) else mapped s a.
Proof.
  intros Hf Hl Ha. unfold mapped. cbn. rewrite lookup_insert.
  destruct (decide (a = l)) as [->|Hne]; [by rewrite decide_True|].
  rewrite decide_False by (intros Hk; apply Hne; symmetry; by apply contractAddrMappingKey_inj).
  rewrite lookup_insert. destruct (decide (a = f)) as [->|Hne']; [by rewrite decide_True|].
  rewrite decide_False by (intros Hk; apply Hne'; symmetry; by apply contractAddrMappingKey_inj). done.
Qed.

(** A new mapping between contracts that had none, with no other one pending. *)
Lemma minv_put_both chain base f l s :
  minv chain base s → wf_address f → wf_address l → ChainID f ≠ chain → ChainID l = chain →
  mapped s f = None → mapped s l = None →
  (∀ k p, gs_pending s !! k = Some p → pcm_ForeignContract p ≠ f ∧ pcm_LocalContract p ≠ l) →
  minv chain base (put_both f l s).
Proof.
  intros H Hf Hl Hcf Hcl Hmf Hml Hp. assert (Hne : f ≠ l) by congruence. split.
  - cbn. etrans; [apply H|]. etrans; [apply (insert_subseteq _ (contractAddrMappingKey f)), Hmf|].
    apply insert_subseteq. rewrite lookup_insert_ne; [done|]. intros Hk. by apply Hne, contractAddrMappingKey_inj.
  - intros k m. cbn [put_both set_mappings gs_mappings]. rewrite lookup_insert. case_decide as Hk; [intros [= <-]|].
    { cbn. split_and!; try done. rewrite mapped_put_both by done. rewrite decide_False, decide_True by done. done. }
    rewrite lookup_insert. case_decide as Hk'; [intros [= <-]|].
    { cbn. split_and!; try done. rewrite mapped_put_both by done. by rewrite decide_True. }
    intros Hm. destruct (mi_mappings _ _ _ H k m Hm) as (-> & Hw1 & Hw2 & Hconv). split_and!; try done.
    rewrite mapped_put_both by done. rewrite !decide_False; [done|congruence..].
  - intros k p Hkp. destruct (mi_pending _ _ _ H k p Hkp) as (W1 & W2 & C1 & C2 & N1 & N2).
    destruct (Hp k p Hkp) as [Hpf Hpl].
    split_and!; try done; rewrite mapped_put_both by done; rewrite !decide_False; try done; congruence.
  - apply H.
Qed.

Lemma minv_delete_pending chain base k s : minv chain base s → minv chain base (set_pending (delete k (gs_pending s)) s).
Proof.
  intros H. split; [apply H|apply H|..].
  - intros k' p. cbn. intros [_ Hp]%lookup_delete_Some. by apply (mi_pending _ _ _ H k').
  - intros k1 k2 p p'. cbn. intros [_ H1]%lookup_delete_Some [_ H2]%lookup_delete_Some. by apply (mi_distinct _ _ _ H).
Qed.

Lemma contractMappingExists_false f l s :
  contractMappingExists f l s = false →
  mapped s f = None ∧ mapped s l = None ∧
  ∀ k p, gs_pending s !! k = Some p → pcm_ForeignContract p ≠ f ∧ pcm_LocalContract p ≠ l.
Proof.
  unfold contractMappingExists. intros [[Hf Hl]%orb_false_iff H3]%orb_false_iff.
  apply bool_decide_eq_false, eq_None_not_Some in Hf, Hl. split_and!; try done. intros k p Hp.
  assert (Hin : (k, p) ∈ range_of (gs_pending s)) by (by rewrite range_of_perm, elem_of_map_to_list).
  assert (Hx : (address_compare (pcm_ForeignContract p) f =? 0) || (address_compare (pcm_LocalContract p) l =? 0) = false).
  { destruct (_ || _) eqn:Hor; [|done]. rewrite <- H3. symmetry. apply existsb_exists.
    exists (k, p). split; [by apply list_elem_of_In|done]. }
  apply orb_false_iff in Hx as [Hx1 Hx2]. split; by apply (cmp_eqb_false address_compare).
Qed.

Definition minv_w chain base w : Prop := minv chain base (gw_store w).

Lemma minv_frame chain base w w' : frame mappings_part any_event w w' → minv_w chain base w → minv_w chain base w'.
Proof.
  intros [Hpart _] H. injection Hpart as Hp Hm. unfold minv_w in *.
  assert (Hmm : ∀ a, mapped (gw_store w') a = mapped (gw_store w) a) by (intros; unfold mapped; by rewrite Hm).
  destruct H as [H0 H1 H2 H3]. split.
  - by rewrite Hm.
  - intros k m. rewrite Hm, Hmm. apply H1.
  - intros k p. rewrite Hp, !Hmm. apply H2.
  - rewrite Hp. apply H3.
Qed.

Lemma minv_run {A} chain base (m : GM A) : (∀ w0, preserves (frame mappings_part any_event w0) m) → preserves (minv_w chain base) m.
Proof. intros Hm w Hw. eapply minv_frame; [apply frame_run, Hm|done]. Qed.

(** ** The three methods *)

(** The contracts of a request are on the chains they are said to be on. *)
Definition request_chains (chain : string) (req : AddContractMappingRequest) : Prop :=
  (∀ f, ac_ForeignContract req = Some f → wf_address f ∧ ChainID f ≠ chain) ∧
  (∀ l, ac_LocalContract req = Some l → wf_address l ∧ ChainID l = chain).

Lemma mapping_request_ok_inv f l w u w' : (mapping_request_ok f l : GM unit) w = (Ok u, w') → w' = w.
Proof.
  unfold mapping_request_ok. intros H. by apply bind_inv in H as ([] & w1 & [_ ->]%guard_not_inv & [_ ->]%guard_not_inv).
Qed.

Lemma minv_AddContractMapping chain base gx req w w' :
  request_chains chain req → minv_w chain base w → AddContractMapping gx req w = (Ok (), w') → minv_w chain base w'.
Proof.
  intros [Hcf Hcl] H Hrun. unfold AddContractMapping in Hrun.
  destruct (ac_ForeignContract req) as [f|], (ac_LocalContract req) as [l|], (ac_ForeignContractCreatorSig req),
    (ac_ForeignContractTxHash req) as [h|]; try done.
  destruct (Hcf f eq_refl) as [Wf Cf]. destruct (Hcl l eq_refl) as [Wl Cl].
  apply bind_inv in Hrun as ([] & w1 & ->%mapping_request_ok_inv & Hrun).
  destruct (gx_creator gx l); [|done].
  apply bind_inv in Hrun as ([] & w1 & [_ ->]%guard_not_inv & Hrun).
  apply bind_inv in Hrun as (ex & w1 & [-> ->]%from_store_inv & Hrun).
  apply bind_inv in Hrun as ([] & w1 & [Hex ->]%guard_not_inv & Hrun).
  apply contractMappingExists_false in Hex as (Mf & Ml & Hpend).
  apply bind_inv in Hrun as (st & w1 & [-> ->]%from_store_inv & Hrun).
  apply bind_inv in Hrun as (sg & w1 & [_ ->]%lift_res_inv & Hrun).
  apply bind_inv in Hrun as ([] & w1 & [= <-] & Hrun). injection Hrun as <-.
  split; [apply H|apply H|..].
  - intros k p. cbn. rewrite lookup_insert. case_decide; [intros [= <-]; done|]. apply (mi_pending _ _ _ H).
  - intros k k' p p'. cbn. rewrite !lookup_insert. intros Hp Hp' Hne. repeat case_decide; subst; try done.
    + injection Hp' as <-. cbn. by apply (Hpend k p).
    + injection Hp as <-. cbn. destruct (Hpend k' p' Hp'). split; congruence.
    + by apply (mi_distinct _ _ _ H k k').
Qed.

Lemma minv_AddAuthorized chain base gx req w w' :
  request_chains chain req → minv_w chain base w → AddAuthorizedContractMapping gx req w = (Ok (), w') → minv_w chain base w'.
Proof.
  intros [Hcf Hcl] H Hrun. unfold AddAuthorizedContractMapping in Hrun.
  destruct (ac_ForeignContract req) as [f|], (ac_LocalContract req) as [l|]; try done.
  destruct (Hcf f eq_refl) as [Wf Cf]. destruct (Hcl l eq_refl) as [Wl Cl].
  apply bind_inv in Hrun as ([] & w1 & ->%mapping_request_ok_inv & Hrun).
  apply bind_inv in Hrun as (st & w1 & [-> ->]%from_store_inv & Hrun).
  apply bind_inv in Hrun as (o & w1 & [_ ->]%deref_inv & Hrun).
  apply bind_inv in Hrun as ([] & w1 & [_ ->]%guard_not_inv & Hrun).
  apply bind_inv in Hrun as (ex & w1 & [-> ->]%from_store_inv & Hrun).
  apply bind_inv in Hrun as ([] & w1 & [Hex ->]%guard_not_inv & Hrun).
  apply contractMappingExists_false in Hex as (Mf & Ml & Hpend).
  apply bind_inv in Hrun as ([] & w1 & [= <-] & Hrun). apply bind_inv in Hrun as ([] & w1 & [= <-] & Hrun).
  injection Hrun as <-. by apply (minv_put_both chain base f l (gw_store w)).
Qed.

Lemma confirm_minv chain base key p c w :
  minv_w chain base w → gs_pending (gw_store w) !! key = Some p →
  minv_w chain base (confirmContractMapping key p c w).2.
Proof.
  intros H Hp. destruct (mi_pending _ _ _ H key p Hp) as (W1 & W2 & C1 & C2 & N1 & N2).
  unfold confirmContractMapping. m_eval. cbn [on_store modify].
  pose proof (minv_delete_pending chain base key (gw_store w) H) as Hd.
  destruct (vc_Creator c); [|exact Hd]. destruct (vc_Contract c); [|exact Hd].
  destruct (_ || _); [exact Hd|].
  apply (minv_put_both chain base _ _ _ Hd); try done.
  intros k p'. cbn. intros [Hne Hp']%lookup_delete_Some. destruct (mi_distinct _ _ _ H k key p' p Hp' Hp); [congruence|done].
Qed.

Lemma minv_Verify chain base gx cs : preserves (minv_w chain base) (VerifyContractCreators gx cs : GM unit).
Proof.
  unfold VerifyContractCreators. apply preserves_bind; [auto with preserves|]. intros _.
  apply preserves_bind; [apply minv_run; frame_tac|]. intros ok.
  apply preserves_bind; [auto with preserves|]. intros _. apply preserves_forM. intros c w Hw.
  apply wp_bind. unfold from_store. apply wp_gets.
  destruct (gs_pending (gw_store w) !! _) as [p|] eqn:Hp; [|done].
  unfold wp. by apply confirm_minv.
Qed.

(** ** Histories *)

Definition mapping_step (chain : string) (tg : bool) w w' : Prop :=
  (∃ c, match c with
        | CallAddContractMapping _ req | CallAddAuthorizedContractMapping _ req => request_chains chain req
        | _ => True
        end ∧ run_gcall tg c w = (Ok (), w')) ∨ with_tokens w w'.

Lemma minv_step chain base tg w w' : mapping_step chain tg w w' → minv_w chain base w → minv_w chain base w'.
Proof.
  intros [(c & Hc & H)|[Hs _]] Hi; [|unfold minv_w; by rewrite Hs].
  assert (Hp : match c with CallAddContractMapping _ _ | CallAddAuthorizedContractMapping _ _ => True
                          | _ => preserves (minv_w chain base) (run_gcall tg c : GM unit) end).
  { destruct c; cbn [run_gcall]; try exact I; try apply minv_Verify; apply minv_run;
      unfold AddOracle, addOracle, RemoveOracle, removeOracle, ReplaceOwner, ProcessEventBatch, processEvent,
        processDeposit, processWithdrawal, storeUnclaimedToken, completeTokenWithdraw,
        WithdrawToken, WithdrawETH, WithdrawDiademCoin,
        beginWithdrawal, finishWithdrawal, ConfirmWithdrawalReceipt, ConfirmWithdrawalReceiptV2, doConfirmWithdrawalReceipt,
        ReclaimDepositorTokens, ReclaimContractTokens, reclaimDepositorTokens, reclaimDepositorTokensForContract; frame_tac. }
  destruct c; cbn [run_gcall] in H, Hp;
    try (pose proof (Hp w Hi) as Hw; unfold wp in Hw; by rewrite H in Hw).
  - by eapply minv_AddContractMapping.
  - by eapply minv_AddAuthorized.
Qed.

Lemma minv_rtc chain base tg w w' : rtc (mapping_step chain tg) w w' → minv_w chain base w → minv_w chain base w'.
Proof. induction 1; eauto using minv_step. Qed.

Lemma minv_initial chain w : gw_initial w → minv_w chain ∅ w.
Proof.
  intros (req & coin & eth & evm & _ & _ & H). apply (frame_run_ok mappings_part any_event) in H.
  - eapply minv_frame; [exact H|]. split; [done|..]; try apply map_Forall_empty.
    intros k k' p p'. cbn. by rewrite lookup_empty.
  - unfold Init, addOracle. frame_tac.
Qed.

(** The mappings are monotone: the invariant holds with the current ones as base. *)
Lemma minv_rebase chain base w : minv_w chain base w → minv_w chain (gs_mappings (gw_store w)) w.
Proof. intros [_ H1 H2 H3]. by split. Qed.

Lemma minv_mapped chain base w a m :
  minv_w chain base w → wf_address a → mapped (gw_store w) a = Some m →
  cam_From m = a ∧ mapped (gw_store w) (cam_To m) = Some (mkContractMapping (cam_To m) a).
Proof.
  intros H Ha Hm. destruct (mi_mappings _ _ _ H _ _ Hm) as (Hk & Hf & _ & Hconv).
  assert (cam_From m = a) as Heq by (symmetry; by apply contractAddrMappingKey_inj). by rewrite Heq in Hconv.
Qed.

Lemma minv_resolve chain base w a b :
  minv_w chain base w → wf_address a →
  resolveToLocalContractAddr a (gw_store w) = Ok b → resolveToForeignContractAddr b (gw_store w) = Ok a.
Proof.
  intros H Ha. unfold resolveToLocalContractAddr, resolveToForeignContractAddr.
  destruct (gs_mappings _ !! contractAddrMappingKey a) as [m|] eqn:Hm; [|done]. intros [= <-].
  destruct (minv_mapped _ _ _ _ _ H Ha Hm) as [_ Hc]. unfold mapped in Hc. by rewrite Hc.
Qed.

(** The confirmed mappings are one-to-one and final: a foreign contract
    resolves to a local one exactly when the local one resolves to it, and what
    resolves once resolves so ever after. *)
Theorem contract_mappings_are_one_to_one chain tg w0 w w' f l :
  gw_initial w0 → rtc (mapping_step chain tg) w0 w → rtc (mapping_step chain tg) w w' →
  wf_address f → wf_address l →
  (resolveToLocalContractAddr f (gw_store w) = Ok l ↔ resolveToForeignContractAddr l (gw_store w) = Ok f) ∧
  (resolveToLocalContractAddr f (gw_store w) = Ok l → resolveToLocalContractAddr f (gw_store w') = Ok l).
Proof.
  intros Hi H1 H2 Hf Hl. pose proof (minv_rtc _ _ _ _ _ H1 (minv_initial chain w0 Hi)) as Hw.
  pose proof (minv_rtc _ _ _ _ _ H2 (minv_rebase _ _ _ Hw)) as Hw'.
  split; [split; by apply minv_resolve with chain ∅|]. unfold resolveToLocalContractAddr.
  destruct (gs_mappings (gw_store w) !! _) as [m|] eqn:Hm; [|done].
  by rewrite (lookup_weaken _ _ _ _ Hm (mi_base _ _ _ Hw')).
Qed.
End Mappings.
