(* ===== verification/GatewayOracles.v ===== *)
(** * Who may act as an oracle of the gateway

    The gateway keeps its oracles twice: as records in its store and as holders of
    three permissions, which is what its handlers check.  The two always agree. *)

From S2P Require Import Prelude Contract Coin EthCoin AddressMapper Store Middleware EvmTokens Gateway GatewayFrame GatewayWithdrawals.

Definition oracles_part {P} (s : GStore P) := (gs_oracles s, gs_perms s).
Definition oracle_perms : list bytes := [submitEventsPerm; signWithdrawalsPerm; verifyCreatorsPerm].

Section Oracles.
Context {LIB : DiademLib} {SPEC : DiademLibSpec} {EVM : EvmLib} {RANGE : RangeOrder} {RSPEC : RangeOrderSpec}
  {GLIB : GatewayLib}.
Context {P : Type} {PERM : Permissions P} {PSPEC : PermissionsSpec P} {E : Type} {TOKENS : EvmTokens E}.
Abbreviation World := (GWorld P E).
Abbreviation GM := (M World).
Implicit Types (w : World) (s : GStore P) (a b : Address) (o : gmap bytes Address) (p : P).

Record oracles_agree o p : Prop := {
  oa_keys : map_Forall (λ k a, k = oracleStateKey a ∧ wf_address a) o;
  oa_perms a t : wf_address a → t ∈ oracle_perms → perm_has p a t [oracleRole] = bool_decide (is_Some (o !! oracleStateKey a));
}.
Definition oinv w : Prop := oracles_agree (gs_oracles (gw_store w)) (gs_perms (gw_store w)).

Lemma oracleStateKey_inj a b : wf_address a → wf_address b → oracleStateKey a = oracleStateKey b → a = b.
Proof. apply prefix_key_inj2. Qed.

(** Permissions of the owner are another matter. *)
Lemma agree_owner o p a t :
  oracles_agree o p → oracles_agree o (perm_grant a t ownerRole p) ∧ oracles_agree o (perm_revoke a t ownerRole p).
Proof.
  intros [Hk Hp]. split; split; try done; intros b u Hb Hu.
  - rewrite perm_has_grant_other by done. by apply Hp.
  - rewrite perm_has_revoke_other by done. by apply Hp.
Qed.

Lemma agree_add o p a :
  oracles_agree o p → wf_address a →
  oracles_agree (<[oracleStateKey a := a]> o)
    (perm_grant a verifyCreatorsPerm oracleRole (perm_grant a signWithdrawalsPerm oracleRole
      (perm_grant a submitEventsPerm oracleRole p))).
Proof.
  intros [Hk Hp] Ha. split; [by apply map_Forall_insert_2|]. intros b t Hb Ht.
  rewrite !perm_has_grant, (Hp b t), lookup_insert by done. destruct (decide (b = a)) as [->|Hne].
  - rewrite (decide_True (P := oracleStateKey a = oracleStateKey a)), (bool_decide_eq_true_2 (is_Some (Some a))) by done.
    unfold oracle_perms in Ht. rewrite !elem_of_cons, elem_of_nil in Ht. repeat case_decide; naive_solver.
  - rewrite !(decide_False (P := b = a ∧ _)) by naive_solver.
    by rewrite decide_False by (intros Hkey; apply Hne; symmetry; by apply oracleStateKey_inj).
Qed.

Lemma agree_remove o p a :
  oracles_agree o p → wf_address a →
  oracles_agree (delete (oracleStateKey a) o)
    (perm_revoke a verifyCreatorsPerm oracleRole (perm_revoke a signWithdrawalsPerm oracleRole
      (perm_revoke a submitEventsPerm oracleRole p))).
Proof.
  intros [Hk Hp] Ha. split; [by apply map_Forall_delete|]. intros b t Hb Ht.
  rewrite !perm_has_revoke, (Hp b t) by done. destruct (decide (b = a)) as [->|Hne].
  - rewrite lookup_delete_eq, (bool_decide_eq_false_2 (is_Some None)) by (by intros []).
    unfold oracle_perms in Ht. rewrite !elem_of_cons, elem_of_nil in Ht. repeat case_decide; naive_solver.
  - rewrite !(decide_False (P := b = a ∧ _)) by naive_solver.
    rewrite lookup_delete_ne; [done|]. intros Hkey. apply Hne. symmetry. by apply oracleStateKey_inj.
Qed.

(** ** Histories *)

Lemma oinv_frame w w' : frame oracles_part (λ _, true) w w' → oinv w → oinv w'.
Proof. intros [Hpart _] H. injection Hpart as Ho Hp. unfold oinv. by rewrite Ho, Hp. Qed.

Lemma oinv_step tg w w' : gw_step tg w w' → oinv w → oinv w'.
Proof.
  intros [(c & (_ & _ & Hok) & H)|[Hs _]] Hi; [|unfold oinv; by rewrite Hs].
  destruct c as [gx o|gx o|gx o|gx evs|gx req|gx req|gx req|gx req|gx req|gx ds|gx t|gx req|gx req|gx cs];
    cbn [run_gcall] in H.
  4-14: (eapply oinv_frame; [|exact Hi]); (eapply frame_run_ok, H);
      unfold ProcessEventBatch, processEvent,
        processDeposit, processWithdrawal, storeUnclaimedToken, completeTokenWithdraw, WithdrawToken, WithdrawETH, WithdrawDiademCoin,
        beginWithdrawal, finishWithdrawal, ConfirmWithdrawalReceipt, ConfirmWithdrawalReceiptV2, doConfirmWithdrawalReceipt,
        ReclaimDepositorTokens, ReclaimContractTokens, reclaimDepositorTokens, reclaimDepositorTokensForContract,
        AddContractMapping, AddAuthorizedContractMapping, VerifyContractCreators, confirmContractMapping; frame_tac.
  - unfold AddOracle in H. destruct o as [a|]; [|done].
    apply bind_inv in H as (ok & w1 & [-> ->]%from_store_inv & H).
    apply bind_inv in H as ([] & w1 & [_ ->]%guard_not_inv & H).
    apply bind_inv in H as (fd & w1 & [-> ->]%from_store_inv & H).
    apply bind_inv in H as ([] & w1 & [_ ->]%guard_not_inv & H).
    injection H as <-. by apply agree_add; [|apply Hok].
  - unfold RemoveOracle in H. destruct o as [a|]; [|done].
    apply bind_inv in H as (ok & w1 & [-> ->]%from_store_inv & H).
    apply bind_inv in H as ([] & w1 & [_ ->]%guard_not_inv & H).
    apply bind_inv in H as (fd & w1 & [-> ->]%from_store_inv & H).
    apply bind_inv in H as ([] & w1 & [_ ->]%guard_not_inv & H).
    injection H as <-. by apply agree_remove; [|apply Hok].
  - unfold ReplaceOwner in H. destruct o as [a|]; [|done].
    apply bind_inv in H as (st & w1 & [-> ->]%from_store_inv & H).
    apply bind_inv in H as (b & w1 & [_ ->]%deref_inv & H).
    apply bind_inv in H as ([] & w1 & [_ ->]%guard_not_inv & H).
    injection H as <-. by apply agree_owner, agree_owner.
Qed.

Lemma oinv_initial w : gw_initial w → oinv w.
Proof.
  intros (req & coin & eth & evm & _ & Hok & H). unfold Init in H. destruct (gi_Owner req) as [o|]; [|done].
  apply bind_inv in H as ([] & w1 & [= <-] & H). apply bind_inv in H as ([] & w1 & Hloop & H). injection H as <-.
  change (oinv w1). set (w2 := mkGWorld _ _ _ _ _) in Hloop.
  assert (H2 : oinv w2).
  { apply agree_owner. split; [apply map_Forall_empty|]. intros a t _ _. rewrite perm_has_none. cbn.
    rewrite lookup_empty. symmetry. apply bool_decide_eq_false_2. by intros []. }
  clearbody w2. revert w2 Hloop H2. induction Hok as [|[a|] l Ha _ IH]; intros w2 Hloop H2.
  - by injection Hloop as <-.
  - cbn [forM foldM] in Hloop. apply bind_inv in Hloop as ([] & w3 & Hadd & Hloop).
    refine (IH w3 Hloop _). injection Hadd as <-. by apply agree_add; [|apply Ha].
  - done.
Qed.

(** The permissions follow the register: at any time the accounts that may
    submit events, sign withdrawals or confirm contract creators are exactly the
    oracles that [GetOracles] lists, each listed once. *)
Theorem oracles_are_those_listed tg w :
  gw_reachable tg w →
  NoDup (GetOracles (gw_store w)) ∧
  ∀ a t, wf_address a → t ∈ [submitEventsPerm; signWithdrawalsPerm; verifyCreatorsPerm] →
    perm_has (gs_perms (gw_store w)) a t [oracleRole] = true ↔ a ∈ GetOracles (gw_store w).
Proof.
  intros (w0 & H0%oinv_initial & Hs).
  assert (Hi : oinv w) by (revert H0; induction Hs; eauto using oinv_step). clear H0 Hs.
  destruct Hi as [Hk Hp]. unfold GetOracles. split.
  - rewrite range_of_perm. apply (NoDup_fmap_1 oracleStateKey). rewrite <- list_fmap_compose.
    rewrite (list_fmap_ext _ fst); [apply NoDup_fst_map_to_list|].
    intros _ [k b] Hin%list_elem_of_lookup_2%elem_of_map_to_list. cbn. symmetry. by apply (Hk k b).
  - intros a t Ha Ht. rewrite (Hp a t Ha Ht), bool_decide_eq_true, range_of_perm, list_elem_of_fmap. split.
    + intros [b Hb]. exists (oracleStateKey a, b). split; [|by apply elem_of_map_to_list].
      destruct (Hk _ _ Hb) as [Hkey Hwb]. by apply oracleStateKey_inj.
    + intros ([k b] & -> & Hb%elem_of_map_to_list). destruct (Hk _ _ Hb) as [-> _]. by exists b.
Qed.
End Oracles.
