(* ===== verification/GatewayWitnesses.v ===== *)
(** * The gateway on concrete worlds

    The theorems about the gateway applied to a chain with one oracle, a user
    [sample "a"] whose account on Ethereum is linked, and token contracts that
    refuse every call. *)

From S2P Require Import Prelude Contract Coin EthCoin AddressMapper Store Middleware EvmTokens Gateway GatewayFrame GatewayWithdrawals GatewayCalls GatewayDeposits GatewayClaims GatewayMappings GatewayOracles.

Module GatewayWitness.
Import SimpleLib MapperWitness.
#[local] Existing Instance MapperWitness.evm.

#[local] Instance glib : GatewayLib := {
  root_address c := mkAddress c ""; address_empty a := false; kind_zero := TokenKind_ERC721X;
  solidity_sha3 l := "hash" }.

#[local] Instance tokens : EvmTokens unit := {
  abi_pack abi method params := Ok method; abi_unpack_uint256 abi method b := Ok 0;
  abi_unpack_bool abi method b := Ok false; abi_unpack_address abi method b := Ok b;
  StaticCallEVM caller token b e := Err ErrNotFound; CallEVM caller token b := throw ErrNotFound }.

Abbreviation World := (GWorld (gset (Address * bytes * string)) unit).

Definition registry : gmap string Address :=
  {[ "addressmapper" := sample "M"; "coin" := sample "C"; "ethcoin" := sample "E";
     "gateway" := sample "G"; "diademcoin-gateway" := sample "G" ]}.

(** A call by [sample c]; the hashes of transactions are checked. *)
Definition gx (c : string) (mapper : AMStore) : GCtx :=
  mkGCtx (mkCtx (sample c) 0 (sample "G") "diadem" 1 registry) (λ _ _, true) mapper
    (λ _, Some (sample "b")) (Err ErrNotFound).

Definition token : Address := mkAddress "eth" (Local (sample "T")).

(** Ether of the user and what it allows the gateway to take. *)
Definition eth1 : CoinStore := (run_eth (EthMint (EthWitness.ctx (sample "G")) 100) empty_coin_store).2.
Definition eth2 : CoinStore := (run_eth (EthTransfer (EthWitness.ctx (sample "G")) (sample "a") 60) eth1).2.
Definition eth3 : CoinStore := (run_eth (EthApprove (EthWitness.ctx (sample "a")) (sample "G") 50) eth2).2.

Lemma eth3_wf : coin_wf eth3.
Proof.
  apply eth_reachable_wf. apply eth_call; [apply eth_call; [apply eth_call; [by apply eth_init|]|]|].
  - by repeat split.
  - intros c c' [= <- <-]. repeat split; done.
  - intros c c' [= <- <-]. repeat split; done.
Qed.

Definition init_request : GatewayInitRequest := mkGatewayInit (Some (sample "b")) [Some (sample "o")] 5.
Definition empty_world : World := mkGWorld (empty_gstore perm_none) CoinWitness.start eth3 () [].
Definition genesis : World := (Init init_request empty_world).2.

Lemma genesis_initial : gw_initial genesis.
Proof.
  exists init_request, CoinWitness.start, eth3, (). split_and!.
  - intros a [= <-]. by split.
  - apply Forall_singleton. intros a [= <-]. by split.
  - unfold genesis. apply run_ok. by vm_compute.
Qed.

Lemma linked_wf : am_wf linked.
Proof. apply (am_steps_wf ∅ linked linked_step), map_Forall_empty. Qed.

(** ** A withdrawal of coins, signed and settled *)

Definition withdraw_req : WithdrawDiademCoinRequest := mkWithdrawCoin (Some 10) (Some token) None.
Definition withdraw : GCall := CallWithdrawDiademCoin (gx "a" linked) withdraw_req.
Definition withdrawn : World := (run_gcall true withdraw genesis).2.
Definition sign_req : ConfirmWithdrawalReceiptRequest := mkConfirmReceipt (Some (sample "a")) (Some "sig").
Definition signed : World := (run_gcall true (CallConfirm (gx "o" linked) sign_req) withdrawn).2.
Definition report : MainnetTokenWithdrawn :=
  mkMainnetWithdrawal (Some foreign) (Some token) TokenKind_DiademCoin None (Some 10) "tx1".

Lemma withdraw_ok : gcall_ok withdraw.
Proof. split_and!; [by split|apply linked_wf|]. intros a [=]. Qed.

Lemma withdraw_run : run_gcall true withdraw genesis = (Ok (), withdrawn).
Proof. unfold withdrawn. apply run_ok. by vm_compute. Qed.

Lemma withdrawn_steps : rtc (gw_step true) genesis withdrawn.
Proof. apply rtc_once. left. exists withdraw. split; [apply withdraw_ok|apply withdraw_run]. Qed.

Lemma withdrawn_reachable : gw_reachable true withdrawn.
Proof. exists genesis. split; [apply genesis_initial|apply withdrawn_steps]. Qed.

Lemma gw_genesis_reachable tg : gw_reachable tg genesis.
Proof. exists genesis. split; [apply genesis_initial|apply rtc_refl]. Qed.

Lemma few (w : World) : (length (gw_events w) <=? 3)%nat = true → few_events w.
Proof. intros H%Nat.leb_le. unfold few_events. lia. Qed.

Lemma withdrawn_few : few_events withdrawn.
Proof. apply few. by vm_compute. Qed.
Lemma genesis_few : few_events genesis.
Proof. apply few. by vm_compute. Qed.

(** The withdrawal is reported as done and another one is made. *)
Definition settle : GCall := CallBatch (gx "o" linked) [mkMainnetEvent 6 (Payload_Withdrawal report)].
Definition settled_world : World := (run_gcall true settle withdrawn).2.
Definition withdrawn_again : World := (run_gcall true withdraw settled_world).2.

Lemma again_reachable : gw_reachable true withdrawn_again.
Proof.
  exists genesis. split; [apply genesis_initial|]. etrans; [apply withdrawn_steps|]. eapply rtc_l; [|apply rtc_once].
  - left. exists settle. split; [|unfold settled_world; apply run_ok; by vm_compute].
    split_and!; [by split|apply linked_wf|]. apply Forall_singleton. intros a [= <-]. by split.
  - left. exists withdraw. split; [apply withdraw_ok|]. unfold withdrawn_again. apply run_ok. by vm_compute.
Qed.

Lemma nonces_witness :
  NoDup (issued (gw_events withdrawn_again)) ∧ issued (gw_events withdrawn_again) = [(foreign, 0); (foreign, 1)].
Proof.
  destruct (receipts_carry_distinct_nonces true withdrawn_again) as [H _].
  - apply again_reachable.
  - apply few. by vm_compute.
  - split; [exact H|]. clear. by vm_compute.
Defined.

(** Two withdrawals of different users whose recipients differ in the name of the chain. *)
Definition withdraw_to (f : Address) (c : string) : GCall := CallWithdrawDiademCoin (gx c linked) (mkWithdrawCoin (Some 0) (Some token) (Some f)).
Example recipients_repeat_nonces :
  let same_address := mkAddress "other" (Local foreign) in
  issued (gw_events (run_gcall true (withdraw_to same_address "b") (run_gcall true (withdraw_to foreign "a") genesis).2).2) =
    [(foreign, 0); (same_address, 0)].
Proof. by vm_compute. Qed.

Lemma agree_witness : withdrawer_of (gw_store withdrawn) foreign = Some (sample "a").
Proof.
  destruct (pending_withdrawals_agree true withdrawn) as (_ & _ & H).
  - apply withdrawn_reachable.
  - apply withdrawn_few.
  - apply H; [by split|by split|]. clear H.
    exists (mkReceipt foreign token TokenKind_DiademCoin None (Some 10) 0 None). split; [|reflexivity]. by vm_compute.
Defined.

Lemma listed_witness : PendingWithdrawals (Some token) (gw_store withdrawn) = Ok [(sample "a", "hash")].
Proof.
  rewrite (pending_withdrawals_are_listed true withdrawn token).
  - by vm_compute.
  - apply withdrawn_reachable.
  - apply withdrawn_few.
Defined.

Lemma coin_witness :
  balance (gw_coin withdrawn) (sample "a") = balance (gw_coin genesis) (sample "a") - 10 ∧
  supply (gw_coin withdrawn) = supply (gw_coin genesis) - 10.
Proof.
  destruct (coin_withdrawal_burns_what_it_promises true (gx "a" linked) withdraw_req 10 token genesis withdrawn)
    as (_ & _ & Hs & Hb & _).
  - apply gw_genesis_reachable.
  - apply genesis_few.
  - apply coin_reachable_wf, CoinWitness.start_reachable.
  - by split.
  - reflexivity.
  - reflexivity.
  - apply withdraw_run.
  - split; [|exact Hs]. rewrite (Hb (sample "a")) by (by split). reflexivity.
Defined.

Definition eth_req : WithdrawETHRequest := mkWithdrawETH (Some 20) (Some token) None.

Lemma gw_ether_witness :
  balance (gw_eth (WithdrawETH false (gx "a" linked) eth_req genesis).2) (sample "G") = balance (gw_eth genesis) (sample "G") + 20.
Proof.
  destruct (ether_withdrawal_moves_what_it_promises false (gx "a" linked) eth_req 20 token genesis
    (WithdrawETH false (gx "a" linked) eth_req genesis).2) as (_ & _ & _ & _ & Hb & _).
  - apply gw_genesis_reachable.
  - apply genesis_few.
  - apply eth3_wf.
  - by split.
  - by split.
  - discriminate.
  - reflexivity.
  - reflexivity.
  - apply run_ok. by vm_compute.
  - exact (Hb (sample "G") (conj eq_refl eq_refl)).
Defined.

Lemma signed_witness :
  receipt_of (gw_store signed) (sample "a") =
    Some (mkReceipt foreign token TokenKind_DiademCoin None (Some 10) 0 (Some "sig")).
Proof.
  destruct (receipt_is_signed_once true (gx "o" linked) sign_req withdrawn signed)
    as (_ & a & sig & r & [= <-] & [= <-] & Hr & _ & H & _).
  - apply withdrawn_reachable.
  - apply withdrawn_few.
  - intros a [= <-]. by split.
  - unfold signed. apply run_ok. by vm_compute.
  - assert (E : receipt_of (gw_store withdrawn) (sample "a") =
      Some (mkReceipt foreign token TokenKind_DiademCoin None (Some 10) 0 None)) by (clear; by vm_compute).
    rewrite E in Hr. injection Hr as <-. exact H.
Defined.

Lemma settles_witness :
  ∃ w', ProcessEventBatch true (gx "o" linked) [mkMainnetEvent 6 (Payload_Withdrawal report)] withdrawn = (Ok (), w') ∧
    receipt_of (gw_store w') (sample "a") = None.
Proof.
  destruct (reported_withdrawal_settles true (gx "o" linked) 6 report withdrawn (sample "a") foreign)
    as (w' & Hrun & Hr & _).
  - apply withdrawn_reachable.
  - apply withdrawn_few.
  - by split.
  - by vm_compute.
  - reflexivity.
  - done.
  - reflexivity.
  - intros _. split; [discriminate|by vm_compute].
  - by vm_compute.
  - lia.
  - by vm_compute.
  - exists w'. exact (conj Hrun Hr).
Defined.

Lemma oracles_witness : GetOracles (gw_store withdrawn) = [sample "o"] ∧ NoDup (GetOracles (gw_store withdrawn)).
Proof.
  destruct (oracles_are_those_listed true withdrawn) as [H _].
  - apply withdrawn_reachable.
  - split; [|exact H]. clear. by vm_compute.
Defined.

(** ** Deposits *)

Definition deposit : MainnetTokenDeposited :=
  mkMainnetDeposit (Some foreign) (Some token) TokenKind_DiademCoin None (Some 7) "tx2".
Definition deposit_event : MainnetEvent := mkMainnetEvent 6 (Payload_Deposit deposit).

(** The deposit arrives before the account is linked. *)
Definition batch : GCall := CallBatch (gx "o" ∅) [deposit_event].
Definition kept : World := (run_gcall true batch genesis).2.

Lemma batch_run : run_gcall true batch genesis = (Ok (), kept).
Proof. unfold kept. apply run_ok. by vm_compute. Qed.

Lemma kept_reachable : gw_reachable true kept.
Proof.
  exists genesis. split; [apply genesis_initial|]. apply rtc_once. left. exists batch. split; [|apply batch_run].
  split_and!; [by split|apply map_Forall_empty|]. apply Forall_singleton.
  split_and!; [intros a [= <-]; by split..|done].
Qed.

Lemma gw_batch_witness :
  ProcessEventBatch true (gx "o" linked) [deposit_event] kept = (Err (ErrMsg "no new events found in the batch"), kept).
Proof.
  destruct (batch_is_consumed_once true (gx "o" ∅) [deposit_event] genesis kept) as [_ H].
  - by vm_compute.
  - apply batch_run.
  - apply H; [clear H; by vm_compute|]. clear H. apply Forall_singleton.
    assert (E : last_block kept = 6) by (by vm_compute). rewrite E. cbn. lia.
Defined.

(** The deposit of an account that is linked. *)
Definition credit : GCall := CallBatch (gx "o" linked) [deposit_event].
Definition credited : World := (run_gcall true credit genesis).2.

Lemma once_witness : hasSeenTxHash "tx2" (gw_store credited) = true.
Proof.
  destruct (transaction_counts_once true genesis credited) as (_ & H & _).
  - apply genesis_initial.
  - apply rtc_once. left. exists credit. split; [reflexivity|]. unfold credited. apply run_ok. by vm_compute.
  - apply H. clear H. assert (E : tx_hashes (gw_events credited) = ["tx2"]) by (by vm_compute).
    rewrite E. apply list_elem_of_here.
Defined.

Lemma gateway_ok c mapper : coin_gateway (gx c mapper).
Proof. split_and!; [by eexists|by eexists|by vm_compute|by split]. Qed.

Lemma kept_witness :
  ∃ w', processDeposit true (gx "o" ∅) deposit_event deposit genesis = (Ok true, w') ∧
    gw_coin w' = gw_coin genesis ∧
    unclaimed_amount (gw_store w') foreign token = unclaimed_amount (gw_store genesis) foreign token + 7.
Proof.
  destruct (deposit_is_credited_or_kept (gx "o" ∅) deposit_event deposit foreign token 7 genesis)
    as (w' & Hrun & Hc & Hu).
  - apply gw_genesis_reachable.
  - apply gateway_ok.
  - apply coin_reachable_wf, CoinWitness.start_reachable.
  - apply map_Forall_empty.
  - reflexivity.
  - reflexivity.
  - reflexivity.
  - reflexivity.
  - lia.
  - by split.
  - by split.
  - intros _. split; [discriminate|by vm_compute].
  - intros a [=].
  - exists w'. split; [exact Hrun|]. split; [exact Hc|].
    rewrite (Hu foreign token) by (by split). reflexivity.
Defined.

Lemma reclaim_witness :
  ∃ w', ReclaimDepositorTokens (gx "a" linked) [] kept = (Ok (), w') ∧
    balance (gw_coin w') (sample "a") = balance (gw_coin kept) (sample "a") + 7.
Proof.
  destruct (linked_depositor_reclaims_all (gx "a" linked) foreign kept) as (w' & Hrun & Hb & _).
  - apply kept_reachable.
  - apply gateway_ok.
  - assert (E : gw_coin kept = CoinWitness.start) by (by vm_compute). rewrite E.
    apply coin_reachable_wf, CoinWitness.start_reachable.
  - apply linked_wf.
  - by split.
  - discriminate.
  - by vm_compute.
  - exists w'. split; [exact Hrun|]. assert (E : unclaimed_all (gw_store kept) foreign = 7) by (clear; by vm_compute).
    rewrite E in Hb. exact Hb.
Defined.

(** ** A mapping set by the owner *)

Definition mapping_req : AddContractMappingRequest := mkAddMapping (Some token) (Some (sample "L")) None None.
Definition map_call : GCall := CallAddAuthorizedContractMapping (gx "b" linked) mapping_req.
Definition mapped1 : World := (run_gcall false map_call genesis).2.

Lemma mapping_witness : resolveToForeignContractAddr (sample "L") (gw_store mapped1) = Ok token.
Proof.
  destruct (contract_mappings_are_one_to_one "diadem" false genesis mapped1 mapped1 token (sample "L")) as [H _].
  - apply genesis_initial.
  - apply rtc_once. left. exists map_call. split.
    + split; intros a [= <-]; split; try done; by split.
    + unfold mapped1. apply run_ok. by vm_compute.
  - apply rtc_refl.
  - by split.
  - by split.
  - apply H. clear H. by vm_compute.
Defined.
End GatewayWitness.
