(* ===== verification/Karma.v ===== *)
(** * The karma contract (src/builtin/plugins/karma)

    Users earn karma from sources: awards that the oracle gives and coins they
    deposit.  Deploy karma pays for the upkeep of the contracts a user deployed;
    call karma sets how often a user may call.  karma.go and upkeep.go are modelled
    in full, and karmaHandler.Upkeep of src/karma/karma.go is [Upkeep].

    [KStore] has a field per family of store keys; the keys of active contracts,
    which the code ranges over by owner, are a map of maps.  [KWorld] adds the coin
    contract, which the methods call as [Coin] models it.  What the code takes from
    protocol buffers and the big integers of the client library is the class
    [KarmaLib]: [stored_big] is what an integer reads back as once it was written,
    which is never negative, and the integer itself unless that is negative. *)

From S2P Require Import Prelude Contract Coin Store Middleware.

(** [ktypes.KarmaSourceTarget]; an integer on the wire. *)
Inductive KarmaSourceTarget := Target_DEPLOY | Target_CALL | Target_Other (n : Z).

#[global] Instance KarmaSourceTarget_eq_dec : EqDecision KarmaSourceTarget.
Proof. solve_decision. Defined.

(** A kind of karma and what one unit of it is worth. *)
Record KarmaSourceReward := mkReward { kr_Name : string; kr_Reward : Z; kr_Target : KarmaSourceTarget }.

Record KarmaSource := mkSource { ks_Name : string; ks_Count : option Z }.

Record KarmaState := mkKarmaState {
  SourceStates : list KarmaSource;
  DeployKarmaTotal : option Z;
  CallKarmaTotal : option Z;
  NumOwnedContracts : Z;
}.

Record KarmaUpkeepParams := mkUpkeepParams { Cost : Z; Period : Z }.

Record KarmaContractRecord := mkRecord {
  rec_Owner : option Address; rec_Address : Address; rec_ContractId : Z }.

Record KarmaInitRequest := mkKarmaInit {
  ki_Sources : list KarmaSourceReward;
  ki_Oracle : option Address;
  ki_Users : list (option Address * list KarmaSource);
  ki_Config : option Z;
  ki_Upkeep : option KarmaUpkeepParams;
}.

Definition CoinDeployToken : string := "coin-deploy".
Definition CoinDefaultReward : Z := 1.
Definition DefaultUpkeepCost : Z := 1.
Definition DefaultUpkeepPeriod : Z := 3600.
Definition oracleRole : string := "karma_role_oracle".
Definition ChangeOraclePermission : bytes := "change_oracle".
Definition ChangeUserSourcesPermission : bytes := "change_user_sources".
Definition SetUpkeepPermission : bytes := "set-upkeep".
Definition ResetSourcesPermission : bytes := "reset_sources".
Definition ChangeConfigPermission : bytes := "change-config".
Definition ErrNotAuthorized : error := ErrMsg "sender is not authorized to call this method".

Definition emptyKarmaState : KarmaState := mkKarmaState [] None None 0.
Definition with_sources (l : list KarmaSource) (s : KarmaState) : KarmaState :=
  mkKarmaState l (DeployKarmaTotal s) (CallKarmaTotal s) (NumOwnedContracts s).
Definition with_totals (t : Z * Z) (s : KarmaState) : KarmaState :=
  mkKarmaState (SourceStates s) (Some t.1) (Some t.2) (NumOwnedContracts s).
Definition with_DeployKarmaTotal (x : Z) (s : KarmaState) : KarmaState :=
  mkKarmaState (SourceStates s) (Some x) (CallKarmaTotal s) (NumOwnedContracts s).
Definition with_NumOwnedContracts (n : Z) (s : KarmaState) : KarmaState :=
  mkKarmaState (SourceStates s) (DeployKarmaTotal s) (CallKarmaTotal s) n.

Class KarmaLib := {
  marshal_address : Address → bytes;
  unmarshal_address : bytes → option Address;
  marshal_contract_id : Z → bytes;
  stored_big : Z → Z;
}.

Class KarmaLibSpec `{DiademLib} `{KarmaLib} : Prop := {
  unmarshal_marshal a : unmarshal_address (marshal_address a) = Some a;
  marshal_contract_id_inj n m :
    0 <= n < 2 ^ 64 → 0 <= m < 2 ^ 64 → marshal_contract_id n = marshal_contract_id m → n = m;
  stored_big_nonneg x : 0 <= x → stored_big x = x;
  stored_big_range x : 0 <= stored_big x;
  parse_address_string a : wf_address a → parse_address (address_string a) = Some a;
}.

(** ** Totals *)

(** The karma of a user: for every source that is allowed, its count times its
    reward.  A missing count is dereferenced only for a source that counts. *)
Definition karma_from (target : KarmaSourceTarget) (c : KarmaSourceReward) (states : list KarmaSource) (acc : Z) : Res Z :=
  foldl (λ (acc : Res Z) s,
    acc ← acc;
    if String.eqb (kr_Name c) (ks_Name s) && bool_decide (kr_Target c = target)
    then match ks_Count s with Some n => Ok (acc + kr_Reward c * n) | None => Panic end
    else Ok acc) (Ok acc) states.

Definition CalculateTotalKarma (karmaSources : list KarmaSourceReward) (states : list KarmaSource) : Res (Z * Z) :=
  foldl (λ (acc : Res (Z * Z)) c,
    '(deployKarma, callKarma) ← acc;
    deployKarma ← karma_from Target_DEPLOY c states deployKarma;
    callKarma ← karma_from Target_CALL c states callKarma;
    Ok (deployKarma, callKarma)) (Ok (0, 0)) karmaSources.

(** One more amount: added to the source of the same name, or a new source. *)
Fixpoint add_source (source : KarmaSource) (states : list KarmaSource) : Res (list KarmaSource) :=
  match states with
  | [] => Ok [source]
  | s :: rest =>
      if String.eqb (ks_Name s) (ks_Name source) then
        match ks_Count s, ks_Count source with
        | Some x, Some y => Ok (mkSource (ks_Name s) (Some (x + y)) :: rest)
        | _, _ => Panic
        end
      else rest' ← add_source source rest; Ok (s :: rest')
  end.

Fixpoint add_sources (amounts : list KarmaSource) (states : list KarmaSource) : Res (list KarmaSource) :=
  match amounts with
  | [] => Ok states
  | a :: rest => states' ← add_source a states; add_sources rest states'
  end.

(** [for index, s := range state.SourceStates { if s.Name == name {
    state.SourceStates = append(state.SourceStates[:index], state.SourceStates[index+1:]...) } }]:
    the loop ranges over the slice as it was, [n] entries of the array [arr], while
    the removals shift the array and shorten the slice to [len]. *)
Fixpoint delete_named (name : string) (fuel index : nat) (arr : list KarmaSource) (len : nat) :
    Res (list KarmaSource * nat) :=
  match fuel with
  | O => Ok (arr, len)
  | S fuel =>
      match arr !! index with
      | None => Ok (arr, len)
      | Some s =>
          if String.eqb (ks_Name s) name then
            if (len <? index + 1)%nat then Panic
            else delete_named name fuel (index + 1)
                   (take index arr ++ drop (index + 1) (take len arr) ++ drop (len - 1) arr) (len - 1)
          else delete_named name fuel (index + 1) arr len
      end
  end.

Fixpoint delete_all_named (names : list string) (states : list KarmaSource) : Res (list KarmaSource) :=
  match names with
  | [] => Ok states
  | name :: rest =>
      '(arr, len) ← delete_named name (length states) 0 states (length states);
      delete_all_named rest (take len arr)
  end.

(** The count of the named source changed by an amount, in [modifyCountForUser]. *)
Fixpoint modify_count (sourceName : string) (amount : Z) (states : list KarmaSource) : Res (list KarmaSource) :=
  match states with
  | [] => if amount <? 0 then Err (ErrMsg "not enough karma in source") else Ok [mkSource sourceName (Some amount)]
  | s :: rest =>
      if String.eqb (ks_Name s) sourceName then
        match ks_Count s with
        | None => Panic
        | Some x => if x + amount <? 0 then Err (ErrMsg "not enough karma in source")
                    else Ok (mkSource (ks_Name s) (Some (x + amount)) :: rest)
        end
      else rest' ← modify_count sourceName amount rest; Ok (s :: rest')
  end.

(** ** Paying for upkeep *)

(** [sourceMap]: the last index of a name; [karmaSources[sourceMap[name]]] is the
    first source for a name that is not in the map, and panics when there is none. *)
Definition source_index (karmaSources : list KarmaSourceReward) (name : string) : nat :=
  foldl (λ acc (p : nat * KarmaSourceReward), if String.eqb (kr_Name p.2) name then p.1 else acc) O
    (imap pair karmaSources).
Definition is_deploy (karmaSources : list KarmaSourceReward) (name : string) : Res bool :=
  match karmaSources !! source_index karmaSources name with
  | Some c => Ok (bool_decide (kr_Target c = Target_DEPLOY))
  | None => Panic
  end.

(** The deploy karma of a user, without rewards. *)
Fixpoint user_karma (karmaSources : list KarmaSourceReward) (states : list KarmaSource) : Res Z :=
  match states with
  | [] => Ok 0
  | s :: rest =>
      deploy ← is_deploy karmaSources (ks_Name s);
      this ← (if (deploy : bool) then match ks_Count s with Some n => Ok n | None => Panic end else Ok 0);
      total ← user_karma karmaSources rest;
      Ok (this + total)
  end.

(** The loop of [payKarma].  The cost is a pointer that the loop writes through:
    [pay_caller] is what the caller's variable holds afterwards, [pay_cost] the
    function's own, which is a new zero after a [break]. *)
Record PayLoop := mkPayLoop {
  pay_states : list KarmaSource; pay_coinIndex : option nat; pay_cost : Z; pay_caller : Z }.

Definition pay_cons (s : KarmaSource) (r : PayLoop) : PayLoop :=
  mkPayLoop (s :: pay_states r) (pay_coinIndex r) (pay_cost r) (pay_caller r).

Fixpoint pay_loop (karmaSources : list KarmaSourceReward) (i : nat) (coinIndex : option nat) (upkeepCost : Z)
    (states : list KarmaSource) : Res PayLoop :=
  match states with
  | [] => Ok (mkPayLoop [] coinIndex upkeepCost upkeepCost)
  | s :: rest =>
      if String.eqb (ks_Name s) CoinDeployToken then
        r ← pay_loop karmaSources (S i) (Some i) upkeepCost rest; Ok (pay_cons s r)
      else
        deploy ← is_deploy karmaSources (ks_Name s);
        if (deploy : bool) then
          match ks_Count s with
          | None => Panic
          | Some n =>
              if upkeepCost <? n then
                Ok (mkPayLoop (mkSource (ks_Name s) (Some (n - upkeepCost)) :: rest) coinIndex 0 upkeepCost)
              else
                r ← pay_loop karmaSources (S i) coinIndex (upkeepCost - n) rest;
                Ok (pay_cons (mkSource (ks_Name s) (Some 0)) r)
          end
        else r ← pay_loop karmaSources (S i) coinIndex upkeepCost rest; Ok (pay_cons s r)
  end.

(** The sources after the payment, and what is left in the caller's variable.  The
    test of the cost before the coins are charged is true for zero as well. *)
Definition payKarma (upkeepCost : Z) (states : list KarmaSource) (karmaSources : list KarmaSourceReward) :
    Res (list KarmaSource * Z) :=
  r ← pay_loop karmaSources 0 None upkeepCost states;
  if 0 <=? pay_cost r then
    match pay_coinIndex r with
    | None => Panic
    | Some i =>
        match pay_states r !! i with
        | Some (mkSource name (Some n)) =>
            Ok (<[i := mkSource name (Some (n - pay_cost r))]> (pay_states r), pay_caller r)
        | _ => Panic
        end
    end
  else Ok (pay_states r, pay_caller r).

Section Karma.
Context {LIB : DiademLib} {TXL : TxLib} {KLIB : KarmaLib} {RANGE : RangeOrder}.
Context {P : Type} {PERM : Permissions P}.

Record KStore := mkKStore {
  k_next : option Z;
  k_sources : option (list KarmaSourceReward);
  k_oracle : option Address;
  k_users : gmap bytes KarmaState;
  k_config : option Z;
  k_upkeep : option KarmaUpkeepParams;
  k_records : gmap bytes KarmaContractRecord;
  k_active : gmap bytes (gmap bytes Address);
  k_upkeepState : option Z;
  k_perms : P;
}.

Record KWorld := mkKWorld { kw_store : KStore; kw_coin : CoinStore }.
Abbreviation KM := (M KWorld).

Definition set_next (x : Z) (s : KStore) : KStore :=
  mkKStore (Some x) (k_sources s) (k_oracle s) (k_users s) (k_config s) (k_upkeep s) (k_records s) (k_active s)
    (k_upkeepState s) (k_perms s).
Definition set_sources (x : list KarmaSourceReward) (s : KStore) : KStore :=
  mkKStore (k_next s) (Some x) (k_oracle s) (k_users s) (k_config s) (k_upkeep s) (k_records s) (k_active s)
    (k_upkeepState s) (k_perms s).
Definition set_oracle (x : Address) (s : KStore) : KStore :=
  mkKStore (k_next s) (k_sources s) (Some x) (k_users s) (k_config s) (k_upkeep s) (k_records s) (k_active s)
    (k_upkeepState s) (k_perms s).
Definition set_users (x : gmap bytes KarmaState) (s : KStore) : KStore :=
  mkKStore (k_next s) (k_sources s) (k_oracle s) x (k_config s) (k_upkeep s) (k_records s) (k_active s)
    (k_upkeepState s) (k_perms s).
Definition set_config (x : Z) (s : KStore) : KStore :=
  mkKStore (k_next s) (k_sources s) (k_oracle s) (k_users s) (Some x) (k_upkeep s) (k_records s) (k_active s)
    (k_upkeepState s) (k_perms s).
Definition set_upkeep (x : KarmaUpkeepParams) (s : KStore) : KStore :=
  mkKStore (k_next s) (k_sources s) (k_oracle s) (k_users s) (k_config s) (Some x) (k_records s) (k_active s)
    (k_upkeepState s) (k_perms s).
Definition set_contracts (r : gmap bytes KarmaContractRecord) (a : gmap bytes (gmap bytes Address)) (s : KStore) : KStore :=
  mkKStore (k_next s) (k_sources s) (k_oracle s) (k_users s) (k_config s) (k_upkeep s) r a (k_upkeepState s) (k_perms s).
Definition set_upkeepState (x : Z) (s : KStore) : KStore :=
  mkKStore (k_next s) (k_sources s) (k_oracle s) (k_users s) (k_config s) (k_upkeep s) (k_records s) (k_active s)
    (Some x) (k_perms s).
Definition set_perms (x : P) (s : KStore) : KStore :=
  mkKStore (k_next s) (k_sources s) (k_oracle s) (k_users s) (k_config s) (k_upkeep s) (k_records s) (k_active s)
    (k_upkeepState s) x.

Definition from_store {A} (f : KStore → A) : KM A := gets (λ w, f (kw_store w)).
Definition on_store (f : KStore → KStore) : KM unit := modify (λ w, mkKWorld (f (kw_store w)) (kw_coin w)).
Definition on_coin {A} (m : M CoinStore A) : KM A := zoom kw_coin (λ c w, mkKWorld (kw_store w) c) m.

Definition has_permission (ctx : Ctx) (token : bytes) : KM bool :=
  from_store (λ s, perm_has (k_perms s) (ctx_sender ctx) token [oracleRole]).
Definition grant (addr : Address) (token : bytes) : KM unit :=
  on_store (λ s, set_perms (perm_grant addr token oracleRole (k_perms s)) s).
Definition revoke (addr : Address) (token : bytes) : KM unit :=
  on_store (λ s, set_perms (perm_revoke addr token oracleRole (k_perms s)) s).

(** ** Keys and records *)

(** The key within the records of users, whose prefix the field [k_users] stands for. *)
Definition UserStateKey (owner : Address) : bytes := marshal_address owner.
Definition ContractRecordKey (contractAddr : Address) : bytes :=
  prefix_key ["contract-record"; address_bytes contractAddr].
(** The prefix of an owner's contracts and the key of a contract within it. *)
Definition ContractActiveKey (owner : Address) (contractId : Z) : bytes * bytes :=
  (prefix_key ["active"; address_bytes owner], marshal_contract_id contractId).

(** A user's state as it reads back. *)
Definition stored_state (st : KarmaState) : KarmaState :=
  mkKarmaState ((λ s, mkSource (ks_Name s) (stored_big <$> ks_Count s)) <$> SourceStates st)
    (stored_big <$> DeployKarmaTotal st) (stored_big <$> CallKarmaTotal st) (NumOwnedContracts st).
Definition put_user (key : bytes) (st : KarmaState) : KM unit :=
  on_store (λ s, set_users (<[key := stored_state st]> (k_users s)) s).

(** [ctx.Get(SourcesKey, &karmaSources)] *)
Definition load_sources : KM (list KarmaSourceReward) :=
  o ← from_store k_sources;
  match o with Some l => mret l | None => throw ErrNotFound end.

Definition GetUserState (s : KStore) (userAddr : Address) : KarmaState :=
  default emptyKarmaState (k_users s !! UserStateKey userAddr).

Definition save_user (user : Address) (st : KarmaState) : KM unit := put_user (UserStateKey user) st.

(** ** Sources and users *)

Definition SetAllowedKarmaSources (sources : list KarmaSourceReward) : KM unit := on_store (set_sources sources).

Definition registerOracle (pbOracle : option Address) (currentOracle : option Address) : KM unit :=
  match pbOracle with
  | None => throw (ErrMsg "oracle address cannot be null")
  | Some newOracleAddr =>
      guard_not (address_IsEmpty newOracleAddr) (ErrMsg "oracle address cannot be empty");;
      match currentOracle with
      | None => mret ()
      | Some cur =>
          revoke cur ChangeOraclePermission;;
          revoke cur ChangeUserSourcesPermission;;
          revoke cur ResetSourcesPermission;;
          revoke cur ChangeConfigPermission;;
          revoke cur SetUpkeepPermission
      end;;
      grant newOracleAddr ChangeOraclePermission;;
      grant newOracleAddr ChangeUserSourcesPermission;;
      grant newOracleAddr ResetSourcesPermission;;
      grant newOracleAddr SetUpkeepPermission;;
      grant newOracleAddr ChangeConfigPermission;;
      on_store (set_oracle newOracleAddr)
  end.

Definition addKarma (userAddr : Address) (karmaAmounts : list KarmaSource) : KM unit :=
  state ← from_store (λ s, GetUserState s userAddr);
  sources ← lift_res (add_sources karmaAmounts (SourceStates state));
  karmaSources ← load_sources;
  totals ← lift_res (CalculateTotalKarma karmaSources sources);
  save_user userAddr (with_totals totals (with_sources sources state)).

Definition Init (req : KarmaInitRequest) : KM unit :=
  let foundCoinSource := existsb (λ source, String.eqb (kr_Name source) CoinDeployToken) (ki_Sources req) in
  let sources := if foundCoinSource then ki_Sources req
                 else ki_Sources req ++ [mkReward CoinDeployToken CoinDefaultReward Target_DEPLOY] in
  on_store (set_next 1);;
  SetAllowedKarmaSources sources;;
  match ki_Oracle req with Some _ => registerOracle (ki_Oracle req) None | None => mret () end;;
  forM (ki_Users req) (λ userKarma,
    userAddr ← deref userKarma.1;
    addKarma userAddr userKarma.2);;
  on_store (set_config (default DefaultUpkeepCost (ki_Config req)));;
  on_store (set_upkeep (default (mkUpkeepParams DefaultUpkeepCost DefaultUpkeepPeriod) (ki_Upkeep req))).

Definition AddKarma (ctx : Ctx) (user : option Address) (karmaSources : list KarmaSource) : KM unit :=
  ok ← has_permission ctx ChangeUserSourcesPermission;
  guard_not (negb ok) ErrNotAuthorized;;
  userAddr ← deref user;
  addKarma userAddr karmaSources.

Definition DeleteSourcesForUser (ctx : Ctx) (user : option Address) (stateKeys : list string) : KM unit :=
  ok ← has_permission ctx ChangeUserSourcesPermission;
  guard_not (negb ok) ErrNotAuthorized;;
  userAddr ← deref user;
  state ← from_store (λ s, GetUserState s userAddr);
  sources ← lift_res (delete_all_named stateKeys (SourceStates state));
  karmaSources ← load_sources;
  totals ← lift_res (CalculateTotalKarma karmaSources sources);
  save_user userAddr (with_totals totals (with_sources sources state)).

Definition updateKarmaCounts (sources : list KarmaSourceReward) : KM unit :=
  userRange ← from_store (λ s, range_of (k_users s));
  forM userRange (λ userKV,
    totals ← lift_res (CalculateTotalKarma sources (SourceStates userKV.2));
    put_user userKV.1 (with_totals totals userKV.2)).

Definition ResetSources (ctx : Ctx) (sources : list KarmaSourceReward) : KM unit :=
  ok ← has_permission ctx ResetSourcesPermission;
  guard_not (negb ok) ErrNotAuthorized;;
  SetAllowedKarmaSources sources;;
  updateKarmaCounts sources.

Definition UpdateOracle (ctx : Ctx) (newOracle : option Address) : KM unit :=
  ok ← has_permission ctx ChangeOraclePermission;
  guard_not (negb ok) ErrNotAuthorized;;
  registerOracle newOracle (Some (ctx_sender ctx)).

Definition modifyCountForUser (user : Address) (sourceName : string) (amount : Z) : KM unit :=
  state ← from_store (λ s, GetUserState s user);
  sources ← lift_res (modify_count sourceName amount (SourceStates state));
  karmaSources ← load_sources;
  totals ← lift_res (CalculateTotalKarma karmaSources sources);
  save_user user (with_totals totals (with_sources sources state)).

(** The context of the coin contract when this contract calls it. *)
Definition coin_ctx (ctx : Ctx) (coinAddr : Address) : Ctx :=
  mkCtx (ctx_contract ctx) (ctx_now ctx) coinAddr (ctx_chain ctx) (ctx_height ctx) (ctx_registry ctx).

Definition DepositCoin (ctx : Ctx) (user : option Address) (amount : option Z) : KM unit :=
  coinAddr ← ctx_resolve ctx "coin";
  on_coin (Coin.TransferFrom (coin_ctx ctx coinAddr) (mkTransferFromRequest user (Some (ctx_contract ctx)) amount));;
  userAddr ← deref user;
  x ← deref amount;
  modifyCountForUser userAddr CoinDeployToken x.

Definition WithdrawCoin (ctx : Ctx) (user : option Address) (amount : option Z) : KM unit :=
  coinAddr ← ctx_resolve ctx "coin";
  on_coin (Coin.Transfer (coin_ctx ctx coinAddr) (mkTransferRequest user amount));;
  userAddr ← deref user;
  x ← deref amount;
  modifyCountForUser userAddr CoinDeployToken (- x).

Definition SetConfig (ctx : Ctx) (cfg : Z) : KM unit :=
  ok ← has_permission ctx ChangeConfigPermission;
  guard_not (negb ok) ErrNotAuthorized;;
  on_store (set_config cfg).

Definition GetConfig (s : KStore) : Z := default 0 (k_config s).
Definition GetOracleAddress (s : KStore) : option Address := k_oracle s.
Definition GetSources (s : KStore) : list KarmaSourceReward := default [] (k_sources s).

Definition GetUserKarma (s : KStore) (userAddr : Address) (target : KarmaSourceTarget) : Res Z :=
  let userState := GetUserState s userAddr in
  match DeployKarmaTotal userState, CallKarmaTotal userState with
  | Some deployTotal, Some callTotal =>
      match target with
      | Target_DEPLOY => Ok deployTotal
      | Target_CALL => Ok callTotal
      | Target_Other _ => Err (ErrMsg "unknown karma target")
      end
  | _, _ => Ok 0
  end.
End Karma.
Arguments KStore : clear implicits.
Arguments KWorld : clear implicits.
