(* ===== verification/KarmaSources.v ===== *)
(** * Karma of a user: sums, payments and deletions

    What the loops over the sources of a user compute, as sums: the totals, the
    effect of adding, deleting and charging. *)

From S2P Require Import Prelude Contract Coin Store Middleware Karma.

Implicit Types (srcs : list KarmaSourceReward) (l : list KarmaSource) (s : KarmaSource).

Definition count s : Z := default 0 (ks_Count s).

(** Every source has a count and a name of its own. *)
Definition counted l : Prop := Forall (λ s, ∃ n, ks_Count s = Some n ∧ 0 <= n) l.
Definition sources_ok l : Prop := counted l ∧ NoDup (ks_Name <$> l).

(** What the sources [l] are worth for a target. *)
Definition karma_worth (target : KarmaSourceTarget) srcs l : Z :=
  sumZ (λ c, sumZ (λ s, if String.eqb (kr_Name c) (ks_Name s) && bool_decide (kr_Target c = target)
                        then kr_Reward c * count s else 0) l) srcs.

Lemma counted_count s l : counted l → s ∈ l → ks_Count s = Some (count s) ∧ 0 <= count s.
Proof.
  intros Hc Hin. unfold counted in Hc. rewrite Forall_forall in Hc.
  destruct (Hc s Hin) as (n & Hn & ?). unfold count. by rewrite Hn.
Qed.

Lemma karma_from_eq target c l acc :
  counted l →
  karma_from target c l acc =
    Ok (acc + sumZ (λ s, if String.eqb (kr_Name c) (ks_Name s) && bool_decide (kr_Target c = target)
                         then kr_Reward c * count s else 0) l).
Proof.
  intros Hc. unfold karma_from. revert acc. induction Hc as [|s l (n & Hn & _) _ IH]; intros acc.
  - cbn. f_equal. lia.
  - cbn [foldl sumZ foldr]. cbn [mbind Res_bind]. destruct (_ && _).
    + unfold count at 1. rewrite Hn. cbn. rewrite IH. f_equal. cbn [default id]. unfold sumZ. lia.
    + by rewrite IH.
Qed.

(** The two loops compute the worth. *)
Lemma CalculateTotalKarma_eq srcs l :
  counted l → CalculateTotalKarma srcs l = Ok (karma_worth Target_DEPLOY srcs l, karma_worth Target_CALL srcs l).
Proof.
  intros Hc. unfold CalculateTotalKarma, karma_worth.
  assert (H : ∀ d k, foldl (λ (acc : Res (Z * Z)) c,
      '(deployKarma, callKarma) ← acc;
      deployKarma ← karma_from Target_DEPLOY c l deployKarma;
      callKarma ← karma_from Target_CALL c l callKarma;
      Ok (deployKarma, callKarma)) (Ok (d, k)) srcs =
    Ok (d + karma_worth Target_DEPLOY srcs l, k + karma_worth Target_CALL srcs l)).
  { induction srcs as [|c srcs IH]; intros d k.
    - cbn. by rewrite !Z.add_0_r.
    - cbn [foldl]. cbn [mbind Res_bind]. rewrite !karma_from_eq by done. cbn [mbind Res_bind]. rewrite IH.
      unfold karma_worth. cbn [sumZ foldr]. f_equal. f_equal; unfold sumZ; lia. }
  rewrite H. done.
Qed.

Lemma karma_worth_nonneg target srcs l :
  Forall (λ c, 0 <= kr_Reward c) srcs → counted l → 0 <= karma_worth target srcs l.
Proof.
  intros Hs Hc. apply sumZ_nonneg. intros c Hin. apply sumZ_nonneg. intros s Hs'.
  rewrite Forall_forall in Hs. pose proof (Hs c Hin). destruct (counted_count s l Hc Hs').
  destruct (_ && _); [by apply Z.mul_nonneg_nonneg|lia].
Qed.

(** ** Adding, changing and deleting *)

Lemma add_source_ok a l :
  sources_ok l → (∃ n, ks_Count a = Some n ∧ 0 <= n) →
  ∃ l', add_source a l = Ok l' ∧ sources_ok l' ∧ ∀ x, x ∈ ks_Name <$> l' ↔ x = ks_Name a ∨ x ∈ ks_Name <$> l.
Proof.
  intros [Hc Hnd] (n & Hn & Hn0). induction l as [|s l IH].
  - exists [a]. split_and!; [done|split; [by repeat constructor; eauto|apply NoDup_singleton]|]. set_solver.
  - cbn. apply Forall_cons in Hc as [(m & Hm & Hm0) Hc]. cbn in Hnd. apply NoDup_cons in Hnd as [Hs Hnd].
    destruct (String.eqb_spec (ks_Name s) (ks_Name a)) as [Heq|Hne].
    + rewrite Hm, Hn. eexists. split; [done|]. split.
      * split; [|by apply NoDup_cons]. constructor; [|done]. cbn. exists (m + n). split; [done|lia].
      * cbn. set_solver.
    + destruct IH as (l' & -> & [Hc' Hnd'] & Hl); [done..|]. eexists. split; [done|]. split.
      * split; [by constructor; eauto|]. cbn. apply NoDup_cons. split; [|done]. rewrite Hl. set_solver.
      * cbn. set_solver.
Qed.

Lemma add_sources_ok amounts l :
  sources_ok l → counted amounts → ∃ l', add_sources amounts l = Ok l' ∧ sources_ok l'.
Proof.
  intros Hl Ha. revert l Hl. induction Ha as [|a amounts Hn _ IH]; intros l Hl; [by eexists|].
  destruct (add_source_ok a l Hl Hn) as (l1 & Hadd & Hl1 & _). cbn. rewrite Hadd. cbn. by apply IH.
Qed.

(** The coins of a user that are deposited. *)
Definition coins l : Z := sumZ (λ s, if String.eqb (ks_Name s) CoinDeployToken then count s else 0) l.
#[global] Arguments coins : simpl never.

Lemma coins_cons s l : coins (s :: l) = (if String.eqb (ks_Name s) CoinDeployToken then count s else 0) + coins l.
Proof. done. Qed.

Lemma coins_nonneg l : counted l → 0 <= coins l.
Proof.
  intros Hc. apply sumZ_nonneg. intros s Hs. destruct (counted_count s l Hc Hs). by case_match.
Qed.

Lemma no_coins l : CoinDeployToken ∉ ks_Name <$> l → coins l = 0.
Proof.
  induction l as [|s l IH]; [done|]. intros [Hs Hn]%not_elem_of_cons. rewrite coins_cons.
  rewrite IH by exact Hn. by rewrite (proj2 (String.eqb_neq _ _)) by congruence.
Qed.

(** A change of the deposited coins goes through exactly when enough are there. *)
Lemma modify_coins x l :
  sources_ok l →
  (if decide (0 <= coins l + x) then
     ∃ l', modify_count CoinDeployToken x l = Ok l' ∧ sources_ok l' ∧ coins l' = coins l + x ∧
       ∀ y, y ∈ ks_Name <$> l' ↔ y = CoinDeployToken ∨ y ∈ ks_Name <$> l
   else ∃ e, modify_count CoinDeployToken x l = Err e).
Proof.
  intros [Hc Hnd]. induction l as [|s l IH].
  - cbn. unfold coins. cbn. case_decide as Hx.
    + rewrite (proj2 (Z.ltb_ge x 0)) by lia. eexists. split; [done|]. split_and!; cbn; [|lia|set_solver].
      split; [|apply NoDup_singleton]. constructor; [|constructor]. cbn. exists x. split; [done|lia].
    + rewrite (proj2 (Z.ltb_lt x 0)) by lia. by eexists.
  - cbn in Hnd. apply NoDup_cons in Hnd as [Hs Hnd]. apply Forall_cons in Hc as [(m & Hm & Hm0) Hc].
    cbn [modify_count]. destruct (String.eqb_spec (ks_Name s) CoinDeployToken) as [Heq|Hne].
    + assert (Hcoins : coins (s :: l) = m).
      { rewrite coins_cons, Heq, String.eqb_refl, no_coins by congruence. unfold count. rewrite Hm. cbn. lia. }
      rewrite Hm, Hcoins. destruct (decide (0 <= m + x)) as [Hx|Hx].
      * rewrite (proj2 (Z.ltb_ge (m + x) 0)) by lia. eexists. split; [done|]. split_and!.
        -- split; [|by apply NoDup_cons]. constructor; [|done]. cbn. eexists. split; [done|lia].
        -- rewrite coins_cons. cbn [ks_Name]. rewrite Heq, String.eqb_refl, no_coins by congruence. unfold count. cbn. lia.
        -- cbn. set_solver.
      * rewrite (proj2 (Z.ltb_lt (m + x) 0)) by lia. by eexists.
    + assert (Hcoins : coins (s :: l) = coins l).
      { by rewrite coins_cons, (proj2 (String.eqb_neq _ _)). }
      rewrite Hcoins. specialize (IH Hc Hnd). case_decide as Hx.
      * destruct IH as (l' & -> & [Hc' Hnd'] & Hco & Hel). eexists. split; [done|]. split_and!.
        -- split; [by constructor; eauto|]. cbn. apply NoDup_cons. split; [|done]. rewrite Hel. set_solver.
        -- by rewrite coins_cons, (proj2 (String.eqb_neq _ _)).
        -- cbn. set_solver.
      * destruct IH as [e ->]. by eexists.
Qed.

(** The loop that shifts the array it ranges over deletes exactly the sources with
    the name, as long as names are not repeated. *)
Lemma delete_named_none name fuel index l len :
  (∀ i s, (index <= i)%nat → (i < index + fuel)%nat → l !! i = Some s → ks_Name s ≠ name) →
  delete_named name fuel index l len = Ok (l, len).
Proof.
  revert index. induction fuel as [|fuel IH]; intros index H; [done|]. cbn.
  destruct (l !! index) as [s|] eqn:Hs; [|done].
  rewrite (proj2 (String.eqb_neq _ _)) by (eapply H; [| |done]; lia).
  apply IH. intros i s' H1 H2. apply H; lia.
Qed.

(** The last entry of the array stays behind when the others move up. *)
Lemma last_entry (pre : list KarmaSource) s post :
  ∃ x, drop (length pre + length post) (pre ++ s :: post) = [x] ∧ (post ≠ [] → x ∈ post).
Proof.
  rewrite drop_app_ge by lia. replace (length pre + length post - length pre)%nat with (length post) by lia.
  induction post as [|y post _] using rev_ind; [by exists s|]. exists y. split; [|set_solver].
  rewrite length_app. cbn [length]. rewrite Nat.add_1_r. cbn. by rewrite drop_app_length.
Qed.

Lemma delete_named_hit name pre s post :
  name ∉ ks_Name <$> post → ks_Name s = name →
  ∃ x, delete_named name (S (length post)) (length pre) (pre ++ s :: post) (length pre + S (length post)) =
    Ok (pre ++ post ++ [x], (length pre + length post)%nat).
Proof.
  intros Hpost Hs. cbn [delete_named]. rewrite list_lookup_middle, Hs, String.eqb_refl by done.
  rewrite (proj2 (Nat.ltb_ge _ _)) by lia.
  rewrite (take_ge _ (length pre + S (length post))) by (rewrite length_app; cbn; lia).
  rewrite take_app_length, drop_app_ge by lia. replace (length pre + 1 - length pre)%nat with 1%nat by lia.
  cbn [drop]. rewrite drop_0. replace (length pre + S (length post) - 1)%nat with (length pre + length post)%nat by lia.
  destruct (last_entry pre s post) as (x & -> & Hx). exists x. apply delete_named_none.
  intros i s' H1 H2 Hi <-. rewrite lookup_app_r in Hi by lia. apply Hpost, list_elem_of_fmap_2.
  apply lookup_app_Some in Hi as [Hi|[Hi Hlast]]; [by eapply list_elem_of_lookup_2|].
  apply list_lookup_singleton_Some in Hlast as [_ <-]. apply Hx. intros ->. cbn in *. lia.
Qed.

Lemma delete_named_skip name fuel pre mid l len :
  name ∉ ks_Name <$> mid →
  delete_named name (length mid + fuel) (length pre) (pre ++ mid ++ l) len =
  delete_named name fuel (length pre + length mid) (pre ++ mid ++ l) len.
Proof.
  revert pre. induction mid as [|a mid IH]; intros pre Hn; [by rewrite Nat.add_0_r|].
  apply not_elem_of_cons in Hn as [Ha Hn]. cbn [length Nat.add delete_named app].
  rewrite list_lookup_middle by done. rewrite (proj2 (String.eqb_neq _ _)) by congruence.
  replace (length pre + 1)%nat with (length (pre ++ [a])) by (rewrite length_app; cbn; lia).
  change (a :: mid ++ l) with ([a] ++ mid ++ l). rewrite (app_assoc pre), IH by exact Hn.
  rewrite length_app. cbn [length]. by replace (length pre + 1 + length mid)%nat with (length pre + S (length mid))%nat by lia.
Qed.

Lemma delete_named_filter name l :
  NoDup (ks_Name <$> l) →
  ∃ x len, delete_named name (length l) 0 l (length l) = Ok (filter (λ s, ks_Name s ≠ name) l ++ x, len) ∧
    len = length (filter (λ s, ks_Name s ≠ name) l).
Proof.
  intros Hnd. destruct (decide (name ∈ ks_Name <$> l)) as [Hin|Hin].
  - apply list_elem_of_fmap in Hin as (s & -> & Hin). apply list_elem_of_split in Hin as (pre & post & ->).
    rewrite fmap_app, fmap_cons, NoDup_app, NoDup_cons in Hnd. destruct Hnd as (_ & Hpre & Hpost & _).
    assert (Hp : ks_Name s ∉ ks_Name <$> pre) by (intros H; eapply Hpre; [exact H|by left]).
    assert (Hf : ∀ m : list KarmaSource, ks_Name s ∉ ks_Name <$> m → filter (λ s', ks_Name s' ≠ ks_Name s) m = m).
    { intros m Hm. apply filter_all. intros x Hx Heq. apply Hm. rewrite <- Heq. by apply list_elem_of_fmap_2. }
    rewrite filter_app, filter_cons_False, !Hf by (done || naive_solver).
    pose proof (delete_named_skip (ks_Name s) (S (length post)) [] pre (s :: post) (length (pre ++ s :: post)) Hp) as Hskip.
    cbn [length app Nat.add] in Hskip. rewrite length_app in Hskip |- *. cbn [length] in *. rewrite Hskip.
    destruct (delete_named_hit (ks_Name s) pre s post Hpost eq_refl) as [x ->].
    exists [x]. eexists. rewrite <- app_assoc. split; [done|]. by rewrite length_app.
  - exists [], (length l). rewrite filter_all, app_nil_r; [split; [|done]|].
    + apply delete_named_none. intros i s _ _ Hi <-. apply Hin, list_elem_of_fmap_2. by eapply list_elem_of_lookup_2.
    + intros s Hs <-. by apply Hin, list_elem_of_fmap_2.
Qed.

Lemma delete_all_named_eq names l :
  NoDup (ks_Name <$> l) → delete_all_named names l = Ok (filter (λ s, ks_Name s ∉ names) l).
Proof.
  revert l. induction names as [|name names IH]; intros l Hnd.
  - cbn. f_equal. symmetry. apply filter_all. set_solver.
  - cbn [delete_all_named]. destruct (delete_named_filter name l Hnd) as (x & len & -> & ->). cbn [mbind Res_bind].
    rewrite take_app_length, IH.
    + f_equal. rewrite list_filter_filter. apply filter_ext_in. set_solver.
    + eapply sublist_NoDup; [apply Hnd|]. apply fmap_sublist, sublist_filter.
Qed.

Lemma sources_ok_filter (Q : KarmaSource → Prop) `{!∀ s, Decision (Q s)} l : sources_ok l → sources_ok (filter Q l).
Proof.
  intros [Hc Hnd]. split; [apply Forall_forall; intros s [_ Hs]%list_elem_of_filter; by apply (proj1 (Forall_forall _ _) Hc)|]. eapply sublist_NoDup; [apply Hnd|].
  apply fmap_sublist, sublist_filter.
Qed.

Lemma coins_filter_le (Q : KarmaSource → Prop) `{!∀ s, Decision (Q s)} l : counted l → coins (filter Q l) <= coins l.
Proof.
  induction 1 as [|s l (n & Hn & Hn0) Hc IH]; [done|]. rewrite filter_cons, coins_cons.
  assert (0 <= if String.eqb (ks_Name s) CoinDeployToken then count s else 0) by (unfold count; rewrite Hn; by case_match).
  case_decide; rewrite ?coins_cons; lia.
Qed.

(** ** Payments *)

(** The deploy karma of one source. *)
Definition deploys srcs (name : string) : bool := match is_deploy srcs name with Ok b => b | _ => false end.
Definition charged srcs s : Z := if deploys srcs (ks_Name s) then count s else 0.

Lemma is_deploy_eq srcs name : srcs ≠ [] → is_deploy srcs name = Ok (deploys srcs name).
Proof.
  intros Hne. unfold deploys, is_deploy.
  destruct (srcs !! source_index srcs name) as [c|] eqn:Hc; [done|]. exfalso.
  apply lookup_ge_None in Hc. revert Hc. apply Nat.lt_nge. unfold source_index.
  assert (H : ∀ (ps : list (nat * KarmaSourceReward)) acc, (acc < length srcs)%nat → Forall (λ p, (p.1 < length srcs)%nat) ps →
    (foldl (λ acc p, if String.eqb (kr_Name p.2) name then p.1 else acc) acc ps < length srcs)%nat).
  { intros ps acc Hacc Hps. revert acc Hacc. induction Hps as [|p ps Hp _ IH]; intros acc Hacc; [done|]. cbn.
    apply IH. by case_match. }
  apply H; [destruct srcs; cbn; [done|lia]|]. apply Forall_lookup_2. intros i [j c] Hi.
  rewrite list_lookup_imap in Hi. destruct (srcs !! i) eqn:Hs; [|done]. injection Hi as <- _. cbn. by eapply lookup_lt_Some.
Qed.

Lemma sum_cons srcs s l : sumZ (charged srcs) (s :: l) = charged srcs s + sumZ (charged srcs) l.
Proof. done. Qed.

Lemma charged_award srcs s n : ks_Count s = Some n → charged srcs s = if deploys srcs (ks_Name s) then n else 0.
Proof. intros Hn. unfold charged, count. by rewrite Hn. Qed.

Lemma user_karma_eq srcs l : srcs ≠ [] → counted l → user_karma srcs l = Ok (sumZ (charged srcs) l).
Proof.
  intros Hne. induction 1 as [|s l (n & Hn & _) _ IH]; [done|]. cbn [user_karma]. rewrite is_deploy_eq by done.
  cbn [mbind Res_bind]. rewrite sum_cons, (charged_award _ _ n), Hn by done.
  destruct (deploys srcs (ks_Name s)); cbn [mbind Res_bind]; by rewrite IH.
Qed.

Lemma charged_nonneg srcs l : counted l → 0 <= sumZ (charged srcs) l.
Proof.
  intros Hc. apply sumZ_nonneg. intros s Hs. unfold charged. destruct (counted_count s l Hc Hs). by case_match.
Qed.

(** The loop charges the awards in order and leaves the rest of the cost to the
    coins.  A position it reports is that of an entry of coins. *)
Record paid_by_loop srcs (i : nat) (ci : option nat) (cost : Z) l (r : PayLoop) : Prop := {
  pl_names : ks_Name <$> pay_states r = ks_Name <$> l;
  pl_counted : counted (pay_states r);
  pl_cost : 0 <= pay_cost r <= cost;
  pl_coins : coins (pay_states r) = coins l;
  pl_sum : sumZ (charged srcs) (pay_states r) = sumZ (charged srcs) l - (cost - pay_cost r);
  pl_rest : pay_cost r ≠ 0 → sumZ (charged srcs) (pay_states r) = if deploys srcs CoinDeployToken then coins l else 0;
  pl_index : pay_coinIndex r = ci ∨
    ∃ j s, pay_coinIndex r = Some (i + j)%nat ∧ pay_states r !! j = Some s ∧ ks_Name s = CoinDeployToken;
  pl_no_coins : CoinDeployToken ∉ ks_Name <$> l → pay_coinIndex r = ci;
  pl_some : is_Some ci → is_Some (pay_coinIndex r);
}.

Lemma paid_cons_coin srcs i ci cost s l r :
  (∃ n, ks_Count s = Some n ∧ 0 <= n) → ks_Name s = CoinDeployToken →
  paid_by_loop srcs (S i) (Some i) cost l r → paid_by_loop srcs i ci cost (s :: l) (pay_cons s r).
Proof.
  intros Hs Hn [H1 H2 H3 H4 H5 H6 H7 H8 H9]. destruct Hs as (n & Hs & Hn0). split; cbn [pay_cons pay_states pay_cost pay_coinIndex].
  - by rewrite !fmap_cons, H1.
  - constructor; [by exists n|done].
  - done.
  - by rewrite !coins_cons, H4.
  - rewrite !sum_cons, H5. lia.
  - intros Hne. rewrite sum_cons, coins_cons, (H6 Hne), (charged_award _ _ n), Hn, String.eqb_refl by done.
    unfold count. rewrite Hs. cbn. case_match; lia.
  - right. destruct H7 as [H7|(j & s' & H7 & Hj & Hs')].
    + exists O, s. by rewrite Nat.add_0_r.
    + exists (S j), s'. by rewrite Nat.add_succ_r.
  - rewrite fmap_cons, Hn. intros Hin. exfalso. apply Hin. by left.
  - intros _. by apply H9.
Qed.

Lemma paid_cons_other srcs i ci cost cost' s s' l r n n' :
  ks_Count s = Some n → ks_Count s' = Some n' → 0 <= n' → ks_Name s' = ks_Name s → ks_Name s ≠ CoinDeployToken →
  charged srcs s - charged srcs s' = cost - cost' → cost' <= cost → (charged srcs s' = 0) →
  paid_by_loop srcs (S i) ci cost' l r → paid_by_loop srcs i ci cost (s :: l) (pay_cons s' r).
Proof.
  intros Hs Hs' Hn' Hname Hne Hch Hle Hz [H1 H2 H3 H4 H5 H6 H7 H8 H9].
  assert (Hf : ∀ x, ks_Name x = ks_Name s → String.eqb (ks_Name x) CoinDeployToken = false)
    by (intros x ->; by apply String.eqb_neq).
  split; cbn [pay_cons pay_states pay_cost pay_coinIndex].
  - by rewrite !fmap_cons, H1, Hname.
  - constructor; [by exists n'|done].
  - lia.
  - by rewrite !coins_cons, H4, !Hf.
  - rewrite !sum_cons, H5. lia.
  - intros Hc. rewrite sum_cons, coins_cons, (H6 Hc), Hz, (Hf s) by done. done.
  - destruct H7 as [H7|(j & x & H7 & Hj & Hx)]; [by left|]. right. exists (S j), x. by rewrite Nat.add_succ_r.
  - intros [_ Hnin]%not_elem_of_cons. by apply H8.
  - done.
Qed.

Lemma pay_loop_spec srcs l i ci cost :
  srcs ≠ [] → counted l → 0 <= cost → ∃ r, pay_loop srcs i ci cost l = Ok r ∧ paid_by_loop srcs i ci cost l r.
Proof.
  intros Hne Hc. revert i ci cost. induction Hc as [|s l Hs Hc IH]; intros i ci cost Hcost.
  - eexists. split; [done|]. split; cbn; try done; try lia; [constructor|by case_match|by left].
  - cbn [pay_loop]. destruct (String.eqb_spec (ks_Name s) CoinDeployToken) as [Hcoin|Hcoin].
    { destruct (IH (S i) (Some i) cost Hcost) as (r & -> & Hr). eexists. split; [done|]. by apply paid_cons_coin. }
    rewrite is_deploy_eq by done. cbn [mbind Res_bind]. destruct Hs as (n & Hn & Hn0). rewrite Hn.
    pose proof (charged_award srcs s n Hn) as Hch. destruct (deploys srcs (ks_Name s)) eqn:Hd.
    + destruct (Z.ltb_spec cost n) as [Hlt|Hge].
      * eexists. split; [done|].
        assert (Hf : ∀ x, ks_Name x = ks_Name s → String.eqb (ks_Name x) CoinDeployToken = false)
          by (intros x ->; by apply String.eqb_neq).
        split; cbn [pay_states pay_cost pay_coinIndex]; try done; try lia.
        -- constructor; [|done]. cbn. eexists. split; [done|lia].
        -- by rewrite !coins_cons, !Hf.
        -- rewrite !sum_cons, Hch, (charged_award _ _ (n - cost)) by done. cbn [ks_Name]. rewrite Hd. lia.
        -- by left.
      * destruct (IH (S i) ci (cost - n)) as (r & -> & Hr); [lia|]. eexists. split; [done|].
        assert (Hz : charged srcs (mkSource (ks_Name s) (Some 0)) = 0) by (unfold charged, count; cbn; by case_match).
        eapply (paid_cons_other _ _ _ _ (cost - n) _ _ _ _ n 0); [done..|lia|lia|done|done].
    + destruct (IH (S i) ci cost Hcost) as (r & -> & Hr). eexists. split; [done|].
      eapply (paid_cons_other _ _ _ _ cost _ _ _ _ n n); [done..|lia|lia|done|done].
Qed.

(** Two lists of sources that differ in one entry of coins. *)
Lemma charge_coins srcs l i name n x :
  sources_ok l → l !! i = Some (mkSource name (Some n)) → name = CoinDeployToken → 0 <= x <= n →
  let l' := <[i := mkSource name (Some (n - x))]> l in
  sources_ok l' ∧ coins l = n ∧ coins l' = n - x ∧
  sumZ (charged srcs) l' = sumZ (charged srcs) l - if deploys srcs CoinDeployToken then x else 0.
Proof.
  intros [Hc Hnd] Hi -> Hx l'.
  apply list_elem_of_split_length in Hi as (pre & post & -> & ->).
  assert (Hl' : l' = pre ++ mkSource CoinDeployToken (Some (n - x)) :: post).
  { unfold l'. rewrite <- (Nat.add_0_r (length pre)). by rewrite insert_app_r. }
  rewrite Hl'. clear Hl' l'.
  apply Forall_app in Hc as [Hpre [_ Hpost]%Forall_cons].
  assert (Hsum : ∀ f : KarmaSource → Z, ∀ s, sumZ f (pre ++ s :: post) = sumZ f pre + (f s + sumZ f post)) by (intros; by rewrite sumZ_app).
  assert (Hno : coins pre = 0 ∧ coins post = 0).
  { rewrite fmap_app, fmap_cons, NoDup_app, NoDup_cons in Hnd. destruct Hnd as (_ & Hd & Hp & _).
    split; apply no_coins; [|exact Hp]. intros Hin. eapply Hd; [exact Hin|by left]. }
  destruct Hno as [Hpre0 Hpost0]. unfold coins in *. split_and!.
  - split.
    + apply Forall_app. split; [done|]. constructor; [|done]. cbn. eexists. split; [done|lia].
    + by rewrite fmap_app, fmap_cons in *.
  - rewrite Hsum, Hpre0, Hpost0. cbn. lia.
  - rewrite Hsum, Hpre0, Hpost0. cbn. lia.
  - rewrite !Hsum. unfold charged at 2 5. cbn. case_match; lia.
Qed.

Lemma coins_le_charged srcs l : counted l → deploys srcs CoinDeployToken = true → coins l <= sumZ (charged srcs) l.
Proof.
  intros Hc Hd. apply sumZ_le. intros s Hs. destruct (counted_count s l Hc Hs) as [_ Hn]. unfold charged.
  destruct (String.eqb_spec (ks_Name s) CoinDeployToken) as [->|_]; [by rewrite Hd|by case_match].
Qed.

(** What a payment that goes through does: the deploy karma drops by exactly the
    cost and no count falls below zero; coins are charged last. *)
Lemma payKarma_spec srcs l cost l' left :
  srcs ≠ [] → sources_ok l → deploys srcs CoinDeployToken = true → 0 <= cost <= sumZ (charged srcs) l →
  payKarma cost l srcs = Ok (l', left) →
  sources_ok l' ∧ ks_Name <$> l' = ks_Name <$> l ∧
  sumZ (charged srcs) l' = sumZ (charged srcs) l - cost ∧
  coins l' = coins l - Z.max 0 (cost - (sumZ (charged srcs) l - coins l)).
Proof.
  intros Hne [Hc Hnd] Hdep Hcost H. unfold payKarma in H.
  destruct (pay_loop_spec srcs l 0 None cost) as (r & Hr & Hspec); [done..|lia|]. rewrite Hr in H. cbn [mbind Res_bind] in H.
  destruct Hspec as [H1 H2 H3 H4 H5 H6 H7 H8 H9]. rewrite (proj2 (Z.leb_le _ _)) in H by lia.
  destruct H7 as [H7|(j & s & H7 & Hj & Hs)]; rewrite H7 in H; [done|]. cbn in H.
  rewrite Hj in H. destruct s as [name [n|]]; [|done]. injection H as <- <-. cbn in Hs.
  assert (Hok : sources_ok (pay_states r)) by (split; [done|by rewrite H1]).
  rewrite Hdep in H6. pose proof (coins_le_charged srcs _ H2 Hdep) as Hle.
  assert (Hn : 0 <= n) by (apply (proj1 (Forall_lookup _ _) H2) in Hj as (? & [= <-] & ?); done).
  destruct (charge_coins srcs _ _ _ _ 0 Hok Hj Hs) as (_ & Hcn & _); [lia|].
  assert (Hpc : pay_cost r <= n) by (destruct (decide (pay_cost r = 0)) as [->|Hnz]; [done|specialize (H6 Hnz); lia]).
  destruct (charge_coins srcs _ _ _ _ (pay_cost r) Hok Hj Hs) as (Hok' & _ & Hc' & Hsum); [lia|].
  rewrite Hdep in Hsum. split_and!; [done| |lia|].
  - rewrite list_fmap_insert, <- H1. apply list_insert_id. by rewrite list_lookup_fmap, Hj.
  - rewrite Hc', <- H4, Hcn. destruct (decide (pay_cost r = 0)) as [Hz|Hnz]; [|specialize (H6 Hnz)]; lia.
Qed.

(** A negative cost only adds to the first award. *)
Lemma pay_loop_negative srcs l i ci cost r :
  srcs ≠ [] → counted l → cost < 0 → pay_loop srcs i ci cost l = Ok r →
  ks_Name <$> pay_states r = ks_Name <$> l ∧ counted (pay_states r) ∧ coins (pay_states r) = coins l ∧ pay_cost r <= 0 ∧
  (pay_coinIndex r = ci ∨ ∃ j s, pay_coinIndex r = Some (i + j)%nat ∧ pay_states r !! j = Some s ∧ ks_Name s = CoinDeployToken).
Proof.
  intros Hne Hc Hcost. revert i ci r. induction Hc as [|s l Hs Hc IH]; intros i ci r H.
  - injection H as <-. split_and!; [done|constructor|done|cbn; lia|by left].
  - cbn [pay_loop] in H. destruct (String.eqb_spec (ks_Name s) CoinDeployToken) as [Hcoin|Hcoin].
    { destruct (pay_loop srcs (S i) (Some i) cost l) as [r'|e|] eqn:Hr; [|done..]. injection H as <-.
      destruct (IH _ _ _ Hr) as (H1 & H2 & H3 & H4 & H5). cbn. split_and!; [by rewrite H1|by constructor|by rewrite !coins_cons, H3|done|]. right.
      destruct H5 as [H5|(j & x & H5 & Hj & Hx)]; [exists O, s; by rewrite Nat.add_0_r|]. exists (S j), x. by rewrite Nat.add_succ_r. }
    rewrite is_deploy_eq in H by done. cbn [mbind Res_bind] in H. destruct Hs as (n & Hn & Hn0). rewrite Hn in H. destruct (deploys srcs (ks_Name s)).
    + rewrite (proj2 (Z.ltb_lt cost n)) in H by lia. injection H as <-. cbn. split_and!; [done| | |done|by left].
      * constructor; [|done]. cbn. eexists. split; [done|lia].
      * apply String.eqb_neq in Hcoin. rewrite !coins_cons. cbn [ks_Name]. by rewrite Hcoin.
    + destruct (pay_loop srcs (S i) ci cost l) as [r'|e|] eqn:Hr; [|done..]. injection H as <-.
      destruct (IH _ _ _ Hr) as (H1 & H2 & H3 & H4 & H5). cbn. split_and!; [by rewrite H1|constructor; [by exists n|done]|by rewrite !coins_cons, H3|done|].
      destruct H5 as [H5|(j & x & H5 & Hj & Hx)]; [by left|]. right. exists (S j), x. by rewrite Nat.add_succ_r.
Qed.

(** Whatever the cost, as long as the user has the karma: a payment that goes through
    never makes a count negative nor adds coins. *)
Lemma payKarma_keeps srcs l k x l' y :
  sources_ok l → user_karma srcs l = Ok k → x <= k → payKarma x l srcs = Ok (l', y) → sources_ok l' ∧ ks_Name <$> l' = ks_Name <$> l ∧ coins l' <= coins l.
Proof.
  intros [Hc Hnd] Hk Hx H. destruct (decide (srcs = [])) as [->|Hne].
  { destruct l as [|s l]; [|done]. unfold payKarma in H. cbn in H. destruct (0 <=? x); [done|]. by injection H as <- <-. }
  rewrite user_karma_eq in Hk by done. injection Hk as <-. unfold payKarma in H.
  destruct (pay_loop srcs 0 None x l) as [r|e|] eqn:Hr; [|done..]. cbn [mbind Res_bind] in H.
  assert (ks_Name <$> pay_states r = ks_Name <$> l ∧ counted (pay_states r) ∧ coins (pay_states r) = coins l ∧ pay_cost r <= coins l ∧
    (pay_coinIndex r = None ∨ ∃ j s, pay_coinIndex r = Some (0 + j)%nat ∧ pay_states r !! j = Some s ∧ ks_Name s = CoinDeployToken)) as (H1 & H2 & H3 & H4 & H5).
  { pose proof (coins_nonneg l Hc). destruct (Z.lt_ge_cases x 0) as [Hneg|Hpos].
    - destruct (pay_loop_negative srcs l 0 None x r Hne Hc Hneg Hr) as (H1 & H2 & H3 & H4 & H5). split_and!; [done..|lia|done].
    - destruct (pay_loop_spec srcs l 0 None x Hne Hc ltac:(lia)) as (r' & Hr' & [H1 H2 H3 H4 H5 H6 H7 H8 H9]). rewrite Hr in Hr'. injection Hr' as <-.
      split_and!; [done..| |done]. destruct (decide (pay_cost r = 0)) as [Hz|Hnz]; [lia|specialize (H6 Hnz)]. case_match; lia. }
  destruct (Z.leb_spec 0 (pay_cost r)) as [Hp|Hp].
  - destruct H5 as [H5|(j & s & H5 & Hj & Hs)]; rewrite H5 in H; [done|]. cbn in H. rewrite Hj in H. destruct s as [name [n|]]; [|done]. injection H as <- <-.
    assert (Hok : sources_ok (pay_states r)) by (split; [done|by rewrite H1]).
    assert (Hn : 0 <= n) by (apply (proj1 (Forall_lookup _ _) H2) in Hj as (? & [= <-] & ?); done). cbn in Hs.
    destruct (charge_coins srcs _ _ _ _ 0 Hok Hj Hs) as (_ & Hcn & _); [lia|].
    destruct (charge_coins srcs _ _ _ _ (pay_cost r) Hok Hj Hs) as (Hok' & _ & Hc' & _); [lia|]. split_and!; [done| |lia].
    rewrite list_fmap_insert, <- H1. apply list_insert_id. by rewrite list_lookup_fmap, Hj.
  - injection H as <- <-. split_and!; [split; [done|by rewrite H1]|done|lia].
Qed.

(** The loop comes to the coins unless an award before them covers the cost. *)
Definition coins_found srcs l (x : Z) : Prop := ∃ j s, l !! j = Some s ∧ ks_Name s = CoinDeployToken ∧ sumZ (charged srcs) (take j l) <= x.

Lemma pay_loop_found srcs l i ci x r :
  srcs ≠ [] → sources_ok l → 0 <= x → pay_loop srcs i ci x l = Ok r → pay_coinIndex r = ci ∧ ¬ coins_found srcs l x ∨ is_Some (pay_coinIndex r) ∧ coins_found srcs l x.
Proof.
  intros Hne [Hc Hnd] Hx. revert i ci x r Hx Hnd. induction Hc as [|s l Hs Hc IH]; intros i ci x r Hx Hnd H.
  { injection H as <-. left. split; [done|]. by intros (j & s & Hj & _). }
  cbn in Hnd. apply NoDup_cons in Hnd as [Hnew Hnd]. cbn [pay_loop] in H. destruct (String.eqb_spec (ks_Name s) CoinDeployToken) as [Hcoin|Hcoin].
  { right. destruct (pay_loop srcs (S i) (Some i) x l) as [r'|e|] eqn:Hr; [|done..]. injection H as <-. split; [|by exists O, s].
    destruct (pay_loop_spec srcs l (S i) (Some i) x Hne Hc Hx) as (r2 & Hr2 & Hspec). rewrite Hr in Hr2. injection Hr2 as <-. by apply (pl_some _ _ _ _ _ _ Hspec). }
  rewrite is_deploy_eq in H by done. cbn [mbind Res_bind] in H. destruct Hs as (n & Hn & Hn0). rewrite Hn in H. pose proof (charged_award srcs s n Hn) as Hch.
  assert (∀ x', x' = x - charged srcs s → coins_found srcs l x' ↔ coins_found srcs (s :: l) x) as Hiff.
  { intros x' ->. split.
    - intros (j & t & Hj & Ht & Hsum). exists (S j), t. split_and!; [done..|]. cbn [take]. rewrite sum_cons. lia.
    - intros ([|j] & t & Hj & Ht & Hsum); [by injection Hj as ->|]. exists j, t. split_and!; [done..|]. cbn [take] in Hsum. rewrite sum_cons in Hsum. lia. }
  destruct (deploys srcs (ks_Name s)).
  - destruct (Z.ltb_spec x n) as [Hlt|Hge].
    + injection H as <-. left. split; [done|]. intros ([|j] & t & Hj & Ht & Hsum); [by injection Hj as ->|]. cbn [take] in Hsum. rewrite sum_cons in Hsum.
      pose proof (charged_nonneg srcs (take j l) ltac:(by apply Forall_take)). lia.
    + destruct (pay_loop srcs (S i) ci (x - n) l) as [r'|e|] eqn:Hr; [|done..]. injection H as <-. cbn [pay_cons pay_coinIndex].
      rewrite <- (Hiff (x - n)) by lia. apply (IH _ _ (x - n) _ ltac:(lia) Hnd Hr).
  - destruct (pay_loop srcs (S i) ci x l) as [r'|e|] eqn:Hr; [|done..]. injection H as <-. cbn [pay_cons pay_coinIndex].
    rewrite <- (Hiff x) by lia. apply (IH _ _ _ _ Hx Hnd Hr).
Qed.

(** A payment goes through or panics. *)
Lemma payKarma_found srcs l x :
  srcs ≠ [] → sources_ok l → 0 <= x → is_ok (payKarma x l srcs) = true ∧ coins_found srcs l x ∨ payKarma x l srcs = Panic ∧ ¬ coins_found srcs l x.
Proof.
  intros Hne Hok Hx. unfold payKarma. destruct (pay_loop_spec srcs l 0 None x Hne (proj1 Hok) Hx) as (r & Hr & Hspec). rewrite Hr. cbn [mbind Res_bind].
  rewrite (proj2 (Z.leb_le _ _)) by apply Hspec. destruct (pay_loop_found srcs l 0 None x r Hne Hok Hx Hr) as [[-> Hn]|[Hi Hf]]; [by right|]. left. split; [|done].
  destruct (pl_index _ _ _ _ _ _ Hspec) as [E|(j & s & -> & Hj & _)]; [rewrite E in Hi; by destruct Hi|]. cbn. rewrite Hj.
  apply (proj1 (Forall_lookup _ _) (pl_counted _ _ _ _ _ _ Hspec)) in Hj as (n & Hn & _). destruct s as [name c]. cbn in Hn. by rewrite Hn.
Qed.

(** A user that never deposited coins cannot be charged: the index of the coins is
    out of range. *)
Lemma payKarma_panics_without_coins srcs l cost :
  srcs ≠ [] → counted l → 0 <= cost → CoinDeployToken ∉ ks_Name <$> l → payKarma cost l srcs = Panic.
Proof.
  intros Hne Hc Hcost Hno. unfold payKarma. destruct (pay_loop_spec srcs l 0 None cost) as (r & -> & Hspec); [done..|].
  cbn [mbind Res_bind]. rewrite (proj2 (Z.leb_le _ _)) by apply Hspec. by rewrite (pl_no_coins _ _ _ _ _ _ Hspec Hno).
Qed.

(** The caller's variable is charged by the awards that were used up before the
    last one: 21 and 17 awarded, 30 paid, 9 reported. *)
Example payKarma_reports_too_little :
  payKarma 30 [mkSource CoinDeployToken (Some 5); mkSource "award1" (Some 21); mkSource "award2" (Some 17)]
    [mkReward CoinDeployToken 1 Target_DEPLOY; mkReward "award1" 1 Target_DEPLOY; mkReward "award2" 1 Target_DEPLOY] =
  Ok ([mkSource CoinDeployToken (Some 5); mkSource "award1" (Some 0); mkSource "award2" (Some 8)], 9).
Proof. reflexivity. Qed.
