(* ===== verification/KarmaUpkeep.v ===== *)
(** * Upkeep of contracts (src/builtin/plugins/karma/upkeep.go)

    Users pay karma for the contracts they have deployed.  Every [Period] blocks
    [Upkeep] charges each user with active contracts; one that cannot pay has its
    oldest contracts made inactive, and calls to these are refused (file
    [KarmaThrottle]).

    [Upkeep] collects the users in a Go map, whose order of iteration is not fixed:
    [order] is that order. *)

From S2P Require Import Prelude Contract Coin Store Middleware Karma.

(** [big.Int.DivMod] for a dividend that is not negative. *)
Definition euclid_div (x y : Z) : Z := if 0 <? y then x / y else - (x / - y).
Definition euclid_mod (x y : Z) : Z := x mod (Z.abs y).

Section Upkeep.
Context {LIB : DiademLib} {TXL : TxLib} {KLIB : KarmaLib} {RANGE : RangeOrder}.
Context {P : Type} {PERM : Permissions P}.
Abbreviation World := (KWorld P).
Abbreviation KM := (M World).
Implicit Types (s : KStore P).

Definition is_active (k : bytes * bytes) s : bool := bool_decide (is_Some (k_active s !! k.1 ≫= (.!! k.2))).
Definition put_active (k : bytes * bytes) (contract : Address) : KM unit :=
  on_store (λ s, set_contracts (k_records s)
    (<[k.1 := <[k.2 := contract]> (default ∅ (k_active s !! k.1))]> (k_active s)) s).
Definition delete_active (k : bytes * bytes) : KM unit :=
  on_store (λ s, set_contracts (k_records s)
    (<[k.1 := delete k.2 (default ∅ (k_active s !! k.1))]> (k_active s)) s).

Definition SetUpkeepParams (ctx : Ctx) (params : KarmaUpkeepParams) : KM unit :=
  ok ← has_permission ctx SetUpkeepPermission;
  guard_not (negb ok) ErrNotAuthorized;;
  old ← from_store k_upkeep;
  match old with
  | None => throw ErrNotFound
  | Some oldParams =>
      on_store (set_upkeep (mkUpkeepParams
        (if Cost params =? 0 then Cost oldParams else Cost params)
        (if Period params =? 0 then Period oldParams else Period params)))
  end.

Definition GetUpkeepParms s : Res KarmaUpkeepParams :=
  match k_upkeep s with Some p => Ok p | None => Err ErrNotFound end.

Definition incrementOwnedContracts (owner : Address) (amount : Z) : KM unit :=
  userState ← from_store (λ s, GetUserState s owner);
  save_user owner (with_NumOwnedContracts (i64 (NumOwnedContracts userState + amount)) userState).

Definition GetContractRecord (contractAddr : Address) s : Res KarmaContractRecord :=
  match k_records s !! ContractRecordKey contractAddr with
  | Some r => Ok r
  | None => Err (ErrMsg "failed to load record for contract")
  end.

(** [errors.Wrapf] of a nil error is nil: a contract that is active already is not
    an error. *)
Definition SetActive (contract : option Address) : KM unit :=
  contractAddr ← deref contract;
  r ← from_store (GetContractRecord contractAddr);
  record ← lift_res r;
  match rec_Owner record with
  | None => throw (ErrMsg "owner not found")
  | Some ownerAddr =>
      let activeContractKey := ContractActiveKey ownerAddr (rec_ContractId record) in
      active ← from_store (is_active activeContractKey);
      if (active : bool) then mret ()
      else
        put_active activeContractKey (rec_Address record);;
        incrementOwnedContracts ownerAddr 1
  end.

Definition DeactivateContract (record : KarmaContractRecord) : KM unit :=
  match rec_Owner record with
  | None => throw (ErrMsg "owner not found")
  | Some ownerAddr =>
      let activeContractKey := ContractActiveKey ownerAddr (rec_ContractId record) in
      active ← from_store (is_active activeContractKey);
      if negb active then mret ()
      else
        delete_active activeContractKey;;
        incrementOwnedContracts ownerAddr (-1)
  end.

Definition SetInactive (contract : option Address) : KM unit :=
  contractAddr ← deref contract;
  r ← from_store (GetContractRecord contractAddr);
  record ← lift_res r;
  DeactivateContract record.

Definition IsContractActive (contract : Address) s : Res bool :=
  match k_records s !! ContractRecordKey contract with
  | None => Err (ErrMsg "record for contract not found")
  | Some record =>
      match rec_Owner record with
      | None => Err (ErrMsg "owner not found for contract")
      | Some owner => Ok (is_active (ContractActiveKey owner (rec_ContractId record)) s)
      end
  end.

Definition AddOwnedContract (owner contract : Address) : KM unit :=
  next ← from_store k_next;
  match next with
  | None => throw ErrNotFound
  | Some id =>
      on_store (set_next (u64 (id + 1)));;
      incrementOwnedContracts owner 1;;
      on_store (λ s, set_contracts (<[ContractRecordKey contract := mkRecord (Some owner) contract id]> (k_records s))
                       (k_active s) s);;
      put_active (ContractActiveKey owner id) contract
  end.

Fixpoint load_records (contracts : list Address) s : Res (list KarmaContractRecord) :=
  match contracts with
  | [] => Ok []
  | contractAddr :: rest =>
      record ← GetContractRecord contractAddr s;
      records ← load_records rest s;
      Ok (record :: records)
  end.

Definition GetActiveContractRecords (owner : Address) s : Res (list KarmaContractRecord) :=
  load_records (snd <$> range_of (default ∅ (k_active s !! prefix_key ["active"; address_bytes owner]))) s.

(** The users with active contracts, by the text of their address. *)
Fixpoint collect_users (users : list (bytes * KarmaState)) (acc : gmap string KarmaState) : Res (gmap string KarmaState) :=
  match users with
  | [] => Ok acc
  | (key, userState) :: rest =>
      if 0 <? NumOwnedContracts userState then
        match unmarshal_address key with
        | None => Err (ErrMsg "unmarshal owner")
        | Some owner => collect_users rest (<[address_string owner := userState]> acc)
        end
      else collect_users rest acc
  end.

Definition GetActiveUsers s : Res (gmap string KarmaState) := collect_users (range_of (k_users s)) ∅.

Definition setInactive (records : list KarmaContractRecord) : KM unit := forM records DeactivateContract.

(** The order of [sort.Slice]; ids are distinct, so what it answers for equal ones is
    never asked. *)
Definition lessContractId (r r' : KarmaContractRecord) : bool := rec_ContractId r <? rec_ContractId r'.

Definition setInactiveContractIdOrdered (user : Address) (numberToInactivate : Z) : KM unit :=
  r ← from_store (GetActiveContractRecords user);
  records ← lift_res r;
  let n := Z.min numberToInactivate (Z.of_nat (length records)) in
  setInactive (take (Z.to_nat n) (go_sort lessContractId records)).

(** One user of [deployUpkeep].  [userState] is the state that was read before any
    contract was made inactive, and it is what is written at the end. *)
Definition upkeepUser (params : KarmaUpkeepParams) (karmaSources : list KarmaSourceReward)
    (userStr : string) (userState : KarmaState) : KM unit :=
  match parse_address userStr with
  | None => mret ()
  | Some user =>
      let upkeepCost := i64 (NumOwnedContracts userState * Cost params) in
      userKarma ← lift_res (user_karma karmaSources (SourceStates userState));
      if upkeepCost <=? userKarma then
        '(sources, charged) ← lift_res (payKarma upkeepCost (SourceStates userState) karmaSources);
        deployTotal ← deref (DeployKarmaTotal userState);
        save_user user (with_DeployKarmaTotal (deployTotal - charged) (with_sources sources userState))
      else
        let canAfford := euclid_div userKarma (Cost params) in
        let leftOver := euclid_mod userKarma (Cost params) in
        let numberToInactivate := i64 (NumOwnedContracts userState - i64 canAfford) in
        r ← try_ (setInactiveContractIdOrdered user (u64 numberToInactivate));
        match r with
        | inr _ => mret ()
        | inl _ =>
            '(sources, _) ← lift_res (payKarma (canAfford * Cost params) (SourceStates userState) karmaSources);
            (if leftOver =? 0 then mret () else _ ← deref (DeployKarmaTotal userState); mret ());;
            save_user user (with_DeployKarmaTotal leftOver (with_sources sources userState))
        end
  end.

Definition deployUpkeep (params : KarmaUpkeepParams) (activeUsers : list (string * KarmaState))
    (karmaSources : list KarmaSourceReward) : KM unit :=
  forM activeUsers (λ u, upkeepUser params karmaSources u.1 u.2).

Definition Upkeep (order : gmap string KarmaState → list (string * KarmaState)) (ctx : Ctx) : KM unit :=
  upkeep ← from_store k_upkeep;
  match upkeep with
  | None => throw ErrNotFound
  | Some upkeep =>
      if (Cost upkeep =? 0) || (Period upkeep =? 0) then mret ()
      else
        state ← from_store k_upkeepState;
        let lastUpkeepHeight := default 0 state in
        if lastUpkeepHeight =? 0 then on_store (set_upkeepState (u64 (ctx_height ctx)))
        else if ctx_height ctx <? i64 (i64 lastUpkeepHeight + Period upkeep) then mret ()
        else
          r ← from_store GetActiveUsers;
          activeUsers ← lift_res r;
          karmaSources ← load_sources;
          deployUpkeep upkeep (order activeUsers) karmaSources;;
          on_store (set_upkeepState (u64 (ctx_height ctx)))
  end.
End Upkeep.
