(* ===== verification/KarmaTheorems.v ===== *)
(** * Karma that users have

    In every world that calls of the contract reach, the karma a user has for a
    target is what its sources are worth, and the coins that users deposited are
    in the contract's account.  What upkeep changes of this is in [KarmaCharges]. *)

From S2P Require Import Prelude Contract Coin Store Middleware Karma KarmaSources KarmaUpkeep.

Section Karma.
Context {LIB : DiademLib} {SPEC : DiademLibSpec} {TXL : TxLib} {KLIB : KarmaLib} {KSPEC : KarmaLibSpec} {RANGE : RangeOrder}
  {RSPEC : RangeOrderSpec}.
Context {P : Type} {PERM : Permissions P}.
Abbreviation World := (KWorld P).
Abbreviation KM := (M World).
Implicit Types (w : World) (s : KStore P) (a : Address) (st : KarmaState) (srcs : list KarmaSourceReward).

Definition sources_of s a : list KarmaSource := SourceStates (GetUserState s a).
Definition deposited s : Z := map_sumZ (λ st, coins (SourceStates st)) (k_users s).

(** ** States of users *)

(** [exact]: the totals are those of the sources.  Upkeep changes the deploy total on its
    own; of histories with upkeep it is only said that there are totals. *)
Context (exact : bool).

Definition some_nonneg (x : option Z) : Prop := from_option (λ n, 0 <= n) True x.

(** A state that never had sources has no totals. *)
Definition totals_ok srcs st : Prop :=
  if exact then
    SourceStates st = [] ∧ DeployKarmaTotal st = None ∧ CallKarmaTotal st = None ∨
    DeployKarmaTotal st = Some (karma_worth Target_DEPLOY srcs (SourceStates st)) ∧
    CallKarmaTotal st = Some (karma_worth Target_CALL srcs (SourceStates st))
  else
    some_nonneg (DeployKarmaTotal st) ∧ some_nonneg (CallKarmaTotal st) ∧ (SourceStates st = [] ∨ is_Some (DeployKarmaTotal st)).
Definition state_ok srcs st : Prop := sources_ok (SourceStates st) ∧ totals_ok srcs st.
Definition rewards_ok srcs : Prop := Forall (λ c, 0 <= kr_Reward c) srcs.

Record users_ok (users : gmap bytes KarmaState) srcs : Prop := {
  uo_rewards : rewards_ok srcs;
  uo_keys : map_Forall (λ k _, ∃ a, wf_address a ∧ k = UserStateKey a) users;
  uo_states : map_Forall (λ _ st, state_ok srcs st) users;
}.
Definition owners_ok s : Prop := map_Forall (λ _ r, from_option wf_address True (rec_Owner r)) (k_records s).
Definition kinv w : Prop :=
  owners_ok (kw_store w) ∧ ∃ srcs, k_sources (kw_store w) = Some srcs ∧ users_ok (k_users (kw_store w)) srcs.

Definition recalculated srcs (l : list KarmaSource) st : KarmaState :=
  with_totals (karma_worth Target_DEPLOY srcs l, karma_worth Target_CALL srcs l) (with_sources l st).

Lemma UserStateKey_inj a b : UserStateKey a = UserStateKey b → a = b.
Proof. intros H. pose proof (unmarshal_marshal a) as Ha. unfold UserStateKey in H. rewrite H, unmarshal_marshal in Ha. by injection Ha. Qed.

Lemma empty_state_ok srcs n : state_ok srcs (with_NumOwnedContracts n emptyKarmaState).
Proof. split; [split; constructor|]. unfold totals_ok. destruct exact; [by left|]. split_and!; [done..|by left]. Qed.

Lemma state_ok_num srcs st n : state_ok srcs st → state_ok srcs (with_NumOwnedContracts n st).
Proof. by destruct st. Qed.

Lemma recalculated_ok srcs l st : rewards_ok srcs → sources_ok l → state_ok srcs (recalculated srcs l st).
Proof.
  intros Hr Hl. split; [done|]. unfold totals_ok. destruct exact; [by right|].
  split_and!; [apply karma_worth_nonneg; [done|apply Hl]..|right; by eexists].
Qed.

Lemma stored_source_id l : counted l → (λ x, mkSource (ks_Name x) (stored_big <$> ks_Count x)) <$> l = l.
Proof.
  induction 1 as [|[name c] l (n & Hn & Hn0) _ IH]; [done|]. cbn in *. rewrite IH, Hn. cbn.
  by rewrite stored_big_nonneg.
Qed.

(** What is written reads back as it is. *)
Lemma stored_state_id srcs st : rewards_ok srcs → state_ok srcs st → stored_state st = st.
Proof.
  intros Hr [[Hc _] Ht]. destruct st as [l d c n]. unfold stored_state, totals_ok in *. cbn in *. rewrite stored_source_id by done.
  assert (some_nonneg d ∧ some_nonneg c) as [Hd Hcl].
  { destruct exact; [|split; apply Ht]. destruct Ht as [(_ & -> & ->)|[-> ->]]; [done|]. split; by apply karma_worth_nonneg. }
  destruct d, c; cbn; by rewrite ?stored_big_nonneg.
Qed.

Lemma GetUserState_ok w srcs a : users_ok (k_users (kw_store w)) srcs → state_ok srcs (GetUserState (kw_store w) a).
Proof.
  intros H. unfold GetUserState. destruct (_ !! UserStateKey a) as [st|] eqn:Hst; cbn; [|apply empty_state_ok with (n := 0)].
  by apply (uo_states _ _ H _ _ Hst).
Qed.

Lemma users_ok_put users srcs a st :
  users_ok users srcs → wf_address a → state_ok srcs st → users_ok (<[UserStateKey a := st]> users) srcs.
Proof.
  intros [H1 H2 H3] Ha Hst. split; [done|..]; apply map_Forall_insert_2; try done. by exists a.
Qed.

(** The world after the state of a user was written. *)
Definition put_state a st w : World :=
  mkKWorld (set_users (<[UserStateKey a := st]> (k_users (kw_store w))) (kw_store w)) (kw_coin w).

Lemma save_user_run a st w srcs :
  rewards_ok srcs → state_ok srcs st → save_user a st w = (Ok (), put_state a st w).
Proof.
  intros Hr Hst. unfold save_user, put_user, on_store, put_state, modify. cbn.
  by rewrite (stored_state_id srcs).
Qed.

(** The end of every method that changes the sources of a user. *)
Lemma recalculate_run a l st srcs w :
  k_sources (kw_store w) = Some srcs → rewards_ok srcs → sources_ok l →
  (karmaSources ← load_sources;
   totals ← lift_res (CalculateTotalKarma karmaSources l);
   save_user a (with_totals totals (with_sources l st)) : KM unit) w = (Ok (), put_state a (recalculated srcs l st) w).
Proof.
  intros Hs Hr Hl. unfold load_sources, from_store. m_eval. rewrite Hs. m_eval.
  rewrite CalculateTotalKarma_eq by apply Hl. rewrite (save_user_run _ _ _ srcs); [done..|]. by apply recalculated_ok.
Qed.

Lemma addKarma_run a amounts w srcs :
  k_sources (kw_store w) = Some srcs → users_ok (k_users (kw_store w)) srcs → counted amounts →
  ∃ l, add_sources amounts (sources_of (kw_store w) a) = Ok l ∧ sources_ok l ∧
    addKarma a amounts w = (Ok (), put_state a (recalculated srcs l (GetUserState (kw_store w) a)) w).
Proof.
  intros Hs Hu Ha. pose proof (GetUserState_ok w srcs a Hu) as [Hok _].
  destruct (add_sources_ok amounts _ Hok Ha) as (l & Hl & Hlok). exists l. split_and!; [done..|].
  unfold addKarma, from_store. m_eval. rewrite Hl. apply recalculate_run; [done|apply Hu|done].
Qed.

Lemma modifyCoins_run a x w srcs :
  k_sources (kw_store w) = Some srcs → users_ok (k_users (kw_store w)) srcs →
  (if decide (0 <= coins (sources_of (kw_store w) a) + x) then
     ∃ l, sources_ok l ∧ coins l = coins (sources_of (kw_store w) a) + x ∧
       modifyCountForUser a CoinDeployToken x w =
         (Ok (), put_state a (recalculated srcs l (GetUserState (kw_store w) a)) w)
   else ∃ e, modifyCountForUser a CoinDeployToken x w = (Err e, w)).
Proof.
  intros Hs Hu. pose proof (GetUserState_ok w srcs a Hu) as [Hok _]. pose proof (modify_coins x _ Hok) as Hm.
  unfold modifyCountForUser, from_store, sources_of in *. m_eval. destruct (decide _) as [Hd|Hd].
  - destruct Hm as (l & -> & Hl & Hc & _). exists l. split_and!; [done..|]. apply recalculate_run; [done|apply Hu|done].
  - destruct Hm as [e ->]. by exists e.
Qed.

(** Resetting the sources recalculates every user. *)
Lemma update_loop srcs (l : list (bytes * KarmaState)) w :
  rewards_ok srcs → NoDup l.*1 → (∀ k st, (k, st) ∈ l → k_users (kw_store w) !! k = Some st ∧ sources_ok (SourceStates st)) →
  ∃ w', forM l (λ userKV, totals ← lift_res (CalculateTotalKarma srcs (SourceStates userKV.2));
                          put_user userKV.1 (with_totals totals userKV.2)) w = (Ok (), w') ∧
    kw_coin w' = kw_coin w ∧ k_sources (kw_store w') = k_sources (kw_store w) ∧
    ∀ k, k_users (kw_store w') !! k =
      if decide (k ∈ l.*1) then (λ st, recalculated srcs (SourceStates st) st) <$> k_users (kw_store w) !! k
      else k_users (kw_store w) !! k.
Proof.
  intros Hr. revert w. induction l as [|[k st] l IH]; intros w Hnd Hl; [by exists w|].
  apply NoDup_cons in Hnd as [Hk Hnd]. destruct (Hl k st) as [Hst Hok]; [by left|].
  set (st' := recalculated srcs (SourceStates st) st).
  set (w1 := mkKWorld (set_users (<[k := st']> (k_users (kw_store w))) (kw_store w)) (kw_coin w)).
  destruct (IH w1 Hnd) as (w' & Hrun & Hc & Hsrc & Hu).
  { intros k1 st1 Hin. destruct (Hl k1 st1) as [H1 H2]; [by right|]. split; [|done]. cbn.
    rewrite lookup_insert_ne; [done|]. intros <-. apply Hk. by apply (list_elem_of_fmap_2 fst) in Hin. }
  exists w'. split_and!; [|done|done|].
  - cbn [forM foldM]. erewrite bind_ok; [exact Hrun|]. cbn [fst snd]. rewrite CalculateTotalKarma_eq by apply Hok.
    unfold put_user, on_store. m_eval. rewrite (stored_state_id srcs); [done..|]. by apply recalculated_ok.
  - intros k1. rewrite Hu. cbn. destruct (decide (k1 = k)) as [->|Hne].
    + rewrite decide_False by done. rewrite lookup_insert_eq, decide_True, Hst by (by left). done.
    + rewrite lookup_insert_ne by done. destruct (decide (k1 ∈ l.*1)) as [Hin|Hin].
      * rewrite decide_True by (by right). done.
      * rewrite decide_False by set_solver. done.
Qed.

(** ** Calls *)

Inductive KCall :=
  | CallAddKarma (ctx : Ctx) (user : option Address) (sources : list KarmaSource)
  | CallDeleteSources (ctx : Ctx) (user : option Address) (names : list string)
  | CallResetSources (ctx : Ctx) (sources : list KarmaSourceReward)
  | CallUpdateOracle (ctx : Ctx) (oracle : option Address)
  | CallDepositCoin (ctx : Ctx) (user : option Address) (amount : option Z)
  | CallWithdrawCoin (ctx : Ctx) (user : option Address) (amount : option Z)
  | CallSetConfig (ctx : Ctx) (cfg : Z)
  | CallSetUpkeepParams (ctx : Ctx) (params : KarmaUpkeepParams)
  | CallSetActive (contract : option Address)
  | CallSetInactive (contract : option Address)
  | CallAddOwnedContract (owner contract : Address).

Definition run_kcall (c : KCall) : KM unit :=
  match c with
  | CallAddKarma ctx user l => AddKarma ctx user l
  | CallDeleteSources ctx user names => DeleteSourcesForUser ctx user names
  | CallResetSources ctx l => ResetSources ctx l
  | CallUpdateOracle ctx o => UpdateOracle ctx o
  | CallDepositCoin ctx user x => DepositCoin ctx user x
  | CallWithdrawCoin ctx user x => WithdrawCoin ctx user x
  | CallSetConfig ctx cfg => SetConfig ctx cfg
  | CallSetUpkeepParams ctx ps => SetUpkeepParams ctx ps
  | CallSetActive c => SetActive c
  | CallSetInactive c => SetInactive c
  | CallAddOwnedContract o c => AddOwnedContract o c
  end.

(** Well-formed requests to the contract at address [me]: amounts and rewards are
    not negative, and the contract does not deposit for itself. *)
Definition kcall_ok (me : Address) (c : KCall) : Prop :=
  match c with
  | CallAddKarma _ user l => from_option wf_address True user ∧ counted l
  | CallDeleteSources _ user _ => from_option wf_address True user
  | CallResetSources _ l => rewards_ok l
  | CallDepositCoin ctx user x | CallWithdrawCoin ctx user x =>
      ctx_contract ctx = me ∧ from_option (λ a, wf_address a ∧ a ≠ me) True user ∧ 0 <= default 0 x
  | CallAddOwnedContract o c => wf_address o ∧ wf_address c
  | _ => True
  end.

(** The oracle gives out awards, not coins. *)
Definition awards_only (c : KCall) : Prop :=
  match c with CallAddKarma _ _ l => CoinDeployToken ∉ ks_Name <$> l | _ => True end.

(** The calls that record contracts or change which of them are active. *)
Definition changes_contracts (c : KCall) : bool :=
  match c with CallSetActive _ | CallSetInactive _ | CallAddOwnedContract _ _ => true | _ => false end.

(** What a call does to the sources of users and to the coins. *)
Inductive effect (me : Address) (c : KCall) srcs w w' : Prop :=
  | effect_state a st :
      wf_address a → state_ok srcs st → k_sources (kw_store w') = Some srcs →
      k_users (kw_store w') = <[UserStateKey a := st]> (k_users (kw_store w)) →
      (changes_contracts c = false → NumOwnedContracts st = NumOwnedContracts (GetUserState (kw_store w) a)) →
      (coin_wf (kw_coin w) → coin_wf (kw_coin w') ∧ (awards_only c →
         coins (SourceStates st) - coins (sources_of (kw_store w) a) <= balance (kw_coin w') me - balance (kw_coin w) me)) →
      effect me c srcs w w'
  | effect_reset srcs' :
      rewards_ok srcs' → k_sources (kw_store w') = Some srcs' → kw_coin w' = kw_coin w →
      (∀ k, k_users (kw_store w') !! k = (λ st, recalculated srcs' (SourceStates st) st) <$> k_users (kw_store w) !! k) →
      effect me c srcs w w'
  | effect_none :
      k_sources (kw_store w') = Some srcs → k_users (kw_store w') = k_users (kw_store w) → kw_coin w' = kw_coin w →
      effect me c srcs w w'.

Lemma effect_users me c srcs w w' :
  users_ok (k_users (kw_store w)) srcs → effect me c srcs w w' →
  ∃ srcs', k_sources (kw_store w') = Some srcs' ∧ users_ok (k_users (kw_store w')) srcs'.
Proof.
  intros Hu [a st Ha Hst Hs -> _ _|srcs' Hr Hs _ Hl|Hs -> _].
  - exists srcs. split; [done|]. by apply users_ok_put.
  - exists srcs'. split; [done|]. split; [done|..]; intros k st; rewrite Hl;
      destruct (k_users (kw_store w) !! k) as [st0|] eqn:Hk; try done; intros [= <-].
    + by apply (uo_keys _ _ Hu k st0).
    + apply recalculated_ok; [done|]. by apply (uo_states _ _ Hu k st0).
  - by exists srcs.
Qed.

(** The coins of users stay covered by the contract's account. *)
Definition backed (me : Address) w : Prop := coin_wf (kw_coin w) ∧ deposited (kw_store w) <= balance (kw_coin w) me.

Lemma deposited_insert s k st :
  map_sumZ (λ st, coins (SourceStates st)) (<[k := st]> (k_users s)) =
  deposited s + coins (SourceStates st) - from_option (λ st, coins (SourceStates st)) 0 (k_users s !! k).
Proof. apply (map_sumZ_insert (λ st, coins (SourceStates st))). Qed.

Lemma map_sumZ_ext_lookup {A} (f g : A → Z) (m m' : gmap bytes A) (h : A → A) :
  (∀ k, m' !! k = h <$> m !! k) → (∀ x, g (h x) = f x) → map_sumZ g m' = map_sumZ f m.
Proof.
  intros Hm Hh. assert (m' = h <$> m) as -> by (apply map_eq; intros k; by rewrite Hm, lookup_fmap).
  unfold map_sumZ. rewrite map_to_list_fmap, sumZ_fmap. apply sumZ_ext. intros [k x] _. cbn. apply Hh.
Qed.

Lemma effect_backed me c srcs w w' :
  awards_only c → effect me c srcs w w' → backed me w → backed me w'.
Proof.
  intros Hc [a st Ha Hst Hs Hu _ Hcoin|srcs' Hr Hs Hcoin Hl|Hs Hu Hcoin] [Hwf Hb]; unfold backed, deposited.
  - destruct (Hcoin Hwf) as [Hwf' Hd]. specialize (Hd Hc). split; [done|]. rewrite Hu, deposited_insert.
    unfold sources_of, GetUserState in Hd. destruct (k_users (kw_store w) !! UserStateKey a); cbn in *; [|change (coins []) with 0 in Hd]; lia.
  - rewrite Hcoin. split; [done|]. rewrite (map_sumZ_ext_lookup (λ st, coins (SourceStates st)) _ _ _ _ Hl); [done|]. done.
  - by rewrite Hu, Hcoin.
Qed.

Lemma no_coin_added amounts l l' :
  CoinDeployToken ∉ ks_Name <$> amounts → add_sources amounts l = Ok l' → coins l' = coins l.
Proof.
  revert l. induction amounts as [|x amounts IH]; intros l Hn H; [by injection H as <-|].
  apply not_elem_of_cons in Hn as [Hx Hn]. cbn in H. destruct (add_source x l) as [l1| |] eqn:Hadd; [|done..].
  rewrite (IH l1 Hn H). clear IH H. revert l1 Hadd. induction l as [|y l IH]; intros l1 Hadd.
  - injection Hadd as <-. rewrite coins_cons, (proj2 (String.eqb_neq _ _)) by congruence. done.
  - cbn in Hadd. destruct (String.eqb_spec (ks_Name y) (ks_Name x)) as [Heq|_].
    + destruct (ks_Count y), (ks_Count x); try done. injection Hadd as <-. rewrite !coins_cons. cbn [ks_Name].
      by rewrite Heq, (proj2 (String.eqb_neq _ _)) by congruence.
    + destruct (add_source x l) as [l2| |] eqn:H2; [|done..]. injection Hadd as <-. by rewrite !coins_cons, (IH l2).
Qed.

Lemma from_store_ok {A} (f : KStore P → A) w x w' : from_store f w = (Ok x, w') → x = f (kw_store w) ∧ w' = w.
Proof. by intros [= <- <-]. Qed.

Lemma permitted_inv {A} ctx token (k : KM A) w x w' :
  (ok ← has_permission ctx token; guard_not (negb ok) ErrNotAuthorized;; k) w = (Ok x, w') → k w = (Ok x, w').
Proof.
  intros H. apply bind_inv in H as (ok & w1 & [-> ->]%from_store_ok & H).
  by apply bind_inv in H as ([] & w1 & [_ ->]%guard_not_inv & H).
Qed.

Lemma AddKarma_effect me ctx user l srcs w w' :
  kcall_ok me (CallAddKarma ctx user l) → k_sources (kw_store w) = Some srcs → users_ok (k_users (kw_store w)) srcs →
  AddKarma ctx user l w = (Ok (), w') → effect me (CallAddKarma ctx user l) srcs w w'.
Proof.
  intros [Ha Hl] Hs Hu H%permitted_inv. apply bind_inv in H as (a & w1 & [-> ->]%deref_inv & H).
  destruct (addKarma_run a l w srcs Hs Hu Hl) as (l' & Hadd & Hok & Hrun). rewrite Hrun in H. injection H as <-.
  eapply effect_state; [exact Ha|apply recalculated_ok; [apply Hu|done]|done|done|done|]. intros Hwf. split; [done|]. intros Hn. cbn.
  rewrite (no_coin_added l _ l' Hn Hadd). lia.
Qed.

Lemma DeleteSources_effect me ctx user names srcs w w' :
  kcall_ok me (CallDeleteSources ctx user names) → k_sources (kw_store w) = Some srcs →
  users_ok (k_users (kw_store w)) srcs →
  DeleteSourcesForUser ctx user names w = (Ok (), w') → effect me (CallDeleteSources ctx user names) srcs w w'.
Proof.
  intros Ha Hs Hu H%permitted_inv. apply bind_inv in H as (a & w1 & [-> ->]%deref_inv & H).
  pose proof (GetUserState_ok w srcs a Hu) as [Hok _].
  apply bind_inv in H as (st & w1 & [-> ->]%from_store_ok & H).
  rewrite delete_all_named_eq in H by apply Hok. cbn [lift_res] in H. erewrite bind_ok in H by reflexivity.
  rewrite recalculate_run with (srcs := srcs) in H; [|done|apply Hu|by apply sources_ok_filter].
  injection H as <-.
  assert (Hf : sources_ok (filter (λ x, ks_Name x ∉ names) (sources_of (kw_store w) a))) by (by apply sources_ok_filter).
  eapply effect_state; [exact Ha|apply recalculated_ok; [apply Hu|by apply Hf]|done|done|done|].
  intros Hwf. split; [done|]. intros _. cbn.
  pose proof (coins_filter_le (λ x, ks_Name x ∉ names) (sources_of (kw_store w) a) (proj1 Hok)). unfold sources_of in *. lia.
Qed.

Lemma ResetSources_effect me ctx srcs' srcs w w' :
  kcall_ok me (CallResetSources ctx srcs') → users_ok (k_users (kw_store w)) srcs →
  ResetSources ctx srcs' w = (Ok (), w') → effect me (CallResetSources ctx srcs') srcs w w'.
Proof.
  intros Hr Hu H%permitted_inv. apply bind_inv in H as ([] & w1 & [= <-] & H).
  apply bind_inv in H as (l & w1 & [-> ->]%from_store_ok & H). cbn in H.
  edestruct update_loop as (w2 & Hrun & Hc & Hs & Hl); [exact Hr| | |rewrite Hrun in H].
  { rewrite range_of_perm. apply NoDup_fst_map_to_list. }
  { cbn. intros k st. rewrite range_of_perm, elem_of_map_to_list. intros Hk. split; [exact Hk|]. by apply (uo_states _ _ Hu k st). }
  injection H as <-. apply (effect_reset _ _ _ _ _ srcs'); [done..|]. intros k. rewrite Hl. cbn.
  case_decide as Hin; [done|]. rewrite range_of_perm in Hin.
  destruct (k_users (kw_store w) !! k) as [st|] eqn:Hk; [|done]. exfalso. apply Hin.
  apply (list_elem_of_fmap_2 fst _ (k, st)). by apply elem_of_map_to_list.
Qed.

Lemma modifyCoins_inv a x w w' srcs :
  k_sources (kw_store w) = Some srcs → users_ok (k_users (kw_store w)) srcs →
  modifyCountForUser a CoinDeployToken x w = (Ok (), w') →
  ∃ l, sources_ok l ∧ coins l = coins (sources_of (kw_store w) a) + x ∧
    w' = put_state a (recalculated srcs l (GetUserState (kw_store w) a)) w.
Proof.
  intros Hs Hu H. pose proof (modifyCoins_run a x w srcs Hs Hu) as Hm. case_decide.
  - destruct Hm as (l & Hl & Hc & Hrun). rewrite Hrun in H. injection H as <-. by exists l.
  - destruct Hm as [e Hm]. by rewrite Hm in H.
Qed.

Lemma Deposit_effect me ctx user x srcs w w' :
  wf_address me → kcall_ok me (CallDepositCoin ctx user x) → k_sources (kw_store w) = Some srcs →
  users_ok (k_users (kw_store w)) srcs →
  DepositCoin ctx user x w = (Ok (), w') → effect me (CallDepositCoin ctx user x) srcs w w'.
Proof.
  intros Hme (<- & Ha & Hx) Hs Hu H. unfold DepositCoin in H. apply bind_inv in H as (coin & w1 & Hr & H).
  unfold ctx_resolve in Hr. case_match; [|done]. injection Hr as <- <-.
  apply bind_inv in H as ([] & w1 & Hc & H). apply bind_inv in H as (u & w2 & [-> ->]%deref_inv & H).
  apply bind_inv in H as (y & w2 & [-> ->]%deref_inv & H). cbn in Ha, Hx. destruct Ha as [Ha Hne].
  unfold on_coin, zoom in Hc. destruct (Coin.TransferFrom _ _ _) as [r c] eqn:Ht. injection Hc as -> <-.
  apply (modifyCoins_inv _ _ _ _ srcs) in H as (l & Hl & Hco & ->); [|done..].
  eapply effect_state; [exact Ha|apply recalculated_ok; [apply Hu|done]|done|done|done|]. intros Hwf. cbn. rewrite Hco. cbn.
  set (cc := coin_ctx ctx _) in Ht.
  destruct (al_Amount (Coin.loadAllowance (kw_coin w) u (ctx_sender cc))) as [al|] eqn:Hal;
    [|by rewrite TransferFrom_nil in Ht].
  rewrite (TransferFrom_eq _ _ _ _ _ al) in Ht by done. destruct (Z.ltb_spec al y); [done|].
  destruct (Z.ltb_spec (balance (kw_coin w) u) y); [done|]. injection Ht as <-.
  split; [by apply coin_wf_set_allowance; [apply coin_wf_move; try done; lia|..|cbn; lia]|].
  intros _. rewrite balance_set_allowance, balance_move by done. rewrite decide_False, decide_True by done. cbn. lia.
Qed.

Lemma Withdraw_effect me ctx user x srcs w w' :
  wf_address me → kcall_ok me (CallWithdrawCoin ctx user x) → k_sources (kw_store w) = Some srcs →
  users_ok (k_users (kw_store w)) srcs → coin_wf (kw_coin w) →
  WithdrawCoin ctx user x w = (Ok (), w') → effect me (CallWithdrawCoin ctx user x) srcs w w'.
Proof.
  intros Hme (<- & Ha & Hx) Hs Hu Hwf H. unfold WithdrawCoin in H. apply bind_inv in H as (coin & w1 & Hr & H).
  unfold ctx_resolve in Hr. case_match; [|done]. injection Hr as <- <-.
  apply bind_inv in H as ([] & w1 & Hc & H). apply bind_inv in H as (u & w2 & [-> ->]%deref_inv & H).
  apply bind_inv in H as (y & w2 & [-> ->]%deref_inv & H). cbn in Ha, Hx. destruct Ha as [Ha Hne].
  unfold on_coin, zoom in Hc. rewrite Transfer_eq in Hc by done.
  destruct (balance (kw_coin w) _ <? y) eqn:Hb; [done|]. injection Hc as <-. apply Z.ltb_ge in Hb.
  apply (modifyCoins_inv _ _ _ _ srcs) in H as (l & Hl & Hco & ->); [|done..].
  eapply effect_state; [exact Ha|apply recalculated_ok; [apply Hu|done]|done|done|done|]. intros _. cbn. rewrite Hco. cbn.
  split; [apply coin_wf_move; try done; cbn in Hb; lia|].
  intros _. rewrite balance_move by done. rewrite decide_True by done. cbn. lia.
Qed.

(** A call that leaves the sources of users and the coins alone changes at most the
    number of contracts of one user. *)
Lemma num_effect me c srcs w w1 a n :
  changes_contracts c = true →
  users_ok (k_users (kw_store w)) srcs → wf_address a → k_sources (kw_store w1) = Some srcs →
  k_users (kw_store w1) = k_users (kw_store w) → kw_coin w1 = kw_coin w →
  effect me c srcs w (put_state a (with_NumOwnedContracts n (GetUserState (kw_store w1) a)) w1).
Proof.
  intros Hch Hu Ha Hs Heq Hc. assert (Hget : GetUserState (kw_store w1) a = GetUserState (kw_store w) a)
    by (unfold GetUserState; by rewrite Heq).
  rewrite Hget. eapply effect_state; [exact Ha|by apply state_ok_num, GetUserState_ok|done|cbn; by rewrite Heq|by rewrite Hch|].
  intros Hwf. cbn. rewrite Hc. split; [done|]. intros _. unfold sources_of. destruct (GetUserState (kw_store w) a). cbn. lia.
Qed.

Lemma increment_run a x w srcs :
  users_ok (k_users (kw_store w)) srcs →
  incrementOwnedContracts a x w =
    (Ok (), put_state a (with_NumOwnedContracts (i64 (NumOwnedContracts (GetUserState (kw_store w) a) + x))
                           (GetUserState (kw_store w) a)) w).
Proof.
  intros Hu. unfold incrementOwnedContracts, from_store. m_eval. apply (save_user_run _ _ _ srcs); [apply Hu|].
  by apply state_ok_num, GetUserState_ok.
Qed.

Lemma put_increment_effect me c srcs w w1 w' o x :
  changes_contracts c = true →
  users_ok (k_users (kw_store w)) srcs → k_sources (kw_store w) = Some srcs → wf_address o →
  (k_sources (kw_store w1), k_users (kw_store w1), kw_coin w1) = (k_sources (kw_store w), k_users (kw_store w), kw_coin w) →
  incrementOwnedContracts o x w1 = (Ok (), w') → effect me c srcs w w'.
Proof.
  intros Hch Hu Hs Ho [= Hs1 Hu1 Hc1] H. rewrite (increment_run _ _ _ srcs) in H by (by rewrite Hu1).
  assert (w' = put_state o (with_NumOwnedContracts (i64 (NumOwnedContracts (GetUserState (kw_store w1) o) + x))
                           (GetUserState (kw_store w1) o)) w1) as -> by congruence.
  apply num_effect; [done|done|done|by rewrite Hs1|done|done].
Qed.

Lemma owner_wf w k r o : owners_ok (kw_store w) → k_records (kw_store w) !! k = Some r → rec_Owner r = Some o → wf_address o.
Proof. intros Hown Hr Ho. pose proof (Hown _ _ Hr) as H. cbn in H. by rewrite Ho in H. Qed.

Lemma record_inv (r : option Address) w rec w' (k : KarmaContractRecord → KM unit) :
  (contractAddr ← deref r; x ← from_store (GetContractRecord contractAddr); record ← lift_res x; k record) w = (Ok rec, w') →
  ∃ a record, r = Some a ∧ k_records (kw_store w) !! ContractRecordKey a = Some record ∧ k record w = (Ok rec, w').
Proof.
  intros H. apply bind_inv in H as (a & w1 & [-> ->]%deref_inv & H).
  apply bind_inv in H as (x & w1 & [-> ->]%from_store_ok & H).
  apply bind_inv in H as (record & w1 & Hx & H). unfold GetContractRecord in Hx.
  destruct (_ !! _) as [r|] eqn:Hr; [|done]. injection Hx as <- <-. by exists a, r.
Qed.

(** The oracle and its permissions are apart from the rest. *)
Definition same_rest w w' : Prop :=
  k_sources (kw_store w') = k_sources (kw_store w) ∧ k_users (kw_store w') = k_users (kw_store w) ∧
  k_records (kw_store w') = k_records (kw_store w) ∧ k_active (kw_store w') = k_active (kw_store w) ∧
  k_next (kw_store w') = k_next (kw_store w) ∧ kw_coin w' = kw_coin w.

Lemma registerOracle_rest w o cur : preserves (same_rest w) (registerOracle o cur : KM unit).
Proof. unfold registerOracle, grant, revoke, on_store. pres. Qed.

Lemma UpdateOracle_rest ctx o w w' : UpdateOracle ctx o w = (Ok (), w') → same_rest w w'.
Proof.
  intros H%permitted_inv. assert (H0 : same_rest w w) by done.
  pose proof (registerOracle_rest w o (Some (ctx_sender ctx)) w H0) as Hw. unfold wp in Hw. by rewrite H in Hw.
Qed.

Lemma kcall_effect me c srcs w w' :
  wf_address me → kcall_ok me c → coin_wf (kw_coin w) → owners_ok (kw_store w) → k_sources (kw_store w) = Some srcs →
  users_ok (k_users (kw_store w)) srcs → run_kcall c w = (Ok (), w') → effect me c srcs w w'.
Proof.
  intros Hme Hok Hwf Hown Hs Hu H. destruct c as [ctx u l|ctx u names|ctx l|ctx o|ctx u x|ctx u x|ctx cfg|ctx ps|c|c|o c];
    cbn [run_kcall] in H.
  - by apply AddKarma_effect.
  - by apply DeleteSources_effect.
  - by apply ResetSources_effect.
  - apply UpdateOracle_rest in H as (H1 & H2 & _ & _ & _ & H3). apply effect_none; [by rewrite H1|done..].
  - by apply Deposit_effect.
  - by apply Withdraw_effect.
  - apply permitted_inv in H. injection H as <-. by apply effect_none.
  - apply permitted_inv in H. apply bind_inv in H as (old & w1 & [-> ->]%from_store_ok & H).
    destruct (k_upkeep (kw_store w)); [|done]. injection H as <-. by apply effect_none.
  - apply record_inv in H as (a & r & -> & Hr & H). destruct (rec_Owner r) as [o|] eqn:Hro; [|done].
    apply bind_inv in H as (act & w1 & [-> ->]%from_store_ok & H). destruct (is_active _ _).
    { injection H as <-. by apply effect_none. }
    apply bind_inv in H as ([] & w1 & Hp & H). apply (put_increment_effect me _ srcs w w1 w' o 1); try done.
    + by eapply owner_wf.
    + by injection Hp as <-.
  - apply record_inv in H as (a & r & -> & Hr & H). unfold DeactivateContract in H.
    destruct (rec_Owner r) as [o|] eqn:Hro; [|done].
    apply bind_inv in H as (act & w1 & [-> ->]%from_store_ok & H). destruct (is_active _ _); cbn [negb] in H.
    2:{ injection H as <-. by apply effect_none. }
    apply bind_inv in H as ([] & w1 & Hp & H). apply (put_increment_effect me _ srcs w w1 w' o (-1)); try done.
    + by eapply owner_wf.
    + by injection Hp as <-.
  - unfold AddOwnedContract in H. apply bind_inv in H as (n & w1 & [-> ->]%from_store_ok & H).
    destruct (k_next (kw_store w)) as [id|]; [|done].
    apply bind_inv in H as ([] & w1 & Hp & H). apply bind_inv in H as ([] & w2 & Hinc & H).
    apply (put_increment_effect me (CallAddOwnedContract o c) srcs w w1 w2 o 1) in Hinc; [|done|done|done|apply Hok|by injection Hp as <-].
    injection H as <-. by destruct Hinc; [eapply effect_state|eapply effect_reset|eapply effect_none].
Qed.

(** Only a deployment adds a record. *)
Definition deploys_contract (c : KCall) : bool := match c with CallAddOwnedContract _ _ => true | _ => false end.

Lemma records_kept R c :
  deploys_contract c = false → preserves (λ w, (k_records (kw_store w), k_next (kw_store w)) = R) (run_kcall c : KM unit).
Proof.
  destruct c; intros Hd; try done; clear Hd; cbn [run_kcall];
    unfold AddKarma, addKarma, DeleteSourcesForUser, ResetSources, SetAllowedKarmaSources, updateKarmaCounts,
      UpdateOracle, registerOracle, DepositCoin, WithdrawCoin, modifyCountForUser, SetConfig, SetUpkeepParams, SetActive,
      SetInactive, DeactivateContract, incrementOwnedContracts, put_active, delete_active, save_user, put_user, load_sources,
      has_permission, grant, revoke, from_store, on_store, on_coin, ctx_resolve; pres.
Qed.

Lemma kcall_records c w w' :
  deploys_contract c = false → run_kcall c w = (Ok (), w') →
  k_records (kw_store w') = k_records (kw_store w) ∧ k_next (kw_store w') = k_next (kw_store w).
Proof.
  intros Hd H. pose proof (records_kept _ c Hd w eq_refl) as Hw. unfold wp in Hw. rewrite H in Hw. by injection Hw.
Qed.

Lemma deploy_records o a w w' :
  AddOwnedContract o a w = (Ok (), w') →
  ∃ id, k_next (kw_store w) = Some id ∧ k_next (kw_store w') = Some (u64 (id + 1)) ∧
    k_records (kw_store w') = <[ContractRecordKey a := mkRecord (Some o) a id]> (k_records (kw_store w)).
Proof.
  intros H. unfold AddOwnedContract in H. apply bind_inv in H as (n & w1 & [-> ->]%from_store_ok & H).
  destruct (k_next (kw_store w)) as [id|]; [|done]. injection H as <-. by exists id.
Qed.

Lemma kcall_owners me c w w' :
  kcall_ok me c → owners_ok (kw_store w) → run_kcall c w = (Ok (), w') → owners_ok (kw_store w').
Proof.
  intros Hok Hown H. destruct (deploys_contract c) eqn:Hd.
  - destruct c; try done. apply deploy_records in H as (id & _ & _ & Hr). unfold owners_ok. rewrite Hr.
    apply map_Forall_insert_2; [apply Hok|done].
  - unfold owners_ok. by rewrite (proj1 (kcall_records c w w' Hd H)).
Qed.

(** ** Histories *)

(** A call that succeeds, or coins that are moved by somebody else than the contract. *)
Definition kstep (me : Address) (ok : World → KCall → Prop) w w' : Prop :=
  (∃ c, kcall_ok me c ∧ ok w c ∧ run_kcall c w = (Ok (), w')) ∨
  kw_store w' = kw_store w ∧ coin_wf (kw_coin w') ∧ balance (kw_coin w) me <= balance (kw_coin w') me.

Definition empty_kstore (p : P) : KStore P := mkKStore None None None ∅ None None ∅ ∅ None p.

(** The state that [Init] leaves; nobody is given coins. *)
Definition init_ok (req : KarmaInitRequest) : Prop :=
  rewards_ok (ki_Sources req) ∧
  Forall (λ u, from_option wf_address True u.1 ∧ counted u.2 ∧ CoinDeployToken ∉ ks_Name <$> u.2) (ki_Users req).
Definition kinitial w : Prop :=
  ∃ req coin, init_ok req ∧ coin_wf coin ∧ Init req (mkKWorld (empty_kstore perm_none) coin) = (Ok (), w).
Definition kreachable (me : Address) (ok : World → KCall → Prop) w : Prop := ∃ w0, kinitial w0 ∧ rtc (kstep me ok) w0 w.

Lemma effect_coin me c srcs w w' : effect me c srcs w w' → coin_wf (kw_coin w) → coin_wf (kw_coin w').
Proof. intros [a st _ _ _ _ _ Hcoin|srcs' _ _ -> _|_ _ ->] Hwf; [by apply Hcoin|done..]. Qed.

Definition good me w : Prop := wf_address me ∧ kinv w ∧ coin_wf (kw_coin w).

Lemma kstep_good me ok w w' : kstep me ok w w' → good me w → good me w'.
Proof.
  intros [(c & Hc & _ & H)|(Hs & Hwf & _)] (Hme & [Hown (srcs & Hsrc & Hu)] & Hcoin).
  2:{ split_and!; [done| |done]. split; rewrite Hs; eauto. }
  pose proof (kcall_effect me c srcs w w' Hme Hc Hcoin Hown Hsrc Hu H) as He.
  split_and!; [done| |by eapply effect_coin]. split; [by eapply kcall_owners|by eapply effect_users].
Qed.

Lemma kstep_backed me ok w w' :
  (∀ w c, ok w c → awards_only c) → kstep me ok w w' → good me w → backed me w → backed me w'.
Proof.
  intros Haw [(c & Hc & Hok & H)|(Hs & Hwf & Hb)] (Hme & [Hown (srcs & Hsrc & Hu)] & Hcoin) Hbk.
  - eapply effect_backed; [by eapply Haw|by eapply kcall_effect|done].
  - destruct Hbk as [_ Hd]. split; [done|]. rewrite Hs. lia.
Qed.

(** The users that [Init] sets up. *)
Lemma init_users srcs users w w' :
  k_sources (kw_store w) = Some srcs → rewards_ok srcs → users_ok (k_users (kw_store w)) srcs → deposited (kw_store w) = 0 →
  Forall (λ u : option Address * list KarmaSource, from_option wf_address True u.1 ∧ counted u.2 ∧
     CoinDeployToken ∉ ks_Name <$> u.2) users →
  forM users (λ u, userAddr ← deref u.1; addKarma userAddr u.2) w = (Ok (), w') →
  k_sources (kw_store w') = Some srcs ∧ users_ok (k_users (kw_store w')) srcs ∧ deposited (kw_store w') = 0 ∧
  k_records (kw_store w') = k_records (kw_store w) ∧ kw_coin w' = kw_coin w ∧
  k_active (kw_store w') = k_active (kw_store w) ∧ k_next (kw_store w') = k_next (kw_store w) ∧
  (∀ b, NumOwnedContracts (GetUserState (kw_store w') b) = NumOwnedContracts (GetUserState (kw_store w) b)).
Proof.
  intros Hs Hr Hu Hd Hall. revert w Hs Hu Hd. induction Hall as [|[o l] users (Ha & Hl & Hn) _ IH]; intros w Hs Hu Hd H.
  - by injection H as <-.
  - cbn [forM foldM] in H. apply bind_inv in H as ([] & w1 & Hadd & H).
    apply bind_inv in Hadd as (a & w2 & [Ho ->]%deref_inv & Hadd). cbn in Ho, Ha, Hl, Hn. subst o.
    destruct (addKarma_run a l w srcs Hs Hu Hl) as (l' & Hl' & Hok & Hrun). cbn in Hadd. rewrite Hrun in Hadd. injection Hadd as <-.
    apply IH in H as (H1 & H2 & H3 & H4 & H5 & H6 & H7 & H8); [split_and!; try done|done|by apply users_ok_put, recalculated_ok|].
    { intros b. rewrite H8. unfold GetUserState. cbn. destruct (decide (b = a)) as [->|Hne]; [by rewrite lookup_insert_eq|].
      rewrite lookup_insert_ne; [done|]. intros Heq. by apply UserStateKey_inj in Heq. }
    unfold deposited. cbn. rewrite deposited_insert, Hd. cbn. rewrite (no_coin_added l _ l' Hn Hl').
    unfold sources_of, GetUserState. destruct (k_users (kw_store w) !! UserStateKey a); cbn; [lia|done].
Qed.

Record initial_shape srcs w : Prop := {
  is_sources : k_sources (kw_store w) = Some srcs;
  is_users : users_ok (k_users (kw_store w)) srcs;
  is_deposited : deposited (kw_store w) = 0;
  is_records : k_records (kw_store w) = ∅;
  is_active_keys : k_active (kw_store w) = ∅;
  is_next : k_next (kw_store w) = Some 1;
  is_counts b : NumOwnedContracts (GetUserState (kw_store w) b) = 0;
  is_coin : coin_wf (kw_coin w);
}.

Lemma kinitial_shape w : kinitial w → ∃ srcs, initial_shape srcs w.
Proof.
  intros (req & coin & [Hr Hall] & Hwf & H). unfold Init in H.
  set (srcs := if existsb _ _ then _ else _) in H.
  assert (Hr' : rewards_ok srcs).
  { unfold srcs. destruct (existsb _ _); [done|]. apply Forall_app. split; [done|]. by repeat constructor. }
  apply bind_inv in H as ([] & w1 & [= <-] & H). apply bind_inv in H as ([] & w1 & [= <-] & H).
  apply bind_inv in H as ([] & w1 & Ho & H). set (w0 := mkKWorld _ _) in Ho.
  assert (Hrest : same_rest w0 w1).
  { destruct (ki_Oracle req) as [o|]; [|injection Ho as <-; done].
    pose proof (registerOracle_rest w0 (Some o) None w0 ltac:(done)) as Hw. unfold wp in Hw. by rewrite Ho in Hw. }
  destruct Hrest as (Hs & Hu & Hrec & Hact & Hn & Hc). cbn in Hs, Hu, Hrec, Hact, Hn, Hc.
  apply bind_inv in H as ([] & w2 & Hloop & H). injection H as <-. exists srcs.
  apply (init_users srcs) in Hloop as (H1 & H2 & H3 & H4 & H5 & H6 & H7 & H8); [|done|done| | |done].
  - split; cbn; [done..|by rewrite H4|by rewrite H6|by rewrite H7| |by rewrite H5, Hc].
    intros b. transitivity (NumOwnedContracts (GetUserState (kw_store w2) b)); [done|]. rewrite H8. unfold GetUserState. by rewrite Hu.
  - rewrite Hu. split; [done|apply map_Forall_empty..].
  - unfold deposited. rewrite Hu. apply map_sumZ_empty.
Qed.

Lemma kinitial_inv me w : wf_address me → kinitial w → good me w ∧ backed me w.
Proof.
  intros Hme [srcs [H1 H2 H3 H4 _ _ _ H5]]%kinitial_shape. split.
  - split_and!; [done| |done]. split; [unfold owners_ok; rewrite H4; apply map_Forall_empty|by exists srcs].
  - split; [done|]. rewrite H3. by apply balance_nonneg.
Qed.

Lemma kreachable_good me ok w : wf_address me → kreachable me ok w → good me w.
Proof.
  intros Hme (w0 & H0 & Hs). apply (kinitial_inv me) in H0 as [Hg _]; [|done].
  revert Hg. induction Hs; eauto using kstep_good.
Qed.

(** Coins that the contract's account covers can be withdrawn. *)
Lemma backed_withdraw ctx w a x :
  good (ctx_contract ctx) w → backed (ctx_contract ctx) w → is_Some (ctx_registry ctx !! "coin") →
  wf_address a → a ≠ ctx_contract ctx → 0 <= x <= coins (sources_of (kw_store w) a) →
  ∃ w', WithdrawCoin ctx (Some a) (Some x) w = (Ok (), w') ∧
    balance (kw_coin w') a = balance (kw_coin w) a + x ∧
    coins (sources_of (kw_store w') a) = coins (sources_of (kw_store w) a) - x.
Proof.
  intros (Hme & [_ (srcs & Hsrc & Hu)] & Hwf) [_ Hb] [coin Hcoin] Ha Hne Hx.
  assert (Hcov : x <= balance (kw_coin w) (ctx_contract ctx)).
  { etrans; [apply Hx|]. etrans; [|exact Hb]. unfold sources_of, GetUserState.
    destruct (k_users (kw_store w) !! UserStateKey a) as [st|] eqn:Hst; cbn [default].
    - apply (map_sumZ_lookup_le (λ st, coins (SourceStates st)) _ (UserStateKey a) st); [|done].
      intros k v Hv. apply coins_nonneg. by apply (uo_states _ _ Hu k v).
    - apply map_sumZ_nonneg. intros k v Hv. apply coins_nonneg. by apply (uo_states _ _ Hu k v). }
  unfold WithdrawCoin, ctx_resolve. rewrite Hcoin. m_eval. unfold on_coin, zoom. rewrite Transfer_eq by done.
  cbn [coin_ctx ctx_sender]. rewrite (proj2 (Z.ltb_ge _ _)) by lia. m_eval. set (w1 := mkKWorld _ _).
  pose proof (modifyCoins_run a (- x) w1 srcs Hsrc Hu) as Hm.
  change (sources_of (kw_store w1) a) with (sources_of (kw_store w) a) in Hm. rewrite decide_True in Hm by lia.
  destruct Hm as (l & Hl & Hc & ->). eexists. split; [done|]. split.
  - cbn. rewrite balance_move by done. rewrite decide_False, decide_True by done. done.
  - unfold sources_of at 1, GetUserState at 1. cbn. rewrite lookup_insert_eq. cbn. rewrite Hc. lia.
Qed.
End Karma.

Section Worth.
Context {LIB : DiademLib} {SPEC : DiademLibSpec} {TXL : TxLib} {KLIB : KarmaLib} {KSPEC : KarmaLibSpec} {RANGE : RangeOrder}
  {RSPEC : RangeOrderSpec}.
Context {P : Type} {PERM : Permissions P}.
Abbreviation World := (KWorld P).
Abbreviation KM := (M World).
Implicit Types (w : World) (s : KStore P) (a : Address) (st : KarmaState) (srcs : list KarmaSourceReward).

(** C25. The karma of a user is what its sources are worth: at any time and for
    either target, the total that [GetUserKarma] reads is the sum over the sources
    allowed at that time of reward times count, although it was stored when some
    source of the user, or the list of sources, last changed. *)
Theorem karma_is_worth_of_sources me w a target :
  wf_address me → kreachable me (λ _ _, True) w → target = Target_DEPLOY ∨ target = Target_CALL →
  GetUserKarma (kw_store w) a target = Ok (karma_worth target (GetSources (kw_store w)) (sources_of (kw_store w) a)).
Proof.
  intros Hme Hre Ht. destruct (kreachable_good true me _ w Hme Hre) as (_ & [_ (srcs & Hsrc & Hu)] & _).
  pose proof (GetUserState_ok true w srcs a Hu) as [_ Htot]. unfold GetUserKarma, GetSources, sources_of. rewrite Hsrc. cbn [default].
  destruct Htot as [(-> & -> & _)|[-> ->]].
  - f_equal. unfold karma_worth. clear. cbn. induction srcs as [|c srcs IH]; [done|]. cbn. exact IH.
  - by destruct Ht as [-> | ->].
Qed.
End Worth.
