(* ===== verification/KarmaContracts.v ===== *)
(** * Contracts that users own

    The records of contracts, the keys of the active ones and the number that each
    user's state holds agree in every world that calls reach. *)

From S2P Require Import Prelude Contract Coin Store Middleware Karma KarmaSources KarmaUpkeep KarmaTheorems.

#[export] Instance lessContractId_order : LessOrder lessContractId.
Proof.
  split; unfold lessContractId; intros x y.
  - rewrite Z.ltb_lt, Z.ltb_ge. lia.
  - intros z. rewrite !Z.ltb_ge. lia.
Qed.

Section Contracts.
Context {LIB : DiademLib} {SPEC : DiademLibSpec} {TXL : TxLib} {KLIB : KarmaLib} {KSPEC : KarmaLibSpec} {RANGE : RangeOrder}
  {RSPEC : RangeOrderSpec}.
Context {P : Type} {PERM : Permissions P}.
Abbreviation World := (KWorld P).
Abbreviation KM := (M World).
Implicit Types (w : World) (s : KStore P) (a o : Address) (st : KarmaState) (r : KarmaContractRecord).

Definition owner_prefix a : bytes := prefix_key ["active"; address_bytes a].
Definition active_of s a : gmap bytes Address := default ∅ (k_active s !! owner_prefix a).
Definition owned_count s a : Z := NumOwnedContracts (GetUserState s a).

(** A record of the contract [rec_Address r] with owner [a]. *)
Definition owned_by s a r : Prop :=
  k_records s !! ContractRecordKey (rec_Address r) = Some r ∧ rec_Owner r = Some a.
Definition active_record s a r : Prop :=
  owned_by s a r ∧ is_Some (active_of s a !! marshal_contract_id (rec_ContractId r)).

(** Records have ids of their own below the next id; every active key is that of a
    record. *)
Record links_ok s : Prop := {
  lk_next : ∃ next, k_next s = Some next ∧ 0 < next < 2 ^ 63 ∧
    map_Forall (λ _ r, 0 < rec_ContractId r < next) (k_records s);
  lk_records : map_Forall (λ k r, k = ContractRecordKey (rec_Address r) ∧ wf_address (rec_Address r) ∧
    ∃ o, rec_Owner r = Some o ∧ wf_address o) (k_records s);
  lk_ids : ∀ k k' r r', k_records s !! k = Some r → k_records s !! k' = Some r' →
    rec_ContractId r = rec_ContractId r' → r = r';
  lk_active : ∀ a key c, wf_address a → active_of s a !! key = Some c →
    ∃ r, owned_by s a r ∧ rec_Address r = c ∧ key = marshal_contract_id (rec_ContractId r);
}.

(** The number in a user's state is that of its active contracts. *)
Definition counts_ok s : Prop := ∀ a, wf_address a → owned_count s a = Z.of_nat (size (active_of s a)).

Lemma owner_prefix_inj a b : wf_address a → wf_address b → owner_prefix a = owner_prefix b → a = b.
Proof. apply prefix_key_inj2. Qed.

Lemma record_key_inj a b : wf_address a → wf_address b → ContractRecordKey a = ContractRecordKey b → a = b.
Proof. apply prefix_key_inj2. Qed.

Lemma record_id_range s k r : links_ok s → k_records s !! k = Some r → 0 <= rec_ContractId r < 2 ^ 64.
Proof. intros [(next & _ & Hn & Hall) _ _ _] Hr. pose proof (Hall _ _ Hr) as H. cbn in H. lia. Qed.

Lemma same_key_same_record s a b r r' :
  links_ok s → owned_by s a r → owned_by s b r' →
  marshal_contract_id (rec_ContractId r) = marshal_contract_id (rec_ContractId r') → r = r'.
Proof.
  intros Hl [Hr _] [Hr' _] Heq. eapply (lk_ids _ Hl); [done..|].
  apply marshal_contract_id_inj; [by eapply record_id_range..|done].
Qed.

(** ** The active contracts of a user as records *)

Definition record_at s (c : Address) : KarmaContractRecord :=
  default (mkRecord None (mkAddress "" "") 0) (k_records s !! ContractRecordKey c).

Lemma load_records_eq s (l : list Address) :
  (∀ c, c ∈ l → is_Some (k_records s !! ContractRecordKey c)) → load_records l s = Ok (record_at s <$> l).
Proof.
  induction l as [|c l IH]; intros H; [done|]. cbn. unfold GetContractRecord, record_at at 1.
  destruct (H c) as [r Hr]; [by left|]. rewrite Hr. cbn. rewrite IH; [done|]. intros c' Hc'. apply H. by right.
Qed.

Record active_list s a (l : list KarmaContractRecord) : Prop := {
  al_mem : ∀ r, r ∈ l ↔ active_record s a r;
  al_ids : NoDup (rec_ContractId <$> l);
  al_length : length l = size (active_of s a);
}.

Lemma active_records s a :
  links_ok s → wf_address a → ∃ l, GetActiveContractRecords a s = Ok l ∧ active_list s a l.
Proof.
  intros Hl Ha. unfold GetActiveContractRecords. change (k_active s !! prefix_key _) with (k_active s !! owner_prefix a).
  change (default ∅ (k_active s !! owner_prefix a)) with (active_of s a).
  set (kvs := range_of (active_of s a)).
  assert (Hkvs : ∀ key c, (key, c) ∈ kvs ↔ active_of s a !! key = Some c).
  { intros key c. unfold kvs. rewrite range_of_perm. apply elem_of_map_to_list. }
  assert (Hrec : ∀ key c, (key, c) ∈ kvs → ∃ r, owned_by s a r ∧ rec_Address r = c ∧
      key = marshal_contract_id (rec_ContractId r) ∧ record_at s c = r).
  { intros key c Hin%Hkvs. destruct (lk_active _ Hl a key c Ha Hin) as (r & Hr & Hc & Hk). exists r.
    split_and!; [done..|]. unfold record_at. destruct Hr as [Hr _]. by rewrite <- Hc, Hr. }
  rewrite load_records_eq.
  2:{ intros c [[key c'] [-> Hin]]%list_elem_of_fmap. destruct (Hrec _ _ Hin) as (r & [Hr _] & <- & _). by exists r. }
  eexists. split; [done|]. rewrite <- list_fmap_compose. split.
  - intros r. rewrite list_elem_of_fmap. split.
    + intros [[key c] [-> Hin]]. destruct (Hrec _ _ Hin) as (r & Hr & Hc & Hk & Hat). cbn. rewrite Hat.
      split; [done|]. rewrite <- Hk. exists c. by apply Hkvs.
    + intros [Hr [c Hc]]. destruct (lk_active _ Hl a _ c Ha Hc) as (r' & Hr' & Hc' & Hk).
      apply (same_key_same_record s a a r r' Hl Hr Hr') in Hk as <-.
      exists (marshal_contract_id (rec_ContractId r), c). split; [|by apply Hkvs]. cbn. unfold record_at.
      destruct Hr as [Hr _]. by rewrite <- Hc', Hr.
  - assert (Hkeys : marshal_contract_id <$> (rec_ContractId <$> (record_at s ∘ snd <$> kvs)) = kvs.*1).
    { rewrite <- !list_fmap_compose. apply list_fmap_ext. intros i [key c] Hi%list_elem_of_lookup_2.
      destruct (Hrec _ _ Hi) as (r & _ & _ & Hk & Hat). cbn. by rewrite Hat. }
    eapply NoDup_fmap_1. rewrite Hkeys. unfold kvs. rewrite range_of_perm. apply NoDup_fst_map_to_list.
  - rewrite length_fmap. unfold kvs. by rewrite range_of_perm, length_map_to_list.
Qed.

(** A user has fewer active contracts than were ever recorded. *)
Lemma active_bound s a next :
  links_ok s → wf_address a → k_next s = Some next → Z.of_nat (size (active_of s a)) < next.
Proof.
  intros Hl Ha Hn. destruct (active_records s a Hl Ha) as (l & _ & [Hmem Hnd Hlen]).
  destruct (lk_next _ Hl) as (next' & Hn' & Hpos & Hall). assert (next' = next) as -> by congruence.
  rewrite <- Hlen, <- (length_fmap rec_ContractId l).
  assert (Hsub : rec_ContractId <$> l ⊆+ seqZ 1 (next - 1)).
  { apply NoDup_submseteq; [done|]. intros id [r [-> Hr%Hmem]]%list_elem_of_fmap. destruct Hr as [[Hr _] _].
    apply elem_of_seqZ. pose proof (Hall _ _ Hr) as H. cbn in H. lia. }
  apply submseteq_length in Hsub. rewrite length_seqZ in Hsub. lia.
Qed.

(** ** Calls *)

Lemma links_same s s' :
  k_next s' = k_next s → k_records s' = k_records s → k_active s' = k_active s → links_ok s → links_ok s'.
Proof.
  intros Hn Hr Ha [H1 H2 H3 H4]. split.
  - by rewrite Hn, Hr.
  - by rewrite Hr.
  - by rewrite Hr.
  - unfold owned_by, active_of in *. by rewrite Ha, Hr.
Qed.

Lemma active_of_put s s' o (m : gmap bytes Address) a :
  k_active s' = <[owner_prefix o := m]> (k_active s) → wf_address o → wf_address a →
  active_of s' a = if decide (a = o) then m else active_of s a.
Proof.
  intros Hs Ho Ha. unfold active_of. rewrite Hs. case_decide as Heq.
  - subst. by rewrite lookup_insert_eq.
  - rewrite lookup_insert_ne; [done|]. intros H. by apply owner_prefix_inj in H.
Qed.

(** Keys of the owner's records may be added and keys may be removed. *)
Lemma links_put s s' o (m : gmap bytes Address) :
  links_ok s → wf_address o → k_next s' = k_next s → k_records s' = k_records s →
  k_active s' = <[owner_prefix o := m]> (k_active s) →
  (∀ key c, m !! key = Some c → active_of s o !! key = Some c ∨
     ∃ r, owned_by s o r ∧ rec_Address r = c ∧ key = marshal_contract_id (rec_ContractId r)) →
  links_ok s'.
Proof.
  intros [H1 H2 H3 H4] Ho Hn Hr Hact Hm. split.
  - by rewrite Hn, Hr.
  - by rewrite Hr.
  - by rewrite Hr.
  - intros a key c Ha. rewrite (active_of_put s s' o m a) by done. unfold owned_by. rewrite Hr. case_decide as Heq.
    + subst a. intros [H|H]%Hm; [by apply H4|exact H].
    + by apply H4.
Qed.

Lemma GetUserState_put a b st w :
  GetUserState (kw_store (put_state a st w)) b = if decide (b = a) then st else GetUserState (kw_store w) b.
Proof.
  unfold GetUserState. cbn. case_decide as Heq.
  - subst. by rewrite lookup_insert_eq.
  - rewrite lookup_insert_ne; [done|]. intros H. by apply UserStateKey_inj in H.
Qed.

(** The number of an owner changes with the size of its set of keys. *)
Lemma counts_put s s' o (m : gmap bytes Address) (d : Z) :
  counts_ok s → wf_address o → k_active s' = <[owner_prefix o := m]> (k_active s) →
  (∀ a, owned_count s' a = if decide (a = o) then owned_count s o + d else owned_count s a) →
  Z.of_nat (size m) = Z.of_nat (size (active_of s o)) + d → counts_ok s'.
Proof.
  intros Hc Ho Hact Hcnt Hm a Ha. rewrite Hcnt, (active_of_put s s' o m a) by done.
  case_decide as Heq; [rewrite Hc by done; lia|by apply Hc].
Qed.

Definition contracts_ok w : Prop := links_ok (kw_store w) ∧ counts_ok (kw_store w).

Lemma owned_small w a d :
  contracts_ok w → wf_address a → -1 <= d <= 1 → i64 (owned_count (kw_store w) a + d) = owned_count (kw_store w) a + d.
Proof.
  intros [Hl Hc] Ha Hd. apply i64_small. rewrite Hc by done. destruct (lk_next _ Hl) as (next & Hn & Hpos & _).
  pose proof (active_bound _ a next Hl Ha Hn). lia.
Qed.

Definition incremented a (x : Z) w : World :=
  put_state a (stored_state (with_NumOwnedContracts (i64 (owned_count (kw_store w) a + x)) (GetUserState (kw_store w) a))) w.

Lemma increment_eq a x w : incrementOwnedContracts a x w = (Ok (), incremented a x w).
Proof. reflexivity. Qed.

Lemma owned_incremented a b x w :
  owned_count (kw_store (incremented a x w)) b =
    if decide (b = a) then i64 (owned_count (kw_store w) a + x) else owned_count (kw_store w) b.
Proof. unfold owned_count at 1, incremented. rewrite GetUserState_put. by case_decide. Qed.

Lemma owned_by_record w c r :
  links_ok (kw_store w) → k_records (kw_store w) !! ContractRecordKey c = Some r →
  ∃ o, owned_by (kw_store w) o r ∧ wf_address o ∧ rec_Owner r = Some o.
Proof.
  intros Hl Hr. destruct (lk_records _ Hl _ _ Hr) as (Hk & _ & o & Ho & Hwf). exists o. split_and!; [|done..].
  split; [by rewrite <- Hk|done].
Qed.

Definition with_active o (m : gmap bytes Address) w : World :=
  mkKWorld (set_contracts (k_records (kw_store w)) (<[owner_prefix o := m]> (k_active (kw_store w))) (kw_store w)) (kw_coin w).

(** A change of an owner's keys together with its number. *)
Lemma contracts_put o (m : gmap bytes Address) d w :
  contracts_ok w → wf_address o → -1 <= d <= 1 →
  Z.of_nat (size m) = Z.of_nat (size (active_of (kw_store w) o)) + d →
  (∀ key c, m !! key = Some c → active_of (kw_store w) o !! key = Some c ∨
     ∃ r, owned_by (kw_store w) o r ∧ rec_Address r = c ∧ key = marshal_contract_id (rec_ContractId r)) →
  contracts_ok (incremented o d (with_active o m w)).
Proof.
  intros Hok Ho Hd Hsize Hm. split.
  - eapply (links_put (kw_store w) _ o m); [apply Hok|done..].
  - eapply (counts_put (kw_store w) _ o m d); [apply Hok|done|done| |done].
    intros b. rewrite owned_incremented. change (owned_count (kw_store (with_active o m w))) with (owned_count (kw_store w)).
    case_decide; [by apply owned_small|done].
Qed.

Definition key_of r : bytes := marshal_contract_id (rec_ContractId r).

Lemma is_active_eq s o r : is_active (ContractActiveKey o (rec_ContractId r)) s = bool_decide (is_Some (active_of s o !! key_of r)).
Proof. unfold is_active, active_of, owner_prefix. cbn. by destruct (k_active s !! _). Qed.

Lemma SetActive_inv c w w' :
  links_ok (kw_store w) → SetActive c w = (Ok (), w') →
  w' = w ∨ ∃ o r, wf_address o ∧ owned_by (kw_store w) o r ∧ active_of (kw_store w) o !! key_of r = None ∧
    w' = incremented o 1 (with_active o (<[key_of r := rec_Address r]> (active_of (kw_store w) o)) w).
Proof.
  intros Hl H. apply record_inv in H as (a & r & -> & Hr & H).
  destruct (owned_by_record w a r) as (o & Hown & Ho & Hro); [done..|]. rewrite Hro in H.
  apply bind_inv in H as (act & w1 & [-> ->]%from_store_ok & H). rewrite is_active_eq in H. case_bool_decide as Hact.
  { left. by injection H as <-. }
  apply eq_None_not_Some in Hact. right. exists o, r. split_and!; [done..|]. injection H as <-. reflexivity.
Qed.

Lemma added_key o r s key x :
  owned_by s o r → <[key_of r := rec_Address r]> (active_of s o) !! key = Some x →
  active_of s o !! key = Some x ∨ ∃ r, owned_by s o r ∧ rec_Address r = x ∧ key = marshal_contract_id (rec_ContractId r).
Proof. intros Hown [[<- <-]|[_ Hx]]%lookup_insert_Some; [right; by exists r|by left]. Qed.

Lemma SetActive_links c w w' : links_ok (kw_store w) → SetActive c w = (Ok (), w') → links_ok (kw_store w').
Proof.
  intros Hl H. apply SetActive_inv in H as [->|(o & r & Ho & Hown & Hact & ->)]; [done| |done].
  eapply (links_put (kw_store w) _ o); [done..|]. intros key x. by apply added_key.
Qed.

Lemma SetActive_contracts c w w' : contracts_ok w → SetActive c w = (Ok (), w') → contracts_ok w'.
Proof.
  intros Hok H. apply SetActive_inv in H as [->|(o & r & Ho & Hown & Hact & ->)]; [done| |apply Hok].
  apply contracts_put; [done..|lia| |].
  - rewrite map_size_insert_None by done. lia.
  - intros key x. by apply added_key.
Qed.

(** A contract made inactive. *)
Definition deactivated o r w : World :=
  incremented o (-1) (with_active o (delete (key_of r) (active_of (kw_store w) o)) w).

Lemma DeactivateContract_eq o r w :
  rec_Owner r = Some o →
  DeactivateContract r w = (Ok (), if decide (is_Some (active_of (kw_store w) o !! key_of r)) then deactivated o r w else w).
Proof.
  intros Hro. unfold DeactivateContract. rewrite Hro. unfold from_store. m_eval. rewrite is_active_eq.
  case_decide as Hd; [rewrite bool_decide_true by done|rewrite bool_decide_false by done]; reflexivity.
Qed.

Lemma deactivated_contracts o r w :
  contracts_ok w → wf_address o → is_Some (active_of (kw_store w) o !! key_of r) → contracts_ok (deactivated o r w).
Proof.
  intros Hok Ho Hact. apply contracts_put; [done..|lia| |].
  - rewrite map_size_delete_Some by done. destruct Hact as [c Hc].
    assert (size (active_of (kw_store w) o) ≠ 0%nat).
    { intros H0. apply map_size_empty_inv in H0. by rewrite H0 in Hc. }
    lia.
  - intros key x [_ Hx]%lookup_delete_Some. by left.
Qed.

Lemma SetInactive_links c w w' : links_ok (kw_store w) → SetInactive c w = (Ok (), w') → links_ok (kw_store w').
Proof.
  intros Hl H. apply record_inv in H as (a & r & -> & Hr & H).
  destruct (owned_by_record w a r) as (o & Hown & Ho & Hro); [done..|].
  rewrite (DeactivateContract_eq o) in H by done. injection H as <-. case_decide; [|done].
  eapply (links_put (kw_store w) _ o); [done..|]. intros key x [_ Hx]%lookup_delete_Some. by left.
Qed.

Lemma SetInactive_contracts c w w' : contracts_ok w → SetInactive c w = (Ok (), w') → contracts_ok w'.
Proof.
  intros Hok H. apply record_inv in H as (a & r & -> & Hr & H).
  destruct (owned_by_record w a r) as (o & Hown & Ho & Hro); [apply Hok|done|].
  rewrite (DeactivateContract_eq o) in H by done. injection H as <-. case_decide; [by apply deactivated_contracts|done].
Qed.

(** Deployments are of new contracts, fewer than 2^63 in all. *)
Definition fresh_deploy w (c : KCall) : Prop :=
  match c with
  | CallAddOwnedContract _ a =>
      k_records (kw_store w) !! ContractRecordKey a = None ∧ default 0 (k_next (kw_store w)) < 2 ^ 63 - 1
  | _ => True
  end.

Definition deployed o (c : Address) (id : Z) w : World :=
  let s := kw_store (incremented o 1 w) in
  mkKWorld (set_contracts (<[ContractRecordKey c := mkRecord (Some o) c id]> (k_records s))
    (<[owner_prefix o := <[marshal_contract_id id := c]> (active_of s o)]> (k_active s)) (set_next (u64 (id + 1)) s)) (kw_coin w).

Lemma AddOwnedContract_eq o c w id :
  k_next (kw_store w) = Some id → AddOwnedContract o c w = (Ok (), deployed o c id w).
Proof. intros Hn. unfold AddOwnedContract, from_store. m_eval. rewrite Hn. reflexivity. Qed.

Lemma new_key_unused s o id :
  links_ok s → wf_address o → k_next s = Some id → active_of s o !! marshal_contract_id id = None.
Proof.
  intros Hl Ho Hn. destruct (_ !! _) as [c|] eqn:Hc; [|done]. exfalso.
  destruct (lk_active _ Hl o _ c Ho Hc) as (r & [Hr _] & _ & Hk).
  destruct (lk_next _ Hl) as (next & Hn' & Hpos & Hall). pose proof (Hall _ _ Hr) as Hid. cbn in Hid.
  assert (next = id) as -> by congruence. apply marshal_contract_id_inj in Hk; lia.
Qed.

Lemma deployed_links o c id w :
  links_ok (kw_store w) → wf_address o → wf_address c → k_next (kw_store w) = Some id → id < 2 ^ 63 - 1 →
  k_records (kw_store w) !! ContractRecordKey c = None → links_ok (kw_store (deployed o c id w)).
Proof.
  intros Hl Ho Hc Hn Hid Hfresh. destruct (lk_next _ Hl) as (next & Hn' & Hpos & Hall).
  assert (next = id) as -> by congruence. clear Hn'. split; cbn.
  - exists (id + 1). rewrite u64_small by lia. split_and!; [done|lia|lia|].
    apply map_Forall_insert_2; [cbn; lia|]. intros k r Hr. specialize (Hall k r Hr). cbn in *. lia.
  - apply map_Forall_insert_2; [|apply Hl]. cbn. split_and!; [done..|]. by exists o.
  - intros k k' r r' [[_ <-]|[_ Hr]]%lookup_insert_Some [[_ <-]|[_ Hr']]%lookup_insert_Some; cbn; try done.
    + pose proof (Hall _ _ Hr') as H. cbn in H. lia.
    + pose proof (Hall _ _ Hr) as H. cbn in H. lia.
    + by apply (lk_ids _ Hl k k').
  - intros a key x Ha. erewrite (active_of_put (kw_store w) _ o _ a) by (done || reflexivity). unfold owned_by. cbn.
    assert (Hold : active_of (kw_store w) a !! key = Some x → ∃ r, (<[ContractRecordKey c := mkRecord (Some o) c id]>
        (k_records (kw_store w)) !! ContractRecordKey (rec_Address r) = Some r ∧ rec_Owner r = Some a) ∧
        rec_Address r = x ∧ key = marshal_contract_id (rec_ContractId r)).
    { intros Hx. destruct (lk_active _ Hl a key x Ha Hx) as (r & [Hr Hro] & Hrx & Hk). exists r. split_and!; [|done..].
      rewrite lookup_insert_ne; [done|]. intros Heq. by rewrite <- Heq, Hfresh in Hr. }
    case_decide as Heq; [|exact Hold]. subst a. intros [[<- <-]|[_ Hx]]%lookup_insert_Some; [|by apply Hold].
    exists (mkRecord (Some o) c id). cbn. by rewrite lookup_insert_eq.
Qed.

Lemma deployed_contracts o c id w :
  contracts_ok w → wf_address o → wf_address c → k_next (kw_store w) = Some id → id < 2 ^ 63 - 1 →
  k_records (kw_store w) !! ContractRecordKey c = None → contracts_ok (deployed o c id w).
Proof.
  intros Hok Ho Hc Hn Hid Hfresh. split; [by apply deployed_links; [apply Hok|..]|].
  eapply (counts_put (kw_store w) _ o (<[marshal_contract_id id := c]> (active_of (kw_store w) o)) 1);
    [apply Hok|done|reflexivity| |].
  - intros a. change (owned_count (kw_store (deployed o c id w)) a) with (owned_count (kw_store (incremented o 1 w)) a).
    rewrite owned_incremented. case_decide; [by apply owned_small|done].
  - rewrite map_size_insert_None; [lia|]. apply new_key_unused; [apply Hok|done..].
Qed.

(** The other calls leave the contracts alone. *)
Lemma contracts_kept R c :
  changes_contracts c = false →
  preserves (λ w, (k_records (kw_store w), k_next (kw_store w), k_active (kw_store w)) = R) (run_kcall c : KM unit).
Proof.
  destruct c; intros Hd; try done; clear Hd; cbn [run_kcall];
    unfold AddKarma, addKarma, DeleteSourcesForUser, ResetSources, SetAllowedKarmaSources, updateKarmaCounts,
      UpdateOracle, registerOracle, DepositCoin, WithdrawCoin, modifyCountForUser, SetConfig, SetUpkeepParams,
      save_user, put_user, load_sources, has_permission, grant, revoke, from_store, on_store, on_coin, ctx_resolve; pres.
Qed.

Lemma effect_counts me c srcs w w' a :
  changes_contracts c = false → effect true me c srcs w w' → owned_count (kw_store w') a = owned_count (kw_store w) a.
Proof.
  intros Hc [b st _ _ _ Hu Hnum _|srcs' _ _ _ Hu|_ Hu _]; unfold owned_count, GetUserState.
  - rewrite Hu. destruct (decide (a = b)) as [->|Hne].
    + rewrite lookup_insert_eq. cbn. by rewrite Hnum.
    + rewrite lookup_insert_ne; [done|]. intros H. by apply UserStateKey_inj in H.
  - rewrite Hu. by destruct (k_users (kw_store w) !! UserStateKey a).
  - by rewrite Hu.
Qed.

Lemma kcall_contracts me c w w' :
  good true me w → kcall_ok me c → fresh_deploy w c → run_kcall c w = (Ok (), w') → contracts_ok w → contracts_ok w'.
Proof.
  intros (Hme & [Hown (srcs & Hsrc & Hu)] & Hcoin) Hok Hfresh H Hc.
  destruct (changes_contracts c) eqn:Hch.
  - destruct c as [| | | | | | | |c|c|o c]; try done.
    + by eapply SetActive_contracts.
    + by eapply SetInactive_contracts.
    + destruct (lk_next _ (proj1 Hc)) as (id & Hn & _). cbn [run_kcall] in H.
      rewrite (AddOwnedContract_eq o c w id Hn) in H. injection H as <-. destruct Hok as [Ho Hca].
      destruct Hfresh as [Hf Hb]. rewrite Hn in Hb. cbn in Hb. by apply deployed_contracts.
  - pose proof (kcall_effect true me c srcs w w' Hme Hok Hcoin Hown Hsrc Hu H) as He.
    pose proof (contracts_kept _ c Hch w eq_refl) as Hw. unfold wp in Hw. rewrite H in Hw. cbn in Hw. injection Hw as Hr Hn Ha.
    split; [by apply (links_same (kw_store w)); [..|apply Hc]|].
    intros a Hwf. rewrite (effect_counts me c srcs w w' a Hch He). unfold active_of. rewrite Ha. by apply Hc.
Qed.

Lemma kinitial_contracts w : kinitial w → contracts_ok w.
Proof.
  intros [srcs [_ _ _ Hr Ha Hn Hc _]]%(kinitial_shape true). split.
  - split; rewrite ?Hr.
    + exists 1. split_and!; [done|lia|lia|apply map_Forall_empty].
    + apply map_Forall_empty.
    + intros k k' r r' Hk. by rewrite lookup_empty in Hk.
    + intros a key c _. unfold active_of. by rewrite Ha, lookup_empty.
  - intros a _. unfold owned_count. rewrite Hc. unfold active_of. by rewrite Ha, lookup_empty.
Qed.

Lemma kreachable_contracts me w : wf_address me → kreachable me fresh_deploy w → contracts_ok w.
Proof.
  intros Hme (w0 & H0 & Hs).
  assert (Hinv : good true me w0 ∧ contracts_ok w0) by (split; [by apply kinitial_inv|by apply kinitial_contracts]).
  clear H0. revert Hinv. induction Hs as [|w1 w2 w3 Hstep _ IH]; [by intros [_ H]|]. intros [Hg Hc]. apply IH.
  split; [by eapply kstep_good|]. destruct Hstep as [(c & Hok & Hfresh & H)|(Hst & _)].
  - by eapply kcall_contracts.
  - unfold contracts_ok. by rewrite Hst.
Qed.

(** Users are charged for the contracts that they can call: in every world that
    calls reach, the number of contracts in a user's state is the number of records
    that [GetActiveContractRecords] finds for the user, and a contract of the user
    is among these exactly when [IsContractActive] says so. *)
Theorem owned_contracts_are_active me w a :
  wf_address me → kreachable me fresh_deploy w → wf_address a →
  ∃ l, GetActiveContractRecords a (kw_store w) = Ok l ∧ NoDup l ∧
    Z.of_nat (length l) = NumOwnedContracts (GetUserState (kw_store w) a) ∧
    ∀ c r, k_records (kw_store w) !! ContractRecordKey c = Some r → rec_Owner r = Some a →
      (IsContractActive c (kw_store w) = Ok true ↔ r ∈ l).
Proof.
  intros Hme Hre Ha. destruct (kreachable_contracts me w Hme Hre) as [Hl Hc].
  destruct (active_records (kw_store w) a Hl Ha) as (l & Hrun & [Hmem Hnd Hlen]). exists l. split_and!; [done| | |].
  - by eapply NoDup_fmap_1.
  - rewrite Hlen. symmetry. by apply Hc.
  - intros c r Hr Hro. rewrite Hmem. unfold IsContractActive. rewrite Hr, Hro, is_active_eq.
    destruct (lk_records _ Hl _ _ Hr) as (Hk & _). split.
    + intros [= Hact%bool_decide_eq_true]. split; [|done]. split; [by rewrite <- Hk|done].
    + intros [_ Hact]. by rewrite bool_decide_true.
Qed.
End Contracts.
