(* ===== verification/KarmaCharges.v ===== *)
(** * What upkeep charges

    [charge_user] says what upkeep does to one user as a function of the user's
    state and active contracts; [upkeepUser] does that ([upkeepUser_eq]).  From it
    follow what a user pays and which contracts become inactive, that the order
    in which Go's map of users is visited does not matter, and that the contract's
    account still covers the karma that came from deposits, so that it can be withdrawn. *)

From S2P Require Import Prelude Contract Coin Store Middleware Karma KarmaSources KarmaUpkeep KarmaTheorems KarmaContracts.

Section Charges.
Context {LIB : DiademLib} {SPEC : DiademLibSpec} {TXL : TxLib} {KLIB : KarmaLib} {KSPEC : KarmaLibSpec} {RANGE : RangeOrder}
  {RSPEC : RangeOrderSpec}.
Context {P : Type} {PERM : Permissions P}.
Abbreviation World := (KWorld P).
Abbreviation KM := (M World).
Implicit Types (w : World) (s : KStore P) (a : Address) (st : KarmaState) (srcs : list KarmaSourceReward).

(** The keys of [a] without those of the records [rs]. *)
Definition without_keys (rs : list KarmaContractRecord) (m : gmap bytes Address) : gmap bytes Address :=
  foldl (λ m r, delete (key_of r) m) m rs.

Definition inactivated a (rs : list KarmaContractRecord) w : World :=
  match rs with [] => w | _ => with_active a (without_keys rs (active_of (kw_store w) a)) w end.

Lemma put_state_incremented a st x w : put_state a st (incremented a x w) = put_state a st w.
Proof. unfold put_state, incremented. cbn. by rewrite insert_insert_eq. Qed.

Lemma active_of_with a m w : wf_address a → active_of (kw_store (with_active a m w)) a = m.
Proof. intros Ha. rewrite (active_of_put (kw_store w) _ a m a); [|done..]. by rewrite decide_True. Qed.

Lemma inactivated_cons a r rs w st :
  wf_address a → put_state a st (inactivated a rs (deactivated a r w)) = put_state a st (inactivated a (r :: rs) w).
Proof.
  intros Ha. unfold deactivated. destruct rs as [|r' rs]; [apply put_state_incremented|].
  set (w1 := incremented _ _ _).
  assert (Hact : active_of (kw_store w1) a = delete (key_of r) (active_of (kw_store w) a)).
  { change (active_of (kw_store w1) a) with (active_of (kw_store (with_active a (delete (key_of r) (active_of (kw_store w) a)) w)) a).
    by apply active_of_with. }
  unfold inactivated. rewrite Hact. unfold w1, incremented, put_state, with_active, without_keys. cbn.
  by rewrite !insert_insert_eq.
Qed.

(** Making active contracts of one user inactive. *)
Lemma setInactive_run a rs w :
  wf_address a → NoDup (key_of <$> rs) →
  Forall (λ r, rec_Owner r = Some a ∧ is_Some (active_of (kw_store w) a !! key_of r)) rs →
  ∃ w', setInactive rs w = (Ok (), w') ∧ ∀ st, put_state a st w' = put_state a st (inactivated a rs w).
Proof.
  intros Ha. revert w. induction rs as [|r rs IH]; intros w Hnd Hall; [by exists w|].
  cbn in Hnd. apply NoDup_cons in Hnd as [Hr Hnd]. apply Forall_cons in Hall as [[Hro Hact] Hall].
  destruct (IH (deactivated a r w) Hnd) as (w' & Hrun & Hput).
  { rewrite Forall_forall in Hall |- *. intros r' Hin. destruct (Hall r' Hin) as [Hro' [c Hc]]. split; [done|].
    exists c. change (active_of (kw_store (deactivated a r w)) a) with
      (active_of (kw_store (with_active a (delete (key_of r) (active_of (kw_store w) a)) w)) a).
    rewrite active_of_with by done. rewrite lookup_delete_ne; [done|]. intros Heq. apply Hr. rewrite Heq.
    by apply list_elem_of_fmap_2. }
  exists w'. split.
  - unfold setInactive in *. cbn [forM foldM]. erewrite bind_ok; [exact Hrun|].
    rewrite (DeactivateContract_eq a) by done. by rewrite decide_True.
  - intros st. rewrite Hput. by apply inactivated_cons.
Qed.

(** ** One user *)

(** The state that upkeep writes and the contracts that it makes inactive. *)
Definition charge_user (params : KarmaUpkeepParams) srcs s a st : Res (KarmaState * list KarmaContractRecord) :=
  let upkeepCost := i64 (NumOwnedContracts st * Cost params) in
  userKarma ← user_karma srcs (SourceStates st);
  if upkeepCost <=? userKarma then
    '(sources, charged) ← payKarma upkeepCost (SourceStates st) srcs;
    match DeployKarmaTotal st with
    | Some d => Ok (with_DeployKarmaTotal (d - charged) (with_sources sources st), [])
    | None => Panic
    end
  else
    let canAfford := euclid_div userKarma (Cost params) in
    let leftOver := euclid_mod userKarma (Cost params) in
    records ← GetActiveContractRecords a s;
    let n := Z.min (u64 (i64 (NumOwnedContracts st - i64 canAfford))) (Z.of_nat (length records)) in
    '(sources, _) ← payKarma (canAfford * Cost params) (SourceStates st) srcs;
    if (leftOver =? 0) || bool_decide (is_Some (DeployKarmaTotal st)) then
      Ok (with_DeployKarmaTotal leftOver (with_sources sources st), take (Z.to_nat n) (go_sort lessContractId records))
    else Panic.

Definition charged_world a st (rs : list KarmaContractRecord) w : World := put_state a (stored_state st) (inactivated a rs w).

Lemma active_key_of s a l : links_ok s → active_list s a l → NoDup (key_of <$> l).
Proof.
  intros Hl [Hmem Hnd _]. unfold key_of. change (NoDup ((marshal_contract_id ∘ rec_ContractId) <$> l)).
  rewrite list_fmap_compose. apply NoDup_fmap_2_strong; [|done].
  intros i j [r [-> [[Hr _] _]%Hmem]]%list_elem_of_fmap [r' [-> [[Hr' _] _]%Hmem]]%list_elem_of_fmap Heq.
  apply marshal_contract_id_inj in Heq; [done|by eapply record_id_range..].
Qed.

Lemma oldest_active s a l n :
  links_ok s → active_list s a l →
  let rs := take n (go_sort lessContractId l) in
  NoDup (key_of <$> rs) ∧ Forall (λ r, rec_Owner r = Some a ∧ is_Some (active_of s a !! key_of r)) rs.
Proof.
  intros Hl Hal rs. split.
  - eapply sublist_NoDup; [|apply fmap_sublist, sublist_take].
    rewrite go_sort_permutation. by apply (active_key_of s a).
  - apply Forall_take, Forall_forall. intros r. rewrite elem_of_go_sort, (al_mem _ _ _ Hal). by intros [[_ Hro] Hact].
Qed.

Lemma upkeepUser_eq params srcs userStr a st w :
  links_ok (kw_store w) → wf_address a → parse_address userStr = Some a →
  match charge_user params srcs (kw_store w) a st with
  | Ok (st', rs) => upkeepUser params srcs userStr st w = (Ok (), charged_world a st' rs w)
  | Err _ => is_ok (upkeepUser params srcs userStr st w).1 = false
  | Panic => (upkeepUser params srcs userStr st w).1 = Panic
  end.
Proof.
  intros Hl Ha Hp. unfold charge_user, upkeepUser. rewrite Hp. cbv zeta.
  destruct (user_karma srcs (SourceStates st)) as [karma|e|] eqn:Hk; [|done..]. cbn [mbind Res_bind].
  erewrite bind_ok by reflexivity. destruct (_ <=? karma).
  - destruct (payKarma _ _ _) as [[sources charged]|e|]; [|done..]. cbn [mbind Res_bind].
    erewrite bind_ok by reflexivity. destruct (DeployKarmaTotal st); [|done]. reflexivity.
  - destruct (active_records (kw_store w) a Hl Ha) as (l & Hrec & Hal). rewrite Hrec. cbn [mbind Res_bind].
    set (n := Z.to_nat _). destruct (oldest_active (kw_store w) a l n Hl Hal) as [Hnd Hall].
    destruct (setInactive_run a _ w Ha Hnd Hall) as (w' & Hrun & Hput).
    rewrite (bind_ok _ _ w (inl ()) w').
    2:{ unfold try_, setInactiveContractIdOrdered, from_store. m_eval. rewrite Hrec. unfold n in Hrun. by rewrite Hrun. }
    destruct (payKarma _ _ _) as [[sources charged]|e|]; [|done..]. cbn [mbind Res_bind].
    erewrite bind_ok by reflexivity. destruct (_ =? 0); cbn [orb].
    + erewrite bind_ok by reflexivity. unfold charged_world. rewrite <- Hput. reflexivity.
    + destruct (DeployKarmaTotal st) as [d|]; [|done]. rewrite bool_decide_true by done.
      erewrite bind_ok by reflexivity. unfold charged_world. rewrite <- Hput. reflexivity.
Qed.

Lemma lookup_without_keys rs (m : gmap bytes Address) key :
  without_keys rs m !! key = if decide (key ∈ key_of <$> rs) then None else m !! key.
Proof.
  unfold without_keys. revert m. induction rs as [|r rs IH]; intros m; [done|]. cbn [foldl]. rewrite IH.
  destruct (decide (key = key_of r)) as [->|Hne].
  - rewrite lookup_delete_eq. rewrite (decide_True (P := key_of r ∈ key_of <$> (r :: rs))) by (by left). by case_decide.
  - rewrite lookup_delete_ne by done. apply decide_ext. set_solver.
Qed.

Lemma inactivated_active a rs w b :
  wf_address a → wf_address b →
  active_of (kw_store (inactivated a rs w)) b =
    if decide (b = a) then without_keys rs (active_of (kw_store w) a) else active_of (kw_store w) b.
Proof.
  intros Ha Hb. destruct rs as [|r rs]; [by case_decide as Heq; [subst|]|].
  apply (active_of_put (kw_store w)); done.
Qed.

Lemma inactivated_links a rs w : links_ok (kw_store w) → wf_address a → links_ok (kw_store (inactivated a rs w)).
Proof.
  intros Hl Ha. destruct rs as [|r rs]; [done|].
  eapply (links_put (kw_store w) _ a); [done..|]. intros key c. rewrite lookup_without_keys.
  case_decide; [done|]. by left.
Qed.

Lemma charged_links a st rs w : links_ok (kw_store w) → wf_address a → links_ok (kw_store (charged_world a st rs w)).
Proof. intros Hl Ha. by apply (links_same (kw_store (inactivated a rs w))); [..|apply inactivated_links]. Qed.

(** The contracts left active are the newer ones. *)
Lemma charged_active s s' a l k :
  links_ok s → links_ok s' → wf_address a → active_list s a l → k_records s' = k_records s →
  active_of s' a = without_keys (take k (go_sort lessContractId l)) (active_of s a) →
  ∃ l', GetActiveContractRecords a s' = Ok l' ∧ l' ≡ₚ drop k (go_sort lessContractId l).
Proof.
  intros Hl Hl' Ha Hal Hr Hact. destruct (active_records s' a Hl' Ha) as (l' & Hrun & [Hmem Hnd _]).
  exists l'. split; [done|]. set (sorted := go_sort lessContractId l) in *.
  assert (Hkeys : NoDup (key_of <$> sorted)).
  { unfold sorted. rewrite go_sort_permutation. by apply (active_key_of s a). }
  assert (Hsplit : key_of <$> sorted = (key_of <$> take k sorted) ++ (key_of <$> drop k sorted))
    by (by rewrite <- fmap_app, take_drop).
  rewrite Hsplit, NoDup_app in Hkeys. destruct Hkeys as (_ & Hdisj & Hnd2).
  assert (Hin : ∀ r, active_record s a r ↔ r ∈ take k sorted ∨ r ∈ drop k sorted).
  { intros r. rewrite <- (al_mem _ _ _ Hal), <- (elem_of_go_sort lessContractId). fold sorted.
    rewrite <- (take_drop k sorted) at 1. apply elem_of_app. }
  apply NoDup_Permutation; [by eapply NoDup_fmap_1|by eapply NoDup_fmap_1|]. intros r. rewrite Hmem.
  unfold active_record, owned_by in *. rewrite Hact, Hr, lookup_without_keys. fold (key_of r). split.
  - intros [Hown Hsome]. case_decide as Hk; [by destruct Hsome|].
    destruct (proj1 (Hin r) (conj Hown Hsome)) as [Ht|Hd]; [|done]. exfalso. apply Hk. by apply list_elem_of_fmap_2.
  - intros Hd. destruct (proj2 (Hin r) (or_intror Hd)) as [Hown Hsome]. split; [done|].
    rewrite decide_False; [done|]. intros Hk. eapply Hdisj; [exact Hk|]. by apply list_elem_of_fmap_2.
Qed.

(** ** What a user pays *)

(** The contracts that the karma [k] pays for, of [num] at a cost of [cost] each. *)
Definition affordable (num cost k : Z) : Z := Z.min num (k / cost).

Lemma affordable_pays num cost k : 0 <= num → 0 < cost → 0 <= k → num * cost <= k → affordable num cost k = num.
Proof. intros Hn Hc Hk Hle. unfold affordable. apply Z.min_l. apply Z.div_le_lower_bound; lia. Qed.

Lemma affordable_short num cost k :
  0 < cost → 0 <= k → k < num * cost → affordable num cost k = k / cost ∧ 0 <= k / cost < num ∧ k / cost * cost <= k.
Proof.
  intros Hc Hk Hlt. unfold affordable. assert (k / cost < num) by (apply Z.div_lt_upper_bound; lia).
  assert (0 <= k / cost) by (by apply Z.div_pos). pose proof (Z.mul_div_le k cost Hc). lia.
Qed.

(** A user that upkeep visits, with a cost that fits its width; coins count as deploy
    karma. *)
Record chargeable (params : KarmaUpkeepParams) srcs s a : Prop := {
  ch_links : links_ok s;
  ch_count : 0 < owned_count s a;
  ch_wf : wf_address a;
  ch_coin : deploys srcs CoinDeployToken = true;
  ch_sources : sources_ok (sources_of s a);
  ch_total : sources_of s a = [] ∨ is_Some (DeployKarmaTotal (GetUserState s a));
  ch_cost : 0 < Cost params;
  ch_bound : owned_count s a * Cost params < 2 ^ 63;
}.

Definition deploy_karma srcs s a : Z := sumZ (charged srcs) (sources_of s a).
Definition upkeep_due params srcs s a : Z := affordable (owned_count s a) (Cost params) (deploy_karma srcs s a).

(** The sources of a state pay [x] from awards first. *)
Definition pays srcs s a (x : Z) (l : list KarmaSource) : Prop :=
  sources_ok l ∧ sumZ (charged srcs) l = deploy_karma srcs s a - x ∧
  coins l = coins (sources_of s a) - Z.max 0 (x - (deploy_karma srcs s a - coins (sources_of s a))).

Lemma deploys_sources srcs name : deploys srcs name = true → srcs ≠ [].
Proof. by destruct srcs. Qed.

(** The user can be charged: the payment comes to the entry of coins. *)
Definition coins_reached params srcs s a : Prop := coins_found srcs (sources_of s a) (upkeep_due params srcs s a * Cost params).

Lemma pay_chargeable params srcs s a x :
  chargeable params srcs s a → 0 <= x <= deploy_karma srcs s a →
  (∃ l y, payKarma x (sources_of s a) srcs = Ok (l, y) ∧ pays srcs s a x l) ∧ coins_found srcs (sources_of s a) x ∨
  payKarma x (sources_of s a) srcs = Panic ∧ ¬ coins_found srcs (sources_of s a) x.
Proof.
  intros H Hx. pose proof (ch_sources _ _ _ _ H) as Hok. pose proof (deploys_sources _ _ (ch_coin _ _ _ _ H)) as Hne.
  destruct (payKarma_found srcs (sources_of s a) x Hne Hok ltac:(lia)) as [[Hrun Hf]|]; [left|by right]. split; [|done].
  destruct (payKarma x (sources_of s a) srcs) as [[l y]|e|] eqn:Hpay; [|done..]. exists l, y. split; [done|].
  destruct (payKarma_spec srcs _ x l y Hne Hok (ch_coin _ _ _ _ H) Hx Hpay) as (H1 & _ & H2 & H3). by split_and!.
Qed.

Lemma found_total params srcs s a x : chargeable params srcs s a → coins_found srcs (sources_of s a) x → is_Some (DeployKarmaTotal (GetUserState s a)).
Proof. intros H (j & t & Hj & _). destruct (ch_total _ _ _ _ H) as [E|]; [by rewrite E in Hj|done]. Qed.

Lemma charge_user_spec params srcs s a :
  chargeable params srcs s a →
  (¬ coins_reached params srcs s a → charge_user params srcs s a (GetUserState s a) = Panic) ∧
  (coins_reached params srcs s a → ∃ active st', GetActiveContractRecords a s = Ok active ∧ active_list s a active ∧
    charge_user params srcs s a (GetUserState s a) =
      Ok (st', take (Z.to_nat (owned_count s a - upkeep_due params srcs s a)) (go_sort lessContractId active)) ∧
    pays srcs s a (upkeep_due params srcs s a * Cost params) (SourceStates st') ∧
    NumOwnedContracts st' = owned_count s a).
Proof.
  intros H. destruct (active_records s a (ch_links _ _ _ _ H) (ch_wf _ _ _ _ H)) as (active & Hrec & Hal).
  pose proof (ch_sources _ _ _ _ H) as [Hc _]. pose proof (charged_nonneg srcs _ Hc) as Hk0.
  pose proof (ch_cost _ _ _ _ H) as Hcost. pose proof (ch_bound _ _ _ _ H) as Hbound. pose proof (ch_count _ _ _ _ H) as Hnum.
  unfold charge_user, coins_reached. fold (sources_of s a) (owned_count s a).
  rewrite user_karma_eq by (done || by eapply deploys_sources, ch_coin). cbn [mbind Res_bind].
  fold (deploy_karma srcs s a) in *. rewrite i64_small by lia.
  destruct (Z.leb_spec (owned_count s a * Cost params) (deploy_karma srcs s a)) as [Hle|Hlt].
  - assert (Hdue : upkeep_due params srcs s a = owned_count s a) by (apply affordable_pays; lia). rewrite Hdue.
    destruct (pay_chargeable params srcs s a (owned_count s a * Cost params) H) as [[(l & y & Hpay & Hspec) Hf]|[Hpay Hn]]; [lia| |];
      rewrite Hpay; (split; [done|]); [intros _|done]. cbn [mbind Res_bind]. destruct (found_total _ _ _ _ _ H Hf) as [d Hd]. rewrite Hd.
    exists active. eexists (with_DeployKarmaTotal _ (with_sources l _)). split_and!; [done|done| |done|done]. by rewrite Z.sub_diag.
  - destruct (affordable_short _ _ _ Hcost Hk0 Hlt) as (Hdue & Hrange & Hmul).
    fold (upkeep_due params srcs s a) in Hdue. rewrite Hdue. rewrite Hrec. cbn [mbind Res_bind].
    unfold euclid_div. rewrite (proj2 (Z.ltb_lt 0 (Cost params)) Hcost).
    destruct (pay_chargeable params srcs s a (deploy_karma srcs s a / Cost params * Cost params) H) as [[(l & y & Hpay & Hspec) Hf]|[Hpay Hn]]; [lia| |];
      rewrite Hpay; (split; [done|]); [intros _|done]. cbn [mbind Res_bind]. rewrite (bool_decide_true (is_Some _)) by (by eapply found_total).
    rewrite orb_true_r. exists active. eexists (with_DeployKarmaTotal _ (with_sources l _)). split_and!; [done|done| |done|reflexivity].
    f_equal. f_equal. assert (owned_count s a <= owned_count s a * Cost params) by nia.
    rewrite (i64_small (_ / _)), i64_small, u64_small by lia. rewrite Z2Nat.inj_min, Nat2Z.id, <- take_take, (take_ge _ (length active)); [done|].
    by rewrite go_sort_permutation.
Qed.

Lemma stored_sources st : counted (SourceStates st) → SourceStates (stored_state st) = SourceStates st.
Proof. intros Hc. by apply stored_source_id. Qed.

Lemma charged_other a st rs w b :
  wf_address a → wf_address b → b ≠ a →
  GetUserState (kw_store (charged_world a st rs w)) b = GetUserState (kw_store w) b ∧
  active_of (kw_store (charged_world a st rs w)) b = active_of (kw_store w) b.
Proof.
  intros Ha Hb Hne. split.
  - unfold charged_world. rewrite GetUserState_put, decide_False by done. by destruct rs.
  - change (active_of (kw_store (charged_world a st rs w)) b) with (active_of (kw_store (inactivated a rs w)) b).
    rewrite inactivated_active by done. by rewrite decide_False.
Qed.

Lemma charged_records a st rs w : k_records (kw_store (charged_world a st rs w)) = k_records (kw_store w).
Proof. by destruct rs. Qed.

Lemma upkeepUser_spec params srcs w a :
  chargeable params srcs (kw_store w) a →
  let due := upkeep_due params srcs (kw_store w) a in
  (¬ coins_reached params srcs (kw_store w) a → (upkeepUser params srcs (address_string a) (GetUserState (kw_store w) a) w).1 = Panic) ∧
  (coins_reached params srcs (kw_store w) a →
   ∃ w' active active', upkeepUser params srcs (address_string a) (GetUserState (kw_store w) a) w = (Ok (), w') ∧
    pays srcs (kw_store w) a (due * Cost params) (sources_of (kw_store w') a) ∧
    GetActiveContractRecords a (kw_store w) = Ok active ∧ GetActiveContractRecords a (kw_store w') = Ok active' ∧
    active' ≡ₚ drop (Z.to_nat (owned_count (kw_store w) a - due)) (go_sort lessContractId active) ∧
    owned_count (kw_store w') a = owned_count (kw_store w) a ∧
    ∀ b, wf_address b → b ≠ a → GetUserState (kw_store w') b = GetUserState (kw_store w) b ∧
      active_of (kw_store w') b = active_of (kw_store w) b).
Proof.
  intros H due. pose proof (ch_links _ _ _ _ H) as Hl. pose proof (ch_wf _ _ _ _ H) as Ha.
  destruct (charge_user_spec params srcs (kw_store w) a H) as [Hpanic Hcharge].
  pose proof (upkeepUser_eq params srcs (address_string a) a (GetUserState (kw_store w) a) w Hl Ha (parse_address_string a Ha)) as Hrun.
  split; [intros Hn; by rewrite (Hpanic Hn) in Hrun|]. intros Hf. destruct (Hcharge Hf) as (active & st' & Hrec & Hal & Hch & Hpays & Hnum).
  rewrite Hch in Hrun. fold due in Hrun, Hpays. set (k := Z.to_nat _) in Hrun. set (rs := take k _) in Hrun.
  destruct (charged_active (kw_store w) (kw_store (charged_world a st' rs w)) a active k) as (active' & Hrec' & Hperm);
    [done|by apply charged_links|done|done|apply charged_records| |].
  { change (active_of (kw_store (inactivated a rs w)) a = without_keys rs (active_of (kw_store w) a)).
    rewrite inactivated_active by done. by rewrite decide_True. }
  assert (Hget : GetUserState (kw_store (charged_world a st' rs w)) a = stored_state st').
  { unfold charged_world. by rewrite GetUserState_put, decide_True. }
  exists (charged_world a st' rs w), active, active'. split_and!; try done.
  - unfold sources_of at 1. rewrite Hget, stored_sources; [done|apply Hpays].
  - unfold owned_count at 1. by rewrite Hget.
  - intros b Hb Hne. by apply charged_other.
Qed.

(** ** The order of users *)

Lemma charge_user_same params srcs s s' a st :
  k_records s' = k_records s → active_of s' a = active_of s a →
  charge_user params srcs s' a st = charge_user params srcs s a st.
Proof.
  intros Hr Ha. unfold charge_user.
  assert (Heq : GetActiveContractRecords a s' = GetActiveContractRecords a s); [|by rewrite Heq].
  unfold GetActiveContractRecords. fold (owner_prefix a). fold (active_of s a) (active_of s' a). rewrite Ha.
  induction (range_of (active_of s a)).*2 as [|c l IH]; [done|]. cbn. unfold GetContractRecord. by rewrite Hr, IH.
Qed.

Definition set_keys a (rs : list KarmaContractRecord) (m : gmap bytes Address) (act : gmap bytes (gmap bytes Address)) :
    gmap bytes (gmap bytes Address) :=
  match rs with [] => act | _ => <[owner_prefix a := without_keys rs m]> act end.

Lemma charged_world_eq a st rs w :
  charged_world a st rs w =
    mkKWorld (set_contracts (k_records (kw_store w)) (set_keys a rs (active_of (kw_store w) a) (k_active (kw_store w)))
                (set_users (<[UserStateKey a := stored_state st]> (k_users (kw_store w))) (kw_store w))) (kw_coin w).
Proof. by destruct w as [[] ?], rs. Qed.

Lemma charged_commute a b st st' rs rs' w :
  wf_address a → wf_address b → a ≠ b →
  charged_world b st' rs' (charged_world a st rs w) = charged_world a st rs (charged_world b st' rs' w).
Proof.
  intros Ha Hb Hne.
  assert (Hk : UserStateKey b ≠ UserStateKey a) by (intros H; by apply UserStateKey_inj in H).
  assert (Hp : owner_prefix b ≠ owner_prefix a) by (intros H; by apply owner_prefix_inj in H).
  rewrite (charged_world_eq b), (charged_world_eq a st rs (charged_world _ _ _ _)).
  destruct (charged_other a st rs w b Ha Hb) as [_ ->]; [done|].
  destruct (charged_other b st' rs' w a Hb Ha) as [_ ->]; [done|]. rewrite !charged_world_eq.
  unfold set_contracts, set_users. cbn [kw_store kw_coin k_next k_sources k_oracle k_users k_config k_upkeep k_records k_active
    k_upkeepState k_perms].
  rewrite (insert_insert_ne (k_users (kw_store w)) _ _ _ _ Hk). f_equal. f_equal.
  destruct rs, rs'; try done. by apply insert_insert_ne.
Qed.

Definition visited (us : list (string * KarmaState)) : Prop :=
  NoDup us.*1 ∧ Forall (λ u, ∃ a, wf_address a ∧ u.1 = address_string a) us.

Lemma upkeep_step params srcs a st w w' :
  links_ok (kw_store w) → wf_address a → upkeepUser params srcs (address_string a) st w = (Ok (), w') →
  ∃ st' rs, charge_user params srcs (kw_store w) a st = Ok (st', rs) ∧ w' = charged_world a st' rs w.
Proof.
  intros Hl Ha H. pose proof (upkeepUser_eq params srcs _ a st w Hl Ha (parse_address_string a Ha)) as Heq.
  destruct (charge_user _ _ _ _ _) as [[st' rs]|e|]; [|by rewrite H in Heq..]. exists st', rs. split; [done|congruence].
Qed.

Lemma deployUpkeep_perm params srcs us us' w w' :
  us ≡ₚ us' → visited us → links_ok (kw_store w) →
  deployUpkeep params us srcs w = (Ok (), w') → deployUpkeep params us' srcs w = (Ok (), w').
Proof.
  unfold deployUpkeep. intros Hperm. revert w w'. induction Hperm as [|u us us' _ IH|u v us|us1 us2 us3 H12 IH1 _ IH2];
    intros w w' [Hnd Hall] Hl H.
  - done.
  - cbn [forM foldM] in *. apply bind_inv in H as ([] & w1 & Hu & H). rewrite (bind_ok _ _ w () w1 Hu).
    cbn in Hnd. apply NoDup_cons in Hnd as [_ Hnd]. apply Forall_cons in Hall as [(a & Ha & Heq) Hall].
    apply IH; [done| |done]. rewrite Heq in Hu. apply upkeep_step in Hu as (st' & rs & _ & ->); [|done..]. by apply charged_links.
  - cbn [forM foldM] in *. apply bind_inv in H as ([] & w1 & Hv & H). apply bind_inv in H as ([] & w2 & Hu & H).
    cbn in Hnd. apply NoDup_cons in Hnd as [Hvu _]. apply Forall_cons in Hall as [(b & Hb & Hvb) Hall].
    apply Forall_cons in Hall as [(a & Ha & Hua) _].
    assert (Hne : a ≠ b) by (intros ->; apply Hvu; rewrite Hvb, <- Hua; by left).
    rewrite Hvb in Hv. rewrite Hua in Hu. apply upkeep_step in Hv as (stv & rv & Hcv & ->); [|done..].
    apply upkeep_step in Hu as (stu & ru & Hcu & ->); [|by apply charged_links|done].
    rewrite (charge_user_same _ _ (kw_store w)) in Hcu by (apply charged_records || by apply charged_other).
    pose proof (upkeepUser_eq params srcs _ a u.2 w Hl Ha (parse_address_string a Ha)) as Hu. rewrite Hcu in Hu.
    pose proof (charged_links a stu ru w Hl Ha) as Hl1.
    pose proof (upkeepUser_eq params srcs _ b v.2 _ Hl1 Hb (parse_address_string b Hb)) as Hv.
    rewrite (charge_user_same _ _ (kw_store w)), Hcv in Hv by (apply charged_records || by apply charged_other).
    rewrite <- Hua in Hu. rewrite <- Hvb in Hv. rewrite (bind_ok _ _ w () _ Hu), (bind_ok _ _ _ () _ Hv).
    by rewrite charged_commute.
  - apply IH2; [split; [by rewrite <- H12|by rewrite <- H12]|done|]. by apply IH1.
Qed.

(** ** Histories with upkeep *)

Definition keys_ok w : Prop := map_Forall (λ k _, ∃ a, wf_address a ∧ k = UserStateKey a) (k_users (kw_store w)).

(** An order of iteration of Go's map visits every entry once. *)
Definition iterates (order : gmap string KarmaState → list (string * KarmaState)) : Prop := ∀ m, order m ≡ₚ map_to_list m.

Definition linked w : Prop := links_ok (kw_store w) ∧ keys_ok w.

Lemma keys_put w a st : keys_ok w → wf_address a → keys_ok (put_state a st w).
Proof. intros Hk Ha. apply map_Forall_insert_2; [by exists a|done]. Qed.

Lemma preserves_put_user k st : (∃ a, wf_address a ∧ k = UserStateKey a) → preserves keys_ok (put_user k st : KM unit).
Proof. intros (a & Ha & ->) w Hw. by apply (keys_put w a (stored_state st)). Qed.

Lemma preserves_save_user a st : wf_address a → preserves keys_ok (save_user a st : KM unit).
Proof. intros Ha. apply preserves_put_user. by exists a. Qed.

Ltac keys :=
  repeat first
    [ progress intros
    | solve [auto with preserves]
    | apply preserves_save_user; naive_solver
    | apply preserves_deref_bind
    | apply preserves_bind
    | case_match ].

Lemma update_keys srcs : preserves keys_ok (updateKarmaCounts srcs : KM unit).
Proof.
  unfold updateKarmaCounts, from_store. apply preserves_gets_bind. intros w Hw. apply preserves_forM_in. intros [k st] Hin.
  apply preserves_bind; [apply preserves_lift_res|]. intros totals. apply preserves_put_user.
  rewrite range_of_perm, elem_of_map_to_list in Hin. exact (Hw k st Hin).
Qed.

Lemma plain_call_keys me c :
  kcall_ok me c → changes_contracts c = false → preserves keys_ok (run_kcall c : KM unit).
Proof.
  pose proof update_keys as Hupd.
  intros Hok Hch. destruct c; try done; cbn [run_kcall kcall_ok] in *;
    unfold AddKarma, addKarma, DeleteSourcesForUser, ResetSources, SetAllowedKarmaSources,
      UpdateOracle, registerOracle, DepositCoin, WithdrawCoin, modifyCountForUser, SetConfig, SetUpkeepParams,
      load_sources, has_permission, grant, revoke, from_store, on_store, on_coin, ctx_resolve; keys.
Qed.

Lemma kcall_keys me c w w' :
  kcall_ok me c → links_ok (kw_store w) → run_kcall c w = (Ok (), w') → keys_ok w → keys_ok w'.
Proof.
  intros Hok Hl H Hk. destruct (changes_contracts c) eqn:Hch.
  - destruct c as [| | | | | | | |c|c|o c]; try done; cbn [run_kcall] in H.
    + apply record_inv in H as (a & r & -> & Hr & H). destruct (owned_by_record w a r Hl Hr) as (o & _ & Ho & Hro). rewrite Hro in H.
      apply bind_inv in H as (act & w1 & [-> ->]%from_store_ok & H). destruct (is_active _ _); [by injection H as <-|].
      apply bind_inv in H as ([] & w1 & Hp & H). assert (keys_ok w1) by (by injection Hp as <-).
      rewrite increment_eq in H. injection H as <-. by apply keys_put.
    + apply record_inv in H as (a & r & -> & Hr & H). destruct (owned_by_record w a r Hl Hr) as (o & _ & Ho & Hro).
      rewrite (DeactivateContract_eq o) in H by done. injection H as <-. case_decide; [by apply keys_put|done].
    + unfold AddOwnedContract in H. apply bind_inv in H as (n & w1 & [-> ->]%from_store_ok & H).
      destruct (k_next (kw_store w)) as [id|]; [|done]. injection H as <-. by apply (keys_put w); [|apply Hok].
  - pose proof (plain_call_keys me c Hok Hch w Hk) as Hw. unfold wp in Hw. by rewrite H in Hw.
Qed.
Lemma kcall_linked me c w w' :
  kcall_ok me c → fresh_deploy w c → run_kcall c w = (Ok (), w') → linked w → linked w'.
Proof.
  intros Hok Hfresh H [Hl Hk]. split; [|by eapply kcall_keys]. destruct (changes_contracts c) eqn:Hch.
  - destruct c as [| | | | | | | |c|c|o c]; try done; cbn [run_kcall] in H.
    + by eapply SetActive_links.
    + by eapply SetInactive_links.
    + destruct (lk_next _ Hl) as (id & Hn & _). rewrite (AddOwnedContract_eq o c w id Hn) in H. injection H as <-.
      destruct Hok as [Ho Hca]. destruct Hfresh as [Hf Hb]. rewrite Hn in Hb. cbn in Hb. by apply deployed_links.
  - pose proof (contracts_kept _ c Hch w eq_refl) as Hw. unfold wp in Hw. rewrite H in Hw. cbn in Hw. injection Hw as Hr Hn Ha.
    by apply (links_same (kw_store w)).
Qed.

Lemma charged_keys a st rs w : keys_ok w → wf_address a → keys_ok (charged_world a st rs w).
Proof. intros Hk Ha. apply keys_put; [|done]. by destruct rs. Qed.

Lemma collect_users_strings us acc m :
  (∀ k st, (k, st) ∈ us → ∃ a, wf_address a ∧ k = UserStateKey a) →
  map_Forall (λ x _, ∃ a, wf_address a ∧ x = address_string a) acc → collect_users us acc = Ok m →
  map_Forall (λ x _, ∃ a, wf_address a ∧ x = address_string a) m.
Proof.
  revert acc. induction us as [|[k st] us IH]; intros acc Hus Hacc H; [by injection H as <-|]. cbn in H.
  assert (Hrest : ∀ k' st', (k', st') ∈ us → ∃ a, wf_address a ∧ k' = UserStateKey a) by (intros k' st' Hin; eapply Hus; by right).
  destruct (0 <? _); [|by eapply IH].
  destruct (Hus k st) as (a & Ha & ->); [by left|]. unfold UserStateKey in H. rewrite unmarshal_marshal in H.
  eapply IH; [done| |exact H]. apply map_Forall_insert_2; [by exists a|done].
Qed.

Lemma users_visited order w m :
  iterates order → keys_ok w → GetActiveUsers (kw_store w) = Ok m → visited (order m).
Proof.
  intros Ho Hk H. apply collect_users_strings in H.
  - split; [rewrite (Ho m); apply NoDup_fst_map_to_list|]. rewrite Forall_forall. intros [x st].
    rewrite (Ho m), elem_of_map_to_list. intros Hx. exact (H x st Hx).
  - intros k st. rewrite range_of_perm, elem_of_map_to_list. intros Hx. exact (Hk k st Hx).
  - apply map_Forall_empty.
Qed.

Lemma deployUpkeep_linked params srcs us w w' :
  visited us → linked w → deployUpkeep params us srcs w = (Ok (), w') → linked w'.
Proof.
  intros [_ Hall] Hw H. unfold deployUpkeep, forM in H. eapply (foldM_ok _ (λ _, linked)); [|exact Hw|exact H]. cbn.
  intros [x st] _ w1 [] w2 Hin [Hl Hk] Hrun. rewrite Forall_forall in Hall. destruct (Hall _ Hin) as (a & Ha & Hx). cbn in Hx, Hrun.
  rewrite Hx in Hrun. apply upkeep_step in Hrun as (st' & rs & _ & ->); [|done..].
  split; [by apply charged_links|by apply charged_keys].
Qed.

(** [Upkeep] either leaves users and contracts alone or charges every user. *)
Lemma Upkeep_inv order ctx w w' :
  Upkeep order ctx w = (Ok (), w') →
  ((∃ x, w' = mkKWorld (set_upkeepState x (kw_store w)) (kw_coin w)) ∨ w' = w) ∧
    (∀ order', Upkeep order' ctx w = (Ok (), w')) ∨
  ∃ params m srcs w1, k_upkeep (kw_store w) = Some params ∧ k_sources (kw_store w) = Some srcs ∧ GetActiveUsers (kw_store w) = Ok m ∧
    deployUpkeep params (order m) srcs w = (Ok (), w1) ∧
    w' = mkKWorld (set_upkeepState (u64 (ctx_height ctx)) (kw_store w1)) (kw_coin w1) ∧
    ∀ order', deployUpkeep params (order' m) srcs w = (Ok (), w1) → Upkeep order' ctx w = (Ok (), w').
Proof.
  intros H. pose proof H as Hcopy. unfold Upkeep in H. apply bind_inv in H as (o & w1 & [-> ->]%from_store_ok & H).
  destruct (k_upkeep (kw_store w)) as [params|] eqn:Hp; [|done].
  destruct ((Cost params =? 0) || (Period params =? 0)) eqn:Hz.
  { left. split; [right; by injection H as <-|]. intros order'. rewrite <- Hcopy. unfold Upkeep, from_store. m_eval. by rewrite Hp, Hz. }
  apply bind_inv in H as (st & w1 & [-> ->]%from_store_ok & H).
  destruct (default 0 (k_upkeepState (kw_store w)) =? 0) eqn:H0.
  { left. split; [left; injection H as <-; by eexists|]. intros order'. rewrite <- Hcopy. unfold Upkeep, from_store. m_eval.
    by rewrite Hp, Hz, H0. }
  destruct (ctx_height ctx <? _) eqn:Hh.
  { left. split; [right; by injection H as <-|]. intros order'. rewrite <- Hcopy. unfold Upkeep, from_store. m_eval.
    by rewrite Hp, Hz, H0, Hh. }
  apply bind_inv in H as (r & w1 & [-> ->]%from_store_ok & H).
  apply bind_inv in H as (m & w1 & Hm & H). unfold lift_res in Hm. injection Hm as Hm <-.
  apply bind_inv in H as (srcs & w1 & Hsrc & H). unfold load_sources, from_store in Hsrc.
  assert (Hs : k_sources (kw_store w) = Some srcs ∧ w1 = w).
  { m_eval_in Hsrc. destruct (k_sources (kw_store w)); [|done]. by injection Hsrc as <- <-. }
  destruct Hs as [Hs ->]. apply bind_inv in H as ([] & w1 & Hrun & H). right.
  exists params, m, srcs, w1. split_and!; [done|done|done|done|by injection H as <-|].
  intros order' Hrun'. unfold Upkeep, from_store, load_sources, from_store. m_eval. rewrite Hp, Hz, H0, Hh, Hm, Hs, Hrun'.
  exact H.
Qed.

Lemma Upkeep_linked order ctx w w' : iterates order → Upkeep order ctx w = (Ok (), w') → linked w → linked w'.
Proof.
  intros Ho H Hw. apply Upkeep_inv in H as [[[[x ->]| ->] _]|(params & m & srcs & w1 & _ & _ & Hm & Hrun & -> & _)]; [|done|].
  - destruct Hw as [Hl Hk]. split; [|done]. by apply (links_same (kw_store w)).
  - apply deployUpkeep_linked in Hrun as [Hl Hk]; [|by eapply users_visited; [|apply Hw|]|done].
    split; [|done]. by apply (links_same (kw_store w1)).
Qed.

(** ** What upkeep keeps *)

Abbreviation ugood := (good (P := P) false).

Lemma charged_users a st rs w :
  k_users (kw_store (charged_world a st rs w)) = <[UserStateKey a := stored_state st]> (k_users (kw_store w)) ∧
  k_sources (kw_store (charged_world a st rs w)) = k_sources (kw_store w) ∧ kw_coin (charged_world a st rs w) = kw_coin w.
Proof. by destruct rs. Qed.

Lemma stored_nonneg (x : option Z) : some_nonneg (stored_big <$> x).
Proof. destruct x; [apply stored_big_range|done]. Qed.

Lemma karma_nonneg srcs l k : sources_ok l → user_karma srcs l = Ok k → 0 <= k.
Proof.
  intros Hok Hk. destruct (decide (srcs = [])) as [->|Hne]; [destruct l; [by injection Hk as <-|done]|].
  rewrite user_karma_eq in Hk by (done || apply Hok). injection Hk as <-. apply charged_nonneg, Hok.
Qed.

Lemma charged_state params srcs s a st st' rs :
  sources_ok (SourceStates st) → charge_user params srcs s a st = Ok (st', rs) →
  state_ok false srcs (stored_state st') ∧ coins (SourceStates (stored_state st')) <= coins (SourceStates st).
Proof.
  intros Hok H. unfold charge_user in H. destruct (user_karma srcs (SourceStates st)) as [k|e|] eqn:Hk; [|done..]. cbn [mbind Res_bind] in H.
  assert (∀ x l y d, x <= k → payKarma x (SourceStates st) srcs = Ok (l, y) → let st2 := with_DeployKarmaTotal d (with_sources l st) in
    state_ok false srcs (stored_state st2) ∧ coins (SourceStates (stored_state st2)) <= coins (SourceStates st)) as Hpaid.
  { intros x l y d Hx Hpay. destruct (payKarma_keeps srcs _ k x l y Hok Hk Hx Hpay) as (Hl & _ & Hc). cbn. rewrite stored_source_id by apply Hl. split; [|done].
    split; cbn; rewrite stored_source_id by apply Hl; [done|]. split_and!; [apply (stored_nonneg (Some d))|apply stored_nonneg|right; by eexists]. }
  destruct (Z.leb_spec (i64 (NumOwnedContracts st * Cost params)) k).
  - destruct (payKarma _ _ _) as [[l y]|e|] eqn:Hpay; [|done..]. cbn in H. destruct (DeployKarmaTotal st); [|done]. injection H as <- <-. by eapply Hpaid.
  - destruct (GetActiveContractRecords a s) as [rs0|e|]; [|done..]. cbn [mbind Res_bind] in H. destruct (payKarma _ _ _) as [[l y]|e|] eqn:Hpay; [|done..].
    cbn in H. case_match; [|done]. injection H as <- <-. eapply Hpaid; [|exact Hpay]. unfold euclid_div.
    destruct (Z.ltb_spec 0 (Cost params)); [rewrite Z.mul_comm; by apply Z.mul_div_le|]. destruct (decide (Cost params = 0)) as [->|Hz].
    { rewrite Z.mul_0_r. by eapply karma_nonneg, Hk. }
    replace (- (k / - Cost params) * Cost params) with (- Cost params * (k / - Cost params)) by ring. apply Z.mul_div_le. lia.
Qed.

(** What holds before and after users are charged. *)
Definition upkept me srcs w w' : Prop :=
  ugood me w' ∧ k_sources (kw_store w') = Some srcs ∧ kw_coin w' = kw_coin w ∧ deposited (kw_store w') <= deposited (kw_store w).

Lemma charged_upkept me params srcs w a st' rs :
  ugood me w → k_sources (kw_store w) = Some srcs → wf_address a → charge_user params srcs (kw_store w) a (GetUserState (kw_store w) a) = Ok (st', rs) →
  upkept me srcs w (charged_world a st' rs w).
Proof.
  intros (Hme & [Hown (srcs0 & Hs0 & Hu)] & Hcoin) Hs Ha H. rewrite Hs in Hs0. injection Hs0 as <-.
  destruct (charged_state params srcs _ a _ st' rs (proj1 (GetUserState_ok false w srcs a Hu)) H) as [Hst Hle].
  destruct (charged_users a st' rs w) as (Eu & Es & Ec). unfold upkept, good. rewrite Es, Ec. split_and!; [done|split|done|done|done|].
  - unfold owners_ok. by rewrite charged_records.
  - exists srcs. rewrite Es, Eu. split; [done|]. by apply users_ok_put.
  - unfold deposited at 1. rewrite Eu, deposited_insert. unfold GetUserState in Hle.
    destruct (k_users (kw_store w) !! UserStateKey a); cbn in *; [|change (coins []) with 0 in Hle]; lia.
Qed.

Lemma deployUpkeep_upkept me params srcs us w w' :
  visited us → links_ok (kw_store w) → ugood me w → k_sources (kw_store w) = Some srcs →
  (∀ x st a, (x, st) ∈ us → wf_address a → x = address_string a → GetUserState (kw_store w) a = st) →
  deployUpkeep params us srcs w = (Ok (), w') → upkept me srcs w w'.
Proof.
  intros [Hnd Hall]. revert w. induction Hall as [|[x st] us (a & Ha & Hx) Hall IH]; intros w Hl Hg Hs Hst H; [by injection H as <-|].
  cbn in Hnd, Hx. apply NoDup_cons in Hnd as [Hnew Hnd]. unfold deployUpkeep in H. cbn [forM foldM] in H. apply bind_inv in H as ([] & w1 & Hrun & H). cbn in Hrun.
  rewrite Hx in Hrun. rewrite <- (Hst x st a ltac:(by left) Ha Hx) in Hrun. apply upkeep_step in Hrun as (st' & rs & Hc & ->); [|done..].
  destruct (charged_upkept me params srcs w a st' rs Hg Hs Ha Hc) as (Hg1 & Hs1 & Hc1 & Hd1).
  destruct (IH Hnd (charged_world a st' rs w)) as (Hg2 & Hs2 & Hc2 & Hd2); [by apply charged_links|done|done| |exact H|split_and!; [done|done|congruence|lia]].
  intros y sty b Hy Hb Hyb. destruct (charged_other a st' rs w b Ha Hb) as [-> _].
  - intros ->. apply Hnew. rewrite Hx, <- Hyb. by apply (list_elem_of_fmap_2 fst _ (y, sty)).
  - eapply Hst; [by right|done|done].
Qed.

Lemma user_string_inj a b : wf_address a → wf_address b → address_string a = address_string b → a = b.
Proof. intros Ha Hb H. apply (f_equal parse_address) in H. rewrite !parse_address_string in H by done. by injection H. Qed.

Lemma active_users_states w m x st a :
  keys_ok w → GetActiveUsers (kw_store w) = Ok m → m !! x = Some st → wf_address a → x = address_string a → GetUserState (kw_store w) a = st.
Proof.
  intros Hk H. unfold GetActiveUsers in H.
  assert (∀ us acc m, (∀ k st, (k, st) ∈ us → (∃ a, wf_address a ∧ k = UserStateKey a) ∧ k_users (kw_store w) !! k = Some st) →
    (∀ x st a, acc !! x = Some st → wf_address a → x = address_string a → GetUserState (kw_store w) a = st) → collect_users us acc = Ok m →
    ∀ x st a, m !! x = Some st → wf_address a → x = address_string a → GetUserState (kw_store w) a = st) as Hgen.
  { clear m x st a H. intros us. induction us as [|[k st] us IH]; intros acc m Hus Hacc H; [by injection H as <-|]. cbn in H.
    assert (∀ k' st', (k', st') ∈ us → (∃ a, wf_address a ∧ k' = UserStateKey a) ∧ k_users (kw_store w) !! k' = Some st') as Hrest by (intros k' st' Hin; apply Hus; by right).
    destruct (0 <? _); [|by eapply IH]. destruct (Hus k st) as [(a & Ha & ->) Hst]; [by left|]. unfold UserStateKey in H. rewrite unmarshal_marshal in H.
    eapply IH; [done| |exact H]. intros x sx b Hx Hb Exb. rewrite lookup_insert in Hx. case_decide as Heq.
    - injection Hx as <-. rewrite Exb in Heq. apply user_string_inj in Heq as <-; [|done..]. unfold GetUserState. by rewrite Hst.
    - by eapply Hacc. }
  eapply Hgen; [| |exact H].
  - intros k st'. rewrite range_of_perm, elem_of_map_to_list. intros Hk'. split; [exact (Hk k st' Hk')|done].
  - intros y sy b Hy. by rewrite lookup_empty in Hy.
Qed.

(** A block's upkeep keeps the invariant and adds no coins. *)
Lemma Upkeep_upkept me order ctx w w' : iterates order → Upkeep order ctx w = (Ok (), w') → linked w → ugood me w →
  ugood me w' ∧ kw_coin w' = kw_coin w ∧ deposited (kw_store w') <= deposited (kw_store w).
Proof.
  intros Ho H [Hl Hk] Hg. apply Upkeep_inv in H as [[[[x ->]| ->] _]|(params & m & srcs & w1 & _ & Hs & Hm & Hrun & -> & _)]; [done|done|].
  apply (deployUpkeep_upkept me) in Hrun as (Hg' & _ & Hc & Hd); [done|by eapply users_visited|done|done|done|].
  intros x st a Hx. rewrite (Ho m), elem_of_map_to_list in Hx. by eapply active_users_states.
Qed.

(** ** Histories *)

(** Histories in which upkeep is run, and visits the users in any order. *)
Definition ustep (me : Address) (ok : World → KCall → Prop) w w' : Prop :=
  kstep me ok w w' ∨ ∃ order ctx, iterates order ∧ Upkeep order ctx w = (Ok (), w').
Definition ureachable (me : Address) w : Prop := ∃ w0, kinitial w0 ∧ rtc (ustep me fresh_deploy) w0 w.

(** Those in which the oracle gives out awards, not coins. *)
Definition fresh_awards w (c : KCall) : Prop := fresh_deploy w c ∧ awards_only c.
Definition ureachable_awards (me : Address) w : Prop := ∃ w0, kinitial w0 ∧ rtc (ustep me fresh_awards) w0 w.

Lemma ureachable_of me w : ureachable_awards me w → ureachable me w.
Proof.
  intros (w0 & H0 & Hs). exists w0. split; [done|]. eapply rtc_subrel; [|exact Hs]. intros w1 w2 [[(c & H1 & [H2 _] & H3)|H]|H]; [left; left; by exists c|left; by right|by right].
Qed.

Lemma ureachable_linked me w : ureachable me w → linked w.
Proof.
  intros (w0 & H0 & Hs).
  assert (Hinv : linked w0).
  { pose proof (kinitial_contracts w0 H0) as [Hl _]. destruct (kinitial_shape true w0 H0) as [srcs [_ Hu _ _ _ _ _ _]].
    split; [done|]. apply Hu. }
  clear H0. revert Hinv. induction Hs as [|w1 w2 w3 Hstep _ IH]; [done|]. intros Hw. apply IH.
  destruct Hstep as [[(c & Hok & Hfresh & H)|(Hst & _)]|(order & ctx & Ho & H)].
  - by eapply kcall_linked.
  - unfold linked, keys_ok. by rewrite Hst.
  - by eapply Upkeep_linked.
Qed.

(** C28. Upkeep does not depend on the order in which Go iterates over its map of
    users: in every world that calls and upkeeps reach, if it goes through in one
    order it goes through in every other and leaves the same world, so that the
    nodes of the chain agree on it. *)
Theorem upkeep_order_irrelevant me order order' ctx w w' :
  ureachable me w → iterates order → iterates order' →
  Upkeep order ctx w = (Ok (), w') → Upkeep order' ctx w = (Ok (), w').
Proof.
  intros [Hl Hk]%ureachable_linked Ho Ho' H.
  apply Upkeep_inv in H as [[_ Hto]|(params & m & srcs & w1 & _ & _ & Hm & Hrun & _ & Hto)]; [done|].
  apply Hto. apply (deployUpkeep_perm params srcs (order m)); [|by eapply users_visited|done|exact Hrun]. etrans; [apply Ho|symmetry; apply Ho'].
Qed.

Lemma ureachable_good me w : wf_address me → ureachable me w → ugood me w.
Proof.
  intros Hme (w0 & H0 & Hs). assert (ureachable me w0 ∧ ugood me w0) as Hinv.
  { split; [exists w0; split; [done|apply rtc_refl]|]. by apply (kinitial_inv false me). }
  clear H0. revert Hinv. induction Hs as [|w1 w2 w3 Hstep _ IH]; [by intros [_ H]|]. intros [Hr Hg]. apply IH.
  split; [destruct Hr as (w0 & H0 & Hs); exists w0; split; [done|by eapply rtc_r]|].
  destruct Hstep as [Hstep|(order & ctx & Ho & H)]; [by eapply kstep_good|]. by eapply Upkeep_upkept, Hg; [..|by eapply ureachable_linked].
Qed.

Lemma ureachable_backed me w : wf_address me → ureachable_awards me w → backed me w.
Proof.
  intros Hme (w0 & H0 & Hs). assert (ureachable_awards me w0 ∧ backed me w0) as Hinv.
  { split; [exists w0; split; [done|apply rtc_refl]|]. by apply (kinitial_inv false me). }
  clear H0. revert Hinv. induction Hs as [|w1 w2 w3 Hstep _ IH]; [by intros [_ H]|]. intros [Hr Hb]. apply IH.
  split; [destruct Hr as (w0 & H0 & Hs); exists w0; split; [done|by eapply rtc_r]|]. apply ureachable_of in Hr. pose proof (ureachable_good me w1 Hme Hr) as Hg.
  destruct Hstep as [Hstep|(order & ctx & Ho & H)].
  - eapply (kstep_backed false me fresh_awards); [by intros ? ? []|done..].
  - destruct (Upkeep_upkept me order ctx w1 w2 Ho H (ureachable_linked me w1 Hr) Hg) as (_ & Hc & Hd). unfold backed in *. rewrite Hc. split; [apply Hb|]. destruct Hb. lia.
Qed.

(** C26. Deposited coins are safe.  In every world that calls, transfers of coins by others
    and the upkeep of blocks reach from a genesis that gives no coins, as long as the oracle
    gives out awards only and contracts are deployed at new addresses: the contract's account
    covers the coins of all users, so a user can withdraw any part of what upkeep left of its
    own and gets exactly that. *)
Theorem deposits_can_be_withdrawn me ctx w a x :
  wf_address me → ureachable_awards me w → ctx_contract ctx = me → is_Some (ctx_registry ctx !! "coin") →
  wf_address a → a ≠ me → 0 <= x <= coins (sources_of (kw_store w) a) →
  deposited (kw_store w) <= balance (kw_coin w) me ∧
  ∃ w', WithdrawCoin ctx (Some a) (Some x) w = (Ok (), w') ∧
    balance (kw_coin w') a = balance (kw_coin w) a + x ∧
    coins (sources_of (kw_store w') a) = coins (sources_of (kw_store w) a) - x.
Proof.
  intros Hme Hr <- Hcoin Ha Hne Hx. pose proof (ureachable_backed _ w Hme Hr) as Hb. split; [apply Hb|].
  by apply (backed_withdraw false); [apply ureachable_good; [done|apply ureachable_of]|..].
Qed.

(** C27. What upkeep does to a user that it visits, in every world that calls and upkeeps
    reach, while coins count as deploy karma, the cost is positive and the bill fits 64 bits.
    The bill is for the number of contracts in the user's state, as far as its deploy karma
    goes: the karma falls by the cost of these, awards before coins, the newest of its active
    contracts stay active and the others, the oldest, are made inactive; nothing of other
    users changes.  The number stays as it was, although contracts were made inactive, so the
    next bill is for them too.  The payment panics exactly when it does not come to an entry
    of coins: there is none, or the awards before it exceed the bill. *)
Theorem upkeep_charges_user me params srcs w a :
  wf_address me → ureachable me w → k_sources (kw_store w) = Some srcs → wf_address a → 0 < owned_count (kw_store w) a →
  deploys srcs CoinDeployToken = true → 0 < Cost params → owned_count (kw_store w) a * Cost params < 2 ^ 63 →
  let due := upkeep_due params srcs (kw_store w) a in
  (¬ coins_reached params srcs (kw_store w) a → (upkeepUser params srcs (address_string a) (GetUserState (kw_store w) a) w).1 = Panic) ∧
  (coins_reached params srcs (kw_store w) a →
   ∃ w' active active', upkeepUser params srcs (address_string a) (GetUserState (kw_store w) a) w = (Ok (), w') ∧
    pays srcs (kw_store w) a (due * Cost params) (sources_of (kw_store w') a) ∧
    GetActiveContractRecords a (kw_store w) = Ok active ∧ GetActiveContractRecords a (kw_store w') = Ok active' ∧
    active' ≡ₚ drop (Z.to_nat (owned_count (kw_store w) a - due)) (go_sort lessContractId active) ∧
    owned_count (kw_store w') a = owned_count (kw_store w) a ∧
    ∀ b, wf_address b → b ≠ a → GetUserState (kw_store w') b = GetUserState (kw_store w) b ∧
      active_of (kw_store w') b = active_of (kw_store w) b).
Proof.
  intros Hme Hr Hs Ha Hn Hd Hc Hb. destruct (ureachable_good me w Hme Hr) as (_ & [_ (srcs0 & Hs0 & Hu)] & _). rewrite Hs in Hs0. injection Hs0 as <-.
  destruct (GetUserState_ok false w srcs a Hu) as [Hok (_ & _ & Htot)]. apply upkeepUser_spec. split; try done. apply (ureachable_linked me w Hr).
Qed.
End Charges.
