(* ===== verification/KarmaWitnesses.v ===== *)
(** * Karma on a concrete chain

    The theorems about karma applied to a history in which user [sample "a"]
    deposits 50 coins, is awarded 10 karma and deploys two contracts at a cost of
    40 each, which it cannot pay for both. *)

From S2P Require Import Prelude Contract Coin Store Middleware Karma KarmaSources KarmaUpkeep KarmaTheorems KarmaContracts KarmaCharges.

Module KarmaWitness.
Import SimpleLib.

#[local] Instance txlib : TxLib := {
  unmarshal_SignedTx b := None; unmarshal_NonceTx b := None; unmarshal_Transaction b := None;
  ed25519_Verify pk msg sig := false; address_IsEmpty a := false }.

#[local] Instance klib : KarmaLib := {
  marshal_address a := pack a; unmarshal_address b := unpack b; marshal_contract_id n := pack n;
  stored_big := Z.abs }.

Lemma substring_app (x y : string) : String.substring 0 (String.length x) (x +:+ y) = x.
Proof. induction x as [|c x IH]; [by destruct y|]. exact (f_equal (String c) IH). Qed.
Lemma substring_rest (x y : string) : String.substring (String.length x) (String.length y) (x +:+ y) = y.
Proof. induction x as [|c x IH]; [apply substring_all|exact IH]. Qed.

#[local] Instance klib_spec : KarmaLibSpec.
Proof.
  split.
  - intros a. apply unpack_pack.
  - intros n m _ _. apply pack_inj.
  - intros x Hx. by apply Z.abs_eq.
  - intros x. apply Z.abs_nonneg.
  - intros [c l] [Hl _]. cbn in *. unfold of_string, to_string. cbn [ChainID Local].
    rewrite append_length, Hl, decide_True by lia. f_equal. f_equal.
    + replace (20 + String.length c - 20)%nat with (String.length c) by lia. rewrite <- Hl. apply substring_rest.
    + rewrite <- Hl. apply substring_app.
Qed.

Abbreviation World := (KWorld (gset (Address * bytes * string))).

Definition me : Address := sample "K".
Definition kctx (c : string) (h : Z) : Ctx := mkCtx (sample c) 0 me "diadem" h {[ "coin" := sample "C" ]}.

Definition coins0 : CoinStore := (run_call (sample_ctx (sample "a") 0) (CallApprove me 70) CoinWitness.start).2.

Lemma coins0_wf : coin_wf coins0.
Proof.
  apply coin_reachable_wf. apply reach_call; [apply CoinWitness.start_reachable|]. simpl. split_and!; by repeat split.
Qed.

Definition kinit_request : KarmaInitRequest :=
  mkKarmaInit [mkReward "quest" 2 Target_DEPLOY; mkReward "forum" 3 Target_CALL] (Some (sample "o"))
    [(Some (sample "b"), [mkSource "forum" (Some 4)])] None (Some (mkUpkeepParams 40 10)).
Definition w0 : World := (Init kinit_request (mkKWorld (empty_kstore perm_none) coins0)).2.
Definition calls : list KCall := [
  CallDepositCoin (kctx "a" 1) (Some (sample "a")) (Some 50);
  CallAddKarma (kctx "o" 1) (Some (sample "a")) [mkSource "quest" (Some 10)];
  CallAddOwnedContract (sample "a") (sample "p");
  CallAddOwnedContract (sample "a") (sample "q") ].
Definition after (l : list KCall) (w : World) : World := foldl (λ w c, (run_kcall c w).2) w l.
Definition w4 : World := after calls w0.

Lemma w0_initial : kinitial w0.
Proof.
  exists kinit_request, coins0. split_and!; [|apply coins0_wf|unfold w0; apply run_ok; by vm_compute].
  split; [by repeat constructor|]. constructor; [|constructor]. cbn. split_and!; [by split| |].
  - constructor; [|constructor]. cbn. by exists 4.
  - apply not_elem_of_cons. split; [done|apply not_elem_of_nil].
Qed.

Lemma calls_ok : Forall (λ c, kcall_ok me c ∧ awards_only c) calls.
Proof.
  repeat constructor; cbn; try done.
  - by exists 10.
  - apply not_elem_of_cons. split; [done|apply not_elem_of_nil].
Qed.

(** A list of calls each of which succeeds is a history. *)
Fixpoint all_ok (l : list KCall) (w : World) : bool :=
  match l with
  | [] => true
  | c :: l => is_ok (run_kcall c w).1 &&
      match c with
      | CallAddOwnedContract _ a => bool_decide (k_records (kw_store w) !! ContractRecordKey a = None) &&
          (default 0 (k_next (kw_store w)) <? 2 ^ 63 - 1)
      | _ => true
      end && all_ok l (run_kcall c w).2
  end.

Lemma history ok l w :
  Forall (λ c, kcall_ok me c ∧ awards_only c) l → all_ok l w = true →
  (∀ w c, awards_only c → fresh_deploy w c → ok w c) → rtc (kstep me ok) w (after l w).
Proof.
  intros Hl. revert w. induction Hl as [|c l [Hc Haw] _ IH]; intros w Hok Himp; [apply rtc_refl|].
  cbn [all_ok] in Hok. apply andb_prop in Hok as [[Hrun Hfresh]%andb_prop Hok].
  eapply rtc_l; [|by apply IH]. left. exists c. split_and!; [done| |].
  - apply Himp; [done|]. destruct c; try done. apply andb_prop in Hfresh as [H1 H2]. cbn.
    split; [by apply bool_decide_eq_true in H1|by apply Z.ltb_lt].
  - destruct (run_kcall c w) as [[[]|e|] w']; done.
Qed.

Lemma calls_run : all_ok calls w0 = true.
Proof. by vm_compute. Qed.

Lemma w4_reachable ok : (∀ w c, awards_only c → fresh_deploy w c → ok w c) → kreachable me ok w4.
Proof. intros Hok. exists w0. split; [apply w0_initial|]. apply history; [apply calls_ok|apply calls_run|done]. Qed.

Lemma karma_worth_witness : GetUserKarma (kw_store w4) (sample "a") Target_DEPLOY = Ok 70.
Proof.
  rewrite (karma_is_worth_of_sources me w4 (sample "a") Target_DEPLOY).
  - by vm_compute.
  - by split.
  - by apply w4_reachable.
  - by left.
Defined.

Lemma counted_witness : ∃ l, GetActiveContractRecords (sample "a") (kw_store w4) = Ok l ∧ length l = 2%nat.
Proof.
  destruct (owned_contracts_are_active me w4 (sample "a")) as (l & Hl & _ & Hn & _).
  - by split.
  - by apply w4_reachable.
  - by split.
  - exists l. split; [exact Hl|]. apply Nat2Z.inj. rewrite Hn. clear. by vm_compute.
Defined.

Definition params : KarmaUpkeepParams := mkUpkeepParams 40 10.
Definition srcs : list KarmaSourceReward := GetSources (kw_store w4).

(** The first upkeep notes the height; the next one charges. *)
Definition w5 : World := (Upkeep map_to_list (kctx "a" 5) w4).2.
Definition w6 : World := (Upkeep map_to_list (kctx "a" 15) w5).2.

Lemma w6_history : rtc (ustep me fresh_awards) w0 w6.
Proof.
  eapply rtc_r; [eapply rtc_r|].
  - eapply (rtc_subrel (kstep me fresh_awards)); [intros w w' H; by left|].
    apply (history fresh_awards calls w0); [apply calls_ok|apply calls_run|done].
  - right. exists map_to_list, (kctx "a" 5). split; [by intros m|]. unfold w5. apply run_ok. by vm_compute.
  - right. exists map_to_list, (kctx "a" 15). split; [by intros m|]. unfold w6. apply run_ok. by vm_compute.
Qed.
Lemma w6_reachable : ureachable_awards me w6.
Proof. exists w0. split; [apply w0_initial|apply w6_history]. Qed.

Lemma w5_reachable : ureachable me w5.
Proof.
  exists w0. split; [apply w0_initial|]. eapply rtc_r.
  - eapply (rtc_subrel (kstep me fresh_deploy)); [intros w w' H; by left|].
    apply (history fresh_deploy calls w0); [apply calls_ok|apply calls_run|done].
  - right. exists map_to_list, (kctx "a" 5). split; [by intros m|]. unfold w5. apply run_ok. by vm_compute.
Qed.

(** After upkeep took 30 of the 50 coins, the other 20 can be withdrawn. *)
Lemma withdraw_witness :
  ∃ w', WithdrawCoin (kctx "a" 20) (Some (sample "a")) (Some 20) w6 = (Ok (), w') ∧ coins (sources_of (kw_store w') (sample "a")) = 0.
Proof.
  destruct (deposits_can_be_withdrawn me (kctx "a" 20) w6 (sample "a") 20) as (_ & w' & H & _ & Hc).
  - by split.
  - apply w6_reachable.
  - reflexivity.
  - by eexists.
  - by split.
  - done.
  - split; by vm_compute.
  - exists w'. split; [exact H|]. rewrite Hc. by vm_compute.
Defined.

(** The bill is for two contracts at 40; the karma of 60 pays for one of them, with 10 of
    the quest and 30 coins. *)
Lemma charge_witness :
  ∃ w', upkeepUser params srcs (address_string (sample "a")) (GetUserState (kw_store w5) (sample "a")) w5 = (Ok (), w') ∧
    coins (sources_of (kw_store w') (sample "a")) = 20 ∧ owned_count (kw_store w') (sample "a") = 2.
Proof.
  destruct (upkeep_charges_user me params srcs w5 (sample "a")) as [_ H].
  - by split.
  - apply w5_reachable.
  - by vm_compute.
  - by split.
  - by vm_compute.
  - by vm_compute.
  - done.
  - by vm_compute.
  - destruct H as (w' & _ & _ & H & (_ & _ & Hc) & _ & _ & _ & Hn & _).
    + exists O, (mkSource CoinDeployToken (Some 50)). split_and!; [by vm_compute|done|by vm_compute].
    + exists w'. split; [exact H|]. split; [rewrite Hc|rewrite Hn]; clear; by vm_compute.
Defined.

(** The number of contracts is not lowered with the contract that was made inactive. *)
Example stale_number :
  owned_count (kw_store w6) (sample "a") = 2 ∧ is_ok (GetActiveContractRecords (sample "a") (kw_store w6)) = true ∧
  match GetActiveContractRecords (sample "a") (kw_store w6) with Ok l => length l = 1%nat | _ => False end.
Proof. by vm_compute. Qed.

(** An award before the coins that covers the bill: the index of the coins was not found. *)
Example award_before_coins_panics : payKarma 30 [mkSource "quest" (Some 50); mkSource CoinDeployToken (Some 5)] srcs = Panic.
Proof. by vm_compute. Qed.

Lemma order_witness : Upkeep (λ m, reverse (map_to_list m)) (kctx "a" 15) w5 = (Ok (), w6).
Proof.
  apply (upkeep_order_irrelevant me map_to_list (λ m, reverse (map_to_list m)) (kctx "a" 15) w5 w6).
  - apply w5_reachable.
  - by intros m.
  - intros m. apply reverse_Permutation.
  - unfold w6. apply run_ok. by vm_compute.
Defined.
End KarmaWitness.
