(* ===== verification/KarmaThrottle.v ===== *)
(** * The karma middleware (src/throttle/throttle.go, src/throttle/karma-middleware.go)

    A transaction passes when its origin has karma for it: deployments need a
    minimum of deploy karma, calls are counted against a limit that grows with call
    karma, and calls of contracts that upkeep made inactive are refused.  Contracts
    that are deployed are recorded for upkeep.

    The rate limiter is a package that is not in the repository: class [LimiterLib],
    whose [limiter_Get] is given the time of day.  [karma_of] and [put_karma] are
    the karma contract's part of the state, which [createKarmaContractCtx] opens. *)

From S2P Require Import Prelude Contract Coin Store Middleware App DeployerWhitelist Karma KarmaUpkeep KarmaTheorems KarmaContracts KarmaWitnesses.

Record LimiterContext := mkLimiterContext { lc_Limit : Z; lc_Remaining : Z; lc_Reached : bool }.

Class LimiterLib := {
  Limiter : Type;
  (** [limiter.New(memory.NewStore(), rate)] *)
  limiter_New (period limit : Z) : Limiter;
  (** [limiter.Rate.Limit] *)
  limiter_Limit : Limiter → Z;
  (** [limiter.Get(ctx, key)] *)
  limiter_Get (now : Z) (key : string) : M Limiter LimiterContext;
}.

(** [proto.Unmarshal] of [vm.CallTx] (its [VmType]) and of [vm.DeployResponse] (its
    [Contract]) *)
Class CallLib := {
  unmarshal_CallTx : bytes → option VMType;
  unmarshal_DeployResponse : bytes → option (option Address);
}.

Definition karmaMiddlewareThrottleKey : string := "ThrottleTxMiddleWare".
Definition DeployEvm : string := "deploy.evm".
Definition MaxInt64 : Z := 2 ^ 63 - 1.

Section Throttle.
Context {LIB : DiademLib} {TXL : TxLib} {VML : VmLib} {CALL : CallLib} {LIM : LimiterLib} {KLIB : KarmaLib}.
Context {P T E : Type}.

Record Throttle := mkThrottle {
  maxCallCount : Z;
  sessionDuration : Z;
  callLimiterPool : gmap string Limiter;
  lastAddress : string;
  lastLimiterContext : LimiterContext;
  lastNonce : Z;
  lastId : Z;
}.

Definition NewThrottle (duration max : Z) : Throttle :=
  mkThrottle max duration ∅ "" (mkLimiterContext 0 0 false) 0 0.

Definition set_pool (pool : gmap string Limiter) (t : Throttle) : Throttle :=
  mkThrottle (maxCallCount t) (sessionDuration t) pool (lastAddress t) (lastLimiterContext t) (lastNonce t) (lastId t).
Definition set_last (address : string) (nonce id : Z) (t : Throttle) : Throttle :=
  mkThrottle (maxCallCount t) (sessionDuration t) (callLimiterPool t) address (lastLimiterContext t) nonce id.
Definition set_lastLimiterContext (c : LimiterContext) (t : Throttle) : Throttle :=
  mkThrottle (maxCallCount t) (sessionDuration t) (callLimiterPool t) (lastAddress t) c (lastNonce t) (lastId t).

(** What middleware keeps in memory, with the clock and the rest. *)
Record Memory := mkMemory { mm_throttle : Throttle; mm_now : Z; mm_env : E }.
Abbreviation W := (TxWorld T Memory).

Definition from_throttle {A} (f : Throttle → A) : M W A := gets (λ w, f (mm_throttle (tw_env w))).
Definition on_throttle (f : Throttle → Throttle) : M W unit :=
  modify (λ w, let m := tw_env w in
    mkTxWorld (tw_store w) (tw_nonce w) (mkMemory (f (mm_throttle m)) (mm_now m) (mm_env m))).

Definition getNewLimiter (limit : Z) (t : Throttle) : Limiter := limiter_New (sessionDuration t) limit.

(** The limiter of an address; one with another limit is replaced. *)
Definition getLimiterFromPool (origin : Address) (limit : Z) : M W Limiter :=
  let address := address_string origin in
  pool ← from_throttle callLimiterPool;
  match pool !! address with
  | Some l =>
      if limiter_Limit l =? limit then mret l
      else
        on_throttle (λ t, set_pool (<[address := getNewLimiter limit t]> (delete address (callLimiterPool t))) t);;
        from_throttle (getNewLimiter limit)
  | None =>
      l ← from_throttle (getNewLimiter limit);
      on_throttle (λ t, set_pool (<[address := l]> (callLimiterPool t)) t);;
      if limiter_Limit l =? limit then mret l
      else
        on_throttle (λ t, set_pool (<[address := getNewLimiter limit t]> (delete address (callLimiterPool t))) t);;
        from_throttle (getNewLimiter limit)
  end.

(** A transaction that is seen again right away is not counted twice.  The limiter
    is a pointer: what [Get] does to it shows in the pool. *)
Definition getLimiterContext (origin : Address) (nonce limit txId : Z) (key : string) : M W LimiterContext :=
  let address := address_string origin in
  t ← from_throttle id;
  if String.eqb address (lastAddress t) && (nonce =? lastNonce t) && (lastId t =? txId)
  then mret (lastLimiterContext t)
  else
    on_throttle (set_last address nonce txId);;
    l ← getLimiterFromPool origin limit;
    now ← gets (λ w, mm_now (tw_env w));
    let '(r, l') := limiter_Get now key l in
    on_throttle (λ t, set_pool (<[address := l']> (callLimiterPool t)) t);;
    on_throttle (set_lastLimiterContext (match r with Ok c => c | _ => mkLimiterContext 0 0 false end));;
    lift_res r.

Definition runThrottle (nonce : Z) (origin : Address) (limit txId : Z) (key : string) : M W unit :=
  limitCtx ← getLimiterContext origin nonce limit txId key;
  guard_not (lc_Reached limitCtx) (ErrMsg "Out of transactions for current session").

Definition getKarmaForTransaction (s : KStore P) (origin : Address) (txId : Z) : Res Z :=
  if txId =? deployId then GetUserKarma s origin Target_DEPLOY
  else if txId =? callId then GetUserKarma s origin Target_CALL
  else Err (ErrMsg "unknown transaction id").

(** ** The middleware *)

Context (karma_of : T → KWorld P) (put_karma : KWorld P → T → T).
Context (createKarmaContractCtx : TxState → M W unit).

Definition from_karma {A} (f : KStore P → A) : M W A := gets (λ w, f (kw_store (karma_of (tw_store w)))).
Definition in_karma {A} (m : M (KWorld P) A) : M W A :=
  zoom (λ w, karma_of (tw_store w)) (λ k w, mkTxWorld (put_karma k (tw_store w)) (tw_nonce w) (tw_env w)) m.

(** A contract that was deployed is recorded. *)
Definition record_deploy (isCheckTx : bool) (origin : Address) (r : TxHandlerResult) : M W TxHandlerResult :=
  (if negb isCheckTx && String.eqb (r_Info r) DeployEvm then
     match unmarshal_DeployResponse (r_Data r) with
     | None => throw (ErrMsg "deploy response does not unmarshal")
     | Some dr =>
         contract ← deref dr;
         in_karma (AddOwnedContract origin contract)
     end
   else mret ());;
  mret r.

(** Calls of EVM contracts that are not active are refused. *)
Definition check_active (tx : Transaction) : M W unit :=
  if tx_Id tx =? callId then
    match unmarshal_MessageTx (tx_Data tx) with
    | None => throw (ErrMsg "unmarshal message tx")
    | Some msg =>
        match unmarshal_CallTx (msg_Data msg) with
        | None => throw (ErrMsg "unmarshal call tx")
        | Some VMType_EVM =>
            to ← deref (msg_To msg);
            r ← from_karma (IsContractActive to);
            isActive ← lift_res r;
            guard_not (negb isActive) (ErrMsg "contract is not active")
        | Some _ => mret ()
        end
    end
  else mret ().

(** A total that is not an [int64] is answered with [errors.Wrapf] of a nil error:
    the empty result and no error. *)
Definition GetKarmaMiddleWare (karmaEnabled : bool) (maxCalls : Z) : TxMiddleware (T := T) (E := Memory) :=
  λ state txBytes next isCheckTx,
  if negb karmaEnabled then next state txBytes isCheckTx
  else
    origin ← Origin state;
    guard_not (address_IsEmpty origin) (ErrMsg "throttle: transaction has no origin [get-karma]");;
    match unmarshal_NonceTx txBytes with
    | None => throw (ErrMsg "throttle: unwrap nonce Tx")
    | Some nonceTx =>
        match unmarshal_Transaction (nx_Inner nonceTx) with
        | None => throw (ErrMsg "throttle: unmarshal tx")
        | Some tx =>
            createKarmaContractCtx state;;
            check_active tx;;
            oracleAddr ← from_karma GetOracleAddress;
            if from_option (λ o, address_compare origin o =? 0) false oracleAddr then
              r ← next state txBytes isCheckTx;
              record_deploy isCheckTx origin r
            else
              r ← from_karma (λ s, getKarmaForTransaction s origin (tx_Id tx));
              originKarma ← lift_res r;
              guard_not (originKarma =? 0) (ErrMsg "origin has no karma of the appropriate type");;
              if negb (MaxInt64 <? originKarma) && (originKarma <? - 2 ^ 63) then mret (mkResult "" "")
              else
                let originKarmaTotal := if MaxInt64 <? originKarma then MaxInt64 else originKarma in
                (if tx_Id tx =? deployId then
                   config ← from_karma GetConfig;
                   guard_not (originKarmaTotal <? config) (ErrMsg "not enough karma to depoy")
                 else if tx_Id tx =? callId then
                   guard_not (maxCalls <=? 0) (ErrMsg "max call count non positive");;
                   thMax ← from_throttle maxCallCount;
                   let callCount := if i64 (MaxInt64 - thMax) <? originKarmaTotal then MaxInt64
                                    else i64 (thMax + originKarmaTotal) in
                   runThrottle (nx_Sequence nonceTx) origin callCount (tx_Id tx) karmaMiddlewareThrottleKey
                 else throw (ErrMsg "unknown transaction id"));;
                r ← next state txBytes isCheckTx;
                if tx_Id tx =? deployId then record_deploy isCheckTx origin r else mret r
        end
    end.
End Throttle.
Arguments Memory {LIM} E.

(** ** Theorems *)

Section Gate.
Context {LIB : DiademLib} {SPEC : DiademLibSpec} {TXL : TxLib} {VML : VmLib} {CALL : CallLib} {LIM : LimiterLib}
  {KLIB : KarmaLib} {KSPEC : KarmaLibSpec} {RANGE : RangeOrder} {RSPEC : RangeOrderSpec}.
Context {P T E : Type} {PERM : Permissions P}.
Context (karma_of : T → KWorld P) (put_karma : KWorld P → T → T).
Context (createKarmaContractCtx : TxState → M (TxWorld T (Memory E)) unit).
Context (karma_put : ∀ k t, karma_of (put_karma k t) = k).
Abbreviation W := (TxWorld T (Memory E)).
Abbreviation middleware := (GetKarmaMiddleWare (E := E) karma_of put_karma createKarmaContractCtx).
Implicit Types (w : W) (st : TxState) (next : TxHandler (T := T) (E := Memory E)).

Definition karma_store w : KStore P := kw_store (karma_of (tw_store w)).

(** A transaction of [origin] that reaches the checks of the middleware. *)
Record karma_request st (txBytes : bytes) w (origin : Address) (nonceTx : NonceTx) (tx : Transaction) : Prop := {
  kq_origin : ts_origin st = Some origin;
  kq_present : address_IsEmpty origin = false;
  kq_nonce : unmarshal_NonceTx txBytes = Some nonceTx;
  kq_tx : unmarshal_Transaction (nx_Inner nonceTx) = Some tx;
  kq_ctx : createKarmaContractCtx st w = (Ok (), w);
}.

(** C29. A contract that upkeep made inactive, or that was never recorded, cannot be
    called by anybody, the oracle included: the transaction fails before the next
    handler is run and nothing changes. *)
Theorem inactive_contracts_are_not_called st txBytes next check w origin nonceTx tx msg to maxCalls :
  karma_request st txBytes w origin nonceTx tx → tx_Id tx = callId →
  unmarshal_MessageTx (tx_Data tx) = Some msg → unmarshal_CallTx (msg_Data msg) = Some VMType_EVM →
  msg_To msg = Some to → IsContractActive to (karma_store w) ≠ Ok true →
  ∃ e, middleware true maxCalls st txBytes next check w = (Err e, w).
Proof.
  intros [Ho He Hn Ht Hc] Hid Hm Hcall Hto Hact. unfold GetKarmaMiddleWare, Origin. cbn [negb]. rewrite Ho.
  erewrite bind_ok by reflexivity. rewrite He. erewrite bind_ok by reflexivity. rewrite Hn, Ht, (bind_ok _ _ w () w Hc).
  unfold check_active. rewrite Hid, Z.eqb_refl, Hm, Hcall, Hto. unfold from_karma, karma_store in *. m_eval.
  destruct (IsContractActive to _) as [[]|e|] eqn:Hr; [done|by eexists..|].
  exfalso. clear - Hr. unfold IsContractActive in Hr. by repeat case_match.
Qed.

Lemma record_deploy_run check origin r w :
  record_deploy karma_of put_karma check origin r w =
    if negb check && String.eqb (r_Info r) DeployEvm then
      match unmarshal_DeployResponse (r_Data r) with
      | None => (Err (ErrMsg "deploy response does not unmarshal"), w)
      | Some None => (Panic, w)
      | Some (Some c) =>
          let '(o, k) := AddOwnedContract origin c (karma_of (tw_store w)) in
          (_ ← o; Ok r, mkTxWorld (put_karma k (tw_store w)) (tw_nonce w) (tw_env w))
      end
    else (Ok r, w).
Proof.
  unfold record_deploy, in_karma. m_eval. destruct (_ && _); [|done].
  destruct (unmarshal_DeployResponse (r_Data r)) as [[c|]|]; try done.
  by destruct (AddOwnedContract origin c _) as [[[]| |] k].
Qed.

Lemma deployed_active o c id (k : KWorld P) :
  wf_address o →
  IsContractActive c (kw_store (deployed o c id k)) = Ok true ∧
  GetContractRecord c (kw_store (deployed o c id k)) = Ok (mkRecord (Some o) c id).
Proof.
  intros Ho.
  assert (Hr : k_records (kw_store (deployed o c id k)) !! ContractRecordKey c = Some (mkRecord (Some o) c id))
    by apply lookup_insert_eq.
  unfold IsContractActive, GetContractRecord. rewrite Hr. cbn [rec_Owner]. split; [|done].
  rewrite is_active_eq, bool_decide_true; [done|]. unfold key_of. cbn [rec_ContractId].
  unfold active_of at 1, deployed. cbn. rewrite lookup_insert_eq. cbn. rewrite lookup_insert_eq. by eexists.
Qed.

(** Deployments are paid for and recorded: one by an origin other than the
    oracle is refused, and nothing changes, when its deploy karma is zero or below
    the configured minimum; otherwise the next handler decides, and an EVM contract
    that a block deploys is recorded under its origin with the next id and is
    active. *)
Theorem karma_gates_deployment st txBytes next check w origin nonceTx tx maxCalls d :
  karma_request st txBytes w origin nonceTx tx → tx_Id tx = deployId → wf_address origin →
  GetOracleAddress (karma_store w) ≠ Some origin → GetUserKarma (karma_store w) origin Target_DEPLOY = Ok d → 0 <= d →
  (d = 0 ∨ Z.min d MaxInt64 < GetConfig (karma_store w) →
     ∃ e, middleware true maxCalls st txBytes next check w = (Err e, w)) ∧
  (d ≠ 0 → GetConfig (karma_store w) <= Z.min d MaxInt64 → ∀ r w1, next st txBytes check w = (Ok r, w1) →
     if negb check && String.eqb (r_Info r) DeployEvm then
       ∀ c id, unmarshal_DeployResponse (r_Data r) = Some (Some c) → k_next (karma_store w1) = Some id →
         ∃ w2, middleware true maxCalls st txBytes next check w = (Ok r, w2) ∧
           GetContractRecord c (karma_store w2) = Ok (mkRecord (Some origin) c id) ∧
           IsContractActive c (karma_store w2) = Ok true ∧ k_next (karma_store w2) = Some (u64 (id + 1))
     else middleware true maxCalls st txBytes next check w = (Ok r, w1)).
Proof.
  intros [Ho He Hn Ht Hc] Hid Hwf Hora Hd Hd0.
  assert (Hmw : middleware true maxCalls st txBytes next check w =
    if (d =? 0) then (Err (ErrMsg "origin has no karma of the appropriate type"), w)
    else if Z.min d MaxInt64 <? GetConfig (karma_store w) then (Err (ErrMsg "not enough karma to depoy"), w)
    else (r ← next st txBytes check; record_deploy karma_of put_karma check origin r : M W _) w).
  { unfold GetKarmaMiddleWare, Origin. cbn [negb]. rewrite Ho.
    erewrite bind_ok by reflexivity. rewrite He. erewrite bind_ok by reflexivity. rewrite Hn, Ht, (bind_ok _ _ w () w Hc).
    unfold check_active. rewrite Hid. change (deployId =? callId) with false. cbv iota.
    erewrite bind_ok by reflexivity. unfold from_karma. erewrite bind_ok by reflexivity.
    fold (karma_store w).
    assert (Hno : from_option (λ o, address_compare origin o =? 0) false (GetOracleAddress (karma_store w)) = false).
    { destruct (GetOracleAddress (karma_store w)) as [o|]; [|done]. cbn. apply (cmp_eqb_false address_compare). congruence. }
    rewrite Hno. erewrite bind_ok by reflexivity. unfold getKarmaForTransaction. rewrite Z.eqb_refl. fold (karma_store w). rewrite Hd.
    erewrite bind_ok by reflexivity. destruct (d =? 0); [done|]. erewrite bind_ok by reflexivity.
    rewrite (proj2 (Z.ltb_ge d (- 2 ^ 63))) by lia. rewrite andb_false_r.
    assert (Hmin : (if MaxInt64 <? d then MaxInt64 else d) = Z.min d MaxInt64) by (destruct (Z.ltb_spec MaxInt64 d); lia).
    rewrite Hmin. m_eval. fold (karma_store w).
    destruct (Z.min d MaxInt64 <? GetConfig (karma_store w)); reflexivity. }
  rewrite Hmw. split.
  - intros [-> | Hlt]; [by eexists|]. destruct (d =? 0); [by eexists|]. rewrite (proj2 (Z.ltb_lt _ _)) by done. by eexists.
  - intros Hne Hge r w1 Hnext. rewrite (proj2 (Z.eqb_neq _ _)), (proj2 (Z.ltb_ge _ _)) by done.
    rewrite (bind_ok _ _ w r w1 Hnext), record_deploy_run. destruct (_ && _); [|done].
    intros c id Hdr Hid1. rewrite Hdr, (AddOwnedContract_eq origin c (karma_of (tw_store w1)) id Hid1).
    eexists. split; [done|]. unfold karma_store. cbn [tw_store]. rewrite karma_put.
    destruct (deployed_active origin c id (karma_of (tw_store w1)) Hwf) as [H1 H2]. by split_and!.
Qed.
End Gate.

(** ** Witnesses *)

Module ThrottleWitness.
Import SimpleLib.
#[local] Existing Instance KarmaWitness.klib.
#[local] Existing Instance KarmaWitness.klib_spec.

(** A transaction is its kind, a digit; a deployment creates [sample "r"]. *)
#[local] Instance txlib : TxLib := {
  unmarshal_SignedTx b := None; unmarshal_NonceTx b := Some (mkNonceTx b 1);
  unmarshal_Transaction b := Some (mkTransaction (if String.eqb b "1" then 1 else 2) b);
  ed25519_Verify pk msg sig := false; address_IsEmpty a := false }.
#[local] Instance vmlib : VmLib := {
  unmarshal_MessageTx b := Some (mkMessageTx None (Some (sample "p")) b); unmarshal_DeployTx b := Some VMType_EVM }.
#[local] Instance calllib : CallLib := {
  unmarshal_CallTx b := Some VMType_EVM; unmarshal_DeployResponse b := Some (Some (sample "r")) }.
#[local] Instance limiter : LimiterLib := {
  Limiter := unit; limiter_New _ _ := (); limiter_Limit _ := 0;
  limiter_Get _ _ := mret (mkLimiterContext 0 0 false) }.

Abbreviation TW := (TxWorld KarmaWitness.World (Memory unit)).
Definition create (st : TxState) : M TW unit := mret ().
Definition put (k : KarmaWitness.World) (t : KarmaWitness.World) : KarmaWitness.World := k.
Definition in_world (k : KarmaWitness.World) : TW :=
  mkTxWorld k (mkNonceHandler ∅ 0) (mkMemory (NewThrottle 600 10) 0 ()).
Definition state (c : string) : TxState := mkTxState "diadem" 20 (Some (sample c)).
Definition handler : TxHandler (T := KarmaWitness.World) (E := Memory unit) :=
  λ _ _ _, mret (mkResult "" DeployEvm).

Lemma request k c b tx :
  tx = mkTransaction (if String.eqb b "1" then 1 else 2) b →
  karma_request create (state c) b (in_world k) (sample c) (mkNonceTx b 1) tx.
Proof. by intros ->. Qed.

(** The older of the two contracts is inactive after the upkeep. *)
Lemma inactive_witness :
  ∃ e, GetKarmaMiddleWare id put create true 10 (state "o") "2" handler false (in_world KarmaWitness.w6) =
    (Err e, in_world KarmaWitness.w6).
Proof.
  apply (inactive_contracts_are_not_called id put create (state "o") "2" handler false (in_world KarmaWitness.w6) (sample "o")
    (mkNonceTx "2" 1) (mkTransaction 2 "2") (mkMessageTx None (Some (sample "p")) "2") (sample "p")).
  - by apply request.
  - reflexivity.
  - reflexivity.
  - reflexivity.
  - reflexivity.
  - by vm_compute.
Defined.

Lemma deploy_witness :
  ∃ w2, GetKarmaMiddleWare id put create true 10 (state "a") "1" handler false (in_world KarmaWitness.w4) =
      (Ok (mkResult "" DeployEvm), w2) ∧
    IsContractActive (sample "r") (karma_store id w2) = Ok true.
Proof.
  destruct (karma_gates_deployment id put create (λ _ _, eq_refl) (state "a") "1" handler false (in_world KarmaWitness.w4)
    (sample "a") (mkNonceTx "1" 1) (mkTransaction 1 "1") 10 70) as [_ H].
  - by apply request.
  - reflexivity.
  - by split.
  - by vm_compute.
  - by vm_compute.
  - done.
  - destruct (H ltac:(done) ltac:(by vm_compute) (mkResult "" DeployEvm) (in_world KarmaWitness.w4) eq_refl (sample "r") 3)
      as (w2 & Hrun & _ & Hact & _).
    + reflexivity.
    + by vm_compute.
    + exists w2. split; [exact Hrun|exact Hact].
Defined.
End ThrottleWitness.
