(* ===== verification/OriginValidator.v ===== *)
(** * Limits on the pool (src/throttle/handler.go)

    A transaction enters a node's pool only if its origin is on the list of
    deployers, for a deployment, or has not called with another nonce in the last
    [period] blocks, for a call.  The calls are kept in a ring with a slot per block
    that the start of a block clears; the theorem is that the ring decides as a log
    of all accepted calls would. *)

From S2P Require Import Prelude Contract Store Middleware App DeployerWhitelist.

Record callTx := mkCallTx { ct_origin : Address; ct_nonce : Z }.

Record TxLimiterConfig := mkLimiterConfig {
  LimitDeploys : bool;
  LimitCalls : bool;
  DeployerAddressList : list string;
  CallSessionDuration : Z;
}.

Definition DefaultTxLimiterConfig : TxLimiterConfig := mkLimiterConfig false false [] 1.

(** The zero value of [diadem.Address]. *)
Definition zeroAddress : Address := mkAddress "" "".

Record OriginValidator := mkOriginValidator {
  ov_period : Z;
  alreadyCalled : list (list callTx);
  allowedDeployers : list Address;
  deployValidation : bool;
  callValidation : bool;
}.

Definition set_alreadyCalled (l : list (list callTx)) (dv : OriginValidator) : OriginValidator :=
  mkOriginValidator (ov_period dv) l (allowedDeployers dv) (deployValidation dv) (callValidation dv).

Definition NewOriginValidator (period : Z) (deployers : list Address) (deploys calls : bool) : OriginValidator :=
  mkOriginValidator period (replicate (Z.to_nat period) []) deployers deploys calls.

Section Validator.
Context {LIB : DiademLib} {TXL : TxLib}.

Definition DeployerAddresses (c : TxLimiterConfig) : Res (list Address) :=
  foldl (λ acc addrStr,
    deployerAddressList ← acc;
    match parse_address addrStr with
    | None => Err (ErrMsg "parsing deploy address")
    | Some addr => Ok (deployerAddressList ++ [addr])
    end) (Ok []) (DeployerAddressList c).

Definition validateDeployer (deployer : Address) (dv : OriginValidator) : Res unit :=
  if negb (deployValidation dv) then Ok ()
  else if existsb (λ allowed, address_compare deployer allowed =? 0) (allowedDeployers dv) then Ok ()
  else Err (ErrMsg "origin not on list of users registered for deploys").

(** [int(currentBlockHeight) % int(dv.period)] as an index; Go's remainder has the
    sign of the height, and division by zero panics. *)
Definition callerBlockIndex (height : Z) (dv : OriginValidator) : Res nat :=
  let period := i64 (ov_period dv) in
  if period =? 0 then Panic
  else let i := Z.rem (i64 height) period in if i <? 0 then Panic else Ok (Z.to_nat i).

(** Writing a slot; an index that is out of range panics. *)
Definition put_slot (i : nat) (slot : list callTx) : M OriginValidator unit := λ dv,
  match alreadyCalled dv !! i with
  | None => (Panic, dv)
  | Some _ => (Ok (), set_alreadyCalled (<[i := slot]> (alreadyCalled dv)) dv)
  end.

Definition validateCaller (caller : Address) (nonce currentBlockHeight : Z) : M OriginValidator unit :=
  dv ← gets id;
  if negb (callValidation dv) then mret ()
  else
    guard_not (existsb (λ callersBlock, existsb (λ called,
        (address_compare caller (ct_origin called) =? 0) && negb (nonce =? ct_nonce called)) callersBlock) (alreadyCalled dv))
      (ErrMsg "already placed call tx; try again");;
    i ← lift_res (callerBlockIndex currentBlockHeight dv);
    put_slot i (default [] (alreadyCalled dv !! i) ++ [mkCallTx caller nonce]).

Definition ValidateOrigin (txBytes : bytes) (chainId : string) (currentBlockHeight : Z) : M OriginValidator unit :=
  dv ← gets id;
  if negb (deployValidation dv) && negb (callValidation dv) then mret ()
  else
    match unmarshal_SignedTx txBytes with
    | None => throw errUnmarshal
    | Some txSigned =>
        origin ← lift_res (GetOrigin txSigned chainId);
        match unmarshal_NonceTx (sx_Inner txSigned) with
        | None => throw errUnmarshal
        | Some txNonce =>
            match unmarshal_Transaction (nx_Inner txNonce) with
            | None => throw errUnmarshal
            | Some txTransaction =>
                if tx_Id txTransaction =? callId then validateCaller origin (nx_Sequence txNonce) (u64 currentBlockHeight)
                else if tx_Id txTransaction =? deployId then lift_res (validateDeployer origin dv)
                else throw (ErrMsg "unrecognised transaction id")
            end
        end
    end.

(** The slot of a new block holds one entry, of the zero address and nonce. *)
Definition Reset (currentBlockHeight : Z) : M OriginValidator unit :=
  dv ← gets id;
  i ← lift_res (callerBlockIndex currentBlockHeight dv);
  put_slot i [mkCallTx zeroAddress 0].
End Validator.

(** ** The log of calls *)

Section Window.
Context {LIB : DiademLib} {SPEC : DiademLibSpec} {TXL : TxLib}.

(** A block starts, or the pool is offered a call. *)
Inductive PoolEvent := BlockStarts | CallArrives (origin : Address) (nonce : Z).

(** What the node does, at height [cur]: whether a call is accepted. *)
Definition node_step (e : PoolEvent) (x : OriginValidator * Z) : Res bool * (OriginValidator * Z) :=
  let '(dv, cur) := x in
  match e with
  | BlockStarts => let '(r, dv') := Reset (cur + 1) dv in (_ ← r; Ok true, (dv', cur + 1))
  | CallArrives o n =>
      match validateCaller o n (u64 cur) dv with
      | (Ok _, dv') => (Ok true, (dv', cur))
      | (Err _, dv') => (Ok false, (dv', cur))
      | (Panic, dv') => (Panic, (dv', cur))
      end
  end.

(** The specification: a log of accepted calls with their heights. *)
Definition allowed (period cur : Z) (log : list (Z * callTx)) (o : Address) (n : Z) : bool :=
  forallb (λ c, negb ((cur - period <? c.1) && bool_decide (ct_origin c.2 = o)) || (ct_nonce c.2 =? n)) log.
Definition log_step (period : Z) (e : PoolEvent) (x : list (Z * callTx) * Z) : bool * (list (Z * callTx) * Z) :=
  let '(log, cur) := x in
  match e with
  | BlockStarts => (true, (log, cur + 1))
  | CallArrives o n => if allowed period cur log o n then (true, (log ++ [(cur, mkCallTx o n)], cur)) else (false, (log, cur))
  end.

Fixpoint run_node (es : list PoolEvent) (x : OriginValidator * Z) : Res (list bool) :=
  match es with
  | [] => Ok []
  | e :: es => let '(r, x') := node_step e x in b ← r; bs ← run_node es x'; Ok (b :: bs)
  end.
Fixpoint run_log (period : Z) (es : list PoolEvent) (x : list (Z * callTx) * Z) : list bool :=
  match es with
  | [] => []
  | e :: es => let '(b, x') := log_step period e x in b :: run_log period es x'
  end.

(** Slot [i] holds the calls of the one height in the window that it stands for. *)
Record window (period cur : Z) (log : list (Z * callTx)) (dv : OriginValidator) : Prop := {
  wi_period : ov_period dv = period;
  wi_calls : callValidation dv = true;
  wi_length : length (alreadyCalled dv) = Z.to_nat period;
  wi_past : Forall (λ c, c.1 <= cur) log;
  wi_slots i slot c : alreadyCalled dv !! i = Some slot → ct_origin c ≠ zeroAddress →
    (c ∈ slot ↔ ∃ h, (h, c) ∈ log ∧ h mod period = Z.of_nat i ∧ cur - period < h);
}.

Context (period : Z) (Hperiod : 0 < period < 2 ^ 63).

Lemma index_eq cur dv :
  ov_period dv = period → 0 <= cur < 2 ^ 63 → callerBlockIndex cur dv = Ok (Z.to_nat (cur mod period)).
Proof.
  intros Hp Hc. unfold callerBlockIndex. rewrite Hp, !i64_small by lia. rewrite (proj2 (Z.eqb_neq period 0)) by lia.
  rewrite Z.rem_mod_nonneg by lia. by rewrite (proj2 (Z.ltb_ge _ 0)) by (apply Z.mod_pos_bound; lia).
Qed.

Lemma slot_exists cur log dv :
  window period cur log dv → ∀ h, ∃ slot, alreadyCalled dv !! Z.to_nat (h mod period) = Some slot.
Proof.
  intros H h. apply lookup_lt_is_Some. rewrite (wi_length _ _ _ _ H).
  pose proof (Z.mod_pos_bound h period ltac:(lia)). lia.
Qed.

(** Two heights of one window with the same slot are equal. *)
Lemma same_slot cur h h' :
  cur - period < h <= cur → cur - period < h' <= cur → h mod period = h' mod period → h = h'.
Proof.
  intros Hh Hh' Heq. pose proof (Z.div_mod h period ltac:(lia)). pose proof (Z.div_mod h' period ltac:(lia)).
  assert (h / period = h' / period) by nia. nia.
Qed.

Lemma reset_window cur log dv :
  window period cur log dv → 0 <= cur → cur + 1 < 2 ^ 63 →
  ∃ dv', Reset (cur + 1) dv = (Ok (), dv') ∧ window period (cur + 1) log dv'.
Proof.
  intros H Hc Hb. unfold Reset. m_eval. rewrite index_eq by (apply H || lia).
  destruct (slot_exists cur log dv H (cur + 1)) as [old Hold]. unfold put_slot. cbn [id]. rewrite Hold.
  eexists. split; [done|]. destruct H as [H1 H2 H3 H4 H5]. split; cbn; [done|done|by rewrite length_insert| |].
  - eapply Forall_impl; [exact H4|]. cbn. lia.
  - pose proof (Z.mod_pos_bound (cur + 1) period ltac:(lia)) as Hmod. rewrite Forall_forall in H4.
    intros i slot c [(<- & <- & _)|[Hne Hi]]%list_lookup_insert_Some Hz.
    + rewrite list_elem_of_singleton. split; [intros ->; by destruct Hz|]. intros (h & Hin & Hm & Hh). exfalso.
      pose proof (H4 _ Hin) as Hle. cbn in Hle. rewrite Z2Nat.id in Hm by lia.
      assert (h = cur + 1) by (apply (same_slot (cur + 1)); lia). lia.
    + rewrite (H5 i slot c Hi Hz). split; intros (h & Hin & Hm & Hh); exists h; (split_and!; [done|done|]); [|lia].
      destruct (decide (h = cur + 1 - period)) as [->|Hneq]; [|lia]. exfalso. apply Hne.
      replace (cur + 1 - period) with (cur + 1 + (-1) * period) in Hm by lia. rewrite Z.mod_add in Hm by lia. lia.
Qed.

Lemma forallb_false {A} (f : A → bool) l : forallb f l = false ↔ ∃ x, x ∈ l ∧ f x = false.
Proof.
  induction l as [|x l IH]; cbn.
  - split; [done|]. by intros (x & Hx%not_elem_of_nil & _).
  - rewrite andb_false_iff, IH. split.
    + intros [Hx|(y & Hy & Hf)]; [exists x; by split; [left|]|exists y; by split; [right|]].
    + intros (y & [->|Hy]%elem_of_cons & Hf); [by left|right; by exists y].
Qed.

Lemma called_before cur log dv o n :
  window period cur log dv → o ≠ zeroAddress →
  existsb (λ callersBlock, existsb (λ called,
    (address_compare o (ct_origin called) =? 0) && negb (n =? ct_nonce called)) callersBlock) (alreadyCalled dv) =
  negb (allowed period cur log o n).
Proof.
  intros H Ho. apply eq_true_iff_eq. rewrite negb_true_iff, existsb_exists. unfold allowed.
  rewrite forallb_false. split.
  - intros (slot & [i Hi]%list_elem_of_In%list_elem_of_lookup & [c [Hc Hcond]]%existsb_exists).
    apply andb_prop in Hcond as [Hor Hn]. apply (cmp_eqb address_compare) in Hor.
    apply list_elem_of_In in Hc. apply (wi_slots _ _ _ _ H i slot c Hi) in Hc as (h & Hin & _ & Hh); [|by rewrite <- Hor].
    exists (h, c). split; [done|]. cbn. rewrite (proj2 (Z.ltb_lt _ _) Hh), bool_decide_true by done. cbn.
    rewrite Z.eqb_sym. by apply negb_true_iff.
  - intros ([h c] & Hin & Hf). cbn in Hf.
    apply orb_false_elim in Hf as [Hcond Hn]. apply negb_false_iff, andb_prop in Hcond as [Hh Hor].
    apply Z.ltb_lt in Hh. apply bool_decide_eq_true in Hor.
    destruct (slot_exists cur log dv H h) as [slot Hslot]. exists slot.
    pose proof (Z.mod_pos_bound h period ltac:(lia)) as Hmod. split.
    { apply list_elem_of_In. by eapply list_elem_of_lookup_2. }
    apply existsb_exists. exists c. split.
    + apply list_elem_of_In. apply (wi_slots _ _ _ _ H _ _ _ Hslot); [by rewrite Hor|]. exists h.
      rewrite Z2Nat.id by lia. done.
    + rewrite Hor. rewrite (proj2 (cmp_eqb address_compare o o)) by done. cbn. by rewrite Z.eqb_sym, Hn.
Qed.

Lemma call_window cur log dv o n :
  window period cur log dv → 0 <= cur < 2 ^ 63 → o ≠ zeroAddress →
  if allowed period cur log o n then
    ∃ dv', validateCaller o n (u64 cur) dv = (Ok (), dv') ∧ window period cur (log ++ [(cur, mkCallTx o n)]) dv'
  else ∃ e, validateCaller o n (u64 cur) dv = (Err e, dv).
Proof.
  intros H Hc Ho. unfold validateCaller. m_eval. cbn [id]. rewrite (wi_calls _ _ _ _ H). cbn [negb].
  rewrite (called_before cur log) by done. destruct (allowed period cur log o n); cbn [negb]; [|by eexists].
  rewrite u64_small, index_eq by (apply H || lia). destruct (slot_exists cur log dv H cur) as [old Hold].
  unfold put_slot. rewrite Hold. eexists. split; [done|]. destruct H as [H1 H2 H3 H4 H5].
  split; cbn [ov_period callValidation alreadyCalled set_alreadyCalled default id]; [done|done|by rewrite length_insert| |].
  - apply Forall_app. split; [done|]. by apply Forall_singleton.
  - pose proof (Z.mod_pos_bound cur period ltac:(lia)) as Hmod.
    intros i slot c [(<- & <- & _)|[Hne Hi]]%list_lookup_insert_Some Hz.
    + rewrite elem_of_app, list_elem_of_singleton, (H5 _ _ c Hold Hz). rewrite Z2Nat.id by lia. split.
      * intros [(h & Hin & Hm & Hh)| ->]; [exists h; by rewrite elem_of_app; split_and!; [left|..]|].
        exists cur. rewrite elem_of_app, list_elem_of_singleton. split_and!; [by right|done|lia].
      * intros (h & [Hin|[= -> ->]%list_elem_of_singleton]%elem_of_app & Hm & Hh); [left; by exists h|by right].
    + rewrite (H5 i slot c Hi Hz). split; intros (h & Hin & Hm & Hh).
      * exists h. by rewrite elem_of_app; split_and!; [left|..].
      * apply elem_of_app in Hin as [Hin|[= -> ->]%list_elem_of_singleton]; [by exists h|]. exfalso. apply Hne. lia.
Qed.

Lemma run_window es cur log dv :
  window period cur log dv → 0 <= cur → cur + Z.of_nat (length es) < 2 ^ 63 →
  Forall (λ e, match e with CallArrives o _ => o ≠ zeroAddress | BlockStarts => True end) es →
  run_node es (dv, cur) = Ok (run_log period es (log, cur)).
Proof.
  intros Hw Hc Hb Hes. revert cur log dv Hw Hc Hb. induction Hes as [|e es He _ IH]; intros cur log dv Hw Hc Hb; [done|].
  cbn [length] in Hb. destruct e as [|o n]; cbn [run_node run_log node_step log_step].
  - destruct (reset_window cur log dv Hw) as (dv' & -> & Hw'); [lia..|]. cbn [mbind Res_bind].
    by rewrite (IH (cur + 1) log dv') by (done || lia).
  - pose proof (call_window cur log dv o n Hw ltac:(lia) He) as H. destruct (allowed period cur log o n).
    + destruct H as (dv' & -> & Hw'). cbn [mbind Res_bind]. by rewrite (IH _ _ _ Hw') by lia.
    + destruct H as [e ->]. cbn [mbind Res_bind]. by rewrite (IH _ _ _ Hw) by lia.
Qed.

Lemma new_window cur deployers deploys : window period cur [] (NewOriginValidator period deployers deploys true).
Proof.
  split; cbn; [done|done|by rewrite length_replicate|constructor|].
  intros i slot c [-> _]%lookup_replicate Hz. split; [by intros ?%not_elem_of_nil|].
  intros (h & Hin%not_elem_of_nil & _). done.
Qed.
End Window.

(** C30. The ring of slots refines a log of calls: whatever blocks start and calls
    arrive, the node never panics and accepts a call exactly when no call of the
    same origin with another nonce was accepted in the last [period] blocks, the
    current one included. *)
Theorem call_ring_refines_log `{DiademLibSpec} `{TxLib} period deployers deploys cur es :
  0 < period < 2 ^ 63 → 0 <= cur → cur + Z.of_nat (length es) < 2 ^ 63 →
  Forall (λ e, match e with CallArrives o _ => o ≠ zeroAddress | BlockStarts => True end) es →
  run_node es (NewOriginValidator period deployers deploys true, cur) = Ok (run_log period es ([], cur)).
Proof. intros Hp Hc Hb Hes. apply run_window; try done. by apply new_window. Qed.

(** ** Witnesses *)

Module OriginWitness.
Import SimpleLib.
#[local] Instance txlib : TxLib := {
  unmarshal_SignedTx b := None; unmarshal_NonceTx b := None; unmarshal_Transaction b := None;
  ed25519_Verify pk msg sig := false; address_IsEmpty a := false }.

(** With a period of two blocks a second call waits until two blocks have started. *)
Definition events : list PoolEvent :=
  [BlockStarts; CallArrives (sample "a") 1; CallArrives (sample "a") 1; CallArrives (sample "a") 2;
   BlockStarts; CallArrives (sample "a") 2; BlockStarts; CallArrives (sample "a") 2].

Lemma ring_witness :
  run_node events (NewOriginValidator 2 [] false true, 7) = Ok [true; true; true; false; true; false; true; true].
Proof.
  rewrite (call_ring_refines_log 2 [] false 7 events).
  - by vm_compute.
  - lia.
  - lia.
  - by vm_compute.
  - repeat constructor; done.
Defined.
End OriginWitness.
