(* ===== verification/MultiChain.v ===== *)
(** * Signatures of other chains (src/auth)

    multi_chain_sigtx_middleware.go, chainconfig_middleware.go, config.go and eth.go:
    accounts of other chains sign transactions in their own way, and the middleware
    finds out who signed and under which address the account is known here.

    [MultiSigLib] is the cryptography and the encoding of messages, which are other
    packages.  [createAddressMapperCtx] opens the address mapper, which is asked as
    [AddressMapper] models it. *)

From S2P Require Import Prelude Contract Store Middleware App AddressMapper DeployerWhitelist.

Definition DiademSignedTxType : string := "diadem".
Definition EthereumSignedTxType : string := "eth".
Definition TronSignedTxType : string := "tron".

Definition NativeAccountType : Z := 0.
Definition MappedAccountType : Z := 1.

Record ChainConfig := mkChainConfig { TxType : string; AccountType : Z }.
Abbreviation Chains := (gmap string ChainConfig).

Definition DefaultConfig : Chains :=
  <["eth" := mkChainConfig "eth" 1]> (<["default" := mkChainConfig "diadem" 0]> ∅).
Definition AddressMapperContractRequired (chains : Chains) : bool :=
  existsb (λ v : string * ChainConfig, AccountType v.2 =? MappedAccountType) (map_to_list chains).

Definition AuthSigTxFeaturePrefix : string := "auth:sigtx:".

(** [SoliditySHA3] of the inner bytes, [RecoverAddressFromTypedSig], the address that
    [Ecrecover], [UnmarshalPubkey] and [PubkeyToAddress] give together, and
    [proto.Marshal]. *)
Class MultiSigLib := {
  sha3_bytes : bytes → bytes;
  recover_typed : bytes → bytes → option bytes;
  recover_plain : bytes → bytes → option bytes;
  marshal_MessageTx : MessageTx → bytes;
  marshal_Transaction : Transaction → bytes;
  marshal_NonceTx : NonceTx → bytes;
}.

Class MultiSigSpec `{TxLib} `{VmLib} `{MultiSigLib} : Prop := {
  message_roundtrip m : unmarshal_MessageTx (marshal_MessageTx m) = Some m;
  transaction_roundtrip t : unmarshal_Transaction (marshal_Transaction t) = Some t;
  nonce_roundtrip n : unmarshal_NonceTx (marshal_NonceTx n) = Some n;
}.

Section Auth.
Context {LIB : DiademLib} {TXL : TxLib} {VML : VmLib} {SIG : MultiSigLib} {T E : Type} {KV : KVStore T}.
Abbreviation W := (TxWorld T E).
Context (createAddressMapperCtx : TxState → M W AMStore).

Definition verifyEd25519 (tx : SignedTx) : Res bytes :=
  if negb (String.length (sx_PublicKey tx) =? 32)%nat then Err (ErrMsg "invalid public key length")
  else if negb (String.length (sx_Signature tx) =? 64)%nat
  then Err (ErrMsg "invalid signature ed25519 signature size length")
  else if negb (ed25519_Verify (sx_PublicKey tx) (sx_Inner tx) (sx_Signature tx))
  then Err (ErrMsg "invalid signature ed25519 verify")
  else Ok (local_from_pubkey (sx_PublicKey tx)).

Definition verifySolidity66Byte (tx : SignedTx) : Res bytes :=
  match recover_typed (sha3_bytes (sx_Inner tx)) (sx_Signature tx) with
  | Some ethAddr => Ok ethAddr
  | None => Err (ErrMsg "verify solidity key")
  end.

Definition verifyTron (tx : SignedTx) : Res bytes :=
  match recover_plain (sha3_bytes (sx_Inner tx)) (sx_Signature tx) with
  | Some addr => Ok addr
  | None => Err (ErrMsg "recovery failed")
  end.

Definition originRecoveryFuncs (t : string) : option (SignedTx → Res bytes) :=
  if String.eqb t DiademSignedTxType then Some verifyEd25519
  else if String.eqb t EthereumSignedTxType then Some verifySolidity66Byte
  else if String.eqb t TronSignedTxType then Some verifyTron
  else None.

Definition getMappedAccountAddress (state : TxState) (addr : Address) : M W Address :=
  ctx ← createAddressMapperCtx state;
  resp ← lift_res (GetMapping (Some addr) ctx);
  guard_not (negb (String.eqb (ChainID (am_To resp)) (ts_ChainID state))) (ErrMsg "mapped account has wrong chain ID");;
  mret (am_To resp).

Definition with_origin (origin : Address) (state : TxState) : TxState :=
  mkTxState (ts_ChainID state) (ts_Height state) (Some origin).

Definition NewMultiChainSignatureTxMiddleware (chains : Chains) : TxMiddleware (T := T) (E := E) :=
  λ state txBytes next isCheckTx,
  match unmarshal_SignedTx txBytes with
  | None => throw errUnmarshal
  | Some signedTx =>
  match unmarshal_NonceTx (sx_Inner signedTx) with
  | None => throw (ErrMsg "failed to unmarshal NonceTx")
  | Some nonceTx =>
  match unmarshal_Transaction (nx_Inner nonceTx) with
  | None => throw (ErrMsg "failed to unmarshal Transaction")
  | Some tx =>
  match unmarshal_MessageTx (tx_Data tx) with
  | None => throw (ErrMsg "failed to unmarshal MessageTx")
  | Some msg =>
  match msg_From msg with
  | None => throw (ErrMsg "malformed MessageTx, sender not specified")
  | Some msgSender =>
  match chains !! ChainID msgSender with
  | None => throw (ErrMsg "unknown chain ID")
  | Some chain =>
  match originRecoveryFuncs (TxType chain) with
  | None => throw (ErrMsg "recovery function for Tx type not found")
  | Some recoverOrigin =>
      recoveredAddr ← lift_res (recoverOrigin signedTx);
      guard_not (negb (String.eqb recoveredAddr (Local msgSender))) (ErrMsg "message sender doesn't match origin");;
      if AccountType chain =? NativeAccountType then
        next (with_origin msgSender state) (sx_Inner signedTx) isCheckTx
      else if AccountType chain =? MappedAccountType then
        origin ← getMappedAccountAddress state msgSender;
        let msgTxBytes := marshal_MessageTx (mkMessageTx (Some origin) (msg_To msg) (msg_Data msg)) in
        let txBytes := marshal_Transaction (mkTransaction (tx_Id tx) msgTxBytes) in
        let nonceTxBytes := marshal_NonceTx (mkNonceTx txBytes (nx_Sequence nonceTx)) in
        next (with_origin origin state) nonceTxBytes isCheckTx
      else throw (ErrMsg "Invalid account type")
  end end end end end end end.

(** The chains that the validators have enabled; the node's own chain is always one
    of them if there are any. *)
Definition getEnabledChains (chains : Chains) (state : TxState) (store : T) : Chains :=
  let enabledChains : Chains :=
    filter (λ c : string * ChainConfig, FeatureEnabled store (AuthSigTxFeaturePrefix +:+ c.1) false = true) chains in
  if bool_decide (enabledChains = ∅) then enabledChains
  else match enabledChains !! ts_ChainID state with
       | Some _ => enabledChains
       | None => <[ts_ChainID state := mkChainConfig DiademSignedTxType NativeAccountType]> enabledChains
       end.

Definition NewChainConfigMiddleware (chains : Chains) : TxMiddleware (T := T) (E := E) :=
  λ state txBytes next isCheckTx,
  chains ← gets (λ w, getEnabledChains chains state (tw_store w));
  if bool_decide (chains = ∅) then SignatureTxMiddleware state txBytes next isCheckTx
  else NewMultiChainSignatureTxMiddleware chains state txBytes next isCheckTx.

Definition ResolveAccountAddress (account : Address) (state : TxState) (chains : Chains) : M W Address :=
  chains ← gets (λ w, getEnabledChains chains state (tw_store w));
  if bool_decide (chains = ∅) then
    guard_not (negb (String.eqb (ChainID account) (ts_ChainID state))) (ErrMsg "unknown chain ID");;
    mret account
  else
    match chains !! ChainID account with
    | None => throw (ErrMsg "unknown chain ID")
    | Some chain =>
        if AccountType chain =? NativeAccountType then mret account
        else if AccountType chain =? MappedAccountType then getMappedAccountAddress state account
        else throw (ErrMsg "invalid account type")
    end.

(** ** Theorems *)

Context {SSPEC : MultiSigSpec}.
Implicit Types (w : W) (st : TxState) (next : TxHandler (T := T) (E := E)).

(** The transaction that [b] holds: its nonce, kind and message. *)
Definition decodes (b : bytes) (seq id : Z) (msg : MessageTx) : Prop :=
  ∃ nonceTx tx, unmarshal_NonceTx b = Some nonceTx ∧ nx_Sequence nonceTx = seq ∧
    unmarshal_Transaction (nx_Inner nonceTx) = Some tx ∧ tx_Id tx = id ∧ unmarshal_MessageTx (tx_Data tx) = Some msg.

(** The account that the signature proves, by the scheme of the account's chain. *)
Definition signed_by (chains : Chains) (signedTx : SignedTx) (sender : Address) : Prop :=
  ∃ chain recover, chains !! ChainID sender = Some chain ∧ originRecoveryFuncs (TxType chain) = Some recover ∧
    recover signedTx = Ok (Local sender).

Lemma recover_never_panics t f tx : originRecoveryFuncs t = Some f → f tx ≠ Panic.
Proof.
  unfold originRecoveryFuncs. intros H. repeat case_match; simplify_eq;
    unfold verifyEd25519, verifySolidity66Byte, verifyTron; by repeat case_match.
Qed.

Lemma mapped_run st addr w am :
  createAddressMapperCtx st w = (Ok am, w) →
  (∃ origin, getMappedAccountAddress st addr w = (Ok origin, w)) ∨ ∃ e, getMappedAccountAddress st addr w = (Err e, w).
Proof.
  intros Hc. unfold getMappedAccountAddress. rewrite (bind_ok _ _ w am w Hc). unfold GetMapping.
  destruct (am !! addressKey addr) as [mp|]; [|right; by eexists]. m_eval. cbn.
  destruct (negb _); [right; by eexists|left; by eexists].
Qed.

(** C31. With other chains enabled a transaction is passed on only as the account
    that signed it: the sender its message names has signed it by the scheme of the
    sender's chain, it is passed on with the origin that [ResolveAccountAddress]
    gives for that sender, and what is passed on is the same transaction, nonce,
    kind and message, with that origin as its sender.  Every other transaction is
    refused and changes nothing. *)
Theorem transactions_pass_as_their_signer chains st txBytes next check w am :
  getEnabledChains chains st (tw_store w) ≠ ∅ → createAddressMapperCtx st w = (Ok am, w) →
  (∃ e, NewChainConfigMiddleware chains st txBytes next check w = (Err e, w)) ∨
  ∃ signedTx seq id msg sender origin inner,
    unmarshal_SignedTx txBytes = Some signedTx ∧ decodes (sx_Inner signedTx) seq id msg ∧ msg_From msg = Some sender ∧
    signed_by (getEnabledChains chains st (tw_store w)) signedTx sender ∧
    ResolveAccountAddress sender st chains w = (Ok origin, w) ∧
    decodes inner seq id (mkMessageTx (Some origin) (msg_To msg) (msg_Data msg)) ∧
    NewChainConfigMiddleware chains st txBytes next check w = next (with_origin origin st) inner check w.
Proof.
  intros Hne Hc. unfold NewChainConfigMiddleware, ResolveAccountAddress. m_eval.
  set (enabled := getEnabledChains chains st (tw_store w)) in *. rewrite !bool_decide_false by done.
  unfold NewMultiChainSignatureTxMiddleware.
  destruct (unmarshal_SignedTx txBytes) as [signedTx|] eqn:Hs; [|left; by eexists].
  destruct (unmarshal_NonceTx (sx_Inner signedTx)) as [nonceTx|] eqn:Hn; [|left; by eexists].
  destruct (unmarshal_Transaction (nx_Inner nonceTx)) as [tx|] eqn:Ht; [|left; by eexists].
  destruct (unmarshal_MessageTx (tx_Data tx)) as [msg|] eqn:Hm; [|left; by eexists].
  destruct (msg_From msg) as [sender|] eqn:Hf; [|left; by eexists].
  destruct (enabled !! ChainID sender) as [chain|] eqn:Hch; [|left; by eexists].
  destruct (originRecoveryFuncs (TxType chain)) as [recover|] eqn:Hr; [|left; by eexists].
  destruct (recover signedTx) as [addr|e|] eqn:Hrec; [|left; by eexists|by apply (recover_never_panics _ _ signedTx) in Hr].
  erewrite bind_ok by reflexivity. destruct (String.eqb_spec addr (Local sender)) as [Hsame|]; [|left; by eexists].
  cbn [negb]. erewrite bind_ok by reflexivity. subst addr.
  assert (Hdec : decodes (sx_Inner signedTx) (nx_Sequence nonceTx) (tx_Id tx) msg) by (by exists nonceTx, tx).
  assert (Hsig : signed_by enabled signedTx sender) by (by exists chain, recover).
  destruct (AccountType chain =? NativeAccountType) eqn:Hnat.
  - right. exists signedTx, (nx_Sequence nonceTx), (tx_Id tx), msg, sender, sender, (sx_Inner signedTx).
    rewrite Hch, Hnat. split_and!; try done. rewrite <- Hf. by destruct msg.
  - destruct (AccountType chain =? MappedAccountType) eqn:Hmap; [|left; by eexists].
    destruct (mapped_run st sender w am Hc) as [[origin Ho]|[e Ho]]; [|left; exists e].
    2:{ unfold mbind, M_bind. by rewrite Ho. }
    right. eexists signedTx, (nx_Sequence nonceTx), (tx_Id tx), msg, sender, origin, _. rewrite (bind_ok _ _ w origin w Ho).
    rewrite Hch, Hnat, Hmap. split_and!; try done. do 2 eexists. rewrite nonce_roundtrip. split_and!; [done|done|..].
    + cbn. apply transaction_roundtrip.
    + done.
    + cbn. apply message_roundtrip.
Qed.
End Auth.

(** ** Witnesses *)

Module MultiChainWitness.
Import SimpleLib MapperWitness.
#[local] Instance mem : KVStore MemStore := mem_kvstore (λ k p, Some k).

(** A signature is the address of its signer. *)
#[local] Instance txlib : TxLib := {
  unmarshal_SignedTx b := (λ x : bytes * bytes, mkSignedTx x.1 "" x.2) <$> unpack b;
  unmarshal_NonceTx b := (λ x : bytes * Z, mkNonceTx x.1 x.2) <$> unpack b;
  unmarshal_Transaction b := (λ x : Z * bytes, mkTransaction x.1 x.2) <$> unpack b;
  ed25519_Verify pk msg sig := false; address_IsEmpty a := false }.
#[local] Instance vmlib : VmLib := {
  unmarshal_MessageTx b := (λ x : option Address * option Address * bytes, mkMessageTx x.1.1 x.1.2 x.2) <$> unpack b;
  unmarshal_DeployTx b := Some VMType_EVM }.
#[local] Instance siglib : MultiSigLib := {
  sha3_bytes b := b; recover_typed h sig := Some sig; recover_plain h sig := Some sig;
  marshal_MessageTx m := pack (msg_From m, msg_To m, msg_Data m);
  marshal_Transaction t := pack (tx_Id t, tx_Data t);
  marshal_NonceTx n := pack (nx_Inner n, nx_Sequence n) }.
#[local] Instance siglib_spec : MultiSigSpec.
Proof. split; intros []; cbn; by rewrite unpack_pack. Qed.

Abbreviation World := (TxWorld MemStore unit).
Definition message : MessageTx := mkMessageTx (Some foreign) None "call".
Definition inner : bytes := marshal_NonceTx (mkNonceTx (marshal_Transaction (mkTransaction 2 (marshal_MessageTx message))) 7).
Definition signed_tx : bytes := pack (inner, Local foreign).
Definition world : World := mkTxWorld (SetFeature "auth:sigtx:eth" true NewMemStore) (mkNonceHandler ∅ 0) ().
Definition create (st : TxState) : M World AMStore := mret linked.
Definition state : TxState := mkTxState "diadem" 5 None.
(** A handler that answers with the origin it is given. *)
Definition who : TxHandler (T := MemStore) (E := unit) := λ st _ _,
  mret (mkResult (from_option address_string "" (ts_origin st)) "").

Lemma signed_decodes : unmarshal_SignedTx signed_tx = Some (mkSignedTx inner "" (Local foreign)).
Proof. cbn [unmarshal_SignedTx txlib]. unfold signed_tx. by rewrite unpack_pack. Qed.

Lemma lookup_agree {A} (o : option A) x y : o = Some x → o = Some y → x = y.
Proof. congruence. Qed.

Lemma signer_witness :
  ∃ inner', NewChainConfigMiddleware create DefaultConfig state signed_tx who false world =
      who (with_origin (sample "a") state) inner' false world ∧
    decodes inner' 7 2 (mkMessageTx (Some (sample "a")) None "call").
Proof.
  destruct (transactions_pass_as_their_signer create DefaultConfig state signed_tx who false world linked)
    as [[e He]|(signedTx & seq & id & msg & sender & origin & inner' & Hs & Hd & Hf & _ & Ho & Hi & Hrun)].
  - by vm_compute.
  - reflexivity.
  - exfalso. apply (f_equal (λ p, is_ok p.1)) in He. by vm_compute in He.
  - exists inner'.
    rewrite signed_decodes in Hs. injection Hs as <-. destruct Hd as (nonceTx & tx & Hn & Hseq & Ht & Hid & Hm).
    pose proof (lookup_agree _ _ _ (nonce_roundtrip _) Hn) as <-.
    pose proof (lookup_agree _ _ _ (transaction_roundtrip _) Ht) as <-.
    pose proof (lookup_agree _ _ _ (message_roundtrip _) Hm) as <-. injection Hf as <-.
    assert (Hor : origin = sample "a").
    { apply (f_equal fst) in Ho. clear - Ho. vm_compute in Ho. injection Ho as Ho. by rewrite <- Ho. }
    subst origin. cbn in Hseq, Hid. subst seq id. split; [exact Hrun|exact Hi].
Defined.
End MultiChainWitness.
