(* ===== verification/Registry.v ===== *)
(** * The registry of contracts (src/registry)

    Contracts are found by name.  The interface of src/registry/registry.go is the
    class [Registry], what its clients rely on the class [RegistrySpec]; the two
    versions, v1/registry.go and v2/registry.go, are instances of both, and
    factory/registry_factory.go picks one.  Records and addresses are protocol
    buffers: class [RegistryLib]. *)

From S2P Require Import Prelude Contract Store.

Definition ErrAlreadyRegistered : error := ErrMsg "name is already registered".
Definition ErrRegNotFound : error := ErrMsg "name is not registered".
Definition ErrInvalidVersion : error := ErrMsg "invalid registry version".
Definition ErrNotImplemented : error := ErrMsg "not implemented in this registry version".

(** [registry.Record]; its addresses are never nil as they are written here. *)
Record RegRecord := mkRegRecord { rr_Name : string; rr_Owner : Address; rr_Address : Address }.

Class Registry (T : Type) := {
  reg_Register (contractName : string) (contractAddr ownerAddr : Address) : M T unit;
  reg_Resolve (contractName : string) : T → Res Address;
  reg_GetRecord (contractAddr : Address) : T → Res RegRecord;
}.

(** What clients rely on: a name that resolves goes on to resolve to the same
    address whatever is registered, and a registration that succeeds makes its name
    resolve and leaves the others alone. *)
Class RegistrySpec (T : Type) `{Registry T} (good : T → Prop) : Prop := {
  reg_good n a o s : good s → wf_address a → good (reg_Register n a o s).2;
  reg_permanent n a o s m b :
    good s → wf_address a → reg_Resolve m s = Ok b → reg_Resolve m (reg_Register n a o s).2 = Ok b;
  reg_registers n a o s s' :
    good s → wf_address a → n ≠ "" → reg_Register n a o s = (Ok (), s') →
    reg_Resolve n s' = Ok a ∧ is_ok (reg_Resolve n s) = false ∧ ∀ m, m ≠ n → reg_Resolve m s' = reg_Resolve m s;
}.

Class RegistryLib := {
  marshal_RegAddress : Address → bytes;
  unmarshal_RegAddress : bytes → option Address;
  marshal_Record : RegRecord → bytes;
  unmarshal_Record : bytes → option RegRecord;
}.

Class RegistryLibSpec `{DiademLib} `{RegistryLib} : Prop := {
  reg_address_roundtrip a : unmarshal_RegAddress (marshal_RegAddress a) = Some a;
  reg_record_roundtrip r : unmarshal_Record (marshal_Record r) = Some r;
  reg_address_nonempty a : wf_address a → marshal_RegAddress a ≠ "";
  reg_record_nonempty r : marshal_Record r ≠ "";
  reg_keys_apart x y : prefix_key ["reg_caddr"; x] ≠ prefix_key ["reg_crec"; y];
}.

(** ** Names *)

Definition minNameLen : nat := 1.
Definition maxNameLen : nat := 255.

Definition name_char (c : Ascii.ascii) : bool :=
  let n := Ascii.nat_of_ascii c in
  ((97 <=? n) && (n <=? 122) || (65 <=? n) && (n <=? 90) || (48 <=? n) && (n <=? 57) || (n =? 46) || (n =? 45))%nat.
Fixpoint all_chars (f : Ascii.ascii → bool) (s : string) : bool :=
  match s with "" => true | String c s => f c && all_chars f s end.
(** The regular expression [^[a-zA-Z0-9\.\-]+$]. *)
Definition validNameRE (name : string) : bool := negb (String.eqb name "") && all_chars name_char name.

Definition validateName (name : string) : Res unit :=
  if (String.length name <? minNameLen)%nat then Err (ErrMsg "name length too short")
  else if (maxNameLen <? String.length name)%nat then Err (ErrMsg "name length too long")
  else if negb (validNameRE name) then Err (ErrMsg "invalid name format")
  else Ok ().

Lemma validateName_not_panic n : validateName n ≠ Panic.
Proof. unfold validateName. by repeat case_match. Qed.

(** [len(data) == 0] *)
Definition absent (o : option bytes) : bool := String.eqb (default "" o) "".

Lemma absent_false o : absent o = false → ∃ d, o = Some d ∧ d ≠ "".
Proof. unfold absent. destruct o as [d|]; cbn; [|done]. intros H%String.eqb_neq. by exists d. Qed.

(** ** Version 1: named contracts only *)

Module V1.
Section V1.
Context {LIB : DiademLib} {RL : RegistryLib} {T : Type} {KV : KVStore T}.

Definition recordKey (name : string) : bytes := prefix_key ["registry"; name].

Definition Resolve (name : string) (state : T) : Res Address :=
  let data := kv_Get state (recordKey name) in
  if absent data then Err ErrRegNotFound
  else match unmarshal_Record (default "" data) with
       | None => Err (ErrMsg "unmarshal")
       | Some record => Ok (rr_Address record)
       end.

Definition Register (name : string) (addr owner : Address) : M T unit :=
  if String.eqb name "" then mret ()
  else
    lift_res (validateName name);;
    r ← gets (Resolve name);
    match r with
    | Ok _ => throw ErrAlreadyRegistered
    | Panic => panic
    | Err e =>
        if bool_decide (e = ErrRegNotFound) then
          modify (kv_Set (recordKey name) (marshal_Record (mkRegRecord name owner addr)))
        else throw e
    end.

Definition GetRecord (contractAddr : Address) (state : T) : Res RegRecord := Err ErrNotImplemented.

#[local] Instance registry : Registry T :=
  {| reg_Register := Register; reg_Resolve := Resolve; reg_GetRecord := GetRecord |}.

Context {SPEC : DiademLibSpec} {RLS : RegistryLibSpec} {KVS : KVStoreSpec T}.

Lemma recordKey_inj x y : recordKey x = recordKey y → x = y.
Proof. apply prefix_key_inj1. Qed.

Lemma Resolve_set s n m r :
  kv_ok s → Resolve m (kv_Set (recordKey n) (marshal_Record r) s) =
    if decide (m = n) then Ok (rr_Address r) else Resolve m s.
Proof.
  intros Hs. unfold Resolve. rewrite kv_Get_Set by done. destruct (decide (m = n)) as [->|Hne].
  - rewrite decide_True by done. unfold absent. cbn.
    rewrite (proj2 (String.eqb_neq _ _)) by apply reg_record_nonempty. by rewrite reg_record_roundtrip.
  - rewrite decide_False; [done|]. intros H%recordKey_inj. done.
Qed.

(** A registration writes the record of a new name, or nothing. *)
Lemma v1_Register_cases n a o s :
  (Register n a o s).2 = s ∧ (n = "" ∨ is_ok (Register n a o s).1 = false) ∨
  Register n a o s = (Ok (), kv_Set (recordKey n) (marshal_Record (mkRegRecord n o a)) s) ∧ n ≠ "" ∧
    Resolve n s = Err ErrRegNotFound.
Proof.
  unfold Register. destruct (String.eqb_spec n "") as [->|Hn]; [left; split; [done|by left]|]. m_eval.
  destruct (validateName n) as [[]|e|]; [|left; split; [done|by right]..].
  destruct (Resolve n s) as [b|e|] eqn:Hr; [left; split; [done|by right]| |left; split; [done|by right]].
  case_bool_decide as He; [|left; split; [done|by right]]. right. subst e. done.
Qed.

Lemma v1_registry_spec : RegistrySpec T kv_ok.
Proof.
  split; cbn.
  - intros n a o s Hs _. destruct (v1_Register_cases n a o s) as [[-> _]|(-> & _)]; [done|]. by apply kv_Set_ok.
  - intros n a o s m b Hs _ Hm. destruct (v1_Register_cases n a o s) as [[-> _]|(-> & _ & Hn)]; [done|]. cbn.
    rewrite Resolve_set by done. case_decide; [congruence|done].
  - intros n a o s s' Hs _ Hne H. destruct (v1_Register_cases n a o s) as [[_ [Hn|Hn]]|(Heq & _ & Hn)]; [done|by rewrite H in Hn|].
    rewrite Heq in H. injection H as <-. rewrite Resolve_set, decide_True by done. split_and!; [done|by rewrite Hn|].
    intros m Hm. by rewrite Resolve_set, decide_False by done.
Qed.
End V1.
End V1.

(** ** Version 2: records by address as well *)

Module V2.
Section V2.
Context {LIB : DiademLib} {RL : RegistryLib} {T : Type} {KV : KVStore T}.

Definition contractAddrKey (contractName : string) : bytes := prefix_key ["reg_caddr"; contractName].
Definition contractRecordKey (contractAddr : Address) : bytes := prefix_key ["reg_crec"; address_bytes contractAddr].

(** The name is written before the record is looked up, and stays when there is one
    already. *)
Definition Register (contractName : string) (contractAddr owner : Address) : M T unit :=
  (if String.eqb contractName "" then mret ()
   else
     lift_res (validateName contractName);;
     data ← gets (λ s : T, kv_Get s (contractAddrKey contractName));
     guard_not (negb (absent data)) ErrAlreadyRegistered;;
     modify (kv_Set (contractAddrKey contractName) (marshal_RegAddress contractAddr)));;
  data ← gets (λ s : T, kv_Get s (contractRecordKey contractAddr));
  guard_not (negb (absent data)) ErrAlreadyRegistered;;
  modify (kv_Set (contractRecordKey contractAddr) (marshal_Record (mkRegRecord contractName owner contractAddr))).

Definition Resolve (contractName : string) (state : T) : Res Address :=
  let data := kv_Get state (contractAddrKey contractName) in
  if absent data then Err ErrRegNotFound
  else match unmarshal_RegAddress (default "" data) with
       | None => Err (ErrMsg "unmarshal")
       | Some contractAddr => Ok contractAddr
       end.

Definition GetRecord (contractAddr : Address) (state : T) : Res RegRecord :=
  let data := kv_Get state (contractRecordKey contractAddr) in
  if absent data then Err ErrRegNotFound
  else match unmarshal_Record (default "" data) with
       | None => Err (ErrMsg "unmarshal")
       | Some record => Ok record
       end.

#[local] Instance registry : Registry T :=
  {| reg_Register := Register; reg_Resolve := Resolve; reg_GetRecord := GetRecord |}.

Context {SPEC : DiademLibSpec} {RLS : RegistryLibSpec} {KVS : KVStoreSpec T}.
Implicit Types s : T.

Definition name_set n a s : T := kv_Set (contractAddrKey n) (marshal_RegAddress a) s.
Definition record_set n a o s : T := kv_Set (contractRecordKey a) (marshal_Record (mkRegRecord n o a)) s.

Lemma Resolve_name_set s n m a :
  kv_ok s → wf_address a → Resolve m (name_set n a s) = if decide (m = n) then Ok a else Resolve m s.
Proof.
  intros Hs Ha. unfold Resolve, name_set. rewrite kv_Get_Set by done. destruct (decide (m = n)) as [->|Hne].
  - rewrite decide_True by done. unfold absent. cbn.
    rewrite (proj2 (String.eqb_neq _ _)) by (by apply reg_address_nonempty). by rewrite reg_address_roundtrip.
  - rewrite decide_False; [done|]. intros H%prefix_key_inj1. done.
Qed.

Lemma Resolve_record_set s n m a o : kv_ok s → Resolve m (record_set n a o s) = Resolve m s.
Proof.
  intros Hs. unfold Resolve, record_set. rewrite kv_Get_Set by done. rewrite decide_False; [done|]. apply reg_keys_apart.
Qed.

Lemma GetRecord_name_set s n a b : kv_ok s → GetRecord b (name_set n a s) = GetRecord b s.
Proof.
  intros Hs. unfold GetRecord, name_set. rewrite kv_Get_Set by done. rewrite decide_False; [done|].
  intros H. symmetry in H. by apply reg_keys_apart in H.
Qed.

Lemma GetRecord_record_set s n a o b :
  kv_ok s → wf_address a → wf_address b →
  GetRecord b (record_set n a o s) = if decide (b = a) then Ok (mkRegRecord n o a) else GetRecord b s.
Proof.
  intros Hs Ha Hb. unfold GetRecord, record_set. rewrite kv_Get_Set by done. destruct (decide (b = a)) as [->|Hne].
  - rewrite decide_True by done. unfold absent. cbn.
    rewrite (proj2 (String.eqb_neq _ _)) by apply reg_record_nonempty. by rewrite reg_record_roundtrip.
  - rewrite decide_False; [done|]. intros H%prefix_key_inj2; done.
Qed.

Lemma absent_resolve n s : absent (kv_Get s (contractAddrKey n)) = true → Resolve n s = Err ErrRegNotFound.
Proof. intros H. unfold Resolve. by rewrite H. Qed.

(** What a registration does: nothing, or its name is new and it writes the name
    and, unless the address has a record, the record. *)
Lemma v2_Register_cases n a o s :
  let s1 := if String.eqb n "" then s else name_set n a s in
  (Register n a o s).2 = s ∧ is_ok (Register n a o s).1 = false ∨
  (n ≠ "" → Resolve n s = Err ErrRegNotFound) ∧
    (Register n a o s = (Err ErrAlreadyRegistered, s1) ∨
     Register n a o s = (Ok (), record_set n a o s1) ∧ GetRecord a s1 = Err ErrRegNotFound).
Proof.
  intros s1. unfold Register. unfold s1. clear s1.
  assert (Htail : ∀ t, let r := (data ← gets (λ s : T, kv_Get s (contractRecordKey a));
      guard_not (negb (absent data)) ErrAlreadyRegistered;;
      modify (kv_Set (contractRecordKey a) (marshal_Record (mkRegRecord n o a)))) t in
    r = (Err ErrAlreadyRegistered, t) ∨ r = (Ok (), record_set n a o t) ∧ GetRecord a t = Err ErrRegNotFound).
  { intros t. m_eval. destruct (absent _) eqn:Ha; cbn [negb]; [right|by left]. split; [done|].
    unfold GetRecord. by rewrite Ha. }
  destruct (String.eqb_spec n "") as [->|Hn].
  { right. split; [done|]. erewrite bind_ok by reflexivity. apply Htail. }
  destruct (validateName n) as [[]|e|] eqn:Hv; [|left; by m_eval..].
  destruct (absent (kv_Get s (contractAddrKey n))) eqn:Hab.
  - right. split; [intros _; by apply absent_resolve|].
    rewrite (bind_ok _ _ s () (name_set n a s)); [apply Htail|]. m_eval. by rewrite Hab.
  - left. m_eval. by rewrite Hab.
Qed.

Lemma s1_ok n a s : kv_ok s → kv_ok (if String.eqb n "" then s else name_set n a s).
Proof. intros Hs. destruct (String.eqb n ""); [done|]. by apply kv_Set_ok. Qed.

Lemma s1_resolve n a s m :
  kv_ok s → wf_address a →
  Resolve m (if String.eqb n "" then s else name_set n a s) =
    if decide (n ≠ "" ∧ m = n) then Ok a else Resolve m s.
Proof.
  intros Hs Ha. destruct (String.eqb_spec n "") as [->|Hn]; [by rewrite decide_False by naive_solver|].
  rewrite Resolve_name_set by done. apply decide_ext. naive_solver.
Qed.

Lemma v2_registry_spec : RegistrySpec T kv_ok.
Proof.
  split; cbn.
  - intros n a o s Hs Ha. pose proof (s1_ok n a s Hs) as Hs1.
    destruct (v2_Register_cases n a o s) as [[-> _]|[_ [->|[-> _]]]]; [done|done|]. by apply kv_Set_ok.
  - intros n a o s m b Hs Ha Hm. pose proof (s1_ok n a s Hs) as Hs1.
    destruct (v2_Register_cases n a o s) as [[-> _]|[Hn Hcase]]; [done|].
    assert (H1 : Resolve m (if String.eqb n "" then s else name_set n a s) = Ok b).
    { rewrite s1_resolve by done. rewrite decide_False; [done|]. intros [Hne ->]. by rewrite (Hn Hne) in Hm. }
    destruct Hcase as [->|[-> _]]; [done|]. cbn. by rewrite Resolve_record_set.
  - intros n a o s s' Hs Ha Hne H. pose proof (s1_ok n a s Hs) as Hs1.
    destruct (v2_Register_cases n a o s) as [[_ Hf]|[Hn [Heq|[Heq _]]]]; [by rewrite H in Hf|by rewrite H in Heq|].
    rewrite Heq in H. injection H as <-. split_and!.
    + rewrite Resolve_record_set, s1_resolve by done. by rewrite decide_True.
    + by rewrite (Hn Hne).
    + intros m Hm. rewrite Resolve_record_set, s1_resolve by done. rewrite decide_False; [done|]. by intros [_ ?].
Qed.

(** Names resolve to contracts with a record under that name. *)
Definition names_recorded s : Prop :=
  ∀ n a, Resolve n s = Ok a → wf_address a ∧ ∃ r, GetRecord a s = Ok r ∧ rr_Name r = n ∧ rr_Address r = a.

Lemma Register_recorded n a o s s' :
  kv_ok s → wf_address a → names_recorded s → Register n a o s = (Ok (), s') → names_recorded s'.
Proof.
  intros Hs Ha Hrec H m b Hm. pose proof (s1_ok n a s Hs) as Hs1.
  destruct (v2_Register_cases n a o s) as [[_ Hf]|[Hn [Heq|[Heq Hnew]]]]; [by rewrite H in Hf|by rewrite H in Heq|].
  rewrite Heq in H. injection H as <-. rewrite Resolve_record_set, s1_resolve in Hm by done.
  case_decide as Hd.
  - injection Hm as <-. split; [done|]. destruct Hd as [_ ->]. eexists.
    rewrite GetRecord_record_set, decide_True by done. done.
  - destruct (Hrec m b Hm) as (Hb & r & Hr & Hrn & Hra). split; [done|]. exists r.
    assert (Hr1 : GetRecord b (if String.eqb n "" then s else name_set n a s) = Ok r).
    { destruct (String.eqb n ""); [done|]. by rewrite GetRecord_name_set. }
    rewrite GetRecord_record_set by done. rewrite decide_False; [done|]. intros ->. congruence.
Qed.
End V2.
End V2.

(** ** The factory *)

Definition LatestRegistryVersion : Z := 2.

Definition RegistryVersionFromInt (v : Z) : Res Z :=
  if (v <? 0) || (LatestRegistryVersion <? v) then Err ErrInvalidVersion
  else if v =? 0 then Ok 1 else Ok v.

Section Factory.
Context {LIB : DiademLib} {RL : RegistryLib} {T : Type} {KV : KVStore T}.

Definition NewRegistryFactory (v : Z) : Res (Registry T) :=
  if v =? 1 then Ok V1.registry
  else if v =? 2 then Ok V2.registry
  else Err ErrInvalidVersion.

Context {SPEC : DiademLibSpec} {RLS : RegistryLibSpec} {KVS : KVStoreSpec T}.

(** Registrations, whether they succeed or not. *)
Definition reg_step (R : Registry T) (s s' : T) : Prop :=
  ∃ n a o, wf_address a ∧ s' = (reg_Register n a o s).2.

Lemma factory_spec v R : NewRegistryFactory v = Ok R → RegistrySpec T (H := R) kv_ok.
Proof.
  unfold NewRegistryFactory. repeat case_match; intros [= <-]; [apply V1.v1_registry_spec|apply V2.v2_registry_spec].
Qed.

Lemma steps_permanent (R : Registry T) s s' n a :
  RegistrySpec T (H := R) kv_ok → kv_ok s → rtc (reg_step R) s s' → reg_Resolve n s = Ok a →
  kv_ok s' ∧ reg_Resolve n s' = Ok a.
Proof.
  intros HR Hs Hsteps. revert Hs. induction Hsteps as [s|s s1 s2 (m & b & o & Hb & ->) _ IH]; intros Hs Hn; [done|].
  apply IH; [by apply reg_good|by apply reg_permanent].
Qed.

(** C35. A contract registered under a name is found under it ever after: with either
    version of the registry, once a registration of a name has succeeded the name
    resolves to that address after any further registrations, and every attempt to
    register it again fails. *)
Theorem registered_contracts_stay_found v R s s1 s2 n a o :
  NewRegistryFactory v = Ok R → kv_ok s → wf_address a → n ≠ "" →
  reg_Register n a o s = (Ok (), s1) → rtc (reg_step R) s1 s2 →
  reg_Resolve n s2 = Ok a ∧ ∀ b p, wf_address b → is_ok (reg_Register n b p s2).1 = false.
Proof.
  intros HR%factory_spec Hs Ha Hn Hreg Hsteps.
  destruct (reg_registers n a o s s1 Hs Ha Hn Hreg) as (H1 & _ & _).
  assert (Hs1 : kv_ok s1) by (pose proof (reg_good n a o s Hs Ha) as H; by rewrite Hreg in H).
  destruct (steps_permanent R s1 s2 n a HR Hs1 Hsteps H1) as [Hs2 H2]. split; [done|]. intros b p Hb.
  destruct (reg_Register n b p s2) as [[[]|e|] s3] eqn:H3; [|done..]. exfalso.
  destruct (reg_registers n b p s2 s3 Hs2 Hb Hn H3) as (_ & Hno & _). by rewrite H2 in Hno.
Qed.

(** Registrations of the second version that succeed. *)
Definition v2_step (s s' : T) : Prop := ∃ n a o, wf_address a ∧ V2.Register n a o s = (Ok (), s').

(** In the second version names and records agree: in every state that
    registrations reach from one without names, a name resolves to a contract that
    has a record, with this name and this address. *)
Theorem names_have_records s s' n a :
  kv_ok s → (∀ m, is_ok (V2.Resolve m s) = false) → rtc v2_step s s' → V2.Resolve n s' = Ok a →
  ∃ r, V2.GetRecord a s' = Ok r ∧ rr_Name r = n ∧ rr_Address r = a.
Proof.
  intros Hs Hnone Hsteps Hn.
  assert (Hrec : V2.names_recorded s) by (intros m b Hm; specialize (Hnone m); by rewrite Hm in Hnone).
  clear Hnone. enough (H : V2.names_recorded s') by (by apply H).
  clear Hn. revert Hs Hrec. induction Hsteps as [|s s1 s2 (m & b & o & Hb & Hreg) _ IH]; intros Hs Hrec; [done|].
  pose proof (reg_good (RegistrySpec := V2.v2_registry_spec) m b o s Hs Hb) as Hs1. cbn in Hs1. rewrite Hreg in Hs1.
  apply IH; [done|]. by apply (V2.Register_recorded m b o s).
Qed.
End Factory.

(** ** Witnesses *)

Module RegistryWitness.
Import SimpleLib.
#[local] Instance mem : KVStore MemStore := mem_kvstore (λ k p, Some k).
#[local] Instance mem_spec : KVStoreSpec MemStore := mem_kvstore_spec (λ k p, Some k).
#[local] Instance rlib : RegistryLib := {
  marshal_RegAddress a := "a" +:+ pack a;
  unmarshal_RegAddress b := match b with String _ b => unpack b | _ => None end;
  marshal_Record r := "r" +:+ pack (rr_Name r, rr_Owner r, rr_Address r);
  unmarshal_Record b := match b with
    | String _ b => (λ x : string * Address * Address, mkRegRecord x.1.1 x.1.2 x.2) <$> unpack b
    | _ => None
    end }.
#[local] Instance rlib_spec : RegistryLibSpec.
Proof.
  split.
  - intros a. apply unpack_pack.
  - intros [n o a]. exact (f_equal _ (unpack_pack (n, o, a))).
  - done.
  - done.
  - intros x y H%encode_inj. done.
Qed.

Definition s1 : MemStore := (V2.Register "coin" (sample "C") (sample "o") NewMemStore).2.
Definition s2 : MemStore := (V2.Register "dpos" (sample "D") (sample "o") s1).2.

Lemma s1_run : V2.Register "coin" (sample "C") (sample "o") NewMemStore = (Ok (), s1).
Proof. unfold s1. apply run_ok. by vm_compute. Qed.
Lemma s2_run : V2.Register "dpos" (sample "D") (sample "o") s1 = (Ok (), s2).
Proof. unfold s2. apply run_ok. by vm_compute. Qed.

Lemma found_witness : V2.Resolve "coin" s2 = Ok (sample "C").
Proof.
  destruct (registered_contracts_stay_found (KVS := mem_spec) 2 V2.registry NewMemStore s1 s2 "coin" (sample "C") (sample "o"))
    as [H _].
  - reflexivity.
  - exact I.
  - by split.
  - done.
  - apply s1_run.
  - apply rtc_once. exists "dpos", (sample "D"), (sample "o"). split; [by split|]. reflexivity.
  - exact H.
Defined.

Lemma records_witness : ∃ r, V2.GetRecord (sample "C") s2 = Ok r ∧ rr_Name r = "coin" ∧ rr_Address r = sample "C".
Proof.
  apply (names_have_records (KVS := mem_spec) NewMemStore s2 "coin" (sample "C")).
  - exact I.
  - intros m. unfold V2.Resolve. cbn. by rewrite lookup_empty.
  - eapply rtc_l; [|apply rtc_once].
    + exists "coin", (sample "C"), (sample "o"). split; [by split|apply s1_run].
    + exists "dpos", (sample "D"), (sample "o"). split; [by split|apply s2_run].
  - by vm_compute.
Defined.
End RegistryWitness.
