(* ===== verification/TxHandlers.v ===== *)
(** * Running transactions (src/vm, src/tx_handler, src/migrations)

    The handlers behind the router: a deployment creates a contract and registers
    it, a call runs one, a migration runs a function of the node's code once.

    Virtual machines are a parameter, the record [VM] of the interface's methods;
    which of them there are is the map of the [Manager].  The registry is any
    instance of [Registry]. *)

From stdpp Require Import pretty.
From S2P Require Import Prelude Contract Store Middleware App DeployerWhitelist Registry.

Record DeployTx := mkDeployTx { dt_VmType : VMType; dt_Code : bytes; dt_Value : option Z; dt_Name : string }.
Record CallTx := mkCallTx { ct_VmType : VMType; ct_Input : bytes; ct_Value : option Z }.

#[global] Instance VMType_eq_dec : EqDecision VMType.
Proof. solve_decision. Defined.

(** [proto.Unmarshal] of the three kinds of messages, [proto.Marshal] of
    [DeployResponse]. *)
Class HandlerLib := {
  decode_DeployTx : bytes → option DeployTx;
  decode_CallTx : bytes → option CallTx;
  decode_MigrationTx : bytes → option Z;
  marshal_DeployResponse : Address → bytes → bytes;
}.

Definition DeployEvm : string := "deploy.evm".
Definition DeployPlugin : string := "deploy".
Definition CallEVM : string := "call.evm".
Definition CallPlugin : string := "call".
Definition MigrationTxFeature : string := "tx:migration".
Definition MigrationFeaturePrefix : string := "migration:".
Definition migrationPrefix : string := "migrationId".

Section Handlers.
Context {LIB : DiademLib} {VML : VmLib} {HLIB : HandlerLib} {T E : Type} {KV : KVStore T} {REG : Registry T}.
Abbreviation W := (TxWorld T E).

Record VM := mkVM {
  vm_Create (caller : Address) (code : bytes) (value : Z) : M W (bytes * Address);
  vm_Call (caller addr : Address) (input : bytes) (value : Z) : M W bytes;
}.

(** [Manager]: the factories by type. *)
Definition Manager : Type := VMType → option (TxState → M W VM).

Definition NewManager : Manager := λ _, None.
Definition Manager_Register (typ : VMType) (fac : TxState → M W VM) (m : Manager) : Manager :=
  λ t, if decide (t = typ) then Some fac else m t.
Definition InitVM (m : Manager) (typ : VMType) (state : TxState) : M W VM :=
  match m typ with
  | None => throw (ErrMsg "vm type not found")
  | Some fac => fac state
  end.

(** The part that the handlers share: the message, whose sender is the origin. *)
Definition read_message (state : TxState) (txBytes : bytes) : M W (MessageTx * Address) :=
  match unmarshal_MessageTx txBytes with
  | None => throw errUnmarshal
  | Some msg =>
      origin ← Origin state;
      caller ← deref (msg_From msg);
      guard_not (negb (address_compare caller origin =? 0)) (ErrMsg "Origin doesn't match caller");;
      mret (msg, origin)
  end.

(** The error of the registration is dropped. *)
Definition DeployTxHandler_ProcessTx (m : Manager) : TxHandler (T := T) (E := E) := λ state txBytes isCheckTx,
  '(msg, origin) ← read_message state txBytes;
  match decode_DeployTx (msg_Data msg) with
  | None => throw errUnmarshal
  | Some tx =>
      vm ← InitVM m (dt_VmType tx) state;
      '(retCreate, addr) ← vm_Create vm origin (dt_Code tx) (default 0 (dt_Value tx));
      let response := marshal_DeployResponse addr retCreate in
      ignore_err (on_tx (reg_Register (dt_Name tx) addr origin));;
      mret (mkResult response (if decide (dt_VmType tx = VMType_EVM) then DeployEvm else DeployPlugin))
  end.

(** The address of the contract is read before the sender is checked. *)
Definition CallTxHandler_ProcessTx (m : Manager) : TxHandler (T := T) (E := E) := λ state txBytes isCheckTx,
  match unmarshal_MessageTx txBytes with
  | None => throw errUnmarshal
  | Some msg =>
      origin ← Origin state;
      caller ← deref (msg_From msg);
      addr ← deref (msg_To msg);
      guard_not (negb (address_compare caller origin =? 0)) (ErrMsg "Origin doesn't match caller");;
      match decode_CallTx (msg_Data msg) with
      | None => throw errUnmarshal
      | Some tx =>
          vm ← InitVM m (ct_VmType tx) state;
          data ← vm_Call vm origin addr (ct_Input tx) (default 0 (ct_Value tx));
          mret (mkResult data (if decide (ct_VmType tx = VMType_EVM) then CallEVM else CallPlugin))
      end
  end.

(** ** Migrations *)

Definition migrationKey (migrationTxID : Z) : bytes := prefix_key [migrationPrefix; be_encode 4 migrationTxID].

(** The functions of the node, by number; they are run for the caller. *)
Definition MigrationTxHandler_ProcessTx (migrations : Z → option (Address → M W unit)) :
    TxHandler (T := T) (E := E) := λ state txBytes isCheckTx,
  enabled ← gets (λ w, FeatureEnabled (tw_store w) MigrationTxFeature false);
  guard_not (negb enabled) (ErrMsg "MigrationTx feature hasn't been enabled");;
  '(msg, origin) ← read_message state txBytes;
  match decode_MigrationTx (msg_Data msg) with
  | None => throw (ErrMsg "failed to unmarshal MigrationTx")
  | Some id =>
      migrationRun ← gets (λ w, kv_Get (tw_store w) (migrationKey id));
      guard_not (bool_decide (is_Some migrationRun)) (ErrMsg "migration has already been processed");;
      allowed ← gets (λ w, FeatureEnabled (tw_store w) (MigrationFeaturePrefix +:+ pretty (Z.to_N id)) false);
      guard_not (negb allowed) (ErrMsg "feature is not enabled");;
      match migrations (i32 id) with
      | None => throw (ErrMsg "invalid migration ID")
      | Some migrationFn =>
          migrationFn origin;;
          on_tx (modify (kv_Set (migrationKey id) (msg_Data msg)));;
          mret (mkResult "" "")
      end
  end.

(** [MigrationContext.DeployContract] with the code that a loader has found. *)
Definition MigrationContext_DeployContract (m : Manager) (state : TxState) (caller : Address)
    (loader : option (Res bytes)) (vmType : VMType) (name : string) : M W Address :=
  vm ← InitVM m vmType state;
  match loader with
  | None => throw (ErrMsg "loader not found")
  | Some r =>
      initCode ← lift_res r;
      '(_, addr) ← vm_Create vm caller initCode 0;
      on_tx (reg_Register name addr caller);;
      mret addr
  end.

(** ** Theorems *)

Context {SPEC : DiademLibSpec} {KVS : KVStoreSpec T}.
Implicit Types w : W.

Lemma read_message_inv st b w msg origin w' :
  read_message st b w = (Ok (msg, origin), w') →
  w' = w ∧ unmarshal_MessageTx b = Some msg ∧ ts_origin st = Some origin ∧ msg_From msg = Some origin.
Proof.
  unfold read_message. destruct (unmarshal_MessageTx b) as [m|] eqn:Hm; [|done]. intros H.
  apply bind_inv in H as (o & w1 & [Ho ->]%deref_inv & H). apply bind_inv in H as (c & w1 & [Hc ->]%deref_inv & H).
  apply bind_inv in H as ([] & w1 & [Hcmp ->]%guard_not_inv & H). apply ret_inv in H as [[= -> ->] ->].
  apply negb_false_iff, (cmp_eqb address_compare) in Hcmp. subst. done.
Qed.

Lemma read_message_run st b w msg origin :
  unmarshal_MessageTx b = Some msg → ts_origin st = Some origin → msg_From msg = Some origin →
  read_message st b w = (Ok (msg, origin), w).
Proof.
  intros Hm Ho Hf. unfold read_message, Origin. rewrite Hm, Ho, Hf. m_eval.
  by rewrite (proj2 (cmp_eqb address_compare origin origin)).
Qed.

(** A migration runs once: after one has succeeded it is marked in the state,
    and as long as the mark is there every transaction for the same migration, by
    whomever, fails and changes nothing. *)
Theorem migration_runs_once migrations st txBytes check w r w' msg id :
  MigrationTxHandler_ProcessTx migrations st txBytes check w = (Ok r, w') →
  (∀ f o, migrations (i32 id) = Some f → preserves (λ w, kv_ok (tw_store w)) (f o)) → kv_ok (tw_store w) →
  unmarshal_MessageTx txBytes = Some msg → decode_MigrationTx (msg_Data msg) = Some id →
  kv_Get (tw_store w) (migrationKey id) = None ∧ is_Some (kv_Get (tw_store w') (migrationKey id)) ∧
  ∀ migrations' st' txBytes' check' w1 msg' o,
    is_Some (kv_Get (tw_store w1) (migrationKey id)) → ts_origin st' = Some o →
    unmarshal_MessageTx txBytes' = Some msg' → is_Some (msg_From msg') → decode_MigrationTx (msg_Data msg') = Some id →
    ∃ e, MigrationTxHandler_ProcessTx migrations' st' txBytes' check' w1 = (Err e, w1).
Proof.
  intros H Hpres Hok Hm Hid. unfold MigrationTxHandler_ProcessTx in H.
  apply bind_inv in H as (en & w1 & [-> ->]%gets_inv & H). apply bind_inv in H as ([] & w1 & [_ ->]%guard_not_inv & H).
  apply bind_inv in H as ([m o] & w1 & Hr & H). apply read_message_inv in Hr as (-> & Hm' & _).
  rewrite Hm in Hm'. injection Hm' as <-. rewrite Hid in H.
  apply bind_inv in H as (run & w1 & [-> ->]%gets_inv & H). apply bind_inv in H as ([] & w1 & [Hrun ->]%guard_not_inv & H).
  apply bind_inv in H as (al & w1 & [-> ->]%gets_inv & H). apply bind_inv in H as ([] & w1 & [_ ->]%guard_not_inv & H).
  destruct (migrations (i32 id)) as [f|] eqn:Hf; [|done]. apply bind_inv in H as ([] & w1 & Hfn & H).
  apply bind_inv in H as ([] & w2 & Hset & H). apply ret_inv in H as [_ ->]. injection Hset as <-.
  split_and!.
  - apply bool_decide_eq_false in Hrun. by apply eq_None_not_Some.
  - cbn. assert (Hok1 : kv_ok (tw_store w1)).
    { pose proof (Hpres f o eq_refl w Hok) as Hw. unfold wp in Hw. by rewrite Hfn in Hw. }
    rewrite kv_Get_Set, decide_True by done. by eexists.
  - clear - SPEC. intros migrations' st' txBytes' check' w1 msg' o Hset Ho Hm [from Hfrom] Hid.
    unfold MigrationTxHandler_ProcessTx. m_eval. destruct (FeatureEnabled _ _ _); cbn [negb]; [|by eexists].
    unfold read_message, Origin. rewrite Hm, Ho, Hfrom. m_eval. destruct (negb _); [by eexists|].
    rewrite Hid. rewrite bool_decide_true by done. by eexists.
Qed.

(** The virtual machine acts for the origin only: a deployment or call whose
    message names another sender than the origin of the transaction fails before
    any contract is created or run, and changes nothing; a deployment that succeeds
    has created the contract for its origin and has tried to register it, under its
    name, with the origin as owner. *)
Theorem handlers_act_for_their_origin m st txBytes check w origin msg :
  ts_origin st = Some origin → unmarshal_MessageTx txBytes = Some msg → is_Some (msg_From msg) → is_Some (msg_To msg) →
  (msg_From msg ≠ Some origin →
     (∃ e, DeployTxHandler_ProcessTx m st txBytes check w = (Err e, w)) ∧
     (∃ e, CallTxHandler_ProcessTx m st txBytes check w = (Err e, w))) ∧
  (∀ r w', DeployTxHandler_ProcessTx m st txBytes check w = (Ok r, w') →
     ∃ tx vm out addr w0 w1, decode_DeployTx (msg_Data msg) = Some tx ∧ InitVM m (dt_VmType tx) st w = (Ok vm, w0) ∧
       vm_Create vm origin (dt_Code tx) (default 0 (dt_Value tx)) w0 = (Ok (out, addr), w1) ∧
       r_Data r = marshal_DeployResponse addr out ∧
       w' = mkTxWorld (reg_Register (dt_Name tx) addr origin (tw_store w1)).2 (tw_nonce w1) (tw_env w1)).
Proof.
  intros Ho Hm [from Hf] [to Ht]. split.
  - intros Hne. rewrite Hf in Hne. assert (Hcmp : (address_compare from origin =? 0) = false)
      by (apply (cmp_eqb_false address_compare); congruence).
    unfold DeployTxHandler_ProcessTx, CallTxHandler_ProcessTx, read_message, Origin. rewrite Hm, Ho, Hf, Ht. m_eval.
    rewrite Hcmp. cbn. split; by eexists.
  - intros r w' H. unfold DeployTxHandler_ProcessTx in H. apply bind_inv in H as ([m' o] & w1 & Hr & H).
    apply read_message_inv in Hr as (-> & Hm' & Ho' & _). rewrite Hm in Hm'. rewrite Ho in Ho'.
    injection Hm' as <-. injection Ho' as <-. destruct (decode_DeployTx (msg_Data msg)) as [tx|]; [|done].
    apply bind_inv in H as (vm & w0 & Hvm & H). apply bind_inv in H as ([out addr] & w1 & Hcr & H).
    exists tx, vm, out, addr, w0, w1. unfold ignore_err in H. apply bind_inv in H as ([] & w2 & Hreg & H).
    apply ret_inv in H as [-> ->]. split_and!; [done..|]. apply bind_inv in Hreg as (x & w3 & Htry & Hret).
    apply ret_inv in Hret as [_ ->]. unfold try_, on_tx, zoom in Htry.
    destruct (reg_Register (dt_Name tx) addr origin (tw_store w1)) as [[[]| |] t]; [..|done]; by injection Htry as _ <-.
Qed.
End Handlers.

(** ** Witnesses *)

Module HandlerWitness.
Import SimpleLib.
#[local] Instance mem : KVStore MemStore := mem_kvstore (λ k p, Some k).
#[local] Instance mem_spec : KVStoreSpec MemStore := mem_kvstore_spec (λ k p, Some k).
#[local] Existing Instance RegistryWitness.rlib.
#[local] Instance reg : Registry MemStore := V2.registry.

(** Messages are all of one kind, from [sample "a"]. *)
#[local] Instance vmlib : VmLib := {
  unmarshal_MessageTx b := Some (mkMessageTx (Some (sample "a")) (Some (sample "c")) b);
  unmarshal_DeployTx b := Some VMType_EVM }.
#[local] Instance hlib : HandlerLib := {
  decode_DeployTx b := Some (mkDeployTx VMType_EVM b None "token"); decode_CallTx b := Some (mkCallTx VMType_EVM b None);
  decode_MigrationTx b := Some 1; marshal_DeployResponse a out := pack a }.

Abbreviation World := (TxWorld MemStore unit).
Definition vm : VM (T := MemStore) (E := unit) :=
  mkVM (λ caller code value, mret ("out", sample "n")) (λ caller addr input value, mret "result").
Definition manager : Manager (T := MemStore) (E := unit) := Manager_Register VMType_EVM (λ _, mret vm) NewManager.
Definition state : TxState := mkTxState "diadem" 5 (Some (sample "a")).
Definition migrations (i : Z) : option (Address → M World unit) := if i =? 1 then Some (λ _, mret ()) else None.

Definition store0 : MemStore := SetFeature "migration:1" true (SetFeature "tx:migration" true NewMemStore).
Definition w0 : World := mkTxWorld store0 (mkNonceHandler ∅ 0) ().
Definition w1 : World := (MigrationTxHandler_ProcessTx migrations state "tx" false w0).2.

Lemma migration_witness : ∃ e, MigrationTxHandler_ProcessTx migrations state "again" false w1 = (Err e, w1).
Proof.
  destruct (migration_runs_once (KVS := mem_spec) migrations state "tx" false w0 (mkResult "" "") w1
    (mkMessageTx (Some (sample "a")) (Some (sample "c")) "tx") 1) as (_ & Hset & Hagain).
  - unfold w1. apply run_ok. by vm_compute.
  - intros f o H w Hw. exact I.
  - exact I.
  - reflexivity.
  - reflexivity.
  - apply (Hagain migrations state "again" false w1 (mkMessageTx (Some (sample "a")) (Some (sample "c")) "again") (sample "a"));
      [exact Hset|reflexivity|reflexivity|by eexists|reflexivity].
Defined.

Definition r1 : TxHandlerResult := mkResult (pack (sample "n")) DeployEvm.
Definition w2 : World := (DeployTxHandler_ProcessTx manager state "code" false w0).2.

Lemma handler_deploy_witness :
  ∃ addr, r_Data r1 = pack addr ∧ V2.Resolve "token" (tw_store w2) = Ok addr.
Proof.
  destruct (handlers_act_for_their_origin manager state "code" false w0 (sample "a")
    (mkMessageTx (Some (sample "a")) (Some (sample "c")) "code")) as [_ H].
  - reflexivity.
  - reflexivity.
  - by eexists.
  - by eexists.
  - destruct (H r1 w2) as (tx & v & out & addr & x0 & x1 & Htx & Hvm & Hcr & Hdata & Hw).
    + unfold w2. apply run_ok. by vm_compute.
    + injection Htx as <-. injection Hvm as <- <-. injection Hcr as _ <- _. exists (sample "n").
      split; [reflexivity|]. clear. by vm_compute.
Defined.
End HandlerWitness.
