(* ===== verification/FnConsensus.v ===== *)
(** * Votes on off-chain functions (src/fnConsensus/types.go)

    Validators run a function off the chain, sign what it returned and gossip vote
    sets, which nodes merge until enough of the voting power agrees.  Here are the
    types of types.go with all their methods and the registry of functions
    (registry.go); the reactor that sends vote sets around is in FnReactor.v.

    Bit arrays, validator sets, keys and the amino codec are Tendermint's: class
    [TendermintLib], with [TendermintSpec] for what is used of them.  Slices and
    pointers that may be nil are options; reading out of range is a panic. *)

From stdpp Require Import pretty.
From S2P Require Import Prelude Contract.

Inductive SigningThreshold := Maj23SigningThreshold | AllSigningThreshold | UnknownThreshold (s : string).

Class TendermintLib := {
  (** [cmn.BitArray]; the methods are safe on a nil receiver *)
  BitArray : Type;
  ba_New : nat → BitArray;
  ba_Size : BitArray → nat;
  ba_GetIndex : BitArray → nat → bool;
  ba_SetIndex : nat → bool → BitArray → BitArray;
  (** [crypto.PubKey] *)
  PubKey : Type;
  pk_Address : PubKey → bytes;
  pk_VerifyBytes : PubKey → bytes → bytes → bool;
  (** [types.ValidatorSet]; a validator is its address, key and power *)
  ValidatorSet : Type;
  vs_Size : ValidatorSet → nat;
  vs_GetByIndex : ValidatorSet → nat → option (bytes * PubKey * Z);
  vs_TotalVotingPower : ValidatorSet → Z;
  vs_Hash : ValidatorSet → bytes;
  (** [cdc.MarshalBinaryLengthPrefixed] of [FnExecutionRequest] and of
      [FnIndividualExecutionResponse] *)
  cdc_request : string → bytes;
  cdc_individual : option bytes → option bytes → bytes;
}.

Class TendermintSpec `{TendermintLib} : Prop := {
  ba_Size_New n : ba_Size (ba_New n) = n;
  ba_Get_New n i : ba_GetIndex (ba_New n) i = false;
  ba_Size_Set i b a : ba_Size (ba_SetIndex i b a) = ba_Size a;
  ba_Get_Set i b a j :
    ba_GetIndex (ba_SetIndex i b a) j = if decide (i = j ∧ (i < ba_Size a)%nat) then b else ba_GetIndex a j;
  ba_Get_out a i : (ba_Size a <= i)%nat → ba_GetIndex a i = false;
  vs_index vs i : is_Some (vs_GetByIndex vs i) ↔ (i < vs_Size vs)%nat;
  vs_power vs i v : vs_GetByIndex vs i = Some v → 0 < v.2;
  (** the sum is clipped at the largest int64 *)
  vs_total vs :
    vs_TotalVotingPower vs =
      Z.min (2 ^ 63 - 1) (sumZ (λ i, from_option snd 0 (vs_GetByIndex vs i)) (seq 0 (vs_Size vs)));
}.

Section Types.
Context {TM : TendermintLib}.

(** Methods of a bit array on a pointer. *)
Definition bits_Size (o : option BitArray) : nat := from_option ba_Size O o.
Definition bits_Get (o : option BitArray) (i : nat) : bool := from_option (λ b, ba_GetIndex b i) false o.
Definition bits_Set (i : nat) (o : option BitArray) : option BitArray := ba_SetIndex i true <$> o.

(** [l[i]] and [l[i] = x] *)
Definition at_ {A} (l : list A) (i : nat) : Res A := match l !! i with Some x => Ok x | None => Panic end.
Definition set_at {A} (l : list A) (i : nat) (x : A) : Res (list A) :=
  if (i <? length l)%nat then Ok (<[i := x]> l) else Panic.
(** A pointer that is dereferenced. *)
Definition ptr {A} (o : option A) : Res A := match o with Some x => Ok x | None => Panic end.
(** [bytes.Equal]: nil and empty are equal. *)
Definition bytes_Equal (x y : option bytes) : bool := String.eqb (default "" x) (default "" y).
(** A loop over indices that updates a value. *)
Fixpoint loop {A} (f : nat → A → Res A) (is_ : list nat) (a : A) : Res A :=
  match is_ with [] => Ok a | i :: is_ => a' ← f i a; loop f is_ a' end.

(** ** Responses *)

Record FnIndividualExecutionResponse := mkIndividual { in_Hash : option bytes; in_OracleSignature : option bytes }.

Record FnExecutionResponse := mkResponse {
  Hashes : option (list (option bytes));
  SignatureBitArray : option BitArray;
  OracleSignatures : option (list (option bytes));
}.

Record FnAggregateExecutionResponse := mkAggregate {
  ag_Hash : option bytes; ag_SignatureBitArray : BitArray; ag_OracleSignatures : list (option bytes) }.

Definition hashes (f : FnExecutionResponse) : list (option bytes) := default [] (Hashes f).
Definition oracle_sigs (f : FnExecutionResponse) : list (option bytes) := default [] (OracleSignatures f).

Definition AgreeIndex (ownValidatorIndex : nat) (f : FnAggregateExecutionResponse) : Z :=
  if negb (ba_GetIndex (ag_SignatureBitArray f) ownValidatorIndex) then -1
  else foldl (λ agreeVoteIndex i, if ba_GetIndex (ag_SignatureBitArray f) i then agreeVoteIndex + 1 else agreeVoteIndex) (-1)
         (seq 0 (S ownValidatorIndex)).

Definition NumberOfAgreeVotes (f : FnAggregateExecutionResponse) : Z :=
  foldl (λ n i, if ba_GetIndex (ag_SignatureBitArray f) i then n + 1 else n) 0 (seq 0 (ba_Size (ag_SignatureBitArray f))).

Definition Response_CannonicalCompare (f remote : FnExecutionResponse) : bool :=
  (length (hashes f) =? length (hashes remote))%nat &&
  (bits_Size (SignatureBitArray f) =? bits_Size (SignatureBitArray remote))%nat &&
  (length (oracle_sigs f) =? length (oracle_sigs remote))%nat.

(** One index of [Merge]: a response that only the other side has is taken over. *)
Definition merge_response_at (another : FnExecutionResponse) (i : nat) (x : bool * FnExecutionResponse) :
    Res (bool * FnExecutionResponse) :=
  let '(changed, f) := x in
  if bits_Get (SignatureBitArray f) i || negb (bits_Get (SignatureBitArray another) i) then Ok (changed, f)
  else
    s ← at_ (oracle_sigs another) i;
    sigs ← set_at (oracle_sigs f) i s;
    h ← at_ (hashes another) i;
    hs ← set_at (hashes f) i h;
    Ok (true, mkResponse (Some hs) (bits_Set i (SignatureBitArray f)) (Some sigs)).

Definition Response_Merge (f : FnExecutionResponse) (another : option FnExecutionResponse) : Res (bool * FnExecutionResponse) :=
  match another with
  | None => Err (ErrMsg "cant merge as another execution response is nil")
  | Some another =>
      if negb (Response_CannonicalCompare f another)
      then Err (ErrMsg "cant merge as another execution response is different")
      else loop (merge_response_at another) (seq 0 (length (oracle_sigs f))) (false, f)
  end.

Definition response_valid_at (f : FnExecutionResponse) (i : nat) (_ : unit) : Res unit :=
  sig ← at_ (oracle_sigs f) i;
  h ← at_ (hashes f) i;
  let oracleSignatureBytesPresent := bool_decide (is_Some sig) in
  if negb (Bool.eqb oracleSignatureBytesPresent (bits_Get (SignatureBitArray f) i))
  then Err (ErrMsg "mismatch between oracle signature array and signature flag")
  else if negb (Bool.eqb oracleSignatureBytesPresent (bool_decide (is_Some h)))
  then Err (ErrMsg "mismatch between oracle signature array and hashes array")
  else Ok ().

Definition Response_IsValid (vals : ValidatorSet) (f : FnExecutionResponse) : Res unit :=
  if bool_decide (Hashes f = None) then Err (ErrMsg "executionResponse's hashes field cant be nil")
  else if negb (bool_decide (is_Some (SignatureBitArray f))) then Err (ErrMsg "executionResponse's SignatureBitArray cant be nil")
  else if bool_decide (OracleSignatures f = None) then Err (ErrMsg "executionResponse's OracleSignatures field cant be nil")
  else if negb (vs_Size vals =? length (oracle_sigs f))%nat then Err (ErrMsg "oracle signature's length does not match")
  else if negb (vs_Size vals =? length (hashes f))%nat then Err (ErrMsg "hashes' length does not match")
  else if negb (vs_Size vals =? bits_Size (SignatureBitArray f))%nat then Err (ErrMsg "signature bit array's size does not mach")
  else loop (response_valid_at f) (seq 0 (vs_Size vals)) ().

Definition Response_SignBytes (validatorIndex : nat) (f : FnExecutionResponse) : Res bytes :=
  h ← at_ (hashes f) validatorIndex;
  s ← at_ (oracle_sigs f) validatorIndex;
  Ok (cdc_individual h s).

Definition Response_Compare (f remote : FnExecutionResponse) : Res bool :=
  if negb (Response_CannonicalCompare f remote) then Ok false
  else
    same ← loop (λ i (ok : bool),
      if negb ok then Ok false
      else if negb (Bool.eqb (bits_Get (SignatureBitArray f) i) (bits_Get (SignatureBitArray remote) i)) then Ok false
      else x ← at_ (oracle_sigs f) i; y ← at_ (oracle_sigs remote) i; Ok (bytes_Equal x y))
      (seq 0 (length (oracle_sigs f))) true;
    if negb same then Ok false
    else loop (λ i (ok : bool),
      if negb ok then Ok false
      else x ← at_ (hashes f) i; y ← at_ (hashes remote) i; Ok (bytes_Equal x y))
      (seq 0 (length (hashes f))) true.

Definition AddSignature (individual : FnIndividualExecutionResponse) (validatorIndex : nat) (f : FnExecutionResponse) :
    Res FnExecutionResponse :=
  if bits_Get (SignatureBitArray f) validatorIndex then Err (ErrMsg "Fn Response signature is already present")
  else
    sigs ← set_at (oracle_sigs f) validatorIndex (in_OracleSignature individual);
    hs ← set_at (hashes f) validatorIndex (in_Hash individual);
    Ok (mkResponse (Some hs) (bits_Set validatorIndex (SignatureBitArray f)) (Some sigs)).

(** The tally of [ToMajResponse]: the power behind each hash (the map's keys are the
    hashes in hexadecimal, which are as good as the hashes), and the hash that was
    first to reach the highest power. *)
Record Tally := mkTally { ty_map : gmap bytes Z; ty_hash : option bytes; ty_power : Z }.

Definition tally_at (vals : ValidatorSet) (f : FnExecutionResponse) (i : nat) (t : Tally) : Res Tally :=
  h ← at_ (hashes f) i;
  match h with
  | None => Ok t
  | Some hash =>
      match vs_GetByIndex vals i with
      | None => Panic
      | Some val =>
          let power := i64 (default 0 (ty_map t !! hash) + val.2) in
          let m := <[hash := power]> (ty_map t) in
          if ty_power t <? power then Ok (mkTally m (Some hash) power) else Ok (mkTally m (ty_hash t) (ty_power t))
      end
  end.

Definition agree_at (f : FnExecutionResponse) (highest : option bytes) (i : nat) (x : BitArray * list (option bytes)) :
    Res (BitArray * list (option bytes)) :=
  h ← at_ (hashes f) i;
  if bytes_Equal highest h then
    s ← at_ (oracle_sigs f) i;
    sigs ← set_at x.2 i s;
    Ok (ba_SetIndex i true x.1, sigs)
  else Ok x.

(** [total*2/3 + 1] on 64 bits. *)
Definition two_thirds (vals : ValidatorSet) : Z := i64 (i64 (vs_TotalVotingPower vals * 2) ÷ 3 + 1).

Definition ToMajResponse (signingThreshold : SigningThreshold) (vals : ValidatorSet) (f : FnExecutionResponse) :
    Res (option FnAggregateExecutionResponse) :=
  t ← loop (tally_at vals f) (seq 0 (length (hashes f))) (mkTally ∅ None (-1));
  '(bits, sigs) ← loop (agree_at f (ty_hash t)) (seq 0 (length (hashes f)))
                    (ba_New (vs_Size vals), replicate (vs_Size vals) None);
  let aggregate := mkAggregate (ty_hash t) bits sigs in
  match signingThreshold with
  | Maj23SigningThreshold => Ok (if two_thirds vals <=? ty_power t then Some aggregate else None)
  | AllSigningThreshold => Ok (if ty_power t =? vs_TotalVotingPower vals then Some aggregate else None)
  | UnknownThreshold _ => Panic
  end.

Definition NewFnExecutionResponse (individual : FnIndividualExecutionResponse) (validatorIndex : nat) (vals : ValidatorSet) :
    Res FnExecutionResponse :=
  hs ← set_at (replicate (vs_Size vals) None) validatorIndex (in_Hash individual);
  sigs ← set_at (replicate (vs_Size vals) None) validatorIndex (in_OracleSignature individual);
  Ok (mkResponse (Some hs) (Some (ba_SetIndex validatorIndex true (ba_New (vs_Size vals)))) (Some sigs)).

(** ** Payloads *)

(** [FnExecutionRequest] is its [FnID]. *)
Record FnVotePayload := mkPayload { Request : option string; Response : option FnExecutionResponse }.

Definition Payload_IsValid (vals : ValidatorSet) (p : FnVotePayload) : Res unit :=
  match Request p, Response p with
  | None, _ => Err (ErrMsg "fnVotePayload's request can't be nil")
  | _, None => Err (ErrMsg "fnVotePayload's response can't be nil")
  | Some _, Some r => Response_IsValid vals r
  end.

Definition Payload_CannonicalCompare (p : FnVotePayload) (remote : option FnVotePayload) : Res bool :=
  match remote with
  | Some (mkPayload (Some req) (Some resp)) =>
      own ← ptr (Request p);
      if negb (String.eqb own req) then Ok false
      else r ← ptr (Response p); Ok (Response_CannonicalCompare r resp)
  | _ => Ok false
  end.

Definition Payload_Compare (p : FnVotePayload) (remote : option FnVotePayload) : Res bool :=
  match remote with
  | Some (mkPayload (Some req) (Some resp)) =>
      own ← ptr (Request p);
      if negb (String.eqb own req) then Ok false
      else r ← ptr (Response p); Response_Compare r resp
  | _ => Ok false
  end.

Definition Payload_Merge (p : FnVotePayload) (another : option FnVotePayload) : Res (bool * FnVotePayload) :=
  match another with
  | None => Err (ErrMsg "can't merge nil payload")
  | Some a =>
      same ← Payload_CannonicalCompare p another;
      if negb same then Err (ErrMsg "can't merge as payload contents are different")
      else
        r ← ptr (Response p);
        '(changed, r') ← Response_Merge r (Response a);
        Ok (changed, mkPayload (Request p) (Some r'))
  end.

(** The separator is the byte 0x50, the letter P. *)
Definition Payload_SignBytes (validatorIndex : nat) (p : FnVotePayload) : Res bytes :=
  req ← ptr (Request p);
  r ← ptr (Response p);
  responseSignBytes ← Response_SignBytes validatorIndex r;
  Ok (cdc_request req +:+ "P" +:+ responseSignBytes).
End Types.

(** ** Vote sets *)

Section VoteSets.
Context {TM : TendermintLib}.

Record FnVoteSet := mkVoteSet {
  Nonce : Z;
  ValidatorsHash : bytes;
  VS_ChainID : string;
  TotalVotingPower : Z;
  VoteBitArray : option BitArray;
  Payload : option FnVotePayload;
  ValidatorSignatures : list (option bytes);
  ValidatorAddresses : option (list (option bytes));
}.

Definition addresses (v : FnVoteSet) : list (option bytes) := default [] (ValidatorAddresses v).

Definition with_payload (p : FnVotePayload) (v : FnVoteSet) : FnVoteSet :=
  mkVoteSet (Nonce v) (ValidatorsHash v) (VS_ChainID v) (TotalVotingPower v) (VoteBitArray v) (Some p)
    (ValidatorSignatures v) (ValidatorAddresses v).
Definition with_vote (bits : option BitArray) (sigs : list (option bytes)) (v : FnVoteSet) : FnVoteSet :=
  mkVoteSet (Nonce v) (ValidatorsHash v) (VS_ChainID v) (TotalVotingPower v) bits (Payload v) sigs (ValidatorAddresses v).
Definition with_power (power : Z) (v : FnVoteSet) : FnVoteSet :=
  mkVoteSet (Nonce v) (ValidatorsHash v) (VS_ChainID v) power (VoteBitArray v) (Payload v)
    (ValidatorSignatures v) (ValidatorAddresses v).
Definition with_addresses (l : list (option bytes)) (v : FnVoteSet) : FnVoteSet :=
  mkVoteSet (Nonce v) (ValidatorsHash v) (VS_ChainID v) (TotalVotingPower v) (VoteBitArray v) (Payload v)
    (ValidatorSignatures v) (Some l).

(** The bytes 17, 19, 23 and 29. *)
Definition separator : bytes :=
  String (Ascii.ascii_of_nat 17) (String (Ascii.ascii_of_nat 19) (String (Ascii.ascii_of_nat 23) (String (Ascii.ascii_of_nat 29) ""))).

Definition SignBytes (validatorIndex : nat) (v : FnVoteSet) : Res bytes :=
  p ← ptr (Payload v);
  payloadBytes ← Payload_SignBytes validatorIndex p;
  addr ← at_ (addresses v) validatorIndex;
  Ok ("NONCE:" +:+ pretty (Nonce v) +:+ "|CD:" +:+ VS_ChainID v +:+ "|VA:" +:+ default "" addr +:+ "|PL:" +:+
      separator +:+ ValidatorsHash v +:+ separator +:+ payloadBytes).

Definition verifyInternal (signature : option bytes) (validatorIndex : nat) (validatorAddress : option bytes)
    (pubKey : PubKey) (v : FnVoteSet) : Res unit :=
  if negb (bytes_Equal (Some (pk_Address pubKey)) validatorAddress)
  then Err (ErrMsg "invalid validator address for FnVote")
  else
    signBytes ← SignBytes validatorIndex v;
    if negb (pk_VerifyBytes pubKey signBytes (default "" signature)) then Err (ErrMsg "invalid validator signature")
    else Ok ().

Definition VerifyValidatorSign (validatorIndex : nat) (pubKey : PubKey) (v : FnVoteSet) : Res unit :=
  if negb (bits_Get (VoteBitArray v) validatorIndex) then Err (ErrMsg "Fn vote is not present for validator")
  else
    sig ← at_ (ValidatorSignatures v) validatorIndex;
    addr ← at_ (addresses v) validatorIndex;
    verifyInternal sig validatorIndex addr pubKey v.

Definition CannonicalCompare (v remote : FnVoteSet) : Res bool :=
  if negb (Nonce v =? Nonce remote) then Ok false
  else if negb (String.eqb (VS_ChainID v) (VS_ChainID remote)) then Ok false
  else if negb (String.eqb (ValidatorsHash v) (ValidatorsHash remote)) then Ok false
  else match Payload remote with
  | None => Ok false
  | Some rp =>
      p ← ptr (Payload v);
      same ← Payload_CannonicalCompare p (Some rp);
      if negb same then Ok false
      else if negb (length (ValidatorSignatures v) =? length (ValidatorSignatures remote))%nat then Ok false
      else if negb (length (addresses v) =? length (addresses remote))%nat then Ok false
      else Ok (forallb (λ xy, bytes_Equal xy.1 xy.2) (zip (addresses v) (addresses remote)))
  end.

Definition ActiveValidators (v : FnVoteSet) : Res (list (option bytes)) :=
  loop (λ i acc, if bits_Get (VoteBitArray v) i then a ← at_ (addresses v) i; Ok (acc ++ [a]) else Ok acc)
    (seq 0 (bits_Size (VoteBitArray v))) [].

Definition NumberOfVotes (v : FnVoteSet) : Z :=
  foldl (λ n i, if bits_Get (VoteBitArray v) i then n + 1 else n) 0 (seq 0 (bits_Size (VoteBitArray v))).

Definition HasConverged (signingThreshold : SigningThreshold) (vals : ValidatorSet) (v : FnVoteSet) : Res bool :=
  match signingThreshold with
  | Maj23SigningThreshold => Ok (two_thirds vals <=? TotalVotingPower v)
  | AllSigningThreshold => Ok (TotalVotingPower v =? vs_TotalVotingPower vals)
  | UnknownThreshold _ => Panic
  end.

Definition HaveWeAlreadySigned (ownValidatorIndex : nat) (v : FnVoteSet) : bool := bits_Get (VoteBitArray v) ownValidatorIndex.

Definition GetFnID (v : FnVoteSet) : Res string := p ← ptr (Payload v); ptr (Request p).

(** One validator of [IsValid]; the sum is of the powers of those that voted. *)
Definition valid_at (vals : ValidatorSet) (r : FnExecutionResponse) (v : FnVoteSet) (i : nat) (calculated : Z) : Res Z :=
  val ← ptr (vs_GetByIndex vals i);
  addr ← at_ (addresses v) i;
  if negb (bytes_Equal addr (Some val.1.1)) then Err (ErrMsg "voteSet.ValidatorAddresses  and current validator set mismatch")
  else if negb (Bool.eqb (bits_Get (VoteBitArray v) i) (bits_Get (SignatureBitArray r) i))
  then Err (ErrMsg "voteSet.VoteBitArray and voteSet.Payload.Response.SignatureBitArray mismatch")
  else if negb (bits_Get (VoteBitArray v) i) then Ok calculated
  else
    sig ← at_ (oracle_sigs r) i;
    if bool_decide (sig = None) then Err (ErrMsg "voteSet.Payload.Response.OracleSignature and voteSet.VoteBitArray mismatch")
    else match VerifyValidatorSign i val.1.2 v with
    | Ok _ => Ok (i64 (calculated + val.2))
    | Err _ => Err (ErrMsg "unable to verify validator sign")
    | Panic => Panic
    end.

Definition IsValid (chainID : string) (vals : ValidatorSet) (registered : string → bool) (v : FnVoteSet) : Res unit :=
  if negb (bool_decide (is_Some (VoteBitArray v))) then Err (ErrMsg "voteSet.VoteBitArray can't be nil")
  else
    let numValidators := bits_Size (VoteBitArray v) in
    match Payload v with
    | None => Err (ErrMsg "voteSet.Payload can't be nil")
    | Some p =>
        if bool_decide (ValidatorAddresses v = None) then Err (ErrMsg "voteSet.ValidatorAddresses can't be nil")
        else
          Payload_IsValid vals p;;
          fnID ← ptr (Request p);
          if negb (registered fnID) then Err (ErrMsg "voteSet's FnID cannot be found in FnRegistry")
          else if negb (String.eqb (VS_ChainID v) chainID) then Err (ErrMsg "voteSet.ChainID doesn't match node's ChainID")
          else if negb (String.eqb (ValidatorsHash v) (vs_Hash vals))
          then Err (ErrMsg "voteSet.ValidatorHash doesnt match node's validator hash")
          else if negb (numValidators =? length (addresses v))%nat
          then Err (ErrMsg "voteSet.ValidatorAddresses has different length than node's validator list")
          else if negb (numValidators =? length (ValidatorSignatures v))%nat
          then Err (ErrMsg "voteSet.ValidatorSignatures has different length than node's validator list")
          else if negb (numValidators =? vs_Size vals)%nat
          then Err (ErrMsg "voteSet.VoteBitArray size is different than current node's validator list")
          else
            r ← ptr (Response p);
            if negb (numValidators =? bits_Size (SignatureBitArray r))%nat
            then Err (ErrMsg "voteSet.Payload.Response.SignatureBitArray size is different")
            else
              calculatedVotingPower ← loop (valid_at vals r v) (seq 0 (vs_Size vals)) 0;
              if negb (TotalVotingPower v =? calculatedVotingPower)
              then Err (ErrMsg "voteSet.TotalVotingPower is not equal to calculated voting power")
              else Ok ()
    end.

(** One validator of [Merge]: a vote that only the other set has is taken over. *)
Definition merge_at (vals : ValidatorSet) (another : FnVoteSet) (i : nat) (x : bool * FnVoteSet) : Res (bool * FnVoteSet) :=
  let '(changed, v) := x in
  if bits_Get (VoteBitArray v) i || negb (bits_Get (VoteBitArray another) i) then Ok (changed, v)
  else
    s ← at_ (ValidatorSignatures another) i;
    sigs ← set_at (ValidatorSignatures v) i s;
    a ← at_ (addresses another) i;
    addrs ← set_at (addresses v) i a;
    val ← ptr (vs_GetByIndex vals i);
    Ok (true, with_power (i64 (TotalVotingPower v + val.2))
                (with_addresses addrs (with_vote (bits_Set i (VoteBitArray v)) sigs v))).

Definition Merge (vals : ValidatorSet) (v another : FnVoteSet) : Res (bool * FnVoteSet) :=
  same ← CannonicalCompare v another;
  if negb same then Err (ErrMsg "merging is not allowed, as fn votes have different payload")
  else
    p ← ptr (Payload v);
    '(changed, p') ← Payload_Merge p (Payload another);
    loop (merge_at vals another) (seq 0 (bits_Size (VoteBitArray v))) (changed, with_payload p' v).

Definition MajResponse (signingThreshold : SigningThreshold) (vals : ValidatorSet) (v : FnVoteSet) :
    Res (option FnAggregateExecutionResponse) :=
  p ← ptr (Payload v);
  r ← ptr (Response p);
  ToMajResponse signingThreshold vals r.

(** [sign] is the private validator.  The vote is entered before the validator is
    looked up: an error then leaves it entered without its power. *)
Definition AddVote (nonce : Z) (individual : FnIndividualExecutionResponse) (vals : ValidatorSet) (validatorIndex : nat)
    (sign : bytes → option bytes) : M FnVoteSet unit :=
  v ← gets id;
  guard_not (negb (Nonce v =? nonce)) (ErrMsg "unable to add vote as nonce is different from voteset");;
  guard_not (bits_Get (VoteBitArray v) validatorIndex) (ErrMsg "Fn vote is already cast");;
  p ← deref (Payload v);
  r ← deref (Response p);
  match AddSignature individual validatorIndex r with
  | Panic => panic
  | Err _ => throw (ErrMsg "unable to add vote as can't add signature")
  | Ok r' =>
      modify (with_payload (mkPayload (Request p) (Some r')));;
      v1 ← gets id;
      signBytes ← lift_res (SignBytes validatorIndex v1);
      match sign signBytes with
      | None => throw (ErrMsg "unable to add vote as unable to sign signing bytes")
      | Some signature =>
          modify (λ v, with_vote (bits_Set validatorIndex (VoteBitArray v)) (ValidatorSignatures v) v);;
          sigs ← lift_res (set_at (ValidatorSignatures v) validatorIndex (Some signature));
          modify (λ v, with_vote (VoteBitArray v) sigs v);;
          match vs_GetByIndex vals validatorIndex with
          | None => throw (ErrMsg "unable to add vote as validatorIndex is not valid")
          | Some val =>
              addr ← lift_res (at_ (addresses v) validatorIndex);
              guard_not (negb (bytes_Equal (Some val.1.1) addr))
                (ErrMsg "unable to add vote as validatorAddress does not match with one in the vote set");;
              modify (λ v, with_power (i64 (TotalVotingPower v + val.2)) v)
          end
      end
  end.

(** The power of the validator at the given index, as [Iterate] finds it. *)
Definition power_at (vals : ValidatorSet) (i : nat) : Z := from_option snd 0 (vs_GetByIndex vals i).

Definition NewVoteSet (nonce : Z) (chainID : string) (validatorIndex : nat) (initialPayload : FnVotePayload)
    (sign : bytes → option bytes) (vals : ValidatorSet) : Res FnVoteSet :=
  match Payload_IsValid vals initialPayload with
  | Panic => Panic
  | Err _ => Err (ErrMsg "unable to create new voteSet as initialPayload passed is invalid")
  | Ok _ =>
      let totalVotingPower := power_at vals validatorIndex in
      let validatorAddresses := (λ i, (λ val : bytes * PubKey * Z, val.1.1) <$> vs_GetByIndex vals i) <$> seq 0 (vs_Size vals) in
      let voteBitArray := ba_SetIndex validatorIndex true (ba_New (vs_Size vals)) in
      if totalVotingPower =? 0 then Err (ErrMsg "unable to create new voteset as validatorIndex is invalid")
      else
        let newVoteSet := mkVoteSet nonce (vs_Hash vals) chainID totalVotingPower (Some voteBitArray) (Some initialPayload)
                            (replicate (vs_Size vals) None) (Some validatorAddresses) in
        match SignBytes validatorIndex newVoteSet with
        | Panic => Panic
        | Err _ => Err (ErrMsg "unable to create new voteset as not able to get signbytes")
        | Ok signBytes =>
            match sign signBytes with
            | None => Err (ErrMsg "unable to create new voteset as not able to sign initial payload")
            | Some signature =>
                sigs ← set_at (replicate (vs_Size vals) None) validatorIndex (Some signature);
                Ok (with_vote (Some voteBitArray) sigs newVoteSet)
            end
        end
  end.
End VoteSets.

(** ** Functions and reactor state *)

Section State.
Context {TM : TendermintLib} {Fn : Type}.

(** [InMemoryFnRegistry]; [GetAll] lists the map in the order [order]. *)
Definition FnRegistry_Get (fnID : string) (m : gmap string Fn) : option Fn := m !! fnID.
Definition FnRegistry_Set (fnID : string) (fnObj : option Fn) : M (gmap string Fn) unit :=
  match fnObj with
  | None => throw (ErrMsg "FnObj cant be nil")
  | Some fn =>
      m ← gets id;
      guard_not (bool_decide (is_Some ((m : gmap string Fn) !! fnID))) (ErrMsg "FnID is already used by another Fn Object");;
      modify (λ m : gmap string Fn, <[fnID := fn]> m)
  end.
Definition FnRegistry_GetAll (order : gmap string Fn → list (string * Fn)) (m : gmap string Fn) : list string := (order m).*1.

Record ReactorState := mkReactorState {
  CurrentVoteSets : gmap string FnVoteSet;
  CurrentNonces : gmap string Z;
  PreviousTimedOutVoteSets : gmap string FnVoteSet;
  PreviousMajVoteSets : gmap string FnVoteSet;
  PreviousValidatorSet : option ValidatorSet;
}.

Definition NewReactorState : ReactorState := mkReactorState ∅ ∅ ∅ ∅ None.

(** [reactorStateMarshallable]: the maps as lists, in the orders that Go iterates. *)
Record ReactorStateMarshallable := mkMarshallable {
  rm_CurrentVoteSets : list FnVoteSet;
  rm_CurrentNonces : list (string * Z);
  rm_PreviousTimedOutVoteSets : list FnVoteSet;
  rm_PreviousMajVoteSets : list FnVoteSet;
  rm_PreviousValidatorSet : option ValidatorSet;
}.

Definition ReactorState_Marshal (order : ∀ {V}, gmap string V → list (string * V)) (p : ReactorState) : ReactorStateMarshallable :=
  mkMarshallable (order (CurrentVoteSets p)).*2 (order (CurrentNonces p)) (order (PreviousTimedOutVoteSets p)).*2
    (order (PreviousMajVoteSets p)).*2 (PreviousValidatorSet p).

(** Vote sets are found again under the function of their payload. *)
Fixpoint by_fn (l : list FnVoteSet) (acc : gmap string FnVoteSet) : Res (gmap string FnVoteSet) :=
  match l with
  | [] => Ok acc
  | v :: l => id ← GetFnID v; by_fn l (<[id := v]> acc)
  end.

Definition ReactorState_Unmarshal (m : ReactorStateMarshallable) : Res ReactorState :=
  current ← by_fn (rm_CurrentVoteSets m) ∅;
  timedOut ← by_fn (rm_PreviousTimedOutVoteSets m) ∅;
  maj ← by_fn (rm_PreviousMajVoteSets m) ∅;
  Ok (mkReactorState current (foldl (λ acc (kv : string * Z), <[kv.1 := kv.2]> acc) ∅ (rm_CurrentNonces m)) timedOut maj
        (rm_PreviousValidatorSet m)).
End State.
