(* ===== verification/FnConsensusTheorems.v ===== *)
(** * Vote sets: validity, merging and agreement

    What the operations of FnConsensus.v guarantee: the vote sets that nodes build
    and merge stay valid, merging unites the votes, and the hash that a threshold of
    two thirds selects is the same on every node unless a third of the power signed
    two different hashes. *)

From stdpp Require Import pretty.
From S2P Require Import Prelude Contract FnConsensus.

(** ** Loops *)

Section Loops.
Context {A : Type} (f : nat → A → Res A) (I : nat → A → Prop) (n : nat).

Lemma loop_range (m k : nat) (a : A) :
  (k + m = n)%nat → I k a →
  (∀ i x, (i < n)%nat → I i x → ∃ x', f i x = Ok x' ∧ I (S i) x') →
  ∃ a', loop f (seq k m) a = Ok a' ∧ I n a'.
Proof.
  revert k a. induction m as [|m IH]; intros k a Hn HI Hf; simpl.
  - exists a. replace n with k by lia. done.
  - destruct (Hf k a) as (x & Hx & Hi); [lia | done |]. rewrite Hx. simpl. apply IH; [lia | done | done].
Qed.

Lemma loop_total (a : A) :
  I O a → (∀ i x, (i < n)%nat → I i x → ∃ x', f i x = Ok x' ∧ I (S i) x') →
  ∃ a', loop f (seq 0 n) a = Ok a' ∧ I n a'.
Proof. apply loop_range. done. Qed.

Lemma loop_range_inv (m k : nat) (a a' : A) :
  (k + m = n)%nat → I k a →
  (∀ i x x', (i < n)%nat → I i x → f i x = Ok x' → I (S i) x') →
  loop f (seq k m) a = Ok a' → I n a'.
Proof.
  revert k a. induction m as [|m IH]; intros k a Hn HI Hf; simpl.
  - intros [= <-]. replace n with k by lia. done.
  - destruct (f k a) as [x|e|] eqn:Hx; simpl; [|done|done]. apply IH; [lia | | done].
    eapply Hf; [lia | exact HI | done].
Qed.

Lemma loop_inv (a a' : A) :
  I O a → (∀ i x x', (i < n)%nat → I i x → f i x = Ok x' → I (S i) x') →
  loop f (seq 0 n) a = Ok a' → I n a'.
Proof. apply loop_range_inv. done. Qed.
End Loops.

(** A loop that only checks its indices. *)
Lemma loop_check (f : nat → unit → Res unit) (n : nat) :
  loop f (seq 0 n) () = Ok () ↔ ∀ i, (i < n)%nat → f i () = Ok ().
Proof.
  split.
  - intros Hl i Hi. refine (loop_inv f (λ k _, ∀ i, (i < k)%nat → f i () = Ok ()) n () () _ _ Hl i Hi); [lia|].
    intros j [] [] _ IH Hj k Hk. destruct (decide (k = j)) as [->|]; [done | apply IH; lia].
  - intros Hf. destruct (loop_total f (λ _ _, True) n ()) as ([] & Hl & _); [done | | done].
    intros i [] Hi _. exists (). auto.
Qed.

(** Reading and writing a list within its length. *)
Lemma at_lookup {A} (l : list A) i x : l !! i = Some x → at_ l i = Ok x.
Proof. unfold at_. by intros ->. Qed.
Lemma at_inv {A} (l : list A) i x : at_ l i = Ok x → l !! i = Some x.
Proof. unfold at_. case_match; congruence. Qed.
Lemma set_at_lt {A} (l : list A) i x : (i < length l)%nat → set_at l i x = Ok (<[i := x]> l).
Proof. unfold set_at. intros H. by rewrite (proj2 (Nat.ltb_lt _ _) H). Qed.
Lemma set_at_inv {A} (l l' : list A) i x : set_at l i x = Ok l' → (i < length l)%nat ∧ l' = <[i := x]> l.
Proof. unfold set_at. case_match eqn:E; [|done]. intros [= <-]. apply Nat.ltb_lt in E. done. Qed.
Lemma bytes_Equal_iff x y : bytes_Equal x y = true ↔ default "" x = default "" y.
Proof. apply String.eqb_eq. Qed.

(** ** Validity as a predicate *)

Section Validity.
Context {TM : TendermintLib} {TS : TendermintSpec}.
Implicit Types (vals : ValidatorSet) (bits rb : BitArray) (hs os sigs addrs : list (option bytes)).

Definition addr_at vals (i : nat) : bytes := from_option (λ val, val.1.1) "" (vs_GetByIndex vals i).

(** The power of a set of validators. *)
Definition power_of vals (voted : nat → bool) : Z :=
  sumZ (λ i, if voted i then power_at vals i else 0) (seq 0 (vs_Size vals)).

Lemma power_at_nonneg vals i : 0 <= power_at vals i.
Proof. unfold power_at. destruct (vs_GetByIndex vals i) as [val|] eqn:E; simpl; [|lia]. apply vs_power in E. lia. Qed.

Lemma power_of_mono vals (s t : nat → bool) :
  (∀ i, (i < vs_Size vals)%nat → s i = true → t i = true) → power_of vals s <= power_of vals t.
Proof.
  intros H. apply sumZ_le. intros i Hi. apply elem_of_seq in Hi.
  destruct (s i) eqn:E; [rewrite H; [lia | lia | done] |]. destruct (t i); [apply power_at_nonneg | lia].
Qed.

Lemma power_of_ext vals (s t : nat → bool) :
  (∀ i, (i < vs_Size vals)%nat → s i = t i) → power_of vals s = power_of vals t.
Proof. intros H. apply sumZ_ext. intros i Hi. apply elem_of_seq in Hi. by rewrite H by lia. Qed.

Lemma power_of_nonneg vals s : 0 <= power_of vals s.
Proof. apply sumZ_nonneg. intros i _. destruct (s i); [apply power_at_nonneg | lia]. Qed.

Lemma power_of_none vals s : (∀ i, s i = false) → power_of vals s = 0.
Proof. intros H. unfold power_of. induction (seq 0 _) as [|j l IH]; [done|]. simpl. rewrite H. lia. Qed.

Lemma power_of_total vals : vs_TotalVotingPower vals < 2 ^ 62 → power_of vals (λ _, true) = vs_TotalVotingPower vals.
Proof. rewrite vs_total. unfold power_of, power_at. lia. Qed.

Lemma power_of_le_total vals s : vs_TotalVotingPower vals < 2 ^ 62 → power_of vals s <= vs_TotalVotingPower vals.
Proof. intros H. rewrite <- power_of_total by done. by apply power_of_mono. Qed.

(** The sum of a loop over the validators, one validator further. *)
Lemma power_of_step vals (s : nat → bool) i :
  power_of vals (λ j, (j <? S i)%nat && s j) =
    power_of vals (λ j, (j <? i)%nat && s j) + if (i <? vs_Size vals)%nat && s i then power_at vals i else 0.
Proof.
  unfold power_of. generalize (vs_Size vals) as n. intros n. induction n as [|n IH]; [simpl; destruct i; done|].
  rewrite seq_S, !sumZ_app, IH. simpl.
  destruct (Nat.ltb_spec n (S i)), (Nat.ltb_spec n i), (Nat.ltb_spec i (S n)), (Nat.ltb_spec i n);
    try lia; simpl; try (destruct (s n); lia); try lia.
  replace i with n by lia. destruct (s n); lia.
Qed.

(** Adding one validator to a set. *)
Lemma power_of_add vals (s t : nat → bool) i :
  (i < vs_Size vals)%nat → s i = false → (∀ j, t j = if decide (i = j) then true else s j) →
  power_of vals t = power_of vals s + power_at vals i.
Proof.
  intros Hi Hs Ht.
  assert (∀ n, sumZ (λ j, if t j then power_at vals j else 0) (seq 0 n) =
    sumZ (λ j, if s j then power_at vals j else 0) (seq 0 n) + if (i <? n)%nat then power_at vals i else 0) as H.
  { induction n as [|n IH]; [done|]. rewrite seq_S, !sumZ_app, IH. simpl. rewrite Ht.
    destruct (decide (i = n)) as [<-|]; [rewrite Hs|];
      repeat case_match; rewrite ?Nat.ltb_lt, ?Nat.ltb_ge in *; lia. }
  unfold power_of. rewrite H. apply Nat.ltb_lt in Hi as ->. done.
Qed.

(** What a validator signs. *)
Definition vote_bytes vals (nonce : Z) (chainID fn : string) (addr : bytes) (h o : option bytes) : bytes :=
  "NONCE:" +:+ pretty nonce +:+ "|CD:" +:+ chainID +:+ "|VA:" +:+ addr +:+ "|PL:" +:+
    separator +:+ vs_Hash vals +:+ separator +:+ cdc_request fn +:+ "P" +:+ cdc_individual h o.

Definition signed vals nonce chainID fn i h o (sig : option bytes) : Prop :=
  ∃ val, vs_GetByIndex vals i = Some val ∧ pk_Address val.1.2 = val.1.1 ∧
    pk_VerifyBytes val.1.2 (vote_bytes vals nonce chainID fn val.1.1 h o) (default "" sig) = true.

Definition vote_set nonce chainID vals fn power bits rb hs os sigs addrs : FnVoteSet :=
  mkVoteSet nonce (vs_Hash vals) chainID power (Some bits)
    (Some (mkPayload (Some fn) (Some (mkResponse (Some hs) (Some rb) (Some os))))) sigs (Some addrs).

Record slots_ok vals nonce chainID fn bits rb hs os sigs addrs : Prop := {
  so_sizes : ba_Size bits = vs_Size vals ∧ ba_Size rb = vs_Size vals;
  so_lengths : length hs = vs_Size vals ∧ length os = vs_Size vals ∧
    length sigs = vs_Size vals ∧ length addrs = vs_Size vals;
  so_bits i : (i < vs_Size vals)%nat → ba_GetIndex rb i = ba_GetIndex bits i;
  so_addr i a : addrs !! i = Some a → default "" a = addr_at vals i;
  so_oracle i o : os !! i = Some o → ba_GetIndex bits i = bool_decide (is_Some o);
  so_hash i h : hs !! i = Some h → ba_GetIndex bits i = bool_decide (is_Some h);
  so_signed i h o s : ba_GetIndex bits i = true → hs !! i = Some h → os !! i = Some o → sigs !! i = Some s →
    signed vals nonce chainID fn i h o s;
}.

Lemma lookup_below {A} (l : list A) i n : length l = n → (i < n)%nat → ∃ x, l !! i = Some x.
Proof. intros <- H. by apply lookup_lt_is_Some. Qed.

Lemma vs_lookup vals i : (i < vs_Size vals)%nat → ∃ val, vs_GetByIndex vals i = Some val.
Proof. intros H. by apply vs_index in H. Qed.

Lemma SignBytes_slot nonce chainID vals fn power bits rb hs os sigs addrs i h o a :
  hs !! i = Some h → os !! i = Some o → addrs !! i = Some a →
  SignBytes i (vote_set nonce chainID vals fn power bits rb hs os sigs addrs) =
    Ok (vote_bytes vals nonce chainID fn (default "" a) h o).
Proof.
  intros Hh Ho Ha. unfold SignBytes, Payload_SignBytes, Response_SignBytes, vote_set, addresses, hashes, oracle_sigs. simpl.
  rewrite (at_lookup _ _ _ Hh). simpl. rewrite (at_lookup _ _ _ Ho). simpl. by rewrite (at_lookup _ _ _ Ha).
Qed.

Lemma verify_slot nonce chainID vals fn power bits rb hs os sigs addrs i h o s a val :
  hs !! i = Some h → os !! i = Some o → sigs !! i = Some s → addrs !! i = Some a →
  vs_GetByIndex vals i = Some val → default "" a = val.1.1 → ba_GetIndex bits i = true →
  (VerifyValidatorSign i val.1.2 (vote_set nonce chainID vals fn power bits rb hs os sigs addrs) = Ok ()
    ↔ signed vals nonce chainID fn i h o s) ∧
  VerifyValidatorSign i val.1.2 (vote_set nonce chainID vals fn power bits rb hs os sigs addrs) ≠ Panic.
Proof.
  intros Hh Ho Hs Ha Hv Haddr Hb.
  unfold VerifyValidatorSign. simpl. rewrite Hb. simpl. rewrite (at_lookup _ _ _ Hs). simpl.
  unfold addresses. simpl. rewrite (at_lookup _ _ _ Ha). simpl. unfold verifyInternal.
  destruct (bytes_Equal _ a) eqn:He; simpl.
  - apply bytes_Equal_iff in He. simpl in He. rewrite (SignBytes_slot _ _ _ _ _ _ _ _ _ _ _ _ _ _ _ Hh Ho Ha). simpl.
    rewrite Haddr. destruct (pk_VerifyBytes _ _ _) eqn:Hp; simpl; split; try done; split; try done.
    + intros _. exists val. split_and!; congruence.
    + intros (val' & Hv' & _ & Hp'). congruence.
  - split; [split; [done|]|done]. intros (val' & Hv' & Hk & _).
    assert (val' = val) as -> by congruence.
    assert (bytes_Equal (Some (pk_Address val.1.2)) a = true) by (apply bytes_Equal_iff; simpl; congruence). congruence.
Qed.

Definition slot_ok vals nonce chainID fn i (a h o s : option bytes) (b rbit : bool) : Prop :=
  default "" a = addr_at vals i ∧ b = rbit ∧ (b = true → is_Some o ∧ signed vals nonce chainID fn i h o s).

Lemma valid_at_slot nonce chainID vals fn power bits rb hs os sigs addrs i h o s a c c' :
  hs !! i = Some h → os !! i = Some o → sigs !! i = Some s → addrs !! i = Some a → (i < vs_Size vals)%nat →
  valid_at vals (mkResponse (Some hs) (Some rb) (Some os)) (vote_set nonce chainID vals fn power bits rb hs os sigs addrs) i c = Ok c'
    ↔ slot_ok vals nonce chainID fn i a h o s (ba_GetIndex bits i) (ba_GetIndex rb i) ∧
      c' = if ba_GetIndex bits i then i64 (c + power_at vals i) else c.
Proof.
  intros Hh Ho Hs Ha Hi. destruct (vs_lookup vals i Hi) as (val & Hv).
  unfold valid_at, slot_ok, addr_at, power_at. rewrite Hv. simpl. unfold addresses. simpl. rewrite (at_lookup _ _ _ Ha). simpl.
  destruct (bytes_Equal a _) eqn:He; simpl.
  2: { split; [done|]. intros ((Heq & _) & _). by rewrite (proj2 (bytes_Equal_iff a (Some val.1.1))) in He. }
  apply bytes_Equal_iff in He. simpl in He.
  destruct (ba_GetIndex bits i) eqn:Hb, (ba_GetIndex rb i) eqn:Hr; simpl; try (naive_solver congruence).
  unfold oracle_sigs. simpl. rewrite (at_lookup _ _ _ Ho). simpl.
  destruct o as [o|]; simpl; [|split; [done|]; intros ((_ & _ & H) & _); by destruct (H eq_refl) as ([] & _)].
  destruct (verify_slot nonce chainID vals fn power bits rb hs os sigs addrs i h (Some o) s a val) as [Hiff Hnp]; try done.
  destruct (VerifyValidatorSign _ _ _) as [[]|e|] eqn:Hver; [|..|done].
  - split; [intros [= <-]|intros (_ & ->); done]. split_and!; try done. intros _. split; [done|]. by apply Hiff.
  - split; [done|]. intros ((_ & _ & H) & _). destruct (H eq_refl) as (_ & Hsig). by apply Hiff in Hsig.
Qed.

(** The sum that the loop of [IsValid] has reached after [k] validators. *)
Definition upto vals bits (k : nat) : Z := power_of vals (λ j, (j <? k)%nat && ba_GetIndex bits j).

Lemma upto_O vals bits : upto vals bits O = 0.
Proof. by apply power_of_none. Qed.
Lemma upto_n vals bits : upto vals bits (vs_Size vals) = power_of vals (ba_GetIndex bits).
Proof. apply power_of_ext. intros i Hi. by apply Nat.ltb_lt in Hi as ->. Qed.
Lemma upto_S vals bits i :
  vs_TotalVotingPower vals < 2 ^ 62 → (i < vs_Size vals)%nat →
  upto vals bits (S i) = if ba_GetIndex bits i then i64 (upto vals bits i + power_at vals i) else upto vals bits i.
Proof.
  intros Hb Hi. unfold upto. pose proof (power_of_step vals (ba_GetIndex bits) i) as Hst.
  rewrite (proj2 (Nat.ltb_lt _ _) Hi) in Hst. simpl in Hst.
  pose proof (power_of_le_total vals (λ j, (j <? S i)%nat && ba_GetIndex bits j) Hb) as Hle.
  pose proof (power_of_nonneg vals (λ j, (j <? S i)%nat && ba_GetIndex bits j)).
  destruct (ba_GetIndex bits i); [rewrite i64_small|]; lia.
Qed.

(** The loop of [IsValid] accepts exactly when every slot is right, with the power of
    the voters as its sum. *)
Lemma valid_loop nonce chainID vals fn power bits rb hs os sigs addrs c :
  vs_TotalVotingPower vals < 2 ^ 62 →
  length hs = vs_Size vals → length os = vs_Size vals → length sigs = vs_Size vals → length addrs = vs_Size vals →
  loop (valid_at vals (mkResponse (Some hs) (Some rb) (Some os)) (vote_set nonce chainID vals fn power bits rb hs os sigs addrs))
    (seq 0 (vs_Size vals)) 0 = Ok c
  ↔ (∀ i a h o s, addrs !! i = Some a → hs !! i = Some h → os !! i = Some o → sigs !! i = Some s →
       slot_ok vals nonce chainID fn i a h o s (ba_GetIndex bits i) (ba_GetIndex rb i)) ∧
    c = power_of vals (ba_GetIndex bits).
Proof.
  intros Hb Hlh Hlo Hls Hla.
  assert (∀ i, (i < vs_Size vals)%nat → ∃ a h o s, addrs !! i = Some a ∧ hs !! i = Some h ∧ os !! i = Some o ∧ sigs !! i = Some s) as Hlk.
  { intros i Hi. destruct (lookup_below addrs i _ Hla Hi), (lookup_below hs i _ Hlh Hi), (lookup_below os i _ Hlo Hi),
      (lookup_below sigs i _ Hls Hi). eauto 10. }
  split.
  - intros Hl.
    assert ((∀ i a h o s, (i < vs_Size vals)%nat → addrs !! i = Some a → hs !! i = Some h → os !! i = Some o → sigs !! i = Some s →
       slot_ok vals nonce chainID fn i a h o s (ba_GetIndex bits i) (ba_GetIndex rb i)) ∧ c = upto vals bits (vs_Size vals)) as (Hok & ->).
    { refine (loop_inv _ (λ k c, (∀ i a h o s, (i < k)%nat → addrs !! i = Some a → hs !! i = Some h → os !! i = Some o → sigs !! i = Some s →
       slot_ok vals nonce chainID fn i a h o s (ba_GetIndex bits i) (ba_GetIndex rb i)) ∧ c = upto vals bits k) _ _ _ _ _ Hl); [split; [lia | by rewrite upto_O]|].
      intros i x x' Hi (IH & ->) Hx. destruct (Hlk i Hi) as (a & h & o & s & Ha & Hh & Ho & Hs).
      apply (valid_at_slot _ _ _ _ _ _ _ _ _ _ _ _ h o s a) in Hx; [|done..]. destruct Hx as (Hslot & ->).
      split; [|by rewrite upto_S]. intros j a' h' o' s' Hj. destruct (decide (j = i)) as [->|]; [|apply IH; lia].
      intros. by simplify_eq. }
    split; [|apply upto_n]. intros i a h o s Ha. apply Hok; [|done]. rewrite <- Hla. by eapply lookup_lt_Some.
  - intros (Hok & ->). edestruct (loop_total (valid_at vals (mkResponse (Some hs) (Some rb) (Some os))
      (vote_set nonce chainID vals fn power bits rb hs os sigs addrs)) (λ k c, c = upto vals bits k) (vs_Size vals) 0) as (c & Hl & ->); [by rewrite upto_O | |by rewrite Hl, upto_n].
    intros i x Hi ->. destruct (Hlk i Hi) as (a & h & o & s & Ha & Hh & Ho & Hs). exists (upto vals bits (S i)).
    split; [|done]. apply (valid_at_slot _ _ _ _ _ _ _ _ _ _ _ _ h o s a); [done..|]. split; [by apply Hok | by apply upto_S].
Qed.

Lemma response_valid_slots vals hs rb os :
  Response_IsValid vals (mkResponse (Some hs) (Some rb) (Some os)) = Ok () ↔
    (length hs = vs_Size vals ∧ length os = vs_Size vals ∧ ba_Size rb = vs_Size vals) ∧
    ∀ i h o, hs !! i = Some h → os !! i = Some o →
      ba_GetIndex rb i = bool_decide (is_Some o) ∧ ba_GetIndex rb i = bool_decide (is_Some h).
Proof.
  unfold Response_IsValid, oracle_sigs, hashes. simpl.
  destruct (Nat.eqb_spec (vs_Size vals) (length os)) as [Ho|]; simpl; [|naive_solver].
  destruct (Nat.eqb_spec (vs_Size vals) (length hs)) as [Hh|]; simpl; [|naive_solver].
  destruct (Nat.eqb_spec (vs_Size vals) (ba_Size rb)) as [Hr|]; simpl; [|naive_solver].
  rewrite loop_check. split.
  - intros H. split; [done|]. intros i h o Hih Hio.
    assert (i < vs_Size vals)%nat as Hi by (rewrite Hh; by eapply lookup_lt_Some).
    specialize (H i Hi). unfold response_valid_at, oracle_sigs, hashes in H. simpl in H.
    rewrite (at_lookup _ _ _ Hio) in H. simpl in H. rewrite (at_lookup _ _ _ Hih) in H. simpl in H.
    by destruct (bool_decide (is_Some o)), (bool_decide (is_Some h)), (ba_GetIndex rb i).
  - intros (_ & H) i Hi. destruct (lookup_below os i _ (eq_sym Ho) Hi) as (o & Hio), (lookup_below hs i _ (eq_sym Hh) Hi) as (h & Hih).
    destruct (H i h o Hih Hio) as (H1 & H2). unfold response_valid_at, oracle_sigs, hashes. simpl.
    rewrite (at_lookup _ _ _ Hio). simpl. rewrite (at_lookup _ _ _ Hih). simpl.
    rewrite <- H1. by destruct (ba_GetIndex rb i), (bool_decide (is_Some h)).
Qed.

Lemma slots_ok_iff vals nonce chainID fn bits rb hs os sigs addrs :
  slots_ok vals nonce chainID fn bits rb hs os sigs addrs ↔
    (ba_Size bits = vs_Size vals ∧ length sigs = vs_Size vals ∧ length addrs = vs_Size vals) ∧
    Response_IsValid vals (mkResponse (Some hs) (Some rb) (Some os)) = Ok () ∧
    (∀ i a h o s, addrs !! i = Some a → hs !! i = Some h → os !! i = Some o → sigs !! i = Some s →
       slot_ok vals nonce chainID fn i a h o s (ba_GetIndex bits i) (ba_GetIndex rb i)).
Proof.
  rewrite response_valid_slots. split.
  - intros [[Hs1 Hs2] (L1 & L2 & L3 & L4) Hbits Ha Ho Hh Hsig]. split_and!; try done.
    + intros i h o Hih Hio. assert (i < vs_Size vals)%nat by (rewrite <- L1; by eapply lookup_lt_Some).
      rewrite Hbits by done. split; [by apply Ho | by apply Hh].
    + intros i a h o s Hia Hih Hio His. assert (i < vs_Size vals)%nat by (rewrite <- L1; by eapply lookup_lt_Some).
      split_and!; [by apply Ha | by rewrite Hbits |]. intros Hb. split; [|by eapply Hsig].
      rewrite (Ho i o Hio) in Hb. by apply bool_decide_eq_true in Hb.
  - intros ((Hs1 & L3 & L4) & ((L1 & L2 & Hs2) & Hr) & Hslot).
    assert (∀ i, (i < vs_Size vals)%nat → ∃ a h o s, addrs !! i = Some a ∧ hs !! i = Some h ∧ os !! i = Some o ∧ sigs !! i = Some s) as Hlk.
    { intros i Hi. destruct (lookup_below addrs i _ L4 Hi), (lookup_below hs i _ L1 Hi), (lookup_below os i _ L2 Hi),
        (lookup_below sigs i _ L3 Hi). eauto 10. }
    assert (∀ i, (i < vs_Size vals)%nat → ba_GetIndex rb i = ba_GetIndex bits i) as Hbits.
    { intros i Hi. destruct (Hlk i Hi) as (a & h & o & s & Ha & Hh & Ho & Hs). symmetry. by apply (Hslot i a h o s). }
    constructor; try done.
    + intros i a Ha. destruct (Hlk i) as (a' & h & o & s & Ha' & Hh & Ho & Hs); [rewrite <- L4; by eapply lookup_lt_Some|].
      rewrite Ha in Ha'. injection Ha' as <-. by apply (Hslot i a h o s).
    + intros i o Ho. assert (i < vs_Size vals)%nat as Hi by (rewrite <- L2; by eapply lookup_lt_Some).
      destruct (Hlk i Hi) as (a & h & _ & s & Ha & Hh & _ & Hs). rewrite <- Hbits by done. by apply (Hr i h o).
    + intros i h Hh. assert (i < vs_Size vals)%nat as Hi by (rewrite <- L1; by eapply lookup_lt_Some).
      destruct (Hlk i Hi) as (a & _ & o & s & Ha & _ & Ho & Hs). rewrite <- Hbits by done. by apply (Hr i h o).
    + intros i h o s Hb Hh Ho Hs. destruct (Hlk i) as (a & _ & _ & _ & Ha & _); [rewrite <- L1; by eapply lookup_lt_Some|].
      by apply (Hslot i a h o s).
Qed.

Lemma IsValid_spec chainID vals registered v :
  vs_TotalVotingPower vals < 2 ^ 62 →
  IsValid chainID vals registered v = Ok () ↔
    ∃ nonce fn bits rb hs os sigs addrs, registered fn = true ∧
      slots_ok vals nonce chainID fn bits rb hs os sigs addrs ∧
      v = vote_set nonce chainID vals fn (power_of vals (ba_GetIndex bits)) bits rb hs os sigs addrs.
Proof.
  intros Hb. destruct v as [nonce vh ch power [bits|] [[[fn|] [[[hs|] [rb|] [os|]]|]]|] sigs [addrs|]]; unfold IsValid, Payload_IsValid; simpl;
    try (split; [done|]; intros (? & ? & ? & ? & ? & ? & ? & ? & _ & _ & Heq); by inversion Heq).
  unfold addresses. simpl. split.
  - destruct (Response_IsValid vals (mkResponse (Some hs) (Some rb) (Some os))) as [[]|?|] eqn:Hr; simpl; [|done|done].
    pose proof (proj1 (response_valid_slots _ _ _ _) Hr) as ((L1 & L2 & _) & _).
    destruct (registered fn) eqn:Hreg; simpl; [|done].
    destruct (String.eqb_spec ch chainID) as [->|]; simpl; [|done].
    destruct (String.eqb_spec vh (vs_Hash vals)) as [->|]; simpl; [|done].
    destruct (Nat.eqb_spec (ba_Size bits) (length addrs)) as [Ha|]; simpl; [|done].
    destruct (Nat.eqb_spec (ba_Size bits) (length sigs)) as [Hs|]; simpl; [|done].
    destruct (Nat.eqb_spec (ba_Size bits) (vs_Size vals)) as [Hn|]; simpl; [|done].
    destruct (Nat.eqb_spec (ba_Size bits) (ba_Size rb)) as [Hrb|]; simpl; [|done].
    match goal with |- context [loop ?f ?l ?a] => destruct (loop f l a) as [c|e|] eqn:Hl end; simpl; [|done|done].
    destruct (Z.eqb_spec power c) as [->|]; simpl; [|done]. intros _.
    apply (valid_loop nonce chainID vals fn _ bits rb hs os sigs addrs) in Hl; [|done|congruence..]. destruct Hl as (Hslot & ->).
    exists nonce, fn, bits, rb, hs, os, sigs, addrs. split_and!; [done | | done].
    apply slots_ok_iff. split_and!; [done | congruence | congruence | done | done].
  - intros (nonce' & fn' & bits' & rb' & hs' & os' & sigs' & addrs' & Hreg & Hok & Heq). inversion Heq; subst.
    apply slots_ok_iff in Hok as ((Hs1 & L3 & L4) & Hr & Hslot). rewrite Hr. simpl.
    apply response_valid_slots in Hr as ((L1 & L2 & Hs2) & _).
    rewrite Hreg, !String.eqb_refl, Hs1, Hs2, L3, L4, Nat.eqb_refl. simpl.
    pose proof (valid_loop nonce' chainID vals fn' (power_of vals (ba_GetIndex bits')) bits' rb' hs' os' sigs' addrs'
      (power_of vals (ba_GetIndex bits')) Hb L1 L2 L3 L4) as Hl.
    unfold vote_set in Hl. rewrite (proj2 Hl) by done. simpl. by rewrite Z.eqb_refl.
Qed.

(** ** Merging *)

(** The slots below [k] that only the second side has. *)
Definition taken (k : nat) (b1 b2 : nat → bool) (i : nat) : bool := (i <? k)%nat && negb (b1 i) && b2 i.

Definition merged {A} k b1 b2 (l1 l2 l : list A) : Prop :=
  length l = length l1 ∧ ∀ i, l !! i = if taken k b1 b2 i then l2 !! i else l1 !! i.

Definition merged_bits k (b1 b2 : nat → bool) (bits bits' : BitArray) : Prop :=
  ba_Size bits' = ba_Size bits ∧ ∀ i, ba_GetIndex bits' i = ba_GetIndex bits i || taken k b1 b2 i.

Lemma taken_skip k b1 b2 i : b1 k || negb (b2 k) = true → taken (S k) b1 b2 i = taken k b1 b2 i.
Proof.
  unfold taken. intros H. destruct (Nat.ltb_spec i (S k)), (Nat.ltb_spec i k); try lia; try done.
  replace i with k by lia. by destruct (b1 k), (b2 k).
Qed.

Lemma taken_take k b1 b2 i :
  b1 k || negb (b2 k) = false → taken (S k) b1 b2 i = if decide (k = i) then true else taken k b1 b2 i.
Proof.
  unfold taken. intros H. destruct (decide (k = i)) as [Heq|].
  - rewrite <- Heq. destruct (Nat.ltb_spec k (S k)); [|lia]. by destruct (b1 k), (b2 k).
  - destruct (Nat.ltb_spec i (S k)), (Nat.ltb_spec i k); try lia; done.
Qed.

Lemma taken_O b1 b2 i : taken O b1 b2 i = false.
Proof. done. Qed.

Lemma merged_O {A} b1 b2 (l1 l2 : list A) : merged O b1 b2 l1 l2 l1.
Proof. done. Qed.

Lemma merged_skip {A} k b1 b2 (l1 l2 l : list A) :
  b1 k || negb (b2 k) = true → merged k b1 b2 l1 l2 l → merged (S k) b1 b2 l1 l2 l.
Proof. intros H (Hl & Hi). split; [done|]. intros i. by rewrite taken_skip. Qed.

Lemma merged_take {A} k b1 b2 (l1 l2 l : list A) x :
  b1 k || negb (b2 k) = false → l2 !! k = Some x → (k < length l1)%nat →
  merged k b1 b2 l1 l2 l → merged (S k) b1 b2 l1 l2 (<[k := x]> l).
Proof.
  intros H Hx Hk (Hl & Hi). split; [by rewrite length_insert|]. intros i. rewrite taken_take by done.
  destruct (decide (k = i)) as [<-|]; [|by rewrite list_lookup_insert_ne]. rewrite list_lookup_insert_eq by lia. done.
Qed.

Lemma merged_bits_O b1 b2 bits : merged_bits O b1 b2 bits bits.
Proof. split; [done|]. intros i. by rewrite orb_false_r. Qed.

Lemma merged_bits_skip k b1 b2 bits bits' :
  b1 k || negb (b2 k) = true → merged_bits k b1 b2 bits bits' → merged_bits (S k) b1 b2 bits bits'.
Proof. intros H (Hl & Hi). split; [done|]. intros i. by rewrite taken_skip. Qed.

Lemma merged_bits_take k b1 b2 bits bits' :
  b1 k || negb (b2 k) = false → (k < ba_Size bits)%nat →
  merged_bits k b1 b2 bits bits' → merged_bits (S k) b1 b2 bits (ba_SetIndex k true bits').
Proof.
  intros H Hk (Hl & Hi). split; [by rewrite ba_Size_Set|]. intros i. rewrite ba_Get_Set, taken_take by done.
  destruct (decide (k = i)) as [<-|]; [rewrite decide_True by (split; [done | lia]) | rewrite decide_False by tauto].
  - by rewrite orb_true_r.
  - apply Hi.
Qed.

(** The test of a loop that has reached slot [k]: the slot is still as it was. *)
Lemma merged_bits_test k b1 b2 bits bits' :
  (∀ i, b1 i = ba_GetIndex bits i) → merged_bits k b1 b2 bits bits' → ba_GetIndex bits' k = b1 k.
Proof. intros Hb (_ & Hi). rewrite Hi, Hb. unfold taken. by rewrite Nat.ltb_irrefl, orb_false_r. Qed.

Definition any_taken (k : nat) (b1 b2 : nat → bool) : bool := existsb (taken k b1 b2) (seq 0 k).

Lemma any_taken_iff k b1 b2 : any_taken k b1 b2 = true ↔ ∃ i, (i < k)%nat ∧ b1 i = false ∧ b2 i = true.
Proof.
  unfold any_taken. rewrite existsb_exists. split.
  - intros (i & Hi & Ht). apply list_elem_of_In, elem_of_seq in Hi. exists i. unfold taken in Ht.
    destruct (b1 i), (b2 i); rewrite ?andb_false_r in Ht; done || (split; [lia | done]).
  - intros (i & Hi & H1 & H2). exists i. split; [apply list_elem_of_In, elem_of_seq; lia|].
    unfold taken. by rewrite H1, H2, (proj2 (Nat.ltb_lt _ _) Hi).
Qed.

Lemma any_taken_step k b1 b2 : any_taken (S k) b1 b2 = if b1 k || negb (b2 k) then any_taken k b1 b2 else true.
Proof.
  destruct (b1 k || negb (b2 k)) eqn:H.
  - apply eq_true_iff_eq. rewrite !any_taken_iff. split; intros (i & Hi & H1 & H2); exists i; (split; [|done]); [|lia].
    destruct (decide (i = k)) as [->|]; [|lia]. by rewrite H1, H2 in H.
  - apply any_taken_iff. exists k. split; [lia|]. by destruct (b1 k), (b2 k).
Qed.

Lemma Response_Merge_spec hs1 rb1 os1 hs2 rb2 os2 n :
  length hs1 = n → length os1 = n → ba_Size rb1 = n → length hs2 = n → length os2 = n → ba_Size rb2 = n →
  let b1 := ba_GetIndex rb1 in let b2 := ba_GetIndex rb2 in
  ∃ hs rb os,
    Response_Merge (mkResponse (Some hs1) (Some rb1) (Some os1)) (Some (mkResponse (Some hs2) (Some rb2) (Some os2))) =
      Ok (any_taken n b1 b2, mkResponse (Some hs) (Some rb) (Some os)) ∧
    merged n b1 b2 hs1 hs2 hs ∧ merged n b1 b2 os1 os2 os ∧ merged_bits n b1 b2 rb1 rb.
Proof.
  intros L1 L2 L3 L4 L5 L6 b1 b2.
  unfold Response_Merge, Response_CannonicalCompare, hashes, oracle_sigs. simpl. rewrite L1, L2, L3, L4, L5, L6, Nat.eqb_refl. simpl.
  edestruct (loop_total (merge_response_at (mkResponse (Some hs2) (Some rb2) (Some os2)))
    (λ k x, ∃ hs rb os, x = (any_taken k b1 b2, mkResponse (Some hs) (Some rb) (Some os)) ∧
      merged k b1 b2 hs1 hs2 hs ∧ merged k b1 b2 os1 os2 os ∧ merged_bits k b1 b2 rb1 rb) n
    (false, mkResponse (Some hs1) (Some rb1) (Some os1))) as (x & Hl & hs & rb & os & -> & H).
  - exists hs1, rb1, os1. split_and!; [|apply merged_O|apply merged_O|apply merged_bits_O].
    done.
  - intros k x Hk (hs & rb & os & -> & Hh & Ho & Hr). unfold merge_response_at, oracle_sigs, hashes. simpl.
    rewrite (merged_bits_test _ _ _ _ _ (λ _, eq_refl) Hr : ba_GetIndex rb k = b1 k). change (ba_GetIndex rb2 k) with (b2 k).
    pose proof (any_taken_step k b1 b2) as Hch. destruct (b1 k || negb (b2 k)) eqn:H.
    + eexists. split; [done|]. rewrite Hch. exists hs, rb, os. split_and!; auto using merged_skip, merged_bits_skip.
    + destruct (lookup_below os2 k n L5 Hk) as (o & Ho2), (lookup_below hs2 k n L4 Hk) as (h & Hh2).
      rewrite (at_lookup _ _ _ Ho2). simpl. rewrite set_at_lt by (destruct Ho; lia). simpl.
      rewrite (at_lookup _ _ _ Hh2). simpl. rewrite set_at_lt by (destruct Hh; lia). simpl.
      eexists. split; [done|]. rewrite Hch. do 3 eexists. split; [done|].
      split_and!; [apply merged_take | apply merged_take | apply merged_bits_take]; auto; lia.
  - exists hs, rb, os. by rewrite Hl.
Qed.

Lemma merged_power vals k b1 b2 bits bits' :
  vs_TotalVotingPower vals < 2 ^ 62 → (k < vs_Size vals)%nat → b1 k = ba_GetIndex bits k →
  b1 k || negb (b2 k) = false → merged_bits k b1 b2 bits bits' → (k < ba_Size bits)%nat →
  power_of vals (ba_GetIndex (ba_SetIndex k true bits')) = i64 (power_of vals (ba_GetIndex bits') + power_at vals k).
Proof.
  intros Hb Hk Hb1 H (Hsz & Hget) Hkb.
  pose proof (power_of_le_total vals (ba_GetIndex (ba_SetIndex k true bits')) Hb) as Hle.
  pose proof (power_of_nonneg vals (ba_GetIndex (ba_SetIndex k true bits'))).
  assert (power_of vals (ba_GetIndex (ba_SetIndex k true bits')) = power_of vals (ba_GetIndex bits') + power_at vals k) as Hsum;
    [|rewrite i64_small by lia; done].
  apply power_of_add; [done | |].
  - rewrite Hget. unfold taken. rewrite Nat.ltb_irrefl, <- Hb1. by destruct (b1 k), (b2 k).
  - intros j. rewrite ba_Get_Set.
    destruct (decide (k = j)); [rewrite decide_True by (split; [done | lia]) | rewrite decide_False by tauto]; done.
Qed.

Lemma merge_votes_spec nonce chainID vals fn ch bits1 bits2 rb hs os sigs1 sigs2 addrs1 addrs2 w :
  vs_TotalVotingPower vals < 2 ^ 62 →
  VoteBitArray w = Some bits2 → ValidatorSignatures w = sigs2 → ValidatorAddresses w = Some addrs2 →
  let n := vs_Size vals in let b1 := ba_GetIndex bits1 in let b2 := ba_GetIndex bits2 in
  ba_Size bits1 = n → length sigs1 = n → length sigs2 = n → length addrs1 = n → length addrs2 = n →
  ∃ bits sigs addrs,
    loop (merge_at vals w) (seq 0 n)
      (ch, vote_set nonce chainID vals fn (power_of vals b1) bits1 rb hs os sigs1 addrs1) =
      Ok (ch || any_taken n b1 b2, vote_set nonce chainID vals fn (power_of vals (ba_GetIndex bits)) bits rb hs os sigs addrs) ∧
    merged n b1 b2 sigs1 sigs2 sigs ∧ merged n b1 b2 addrs1 addrs2 addrs ∧ merged_bits n b1 b2 bits1 bits.
Proof.
  intros Hb Hwb Hws Hwa n b1 b2 L1 L2 L3 L4 L5.
  edestruct (loop_total (merge_at vals w)
    (λ k x, ∃ bits sigs addrs,
      x = (ch || any_taken k b1 b2, vote_set nonce chainID vals fn (power_of vals (ba_GetIndex bits)) bits rb hs os sigs addrs) ∧
      merged k b1 b2 sigs1 sigs2 sigs ∧ merged k b1 b2 addrs1 addrs2 addrs ∧ merged_bits k b1 b2 bits1 bits) n
    (ch, vote_set nonce chainID vals fn (power_of vals b1) bits1 rb hs os sigs1 addrs1)) as (x & Hl & bits & sigs & addrs & -> & H).
  - exists bits1, sigs1, addrs1. rewrite orb_false_r. split_and!; [done | apply merged_O | apply merged_O | apply merged_bits_O].
  - intros k x Hk (bits & sigs & addrs & -> & Hs & Ha & Hbits). unfold merge_at, addresses. simpl.
    rewrite (merged_bits_test _ _ _ _ _ (λ _, eq_refl) Hbits : ba_GetIndex bits k = b1 k), Hwb. simpl.
    change (ba_GetIndex bits2 k) with (b2 k).
    pose proof (any_taken_step k b1 b2) as Hch. destruct (b1 k || negb (b2 k)) eqn:H.
    + eexists. split; [done|]. rewrite Hch. exists bits, sigs, addrs. split_and!; auto using merged_skip, merged_bits_skip.
    + destruct (lookup_below sigs2 k n L3 Hk) as (s & Hs2), (lookup_below addrs2 k n L5 Hk) as (a & Ha2), (vs_lookup vals k Hk) as (val & Hv).
      rewrite Hws, Hwa, (at_lookup _ _ _ Hs2). simpl. rewrite set_at_lt by (destruct Hs; lia). simpl.
      rewrite (at_lookup _ _ _ Ha2). simpl. rewrite set_at_lt by (destruct Ha; lia). simpl. rewrite Hv. simpl.
      eexists. split; [done|]. rewrite Hch, orb_true_r. do 3 eexists. split.
      { f_equal. unfold with_power, with_addresses, with_vote, vote_set. simpl. f_equal.
        rewrite (merged_power vals k b1 b2 bits1) by (done || lia). unfold power_at. by rewrite Hv. }
      split_and!; [apply merged_take | apply merged_take | apply merged_bits_take]; auto; lia.
  - exists bits, sigs, addrs. by rewrite Hl.
Qed.

Lemma taken_ext n b1 b2 b1' b2' i :
  (∀ i, (i < n)%nat → b1 i = b1' i) → (∀ i, (i < n)%nat → b2 i = b2' i) → taken n b1 b2 i = taken n b1' b2' i.
Proof. intros H1 H2. unfold taken. destruct (Nat.ltb_spec i n); simpl; [by rewrite H1, H2 | done]. Qed.

Lemma merged_ext {A} n b1 b2 b1' b2' (l1 l2 l : list A) :
  (∀ i, (i < n)%nat → b1 i = b1' i) → (∀ i, (i < n)%nat → b2 i = b2' i) → merged n b1 b2 l1 l2 l → merged n b1' b2' l1 l2 l.
Proof. intros H1 H2 (Hl & Hi). split; [done|]. intros i. rewrite <- (taken_ext n b1 b2 b1' b2') by done. done. Qed.

(** A slot of a union comes from one of the sides, all of it. *)
Lemma slots_ok_merged vals nonce chainID fn bits1 rb1 hs1 os1 sigs1 addrs1 bits2 rb2 hs2 os2 sigs2 addrs2 bits rb hs os sigs addrs :
  slots_ok vals nonce chainID fn bits1 rb1 hs1 os1 sigs1 addrs1 →
  slots_ok vals nonce chainID fn bits2 rb2 hs2 os2 sigs2 addrs2 →
  let n := vs_Size vals in let b1 := ba_GetIndex bits1 in let b2 := ba_GetIndex bits2 in
  merged_bits n b1 b2 bits1 bits → merged_bits n (ba_GetIndex rb1) (ba_GetIndex rb2) rb1 rb →
  merged n b1 b2 hs1 hs2 hs → merged n b1 b2 os1 os2 os → merged n b1 b2 sigs1 sigs2 sigs → merged n b1 b2 addrs1 addrs2 addrs →
  slots_ok vals nonce chainID fn bits rb hs os sigs addrs.
Proof.
  intros [[S1 S1'] (A1 & A2 & A3 & A4) B1 Ad1 Or1 Ha1 Si1] [[S2 S2'] (C1 & C2 & C3 & C4) B2 Ad2 Or2 Ha2 Si2] n b1 b2
    (Hbs & Hb) (Hrs & Hr) (Hhl & Hh) (Hol & Ho) (Hsl & Hs) (Hal & Ha).
  assert (∀ i, taken n b1 b2 i = true → ba_GetIndex bits2 i = true) as Ht.
  { intros i. unfold taken. rewrite !andb_true_iff. by intros (_ & ?). }
  constructor; [split; congruence | split_and!; congruence | ..].
  - intros i Hi. rewrite Hr, Hb, B1 by done. f_equal. by apply taken_ext.
  - intros i a. rewrite Ha. case_match; [apply Ad2 | apply Ad1].
  - intros i o. rewrite Ho, Hb. destruct (taken n b1 b2 i) eqn:E; [|by rewrite orb_false_r; apply Or1].
    intros Hi. rewrite orb_true_r, <- (Or2 i o Hi). symmetry. by apply Ht.
  - intros i h. rewrite Hh, Hb. destruct (taken n b1 b2 i) eqn:E; [|by rewrite orb_false_r; apply Ha1].
    intros Hi. rewrite orb_true_r, <- (Ha2 i h Hi). symmetry. by apply Ht.
  - intros i h o s. rewrite Hb, Hh, Ho, Hs. destruct (taken n b1 b2 i) eqn:E; [intros _; by apply Si2, Ht|].
    rewrite orb_false_r. apply Si1.
Qed.

Lemma same_addresses vals addrs1 addrs2 :
  (∀ i a, addrs1 !! i = Some a → default "" a = addr_at vals i) →
  (∀ i a, addrs2 !! i = Some a → default "" a = addr_at vals i) →
  forallb (λ xy, bytes_Equal xy.1 xy.2) (zip addrs1 addrs2) = true.
Proof.
  intros H1 H2. apply forallb_forall. intros [x y] Hin. apply list_elem_of_In, list_elem_of_lookup in Hin as (i & Hi).
  apply lookup_zip_with_Some in Hi as (a & b & [= -> ->] & Ha & Hb). apply bytes_Equal_iff. simpl.
  by rewrite (H1 i a Ha), (H2 i b Hb).
Qed.

(** The hash that a vote set holds for a validator. *)
Definition hash_of (v : FnVoteSet) (i : nat) : option bytes :=
  p ← Payload v; r ← Response p; default None (hashes r !! i).

Lemma merge_valid chainID vals registered v w :
  vs_TotalVotingPower vals < 2 ^ 62 →
  IsValid chainID vals registered v = Ok () → IsValid chainID vals registered w = Ok () →
  Nonce v = Nonce w → GetFnID v = GetFnID w →
  ∃ changed u, Merge vals v w = Ok (changed, u) ∧ IsValid chainID vals registered u = Ok () ∧
    (∀ i, HaveWeAlreadySigned i u = HaveWeAlreadySigned i v || HaveWeAlreadySigned i w) ∧
    TotalVotingPower u = power_of vals (λ i, HaveWeAlreadySigned i u) ∧
    (∀ i, hash_of u i = if HaveWeAlreadySigned i v then hash_of v i else hash_of w i) ∧
    (changed = true ↔ ∃ i, HaveWeAlreadySigned i v = false ∧ HaveWeAlreadySigned i w = true) ∧
    Nonce u = Nonce v ∧ GetFnID u = GetFnID v.
Proof.
  intros Hb Hv Hw Hn Hf.
  apply IsValid_spec in Hv as (nonce & fn & bits1 & rb1 & hs1 & os1 & sigs1 & addrs1 & Hreg & Hok1 & ->); [|done].
  apply IsValid_spec in Hw as (nonce' & fn' & bits2 & rb2 & hs2 & os2 & sigs2 & addrs2 & _ & Hok2 & ->); [|done].
  simpl in Hn. unfold GetFnID in Hf. simpl in Hf. injection Hf as <-. subst nonce'.
  pose proof Hok1 as [[S1 S1'] (A1 & A2 & A3 & A4) B1 Ad1 Or1 Ha1 _]. pose proof Hok2 as [[S2 S2'] (C1 & C2 & C3 & C4) B2 Ad2 Or2 Ha2 _].
  destruct (Response_Merge_spec hs1 rb1 os1 hs2 rb2 os2 _ A1 A2 S1' C1 C2 S2') as (hs & rb & os & Hrm & Mh & Mo & Mr).
  pose proof (any_taken_iff (vs_Size vals) (ba_GetIndex rb1) (ba_GetIndex rb2)) as Hcr.
  pose proof (any_taken_iff (vs_Size vals) (ba_GetIndex bits1) (ba_GetIndex bits2)) as Hcb.
  set (chr := any_taken _ (ba_GetIndex rb1) _) in *.
  edestruct (merge_votes_spec nonce chainID vals fn chr bits1 bits2 rb hs os sigs1 sigs2 addrs1 addrs2
    (vote_set nonce chainID vals fn (power_of vals (ba_GetIndex bits2)) bits2 rb2 hs2 os2 sigs2 addrs2))
    as (bits & sigs & addrs & Hml & Ms & Ma & Mb); [done..|].
  apply (merged_ext _ _ _ (ba_GetIndex bits1) (ba_GetIndex bits2)) in Mh; [|done|done].
  apply (merged_ext _ _ _ (ba_GetIndex bits1) (ba_GetIndex bits2)) in Mo; [|done|done].
  do 2 eexists. split.
  { unfold Merge, CannonicalCompare. simpl. rewrite Z.eqb_refl, !String.eqb_refl. simpl.
    unfold Payload_CannonicalCompare, Payload_Merge, Payload_CannonicalCompare, Response_CannonicalCompare, hashes, oracle_sigs, addresses. simpl.
    unfold Response_Merge, Response_CannonicalCompare, hashes, oracle_sigs in Hrm. simpl in Hrm.
    rewrite A1, A2, C1, C2, S1', S2', !Nat.eqb_refl in *. simpl in *. rewrite A3, A4, C3, C4, !Nat.eqb_refl. simpl.
    rewrite (same_addresses vals addrs1 addrs2 Ad1 Ad2). simpl. rewrite Hrm. simpl. rewrite S1. exact Hml. }
  split_and!; simpl.
  - apply IsValid_spec; [done|]. exists nonce, fn, bits, rb, hs, os, sigs, addrs. split_and!; [done | | done].
    by eapply (slots_ok_merged vals nonce chainID fn bits1 rb1 hs1 os1 _ addrs1 bits2 rb2 hs2 os2 _ addrs2).
  - intros i. unfold HaveWeAlreadySigned. simpl. rewrite (proj2 Mb). unfold taken.
    destruct (Nat.ltb_spec i (vs_Size vals)); simpl; [by destruct (ba_GetIndex bits1 i)|].
    by rewrite (ba_Get_out bits2) by (rewrite S2; done).
  - done.
  - intros i. unfold HaveWeAlreadySigned, hash_of, hashes. simpl. rewrite (proj2 Mh). unfold taken.
    destruct (Nat.ltb_spec i (vs_Size vals)) as [Hi|Hi]; simpl.
    + destruct (ba_GetIndex bits1 i) eqn:E1, (ba_GetIndex bits2 i) eqn:E2; simpl; try done.
      destruct (lookup_below hs1 i _ A1 Hi) as (h1 & H1), (lookup_below hs2 i _ C1 Hi) as (h2 & H2).
      rewrite (Ha1 i h1 H1) in E1. rewrite (Ha2 i h2 H2) in E2. rewrite H1, H2.
      apply bool_decide_eq_false in E1, E2. by destruct h1, h2; try (exfalso; eauto; fail).
    + rewrite (lookup_ge_None_2 hs1), (lookup_ge_None_2 hs2) by lia. by destruct (ba_GetIndex bits1 i).
  - unfold HaveWeAlreadySigned. simpl. rewrite orb_true_iff, Hcr, Hcb. split.
    + intros [(i & Hi & H1 & H2)|(i & Hi & H1 & H2)]; exists i; [rewrite <- B1, <- B2 by done|]; done.
    + intros (i & H1 & H2). right. exists i. split_and!; try done.
      destruct (decide (i < vs_Size vals)%nat); [done|]. rewrite ba_Get_out in H2 by lia. done.
  - done.
  - done.
Qed.

(** ** Voting *)

Lemma slots_ok_empty vals nonce chainID fn :
  slots_ok vals nonce chainID fn (ba_New (vs_Size vals)) (ba_New (vs_Size vals)) (replicate (vs_Size vals) None)
    (replicate (vs_Size vals) None) (replicate (vs_Size vals) None)
    ((λ i, (λ val : bytes * PubKey * Z, val.1.1) <$> vs_GetByIndex vals i) <$> seq 0 (vs_Size vals)).
Proof.
  constructor; try (intros i x; rewrite ba_Get_New; intros [-> _]%lookup_replicate; by rewrite bool_decide_eq_false_2 by (by intros [])).
  - by rewrite ba_Size_New.
  - by rewrite !length_replicate, length_fmap, length_seq.
  - done.
  - intros i a Ha. apply list_lookup_fmap_Some in Ha as (j & -> & Hj). apply lookup_seq in Hj as (-> & _).
    unfold addr_at. simpl. by destruct (vs_GetByIndex vals i).
  - intros i h o s. by rewrite ba_Get_New.
Qed.

(** A vote entered in a free slot. *)
Lemma slots_ok_enter vals nonce chainID fn bits rb hs os sigs addrs i h o s :
  slots_ok vals nonce chainID fn bits rb hs os sigs addrs → (i < vs_Size vals)%nat →
  signed vals nonce chainID fn i (Some h) (Some o) (Some s) →
  slots_ok vals nonce chainID fn (ba_SetIndex i true bits) (ba_SetIndex i true rb) (<[i := Some h]> hs) (<[i := Some o]> os)
    (<[i := Some s]> sigs) addrs.
Proof.
  intros [[S1 S2] (L1 & L2 & L3 & L4) Hb Ha Ho Hh Hs] Hi Hsig. constructor.
  - by rewrite !ba_Size_Set.
  - by rewrite !length_insert.
  - intros j Hj. rewrite !ba_Get_Set, Hb, S1, S2 by done. done.
  - done.
  - intros j x. rewrite ba_Get_Set. destruct (decide (i = j)) as [<-|].
    + rewrite list_lookup_insert_eq by lia. intros [= <-]. by rewrite decide_True by (split; [done | lia]).
    + rewrite list_lookup_insert_ne, decide_False by tauto. apply Ho.
  - intros j x. rewrite ba_Get_Set. destruct (decide (i = j)) as [<-|].
    + rewrite list_lookup_insert_eq by lia. intros [= <-]. by rewrite decide_True by (split; [done | lia]).
    + rewrite list_lookup_insert_ne, decide_False by tauto. apply Hh.
  - intros j h' o' s'. rewrite ba_Get_Set. destruct (decide (i = j)) as [<-|].
    + rewrite !list_lookup_insert_eq by lia. intros _ [= <-] [= <-] [= <-]. done.
    + rewrite !list_lookup_insert_ne, decide_False by tauto. apply Hs.
Qed.

Lemma enter_power vals bits i :
  ba_Size bits = vs_Size vals → (i < vs_Size vals)%nat → ba_GetIndex bits i = false →
  power_of vals (ba_GetIndex (ba_SetIndex i true bits)) = power_of vals (ba_GetIndex bits) + power_at vals i.
Proof.
  intros Hs Hi Hf. apply power_of_add; [done | done |]. intros j. rewrite ba_Get_Set.
  destruct (decide (i = j)); [rewrite decide_True by (split; [done | lia]) | rewrite decide_False by tauto]; done.
Qed.

(** [sign] is the key of the validator at [i]. *)
Definition signs_for vals (i : nat) (sign : bytes → option bytes) : Prop :=
  ∃ val, vs_GetByIndex vals i = Some val ∧ pk_Address val.1.2 = val.1.1 ∧
    ∀ b s, sign b = Some s → pk_VerifyBytes val.1.2 b s = true.

Lemma signs_for_signed vals i sign nonce chainID fn h o s :
  signs_for vals i sign → sign (vote_bytes vals nonce chainID fn (addr_at vals i) h o) = Some s →
  signed vals nonce chainID fn i h o (Some s).
Proof.
  intros (val & Hv & Ha & Hs) Hsig. exists val. split_and!; try done. apply Hs. unfold addr_at in Hsig. by rewrite Hv in Hsig.
Qed.

Lemma signs_for_below vals i sign : signs_for vals i sign → (i < vs_Size vals)%nat.
Proof. intros (val & Hv & _). apply vs_index. eauto. Qed.

(** The vote set that a validator starts. *)
Lemma new_vote_set_form chainID vals nonce fn i h o sign r v :
  signs_for vals i sign →
  NewFnExecutionResponse (mkIndividual (Some h) (Some o)) i vals = Ok r →
  NewVoteSet nonce chainID i (mkPayload (Some fn) (Some r)) sign vals = Ok v →
  let n := vs_Size vals in let bits := ba_SetIndex i true (ba_New n) in
  ∃ s, v = vote_set nonce chainID vals fn (power_at vals i) bits bits (<[i := Some h]> (replicate n None))
      (<[i := Some o]> (replicate n None)) (<[i := Some s]> (replicate n None))
      ((λ i, (λ val : bytes * PubKey * Z, val.1.1) <$> vs_GetByIndex vals i) <$> seq 0 n) ∧
    sign (vote_bytes vals nonce chainID fn (addr_at vals i) (Some h) (Some o)) = Some s.
Proof.
  intros Hsg Hr Hv. pose proof (signs_for_below _ _ _ Hsg) as Hi.
  unfold NewFnExecutionResponse in Hr. rewrite !set_at_lt in Hr by (by rewrite length_replicate). injection Hr as <-.
  set (n := vs_Size vals) in *.
  set (addrs := (λ i, (λ val : bytes * PubKey * Z, val.1.1) <$> vs_GetByIndex vals i) <$> seq 0 n).
  intros n' bits. subst n'. set (hs := <[i := Some h]> (replicate n None)). set (os := <[i := Some o]> (replicate n None)).
  unfold NewVoteSet in Hv. destruct (Payload_IsValid _ _) as [?|?|]; [|done|done]. simpl in Hv.
  destruct (power_at vals i =? 0); [done|].
  destruct (vs_lookup vals i Hi) as (val & Hval).
  assert (addrs !! i = Some (Some val.1.1)) as Ha.
  { unfold addrs. rewrite list_lookup_fmap, lookup_seq_lt by done. simpl. by rewrite Hval. }
  pose proof (SignBytes_slot nonce chainID vals fn (power_at vals i) bits bits hs os (replicate n None) addrs i (Some h) (Some o) (Some val.1.1)) as Hsb.
  unfold vote_set in Hsb. fold n addrs bits hs os in Hv. rewrite Hsb in Hv;
    [|unfold hs; by rewrite list_lookup_insert_eq by (by rewrite length_replicate)
     |unfold os; by rewrite list_lookup_insert_eq by (by rewrite length_replicate)|done].
  unfold addr_at. rewrite Hval. simpl in *. destruct (sign _) as [s|]; [|done].
  rewrite set_at_lt in Hv by (by rewrite length_replicate). injection Hv as <-. by exists s.
Qed.

Lemma new_vote_set_valid chainID vals registered nonce fn i h o sign r v :
  vs_TotalVotingPower vals < 2 ^ 62 → signs_for vals i sign → registered fn = true →
  NewFnExecutionResponse (mkIndividual (Some h) (Some o)) i vals = Ok r →
  NewVoteSet nonce chainID i (mkPayload (Some fn) (Some r)) sign vals = Ok v →
  IsValid chainID vals registered v = Ok () ∧ Nonce v = nonce ∧ GetFnID v = Ok fn.
Proof.
  intros Hb Hsg Hreg Hr Hv. pose proof (signs_for_below _ _ _ Hsg) as Hi.
  destruct (new_vote_set_form chainID vals nonce fn i h o sign r v Hsg Hr Hv) as (s & -> & Hs).
  split_and!; try done. apply IsValid_spec; [done|]. do 8 eexists.
  split_and!; [done | by apply slots_ok_enter; [apply slots_ok_empty | done | eapply signs_for_signed] |].
  f_equal. rewrite enter_power by (done || by rewrite ?ba_Size_New, ?ba_Get_New).
  by rewrite (power_of_none vals (ba_GetIndex (ba_New _))) by apply ba_Get_New.
Qed.

(** A vote that is added to a valid vote set. *)
Lemma add_vote_run nonce chainID vals fn power bits rb hs os sigs addrs i h o sign :
  slots_ok vals nonce chainID fn bits rb hs os sigs addrs → (i < vs_Size vals)%nat → ba_GetIndex bits i = false →
  AddVote nonce (mkIndividual (Some h) (Some o)) vals i sign (vote_set nonce chainID vals fn power bits rb hs os sigs addrs) =
  match sign (vote_bytes vals nonce chainID fn (addr_at vals i) (Some h) (Some o)) with
  | None => (Err (ErrMsg "unable to add vote as unable to sign signing bytes"),
             vote_set nonce chainID vals fn power bits (ba_SetIndex i true rb) (<[i := Some h]> hs) (<[i := Some o]> os) sigs addrs)
  | Some s => (Ok (), vote_set nonce chainID vals fn (i64 (power + power_at vals i)) (ba_SetIndex i true bits)
                        (ba_SetIndex i true rb) (<[i := Some h]> hs) (<[i := Some o]> os) (<[i := Some s]> sigs) addrs)
  end.
Proof.
  intros [[S1 S2] (L1 & L2 & L3 & L4) Hbits Ha Ho Hh _] Hi Hbi.
  destruct (vs_lookup vals i Hi) as (val & Hval), (lookup_below addrs i _ L4 Hi) as (a & Hia).
  pose proof (Ha i a Hia) as Haddr. unfold addr_at in Haddr |- *. unfold power_at. rewrite Hval in Haddr |- *. simpl in Haddr.
  unfold AddVote. unfold_m. simpl. unfold guard_not. rewrite Z.eqb_refl, Hbi. simpl.
  unfold AddSignature, oracle_sigs, hashes. simpl. rewrite (Hbits i Hi), Hbi. rewrite !set_at_lt by lia. simpl.
  pose proof (SignBytes_slot nonce chainID vals fn power bits (ba_SetIndex i true rb)
    (<[i := Some h]> hs) (<[i := Some o]> os) sigs addrs i (Some h) (Some o) a) as Hsb.
  unfold vote_set, with_payload in *. simpl in *. rewrite Hsb by (done || by rewrite list_lookup_insert_eq by lia).
  rewrite Haddr. destruct (sign _) as [s|] eqn:Hs; [|done]. simpl. rewrite set_at_lt by lia. simpl.
  rewrite Hval. unfold addresses. simpl. rewrite (at_lookup _ _ _ Hia). simpl.
  by rewrite (proj2 (bytes_Equal_iff (Some val.1.1) a)) by done.
Qed.

Lemma add_vote_valid chainID vals registered nonce fn i h o sign v v' :
  vs_TotalVotingPower vals < 2 ^ 62 → signs_for vals i sign →
  IsValid chainID vals registered v = Ok () → GetFnID v = Ok fn →
  AddVote nonce (mkIndividual (Some h) (Some o)) vals i sign v = (Ok (), v') →
  IsValid chainID vals registered v' = Ok () ∧ Nonce v = nonce ∧ Nonce v' = nonce ∧ GetFnID v' = Ok fn ∧
    HaveWeAlreadySigned i v = false ∧ TotalVotingPower v' = TotalVotingPower v + power_at vals i.
Proof.
  intros Hb Hsg Hv Hf Hrun. pose proof (signs_for_below _ _ _ Hsg) as Hi.
  apply IsValid_spec in Hv as (nonce' & fn' & bits & rb & hs & os & sigs & addrs & Hreg & Hok & ->); [|done].
  unfold GetFnID in Hf. simpl in Hf. injection Hf as <-.
  destruct (Z.eqb_spec nonce' nonce) as [->|Hne].
  2: { unfold AddVote in Hrun. unfold_m_in Hrun. simpl in Hrun. by rewrite (proj2 (Z.eqb_neq _ _) Hne) in Hrun. }
  unfold HaveWeAlreadySigned. simpl. destruct (ba_GetIndex bits i) eqn:Hbi.
  { unfold AddVote in Hrun. unfold_m_in Hrun. simpl in Hrun. by rewrite Z.eqb_refl, Hbi in Hrun. }
  pose proof (add_vote_run nonce chainID vals fn' (power_of vals (ba_GetIndex bits)) bits rb hs os sigs addrs i h o sign Hok Hi Hbi) as Hr.
  rewrite Hrun in Hr. destruct (sign _) as [s|] eqn:Hs; [|done]. injection Hr as ->.
  pose proof Hok as [[S1 _] _ _ _ _ _ _].
  assert (i64 (power_of vals (ba_GetIndex bits) + power_at vals i) = power_of vals (ba_GetIndex (ba_SetIndex i true bits))) as Hp.
  { rewrite enter_power by done. rewrite i64_small; [done|].
    pose proof (power_of_le_total vals (ba_GetIndex (ba_SetIndex i true bits)) Hb) as Hle.
    pose proof (power_of_nonneg vals (ba_GetIndex (ba_SetIndex i true bits))). rewrite enter_power in * by done. lia. }
  split_and!; try done; [|simpl; rewrite Hp; by apply enter_power].
  apply IsValid_spec; [done|]. do 8 eexists.
  split_and!; [done | by apply slots_ok_enter; [..| eapply signs_for_signed] | by rewrite Hp].
Qed.

(** The vote sets on a function that honest nodes hold: each starts one with its own
    vote or adds its vote to one, and merges those it receives. *)
Inductive built (chainID : string) vals (nonce : Z) (fn : string) : FnVoteSet → Prop :=
  | built_new i h o sign r v :
      signs_for vals i sign → NewFnExecutionResponse (mkIndividual (Some h) (Some o)) i vals = Ok r →
      NewVoteSet nonce chainID i (mkPayload (Some fn) (Some r)) sign vals = Ok v → built chainID vals nonce fn v
  | built_vote i h o sign v v' :
      built chainID vals nonce fn v → signs_for vals i sign →
      AddVote nonce (mkIndividual (Some h) (Some o)) vals i sign v = (Ok (), v') → built chainID vals nonce fn v'
  | built_merge v w changed u :
      built chainID vals nonce fn v → built chainID vals nonce fn w →
      Merge vals v w = Ok (changed, u) → built chainID vals nonce fn u.

Lemma built_valid chainID vals nonce fn registered v :
  vs_TotalVotingPower vals < 2 ^ 62 → registered fn = true → built chainID vals nonce fn v →
  IsValid chainID vals registered v = Ok () ∧ Nonce v = nonce ∧ GetFnID v = Ok fn.
Proof.
  intros Hb Hreg. induction 1 as [i h o sign r v Hs Hr Hn | i h o sign v v' _ (Hv & Hn & Hf) Hs Ha | v w ch u _ (Hv & Hn & Hf) _ (Hw & Hn' & Hf') Hm].
  - by eapply new_vote_set_valid.
  - eapply (add_vote_valid chainID vals registered) in Ha; [|done..]. tauto.
  - destruct (merge_valid chainID vals registered v w) as (ch' & u' & Hm' & Hu & _ & _ & _ & _ & Hnu & Hfu); [done | done | done | congruence | congruence |].
    assert (u' = u) as -> by congruence. split_and!; congruence.
Qed.

Lemma valid_power chainID vals registered v :
  vs_TotalVotingPower vals < 2 ^ 62 → IsValid chainID vals registered v = Ok () →
  TotalVotingPower v = power_of vals (λ i, HaveWeAlreadySigned i v).
Proof. intros Hb Hv. apply IsValid_spec in Hv as (? & ? & ? & ? & ? & ? & ? & ? & _ & _ & ->); done. Qed.

(** ** The hash that the votes agree on *)

Definition has_hash (f : FnExecutionResponse) (h : bytes) (i : nat) : bool := bool_decide (hashes f !! i = Some (Some h)).

(** The power behind a hash. *)
Definition behind vals (f : FnExecutionResponse) (h : bytes) : Z := power_of vals (has_hash f h).
Definition behind_upto vals f h (k : nat) : Z := power_of vals (λ i, (i <? k)%nat && has_hash f h i).

Record tally_ok vals (f : FnExecutionResponse) (k : nat) (t : Tally) : Prop := {
  tk_map h : default 0 (ty_map t !! h) = behind_upto vals f h k;
  tk_top h : (∃ i, (i < k)%nat ∧ hashes f !! i = Some (Some h)) → behind_upto vals f h k <= ty_power t;
  tk_best : (ty_hash t = None ∧ ty_power t = -1) ∨ ∃ h, ty_hash t = Some h ∧ ty_power t = behind_upto vals f h k;
}.

Lemma behind_step vals f h k :
  (k < vs_Size vals)%nat → behind_upto vals f h (S k) = behind_upto vals f h k + if has_hash f h k then power_at vals k else 0.
Proof. intros Hk. unfold behind_upto. rewrite power_of_step. by rewrite (proj2 (Nat.ltb_lt _ _) Hk). Qed.

Lemma behind_upto_bound vals f h k :
  vs_TotalVotingPower vals < 2 ^ 62 → 0 <= behind_upto vals f h k < 2 ^ 62.
Proof.
  intros Hb. pose proof (power_of_le_total vals (λ i, (i <? k)%nat && has_hash f h i) Hb).
  pose proof (power_of_nonneg vals (λ i, (i <? k)%nat && has_hash f h i)). unfold behind_upto. lia.
Qed.

Lemma tally_step vals f k t :
  vs_TotalVotingPower vals < 2 ^ 62 → (k < vs_Size vals)%nat → (k < length (hashes f))%nat → tally_ok vals f k t →
  ∃ t', tally_at vals f k t = Ok t' ∧ tally_ok vals f (S k) t'.
Proof.
  intros Hb Hk Hl [Hm Ht Hbest]. unfold tally_at.
  destruct (lookup_below _ k _ eq_refl Hl) as (oh & Hoh). rewrite (at_lookup _ _ _ Hoh). simpl.
  assert (∀ h, oh ≠ Some h → behind_upto vals f h (S k) = behind_upto vals f h k) as Hsame.
  { intros h Hne. rewrite behind_step by done. unfold has_hash. rewrite bool_decide_eq_false_2 by (rewrite Hoh; congruence). lia. }
  destruct oh as [hash|].
  2: { exists t. split; [done|]. constructor.
    - intros h. by rewrite Hm, Hsame.
    - intros h (i & Hi & Hih). rewrite Hsame by done. apply Ht. exists i. split; [|done].
      destruct (decide (i = k)) as [->|]; [congruence | lia].
    - destruct Hbest as [|(h & Hh & Hp)]; [by left | right; exists h; by rewrite Hsame]. }
  destruct (vs_lookup vals k Hk) as (val & Hv). rewrite Hv.
  assert (behind_upto vals f hash (S k) = behind_upto vals f hash k + val.2) as Hgrow.
  { rewrite behind_step by done. unfold has_hash, power_at. rewrite bool_decide_eq_true_2, Hv by done. done. }
  pose proof (behind_upto_bound vals f hash (S k) Hb) as Hbnd. pose proof (behind_upto_bound vals f hash k Hb) as Hbnd0.
  rewrite Hm, i64_small, <- Hgrow by lia. pose proof (vs_power _ _ _ Hv).
  assert (∀ h, default 0 (<[hash := behind_upto vals f hash (S k)]> (ty_map t) !! h) = behind_upto vals f h (S k)) as Hm'.
  { intros h. destruct (decide (hash = h)) as [->|]; [by rewrite lookup_insert_eq|].
    rewrite lookup_insert_ne, Hm, Hsame by congruence. done. }
  assert (∀ h, (∃ i, (i < S k)%nat ∧ hashes f !! i = Some (Some h)) → h ≠ hash → behind_upto vals f h (S k) <= ty_power t) as Hothers.
  { intros h (i & Hi & Hih) Hne. rewrite Hsame by congruence. apply Ht. exists i. split; [|done].
    destruct (decide (i = k)) as [->|]; [congruence | lia]. }
  destruct (Z.ltb_spec (ty_power t) (behind_upto vals f hash (S k))) as [Hlt|Hge]; eexists; (split; [done|]); constructor; simpl; auto.
  - intros h Hex. destruct (decide (h = hash)) as [->|]; [lia|]. specialize (Hothers h Hex). naive_solver lia.
  - right. by exists hash.
  - intros h Hex. destruct (decide (h = hash)) as [->|]; [lia|]. by apply Hothers.
  - destruct Hbest as [(_ & Hp)|(h & Hh & Hp)]; [lia|]. right. exists h. split; [done|].
    rewrite Hsame; [done|]. intros [= ->]. rewrite Hgrow in Hge. lia.
Qed.

Lemma tally_total vals f :
  vs_TotalVotingPower vals < 2 ^ 62 → length (hashes f) = vs_Size vals →
  ∃ t, loop (tally_at vals f) (seq 0 (length (hashes f))) (mkTally ∅ None (-1)) = Ok t ∧ tally_ok vals f (vs_Size vals) t.
Proof.
  intros Hb Hl. rewrite Hl. apply loop_total.
  - constructor; simpl; [|by intros h (i & Hi & _); lia | by left].
    intros h. rewrite lookup_empty. symmetry. by apply power_of_none.
  - intros i t Hi. apply tally_step; [done | done | lia].
Qed.

Lemma behind_upto_n vals f h : behind_upto vals f h (vs_Size vals) = behind vals f h.
Proof. apply power_of_ext. intros i Hi. by apply Nat.ltb_lt in Hi as ->. Qed.

(** Two sets of validators overlap in what exceeds the total. *)
Lemma power_of_overlap vals (s t : nat → bool) :
  vs_TotalVotingPower vals < 2 ^ 62 →
  power_of vals s + power_of vals t <= vs_TotalVotingPower vals + power_of vals (λ i, s i && t i).
Proof.
  intros Hb. rewrite <- (power_of_total vals Hb). unfold power_of. rewrite <- !sumZ_add. apply sumZ_le.
  intros i _. pose proof (power_at_nonneg vals i). destruct (s i), (t i); simpl; lia.
Qed.

Lemma two_thirds_spec vals p : vs_TotalVotingPower vals < 2 ^ 62 → two_thirds vals <= p ↔ 2 * vs_TotalVotingPower vals < 3 * p.
Proof.
  intros Hb. pose proof (power_of_nonneg vals (λ _, true)) as Hnn. rewrite (power_of_total vals Hb) in Hnn.
  unfold two_thirds. rewrite (i64_small (_ * 2)) by lia. rewrite Z.quot_div_nonneg by lia.
  pose proof (Z.div_mod (vs_TotalVotingPower vals * 2) 3). pose proof (Z.mod_pos_bound (vs_TotalVotingPower vals * 2) 3).
  rewrite i64_small by lia. lia.
Qed.

(** What a threshold asks of the power behind a hash. *)
Definition reaches (th : SigningThreshold) vals (p : Z) : Prop :=
  match th with
  | Maj23SigningThreshold => 2 * vs_TotalVotingPower vals < 3 * p
  | AllSigningThreshold => p = vs_TotalVotingPower vals
  | UnknownThreshold _ => False
  end.

Lemma reaches_most th vals p : 0 < vs_TotalVotingPower vals → reaches th vals p → 0 < p ∧ 2 * vs_TotalVotingPower vals < 3 * p.
Proof. destruct th; simpl; lia. Qed.

Lemma reaches_mono th vals p q : reaches th vals p → p <= q → q <= vs_TotalVotingPower vals → reaches th vals q.
Proof. destruct th; simpl; lia. Qed.

Lemma agree_total vals f highest :
  length (hashes f) = vs_Size vals → length (oracle_sigs f) = vs_Size vals →
  ∃ bits sigs, loop (agree_at f highest) (seq 0 (length (hashes f))) (ba_New (vs_Size vals), replicate (vs_Size vals) None) = Ok (bits, sigs) ∧
    ba_Size bits = vs_Size vals ∧ length sigs = vs_Size vals ∧
    ∀ i, (i < vs_Size vals)%nat → ∃ h, hashes f !! i = Some h ∧ ba_GetIndex bits i = bytes_Equal highest h ∧
      (ba_GetIndex bits i = true → sigs !! i = oracle_sigs f !! i) ∧ (ba_GetIndex bits i = false → sigs !! i = Some None).
Proof.
  intros Hl Hlo. rewrite Hl.
  edestruct (loop_total (agree_at f highest) (λ k (x : BitArray * list (option bytes)), ba_Size x.1 = vs_Size vals ∧ length x.2 = vs_Size vals ∧
     ∀ i, (i < vs_Size vals)%nat → ∃ h, hashes f !! i = Some h ∧ ba_GetIndex x.1 i = (i <? k)%nat && bytes_Equal highest h ∧
       (ba_GetIndex x.1 i = true → x.2 !! i = oracle_sigs f !! i) ∧ (ba_GetIndex x.1 i = false → x.2 !! i = Some None))
     (vs_Size vals) (ba_New (vs_Size vals), replicate (vs_Size vals) None)) as ([bits sigs] & Hloop & Hb & Hs & H).
  - split_and!; simpl; [apply ba_Size_New | apply length_replicate |]. intros i Hi. rewrite ba_Get_New.
    destruct (lookup_below (hashes f) i _ Hl Hi) as (h & Hh). exists h. split_and!; try done. intros _. by apply lookup_replicate_2.
  - intros k [bits sigs] Hk (Hb & Hs & H). simpl in *. unfold agree_at. destruct (H k Hk) as (h & Hh & Hget & _ & Hf).
    rewrite (at_lookup _ _ _ Hh). simpl. destruct (bytes_Equal highest h) eqn:He.
    + destruct (lookup_below (oracle_sigs f) k _ Hlo Hk) as (o & Ho). rewrite (at_lookup _ _ _ Ho). simpl.
      rewrite set_at_lt by lia. eexists. split; [done|]. simpl. split_and!; [by rewrite ba_Size_Set | by rewrite length_insert |].
      intros i Hi. destruct (H i Hi) as (h' & Hh' & Hget' & Ht' & Hf'). exists h'. rewrite ba_Get_Set. split; [done|].
      destruct (decide (k = i)) as [<-|].
      * rewrite decide_True by (split; [done | lia]). rewrite list_lookup_insert_eq by lia.
        assert (h' = h) as -> by congruence. rewrite He, (proj2 (Nat.ltb_lt k (S k))) by lia. by rewrite Ho.
      * rewrite decide_False, list_lookup_insert_ne by tauto. split; [|done]. rewrite Hget'.
        by destruct (Nat.ltb_spec i (S k)), (Nat.ltb_spec i k); try lia.
    + eexists. split; [done|]. split_and!; try done. intros i Hi. destruct (H i Hi) as (h' & Hh' & Hget' & Ht' & Hf'). exists h'.
      split; [done|]. split; [|done]. simpl. rewrite Hget'. destruct (decide (i = k)) as [->|].
      * assert (h' = h) as -> by congruence. by rewrite He, !andb_false_r.
      * by destruct (Nat.ltb_spec i (S k)), (Nat.ltb_spec i k); try lia.
  - exists bits, sigs. split_and!; try done. intros i Hi. destruct (H i Hi) as (h & Hh & Hget & Ht & Hf). exists h. simpl in *.
    split_and!; try done. by rewrite Hget, (proj2 (Nat.ltb_lt _ _) Hi).
Qed.

Lemma behind_le_top vals f h t :
  length (hashes f) = vs_Size vals → tally_ok vals f (vs_Size vals) t → 0 < behind vals f h → behind vals f h <= ty_power t.
Proof.
  intros Hl [_ Htop _] Hpos. rewrite <- behind_upto_n. apply Htop.
  destruct (decide (Exists (λ x, x = Some h) (hashes f))) as [He|He].
  - apply Exists_exists in He as (x & Hx & ->). apply list_elem_of_lookup in Hx as (i & Hi). exists i. split; [|done].
    rewrite <- Hl. by eapply lookup_lt_Some.
  - exfalso. assert (behind vals f h = 0); [|lia]. apply power_of_none. intros i. apply bool_decide_eq_false_2. intros Hi. apply He.
    apply Exists_exists. exists (Some h). split; [|done]. by eapply list_elem_of_lookup_2.
Qed.

(** Two hashes of one response cannot both be behind two thirds. *)
Lemma one_hash_reaches vals f h h' :
  vs_TotalVotingPower vals < 2 ^ 62 → 2 * vs_TotalVotingPower vals < 3 * behind vals f h →
  2 * vs_TotalVotingPower vals < 3 * behind vals f h' → h = h'.
Proof.
  intros Hb H1 H2. destruct (decide (h = h')) as [->|Hne]; [done|]. exfalso.
  pose proof (power_of_overlap vals (has_hash f h) (has_hash f h') Hb) as Ho.
  rewrite (power_of_none vals (λ i, has_hash f h i && has_hash f h' i)) in Ho.
  - pose proof (power_of_nonneg vals (λ _, true)) as Hnn. rewrite (power_of_total vals Hb) in Hnn. unfold behind in *. lia.
  - intros i. unfold has_hash. repeat case_bool_decide; try done. congruence.
Qed.

Lemma total_pos vals : vs_TotalVotingPower vals < 2 ^ 62 → (0 < vs_Size vals)%nat → 0 < vs_TotalVotingPower vals.
Proof.
  intros Hb Hn. rewrite <- (power_of_total vals Hb). destruct (vs_lookup vals 0 Hn) as (val & Hv).
  pose proof (vs_power _ _ _ Hv). apply Z.lt_le_trans with (power_at vals 0); [unfold power_at; rewrite Hv; simpl; lia|].
  unfold power_of. apply (sumZ_elem_le (λ i, power_at vals i)); [intros; apply power_at_nonneg | apply elem_of_seq; lia].
Qed.

Lemma response_lengths vals f :
  Response_IsValid vals f = Ok () → length (hashes f) = vs_Size vals ∧ length (oracle_sigs f) = vs_Size vals.
Proof.
  destruct f as [[hs|] [rb|] [os|]]; unfold Response_IsValid; simpl; try done.
  intros H. pose proof (proj1 (response_valid_slots vals hs rb os) H) as ((L1 & L2 & _) & _). done.
Qed.

Lemma maj_response_spec th vals f :
  vs_TotalVotingPower vals < 2 ^ 62 → (0 < vs_Size vals)%nat → Response_IsValid vals f = Ok () → (∀ s, th ≠ UnknownThreshold s) →
  ∃ res, ToMajResponse th vals f = Ok res ∧
    (∀ h, (∃ agg, res = Some agg ∧ ag_Hash agg = Some h) ↔ reaches th vals (behind vals f h)) ∧
    (∀ agg h i, res = Some agg → ag_Hash agg = Some h → h ≠ "" → (i < vs_Size vals)%nat →
       ba_GetIndex (ag_SignatureBitArray agg) i = has_hash f h i ∧
       ag_OracleSignatures agg !! i = if has_hash f h i then oracle_sigs f !! i else Some None).
Proof.
  intros Hb Hn Hval Hth. apply response_lengths in Hval as (Hl & Hlo). pose proof (total_pos vals Hb Hn) as Htot.
  destruct (tally_total vals f Hb Hl) as (t & Ht & Hok).
  destruct (agree_total vals f (ty_hash t) Hl Hlo) as (bits & sigs & Hagree & _ & _ & Hslots).
  set (agg := mkAggregate (ty_hash t) bits sigs).
  assert (∃ res, ToMajResponse th vals f = Ok res ∧ (res = Some agg ∧ reaches th vals (ty_power t) ∨ res = None ∧ ¬ reaches th vals (ty_power t)))
    as (res & Hres & Hcase).
  { unfold ToMajResponse. rewrite Ht. simpl. rewrite Hagree. simpl. destruct th as [| |s]; [| |by destruct (Hth s)].
    - eexists. split; [done|]. simpl. rewrite <- two_thirds_spec by done. destruct (Z.leb_spec (two_thirds vals) (ty_power t)); [left | right]; (split; [done | lia]).
    - eexists. split; [done|]. simpl. destruct (Z.eqb_spec (ty_power t) (vs_TotalVotingPower vals)); [left | right]; done. }
  assert (∀ h, reaches th vals (behind vals f h) → reaches th vals (ty_power t)) as Htop.
  { intros h Hr. pose proof (reaches_most th vals _ Htot Hr) as (Hp & _). pose proof (behind_le_top vals f h t Hl Hok Hp).
    destruct (tk_best _ _ _ _ Hok) as [(_ & Hm)|(h' & _ & Hp')]; [lia|].
    eapply reaches_mono; [done | done |]. rewrite Hp'. by apply power_of_le_total. }
  exists res. split_and!; [done | |].
  - intros h. split.
    + intros (a & -> & Hh). destruct Hcase as [([= ->] & Hr)|(? & _)]; [|done].
      destruct (tk_best _ _ _ _ Hok) as [(Hno & _)|(h' & Hh' & Hp)]; [simpl in Hh; congruence|].
      simpl in Hh. assert (h' = h) as -> by congruence. by rewrite Hp, behind_upto_n in Hr.
    + intros Hr. pose proof (Htop h Hr) as Hr'. destruct Hcase as [(-> & _)|(_ & ?)]; [|done].
      exists agg. split; [done|]. destruct (tk_best _ _ _ _ Hok) as [(_ & Hm)|(h' & Hh' & Hp)].
      { pose proof (reaches_most th vals _ Htot Hr'). lia. }
      simpl. rewrite Hh'. f_equal. rewrite Hp, behind_upto_n in Hr'.
      apply (one_hash_reaches vals f); [done | |]; by apply (reaches_most th).
  - intros a h i -> Hh Hne Hi. destruct Hcase as [([= ->] & _)|(? & _)]; [|done]. simpl in Hh |- *.
    destruct (Hslots i Hi) as (oh & Hoh & Hget & Hsig & Hnone). rewrite Hh in Hget.
    assert (ba_GetIndex bits i = has_hash f h i) as Heq.
    { rewrite Hget. unfold has_hash, bytes_Equal. rewrite Hoh. simpl. destruct oh as [h'|]; simpl.
      - destruct (String.eqb_spec h h') as [->|]; case_bool_decide; congruence.
      - by apply String.eqb_neq. }
    split; [done|]. rewrite <- Heq. destruct (ba_GetIndex bits i); auto.
Qed.

Lemma selected_is_backed th vals f agg :
  vs_TotalVotingPower vals < 2 ^ 62 → (0 < vs_Size vals)%nat → Response_IsValid vals f = Ok () →
  ToMajResponse th vals f = Ok (Some agg) →
  ∃ h, ag_Hash agg = Some h ∧ 2 * vs_TotalVotingPower vals < 3 * behind vals f h.
Proof.
  intros Hb Hn Hf Hm. pose proof (total_pos vals Hb Hn) as Htot.
  assert (∀ s, th ≠ UnknownThreshold s) as Hth.
  { intros s ->. unfold ToMajResponse in Hm. destruct (loop _ _ _) as [t|?|]; [|done|done]. simpl in Hm.
    destruct (loop (agree_at _ _) _ _) as [[]|?|]; done. }
  destruct (ag_Hash agg) as [h|] eqn:Hh.
  - exists h. split; [done|]. destruct (maj_response_spec th vals f Hb Hn Hf Hth) as (res & Hres & Hiff & _).
    eapply reaches_most; [done|]. apply Hiff. exists agg. split; congruence.
  - exfalso. apply response_lengths in Hf as (Hl & _). destruct (tally_total vals f Hb Hl) as (t & Ht & Hok).
    unfold ToMajResponse in Hm. rewrite Ht in Hm. simpl in Hm. destruct (loop (agree_at _ _) _ _) as [[bits sigs]|?|]; [|done|done].
    simpl in Hm. assert (ty_hash t = None ∧ 0 < ty_power t) as (Hn' & Hp).
    { destruct th as [| |s]; [| |done].
      - destruct (Z.leb_spec (two_thirds vals) (ty_power t)) as [Hle|]; [|done]. injection Hm as <-.
        split; [done|]. apply two_thirds_spec in Hle; [lia | done].
      - destruct (Z.eqb_spec (ty_power t) (vs_TotalVotingPower vals)); [|done]. injection Hm as <-. split; [done | lia]. }
    destruct (tk_best _ _ _ _ Hok) as [(_ & ?)|(h & ? & _)]; [lia | congruence].
Qed.

(** The validators that have signed two different hashes. *)
Definition equivocates (f g : FnExecutionResponse) (i : nat) : bool :=
  match hashes f !! i, hashes g !! i with Some (Some h), Some (Some h') => negb (String.eqb h h') | _, _ => false end.

(** A node that sees a valid response selects a hash by [ToMajResponse] exactly
    when the power behind it reaches the threshold (more than two thirds, or all of
    it), and the aggregate names exactly the validators that answered with that hash,
    with their oracle signatures. *)
Theorem majority_selects_the_backed_hash th vals f :
  vs_TotalVotingPower vals < 2 ^ 62 → (0 < vs_Size vals)%nat → Response_IsValid vals f = Ok () → (∀ s, th ≠ UnknownThreshold s) →
  ∃ res, ToMajResponse th vals f = Ok res ∧
    (∀ h, (∃ agg, res = Some agg ∧ ag_Hash agg = Some h) ↔ reaches th vals (behind vals f h)) ∧
    (∀ agg h i, res = Some agg → ag_Hash agg = Some h → h ≠ "" → (i < vs_Size vals)%nat →
       ba_GetIndex (ag_SignatureBitArray agg) i = has_hash f h i ∧
       ag_OracleSignatures agg !! i = if has_hash f h i then oracle_sigs f !! i else Some None).
Proof. apply maj_response_spec. Qed.

(** Two nodes with different votes before them never select different hashes,
    unless validators with more than a third of the power answered with two hashes. *)
Theorem majorities_agree th th' vals f g agg agg' :
  vs_TotalVotingPower vals < 2 ^ 62 → (0 < vs_Size vals)%nat →
  Response_IsValid vals f = Ok () → Response_IsValid vals g = Ok () →
  ToMajResponse th vals f = Ok (Some agg) → ToMajResponse th' vals g = Ok (Some agg') →
  3 * power_of vals (equivocates f g) <= vs_TotalVotingPower vals →
  is_Some (ag_Hash agg) ∧ ag_Hash agg = ag_Hash agg'.
Proof.
  intros Hb Hn Hf Hg Hmf Hmg Heq. pose proof (total_pos vals Hb Hn) as Htot.
  destruct (selected_is_backed th vals f agg) as (h & Hh & Hq); [done..|].
  destruct (selected_is_backed th' vals g agg') as (h' & Hh' & Hq'); [done..|].
  rewrite Hh, Hh'. split; [done|]. f_equal. destruct (decide (h = h')) as [|Hne]; [done|]. exfalso.
  pose proof (power_of_overlap vals (has_hash f h) (has_hash g h') Hb) as Ho.
  assert (power_of vals (λ i, has_hash f h i && has_hash g h' i) <= power_of vals (equivocates f g)) as Hle.
  { apply power_of_mono. intros i _ Hi. unfold equivocates, has_hash in *. apply andb_true_iff in Hi as [H1 H2].
    apply bool_decide_eq_true in H1, H2. rewrite H1, H2. destruct (String.eqb_spec h h'); done. }
  unfold behind in *. lia.
Qed.

(** Merging two valid vote sets on the same function and nonce succeeds and
    unites them: the result is valid, has the votes of both (a validator's own vote
    is not replaced), counts each voter's power once, and reports a change exactly
    when the other set had a vote that this one lacked. *)
Theorem merging_unites_votes chainID vals registered v w :
  vs_TotalVotingPower vals < 2 ^ 62 →
  IsValid chainID vals registered v = Ok () → IsValid chainID vals registered w = Ok () →
  Nonce v = Nonce w → GetFnID v = GetFnID w →
  ∃ changed u, Merge vals v w = Ok (changed, u) ∧ IsValid chainID vals registered u = Ok () ∧
    (∀ i, HaveWeAlreadySigned i u = HaveWeAlreadySigned i v || HaveWeAlreadySigned i w) ∧
    TotalVotingPower u = power_of vals (λ i, HaveWeAlreadySigned i u) ∧
    (∀ i, hash_of u i = if HaveWeAlreadySigned i v then hash_of v i else hash_of w i) ∧
    (changed = true ↔ ∃ i, HaveWeAlreadySigned i v = false ∧ HaveWeAlreadySigned i w = true) ∧
    Nonce u = Nonce v ∧ GetFnID u = GetFnID v.
Proof. apply merge_valid. Qed.

(** Every vote set that nodes build (by starting one, adding their vote or
    merging) is valid to every node, and its total power is that of its voters. *)
Theorem built_vote_sets_are_valid chainID vals nonce fn registered v :
  vs_TotalVotingPower vals < 2 ^ 62 → registered fn = true → built chainID vals nonce fn v →
  IsValid chainID vals registered v = Ok () ∧ Nonce v = nonce ∧
    TotalVotingPower v = power_of vals (λ i, HaveWeAlreadySigned i v).
Proof.
  intros Hb Hreg Hbuilt. destruct (built_valid _ _ _ _ registered _ Hb Hreg Hbuilt) as (Hv & Hn & _).
  split_and!; [done | done | by eapply valid_power].
Qed.
End Validity.

(** ** The reactor's state *)

Section StateRoundtrip.
Context {TM : TendermintLib}.

Lemma foldl_insert {V} (l : list (string * V)) (acc : gmap string V) :
  NoDup l.*1 → foldl (λ acc kv, <[kv.1 := kv.2]> acc) acc l = list_to_map l ∪ acc.
Proof.
  revert acc. induction l as [|[k x] l IH]; intros acc Hnd; simpl; [by rewrite (left_id_L ∅ (∪))|].
  apply NoDup_cons in Hnd as [Hk Hnd]. rewrite IH by done. simpl. rewrite <- insert_union_l.
  symmetry. apply insert_union_r. by apply not_elem_of_list_to_map_1.
Qed.

Lemma by_fn_keyed (l : list (string * FnVoteSet)) (acc : gmap string FnVoteSet) :
  (∀ k v, (k, v) ∈ l → GetFnID v = Ok k) → by_fn l.*2 acc = Ok (foldl (λ acc kv, <[kv.1 := kv.2]> acc) acc l).
Proof.
  revert acc. induction l as [|[k v] l IH]; intros acc H; simpl; [done|].
  rewrite (H k v) by set_solver. simpl. apply IH. intros k' v' Hin. apply H. set_solver.
Qed.

(** A map listed in any order is found again. *)
Lemma listed_again {V} (m : gmap string V) (l : list (string * V)) :
  l ≡ₚ map_to_list m → foldl (λ acc kv, <[kv.1 := kv.2]> acc) ∅ l = m.
Proof.
  intros Hp. assert (NoDup l.*1) as Hnd by (rewrite Hp; apply NoDup_fst_map_to_list).
  rewrite foldl_insert, (right_id_L ∅ (∪)) by done.
  rewrite (list_to_map_proper l (map_to_list m) Hnd Hp). apply list_to_map_to_list.
Qed.

Definition keyed (m : gmap string FnVoteSet) : Prop := ∀ k v, m !! k = Some v → GetFnID v = Ok k.

Lemma votes_listed_again (m : gmap string FnVoteSet) (l : list (string * FnVoteSet)) :
  keyed m → l ≡ₚ map_to_list m → by_fn l.*2 ∅ = Ok m.
Proof.
  intros Hk Hp. rewrite by_fn_keyed, (listed_again m l Hp); [done|].
  intros k v Hin. rewrite Hp in Hin. apply elem_of_map_to_list in Hin. by apply Hk.
Qed.

(** A node that restarts finds the state it saved: whatever the order in which
    the maps were listed, [Unmarshal] rebuilds the maps of [Marshal], provided each
    vote set is stored under the function it votes on (the codec is left out). *)
Theorem reactor_state_survives_restart (order : ∀ {V}, gmap string V → list (string * V)) p :
  (∀ V (m : gmap string V), order m ≡ₚ map_to_list m) →
  keyed (CurrentVoteSets p) → keyed (PreviousTimedOutVoteSets p) → keyed (PreviousMajVoteSets p) →
  ReactorState_Unmarshal (ReactorState_Marshal (@order) p) = Ok p.
Proof.
  intros Ho H1 H2 H3. destruct p as [cur nonces timed maj prev]. unfold ReactorState_Unmarshal. simpl in *.
  rewrite (votes_listed_again cur _ H1 (Ho _ _)). simpl. rewrite (votes_listed_again timed _ H2 (Ho _ _)). simpl.
  rewrite (votes_listed_again maj _ H3 (Ho _ _)). simpl. by rewrite (listed_again nonces _ (Ho _ _)).
Qed.
End StateRoundtrip.

(** ** A concrete engine with four validators *)

Module FnWitness.

#[local] Instance tm : TendermintLib := {|
  BitArray := list bool;
  ba_New n := replicate n false;
  ba_Size := length;
  ba_GetIndex a i := default false (a !! i);
  ba_SetIndex i b a := <[i := b]> a;
  PubKey := string;
  pk_Address k := k;
  pk_VerifyBytes k b s := String.eqb s (k +:+ b);
  ValidatorSet := list (string * positive);
  vs_Size := length;
  vs_GetByIndex l i := (λ kp, (kp.1, kp.1, Z.pos kp.2)) <$> l !! i;
  vs_TotalVotingPower l := Z.min (2 ^ 63 - 1) (sumZ (λ i, from_option snd 0 ((λ kp : string * positive, (kp.1, kp.1, Z.pos kp.2)) <$> l !! i)) (seq 0 (length l)));
  vs_Hash _ := "validators";
  cdc_request fn := SimpleLib.unary (String.length fn) +:+ fn;
  cdc_individual h o := SimpleLib.unary (String.length (default "" h)) +:+ default "" h +:+ default "" o;
|}.

#[local] Instance tm_spec : TendermintSpec.
Proof.
  constructor; simpl.
  - intros n. apply length_replicate.
  - intros n i. destruct (replicate n false !! i) eqn:E; [|done]. by apply lookup_replicate in E as [-> _].
  - intros i b a. apply length_insert.
  - intros i b a j. destruct (decide _) as [(-> & Hj)|Hn]; [by rewrite list_lookup_insert_eq|].
    destruct (decide (i = j)) as [->|]; [|by rewrite list_lookup_insert_ne].
    by rewrite list_insert_ge by (destruct (decide (j < length a)%nat); [tauto | lia]).
  - intros a i Hi. by rewrite lookup_ge_None_2.
  - intros vs i. by rewrite fmap_is_Some, lookup_lt_is_Some.
  - intros vs i v. destruct (vs !! i); simpl; [intros [= <-]; done | done].
  - done.
Qed.

Definition vals : ValidatorSet := [("a", 1%positive); ("b", 1%positive); ("c", 1%positive); ("d", 1%positive)].
Definition sign (k : string) (b : bytes) : option bytes := Some (k +:+ b).
Definition registered (fn : string) : bool := String.eqb fn "sum".

Lemma keys_sign i k : (vals : list (string * positive)) !! i = Some (k, 1%positive) → signs_for vals i (sign k).
Proof.
  intros Hi. exists (k, k, 1). simpl. rewrite Hi. split_and!; [done | done |].
  intros b s [= <-]. apply String.eqb_refl.
Qed.

(** What validator [i] answers alone. *)
Definition answer (i : nat) (h : bytes) : FnExecutionResponse :=
  match NewFnExecutionResponse (mkIndividual (Some h) (Some "o")) i vals with Ok r => r | _ => mkResponse None None None end.
Definition vote (i : nat) (k : string) : FnVoteSet :=
  match NewVoteSet 7 "chain" i (mkPayload (Some "sum") (Some (answer i "42"))) (sign k) vals with
  | Ok v => v
  | _ => mkVoteSet 0 "" "" 0 None None [] None
  end.

Lemma votes_valid :
  IsValid "chain" vals registered (vote 0 "a") = Ok () ∧ IsValid "chain" vals registered (vote 2 "c") = Ok ().
Proof. split; vm_compute; reflexivity. Qed.

Definition three (h1 h2 h3 : option bytes) : FnExecutionResponse :=
  let o (h : option bytes) := (λ _, "o") <$> h in
  mkResponse (Some [h1; h2; h3; None]) (Some [bool_decide (is_Some h1); bool_decide (is_Some h2); bool_decide (is_Some h3); false])
    (Some [o h1; o h2; o h3; None]).

(** Three of four validators select their hash. *)
Lemma majority_witness :
  ∃ res, ToMajResponse Maj23SigningThreshold vals (three (Some "42") (Some "42") (Some "42")) = Ok res ∧
    (∃ agg, res = Some agg ∧ ag_Hash agg = Some "42").
Proof.
  destruct (majority_selects_the_backed_hash Maj23SigningThreshold vals (three (Some "42") (Some "42") (Some "42"))) as (res & Hres & Hiff & _);
    [by vm_compute | by vm_compute; lia | by vm_compute | done |].
  exists res. split; [done|]. apply Hiff. by vm_compute.
Defined.

(** One validator of four answers twice: the hashes still agree. *)
Definition other_three : FnExecutionResponse :=
  mkResponse (Some [Some "41"; Some "42"; Some "42"; Some "42"]) (Some [true; true; true; true]) (Some [Some "o"; Some "o"; Some "o"; Some "o"]).

Lemma maj_agree_witness :
  ∃ agg agg', ToMajResponse Maj23SigningThreshold vals (three (Some "42") (Some "42") (Some "42")) = Ok (Some agg) ∧
    ToMajResponse Maj23SigningThreshold vals other_three = Ok (Some agg') ∧ ag_Hash agg = ag_Hash agg'.
Proof.
  do 2 eexists. split; [vm_compute; reflexivity|]. split; [vm_compute; reflexivity|].
  refine (proj2 (majorities_agree Maj23SigningThreshold Maj23SigningThreshold vals
    (three (Some "42") (Some "42") (Some "42")) other_three _ _ _ _ _ _ _ _ _)); try (vm_compute; reflexivity || lia).
  vm_compute. discriminate.
Defined.

Lemma merge_witness :
  ∃ u, Merge vals (vote 0 "a") (vote 2 "c") = Ok (true, u) ∧ TotalVotingPower u = 2.
Proof.
  destruct (merging_unites_votes "chain" vals registered (vote 0 "a") (vote 2 "c")) as (ch & u & Hm & _ & Hb & Hp & _ & Hch & _);
    [by vm_compute | apply votes_valid | apply votes_valid | done | done |].
  exists u. split.
  - rewrite Hm. f_equal. f_equal. apply Hch. exists 2%nat. by vm_compute.
  - rewrite Hp, (power_of_ext _ _ _ (λ i _, Hb i)). by vm_compute.
Defined.

Lemma built_witness :
  ∃ v, built "chain" vals 7 "sum" v ∧ IsValid "chain" vals registered v = Ok ().
Proof.
  exists (vote 1 "b"). assert (built "chain" vals 7 "sum" (vote 1 "b")) as Hb.
  { eapply (built_new _ _ _ _ 1 "42" "o" (sign "b") (answer 1 "42")); [by apply keys_sign | by vm_compute | by vm_compute]. }
  split; [done|]. apply (built_vote_sets_are_valid "chain" vals 7 "sum" registered); [by vm_compute | done | done].
Defined.

Lemma restart_witness :
  let p := mkReactorState {["sum" := vote 0 "a"]} {["sum" := 7]} ∅ {["sum" := vote 2 "c"]} None in
  ReactorState_Unmarshal (ReactorState_Marshal (λ V (m : gmap string V), map_to_list m) p) = Ok p.
Proof.
  assert (∀ v, GetFnID v = Ok "sum" → keyed {["sum" := v]}) as Hk.
  { intros v Hv k x Hx. by apply lookup_singleton_Some in Hx as [<- <-]. }
  apply reactor_state_survives_restart; simpl; [done | by apply Hk | by intros k v Hv | by apply Hk].
Defined.
End FnWitness.
