(* ===== verification/Receipts.v ===== *)
(** * Receipts of EVM transactions (src/receipts, src/eth/bloom)

    What a transaction of the EVM did is kept as a receipt: the current receipt of
    the running transaction, the receipts of the block, and after the block either
    in the application's store (chain/chain.go) or in a LevelDB of bounded size
    (leveldb/leveldb.go), which chains its records from the oldest to the newest.
    The handler (handler/handler.go) picks the storage by its version.

    LevelDB is a map from keys to values whose [Get] fails on a missing key; a
    transaction of it is a copy that replaces the map when it commits.  The codec of
    protocol buffers, SHA-256 and the bloom filter are parameters.  The events that
    [Post] gets are those of the caller with the hash of the transaction filled in.
    The mutex is left out: every method runs alone. *)

From S2P Require Import Prelude Contract Store Middleware App.

(** ** Data *)

(** [types.EventData] *)
Record EventData := mkEventData {
  ev_Topics : list string;
  ev_Caller : option Address;
  ev_Address : option Address;
  ev_PluginName : string;
  ev_BlockHeight : Z;
  ev_EncodedBody : bytes;
  ev_OriginalRequest : bytes;
  ev_TxHash : bytes;
  ev_BlockHash : bytes;
  ev_TransactionIndex : Z;
  ev_BlockTime : Z;
}.

(** [types.EvmTxReceipt] *)
Record EvmTxReceipt := mkReceipt {
  tr_Nonce : Z;
  tr_TransactionIndex : Z;
  tr_BlockHash : bytes;
  tr_BlockNumber : Z;
  tr_CumulativeGasUsed : Z;
  tr_GasUsed : Z;
  tr_ContractAddress : bytes;
  tr_LogsBdiadem : bytes;
  tr_Status : Z;
  tr_CallerAddress : option Address;
  tr_TxHash : bytes;
  tr_Logs : list EventData;
}.

(** [types.EvmTxReceiptListItem]; a missing next hash is empty. *)
Record EvmTxReceiptListItem := mkListItem { li_Receipt : option EvmTxReceipt; li_NextTxHash : bytes }.

(** The fields of the block header that are read. *)
Record BlockHeader := mkBlockHeader { bk_CurrentHash : bytes; bk_LastHash : bytes; bk_Height : Z; bk_NumTxs : Z }.

Class ReceiptLib := {
  marshal_Receipt : EvmTxReceipt → bytes;
  unmarshal_Receipt : bytes → option EvmTxReceipt;
  marshal_ListItem : EvmTxReceiptListItem → bytes;
  unmarshal_ListItem : bytes → option EvmTxReceiptListItem;
  marshal_HashList : list bytes → bytes;
  unmarshal_HashList : bytes → option (list bytes);
  sha256 : bytes → bytes;
  (** a bloom filter of 8 bits per key: [Generate] after the [Add]s, and [Contains] *)
  bloom_generate : list bytes → bytes;
  bloom_contains : bytes → bytes → bool;
}.

Class ReceiptLibSpec `{DiademLib} `{ReceiptLib} : Prop := {
  receipt_roundtrip r : unmarshal_Receipt (marshal_Receipt r) = Some r;
  list_item_roundtrip i : unmarshal_ListItem (marshal_ListItem i) = Some i;
  hash_list_roundtrip l : unmarshal_HashList (marshal_HashList l) = Some l;
  hash_list_empty : unmarshal_HashList "" = Some [];
  (** a filter has no false negatives and is never empty *)
  bloom_complete ks k : k ∈ ks → bloom_contains (bloom_generate ks) k = true;
  bloom_nonempty ks : bloom_generate ks ≠ "";
  receipt_prefixes_apart p q x y :
    p ∈ ["receipt"; "bdiademFilter"; "txHash"] → q ∈ ["receipt"; "bdiademFilter"; "txHash"] → p ≠ q →
    prefix_key [p; x] ≠ prefix_key [q; y];
}.

Definition StatusTxSuccess : Z := 1.
Definition StatusTxFail : Z := 0.
Definition ReceiptPrefix : bytes := "receipt".
Definition BdiademPrefix : bytes := "bdiademFilter".
Definition TxHashPrefix : bytes := "txHash".

(** [errors.Wrap] of what a call returns. *)
Definition wrap {W A} (e : error) (m : M W A) : M W A := λ w,
  match m w with (Err _, w') => (Err e, w') | x => x end.

(** A slice that may be nil or empty. *)
Definition no_bytes (b : bytes) : bool := String.eqb b "".

Section Writing.
Context {LIB : DiademLib} {RL : ReceiptLib}.

(** The keys of an event in the filter; the address is dereferenced. *)
Definition event_keys (msg : EventData) : Res (list bytes) :=
  match ev_Address msg with Some a => Ok (ev_Topics msg ++ [Local a]) | None => Panic end.

Fixpoint all_keys (msgs : list EventData) : Res (list bytes) :=
  match msgs with
  | [] => Ok []
  | msg :: msgs => ks ← event_keys msg; rest ← all_keys msgs; Ok (ks ++ rest)
  end.

Definition GenBdiademFilter (msgs : list EventData) : Res bytes :=
  match msgs with [] => Ok "" | _ => ks ← all_keys msgs; Ok (bloom_generate ks) end.

Context {E : Type}.
(** [EventHandler.Post]; the handler may be nil. *)
Context (eventHandler : option (Z → EventData → M E unit)).

Definition ev_with_TxHash (h : bytes) (e : EventData) : EventData :=
  mkEventData (ev_Topics e) (ev_Caller e) (ev_Address e) (ev_PluginName e) (ev_BlockHeight e) (ev_EncodedBody e)
    (ev_OriginalRequest e) h (ev_BlockHash e) (ev_TransactionIndex e) (ev_BlockTime e).
Definition ev_with_Block (h : bytes) (i : Z) (e : EventData) : EventData :=
  mkEventData (ev_Topics e) (ev_Caller e) (ev_Address e) (ev_PluginName e) (ev_BlockHeight e) (ev_EncodedBody e)
    (ev_OriginalRequest e) (ev_TxHash e) h i (ev_BlockTime e).
Definition tr_finish (h : bytes) (logs : list EventData) (r : EvmTxReceipt) : EvmTxReceipt :=
  mkReceipt (tr_Nonce r) (tr_TransactionIndex r) (tr_BlockHash r) (tr_BlockNumber r) (tr_CumulativeGasUsed r) (tr_GasUsed r)
    (tr_ContractAddress r) (tr_LogsBdiadem r) (tr_Status r) (tr_CallerAddress r) h logs.

Definition ev_with_Height (h : Z) (e : EventData) : EventData :=
  mkEventData (ev_Topics e) (ev_Caller e) (ev_Address e) (ev_PluginName e) h (ev_EncodedBody e)
    (ev_OriginalRequest e) (ev_TxHash e) (ev_BlockHash e) (ev_TransactionIndex e) (ev_BlockTime e).

Definition post (height : Z) (e : EventData) : M E unit :=
  match eventHandler with Some p => ignore_err (p height e) | None => mret () end.

(** The event after [Post], which gets a pointer and fills in a missing height. *)
Definition posted (height : Z) (e : EventData) : EventData :=
  match eventHandler with
  | Some _ => if ev_BlockHeight e =? 0 then ev_with_Height height e else e
  | None => e
  end.

(** [leveldb.WriteReceipt] *)
Definition WriteReceipt (block : BlockHeader) (caller addr : Address) (events : list EventData) (status evmTxIndex nonce : Z) :
    M E EvmTxReceipt :=
  filter ← lift_res (GenBdiademFilter events);
  let txReceipt := mkReceipt nonce evmTxIndex (bk_CurrentHash block) (bk_Height block) 0 0 (Local addr) filter status
                     (Some caller) "" [] in
  let txHash := sha256 (marshal_Receipt txReceipt) in
  let events := ev_with_TxHash txHash <$> events in
  forM events (post (u64 (bk_Height block)));;
  mret (tr_finish txHash (ev_with_Block (bk_CurrentHash block) (u64 evmTxIndex) <$> (posted (u64 (bk_Height block)) <$> events)) txReceipt).

(** [chain.DepreciatedWriteReceipt] *)
Definition DepreciatedWriteReceipt (block : BlockHeader) (caller addr : Address) (events : list EventData) (status : Z) :
    M E EvmTxReceipt :=
  filter ← lift_res (GenBdiademFilter events);
  let txReceipt := mkReceipt 0 (bk_NumTxs block) (bk_LastHash block) (bk_Height block) 0 0 (Local addr) filter status
                     (Some caller) "" [] in
  let txHash := sha256 (marshal_Receipt txReceipt) in
  let events := ev_with_TxHash txHash <$> events in
  forM events (post (u64 (bk_Height block)));;
  mret (tr_finish txHash (posted (u64 (bk_Height block)) <$> events) txReceipt).
End Writing.

(** ** Hashes and filters of a block (common/common.go) *)

Section Common.
Context {LIB : DiademLib} {RL : ReceiptLib} {T : Type} {KV : KVStore T}.

Definition BlockHeightToBytes (height : Z) : bytes := le_encode 8 height.

Definition GetTxHashList (state : T) (height : Z) : Res (list bytes) :=
  match unmarshal_HashList (default "" (prefixReader_Get (PrefixKVStore TxHashPrefix state) (BlockHeightToBytes height))) with
  | Some l => Ok l
  | None => Err errUnmarshal
  end.

Definition AppendTxHashList (txHash : list bytes) (height : Z) : M T unit :=
  state ← gets id;
  match GetTxHashList state height with
  | Ok txHashList =>
      modify (λ s, ps_store (prefixWriter_Set (BlockHeightToBytes height) (marshal_HashList (txHashList ++ txHash))
                               (PrefixKVStore TxHashPrefix s)))
  | Err _ => throw (ErrMsg "getting tx hash list")
  | Panic => panic
  end.

Definition GetBdiademFilter (state : T) (height : Z) : option bytes :=
  prefixReader_Get (PrefixKVStore BdiademPrefix state) (BlockHeightToBytes height).

Definition SetBdiademFilter (filter : bytes) (height : Z) : M T unit :=
  modify (λ s, ps_store (prefixWriter_Set (BlockHeightToBytes height) filter (PrefixKVStore BdiademPrefix s))).

(** ** Receipts in the store (chain/chain.go) *)

Definition Chain_GetReceipt (state : T) (txHash : bytes) : Res EvmTxReceipt :=
  match prefixReader_Get (PrefixKVStore ReceiptPrefix state) txHash with
  | None => Err (ErrMsg "Tx receipt not found")
  | Some txReceiptProto =>
      match unmarshal_Receipt txReceiptProto with Some r => Ok r | None => Err errUnmarshal end
  end.

(** A receipt that is stored: not nil and with a hash. *)
Definition stored (txReceipt : option EvmTxReceipt) : option EvmTxReceipt :=
  match txReceipt with
  | Some r => if no_bytes (tr_TxHash r) then None else Some r
  | None => None
  end.

Definition Chain_CommitBlock (receipts : list (option EvmTxReceipt)) (height : Z) : M T unit :=
  if (length receipts =? 0)%nat then mret ()
  else
    let rs := omap stored receipts in
    forM rs (λ r, modify (λ s, ps_store (prefixWriter_Set (tr_TxHash r) (marshal_Receipt r) (PrefixKVStore ReceiptPrefix s))));;
    wrap (ErrMsg "saving block's tx hash list: %s") (AppendTxHashList (tr_TxHash <$> rs) height);;
    filter ← lift_res (GenBdiademFilter (mjoin (tr_Logs <$> rs)));
    SetBdiademFilter filter height.
End Common.

(** ** Receipts in LevelDB (leveldb/leveldb.go) *)

Abbreviation Db := (gmap bytes bytes).
Definition ErrNotFound : error := ErrMsg "leveldb: not found".

Definition headKey : bytes := "leveldb:head".
Definition tailKey : bytes := "leveldb:tail".
Definition currentDbSizeKey : bytes := "leveldb:size".

Definition db_Get (k : bytes) (db : Db) : Res bytes := match db !! k with Some v => Ok v | None => Err ErrNotFound end.

(** [binary.LittleEndian.Uint64]: fewer than eight bytes panic. *)
Fixpoint le_decode (n : nat) (s : bytes) : Res Z :=
  match n, s with
  | O, _ => Ok 0
  | S n, String c s => x ← le_decode n s; Ok (Z.of_N (Ascii.N_of_ascii c) + 256 * x)
  | S _, EmptyString => Panic
  end.

Definition getDBParams (db : Db) : Res (Z * bytes * bytes) :=
  match db !! currentDbSizeKey with
  | None => Ok (0, "", "")
  | Some sizeB =>
      size ← le_decode 8 sizeB;
      if size =? 0 then Ok (0, "", "")
      else
        head ← db_Get headKey db;
        if no_bytes head then Err (ErrMsg "no head for non zero size receipt db")
        else
          tail ← db_Get tailKey db;
          if no_bytes tail then Err (ErrMsg "no tail for non zero size receipt db")
          else Ok (size, head, tail)
  end.

Definition setDBParams (size : Z) (head tail : bytes) (tr : Db) : Db :=
  <[currentDbSizeKey := le_encode 8 size]> (<[tailKey := tail]> (<[headKey := head]> tr)).

Section LevelDb.
Context {RL : ReceiptLib}.

Definition LevelDb_GetReceipt (db : Db) (txHash : bytes) : Res EvmTxReceipt :=
  match db !! txHash with
  | None => Err (ErrMsg "get receipt")
  | Some txReceiptProto =>
      match unmarshal_ListItem txReceiptProto with
      | Some (mkListItem (Some r) _) => Ok r
      | _ => Panic
      end
  end.

(** The loop of [removeOldEntries]: [n] entries are still to be deleted. *)
Fixpoint removeEntries (n : nat) (tran : Db) (head : bytes) (itemsDeleted : Z) : Res (Db * bytes * Z) :=
  match n with
  | O => Ok (tran, head, itemsDeleted)
  | S n =>
      if no_bytes head then Ok (tran, head, itemsDeleted)
      else
        match tran !! head with
        | None => Err (ErrMsg "get head")
        | Some headItem =>
            match unmarshal_ListItem headItem with
            | None => Err (ErrMsg "unmarshal head")
            | Some item => removeEntries n (delete head tran) (li_NextTxHash item) (u64 (itemsDeleted + 1))
            end
        end
  end.

Definition removeOldEntries (tran : Db) (head : bytes) (number : Z) : Res (Db * bytes * Z) :=
  '(tran, head, itemsDeleted) ← removeEntries (Z.to_nat number) tran head 0;
  if itemsDeleted <? number then Err (ErrMsg "Unable to delete receipts") else Ok (tran, head, itemsDeleted).

(** The variables of the loop of [CommitBlock]. *)
Record CommitState := mkCommitState {
  cs_tran : Db;
  cs_size : Z;
  cs_headHash : bytes;
  cs_tailHash : bytes;
  cs_tailReceiptItem : EvmTxReceiptListItem;
}.

(** Writing the tail back; a new key counts. *)
Definition put_tail (item : EvmTxReceiptListItem) (c : CommitState) : CommitState :=
  let updating := bool_decide (is_Some (cs_tran c !! cs_tailHash c)) in
  mkCommitState (<[cs_tailHash c := marshal_ListItem item]> (cs_tran c)) (if updating then cs_size c else u64 (cs_size c + 1))
    (cs_headHash c) (cs_tailHash c) item.

(** One receipt: the previous tail points to it and it becomes the tail. *)
Definition link_receipt (c : CommitState) (txReceipt : EvmTxReceipt) : CommitState :=
  let c :=
    if no_bytes (cs_headHash c)
    then mkCommitState (cs_tran c) (cs_size c) (tr_TxHash txReceipt) (cs_tailHash c) (cs_tailReceiptItem c)
    else put_tail (mkListItem (li_Receipt (cs_tailReceiptItem c)) (tr_TxHash txReceipt)) c in
  mkCommitState (cs_tran c) (cs_size c) (cs_headHash c) (tr_TxHash txReceipt) (mkListItem (Some txReceipt) "").

Definition load_tail (headHash tailHash : bytes) (tran : Db) : Res EvmTxReceiptListItem :=
  if no_bytes headHash then Ok (mkListItem None "")
  else
    match tran !! tailHash with
    | None => Err (ErrMsg "cannot find tail")
    | Some tailItemProto =>
        match unmarshal_ListItem tailItemProto with Some i => Ok i | None => Err (ErrMsg "unmarshalling tail") end
    end.

(** Chaining the receipts and removing the oldest ones that exceed the limit: the
    transaction and the new parameters.  [None] is the error that wraps nil, which
    is success without a commit. *)
Definition link_block (MaxDbSize : Z) (rs : list EvmTxReceipt) (db : Db) : Res (option Db) :=
  '(size, headHash, tailHash) ← match getDBParams db with Err _ => Err (ErrMsg "getting db params.") | r => r end;
  tailReceiptItem ← load_tail headHash tailHash db;
  let c := foldl link_receipt (mkCommitState db size headHash tailHash tailReceiptItem) rs in
  let c := if no_bytes (cs_tailHash c) then c else put_tail (cs_tailReceiptItem c) c in
  if MaxDbSize <? cs_size c then
    '(tran, headHash, numDeleted) ←
      match removeOldEntries (cs_tran c) (cs_headHash c) (u64 (cs_size c - MaxDbSize)) with
      | Err _ => Err (ErrMsg "removing old receipts")
      | r => r
      end;
    if cs_size c <? numDeleted then Ok None
    else Ok (Some (setDBParams (u64 (cs_size c - numDeleted)) headHash (cs_tailHash c) tran))
  else Ok (Some (setDBParams (cs_size c) (cs_headHash c) (cs_tailHash c) (cs_tran c))).
End LevelDb.

(** ** The handler (handler/handler.go) *)

Definition ReceiptHandlerChain : Z := 1.
Definition ReceiptHandlerLevelDb : Z := 2.
Definition ReceiptHandlerLegacyV1 : Z := 101.
Definition ReceiptHandlerLegacyV2 : Z := 102.
Definition DefaultMaxReceipts : Z := 2000.

Definition ErrInvalidVersion : error := ErrMsg "invalid version".

Definition ReceiptHandlerVersionFromInt (v : Z) : Res Z :=
  if (v <? 0) || (ReceiptHandlerLegacyV2 <? v) then Err ErrInvalidVersion
  else if v =? 0 then Ok ReceiptHandlerChain
  else Ok v.

(** [ReceiptHandler] with the database of its [leveldbReceipts], and the memory that
    the event handler writes. *)
Record REnv (E : Type) := mkREnv {
  rn_v : Z;
  rn_MaxDbSize : Z;
  rn_receiptsCache : list EvmTxReceipt;
  rn_txHashList : list bytes;
  rn_currentReceipt : option EvmTxReceipt;
  rn_db : Db;
  rn_env : E;
}.
Arguments mkREnv {E}.
Arguments rn_v {E}.
Arguments rn_MaxDbSize {E}.
Arguments rn_receiptsCache {E}.
Arguments rn_txHashList {E}.
Arguments rn_currentReceipt {E}.
Arguments rn_db {E}.
Arguments rn_env {E}.

Section Handler.
Context {LIB : DiademLib} {RL : ReceiptLib} {T E : Type} {KV : KVStore T}.
Context (eventHandler : option (Z → EventData → M E unit)).
Implicit Types r : REnv E.
Abbreviation W := (TxWorld T (REnv E)).

Definition NewReceiptHandler (version maxReceipts : Z) (db : Db) (env : E) : REnv E :=
  mkREnv version maxReceipts [] [] None db env.

Definition rn_with_current (c : option EvmTxReceipt) r : REnv E :=
  mkREnv (rn_v r) (rn_MaxDbSize r) (rn_receiptsCache r) (rn_txHashList r) c (rn_db r) (rn_env r).
Definition rn_with_cache (l : list EvmTxReceipt) (hs : list bytes) r : REnv E :=
  mkREnv (rn_v r) (rn_MaxDbSize r) l hs (rn_currentReceipt r) (rn_db r) (rn_env r).
Definition rn_with_db (db : Db) r : REnv E :=
  mkREnv (rn_v r) (rn_MaxDbSize r) (rn_receiptsCache r) (rn_txHashList r) (rn_currentReceipt r) db (rn_env r).
Definition rn_with_env (e : E) r : REnv E :=
  mkREnv (rn_v r) (rn_MaxDbSize r) (rn_receiptsCache r) (rn_txHashList r) (rn_currentReceipt r) (rn_db r) e.

Definition on_renv {A} (m : M (REnv E) A) : M W A :=
  zoom tw_env (λ e w, mkTxWorld (tw_store w) (tw_nonce w) e) m.

Definition GetReceipt (state : T) (txHash : bytes) r : Res EvmTxReceipt :=
  if rn_v r =? ReceiptHandlerChain then Chain_GetReceipt state txHash
  else if rn_v r =? ReceiptHandlerLevelDb then
    match LevelDb_GetReceipt (rn_db r) txHash with
    | Err e =>
        match Chain_GetReceipt state txHash with
        | Err _ => Err e
        | res => res
        end
    | res => res
    end
  else Err ErrInvalidVersion.

Fixpoint find_pending (txHash : bytes) (l : list EvmTxReceipt) : option EvmTxReceipt :=
  match l with
  | [] => None
  | receipt :: l => if bytes_compare (tr_TxHash receipt) txHash =? 0 then Some receipt else find_pending txHash l
  end.

Definition GetPendingReceipt (txHash : bytes) r : Res EvmTxReceipt :=
  match find_pending txHash (rn_receiptsCache r) with
  | Some receipt => Ok receipt
  | None => Err (ErrMsg "pending receipt not found")
  end.

Definition GetCurrentReceipt r : option EvmTxReceipt := rn_currentReceipt r.
Definition GetPendingTxHashList r : list bytes := rn_txHashList r.

Definition CommitCurrentReceipt : M (REnv E) unit :=
  modify (λ r,
    match rn_currentReceipt r with
    | Some c => rn_with_current None (rn_with_cache (rn_receiptsCache r ++ [c]) (rn_txHashList r ++ [tr_TxHash c]) r)
    | None => r
    end).

Definition DiscardCurrentReceipt : M (REnv E) unit := modify (rn_with_current None).

(** [LevelDbReceipts.CommitBlock]: the hashes and the filter go to the store before the
    database commits; an error discards the transaction of the database. *)
Definition LevelDb_CommitBlock (receipts : list EvmTxReceipt) (height : Z) : M W unit :=
  if (length receipts =? 0)%nat then mret ()
  else
    let rs := omap stored (Some <$> receipts) in
    w ← gets (id : W → W);
    tran ← lift_res (link_block (rn_MaxDbSize (tw_env w)) rs (rn_db (tw_env w)));
    match tran with
    | None => mret ()
    | Some tran =>
        wrap (ErrMsg "append tx list")
          (on_tx (AppendTxHashList (tr_TxHash <$> List.filter (λ t, tr_Status t =? StatusTxSuccess) rs) height));;
        flt ← lift_res (GenBdiademFilter (mjoin (tr_Logs <$> rs)));
        on_tx (SetBdiademFilter flt height);;
        on_renv (modify (rn_with_db tran))
    end.

(** The cache is emptied whatever the outcome. *)
Definition CommitBlock (height : Z) : M W unit :=
  λ w,
    let r := tw_env w in
    let '(out, w') :=
      (if rn_v r =? ReceiptHandlerChain then on_tx (Chain_CommitBlock (Some <$> rn_receiptsCache r) (u64 height))
       else if rn_v r =? ReceiptHandlerLevelDb then LevelDb_CommitBlock (rn_receiptsCache r) (u64 height)
       else throw ErrInvalidVersion) w in
    match out with
    | Panic => (Panic, w')
    | _ => (out, mkTxWorld (tw_store w') (tw_nonce w') (rn_with_cache [] [] (tw_env w')))
    end.

Definition on_events {A} (m : M E A) : M W A := on_renv (zoom rn_env rn_with_env m).

Definition CacheReceipt (block : BlockHeader) (caller addr : Address) (events : list EventData) (txFailed : bool) : M W bytes :=
  let status := if txFailed then StatusTxFail else StatusTxSuccess in
  w ← gets (id : W → W);
  let r := tw_env w in
  receipt ←
    (if rn_v r =? ReceiptHandlerChain then
       on_events (DepreciatedWriteReceipt eventHandler block caller addr events status)
     else if rn_v r =? ReceiptHandlerLevelDb then
       nonce ← lift_res (Nonce (tw_store w) caller);
       on_events (WriteReceipt eventHandler block caller addr events status (i32 (Z.of_nat (length (rn_receiptsCache r)))) (i64 nonce))
     else throw (ErrMsg "receipt not written, returning empty hash"));
  on_renv (modify (rn_with_current (Some receipt)));;
  mret (tr_TxHash receipt).

Definition SetFailStatusCurrentReceipt : M (REnv E) unit :=
  modify (λ r, rn_with_current
    ((λ c, mkReceipt (tr_Nonce c) (tr_TransactionIndex c) (tr_BlockHash c) (tr_BlockNumber c) (tr_CumulativeGasUsed c) (tr_GasUsed c)
             (tr_ContractAddress c) (tr_LogsBdiadem c) StatusTxFail (tr_CallerAddress c) (tr_TxHash c) (tr_Logs c))
       <$> rn_currentReceipt r) r).

(** [GetEventsFromLogs] of evm_handler.go: the logs of go-ethereum as events; topics and
    the name of the contract are printed by the libraries. *)
Record EvmLog := mkEvmLog { el_Address : bytes; el_Topics : list bytes; el_Data : bytes }.

Definition GetEventsFromLogs (hashString localString : bytes → string) (logs : list EvmLog) (blockHeight : Z)
    (caller contract : Address) (input : bytes) : list EventData :=
  (λ log, mkEventData (hashString <$> el_Topics log) (Some caller) (Some (mkAddress (ChainID caller) (el_Address log)))
            (localString (Local contract)) (u64 blockHeight) (el_Data log) input "" "" 0 0) <$> logs.
End Handler.
