(* ===== verification/ReceiptsTheorems.v ===== *)
(** * Receipts: the database is a bounded queue, and what a block leaves

    The records of the LevelDB form a linked segment from the oldest receipt to the
    newest ([lseg]); committing a block appends its receipts and drops the oldest ones
    beyond the limit, as on a bounded queue.  Receipts in the store round trip, and a
    handler commits exactly the receipts of the transactions that went through. *)

From S2P Require Import Prelude Contract Store Middleware App Receipts.

(** ** Little-endian numbers *)

Lemma le_roundtrip n x : le_decode n (le_encode n x) = Ok (x mod 256 ^ Z.of_nat n).
Proof.
  revert x. induction n as [|n IH]; intros x; [cbn; by rewrite Z.mod_1_r|].
  cbn [le_encode le_decode]. rewrite IH. cbn [mbind Res_bind].
  rewrite Ascii.N_ascii_embedding by (pose proof (Z.mod_pos_bound x 256); lia).
  rewrite Z2N.id by (apply Z.mod_pos_bound; lia). f_equal.
  replace (Z.of_nat (S n)) with (Z.of_nat n + 1) by lia.
  rewrite Z.pow_add_r, Z.pow_1_r, (Z.mul_comm _ 256), Z.rem_mul_r by lia. done.
Qed.

Lemma le_roundtrip8 x : 0 <= x < 2 ^ 64 → le_decode 8 (le_encode 8 x) = Ok x.
Proof. intros Hx. rewrite le_roundtrip. change (256 ^ Z.of_nat 8) with (2 ^ 64). by rewrite Z.mod_small. Qed.

Lemma no_bytes_true b : no_bytes b = true ↔ b = "".
Proof. apply String.eqb_eq. Qed.
Lemma no_bytes_false b : no_bytes b = false ↔ b ≠ "".
Proof. apply String.eqb_neq. Qed.

Section Queue.
Context {LIB : DiademLib} {RL : ReceiptLib} {RLS : ReceiptLibSpec}.
Implicit Types (qs rs : list EvmTxReceipt) (tr db : Db).

(** ** Linked segments *)

(** The hash at which a segment starts that ends before [next]. *)
Definition first_hash qs (next : bytes) : bytes := match qs with [] => next | r :: _ => tr_TxHash r end.

Fixpoint lseg tr qs (next : bytes) : Prop :=
  match qs with
  | [] => True
  | r :: qs => tr !! tr_TxHash r = Some (marshal_ListItem (mkListItem (Some r) (first_hash qs next))) ∧ lseg tr qs next
  end.

Lemma lseg_app tr a b next : lseg tr (a ++ b) next ↔ lseg tr a (first_hash b next) ∧ lseg tr b next.
Proof.
  induction a as [|r a IH]; cbn; [tauto|]. rewrite IH.
  assert (first_hash (a ++ b) next = first_hash a (first_hash b next)) as -> by (by destruct a). tauto.
Qed.

Lemma lseg_agree tr tr' qs next :
  (∀ k, k ∈ tr_TxHash <$> qs → tr' !! k = tr !! k) → lseg tr qs next → lseg tr' qs next.
Proof.
  intros Hk. induction qs as [|r qs IH]; cbn; [done|]. intros [H1 H2]. split.
  - rewrite Hk; [done|]. cbn. by left.
  - apply IH; [|done]. intros k Hin. apply Hk. cbn. by right.
Qed.

Lemma lseg_lookup tr qs next r : lseg tr qs next → r ∈ qs → ∃ nxt, tr !! tr_TxHash r = Some (marshal_ListItem (mkListItem (Some r) nxt)).
Proof.
  induction qs as [|q qs IH]; cbn; [by intros _ ?%elem_of_nil|]. intros [H1 H2] [->|Hin]%elem_of_cons; [by eexists | by apply IH].
Qed.

Definition param_keys : list bytes := [headKey; tailKey; currentDbSizeKey].

(** Receipts that can be told apart from each other and from the parameters. *)
Definition proper qs : Prop :=
  NoDup (tr_TxHash <$> qs) ∧ ∀ h, h ∈ tr_TxHash <$> qs → h ≠ "" ∧ h ∉ param_keys.

Lemma proper_app a b : proper (a ++ b) → proper a ∧ proper b ∧ ∀ h, h ∈ tr_TxHash <$> a → h ∉ tr_TxHash <$> b.
Proof.
  unfold proper. rewrite fmap_app. intros [(Ha & Hd & Hb)%NoDup_app Hp].
  split_and!; try done; intros h Hh; apply Hp; apply elem_of_app; auto.
Qed.

(** The database holds the receipts [qs], oldest first, and nothing else. *)
Record holds db qs : Prop := {
  ho_proper : proper qs;
  ho_lseg : lseg db qs "";
  ho_dom k : is_Some (db !! k) → k ∈ param_keys ∨ k ∈ tr_TxHash <$> qs;
  ho_params : getDBParams db = Ok (Z.of_nat (length qs), first_hash qs "", default "" (tr_TxHash <$> last qs));
}.

Lemma empty_holds : holds ∅ [].
Proof.
  constructor; try done.
  - split; [constructor | by intros h ?%elem_of_nil].
  - intros k [? H]. by rewrite lookup_empty in H.
Qed.

Lemma holds_lookup db qs h r :
  holds db qs → h ∉ param_keys → LevelDb_GetReceipt db h = Ok r ↔ r ∈ qs ∧ tr_TxHash r = h.
Proof.
  intros [Hp Hl Hd _] Hh. unfold LevelDb_GetReceipt. split.
  - destruct (db !! h) as [v|] eqn:E; [|done]. intros Hr.
    destruct (Hd h) as [?|Hin]; [by rewrite E|done|]. apply list_elem_of_fmap in Hin as (q & -> & Hq).
    destruct (lseg_lookup db qs "" q Hl Hq) as (nxt & Hn). rewrite E in Hn. injection Hn as ->.
    rewrite list_item_roundtrip in Hr. by injection Hr as ->.
  - intros [Hin <-]. destruct (lseg_lookup db qs "" r Hl Hin) as (nxt & ->). by rewrite list_item_roundtrip.
Qed.

Lemma getDBParams_set tr size head tail :
  0 <= size < 2 ^ 64 → (size ≠ 0 → head ≠ "" ∧ tail ≠ "") →
  getDBParams (setDBParams size head tail tr) = Ok (if size =? 0 then (0, "", "") else (size, head, tail)).
Proof.
  intros Hs Hne. unfold getDBParams, db_Get. set (db := setDBParams _ _ _ _).
  assert (db !! currentDbSizeKey = Some (le_encode 8 size)) as -> by apply lookup_insert_eq.
  assert (db !! headKey = Some head) as ->
    by (unfold db, setDBParams; rewrite lookup_insert_ne, lookup_insert_ne, lookup_insert_eq; done).
  assert (db !! tailKey = Some tail) as -> by (unfold db, setDBParams; rewrite lookup_insert_ne, lookup_insert_eq; done).
  rewrite le_roundtrip8 by done. cbn [mbind Res_bind].
  destruct (Z.eqb_spec size 0) as [->|Hz]; [done|]. destruct (Hne Hz) as [->%no_bytes_false ->%no_bytes_false]. done.
Qed.

Lemma set_other tr size head tail k : k ∉ param_keys → setDBParams size head tail tr !! k = tr !! k.
Proof.
  unfold param_keys. intros Hk. unfold setDBParams. rewrite !lookup_insert_ne; [done|..]; intros Heq; apply Hk; rewrite <- Heq; set_solver.
Qed.

Lemma first_hash_last qs : qs ≠ [] → proper qs → first_hash qs "" ≠ "" ∧ default "" (tr_TxHash <$> last qs) ≠ "".
Proof.
  intros Hne [_ Hp]. destruct qs as [|r qs]; [done|]. split; [apply Hp; cbn; by left|].
  destruct (last (r :: qs)) as [l|] eqn:E; [|by apply last_None in E]. cbn. apply Hp.
  apply list_elem_of_fmap. exists l. split; [done|]. by apply last_Some_elem_of.
Qed.

(** Saving the parameters of a segment makes the database hold it. *)
Lemma set_params_holds tr qs :
  proper qs → lseg tr qs "" → Z.of_nat (length qs) < 2 ^ 64 →
  (∀ k, is_Some (tr !! k) → k ∈ param_keys ∨ k ∈ tr_TxHash <$> qs) →
  ∀ tail, (qs ≠ [] → tail = default "" (tr_TxHash <$> last qs)) →
  holds (setDBParams (Z.of_nat (length qs)) (first_hash qs "") tail tr) qs.
Proof.
  intros Hp Hl Hsz Hd tail Ht. constructor; [done | | |].
  - apply lseg_agree with tr; [|done]. intros k Hk. apply set_other. by apply Hp.
  - intros k Hk. destruct (decide (k ∈ param_keys)) as [|Hn]; [by left|]. apply Hd. by rewrite set_other in Hk.
  - destruct qs as [|r qs]; [by rewrite getDBParams_set by (cbn; lia)|]. rewrite Ht by done.
    rewrite getDBParams_set; [|lia|intros _; by apply first_hash_last]. destruct (Z.eqb_spec (Z.of_nat (length (r :: qs))) 0); [cbn in *; lia|done].
Qed.

(** ** Committing a block *)

(** The loop of [CommitBlock] has reached the queue [qs]: all but its last record is
    linked, the last one is in memory and, if it is old, in the database too. *)
Definition linked (c : CommitState) qs : Prop :=
  (∀ k, is_Some (cs_tran c !! k) → k ∈ param_keys ∨ k ∈ tr_TxHash <$> qs) ∧
  cs_headHash c = first_hash qs "" ∧ cs_tailHash c = default "" (tr_TxHash <$> last qs) ∧
  match last qs with
  | None => cs_size c = 0
  | Some t => ∃ init, qs = init ++ [t] ∧ lseg (cs_tran c) init (tr_TxHash t) ∧ cs_tailReceiptItem c = mkListItem (Some t) "" ∧
      cs_size c = Z.of_nat (length init) + if bool_decide (is_Some (cs_tran c !! tr_TxHash t)) then 1 else 0
  end.

Lemma put_tail_lseg c init t item next :
  proper (init ++ [t]) → linked c (init ++ [t]) → item = mkListItem (Some t) next →
  Z.of_nat (length (init ++ [t])) < 2 ^ 64 →
  lseg (cs_tran (put_tail item c)) (init ++ [t]) next ∧
  cs_size (put_tail item c) = Z.of_nat (length (init ++ [t])) ∧
  (∀ k, is_Some (cs_tran (put_tail item c) !! k) → k ∈ param_keys ∨ k ∈ tr_TxHash <$> (init ++ [t])) ∧
  cs_headHash (put_tail item c) = first_hash (init ++ [t]) "" ∧ cs_tailHash (put_tail item c) = tr_TxHash t.
Proof.
  intros Hp (Hd & Hh & Ht & Hl) -> Hsz. rewrite last_snoc in Ht, Hl. cbn in Ht.
  destruct Hl as (init' & [-> _]%app_inj_tail & Hseg & Hitem & Hs).
  apply proper_app in Hp as (_ & _ & Hdisj). rewrite length_app in *. cbn [length] in *.
  unfold put_tail. rewrite Ht. cbn [cs_tran cs_size cs_headHash cs_tailHash]. split_and!.
  - apply lseg_app. cbn. split; [|by rewrite lookup_insert_eq].
    apply lseg_agree with (cs_tran c); [|done]. intros k Hk. apply lookup_insert_ne.
    intros <-. apply (Hdisj _ Hk). cbn. by left.
  - rewrite Hs. case_bool_decide; [lia|]. unfold u64. rewrite Z.mod_small by lia. lia.
  - intros k. destruct (decide (k = tr_TxHash t)) as [->|Hne].
    + intros _. right. rewrite fmap_app. apply elem_of_app. right. cbn. by left.
    + rewrite lookup_insert_ne by done. apply Hd.
  - done.
  - done.
Qed.

Lemma link_receipt_linked c qs r :
  proper (qs ++ [r]) → Z.of_nat (length qs) < 2 ^ 64 → linked c qs → linked (link_receipt c r) (qs ++ [r]).
Proof.
  intros Hp Hsz Hc. pose proof (proper_app _ _ Hp) as (Hpq & _ & Hdisj).
  assert (tr_TxHash r ∉ tr_TxHash <$> qs) as Hfresh by (intros Hin; apply (Hdisj _ Hin); cbn; by left).
  assert (tr_TxHash r ∉ param_keys) as Hnp by (apply Hp; rewrite fmap_app; apply elem_of_app; right; cbn; by left).
  unfold linked. rewrite last_snoc. destruct qs as [|t init _] using rev_ind.
  - destruct Hc as (Hd & Hh & Ht & Hs). cbn in Hh, Ht, Hs. unfold link_receipt. rewrite Hh. cbn.
    split_and!; [|done..|].
    + intros k Hk. destruct (Hd k Hk) as [|?%elem_of_nil]; [by left | done].
    + exists []. split_and!; try done. rewrite bool_decide_eq_false_2; [done|]. intros Hin. destruct (Hd _ Hin) as [?|?%elem_of_nil]; done.
  - destruct (put_tail_lseg c init t (mkListItem (Some t) (tr_TxHash r)) (tr_TxHash r)) as (P1 & P2 & P3 & P4 & P5); [done..|].
    assert (no_bytes (cs_headHash c) = false) as Hnb.
    { destruct Hc as (_ & -> & _). apply no_bytes_false, first_hash_last; [by destruct init | done]. }
    assert (cs_tailReceiptItem c = mkListItem (Some t) "") as Hti.
    { destruct Hc as (_ & _ & _ & Hl). rewrite last_snoc in Hl. destruct Hl as (i & [-> _]%app_inj_tail & _ & -> & _). done. }
    unfold link_receipt. rewrite Hnb, Hti. cbn [li_Receipt]. cbn -[put_tail]. split_and!.
    + intros k Hk. destruct (P3 k Hk) as [|]; [by left|]. right. rewrite fmap_app. apply elem_of_app. by left.
    + rewrite P4. by destruct init.
    + done.
    + exists (init ++ [t]). split_and!; try done. rewrite P2, bool_decide_eq_false_2; [lia|].
      intros Hin. destruct (P3 _ Hin); done.
Qed.

Lemma link_all c qs rs :
  proper (qs ++ rs) → Z.of_nat (length (qs ++ rs)) < 2 ^ 64 → linked c qs → linked (foldl link_receipt c rs) (qs ++ rs).
Proof.
  revert c qs. induction rs as [|r rs IH]; intros c qs Hp Hsz Hc; [by rewrite app_nil_r|]. cbn.
  rewrite cons_middle, app_assoc in *. apply IH; [done | done|].
  apply link_receipt_linked; [by apply proper_app in Hp as (? & _) | | done]. rewrite !length_app in Hsz. lia.
Qed.

(** Deleting from the front of a segment. *)
Lemma remove_segment tr a b deleted :
  proper (a ++ b) → lseg tr (a ++ b) "" → 0 <= deleted → deleted + Z.of_nat (length a) < 2 ^ 64 →
  ∃ tr', removeEntries (length a) tr (first_hash (a ++ b) "") deleted = Ok (tr', first_hash b "", deleted + Z.of_nat (length a)) ∧
    (∀ k, tr' !! k = if decide (k ∈ tr_TxHash <$> a) then None else tr !! k).
Proof.
  revert tr deleted. induction a as [|r a IH]; intros tr deleted Hp Hl Hd Hb.
  - cbn. exists tr. rewrite Z.add_0_r. split; [done|]. done.
  - cbn [app] in *. cbn [length removeEntries first_hash]. destruct Hl as [H1 H2].
    assert (tr_TxHash r ≠ "") as Hne by (apply Hp; cbn; by left). rewrite (proj2 (no_bytes_false _) Hne), H1.
    rewrite list_item_roundtrip. cbn [li_NextTxHash].
    pose proof Hp as [[Hnin Hnd]%NoDup_cons Hpp].
    destruct (IH (delete (tr_TxHash r) tr) (u64 (deleted + 1))) as (tr' & Hr & Hk).
    + split; [done|]. intros h Hh. apply Hpp. cbn. by right.
    + apply lseg_agree with tr; [|done]. intros k Hk. apply lookup_delete_ne. by intros <-.
    + apply u64_range.
    + unfold u64. rewrite Z.mod_small by (cbn in Hb; lia). cbn in Hb. lia.
    + assert (u64 (deleted + 1) = deleted + 1) as Hu by (unfold u64; rewrite Z.mod_small; [done | cbn in Hb; lia]). rewrite Hu in *. exists tr'. split; [rewrite Hr; do 2 f_equal; cbn; lia|].
      intros k. rewrite Hk, lookup_delete. cbn. repeat case_decide; set_solver.
Qed.

Definition keep_last (n : nat) qs : list EvmTxReceipt := drop (length qs - n) qs.

Lemma holds_linked db qs t :
  holds db (qs ++ [t]) → linked (mkCommitState db (Z.of_nat (length (qs ++ [t]))) (first_hash (qs ++ [t]) "") (tr_TxHash t) (mkListItem (Some t) "")) (qs ++ [t]).
Proof.
  intros [Hp Hl Hd _]. unfold linked. rewrite last_snoc. cbn [cs_tran cs_headHash cs_tailHash cs_size cs_tailReceiptItem].
  apply lseg_app in Hl as [Hl1 [Hl2 _]]. split_and!; try done. exists qs. split_and!; try done.
  rewrite bool_decide_eq_true_2 by (by rewrite Hl2). rewrite length_app. cbn. lia.
Qed.

Lemma keep_last_all n qs : (length qs <= n)%nat → keep_last n qs = qs.
Proof. intros H. unfold keep_last. by replace (length qs - n)%nat with 0%nat by lia. Qed.

Lemma holds_start db qs :
  holds db qs → ∃ item,
    load_tail (first_hash qs "") (default "" (tr_TxHash <$> last qs)) db = Ok item ∧
    linked (mkCommitState db (Z.of_nat (length qs)) (first_hash qs "") (default "" (tr_TxHash <$> last qs)) item) qs.
Proof.
  intros Hh. pose proof Hh as [Hp Hl Hd _]. destruct qs as [|t init _] using rev_ind.
  - eexists. split; [done|]. by split_and!.
  - exists (mkListItem (Some t) ""). rewrite last_snoc. cbn [option_fmap option_map fmap default]. split; [|by apply holds_linked].
    unfold load_tail. rewrite (proj2 (no_bytes_false _)) by (by apply first_hash_last; [destruct init|]).
    apply lseg_app in Hl as [_ [Hl _]]. cbn in Hl |- *. by rewrite Hl, list_item_roundtrip.
Qed.

(** The end of the loop, before old records are removed: everything is linked. *)
Lemma finish_linked c qs :
  proper qs → Z.of_nat (length qs) < 2 ^ 64 → linked c qs →
  let c' := if no_bytes (cs_tailHash c) then c else put_tail (cs_tailReceiptItem c) c in
  lseg (cs_tran c') qs "" ∧ cs_size c' = Z.of_nat (length qs) ∧
  (∀ k, is_Some (cs_tran c' !! k) → k ∈ param_keys ∨ k ∈ tr_TxHash <$> qs) ∧
  cs_headHash c' = first_hash qs "" ∧ cs_tailHash c' = default "" (tr_TxHash <$> last qs).
Proof.
  intros Hp Hsz Hc. destruct qs as [|t init _] using rev_ind.
  - destruct Hc as (Hd & Hh & Ht & Hs). cbn in Hh, Ht, Hs. rewrite Ht. cbn. by split_and!.
  - pose proof Hc as (_ & _ & Ht & Hl). rewrite last_snoc in Ht, Hl. cbn in Ht. destruct Hl as (i & _ & _ & Hi & _).
    assert (tr_TxHash t ≠ "") as Hne by (apply Hp; rewrite fmap_app; apply elem_of_app; right; cbn; by left).
    rewrite Ht, (proj2 (no_bytes_false _) Hne). rewrite last_snoc. by apply (put_tail_lseg c init t _ "").
Qed.

Lemma remove_old_segment tr qs n tail :
  proper qs → Z.of_nat (length qs) < 2 ^ 64 → lseg tr qs "" → (n < length qs)%nat →
  (∀ k, is_Some (tr !! k) → k ∈ param_keys ∨ k ∈ tr_TxHash <$> qs) → tail = default "" (tr_TxHash <$> last qs) →
  ∃ tr' head, removeOldEntries tr (first_hash qs "") (Z.of_nat (length qs - n)) = Ok (tr', head, Z.of_nat (length qs - n)) ∧
    holds (setDBParams (Z.of_nat n) head tail tr') (keep_last n qs).
Proof.
  intros Hp Hsz Hl Hn Hd ->. set (a := take (length qs - n) qs). set (b := keep_last n qs).
  assert (qs = a ++ b) as Hab by (symmetry; apply take_drop).
  assert (length a = (length qs - n)%nat) as Hla by (unfold a; rewrite length_take; lia).
  assert (length b = n) as Hlb by (unfold b, keep_last; rewrite length_drop; lia).
  rewrite Hab in Hp, Hl. destruct (remove_segment tr a b 0 Hp Hl) as (tr' & Hr & Hk); [lia | lia |].
  exists tr', (first_hash b ""). split.
  - unfold removeOldEntries. rewrite Nat2Z.id. rewrite <- Hla. rewrite Hab at 1. rewrite Hr. cbn [mbind Res_bind]. by rewrite Z.add_0_l, Z.ltb_irrefl.
  - pose proof (proper_app _ _ Hp) as (_ & Hpb & Hdisj). rewrite <- Hlb. apply set_params_holds; try done; [|lia| |].
    + apply lseg_app in Hl as [_ Hl]. apply lseg_agree with tr; [|done]. intros k Hin. rewrite Hk.
      destruct (decide (k ∈ tr_TxHash <$> a)) as [Ha|]; [|done]. by destruct (Hdisj k Ha).
    + intros k. rewrite Hk. case_decide as Ha; [by intros [? [=]]|]. intros Hs. destruct (Hd k Hs) as [|Hin]; [by left|].
      rewrite Hab, fmap_app in Hin. apply elem_of_app in Hin as [|]; [done | by right].
    + intros Hb. rewrite Hab. destruct b as [|y b'] eqn:Eb using rev_ind; [done|]. by rewrite app_assoc, !last_snoc.
Qed.

Lemma link_block_refines MaxDbSize db qs rs :
  holds db qs → proper (qs ++ rs) → Z.of_nat (length (qs ++ rs)) < 2 ^ 64 → 0 <= MaxDbSize < 2 ^ 64 →
  ∃ db', link_block MaxDbSize rs db = Ok (Some db') ∧ holds db' (keep_last (Z.to_nat MaxDbSize) (qs ++ rs)).
Proof.
  intros Hh Hp Hsz Hm. unfold link_block. rewrite (ho_params _ _ Hh). cbn [mbind Res_bind].
  destruct (holds_start db qs Hh) as (item & -> & Hc). cbn [mbind Res_bind].
  apply (link_all _ _ rs) in Hc; [|done|done]. set (c := foldl link_receipt _ rs) in *.
  destruct (finish_linked c (qs ++ rs) Hp Hsz Hc) as (Hl & Hs & Hd & Hhd & Htl).
  set (c' := if no_bytes (cs_tailHash c) then c else put_tail (cs_tailReceiptItem c) c) in *.
  rewrite Hs, Hhd, Htl. destruct (Z.ltb_spec MaxDbSize (Z.of_nat (length (qs ++ rs)))) as [Hlt|Hge].
  - set (n := Z.to_nat MaxDbSize). assert (u64 (Z.of_nat (length (qs ++ rs)) - MaxDbSize) = Z.of_nat (length (qs ++ rs) - n)) as ->
      by (unfold u64, n; rewrite Z.mod_small; lia).
    destruct (remove_old_segment (cs_tran c') (qs ++ rs) n _ Hp Hsz Hl ltac:(unfold n; lia) Hd eq_refl) as (tr' & head & -> & Hold).
    cbn [mbind Res_bind]. destruct (Z.ltb_spec (Z.of_nat (length (qs ++ rs))) (Z.of_nat (length (qs ++ rs) - n))); [lia|].
    eexists. split; [done|]. replace (u64 _) with (Z.of_nat n) by (unfold u64, n in *; rewrite Z.mod_small; lia). done.
  - eexists. split; [done|]. rewrite keep_last_all by lia. by apply set_params_holds.
Qed.
End Queue.

(** ** Blocks of receipts *)

Section Blocks.
Context {LIB : DiademLib} {RL : ReceiptLib} {RLS : ReceiptLibSpec} {LS : DiademLibSpec}.
Context {T E : Type} {KV : KVStore T} {KVS : KVStoreSpec T}.
Implicit Types (s : T) (rs qs : list EvmTxReceipt).
Abbreviation W := (TxWorld T (REnv E)).

(** Every list of hashes in the store can be read. *)
Definition hash_lists_ok s : Prop := ∀ h, ∃ l, GetTxHashList s h = Ok l.

(** Events that name the contract that raised them. *)
Definition addressed rs : Prop := Forall (λ e, is_Some (ev_Address e)) (mjoin (tr_Logs <$> rs)).

Lemma all_keys_ok msgs : Forall (λ e, is_Some (ev_Address e)) msgs → ∃ ks, all_keys msgs = Ok ks ∧
  ∀ e, e ∈ msgs → ∃ a, ev_Address e = Some a ∧ Local a ∈ ks ∧ ∀ t, t ∈ ev_Topics e → t ∈ ks.
Proof.
  induction 1 as [|e msgs [a Ha] _ (ks & Hks & Hin)]; [exists []; split; [done|by intros e ?%elem_of_nil]|].
  cbn. unfold event_keys. rewrite Ha, Hks. cbn. eexists. split; [done|].
  intros e' [->|He]%elem_of_cons.
  - exists a. split; [done|]. split; [set_solver|]. intros t Ht. set_solver.
  - destruct (Hin e' He) as (a' & Ha' & Hl & Ht). exists a'. split_and!; [done|set_solver|]. intros t Htt. apply elem_of_app. right. by apply Ht.
Qed.

Lemma filter_ok msgs : Forall (λ e, is_Some (ev_Address e)) msgs → ∃ f, GenBdiademFilter msgs = Ok f.
Proof. intros H. destruct (all_keys_ok msgs H) as (ks & Hks & _). destruct msgs; [by eexists|]. unfold GenBdiademFilter. rewrite Hks. by eexists. Qed.

Lemma height_key_inj h h' : 0 <= h < 2 ^ 64 → 0 <= h' < 2 ^ 64 → BlockHeightToBytes h = BlockHeightToBytes h' → h = h'.
Proof.
  unfold BlockHeightToBytes. intros Hh Hh' Heq. assert (le_decode 8 (le_encode 8 h) = Ok h') as H by (rewrite Heq; by apply le_roundtrip8).
  rewrite le_roundtrip8 in H by done. by injection H.
Qed.

(** What writing under one of the prefixes does to reading under another. *)
Lemma prefix_get_set s p q k v x :
  kv_ok s → p ∈ [ReceiptPrefix; BdiademPrefix; TxHashPrefix] → q ∈ [ReceiptPrefix; BdiademPrefix; TxHashPrefix] →
  prefixReader_Get (PrefixKVStore q (ps_store (prefixWriter_Set k v (PrefixKVStore p s)))) x =
    if decide (p = q ∧ x = k) then Some v else prefixReader_Get (PrefixKVStore q s) x.
Proof.
  intros Hs Hp Hq. unfold prefixReader_Get, prefixWriter_Set, PrefixKVStore, prefixed. cbn. rewrite kv_Get_Set by done.
  destruct (decide (p = q)) as [->|Hne].
  - destruct (decide (x = k)) as [->|Hx].
    + by rewrite !decide_True by done.
    + rewrite !decide_False; [done | by intros [] | by intros ?%prefix_key_inj1].
  - rewrite !decide_False; [done | by intros [] | ]. apply receipt_prefixes_apart; [exact Hq | exact Hp | congruence].
Qed.

(** The store after the hashes and the filter of a block were written. *)
Lemma append_hashes_run s l hs h :
  kv_ok s → GetTxHashList s h = Ok l → hash_lists_ok s →
  ∃ s', AppendTxHashList hs h s = (Ok (), s') ∧ kv_ok s' ∧ hash_lists_ok s' ∧
    (∀ h', BlockHeightToBytes h' = BlockHeightToBytes h → GetTxHashList s' h' = Ok (l ++ hs)) ∧
    (∀ h', BlockHeightToBytes h' ≠ BlockHeightToBytes h → GetTxHashList s' h' = GetTxHashList s h') ∧
    (∀ x, Chain_GetReceipt s' x = Chain_GetReceipt s x) ∧ (∀ h', GetBdiademFilter s' h' = GetBdiademFilter s h').
Proof.
  intros Hs Hl Hok. unfold AppendTxHashList. m_eval. unfold id. rewrite Hl. eexists. split; [done|].
  assert (∀ h', GetTxHashList (ps_store (prefixWriter_Set (BlockHeightToBytes h) (marshal_HashList (l ++ hs)) (PrefixKVStore TxHashPrefix s))) h' =
    if decide (BlockHeightToBytes h' = BlockHeightToBytes h) then Ok (l ++ hs) else GetTxHashList s h') as Hget.
  { intros h'. unfold GetTxHashList. rewrite prefix_get_set by (done || set_solver). destruct (decide (BlockHeightToBytes h' = BlockHeightToBytes h)).
    - rewrite decide_True by done. cbn. by rewrite hash_list_roundtrip.
    - rewrite decide_False by (by intros []). done. }
  split_and!.
  - by apply kv_Set_ok.
  - intros h'. rewrite Hget. destruct (decide _); [by eexists | apply Hok].
  - intros h' Heq. rewrite Hget. by rewrite decide_True.
  - intros h' Heq. rewrite Hget. by rewrite decide_False.
  - intros x. unfold Chain_GetReceipt. rewrite prefix_get_set by (done || set_solver). rewrite decide_False; [done|]. by intros [].
  - intros h'. unfold GetBdiademFilter. rewrite prefix_get_set by (done || set_solver). rewrite decide_False; [done|]. by intros [].
Qed.

Lemma set_filter_run s f h :
  kv_ok s → ∃ s', SetBdiademFilter f h s = (Ok (), s') ∧ kv_ok s' ∧
    (∀ h', GetBdiademFilter s' h' = if decide (BlockHeightToBytes h' = BlockHeightToBytes h) then Some f else GetBdiademFilter s h') ∧
    (∀ x, Chain_GetReceipt s' x = Chain_GetReceipt s x) ∧ (∀ h', GetTxHashList s' h' = GetTxHashList s h').
Proof.
  intros Hs. eexists. split; [done|]. split_and!.
  - by apply kv_Set_ok.
  - intros h'. unfold GetBdiademFilter. rewrite prefix_get_set by (done || set_solver).
    destruct (decide (BlockHeightToBytes h' = BlockHeightToBytes h)); [by rewrite decide_True | rewrite decide_False; [done | by intros []]].
  - intros x. unfold Chain_GetReceipt. rewrite prefix_get_set by (done || set_solver). rewrite decide_False; [done|]. by intros [].
  - intros h'. unfold GetTxHashList. rewrite prefix_get_set by (done || set_solver). rewrite decide_False; [done|]. by intros [].
Qed.

(** Receipts that have a hash are all stored. *)
Lemma stored_all rs : (∀ r, r ∈ rs → tr_TxHash r ≠ "") → omap stored (Some <$> rs) = rs.
Proof.
  induction rs as [|r rs IH]; intros H; [done|]. cbn. rewrite (proj2 (no_bytes_false _)) by (apply H; set_solver).
  f_equal. apply IH. intros r' Hr. apply H. set_solver.
Qed.

Lemma proper_hashes rs : proper rs → ∀ r, r ∈ rs → tr_TxHash r ≠ "".
Proof. intros [_ H] r Hr. apply H. by apply list_elem_of_fmap_2. Qed.

(** Committing a block to the database, from start to end. *)
Lemma leveldb_commit_run receipts height (w : W) qs :
  holds (rn_db (tw_env w)) qs → proper (qs ++ receipts) → Z.of_nat (length (qs ++ receipts)) < 2 ^ 64 →
  0 <= rn_MaxDbSize (tw_env w) < 2 ^ 64 → kv_ok (tw_store w) → hash_lists_ok (tw_store w) → addressed receipts →
  ∃ w', LevelDb_CommitBlock receipts height w = (Ok (), w') ∧
    holds (rn_db (tw_env w')) (if decide (receipts = []) then qs else keep_last (Z.to_nat (rn_MaxDbSize (tw_env w))) (qs ++ receipts)) ∧
    rn_v (tw_env w') = rn_v (tw_env w) ∧ rn_MaxDbSize (tw_env w') = rn_MaxDbSize (tw_env w) ∧
    rn_currentReceipt (tw_env w') = rn_currentReceipt (tw_env w) ∧
    kv_ok (tw_store w') ∧ hash_lists_ok (tw_store w') ∧
    (receipts ≠ [] → ∀ l, GetTxHashList (tw_store w) height = Ok l →
       GetTxHashList (tw_store w') height = Ok (l ++ (tr_TxHash <$> List.filter (λ t, tr_Status t =? StatusTxSuccess) receipts)) ∧
       ∃ f, GenBdiademFilter (mjoin (tr_Logs <$> receipts)) = Ok f ∧ GetBdiademFilter (tw_store w') height = Some f).
Proof.
  intros Hh Hp Hsz Hm Hs Hok Ha. unfold LevelDb_CommitBlock. destruct receipts as [|r0 rs0]; [cbn; by exists w|].
  set (rs := r0 :: rs0) in *. change (length rs =? 0)%nat with false. cbn [negb]. rewrite decide_False by done.
  rewrite (stored_all rs) by (apply proper_hashes; by apply proper_app in Hp as (_ & ? & _)).
  destruct (link_block_refines _ _ _ _ Hh Hp Hsz Hm) as (db' & Hlb & Hh').
  m_eval. unfold id. rewrite Hlb.
  destruct (Hok height) as (l & Hl).
  destruct (append_hashes_run _ l (tr_TxHash <$> List.filter (λ t, tr_Status t =? StatusTxSuccess) rs) height Hs Hl Hok)
    as (s1 & H1 & Hs1 & Hok1 & Hl1 & _).
  destruct (filter_ok (mjoin (tr_Logs <$> rs)) Ha) as (f & Hf).
  destruct (set_filter_run s1 f height Hs1) as (s2 & H2 & Hs2 & Hflt & _ & Hlists).
  unfold on_tx, zoom, wrap. cbn [tw_store tw_env tw_nonce]. rewrite H1. cbn [tw_store tw_env tw_nonce].
  m_eval. rewrite Hf. cbn [tw_store tw_env tw_nonce]. rewrite H2.
  eexists. split; [done|]. cbn -[rs]. split_and!; try done.
  - intros h. rewrite Hlists. apply Hok1.
  - intros _ l' Hl'. assert (l' = l) as -> by congruence. split; [rewrite Hlists; by apply Hl1|]. exists f. split; [done|].
    by rewrite Hflt, decide_True.
Qed.

(** Storing the receipts of a block one by one. *)
Lemma put_receipts_run rs s :
  kv_ok s → NoDup (tr_TxHash <$> rs) →
  ∃ s', forM rs (λ r : EvmTxReceipt, modify (λ s : T, ps_store (prefixWriter_Set (tr_TxHash r) (marshal_Receipt r) (PrefixKVStore ReceiptPrefix s)))) s = (Ok (), s') ∧
    kv_ok s' ∧ (∀ h, GetTxHashList s' h = GetTxHashList s h) ∧
    (∀ x, Chain_GetReceipt s' x = match list_find (λ r, tr_TxHash r = x) rs with Some (_, r) => Ok r | None => Chain_GetReceipt s x end).
Proof.
  revert s. induction rs as [|r rs IH]; intros s Hs Hnd; [by exists s|]. cbn in Hnd. apply NoDup_cons in Hnd as [Hn Hnd].
  set (s1 := ps_store (prefixWriter_Set (tr_TxHash r) (marshal_Receipt r) (PrefixKVStore ReceiptPrefix s))).
  assert (kv_ok s1) as Hs1 by (by apply kv_Set_ok).
  destruct (IH s1 Hs1 Hnd) as (s' & Hr & Hk & H1 & H2). exists s'. split_and!; [exact Hr | done | |].
  - intros h. rewrite H1. unfold GetTxHashList, s1. rewrite prefix_get_set by (done || set_solver). rewrite decide_False; [done | by intros []].
  - intros x. rewrite H2. cbn [list_find]. destruct (list_find (λ r, tr_TxHash r = x) rs) as [[i q]|] eqn:Ef.
    + apply list_find_Some in Ef as (Hi & Hq & _). rewrite decide_False; [done|]. intros Hx. apply Hn. rewrite Hx, <- Hq.
      apply list_elem_of_fmap_2. by eapply list_elem_of_lookup_2.
    + unfold Chain_GetReceipt, s1. rewrite prefix_get_set by (done || set_solver). destruct (decide (tr_TxHash r = x)) as [<-|Hne].
      * rewrite decide_True by done. by rewrite receipt_roundtrip.
      * rewrite decide_False by (by intros [_ ?]). done.
Qed.

(** Committing a block to the store. *)
Lemma chain_commit_run receipts height s l :
  receipts ≠ [] → NoDup (tr_TxHash <$> receipts) → (∀ r, r ∈ receipts → tr_TxHash r ≠ "") →
  kv_ok s → hash_lists_ok s → addressed receipts → GetTxHashList s height = Ok l →
  ∃ s' f, Chain_CommitBlock (Some <$> receipts) height s = (Ok (), s') ∧ kv_ok s' ∧
    GetTxHashList s' height = Ok (l ++ (tr_TxHash <$> receipts)) ∧
    GenBdiademFilter (mjoin (tr_Logs <$> receipts)) = Ok f ∧ GetBdiademFilter s' height = Some f ∧
    (∀ r, r ∈ receipts → Chain_GetReceipt s' (tr_TxHash r) = Ok r).
Proof.
  intros Hne Hnd Hh Hs Hok Ha Hl. unfold Chain_CommitBlock. rewrite length_fmap.
  destruct (Nat.eqb_spec (length receipts) 0) as [|_]; [by destruct receipts|]. rewrite (stored_all _ Hh).
  destruct (put_receipts_run receipts s Hs Hnd) as (s1 & Hrun & Hs1 & Hl1 & Hg1).
  destruct (append_hashes_run s1 l (tr_TxHash <$> receipts) height) as (s2 & H2 & Hs2 & _ & Hl2 & _ & Hg2 & _);
    [done | by rewrite Hl1 | intros h; rewrite Hl1; apply Hok |].
  destruct (filter_ok _ Ha) as (f & Hf). destruct (set_filter_run s2 f height Hs2) as (s3 & H3 & Hs3 & Hf3 & Hg3 & Hl3).
  exists s3, f. split_and!; try done.
  - erewrite bind_ok by exact Hrun. erewrite bind_ok by (unfold wrap; by rewrite H2). m_eval. by rewrite Hf.
  - rewrite Hl3. by apply Hl2.
  - by rewrite Hf3, decide_True.
  - intros r Hr. rewrite Hg3, Hg2, Hg1. destruct (list_find (λ q, tr_TxHash q = tr_TxHash r) receipts) as [[i q]|] eqn:Ef.
    + apply list_find_Some in Ef as (Hi & Hq & _). f_equal. apply (NoDup_fmap_inj_in tr_TxHash receipts); try done. by eapply list_elem_of_lookup_2.
    + apply list_find_None in Ef. rewrite Forall_forall in Ef. by destruct (Ef r Hr).
Qed.
End Blocks.

(** ** Histories of a handler *)

Section Histories.
Context {LIB : DiademLib} {RL : ReceiptLib} {RLS : ReceiptLibSpec} {LS : DiademLibSpec}.
Context {T E : Type} {KV : KVStore T} {KVS : KVStoreSpec T}.
Context (eventHandler : option (Z → EventData → M E unit)).
Implicit Types (s : T) (rs qs : list EvmTxReceipt).
Abbreviation W := (TxWorld T (REnv E)).

(** What the application does with a handler: [pending] are the receipts that were
    committed in the current block, [done] those of former blocks. *)
Inductive history (w0 : W) : list EvmTxReceipt → list EvmTxReceipt → W → Prop :=
  | history_start : history w0 [] [] w0
  | history_write p d w w' f :
      history w0 p d w → w' = mkTxWorld (f (tw_store w)) (tw_nonce w) (tw_env w) →
      (kv_ok (tw_store w) → hash_lists_ok (tw_store w) → kv_ok (f (tw_store w)) ∧ hash_lists_ok (f (tw_store w))) →
      history w0 p d w'
  | history_cache p d w w' block caller addr events failed h :
      history w0 p d w → CacheReceipt eventHandler block caller addr events failed w = (Ok h, w') → history w0 p d w'
  | history_fail p d w w' : history w0 p d w → on_renv SetFailStatusCurrentReceipt w = (Ok (), w') → history w0 p d w'
  | history_discard p d w w' : history w0 p d w → on_renv DiscardCurrentReceipt w = (Ok (), w') → history w0 p d w'
  | history_commit p d w w' :
      history w0 p d w → on_renv CommitCurrentReceipt w = (Ok (), w') →
      history w0 (p ++ option_list (rn_currentReceipt (tw_env w))) d w'
  | history_block p d w w' height :
      history w0 p d w → CommitBlock height w = (Ok (), w') → history w0 [] (d ++ p) w'.

Lemma keep_last_twice n a b : keep_last n (keep_last n a ++ b) = keep_last n (a ++ b).
Proof.
  unfold keep_last. rewrite length_app, length_drop, !length_app.
  destruct (decide (length a <= n)%nat).
  - replace (length a - n)%nat with O by lia. cbn. f_equal. lia.
  - rewrite <- (drop_app_le a b (length a - n)), drop_drop by lia. f_equal. lia.
Qed.

(** What a handler with a database keeps in all histories. *)
Record handler_ok (max : Z) p d (w : W) : Prop := {
  hk_v : rn_v (tw_env w) = ReceiptHandlerLevelDb;
  hk_max : rn_MaxDbSize (tw_env w) = max;
  hk_cache : rn_receiptsCache (tw_env w) = p;
  hk_hashes : rn_txHashList (tw_env w) = tr_TxHash <$> p;
  hk_addressed : addressed (p ++ option_list (rn_currentReceipt (tw_env w)));
  hk_store : kv_ok (tw_store w) ∧ hash_lists_ok (tw_store w);
  hk_db : holds (rn_db (tw_env w)) (keep_last (Z.to_nat max) d);
}.

Lemma addressed_app a b : addressed (a ++ b) ↔ addressed a ∧ addressed b.
Proof. unfold addressed. by rewrite fmap_app, join_app, Forall_app. Qed.

Lemma posted_addressed h height events :
  Forall (λ e, is_Some (ev_Address e)) events →
  Forall (λ e, is_Some (ev_Address e)) (posted eventHandler height <$> (ev_with_TxHash h <$> events)).
Proof.
  intros H. rewrite <- list_fmap_compose. apply Forall_fmap. eapply Forall_impl; [done|]. intros e He. unfold compose, posted.
  destruct eventHandler; [|done]. by destruct (_ =? 0).
Qed.

Lemma gen_filter_addressed events f : GenBdiademFilter events = Ok f → Forall (λ e, is_Some (ev_Address e)) events.
Proof.
  assert (∀ ks, all_keys events = Ok ks → Forall (λ e, is_Some (ev_Address e)) events) as H.
  { induction events as [|e events IH]; intros ks; [constructor|]. cbn. unfold event_keys.
    destruct (ev_Address e) eqn:Ea; [|done]. cbn. destruct (all_keys events); [|done|done]. intros _. constructor; [by eexists | by eapply IH]. }
  destruct events; [constructor|]. unfold GenBdiademFilter. destruct (all_keys _) as [ks|?|]; [|done|done]. intros _. by eapply H.
Qed.

(** A receipt that is written names the contracts of its events. *)
Lemma written_addressed block caller addr events status i nonce (e : E) r e' :
  WriteReceipt eventHandler block caller addr events status i nonce e = (Ok r, e') → addressed [r].
Proof.
  unfold WriteReceipt. intros H. apply bind_inv in H as (f & e1 & Hf & H). injection Hf as Hf <-.
  apply bind_inv in H as ([] & e2 & _ & H). apply ret_inv in H as [-> _].
  unfold addressed. cbn. rewrite app_nil_r. apply Forall_fmap. apply gen_filter_addressed in Hf.
  eapply Forall_impl; [by apply posted_addressed|]. done.
Qed.

Lemma cache_receipt_ok max p d w w' block caller addr events failed h :
  handler_ok max p d w → CacheReceipt eventHandler block caller addr events failed w = (Ok h, w') → handler_ok max p d w'.
Proof.
  intros [Hv Hm Hc Hh Ha Hs Hd] H. unfold CacheReceipt in H.
  apply bind_inv in H as (w1 & w2 & Hg & H). injection Hg as <- <-.
  apply bind_inv in H as (r & w2 & Hr & H). unfold id in Hr. rewrite Hv in Hr. cbn -[WriteReceipt] in Hr.
  apply bind_inv in Hr as (n & w1 & Hn & Hr). injection Hn as _ <-. unfold on_events, on_renv, zoom in Hr. cbn -[WriteReceipt] in Hr.
  match type of Hr with context [WriteReceipt ?a ?b ?c ?d ?e ?f ?g ?h ?i] => destruct (WriteReceipt a b c d e f g h i) as [[r1|?|] e'] eqn:Hw end; try done.
  injection Hr as -> <-. apply written_addressed in Hw.
  apply bind_inv in H as ([] & w3 & Hset & H). apply ret_inv in H as [_ ->]. injection Hset as <-.
  constructor; cbn; try done. cbn in Ha. apply addressed_app in Ha as [Ha _]. by apply addressed_app.
Qed.

Lemma keep_last_sub n qs r : r ∈ keep_last n qs → r ∈ qs.
Proof. intros H. unfold keep_last in H. rewrite <- (take_drop (length qs - n) qs). apply elem_of_app. by right. Qed.

Lemma proper_keep n d p : proper (d ++ p) → proper (keep_last n d ++ p).
Proof.
  unfold keep_last. intros H. rewrite <- (take_drop (length d - n) d), <- app_assoc in H.
  by apply proper_app in H as (_ & H & _).
Qed.

Lemma commit_block_ok max p d w height :
  handler_ok max p d w → proper (d ++ p) → Z.of_nat (length (d ++ p)) < 2 ^ 64 → 0 <= max < 2 ^ 64 →
  ∃ w', CommitBlock height w = (Ok (), w') ∧ handler_ok max [] (d ++ p) w'.
Proof.
  intros [Hv Hm Hc Hh Ha [Hs Hok] Hd] Hp Hsz Hmax. unfold CommitBlock. rewrite Hv. cbn -[LevelDb_CommitBlock]. rewrite Hc.
  apply addressed_app in Ha as [Ha Hcur].
  destruct (leveldb_commit_run p (u64 height) w _ Hd) as (w' & Hrun & Hd' & Hv' & Hm' & Hcr & Hs' & Hok' & _).
  - by apply proper_keep.
  - rewrite length_app in *. unfold keep_last. rewrite length_drop. lia.
  - by rewrite Hm.
  - done.
  - done.
  - done.
  - rewrite Hrun. eexists. split; [done|]. cbn. constructor; cbn; try congruence.
    + done.
    + rewrite Hm in Hd'. destruct (decide (p = [])) as [->|]; [by rewrite app_nil_r|]. by rewrite keep_last_twice in Hd'.
Qed.
Lemma history_ok max w0 p d w :
  handler_ok max [] [] w0 → 0 <= max < 2 ^ 64 → history w0 p d w →
  proper (d ++ p) → Z.of_nat (length (d ++ p)) < 2 ^ 64 → handler_ok max p d w.
Proof.
  intros H0 Hmax Hh. induction Hh as [|p d w w' f Hh IH -> Hf|p d w w' b c a ev fl h Hh IH Hr|p d w w' Hh IH Hr|p d w w' Hh IH Hr|p d w w' Hh IH Hr|p d w w' ht Hh IH Hr]; intros Hp Hsz.
  - done.
  - destruct (IH Hp Hsz) as [Hv Hm Hc Hhs Ha [Hs Hok] Hd]. destruct (Hf Hs Hok). by constructor.
  - by eapply cache_receipt_ok; [apply IH|].
  - destruct (IH Hp Hsz) as [Hv Hm Hc Hhs Ha Hs Hd]. injection Hr as <-. constructor; try done. cbn.
    destruct (rn_currentReceipt (tw_env w)); [|done]. cbn in *. by apply addressed_app in Ha as [? ?]; apply addressed_app.
  - destruct (IH Hp Hsz) as [Hv Hm Hc Hhs Ha Hs Hd]. injection Hr as <-. constructor; try done. cbn.
    apply addressed_app in Ha as [Ha _]. by rewrite app_nil_r.
  - assert (Hp' : proper (d ++ p)) by (rewrite app_assoc in Hp; by apply proper_app in Hp as (? & _)).
    destruct IH as [Hv Hm Hc Hhs Ha Hs Hd]; [done | rewrite !length_app in *; lia |].
    injection Hr as <-. destruct (rn_currentReceipt (tw_env w)) as [r|] eqn:Ecur; cbn in *; constructor; cbn; try rewrite Ecur; cbn; rewrite ?app_nil_r; try congruence; try done.
    + by rewrite Hhs, fmap_app.
    + by rewrite app_nil_r in Ha.
  - rewrite app_nil_r in Hp, Hsz. destruct (commit_block_ok max p d w ht (IH Hp Hsz) Hp Hsz Hmax) as (w1 & Hr' & Hok). congruence.
Qed.

Lemma find_pending_all rs r :
  NoDup (tr_TxHash <$> rs) → r ∈ rs → find_pending (tr_TxHash r) rs = Some r.
Proof.
  induction rs as [|q rs IH]; [by intros _ ?%elem_of_nil|]. intros [Hn Hnd]%NoDup_cons Hin. cbn.
  destruct (bytes_compare (tr_TxHash q) (tr_TxHash r) =? 0) eqn:Hc.
  - apply cmp_eqb in Hc; [|apply _]. apply elem_of_cons in Hin as [->|Hin]; [done|]. exfalso. apply Hn. rewrite Hc. by apply list_elem_of_fmap_2.
  - apply elem_of_cons in Hin as [->|Hin]; [|by apply IH]. by rewrite (proj2 (cmp_eqb bytes_compare _ _)) in Hc.
Qed.

(** C36. A handler with a database refines a bounded queue of receipts: in every history
    of transactions and blocks (whose receipts have distinct hashes) the receipts of
    the transactions of the running block are pending, in order, and each is found by
    its hash; a block commits them without fail; and the database then answers with
    exactly the last [MaxDbSize] receipts of all blocks. *)
Theorem receipts_refine_bounded_queue version max w0 p d w :
  version = ReceiptHandlerLevelDb → 0 <= max < 2 ^ 64 → kv_ok (tw_store w0) → hash_lists_ok (tw_store w0) →
  tw_env w0 = NewReceiptHandler version max ∅ (rn_env (tw_env w0)) →
  history w0 p d w → proper (d ++ p) → Z.of_nat (length (d ++ p)) < 2 ^ 64 →
  GetPendingTxHashList (tw_env w) = tr_TxHash <$> p ∧
  (∀ r, r ∈ p → GetPendingReceipt (tr_TxHash r) (tw_env w) = Ok r) ∧
  (∀ h r, h ∉ param_keys → LevelDb_GetReceipt (rn_db (tw_env w)) h = Ok r ↔ r ∈ keep_last (Z.to_nat max) d ∧ tr_TxHash r = h) ∧
  (∀ r, r ∈ keep_last (Z.to_nat max) d → GetReceipt (tw_store w) (tr_TxHash r) (tw_env w) = Ok r) ∧
  (∀ height, is_ok (CommitBlock height w).1 = true).
Proof.
  intros -> Hmax Hs Hok Hw0 Hh Hp Hsz.
  assert (handler_ok max p d w) as H.
  { apply (history_ok max w0 p d w); try done. constructor; try rewrite Hw0; try done; [constructor | apply empty_holds]. }
  pose proof H as [Hv Hm Hc Hhs _ _ Hd].
  assert (NoDup (tr_TxHash <$> p)) as Hnd by (apply proper_app in Hp as (_ & [Hp _] & _); done).
  split_and!; [done | | | |].
  - intros r Hr. unfold GetPendingReceipt. rewrite Hc, find_pending_all; done.
  - intros h r Hk. by apply holds_lookup.
  - intros r Hr. unfold GetReceipt. rewrite Hv. cbn.
    assert (tr_TxHash r ∉ param_keys) as Hk.
    { apply Hp. rewrite fmap_app. apply elem_of_app. left. apply list_elem_of_fmap_2. by apply keep_last_sub in Hr. }
    by rewrite (proj2 (holds_lookup _ _ (tr_TxHash r) r Hd Hk)).
  - intros height. destruct (commit_block_ok max p d w height H Hp Hsz Hmax) as (w' & -> & _). done.
Qed.
End Histories.
