(* ===== verification/EthJson.v ===== *)
(** * Values of the Ethereum JSON-RPC interface (src/rpc/eth/jsonrpc_conversion.go)

    Quantities and data are strings that start with "0x".  The conversions of
    receipts, events and logs to them and the decoding of quantities, data, block
    heights and log filters are modelled, with the parts of [strconv] and
    [encoding/hex] that they use.  What JSON decoding leaves in an [interface{}] is a
    [jvalue]; the objects that only name fields (transactions, blocks) are left out. *)

From Stdlib Require Import Ascii.
From S2P Require Import Prelude Contract Receipts.

(** ** Digits *)

Definition digit_char (d : Z) : ascii := ascii_of_N (Z.to_N (if d <? 10 then 48 + d else 87 + d)).

(** The value of a digit: 0-9, a-z, A-Z. *)
Definition char_digit (c : ascii) : option Z :=
  let n := Z.of_N (N_of_ascii c) in
  if (48 <=? n) && (n <=? 57) then Some (n - 48)
  else if (97 <=? n) && (n <=? 122) then Some (n - 87)
  else if (65 <=? n) && (n <=? 90) then Some (n - 55)
  else None.

(** The digits of [x], 16 of them at most. *)
Fixpoint format_hex (fuel : nat) (x : Z) (acc : string) : string :=
  match fuel with
  | O => acc
  | S fuel =>
      let acc := String (digit_char (x mod 16)) acc in
      if x / 16 =? 0 then acc else format_hex fuel (x / 16) acc
  end.

(** [strconv.FormatUint(value, 16)] and [strconv.FormatInt(value, 16)] *)
Definition FormatUint (x : Z) : string := format_hex 16 x "".
Definition FormatInt (x : Z) : string := if x <? 0 then "-" +:+ FormatUint (- x) else FormatUint x.

Fixpoint parse_digits (base : Z) (s : string) (n : Z) : option Z :=
  match s with
  | EmptyString => Some n
  | String c s =>
      d ← char_digit c;
      if base <=? d then None
      else if 2 ^ 64 <=? n * base + d then None
      else parse_digits base s (n * base + d)
  end.

(** [strconv.ParseUint(s, 0, 64)] *)
Definition ParseUint (s : string) : option Z :=
  match s with
  | EmptyString => None
  | String "0" (String "x" s) | String "0" (String "X" s) => if String.eqb s "" then None else parse_digits 16 s 0
  | String "0" s => parse_digits 8 s 0
  | _ => parse_digits 10 s 0
  end.

(** [strconv.ParseInt(s, 0, 64)] *)
Definition ParseInt (s : string) : option Z :=
  let '(neg, s) := match s with String "-" s => (true, s) | String "+" s => (false, s) | _ => (false, s) end in
  un ← ParseUint s;
  if neg then if 2 ^ 63 <? un then None else Some (- un) else if 2 ^ 63 <=? un then None else Some un.

(** [hex.EncodeToString] and [hex.DecodeString] *)
Fixpoint hex_encode (b : bytes) : string :=
  match b with
  | EmptyString => ""
  | String c b => let n := Z.of_N (N_of_ascii c) in String (digit_char (n / 16)) (String (digit_char (n mod 16)) (hex_encode b))
  end.

Definition hex_digit (c : ascii) : option Z := d ← char_digit c; if d <? 16 then Some d else None.

Fixpoint hex_decode (s : string) : option bytes :=
  match s with
  | EmptyString => Some ""
  | String _ EmptyString => None
  | String c1 (String c2 s) =>
      d1 ← hex_digit c1; d2 ← hex_digit c2; b ← hex_decode s;
      Some (String (ascii_of_N (Z.to_N (16 * d1 + d2))) b)
  end.

(** [strings.ToLower] on ASCII *)
Definition lower_char (c : ascii) : ascii :=
  let n := Z.of_N (N_of_ascii c) in if (65 <=? n) && (n <=? 90) then ascii_of_N (Z.to_N (n + 32)) else c.
Fixpoint ToLower (s : string) : string :=
  match s with EmptyString => "" | String c s => String (lower_char c) (ToLower s) end.

(** ** Encoding *)

Definition EncInt (value : Z) : string := "0x" +:+ FormatInt value.
Definition EncUint (value : Z) : string := "0x" +:+ FormatUint value.
Definition EncBytes (value : bytes) : string :=
  let bytesStr := "0x" +:+ hex_encode value in
  ToLower (if String.eqb bytesStr "0x" then "0x0" else bytesStr).
Definition EncBytesArray (l : list bytes) : list string := EncBytes <$> l.
Definition EncAddress (value : option Address) : Res string := match value with Some a => Ok (EncBytes (Local a)) | None => Panic end.

(** Topics are strings already. *)
Record JsonLog := mkJsonLog {
  jl_Removed : bool;
  jl_LogIndex : string;
  jl_TransactionIndex : string;
  jl_TransactionHash : string;
  jl_BlockHash : string;
  jl_BlockNumber : string;
  jl_Address : string;
  jl_Data : string;
  jl_Topics : list string;
  jl_BlockTime : string;
}.

Record JsonTxReceipt := mkJsonTxReceipt {
  jr_TxHash : string;
  jr_TransactionIndex : string;
  jr_BlockHash : string;
  jr_BlockNumber : string;
  jr_CallerAddress : string;
  jr_CumulativeGasUsed : string;
  jr_GasUsed : string;
  jr_ContractAddress : string;
  jr_Logs : list JsonLog;
  jr_LogsBdiadem : string;
  jr_Status : string;
}.

(** [types.EthFilterLog] *)
Record EthFilterLog := mkEthFilterLog {
  fl_Removed : bool;
  fl_LogIndex : Z;
  fl_TransactionIndex : Z;
  fl_TransactionHash : bytes;
  fl_BlockHash : bytes;
  fl_BlockNumber : Z;
  fl_Address : bytes;
  fl_Data : bytes;
  fl_Topics : list bytes;
  fl_BlockTime : Z;
}.

(** Sixty-four zero bytes. *)
Definition ZeroedData64bytes : string := "0x" +:+ hex_encode (Nat.iter 64 (String zero) "").

(** The index is filled in by [EncEvents]. *)
Definition EncEvent (index : string) (log : EventData) : Res JsonLog :=
  let data := if no_bytes (ev_EncodedBody log) then ZeroedData64bytes else EncBytes (ev_EncodedBody log) in
  addr ← EncAddress (ev_Caller log);
  Ok (mkJsonLog false index (EncInt (i64 (ev_TransactionIndex log))) (EncBytes (ev_TxHash log)) (EncBytes (ev_BlockHash log))
        (EncUint (ev_BlockHeight log)) addr data (ev_Topics log) "").

Fixpoint enc_events (i : Z) (logs : list EventData) : Res (list JsonLog) :=
  match logs with
  | [] => Ok []
  | log :: logs => j ← EncEvent (EncInt i) log; js ← enc_events (i + 1) logs; Ok (j :: js)
  end.
Definition EncEvents (logs : list EventData) : Res (list JsonLog) := enc_events 0 logs.

Definition EncTxReceipt (receipt : EvmTxReceipt) : Res JsonTxReceipt :=
  logs ← EncEvents (tr_Logs receipt);
  caller ← EncAddress (tr_CallerAddress receipt);
  Ok (mkJsonTxReceipt (EncBytes (tr_TxHash receipt)) (EncInt (tr_TransactionIndex receipt)) (EncBytes (tr_BlockHash receipt))
        (EncInt (tr_BlockNumber receipt)) caller (EncInt (tr_CumulativeGasUsed receipt)) (EncInt (tr_GasUsed receipt))
        (EncBytes (tr_ContractAddress receipt)) logs (EncBytes (tr_LogsBdiadem receipt)) (EncInt (tr_Status receipt))).

Definition EncLog (log : EthFilterLog) : JsonLog :=
  mkJsonLog (fl_Removed log) (EncInt (fl_LogIndex log)) (EncInt (fl_TransactionIndex log)) (EncBytes (fl_TransactionHash log))
    (EncBytes (fl_BlockHash log)) (EncInt (fl_BlockNumber log)) (EncBytes (fl_Address log)) (EncBytes (fl_Data log)) (fl_Topics log) "".
Definition EncLogs (logs : list EthFilterLog) : list JsonLog := EncLog <$> logs.

(** ** Decoding *)

(** [len(value) <= 2 || value[0:2] != "0x"] *)
Definition bad_prefix (value : string) : bool :=
  (String.length value <=? 2)%nat || negb (String.eqb (String.substring 0 2 value) "0x").

Definition or_err {A} (e : string) (o : option A) : Res A := match o with Some x => Ok x | None => Err (ErrMsg e) end.

Definition DecQuantityToInt (value : string) : Res Z :=
  if bad_prefix value then Err (ErrMsg "invalid quantity format") else or_err "strconv.ParseInt" (ParseInt value).
Definition DecQuantityToUint (value : string) : Res Z :=
  if bad_prefix value then Err (ErrMsg "invalid quantity format") else or_err "strconv.ParseUint" (ParseUint value).
Definition DecDataToBytes (value : string) : Res bytes :=
  if bad_prefix value then Err (ErrMsg "invalid data format")
  else or_err "encoding/hex" (hex_decode (String.substring 2 (String.length value - 2) value)).

Definition DecBlockHeight (lastBlockHeight : Z) (value : string) : Res Z :=
  if lastBlockHeight <? 1 then Err (ErrMsg "invalid last block height")
  else if String.eqb value "earliest" || String.eqb value "genesis" then Ok 1
  else if String.eqb value "latest" then
    if 0 <? lastBlockHeight then Ok (u64 lastBlockHeight) else Err (ErrMsg "no block completed yet")
  else if String.eqb value "pending" then Ok (u64 (i64 (lastBlockHeight + 1)))
  else
    match ParseUint value with
    | None => Err (ErrMsg "parse block height")
    | Some height =>
        if u64 (i64 (lastBlockHeight + 1)) <? height then Err (ErrMsg "requested block height exceeds pending block height")
        else if height =? 0 then Err (ErrMsg "zero block height is not valid")
        else Ok height
    end.

Record EthFilter := mkEthFilter { ft_Addresses : list bytes; ft_Topics : list (list string); ft_FromBlock : string; ft_ToBlock : string }.

Inductive jvalue := JNil | JString (s : string) | JArray (l : list jvalue) | JOther.

Record JsonFilter := mkJsonFilter { jf_FromBlock : string; jf_ToBlock : string; jf_Address : jvalue; jf_Topics : list jvalue }.

(** An address is added unless it is empty. *)
Definition add_address (acc : list bytes) (s : string) : Res (list bytes) :=
  match DecDataToBytes s with
  | Ok address => Ok (if no_bytes address then acc else acc ++ [address])
  | Err _ => Err (ErrMsg "unwrap filter address")
  | Panic => Panic
  end.

Fixpoint dec_addresses (l : list jvalue) (acc : list bytes) : Res (list bytes) :=
  match l with
  | [] => Ok acc
  | JString s :: l => acc ← add_address acc s; dec_addresses l acc
  | _ => Err (ErrMsg "unrecognised address format")
  end.

Definition add_topic (acc : list string) (s : string) : list string := if no_bytes s then acc else acc ++ [s].

Fixpoint dec_topic_list (l : list jvalue) (acc : list string) : Res (list string) :=
  match l with
  | [] => Ok acc
  | JString s :: l => dec_topic_list l (add_topic acc s)
  | _ => Err (ErrMsg "unrecognised topic format")
  end.

Definition dec_topic (t : jvalue) : Res (list string) :=
  match t with
  | JNil => Ok []
  | JString s => Ok (add_topic [] s)
  | JArray l => dec_topic_list l []
  | JOther => Err (ErrMsg "unrecognised topic format")
  end.

Fixpoint dec_topics (l : list jvalue) : Res (list (list string)) :=
  match l with
  | [] => Ok []
  | t :: l => ts ← dec_topic t; rest ← dec_topics l; Ok (ts :: rest)
  end.

Definition DecLogFilter (filter : JsonFilter) : Res EthFilter :=
  addresses ←
    match jf_Address filter with
    | JNil => Ok []
    | JString s => add_address [] s
    | JArray l => dec_addresses l []
    | JOther => Err (ErrMsg "filter: unrecognised address format")
    end;
  topicsList ← dec_topics (jf_Topics filter);
  Ok (mkEthFilter addresses topicsList (if no_bytes (jf_FromBlock filter) then "earliest" else jf_FromBlock filter)
        (if no_bytes (jf_ToBlock filter) then "pending" else jf_ToBlock filter)).

(** ** Round trips *)

Lemma sixteen d : 0 <= d < 16 → d ∈ [0;1;2;3;4;5;6;7;8;9;10;11;12;13;14;15].
Proof. intros H. assert (d = 0 ∨ d = 1 ∨ d = 2 ∨ d = 3 ∨ d = 4 ∨ d = 5 ∨ d = 6 ∨ d = 7 ∨ d = 8 ∨ d = 9 ∨ d = 10 ∨ d = 11 ∨ d = 12 ∨ d = 13 ∨ d = 14 ∨ d = 15) by lia. set_solver. Qed.

Ltac each_digit H := apply sixteen in H; repeat (apply elem_of_cons in H as [->|H]; [done|]); by apply elem_of_nil in H.

Lemma char_of_digit d : 0 <= d < 16 → char_digit (digit_char d) = Some d.
Proof. intros H. each_digit H. Qed.
Lemma hex_of_digit d : 0 <= d < 16 → hex_digit (digit_char d) = Some d.
Proof. intros H. each_digit H. Qed.
Lemma lower_digit d : 0 <= d < 16 → lower_char (digit_char d) = digit_char d.
Proof. intros H. each_digit H. Qed.

Lemma parse_format fuel x acc :
  (0 < fuel)%nat → 0 <= x < 16 ^ Z.of_nat fuel → x < 2 ^ 64 →
  parse_digits 16 (format_hex fuel x acc) 0 = parse_digits 16 acc x.
Proof.
  revert x acc. induction fuel as [|fuel IH]; intros x acc Hf Hx Hb; [lia|]. cbn [format_hex].
  pose proof (Z.mod_pos_bound x 16). pose proof (Z.div_mod x 16).
  assert (∀ n, n * 16 + x mod 16 = x → parse_digits 16 (String (digit_char (x mod 16)) acc) n = parse_digits 16 acc x) as Hstep.
  { intros n Hn. cbn [parse_digits]. rewrite char_of_digit by lia. cbn [mbind option_bind].
    destruct (Z.leb_spec 16 (x mod 16)); [lia|]. rewrite Hn. destruct (Z.leb_spec (2 ^ 64) x); [lia|done]. }
  destruct (Z.eqb_spec (x / 16) 0) as [Hz|Hz]; [apply Hstep; lia|].
  rewrite Nat2Z.inj_succ, Z.pow_succ_r in Hx by lia. destruct fuel as [|fuel].
  - exfalso. apply Hz. apply Z.div_small. change (16 * 16 ^ Z.of_nat 0) with 16 in Hx. lia.
  - rewrite IH; [apply Hstep; lia | lia | | lia].
    split; [apply Z.div_pos; lia | apply Z.div_lt_upper_bound; lia].
Qed.

Lemma format_nonempty fuel x acc : (0 < fuel)%nat → format_hex fuel x acc ≠ "".
Proof.
  destruct fuel as [|fuel]; [lia|]. intros _. cbn [format_hex].
  assert (∀ fuel x c acc, format_hex fuel x (String c acc) ≠ "") as H.
  { clear. induction fuel as [|fuel IH]; intros x c acc; cbn [format_hex]; [done|]. case_match; [done | apply IH]. }
  case_match; [done | apply H].
Qed.

Lemma FormatUint_nonempty x : FormatUint x ≠ "".
Proof. apply format_nonempty. lia. Qed.

Lemma parse_uint_format x : 0 <= x < 2 ^ 64 → ParseUint ("0x" +:+ FormatUint x) = Some x.
Proof.
  intros Hx. change (ParseUint ("0x" +:+ FormatUint x)) with (if String.eqb (FormatUint x) "" then None else parse_digits 16 (FormatUint x) 0). rewrite (proj2 (String.eqb_neq _ _)) by apply FormatUint_nonempty.
  unfold FormatUint. rewrite parse_format; [done | lia | | lia]. change (16 ^ Z.of_nat 16) with (2 ^ 64). lia.
Qed.

Lemma good_prefix s : s ≠ "" → bad_prefix ("0x" +:+ s) = false.
Proof. intros H. destruct s as [|c s]; [done|]. unfold bad_prefix. cbn. done. Qed.

Lemma byte_digits c : 0 <= Z.of_N (N_of_ascii c) / 16 < 16 ∧ 0 <= Z.of_N (N_of_ascii c) mod 16 < 16.
Proof.
  pose proof (N_ascii_bounded c). split; [|apply Z.mod_pos_bound; lia].
  split; [apply Z.div_pos; lia | apply Z.div_lt_upper_bound; lia].
Qed.

Lemma hex_roundtrip b : hex_decode (hex_encode b) = Some b.
Proof.
  induction b as [|c b IH]; [done|]. cbn [hex_encode hex_decode]. destruct (byte_digits c) as [H1 H2].
  rewrite !hex_of_digit by done. cbn [mbind option_bind]. rewrite IH. cbn [mbind option_bind]. do 2 f_equal.
  rewrite <- (Z.div_mod (Z.of_N (N_of_ascii c)) 16), N2Z.id by lia. apply ascii_N_embedding.
Qed.

Lemma lower_hex b : ToLower (hex_encode b) = hex_encode b.
Proof. induction b as [|c b IH]; [done|]. cbn. destruct (byte_digits c). by rewrite !lower_digit, IH. Qed.

Lemma EncBytes_nonempty b : b ≠ "" → EncBytes b = "0x" +:+ hex_encode b.
Proof.
  intros H. unfold EncBytes. destruct (String.eqb_spec ("0x" +:+ hex_encode b) "0x") as [He|_].
  - by destruct b as [|c b].
  - change (ToLower ("0x" +:+ hex_encode b)) with ("0x" +:+ ToLower (hex_encode b)). by rewrite lower_hex.
Qed.

Lemma drop_0x s : String.substring 2 (String.length ("0x" +:+ s) - 2) ("0x" +:+ s) = s.
Proof.
  assert (String.substring 0 (String.length s) s = s) as H by (induction s as [|c s IH]; [done|]; cbn; by rewrite IH).
  change (String.substring 0 (String.length s - 0) s = s). by rewrite Nat.sub_0_r.
Qed.

(** What the node sends to a client of its Ethereum interface is read back as it
    was: non-negative numbers of 64 bits and data that are not empty.  Negative
    numbers and empty data are sent in a form that is refused. *)
Theorem json_values_roundtrip :
  (∀ x, 0 <= x < 2 ^ 63 → DecQuantityToInt (EncInt x) = Ok x) ∧
  (∀ x, 0 <= x < 2 ^ 64 → DecQuantityToUint (EncUint x) = Ok x) ∧
  (∀ b, b ≠ "" → DecDataToBytes (EncBytes b) = Ok b) ∧
  (∀ x, x < 0 → is_ok (DecQuantityToInt (EncInt x)) = false) ∧ is_ok (DecDataToBytes (EncBytes "")) = false.
Proof.
  split_and!.
  - intros x Hx. unfold DecQuantityToInt, EncInt, FormatInt. destruct (Z.ltb_spec x 0); [lia|].
    rewrite good_prefix by apply FormatUint_nonempty.
    change (ParseInt ("0x" +:+ FormatUint x)) with (un ← ParseUint ("0x" +:+ FormatUint x); if 2 ^ 63 <=? un then None else Some un).
    rewrite parse_uint_format by lia. cbn [mbind option_bind]. destruct (Z.leb_spec (2 ^ 63) x); [lia|done].
  - intros x Hx. unfold DecQuantityToUint, EncUint. rewrite good_prefix by apply FormatUint_nonempty. by rewrite parse_uint_format.
  - intros b Hb. rewrite EncBytes_nonempty by done. unfold DecDataToBytes. rewrite good_prefix by (by destruct b).
    by rewrite drop_0x, hex_roundtrip.
  - intros x Hx. unfold DecQuantityToInt, EncInt, FormatInt. destruct (Z.ltb_spec x 0); [|lia]. cbn. done.
  - done.
Qed.

Lemma tag_not_number x t :
  0 <= x → t ∈ ["earliest"; "genesis"; "latest"; "pending"] → String.eqb (EncUint x) t = false.
Proof. intros _ Ht. unfold EncUint. cbn. set_unfold. destruct Ht as [->|[->|[->|[->|[]]]]]; done. Qed.

(** The block that a client names is one the chain has or is working on: a decoded
    height is between 1 and the pending height, and every such height can be named by
    its number. *)
Theorem block_heights_are_in_range last value h :
  0 <= last < 2 ^ 62 →
  (DecBlockHeight last value = Ok h → 1 <= h <= last + 1) ∧
  (1 <= last → 1 <= h <= last + 1 → DecBlockHeight last (EncUint h) = Ok h).
Proof.
  intros Hl. assert (u64 (i64 (last + 1)) = last + 1) as Hs by (rewrite i64_small by lia; apply u64_small; lia). split.
  - unfold DecBlockHeight. rewrite Hs, (u64_small last) by lia. destruct (Z.ltb_spec last 1); [done|].
    destruct (String.eqb value "earliest" || String.eqb value "genesis"); [intros [= <-]; lia|].
    destruct (String.eqb value "latest"); [destruct (Z.ltb_spec 0 last); [intros [= <-]; lia|done]|].
    destruct (String.eqb value "pending"); [intros [= <-]; lia|]. destruct (ParseUint value) as [x|] eqn:Ex; [|done].
    destruct (Z.ltb_spec (last + 1) x); [done|]. destruct (Z.eqb_spec x 0) as [|Hx0]; [done|]. intros [= <-].
    assert (∀ base s n r, 0 <= base → 0 <= n → parse_digits base s n = Some r → 0 <= r) as Hpos.
    { clear. intros base s. induction s as [|c s IH]; intros n r Hb Hn; cbn; [by intros [= <-]|].
      destruct (char_digit c) as [d|] eqn:Ed; [|done]. cbn. assert (0 <= d) as Hd by (unfold char_digit in Ed; repeat case_match; simplify_eq; lia).
      repeat case_match; try done. apply IH; lia. }
    assert (0 <= x) by (unfold ParseUint in Ex; repeat case_match; try done; eapply Hpos in Ex; lia). lia.
  - intros H1 Hh. unfold DecBlockHeight. rewrite Hs. destruct (Z.ltb_spec last 1); [lia|].
    rewrite !(tag_not_number h) by (lia || set_solver). cbn [orb]. unfold EncUint. rewrite parse_uint_format by lia.
    destruct (Z.ltb_spec (last + 1) h); [lia|]. destruct (Z.eqb_spec h 0); [lia|done].
Qed.

Module JsonWitness.
Lemma values_witness : DecQuantityToInt (EncInt 255) = Ok 255 ∧ DecDataToBytes (EncBytes "ab") = Ok "ab".
Proof. destruct json_values_roundtrip as (H1 & _ & H3 & _). split; [apply H1; lia | by apply H3]. Defined.

Lemma heights_witness : DecBlockHeight 41 "0x2a" = Ok 42 ∧ DecBlockHeight 41 (EncUint 42) = Ok 42.
Proof.
  assert (0 <= 41 < 2 ^ 62) as Hl by lia. split; [by vm_compute|].
  apply (block_heights_are_in_range 41 "0x2a" 42 Hl); lia.
Defined.
End JsonWitness.
