(* ===== verification/EthQuery.v ===== *)
(** * Log queries, polls and filters (src/eth/query/eth.go, src/eth/utils, src/eth/polls)

    Clients of the Ethereum interface ask for the logs of a range of blocks, or install
    a filter and poll it.  Reading receipts is [getReceipt], the time of a block
    [blockTime] and the hashes of a range of blocks [blockRange]: the handler of
    Receipts.v for the first, Tendermint's block store for the others.

    The methods of [EthSubscriptions] have value receivers: they share the maps, but
    what [pruneSubs] assigns to [lastPrune] is lost. *)

From S2P Require Import Prelude Contract Store Middleware App Receipts EthJson.

(** ** Matching *)

Section Match.
Context {LIB : DiademLib} {RL : ReceiptLib}.

Definition match_address (filter : EthFilter) (eventLog : EventData) : Res bool :=
  match ft_Addresses filter with
  | [] => Ok true
  | addrs =>
      match ev_Address eventLog with
      | None => Panic
      | Some a => Ok (existsb (λ addr, local_compare addr (Local a) =? 0) addrs)
      end
  end.

Definition match_topics (filter : EthFilter) (topics : list string) : bool :=
  forallb (λ wt : list string * string, match wt.1 with [] => true | ts => existsb (λ t, String.eqb t wt.2) ts end)
    (zip (ft_Topics filter) topics).

Definition MatchEthFilter (filter : EthFilter) (eventLog : EventData) : Res bool :=
  if (length (ev_Topics eventLog) <? length (ft_Topics filter))%nat then Ok false
  else
    found ← match_address filter eventLog;
    if negb found then Ok false else Ok (match_topics filter (ev_Topics eventLog)).

Definition MatchBdiademFilter (ethFilter : EthFilter) (bdiademFilter : bytes) : bool :=
  match ft_Addresses ethFilter with [] => true | addrs => existsb (bloom_contains bdiademFilter) addrs end &&
  forallb (λ topics, match topics with [] => true | ts => existsb (bloom_contains bdiademFilter) ts end) (ft_Topics ethFilter).

(** [DeprecatedBlockNumber] *)
Definition DeprecatedBlockNumber (blockTag : string) (height : Z) : Res Z :=
  if String.eqb blockTag "earliest" then Ok 1
  else
    block ←
      if String.eqb blockTag "" || String.eqb blockTag "latest" then Ok (u64 (height - 1))
      else if String.eqb blockTag "pending" then Ok height
      else or_err "strconv.ParseUint" (ParseUint blockTag);
    Ok (if block <? 1 then 1 else block).

(** [UnmarshalEthFilter], on the value that [json.Unmarshal] left (its error is
    ignored); [fromHex] is [LocalAddressFromHexString]. *)
Record RawFilter := mkRawFilter { rf_FromBlock : string; rf_ToBlock : string; rf_Address : string; rf_Topics : list jvalue }.

Definition SolidtyMaxTopics : nat := 4.

Fixpoint raw_topic_list (l : list jvalue) (acc : list string) : Res (list string) :=
  match l with
  | [] => Ok acc
  | JString s :: l => raw_topic_list l (acc ++ [s])
  | _ => Err (ErrMsg "invalid ethfilter, unreconised topic type")
  end.

Fixpoint raw_topics (l : list jvalue) : Res (list (list string)) :=
  match l with
  | [] => Ok []
  | t :: l =>
      ts ← match t with
           | JString s => Ok [s]
           | JNil => Ok []
           | JArray a => raw_topic_list a []
           | JOther => Err (ErrMsg "invalid ethfilter, unrecognised topic")
           end;
      rest ← raw_topics l;
      Ok (ts :: rest)
  end.

Definition UnmarshalEthFilter (fromHex : string → option bytes) (filter : RawFilter) : Res EthFilter :=
  addrs ←
    if no_bytes (rf_Address filter) then Ok []
    else match fromHex (rf_Address filter) with Some a => Ok [a] | None => Err (ErrMsg "invalid ethfilter, address") end;
  if (SolidtyMaxTopics <? length (rf_Topics filter))%nat then Err (ErrMsg "invalid ethfilter, too many topics")
  else
    topics ← raw_topics (rf_Topics filter);
    Ok (mkEthFilter addrs topics (rf_FromBlock filter) (rf_ToBlock filter)).
End Match.

(** ** Logs *)

Section Logs.
Context {LIB : DiademLib} {RL : ReceiptLib} {T : Type} {KV : KVStore T}.
Context (blockTime : Z → Res Z) (getReceipt : T → bytes → Res EvmTxReceipt).
Implicit Types state : T.

Definition filter_log (timestamp : Z) (txReceipt : EvmTxReceipt) (txHash : bytes) (i : Z) (eventLog : EventData) : Res EthFilterLog :=
  match ev_Address eventLog with
  | None => Panic
  | Some a =>
      Ok (mkEthFilterLog false i (tr_TransactionIndex txReceipt) txHash (tr_BlockHash txReceipt) (tr_BlockNumber txReceipt)
            (Local a) (ev_EncodedBody eventLog) (ev_Topics eventLog) timestamp)
  end.

Fixpoint match_logs (timestamp : Z) (txReceipt : EvmTxReceipt) (filter : EthFilter) (txHash : bytes) (i : Z) (logs : list EventData) :
    Res (list EthFilterLog) :=
  match logs with
  | [] => Ok []
  | eventLog :: logs =>
      m ← MatchEthFilter filter eventLog;
      rest ← match_logs timestamp txReceipt filter txHash (i + 1) logs;
      if m : bool then (l ← filter_log timestamp txReceipt txHash i eventLog; Ok (l :: rest)) else Ok rest
  end.

Definition getTxHashLogs (txReceipt : EvmTxReceipt) (filter : EthFilter) (txHash : bytes) : Res (list EthFilterLog) :=
  match tr_Logs txReceipt with
  | [] => Ok []
  | logs =>
      match blockTime (tr_BlockNumber txReceipt) with
      | Ok timestamp => match_logs timestamp txReceipt filter txHash 0 logs
      | Err _ => Err (ErrMsg "getting block info for height")
      | Panic => Panic
      end
  end.

Fixpoint logs_of_hashes (read : bytes → Res EvmTxReceipt) (ethFilter : EthFilter) (hashes : list bytes) : Res (list EthFilterLog) :=
  match hashes with
  | [] => Ok []
  | txHash :: hashes =>
      txReceipt ← match read txHash with Err _ => Err (ErrMsg "getting receipt") | r => r end;
      logsTx ← match getTxHashLogs txReceipt ethFilter txHash with Err _ => Err (ErrMsg "logs for tx") | r => r end;
      rest ← logs_of_hashes read ethFilter hashes;
      Ok (logsTx ++ rest)
  end.

Definition GetBlockLogs (state : T) (ethFilter : EthFilter) (height : Z) : Res (list EthFilterLog) :=
  match GetBdiademFilter state height with
  | Some bdiademFilter =>
      if no_bytes bdiademFilter then Ok []
      else if MatchBdiademFilter ethFilter bdiademFilter then
        txHashList ← match GetTxHashList state height with Err _ => Err (ErrMsg "txhash for block height") | r => r end;
        logs_of_hashes (getReceipt state) ethFilter txHashList
      else Ok []
  | None => Ok []
  end.

Fixpoint logs_of_heights (state : T) (ethFilter : EthFilter) (heights : list Z) : Res (list EthFilterLog) :=
  match heights with
  | [] => Ok []
  | height :: heights =>
      blockLogs ← GetBlockLogs state ethFilter height;
      rest ← logs_of_heights state ethFilter heights;
      Ok (blockLogs ++ rest)
  end.

(** The loop ends because [to] is below the largest uint64 for every block of a chain. *)
Definition heights (from to : Z) : list Z := (λ i, from + Z.of_nat i) <$> seq 0 (Z.to_nat (to - from + 1)).

Definition GetBlockLogRange (state : T) (from to : Z) (ethFilter : EthFilter) : Res (list EthFilterLog) :=
  if to <? from then Err (ErrMsg "to block before end block") else logs_of_heights state ethFilter (heights from to).

(** [last] is [state.Block().Height]. *)
Definition QueryChain (last : Z) (state : T) (ethFilter : EthFilter) : Res (list EthFilterLog) :=
  start ← DecBlockHeight last (ft_FromBlock ethFilter);
  end_ ← DecBlockHeight last (ft_ToBlock ethFilter);
  GetBlockLogRange state start end_ ethFilter.

Definition DeprecatedQueryChain (fromHex : string → option bytes) (query : RawFilter) (last : Z) (state : T) : Res (list EthFilterLog) :=
  ethFilter ← UnmarshalEthFilter fromHex query;
  start ← DeprecatedBlockNumber (ft_FromBlock ethFilter) (u64 last);
  end_ ← DeprecatedBlockNumber (ft_ToBlock ethFilter) (u64 last);
  GetBlockLogRange state start end_ ethFilter.

Definition GetPendingBlockLogs {E} (ethFilter : EthFilter) (receiptHandler : REnv E) : Res (list EthFilterLog) :=
  logs_of_hashes (λ h, GetPendingReceipt h receiptHandler) ethFilter (GetPendingTxHashList receiptHandler).

(** ** Polls *)

Context (blockRange : Z → Z → Res (list (bytes * Z))).

Inductive EthPoll :=
  | EthLogPoll (filter : EthFilter) (lastBlockRead : Z)
  | EthBlockPoll (startBlock lastBlock : Z)
  | EthTxPoll (startBlock lastBlockRead : Z).

(** The results of a poll; [NoResult] is nil. *)
Inductive PollResult := NoResult | LogResult (l : list EthFilterLog) | HashResult (l : list bytes).

Definition NewEthBlockPoll (height : Z) : EthPoll := EthBlockPoll height height.
Definition NewEthTxPoll (height : Z) : EthPoll := EthTxPoll height height.
Definition NewEthLogPoll (fromHex : string → option bytes) (filter : RawFilter) : Res EthPoll :=
  f ← UnmarshalEthFilter fromHex filter; Ok (EthLogPoll f 0).

(** Blocks with a hash count; the last block read never goes back. *)
Definition count_block (acc : Z * list bytes) (meta : bytes * Z) : Z * list bytes :=
  if no_bytes meta.1 then acc else (if acc.1 <? u64 meta.2 then u64 meta.2 else acc.1, acc.2 ++ [meta.1]).

Definition getBlockHashes (last lastBlockRead : Z) : Res (Z * list bytes) :=
  metas ← blockRange (i64 (u64 (lastBlockRead + 1))) last;
  Ok (foldl count_block (lastBlockRead, []) metas).

(** The loop over heights that lie strictly before [last]. *)
Fixpoint tx_hashes_of (state : T) (hs : list Z) (acc : Z * list bytes) : Res (Z * list bytes) :=
  match hs with
  | [] => Ok acc
  | height :: hs =>
      match GetTxHashList state height with
      | Ok l => tx_hashes_of state hs (height, acc.2 ++ l)
      | Err _ => Err (ErrMsg "reading tx hashes at height")
      | Panic => Panic
      end
  end.

Definition getTxHashes (last : Z) (state : T) (lastBlockRead : Z) : Res (Z * list bytes) :=
  tx_hashes_of state (heights (u64 (lastBlockRead + 1)) (u64 last - 1)) (lastBlockRead, []).

Definition log_range (last : Z) (p : EthFilter) : Res (Z * Z) :=
  start ← DecBlockHeight last (ft_FromBlock p);
  end_ ← DecBlockHeight last (ft_ToBlock p);
  Ok (start, end_).

(** *** [Poll], [AllLogs] and [LegacyPoll] of the three kinds: the new poll and what is
    returned.  [LegacyPoll] encodes its results as protocol buffers, which is left out. *)

Definition LogPoll_Poll (last : Z) (state : T) (filter : EthFilter) (lastBlockRead : Z) : EthPoll * Res PollResult :=
  let p := EthLogPoll filter lastBlockRead in
  match log_range last filter with
  | Err e => (p, Err e)
  | Panic => (p, Panic)
  | Ok (start, end_) =>
      if end_ <? start then (p, Err (ErrMsg "Filter FromBlock is greater than ToBlock"))
      else
        let start' := if start <=? lastBlockRead then u64 (lastBlockRead + 1) else start in
        if (start <=? lastBlockRead) && (end_ <? start') then (p, Ok NoResult)
        else match GetBlockLogRange state start' end_ filter with
             | Ok logs => (EthLogPoll filter end_, Ok (LogResult logs))
             | Err e => (p, Err e)
             | Panic => (p, Panic)
             end
  end.

Definition LogPoll_AllLogs (last : Z) (state : T) (filter : EthFilter) : Res PollResult :=
  '(start, end_) ← log_range last filter;
  if end_ <? start then Err (ErrMsg "Filter FromBlock is greater than ToBlock")
  else logs ← GetBlockLogRange state start end_ filter; Ok (LogResult logs).

Definition LogPoll_LegacyPoll (last : Z) (state : T) (filter : EthFilter) (lastBlockRead : Z) : EthPoll * Res PollResult :=
  let p := EthLogPoll filter lastBlockRead in
  match log_range last filter with
  | Err e => (p, Err e)
  | Panic => (p, Panic)
  | Ok (start, end_) =>
      let start' := if start <=? lastBlockRead then u64 (lastBlockRead + 1) else start in
      if (start <=? lastBlockRead) && (end_ <? start') then (p, Err (ErrMsg "filter start after filter end"))
      else match GetBlockLogRange state start' end_ filter with
           | Ok logs => (EthLogPoll filter end_, Ok (LogResult logs))
           | Err e => (p, Err e)
           | Panic => (p, Panic)
           end
  end.

Definition BlockPoll_Poll (last startBlock lastBlock : Z) : EthPoll * Res PollResult :=
  let p := EthBlockPoll startBlock lastBlock in
  if u64 last <? u64 (lastBlock + 1) then (p, Ok NoResult)
  else match getBlockHashes last lastBlock with
       | Ok (l, results) => (EthBlockPoll startBlock l, Ok (HashResult results))
       | Err _ => (p, Ok NoResult)
       | Panic => (p, Panic)
       end.

Definition BlockPoll_AllLogs (last startBlock : Z) : Res PollResult :=
  r ← getBlockHashes last startBlock; Ok (HashResult r.2).

Definition BlockPoll_LegacyPoll (last startBlock lastBlock : Z) : EthPoll * Res PollResult :=
  let p := EthBlockPoll startBlock lastBlock in
  if u64 last <? u64 (lastBlock + 1) then (p, Ok NoResult)
  else match getBlockHashes last lastBlock with
       | Ok (l, results) => (EthBlockPoll startBlock l, Ok (HashResult results))
       | Err e => (p, Err e)
       | Panic => (p, Panic)
       end.

Definition TxPoll_Poll (last : Z) (state : T) (startBlock lastBlockRead : Z) : EthPoll * Res PollResult :=
  let p := EthTxPoll startBlock lastBlockRead in
  if u64 last <? u64 (lastBlockRead + 1) then (p, Ok NoResult)
  else match getTxHashes last state lastBlockRead with
       | Ok (l, results) => (EthTxPoll startBlock l, Ok (HashResult results))
       | Err _ => (p, Ok NoResult)
       | Panic => (p, Panic)
       end.

Definition TxPoll_AllLogs (last : Z) (state : T) (startBlock : Z) : Res PollResult :=
  r ← getTxHashes last state startBlock; Ok (HashResult r.2).

Definition TxPoll_LegacyPoll (last : Z) (state : T) (startBlock lastBlockRead : Z) : EthPoll * Res PollResult :=
  let p := EthTxPoll startBlock lastBlockRead in
  if u64 last <? u64 (lastBlockRead + 1) then (p, Ok NoResult)
  else match getTxHashes last state lastBlockRead with
       | Ok (_, results) => (EthTxPoll startBlock (u64 last), Ok (HashResult results))
       | Err e => (p, Err e)
       | Panic => (p, Panic)
       end.

Definition Poll_Poll (last : Z) (state : T) (p : EthPoll) : EthPoll * Res PollResult :=
  match p with
  | EthLogPoll filter lastBlockRead => LogPoll_Poll last state filter lastBlockRead
  | EthBlockPoll startBlock lastBlock => BlockPoll_Poll last startBlock lastBlock
  | EthTxPoll startBlock lastBlockRead => TxPoll_Poll last state startBlock lastBlockRead
  end.

Definition Poll_AllLogs (last : Z) (state : T) (p : EthPoll) : Res PollResult :=
  match p with
  | EthLogPoll filter _ => LogPoll_AllLogs last state filter
  | EthBlockPoll startBlock _ => BlockPoll_AllLogs last startBlock
  | EthTxPoll startBlock _ => TxPoll_AllLogs last state startBlock
  end.

Definition Poll_LegacyPoll (last : Z) (state : T) (p : EthPoll) : EthPoll * Res PollResult :=
  match p with
  | EthLogPoll filter lastBlockRead => LogPoll_LegacyPoll last state filter lastBlockRead
  | EthBlockPoll startBlock lastBlock => BlockPoll_LegacyPoll last startBlock lastBlock
  | EthTxPoll startBlock lastBlockRead => TxPoll_LegacyPoll last state startBlock lastBlockRead
  end.
End Logs.

(** ** Installed filters *)

Definition BlockTimeout : Z := 10 * 60.

Section Subscriptions.
Context {P : Type}.

Record EthSubscriptions := mkSubs {
  sb_polls : gmap string P;
  sb_lastPoll : gmap string Z;
  sb_timestamps : gmap Z (list string);
  sb_lastPrune : Z;
}.

Definition NewEthSubscriptions : EthSubscriptions := mkSubs ∅ ∅ ∅ 0.

Definition stamps (h : Z) (s : EthSubscriptions) : list string := default [] (sb_timestamps s !! h).

Definition Remove (id : string) (s : EthSubscriptions) : EthSubscriptions :=
  mkSubs (delete id (sb_polls s)) (delete id (sb_lastPoll s)) (sb_timestamps s) (sb_lastPrune s).

Definition prune_height (s : EthSubscriptions) (h : Z) : EthSubscriptions :=
  let s := foldl (λ s id, Remove id s) s (stamps h s) in
  mkSubs (sb_polls s) (sb_lastPoll s) (delete h (sb_timestamps s)) (sb_lastPrune s).

Definition pruneSubs (height : Z) (s : EthSubscriptions) : EthSubscriptions :=
  if BlockTimeout <? height then foldl prune_height s (heights (sb_lastPrune s) (u64 (height - BlockTimeout) - 1)) else s.

Definition put_stamp (id : string) (height : Z) (s : EthSubscriptions) : EthSubscriptions :=
  mkSubs (sb_polls s) (<[id := height]> (sb_lastPoll s)) (<[height := stamps height s ++ [id]]> (sb_timestamps s)) (sb_lastPrune s).

(** [id] is what [GetId] draws. *)
Definition Add (id : string) (poll : P) (height : Z) (s : EthSubscriptions) : EthSubscriptions :=
  pruneSubs height (put_stamp id height (mkSubs (<[id := poll]> (sb_polls s)) (sb_lastPoll s) (sb_timestamps s) (sb_lastPrune s))).

(** The loop of [resetTimestamp] ranges over the array [arr] while [append] moves its
    elements; [m] is the length of the slice that is stored. *)
Fixpoint drop_stamp (polledId : string) (is_ : list nat) (arr : list string) (m : nat) : Res (list string * nat) :=
  match is_ with
  | [] => Ok (arr, m)
  | i :: is_ =>
      if bool_decide (arr !! i = Some polledId) then
        if (m <? S i)%nat then Panic
        else drop_stamp polledId is_ (take i arr ++ drop (S i) (take m arr) ++ drop (m - 1) arr) (m - 1)
      else drop_stamp polledId is_ arr m
  end.

Definition resetTimestamp (polledId : string) (height : Z) (s : EthSubscriptions) : Res EthSubscriptions :=
  let lp := default 0 (sb_lastPoll s !! polledId) in
  let l := stamps lp s in
  '(arr, m) ← drop_stamp polledId (seq 0 (length l)) l (length l);
  let ts := if bool_decide (polledId ∈ l) then <[lp := take m arr]> (sb_timestamps s) else sb_timestamps s in
  Ok (put_stamp polledId height (mkSubs (sb_polls s) (sb_lastPoll s) ts (sb_lastPrune s))).

(** [Poll] and [LegacyPoll]: [poll] is the method of the installed filter.  The filter is
    replaced and its time reset whatever the method returns. *)
Definition Subs_Poll {A} (poll : P → P * Res A) (id : string) (height : Z) : M EthSubscriptions A :=
  s ← gets (λ s, s);
  match sb_polls (s : EthSubscriptions) !! id with
  | None => throw (ErrMsg "subscription not found")
  | Some p =>
      let '(p', result) := poll p in
      match result with Panic => panic | _ =>
      modify (λ s, mkSubs (<[id := p']> (sb_polls s)) (sb_lastPoll s) (sb_timestamps s) (sb_lastPrune s));;
      (λ s, match resetTimestamp id height s with Ok s' => (Ok (), s') | Err e => (Err e, s) | Panic => (Panic, s) end);;
      lift_res result
      end
  end.

Definition Subs_AllLogs {A} (allLogs : P → Res A) (id : string) (s : EthSubscriptions) : Res A :=
  match sb_polls s !! id with None => Err (ErrMsg "subscription not found") | Some p => allLogs p end.
End Subscriptions.
Arguments EthSubscriptions : clear implicits.
