(* ===== verification/EthQueryTheorems.v ===== *)
(** * Log queries are complete, polls report once, filters expire

    The bloom filter of a block only saves work: a query finds exactly the logs that
    match.  Successive polls of a filter on transactions report every block once.
    Installed filters live as long as they are polled. *)

From S2P Require Import Prelude Contract Store Middleware App Receipts ReceiptsTheorems EthJson EthQuery.

(** ** Installed filters *)

Section Subs.
Context {P : Type}.
Implicit Types s : EthSubscriptions P.

Lemma drop_stamp_none x is_ arr m : (∀ i, i ∈ is_ → arr !! i ≠ Some x) → drop_stamp x is_ arr m = Ok (arr, m).
Proof.
  induction is_ as [|i is_ IH]; intros H; [done|]. cbn. rewrite bool_decide_eq_false_2 by (apply H; set_solver).
  apply IH. intros j Hj. apply H. set_solver.
Qed.

Lemma drop_stamp_app x is1 is2 arr m :
  (∀ i, i ∈ is1 → arr !! i ≠ Some x) → drop_stamp x (is1 ++ is2) arr m = drop_stamp x is2 arr m.
Proof.
  induction is1 as [|i is1 IH]; intros H; [done|]. cbn. rewrite bool_decide_eq_false_2 by (apply H; set_solver).
  apply IH. intros j Hj. apply H. set_solver.
Qed.

(** The loop that moves elements while it ranges over them removes an id that occurs
    once. *)
Lemma drop_stamp_once x a b :
  x ∉ a → x ∉ b → ∃ arr m, drop_stamp x (seq 0 (length (a ++ x :: b))) (a ++ x :: b) (length (a ++ x :: b)) = Ok (arr, m) ∧ take m arr = a ++ b.
Proof.
  intros Ha Hb. set (l := a ++ x :: b). assert (length l = length a + S (length b))%nat as Hl by (unfold l; by rewrite length_app).
  rewrite Hl, seq_app, drop_stamp_app.
  2: { intros i Hi%elem_of_seq Hx. unfold l in Hx. rewrite lookup_app_l in Hx by lia. by apply list_elem_of_lookup_2 in Hx. }
  cbn [seq drop_stamp Nat.add]. rewrite bool_decide_eq_true_2 by (unfold l; by rewrite list_lookup_middle).
  rewrite (proj2 (Nat.ltb_ge _ _)) by lia. rewrite (take_ge l (length a + S (length b))) by lia.
  assert (take (length a) l = a) as -> by apply take_app_length.
  assert (drop (S (length a)) l = b) as ->.
  { unfold l. change (x :: b) with ([x] ++ b). rewrite app_assoc. apply drop_app_length'. rewrite length_app. cbn. lia. }
  rewrite drop_stamp_none.
  - do 2 eexists. split; [done|]. rewrite app_assoc. apply take_app_length'. rewrite length_app. lia.
  - intros i Hi%elem_of_seq Hx. rewrite lookup_app_r in Hx by lia.
    destruct (decide (i - length a < length b)%nat).
    + rewrite lookup_app_l in Hx by done. by apply list_elem_of_lookup_2 in Hx.
    + rewrite lookup_app_r, lookup_drop in Hx by lia. unfold l in Hx. rewrite lookup_app_r in Hx by lia.
      destruct b as [|y b]; [cbn in *; lia|]. replace (_ - length a)%nat with (S (length b)) in Hx by (cbn in *; lia).
      cbn in Hx. apply list_elem_of_lookup_2 in Hx. done.
Qed.

Record subs_ok s : Prop := {
  sk_live id : is_Some (sb_polls s !! id) ↔ is_Some (sb_lastPoll s !! id);
  sk_listed id h : sb_lastPoll s !! id = Some h → id ∈ stamps h s ∧ 0 <= h;
  sk_nodup h : NoDup (stamps h s);
  sk_once id h : id ∈ stamps h s → sb_lastPoll s !! id = Some h ∨ sb_lastPoll s !! id = None;
  sk_prune : sb_lastPrune s = 0;
}.

(** An id that was never drawn. *)
Definition fresh_id (id : string) s : Prop := sb_polls s !! id = None ∧ ∀ h, id ∉ stamps h s.

Definition live s (id : string) : Prop := is_Some (sb_polls s !! id).
Definition last_polled s (id : string) : Z := default 0 (sb_lastPoll s !! id).

Lemma new_subs_ok : subs_ok (NewEthSubscriptions (P := P)).
Proof.
  constructor.
  - intros id. cbn. rewrite !lookup_empty. split; by intros [].
  - intros id h. cbn. by rewrite lookup_empty.
  - intros h. unfold stamps. cbn. rewrite lookup_empty. constructor.
  - intros id h. unfold stamps. cbn. rewrite lookup_empty. by intros ?%elem_of_nil.
  - done.
Qed.

Lemma foldl_Remove ids s :
  let s' := foldl (λ s id, Remove id s) s ids in
  (∀ id, sb_polls s' !! id = if decide (id ∈ ids) then None else sb_polls s !! id) ∧
  (∀ id, sb_lastPoll s' !! id = if decide (id ∈ ids) then None else sb_lastPoll s !! id) ∧
  sb_timestamps s' = sb_timestamps s ∧ sb_lastPrune s' = sb_lastPrune s.
Proof.
  revert s. induction ids as [|x ids IH]; intros s; cbn; [done|]. destruct (IH (Remove x s)) as (H1 & H2 & H3 & H4).
  split_and!; [intros id; rewrite H1 | intros id; rewrite H2 | by rewrite H3 | by rewrite H4];
    cbn; rewrite lookup_delete; repeat case_decide; set_solver.
Qed.

Lemma prune_height_spec h s :
  subs_ok s → subs_ok (prune_height s h) ∧
  (∀ id, sb_polls (prune_height s h) !! id = if bool_decide (sb_lastPoll s !! id = Some h) then None else sb_polls s !! id) ∧
  (∀ id, sb_lastPoll (prune_height s h) !! id = if bool_decide (sb_lastPoll s !! id = Some h) then None else sb_lastPoll s !! id).
Proof.
  intros [Hl Hs Hn Ho Hp]. unfold prune_height. destruct (foldl_Remove (stamps h s) s) as (H1 & H2 & H3 & H4).
  set (s1 := foldl _ s (stamps h s)) in *.
  assert (∀ id, sb_polls s1 !! id = if bool_decide (sb_lastPoll s !! id = Some h) then None else sb_polls s !! id) as Q1.
  { intros id. rewrite H1. case_decide as Hin; case_bool_decide as Hb; try done.
    - destruct (Ho id h Hin) as [|Hnone]; [done|]. symmetry. apply eq_None_not_Some. intros Hlive%Hl. rewrite Hnone in Hlive. by destruct Hlive.
    - by destruct (Hs id h Hb). }
  assert (∀ id, sb_lastPoll s1 !! id = if bool_decide (sb_lastPoll s !! id = Some h) then None else sb_lastPoll s !! id) as Q2.
  { intros id. rewrite H2. case_decide as Hin; case_bool_decide as Hb; try done.
    - destruct (Ho id h Hin) as [|Hnone]; done.
    - by destruct (Hs id h Hb). }
  assert (∀ h', stamps h' (mkSubs (sb_polls s1) (sb_lastPoll s1) (delete h (sb_timestamps s1)) (sb_lastPrune s1)) =
    if decide (h' = h) then [] else stamps h' s) as Q3.
  { intros h'. unfold stamps. cbn. rewrite H3, lookup_delete. repeat case_decide; try done; congruence. }
  split; [|done]. constructor.
  - intros id. cbn. rewrite Q1, Q2. case_bool_decide; [split; by intros [] | apply Hl].
  - intros id h'. cbn [sb_lastPoll]. rewrite Q2, Q3. case_bool_decide as Hb; [done|]. intros Hx. rewrite decide_False by congruence. by apply Hs.
  - intros h'. rewrite Q3. case_decide; [constructor | apply Hn].
  - intros id h'. rewrite Q3. cbn [sb_lastPoll]. rewrite Q2. case_decide; [by intros ?%elem_of_nil|]. intros Hin.
    case_bool_decide; [by right | by apply Ho].
  - cbn. by rewrite H4.
Qed.

(** Whether a filter was last polled at one of the heights. *)
Definition stale (hs : list Z) (last : option Z) : bool := match last with Some h => bool_decide (h ∈ hs) | None => false end.

Lemma prune_heights_spec hs s :
  subs_ok s → let s' := foldl prune_height s hs in subs_ok s' ∧
  (∀ id, sb_polls s' !! id = if stale hs (sb_lastPoll s !! id) then None else sb_polls s !! id) ∧
  (∀ id, sb_lastPoll s' !! id = if stale hs (sb_lastPoll s !! id) then None else sb_lastPoll s !! id).
Proof.
  revert s. induction hs as [|h hs IH]; intros s Hs; cbn.
  - split; [done|]. assert (∀ o, stale [] o = false) as Hn by (by intros []). split; intros id; by rewrite Hn.
  - destruct (prune_height_spec h s Hs) as (H0 & H1 & H2). destruct (IH _ H0) as (I0 & I1 & I2). split; [done|].
    assert (∀ o, stale (h :: hs) o = bool_decide (o = Some h) || stale hs o) as Hst.
    { intros [x|]; cbn; [|done]. repeat case_bool_decide; try done; set_solver. }
    split; intros id; rewrite ?I1, ?I2, ?H1, ?H2, Hst; case_bool_decide; done.
Qed.

Lemma heights_elem from to h : h ∈ heights from to ↔ from <= h <= to.
Proof.
  unfold heights. rewrite list_elem_of_fmap. split.
  - intros (i & -> & Hi%elem_of_seq). lia.
  - intros H. exists (Z.to_nat (h - from)). rewrite elem_of_seq. lia.
Qed.

(** A filter is dropped by an installation at [height] when it was last polled more than
    [BlockTimeout] blocks before. *)
Definition expired (height : Z) (last : option Z) : bool :=
  match last with Some h => (BlockTimeout <? height) && (h <? height - BlockTimeout) | None => false end.

Lemma prune_spec height s :
  subs_ok s → 0 <= height < 2 ^ 64 → subs_ok (pruneSubs height s) ∧
  (∀ id, sb_polls (pruneSubs height s) !! id = if expired height (sb_lastPoll s !! id) then None else sb_polls s !! id) ∧
  (∀ id, sb_lastPoll (pruneSubs height s) !! id = if expired height (sb_lastPoll s !! id) then None else sb_lastPoll s !! id).
Proof.
  intros Hs Hh. unfold pruneSubs, expired. destruct (Z.ltb_spec BlockTimeout height) as [Hlt|Hge].
  - rewrite (sk_prune _ Hs), u64_small by (unfold BlockTimeout in *; lia).
    destruct (prune_heights_spec (heights 0 (height - BlockTimeout - 1)) s Hs) as (H0 & H1 & H2). split; [done|].
    assert (∀ id, stale (heights 0 (height - BlockTimeout - 1)) (sb_lastPoll s !! id) =
      match sb_lastPoll s !! id with Some h => true && (h <? height - BlockTimeout) | None => false end) as Hst.
    { intros id. destruct (sb_lastPoll s !! id) as [h|] eqn:E; [|done]. destruct (sk_listed _ Hs id h E) as [_ Hnn]. cbn.
      destruct (Z.ltb_spec h (height - BlockTimeout)).
      - apply bool_decide_eq_true. apply heights_elem. lia.
      - apply bool_decide_eq_false. rewrite heights_elem. lia. }
    split; intros id; rewrite ?H1, ?H2, Hst; done.
  - split; [done|]. split; intros id; by destruct (sb_lastPoll s !! id).
Qed.

Lemma stamps_put id height s h : stamps h (put_stamp id height s) = if decide (h = height) then stamps height s ++ [id] else stamps h s.
Proof. unfold stamps at 1, put_stamp. cbn. rewrite lookup_insert. repeat case_decide; try done; congruence. Qed.

(** Everything but the filter [x] is in order, and [x] has no time stamp. *)
Record subs_ok_but (x : string) s : Prop := {
  bk_live id : id ≠ x → is_Some (sb_polls s !! id) ↔ is_Some (sb_lastPoll s !! id);
  bk_listed id h : id ≠ x → sb_lastPoll s !! id = Some h → id ∈ stamps h s ∧ 0 <= h;
  bk_nodup h : NoDup (stamps h s);
  bk_once id h : id ∈ stamps h s → id ≠ x ∧ (sb_lastPoll s !! id = Some h ∨ sb_lastPoll s !! id = None);
  bk_prune : sb_lastPrune s = 0;
}.

Lemma put_stamp_ok x height s :
  subs_ok_but x s → is_Some (sb_polls s !! x) → 0 <= height → subs_ok (put_stamp x height s).
Proof.
  intros [Hl Hs Hn Ho Hp] Hx Hh. constructor.
  - intros id. cbn. rewrite lookup_insert. case_decide as Heq; [subst; split; [by eexists | done] | apply Hl; congruence].
  - intros id h. rewrite stamps_put. cbn [sb_lastPoll put_stamp]. rewrite lookup_insert. case_decide as Heq.
    + intros [= <-]. rewrite decide_True by done. split; [set_solver | done].
    + intros Hlast. destruct (Hs id h) as [Hin Hnn]; [congruence | done |]. split; [|done]. case_decide; set_solver.
  - intros h. rewrite stamps_put. case_decide; [|apply Hn]. apply NoDup_app. split_and!; [apply Hn | | apply NoDup_singleton].
    intros id Hin ?%list_elem_of_singleton. subst. by destruct (Ho _ _ Hin).
  - intros id h. rewrite stamps_put. cbn [sb_lastPoll put_stamp]. rewrite lookup_insert. case_decide as Heq.
    + subst. rewrite elem_of_app. intros [Hin|Hin%list_elem_of_singleton].
      * destruct (Ho _ _ Hin) as [Hne Hor]. by rewrite decide_False by congruence.
      * subst. rewrite decide_True by done. by left.
    + intros Hin. destruct (Ho _ _ Hin) as [Hne Hor]. by rewrite decide_False by congruence.
  - done.
Qed.

Lemma add_ok id poll height s :
  subs_ok s → fresh_id id s → 0 <= height < 2 ^ 64 → subs_ok (Add id poll height s) ∧
  (∀ x, sb_polls (Add id poll height s) !! x =
     if decide (x = id) then Some poll else if expired height (sb_lastPoll s !! x) then None else sb_polls s !! x).
Proof.
  intros Hs [Hf1 Hf2] Hh. unfold Add. set (s1 := mkSubs (<[id := poll]> (sb_polls s)) _ _ _).
  assert (subs_ok_but id s1) as Hb.
  { destruct Hs as [Hl Hli Hn Ho Hp]. constructor; try done.
    - intros x Hx. cbn. rewrite lookup_insert_ne by done. apply Hl.
    - intros x h Hx. cbn. apply Hli.
    - intros x h Hin. split; [by intros ->; apply (Hf2 h) | by apply Ho]. }
  assert (is_Some (sb_polls s1 !! id)) as Hi by (cbn; rewrite lookup_insert_eq; by eexists).
  pose proof (put_stamp_ok id height s1 Hb Hi ltac:(lia)) as H1. destruct (prune_spec height _ H1 Hh) as (H0 & H2 & _).
  split; [done|]. intros x. rewrite H2. cbn [sb_polls sb_lastPoll put_stamp s1]. rewrite !lookup_insert.
  destruct (decide (id = x)) as [->|Hne].
  - rewrite decide_True by done. unfold expired. destruct (Z.ltb_spec height (height - BlockTimeout)); [unfold BlockTimeout in *; lia|].
    by rewrite andb_false_r.
  - by rewrite (decide_False (P := x = id)) by congruence.
Qed.

Lemma remove_ok id s : subs_ok s → subs_ok (Remove id s).
Proof.
  intros [Hl Hli Hn Ho Hp]. constructor; try done.
  - intros x. cbn. rewrite !lookup_delete. case_decide; [split; by intros [] | apply Hl].
  - intros x h. cbn [sb_lastPoll Remove]. rewrite lookup_delete. case_decide; [done|]. apply Hli.
  - intros x h Hin. cbn [sb_lastPoll Remove]. rewrite lookup_delete. case_decide; [by right | by apply Ho].
Qed.

(** Polling a live filter: it takes its time stamp with it. *)
Lemma reset_ok id height s :
  subs_ok s → is_Some (sb_polls s !! id) → 0 <= height →
  ∃ s', resetTimestamp id height s = Ok s' ∧ subs_ok s' ∧ sb_polls s' = sb_polls s ∧ sb_lastPoll s' = <[id := height]> (sb_lastPoll s).
Proof.
  intros Hs Hlive Hh. pose proof Hs as [Hl Hli Hn Ho Hp]. destruct (proj1 (Hl id) Hlive) as [lp Hlp].
  destruct (Hli id lp Hlp) as [Hin _]. unfold resetTimestamp. rewrite Hlp. change (default 0 (Some lp)) with lp. cbv zeta.
  pose proof Hin as (a & b & Hab)%list_elem_of_split. pose proof (Hn lp) as Hnd. rewrite Hab in Hnd.
  apply NoDup_app in Hnd as (_ & Hda & [Hnb _]%NoDup_cons).
  assert (id ∉ a) as Hna by (intros Hia; apply (Hda id Hia); set_solver).
  destruct (drop_stamp_once id a b Hna Hnb) as (arr & m & Hdrop & Htake). rewrite Hab, Hdrop. cbn [mbind Res_bind].
  rewrite bool_decide_eq_true_2 by set_solver. rewrite Htake. eexists. split; [done|]. split; [|done].
  apply put_stamp_ok; [|done|done].
  assert (∀ h, stamps h (mkSubs (sb_polls s) (sb_lastPoll s) (<[lp := a ++ b]> (sb_timestamps s)) (sb_lastPrune s)) =
    if decide (h = lp) then a ++ b else stamps h s) as Hst.
  { intros h. unfold stamps. cbn. rewrite lookup_insert. repeat case_decide; try done; congruence. }
  constructor; try done.
  - intros x h Hx Hlast. rewrite Hst. cbn in Hlast. destruct (Hli x h Hlast) as [Hix Hnn]. split; [|done].
    case_decide; [|done]. subst h. rewrite Hab in Hix. set_solver.
  - intros h. rewrite Hst. case_decide; [|apply Hn]. subst. pose proof (Hn lp) as Hnd. rewrite Hab in Hnd.
    apply NoDup_app in Hnd as (? & Hd & [_ ?]%NoDup_cons). apply NoDup_app. split_and!; try done. set_solver.
  - intros x h. rewrite Hst. cbn [sb_lastPoll]. case_decide as Heq.
    + subst h. intros Hix. split; [by intros ->; apply elem_of_app in Hix as [|] |]. apply Ho. rewrite Hab. set_solver.
    + intros Hix. split; [|by apply Ho]. intros ->. destruct (Ho id h Hix); congruence.
Qed.

Lemma poll_ok {A} (poll : P → P * Res A) id height s :
  subs_ok s → 0 <= height →
  let s' := (Subs_Poll poll id height s).2 in
  subs_ok s' ∧ (∀ x, is_Some (sb_polls s' !! x) ↔ is_Some (sb_polls s !! x)).
Proof.
  intros Hs Hh. unfold Subs_Poll. m_eval. destruct (sb_polls s !! id) as [p|] eqn:E; [|done].
  destruct (poll p) as [p' r]. destruct r as [a|e|]; [| |done].
  all: m_eval; set (s1 := mkSubs (<[id := p']> (sb_polls s)) _ _ _);
    assert (subs_ok s1) as Hs1 by (destruct Hs as [Hl Hli Hn Ho Hp]; constructor; try done;
      intros x; cbn; rewrite lookup_insert; case_decide as Heq; [subst; rewrite <- Hl, E; split; by eexists | apply Hl]);
    destruct (reset_ok id height s1 Hs1) as (s2 & Hr & Hok & Hpolls & _); [cbn; rewrite lookup_insert_eq; by eexists | done |];
    rewrite Hr; cbn; split; [done|]; intros x; rewrite Hpolls; cbn; rewrite lookup_insert; case_decide as Heq; [|done];
    subst; rewrite E; split; by eexists.
Qed.
(** What clients do with their filters; ids are drawn once. *)
Inductive subs_step : EthSubscriptions P → EthSubscriptions P → Prop :=
  | step_add id poll height s : fresh_id id s → 0 <= height < 2 ^ 64 → subs_step s (Add id poll height s)
  | step_poll A (poll : P → P * Res A) id height s : 0 <= height → subs_step s (Subs_Poll poll id height s).2
  | step_remove id s : subs_step s (Remove id s).

Lemma reachable_subs_ok s : rtc subs_step NewEthSubscriptions s → subs_ok s.
Proof.
  assert (∀ a b, rtc subs_step a b → subs_ok a → subs_ok b) as H.
  { induction 1 as [|a b c Hab _ IH]; [done|]. intros Ha. apply IH. destruct Hab as [id poll h s' Hf Hh|A poll id h s' Hh|id s'].
    - by apply add_ok.
    - by apply poll_ok.
    - by apply remove_ok. }
  intros Hr. by apply (H _ _ Hr), new_subs_ok.
Qed.

(** Installed filters live as long as they are polled: whatever clients did before,
    installing a filter at [height] keeps it and exactly those other filters that were
    installed or last polled no more than [BlockTimeout] blocks before; polling a live
    filter finds it and renews its time, and does not drop any filter. *)
Theorem filters_live_while_polled s id poll height :
  rtc subs_step NewEthSubscriptions s → fresh_id id s → 0 <= height < 2 ^ 64 →
  (∀ x, live (Add id poll height s) x ↔
     x = id ∨ live s x ∧ (height <= BlockTimeout ∨ height - BlockTimeout <= last_polled s x)) ∧
  (∀ A (p : P → P * Res A) x, live s x →
     let s' := (Subs_Poll p x height s).2 in (∀ y, live s' y ↔ live s y) ∧ (∀ q, sb_polls s !! x = Some q → (p q).2 ≠ Panic → last_polled s' x = height)).
Proof.
  intros Hr Hf Hh. pose proof (reachable_subs_ok s Hr) as Hs. split.
  - intros x. unfold live, last_polled. destruct (add_ok id poll height s Hs Hf Hh) as [_ ->].
    destruct (decide (x = id)) as [->|Hne]; [split; [by left | intros _; by eexists]|].
    pose proof (sk_live _ Hs x) as Hl. unfold expired. destruct (sb_lastPoll s !! x) as [h|] eqn:E; cbn.
    + destruct (Z.ltb_spec BlockTimeout height), (Z.ltb_spec h (height - BlockTimeout)); cbn; split; try (intros Hx; right; split; [done | lia]);
        try (by intros []); intros [?|[Hx ?]]; done || lia.
    + split; [|intros [?|[? _]]; done]. intros Hx%Hl. by destruct Hx.
  - intros A p x Hx s'. split; [intros y; apply (poll_ok p x height s Hs); lia|]. intros q Hq Hnp. unfold s', Subs_Poll. m_eval. rewrite Hq.
    destruct (p q) as [q' r]. cbn in Hnp. destruct r as [a|e|]; [| |done].
    all: m_eval; set (s1 := mkSubs (<[x := q']> (sb_polls s)) _ _ _);
      assert (subs_ok s1) as Hs1 by (destruct Hs as [Hl Hli Hn Ho Hp]; constructor; try done;
        intros y; cbn; rewrite lookup_insert; case_decide as Heq; [subst; rewrite <- Hl, Hq; split; by eexists | apply Hl]);
      destruct (reset_ok x height s1 Hs1) as (s2 & Hre & _ & _ & Hlast); [cbn; rewrite lookup_insert_eq; by eexists | lia |];
      rewrite Hre; unfold last_polled; cbn; by rewrite Hlast, lookup_insert_eq.
Qed.
End Subs.

(** ** Polls *)

Section Polls.
Context {LIB : DiademLib} {RL : ReceiptLib} {T : Type} {KV : KVStore T}.
Context (blockTime : Z → Res Z) (getReceipt : T → bytes → Res EvmTxReceipt) (blockRange : Z → Z → Res (list (bytes * Z))).

(** The transactions of the blocks in a range. *)
Definition txs_between (txs : Z → list bytes) (from to : Z) : list bytes := mjoin (txs <$> heights from to).

Lemma heights_split from mid to : from <= mid + 1 → mid <= to → heights from to = heights from mid ++ heights (mid + 1) to.
Proof.
  intros H1 H2. unfold heights. replace (Z.to_nat (to - from + 1)) with (Z.to_nat (mid - from + 1) + Z.to_nat (to - (mid + 1) + 1))%nat by lia.
  rewrite seq_app, fmap_app. f_equal. apply list_eq. intros i. rewrite !list_lookup_fmap.
  destruct (decide (i < Z.to_nat (to - (mid + 1) + 1))%nat).
  - rewrite !lookup_seq_lt by lia. cbn. f_equal. lia.
  - by rewrite !lookup_seq_ge by lia.
Qed.

Lemma heights_empty from to : to < from → heights from to = [].
Proof. intros H. unfold heights. by replace (Z.to_nat (to - from + 1)) with O by lia. Qed.

Lemma heights_last from to : from <= to → last (heights from to) = Some to.
Proof.
  intros H. unfold heights. replace (Z.to_nat (to - from + 1)) with (S (Z.to_nat (to - from))) by lia.
  rewrite seq_S, fmap_app. cbn. rewrite last_snoc. f_equal. lia.
Qed.

Lemma tx_hashes_run state txs hs acc :
  (∀ h, h ∈ hs → GetTxHashList state h = Ok (txs h)) →
  tx_hashes_of state hs acc = Ok (default acc.1 (last hs), acc.2 ++ mjoin (txs <$> hs)).
Proof.
  revert acc. induction hs as [|h hs IH]; intros [l r] H; [cbn; by rewrite app_nil_r|]. cbn [tx_hashes_of].
  rewrite (H h) by set_solver. rewrite IH by set_solver. cbn [fst snd]. rewrite last_cons.
  cbn. rewrite <- app_assoc. by destruct (last hs).
Qed.

Definition poll_hashes (r : Res PollResult) : list bytes := match r with Ok (HashResult l) => l | _ => [] end.

Lemma tx_poll_run last state txs start read :
  0 <= read < 2 ^ 63 → 0 <= last < 2 ^ 63 → (∀ h, read < h < last → GetTxHashList state h = Ok (txs h)) →
  ∃ r, Poll_Poll blockTime getReceipt blockRange last state (EthTxPoll start read) = (EthTxPoll start (Z.max read (last - 1)), r) ∧
    r ≠ Panic ∧ poll_hashes r = txs_between txs (read + 1) (last - 1).
Proof.
  intros Hr Hl Htx. unfold Poll_Poll, TxPoll_Poll. rewrite !u64_small by lia. destruct (Z.ltb_spec last (read + 1)).
  - eexists. split; [by rewrite Z.max_l by lia|]. split; [done|]. unfold txs_between. by rewrite heights_empty by lia.
  - unfold getTxHashes. rewrite !u64_small by lia. rewrite (tx_hashes_run state txs).
    2: { intros h Hh%heights_elem. apply Htx. lia. }
    cbn [fst snd]. exists (Ok (HashResult (txs_between txs (read + 1) (last - 1)))). split; [|done]. do 2 f_equal. destruct (decide (read + 1 <= last - 1)).
    + rewrite heights_last by lia. cbn. lia.
    + rewrite heights_empty by lia. cbn. lia.
Qed.

(** A client polls at growing heights; the state at each poll has the transactions of all
    blocks before. *)
Fixpoint poll_many (polls : list (Z * T)) (p : EthPoll) : EthPoll * list bytes :=
  match polls with
  | [] => (p, [])
  | (last, state) :: polls =>
      let '(p', r) := Poll_Poll blockTime getReceipt blockRange last state p in
      let '(q, l) := poll_many polls p' in
      (q, poll_hashes r ++ l)
  end.

Lemma poll_many_run txs polls start read top :
  0 <= read < 2 ^ 63 → Forall (λ ls, 0 <= ls.1 < 2 ^ 63 ∧ ls.1 <= top ∧ ∀ h, 0 < h < ls.1 → GetTxHashList ls.2 h = Ok (txs h)) polls →
  let read' := foldl (λ r ls, Z.max r (ls.1 - 1)) read polls in
  poll_many polls (EthTxPoll start read) = (EthTxPoll start read', txs_between txs (read + 1) read').
Proof.
  revert read. induction polls as [|[last state] polls IH]; intros read Hr Hall; cbn [poll_many foldl fst snd].
  - unfold txs_between. by rewrite heights_empty by lia.
  - apply Forall_cons in Hall as [(Hl & Ht & Htx) Hall]. cbn [fst snd] in *.
    destruct (tx_poll_run last state txs start read Hr Hl) as (r & -> & _ & Hres); [intros h Hh; apply Htx; lia|].
    rewrite IH by (done || lia). f_equal. rewrite Hres. set (read' := foldl _ _ polls).
    assert (Z.max read (last - 1) <= read') as Hge.
    { unfold read'. clear. revert read last. induction polls as [|q polls IH]; intros read last; cbn; [lia|].
      specialize (IH (Z.max read (last - 1)) q.1). lia. }
    unfold txs_between. destruct (Z.le_gt_cases read (last - 1)).
    + rewrite (heights_split (read + 1) (last - 1) read') by lia. rewrite fmap_app, join_app.
      by replace (Z.max read (last - 1)) with (last - 1) by lia.
    + rewrite (heights_empty (read + 1) (last - 1)) by lia. cbn. by replace (Z.max read (last - 1)) with read by lia.
Qed.

(** C34. A filter on transactions reports every transaction once: whenever and however
    often a client polls, at heights in any order, the results together are the transactions
    of the blocks from the one after the installation up to the last block before the highest
    poll, in order.  Every state that is polled has the transaction hashes of the blocks
    below the height of the poll, and heights are below 2^63. *)
Theorem tx_polls_report_once txs polls start :
  0 <= start < 2 ^ 63 →
  Forall (λ ls, 0 <= ls.1 < 2 ^ 63 ∧ ∀ h, 0 < h < ls.1 → GetTxHashList ls.2 h = Ok (txs h)) polls →
  (poll_many polls (NewEthTxPoll start)).2 = txs_between txs (start + 1) (foldl (λ r ls, Z.max r (ls.1 - 1)) start polls).
Proof.
  intros Hs Hall. unfold NewEthTxPoll. rewrite (poll_many_run txs polls start start (2 ^ 63)); [done | done |].
  eapply Forall_impl; [exact Hall|]. intros ls (H1 & H2). split_and!; [lia | lia | lia | done].
Qed.

(** The legacy poll counts the block of the poll as read although it stops before it: a
    transaction of that block is never reported. *)
Lemma legacy_tx_poll_skips_a_block last state txs start read :
  0 <= read → read + 1 <= last < 2 ^ 62 → (∀ h, read < h < last → GetTxHashList state h = Ok (txs h)) →
  ∃ r, Poll_LegacyPoll blockTime getReceipt blockRange last state (EthTxPoll start read) = (EthTxPoll start last, r) ∧
    poll_hashes r = txs_between txs (read + 1) (last - 1).
Proof.
  intros Hr Hl Htx. unfold Poll_LegacyPoll, TxPoll_LegacyPoll. rewrite !u64_small by lia. destruct (Z.ltb_spec last (read + 1)); [lia|].
  unfold getTxHashes. rewrite !u64_small by lia. rewrite (tx_hashes_run state txs).
  - eexists. split; [done|]. done.
  - intros h Hh%heights_elem. apply Htx. lia.
Qed.
End Polls.

(** ** Log queries *)

Section Queries.
Context {LIB : DiademLib} {LS : DiademLibSpec} {RL : ReceiptLib} {RLS : ReceiptLibSpec}.
Context {T E : Type} {KV : KVStore T} {KVS : KVStoreSpec T}.
Context (blockTime : Z → Res Z).
Implicit Types (rs : list EvmTxReceipt) (filter : EthFilter).
Abbreviation W := (TxWorld T (REnv E)).

(** The reference: looking at every log of every receipt. *)
Fixpoint scan filter rs : Res (list EthFilterLog) :=
  match rs with
  | [] => Ok []
  | r :: rs =>
      logs ← getTxHashLogs blockTime r filter (tr_TxHash r);
      rest ← scan filter rs;
      Ok (logs ++ rest)
  end.

(** A log that matches passes every bloom filter of a block it is in. *)
Lemma bloom_passes filter logs f e :
  GenBdiademFilter logs = Ok f → e ∈ logs → MatchEthFilter filter e = Ok true → MatchBdiademFilter filter f = true.
Proof.
  intros Hf He Hm. pose proof (gen_filter_addressed _ _ Hf) as Ha. destruct (all_keys_ok logs Ha) as (ks & Hks & Hin).
  destruct (Hin e He) as (a & Hea & Hla & Ht). destruct logs as [|e0 logs]; [by apply elem_of_nil in He|].
  unfold GenBdiademFilter in Hf. rewrite Hks in Hf. injection Hf as <-.
  unfold MatchEthFilter in Hm. destruct (Nat.ltb_spec (length (ev_Topics e)) (length (ft_Topics filter))); [done|].
  unfold match_address in Hm. unfold MatchBdiademFilter. apply andb_true_iff. split.
  - destruct (ft_Addresses filter) as [|x xs]; [done|]. rewrite Hea in Hm. cbn -[existsb] in Hm.
    destruct (existsb _ (x :: xs)) eqn:Hex; [|done]. apply existsb_exists in Hex as (y & Hy & Hc%cmp_eqb); [|apply _].
    apply existsb_exists. exists y. split; [done|]. subst. by apply bloom_complete.
  - assert (match_topics filter (ev_Topics e) = true) as Hmt.
    { destruct (ft_Addresses filter); [by injection Hm|]. rewrite Hea in Hm. cbn -[existsb] in Hm. destruct (existsb _ _); [by injection Hm | done]. }
    unfold match_topics in Hmt. rewrite forallb_forall in Hmt. apply forallb_forall. intros ts [i Hi]%list_elem_of_In%list_elem_of_lookup.
    destruct ts as [|t0 ts]; [done|]. destruct (lookup_lt_is_Some_2 (ev_Topics e) i) as [u Hu].
    { apply lookup_lt_Some in Hi. lia. }
    specialize (Hmt (t0 :: ts, u)). cbn -[existsb] in Hmt. assert (existsb (λ t, String.eqb t u) (t0 :: ts) = true) as Hex.
    { apply Hmt. apply list_elem_of_In. apply list_elem_of_lookup. exists i. apply lookup_zip_with_Some. by exists (t0 :: ts), u. }
    apply existsb_exists in Hex as (v & Hv & ->%String.eqb_eq). apply existsb_exists. exists u. split; [done|].
    apply bloom_complete, Ht. by eapply list_elem_of_lookup_2.
Qed.

Lemma match_total filter e : is_Some (ev_Address e) → ∃ b, MatchEthFilter filter e = Ok b.
Proof.
  intros [a Ha]. unfold MatchEthFilter, match_address. rewrite Ha. repeat case_match; try (by eexists); cbn; case_match; by eexists.
Qed.

Lemma no_match_logs filter r ts h i logs :
  (∀ e, e ∈ logs → MatchEthFilter filter e = Ok false) → match_logs ts r filter h i logs = Ok [].
Proof.
  revert i. induction logs as [|e logs IH]; intros i H; [done|]. cbn [match_logs]. rewrite H by set_solver. cbn [mbind Res_bind].
  rewrite IH by set_solver. done.
Qed.

Lemma scan_no_match filter rs :
  (∀ r, r ∈ rs → is_ok (blockTime (tr_BlockNumber r)) = true) →
  (∀ e, e ∈ mjoin (tr_Logs <$> rs) → MatchEthFilter filter e = Ok false) → scan filter rs = Ok [].
Proof.
  induction rs as [|r rs IH]; intros Ht Hm; [done|]. cbn [scan].
  assert (getTxHashLogs blockTime r filter (tr_TxHash r) = Ok []) as ->.
  { unfold getTxHashLogs. pose proof (Ht r ltac:(set_solver)) as Htr. destruct (tr_Logs r) as [|e es] eqn:El; [done|].
    destruct (blockTime (tr_BlockNumber r)); [|done|done]. apply no_match_logs. intros e' He'. apply Hm. cbn. rewrite El. set_solver. }
  cbn [mbind Res_bind]. rewrite IH; [done | intros; apply Ht; set_solver | intros; apply Hm; cbn; set_solver].
Qed.

Lemma scan_total filter rs :
  (∀ r, r ∈ rs → is_ok (blockTime (tr_BlockNumber r)) = true) → addressed rs → ∃ l, scan filter rs = Ok l.
Proof.
  induction rs as [|r rs IH]; intros Ht Ha; [by eexists|]. change (r :: rs) with ([r] ++ rs) in Ha. apply addressed_app in Ha as [Ha1 Ha2].
  destruct IH as (l & Hl); [intros; apply Ht; set_solver | done |]. cbn [scan]. rewrite Hl.
  assert (∃ k, getTxHashLogs blockTime r filter (tr_TxHash r) = Ok k) as (k & ->); [|by eexists].
  unfold getTxHashLogs. pose proof (Ht r ltac:(set_solver)) as Htr. unfold addressed in Ha1. cbn in Ha1. rewrite app_nil_r in Ha1.
  destruct (tr_Logs r) as [|e es]; [by eexists|]. destruct (blockTime _) as [ts|?|]; [|done|done].
  generalize 0. induction Ha1 as [|e' es' [a Hea] _ IHl]; intros i; [by eexists|]. cbn [match_logs].
  destruct (match_total filter e' ltac:(by eexists)) as (b & ->). cbn [mbind Res_bind]. destruct (IHl (i + 1)) as (k & ->). cbn [mbind Res_bind].
  unfold filter_log. rewrite Hea. destruct b; by eexists.
Qed.

Lemma logs_of_hashes_scan read filter rs l :
  (∀ r, r ∈ rs → read (tr_TxHash r) = Ok r) → scan filter rs = Ok l → logs_of_hashes blockTime read filter (tr_TxHash <$> rs) = Ok l.
Proof.
  revert l. induction rs as [|r rs IH]; intros l Hr; [done|]. cbn [scan fmap list_fmap logs_of_hashes]. rewrite Hr by set_solver. cbn [mbind Res_bind].
  destruct (getTxHashLogs blockTime r filter (tr_TxHash r)) as [k|?|]; [|done|done]. cbn [mbind Res_bind].
  destruct (scan filter rs) as [k'|?|]; [|done|done]. cbn [mbind Res_bind]. intros [= <-]. by rewrite (IH k') by set_solver.
Qed.

Lemma block_logs_scan read (s : T) filter height rs found f :
  GetBdiademFilter s height = Some f → GenBdiademFilter (mjoin (tr_Logs <$> rs)) = Ok f →
  GetTxHashList s height = Ok (tr_TxHash <$> found) → found ⊆ rs → (∀ r, r ∈ found → read s (tr_TxHash r) = Ok r) →
  (∀ r, r ∈ found → is_ok (blockTime (tr_BlockNumber r)) = true) →
  ∃ l, scan filter found = Ok l ∧ GetBlockLogs blockTime read s filter height = Ok l.
Proof.
  intros Hf Hg Hh Hsub Hr Ht. pose proof (gen_filter_addressed _ _ Hg) as Ha.
  assert (∀ e, e ∈ mjoin (tr_Logs <$> found) → e ∈ mjoin (tr_Logs <$> rs)) as Hlogs.
  { intros e (l & He & (r & -> & Hin)%list_elem_of_fmap)%list_elem_of_join. apply list_elem_of_join. exists (tr_Logs r). split; [done|].
    apply list_elem_of_fmap_2. by apply Hsub. }
  assert (addressed found) as Haf.
  { unfold addressed. apply Forall_forall. intros e He. rewrite Forall_forall in Ha. by apply Ha, Hlogs. }
  destruct (scan_total filter found Ht Haf) as (l & Hl). exists l. split; [done|].
  unfold GetBlockLogs. rewrite Hf. destruct (no_bytes f) eqn:Hn.
  - apply no_bytes_true in Hn as ->. assert (mjoin (tr_Logs <$> rs) = []) as Hnil.
    { destruct (mjoin (tr_Logs <$> rs)) as [|e es] eqn:El; [done|]. exfalso. destruct (all_keys_ok _ Ha) as (ks & Hks & _).
      unfold GenBdiademFilter in Hg. rewrite Hks in Hg. injection Hg as Hg. by apply (bloom_nonempty ks). }
    rewrite scan_no_match in Hl; [congruence | done |]. intros e He%Hlogs. rewrite Hnil in He. by apply elem_of_nil in He.
  - destruct (MatchBdiademFilter filter f) eqn:Hm.
    + rewrite Hh. cbn [mbind Res_bind]. by apply logs_of_hashes_scan.
    + rewrite scan_no_match in Hl; [congruence | done |]. intros e He%Hlogs. rewrite Forall_forall in Ha.
      destruct (match_total filter e (Ha e He)) as ([] & Hb); [|done]. by rewrite (bloom_passes filter _ f e Hg He Hb) in Hm.
Qed.
(** The receipts whose hashes a block lists: the database lists the successful ones. *)
Definition listed (v : Z) rs : list EvmTxReceipt :=
  if v =? ReceiptHandlerChain then rs else List.filter (λ t, tr_Status t =? StatusTxSuccess) rs.

Lemma listed_sub v rs : listed v rs ⊆ rs.
Proof. unfold listed. case_match; [done|]. intros r Hr%list_elem_of_In. apply filter_In in Hr as [Hr _]. by apply list_elem_of_In. Qed.

Lemma keep_last_new n qs rs r : (length rs <= n)%nat → r ∈ rs → r ∈ keep_last n (qs ++ rs).
Proof.
  intros Hn Hr. unfold keep_last. rewrite length_app, drop_app. apply elem_of_app. right.
  by replace (length qs + length rs - n - length qs)%nat with O by lia.
Qed.

(** A handler that is ready to commit the receipts of a block that has no hashes yet. *)
Record ready (height : Z) rs qs (w : W) : Prop := {
  rd_version : rn_v (tw_env w) = ReceiptHandlerChain ∨ rn_v (tw_env w) = ReceiptHandlerLevelDb;
  rd_cache : rn_receiptsCache (tw_env w) = rs ∧ rs ≠ [];
  rd_proper : proper (qs ++ rs);
  rd_db : rn_v (tw_env w) = ReceiptHandlerLevelDb → holds (rn_db (tw_env w)) qs;
  rd_room : Z.of_nat (length rs) <= rn_MaxDbSize (tw_env w) < 2 ^ 64 ∧ Z.of_nat (length (qs ++ rs)) < 2 ^ 64;
  rd_store : kv_ok (tw_store w) ∧ hash_lists_ok (tw_store w) ∧ GetTxHashList (tw_store w) height = Ok [];
  rd_events : addressed rs;
  rd_times r : r ∈ rs → is_ok (blockTime (tr_BlockNumber r)) = true;
}.

(** C37. A log query right after a commit finds everything.  When the receipts of the block
    have hashes of their own, different from each other and from those still stored, and fit
    the database: after the block was committed, by either storage, the logs of the block
    that a filter selects are exactly those that looking through all logs of the listed
    receipts finds; the bloom filter of the block hides none. *)
Theorem block_logs_are_complete height rs qs w filter :
  ready height rs qs w → 0 <= height < 2 ^ 63 →
  ∃ w' l, CommitBlock height w = (Ok (), w') ∧ scan filter (listed (rn_v (tw_env w)) rs) = Ok l ∧
    GetBlockLogs blockTime (λ s h, GetReceipt s h (tw_env w')) (tw_store w') filter height = Ok l.
Proof.
  intros [Hv [Hc Hne] Hp Hdb [Hroom Hlen] (Hs & Hok & Hl0) Ha Ht] Hh. unfold CommitBlock. rewrite u64_small by lia.
  pose proof (proper_app _ _ Hp) as (_ & [Hnd Hnb] & _).
  assert (∀ r, r ∈ rs → tr_TxHash r ≠ "" ∧ tr_TxHash r ∉ param_keys) as Hhash by (intros r Hr; apply Hnb; by apply list_elem_of_fmap_2).
  assert (∀ r, r ∈ listed (rn_v (tw_env w)) rs → is_ok (blockTime (tr_BlockNumber r)) = true) as Htl
    by (intros r Hr%listed_sub; by apply Ht).
  destruct Hv as [Hv|Hv]; rewrite Hv in *; cbn -[Chain_CommitBlock LevelDb_CommitBlock listed]; rewrite Hc.
  - destruct (chain_commit_run rs height (tw_store w) []) as (s' & f & Hrun & _ & Hlist & Hgen & Hflt & Hget); try done; [by intros r [? _]%Hhash|].
    unfold on_tx, zoom. rewrite Hrun. cbn [fst snd].
    destruct (block_logs_scan (λ s h, Chain_GetReceipt s h) s' filter height rs rs f) as (l & Hscan & Hlogs); try done.
    do 2 eexists. split_and!; [done | exact Hscan |]. cbn. rewrite <- Hlogs. unfold GetBlockLogs, GetReceipt. cbn. by rewrite Hv.
  - destruct (leveldb_commit_run rs height w qs) as (w' & Hrun & Hd & Hv' & _ & _ & _ & _ & Hst); try done; [by apply Hdb | lia |].
    destruct (Hst Hne [] Hl0) as (Hlist & f & Hgen & Hflt). rewrite Hrun. rewrite decide_False in Hd by done.
    destruct (block_logs_scan (λ s h, GetReceipt s h (rn_with_cache [] [] (tw_env w'))) (tw_store w') filter height rs (listed ReceiptHandlerLevelDb rs) f)
      as (l & Hscan & Hlogs); try done; [apply listed_sub | |].
    { intros r Hr%listed_sub. unfold GetReceipt. cbn. rewrite Hv', Hv. cbn.
      rewrite (proj2 (holds_lookup _ _ (tr_TxHash r) r Hd (proj2 (Hhash r Hr)))); [done|]. split; [|done]. apply keep_last_new; [lia | done]. }
    do 2 eexists. split_and!; [done | exact Hscan | exact Hlogs].
Qed.
End Queries.
