(* ===== verification/ReceiptsWitnesses.v ===== *)
(** * Receipts and log queries on a concrete library

    A codec, a hash and a bloom filter that satisfy the laws of Receipts.v, a handler
    that commits a block, and the theorems of ReceiptsTheorems.v and EthQueryTheorems.v
    applied to them. *)

From S2P Require Import Prelude Contract Store Middleware App Receipts ReceiptsTheorems EthJson EthQuery EthQueryTheorems.
Import SimpleLib.

Module ReceiptsWitness.

#[local] Instance mem : KVStore MemStore := mem_kvstore (λ k p, Some k).
#[local] Instance mem_spec : KVStoreSpec MemStore := mem_kvstore_spec (λ k p, Some k).

#[local] Instance event_eq : EqDecision EventData.
Proof. solve_decision. Defined.
#[local] Instance event_countable : Countable EventData.
Proof.
  apply (inj_countable'
    (λ e, (((ev_Topics e, ev_Caller e), (ev_Address e, ev_PluginName e)), ((ev_BlockHeight e, ev_EncodedBody e), (ev_OriginalRequest e, ev_TxHash e)),
           ((ev_BlockHash e, ev_TransactionIndex e), ev_BlockTime e)))
    (λ '(((a, b), (c, d)), ((e, f), (g, h)), ((i, j), k)), mkEventData a b c d e f g h i j k)).
  by intros [].
Defined.

#[local] Instance receipt_eq : EqDecision EvmTxReceipt.
Proof. solve_decision. Defined.
#[local] Instance receipt_countable : Countable EvmTxReceipt.
Proof.
  apply (inj_countable'
    (λ r, (((tr_Nonce r, tr_TransactionIndex r), (tr_BlockHash r, tr_BlockNumber r)),
           ((tr_CumulativeGasUsed r, tr_GasUsed r), (tr_ContractAddress r, tr_LogsBdiadem r)),
           ((tr_Status r, tr_CallerAddress r), (tr_TxHash r, tr_Logs r))))
    (λ '(((a, b), (c, d)), ((e, f), (g, h)), ((i, j), (k, l))), mkReceipt a b c d e f g h i j k l)).
  by intros [].
Defined.

#[local] Instance rlib : ReceiptLib := {|
  marshal_Receipt := pack;
  unmarshal_Receipt := unpack;
  marshal_ListItem i := pack (li_Receipt i, li_NextTxHash i);
  unmarshal_ListItem s := (λ p : option EvmTxReceipt * bytes, mkListItem p.1 p.2) <$> unpack s;
  marshal_HashList l := match l with [] => "" | _ => "l" +:+ pack l end;
  unmarshal_HashList s := match s with EmptyString => Some [] | String _ s => unpack s end;
  sha256 b := "sha256";
  bloom_generate ks := "b" +:+ pack ks;
  bloom_contains f k :=
    match f with
    | String _ s => match unpack s with Some ks => bool_decide (k ∈ (ks : list bytes)) | None => false end
    | EmptyString => false
    end;
|}.

#[local] Instance rlib_spec : ReceiptLibSpec.
Proof.
  split.
  - intros r. apply unpack_pack.
  - intros [r n]. cbn. by rewrite unpack_pack.
  - intros [|x l]; [done|]. cbn. apply unpack_pack.
  - done.
  - intros ks k Hk. change (match unpack (pack ks) with Some ks => bool_decide (k ∈ (ks : list bytes)) | None => false end = true).
    rewrite unpack_pack. by apply bool_decide_eq_true.
  - done.
  - intros p q x y _ _ Hne H%encode_inj. congruence.
Qed.

Definition event : EventData := mkEventData ["Sold"] (Some (sample "u")) (Some (sample "c")) "c" 7 "body" "" "" "" 0 0.
Definition block : BlockHeader := mkBlockHeader "hash" "last" 7 0.
Definition World : Type := TxWorld MemStore (REnv unit).

(** A database with room for one receipt. *)
Definition w0 : World := mkTxWorld NewMemStore (mkNonceHandler ∅ 0) (NewReceiptHandler ReceiptHandlerLevelDb 1 ∅ ()).
Definition w1 : World := (CacheReceipt None block (sample "u") (sample "c") [event] false w0).2.
Definition receipt : EvmTxReceipt := default (mkReceipt 0 0 "" 0 0 0 "" "" 0 None "" []) (rn_currentReceipt (tw_env w1)).
Definition w2 : World := (on_renv CommitCurrentReceipt w1).2.
Definition w3 : World := (CommitBlock 7 w2).2.

Lemma w1_run : CacheReceipt None block (sample "u") (sample "c") [event] false w0 = (Ok "sha256", w1).
Proof. apply run_ok. by vm_compute. Qed.
Lemma current_receipt : rn_currentReceipt (tw_env w1) = Some receipt.
Proof. reflexivity. Qed.
Lemma w3_run : CommitBlock 7 w2 = (Ok (), w3).
Proof. apply run_ok. by vm_compute. Qed.
Lemma w2_history : history None w0 [receipt] [] w2.
Proof.
  apply (history_commit None w0 [] [] w1 w2).
  - eapply history_cache; [apply history_start | exact w1_run].
  - reflexivity.
Qed.

Lemma receipt_proper : proper [receipt].
Proof.
  split; [apply NoDup_singleton|]. intros h ->%list_elem_of_singleton. split; [by vm_compute|].
  apply (bool_decide_unpack _). by vm_compute.
Qed.

Lemma empty_lists : hash_lists_ok (KV := mem) NewMemStore.
Proof. intros h. exists []. unfold GetTxHashList, prefixReader_Get. cbn. unfold MemStore_Get. cbn. by rewrite lookup_empty. Qed.

Lemma queue_witness : GetReceipt (KV := mem) (tw_store w3) (tr_TxHash receipt) (tw_env w3) = Ok receipt.
Proof.
  destruct (receipts_refine_bounded_queue (KVS := mem_spec) (None : option (Z → EventData → M unit unit)) ReceiptHandlerLevelDb 1 w0 [] [receipt] w3)
    as (_ & _ & _ & H & _).
  - reflexivity.
  - lia.
  - exact I.
  - apply empty_lists.
  - reflexivity.
  - eapply (history_block None w0 [receipt] [] w2 w3 7); [apply w2_history | apply w3_run].
  - apply receipt_proper.
  - cbn. lia.
  - apply H. cbn. set_solver.
Defined.

Definition by_topic : EthFilter := mkEthFilter [] [["Sold"]] "earliest" "latest".
Definition time (h : Z) : Res Z := Ok (1000 + h).

Lemma ready_w2 : ready time 7 [receipt] [] w2.
Proof.
  constructor.
  - by right.
  - by split.
  - apply receipt_proper.
  - intros _. apply empty_holds.
  - assert (rn_MaxDbSize (tw_env w2) = 1) as -> by (by vm_compute). cbn [length app]. lia.
  - split_and!; [exact I | apply empty_lists |]. destruct (empty_lists 7) as (l & Hl). vm_compute. reflexivity.
  - unfold addressed. cbn. repeat constructor; by eexists.
  - done.
Qed.

Lemma logs_witness :
  ∃ w l, CommitBlock 7 w2 = (Ok (), w) ∧ scan time by_topic (listed ReceiptHandlerLevelDb [receipt]) = Ok l ∧
    GetBlockLogs time (λ s h, GetReceipt (KV := mem) s h (tw_env w)) (tw_store w) by_topic 7 = Ok l.
Proof. apply (block_logs_are_complete (KVS := mem_spec) time 7 [receipt] [] w2 by_topic ready_w2). lia. Defined.

(** Two polls of a filter installed at height 6. *)
Definition txs (h : Z) : list bytes := if h =? 7 then ["sha256"] else [].

Lemma w3_lists : Forall (λ ls : Z * MemStore, 0 <= ls.1 < 2 ^ 63 ∧ ∀ h, 0 < h < ls.1 → GetTxHashList (KV := mem) ls.2 h = Ok (txs h))
  [(7, NewMemStore); (9, tw_store w3)].
Proof.
  repeat constructor; cbn [fst snd]; try lia.
  - intros h Hh. destruct (empty_lists h) as (l & Hl). unfold txs. destruct (Z.eqb_spec h 7); [lia|].
    unfold GetTxHashList, prefixReader_Get. cbn. unfold MemStore_Get. cbn. by rewrite lookup_empty.
  - intros h Hh. assert (h = 1 ∨ h = 2 ∨ h = 3 ∨ h = 4 ∨ h = 5 ∨ h = 6 ∨ h = 7 ∨ h = 8) as Hc by lia.
    destruct_or! Hc; subst h; by vm_compute.
Qed.

Lemma polls_witness :
  (poll_many (KV := mem) time (λ _ _, Err ErrNotFound) (λ _ _, Ok []) [(7, NewMemStore); (9, tw_store w3)] (NewEthTxPoll 6)).2 =
    txs_between txs 7 8.
Proof.
  rewrite (tx_polls_report_once (KV := mem) time (λ _ _, Err ErrNotFound) (λ _ _, Ok []) txs _ 6); [reflexivity | lia | exact w3_lists].
Defined.

Lemma filters_witness : ¬ live (Add "b" tt 1000 (Add "a" tt 10 NewEthSubscriptions)) "a".
Proof.
  destruct (filters_live_while_polled (Add "a" tt 10 NewEthSubscriptions) "b" tt 1000) as [H _].
  - apply rtc_once. constructor; [|lia]. split; [done|]. intros h. unfold stamps. cbn. rewrite lookup_empty. by intros ?%elem_of_nil.
  - split; [by vm_compute|]. intros h. unfold stamps. change (sb_timestamps _) with ({[10 := ["a"]]} : gmap Z (list string)).
    destruct (decide (h = 10)) as [->|Hh]; [by vm_compute; intros ?%list_elem_of_singleton|]. rewrite lookup_singleton_ne by done. by intros ?%elem_of_nil.
  - lia.
  - intros Ha%H. destruct Ha as [|[_ [Hx|Hx]]]; [done | by vm_compute in Hx | by vm_compute in Hx].
Defined.
End ReceiptsWitness.
