(* ===== verification/EventStore.v ===== *)
(** * Events

    The way of an event from a contract to a query: src/event.go (the stash of a block
    and its emission), src/events/db_indexer.go (the dispatcher that indexes events) and
    src/store/eventstore.go (the index).

    The database of package dbm and the encodings are outside the repository: classes
    [OrderedDB] and [EventCodec].  Publishing to network subscribers is a parameter. *)

From S2P Require Import Prelude Contract Store Middleware App Receipts.

(** A database whose iterator goes through the keys in order, from [start] (included)
    to [end] (excluded); a batch is written at once. *)
Class OrderedDB (D : Type) := {
  db_get : D → bytes → option bytes;
  db_set : bytes → bytes → D → D;
  db_write : list (bytes * bytes) → D → D;
  db_iterate : D → bytes → bytes → list (bytes * bytes);
}.

Class OrderedDBSpec (D : Type) `{OrderedDB D} : Prop := {
  db_get_set (d : D) k v k' : db_get (db_set k v d) k' = if decide (k' = k) then Some v else db_get d k';
  db_get_write (d : D) l k : db_get (db_write l d) k = db_get (foldl (λ d kv, db_set kv.1 kv.2 d) d l) k;
  db_iterate_elem (d : D) s e k v :
    (k, v) ∈ db_iterate d s e ↔ db_get d k = Some v ∧ bytes_compare s k <= 0 ∧ bytes_compare k e < 0;
  db_iterate_sorted (d : D) s e : StronglySorted (λ x y, bytes_compare x.1 y.1 < 0) (db_iterate d s e);
}.

(** Protocol buffers and JSON of events. *)
Class EventCodec := {
  marshal_Event : EventData → bytes;
  unmarshal_Event : bytes → option EventData;
  json_Event : EventData → bytes;
  unjson_Event : bytes → option EventData;
}.

Class EventCodecSpec `{EventCodec} : Prop := {
  unmarshal_marshal_Event e : unmarshal_Event (marshal_Event e) = Some e;
  unjson_json_Event e : unjson_Event (json_Event e) = Some e;
}.

(** ** Keys of the index *)

Definition byte_key (n : nat) : bytes := String (Ascii.ascii_of_nat n) "".
Definition blockHeightKeyPrefix : bytes := byte_key 1.
Definition pluginNameKeyPrefix : bytes := byte_key 2.
Definition contractIDBlockHeightKeyPrefix : bytes := byte_key 3.
Definition lastContractIDKeyPrefix : bytes := byte_key 5.

Definition uint64ToBytes (n : Z) : bytes := be_encode 8 n.
Definition uint16ToBytes (n : Z) : bytes := be_encode 2 n.

(** A missing value is nil; fewer than eight bytes panic. *)
Definition bytesToUint64 (b : option bytes) : Res Z :=
  let b := default "" b in
  if (String.length b =? 0)%nat then Ok 0
  else if (String.length b <? 8)%nat then Panic
  else Ok (be_decode (String.substring 0 8 b)).

Section Keys.
Context {LIB : DiademLib}.

Definition prefixBlockHeightEventIndex (blockHeight eventIndex : Z) : bytes :=
  prefix_key [blockHeightKeyPrefix; uint64ToBytes blockHeight; uint16ToBytes eventIndex].
Definition prefixPluginName (pluginName : string) : bytes := prefix_key [pluginNameKeyPrefix; pluginName].
Definition prefixContractIDBlockHightEventIndex (contractID blockHeight eventIndex : Z) : bytes :=
  prefix_key [contractIDBlockHeightKeyPrefix; uint64ToBytes contractID; uint64ToBytes blockHeight; uint16ToBytes eventIndex].
Definition prefixContractIDBlockHight (contractID blockHeight : Z) : bytes :=
  prefix_key [contractIDBlockHeightKeyPrefix; uint64ToBytes contractID; uint64ToBytes blockHeight].
Definition prefixLastContractID : bytes := prefix_key [lastContractIDKeyPrefix; "contract-id"].
End Keys.

(** ** The index (eventstore.go) *)

Record EventFilter := mkEventFilter { FromBlock : Z; ToBlock : Z; EF_Contract : string }.

Section Index.
Context {LIB : DiademLib} {EC : EventCodec} {D : Type} {DB : OrderedDB D}.

Definition nextContractID : M D Z :=
  d ← gets id;
  id ← lift_res (bytesToUint64 (db_get d prefixLastContractID));
  let id := u64 (id + 1) in
  modify (db_set prefixLastContractID (uint64ToBytes id));;
  mret id.

Definition GetContractID (pluginName : string) : M D Z :=
  d ← gets id;
  id ← lift_res (bytesToUint64 (db_get d (prefixPluginName pluginName)));
  id ← (if id =? 0 then nextContractID else mret id);
  modify (db_set (prefixPluginName pluginName) (uint64ToBytes id));;
  mret id.

Definition SaveEvent (contractID blockHeight eventIndex : Z) (eventData : EventData) : M D unit :=
  let data := marshal_Event eventData in
  modify (db_set (prefixBlockHeightEventIndex blockHeight eventIndex) data);;
  modify (db_set (prefixContractIDBlockHightEventIndex contractID blockHeight eventIndex) data).

(** A contract of the EVM has no name and goes by its address. *)
Definition contract_name (event : EventData) : Res string :=
  if String.eqb (ev_PluginName event) "" then
    match ev_Address event with Some a => Ok (address_string a) | None => Panic end
  else Ok (ev_PluginName event).

Definition u16 (x : Z) : Z := x mod 2 ^ 16.

(** The loop of [BatchSaveEvents] from the event with index [i] on. *)
Fixpoint batch_events (i : Z) (events : list EventData) (batch : list (bytes * bytes)) : M D (list (bytes * bytes)) :=
  match events with
  | [] => mret batch
  | event :: events =>
      contractName ← lift_res (contract_name event);
      contractID ← GetContractID contractName;
      let data := marshal_Event event in
      let eventIndex := u16 i in
      batch_events (i + 1) events
        (batch ++ [(prefixBlockHeightEventIndex (ev_BlockHeight event) eventIndex, data);
                   (prefixContractIDBlockHightEventIndex contractID (ev_BlockHeight event) eventIndex, data)])
  end.

Definition BatchSaveEvents (events : list EventData) : M D unit :=
  batch ← batch_events 0 events [];
  modify (db_write batch).

(** Reading an iterator to its end. *)
Fixpoint read_events (l : list (bytes * bytes)) : Res (list EventData) :=
  match l with
  | [] => Ok []
  | (_, v) :: l =>
      match unmarshal_Event v with
      | Some e => es ← read_events l; Ok (e :: es)
      | None => Err errUnmarshal
      end
  end.

Definition FilterEvents (filter : EventFilter) : M D (list EventData) :=
  if negb (String.eqb (EF_Contract filter) "") then
    contractID ← GetContractID (EF_Contract filter);
    let start := prefixContractIDBlockHight contractID (FromBlock filter) in
    let end_ := prefixContractIDBlockHight contractID (u64 (ToBlock filter + 1)) in
    d ← gets id;
    lift_res (read_events (db_iterate d start end_))
  else
    let start := prefixBlockHeightEventIndex (FromBlock filter) 0 in
    let end_ := prefixBlockHeightEventIndex (u64 (ToBlock filter + 1)) 0 in
    d ← gets id;
    lift_res (read_events (db_iterate d start end_)).
End Index.

(** ** The handler (event.go) with the indexing dispatcher (db_indexer.go) *)

(** What is sent to subscribers. *)
Inductive Publication :=
  | ResetLegacy
  | ResetEth
  | PublishTopic (topic : string) (msg : bytes)
  | EmitEth (e : EventData)
  | PublishLegacy (ethMsg msg : bytes).

(** The stash of [DefaultEventHandler], the events and the store of its dispatcher, and
    the subscribers. *)
Record EventWorld (D N : Type) := mkEventWorld {
  ew_stash : gmap Z (list EventData);
  ew_events : list EventData;
  ew_db : D;
  ew_net : N;
}.
Arguments mkEventWorld {D N}.
Arguments ew_stash {D N}.
Arguments ew_events {D N}.
Arguments ew_db {D N}.
Arguments ew_net {D N}.

Section Emission.
Context {LIB : DiademLib} {EC : EventCodec} {D N : Type} {DB : OrderedDB D}.
Context (publish : Publication → M N unit).
Abbreviation W := (EventWorld D N).

Definition on_stash (f : gmap Z (list EventData) → gmap Z (list EventData)) (w : W) : W :=
  mkEventWorld (f (ew_stash w)) (ew_events w) (ew_db w) (ew_net w).
Definition on_pending (f : list EventData → list EventData) (w : W) : W :=
  mkEventWorld (ew_stash w) (f (ew_events w)) (ew_db w) (ew_net w).
Definition on_db {A} (m : M D A) : M W A :=
  zoom ew_db (λ d w, mkEventWorld (ew_stash w) (ew_events w) d (ew_net w)) m.
Definition on_net {A} (m : M N A) : M W A :=
  zoom ew_net (λ n w, mkEventWorld (ew_stash w) (ew_events w) (ew_db w) n) m.

Definition stash_add (height : Z) (msg : EventData) : M W unit :=
  modify (on_stash (λ m, <[height := default [] (m !! height) ++ [msg]]> m)).
Definition stash_fetch (height : Z) (w : W) : list EventData := default [] (ew_stash w !! height).
Definition stash_purge (height : Z) : M W unit := modify (on_stash (delete height)).

Definition DefaultEventHandler_Post (height : Z) (msg : EventData) : M W unit :=
  stash_add height (if ev_BlockHeight msg =? 0 then ev_with_Height height msg else msg).

Definition Indexer_Send (msg : bytes) : M W unit :=
  match unjson_Event msg with
  | Some eventData => modify (on_pending (λ l, l ++ [eventData]))
  | None => throw errUnmarshal
  end.

Definition Indexer_Flush : M W unit :=
  w ← gets (id : W → W);
  let flushEvents := ew_events w in
  modify (on_pending (λ _, []));;
  ignore_err (on_db (BatchSaveEvents flushEvents)).

Definition ev_with_Time (t : Z) (e : EventData) : EventData :=
  mkEventData (ev_Topics e) (ev_Caller e) (ev_Address e) (ev_PluginName e) (ev_BlockHeight e) (ev_EncodedBody e)
    (ev_OriginalRequest e) (ev_TxHash e) (ev_BlockHash e) (ev_TransactionIndex e) t.

(** One event of the block. *)
Definition emit_event (msg : EventData) : M W unit :=
  let emitMsg := json_Event msg in
  ignore_err (Indexer_Send emitMsg);;
  on_net (publish (PublishTopic ("contract:" +:+ ev_PluginName msg) emitMsg));;
  ignore_err (on_net (publish (EmitEth msg)));;
  on_net (publish (PublishLegacy (marshal_Event msg) emitMsg));;
  forM (ev_Topics msg) (λ topic, on_net (publish (PublishTopic topic emitMsg))).

(** The messages are pointers into the stash, where their time is set. *)
Definition emit_stashed (height blockTime : Z) (im : nat * EventData) : M W unit :=
  modify (on_stash (alter (alter (ev_with_Time blockTime) im.1) height));;
  emit_event (ev_with_Time blockTime im.2).

(** [defer] turns a panic into an error. *)
Definition EmitBlockTx (height blockTime : Z) : M W unit :=
  λ w, match (
    w ← gets (id : W → W);
    let msgs := stash_fetch height w in
    on_net (publish ResetLegacy);;
    on_net (publish ResetEth);;
    forM (imap pair msgs) (emit_stashed height blockTime);;
    Indexer_Flush;;
    stash_purge height) w with
  | (Panic, w') => (Err (ErrMsg "caught panic publishing event"), w')
  | r => r
  end.
End Emission.
