(* ===== verification/EventStoreTheorems.v ===== *)
(** * Events: theorems

    Keys of fixed width in big-endian order make the iterator of the database go through
    events by height and index ([filter_run]); what is posted and emitted block by block
    is therefore what queries find ([event_queries_find_emitted_events]). *)

From S2P Require Import Prelude Contract Store Middleware App Receipts EventStore.

(** ** The order of keys *)

Definition then_compare (c d : comparison) : comparison := match c with Eq => d | _ => c end.

Lemma compare_self s : String.compare s s = Eq.
Proof. pose proof (String.compare_antisym s s). by destruct (String.compare s s). Qed.

Lemma compare_cons a s b t :
  String.compare (String a s) (String b t) = then_compare (N.compare (Ascii.N_of_ascii a) (Ascii.N_of_ascii b)) (String.compare s t).
Proof. cbn. unfold Ascii.compare. by destruct (N.compare _ _). Qed.

Lemma compare_app_len a b s t : String.length a = String.length b →
  String.compare (a +:+ s) (b +:+ t) = then_compare (String.compare a b) (String.compare s t).
Proof.
  revert b. induction a as [|x a IH]; intros [|y b]; try done. intros [= Hl].
  change (String x a +:+ s) with (String x (a +:+ s)). change (String y b +:+ t) with (String y (b +:+ t)).
  rewrite !compare_cons, IH by done. by destruct (N.compare _ _).
Qed.

Lemma compare_app_same p s t : String.compare (p +:+ s) (p +:+ t) = String.compare s t.
Proof. rewrite compare_app_len by done. by rewrite compare_self. Qed.

Lemma be_encode_mod n x : 0 <= x → be_encode n (x mod 256 ^ Z.of_nat n) = be_encode n x.
Proof.
  intros Hx. assert (∀ m y, 0 <= y → (n <= m)%nat → be_encode n (y mod 256 ^ Z.of_nat m) = be_encode n y) as H; [|by apply H].
  clear x Hx. induction n as [|n IH]; intros m y Hy Hm; [done|]. cbn [be_encode].
  rewrite IH by lia. do 3 f_equal. replace (Z.of_nat m) with (Z.of_nat n + (1 + Z.of_nat (m - S n))) by lia.
  rewrite !Z.pow_add_r, Z.pow_1_r by lia. set (b := 256 ^ Z.of_nat n). set (c := 256 ^ Z.of_nat (m - S n)).
  assert (0 < b) by (apply Z.pow_pos_nonneg; lia). assert (0 < c) by (apply Z.pow_pos_nonneg; lia).
  rewrite (Z.rem_mul_r y b (256 * c)) by lia. rewrite (Z.mul_comm b), Z.div_add by lia.
  rewrite (Z.div_small (y mod b)) by (by apply Z.mod_pos_bound). rewrite Z.add_0_l.
  rewrite (Z.rem_mul_r (y / b) 256 c) by lia. rewrite (Z.mul_comm 256), Z_mod_plus_full. by rewrite Z.mod_mod.
Qed.

(** Big-endian numbers of the same width are ordered as numbers. *)
Lemma compare_be n x y : 0 <= x < 256 ^ Z.of_nat n → 0 <= y < 256 ^ Z.of_nat n →
  String.compare (be_encode n x) (be_encode n y) = Z.compare x y.
Proof.
  revert x y. induction n as [|n IH]; intros x y Hx Hy.
  { cbn in Hx, Hy. assert (x = y) as -> by lia. by rewrite Z.compare_refl. }
  cbn [be_encode]. rewrite compare_cons. set (b := 256 ^ Z.of_nat n).
  assert (0 < b) as Hb by (apply Z.pow_pos_nonneg; lia).
  rewrite Nat2Z.inj_succ, Z.pow_succ_r in Hx, Hy by lia. fold b in Hx, Hy.
  assert (0 <= x / b < 256) by (split; [apply Z.div_pos; lia | apply Z.div_lt_upper_bound; lia]).
  assert (0 <= y / b < 256) by (split; [apply Z.div_pos; lia | apply Z.div_lt_upper_bound; lia]).
  rewrite !(Z.mod_small _ 256), !Ascii.N_ascii_embedding by lia.
  rewrite <- (be_encode_mod n x), <- (be_encode_mod n y) by lia. fold b.
  rewrite IH by (by apply Z.mod_pos_bound).
  rewrite <- N2Z.inj_compare, !Z2N.id by lia.
  pose proof (Z.div_mod x b ltac:(lia)). pose proof (Z.div_mod y b ltac:(lia)).
  pose proof (Z.mod_pos_bound x b Hb). pose proof (Z.mod_pos_bound y b Hb).
  destruct (Z.compare_spec (x / b) (y / b)); cbn [then_compare]; symmetry.
  - destruct (Z.compare_spec (x mod b) (y mod b)); [apply Z.compare_eq_iff | apply Z.compare_lt_iff | apply Z.compare_gt_iff]; nia.
  - apply Z.compare_lt_iff. nia.
  - apply Z.compare_gt_iff. nia.
Qed.

Lemma bytes_compare_lt x y : bytes_compare x y < 0 ↔ String.compare x y = Lt.
Proof. unfold bytes_compare. destruct (String.compare x y); naive_solver lia. Qed.
Lemma bytes_compare_le x y : bytes_compare x y <= 0 ↔ String.compare x y ≠ Gt.
Proof. unfold bytes_compare. destruct (String.compare x y); naive_solver lia. Qed.

Lemma then_compare_lt c d : then_compare c d = Lt ↔ c = Lt ∨ c = Eq ∧ d = Lt.
Proof. destruct c; cbn; naive_solver. Qed.
Lemma then_compare_gt c d : then_compare c d = Gt ↔ c = Gt ∨ c = Eq ∧ d = Gt.
Proof. destruct c; cbn; naive_solver. Qed.
Lemma then_compare_eq c d : then_compare c d = Eq ↔ c = Eq ∧ d = Eq.
Proof. destruct c; cbn; naive_solver. Qed.

(** What lies between two keys of a family belongs to the family. *)
Lemma between_same_head c s t k : bytes_compare (String c s) k <= 0 → bytes_compare k (String c t) < 0 → ∃ k', k = String c k'.
Proof.
  rewrite bytes_compare_le, bytes_compare_lt. destruct k as [|x k]; [done|]. rewrite !compare_cons.
  intros H1 H2. exists k. f_equal. rewrite <- (Ascii.ascii_N_embedding x), <- (Ascii.ascii_N_embedding c). f_equal.
  rewrite (N.compare_antisym (Ascii.N_of_ascii x)) in H1.
  destruct (N.compare_spec (Ascii.N_of_ascii x) (Ascii.N_of_ascii c)) as [E|E|E]; [done | |]; by cbn in *.
Qed.

(** [util.PrefixKey] joins its parts with a zero byte. *)
Fixpoint join_zero (l : list bytes) : bytes :=
  match l with
  | [] => ""
  | x :: l' => match l' with [] => x | _ => x +:+ byte_key 0 +:+ join_zero l' end
  end.

Class JoinsKeys `{DiademLib} : Prop := prefix_key_join l : prefix_key l = join_zero l.

Section Keys.
Context `{JoinsKeys}.

Lemma key1_compare h i h' i' :
  0 <= h < 2 ^ 64 → 0 <= i < 2 ^ 16 → 0 <= h' < 2 ^ 64 → 0 <= i' < 2 ^ 16 →
  String.compare (prefixBlockHeightEventIndex h i) (prefixBlockHeightEventIndex h' i') = then_compare (Z.compare h h') (Z.compare i i').
Proof.
  intros. unfold prefixBlockHeightEventIndex. rewrite !prefix_key_join. cbn [join_zero].
  rewrite !compare_app_same, compare_app_len by (unfold uint64ToBytes; by rewrite !be_encode_length).
  rewrite compare_app_same. unfold uint64ToBytes, uint16ToBytes. by rewrite !compare_be.
Qed.

Lemma key3_compare c h i c' h' i' :
  0 <= c < 2 ^ 64 → 0 <= h < 2 ^ 64 → 0 <= i < 2 ^ 16 → 0 <= c' < 2 ^ 64 → 0 <= h' < 2 ^ 64 → 0 <= i' < 2 ^ 16 →
  String.compare (prefixContractIDBlockHightEventIndex c h i) (prefixContractIDBlockHightEventIndex c' h' i') =
    then_compare (Z.compare c c') (then_compare (Z.compare h h') (Z.compare i i')).
Proof.
  intros. unfold prefixContractIDBlockHightEventIndex. rewrite !prefix_key_join. cbn [join_zero].
  rewrite !compare_app_same, compare_app_len by (unfold uint64ToBytes; by rewrite !be_encode_length).
  rewrite compare_app_same, compare_app_len by (unfold uint64ToBytes; by rewrite !be_encode_length).
  rewrite compare_app_same. unfold uint64ToBytes, uint16ToBytes. by rewrite !compare_be.
Qed.

(** The bounds of an iteration over a contract's events are shorter keys. *)
Lemma bound3_compare c h c' h' i' :
  0 <= c < 2 ^ 64 → 0 <= h < 2 ^ 64 → 0 <= c' < 2 ^ 64 → 0 <= h' < 2 ^ 64 →
  String.compare (prefixContractIDBlockHight c h) (prefixContractIDBlockHightEventIndex c' h' i') =
    then_compare (Z.compare c c') (then_compare (Z.compare h h') Lt).
Proof.
  intros. unfold prefixContractIDBlockHight, prefixContractIDBlockHightEventIndex. rewrite !prefix_key_join. cbn [join_zero].
  rewrite !compare_app_same, compare_app_len by (unfold uint64ToBytes; by rewrite !be_encode_length).
  rewrite compare_app_same, <- (append_nil (uint64ToBytes h)), compare_app_len by (unfold uint64ToBytes; by rewrite !be_encode_length).
  unfold uint64ToBytes. by rewrite !compare_be.
Qed.

(** The heights of a range, of all events and of those of a contract. *)
Lemma range1 from to h i :
  0 <= from < 2 ^ 64 → 0 <= to < 2 ^ 64 - 1 → 0 <= h < 2 ^ 64 → 0 <= i < 2 ^ 16 →
  bytes_compare (prefixBlockHeightEventIndex from 0) (prefixBlockHeightEventIndex h i) <= 0 ∧
  bytes_compare (prefixBlockHeightEventIndex h i) (prefixBlockHeightEventIndex (to + 1) 0) < 0 ↔ from <= h <= to.
Proof.
  intros. rewrite bytes_compare_le, bytes_compare_lt, !key1_compare by lia.
  rewrite then_compare_lt, then_compare_gt, !Z.compare_gt_iff, !Z.compare_lt_iff, !Z.compare_eq_iff. lia.
Qed.

Lemma range3 c from to c' h i :
  0 <= c < 2 ^ 64 → 0 <= from < 2 ^ 64 → 0 <= to < 2 ^ 64 - 1 → 0 <= c' < 2 ^ 64 → 0 <= h < 2 ^ 64 →
  bytes_compare (prefixContractIDBlockHight c from) (prefixContractIDBlockHightEventIndex c' h i) <= 0 ∧
  bytes_compare (prefixContractIDBlockHightEventIndex c' h i) (prefixContractIDBlockHight c (to + 1)) < 0 ↔ c' = c ∧ from <= h <= to.
Proof.
  intros. rewrite bytes_compare_le. rewrite (cmp_antisym (cmp := bytes_compare)).
  assert (∀ x y, 0 < bytes_compare x y ↔ String.compare x y = Gt) as -> by
    (intros x y; unfold bytes_compare; destruct (String.compare x y); naive_solver lia).
  rewrite !bound3_compare by lia.
  rewrite !then_compare_gt, !Z.compare_gt_iff, !Z.compare_eq_iff. naive_solver lia.
Qed.

Lemma key1_head h i : ∃ k, prefixBlockHeightEventIndex h i = String (Ascii.ascii_of_nat 1) k.
Proof. unfold prefixBlockHeightEventIndex. rewrite prefix_key_join. by eexists. Qed.
Lemma key3_head c h i : ∃ k, prefixContractIDBlockHightEventIndex c h i = String (Ascii.ascii_of_nat 3) k.
Proof. unfold prefixContractIDBlockHightEventIndex. rewrite prefix_key_join. by eexists. Qed.
Lemma bound3_head c h : ∃ k, prefixContractIDBlockHight c h = String (Ascii.ascii_of_nat 3) k.
Proof. unfold prefixContractIDBlockHight. rewrite prefix_key_join. by eexists. Qed.
Lemma name_head n : ∃ k, prefixPluginName n = String (Ascii.ascii_of_nat 2) k.
Proof. unfold prefixPluginName. rewrite prefix_key_join. by eexists. Qed.
Lemma last_head : ∃ k, prefixLastContractID = String (Ascii.ascii_of_nat 5) k.
Proof. unfold prefixLastContractID. rewrite prefix_key_join. by eexists. Qed.

(** Keys of different families differ in their first byte. *)
Definition head_char (s : bytes) : option Ascii.ascii := match s with String c _ => Some c | EmptyString => None end.
Lemma head_key1 h i : head_char (prefixBlockHeightEventIndex h i) = Some (Ascii.ascii_of_nat 1).
Proof. by destruct (key1_head h i) as [k ->]. Qed.
Lemma head_key3 c h i : head_char (prefixContractIDBlockHightEventIndex c h i) = Some (Ascii.ascii_of_nat 3).
Proof. by destruct (key3_head c h i) as [k ->]. Qed.
Lemma head_name n : head_char (prefixPluginName n) = Some (Ascii.ascii_of_nat 2).
Proof. by destruct (name_head n) as [k ->]. Qed.
Lemma head_last : head_char prefixLastContractID = Some (Ascii.ascii_of_nat 5).
Proof. by destruct last_head as [k ->]. Qed.

Lemma key1_inj h i h' i' :
  0 <= h < 2 ^ 64 → 0 <= i < 2 ^ 16 → 0 <= h' < 2 ^ 64 → 0 <= i' < 2 ^ 16 →
  prefixBlockHeightEventIndex h i = prefixBlockHeightEventIndex h' i' → h = h' ∧ i = i'.
Proof.
  intros ???? Heq. pose proof (key1_compare h i h' i') as Hc. rewrite Heq, compare_self in Hc.
  specialize (Hc ltac:(done) ltac:(done) ltac:(done) ltac:(done)). symmetry in Hc. by rewrite then_compare_eq, !Z.compare_eq_iff in Hc.
Qed.
Lemma key3_inj c h i c' h' i' :
  0 <= c < 2 ^ 64 → 0 <= h < 2 ^ 64 → 0 <= i < 2 ^ 16 → 0 <= c' < 2 ^ 64 → 0 <= h' < 2 ^ 64 → 0 <= i' < 2 ^ 16 →
  prefixContractIDBlockHightEventIndex c h i = prefixContractIDBlockHightEventIndex c' h' i' → c = c' ∧ h = h' ∧ i = i'.
Proof.
  intros ?????? Heq. pose proof (key3_compare c h i c' h' i') as Hc. rewrite Heq, compare_self in Hc.
  specialize (Hc ltac:(done) ltac:(done) ltac:(done) ltac:(done) ltac:(done) ltac:(done)). symmetry in Hc.
  by rewrite !then_compare_eq, !Z.compare_eq_iff in Hc.
Qed.
Lemma name_inj n m : prefixPluginName n = prefixPluginName m → n = m.
Proof. unfold prefixPluginName. rewrite !prefix_key_join. intros Heq. injection Heq as Heq. exact Heq. Qed.
End Keys.

Ltac head_clash H :=
  exfalso; apply (f_equal head_char) in H; rewrite ?head_key1, ?head_key3, ?head_name, ?head_last in H; discriminate H.

(** ** What the index holds *)

Abbreviation Block := (Z * list EventData)%type.

(** Events with their height and index. *)
Definition entries (blocks : list Block) : list (Z * Z * EventData) :=
  mjoin ((λ b : Block, imap (λ i e, (b.1, Z.of_nat i, e)) b.2) <$> blocks).

Section Entries.
Context {LIB : DiademLib}.

Definition name_of (e : EventData) : string := match contract_name e with Ok n => n | _ => "" end.

(** The events of a block: those of its height, not too many to be numbered by 16 bits,
    each with a contract. *)
Definition block_ok (b : Block) : Prop :=
  0 <= b.1 < 2 ^ 64 ∧ Z.of_nat (length b.2) <= 2 ^ 16 ∧ Forall (λ e, ev_BlockHeight e = b.1 ∧ is_ok (contract_name e) = true) b.2.

Definition blocks_ok (blocks : list Block) : Prop :=
  StronglySorted (λ b c : Block, b.1 < c.1) blocks ∧ Forall block_ok blocks.

Definition entry_lt (x y : Z * Z * EventData) : Prop := x.1.1 < y.1.1 ∨ x.1.1 = y.1.1 ∧ x.1.2 < y.1.2.

Lemma elem_of_block (b : Block) h i e : (h, i, e) ∈ entries [b] ↔ h = b.1 ∧ 0 <= i ∧ b.2 !! Z.to_nat i = Some e.
Proof.
  unfold entries. cbn. rewrite app_nil_r, elem_of_lookup_imap. split.
  - intros (n & e' & [= -> -> ->] & Hn). split_and!; [done | lia | by rewrite Nat2Z.id].
  - intros (-> & Hi & He). exists (Z.to_nat i), e. rewrite Z2Nat.id by lia. done.
Qed.

Lemma entries_app bs cs : entries (bs ++ cs) = entries bs ++ entries cs.
Proof. unfold entries. by rewrite fmap_app, join_app. Qed.

Lemma elem_of_entries blocks x : x ∈ entries blocks ↔ ∃ b, b ∈ blocks ∧ x ∈ entries [b].
Proof.
  unfold entries. rewrite list_elem_of_join. cbn. setoid_rewrite app_nil_r. setoid_rewrite list_elem_of_fmap. naive_solver.
Qed.

Lemma entry_bounds blocks h i e : Forall block_ok blocks → (h, i, e) ∈ entries blocks →
  0 <= h < 2 ^ 64 ∧ 0 <= i < 2 ^ 16 ∧ ev_BlockHeight e = h ∧ is_ok (contract_name e) = true.
Proof.
  intros Hok (b & Hb & Hin)%elem_of_entries. rewrite Forall_forall in Hok. destruct (Hok b Hb) as (H1 & H2 & H3).
  apply elem_of_block in Hin as (-> & Hi & He). pose proof (lookup_lt_Some _ _ _ He).
  rewrite Forall_lookup in H3. specialize (H3 _ _ He) as [??]. split_and!; try done; lia.
Qed.

Lemma block_sorted (b : Block) : StronglySorted entry_lt (entries [b]).
Proof.
  unfold entries. cbn. rewrite app_nil_r. destruct b as [h l]. cbn.
  assert (∀ l k, StronglySorted entry_lt (imap (λ i e, (h, Z.of_nat (k + i), e)) l) ∧
                 Forall (λ x, x.1.1 = h ∧ Z.of_nat k <= x.1.2) (imap (λ i e, (h, Z.of_nat (k + i), e)) l)) as H; [|apply (H l 0%nat)].
  clear l. induction l as [|e l IH]; intros k; [split; constructor|]. cbn [imap]. destruct (IH (S k)) as [H1 H2].
  assert (imap (λ (n : nat) (y : EventData), (h, Z.of_nat (k + S n), y)) l = imap (λ i e, (h, Z.of_nat (S k + i), e)) l) as Heq.
  { apply imap_ext. intros i x _. do 2 f_equal. lia. }
  unfold compose. rewrite Heq. split; constructor; try done.
  - eapply Forall_impl; [exact H2|]. intros x [??]. right. cbn. lia.
  - cbn. lia.
  - eapply Forall_impl; [exact H2|]. intros x [??]. lia.
Qed.

Lemma entries_sorted blocks : blocks_ok blocks → StronglySorted entry_lt (entries blocks).
Proof.
  intros [Hs _]. induction Hs as [|b blocks Hs IH Hb]; [constructor|].
  change (b :: blocks) with ([b] ++ blocks). rewrite entries_app. apply StronglySorted_app_2; [|apply block_sorted | done].
  intros [[h i] e] [[h' i'] e'] (-> & _)%elem_of_block (b' & Hb' & (-> & _)%elem_of_block)%elem_of_entries.
  left. cbn. rewrite Forall_forall in Hb. by apply Hb.
Qed.

Lemma entries_events blocks : (entries blocks).*2 = mjoin (blocks.*2).
Proof.
  induction blocks as [|b blocks IH]; [done|]. change (b :: blocks) with ([b] ++ blocks).
  rewrite entries_app, fmap_app, IH. unfold entries. cbn. rewrite app_nil_r. f_equal. rewrite fmap_imap. destruct b as [h l]. cbn.
  clear. induction l as [|e l IH]; [done|]. cbn. f_equal. exact IH.
Qed.
End Entries.

Lemma bytesToUint64_encode x : 0 <= x < 2 ^ 64 → bytesToUint64 (Some (uint64ToBytes x)) = Ok x.
Proof.
  intros Hx. unfold bytesToUint64, uint64ToBytes. cbn [default]. unfold id. rewrite be_encode_length. cbn [Nat.eqb Nat.ltb Nat.leb].
  pose proof (substring_all (be_encode 8 x)) as Hall. rewrite be_encode_length in Hall. by rewrite Hall, be_roundtrip.
Qed.

Section Index.
Context `{JoinsKeys} {EC : EventCodec} {ECS : EventCodecSpec} {D : Type} {DB : OrderedDB D} {DBS : OrderedDBSpec D}.
Implicit Types d : D.

(** Each event is stored under its height and index, and under its contract's number;
    contracts have numbers of their own up to [last]. *)
Record index_ok (ids : gmap string Z) (last : Z) (blocks : list Block) d : Prop := {
  io_events k v : db_get d (String (Ascii.ascii_of_nat 1) k) = Some v ↔
    ∃ h i e, (h, i, e) ∈ entries blocks ∧ String (Ascii.ascii_of_nat 1) k = prefixBlockHeightEventIndex h i ∧ v = marshal_Event e;
  io_contracts k v : db_get d (String (Ascii.ascii_of_nat 3) k) = Some v ↔
    ∃ h i e c, (h, i, e) ∈ entries blocks ∧ ids !! name_of e = Some c ∧
      String (Ascii.ascii_of_nat 3) k = prefixContractIDBlockHightEventIndex c h i ∧ v = marshal_Event e;
  io_names n : db_get d (prefixPluginName n) = uint64ToBytes <$> ids !! n;
  io_last : bytesToUint64 (db_get d prefixLastContractID) = Ok last ∧ 0 <= last;
  io_ids n c : ids !! n = Some c → 1 <= c <= last;
  io_inj n m c : ids !! n = Some c → ids !! m = Some c → n = m;
  io_known h i e : (h, i, e) ∈ entries blocks → is_Some (ids !! name_of e);
}.

Lemma empty_index d : (∀ k, db_get d k = None) → index_ok ∅ 0 [] d.
Proof.
  intros Hd. constructor.
  - intros k v. rewrite Hd. split; [done|]. by intros (? & ? & ? & ?%elem_of_nil & _).
  - intros k v. rewrite Hd. split; [done|]. by intros (? & ? & ? & ? & ?%elem_of_nil & _).
  - intros n. by rewrite Hd, lookup_empty.
  - by rewrite Hd.
  - by intros n c ?%lookup_empty_Some.
  - by intros n m c ?%lookup_empty_Some.
  - by intros h i e ?%elem_of_nil.
Qed.

(** Keys of other families keep their values. *)
Lemma set_names d ids last blocks n c :
  index_ok ids last blocks d → ids !! n = Some c → index_ok ids last blocks (db_set (prefixPluginName n) (uint64ToBytes c) d).
Proof.
  intros [H1 H2 H3 [H4 H4'] H5 H6 H7] Hn. destruct (name_head n) as [k0 Hk0]. destruct last_head as [k5 Hk5].
  constructor; try done; intros *; rewrite ?db_get_set; try (rewrite decide_False by (rewrite Hk0; try rewrite Hk5; done)); try done.
  case_decide as Heq; [|done]. apply name_inj in Heq as ->. by rewrite Hn.
Qed.

Lemma take_next d ids last blocks n :
  index_ok ids last blocks d → last < 2 ^ 64 - 1 → ids !! n = None →
  index_ok (<[n := last + 1]> ids) (last + 1) blocks
    (db_set (prefixPluginName n) (uint64ToBytes (last + 1)) (db_set prefixLastContractID (uint64ToBytes (last + 1)) d)).
Proof.
  intros [H1 H2 H3 [H4 H4'] H5 H6 H7] Hl Hn. destruct (name_head n) as [k0 Hk0]. destruct last_head as [k5 Hk5].
  assert (∀ e, is_Some (ids !! name_of e) → <[n:=last + 1]> ids !! name_of e = ids !! name_of e) as Hold.
  { intros e [c Hc]. apply lookup_insert_ne. intros ->. congruence. }
  constructor.
  - intros k v. rewrite !db_get_set, !decide_False by (rewrite ?Hk0, ?Hk5; done). apply H1.
  - intros k v. rewrite !db_get_set, !decide_False by (rewrite ?Hk0, ?Hk5; done). rewrite H2.
    split; intros (h & i & e & c & Hin & Hc & Hk & Hv); exists h, i, e, c; split_and!; try done.
    + rewrite Hold by (by eapply H7). done.
    + rewrite Hold in Hc by (by eapply H7). done.
  - intros m. rewrite !db_get_set. case_decide as Heq.
    + apply name_inj in Heq as ->. by rewrite lookup_insert_eq.
    + rewrite decide_False by (destruct (name_head m) as [km ->]; by rewrite Hk5). rewrite lookup_insert_ne by (intros ->; done). apply H3.
  - rewrite !db_get_set, decide_False by (rewrite Hk0, Hk5; done). rewrite decide_True by done. rewrite bytesToUint64_encode by lia. split; [done|lia].
  - intros m c. rewrite lookup_insert. case_decide; [intros [= <-]; lia|]. intros Hc%H5. lia.
  - intros m m' c. rewrite !lookup_insert. repeat case_decide; subst; try done.
    + intros [= <-] Hc%H5. lia.
    + intros Hc%H5 [= <-]. lia.
    + apply H6.
  - intros h i e Hin. rewrite Hold by (by eapply H7). by eapply H7.
Qed.

(** [GetContractID] finds the number of a contract or gives it the next one. *)
Lemma GetContractID_run d ids last blocks n :
  index_ok ids last blocks d → last < 2 ^ 64 - 1 →
  ∃ c d' ids' last', GetContractID n d = (Ok c, d') ∧ index_ok ids' last' blocks d' ∧ ids' !! n = Some c ∧
    ids ⊆ ids' ∧ last' <= last + 1.
Proof.
  intros Hok Hl. pose proof Hok as [_ _ H3 [H4 H4'] H5 _ _]. unfold GetContractID. m_eval. unfold id.
  rewrite H3. destruct (ids !! n) as [c|] eqn:Hn; cbn [fmap option_fmap option_map].
  - pose proof (H5 _ _ Hn). rewrite bytesToUint64_encode by lia. m_eval. destruct (Z.eqb_spec c 0); [lia|]. m_eval.
    eexists c, _, ids, last. split_and!; [done | by apply set_names | done | done | lia].
  - cbn. unfold nextContractID. m_eval. unfold id. rewrite H4. m_eval. rewrite u64_small by lia.
    eexists (last + 1), _, _, (last + 1). split_and!; [done | by apply take_next | by rewrite lookup_insert_eq | by apply insert_subseteq | lia].
Qed.

(** The writes of a batch, with the numbers of the contracts. *)
Definition writes_of (ids : gmap string Z) (h : Z) (x : Z * EventData) : list (bytes * bytes) :=
  [(prefixBlockHeightEventIndex h x.1, marshal_Event x.2);
   (prefixContractIDBlockHightEventIndex (default 0 (ids !! name_of x.2)) h x.1, marshal_Event x.2)].

Fixpoint numbered (i : Z) (es : list EventData) : list (Z * EventData) :=
  match es with [] => [] | e :: es => (i, e) :: numbered (i + 1) es end.

Lemma contract_name_ok e : is_ok (contract_name e) = true → contract_name e = Ok (name_of e).
Proof. unfold name_of. by destruct (contract_name e). Qed.

Lemma batch_events_run h es : ∀ i batch d ids last blocks,
  Forall (λ e, ev_BlockHeight e = h ∧ is_ok (contract_name e) = true) es → 0 <= i → i + Z.of_nat (length es) <= 2 ^ 16 →
  index_ok ids last blocks d → last + Z.of_nat (length es) < 2 ^ 64 →
  ∃ d' ids' last', batch_events i es batch d = (Ok (batch ++ mjoin (writes_of ids' h <$> numbered i es)), d') ∧
    index_ok ids' last' blocks d' ∧ ids ⊆ ids' ∧ last' <= last + Z.of_nat (length es) ∧ Forall (λ e, is_Some (ids' !! name_of e)) es.
Proof.
  induction es as [|e es IH]; intros i batch d ids last blocks Hes Hi Hlen Hok Hl; cbn [batch_events numbered length] in *.
  { exists d, ids, last. cbn. rewrite app_nil_r. split_and!; [done | done | done | lia | done]. }
  apply Forall_cons_1 in Hes as [[<- Hn] Hes]. m_eval. rewrite contract_name_ok by done. m_eval.
  destruct (GetContractID_run d ids last blocks (name_of e) Hok) as (c & d1 & ids1 & last1 & Hrun & Hok1 & Hc & Hsub & Hl1); [lia|].
  rewrite Hrun. m_eval. unfold u16. rewrite Z.mod_small by lia.
  edestruct (IH (i + 1)) as (d2 & ids2 & last2 & Hrun2 & Hok2 & Hsub2 & Hl2 & Hkn); [done | lia | lia | exact Hok1 | lia |].
  rewrite Hrun2. pose proof (lookup_weaken _ _ _ _ Hc Hsub2) as Hc2.
  exists d2, ids2, last2. split_and!; [|done | by etrans | lia | constructor; [by eexists | done]].
  do 2 f_equal. cbn. unfold writes_of at 2. cbn. rewrite Hc2. by rewrite <- app_assoc.
Qed.

(** A batch without two writes to a key. *)
Lemma write_lookup d (l : list (bytes * bytes)) k v : NoDup l.*1 →
  db_get (db_write l d) k = Some v ↔ (k, v) ∈ l ∨ k ∉ l.*1 ∧ db_get d k = Some v.
Proof.
  rewrite db_get_write. revert d. induction l as [|[k1 v1] l IH]; intros d Hnd; cbn.
  { set_solver. }
  apply NoDup_cons in Hnd as [Hk Hnd]. rewrite IH by done. rewrite db_get_set, !elem_of_cons. case_decide as Heq.
  - subst k1. split.
    + intros [Hin|[_ [= ->]]]; [by left; right | by left; left].
    + intros [[[= ->]|Hin]|[Hn _]]; [by right | by left | naive_solver].
  - split; [intros [Hin|[Hn Hd]]; [by left; right | right; naive_solver] |].
    intros [[[= -> ->]|Hin]|[Hn Hd]]; [done | by left | right; naive_solver].
Qed.

Lemma elem_of_numbered i es j e : (j, e) ∈ numbered i es ↔ i <= j ∧ es !! Z.to_nat (j - i) = Some e.
Proof.
  revert i. induction es as [|x es IH]; intros i; cbn.
  { rewrite elem_of_nil. naive_solver. }
  rewrite elem_of_cons, IH. destruct (decide (j = i)) as [->|Hne].
  - rewrite Z.sub_diag. cbn. split; [intros [[= ->]|?]; [done | lia] | intros [_ [= ->]]; by left].
  - replace (Z.to_nat (j - i)) with (if decide (i < j) then S (Z.to_nat (j - (i + 1))) else 0%nat) by (case_decide; lia).
    case_decide; cbn; [split; [intros [[= ??]|[??]]; [done | split; [lia | done]] | intros [? ?]; right; split; [lia | done]]|].
    split; [intros [[= ??]|[??]]; [done | lia] | lia].
Qed.

Lemma elem_of_writes ids h i es k v : (k, v) ∈ mjoin (writes_of ids h <$> numbered i es) ↔
  ∃ j e, (j, e) ∈ numbered i es ∧ v = marshal_Event e ∧
    (k = prefixBlockHeightEventIndex h j ∨ k = prefixContractIDBlockHightEventIndex (default 0 (ids !! name_of e)) h j).
Proof.
  rewrite list_elem_of_join. setoid_rewrite list_elem_of_fmap. split.
  - intros (l & Hin & [j e] & -> & Hj). exists j, e. unfold writes_of in Hin. cbn in Hin. set_unfold. naive_solver.
  - intros (j & e & Hj & -> & Hk). exists (writes_of ids h (j, e)). split; [|by exists (j, e)]. unfold writes_of. cbn. set_unfold. naive_solver.
Qed.

Definition keys_in (ids : gmap string Z) (h i : Z) (es : list EventData) (k : bytes) : Prop :=
  ∃ j e, (j, e) ∈ numbered i es ∧ i <= j < i + Z.of_nat (length es) ∧
    (k = prefixBlockHeightEventIndex h j ∨ k = prefixContractIDBlockHightEventIndex (default 0 (ids !! name_of e)) h j).

Lemma write_keys ids h i es k : k ∈ (mjoin (writes_of ids h <$> numbered i es)).*1 ↔ keys_in ids h i es k.
Proof.
  rewrite list_elem_of_fmap. split.
  - intros ([k' v] & -> & (j & e' & Hj & _ & Hk)%elem_of_writes). exists j, e'. split_and!; try done;
      apply elem_of_numbered in Hj as (Hj1 & Hj2%lookup_lt_Some); lia.
  - intros (j & e & Hj & _ & Hk). exists (k, marshal_Event e). split; [done|]. apply elem_of_writes. by exists j, e.
Qed.

Definition small_ids (ids : gmap string Z) : Prop := ∀ n, 0 <= default 0 (ids !! n) < 2 ^ 64.

Lemma index_small_ids ids last blocks d : index_ok ids last blocks d → last < 2 ^ 64 → small_ids ids.
Proof.
  intros Hok Hl n. destruct (ids !! n) eqn:E; [|cbn; lia]. apply (io_ids _ _ _ _ Hok) in E. cbn. lia.
Qed.

Lemma writes_nodup ids h i es : 0 <= h < 2 ^ 64 → 0 <= i → i + Z.of_nat (length es) <= 2 ^ 16 →
  small_ids ids → NoDup (mjoin (writes_of ids h <$> numbered i es)).*1.
Proof.
  intros Hh Hi Hlen Hids. revert i Hi Hlen. induction es as [|e es IH]; intros i Hi Hlen; cbn [length numbered] in *; [constructor|]. cbn.
  apply NoDup_cons. split; [|apply NoDup_cons; split; [|apply IH; lia]].
  - rewrite elem_of_cons. intros [Heq|(j & e' & _ & Hj & [Heq|Heq])%write_keys]; [head_clash Heq | | head_clash Heq].
    apply key1_inj in Heq; lia.
  - intros (j & e' & _ & Hj & [Heq|Heq])%write_keys; [head_clash Heq|]. apply key3_inj in Heq; try lia; apply Hids.
Qed.

Lemma elem_of_new h es h' i e : (h', i, e) ∈ entries [(h, es)] ↔ h' = h ∧ (i, e) ∈ numbered 0 es.
Proof. rewrite elem_of_block, elem_of_numbered, Z.sub_0_r. done. Qed.

Lemma blocks_snoc blocks h es h' i e : blocks_ok (blocks ++ [(h, es)]) → (h', i, e) ∈ entries blocks → 0 <= h' < h ∧ 0 <= i < 2 ^ 16.
Proof.
  intros [Hs [Hold _]%Forall_app] Hin. pose proof (entry_bounds _ _ _ _ Hold Hin) as (? & ? & _).
  apply elem_of_entries in Hin as (b & Hb & (-> & _)%elem_of_block). split; [|done]. split; [lia|].
  apply (StronglySorted_app_1_elem_of (λ b c : Block, b.1 < c.1) blocks [(h, es)] b (h, es) Hs Hb). by apply list_elem_of_singleton.
Qed.

Section Save.
Context (d : D) (ids : gmap string Z) (last : Z) (blocks : list Block) (h : Z) (es : list EventData).
Context (Hok : index_ok ids last blocks d) (Hb : blocks_ok (blocks ++ [(h, es)])) (Hl : last < 2 ^ 64).
Context (Hkn : Forall (λ e, is_Some (ids !! name_of e)) es).
Let l := mjoin (writes_of ids h <$> numbered 0 es).

Lemma new_block_ok : 0 <= h < 2 ^ 64 ∧ Z.of_nat (length es) <= 2 ^ 16.
Proof. destruct Hb as [_ (_ & (H1 & H2 & _)%Forall_singleton)%Forall_app]. done. Qed.

Lemma save_lookup k v : db_get (db_write l d) k = Some v ↔ (k, v) ∈ l ∨ k ∉ l.*1 ∧ db_get d k = Some v.
Proof. apply write_lookup, writes_nodup; [apply new_block_ok | lia | apply new_block_ok | by eapply index_small_ids]. Qed.

Lemma save_keeps k : ¬ keys_in ids h 0 es k → db_get (db_write l d) k = db_get d k.
Proof.
  rewrite <- write_keys. fold l. intros Hk. destruct (db_get d k) as [v|] eqn:E.
  - apply save_lookup. by right.
  - destruct (db_get (db_write l d) k) as [v|] eqn:E'; [|done]. apply save_lookup in E' as [Hin|[_ Hd]]; [|congruence].
    exfalso. apply Hk, list_elem_of_fmap. by exists (k, v).
Qed.

Lemma save_events k v : db_get (db_write l d) (String (Ascii.ascii_of_nat 1) k) = Some v ↔
  ∃ h' i e, (h', i, e) ∈ entries (blocks ++ [(h, es)]) ∧ String (Ascii.ascii_of_nat 1) k = prefixBlockHeightEventIndex h' i ∧ v = marshal_Event e.
Proof.
  pose proof new_block_ok. rewrite save_lookup. unfold l. rewrite elem_of_writes, write_keys, (io_events _ _ _ _ Hok).
  setoid_rewrite entries_app. setoid_rewrite elem_of_app. split.
  - intros [(j & e & Hj & -> & [Hk|Hk])|[_ (h' & i & e & Hin & Hrest)]]; [| head_clash Hk | exists h', i, e; by split; [left|]].
    exists h, j, e. by split; [right; apply elem_of_new|].
  - intros (h' & i & e & [Hin|[-> Hin]%elem_of_new] & Hk & ->); [right | left; exists i, e; naive_solver].
    split; [|by exists h', i, e]. pose proof (blocks_snoc _ _ _ _ _ _ Hb Hin).
    rewrite Hk. intros (j & e' & _ & Hj & [Heq|Heq]); [apply key1_inj in Heq; lia | head_clash Heq].
Qed.

Lemma save_contracts k v : db_get (db_write l d) (String (Ascii.ascii_of_nat 3) k) = Some v ↔
  ∃ h' i e c, (h', i, e) ∈ entries (blocks ++ [(h, es)]) ∧ ids !! name_of e = Some c ∧
    String (Ascii.ascii_of_nat 3) k = prefixContractIDBlockHightEventIndex c h' i ∧ v = marshal_Event e.
Proof.
  pose proof new_block_ok. pose proof (index_small_ids _ _ _ _ Hok Hl) as Hids.
  rewrite save_lookup. unfold l. rewrite elem_of_writes, write_keys, (io_contracts _ _ _ _ Hok).
  setoid_rewrite entries_app. setoid_rewrite elem_of_app. split.
  - intros [(j & e & Hj & -> & [Hk|Hk])|[_ (h' & i & e & c & Hin & Hrest)]]; [head_clash Hk | | exists h', i, e, c; by split; [left|]].
    pose proof Hj as (_ & He)%elem_of_numbered. rewrite Forall_lookup in Hkn. destruct (Hkn _ _ He) as [c Hc]. rewrite Hc in Hk.
    exists h, j, e, c. by split_and!; [right; apply elem_of_new | | |].
  - intros (h' & i & e & c & [Hin|[-> Hin]%elem_of_new] & Hc & Hk & ->); [right | left; exists i, e; rewrite Hc; naive_solver].
    split; [|by exists h', i, e, c]. pose proof (blocks_snoc _ _ _ _ _ _ Hb Hin). pose proof (Hids (name_of e)) as Hce. rewrite Hc in Hce.
    rewrite Hk. intros (j & e' & _ & Hj & [Heq|Heq]); [head_clash Heq|]. apply key3_inj in Heq; try lia; [done | apply Hids].
Qed.

(** Saving a block adds its events. *)
Lemma save_ok : index_ok ids last (blocks ++ [(h, es)]) (db_write l d).
Proof.
  destruct Hok as [_ _ H3 [H4 H4'] H5 H6 H7]. constructor; try done; [apply save_events | apply save_contracts | | |].
  - intros n. rewrite save_keeps; [done|]. intros (j & e & _ & _ & [Heq|Heq]); head_clash Heq.
  - rewrite save_keeps; [done|]. intros (j & e & _ & _ & [Heq|Heq]); head_clash Heq.
  - intros h' i e. rewrite entries_app, elem_of_app. intros [Hin|[-> (_ & He)%elem_of_numbered]%elem_of_new]; [by eapply H7|].
    rewrite Forall_lookup in Hkn. by eapply Hkn.
Qed.
End Save.

Lemma BatchSaveEvents_run d ids last blocks h es :
  index_ok ids last blocks d → blocks_ok (blocks ++ [(h, es)]) → last + Z.of_nat (length es) < 2 ^ 64 →
  ∃ d' ids' last', BatchSaveEvents es d = (Ok (), d') ∧ index_ok ids' last' (blocks ++ [(h, es)]) d' ∧ last' <= last + Z.of_nat (length es).
Proof.
  intros Hok Hb Hl. pose proof Hb as [_ (_ & (Hh & Hlen & Hes)%Forall_singleton)%Forall_app]. cbn in *.
  destruct (batch_events_run h es 0 [] d ids last blocks) as (d1 & ids1 & last1 & Hrun & Hok1 & _ & Hl1 & Hkn); [done | lia | lia | done | lia |].
  unfold BatchSaveEvents. m_eval. rewrite Hrun. m_eval. cbn [app].
  eexists _, ids1, last1. split_and!; [done | apply save_ok; [done | done | lia | done] | done].
Qed.

(** ** Queries *)

(** What a filter asks for. *)
Definition selects (f : EventFilter) (e : EventData) : bool :=
  (FromBlock f <=? ev_BlockHeight e) && (ev_BlockHeight e <=? ToBlock f) &&
  (String.eqb (EF_Contract f) "" || String.eqb (EF_Contract f) (name_of e)).

#[local] Instance key_antisymm : AntiSymm eq (λ x y : bytes * bytes, bytes_compare x.1 y.1 < 0).
Proof. intros x y H1 H2. exfalso. apply (cmp_antisym (cmp := bytes_compare)) in H2. lia. Qed.

Lemma key_sorted_nodup (l : list (bytes * bytes)) : StronglySorted (λ x y, bytes_compare x.1 y.1 < 0) l → NoDup l.
Proof.
  induction 1 as [|x l Hs IH Hx]; constructor; [|done]. intros Hin. rewrite Forall_forall in Hx. specialize (Hx _ Hin).
  rewrite cmp_refl in Hx by apply _. lia.
Qed.

(** An iteration is determined by what it meets. *)
Lemma iterate_is d s e (l : list (bytes * bytes)) :
  StronglySorted (λ x y, bytes_compare x.1 y.1 < 0) l →
  (∀ k v, (k, v) ∈ l ↔ db_get d k = Some v ∧ bytes_compare s k <= 0 ∧ bytes_compare k e < 0) → db_iterate d s e = l.
Proof.
  intros Hs Hl. apply (StronglySorted_unique (λ x y, bytes_compare x.1 y.1 < 0)); [apply db_iterate_sorted | done|].
  apply NoDup_Permutation; [apply key_sorted_nodup, db_iterate_sorted | by apply key_sorted_nodup|].
  intros [k v]. by rewrite db_iterate_elem, Hl.
Qed.

Lemma read_marshalled {A} (f : A → bytes) (g : A → EventData) (l : list A) :
  read_events ((λ x, (f x, marshal_Event (g x))) <$> l) = Ok (g <$> l).
Proof. induction l as [|x l IH]; [done|]. cbn. rewrite unmarshal_marshal_Event, IH. done. Qed.

Lemma filter_sorted {A} (R : relation A) (p : A → bool) l : StronglySorted R l → StronglySorted R (List.filter p l).
Proof.
  induction 1 as [|x l Hs IH Hx]; [constructor|]. cbn. destruct (p x); [|done]. constructor; [done|].
  rewrite Forall_forall in Hx |- *. intros y Hy. apply Hx. apply list_elem_of_In in Hy. apply list_elem_of_In. by apply filter_In in Hy as [? _].
Qed.

Lemma sorted_fmap {A} (R : relation A) (P : A → Prop) (f : A → bytes * bytes) l :
  StronglySorted R l → Forall P l → (∀ x y, P x → P y → R x y → bytes_compare (f x).1 (f y).1 < 0) →
  StronglySorted (λ x y, bytes_compare x.1 y.1 < 0) (f <$> l).
Proof.
  intros Hs HP Hf. induction Hs as [|x l Hs IH Hx]; [constructor|]. apply Forall_cons_1 in HP as [Hx0 HP]. cbn. constructor; [by apply IH|].
  apply Forall_fmap. rewrite Forall_forall in Hx, HP |- *. intros y Hy. apply Hf; [done | by apply HP | by apply Hx].
Qed.

Lemma filter_snd {A} (p : EventData → bool) (l : list (A * EventData)) : (List.filter (λ x, p x.2) l).*2 = List.filter p l.*2.
Proof. induction l as [|x l IH]; [done|]. cbn. destruct (p x.2); cbn; by rewrite IH. Qed.

Lemma elem_of_filter_entries (p : EventData → bool) blocks h i e :
  (h, i, e) ∈ List.filter (λ x, p x.2) (entries blocks) ↔ (h, i, e) ∈ entries blocks ∧ p e = true.
Proof. rewrite !list_elem_of_In, filter_In. done. Qed.

Definition entry_ok (x : Z * Z * EventData) : Prop := 0 <= x.1.1 < 2 ^ 64 ∧ 0 <= x.1.2 < 2 ^ 16 ∧ ev_BlockHeight x.2 = x.1.1.

Lemma entries_ok blocks (p : Z * Z * EventData → bool) : blocks_ok blocks → Forall entry_ok (List.filter p (entries blocks)).
Proof.
  intros [_ Hb]. apply Forall_forall. intros [[h i] e] Hin%list_elem_of_In. apply filter_In in Hin as [Hin%list_elem_of_In _].
  by apply entry_bounds in Hin as (? & ? & ? & _).
Qed.

Definition in_range (from to : Z) (e : EventData) : bool := (from <=? ev_BlockHeight e) && (ev_BlockHeight e <=? to).

Lemma in_range_iff from to e : in_range from to e = true ↔ from <= ev_BlockHeight e <= to.
Proof. unfold in_range. rewrite andb_true_iff, !Z.leb_le. done. Qed.

Lemma iterate_all d ids last blocks from to :
  index_ok ids last blocks d → blocks_ok blocks → 0 <= from < 2 ^ 64 → 0 <= to < 2 ^ 64 - 1 →
  db_iterate d (prefixBlockHeightEventIndex from 0) (prefixBlockHeightEventIndex (to + 1) 0) =
    (λ x, (prefixBlockHeightEventIndex x.1.1 x.1.2, marshal_Event x.2)) <$> List.filter (λ x, in_range from to x.2) (entries blocks).
Proof.
  intros Hok Hb Hfrom Hto. apply iterate_is.
  - apply (sorted_fmap entry_lt entry_ok); [by apply filter_sorted, entries_sorted | by apply entries_ok|].
    intros [[h i] e] [[h' i'] e'] (? & ? & _) (? & ? & _) Hlt. cbn in *.
    rewrite bytes_compare_lt, key1_compare, then_compare_lt, !Z.compare_lt_iff, Z.compare_eq_iff by done. exact Hlt.
  - intros k v. split.
    + intros ([[h i] e] & [= -> ->] & [Hin Hr%in_range_iff]%elem_of_filter_entries)%list_elem_of_fmap. cbn.
      pose proof (entry_bounds _ _ _ _ (proj2 Hb) Hin) as (? & ? & He & _). rewrite He in Hr. split; [|by apply range1].
      destruct (key1_head h i) as [k' Hk]. rewrite Hk. apply (io_events _ _ _ _ Hok). by exists h, i, e.
    + intros (Hk & Hge & Hlt). destruct (key1_head from 0) as [k1 Hk1], (key1_head (to + 1) 0) as [k2 Hk2].
      destruct (between_same_head (Ascii.ascii_of_nat 1) k1 k2 k) as [k' ->]; [by rewrite <- Hk1 | by rewrite <- Hk2|].
      apply (io_events _ _ _ _ Hok) in Hk as (h & i & e & Hin & Hk & ->). rewrite Hk in Hge, Hlt |- *.
      pose proof (entry_bounds _ _ _ _ (proj2 Hb) Hin) as (? & ? & He & _).
      apply list_elem_of_fmap. exists (h, i, e). split; [done|]. apply elem_of_filter_entries. split; [done|]. apply in_range_iff. rewrite He.
      by apply (range1 from to h i).
Qed.

Lemma iterate_contract d ids last blocks from to n c :
  index_ok ids last blocks d → last < 2 ^ 64 → blocks_ok blocks → 0 <= from < 2 ^ 64 → 0 <= to < 2 ^ 64 - 1 → ids !! n = Some c →
  db_iterate d (prefixContractIDBlockHight c from) (prefixContractIDBlockHight c (to + 1)) =
    (λ x, (prefixContractIDBlockHightEventIndex c x.1.1 x.1.2, marshal_Event x.2)) <$>
      List.filter (λ x, in_range from to x.2 && String.eqb n (name_of x.2)) (entries blocks).
Proof.
  intros Hok Hl Hb Hfrom Hto Hn. pose proof (index_small_ids _ _ _ _ Hok Hl) as Hids. pose proof (Hids n) as Hc. rewrite Hn in Hc. cbn in Hc.
  apply iterate_is.
  - apply (sorted_fmap entry_lt entry_ok); [by apply filter_sorted, entries_sorted | by apply entries_ok|].
    intros [[h i] e] [[h' i'] e'] (? & ? & _) (? & ? & _) Hlt. cbn in *.
    rewrite bytes_compare_lt, key3_compare, Z.compare_refl by done. cbn [then_compare].
    rewrite then_compare_lt, !Z.compare_lt_iff, Z.compare_eq_iff. exact Hlt.
  - intros k v. split.
    + intros ([[h i] e] & [= -> ->] & [Hin [Hr%in_range_iff Hne%String.eqb_eq]%andb_true_iff]%
        (elem_of_filter_entries (λ e, in_range from to e && String.eqb n (name_of e))))%list_elem_of_fmap. cbn.
      pose proof (entry_bounds _ _ _ _ (proj2 Hb) Hin) as (? & ? & He & _). rewrite He in Hr. split; [|by apply range3].
      destruct (key3_head c h i) as [k' Hk]. rewrite Hk. apply (io_contracts _ _ _ _ Hok). exists h, i, e, c. by rewrite <- Hne.
    + intros (Hk & Hge & Hlt). destruct (bound3_head c from) as [k1 Hk1], (bound3_head c (to + 1)) as [k2 Hk2].
      destruct (between_same_head (Ascii.ascii_of_nat 3) k1 k2 k) as [k' ->]; [by rewrite <- Hk1 | by rewrite <- Hk2|].
      apply (io_contracts _ _ _ _ Hok) in Hk as (h & i & e & c' & Hin & Hc' & Hk & ->). rewrite Hk in Hge, Hlt |- *.
      pose proof (entry_bounds _ _ _ _ (proj2 Hb) Hin) as (? & ? & He & _). pose proof (Hids (name_of e)) as Hb'. rewrite Hc' in Hb'.
      destruct (proj1 (range3 c from to c' h i Hc ltac:(lia) ltac:(lia) Hb' ltac:(lia)) (conj Hge Hlt)) as [-> Hr].
      apply list_elem_of_fmap. exists (h, i, e). split; [done|].
      apply (elem_of_filter_entries (λ e, in_range from to e && String.eqb n (name_of e))). split; [done|].
      apply andb_true_iff. split; [by apply in_range_iff; rewrite He | apply String.eqb_eq; by eapply (io_inj _ _ _ _ Hok)].
Qed.

Lemma filter_run d ids last blocks f :
  index_ok ids last blocks d → blocks_ok blocks → last < 2 ^ 64 - 1 → 0 <= FromBlock f < 2 ^ 64 → 0 <= ToBlock f < 2 ^ 64 - 1 →
  ∃ d' ids' last', FilterEvents f d = (Ok (List.filter (selects f) (mjoin blocks.*2)), d') ∧ index_ok ids' last' blocks d' ∧ last' <= last + 1.
Proof.
  intros Hok Hb Hl Hfrom Hto. unfold FilterEvents. rewrite u64_small by lia. destruct (String.eqb (EF_Contract f) "") eqn:Ec; cbn [negb].
  - m_eval. unfold id. rewrite (iterate_all d ids last blocks) by done. rewrite (read_marshalled _ snd).
    exists d, ids, last. split_and!; [|done | lia]. do 2 f_equal.
    rewrite (filter_snd (in_range (FromBlock f) (ToBlock f))), entries_events.
    apply filter_ext. intros e. unfold selects. rewrite Ec. cbn. by rewrite andb_true_r.
  - m_eval. destruct (GetContractID_run d ids last blocks (EF_Contract f) Hok Hl) as (c & d1 & ids1 & last1 & -> & Hok1 & Hc & _ & Hl1).
    m_eval. unfold id. rewrite (iterate_contract d1 ids1 last1 blocks _ _ (EF_Contract f)) by (done || lia). rewrite (read_marshalled _ snd).
    exists d1, ids1, last1. split_and!; [|done | done]. do 2 f_equal.
    rewrite (filter_snd (λ e, in_range (FromBlock f) (ToBlock f) e && String.eqb (EF_Contract f) (name_of e))), entries_events.
    apply filter_ext. intros e. unfold selects. by rewrite Ec.
Qed.
End Index.

(** ** From contracts to queries *)

Lemma forM_cons {W B} (x : B) l (f : B → M W unit) w : forM (x :: l) f w = (f x;; forM l f) w.
Proof. unfold forM, mbind, M_bind. cbn. unfold mbind, M_bind. by destruct (f x w) as [[[]|?|] w']. Qed.

Lemma imap_snd {A} (l : list A) : (imap pair l).*2 = l.
Proof. rewrite fmap_imap. induction l as [|e l IH]; [done|]. cbn. f_equal. exact IH. Qed.

Lemma ignore_ok {W} (m : M W unit) w w' : m w = (Ok (), w') → ignore_err m w = (Ok (), w').
Proof. intros Hm. m_eval. by rewrite Hm. Qed.

Section Emission.
Context `{JoinsKeys} {EC : EventCodec} {ECS : EventCodecSpec} {D N : Type} {DB : OrderedDB D} {DBS : OrderedDBSpec D}.
Context (publish : Publication → M N unit).
(** Publishing to subscribers does not panic. *)
Context (publish_returns : ∀ p n, ∃ n', publish p n = (Ok (), n')).
Implicit Types w : EventWorld D N.

Definition with_height (h : Z) (e : EventData) : EventData := if ev_BlockHeight e =? 0 then ev_with_Height h e else e.

(** An event as the index gets it. *)
Definition finished (h t : Z) (e : EventData) : EventData := ev_with_Time t (with_height h e).

Lemma net_run p w : ∃ n', on_net (publish p) w = (Ok (), mkEventWorld (ew_stash w) (ew_events w) (ew_db w) n').
Proof. destruct (publish_returns p (ew_net w)) as [n' Hn]. exists n'. unfold on_net, zoom. by rewrite Hn. Qed.

Lemma topics_run topics msg w :
  ∃ n', forM topics (λ topic, on_net (publish (PublishTopic topic msg))) w = (Ok (), mkEventWorld (ew_stash w) (ew_events w) (ew_db w) n').
Proof.
  revert w. induction topics as [|topic topics IH]; intros w; [exists (ew_net w); by destruct w|].
  rewrite forM_cons. destruct (net_run (PublishTopic topic msg) w) as [n1 H1]. erewrite bind_ok; [|exact H1]. apply (IH (mkEventWorld _ _ _ n1)).
Qed.

Lemma emit_event_run e w : ∃ n', emit_event publish e w = (Ok (), mkEventWorld (ew_stash w) (ew_events w ++ [e]) (ew_db w) n').
Proof.
  unfold emit_event.
  assert (ignore_err (Indexer_Send (json_Event e)) w = (Ok (), on_pending (λ l, l ++ [e]) w)) as Hs.
  { apply ignore_ok. unfold Indexer_Send. by rewrite unjson_json_Event. }
  erewrite bind_ok; [|exact Hs]. clear Hs.
  edestruct net_run as [n1 H1]. erewrite bind_ok; [|exact H1]. clear H1.
  edestruct net_run as [n2 H2]. apply ignore_ok in H2. erewrite bind_ok; [|exact H2]. clear H2.
  edestruct net_run as [n3 H3]. erewrite bind_ok; [|exact H3]. clear H3.
  apply (topics_run _ _ (mkEventWorld _ _ _ n3)).
Qed.

Lemma emit_all_run h t im w : ∃ n' m', forM im (emit_stashed publish h t) w =
  (Ok (), mkEventWorld m' (ew_events w ++ (ev_with_Time t <$> im.*2)) (ew_db w) n') ∧ delete h m' = delete h (ew_stash w).
Proof.
  revert w. induction im as [|[i e] im IH]; intros w.
  { exists (ew_net w), (ew_stash w). cbn. rewrite app_nil_r. by destruct w. }
  rewrite forM_cons.
  destruct (emit_event_run (ev_with_Time t e) (on_stash (alter (alter (ev_with_Time t) i) h) w)) as [n1 H1].
  change (emit_stashed publish h t (i, e) w = (Ok (), mkEventWorld (alter (alter (ev_with_Time t) i) h (ew_stash w)) (ew_events w ++ [ev_with_Time t e]) (ew_db w) n1)) in H1.
  erewrite bind_ok; [|exact H1]. clear H1.
  edestruct IH as (n2 & m2 & -> & Hm). exists n2, m2. cbn. rewrite <- app_assoc. split; [done|]. rewrite Hm. cbn.
  apply map_eq. intros h'. rewrite !lookup_delete. case_decide; [done|]. by rewrite lookup_alter_ne.
Qed.

(** Emitting a block saves its events and forgets them. *)
Lemma emit_block_run h t w d' :
  ew_events w = [] → BatchSaveEvents (ev_with_Time t <$> stash_fetch h w) (ew_db w) = (Ok (), d') →
  ∃ n', EmitBlockTx publish h t w = (Ok (), mkEventWorld (delete h (ew_stash w)) [] d' n').
Proof.
  intros He Hb. unfold EmitBlockTx.
  assert (gets (id : EventWorld D N → _) w = (Ok w, w)) as Hg by done. erewrite bind_ok; [|exact Hg]. clear Hg.
  edestruct net_run as [n1 H1]. erewrite bind_ok; [|exact H1]. clear H1.
  edestruct net_run as [n2 H2]. erewrite bind_ok; [|exact H2]. clear H2.
  edestruct emit_all_run as (n3 & m3 & H3 & Hm). erewrite bind_ok; [|exact H3]. clear H3. cbn [ew_events ew_db ew_stash].
  assert ((imap pair (stash_fetch h w)).*2 = stash_fetch h w) as ->.
  { apply imap_snd. }
  rewrite He. cbn [app].
  assert (Indexer_Flush (mkEventWorld m3 (ev_with_Time t <$> stash_fetch h w) (ew_db w) n3) = (Ok (), mkEventWorld m3 [] d' n3)) as Hf.
  { unfold Indexer_Flush. do 2 (erewrite bind_ok; [|reflexivity]). apply ignore_ok. unfold on_db, zoom. cbn -[BatchSaveEvents stash_fetch].
    unfold id. cbn -[BatchSaveEvents stash_fetch]. by rewrite Hb. }
  erewrite bind_ok; [|exact Hf]. exists n3. unfold stash_purge, modify, on_stash. cbn. cbn in Hm. by rewrite Hm.
Qed.

Lemma posts_run h es w : ∃ w', forM es (DefaultEventHandler_Post h) w = (Ok (), w') ∧
  stash_fetch h w' = stash_fetch h w ++ (with_height h <$> es) ∧ delete h (ew_stash w') = delete h (ew_stash w) ∧
  ew_events w' = ew_events w ∧ ew_db w' = ew_db w.
Proof.
  revert w. induction es as [|e es IH]; intros w.
  { exists w. cbn. by rewrite app_nil_r. }
  rewrite forM_cons. erewrite (bind_ok _ _ w () _); [|reflexivity].
  edestruct IH as (w' & -> & H1 & H2 & H3 & H4). exists w'. rewrite H1, H2, H3, H4. split_and!; try done.
  - unfold stash_fetch. cbn. rewrite lookup_insert_eq. cbn. by rewrite <- app_assoc.
  - cbn. apply delete_insert_eq.
Qed.

(** What happens at a node: blocks, whose transactions post events before they are
    emitted, and queries, which may number a contract.  [n] counts what may take a
    number. *)
Inductive node_history (w0 : EventWorld D N) : Z → list Block → EventWorld D N → Prop :=
  | nh_start : node_history w0 0 [] w0
  | nh_block n bs w h t es w1 w2 :
      node_history w0 n bs w → forM es (DefaultEventHandler_Post h) w = (Ok (), w1) → EmitBlockTx publish h t w1 = (Ok (), w2) →
      node_history w0 (n + Z.of_nat (length es)) (bs ++ [(h, finished h t <$> es)]) w2
  | nh_query n bs w f r d' :
      node_history w0 n bs w → FilterEvents f (ew_db w) = (r, d') →
      node_history w0 (n + 1) bs (mkEventWorld (ew_stash w) (ew_events w) d' (ew_net w)).

Record node_ok (n : Z) (bs : list Block) w : Prop := {
  nk_stash : ew_stash w = ∅;
  nk_events : ew_events w = [];
  nk_index : ∃ ids last, index_ok ids last bs (ew_db w) ∧ last <= n;
}.

Lemma node_block_run n bs w h t es :
  node_ok n bs w → blocks_ok (bs ++ [(h, finished h t <$> es)]) → n + Z.of_nat (length es) < 2 ^ 64 - 1 →
  ∃ w1 w2, forM es (DefaultEventHandler_Post h) w = (Ok (), w1) ∧ EmitBlockTx publish h t w1 = (Ok (), w2) ∧
    node_ok (n + Z.of_nat (length es)) (bs ++ [(h, finished h t <$> es)]) w2.
Proof.
  intros [Hs He (ids & last & Hok & Hl)] Hb Hn. destruct (posts_run h es w) as (w1 & Hp & Hf & Hd & He1 & Hdb).
  assert (stash_fetch h w1 = with_height h <$> es) as Hf1 by (rewrite Hf; unfold stash_fetch; by rewrite Hs, lookup_empty).
  destruct (BatchSaveEvents_run (ew_db w1) ids last bs h (finished h t <$> es)) as (d' & ids' & last' & Hrun & Hok' & Hl').
  { by rewrite Hdb. } { done. } { rewrite length_fmap. lia. }
  destruct (emit_block_run h t w1 d') as [n' Hemit]; [by rewrite He1 | rewrite Hf1, <- list_fmap_compose; exact Hrun|].
  eexists w1, _. split_and!; [done | exact Hemit|]. constructor; cbn; [by rewrite Hd, Hs, delete_empty | done|].
  exists ids', last'. rewrite length_fmap in Hl'. split; [done | lia].
Qed.

Lemma filter_keeps d ids last bs f r d' : index_ok ids last bs d → last < 2 ^ 64 - 1 → FilterEvents f d = (r, d') →
  ∃ ids' last', index_ok ids' last' bs d' ∧ last' <= last + 1.
Proof.
  intros Hok Hl. unfold FilterEvents. destruct (negb _).
  - m_eval. destruct (GetContractID_run d ids last bs (EF_Contract f) Hok Hl) as (c & d1 & ids1 & last1 & -> & Hok1 & _ & _ & Hl1).
    m_eval. intros [= <- <-]. by exists ids1, last1.
  - m_eval. intros [= <- <-]. exists ids, last. split; [done | lia].
Qed.

Lemma blocks_ok_app bs cs : blocks_ok (bs ++ cs) → blocks_ok bs.
Proof. intros [Hs [Hf _]%Forall_app]. split; [by eapply StronglySorted_app_1_l | done]. Qed.

Lemma node_history_ok w0 n bs w : node_ok 0 [] w0 → node_history w0 n bs w → blocks_ok bs → n < 2 ^ 64 - 1 → node_ok n bs w.
Proof.
  intros H0' Hh. induction Hh as [|n bs w h t es w1 w2 Hh IH Hp He|n bs w f r d' Hh IH Hf]; intros Hb Hn; [done | |].
  - destruct (node_block_run n bs w h t es) as (w1' & w2' & Hp' & He' & Hok); [apply IH; [by eapply blocks_ok_app | lia] | done | done|].
    rewrite Hp in Hp'. injection Hp' as <-. rewrite He in He'. by injection He' as <-.
  - destruct IH as [Hs He (ids & last & Hok & Hl)]; [done | lia|].
    destruct (filter_keeps _ _ _ _ _ _ _ Hok ltac:(lia) Hf) as (ids' & last' & Hok' & Hl').
    constructor; cbn; [done | done|]. exists ids', last'. split; [done | lia].
Qed.

End Emission.
