(* ===== verification/EventWitnesses.v ===== *)
(** * Events on a concrete database

    A database kept in a map whose iterator sorts, and the theorem of
    EventStoreTheorems.v applied to a block with two events. *)

From S2P Require Import Prelude Contract Store Middleware App Receipts ReceiptsWitnesses EventStore EventStoreTheorems.

Module EventWitness.
#[local] Existing Instance ReceiptsWitness.event_eq.
#[local] Existing Instance ReceiptsWitness.event_countable.

Definition key_le (x y : bytes * bytes) : Prop := bytes_compare x.1 y.1 <= 0.
#[local] Instance key_le_dec x y : Decision (key_le x y).
Proof. unfold key_le. apply _. Defined.
#[local] Instance key_le_trans : Transitive key_le.
Proof.
  intros x y z. unfold key_le. intros H1 H2. destruct (cmp_trichotomy bytes_compare x.1 y.1) as [Hxy|[->|Hxy]]; [|done|].
  - destruct (cmp_trichotomy bytes_compare y.1 z.1) as [Hyz|[<-|Hyz]]; [|done|].
    + pose proof (cmp_trans (cmp := bytes_compare) _ _ _ Hxy Hyz). lia.
    + apply (cmp_antisym (cmp := bytes_compare)) in Hyz. lia.
  - apply (cmp_antisym (cmp := bytes_compare)) in Hxy. lia.
Qed.
#[local] Instance key_le_total : Total key_le.
Proof.
  intros x y. unfold key_le. destruct (cmp_trichotomy bytes_compare x.1 y.1) as [H|[->|H]]; [left; lia | left; by rewrite cmp_refl by apply _ | right; lia].
Qed.

#[local] Instance map_db : OrderedDB (gmap bytes bytes) := {|
  db_get d k := d !! k;
  db_set k v d := <[k := v]> d;
  db_write l d := foldl (λ d kv, <[kv.1 := kv.2]> d) d l;
  db_iterate d s e := merge_sort key_le (filter (λ x, bytes_compare s x.1 <= 0 ∧ bytes_compare x.1 e < 0) (map_to_list d));
|}.

Lemma strict_keys (l : list (bytes * bytes)) : NoDup l.*1 → StronglySorted key_le l → StronglySorted (λ x y, bytes_compare x.1 y.1 < 0) l.
Proof.
  intros Hnd Hs. induction Hs as [|x l Hs IH Hx]; [constructor|]. cbn in Hnd. apply NoDup_cons in Hnd as [Hn Hnd]. constructor; [by apply IH|].
  rewrite Forall_forall in Hx |- *. intros y Hy. specialize (Hx y Hy). unfold key_le in Hx.
  destruct (decide (bytes_compare x.1 y.1 = 0)) as [E|E]; [|lia]. apply (cmp_eq (cmp := bytes_compare)) in E.
  exfalso. apply Hn. rewrite E. by apply list_elem_of_fmap_2.
Qed.

#[local] Instance map_db_spec : OrderedDBSpec (gmap bytes bytes).
Proof.
  split.
  - intros d k v k'. cbn. rewrite lookup_insert. destruct (decide (k' = k)) as [->|Hne]; [by rewrite decide_True|]. by rewrite decide_False.
  - done.
  - intros d s e k v. cbn. rewrite merge_sort_Permutation, list_elem_of_filter, elem_of_map_to_list. cbn. naive_solver.
  - intros d s e. cbn. apply strict_keys; [|apply StronglySorted_merge_sort; apply _].
    rewrite merge_sort_Permutation. eapply sublist_NoDup; [apply (NoDup_fst_map_to_list d)|]. apply fmap_sublist, sublist_filter.
Qed.

#[local] Instance codec : EventCodec := {|
  marshal_Event := SimpleLib.pack; unmarshal_Event := SimpleLib.unpack; json_Event := SimpleLib.pack; unjson_Event := SimpleLib.unpack;
|}.
#[local] Instance codec_spec : EventCodecSpec.
Proof. split; intros e; apply SimpleLib.unpack_pack. Qed.

#[local] Instance join_lib : DiademLib := {|
  local_compare := bytes_compare;
  address_compare a b := bytes_compare (SimpleLib.to_string a) (SimpleLib.to_string b);
  address_string := SimpleLib.to_string;
  parse_address := SimpleLib.of_string;
  address_bytes := SimpleLib.to_string;
  local_from_pubkey pk := pk;
  prefix_key := join_zero;
|}.
#[local] Instance joins : JoinsKeys.
Proof. done. Qed.

Definition publish (p : Publication) : M unit unit := mret ().

Definition w0 : EventWorld (gmap bytes bytes) unit := mkEventWorld ∅ [] ∅ ().
Definition sold : EventData := mkEventData ["Sold"] None None "shop" 0 "a" "" "" "" 0 0.
Definition moved : EventData := mkEventData [] None None "store" 0 "b" "" "" "" 0 0.
Definition w1 : EventWorld (gmap bytes bytes) unit := (forM [sold; moved] (DefaultEventHandler_Post 7) w0).2.
Definition w2 : EventWorld (gmap bytes bytes) unit := (EmitBlockTx publish 7 100 w1).2.

Lemma w1_posted : forM [sold; moved] (DefaultEventHandler_Post 7) w0 = (Ok (), w1).
Proof. by apply run_ok. Qed.
Lemma w2_emitted : EmitBlockTx publish 7 100 w1 = (Ok (), w2).
Proof. unfold w2. apply (run_ok (EmitBlockTx publish 7 100 w1) ()). by vm_compute. Qed.

Lemma block7_ok : blocks_ok [(7, finished 7 100 <$> [sold; moved])].
Proof. split; [repeat constructor|]. repeat constructor; cbn; lia. Qed.

End EventWitness.
