(* ===== verification/PluginVM.v ===== *)
(** * The virtual machines of Go and EVM contracts

    src/plugin/vm.go (running Go contracts and what a contract can do through its
    context), src/plugin/loader.go and internal.go (finding contracts by name) and the
    wrapper src/evm/loomevm.go around the EVM.

    The code of a Go contract is a [Prog]: what it asks of its context, one request after
    the other, and what it does with the answers.  The EVM itself, the loaders of compiled
    contracts and protocol buffers are parameters. *)

From S2P Require Import Prelude Contract Store Middleware App DeployerWhitelist Registry TxHandlers Receipts.

(** ** Data *)

(** [plugin.Code] and [plugin.Request] (its body is what events repeat). *)
Record PluginCode := mkPluginCode { pc_Name : string; pc_Input : bytes }.
Record Request := mkRequest { rq_Body : bytes; rq_Rest : bytes }.
Abbreviation Response := bytes (only parsing).

(** What contexts tell about the transaction and the block. *)
Record CtxInfo := mkCtxInfo { ci_Sender : Address; ci_ContractAddress : Address; ci_Height : Z; ci_Time : Z; ci_ChainID : string }.

Record ContractRecord := mkContractRecord { cr_ContractName : string; cr_ContractAddress : Address; cr_CreatorAddress : Address }.

(** The methods of [plugin.Context]. *)
Inductive Op :=
  | OGet (key : bytes)
  | OHas (key : bytes)
  | ORange (prefix : bytes)
  | OInfo
  | OResolve (name : string)
  | OContractRecord (addr : Address)
  | OFeatureEnabled (name : string) (defaultVal : bool)
  | OValidators
  | OGetEvmTxReceipt (hash : bytes)
  | OStaticCall (addr : Address) (input : bytes)
  | OStaticCallEVM (addr : Address) (input : bytes)
  | OSet (key value : bytes)
  | ODelete (key : bytes)
  | OCall (addr : Address) (input : bytes)
  | OCallEVM (addr : Address) (input : bytes) (value : Z)
  | OEmit (event : bytes) (topics : list string).

(** What they return; an error is a value of the caller. *)
Definition answer (op : Op) : Type :=
  match op with
  | OGet _ => option bytes
  | OHas _ | OFeatureEnabled _ _ => bool
  | ORange _ => list (bytes * bytes)
  | OInfo => CtxInfo
  | OResolve _ => Address + error
  | OContractRecord _ => ContractRecord + error
  | OValidators => list (bytes * Z)
  | OGetEvmTxReceipt _ => EvmTxReceipt + error
  | OStaticCall _ _ | OStaticCallEVM _ _ | OCall _ _ | OCallEVM _ _ _ => bytes + error
  | OSet _ _ | ODelete _ | OEmit _ _ => unit
  end.

(** The methods of [plugin.StaticContext]. *)
Definition is_static (op : Op) : bool :=
  match op with OSet _ _ | ODelete _ | OCall _ _ | OCallEVM _ _ _ | OEmit _ _ => false | _ => true end.

Inductive Prog (A : Type) :=
  | Return (r : Res A)
  | Do (op : Op) (k : answer op → Prog A).
Arguments Return {A}.
Arguments Do {A}.

Inductive static {A} : Prog A → Prop :=
  | static_return r : static (Return r)
  | static_do op k : is_static op = true → (∀ x, static (k x)) → static (Do op k).

(** [plugin.Contract]: a static call only gets the methods of [plugin.StaticContext]. *)
Record GoContract := mkGoContract {
  gc_Init : Request → Prog unit;
  gc_Call : Request → Prog Response;
  gc_StaticCall : Request → Prog Response;
  gc_static req : static (gc_StaticCall req);
}.

Class PluginLib := {
  unmarshal_Code : bytes → option PluginCode;
  marshal_Code : PluginCode → bytes;
  unmarshal_Request : bytes → option Request;
  marshal_Response : Response → bytes;
  sha3_256 : bytes → bytes;
  data_prefix : Address → bytes;
  text_key : Address → bytes;
}.

Class PluginLibSpec `{DiademLib} `{PluginLib} : Prop := {
  unmarshal_marshal_Code c : unmarshal_Code (marshal_Code c) = Some c;
  text_keys_apart a b key : text_key a ≠ prefix_key [data_prefix b; key];
}.

(** A call that was made, for the record: it does not exist in the code. *)
Inductive Invocation :=
  | GoCall (caller addr : Address)
  | EvmCall (caller addr : Address).

(** ** Running contracts *)

Record PWorld (T E : Type) := mkPWorld { pw_tx : TxWorld T (REnv E); pw_calls : list Invocation }.
Arguments mkPWorld {T E}.
Arguments pw_tx {T E}.
Arguments pw_calls {T E}.

(** [contractContext] *)
Record contractContext := mkContext {
  cc_caller : Address;
  cc_address : Address;
  cc_readOnly : bool;
  cc_pluginName : string;
  cc_req : Request;
}.

Section PluginVM.
Context {LIB : DiademLib} {PLIB : PluginLib} {RL : ReceiptLib} {T E : Type} {KV : KVStore T} {REG : Registry T}.
(** The loader, the block of the state, its validators and the event handler. *)
Context (LoadContract : string → Z → Res GoContract).
Context (block : TxState) (now : Z) (validatorSet : T → Res (list (bytes * Z))).
Context (eventPost : Z → EventData → M E unit).
(** Whether the EVM sees balances of ether, and the EVM. *)
Context (withABM : bool).
Context (evmCall : Address → Address → bytes → Z → M (TxWorld T (REnv E)) bytes).
Context (evmStaticCall : Address → Address → bytes → M (TxWorld T (REnv E)) bytes).
Abbreviation W := (PWorld T E).

Definition on_ptx {A} (m : M (TxWorld T (REnv E)) A) : M W A := zoom pw_tx (λ t w, mkPWorld t (pw_calls w)) m.
Definition on_state {A} (m : M T A) : M W A := on_ptx (on_tx m).
Definition state_of (w : W) : T := tw_store (pw_tx w).
Definition record_call (i : Invocation) : M W unit := modify (λ w, mkPWorld (pw_tx w) (pw_calls w ++ [i])).

(** The slice of the contract: [State.WithPrefix(DataPrefix(addr))]. *)
Definition slice (ctx : contractContext) (s : T) : prefixStore T := PrefixKVStore (data_prefix (cc_address ctx)) s.

Definition CreateContractContext (caller addr : Address) (readOnly : bool) : contractContext :=
  mkContext caller addr readOnly "" (mkRequest "" "").

(** Three places are asked; the last one answers whatever the hash. *)
Definition GetEvmTxReceipt (hash : bytes) (w : W) : Res EvmTxReceipt :=
  let r := tw_env (pw_tx w) in
  let found (x : Res EvmTxReceipt) := match x with Ok rc => negb (no_bytes (tr_TxHash rc)) | _ => false end in
  match GetReceipt (state_of w) hash r with
  | Panic => Panic
  | x =>
      if found x then x
      else let y := GetPendingReceipt hash r in
           if found y then y
           else match GetCurrentReceipt r with Some r2 => Ok r2 | None => y end
  end.

Definition EmitTopics (ctx : contractContext) (event : bytes) (topics : list string) : M W unit :=
  if cc_readOnly ctx then mret ()
  else on_ptx (on_events (ignore_err (eventPost (u64 (ts_Height block))
    (mkEventData topics (Some (cc_caller ctx)) (Some (cc_address ctx)) (cc_pluginName ctx) 0 event (rq_Body (cc_req ctx)) "" "" 0 0)))).

(** The factory of balance managers looks up the contract of ether. *)
Definition resolve_ethcoin : M W unit :=
  if withABM then w ← gets (id : W → W); _ ← lift_res (reg_Resolve "ethcoin" (state_of w)); mret () else mret ().

Definition PluginVM_CallEVM (caller addr : Address) (input : bytes) (value : Z) : M W bytes :=
  resolve_ethcoin;; record_call (EvmCall caller addr);; on_ptx (evmCall caller addr input value).
Definition PluginVM_StaticCallEVM (caller addr : Address) (input : bytes) : M W bytes :=
  resolve_ethcoin;; on_ptx (evmStaticCall caller addr input).

(** One request of a contract; [call] and [staticCall] are the methods of the machine
    and get the contract's own address as the caller. *)
Definition exec_op (call staticCall : Address → Address → bytes → M W bytes) (ctx : contractContext) (op : Op) : M W (answer op) :=
  match op return M W (answer op) with
  | OGet key => gets (λ w, prefixReader_Get (slice ctx (state_of w)) key)
  | OHas key => gets (λ w, prefixReader_Has (slice ctx (state_of w)) key)
  | ORange prefix => w ← gets (id : W → W); lift_res (prefixReader_Range (slice ctx (state_of w)) prefix)
  | OInfo => mret (mkCtxInfo (cc_caller ctx) (cc_address ctx) (ts_Height block) now (ts_ChainID block))
  | OResolve name => w ← gets (id : W → W); try_ (lift_res (reg_Resolve name (state_of w)))
  | OContractRecord addr => w ← gets (id : W → W);
      try_ (rec ← lift_res (reg_GetRecord addr (state_of w)); mret (mkContractRecord (rr_Name rec) (rr_Address rec) (rr_Owner rec)))
  | OFeatureEnabled name defaultVal => gets (λ w, FeatureEnabled (state_of w) name defaultVal)
  | OValidators => w ← gets (id : W → W); lift_res (match validatorSet (state_of w) with Err _ => Panic | r => r end)
  | OGetEvmTxReceipt hash => w ← gets (id : W → W); try_ (lift_res (GetEvmTxReceipt hash w))
  | OStaticCall addr input => try_ (staticCall (cc_address ctx) addr input)
  | OStaticCallEVM addr input => try_ (PluginVM_StaticCallEVM (cc_address ctx) addr input)
  | OSet key value => on_state (modify (λ s, ps_store (prefixWriter_Set key value (slice ctx s))))
  | ODelete key => on_state (modify (λ s, ps_store (prefixWriter_Delete key (slice ctx s))))
  | OCall addr input => try_ (call (cc_address ctx) addr input)
  | OCallEVM addr input value => try_ (PluginVM_CallEVM (cc_address ctx) addr input value)
  | OEmit event topics => EmitTopics ctx event topics
  end.

Fixpoint exec {A} (call staticCall : Address → Address → bytes → M W bytes) (ctx : contractContext) (p : Prog A) : M W A :=
  match p with
  | Return r => lift_res r
  | Do op k => x ← exec_op call staticCall ctx op; exec call staticCall ctx (k x)
  end.

(** [Call] and [StaticCall] of the machine, on top of [run]: the code at the address. *)
Definition calls_of (run : Address → Address → bytes → bytes → bool → M W bytes) (ro : bool) (caller addr : Address) (input : bytes) : M W bytes :=
  if no_bytes input then throw (ErrMsg "input is empty")
  else w ← gets (id : W → W); run caller addr (default "" (kv_Get (state_of w) (text_key addr))) input ro.

(** [PluginVM.run].  The calls that contracts make of each other are nested at most
    [depth] deep; beyond, the stack is exhausted, which ends the program. *)
Fixpoint run (depth : nat) (caller addr : Address) (code input : bytes) (readOnly : bool) : M W bytes :=
  match depth with
  | O => panic
  | S depth =>
      match unmarshal_Code code with
      | None => throw errUnmarshal
      | Some pluginCode =>
          contract ← lift_res (LoadContract (pc_Name pluginCode) (ts_Height block));
          let isInit := no_bytes input in
          let input := if isInit then pc_Input pluginCode else input in
          match unmarshal_Request input with
          | None => throw errUnmarshal
          | Some req =>
              let ctx := mkContext caller addr readOnly (pc_Name pluginCode) req in
              record_call (GoCall caller addr);;
              if isInit then
                exec (calls_of (run depth) false) (calls_of (run depth) true) ctx (gc_Init contract req);;
                mret (marshal_Code (mkPluginCode (pc_Name pluginCode) ""))
              else
                res ← exec (calls_of (run depth) false) (calls_of (run depth) true) ctx (if readOnly then gc_StaticCall contract req else gc_Call contract req);
                mret (marshal_Response res)
          end
      end
  end.

Definition PluginVM_Call (depth : nat) (caller addr : Address) (input : bytes) : M W bytes := calls_of (run depth) false caller addr input.
Definition PluginVM_StaticCall (depth : nat) (caller addr : Address) (input : bytes) : M W bytes := calls_of (run depth) true caller addr input.

Definition CreateAddress (parent : Address) (nonce : Z) : Address :=
  mkAddress (ChainID parent) (String.substring 12 20 (sha3_256 (prefix_key [address_bytes parent; be_encode 8 nonce]))).

Definition PluginVM_Create (depth : nat) (caller : Address) (code : bytes) : M W (bytes * Address) :=
  w ← gets (id : W → W);
  nonce ← lift_res (Nonce (state_of w) caller);
  let contractAddr := CreateAddress caller nonce in
  ret ← run depth caller contractAddr code "" false;
  on_state (modify (kv_Set (text_key contractAddr) ret));;
  mret (ret, contractAddr).

(** The machine as the transaction handlers use it. *)
Definition PluginVM_VM (depth : nat) : VM (T := T) (E := REnv E) :=
  let erase {A} (m : M W A) : M (TxWorld T (REnv E)) A := λ t, let '(r, w) := m (mkPWorld t []) in (r, pw_tx w) in
  mkVM (λ caller code _, erase (PluginVM_Create depth caller code)) (λ caller addr input _, erase (PluginVM_Call depth caller addr input)).
End PluginVM.

(** ** The EVM (loomevm.go) *)

Definition rootKey : bytes := "vmroot".

(** The EVM over a session [S], which is its state database. *)
Record EvmEngine (W S : Type) := mkEngine {
  (** with the balance manager, read-only or not, if there is to be one *)
  ev_open (abm : option bool) : M W S;
  ev_Create (caller : Address) (code : bytes) (value : Z) (s : S) : M W (S * bytes * Address * option error);
  ev_Call (caller addr : Address) (input : bytes) (value : Z) (s : S) : M W (S * bytes * option error);
  ev_StaticCall (caller addr : Address) (input : bytes) (s : S) : M W bytes;
  ev_GetCode (addr : Address) (s : S) : bytes;
  (** the commits of the state database and its trie, and the write to evm.db *)
  ev_Commit (s : S) : M W bytes;
  ev_Logs (s : S) : list EvmLog;
}.
Arguments ev_open {W S}.
Arguments ev_Create {W S}.
Arguments ev_Call {W S}.
Arguments ev_StaticCall {W S}.
Arguments ev_GetCode {W S}.
Arguments ev_Commit {W S}.
Arguments ev_Logs {W S}.

Section EVM.
Context {LIB : DiademLib} {RL : ReceiptLib} {T E S : Type} {KV : KVStore T}.
Context (eventHandler : option (Z → EventData → M E unit)).
Context (engine : EvmEngine (TxWorld T (REnv E)) S) (header : BlockHeader).
(** Whether there is a receipt handler, and how it prints topics and addresses. *)
Context (withReceipts : bool) (hashString localString : bytes → string).
Context (marshal_DeployResponseData : bytes → bytes → bytes).
Abbreviation W := (TxWorld T (REnv E)).

Definition DiademEvm_Commit (s : S) : M W bytes :=
  root ← ev_Commit engine s;
  on_tx (modify (kv_Set rootKey root));;
  on_tx (modify (kv_Set (EvmDBMapperKey (bk_Height header)) root));;
  mret root.

(** A run without error is committed; the error of the commit counts. *)
Definition commit_if_ok (s : S) (err : option error) : M W (option error) :=
  match err with
  | Some e => mret (Some e)
  | None => r ← try_ (DiademEvm_Commit s); mret (match r with inl _ => None | inr e => Some e end)
  end.

(** The receipt; an error of the handler is wrapped around the error of the run, and
    lost if there was none. *)
Definition cache_receipt (s : S) (caller addr : Address) (input : bytes) (err : option error) : M W (bytes * option error) :=
  if withReceipts then
    let events := match err with None => GetEventsFromLogs hashString localString (ev_Logs engine s) (bk_Height header) caller addr input | Some _ => [] end in
    r ← try_ (CacheReceipt eventHandler header caller addr events (bool_decide (is_Some err)));
    mret (match r with
          | inl txHash => (txHash, err)
          | inr _ => ("", match err with Some _ => Some (ErrMsg "trouble saving receipt") | None => None end)
          end)
  else mret ("", err).

Definition DiademVm_Create (caller : Address) (code : bytes) (value : Z) : M W (bytes * Address) :=
  s ← ev_open engine (Some false);
  '(s, bytecode, addr, err) ← ev_Create engine caller code value s;
  err ← commit_if_ok s err;
  '(txHash, err) ← cache_receipt s caller addr code err;
  match err with
  | Some e => throw e
  | None => mret (marshal_DeployResponseData txHash bytecode, addr)
  end.

Definition DiademVm_Call (caller addr : Address) (input : bytes) (value : Z) : M W bytes :=
  s ← ev_open engine (Some false);
  '(s, _, err) ← ev_Call engine caller addr input value s;
  err ← commit_if_ok s err;
  '(txHash, err) ← cache_receipt s caller addr input err;
  match err with Some e => throw e | None => mret txHash end.

Definition DiademVm_StaticCall (caller addr : Address) (input : bytes) : M W bytes :=
  s ← ev_open engine (Some true);
  ev_StaticCall engine caller addr input s.

Definition DiademVm_GetCode (addr : Address) : M W bytes :=
  s ← ev_open engine None;
  mret (ev_GetCode engine addr s).

Definition DiademVm_VM : VM (T := T) (E := REnv E) := mkVM DiademVm_Create DiademVm_Call.
End EVM.
