(* ===== verification/PluginTheorems.v ===== *)
(** * Go contracts: theorems

    A contract can only write to its own part of the store, whatever it calls
    ([contracts_stay_in_their_slices]); a static call writes nothing
    ([static_calls_change_nothing]); what was deployed stays and is what calls at its
    address run ([deployed_contracts_are_called]). *)

From S2P Require Import Prelude Contract Store Middleware App DeployerWhitelist Registry TxHandlers Receipts PluginVM.

Section Frames.
Context {LIB : DiademLib} {PLIB : PluginLib} {RL : ReceiptLib} {T E : Type} {KV : KVStore T} {KVS : KVStoreSpec T} {REG : Registry T}.
Context (LoadContract : string → Z → Res GoContract).
Context (block : TxState) (now : Z) (validatorSet : T → Res (list (bytes * Z))).
Context (eventPost : Z → EventData → M E unit) (withABM : bool).
Context (evmCall : Address → Address → bytes → Z → M (TxWorld T (REnv E)) bytes).
Context (evmStaticCall : Address → Address → bytes → M (TxWorld T (REnv E)) bytes).
Abbreviation W := (PWorld T E).
Implicit Types w : W.

(** The EVM keeps to its own keys, and a static call of it changes nothing. *)
Context (evm_key : bytes → Prop).
Context (evm_frame : ∀ caller addr input value t r t', kv_ok (tw_store t) → evmCall caller addr input value t = (r, t') →
  kv_ok (tw_store t') ∧ ∀ k, kv_Get (tw_store t') k = kv_Get (tw_store t) k ∨ evm_key k).
Context (evm_static : ∀ caller addr input t r t', evmStaticCall caller addr input t = (r, t') → t' = t).

Abbreviation run_ := (run LoadContract block now validatorSet eventPost withABM evmCall evmStaticCall).
Abbreviation exec_ := (exec block now validatorSet eventPost withABM evmCall evmStaticCall).
Abbreviation exec_op_ := (exec_op block now validatorSet eventPost withABM evmCall evmStaticCall).

Definition slice_key (a : Address) (k : bytes) : Prop := ∃ key, k = prefix_key [data_prefix a; key].

(** The calls [log] account for the change of key [k]. *)
Definition accounted (log : list Invocation) (k : bytes) : Prop :=
  (∃ c a, GoCall c a ∈ log ∧ slice_key a k) ∨ ((∃ c a, EvmCall c a ∈ log) ∧ evm_key k).

(** Whoever calls is [self] or was called. *)
Definition authentic (self : Address) (log : list Invocation) : Prop :=
  ∀ c a, GoCall c a ∈ log ∨ EvmCall c a ∈ log → c = self ∨ ∃ c', GoCall c' c ∈ log.

(** From [w] to [w'] code ran on behalf of [self] and changed keys of [own] and of the
    contracts that were called. *)
Definition evolves (self : Address) (own : bytes → Prop) w w' : Prop :=
  ∃ log, pw_calls w' = pw_calls w ++ log ∧ kv_ok (state_of w') ∧ authentic self log ∧
    ∀ k, kv_Get (state_of w') k = kv_Get (state_of w) k ∨ own k ∨ accounted log k.

Lemma evolves_same self own w w' :
  kv_ok (state_of w) → pw_calls w' = pw_calls w → state_of w' = state_of w → evolves self own w w'.
Proof.
  intros Hok Hc Hs. exists []. rewrite Hc, Hs, app_nil_r. split_and!; [done | done | | by left].
  intros c a [?%elem_of_nil|?%elem_of_nil]; done.
Qed.

Lemma accounted_app log log' k : accounted log k ∨ accounted log' k → accounted (log ++ log') k.
Proof. unfold accounted. setoid_rewrite elem_of_app. naive_solver. Qed.

Lemma evolves_trans self own w1 w2 w3 : evolves self own w1 w2 → evolves self own w2 w3 → evolves self own w1 w3.
Proof.
  intros (l1 & Hc1 & Hok1 & Ha1 & Hk1) (l2 & Hc2 & Hok2 & Ha2 & Hk2). exists (l1 ++ l2).
  split_and!; [by rewrite Hc2, Hc1, <- app_assoc | done | |].
  - intros c a. unfold authentic in *. setoid_rewrite elem_of_app. naive_solver.
  - intros k. destruct (Hk2 k) as [->|[?|?]]; [|by right; left | right; right; apply accounted_app; by right].
    destruct (Hk1 k) as [->|[?|?]]; [by left | by right; left | right; right; apply accounted_app; by left].
Qed.

Definition framed {A} (self : Address) (own : bytes → Prop) (m : M W A) : Prop :=
  ∀ w r w', kv_ok (state_of w) → m w = (r, w') → evolves self own w w'.

Lemma evolves_ok self own w w' : evolves self own w w' → kv_ok (state_of w').
Proof. by intros (log & _ & Hok & _). Qed.

Lemma framed_bind {A B} self own (m : M W A) (f : A → M W B) :
  framed self own m → (∀ x, framed self own (f x)) → framed self own (m ≫= f).
Proof.
  intros Hm Hf w r w' Hok H. unfold mbind, M_bind in H. destruct (m w) as [[a|e|] w1] eqn:Em.
  - pose proof (Hm _ _ _ Hok Em) as H1. eapply evolves_trans; [exact H1|]. eapply Hf; [by eapply evolves_ok | exact H].
  - injection H as <- <-. by eapply Hm.
  - injection H as <- <-. by eapply Hm.
Qed.

Lemma framed_pure {A} self own (m : M W A) : (∀ w, (m w).2 = w) → framed self own m.
Proof. intros Hp w r w' Hok H. specialize (Hp w). rewrite H in Hp. cbn in Hp. subst w'. by apply evolves_same. Qed.

Lemma framed_try {A} self own (m : M W A) : framed self own m → framed self own (try_ m).
Proof.
  intros Hm w r w' Hok H. unfold try_ in H. destruct (m w) as [[a|e|] w1] eqn:Em; injection H as <- <-; by eapply Hm.
Qed.

(** The memory of the node is not in the store. *)
Lemma framed_events {A} self own (m : M E A) : framed self own (on_ptx (T := T) (on_events m)).
Proof.
  intros w r w' Hok H. unfold on_ptx, on_events, on_renv, zoom in H. destruct (m _) as [r' e']. injection H as <- <-. by apply evolves_same.
Qed.

Lemma framed_write {A} self own (f : T → Res A * T) :
  (∀ s r s', kv_ok s → f s = (r, s') → kv_ok s' ∧ ∀ k, kv_Get s' k = kv_Get s k ∨ own k) → framed self own (on_state (E := E) f).
Proof.
  intros Hf w r w' Hok H. unfold on_state, on_ptx, on_tx, zoom in H. destruct (f _) as [r' s'] eqn:Ef. injection H as <- <-.
  destruct (Hf _ _ _ Hok Ef) as [Hok' Hk]. exists []. rewrite app_nil_r. split_and!; try done.
  - by intros c a [?%elem_of_nil|?%elem_of_nil].
  - intros k. destruct (Hk k); [by left | by right; left].
Qed.

Abbreviation nothing := (λ _ : bytes, False).

Lemma framed_weaken {A} self (own : bytes → Prop) (m : M W A) : framed self nothing m → framed self own m.
Proof.
  intros Hm w r w' Hok H. destruct (Hm _ _ _ Hok H) as (log & H1 & H2 & H3 & H4). exists log. split_and!; try done.
  intros k. destruct (H4 k) as [?|[?|?]]; [by left | done | by right; right].
Qed.

Lemma framed_slice_set {A} self key value (k : unit → Res A) :
  framed self (slice_key self) (on_state (E := E) (λ s, (k (), ps_store (prefixWriter_Set key value (PrefixKVStore (data_prefix self) s))))).
Proof.
  apply framed_write. intros s r s' Hok [= _ <-]. split; [by apply kv_Set_ok|]. intros k'. cbn. rewrite kv_Get_Set by done.
  case_decide as Hk; [right; by exists key | by left].
Qed.

Lemma framed_slice_delete {A} self key (k : unit → Res A) :
  framed self (slice_key self) (on_state (E := E) (λ s, (k (), ps_store (prefixWriter_Delete key (PrefixKVStore (data_prefix self) s))))).
Proof.
  apply framed_write. intros s r s' Hok [= _ <-]. split; [by apply kv_Delete_ok|]. intros k'. cbn. rewrite kv_Get_Delete by done.
  case_decide as Hk; [right; by exists key | by left].
Qed.

Lemma framed_resolve self own : framed self own (resolve_ethcoin (E := E) withABM).
Proof.
  apply framed_pure. intros w. unfold resolve_ethcoin. destruct withABM; [|done]. m_eval. by destruct (reg_Resolve _ _).
Qed.

Lemma framed_CallEVM self own addr input value : framed self own (PluginVM_CallEVM withABM evmCall self addr input value).
Proof.
  apply framed_bind; [apply framed_resolve|]. intros [] w r w' Hok H. unfold mbind, M_bind in H. cbn in H. unfold on_ptx, zoom in H. cbn in H.
  destruct (evmCall _ _ _ _ _) as [r1 t1] eqn:Ee. injection H as <- <-. destruct (evm_frame _ _ _ _ _ _ _ Hok Ee) as [Hok1 Hk].
  exists [EvmCall self addr]. split_and!; [done | done | |].
  - intros c a [Hin%list_elem_of_singleton|[= -> _]%list_elem_of_singleton]; [done | by left].
  - intros k. destruct (Hk k) as [?|?]; [by left|]. right; right; right. split; [|done]. exists self, addr. by apply list_elem_of_singleton.
Qed.

Lemma framed_StaticCallEVM self own addr input : framed self own (PluginVM_StaticCallEVM withABM evmStaticCall self addr input).
Proof.
  apply framed_bind; [apply framed_resolve|]. intros []. apply framed_pure. intros w. unfold on_ptx, zoom.
  destruct (evmStaticCall _ _ _ _) as [r1 t1] eqn:Ee. apply evm_static in Ee as ->. by destruct w.
Qed.

Lemma framed_exec_op call staticCall ctx op :
  (∀ addr input, framed (cc_address ctx) nothing (call (cc_address ctx) addr input)) →
  (∀ addr input, framed (cc_address ctx) nothing (staticCall (cc_address ctx) addr input)) →
  framed (cc_address ctx) (slice_key (cc_address ctx)) (exec_op_ call staticCall ctx op).
Proof.
  intros Hc Hs. destruct op; cbn [exec_op]; try (apply framed_pure; intros w; m_eval; unfold id; done).
  - apply framed_pure. intros w. m_eval. by destruct (reg_Resolve _ _).
  - apply framed_pure. intros w. m_eval. by destruct (reg_GetRecord _ _).
  - apply framed_pure. intros w. m_eval. by destruct (GetEvmTxReceipt _ _).
  - apply framed_try, framed_weaken, Hs.
  - apply framed_try, framed_StaticCallEVM.
  - apply framed_slice_set with (k := Ok).
  - apply framed_slice_delete with (k := Ok).
  - apply framed_try, framed_weaken, Hc.
  - apply framed_try, framed_CallEVM.
  - unfold EmitTopics. destruct (cc_readOnly ctx); [by apply framed_pure | apply framed_events].
Qed.

Lemma framed_exec {A} call staticCall ctx (p : Prog A) :
  (∀ addr input, framed (cc_address ctx) nothing (call (cc_address ctx) addr input)) →
  (∀ addr input, framed (cc_address ctx) nothing (staticCall (cc_address ctx) addr input)) →
  framed (cc_address ctx) (slice_key (cc_address ctx)) (exec_ call staticCall ctx p).
Proof.
  intros Hc Hs. induction p as [r|op k IH]; cbn [exec]; [apply framed_pure; intros w; by destruct r|].
  apply framed_bind; [by apply framed_exec_op | done].
Qed.

(** A call that is on record may do what the called contract does. *)
Lemma framed_called {A} caller addr (m : M W A) :
  framed addr (slice_key addr) m → framed caller nothing (record_call (GoCall caller addr);; m).
Proof.
  intros Hm w r w' Hok H. unfold mbind, M_bind in H. cbn in H.
  destruct (Hm (mkPWorld (pw_tx w) (pw_calls w ++ [GoCall caller addr])) _ _ Hok H) as (log & Hc & Hok' & Ha & Hk). cbn in Hc.
  exists (GoCall caller addr :: log). split_and!; [by rewrite Hc, <- app_assoc | done | |].
  - intros c a Hin. assert (c = caller ∨ GoCall c a ∈ log ∨ EvmCall c a ∈ log) as [->|Hin'].
    { destruct Hin as [[[= -> _]|?]%elem_of_cons|[?|?]%elem_of_cons]; [by left | by right; left | done | by right; right]. }
    + by left.
    + right. destruct (Ha c a Hin') as [->|[c' Hc']]; [exists caller; by left | exists c'; by right].
  - intros k. destruct (Hk k) as [?|[?|[(c & a & Hin & Hs)|((c & a & Hin) & He)]]]; [by left | | |]; right; right.
    + left. exists caller, addr. split; [by left | done].
    + left. exists c, a. split; [by right | done].
    + right. split; [|done]. exists c, a. by right.
Qed.

Lemma framed_calls run ro caller addr input :
  (∀ caller addr code input ro, framed caller nothing (run caller addr code input ro)) → framed caller nothing (calls_of run ro caller addr input).
Proof.
  intros Hr. unfold calls_of. destruct (no_bytes input); [by apply framed_pure|].
  apply framed_bind; [by apply framed_pure | intros w0; apply Hr].
Qed.

Lemma framed_run depth caller addr code input ro : framed caller nothing (run_ depth caller addr code input ro).
Proof.
  revert caller addr code input ro. induction depth as [|depth IH]; intros caller addr code input ro; cbn [run]; [by apply framed_pure|].
  destruct (unmarshal_Code code) as [pc|]; [|by apply framed_pure].
  apply framed_bind; [apply framed_pure; intros w; by destruct (LoadContract _ _)|]. intros contract.
  destruct (unmarshal_Request _) as [req|]; [|by apply framed_pure]. apply framed_called.
  set (ctx := mkContext caller addr ro (pc_Name pc) req).
  assert (∀ b addr' input', framed addr nothing (calls_of (run_ depth) b addr addr' input')) as Hcall
    by (intros; by apply framed_calls).
  destruct (no_bytes input); (apply framed_bind; [|intros ?; by apply framed_pure]);
    apply (framed_exec (calls_of (run_ depth) false) (calls_of (run_ depth) true) ctx); apply Hcall.
Qed.

(** C16. Contracts keep to themselves: whatever code contracts have and however they
    call each other and the EVM, a call changes no key of the store but in the slices of
    the contracts that were called, and keys of the EVM if it was called; and no contract
    is ever called in the name of anyone but the sender of the transaction or the
    contract that made the call. *)
Theorem contracts_stay_in_their_slices depth caller addr input w r w' :
  kv_ok (state_of w) →
  PluginVM_Call LoadContract block now validatorSet eventPost withABM evmCall evmStaticCall depth caller addr input w = (r, w') →
  ∃ log, pw_calls w' = pw_calls w ++ log ∧ authentic caller log ∧
    ∀ k, kv_Get (state_of w') k ≠ kv_Get (state_of w) k → accounted log k.
Proof.
  intros Hok H. destruct (framed_calls (run_ depth) false caller addr input (framed_run depth) w r w' Hok H) as (log & Hc & _ & Ha & Hk).
  exists log. split_and!; [done | done|]. intros k Hne. by destruct (Hk k) as [?|[?|?]].
Qed.

(** ** Static calls *)

(** Nothing but the record of calls changes. *)
Definition reads {A} (m : M W A) : Prop := ∀ w r w', m w = (r, w') → pw_tx w' = pw_tx w.

Lemma reads_bind {A B} (m : M W A) (f : A → M W B) : reads m → (∀ x, reads (f x)) → reads (m ≫= f).
Proof.
  intros Hm Hf w r w' H. unfold mbind, M_bind in H. destruct (m w) as [[a|e|] w1] eqn:Em.
  - rewrite (Hf _ _ _ _ H). by eapply Hm.
  - injection H as <- <-. by eapply Hm.
  - injection H as <- <-. by eapply Hm.
Qed.

Lemma reads_pure {A} (m : M W A) : (∀ w, (m w).2 = w) → reads m.
Proof. intros Hp w r w' H. specialize (Hp w). rewrite H in Hp. cbn in Hp. by subst w'. Qed.

Lemma reads_try {A} (m : M W A) : reads m → reads (try_ m).
Proof. intros Hm w r w' H. unfold try_ in H. destruct (m w) as [[a|e|] w1] eqn:Em; injection H as <- <-; by eapply Hm. Qed.

Lemma reads_StaticCallEVM self addr input : reads (PluginVM_StaticCallEVM withABM evmStaticCall self addr input).
Proof.
  apply reads_bind.
  - apply reads_pure. intros w. unfold resolve_ethcoin. destruct withABM; [|done]. m_eval. by destruct (reg_Resolve _ _).
  - intros [] w r w' H. unfold on_ptx, zoom in H. destruct (evmStaticCall _ _ _ _) as [r1 t1] eqn:Ee. apply evm_static in Ee as ->. by injection H as <- <-.
Qed.

Lemma reads_exec_op call staticCall ctx op :
  (∀ addr input, reads (staticCall (cc_address ctx) addr input)) → is_static op = true → reads (exec_op_ call staticCall ctx op).
Proof.
  intros Hs Hop. destruct op; try done; cbn [exec_op]; try (apply reads_pure; intros w; m_eval; unfold id; done).
  - apply reads_pure. intros w. m_eval. by destruct (reg_Resolve _ _).
  - apply reads_pure. intros w. m_eval. by destruct (reg_GetRecord _ _).
  - apply reads_pure. intros w. m_eval. by destruct (GetEvmTxReceipt _ _).
  - apply reads_try, Hs.
  - apply reads_try, reads_StaticCallEVM.
Qed.

Lemma reads_exec {A} call staticCall ctx (p : Prog A) :
  (∀ addr input, reads (staticCall (cc_address ctx) addr input)) → static p → reads (exec_ call staticCall ctx p).
Proof.
  intros Hs Hp. induction Hp as [r|op k Hop Hk IH]; cbn [exec]; [by apply reads_pure|].
  apply reads_bind; [by apply reads_exec_op | done].
Qed.

Lemma reads_run depth caller addr code input : no_bytes input = false → reads (run_ depth caller addr code input true).
Proof.
  revert caller addr code input. induction depth as [|depth IH]; intros caller addr code input Hin; cbn [run]; [by apply reads_pure|].
  destruct (unmarshal_Code code) as [pc|]; [|by apply reads_pure].
  apply reads_bind; [by apply reads_pure|]. intros contract. rewrite Hin.
  destruct (unmarshal_Request input) as [req|]; [|by apply reads_pure].
  apply reads_bind; [by intros w r w' [= <- <-]|]. intros []. apply reads_bind; [|intros res; by apply reads_pure].
  apply reads_exec; [|apply gc_static]. intros addr' input'. unfold calls_of. destruct (no_bytes input') eqn:Hno; [by apply reads_pure|].
  apply reads_bind; [by apply reads_pure|]. intros w0. by apply IH.
Qed.

(** A static call changes nothing: neither the store nor the receipts nor the events,
    whatever contracts it passes through. *)
Theorem static_calls_change_nothing depth caller addr input w :
  pw_tx (PluginVM_StaticCall LoadContract block now validatorSet eventPost withABM evmCall evmStaticCall depth caller addr input w).2 = pw_tx w.
Proof.
  destruct (PluginVM_StaticCall _ _ _ _ _ _ _ _ _ _ _ _ _) as [r w'] eqn:H. unfold PluginVM_StaticCall, calls_of in H.
  destruct (no_bytes input) eqn:Hno; [by injection H as <- <-|]. by apply (reads_run depth caller addr _ input Hno) in H.
Qed.

(** ** Deployment *)

(** Calls of any kind by anyone. *)
Inductive called : W → W → Prop :=
  | called_call depth ro caller addr input w r w' :
      calls_of (run_ depth) ro caller addr input w = (r, w') → called w w'.

Lemma calls_keep w w' k : rtc called w w' → kv_ok (state_of w) → (∀ a, ¬ slice_key a k) → ¬ evm_key k →
  kv_ok (state_of w') ∧ kv_Get (state_of w') k = kv_Get (state_of w) k.
Proof.
  intros Hr Hok Hs He. induction Hr as [w|w w1 w2 [depth ro caller addr input w0 r w' H] Hr IH]; [done|].
  destruct (framed_calls (run_ depth) ro caller addr input (framed_run depth) _ _ _ Hok H) as (log & _ & Hok1 & _ & Hk).
  destruct (IH Hok1) as [Hok2 ->]. split; [done|]. destruct (Hk k) as [?|[?|[(c & a & _ & Hsl)|[_ ?]]]]; try done. by destruct (Hs a).
Qed.

Context {PLS : PluginLibSpec}.

(** What was deployed is called: deploying runs the contract's [Init] in the name of
    the sender at an address made from the sender and its nonce and stores its name
    there; after any calls of any contracts the name is still stored, and a call at the
    address is a call of the contract that the loader has under this name. *)
Theorem deployed_contracts_are_called depth caller code pc w ret a w1 w2 :
  kv_ok (state_of w) → unmarshal_Code code = Some pc → ¬ evm_key (text_key a) →
  PluginVM_Create LoadContract block now validatorSet eventPost withABM evmCall evmStaticCall depth caller code w = (Ok (ret, a), w1) →
  rtc called w1 w2 →
  (∃ nonce, Nonce (state_of w) caller = Ok nonce ∧ a = CreateAddress caller nonce) ∧
  kv_Get (state_of w2) (text_key a) = Some (marshal_Code (mkPluginCode (pc_Name pc) "")) ∧
  (∀ d c input contract req, no_bytes input = false → LoadContract (pc_Name pc) (ts_Height block) = Ok contract → unmarshal_Request input = Some req →
     PluginVM_Call LoadContract block now validatorSet eventPost withABM evmCall evmStaticCall (S d) c a input w2 =
     (record_call (GoCall c a);;
      res ← exec_ (calls_of (run_ d) false) (calls_of (run_ d) true) (mkContext c a false (pc_Name pc) req) (gc_Call contract req);
      mret (marshal_Response res)) w2).
Proof.
  intros Hok Hcode Hevm H Hcalls. unfold PluginVM_Create in H.
  apply bind_inv in H as (w0 & w0' & Hg & H). injection Hg as <- <-. unfold id in H.
  apply bind_inv in H as (nonce & w0' & Hn & H). injection Hn as Hn <-.
  apply bind_inv in H as (ret' & w' & Hrun & H). apply bind_inv in H as ([] & w1' & Hset & H).
  apply ret_inv in H as [Hra ->]. injection Hra as <- ->. injection Hset as <-.
  pose proof (framed_run depth caller (CreateAddress caller nonce) code "" false _ _ _ Hok Hrun) as Hev. apply evolves_ok in Hev as Hok'.
  assert (ret = marshal_Code (mkPluginCode (pc_Name pc) "")) as ->.
  { destruct depth as [|depth]; [done|]. cbn [run] in Hrun. rewrite Hcode in Hrun.
    apply bind_inv in Hrun as (contract & w'' & _ & Hrun). destruct (unmarshal_Request _); [|done].
    apply bind_inv in Hrun as ([] & w3 & _ & Hrun). cbn [no_bytes String.eqb] in Hrun.
    apply bind_inv in Hrun as ([] & w4 & _ & Hrun). by apply ret_inv in Hrun as [-> _]. }
  destruct (calls_keep _ _ (text_key (CreateAddress caller nonce)) Hcalls) as [_ Hget]; [by apply kv_Set_ok | | done|].
  { intros b [key Hkey]. by apply (text_keys_apart (CreateAddress caller nonce) b key). }
  cbn in Hget. rewrite kv_Get_Set, decide_True in Hget by done.
  split_and!; [by exists nonce | done|]. intros d c input contract req Hin Hload Hreq.
  unfold PluginVM_Call, calls_of. rewrite Hin. erewrite bind_ok; [|reflexivity]. unfold id. rewrite Hget. cbn [default run]. unfold id.
  rewrite unmarshal_marshal_Code. cbn [pc_Name]. rewrite Hload. erewrite bind_ok; [|reflexivity]. rewrite Hin, Hreq. done.
Qed.
End Frames.

(** ** Receipts of the EVM *)

Section EvmReceipts.
Context {LIB : DiademLib} {RL : ReceiptLib} {T E S : Type} {KV : KVStore T}.
Context (eventHandler : option (Z → EventData → M E unit)) (engine : EvmEngine (TxWorld T (REnv E)) S) (header : BlockHeader).
Context (hashString localString : bytes → string).

(** A receipt that could not be written is not noticed: the run counts as successful and
    has an empty hash. *)
Lemma lost_receipt_is_success s caller addr input (w : TxWorld T (REnv E)) :
  rn_v (tw_env w) ≠ ReceiptHandlerChain → rn_v (tw_env w) ≠ ReceiptHandlerLevelDb →
  cache_receipt eventHandler engine header true hashString localString s caller addr input None w = (Ok ("", None), w).
Proof.
  intros H1 H2. unfold cache_receipt, CacheReceipt. m_eval. unfold id. apply Z.eqb_neq in H1 as ->. apply Z.eqb_neq in H2 as ->. done.
Qed.

(** Otherwise the receipt of the run is current, with its hash and outcome. *)
Lemma receipt_of_run s caller addr input err (w w' : TxWorld T (REnv E)) h err' :
  cache_receipt eventHandler engine header true hashString localString s caller addr input err w = (Ok (h, err'), w') → h ≠ "" →
  err' = err ∧ ∃ rc, rn_currentReceipt (tw_env w') = Some rc ∧ tr_TxHash rc = h.
Proof.
  intros H Hh. unfold cache_receipt in H. apply bind_inv in H as (r & w1 & Hr & H). apply ret_inv in H as [Hr' ->].
  unfold try_ in Hr. destruct (CacheReceipt _ _ _ _ _ _ _) as [[txHash|e|] w2] eqn:Hc; [|by injection Hr as <- <-; injection Hr' as -> _ |done].
  injection Hr as <- <-. injection Hr' as <- <-. split; [done|].
  unfold CacheReceipt in Hc. apply bind_inv in Hc as (w3 & w4 & Hg & Hc). injection Hg as <- <-.
  apply bind_inv in Hc as (rc & w5 & _ & Hc). apply bind_inv in Hc as ([] & w6 & Hset & Hc). apply ret_inv in Hc as [-> ->].
  injection Hset as <-. by exists rc.
Qed.
End EvmReceipts.
