(* ===== verification/PluginWitnesses.v ===== *)
(** * Go contracts on a concrete machine

    A shop that pays into a bank, and the theorems of PluginTheorems.v applied to calls
    and a deployment of it. *)

From S2P Require Import Prelude Contract Store Middleware App DeployerWhitelist Registry TxHandlers Receipts ReceiptsWitnesses PluginVM PluginTheorems.
Import SimpleLib.

Module PluginWitness.
#[local] Instance mem : KVStore MemStore := mem_kvstore (λ k p, Some k).
#[local] Instance mem_spec : KVStoreSpec MemStore := mem_kvstore_spec (λ k p, Some k).
#[local] Existing Instance ReceiptsWitness.rlib.

(** Nothing is registered. *)
#[local] Instance no_registry : Registry MemStore := {|
  reg_Register _ _ _ := mret ();
  reg_Resolve _ _ := Err ErrRegNotFound;
  reg_GetRecord _ _ := Err ErrRegNotFound;
|}.

#[local] Instance plib : PluginLib := {|
  unmarshal_Code s := (λ p : string * bytes, mkPluginCode p.1 p.2) <$> unpack s;
  marshal_Code c := pack (pc_Name c, pc_Input c);
  unmarshal_Request s := Some (mkRequest s "");
  marshal_Response r := r;
  sha3_256 b := "0123456789ab" +:+ "12345678901234567890";
  data_prefix a := "data" +:+ to_string a;
  text_key a := "text" +:+ to_string a;
|}.

#[local] Instance plib_spec : PluginLibSpec.
Proof.
  split.
  - intros [n i]. change ((λ p : string * bytes, mkPluginCode p.1 p.2) <$> unpack (pack (n, i)) = Some (mkPluginCode n i)). by rewrite unpack_pack.
  - intros a b key H. apply (f_equal (λ s, String.substring 0 1 s)) in H. discriminate H.
Qed.

Definition bank_call (req : Request) : Prog bytes :=
  Do OInfo (λ i, Do (OSet "payer" (Local (ci_Sender i))) (λ _, Return (Ok "paid"))).
Definition bank : GoContract := mkGoContract (λ _, Return (Ok ())) bank_call (λ _, Return (Ok "")) (λ _, static_return _).

Definition shop_call (req : Request) : Prog bytes :=
  Do (OSet "sold" (rq_Body req)) (λ _, Do (OCall (sample "b") "pay") (λ _, Return (Ok "done"))).
Definition shop_static (req : Request) : Prog bytes := Do (OGet "sold") (λ v, Return (Ok (default "" v))).
Lemma shop_is_static req : static (shop_static req).
Proof. apply static_do; [done|]. intros v. apply static_return. Qed.
Definition shop : GoContract := mkGoContract (λ _, Return (Ok ())) shop_call shop_static shop_is_static.

Definition load (name : string) (height : Z) : Res GoContract :=
  if String.eqb name "shop" then Ok shop else if String.eqb name "bank" then Ok bank else Err (ErrMsg "plugin not found").

Definition block : TxState := mkTxState "default" 7 None.
Definition validators (s : MemStore) : Res (list (bytes * Z)) := Ok [].
Definition post (h : Z) (e : EventData) : M unit unit := mret ().
Definition evm (caller addr : Address) (input : bytes) (value : Z) : M (TxWorld MemStore (REnv unit)) bytes := throw (ErrMsg "no code").
Definition evm_ro (caller addr : Address) (input : bytes) : M (TxWorld MemStore (REnv unit)) bytes := throw (ErrMsg "no code").
Definition vmroot (k : bytes) : Prop := k = "vmroot".

Lemma evm_frame caller addr input value t r t' : kv_ok (tw_store t) → evm caller addr input value t = (r, t') →
  kv_ok (tw_store t') ∧ ∀ k, kv_Get (tw_store t') k = kv_Get (tw_store t) k ∨ vmroot k.
Proof. intros Hok [= _ <-]. split; [done|]. by left. Qed.
Lemma evm_static caller addr input t r t' : evm_ro caller addr input t = (r, t') → t' = t.
Proof. by intros [= _ <-]. Qed.

Definition store0 : MemStore :=
  kv_Set (text_key (sample "b")) (marshal_Code (mkPluginCode "bank" "")) (kv_Set (text_key (sample "s")) (marshal_Code (mkPluginCode "shop" "")) NewMemStore).
Definition w0 : PWorld MemStore unit :=
  mkPWorld (mkTxWorld store0 (mkNonceHandler ∅ 0) (NewReceiptHandler ReceiptHandlerChain 10 ∅ ())) [].

Abbreviation call := (PluginVM_Call load block 0 validators post false evm evm_ro 5).

Definition w1 : PWorld MemStore unit := (call (sample "u") (sample "s") "apple" w0).2.
Lemma shop_sells : call (sample "u") (sample "s") "apple" w0 = (Ok "done", w1).
Proof. apply (run_ok (call (sample "u") (sample "s") "apple" w0) "done"). by vm_compute. Qed.

Lemma slices_witness : ∃ log, pw_calls w1 = [] ++ log ∧ authentic (sample "u") log ∧
  ∀ k, kv_Get (state_of w1) k ≠ kv_Get (state_of w0) k → accounted vmroot log k.
Proof.
  apply (contracts_stay_in_their_slices load block 0 validators post false evm evm_ro vmroot evm_frame evm_static 5
    (sample "u") (sample "s") "apple" w0 (Ok "done") w1).
  - exact I.
  - exact shop_sells.
Defined.

Lemma static_witness :
  pw_tx (PluginVM_StaticCall load block 0 validators post false evm evm_ro 5 (sample "u") (sample "s") "sold?" w1).2 = pw_tx w1.
Proof. exact (static_calls_change_nothing load block 0 validators post false evm evm_ro evm_static 5 (sample "u") (sample "s") "sold?" w1). Defined.

Abbreviation create := (PluginVM_Create load block 0 validators post false evm evm_ro 5).
Definition shop_code : bytes := marshal_Code (mkPluginCode "shop" "init").
Definition new_addr : Address := mkAddress (ChainID (sample "u")) "12345678901234567890".
Definition w2 : PWorld MemStore unit := (create (sample "u") shop_code w0).2.
Lemma shop_created : create (sample "u") shop_code w0 = (Ok (marshal_Code (mkPluginCode "shop" ""), new_addr), w2).
Proof. apply (run_ok (create (sample "u") shop_code w0) (marshal_Code (mkPluginCode "shop" ""), new_addr)). by vm_compute. Qed.

Lemma deployed_witness : kv_Get (state_of w2) (text_key new_addr) = Some (marshal_Code (mkPluginCode "shop" "")).
Proof.
  destruct (deployed_contracts_are_called load block 0 validators post false evm evm_ro vmroot evm_frame evm_static 5 (sample "u") shop_code
    (mkPluginCode "shop" "init") w0 (marshal_Code (mkPluginCode "shop" "")) new_addr w2 w2) as (_ & H & _).
  - exact I.
  - by vm_compute.
  - intros H. by vm_compute in H.
  - exact shop_created.
  - apply rtc_refl.
  - exact H.
Defined.
End PluginWitness.
