(* ===== verification/Loader.v ===== *)
(** * Finding Go contracts by name

    src/plugin/loader.go (loaders that are tried in turn, built-in contracts and their
    overrides) and the naming of contracts in src/plugin/internal.go.  A loader of files
    or external processes is a parameter: what it has to say about a name and a height. *)

From S2P Require Import Prelude Contract Store Middleware App Receipts EthJson.

Definition ErrPluginNotFound : error := ErrMsg "plugin not found".

(** [plugin.Meta] *)
Record Meta := mkMeta { m_Name : string; m_Version : string }.

(** [strings.SplitN(s, ":", 2)] *)
Fixpoint split_colon (s : string) : option (string * string) :=
  match s with
  | EmptyString => None
  | String c s => if Ascii.eqb c (Ascii.ascii_of_nat 58) then Some ("", s) else '(a, b) ← split_colon s; Some (String c a, b)
  end.

Definition ParseMeta (s : string) : Res Meta :=
  match split_colon s with
  | Some (name, version) => Ok (mkMeta name version)
  | None => Err (ErrMsg "invalid plugin format")
  end.

Definition compareMeta (a b : Meta) : Z :=
  let ret := bytes_compare (ToLower (m_Name a)) (ToLower (m_Name b)) in
  if ret =? 0 then -1 * bytes_compare (m_Version a) (m_Version b) else ret.

(** ** Built-in contracts *)

Section Static.
Context {C : Type} (contract_Meta : C → Res Meta).

Record ContractOverride := mkOverride { ov_Contract : C; ov_BlockHeight : Z }.
Record StaticLoader := mkStaticLoader { sl_Contracts : list C; sl_overrides : gmap string (list ContractOverride) }.

(** From the last override to the first. *)
Definition findOverride (m : StaticLoader) (name : string) (blockHeight : Z) : option C :=
  ov_Contract <$> List.find (λ o, ov_BlockHeight o <=? blockHeight) (reverse (default [] (sl_overrides m !! name))).

Fixpoint find_contract (meta : Meta) (contracts : list C) : Res C :=
  match contracts with
  | [] => Err ErrPluginNotFound
  | contract :: contracts =>
      contractMeta ← contract_Meta contract;
      if compareMeta meta contractMeta =? 0 then Ok contract else find_contract meta contracts
  end.

Definition StaticLoader_LoadContract (m : StaticLoader) (name : string) (blockHeight : Z) : Res C :=
  meta ← ParseMeta name;
  match findOverride m name blockHeight with
  | Some contract => Ok contract
  | None => find_contract meta (sl_Contracts m)
  end.

(** ** Several loaders *)

Abbreviation Loader := (string → Z → Res C).
Definition not_found (r : Res C) : bool := match r with Err (ErrMsg e) => String.eqb e "plugin not found" | _ => false end.

(** [MultiLoader]; a known loader is given by its position. *)
Record MultiLoader := mkMultiLoader { ml_loaders : list Loader; ml_known : gmap string nat }.

Definition NewMultiLoader (loaders : list Loader) : MultiLoader := mkMultiLoader loaders ∅.

Fixpoint try_loaders (name : string) (blockHeight : Z) (skip : option nat) (i : nat) (loaders : list Loader) : M MultiLoader C :=
  match loaders with
  | [] => throw ErrPluginNotFound
  | loader :: loaders =>
      if bool_decide (skip = Some i) then try_loaders name blockHeight skip (S i) loaders
      else
        let r := loader name blockHeight in
        if not_found r then try_loaders name blockHeight skip (S i) loaders
        else
          contract ← lift_res r;
          modify (λ m, mkMultiLoader (ml_loaders m) (<[name := i]> (ml_known m)));;
          mret contract
  end.

Definition MultiLoader_LoadContract (name : string) (blockHeight : Z) : M MultiLoader C :=
  m ← gets id;
  if (length (ml_loaders m) =? 0)%nat then throw (ErrMsg "no loaders specified")
  else
    match ml_known m !! name ≫= λ i, (i,.) <$> ml_loaders m !! i with
    | Some (i, loader) =>
        let r := loader name blockHeight in
        if not_found r then try_loaders name blockHeight (Some i) 0 (ml_loaders m) else lift_res r
    | None => try_loaders name blockHeight None 0 (ml_loaders m)
    end.

(** ** The last override in force is the one that is used *)

Lemma find_reverse_sorted height (l : list ContractOverride) o :
  StronglySorted (λ x y, ov_BlockHeight x <= ov_BlockHeight y) l →
  List.find (λ o, ov_BlockHeight o <=? height) (reverse l) = Some o →
  o ∈ l ∧ ov_BlockHeight o <= height ∧ ∀ o', o' ∈ l → ov_BlockHeight o' <= height → ov_BlockHeight o' <= ov_BlockHeight o.
Proof.
  intros Hs. induction l as [|x l IH] using rev_ind; [done|]. rewrite reverse_snoc. cbn.
  apply StronglySorted_app in Hs as (Hx & Hl & _). destruct (Z.leb_spec (ov_BlockHeight x) height).
  - intros [= <-]. split_and!; [set_solver | done|]. intros o' [Hin|Heq%list_elem_of_singleton]%elem_of_app _; [|by subst].
    apply Hx; [done | by apply list_elem_of_singleton].
  - intros Hf. destruct (IH Hl Hf) as (Hin & Hle & Hmax). split_and!; [set_solver | done|].
    intros o' [Hin'|Heq%list_elem_of_singleton]%elem_of_app Ho'; [by apply Hmax | subst; lia].
Qed.

Theorem latest_override_wins m name height o :
  StronglySorted (λ x y, ov_BlockHeight x <= ov_BlockHeight y) (default [] (sl_overrides m !! name)) → is_ok (ParseMeta name) = true →
  o ∈ default [] (sl_overrides m !! name) → ov_BlockHeight o <= height →
  ∃ o', StaticLoader_LoadContract m name height = Ok (ov_Contract o') ∧ o' ∈ default [] (sl_overrides m !! name) ∧
    ov_BlockHeight o <= ov_BlockHeight o' <= height.
Proof.
  intros Hs Hp Ho Hle. unfold StaticLoader_LoadContract, findOverride. destruct (ParseMeta name) as [meta|?|]; [|done|done]. cbn.
  destruct (List.find _ _) as [o'|] eqn:Ef.
  - destruct (find_reverse_sorted _ _ _ Hs Ef) as (Hin & Hle' & Hmax). exists o'. split_and!; [done | done | by apply Hmax | done].
  - exfalso. rewrite <- elem_of_reverse, list_elem_of_In in Ho. apply (List.find_none _ _ Ef o), Z.leb_gt in Ho. lia.
Qed.

(** ** Remembering loaders changes nothing *)

(** The answer of the first loader that knows the name. *)
Fixpoint first_answer (name : string) (height : Z) (loaders : list Loader) : Res C :=
  match loaders with
  | [] => Err ErrPluginNotFound
  | loader :: loaders => if not_found (loader name height) then first_answer name height loaders else loader name height
  end.

(** At most one loader has anything to say about a name. *)
Definition exclusive (loaders : list Loader) : Prop :=
  ∀ name i j li lj h h', loaders !! i = Some li → loaders !! j = Some lj → not_found (li name h) = false → not_found (lj name h') = false → i = j.

Definition known_ok (m : MultiLoader) : Prop :=
  ∀ name i, ml_known m !! name = Some i → ∃ l h, ml_loaders m !! i = Some l ∧ not_found (l name h) = false.

Lemma first_answer_unique name h loaders i l :
  loaders !! i = Some l → not_found (l name h) = false → (∀ j lj, j ≠ i → loaders !! j = Some lj → not_found (lj name h) = true) →
  first_answer name h loaders = l name h.
Proof.
  revert i. induction loaders as [|x loaders IH]; intros i Hi Hl Ho; [done|]. cbn. destruct i as [|i]; cbn in Hi.
  - injection Hi as ->. by rewrite Hl.
  - rewrite (Ho 0%nat x) by done. apply (IH i); [done | done|]. intros j lj Hj Hlj. apply (Ho (S j)); [lia | done].
Qed.

Lemma first_answer_none name h loaders : (∀ j lj, loaders !! j = Some lj → not_found (lj name h) = true) → first_answer name h loaders = Err ErrPluginNotFound.
Proof.
  induction loaders as [|x loaders IH]; intros Ho; [done|]. cbn. rewrite (Ho 0%nat x) by done. apply IH. intros j. apply (Ho (S j)).
Qed.

Lemma try_loaders_run name h skip i loaders m m' r all :
  try_loaders name h skip i loaders m = (r, m') → ml_loaders m = all → known_ok m → (∀ j l, loaders !! j = Some l → all !! (i + j)%nat = Some l) →
  (∀ j l, skip = Some (i + j)%nat → loaders !! j = Some l → not_found (l name h) = true) →
  r = first_answer name h loaders ∧ ml_loaders m' = all ∧ known_ok m'.
Proof.
  revert i m. induction loaders as [|x loaders IH]; intros i m H Hall Hk Hpos Hskip; cbn in H.
  { by injection H as <- <-. }
  assert (try_loaders name h skip (S i) loaders m = (r, m') → r = first_answer name h loaders ∧ ml_loaders m' = all ∧ known_ok m') as Hrest.
  { intros Hr. apply (IH (S i) m Hr); try done.
    - intros j l Hl. rewrite Nat.add_succ_l, <- Nat.add_succ_r. by apply (Hpos (S j)).
    - intros j l Hs. rewrite Nat.add_succ_l, <- Nat.add_succ_r in Hs. by apply (Hskip (S j)). }
  cbn. case_bool_decide as Hsk.
  - rewrite (Hskip 0%nat x) by (rewrite ?Nat.add_0_r; done). by apply Hrest.
  - destruct (not_found (x name h)) eqn:Hx; [by apply Hrest|].
    unfold mbind, M_bind, lift_res in H. destruct (x name h) as [c|e|] eqn:Ex; injection H as <- <-; try done.
    split_and!; [done | done|]. intros n k. cbn. rewrite lookup_insert. case_decide as Hn; [|apply Hk].
    intros [= <-]. subst n. exists x, h. rewrite Ex. split; [|done]. rewrite Hall. specialize (Hpos 0%nat x eq_refl).
    by rewrite Nat.add_0_r in Hpos.
Qed.

(** As long as no two loaders answer for the same name, remembering which one did gives
    the answers that asking all of them in turn gives. *)
Theorem known_loaders_are_transparent name h m :
  exclusive (ml_loaders m) → known_ok m → ml_loaders m ≠ [] →
  let '(r, m') := MultiLoader_LoadContract name h m in
  r = first_answer name h (ml_loaders m) ∧ ml_loaders m' = ml_loaders m ∧ known_ok m'.
Proof.
  intros Hex Hk Hne. unfold MultiLoader_LoadContract. m_eval. unfold id. destruct (Nat.eqb_spec (length (ml_loaders m)) 0) as [H0|_].
  { by apply nil_length_inv in H0. }
  destruct (ml_known m !! name) as [i|] eqn:Ei; cbn.
  - destruct (Hk _ _ Ei) as (l & h' & Hl & Hnf). rewrite Hl. cbn. destruct (not_found (l name h)) eqn:Hn.
    + destruct (try_loaders _ _ _ _ _ _) as [r m'] eqn:Ht. eapply (try_loaders_run name h _ 0); try done.
      intros j lj [= ->] Hj. cbn in Hl. rewrite Hj in Hl. by injection Hl as ->.
    + split_and!; [|done|done]. symmetry. eapply first_answer_unique; [done | done|]. intros j lj Hj Hlj.
      destruct (not_found (lj name h)) eqn:Hn'; [done|]. exfalso. by apply Hj, (Hex name j i lj l h h).
  - destruct (try_loaders _ _ _ _ _ _) as [r m'] eqn:Ht. by eapply (try_loaders_run name h _ 0).
Qed.
End Static.
