(* ===== verification/FnReactor.v ===== *)
(** * The reactor of the function consensus (src/fnConsensus/reactor.go)

    A node votes on what a function returned, sends vote sets to its peers, merges
    those that it receives, and submits the message once enough of the voting power
    agrees.  Each method of [FnConsensusReactor] is a computation on [RWorld]: the
    state, the database, the peers, and what was signed, sent and called.

    The methods take [stateMtx], so that what runs under the lock is one step.  The
    routines [voteRoutine] and [commitRoutine] release it between choosing the
    functions and handling them; the choice and the handling are therefore
    definitions of their own.  An error that a method logs before it returns is an
    error of the computation.  Functions ([Fn]) are other packages' code: what they
    answer is an argument.  Also arguments are the clock and the validators of the
    engine. *)

From S2P Require Import Prelude Contract FnConsensus EthJson.

(** ** Configuration (src/fnConsensus/config.go) *)

Record OverrideValidatorParsable := mkOverride { ovp_Address : string; ovp_VotingPower : Z }.
Record ReactorConfigParsable := mkConfigParsable {
  rcp_OverrideValidators : list OverrideValidatorParsable; rcp_FnVoteSigningThreshold : SigningThreshold }.
Record ReactorConfig := mkConfig { OverrideValidators : list (bytes * Z); FnVoteSigningThreshold : SigningThreshold }.

Fixpoint parse_overrides (l : list OverrideValidatorParsable) : Res (list (bytes * Z)) :=
  match l with
  | [] => Ok []
  | v :: l =>
      let address := if String.prefix "0x" (ovp_Address v)
                     then String.substring 2 (String.length (ovp_Address v) - 2) (ovp_Address v) else ovp_Address v in
      match hex_decode address with
      | None => Err (ErrMsg "unable to parse override validator's address")
      | Some a =>
          if ovp_VotingPower v <=? 0 then Err (ErrMsg "override validator's voting power need to be greater than zero")
          else vs ← parse_overrides l; Ok ((a, ovp_VotingPower v) :: vs)
      end
  end.

Definition Parse (r : option ReactorConfigParsable) : Res ReactorConfig :=
  match r with
  | None => Err (ErrMsg "fnConsensus reactor's parsable configuration cant be nil")
  | Some r =>
      match rcp_FnVoteSigningThreshold r with
      | UnknownThreshold _ => Err (ErrMsg "unknown signing threshold specified")
      | th => vs ← parse_overrides (rcp_OverrideValidators r); Ok (mkConfig vs th)
      end
  end.

Definition DefaultReactorConfigParsable : ReactorConfigParsable := mkConfigParsable [] Maj23SigningThreshold.

(** ** The reactor *)

Definition FnVoteSetChannel : Z := 80.
Definition FnMajChannel : Z := 81.
Definition StartingNonce : Z := 1.

(** In nanoseconds. *)
Definition Second : Z := 1000000000.
Definition Millisecond : Z := 1000000.
Definition ProposeIntervalInSeconds : Z := 10.
Definition CommitIntervalInSeconds : Z := 5.
Definition BaseProposalDelay : Z := 500 * Millisecond.
Definition BaseCommitDelay : Z := 100 * Millisecond.

(** What the reactor uses of Tendermint and of the codec, beyond [TendermintLib]. *)
Class ReactorLib `{TendermintLib} := {
  vs_GetByAddress : ValidatorSet → bytes → option nat;
  NewValidatorSet : list (bytes * PubKey * Z) → ValidatorSet;
  sha512_Sum : bytes → bytes;
  cdc_MarshalVoteSet : FnVoteSet → option bytes;
  cdc_UnmarshalVoteSet : bytes → option FnVoteSet;
  cdc_MarshalState : ReactorStateMarshallable → option bytes;
  cdc_UnmarshalState : bytes → option ReactorStateMarshallable;
  (** the order in which Go iterates over a map *)
  map_order V : gmap string V → list (string * V);
}.

Section Reactor.
Context {TM : TendermintLib} {RL : ReactorLib} {Fn : Type}.

(** What a function answers when it is asked for a message and told of one. *)
Record FnAnswer := mkAnswer {
  an_GetMessageAndSignature : Res (option bytes * option bytes);
  an_MapMessage : Res unit;
}.

(** Calls of functions that have an effect there.  The nonce of a submission is not
    passed on by the code. *)
Inductive FnCall :=
  | MapMessage (fnID : string) (hash message : option bytes)
  | SubmitMultiSignedMessage (fnID : string) (nonce : Z) (hash : option bytes) (signatures : list (option bytes)).

(** The parts of [FnConsensusReactor] that do not change once it runs. *)
Record FnConsensusReactor := mkReactor {
  chainID : string;
  fnRegistry : gmap string Fn;
  pv_Address : bytes;
  pv_Sign : bytes → option bytes;
  staticValidators : option ValidatorSet;
  cfg : ReactorConfig;
}.

Definition cfg_FnVoteSigningThreshold (f : FnConsensusReactor) : SigningThreshold := FnVoteSigningThreshold (cfg f).

Definition NewFnConsensusReactor (chain : string) (address : bytes) (sign : bytes → option bytes) (registry : gmap string Fn)
    (parsableConfig : option ReactorConfigParsable) : Res FnConsensusReactor :=
  parsedConfig ← Parse parsableConfig;
  Ok (mkReactor chain registry address sign None parsedConfig).

Record RWorld := mkRWorld {
  rw_state : ReactorState;
  rw_db : option bytes;
  connectedPeers : gset string;
  (** what the private validator signed, what was sent to whom on which channel, and
      the calls of functions, the latest last *)
  rw_signed : list bytes;
  rw_sent : list (string * Z * bytes);
  rw_calls : list FnCall;
}.

Definition on_state (g : ReactorState → ReactorState) (w : RWorld) : RWorld :=
  mkRWorld (g (rw_state w)) (rw_db w) (connectedPeers w) (rw_signed w) (rw_sent w) (rw_calls w).
Definition with_db (b : option bytes) (w : RWorld) : RWorld :=
  mkRWorld (rw_state w) b (connectedPeers w) (rw_signed w) (rw_sent w) (rw_calls w).
Definition with_peers (g : gset string → gset string) (w : RWorld) : RWorld :=
  mkRWorld (rw_state w) (rw_db w) (g (connectedPeers w)) (rw_signed w) (rw_sent w) (rw_calls w).
Definition also_signed (l : list bytes) (w : RWorld) : RWorld :=
  mkRWorld (rw_state w) (rw_db w) (connectedPeers w) (rw_signed w ++ l) (rw_sent w) (rw_calls w).
Definition also_sent (l : list (string * Z * bytes)) (w : RWorld) : RWorld :=
  mkRWorld (rw_state w) (rw_db w) (connectedPeers w) (rw_signed w) (rw_sent w ++ l) (rw_calls w).
Definition also_called (c : FnCall) (w : RWorld) : RWorld :=
  mkRWorld (rw_state w) (rw_db w) (connectedPeers w) (rw_signed w) (rw_sent w) (rw_calls w ++ [c]).

Definition set_CurrentVoteSet (fnID : string) (v : option FnVoteSet) (s : ReactorState) : ReactorState :=
  mkReactorState (partial_alter (λ _, v) fnID (CurrentVoteSets s)) (CurrentNonces s) (PreviousTimedOutVoteSets s)
    (PreviousMajVoteSets s) (PreviousValidatorSet s).
Definition set_CurrentNonce (fnID : string) (n : Z) (s : ReactorState) : ReactorState :=
  mkReactorState (CurrentVoteSets s) (<[fnID := n]> (CurrentNonces s)) (PreviousTimedOutVoteSets s)
    (PreviousMajVoteSets s) (PreviousValidatorSet s).
Definition set_PreviousMaj (fnID : string) (v : FnVoteSet) (vals : ValidatorSet) (s : ReactorState) : ReactorState :=
  mkReactorState (CurrentVoteSets s) (CurrentNonces s) (PreviousTimedOutVoteSets s)
    (<[fnID := v]> (PreviousMajVoteSets s)) (Some vals).

(** ** Peers *)

Definition AddPeer (peer : string) : M RWorld unit := modify (with_peers (λ ps, {[peer]} ∪ ps)).
Definition RemovePeer (peer : string) : M RWorld unit := modify (with_peers (λ ps, ps ∖ {[peer]})).

(** Every peer is sent the message once, so that the order of the map is not seen. *)
Definition broadcastMsgSync (chID : Z) (exception : option string) (msgBytes : bytes) : M RWorld unit :=
  peers ← gets connectedPeers;
  modify (also_sent ((λ p, (p, chID, msgBytes)) <$> filter (λ p, exception ≠ Some p) (elements (peers : gset string)))).

(** ** Validators and timers *)

Definition areWeValidator (f : FnConsensusReactor) (vals : ValidatorSet) : option nat := vs_GetByAddress vals (pv_Address f).

Definition calculateSleepTimeForCommit (currentEpochTime : Z) (own : option nat) : Z :=
  let baseTimeToSleep := CommitIntervalInSeconds - Z.rem currentEpochTime CommitIntervalInSeconds in
  match own with
  | None => baseTimeToSleep * Second + BaseCommitDelay
  | Some ownValidatorIndex => baseTimeToSleep * Second + (Z.of_nat ownValidatorIndex + 1) * BaseCommitDelay
  end.

Definition calculateSleepTimeForPropose (currentEpochTime : Z) (own : option nat) : Z :=
  let baseTimeToSleep := ProposeIntervalInSeconds - Z.rem currentEpochTime ProposeIntervalInSeconds in
  match own with
  | None => baseTimeToSleep * Second + BaseProposalDelay
  | Some ownValidatorIndex => baseTimeToSleep * Second + (Z.of_nat ownValidatorIndex + 1) * BaseProposalDelay
  end.

(** The power that the configuration gives is not used. *)
Fixpoint override_validators (tmValidators : ValidatorSet) (l : list (bytes * Z)) : Res (list (bytes * PubKey * Z)) :=
  match l with
  | [] => Ok []
  | (address, _) :: l =>
      match vs_GetByAddress tmValidators address with
      | None => Err (ErrMsg "validator specified in override config, doesnt exist in TM validator set")
      | Some i => val ← ptr (vs_GetByIndex tmValidators i); vs ← override_validators tmValidators l; Ok (val :: vs)
      end
  end.

(** The new value of [staticValidators]. *)
Definition initValidatorSet (tmValidators : ValidatorSet) (f : FnConsensusReactor) : Res (option ValidatorSet) :=
  match OverrideValidators (cfg f) with
  | [] => Ok (staticValidators f)
  | l => vs ← override_validators tmValidators l; Ok (Some (NewValidatorSet vs))
  end.

Definition getValidatorSet (f : FnConsensusReactor) (tmValidators : ValidatorSet) : ValidatorSet :=
  default tmValidators (staticValidators f).

Definition is_registered (f : FnConsensusReactor) (fnID : string) : bool := bool_decide (is_Some (FnRegistry_Get fnID (fnRegistry f))).

(** ** Calls of functions, with panics recovered

    The results are not named, so that a recovered panic returns their zero values: no
    message, no signature and no error.  A function that is nil panics. *)

Definition safeGetMessageAndSignature (fn : option Fn) (a : FnAnswer) : M RWorld (option bytes * option bytes) :=
  match fn, an_GetMessageAndSignature a with
  | Some _, Ok x => mret x
  | Some _, Err e => throw e
  | _, _ => mret (None, None)
  end.

Definition safeMapMessage (fnID : string) (fn : option Fn) (a : FnAnswer) (hash message : option bytes) : M RWorld unit :=
  match fn with
  | None => mret ()
  | Some _ =>
      modify (also_called (MapMessage fnID hash message));;
      match an_MapMessage a with Ok _ | Panic => mret () | Err e => throw e end
  end.

Definition safeSubmitMultiSignedMessage (fnID : string) (nonce : Z) (fn : option Fn) (hash : option bytes)
    (signatures : list (option bytes)) : M RWorld unit :=
  match fn with None => mret () | Some _ => modify (also_called (SubmitMultiSignedMessage fnID nonce hash signatures)) end.

Definition calculateMessageHash (message : option bytes) : bytes := sha512_Sum (default "" message).

(** ** The database *)

Definition SaveReactorState : M RWorld unit :=
  s ← gets rw_state;
  match cdc_MarshalState (ReactorState_Marshal map_order s) with
  | None => throw (ErrMsg "unable to save state")
  | Some b => modify (with_db (Some b))
  end.

Definition LoadReactorState (db : option bytes) : Res ReactorState :=
  match db with
  | None => Ok NewReactorState
  | Some b =>
      match cdc_UnmarshalState b with
      | None => Err (ErrMsg "UnmarshalBinaryLengthPrefixed")
      | Some m => ReactorState_Unmarshal m
      end
  end.

Definition OnStart : M RWorld unit :=
  db ← gets rw_db;
  s ← lift_res (LoadReactorState db);
  modify (on_state (λ _, s)).

(** ** Voting *)

Definition current_nonce (fnID : string) (s : ReactorState) : Z := default StartingNonce (CurrentNonces s !! fnID).

(** The private validator has signed what is now entered for it. *)
Definition note_signature (own : nat) (v : FnVoteSet) : M RWorld unit :=
  match SignBytes own v with Ok b => modify (also_signed [b]) | _ => mret () end.

Definition marshalled (v : FnVoteSet) : M RWorld bytes :=
  match cdc_MarshalVoteSet v with None => throw (ErrMsg "unable to marshal vote set") | Some b => mret b end.

(** The function is asked, and told of the hash under which its message is voted on. *)
Definition ask (fnID : string) (fn : option Fn) (a : FnAnswer) : M RWorld FnIndividualExecutionResponse :=
  '(message, signature) ← safeGetMessageAndSignature fn a;
  let hash := Some (calculateMessageHash message) in
  safeMapMessage fnID fn a hash message;;
  mret (mkIndividual hash signature).

Definition vote (f : FnConsensusReactor) (fnID : string) (fn : option Fn) (vals : ValidatorSet) (validatorIndex : nat)
    (a : FnAnswer) : M RWorld unit :=
  individual ← ask fnID fn a;
  guard_not (negb (is_registered f fnID)) (ErrMsg "unable to create Fn execution request as FnID is invalid");;
  executionResponse ← lift_res (NewFnExecutionResponse individual validatorIndex vals);
  s ← gets rw_state;
  let currentNonce := current_nonce fnID s in
  voteSet ← lift_res (NewVoteSet currentNonce (chainID f) validatorIndex (mkPayload (Some fnID) (Some executionResponse))
                        (pv_Sign f) vals);
  note_signature validatorIndex voteSet;;
  aggregateExecutionResponse ← lift_res (MajResponse (cfg_FnVoteSigningThreshold f) vals voteSet);
  match aggregateExecutionResponse with
  | Some agg => safeSubmitMultiSignedMessage fnID currentNonce fn (ag_Hash agg) (ag_OracleSignatures agg)
  | None =>
      modify (on_state (set_CurrentVoteSet fnID (Some voteSet)));;
      SaveReactorState;;
      marshalledBytes ← marshalled voteSet;
      broadcastMsgSync FnVoteSetChannel None marshalledBytes
  end.

(** The functions that a turn of [voteRoutine] votes on, and the turn when nothing
    else takes the lock meanwhile; [sorted] is the registry's list after
    [sort.Strings]. *)
Definition eligible_for_voting (fnIDs : list string) (w : RWorld) : list string :=
  filter (λ fnID, CurrentVoteSets (rw_state w) !! fnID = None) fnIDs.

Definition voteRoutine_turn (f : FnConsensusReactor) (tmValidators : ValidatorSet) (sorted : list string)
    (answers : string → FnAnswer) : M RWorld unit :=
  let currentValidators := getValidatorSet f tmValidators in
  match areWeValidator f currentValidators with
  | None => mret ()
  | Some ownValidatorIndex =>
      fnIDs ← gets (eligible_for_voting sorted);
      forM fnIDs (λ fnID,
        ignore_err (vote f fnID (FnRegistry_Get fnID (fnRegistry f)) currentValidators ownValidatorIndex (answers fnID)))
  end.

(** ** Committing *)

(** One of the validators that agreed submits, in turn. *)
Definition submit_in_turn (f : FnConsensusReactor) (fnID : string) (fn : Fn) (vals : ValidatorSet) (ownValidatorIndex : nat)
    (currentNonce : Z) (currentVoteSet : FnVoteSet) : M RWorld unit :=
  maj ← lift_res (MajResponse (cfg_FnVoteSigningThreshold f) vals currentVoteSet);
  match maj with
  | None => mret ()
  | Some agg =>
      let numberOfAgreeVotes := NumberOfAgreeVotes agg in
      let agreeVoteIndex := AgreeIndex ownValidatorIndex agg in
      if agreeVoteIndex =? -1 then mret ()
      else if numberOfAgreeVotes =? 0 then panic
      else if Z.rem currentNonce numberOfAgreeVotes =? agreeVoteIndex
      then safeSubmitMultiSignedMessage fnID (Nonce currentVoteSet) (Some fn) (ag_Hash agg) (ag_OracleSignatures agg)
      else mret ()
  end.

Definition commit (f : FnConsensusReactor) (tmValidators : ValidatorSet) (fnID : string) : M RWorld unit :=
  match FnRegistry_Get fnID (fnRegistry f) with
  | None => throw (ErrMsg "fn is nil while trying to access it in commit routine, Ignoring...")
  | Some fn =>
      let currentValidators := getValidatorSet f tmValidators in
      s ← gets rw_state;
      let currentNonce := default 0 (CurrentNonces s !! fnID) in
      currentVoteSet ← deref (CurrentVoteSets s !! fnID);
      match IsValid (chainID f) currentValidators (is_registered f) currentVoteSet with
      | Panic => panic
      | Err _ => modify (on_state (set_CurrentVoteSet fnID None));; SaveReactorState
      | Ok _ =>
          hasConverged ← lift_res (HasConverged (cfg_FnVoteSigningThreshold f) currentValidators currentVoteSet);
          (if negb hasConverged then
             match PreviousMajVoteSets s !! fnID with
             | None => mret ()
             | Some previousConvergedVoteSet =>
                 previousBytes ← marshalled previousConvergedVoteSet;
                 currentBytes ← marshalled currentVoteSet;
                 broadcastMsgSync FnMajChannel None previousBytes;;
                 broadcastMsgSync FnVoteSetChannel None currentBytes
             end
           else
             match areWeValidator f currentValidators with
             | None => mret ()
             | Some ownValidatorIndex => submit_in_turn f fnID fn currentValidators ownValidatorIndex currentNonce currentVoteSet
             end;;
             modify (on_state (λ s, set_CurrentVoteSet fnID None (set_PreviousMaj fnID currentVoteSet currentValidators
                                      (set_CurrentNonce fnID (i64 (currentNonce + 1)) s))));;
             mret ());;
          SaveReactorState
      end
  end.

Definition eligible_for_commit (fnIDs : list string) (w : RWorld) : list string :=
  filter (λ fnID, is_Some (CurrentVoteSets (rw_state w) !! fnID)) fnIDs.

Definition commitRoutine_turn (f : FnConsensusReactor) (tmValidators : ValidatorSet) (sorted : list string) : M RWorld unit :=
  fnIDs ← gets (eligible_for_commit sorted);
  forM fnIDs (λ fnID, ignore_err (commit f tmValidators fnID)).

(** ** Messages of peers *)

Definition compareFnVoteSets (f : FnConsensusReactor) (remoteVoteSet : FnVoteSet) (currentVoteSet : option FnVoteSet)
    (currentNonce : Z) (currentValidators : ValidatorSet) : Res Z :=
  let th := cfg_FnVoteSigningThreshold f in
  match currentVoteSet with
  | None =>
      if currentNonce =? Nonce remoteVoteSet then Ok 1
      else converged ← HasConverged th currentValidators remoteVoteSet; Ok (if converged : bool then 1 else -1)
  | Some currentVoteSet =>
      if Nonce currentVoteSet =? Nonce remoteVoteSet then Ok 0
      else
        currentVoteSetConverged ← HasConverged th currentValidators currentVoteSet;
        remoteVoteSetConverged ← HasConverged th currentValidators remoteVoteSet;
        match currentVoteSetConverged, remoteVoteSetConverged with
        | true, false => Ok (-1)
        | false, true => Ok 1
        | false, false => Ok (-1)
        | true, true =>
            if NumberOfVotes remoteVoteSet <? NumberOfVotes currentVoteSet then Ok (-1)
            else if NumberOfVotes currentVoteSet <? NumberOfVotes remoteVoteSet then Ok 1
            else
              currentMajResponse ← MajResponse th currentValidators currentVoteSet;
              remoteMajResponse ← MajResponse th currentValidators remoteVoteSet;
              match currentMajResponse, remoteMajResponse with
              | Some _, None => Ok (-1)
              | None, Some _ => Ok 1
              | None, None => Ok (-1)
              | Some c, Some r => Ok (if NumberOfAgreeVotes c <? NumberOfAgreeVotes r then 1 else -1)
              end
        end
  end.

(** The validator set with which a vote set of a peer is valid. *)
Definition signing_validators (f : FnConsensusReactor) (currentValidatorSet : ValidatorSet) (previous : option ValidatorSet)
    (v : FnVoteSet) : Res ValidatorSet :=
  match IsValid (chainID f) currentValidatorSet (is_registered f) v with
  | Ok _ => Ok currentValidatorSet
  | Panic => Panic
  | Err _ =>
      match previous with
      | None => Err (ErrMsg "Invalid VoteSet specified, ignoring...")
      | Some previousValidatorSet =>
          match IsValid (chainID f) previousValidatorSet (is_registered f) v with
          | Ok _ => Ok previousValidatorSet
          | Err _ => Err (ErrMsg "Invalid VoteSet specified, ignoring...")
          | Panic => Panic
          end
      end
  end.

Definition unmarshalled (msgBytes : bytes) : M RWorld FnVoteSet :=
  match cdc_UnmarshalVoteSet msgBytes with None => throw (ErrMsg "Invalid Data passed, ignoring...") | Some v => mret v end.

Definition handleMaj23VoteSetChannel (f : FnConsensusReactor) (tmValidators : ValidatorSet) (msgBytes : bytes) : M RWorld unit :=
  s ← gets rw_state;
  remoteMajVoteSet ← unmarshalled msgBytes;
  vals ← lift_res (signing_validators f (getValidatorSet f tmValidators) (PreviousValidatorSet s) remoteMajVoteSet);
  remoteFnID ← lift_res (GetFnID remoteMajVoteSet);
  let currentNonce := current_nonce remoteFnID s in
  converged ← lift_res (HasConverged (cfg_FnVoteSigningThreshold f) vals remoteMajVoteSet);
  guard_not (negb converged) (ErrMsg "got non maj23 voteset, Ignoring...");;
  if Nonce remoteMajVoteSet <? currentNonce then
    (if (Nonce remoteMajVoteSet =? i64 (currentNonce - 1)) && bool_decide (PreviousMajVoteSets s !! remoteFnID = None)
     then modify (on_state (set_PreviousMaj remoteFnID remoteMajVoteSet vals)) else mret ());;
    SaveReactorState
  else
    modify (on_state (λ s, set_CurrentVoteSet remoteFnID None (set_CurrentNonce remoteFnID (i64 (Nonce remoteMajVoteSet + 1))
                             (set_PreviousMaj remoteFnID remoteMajVoteSet vals s))));;
    SaveReactorState;;
    marshalledBytes ← marshalled remoteMajVoteSet;
    broadcastMsgSync FnMajChannel None marshalledBytes.

(** The node adds its own vote to the current vote set.  The vote set is shared with
    the state: what [AddVote] has changed when it fails stays. *)
Definition add_own_vote (f : FnConsensusReactor) (fnID : string) (vals : ValidatorSet) (own : nat) (currentNonce : Z)
    (a : FnAnswer) (currentVoteSet : FnVoteSet) : M RWorld FnVoteSet :=
  let fn := FnRegistry_Get fnID (fnRegistry f) in
  individual ← ask fnID fn a;
  let '(r, v) := AddVote currentNonce individual vals own (pv_Sign f) currentVoteSet in
  modify (on_state (set_CurrentVoteSet fnID (Some v)));;
  (if HaveWeAlreadySigned own v then note_signature own v else mret ());;
  lift_res r;;
  mret v.

(** How the current vote set is after the message: merged, replaced or kept.  The
    flags are [didWeContribute] and [hasOurVoteSetChanged]. *)
Definition take_remote (f : FnConsensusReactor) (fnID : string) (vals : ValidatorSet) (currentNonce : Z)
    (currentVoteSet : option FnVoteSet) (remoteVoteSet : FnVoteSet) : M RWorld (option (bool * bool * Z * FnVoteSet)) :=
  order ← lift_res (compareFnVoteSets f remoteVoteSet currentVoteSet currentNonce vals);
  if order =? 0 then
    current ← deref currentVoteSet;
    '(didWeContribute, v) ← lift_res (Merge vals current remoteVoteSet);
    modify (on_state (set_CurrentVoteSet fnID (Some v)));;
    nonce ← gets (λ w, default 0 (CurrentNonces (rw_state w) !! fnID));
    mret (Some (didWeContribute, didWeContribute, nonce, v))
  else if order =? 1 then
    modify (on_state (λ s, set_CurrentNonce fnID (Nonce remoteVoteSet) (set_CurrentVoteSet fnID (Some remoteVoteSet) s)));;
    mret (Some (false, true, Nonce remoteVoteSet, remoteVoteSet))
  else mret ((λ v, (false, false, currentNonce, v)) <$> currentVoteSet).

Definition handleVoteSetChannelMessage (f : FnConsensusReactor) (tmValidators : ValidatorSet) (sender : string)
    (msgBytes : bytes) (a : FnAnswer) : M RWorld unit :=
  let currentValidators := getValidatorSet f tmValidators in
  let own := areWeValidator f currentValidators in
  remoteVoteSet ← unmarshalled msgBytes;
  fnID ← lift_res (GetFnID remoteVoteSet);
  lift_res (IsValid (chainID f) currentValidators (is_registered f) remoteVoteSet);;
  s ← gets rw_state;
  let currentNonce := current_nonce fnID s in
  (if bool_decide (CurrentNonces s !! fnID = None) then modify (on_state (set_CurrentNonce fnID currentNonce)) else mret ());;
  if Nonce remoteVoteSet <? currentNonce then mret ()
  else
    taken ← take_remote f fnID currentValidators currentNonce (CurrentVoteSets s !! fnID) remoteVoteSet;
    match taken with
    | None => mret ()
    | Some (didWeContribute, hasOurVoteSetChanged, currentNonce, currentVoteSet) =>
        '(didWeContribute, hasOurVoteSetChanged, currentVoteSet) ←
          match own with
          | Some ownValidatorIndex =>
              if HaveWeAlreadySigned ownValidatorIndex currentVoteSet
              then mret (didWeContribute, hasOurVoteSetChanged, currentVoteSet)
              else v ← add_own_vote f fnID currentValidators ownValidatorIndex currentNonce a currentVoteSet; mret (true, true, v)
          | None => mret (didWeContribute, hasOurVoteSetChanged, currentVoteSet)
          end;
        if negb hasOurVoteSetChanged then mret ()
        else
          marshalledBytes ← marshalled currentVoteSet;
          broadcastMsgSync FnVoteSetChannel (if didWeContribute : bool then None else Some sender) marshalledBytes
    end.

Definition Receive (f : FnConsensusReactor) (tmValidators : ValidatorSet) (chID : Z) (sender : string) (msgBytes : bytes)
    (a : FnAnswer) : M RWorld unit :=
  if chID =? FnVoteSetChannel then handleVoteSetChannelMessage f tmValidators sender msgBytes a
  else if chID =? FnMajChannel then handleMaj23VoteSetChannel f tmValidators msgBytes
  else throw (ErrMsg "Unknown channel").
End Reactor.
