(* ===== verification/FnReactorTheorems.v ===== *)
(** * Safety of the function consensus

    Nodes take turns of their vote and commit routines, receive and merge in any order,
    some validators misbehave.
    An honest node signs at most one answer for a function and a nonce, its nonces
    never go back, and the answers that honest nodes submit for one nonce agree as
    long as the others have no more than a third of the power. *)

From Stdlib Require Import Ascii.
From stdpp Require Import pretty.
From S2P Require Import Prelude Contract FnConsensus FnConsensusTheorems FnReactor.

Class ReactorSpec `{ReactorLib} : Prop := {
  vs_by_address vs a i : vs_GetByAddress vs a = Some i → ∃ val, vs_GetByIndex vs i = Some val ∧ val.1.1 = a;
  (** the codec writes lengths first, and does not tell nil from empty *)
  cdc_request_inj fn fn' x y : cdc_request fn +:+ x = cdc_request fn' +:+ y → fn = fn' ∧ x = y;
  cdc_individual_inj h o h' o' :
    cdc_individual h o = cdc_individual h' o' → default "" h = default "" h' ∧ default "" o = default "" o';
}.

(** ** The bytes that are signed tell what is voted for *)

Definition bar : ascii := Ascii.ascii_of_nat 124.

Fixpoint no_bar (s : string) : bool :=
  match s with EmptyString => true | String c s => negb (Ascii.eqb c bar) && no_bar s end.

Lemma split_at_bar a b x y :
  no_bar a = true → no_bar b = true → a +:+ String bar x = b +:+ String bar y → a = b ∧ x = y.
Proof.
  revert b. induction a as [|c a IH]; intros [|d b]; cbn [no_bar]; intros Ha Hb Heq.
  - by injection Heq.
  - injection Heq as <- _. by rewrite Ascii.eqb_refl in Hb.
  - injection Heq as -> _. by rewrite Ascii.eqb_refl in Ha.
  - apply andb_true_iff in Ha as [_ Ha], Hb as [_ Hb]. injection Heq as -> Heq. destruct (IH b Ha Hb Heq) as [-> ->]. done.
Qed.

Lemma pretty_N_go_no_bar (x : N) s : no_bar s = true → no_bar (pretty_N_go x s) = true.
Proof.
  revert s. induction (N.lt_wf_0 x) as [x _ IH]; intros s Hs.
  destruct (decide (x = 0%N)) as [->|Hx]; [by rewrite pretty_N_go_0|].
  rewrite pretty_N_go_step by lia. apply IH; [apply N.div_lt; lia|].
  cbn [no_bar]. rewrite Hs, andb_true_r. unfold pretty_N_char. by repeat case_match.
Qed.

Lemma pretty_no_bar (n : Z) : no_bar (pretty n) = true.
Proof.
  assert (∀ m : N, no_bar (pretty m) = true) as H.
  { intros m. unfold pretty, pretty_N. case_decide; [done | by apply pretty_N_go_no_bar]. }
  destruct n as [|p|p]; [done | apply (H (N.pos p)) | apply (H (N.pos p))].
Qed.

Lemma app_same_l (a x y : string) : a +:+ x = a +:+ y → x = y.
Proof. induction a as [|c a IH]; [done|]. intros [= H]. by apply IH. Qed.

Section Votes.
Context {TM : TendermintLib} {TS : TendermintSpec} {RL : ReactorLib} {RS : ReactorSpec}.
Implicit Types (vals : ValidatorSet) (v : FnVoteSet).

Lemma vote_bytes_inj vals ch addr n fn h o n' fn' h' o' :
  vote_bytes vals n ch fn addr (Some h) (Some o) = vote_bytes vals n' ch fn' addr (Some h') (Some o') →
  n = n' ∧ fn = fn' ∧ h = h'.
Proof.
  unfold vote_bytes. intros H. apply app_same_l in H. apply (split_at_bar (pretty n) (pretty n')) in H as [Hn H]; [|apply pretty_no_bar..].
  apply (inj pretty) in Hn. apply (app_same_l "CD:") in H. do 7 apply app_same_l in H.
  apply cdc_request_inj in H as [-> H]. apply app_same_l, cdc_individual_inj in H as [H _]. done.
Qed.

Lemma valid_fn ch vals reg v : vs_TotalVotingPower vals < 2 ^ 62 → IsValid ch vals reg v = Ok () → ∃ fn, GetFnID v = Ok fn ∧ reg fn = true.
Proof. intros Hb Hv. apply IsValid_spec in Hv as (n & fn & ? & ? & ? & ? & ? & ? & Hreg & _ & ->); [|done]. by exists fn. Qed.

(** What a valid vote set holds for a validator that voted. *)
Lemma valid_slot ch vals reg v j fn :
  vs_TotalVotingPower vals < 2 ^ 62 → IsValid ch vals reg v = Ok () → GetFnID v = Ok fn → HaveWeAlreadySigned j v = true →
  ∃ h o s, hash_of v j = Some h ∧
    SignBytes j v = Ok (vote_bytes vals (Nonce v) ch fn (addr_at vals j) (Some h) (Some o)) ∧
    ValidatorSignatures v !! j = Some s ∧ signed vals (Nonce v) ch fn j (Some h) (Some o) s.
Proof.
  intros Hb Hv Hf Hj. apply IsValid_spec in Hv as (n & fn' & bits & rb & hs & os & sigs & addrs & Hreg & Hok & ->); [|done].
  injection Hf as ->. unfold HaveWeAlreadySigned in Hj. simpl in Hj.
  destruct Hok as [[S1 S2] (L1 & L2 & L3 & L4) Hbits Ha Ho Hh Hs].
  destruct (decide (j < vs_Size vals)%nat) as [Hlt|]; [|rewrite ba_Get_out in Hj by lia; done].
  destruct (lookup_below hs j _ L1 Hlt) as (h & Hjh), (lookup_below os j _ L2 Hlt) as (o & Hjo),
    (lookup_below sigs j _ L3 Hlt) as (s & Hjs), (lookup_below addrs j _ L4 Hlt) as (a & Hja).
  pose proof (Hh j h Hjh) as E1. pose proof (Ho j o Hjo) as E2. rewrite Hj in E1, E2.
  symmetry in E1, E2. apply bool_decide_eq_true in E1 as [h' ->], E2 as [o' ->].
  exists h', o', s. split_and!; [unfold hash_of, hashes; simpl; by rewrite Hjh | | done | by apply Hs].
  by rewrite (SignBytes_slot n ch vals fn _ bits rb hs os sigs addrs j _ _ a Hjh Hjo Hja), (Ha j a Hja).
Qed.

Lemma valid_response ch vals reg v :
  vs_TotalVotingPower vals < 2 ^ 62 → IsValid ch vals reg v = Ok () →
  ∃ p r, Payload v = Some p ∧ Response p = Some r ∧ Response_IsValid vals r = Ok () ∧
    ∀ j x, hashes r !! j = Some (Some x) → HaveWeAlreadySigned j v = true ∧ hash_of v j = Some x.
Proof.
  intros Hb Hv. pose proof Hv as Hv'.
  apply IsValid_spec in Hv' as (n & fn' & bits & rb & hs & os & sigs & addrs & Hreg & Hok & ->); [|done].
  do 2 eexists. split_and!; [done | done | |].
  - unfold IsValid, Payload_IsValid in Hv. simpl in Hv. by destruct (Response_IsValid _ _) as [[]|?|].
  - intros j x Hx. unfold hashes in Hx. simpl in Hx. unfold HaveWeAlreadySigned, hash_of, hashes. simpl. rewrite Hx. split; [|done].
    by rewrite (so_hash _ _ _ _ _ _ _ _ _ _ Hok j _ Hx).
Qed.

Lemma converged_reaches th vals v : vs_TotalVotingPower vals < 2 ^ 62 → HasConverged th vals v = Ok true → reaches th vals (TotalVotingPower v).
Proof.
  intros Hb. destruct th; simpl; [|intros [= ?%Z.eqb_eq]; done|done].
  intros [= H%Z.leb_le]. by apply two_thirds_spec in H.
Qed.
End Votes.

(** ** One honest node

    [others] is what the other validators' keys have signed so far; [floor] and [base]
    bound the nonces and the signatures from below. *)

Record node_config {TM : TendermintLib} {RL : ReactorLib} {Fn : Type} (vals : ValidatorSet) (ch : string) (i : nat)
    (f : FnConsensusReactor (Fn := Fn)) : Prop := {
  nc_chain : chainID f = ch;
  nc_vals : getValidatorSet f vals = vals;
  nc_own : areWeValidator f vals = Some i;
  nc_signs : signs_for vals i (pv_Sign f);
  nc_total b : is_Some (pv_Sign f b);
  nc_th s : cfg_FnVoteSigningThreshold f ≠ UnknownThreshold s;
  (** the node's own power does not reach the threshold *)
  nc_alone : ¬ reaches (cfg_FnVoteSigningThreshold f) vals (power_at vals i);
}.

Section Node.
Context {TM : TendermintLib} {TS : TendermintSpec} {RL : ReactorLib} {RS : ReactorSpec} {Fn : Type}.
Context (vals : ValidatorSet) (ch : string) (honest : nat → bool).
Implicit Types (v u : FnVoteSet) (w : RWorld) (fn : string).

(** Somebody's key has signed an answer for a function and a nonce. *)
Definition cast (signed : list bytes) (j : nat) fn (n : Z) (h : bytes) : Prop :=
  ∃ o, vote_bytes vals n ch fn (addr_at vals j) (Some h) (Some o) ∈ signed.

(** The votes of honest validators in a vote set are votes that they cast. *)
Definition backed (signed : nat → list bytes) fn v : Prop :=
  ∀ j, honest j = true → HaveWeAlreadySigned j v = true → ∃ h, hash_of v j = Some h ∧ cast (signed j) j fn (Nonce v) h.

(** No key is used but by its owner: where a signature of an honest validator
    verifies, the validator has signed these bytes. *)
Definition genuine (signed : nat → list bytes) v : Prop :=
  ∀ j val b s, honest j = true → vs_GetByIndex vals j = Some val → SignBytes j v = Ok b →
    ValidatorSignatures v !! j = Some s → pk_VerifyBytes val.1.2 b (default "" s) = true → b ∈ signed j.

Lemma genuine_backed signed reg v fn :
  vs_TotalVotingPower vals < 2 ^ 62 → IsValid ch vals reg v = Ok () → GetFnID v = Ok fn → genuine signed v → backed signed fn v.
Proof.
  intros Hb Hv Hf Hg j Hj Hs. destruct (valid_slot ch vals reg v j fn Hb Hv Hf Hs) as (h & o & s & Hh & Hsb & Hsig & (val & Hval & _ & Hver)).
  exists h. split; [done|]. exists o. eapply (Hg j val); [done | done | done | exact Hsig |].
  unfold addr_at. by rewrite Hval.
Qed.

Lemma backed_mono S S' fn v : (∀ j b, b ∈ S j → b ∈ S' j) → backed S fn v → backed S' fn v.
Proof. intros H Hb j Hj Hs. destruct (Hb j Hj Hs) as (h & Hh & o & Ho). exists h. split; [done|]. exists o. by apply H. Qed.

Context (others : nat → list bytes) (base : list bytes) (floor : string → Z) (i : nat) (f : FnConsensusReactor (Fn := Fn)).
Context (Hb : vs_TotalVotingPower vals < 2 ^ 62) (Hf : node_config vals ch i f) (Hfloor : ∀ fn, 1 <= floor fn).

Definition keys w (j : nat) : list bytes := if decide (j = i) then rw_signed w else others j.

Definition supported w (c : FnCall) : Prop :=
  match c with
  | MapMessage _ _ _ => True
  | SubmitMultiSignedMessage fn n h _ =>
      ∃ r agg, Response_IsValid vals r = Ok () ∧ ToMajResponse (cfg_FnVoteSigningThreshold f) vals r = Ok (Some agg) ∧
        ag_Hash agg = h ∧ ∀ j x, honest j = true → hashes r !! j = Some (Some x) → cast (keys w j) j fn n x
  end.

Record good w : Prop := {
  g_prev : PreviousValidatorSet (rw_state w) = None ∨ PreviousValidatorSet (rw_state w) = Some vals;
  g_floor fn : floor fn <= current_nonce fn (rw_state w);
  g_base b : b ∈ base → b ∈ rw_signed w;
  g_sets fn v : CurrentVoteSets (rw_state w) !! fn = Some v →
    IsValid ch vals (is_registered f) v = Ok () ∧ GetFnID v = Ok fn ∧ Nonce v = current_nonce fn (rw_state w) ∧ backed (keys w) fn v;
  g_alone fn v : CurrentVoteSets (rw_state w) !! fn = Some v → CurrentNonces (rw_state w) !! fn = None →
    TotalVotingPower v = power_at vals i;
  g_signed b : b ∈ rw_signed w → ∃ fn n h o, b = vote_bytes vals n ch fn (addr_at vals i) (Some h) (Some o) ∧
    n <= current_nonce fn (rw_state w) ∧
    (n = current_nonce fn (rw_state w) → ∃ v, CurrentVoteSets (rw_state w) !! fn = Some v ∧
       HaveWeAlreadySigned i v = true ∧ hash_of v i = Some h);
  g_once fn n h h' : cast (rw_signed w) i fn n h → cast (rw_signed w) i fn n h' → h = h';
  g_calls c : c ∈ rw_calls w → supported w c;
}.

(** A vote that the node cast is not for a later nonce, and if it is for the current
    one, it is in the current vote set. *)
Lemma good_cast w fn n h :
  good w → cast (rw_signed w) i fn n h →
  n <= current_nonce fn (rw_state w) ∧
  (n = current_nonce fn (rw_state w) → ∃ v, CurrentVoteSets (rw_state w) !! fn = Some v ∧
     HaveWeAlreadySigned i v = true ∧ hash_of v i = Some h).
Proof.
  intros Hg (o & Ho). destruct (g_signed w Hg _ Ho) as (fn' & n' & h' & o' & Heq & H).
  apply vote_bytes_inj in Heq as (-> & -> & ->). done.
Qed.

Lemma keys_same w w' : rw_signed w' = rw_signed w → keys w' = keys w.
Proof. unfold keys. by intros ->. Qed.
Lemma supported_same w w' c : rw_signed w' = rw_signed w → supported w c → supported w' c.
Proof. intros H. destruct c; [done|]. simpl. by rewrite (keys_same w w' H). Qed.

(** Steps that do not touch the current vote sets and nonces. *)
Lemma good_same w w' :
  CurrentVoteSets (rw_state w') = CurrentVoteSets (rw_state w) → CurrentNonces (rw_state w') = CurrentNonces (rw_state w) →
  PreviousValidatorSet (rw_state w') = PreviousValidatorSet (rw_state w) ∨ PreviousValidatorSet (rw_state w') = Some vals →
  rw_signed w' = rw_signed w → (∀ c, c ∈ rw_calls w' → c ∈ rw_calls w ∨ supported w c) →
  good w → good w'.
Proof.
  intros Hcv Hcn Hpv Hsg Hc [G1 G2 G0 G3 G4 G5 G6 G7]. unfold current_nonce in *.
  constructor; unfold current_nonce; rewrite ?Hcv, ?Hcn, ?Hsg; try done.
  - destruct Hpv as [->|]; auto.
  - intros fn v. rewrite (keys_same w w' Hsg). apply G3.
  - intros c Hin. apply (supported_same w); [done|]. destruct (Hc c Hin); auto.
Qed.

Lemma good_frame w w' :
  rw_state w' = rw_state w → rw_signed w' = rw_signed w → (∀ c, c ∈ rw_calls w' → c ∈ rw_calls w ∨ supported w c) →
  good w → good w'.
Proof. intros Hst. apply good_same; rewrite Hst; auto. Qed.

(** A current vote set that is put in the place of the former one. *)
Lemma good_put w w' fn v n :
  good w →
  CurrentVoteSets (rw_state w') = <[fn := v]> (CurrentVoteSets (rw_state w)) →
  CurrentNonces (rw_state w') = <[fn := n]> (CurrentNonces (rw_state w)) →
  PreviousValidatorSet (rw_state w') = PreviousValidatorSet (rw_state w) →
  rw_signed w' = rw_signed w → rw_calls w' = rw_calls w →
  IsValid ch vals (is_registered f) v = Ok () → GetFnID v = Ok fn → Nonce v = n → backed (keys w) fn v →
  current_nonce fn (rw_state w) <= n →
  (n = current_nonce fn (rw_state w) → ∀ u h, CurrentVoteSets (rw_state w) !! fn = Some u →
     HaveWeAlreadySigned i u = true → hash_of u i = Some h → HaveWeAlreadySigned i v = true ∧ hash_of v i = Some h) →
  good w'.
Proof.
  intros [G1 G2 G0 G3 G4 G5 G6 G7] Hcv Hcn Hpv Hsg Hcl Hval Hid Hn Hbk Hle Hown.
  assert (∀ fn', current_nonce fn' (rw_state w') = if decide (fn' = fn) then n else current_nonce fn' (rw_state w)) as Hcur.
  { intros fn'. unfold current_nonce. rewrite Hcn. destruct (decide (fn' = fn)) as [->|]; [by rewrite lookup_insert_eq | by rewrite lookup_insert_ne]. }
  constructor; rewrite ?Hpv, ?Hsg, ?Hcl; try done.
  - intros fn'. rewrite Hcur. destruct (decide _) as [->|]; [|done]. specialize (G2 fn). lia.
  - intros fn' v'. rewrite Hcv, Hcur, (keys_same w w' Hsg). destruct (decide (fn' = fn)) as [->|].
    + rewrite lookup_insert_eq. intros [= <-]. done.
    + rewrite lookup_insert_ne by done. apply G3.
  - intros fn' v'. rewrite Hcv, Hcn. destruct (decide (fn' = fn)) as [->|]; [by rewrite !lookup_insert_eq|].
    rewrite !lookup_insert_ne by done. apply G4.
  - intros b Hin. destruct (G5 b Hin) as (fn' & n' & h & o & -> & Hle' & Hex). exists fn', n', h, o. split; [done|].
    rewrite Hcur, Hcv. destruct (decide (fn' = fn)) as [->|]; [|by rewrite lookup_insert_ne].
    split; [lia|]. intros ->. rewrite lookup_insert_eq. exists v. split; [done|].
    destruct Hex as (u & Hu & Hs & Hh); [lia|]. apply (Hown ltac:(lia) u h); done.
  - intros c Hin. apply (supported_same w); [done | auto].
Qed.

(** The node moves on to a later nonce. *)
Lemma good_drop w w' fn n :
  good w →
  CurrentVoteSets (rw_state w') = delete fn (CurrentVoteSets (rw_state w)) →
  CurrentNonces (rw_state w') = <[fn := n]> (CurrentNonces (rw_state w)) →
  PreviousValidatorSet (rw_state w') = Some vals →
  rw_signed w' = rw_signed w → rw_calls w' = rw_calls w →
  current_nonce fn (rw_state w) < n →
  good w'.
Proof.
  intros [G1 G2 G0 G3 G4 G5 G6 G7] Hcv Hcn Hpv Hsg Hcl Hlt.
  assert (∀ fn', current_nonce fn' (rw_state w') = if decide (fn' = fn) then n else current_nonce fn' (rw_state w)) as Hcur.
  { intros fn'. unfold current_nonce. rewrite Hcn. destruct (decide (fn' = fn)) as [->|]; [by rewrite lookup_insert_eq | by rewrite lookup_insert_ne]. }
  constructor; rewrite ?Hpv, ?Hsg, ?Hcl; try done.
  - by right.
  - intros fn'. rewrite Hcur. destruct (decide _) as [->|]; [|done]. specialize (G2 fn). lia.
  - intros fn' v'. rewrite Hcv, Hcur, (keys_same w w' Hsg). destruct (decide (fn' = fn)) as [->|]; [by rewrite lookup_delete_eq|].
    rewrite lookup_delete_ne by done. apply G3.
  - intros fn' v'. rewrite Hcv, Hcn. destruct (decide (fn' = fn)) as [->|]; [by rewrite lookup_delete_eq|].
    rewrite lookup_delete_ne, lookup_insert_ne by done. apply G4.
  - intros b Hin. destruct (G5 b Hin) as (fn' & n' & h & o & -> & Hle' & Hex). exists fn', n', h, o. split; [done|].
    rewrite Hcur, Hcv. destruct (decide (fn' = fn)) as [->|]; [split; lia | by rewrite lookup_delete_ne].
  - intros c Hin. apply (supported_same w); [done | auto].
Qed.

Lemma keys_grow w w' l : rw_signed w' = rw_signed w ++ l → ∀ j b, b ∈ keys w j → b ∈ keys w' j.
Proof. intros H j b. unfold keys. case_decide; [|done]. rewrite H. set_solver. Qed.

Lemma supported_grow w w' l c : rw_signed w' = rw_signed w ++ l → supported w c → supported w' c.
Proof.
  intros H. destruct c; [done|]. simpl. intros (r & agg & Hr & Hm & Hh & Hall). exists r, agg. split_and!; try done.
  intros j x Hj Hx. destruct (Hall j x Hj Hx) as (o & Ho). exists o. by eapply keys_grow.
Qed.

(** The node's own vote, signed and entered. *)
Lemma good_own w w' fn v h o :
  good w →
  CurrentVoteSets (rw_state w') = <[fn := v]> (CurrentVoteSets (rw_state w)) →
  CurrentNonces (rw_state w') = CurrentNonces (rw_state w) →
  PreviousValidatorSet (rw_state w') = PreviousValidatorSet (rw_state w) →
  rw_signed w' = rw_signed w ++ [vote_bytes vals (Nonce v) ch fn (addr_at vals i) (Some h) (Some o)] →
  rw_calls w' = rw_calls w →
  IsValid ch vals (is_registered f) v = Ok () → GetFnID v = Ok fn → Nonce v = current_nonce fn (rw_state w) →
  (∀ u, CurrentVoteSets (rw_state w) !! fn = Some u → HaveWeAlreadySigned i u = false) →
  HaveWeAlreadySigned i v = true → hash_of v i = Some h →
  (∀ j, j ≠ i → honest j = true → HaveWeAlreadySigned j v = true → ∃ x, hash_of v j = Some x ∧ cast (others j) j fn (Nonce v) x) →
  (CurrentNonces (rw_state w) !! fn = None → TotalVotingPower v = power_at vals i) →
  good w'.
Proof.
  intros Hg Hcv Hcn Hpv Hsg Hcl Hval Hid Hn Hnot Hs Hh Hbk Hal. pose proof Hg as [G1 G2 G0 G3 G4 G5 G6 G7].
  assert (∀ fn', current_nonce fn' (rw_state w') = current_nonce fn' (rw_state w)) as Hcur by (intros; unfold current_nonce; by rewrite Hcn).
  set (b0 := vote_bytes _ _ _ _ _ _ _) in *.
  assert (∀ h', cast (rw_signed w) i fn (Nonce v) h' → False) as Hfresh.
  { intros h' Hc. destruct (good_cast w fn (Nonce v) h' Hg Hc) as (_ & Hex). destruct (Hex Hn) as (u & Hu & Hus & _).
    rewrite (Hnot u Hu) in Hus. done. }
  assert (∀ fn' n' h', cast (rw_signed w') i fn' n' h' → cast (rw_signed w) i fn' n' h' ∨ (fn' = fn ∧ n' = Nonce v ∧ h' = h)) as Hcast.
  { intros fn' n' h' (o' & Ho'). rewrite Hsg in Ho'. apply elem_of_app in Ho' as [Ho'|Ho'%list_elem_of_singleton]; [left; by exists o'|].
    right. apply vote_bytes_inj in Ho' as (-> & -> & ->). done. }
  constructor; rewrite ?Hpv, ?Hcl; try done.
  - intros fn'. rewrite Hcur. apply G2.
  - intros b Hin. rewrite Hsg. apply elem_of_app. auto.
  - intros fn' v'. rewrite Hcv, Hcur. destruct (decide (fn' = fn)) as [->|].
    + rewrite lookup_insert_eq. intros [= <-]. split_and!; try done. intros j Hj Hjs. destruct (decide (j = i)) as [->|Hne].
      * exists h. split; [done|]. exists o. unfold keys. rewrite decide_True, Hsg by done. fold b0. set_solver.
      * destruct (Hbk j Hne Hj Hjs) as (x & Hx & Hc). exists x. split; [done|]. unfold keys. by rewrite decide_False.
    + rewrite lookup_insert_ne by done. intros Hv'. destruct (G3 fn' v' Hv') as (? & ? & ? & Hbv). split_and!; try done.
      eapply backed_mono; [|exact Hbv]. by eapply keys_grow.
  - intros fn' v'. rewrite Hcv, Hcn. destruct (decide (fn' = fn)) as [->|].
    + rewrite lookup_insert_eq. intros [= <-]. done.
    + rewrite lookup_insert_ne by done. apply G4.
  - intros b Hin. rewrite Hsg in Hin. apply elem_of_app in Hin as [Hin| ->%list_elem_of_singleton].
    + destruct (G5 b Hin) as (fn' & n' & h' & o' & -> & Hle' & Hex). exists fn', n', h', o'. split; [done|].
      rewrite Hcur, Hcv. split; [done|]. intros Heq. destruct (decide (fn' = fn)) as [->|]; [|rewrite lookup_insert_ne by done; auto].
      exfalso. apply (Hfresh h'). exists o'. by rewrite Hn, <- Heq.
    + exists fn, (Nonce v), h, o. split; [done|]. rewrite Hcur, Hcv. split; [lia|]. intros _. exists v. by rewrite lookup_insert_eq.
  - intros fn' n' h1 h2 H1 H2. destruct (Hcast _ _ _ H1) as [C1|(-> & -> & ->)], (Hcast _ _ _ H2) as [C2|(E1 & E2 & E3)].
    + by eapply G6.
    + subst. by destruct (Hfresh h1).
    + by destruct (Hfresh h2).
    + done.
  - intros c Hin. eapply supported_grow; [done | auto].
Qed.

(** *** Voting *)

(** The function returns a message with a signature, or an error. *)
Definition sound_answer (a : FnAnswer) : Prop :=
  match an_GetMessageAndSignature a with Ok (_, Some _) | Err _ => True | _ => False end.

Lemma own_below : (i < vs_Size vals)%nat.
Proof. eapply signs_for_below, nc_signs, Hf. Qed.

Lemma no_majority_alone v :
  IsValid ch vals (is_registered f) v = Ok () → TotalVotingPower v = power_at vals i →
  MajResponse (cfg_FnVoteSigningThreshold f) vals v = Ok None.
Proof.
  intros Hv Hp. pose proof own_below as Hi. destruct (valid_response _ _ _ _ Hb Hv) as (p & r & Hpl & Hr & Hrv & Hall).
  unfold MajResponse. rewrite Hpl. simpl. rewrite Hr. simpl.
  destruct (maj_response_spec (cfg_FnVoteSigningThreshold f) vals r) as (res & Hres & Hiff & _); [done | lia | done | apply (nc_th _ _ _ _ Hf) |].
  rewrite Hres. destruct res as [agg|]; [|done]. exfalso.
  destruct (selected_is_backed _ vals r agg Hb ltac:(lia) Hrv Hres) as (h & Hh & _).
  apply (nc_alone _ _ _ _ Hf). apply (reaches_mono _ _ (behind vals r h)); [apply Hiff; eauto | |].
  - rewrite <- Hp, (valid_power _ _ _ _ Hb Hv). apply power_of_mono. intros j _ Hj. apply bool_decide_eq_true in Hj. by apply (Hall j h).
  - rewrite <- Hp, (valid_power _ _ _ _ Hb Hv). by apply power_of_le_total.
Qed.

Lemma called_good w fn h m : good w → good (also_called (MapMessage fn h m) w).
Proof.
  apply good_frame; [done | done |]. simpl. intros c [?|Hc%list_elem_of_singleton]%elem_of_app; [by left|]. right. by subst.
Qed.

Lemma save_good : preserves good SaveReactorState.
Proof. intros w Hg. unfold SaveReactorState. apply wp_bind, wp_gets. case_match; [|done]. by apply (good_frame w); [..|auto|]. Qed.

Lemma broadcast_good chID ex b : preserves good (broadcastMsgSync chID ex b).
Proof. intros w Hg. apply wp_bind, wp_gets, wp_modify. by apply (good_frame w); [..|auto|]. Qed.

Lemma marshalled_good v : preserves good (marshalled v).
Proof. intros w Hg. unfold marshalled. by case_match. Qed.

#[local] Hint Resolve save_good broadcast_good marshalled_good : preserves.

(** Asking the function: it answers with a hash and a signature, or it is not known. *)
Lemma ask_good fn a w Q :
  sound_answer a → good w →
  (∀ h o w', rw_state w' = rw_state w → rw_signed w' = rw_signed w → good w' → is_registered f fn = true →
     Q (Ok (mkIndividual (Some h) (Some o))) w') →
  (∀ x, is_registered f fn = false → Q (Ok x) w) → (∀ e w', good w' → Q (Err e) w') →
  wp (ask fn (FnRegistry_Get fn (fnRegistry f)) a) Q w.
Proof.
  intros Ha Hg Hok Hno Herr. unfold is_registered in *. unfold ask. destruct (FnRegistry_Get fn (fnRegistry f)) as [g|] eqn:Hr.
  - unfold sound_answer in Ha. apply wp_bind. unfold safeGetMessageAndSignature.
    destruct (an_GetMessageAndSignature a) as [[m [o|]]|e|]; try done; [|by apply Herr].
    apply wp_ret, wp_bind. apply wp_bind, wp_modify. pose proof (called_good w fn (Some (calculateMessageHash m)) m Hg).
    destruct (an_MapMessage a); [apply wp_ret, wp_ret; by apply Hok | by apply Herr | apply wp_ret, wp_ret; by apply Hok].
  - apply wp_bind. apply wp_ret, wp_bind, wp_ret, wp_ret. by apply Hno.
Qed.

(** A validator alone in a vote set that it has just started. *)
Lemma new_vote_set_slots n fn h o r v :
  is_registered f fn = true → NewFnExecutionResponse (mkIndividual (Some h) (Some o)) i vals = Ok r →
  NewVoteSet n ch i (mkPayload (Some fn) (Some r)) (pv_Sign f) vals = Ok v →
  TotalVotingPower v = power_at vals i ∧ hash_of v i = Some h ∧
  SignBytes i v = Ok (vote_bytes vals n ch fn (addr_at vals i) (Some h) (Some o)) ∧
  ∀ j, HaveWeAlreadySigned j v = bool_decide (j = i).
Proof.
  intros Hreg Hr Hv. pose proof own_below as Hi.
  destruct (new_vote_set_valid ch vals (is_registered f) n fn i h o (pv_Sign f) r v) as (Hval & Hn & Hid); [done | apply Hf | done..|].
  destruct (new_vote_set_form ch vals n fn i h o (pv_Sign f) r v) as (s & -> & _); [apply Hf | done..|].
  assert (∀ j, HaveWeAlreadySigned j (vote_set n ch vals fn (power_at vals i) (ba_SetIndex i true (ba_New (vs_Size vals)))
    (ba_SetIndex i true (ba_New (vs_Size vals))) (<[i := Some h]> (replicate (vs_Size vals) None)) (<[i := Some o]> (replicate (vs_Size vals) None))
    (<[i := Some s]> (replicate (vs_Size vals) None)) ((λ i, (λ val : bytes * PubKey * Z, val.1.1) <$> vs_GetByIndex vals i) <$> seq 0 (vs_Size vals)))
    = bool_decide (j = i)) as Hs.
  { intros j. unfold HaveWeAlreadySigned. simpl. rewrite ba_Get_Set, ba_Get_New, ba_Size_New.
    destruct (decide (j = i)) as [->|]; [rewrite decide_True by done | rewrite decide_False by (intros []; done)];
      symmetry; [by apply bool_decide_eq_true | by apply bool_decide_eq_false]. }
  split_and!; [done | | | done].
  - unfold hash_of, hashes. simpl. by rewrite list_lookup_insert_eq by (by rewrite length_replicate).
  - destruct (vs_lookup vals i Hi) as (val & Hvl).
    rewrite (SignBytes_slot n ch vals fn _ _ _ _ _ _ _ i (Some h) (Some o) (Some val.1.1));
      [unfold addr_at; by rewrite Hvl | by rewrite list_lookup_insert_eq by (by rewrite length_replicate)..|].
    rewrite list_lookup_fmap, lookup_seq_lt by done. simpl. by rewrite Hvl.
Qed.

Lemma vote_good fn a w :
  sound_answer a → good w → CurrentVoteSets (rw_state w) !! fn = None →
  wp (vote f fn (FnRegistry_Get fn (fnRegistry f)) vals i a) (λ _ w', good w') w.
Proof.
  intros Ha Hg Hnone. unfold vote. apply wp_bind. apply ask_good; [done | done | | | done].
  2: { intros x Hreg. apply wp_bind. by rewrite Hreg. }
  intros h o w1 Hst Hsg Hg1 Hreg. apply wp_bind. rewrite Hreg. apply wp_guard_not. simpl.
  apply wp_bind, wp_lift_res. destruct (NewFnExecutionResponse _ _ _) as [r|?|] eqn:Hr; [|done|done].
  apply wp_bind, wp_gets. apply wp_bind, wp_lift_res. rewrite (nc_chain _ _ _ _ Hf).
  destruct (NewVoteSet _ _ _ _ _ _) as [v|?|] eqn:Hv; [|done|done].
  destruct (new_vote_set_valid ch vals (is_registered f) _ fn i h o (pv_Sign f) r v Hb (nc_signs _ _ _ _ Hf) Hreg Hr Hv) as (Hval & Hn & Hid).
  destruct (new_vote_set_slots _ fn h o r v Hreg Hr Hv) as (Hp & Hh & Hsb & Hs).
  apply wp_bind. unfold note_signature. rewrite Hsb. apply wp_modify. apply wp_bind, wp_lift_res.
  rewrite (no_majority_alone v Hval Hp). apply wp_bind, wp_modify.
  apply (preserves_bind good); [apply save_good | intros; apply preserves_bind; [apply marshalled_good | intros; apply broadcast_good] |].
  apply (good_own w1 _ fn v h o); try done.
  - simpl. by rewrite Hn.
  - rewrite Hst, Hnone. done.
  - by rewrite Hs, bool_decide_eq_true.
  - intros j Hj _. by rewrite Hs, bool_decide_eq_true.
Qed.

(** *** Committing *)

Lemma submit_good fn g w v :
  good w → CurrentVoteSets (rw_state w) !! fn = Some v →
  wp (submit_in_turn f fn g vals i (current_nonce fn (rw_state w)) v)
     (λ _ w', good w' ∧ rw_state w' = rw_state w ∧ rw_signed w' = rw_signed w) w.
Proof.
  intros Hg Hv. destruct (g_sets w Hg fn v Hv) as (Hval & Hid & Hn & Hbk).
  destruct (valid_response _ _ _ _ Hb Hval) as (p & r & Hpl & Hr & Hrv & Hall).
  unfold submit_in_turn. apply wp_bind, wp_lift_res. destruct (MajResponse _ _ _) as [[agg|]|?|] eqn:Hm; [|done..].
  cbv zeta. do 2 (case_match; [done|]). case_match; [|done]. apply wp_modify. split_and!; [|done..].
  apply (good_frame w); [done | done | | done]. simpl. intros c [?|Hc%list_elem_of_singleton]%elem_of_app; [by left|]. right. subst.
  exists r, agg. unfold MajResponse in Hm. rewrite Hpl in Hm. simpl in Hm. rewrite Hr in Hm. simpl in Hm. split_and!; try done.
  intros j x Hj Hx. destruct (Hall j x Hx) as (Hs & Hh). destruct (Hbk j Hj Hs) as (x' & Hx' & Hc). congruence.
Qed.

Lemma commit_good fn w :
  good w → current_nonce fn (rw_state w) < 2 ^ 63 - 1 → wp (commit f vals fn) (λ _ w', good w') w.
Proof.
  intros Hg Hbound. unfold commit. destruct (FnRegistry_Get fn (fnRegistry f)) as [g|]; [|done].
  rewrite (nc_vals _ _ _ _ Hf), (nc_own _ _ _ _ Hf), (nc_chain _ _ _ _ Hf). apply wp_bind, wp_gets, wp_bind, wp_deref.
  destruct (CurrentVoteSets (rw_state w) !! fn) as [v|] eqn:Hv; [|done].
  destruct (g_sets w Hg fn v Hv) as (Hval & Hid & Hn & Hbk). rewrite Hval. apply wp_bind, wp_lift_res.
  destruct (HasConverged _ _ _) as [[]|?|] eqn:Hc; [|simpl|done..].
  2: { apply (preserves_bind good); [|intros; apply save_good | done].
       case_match; [|apply preserves_ret]. auto with preserves. }
  cbn [negb]. destruct (CurrentNonces (rw_state w) !! fn) as [n|] eqn:Hcn.
  2: { exfalso. apply (nc_alone _ _ _ _ Hf). rewrite <- (g_alone w Hg fn v Hv Hcn). by apply converged_reaches. }
  assert (current_nonce fn (rw_state w) = n) as Hcur by (unfold current_nonce; by rewrite Hcn). simpl. rewrite <- Hcur.
  pose proof (g_floor w Hg fn) as Hfl. pose proof (Hfloor fn) as Hf1.
  apply wp_bind, wp_bind. eapply wp_mono; [by apply submit_good|]. intros r w1 (Hg1 & Hst & Hsg). destruct r; [|done..].
  apply wp_bind, wp_modify, wp_ret. apply save_good.
  apply (good_drop w1 _ fn (current_nonce fn (rw_state w) + 1)); try done; simpl; rewrite ?Hst.
  - by rewrite i64_small by lia.
  - lia.
Qed.

(** *** Messages *)

(** A message that arrives: the votes of honest validators are theirs, and its nonce is
    not the last one. *)
Definition arrives w (msg : bytes) : Prop :=
  ∀ v, cdc_UnmarshalVoteSet msg = Some v → Nonce v < 2 ^ 63 - 1 ∧ genuine (keys w) v.

Lemma unmarshalled_good msg w (Q : Res FnVoteSet → RWorld → Prop) :
  (∀ v, cdc_UnmarshalVoteSet msg = Some v → Q (Ok v) w) → (∀ e, Q (Err e) w) → wp (unmarshalled msg) Q w.
Proof. intros H1 H2. unfold unmarshalled. case_match; [by apply H1 | by apply H2]. Qed.

Lemma signing_validators_vals w v vs :
  good w → signing_validators f vals (PreviousValidatorSet (rw_state w)) v = Ok vs →
  vs = vals ∧ IsValid ch vals (is_registered f) v = Ok ().
Proof.
  intros Hg. unfold signing_validators. rewrite (nc_chain _ _ _ _ Hf).
  destruct (IsValid ch vals (is_registered f) v) as [[]|?|] eqn:Hv; [by intros [= <-] | | done].
  destruct (g_prev w Hg) as [->| ->]; [done|]. by rewrite Hv.
Qed.

Lemma maj_good msg w : good w → arrives w msg → wp (handleMaj23VoteSetChannel f vals msg) (λ _ w', good w') w.
Proof.
  intros Hg Ha. unfold handleMaj23VoteSetChannel. rewrite (nc_vals _ _ _ _ Hf). apply wp_bind, wp_gets, wp_bind.
  apply unmarshalled_good; [|done]. intros v Hv. destruct (Ha v Hv) as (Hmax & _).
  apply wp_bind, wp_lift_res. destruct (signing_validators _ _ _ _) as [vs|?|] eqn:Hsv; [|done..].
  destruct (signing_validators_vals w v vs Hg Hsv) as (-> & Hval). destruct (valid_fn _ _ _ _ Hb Hval) as (fn & Hid & _).
  apply wp_bind, wp_lift_res. rewrite Hid. apply wp_bind, wp_lift_res. destruct (HasConverged _ _ _) as [[]|?|]; [|done..].
  apply wp_bind, wp_guard_not. simpl. destruct (Z.ltb_spec (Nonce v) (current_nonce fn (rw_state w))) as [Hlt|Hge].
  - apply (preserves_bind good); [|intros; apply save_good | done]. case_match; [|apply preserves_ret].
    apply preserves_modify. intros w' Hg'. apply (good_same w'); try done; auto.
  - pose proof (g_floor w Hg fn). pose proof (Hfloor fn). apply wp_bind, wp_modify.
    apply (preserves_bind good); [apply save_good | intros; apply preserves_bind; [apply marshalled_good | intros; apply broadcast_good] |].
    apply (good_drop w _ fn (Nonce v + 1)); try done; simpl; [by rewrite i64_small by lia | lia].
Qed.

(** A function whose nonce is noted for the first time. *)
Lemma good_noted w fn :
  good w → CurrentNonces (rw_state w) !! fn = None → good (on_state (set_CurrentNonce fn (current_nonce fn (rw_state w))) w).
Proof.
  intros [G1 G2 G0 G3 G4 G5 G6 G7] Hn.
  assert (∀ fn', current_nonce fn' (set_CurrentNonce fn (current_nonce fn (rw_state w)) (rw_state w)) = current_nonce fn' (rw_state w)) as Hcur.
  { intros fn'. unfold current_nonce at 1. simpl. destruct (decide (fn' = fn)) as [->|]; [by rewrite lookup_insert_eq | by rewrite lookup_insert_ne]. }
  constructor; try done; simpl.
  - intros fn'. rewrite Hcur. apply G2.
  - intros fn' v. rewrite Hcur. apply G3.
  - intros fn' v. simpl. destruct (decide (fn' = fn)) as [->|]; [by rewrite lookup_insert_eq|]. rewrite lookup_insert_ne by done. apply G4.
  - intros b Hin. destruct (G5 b Hin) as (fn' & n & h & o & H). exists fn', n, h, o. by rewrite Hcur.
Qed.

(** A vote set is merged at the same nonce, and replaced only by one for a later nonce. *)
Lemma compare_cases v (o : option FnVoteSet) n vs z :
  compareFnVoteSets f v o n vs = Ok z →
  (z = 0 ∧ ∃ u, o = Some u ∧ Nonce u = Nonce v) ∨ (z = 1 ∧ ∀ u, o = Some u → Nonce u ≠ Nonce v) ∨ z = -1.
Proof.
  unfold compareFnVoteSets. destruct o as [u|].
  - destruct (Z.eqb_spec (Nonce u) (Nonce v)) as [Heq|Hne]; [intros [= <-]; left; eauto|].
    assert (∀ u', Some u = Some u' → Nonce u' ≠ Nonce v) by congruence.
    destruct (HasConverged _ _ u) as [[]|?|]; simpl; [..|done|done]; destruct (HasConverged _ _ v) as [[]|?|]; simpl; try done;
      try (intros [= <-]; auto); try done.
    intros Hz. destruct (_ <? _); [injection Hz as <-; auto|]. destruct (_ <? _); [injection Hz as <-; auto|].
    destruct (MajResponse _ _ u) as [[]|?|]; simpl in Hz; try done; destruct (MajResponse _ _ v) as [[]|?|]; simpl in Hz; try done;
      injection Hz as <-; auto. case_match; auto.
  - destruct (n =? Nonce v); [intros [= <-]; right; left; done|].
    destruct (HasConverged _ _ v) as [[]|?|]; simpl; [..|done|done]; intros [= <-]; [right; left|]; auto.
Qed.

Lemma take_remote_good fn v w (n : Z) :
  good w → CurrentNonces (rw_state w) !! fn = Some n → n <= Nonce v →
  IsValid ch vals (is_registered f) v = Ok () → GetFnID v = Ok fn → backed (keys w) fn v →
  wp (take_remote f fn vals n (CurrentVoteSets (rw_state w) !! fn) v)
     (λ r w', good w' ∧ ∀ c d n' u, r = Ok (Some (c, d, n', u)) →
        CurrentVoteSets (rw_state w') !! fn = Some u ∧ CurrentNonces (rw_state w') !! fn = Some n') w.
Proof.
  intros Hg Hcn Hle Hval Hid Hbk. assert (current_nonce fn (rw_state w) = n) as Hcur by (unfold current_nonce; by rewrite Hcn).
  unfold take_remote. apply wp_bind, wp_lift_res. destruct (compareFnVoteSets _ _ _ _ _) as [z|?|] eqn:Hz; [|done..].
  destruct (compare_cases _ _ _ _ _ Hz) as [(-> & u & Hu & Hnu)|[(-> & Hother)| ->]]; simpl.
  - rewrite Hu. apply wp_bind, wp_deref. destruct (g_sets w Hg fn u Hu) as (Hvu & Hidu & Hn & Hbu).
    destruct (merge_valid ch vals (is_registered f) u v Hb Hvu Hval Hnu ltac:(congruence)) as (c & m & Hm & Hvm & Hsm & _ & Hhm & _ & Hnm & Hidm).
    rewrite Hm. apply wp_bind, wp_lift_res, wp_bind, wp_modify, wp_bind, wp_gets. cbv beta.
    split; [|intros ???? [= -> -> <- <-]; simpl; split; [exact (lookup_insert_eq _ fn _) | by rewrite Hcn]].
    apply (good_put w _ fn m n); try done; simpl.
    + symmetry. by apply insert_id.
    + congruence.
    + lia.
    + intros j Hj. rewrite Hsm, Hhm, Hnm. destruct (HaveWeAlreadySigned j u) eqn:E; simpl; [intros _; by apply Hbu|].
      intros Hs. rewrite Hnu. by apply Hbk.
    + lia.
    + intros _ u' h Hu' Hs Hh. assert (u' = u) as -> by congruence. by rewrite Hsm, Hhm, Hs.
  - apply wp_bind, wp_modify. cbv beta.
    split; [|intros ???? [= -> -> <- <-]; simpl; split; exact (lookup_insert_eq _ fn _)].
    apply (good_put w _ fn v (Nonce v)); try done; [lia|]. intros Heq u h Hu.
    destruct (g_sets w Hg fn u Hu) as (_ & _ & Hn & _). by destruct (Hother u Hu); congruence.
  - split; [done|]. destruct (CurrentVoteSets (rw_state w) !! fn) eqn:E; [|done]. intros ???? [= <- <- <- <-]. done.
Qed.

Lemma add_own_vote_good fn a w v n :
  good w → sound_answer a → CurrentVoteSets (rw_state w) !! fn = Some v → CurrentNonces (rw_state w) !! fn = Some n →
  HaveWeAlreadySigned i v = false → wp (add_own_vote f fn vals i n a v) (λ _ w', good w') w.
Proof.
  intros Hg Ha Hv Hcn Hns. assert (current_nonce fn (rw_state w) = n) as Hcur by (unfold current_nonce; by rewrite Hcn).
  pose proof own_below as Hi. unfold add_own_vote. apply wp_bind. apply ask_good; [done | done | | | done].
  2: { intros x Hreg. destruct (g_sets w Hg fn v Hv) as (Hval & Hid & _).
       destruct (valid_fn _ _ _ _ Hb Hval) as (fn' & Hid' & ?). congruence. }
  intros h o w1 Hst Hsg Hg1 Hreg. rewrite <- Hst in Hv, Hcn, Hcur. destruct (g_sets w1 Hg1 fn v Hv) as (Hval & Hid & Hn & Hbk).
  pose proof Hval as Hval'. apply IsValid_spec in Hval' as (n' & fn' & bits & rb & hs & os & sigs & addrs & _ & Hok & Heq); [|done].
  assert (n' = n) as -> by (rewrite Heq in Hn; simpl in Hn; congruence). assert (fn' = fn) as -> by (rewrite Heq in Hid; by injection Hid).
  assert (ba_GetIndex bits i = false) as Hbi by (rewrite Heq in Hns; exact Hns).
  pose proof (add_vote_run n ch vals fn (power_of vals (ba_GetIndex bits)) bits rb hs os sigs addrs i h o (pv_Sign f) Hok Hi Hbi) as Hrun.
  rewrite <- Heq in Hrun. destruct (nc_total _ _ _ _ Hf (vote_bytes vals n ch fn (addr_at vals i) (Some h) (Some o))) as (s & Hs).
  rewrite Hs in Hrun. destruct (AddVote _ _ _ _ _ v) as [r v'] eqn:Hav. injection Hrun as -> Hv'.
  destruct (add_vote_valid ch vals (is_registered f) n fn i h o (pv_Sign f) v v' Hb (nc_signs _ _ _ _ Hf) Hval Hid Hav) as (Hval' & _ & Hn' & Hid' & _).
  destruct Hok as [[S1 S2] (L1 & L2 & L3 & L4) _ Had _ _ _].
  assert (HaveWeAlreadySigned i v' = true) as Hsv'.
  { rewrite Hv'. unfold HaveWeAlreadySigned. simpl. rewrite ba_Get_Set. by rewrite decide_True by (split; [done | lia]). }
  assert (hash_of v' i = Some h) as Hh by (rewrite Hv'; unfold hash_of, hashes; simpl; by rewrite list_lookup_insert_eq by lia).
  destruct (valid_slot ch vals _ v' i fn Hb Hval' Hid' Hsv') as (h' & o' & s' & Hh' & Hsb & _). assert (h' = h) as -> by congruence.
  apply wp_bind, wp_modify, wp_bind. rewrite Hsv'. unfold note_signature. rewrite Hsb. apply wp_modify, wp_bind, wp_lift_res, wp_ret.
  apply (good_own w1 _ fn v' h o'); try done; [congruence | by intros u Hu; assert (u = v) as -> by congruence | | by rewrite Hcn].
  intros j Hj Hhj Hjs. destruct (Hbk j Hhj) as (x & Hx & Hc).
  { rewrite Hv' in Hjs. rewrite Heq. unfold HaveWeAlreadySigned in *. simpl in *. rewrite ba_Get_Set in Hjs. by rewrite decide_False in Hjs by (intros []; done). }
  exists x. unfold keys in Hc. rewrite decide_False in Hc by done. split; [|by rewrite Hn', <- Hcur, <- Hn].
  rewrite <- Hx, Hv', Heq. unfold hash_of, hashes. simpl. by rewrite list_lookup_insert_ne.
Qed.

Lemma vote_set_good sender msg a w :
  good w → arrives w msg → sound_answer a → wp (handleVoteSetChannelMessage f vals sender msg a) (λ _ w', good w') w.
Proof.
  intros Hg Har Ha. unfold handleVoteSetChannelMessage. rewrite (nc_vals _ _ _ _ Hf), (nc_own _ _ _ _ Hf), (nc_chain _ _ _ _ Hf).
  apply wp_bind, unmarshalled_good; [|done]. intros v Hv. destruct (Har v Hv) as (_ & Hgen).
  apply wp_bind, wp_lift_res. destruct (GetFnID v) as [fn|?|] eqn:Hid; [|done..].
  apply wp_bind, wp_lift_res. destruct (IsValid _ _ _ _) as [[]|?|] eqn:Hval; [|done..].
  pose proof (genuine_backed (keys w) _ v fn Hb Hval Hid Hgen) as Hbk. apply wp_bind, wp_gets, wp_bind.
  set (n := current_nonce fn (rw_state w)).
  assert (wp (if bool_decide (CurrentNonces (rw_state w) !! fn = None) then modify (on_state (set_CurrentNonce fn n)) else mret ())
    (λ r w1, r = Ok () ∧ good w1 ∧ CurrentNonces (rw_state w1) !! fn = Some n ∧
       CurrentVoteSets (rw_state w1) = CurrentVoteSets (rw_state w) ∧ keys w1 = keys w) w) as Hnote.
  { case_bool_decide as Hnone.
    - apply wp_modify. split_and!; try done; [by apply good_noted | by apply lookup_insert_eq].
    - apply wp_ret. split_and!; try done. unfold n, current_nonce. by destruct (CurrentNonces (rw_state w) !! fn). }
  eapply wp_mono; [exact Hnote|]. intros r w1 (-> & Hg1 & Hcn & Hcv & Hk).
  destruct (Z.ltb_spec (Nonce v) n); [done|]. apply wp_bind. rewrite <- Hcv.
  eapply wp_mono; [apply (take_remote_good fn v w1 n); try done; by rewrite Hk|]. intros [o|?|] w2 (Hg2 & H2); [|done..].
  destruct o as [[[[c d] n'] u]|]; [|done]. destruct (H2 c d n' u eq_refl) as (Hu & Hn').
  assert (∀ c d u, preserves good (if negb d then mret () else marshalledBytes ← marshalled u;
    broadcastMsgSync FnVoteSetChannel (if c : bool then None else Some sender) marshalledBytes)) as Hlast.
  { intros c' d' u'. destruct d'; simpl; auto with preserves. }
  apply wp_bind. destruct (HaveWeAlreadySigned i u) eqn:Hs; [apply wp_ret; by apply Hlast|].
  apply wp_bind. eapply wp_mono; [by apply (add_own_vote_good fn a w2 u n')|].
  intros [u'|?|] w3 Hg3; [|done..]. exact (Hlast true true u' w3 Hg3).
Qed.

Lemma receive_good chID sender msg a w :
  good w → arrives w msg → sound_answer a → wp (Receive f vals chID sender msg a) (λ _ w', good w') w.
Proof.
  intros Hg Har Ha. unfold Receive. case_match; [by apply vote_set_good|]. case_match; [by apply maj_good | done].
Qed.

(** A turn of the vote routine votes on functions for which the node holds no vote set,
    each once. *)
Lemma vote_frame fn g a w fn' :
  fn' ≠ fn → CurrentVoteSets (rw_state (vote f fn g vals i a w).2) !! fn' = CurrentVoteSets (rw_state w) !! fn'.
Proof.
  intros Hne. set (I w' := CurrentVoteSets (rw_state w') !! fn' = CurrentVoteSets (rw_state w) !! fn').
  assert (preserves I (vote f fn g vals i a)) as H; [|by apply (H w)].
  unfold vote, SaveReactorState, ask, safeGetMessageAndSignature, safeMapMessage, safeSubmitMultiSignedMessage, note_signature,
    marshalled, broadcastMsgSync.
  pres; try (by apply preserves_modify). apply preserves_modify. intros w' Hw'. unfold I in *. simpl. rewrite <- Hw'.
  by apply lookup_partial_alter_ne.
Qed.

Lemma votes_good fns answers w :
  good w → (∀ fn, sound_answer (answers fn)) → NoDup fns → (∀ fn, fn ∈ fns → CurrentVoteSets (rw_state w) !! fn = None) →
  wp (forM fns (λ fn, ignore_err (vote f fn (FnRegistry_Get fn (fnRegistry f)) vals i (answers fn)))) (λ _ w', good w') w.
Proof.
  intros Hg Ha. revert w Hg. induction fns as [|fn fns IH]; intros w Hg Hnd' Hnone; [done|]. apply NoDup_cons in Hnd' as [Hnin Hnd'].
  set (m := vote f fn (FnRegistry_Get fn (fnRegistry f)) vals i (answers fn)).
  pose proof (vote_good fn (answers fn) w (Ha fn) Hg (Hnone fn ltac:(set_solver))) as Hv. fold m in Hv.
  assert (∀ fn', fn' ∈ fns → CurrentVoteSets (rw_state (m w).2) !! fn' = None) as Hrest.
  { intros fn' Hin. unfold m. rewrite vote_frame by (intros ->; done). apply Hnone. set_solver. }
  unfold forM. cbn [foldM]. apply wp_bind. unfold wp in Hv |- * at 1. unfold ignore_err, try_, mbind, M_bind. fold m.
  destruct (m w) as [[[]|e|] w'] eqn:Hm; cbn in *; [by apply IH..|done].
Qed.

Lemma vote_turn_good sorted answers w :
  good w → (∀ fn, sound_answer (answers fn)) → NoDup sorted → wp (voteRoutine_turn f vals sorted answers) (λ _ w', good w') w.
Proof.
  intros Hg Ha Hsorted. unfold voteRoutine_turn. rewrite (nc_vals _ _ _ _ Hf), (nc_own _ _ _ _ Hf). apply wp_bind, wp_gets.
  apply votes_good; [done|done|by apply NoDup_filter|]. intros fn. unfold eligible_for_voting. rewrite list_elem_of_filter. by intros [].
Qed.

Lemma peers_good g : preserves good (modify (with_peers g)).
Proof. apply preserves_modify. intros w. apply (good_frame w); auto. Qed.
End Node.

(** More signatures of others do no harm. *)
Lemma good_others {TM : TendermintLib} {Fn : Type} vals ch honest others others' base floor i (f : FnConsensusReactor (Fn := Fn)) w :
  (∀ j b, j ≠ i → b ∈ others j → b ∈ others' j) →
  good vals ch honest others base floor i f w → good vals ch honest others' base floor i f w.
Proof.
  intros H [G1 G2 G0 G3 G4 G5 G6 G7].
  assert (∀ j b, b ∈ keys others i w j → b ∈ keys others' i w j) as Hk by (intros j b; unfold keys; case_decide; auto).
  constructor; try done.
  - intros fn v Hv. destruct (G3 fn v Hv) as (? & ? & ? & Hbk). split_and!; try done. by eapply backed_mono.
  - intros c Hc. specialize (G7 c Hc). destruct c; [done|]. destruct G7 as (r & agg & ? & ? & ? & Hall). exists r, agg. split_and!; try done.
    intros j x Hj Hx. destruct (Hall j x Hj Hx) as (o & Ho). exists o. by apply Hk.
Qed.

(** ** All honest nodes together *)

Section System.
Context {TM : TendermintLib} {TS : TendermintSpec} {RL : ReactorLib} {RS : ReactorSpec} {Fn : Type}.
Context (vals : ValidatorSet) (ch : string) (honest : nat → bool) (nd : nat → FnConsensusReactor (Fn := Fn)).
Implicit Types W : nat → RWorld.

Definition local (i : nat) {A} (m : M RWorld A) W W' : Prop := W' i = (m (W i)).2 ∧ ∀ j, j ≠ i → W' j = W j.

(** A node takes a turn of the vote routine, commits a function, a message from anyone
    arrives, peers come and go.  A message may carry anything but votes that honest
    validators did not cast.  The set of validators is fixed and nodes are not restarted; a
    turn of the vote routine is one step: [interleaved_vote_signs_twice] shows what a message
    does that arrives between the choice of the functions and the votes. *)
Inductive sys_step W : (nat → RWorld) → Prop :=
  | step_vote_turn i sorted answers W' :
      honest i = true → (∀ fn, sound_answer (answers fn)) → NoDup sorted →
      local i (voteRoutine_turn (nd i) vals sorted answers) W W' → sys_step W W'
  | step_commit i fn W' :
      honest i = true → current_nonce fn (rw_state (W i)) < 2 ^ 63 - 1 →
      local i (commit (nd i) vals fn) W W' → sys_step W W'
  | step_receive i chID sender msg a W' :
      honest i = true → sound_answer a →
      (∀ v, cdc_UnmarshalVoteSet msg = Some v → Nonce v < 2 ^ 63 - 1 ∧ genuine vals honest (λ j, rw_signed (W j)) v) →
      local i (Receive (nd i) vals chID sender msg a) W W' → sys_step W W'
  | step_add_peer i p W' : honest i = true → local i (AddPeer p) W W' → sys_step W W'
  | step_remove_peer i p W' : honest i = true → local i (RemovePeer p) W W' → sys_step W W'.

Definition fresh (w : RWorld) : Prop := rw_state w = NewReactorState ∧ rw_signed w = [] ∧ rw_calls w = [].

Definition sys_inv (floor : nat → string → Z) (base : nat → list bytes) W : Prop :=
  ∀ i, honest i = true → good vals ch honest (λ j, rw_signed (W j)) (base i) (floor i) i (nd i) (W i).

Context (Hb : vs_TotalVotingPower vals < 2 ^ 62) (Hnd : ∀ i, honest i = true → node_config vals ch i (nd i)).

Lemma fresh_inv W : (∀ i, honest i = true → fresh (W i)) → sys_inv (λ _ _, 1) (λ _, []) W.
Proof.
  intros Hfr i Hi. destruct (Hfr i Hi) as (Hst & Hsg & Hcl). constructor; rewrite ?Hst, ?Hsg, ?Hcl; try done; try (by left).
  - intros b Hin. by apply not_elem_of_nil in Hin.
  - intros fn n h h' (o & Ho). by apply not_elem_of_nil in Ho.
  - intros c Hin. by apply not_elem_of_nil in Hin.
Qed.

(** A local step that keeps the invariant of its node keeps that of the others. *)
Lemma local_inv {A} floor base i (m : M RWorld A) W W' :
  honest i = true → local i m W W' → (∀ k fn, 1 <= floor k fn) → sys_inv floor base W →
  (∀ others bs, others = (λ j, rw_signed (W j)) → good vals ch honest others bs (floor i) i (nd i) (W i) →
     wp m (λ _ w', good vals ch honest others bs (floor i) i (nd i) w') (W i)) →
  sys_inv floor base W'.
Proof.
  intros Hi (Hw & Hoth) _ Hinv Hm. set (others := λ j, rw_signed (W j)).
  assert (∀ b, b ∈ rw_signed (W i) → b ∈ rw_signed (W' i)) as Hgrow.
  { rewrite Hw. apply (g_base vals ch honest others (rw_signed (W i)) (floor i) i (nd i)). apply (Hm others); [done|].
    destruct (Hinv i Hi) as [G1 G2 G0 G3 G4 G5 G6 G7]. by constructor. }
  intros k Hk. apply (good_others _ _ _ others).
  { intros j b _ Hj. unfold others in Hj. destruct (decide (j = i)) as [->|]; [auto | by rewrite Hoth]. }
  destruct (decide (k = i)) as [->|Hne].
  - rewrite Hw. apply (Hm others); [done|]. by apply Hinv.
  - rewrite Hoth by done. by apply Hinv.
Qed.

Lemma step_inv floor base W W' : (∀ k fn, 1 <= floor k fn) → sys_inv floor base W → sys_step W W' → sys_inv floor base W'.
Proof.
  intros Hfl Hinv Hstep. destruct Hstep as [i sorted answers W' Hi Ha Hn Hl|i fn W' Hi Hn Hl|i chID sender msg a W' Hi Ha Hm Hl|i p W' Hi Hl|i p W' Hi Hl];
    eapply (local_inv floor base i _ W W' Hi Hl Hfl Hinv); intros others bs -> Hg; pose proof (Hnd i Hi).
  - by apply vote_turn_good.
  - by apply commit_good.
  - apply receive_good; try done. intros v Hv. destruct (Hm v Hv) as (? & Hgen). split; [done|].
    intros j val b s Hj Hval Hsb Hs Hver. unfold keys. destruct (decide (j = i)) as [->|]; eapply Hgen; eauto.
  - by apply peers_good.
  - by apply peers_good.
Qed.

Lemma steps_inv floor base W W' : (∀ k fn, 1 <= floor k fn) → sys_inv floor base W → rtc sys_step W W' → sys_inv floor base W'.
Proof. intros Hfl Hinv Hsteps. induction Hsteps as [|W W1 W' Hs _ IH]; [done|]. apply IH. by eapply step_inv. Qed.

Definition at_node (i : nat) (w : RWorld) W (j : nat) : RWorld := if decide (j = i) then w else W j.

Lemma at_node_same i w W : at_node i w W i = w.
Proof. unfold at_node. by rewrite decide_True. Qed.

(** C33. Honest nodes start fresh and are not restarted; the set of validators is fixed, no
    node reaches the threshold alone, functions answer with a message and a signature or an
    error.  However whole turns of the vote routines, commits and the messages of anyone
    interleave, an honest node's nonces never go back, its current
    vote sets are valid and for its current nonces, and it signs at most one answer for a
    function and a nonce. *)
Theorem honest_nodes_vote_once W0 W1 W2 i :
  (∀ k, honest k = true → fresh (W0 k)) → rtc sys_step W0 W1 → rtc sys_step W1 W2 → honest i = true →
  (∀ fn, 1 <= current_nonce fn (rw_state (W1 i)) <= current_nonce fn (rw_state (W2 i))) ∧
  (∀ fn v, CurrentVoteSets (rw_state (W2 i)) !! fn = Some v →
     IsValid ch vals (is_registered (nd i)) v = Ok () ∧ GetFnID v = Ok fn ∧ Nonce v = current_nonce fn (rw_state (W2 i))) ∧
  (∀ fn n h o h' o', vote_bytes vals n ch fn (addr_at vals i) (Some h) (Some o) ∈ rw_signed (W2 i) →
     vote_bytes vals n ch fn (addr_at vals i) (Some h') (Some o') ∈ rw_signed (W2 i) → h = h').
Proof.
  intros Hfr H01 H12 Hi. pose proof (steps_inv _ _ _ _ (λ _ _, Z.le_refl 1) (fresh_inv W0 Hfr) H01) as Hinv1.
  assert (∀ k fn, 1 <= (if honest k then current_nonce fn (rw_state (W1 k)) else 1)) as Hfl.
  { intros k fn. destruct (honest k) eqn:Hk; [|lia]. apply (g_floor _ _ _ _ _ _ _ _ _ (Hinv1 k Hk)). }
  assert (sys_inv (λ k fn, if honest k then current_nonce fn (rw_state (W1 k)) else 1) (λ _, []) W1) as Hinv1'.
  { intros k Hk. destruct (Hinv1 k Hk) as [G1 G2 G0 G3 G4 G5 G6 G7]. constructor; try done. intros fn. by rewrite Hk. }
  pose proof (steps_inv _ _ _ _ Hfl Hinv1' H12 i Hi) as Hg. split_and!.
  - intros fn. pose proof (Hfl i fn) as H1. pose proof (g_floor _ _ _ _ _ _ _ _ _ Hg fn) as H2. simpl in H2. rewrite Hi in H1, H2. done.
  - intros fn v Hv. destruct (g_sets _ _ _ _ _ _ _ _ _ Hg fn v Hv) as (? & ? & ? & _). done.
  - intros fn n h o h' o' H1 H2. eapply (g_once _ _ _ _ _ _ _ _ _ Hg fn n); by eexists.
Qed.

(** C32. In the same histories, while the validators that misbehave have no more than a third
    of the power, any two messages that honest nodes submit for a function and a nonce are
    the same. *)
Theorem honest_nodes_submit_one_answer W0 W i j fn n h h' sigs sigs' :
  (∀ k, honest k = true → fresh (W0 k)) → rtc sys_step W0 W → honest i = true → honest j = true →
  3 * power_of vals (λ k, negb (honest k)) <= vs_TotalVotingPower vals →
  SubmitMultiSignedMessage fn n h sigs ∈ rw_calls (W i) → SubmitMultiSignedMessage fn n h' sigs' ∈ rw_calls (W j) →
  is_Some h ∧ h = h'.
Proof.
  intros Hfr Hsteps Hi Hj Hbyz Hci Hcj. pose proof (steps_inv _ _ _ _ (λ _ _, Z.le_refl 1) (fresh_inv W0 Hfr) Hsteps) as Hinv.
  assert (∀ k l, keys (λ j, rw_signed (W j)) k (W k) l = rw_signed (W l)) as Hk by (intros k l; unfold keys; case_decide; by subst).
  destruct (g_calls _ _ _ _ _ _ _ _ _ (Hinv i Hi) _ Hci) as (r & agg & Hr & Hm & <- & Hall).
  destruct (g_calls _ _ _ _ _ _ _ _ _ (Hinv j Hj) _ Hcj) as (r' & agg' & Hr' & Hm' & <- & Hall').
  pose proof (own_below vals ch i (nd i) (Hnd i Hi)).
  eapply (majorities_agree _ _ vals r r' agg agg'); [done | lia | done..|].
  etrans; [|exact Hbyz]. apply Z.mul_le_mono_nonneg_l; [lia|]. apply power_of_mono. intros k _ He. unfold equivocates in He.
  destruct (hashes r !! k) as [[x|]|] eqn:Hx; [|done..]. destruct (hashes r' !! k) as [[y|]|] eqn:Hy; [|done..].
  destruct (honest k) eqn:Hhk; [|done]. exfalso. specialize (Hall k x Hhk Hx). specialize (Hall' k y Hhk Hy).
  rewrite Hk in Hall, Hall'. pose proof (g_once _ _ _ _ _ _ _ _ _ (Hinv k Hhk) fn n x y Hall Hall') as ->.
  by rewrite String.eqb_refl in He.
Qed.
End System.

(** ** What is not saved

    A vote that the node adds to another's vote set is signed and sent, but only
    [vote], [commit] and converged vote sets write the database: a node that restarts
    has forgotten it. *)
Theorem added_votes_are_not_saved {TM : TendermintLib} {RL : ReactorLib} {Fn : Type} (f : FnConsensusReactor (Fn := Fn)) tm sender msg a w :
  rw_db (Receive f tm FnVoteSetChannel sender msg a w).2 = rw_db w.
Proof.
  set (I w' := rw_db w' = rw_db w).
  assert (preserves I (Receive f tm FnVoteSetChannel sender msg a)) as H; [|by apply (H w)].
  unfold Receive, handleVoteSetChannelMessage, unmarshalled, take_remote, add_own_vote, ask, safeGetMessageAndSignature,
    safeMapMessage, note_signature, marshalled, broadcastMsgSync. simpl.
  pres; by apply preserves_modify.
Qed.

(** The commit routine chooses functions that have a vote set and releases the lock; a
    converged vote set of a peer that then removes the vote set makes [commit] read a
    nil pointer. *)
Theorem commit_without_vote_set_panics {TM : TendermintLib} {RL : ReactorLib} {Fn : Type} (f : FnConsensusReactor (Fn := Fn)) tm fn w :
  is_registered f fn = true → CurrentVoteSets (rw_state w) !! fn = None → (commit f tm fn w).1 = Panic.
Proof.
  unfold is_registered. rewrite bool_decide_eq_true. intros (g & Hg) Hn. unfold commit. rewrite Hg. unfold_m. by rewrite Hn.
Qed.

(** ** Timers: validators wake up one after the other behind a common instant *)
Theorem proposals_are_aligned now own :
  0 <= now → let t := calculateSleepTimeForPropose now own in
  ∃ k, now * Second + t = k * (ProposeIntervalInSeconds * Second) + (1 + Z.of_nat (default O own)) * BaseProposalDelay ∧ now < k * ProposeIntervalInSeconds.
Proof.
  intros Hn t. exists (now / 10 + 1). unfold t, calculateSleepTimeForPropose, ProposeIntervalInSeconds, Second, BaseProposalDelay, Millisecond.
  pose proof (Z.div_mod now 10 ltac:(lia)) as Hd. pose proof (Z.mod_pos_bound now 10 ltac:(lia)). rewrite Z.rem_mod_nonneg by lia.
  split; [destruct own as [j|]; simpl; lia | lia].
Qed.

(** ** Configuration: a reactor that is built has a threshold that it knows *)
Theorem built_reactor_has_threshold {TM : TendermintLib} {Fn : Type} chain address sign (registry : gmap string Fn) c f s :
  NewFnConsensusReactor chain address sign registry c = Ok f → cfg_FnVoteSigningThreshold f ≠ UnknownThreshold s.
Proof.
  unfold NewFnConsensusReactor, Parse. destruct c as [[vs th]|]; [|done]. simpl.
  destruct th; simpl; [..|done]; (destruct (parse_overrides vs); [|done..]); by intros [= <-].
Qed.
