(* ===== verification/FnReactorWitnesses.v ===== *)
(** * Instances of the theorems on the reactor

    Four validators of equal power, of which the last misbehaves; what the code does
    when the lock is taken between two parts of a routine, and when a function panics. *)

From S2P Require Import Prelude Contract FnConsensus FnConsensusTheorems FnReactor FnReactorTheorems.

Module ReactorWitness.
#[local] Existing Instance FnWitness.tm.
#[local] Existing Instance FnWitness.tm_spec.

Definition find_address (vs : list (string * positive)) (a : bytes) : option nat :=
  fst <$> list_find (λ kp, kp.1 = a) vs.

Definition threshold := Maj23SigningThreshold.
Definition answered (m : bytes) : FnAnswer := mkAnswer (Ok (Some m, Some "o")) (Ok ()).

(** Vote sets of validators that answer with the message [m], one after the other. *)
Definition empty_set : FnVoteSet := mkVoteSet 0 "" "" 0 None None [] None.
Definition start (n : Z) (i : nat) (m : bytes) : FnVoteSet :=
  match NewFnExecutionResponse (mkIndividual (Some m) (Some "o")) i FnWitness.vals with
  | Ok r => match NewVoteSet n "chain" i (mkPayload (Some "sum") (Some r)) (FnWitness.sign (default "" (fst <$> (FnWitness.vals : list (string * positive)) !! i))) FnWitness.vals with
            | Ok v => v | _ => empty_set end
  | _ => empty_set
  end.
Definition join (v : FnVoteSet) (i : nat) (m : bytes) : FnVoteSet :=
  (AddVote (Nonce v) (mkIndividual (Some m) (Some "o")) FnWitness.vals i
     (FnWitness.sign (default "" (fst <$> (FnWitness.vals : list (string * positive)) !! i))) v).2.

Definition one : FnVoteSet := start 1 1 "42".
Definition one_two : FnVoteSet := join one 2 "42".
Definition one_two_three : FnVoteSet := join one_two 3 "42".
Definition all_but_three : FnVoteSet := join one_two 0 "42".

#[local] Instance rl : ReactorLib := {|
  vs_GetByAddress := find_address;
  NewValidatorSet l := (λ v, (v.1.1, Z.to_pos v.2)) <$> l;
  sha512_Sum m := m;
  cdc_MarshalVoteSet _ := Some "";
  cdc_UnmarshalVoteSet b :=
    if String.eqb b "1" then Some one else if String.eqb b "12" then Some one_two
    else if String.eqb b "123" then Some one_two_three else if String.eqb b "012" then Some all_but_three else None;
  cdc_MarshalState _ := Some "";
  cdc_UnmarshalState _ := None;
  map_order V m := map_to_list m;
|}.

#[local] Instance rl_spec : ReactorSpec.
Proof.
  constructor; simpl.
  - intros vs a i. unfold find_address. intros ([j [k p]] & Hf & ->)%fmap_Some. apply list_find_Some in Hf as (Hk & Ha & _).
    simpl in *. rewrite Hk. eexists. by split.
  - intros fn fn' x y H. rewrite !append_assoc in H.
    apply SimpleLib.unary_app_inj in H as [Hl H]. by apply append_length_inj in H.
  - intros h o h' o' H. apply SimpleLib.unary_app_inj in H as [Hl H]. by apply append_length_inj in H.
Qed.

Definition name (i : nat) : string := default "" (fst <$> (FnWitness.vals : list (string * positive)) !! i).
Definition honest (i : nat) : bool := (i <? 3)%nat.
Definition node (i : nat) : FnConsensusReactor (Fn := unit) :=
  mkReactor "chain" {["sum" := ()]} (name i) (FnWitness.sign (name i)) None (mkConfig [] threshold).

Lemma nodes_config i : honest i = true → node_config FnWitness.vals "chain" i (node i).
Proof.
  intros Hi. constructor; try done.
  - by destruct i as [|[|[|i]]].
  - destruct i as [|[|[|i]]]; [by apply FnWitness.keys_sign.. | done].
  - destruct i as [|[|[|i]]]; by vm_compute.
Qed.

(** Checking that the votes in a message were cast. *)
Definition genuine_b (signed : nat → list bytes) (v : FnVoteSet) : bool :=
  forallb (λ j, match vs_GetByIndex FnWitness.vals j, SignBytes j v, ValidatorSignatures v !! j with
    | Some val, Ok b, Some s => negb (honest j) || negb (pk_VerifyBytes val.1.2 b (default "" s)) || bool_decide (b ∈ signed j)
    | _, _, _ => true
    end) (seq 0 4).

Lemma genuine_b_ok signed v : genuine_b signed v = true → genuine FnWitness.vals honest signed v.
Proof.
  unfold genuine_b. rewrite forallb_forall. intros H j val b s Hj Hval Hb Hs Hver.
  assert (j < 3)%nat as Hlt by (by apply Nat.ltb_lt).
  specialize (H j ltac:(apply in_seq; lia)). rewrite Hval, Hb, Hs, Hj, Hver in H. by apply bool_decide_eq_true in H.
Qed.

Definition world0 : RWorld := mkRWorld NewReactorState None ∅ [] [] [].
Definition W0 (_ : nat) : RWorld := world0.

(** Validator 1 votes; 2 adds its vote; 3 adds its own and tells 2, which commits and
    submits.  0 adds its vote to that of 1 and 2 and tells 1, which commits and submits. *)
Definition receive (i : nat) (msg : bytes) (W : nat → RWorld) : nat → RWorld :=
  at_node i (Receive (node i) FnWitness.vals FnVoteSetChannel "peer" msg (answered "42") (W i)).2 W.
Definition do_commit (i : nat) (W : nat → RWorld) : nat → RWorld := at_node i (commit (node i) FnWitness.vals "sum" (W i)).2 W.
Definition W1 : nat → RWorld := at_node 1 (voteRoutine_turn (node 1) FnWitness.vals ["sum"] (λ _, answered "42") (W0 1)).2 W0.
Definition W2 := receive 2 "1" W1.
Definition W3 := receive 2 "123" W2.
Definition W4 := receive 0 "12" W3.
Definition W5 := receive 1 "012" W4.
Definition W6 := do_commit 2 W5.
Definition W7 := do_commit 1 W6.

Lemma local_at {A} i (m : M RWorld A) W : local i m W (at_node i (m (W i)).2 W).
Proof. split; [by rewrite at_node_same|]. intros j Hj. unfold at_node. by rewrite decide_False. Qed.

Lemma receive_step i msg W v :
  honest i = true → cdc_UnmarshalVoteSet msg = Some v → Nonce v = 1 → genuine_b (λ j, rw_signed (W j)) v = true →
  sys_step FnWitness.vals honest node W (receive i msg W).
Proof.
  intros Hi Hv Hn Hg. apply (step_receive _ _ _ _ i FnVoteSetChannel "peer" msg (answered "42")); [done | done | | apply (local_at i)].
  intros v' Hv'. assert (v' = v) as -> by congruence. rewrite Hn. split; [lia | by apply genuine_b_ok].
Qed.

Lemma run : rtc (sys_step FnWitness.vals honest node) W0 W7.
Proof.
  eapply (rtc_l _ _ W1). { eapply (step_vote_turn _ _ _ _ 1 ["sum"] (λ _, answered "42")); [done | done | apply NoDup_singleton | apply (local_at 1)]. }
  eapply (rtc_l _ _ W2); [apply (receive_step 2 "1" W1 one); [done | done | done | vm_compute; reflexivity]|].
  eapply (rtc_l _ _ W3); [apply (receive_step 2 "123" W2 one_two_three); [done | done | vm_compute; reflexivity | vm_compute; reflexivity]|].
  eapply (rtc_l _ _ W4); [apply (receive_step 0 "12" W3 one_two); [done | done | vm_compute; reflexivity | vm_compute; reflexivity]|].
  eapply (rtc_l _ _ W5); [apply (receive_step 1 "012" W4 all_but_three); [done | done | vm_compute; reflexivity | vm_compute; reflexivity]|].
  eapply (rtc_l _ _ W6); [eapply step_commit; [| |apply (local_at 2)]; vm_compute; reflexivity|].
  eapply (rtc_l _ _ W7); [eapply step_commit; [| |apply (local_at 1)]; vm_compute; reflexivity|]. constructor.
Qed.

(** Two nodes submit for the nonce 1, with the signatures of different validators. *)
Lemma submit_once_witness :
  ∃ h s h' s', SubmitMultiSignedMessage "sum" 1 h s ∈ rw_calls (W7 1) ∧ SubmitMultiSignedMessage "sum" 1 h' s' ∈ rw_calls (W7 2) ∧
    s ≠ s' ∧ is_Some h ∧ h = h'.
Proof.
  exists (Some "42"), [Some "o"; Some "o"; Some "o"; None], (Some "42"), [None; Some "o"; Some "o"; Some "o"].
  assert (SubmitMultiSignedMessage "sum" 1 (Some "42") [Some "o"; Some "o"; Some "o"; None] ∈ rw_calls (W7 1)) as H1
    by (apply list_elem_of_In; vm_compute; tauto).
  assert (SubmitMultiSignedMessage "sum" 1 (Some "42") [None; Some "o"; Some "o"; Some "o"] ∈ rw_calls (W7 2)) as H2
    by (apply list_elem_of_In; vm_compute; tauto).
  split; [exact H1|]. split; [exact H2|]. split; [done|].
  apply (honest_nodes_submit_one_answer FnWitness.vals "chain" honest node eq_refl nodes_config W0 W7 1 2 "sum" 1 _ _ _ _
    (λ _ _, conj eq_refl (conj eq_refl eq_refl)) run eq_refl eq_refl ltac:(by vm_compute) H1 H2).
Defined.

Lemma vote_once_witness : 1 <= current_nonce "sum" (rw_state (W0 2)) <= current_nonce "sum" (rw_state (W7 2)) ∧ current_nonce "sum" (rw_state (W7 2)) = 2.
Proof.
  split; [|vm_compute; reflexivity].
  apply (honest_nodes_vote_once FnWitness.vals "chain" honest node eq_refl nodes_config W0 W0 W7 2
    (λ _ _, conj eq_refl (conj eq_refl eq_refl)) (rtc_refl _ _) run eq_refl).
Defined.

(** The vote routine finds that there is no vote set for the function and releases the
    lock; a message comes in and the node adds its vote; then the routine votes, for the
    same nonce: [vote] does not look again. *)
Theorem interleaved_vote_signs_twice :
  let w1 := (Receive (node 0) FnWitness.vals FnVoteSetChannel "peer" "1" (answered "42") world0).2 in
  let w2 := (vote (node 0) "sum" (Some ()) FnWitness.vals 0 (answered "41") w1).2 in
  eligible_for_voting ["sum"] world0 = ["sum"] ∧
  rw_signed w2 = [vote_bytes FnWitness.vals 1 "chain" "sum" "a" (Some "42") (Some "o");
                  vote_bytes FnWitness.vals 1 "chain" "sum" "a" (Some "41") (Some "o")].
Proof. vm_compute. split; reflexivity. Qed.

(** A function that panics is taken to have answered with nothing: the node signs that
    and enters it, and the vote set is no longer valid. *)
Theorem recovered_panic_spoils_vote_set :
  let w1 := (Receive (node 0) FnWitness.vals FnVoteSetChannel "peer" "1" (mkAnswer Panic (Ok ())) world0).2 in
  rw_signed w1 = [vote_bytes FnWitness.vals 1 "chain" "sum" "a" (Some "") None] ∧
  (IsValid "chain" FnWitness.vals (is_registered (node 0)) <$> CurrentVoteSets (rw_state w1) !! "sum") =
    Some (Err (ErrMsg "mismatch between oracle signature array and signature flag")).
Proof. vm_compute. split; reflexivity. Qed.
End ReactorWitness.
