(* ===== verification/AppStores.v ===== *)
(** * Persistent and caching stores (src/store)

    The application's store is an IAVL tree of versions ([IAVLStore], iavlstore.go),
    possibly pruned by a background thread ([PruningIAVLStore], pruning_iavlstore.go) or
    with its values in a second database for readers ([MultiReaderIAVLStore],
    multi_reader_iavl_store.go), and wrapped in a cache ([CachingStore], cachingstore.go)
    or a log ([LogStore], logstore.go).

    The tree, the cache and LevelDB are other packages' code: the classes [IavlLib] and
    [BigCache] have their operations, [IavlSpec] and [BigCacheSpec] what is used of
    them.  The value database is a map with the batch that is written at once.  Metrics
    and log texts are left out. *)

From Stdlib Require Import Ascii.
From S2P Require Import Prelude Contract Store Middleware.

(** ** The tree *)

Class IavlLib := {
  MutableTree : Type;
  ImmutableTree : Type;
  t_Get : MutableTree → bytes → option bytes;
  t_Has : MutableTree → bytes → bool;
  t_Set : bytes → bytes → MutableTree → MutableTree;
  t_Remove : bytes → MutableTree → MutableTree;
  (** [GetRangeWithProof] from a key to another one, or to the end; [None] is an error *)
  t_GetRange : MutableTree → option bytes → option bytes → option (list (bytes * bytes));
  t_Hash : MutableTree → bytes;
  t_Version : MutableTree → Z;
  t_SaveVersion : MutableTree → Res (bytes * Z * MutableTree);
  t_VersionExists : MutableTree → Z → bool;
  t_DeleteVersion : Z → MutableTree → Res MutableTree;
  t_GetImmutable : MutableTree → Z → Res ImmutableTree;
  t_Empty : ImmutableTree;
  i_Get : ImmutableTree → bytes → option bytes;
  i_Has : ImmutableTree → bytes → bool;
  i_GetRange : ImmutableTree → option bytes → option bytes → option (list (bytes * bytes));
}.

Definition in_range (start end_ : option bytes) (k : bytes) : Prop :=
  (∀ s, start = Some s → bytes_compare s k <= 0) ∧ (∀ e, end_ = Some e → bytes_compare k e < 0).

Class IavlSpec `{IavlLib} : Prop := {
  t_Has_Get t k : t_Has t k = bool_decide (is_Some (t_Get t k));
  t_Get_Set t k v k' : t_Get (t_Set k v t) k' = if decide (k' = k) then Some v else t_Get t k';
  t_Get_Remove t k k' : t_Get (t_Remove k t) k' = if decide (k' = k) then None else t_Get t k';
  t_GetRange_elem t s e l k v :
    t_GetRange t s e = Some l → ((k, v) ∈ l ↔ t_Get t k = Some v ∧ in_range s e k);
  (** writes go to the version that is to be saved next *)
  t_Version_Set t k v : t_Version (t_Set k v t) = t_Version t;
  t_Version_Remove t k : t_Version (t_Remove k t) = t_Version t;
  t_Exists_Set t k v n : t_VersionExists (t_Set k v t) n = t_VersionExists t n;
  t_Exists_Remove t k n : t_VersionExists (t_Remove k t) n = t_VersionExists t n;
  t_Save t h n t' : t_SaveVersion t = Ok (h, n, t') →
    n = t_Version t + 1 ∧ t_Version t' = n ∧ (∀ k, t_Get t' k = t_Get t k) ∧
    (∀ m, t_VersionExists t' m = true ↔ m = n ∨ t_VersionExists t m = true) ∧
    (∃ i, t_GetImmutable t' n = Ok i ∧ ∀ k, i_Get i k = t_Get t k);
  t_Delete t n t' : t_DeleteVersion n t = Ok t' →
    t_Version t' = t_Version t ∧ (∀ k, t_Get t' k = t_Get t k) ∧
    (∀ m, t_VersionExists t' m = true ↔ m ≠ n ∧ t_VersionExists t m = true);
  i_Get_Empty k : i_Get t_Empty k = None;
}.

(** ** The end of a range of keys *)

(** The loop over the last byte, on the bytes in reverse. *)
Fixpoint range_end (end_ : list ascii) : Res (option (list ascii)) :=
  match end_ with
  | [] => Panic
  | c :: rest =>
      if negb (N_of_ascii c =? 255)%N then Ok (Some (ascii_of_N (N_of_ascii c + 1) :: rest))
      else match rest with [] => Ok None | _ => range_end rest end
  end.

Definition prefixRangeEnd (prefix : option bytes) : Res (option bytes) :=
  match prefix with
  | None => Ok None
  | Some p => e ← range_end (rev (String.list_ascii_of_string p)); Ok (option_map (λ l, String.string_of_list_ascii (rev l)) e)
  end.

Section Stores.
Context {IL : IavlLib}.
(** [util.UnprefixKey] of the client library; [None] is its error. *)
Context (unprefix_key : bytes → bytes → option bytes).

(** ** IAVLStore *)

Record IAVLStore := mkIAVLStore { tree : MutableTree; maxVersions : Z }.

Definition with_tree (t : MutableTree) (s : IAVLStore) : IAVLStore := mkIAVLStore t (maxVersions s).

Definition IAVLStore_Delete (key : bytes) (s : IAVLStore) : IAVLStore := with_tree (t_Remove key (tree s)) s.
Definition IAVLStore_Set (key val : bytes) (s : IAVLStore) : IAVLStore := with_tree (t_Set key val (tree s)) s.
Definition IAVLStore_Has (s : IAVLStore) (key : bytes) : bool := t_Has (tree s) key.
Definition IAVLStore_Get (s : IAVLStore) (key : bytes) : option bytes := t_Get (tree s) key.

(** A key that cannot be unprefixed becomes nil, an error an empty answer. *)
Definition IAVLStore_Range (s : IAVLStore) (prefix : option bytes) : Res (list (bytes * bytes)) :=
  end_ ← prefixRangeEnd prefix;
  Ok (match t_GetRange (tree s) prefix end_ with
      | None => []
      | Some l => (λ kv, (default "" (unprefix_key kv.1 (default "" prefix)), kv.2)) <$> l
      end).

Definition IAVLStore_Hash (s : IAVLStore) : bytes := t_Hash (tree s).
Definition IAVLStore_Version (s : IAVLStore) : Z := t_Version (tree s).

Definition IAVLStore_SaveVersion : M IAVLStore (bytes * Z) := λ s,
  match t_SaveVersion (tree s) with
  | Ok (hash, version, t) => (Ok (hash, version), with_tree t s)
  | Err _ => (Err (ErrMsg "failed to save tree version"), s)
  | Panic => (Panic, s)
  end.

Definition IAVLStore_Prune : M IAVLStore unit := λ s,
  if maxVersions s =? 0 then (Ok (), s)
  else
    let oldVer := i64 (IAVLStore_Version s - maxVersions s) in
    if oldVer <? 1 then (Ok (), s)
    else if t_VersionExists (tree s) oldVer then
      match t_DeleteVersion oldVer (tree s) with
      | Ok t => (Ok (), with_tree t s)
      | Err _ => (Err (ErrMsg "failed to delete tree version"), s)
      | Panic => (Panic, s)
      end
    else (Ok (), s).

(** At least the last two versions are kept. *)
Definition clamp_versions (maxVersions : Z) : Z :=
  if negb (maxVersions =? 0) && (maxVersions <? 2) then 2 else maxVersions.

(** [loaded] is the tree of the wanted version, or the error of loading it. *)
Definition NewIAVLStore (loaded : Res MutableTree) (maxVersions : Z) : Res IAVLStore :=
  t ← loaded; Ok (mkIAVLStore t (clamp_versions maxVersions)).

#[global] Instance iavl_kvstore : KVStore IAVLStore := {
  kv_Get := IAVLStore_Get;
  kv_Has := IAVLStore_Has;
  kv_Range s prefix := IAVLStore_Range s (Some prefix);
  kv_Set := IAVLStore_Set;
  kv_Delete := IAVLStore_Delete;
}.
#[global] Instance iavl_versioned_kvstore : VersionedKVStore IAVLStore := {
  vkv_Hash := IAVLStore_Hash;
  vkv_Version := IAVLStore_Version;
  vkv_SaveVersion := IAVLStore_SaveVersion;
  vkv_Prune := IAVLStore_Prune;
}.

(** ** PruningIAVLStore

    The background thread runs [prune] again and again; each method takes the lock, so
    that they follow one another in some order. *)

Record PruningIAVLStore := mkPruning {
  pr_store : IAVLStore;
  oldestVer : Z;
  pr_maxVersions : Z;
  batchSize : Z;
  batchCount : Z;
}.

Definition on_store (g : IAVLStore → IAVLStore) (s : PruningIAVLStore) : PruningIAVLStore :=
  mkPruning (g (pr_store s)) (oldestVer s) (pr_maxVersions s) (batchSize s) (batchCount s).
Definition with_oldest (v : Z) (s : PruningIAVLStore) : PruningIAVLStore :=
  mkPruning (pr_store s) v (pr_maxVersions s) (batchSize s) (batchCount s).

(** The first of [n] versions from [i] on that exists, or 0. *)
Fixpoint find_oldest (t : MutableTree) (i : Z) (n : nat) : Z :=
  match n with O => 0 | S n => if t_VersionExists t i then i else find_oldest t (i + 1) n end.

Definition NewPruningIAVLStore (loaded : Res MutableTree) (cfg_MaxVersions cfg_BatchSize : Z) : Res PruningIAVLStore :=
  let maxVersions := clamp_versions cfg_MaxVersions in
  store ← NewIAVLStore loaded maxVersions;
  let oldest :=
    if (maxVersions =? 0) || negb (1 <? cfg_BatchSize) then 0
    else find_oldest (tree store) 1 (Z.to_nat (IAVLStore_Version store)) in
  Ok (mkPruning store oldest maxVersions cfg_BatchSize 0).

Definition Pruning_SaveVersion : M PruningIAVLStore (bytes * Z) := λ s,
  match IAVLStore_SaveVersion (pr_store s) with
  | (Ok (hash, ver), st) =>
      let s := on_store (λ _, st) s in
      (Ok (hash, ver), if oldestVer s =? 0 then with_oldest ver s else s)
  | (r, st) => (r, on_store (λ _, st) s)
  end.

Definition Pruning_Prune : M PruningIAVLStore unit := mret ().

Definition deleteVersion (ver : Z) : M PruningIAVLStore unit := λ s,
  match t_DeleteVersion ver (tree (pr_store s)) with
  | Ok t => (Ok (), on_store (with_tree t) s)
  | Err e => (Err e, s)
  | Panic => (Panic, s)
  end.

(** [errors.Wrapf] in the loop of [prune] *)
Definition wrap_delete (m : M PruningIAVLStore unit) : M PruningIAVLStore unit := λ s,
  match m s with (Err _, s') => (Err (ErrMsg "failed to delete tree version"), s') | r => r end.

(** The loop of [prune]: [n] versions from [i] on. *)
Fixpoint prune_versions (i : Z) (n : nat) : M PruningIAVLStore unit :=
  match n with
  | O => mret ()
  | S n =>
      exists_ ← gets (λ s, t_VersionExists (tree (pr_store s)) i);
      (if exists_ : bool then wrap_delete (deleteVersion i) else mret ());;
      modify (λ s, with_oldest (i64 (oldestVer s + 1)) s);;
      prune_versions (i + 1) n
  end.

Definition prune_end (latestVer : Z) (s : PruningIAVLStore) : Z :=
  let endVer := i64 (latestVer - pr_maxVersions s) in
  let endVer := if batchSize s <? i64 (endVer - oldestVer s) then i64 (oldestVer s + batchSize s) else endVer in
  if latestVer - 2 <? endVer then latestVer - 2 else endVer.

Definition prune : M PruningIAVLStore unit :=
  s ← gets id;
  let latestVer := IAVLStore_Version (pr_store s) in
  if (oldestVer s =? 0) || (i64 (latestVer - pr_maxVersions s) <? oldestVer s) then mret ()
  else
    prune_versions (oldestVer s) (Z.to_nat (prune_end latestVer s - oldestVer s + 1));;
    modify (λ s, mkPruning (pr_store s) (oldestVer s) (pr_maxVersions s) (batchSize s) (u64 (batchCount s + 1))).

#[global] Instance pruning_kvstore : KVStore PruningIAVLStore := {
  kv_Get s := IAVLStore_Get (pr_store s);
  kv_Has s := IAVLStore_Has (pr_store s);
  kv_Range s prefix := IAVLStore_Range (pr_store s) (Some prefix);
  kv_Set key val := on_store (IAVLStore_Set key val);
  kv_Delete key := on_store (IAVLStore_Delete key);
}.
#[global] Instance pruning_versioned_kvstore : VersionedKVStore PruningIAVLStore := {
  vkv_Hash s := IAVLStore_Hash (pr_store s);
  vkv_Version s := IAVLStore_Version (pr_store s);
  vkv_SaveVersion := Pruning_SaveVersion;
  vkv_Prune := Pruning_Prune;
}.

(** ** MultiReaderIAVLStore

    Writes go to the tree and to a batch; saving a version writes the batch to the value
    database, from which snapshots for readers are taken. *)

Context {LIB : DiademLib}.

Definition valueDBVersionKey : bytes := prefix_key ["dbh"; "v"].

Definition write_op (d : gmap string bytes) (op : KVOp) : gmap string bytes :=
  match op with OpSet k v => <[k := v]> d | OpDelete k => delete k d end.
Definition write_batch (batch : list KVOp) (d : gmap string bytes) : gmap string bytes := foldl write_op d batch.

Record MultiReaderIAVLStore := mkMulti {
  mr_store : IAVLStore;
  valueDB : gmap string bytes;
  valueBatch : list KVOp;
  lastSavedTree : ImmutableTree;
  snapshotVersion : Z;
}.

Definition MultiReader_Delete (key : bytes) (s : MultiReaderIAVLStore) : MultiReaderIAVLStore :=
  mkMulti (IAVLStore_Delete key (mr_store s)) (valueDB s) (valueBatch s ++ [OpDelete key]) (lastSavedTree s) (snapshotVersion s).
Definition MultiReader_Set (key val : bytes) (s : MultiReaderIAVLStore) : MultiReaderIAVLStore :=
  mkMulti (IAVLStore_Set key val (mr_store s)) (valueDB s) (valueBatch s ++ [OpSet key val]) (lastSavedTree s) (snapshotVersion s).
Definition MultiReader_Has (s : MultiReaderIAVLStore) : bytes → bool := IAVLStore_Has (mr_store s).
Definition MultiReader_Get (s : MultiReaderIAVLStore) : bytes → option bytes := IAVLStore_Get (mr_store s).
Definition MultiReader_Range (s : MultiReaderIAVLStore) : option bytes → Res (list (bytes * bytes)) := IAVLStore_Range (mr_store s).

Definition tree_of_version (t : MutableTree) (version : Z) : Res ImmutableTree :=
  if version =? 0 then Ok t_Empty
  else match t_GetImmutable t version with
       | Err _ => Err (ErrMsg "failed to load immutable tree for version")
       | r => r
       end.

Definition setLastSavedTreeToVersion (version : Z) : M MultiReaderIAVLStore unit := λ s,
  match tree_of_version (tree (mr_store s)) version with
  | Ok t => (Ok (), mkMulti (mr_store s) (valueDB s) (valueBatch s) t (snapshotVersion s))
  | Err e => (Err e, s)
  | Panic => (Panic, s)
  end.

Definition MultiReader_SaveVersion : M MultiReaderIAVLStore (bytes * Z) :=
  '(hash, ver) ← zoom mr_store (λ st s, mkMulti st (valueDB s) (valueBatch s) (lastSavedTree s) (snapshotVersion s)) IAVLStore_SaveVersion;
  modify (λ s, mkMulti (mr_store s) (write_batch (valueBatch s ++ [OpSet valueDBVersionKey (be_encode 8 (u64 ver))]) (valueDB s))
                 [] (lastSavedTree s) (snapshotVersion s));;
  setLastSavedTreeToVersion ver;;
  mret (hash, ver).

(** The three kinds of snapshots: of the database, of the tree, and of the tree with
    ranges of the database. *)
Inductive MultiSnapshot :=
  | DBSnapshot (d : gmap string bytes)
  | HybridSnapshot (d : gmap string bytes) (t : ImmutableTree)
  | TreeSnapshot (t : ImmutableTree).

Definition MultiReader_GetSnapshot (s : MultiReaderIAVLStore) : Res MultiSnapshot :=
  if snapshotVersion s =? 1 then Ok (DBSnapshot (valueDB s))
  else if snapshotVersion s =? 2 then Ok (HybridSnapshot (valueDB s) (lastSavedTree s))
  else if snapshotVersion s =? 3 then Ok (TreeSnapshot (lastSavedTree s))
  else Panic.

Definition Snapshot_Get (sn : MultiSnapshot) (key : bytes) : option bytes :=
  match sn with DBSnapshot d => d !! key | HybridSnapshot _ t | TreeSnapshot t => i_Get t key end.
Definition Snapshot_Has (sn : MultiSnapshot) (key : bytes) : bool :=
  match sn with DBSnapshot d => bool_decide (is_Some (d !! key)) | HybridSnapshot _ t | TreeSnapshot t => i_Has t key end.

Definition in_rangeb (start end_ : option bytes) (k : bytes) : bool :=
  match start with Some s => bytes_compare s k <=? 0 | None => true end &&
  match end_ with Some e => bytes_compare k e <? 0 | None => true end.

Definition key_le (x y : bytes * bytes) : Prop := bytes_compare x.1 y.1 <= 0.
#[global] Instance key_le_dec : RelDecision key_le := λ x y, Z_le_dec _ _.

(** An iterator of the database. *)
Definition db_range (d : gmap string bytes) (start end_ : option bytes) : list (bytes * bytes) :=
  filter (λ kv, in_rangeb start end_ kv.1 = true) (merge_sort key_le (map_to_list d)).

Fixpoint unprefix_all (prefix : bytes) (l : list (bytes * bytes)) : Res (list (bytes * bytes)) :=
  match l with
  | [] => Ok []
  | (key, value) :: l =>
      match unprefix_key key prefix with
      | None => Panic
      | Some k => ret ← unprefix_all prefix l; Ok ((k, value) :: ret)
      end
  end.

Definition Snapshot_Range (sn : MultiSnapshot) (prefix : option bytes) : Res (list (bytes * bytes)) :=
  end_ ← prefixRangeEnd prefix;
  match sn with
  | DBSnapshot d | HybridSnapshot d _ => unprefix_all (default "" prefix) (db_range d prefix end_)
  | TreeSnapshot t =>
      match i_GetRange t prefix end_ with
      | None => Panic
      | Some l => unprefix_all (default "" prefix) l
      end
  end.

(** What the tree calls to read the value of a leaf. *)
Definition getValue (db : gmap string bytes) (key : bytes) : option bytes := db !! key.

(** [load] is the tree of the node database, made with the callback [getValue], at its
    latest version.  From then on the tree of [IavlLib] stands for the nodes and for the
    leaves that the library reads through the callback: that these are the values that were
    set is a law of [IavlSpec], not derived from the value database. *)
Definition NewMultiReaderIAVLStore (load : (bytes → option bytes) → Res MutableTree) (db : gmap string bytes)
    (NodeDBVersion SnapshotVersion MaxVersions : Z) : Res MultiReaderIAVLStore :=
  if negb ((NodeDBVersion =? 1) || (NodeDBVersion =? 2)) then Err (ErrMsg "invalid AppStore.NodeDBVersion")
  else
    t ← load (getValue db);
    let treeVer := t_Version t in
    valueDBVer ← match db !! valueDBVersionKey with
                 | Some buf => if (String.length buf <? 8)%nat then Panic else Ok (be_decode (String.substring 0 8 buf))
                 | None => Ok 0
                 end;
    if (0 <? valueDBVer) && negb (u64 treeVer =? valueDBVer) then Err (ErrMsg "nodeDB is out of sync with valueDB")
    else
      last ← tree_of_version t treeVer;
      Ok (mkMulti (mkIAVLStore t (clamp_versions MaxVersions)) db [] last SnapshotVersion).
End Stores.

(** ** CachingStore *)

(** [bigcache.BigCache]; the errors of its operations are only logged. *)
Class BigCache := {
  Cache : Type;
  bc_Get : Cache → string → option bytes;
  bc_Set : string → bytes → Cache → Cache;
  bc_Delete : string → Cache → Cache;
}.

(** Entries are dropped at will, but not changed. *)
Class BigCacheSpec `{BigCache} : Prop := {
  bc_Get_Set c k v k' x : bc_Get (bc_Set k v c) k' = Some x → if decide (k' = k) then x = v else bc_Get c k' = Some x;
  bc_Get_Delete c k k' x : bc_Get (bc_Delete k c) k' = Some x → k' ≠ k ∧ bc_Get c k' = Some x;
}.

Record CachingStoreConfig := mkCachingConfig {
  Shards : Z; EvictionTimeInSeconds : Z; CleaningIntervalInSeconds : Z; MaxKeys : Z; MaxSizeOfValueInBytes : Z; Verbose : bool }.
Record BigCacheConfig := mkBigCacheConfig {
  bcc_Shards : Z; LifeWindow : Z; CleanWindow : Z; HardMaxCacheSize : Z; MaxEntriesInWindow : Z; MaxEntrySize : Z; bcc_Verbose : bool }.

Definition DefaultCachingStoreConfig : CachingStoreConfig := mkCachingConfig 1024 (60 * 60) 10 (50 * 10 * 100) 2048 true.

Definition convertToBigCacheConfig (config : CachingStoreConfig) : Res BigCacheConfig :=
  if (MaxKeys config =? 0) || (MaxSizeOfValueInBytes config =? 0)
  then Err (ErrMsg "[CachingStore] max keys and/or max size of value cannot be zero")
  else if EvictionTimeInSeconds config =? 0 then Err (ErrMsg "[CachingStore] eviction time cannot be zero")
  else if Shards config =? 0 then Err (ErrMsg "[CachingStore] caching shards cannot be zero")
  else Ok (mkBigCacheConfig (Shards config) (i64 (EvictionTimeInSeconds config * 1000000000))
             (i64 (CleaningIntervalInSeconds config * 1000000000)) (i64 (MaxKeys config * MaxSizeOfValueInBytes config))
             (MaxKeys config) (MaxSizeOfValueInBytes config) (Verbose config)).

Section Caching.
Context {BC : BigCache} {S : Type} {KV : KVStore S}.

Record CachingStore := mkCachingStore { cs_source : S; cs_cache : Cache }.

(** [newCache] is [bigcache.NewBigCache]. *)
Definition NewCachingStore (newCache : BigCacheConfig → Res Cache) (source : S) (config : option CachingStoreConfig) : Res CachingStore :=
  match config with
  | None => Err (ErrMsg "[CachingStore] config cant be null for caching store")
  | Some config => bigcacheConfig ← convertToBigCacheConfig config; cache ← newCache bigcacheConfig; Ok (mkCachingStore source cache)
  end.

Definition CachingStore_Delete (key : bytes) (c : CachingStore) : CachingStore :=
  mkCachingStore (kv_Delete key (cs_source c)) (bc_Delete key (cs_cache c)).
Definition CachingStore_Set (key val : bytes) (c : CachingStore) : CachingStore :=
  mkCachingStore (kv_Set key val (cs_source c)) (bc_Set key val (cs_cache c)).

(** The other methods are those of the store below. *)
#[global] Instance caching_kvstore : KVStore CachingStore := {
  kv_Get c := kv_Get (cs_source c);
  kv_Has c := kv_Has (cs_source c);
  kv_Range c := kv_Range (cs_source c);
  kv_Set := CachingStore_Set;
  kv_Delete := CachingStore_Delete;
}.

#[global] Instance caching_versioned_kvstore `{!VersionedKVStore S} : VersionedKVStore CachingStore := {
  vkv_Hash c := vkv_Hash (cs_source c);
  vkv_Version c := vkv_Version (cs_source c);
  vkv_SaveVersion := zoom cs_source (λ st c, mkCachingStore st (cs_cache c)) vkv_SaveVersion;
  vkv_Prune := zoom cs_source (λ st c, mkCachingStore st (cs_cache c)) vkv_Prune;
}.

(** ** ReadOnlyCachingStore: a reader of a store that is written meanwhile

    A read that misses goes to the store and then fills the cache; both are under locks
    of their own, so that a write may come in between. *)

Definition fill (key data : bytes) (c : CachingStore) : CachingStore := mkCachingStore (cs_source c) (bc_Set key data (cs_cache c)).

Definition ReadOnly_Get (key : bytes) : M CachingStore (option bytes) :=
  hit ← gets (λ c, bc_Get (cs_cache c) key);
  match hit with
  | Some data => mret (Some data)
  | None =>
      data ← gets (λ c, kv_Get (cs_source c) key);
      match data with
      | None => mret None
      | Some d => modify (fill key d);; mret (Some d)
      end
  end.

Definition ReadOnly_Has (key : bytes) : M CachingStore bool :=
  hit ← gets (λ c, bc_Get (cs_cache c) key);
  match hit with
  | Some _ => mret true
  | None =>
      data ← gets (λ c, kv_Get (cs_source c) key);
      match data with
      | None => mret false
      | Some d => modify (fill key d);; mret true
      end
  end.

Definition ReadOnly_Delete (key : bytes) : M CachingStore unit := panic.
Definition ReadOnly_Set (key val : bytes) : M CachingStore unit := panic.
Definition ReadOnly_SaveVersion : M CachingStore (bytes * Z) := throw (ErrMsg "[ReadOnlyCachingStore] SaveVersion() not implemented").
Definition ReadOnly_Prune : M CachingStore unit := throw (ErrMsg "[ReadOnlyCachingStore] Prune() not implemented").
End Caching.
Arguments CachingStore {BC} S.

(** ** LogStore *)

Record LogParams := mkLogParams {
  LogVersion : bool; LogDelete : bool; LogSetKey : bool; LogSetValue : bool; LogSetSize : bool; LogGet : bool; LogRange : bool;
  LogHas : bool; LogSaveVersion : bool; LogHash : bool }.

(** The parameters of [NewLogStore]. *)
Definition defaultLogParams : LogParams := mkLogParams false true true false true false false false false false.

Inductive LogLine :=
  | DeleteKey (key : bytes)
  | SetKey (key : bytes)
  | SetValue (val : bytes)
  | SetSize (size : Z)
  | HasKey (key : bytes)
  | RangePrefix (prefix : bytes) (val : Res (list (bytes * bytes)))
  | GetKey (key : bytes) (val : option bytes)
  | HashIs (hash : bytes)
  | VersionIs (version : Z)
  | SavedVersion (r : Res (bytes * Z)).

Section Log.
Context {S : Type} {KV : KVStore S} {VKV : VersionedKVStore S}.

Record LogStore := mkLogStore { ls_store : S; ls_lines : list LogLine; ls_params : LogParams }.

Definition println (c : LogParams → bool) (l : LogLine) : M LogStore unit :=
  modify (λ s, if c (ls_params s) then mkLogStore (ls_store s) (ls_lines s ++ [l]) (ls_params s) else s).
Definition below {A} (m : M S A) : M LogStore A := zoom ls_store (λ st s, mkLogStore st (ls_lines s) (ls_params s)) m.

Definition LogStore_Delete (key : bytes) : M LogStore unit := println LogDelete (DeleteKey key);; below (modify (kv_Delete key)).
Definition LogStore_Set (key val : bytes) : M LogStore unit :=
  println LogSetKey (SetKey key);;
  println LogSetValue (SetValue val);;
  println LogSetSize (SetSize (Z.of_nat (String.length val)));;
  below (modify (kv_Set key val)).
Definition LogStore_Has (key : bytes) : M LogStore bool := println LogHas (HasKey key);; below (gets (λ s, kv_Has s key)).
Definition LogStore_Range (prefix : bytes) : M LogStore (list (bytes * bytes)) :=
  r ← gets (λ s, kv_Range (ls_store s) prefix);
  l ← lift_res r;
  println LogRange (RangePrefix prefix (Ok l));;
  mret l.
Definition LogStore_Get (key : bytes) : M LogStore (option bytes) :=
  val ← below (gets (λ s, kv_Get s key));
  println LogGet (GetKey key val);;
  mret val.
Definition LogStore_Hash : M LogStore bytes := h ← gets (λ s, vkv_Hash (ls_store s)); println LogHash (HashIs h);; mret h.
Definition LogStore_Version : M LogStore Z := v ← gets (λ s, vkv_Version (ls_store s)); println LogVersion (VersionIs v);; mret v.
Definition LogStore_SaveVersion : M LogStore (bytes * Z) := λ s,
  match below vkv_SaveVersion s with
  | (Panic, s) => (Panic, s)
  | (r, s) => (r, (println LogSaveVersion (SavedVersion r) s).2)
  end.
Definition LogStore_Prune : M LogStore unit := below vkv_Prune.
End Log.
Arguments LogStore : clear implicits.
