(* ===== verification/AppStoreTheorems.v ===== *)
(** * Persistent and caching stores: theorems

    Ranges of the tree are the keys with the prefix; pruning keeps the last versions,
    also on a database that was reopened; readers of the second database see the last
    saved version, given a tree whose leaves hold what was set; reads
    through the cache are reads of the store, unless a write comes between a miss and
    the filling of the cache. *)

From Stdlib Require Import Ascii.
From S2P Require Import Prelude Contract Store Middleware EventStoreTheorems AppStores.

(** ** The end of a range of keys *)

(** The least string above all those with a prefix, from the front. *)
Fixpoint above (p : string) : option string :=
  match p with
  | EmptyString => None
  | String c p =>
      match above p with
      | Some t => Some (String c t)
      | None => if (N_of_ascii c =? 255)%N then None else Some (String (ascii_of_N (N_of_ascii c + 1)) "")
      end
  end.

Lemma N_of_ascii_bound c : (N_of_ascii c < 256)%N.
Proof. apply N_ascii_bounded. Qed.

Lemma above_range p k :
  (bytes_compare p k <= 0 ∧ ∀ e, above p = Some e → bytes_compare k e < 0) ↔ String.prefix p k = true.
Proof.
  rewrite bytes_compare_le. setoid_rewrite bytes_compare_lt.
  revert k. induction p as [|c p IH]; intros k.
  - destruct k; simpl; split; try done; intros _; split; done.
  - destruct k as [|d k]; [simpl; split; [|done]; intros [H _]; done|].
    rewrite compare_cons. cbn [String.prefix above]. specialize (IH k).
    destruct (Ascii.ascii_dec c d) as [<-|Hcd].
    + rewrite N.compare_refl. simpl then_compare. rewrite <- IH. destruct (above p) as [t|] eqn:Ht.
      * split; intros [H1 H2]; (split; [done|]); intros e [= <-].
        -- specialize (H2 _ eq_refl). rewrite compare_cons, N.compare_refl in H2. done.
        -- rewrite compare_cons, N.compare_refl. by apply H2.
      * split; intros [H1 _]; (split; [done|]); [done|]. intros e. destruct (N.eqb_spec (N_of_ascii c) 255); [done|].
        intros [= <-]. rewrite compare_cons. pose proof (N_of_ascii_bound c).
        rewrite N_ascii_embedding by lia. by rewrite (proj2 (N.compare_lt_iff _ _)) by lia.
    + assert (N_of_ascii c ≠ N_of_ascii d) as Hne.
      { intros Heq. apply Hcd. by rewrite <- (ascii_N_embedding c), <- (ascii_N_embedding d), Heq. }
      split; [|done]. intros [H1 H2]. exfalso. pose proof (N_of_ascii_bound d).
      destruct (N.compare_spec (N_of_ascii c) (N_of_ascii d)) as [?|Hlt|?]; [done | | done].
      destruct (above p) as [t|] eqn:Ht.
      * specialize (H2 _ eq_refl). rewrite compare_cons in H2. by rewrite (proj2 (N.compare_gt_iff _ _)) in H2 by lia.
      * destruct (N.eqb_spec (N_of_ascii c) 255); [lia|]. specialize (H2 _ eq_refl). rewrite compare_cons in H2.
        rewrite N_ascii_embedding in H2 by lia. destruct (N.compare_spec (N_of_ascii d) (N_of_ascii c + 1)) as [?|?|?]; [|lia|done].
        by destruct k.
Qed.

Definition next_byte (c : ascii) : option (list ascii) :=
  if (N_of_ascii c =? 255)%N then None else Some [ascii_of_N (N_of_ascii c + 1)].

Lemma range_end_snoc r c :
  r ≠ [] → range_end (r ++ [c]) = match range_end r with
                                   | Ok (Some t) => Ok (Some (t ++ [c]))
                                   | Ok None => Ok (next_byte c)
                                   | x => x
                                   end.
Proof.
  induction r as [|d r IH]; [done|]. intros _. cbn [range_end app]. destruct (N_of_ascii d =? 255)%N; [|done]. cbn [negb].
  destruct r as [|e r]; [|by apply IH]. simpl. unfold next_byte. by destruct (N_of_ascii c =? 255)%N.
Qed.

Lemma range_end_above p :
  p ≠ "" → range_end (rev (String.list_ascii_of_string p)) = Ok ((λ e, rev (String.list_ascii_of_string e)) <$> above p).
Proof.
  induction p as [|c p IH]; [done|]. intros _. destruct p as [|d p].
  - simpl. by destruct (N_of_ascii c =? 255)%N.
  - change (String.list_ascii_of_string (String c (String d p))) with (c :: String.list_ascii_of_string (String d p)).
    assert (rev (String.list_ascii_of_string (String d p)) ≠ []) as Hnil by (simpl; intros H; by apply app_eq_nil in H as [_ ?]).
    cbn [rev]. rewrite (range_end_snoc _ c Hnil), IH by done.
    set (q := String d p). cbn [above]. fold q. change (above (String c q)) with
      (match above q with Some t => Some (String c t) | None => if (N_of_ascii c =? 255)%N then None else Some (String (ascii_of_N (N_of_ascii c + 1)) "") end).
    destruct (above q) as [t|]; [done|]. simpl. unfold next_byte. by destruct (N_of_ascii c =? 255)%N.
Qed.

(** The keys from a prefix up to [prefixRangeEnd] are those with the prefix. *)
Theorem prefix_range_is_exact p end_ k :
  prefixRangeEnd (Some p) = Ok end_ → in_range (Some p) end_ k ↔ String.prefix p k = true.
Proof.
  unfold prefixRangeEnd. destruct (decide (p = "")) as [->|Hne]; [done|]. rewrite range_end_above by done. simpl.
  intros [= <-]. rewrite <- above_range. unfold in_range.
  assert (option_map (λ l, String.string_of_list_ascii (rev l)) ((λ e, rev (String.list_ascii_of_string e)) <$> above p) = above p) as Heq.
  { destruct (above p); [|done]. simpl. by rewrite rev_involutive, String.string_of_list_ascii_of_string. }
  rewrite Heq. naive_solver.
Qed.

Lemma prefix_range_panics : prefixRangeEnd (Some "") = Panic.
Proof. done. Qed.

(** ** IAVLStore *)

Section Iavl.
Context {IL : IavlLib} {IS : IavlSpec} (unprefix_key : bytes → bytes → option bytes).
#[local] Existing Instance iavl_kvstore.
#[local] Existing Instance pruning_kvstore.

#[local] Instance iavl_kv : KVStore IAVLStore := iavl_kvstore unprefix_key.

#[global] Instance iavl_kvstore_spec : KVStoreSpec IAVLStore.
Proof.
  refine {| kv_ok := λ _ : IAVLStore, True |}; cbn; intros; try done; [apply t_Has_Get | apply t_Get_Set | apply t_Get_Remove].
Defined.

Lemma run_ops_version (s : IAVLStore) ops :
  t_Version (tree (run_ops s ops)) = t_Version (tree s) ∧ maxVersions (run_ops s ops) = maxVersions s ∧
  ∀ n, t_VersionExists (tree (run_ops s ops)) n = t_VersionExists (tree s) n.
Proof.
  revert s. induction ops as [|op ops IH]; intros s; [done|].
  change (run_ops s (op :: ops)) with (run_ops (run_op s op) ops). destruct (IH (run_op s op)) as (-> & -> & H).
  destruct op; cbn; (split_and!; [by rewrite ?t_Version_Set, ?t_Version_Remove | done |]); intros n; rewrite H; cbn;
    by rewrite ?t_Exists_Set, ?t_Exists_Remove.
Qed.

(** A range answers with the values of the keys that have the prefix. *)
Theorem iavl_range_finds_prefix (s : IAVLStore) p l :
  IAVLStore_Range unprefix_key s (Some p) = Ok l → is_Some (t_GetRange (tree s) (Some p) (default None (match prefixRangeEnd (Some p) with Ok e => Some e | _ => None end))) →
  ∀ k' v, (k', v) ∈ l ↔ ∃ k, String.prefix p k = true ∧ IAVLStore_Get s k = Some v ∧ k' = default "" (unprefix_key k p).
Proof.
  unfold IAVLStore_Range. destruct (prefixRangeEnd (Some p)) as [e|?|] eqn:He; simpl; [|done|done]. intros [= <-] (l' & Hl') k' v.
  rewrite Hl', list_elem_of_fmap. split.
  - intros ([k x] & [= -> ->] & Hin). apply (t_GetRange_elem _ _ _ _ _ _ Hl') in Hin as (Hg & Hr).
    exists k. split_and!; [by eapply prefix_range_is_exact | done | done].
  - intros (k & Hp & Hg & ->). exists (k, v). split; [done|]. apply (t_GetRange_elem _ _ _ _ _ _ Hl').
    split; [done|]. by eapply prefix_range_is_exact.
Qed.

(** A block: writes, then [SaveVersion] and [Prune] of the commit. *)
Definition block_commit (ops : list KVOp) : M IAVLStore unit :=
  modify (λ s, run_ops s ops);;
  _ ← IAVLStore_SaveVersion;
  IAVLStore_Prune.

Lemma save_inv (s s' : IAVLStore) x :
  IAVLStore_SaveVersion s = (Ok x, s') →
  t_Version (tree s') = t_Version (tree s) + 1 ∧ maxVersions s' = maxVersions s ∧ (∀ k, t_Get (tree s') k = t_Get (tree s) k) ∧
  ∀ m, t_VersionExists (tree s') m = true ↔ m = t_Version (tree s) + 1 ∨ t_VersionExists (tree s) m = true.
Proof.
  unfold IAVLStore_SaveVersion. destruct (t_SaveVersion (tree s)) as [[[h n] t]|?|] eqn:Hs; [|done..]. intros [= _ <-].
  destruct (t_Save _ _ _ _ Hs) as (-> & Hv & Hg & He & _). done.
Qed.

Lemma prune_inv (s s' : IAVLStore) :
  IAVLStore_Prune s = (Ok (), s') →
  t_Version (tree s') = t_Version (tree s) ∧ maxVersions s' = maxVersions s ∧
  ∀ m, t_VersionExists (tree s') m = true ↔
    t_VersionExists (tree s) m = true ∧ (maxVersions s = 0 ∨ m < 1 ∨ m ≠ i64 (t_Version (tree s) - maxVersions s)).
Proof.
  unfold IAVLStore_Prune, IAVLStore_Version. destruct (Z.eqb_spec (maxVersions s) 0) as [Hz|Hz].
  { intros [= <-]. split_and!; try done. tauto. }
  destruct (Z.ltb_spec (i64 (t_Version (tree s) - maxVersions s)) 1) as [Hlt|Hge].
  { intros [= <-]. split_and!; try done. intros m. split; [|tauto]. intros Hm. split; [done|]. right. lia. }
  destruct (t_VersionExists (tree s) (i64 _)) eqn:Hex.
  - destruct (t_DeleteVersion _ _) as [t|?|] eqn:Hd; [|done..]. intros [= <-]. destruct (t_Delete _ _ _ Hd) as (Hv & _ & He).
    split_and!; try done. intros m. simpl. rewrite He. split; [intros [? ?]; split; [done | by right; right]|].
    intros [Hm [?|[?|?]]]; [lia | | done]. split; [lia | done].
  - intros [= <-]. split_and!; try done. intros m. split; [|tauto]. intros Hm. split; [done|]. right. right. congruence.
Qed.

(** After any number of blocks on a fresh tree, exactly the last versions are
    there, as many as the configuration asks for (all of them if it gives 0). *)
Theorem iavl_keeps_last_versions (s s' : IAVLStore) (blocks : list (list KVOp)) :
  t_Version (tree s) = 0 → (∀ n, t_VersionExists (tree s) n = false) →
  maxVersions s = 0 ∨ 2 <= maxVersions s → maxVersions s < 2 ^ 62 → Z.of_nat (length blocks) < 2 ^ 62 →
  forM blocks block_commit s = (Ok (), s') →
  IAVLStore_Version s' = Z.of_nat (length blocks) ∧
  ∀ n, t_VersionExists (tree s') n = true ↔
    1 <= n <= IAVLStore_Version s' ∧ (maxVersions s = 0 ∨ IAVLStore_Version s' - maxVersions s < n).
Proof.
  intros Hv He Hm Hm' Hl Hrun.
  assert (∀ done_ (s1 : IAVLStore), 0 <= done_ → done_ + Z.of_nat (length blocks) < 2 ^ 62 →
    t_Version (tree s1) = done_ → maxVersions s1 = maxVersions s →
    (∀ n, t_VersionExists (tree s1) n = true ↔ 1 <= n <= done_ ∧ (maxVersions s = 0 ∨ done_ - maxVersions s < n)) →
    forM blocks block_commit s1 = (Ok (), s') →
    t_Version (tree s') = done_ + Z.of_nat (length blocks) ∧
    ∀ n, t_VersionExists (tree s') n = true ↔ 1 <= n <= t_Version (tree s') ∧ (maxVersions s = 0 ∨ t_Version (tree s') - maxVersions s < n)) as H.
  { clear Hrun Hl. induction blocks as [|ops blocks IH]; intros d s1 Hd Hb Hv1 Hm1 He1 Hrun.
    { apply ret_inv in Hrun as [_ ->]. rewrite Hv1. split; [simpl; lia | done]. }
    cbn in Hrun. apply bind_inv in Hrun as ([] & s2 & H1 & Hrun).
    unfold block_commit in H1. apply bind_inv in H1 as ([] & s3 & [= <-] & H1). apply bind_inv in H1 as (x & s4 & Hsave & Hprune).
    destruct (run_ops_version s1 ops) as (V3 & M3 & E3). destruct (save_inv _ _ _ Hsave) as (V4 & M4 & _ & E4).
    destruct (prune_inv _ _ Hprune) as (V2 & M2 & E2). cbn [length] in *.
    replace (d + Z.of_nat (S (length blocks))) with (d + 1 + Z.of_nat (length blocks)) by lia.
    apply (IH (d + 1) s2); [lia | lia | lia | congruence | | done].
    intros n. rewrite E2, E4, E3, He1, V4, V3, M4, M3, Hv1, Hm1. rewrite i64_small by lia. lia. }
  destruct (H 0 s ltac:(lia) ltac:(lia) Hv eq_refl) as (H1 & H2); [intros n; rewrite He; split; [done | lia] | done |]. split; [done | exact H2].
Qed.
End Iavl.

(** ** PruningIAVLStore *)

Section Pruning.
Context {IL : IavlLib} {IS : IavlSpec} (unprefix_key : bytes → bytes → option bytes).
#[local] Instance pruning_kv : KVStore PruningIAVLStore := pruning_kvstore unprefix_key.
Implicit Types s : PruningIAVLStore.

Definition latest s : Z := t_Version (tree (pr_store s)).
Definition saved s (n : Z) : bool := t_VersionExists (tree (pr_store s)) n.

Definition same_config s s' : Prop := pr_maxVersions s' = pr_maxVersions s ∧ batchSize s' = batchSize s.

(** The versions from [i] up to, but not including, [j] may be gone; of these, none below
    [oldestVer] is left. *)
Record pruned (i j : Z) s s' : Prop := {
  pd_latest : latest s' = latest s;
  pd_config : same_config s s';
  pd_outside m : m < i ∨ j <= m → saved s' m = saved s m;
  pd_less m : saved s' m = true → saved s m = true;
  pd_oldest : i <= oldestVer s' <= j;
  pd_gone m : saved s' m = true → i <= m → oldestVer s' <= m;
}.

Lemma prune_versions_pruned (n : nat) s :
  0 <= oldestVer s → oldestVer s + Z.of_nat n < 2 ^ 62 →
  wp (prune_versions (oldestVer s) n) (λ r s', pruned (oldestVer s) (oldestVer s + Z.of_nat n) s s' ∧ (r = Ok () → oldestVer s' = oldestVer s + Z.of_nat n)) s.
Proof.
  revert s. induction n as [|n IH]; intros s H0 Hb.
  { apply wp_ret. split; [|lia]. split; try done; lia. }
  assert (pruned (oldestVer s) (oldestVer s + Z.of_nat (S n)) s s) as Hsame by (split; done || lia).
  cbn [prune_versions]. apply wp_bind, wp_gets.
  set (Q (r : Res unit) s' := pruned (oldestVer s) (oldestVer s + Z.of_nat (S n)) s s' ∧ (r = Ok () → oldestVer s' = oldestVer s + Z.of_nat (S n))).
  assert (∀ t, t_Version t = latest s → (∀ m, t_VersionExists t m = true ↔ m ≠ oldestVer s ∧ saved s m = true) →
    wp (modify (λ s, with_oldest (i64 (oldestVer s + 1)) s);; prune_versions (oldestVer s + 1) n) Q (on_store (with_tree t) s)) as Hnext.
  { intros t Hv Hx. apply wp_bind, wp_modify. set (s1 := with_oldest _ _). assert (oldestVer s1 = oldestVer s + 1) as Ho by (unfold s1; cbn; rewrite i64_small; lia).
    rewrite <- Ho. eapply wp_mono; [apply IH; lia|]. rewrite Ho. intros r s' ([P1 [C1 C2] P3 P4 P5 P6] & Hok). unfold Q.
    replace (oldestVer s + Z.of_nat (S n)) with (oldestVer s + 1 + Z.of_nat n) by lia. split; [|done].
    assert (∀ m, saved s1 m = true ↔ m ≠ oldestVer s ∧ saved s m = true) as Hx' by exact Hx. split.
    - by rewrite P1.
    - by split.
    - intros m Hm. rewrite P3 by lia. apply eq_true_iff_eq. rewrite Hx'. split; [tauto|]. intros ?. split; [lia|done].
    - intros m Hm%P4. by apply Hx' in Hm as [_ ?].
    - lia.
    - intros m Hm Hi. apply P6; [done|]. pose proof (P4 m Hm) as [Hne _]%Hx'. lia. }
  destruct (t_VersionExists (tree (pr_store s)) (oldestVer s)) eqn:He; apply wp_bind.
  - unfold wp, wrap_delete, deleteVersion. destruct (t_DeleteVersion _ _) as [t|?|] eqn:Hd; [|by split..].
    destruct (t_Delete _ _ _ Hd) as (Hv & _ & Hx). by apply Hnext.
  - apply wp_ret. replace s with (on_store (with_tree (tree (pr_store s))) s) by (by destruct s as [[]]). apply Hnext; [done|].
    intros m. unfold saved. split; [|tauto]. intros Hm. split; [intros ->; congruence|done].
Qed.

Definition config_ok (max batch : Z) : Prop := 2 <= max < 2 ^ 62 ∧ - 2 ^ 62 < batch < 2 ^ 62.

(** The store keeps its configuration; [oldestVer] is a version, or 0.  When there is a
    search for it at the start, no version is older. *)
Record pr_ok (max batch : Z) s : Prop := {
  po_max : pr_maxVersions s = max;
  po_batch : batchSize s = batch;
  po_latest : 0 <= oldestVer s <= latest s;
  po_saved m : saved s m = true → 1 <= m <= latest s;
  po_oldest m : 1 < batch → saved s m = true → 1 <= oldestVer s <= m;
}.

(** A cycle of the background thread removes versions from the oldest on, and none of the
    last ones. *)
Lemma prune_pruned max batch s :
  config_ok max batch → pr_ok max batch s → latest s < 2 ^ 62 - 1 →
  wp prune (λ r s', pruned (oldestVer s) (Z.max (oldestVer s) (latest s - max + 1)) s s' ∧ (oldestVer s = 0 → s' = s) ∧
    (r = Ok () → 0 <= batch → oldestVer s ≠ 0 → oldestVer s' = Z.max (oldestVer s) (Z.min (latest s - max) (oldestVer s + batch) + 1))) s.
Proof.
  intros (Hm & Hbt) [Em Eb Hl Hs Ho] Hb. unfold prune. apply wp_bind, wp_gets. unfold id, IAVLStore_Version. fold (latest s). rewrite Em, i64_small by lia.
  assert (∀ j, oldestVer s <= j → pruned (oldestVer s) j s s) as Hsame by (intros j Hj; split; done || lia).
  destruct (Z.eqb_spec (oldestVer s) 0) as [Hz|Hz]; [apply wp_ret; split_and!; [apply Hsame; lia|done|done]|]. cbn [orb].
  destruct (Z.ltb_spec (latest s - max) (oldestVer s)); [apply wp_ret; split_and!; [apply Hsame; lia|done|lia]|].
  assert (prune_end (latest s) s = if batch <? latest s - max - oldestVer s then oldestVer s + batch else latest s - max) as Hend.
  { unfold prune_end. rewrite Em, Eb. rewrite (i64_small (latest s - max)) by lia. rewrite !i64_small by lia.
    destruct (Z.ltb_spec batch (latest s - max - oldestVer s)); destruct (Z.ltb_spec (latest s - 2) (oldestVer s + batch));
      destruct (Z.ltb_spec (latest s - 2) (latest s - max)); lia. }
  rewrite Hend. set (n := Z.to_nat _). assert (oldestVer s + Z.of_nat n <= latest s - max + 1) as Hn.
  { unfold n. destruct (Z.ltb_spec batch (latest s - max - oldestVer s)); lia. }
  apply wp_bind. eapply wp_mono; [apply prune_versions_pruned; lia|]. intros r s' ([P1 P2 P3 P4 P5 P6] & Hok).
  assert (pruned (oldestVer s) (Z.max (oldestVer s) (latest s - max + 1)) s s') as Hp.
  { split; try done; [|lia]. intros m Hm'. apply P3. lia. }
  destruct r as [[]|e|]; [|by split_and!..]. apply wp_modify. split_and!; [by destruct Hp|done|]. intros _ Hb0 _. cbn. rewrite (Hok eq_refl). unfold n.
  destruct (Z.ltb_spec batch (latest s - max - oldestVer s)); lia.
Qed.

(** ** Writes, saved versions, cycles of the thread and restarts in any order *)

Inductive pr_step s : PruningIAVLStore → Prop :=
  | pr_write op : pr_step s (run_op s op)
  | pr_save r s' : Pruning_SaveVersion s = (r, s') → pr_step s s'
  | pr_prune r s' : prune s = (r, s') → pr_step s s'.

(** The store is opened on a database with the tree [t0]; a restart opens it again on what
    is saved. *)
Inductive pr_run (max batch : Z) (t0 : MutableTree) : PruningIAVLStore → Prop :=
  | run_open s : NewPruningIAVLStore (Ok t0) max batch = Ok s → pr_run max batch t0 s
  | run_step s s' : pr_run max batch t0 s → pr_step s s' → pr_run max batch t0 s'
  | run_reopen s t s' : pr_run max batch t0 s → t_Version t = latest s → (∀ n, t_VersionExists t n = saved s n) →
      NewPruningIAVLStore (Ok t) max batch = Ok s' → pr_run max batch t0 s'.

(** What is to be kept of the versions. *)
Definition kept (max : Z) (t0 : MutableTree) s : Prop :=
  t_Version t0 <= latest s ∧
  ∀ n, (latest s - max < n → (t_VersionExists t0 n = true ∨ t_Version t0 < n <= latest s) → saved s n = true) ∧
    (saved s n = true → t_VersionExists t0 n = true ∨ t_Version t0 < n <= latest s).

Lemma find_oldest_spec t i (n : nat) : 1 <= i →
  let o := find_oldest t i n in
  (o = 0 ∨ i <= o < i + Z.of_nat n) ∧ ∀ m, i <= m < i + Z.of_nat n → t_VersionExists t m = true → i <= o <= m.
Proof.
  revert i. induction n as [|n IH]; intros i Hi; cbn; [split; [by left|lia]|]. destruct (t_VersionExists t i) eqn:He; [split; [right; lia|lia]|].
  destruct (IH (i + 1) ltac:(lia)) as [H1 H2]. split; [destruct H1; [by left|right; lia]|]. intros m Hm Hx.
  assert (m ≠ i) by (intros ->; congruence). specialize (H2 m ltac:(lia) Hx). lia.
Qed.

Lemma opened_ok max batch t s :
  config_ok max batch → 0 <= t_Version t → (∀ n, t_VersionExists t n = true → 1 <= n <= t_Version t) → NewPruningIAVLStore (Ok t) max batch = Ok s →
  pr_ok max batch s ∧ tree (pr_store s) = t.
Proof.
  intros (Hm & _) Hv Hx H. unfold NewPruningIAVLStore in H. cbn in H.
  assert (clamp_versions max = max) as Hcl by (unfold clamp_versions; rewrite (proj2 (Z.ltb_ge max 2)) by lia; by rewrite andb_false_r).
  rewrite !Hcl, (proj2 (Z.eqb_neq max 0)) in H by lia. cbn [orb] in H. injection H as <-. unfold IAVLStore_Version. cbn [tree].
  destruct (find_oldest_spec t 1 (Z.to_nat (t_Version t)) ltac:(lia)) as [Ho Hold]. split; [|done].
  split; unfold latest, saved; cbn; try done; destruct (Z.ltb_spec 1 batch); cbn; try lia. intros m _ Hm'. pose proof (Hx m Hm'). by apply Hold; [lia|].
Qed.

Lemma step_ok max batch t0 s s' :
  config_ok max batch → pr_ok max batch s → kept max t0 s → latest s' < 2 ^ 62 - 1 → latest s <= latest s' → pr_step s s' → pr_ok max batch s' ∧ kept max t0 s'.
Proof.
  intros Hcfg Hok [Hk0 Hk] Hb Hmono Hstep. destruct Hstep as [op|r s' Hs|r s' Hp].
  - assert (latest (run_op s op) = latest s ∧ ∀ n, saved (run_op s op) n = saved s n) as (Hl & Hs).
    { destruct op; cbn; unfold latest, saved; simpl; split; intros; by rewrite ?t_Version_Set, ?t_Version_Remove, ?t_Exists_Set, ?t_Exists_Remove. }
    assert (oldestVer (run_op s op) = oldestVer s ∧ same_config s (run_op s op)) as (Ho & Hc1 & Hc2) by (by destruct op).
    destruct Hok as [H1 H2 H3 H4 H5]. split; [split; rewrite ?Hc1, ?Hc2, ?Ho, ?Hl; try done; intros m; rewrite Hs; [apply H4|apply H5]|].
    split; rewrite ?Hl; [done|]. intros n. by rewrite Hs.
  - unfold Pruning_SaveVersion in Hs. destruct (IAVLStore_SaveVersion (pr_store s)) as [[[h v]|?|] st] eqn:Hsv; injection Hs as <- <-.
    2,3: unfold IAVLStore_SaveVersion in Hsv; destruct (t_SaveVersion _) as [[[??]?]|?|]; inversion Hsv; subst; by destruct s, Hok.
    assert (v = latest s + 1) as ->.
    { unfold IAVLStore_SaveVersion in Hsv. destruct (t_SaveVersion _) as [[[h' n'] t']|?|] eqn:Ht; [|done..]. injection Hsv as -> -> _.
      destruct (t_Save _ _ _ _ Ht) as (-> & _). done. }
    destruct (save_inv _ _ _ Hsv) as (Hv & _ & _ & He). fold (latest s) in Hv, He. cbn [oldestVer on_store].
    set (s1 := if oldestVer s =? 0 then _ else _).
    assert (latest s1 = latest s + 1 ∧ (∀ m, saved s1 m = true ↔ m = latest s + 1 ∨ saved s m = true) ∧ pr_maxVersions s1 = pr_maxVersions s ∧ batchSize s1 = batchSize s ∧
      oldestVer s1 = if oldestVer s =? 0 then latest s + 1 else oldestVer s) as (Hl & Hx & Hc1 & Hc2 & Ho) by (unfold s1; by destruct (oldestVer s =? 0)).
    destruct Hok as [H1 H2 H3 H4 H5]. split; [split; rewrite ?Hc1, ?Hc2, ?Ho, ?Hl; try done|split; [lia|]].
    + destruct (Z.eqb_spec (oldestVer s) 0); lia.
    + intros m [->|Hm%H4]%Hx; lia.
    + intros m Hbt [->|Hm]%Hx; destruct (Z.eqb_spec (oldestVer s) 0); try lia; pose proof (H5 m Hbt Hm); lia.
    + intros n. rewrite Hx, Hl. destruct (Hk n) as [Hk1 Hk2]. split; [|intros [->|Hn%Hk2]; lia || (destruct Hn; [by left|lia])].
      intros Hn Hor. destruct (decide (n = latest s + 1)) as [|Hne]; [by left|]. right. apply Hk1; [lia|]. destruct Hor; [by left|right; lia].
  - pose proof (prune_pruned max batch s Hcfg Hok ltac:(lia)) as Hpw. unfold wp in Hpw. rewrite Hp in Hpw. destruct Hpw as ([P1 [C1 C2] P3 P4 P5 P6] & Hz & _).
    destruct Hok as [H1 H2 H3 H4 H5]. cbn [snd] in *. split; [split; rewrite ?C1, ?C2, ?P1; try done|split; [by rewrite P1|]].
    + destruct (decide (oldestVer s = 0)) as [E|E]; [rewrite (Hz E); lia|]. destruct Hcfg. lia.
    + intros m Hm. by apply H4, P4.
    + intros m Hbt Hm. destruct (H5 m Hbt (P4 m Hm)). split; [lia|]. apply P6; [done|lia].
    + intros n. rewrite P1. destruct (Hk n) as [Hk1 Hk2]. split; [|intros Hn; by apply Hk2, P4]. intros Hn Hor. pose proof (Hk1 Hn Hor) as Hsv.
      destruct (decide (oldestVer s = 0)) as [E|E]; [by rewrite (Hz E)|].
      destruct (Z.lt_ge_cases n (oldestVer s)); [rewrite P3 by lia; done|]. rewrite P3 by lia. done.
Qed.

Lemma prune_latest L : preserves (λ s, latest s = L) prune.
Proof.
  assert (∀ n i, preserves (λ s, latest s = L) (prune_versions i n)) as Hpv.
  { induction n as [|n IH]; intros i; cbn [prune_versions]; [apply preserves_ret|]. apply preserves_bind; [apply preserves_gets|].
    intros b. apply preserves_bind.
    { destruct b; [|apply preserves_ret]. intros s Hs. unfold wp, wrap_delete, deleteVersion. destruct (t_DeleteVersion _ _) as [t|?|] eqn:Hd; [|done..].
      destruct (t_Delete _ _ _ Hd) as (Hv & _). unfold latest in *. simpl. congruence. }
    intros []. apply preserves_bind; [by apply preserves_modify | intros []; apply IH]. }
  unfold prune. apply preserves_bind; [apply preserves_gets|]. intros s. case_match; [apply preserves_ret|].
  apply preserves_bind; [apply Hpv | intros []; by apply preserves_modify].
Qed.

Lemma pr_step_mono s s' : pr_step s s' → latest s <= latest s'.
Proof.
  intros [op|r s1 Hs|r s1 Hp].
  - destruct op; cbn; unfold latest; simpl; rewrite ?t_Version_Set, ?t_Version_Remove; lia.
  - unfold Pruning_SaveVersion, IAVLStore_SaveVersion in Hs. destruct (t_SaveVersion _) as [[[h n] t]|?|] eqn:Ht; [|injection Hs as _ <-; unfold latest; simpl; lia..].
    destruct (t_Save _ _ _ _ Ht) as (-> & Hv & _). fold (latest s) in Hv.
    assert (latest s1 = latest s + 1) as ->; [|lia]. injection Hs as _ <-. unfold latest. by case_match.
  - pose proof (prune_latest (latest s) s eq_refl) as H. unfold wp in H. rewrite Hp in H. simpl in H. lia.
Qed.

Lemma pr_run_inv max batch t0 s :
  config_ok max batch → 0 <= t_Version t0 → (∀ n, t_VersionExists t0 n = true → 1 <= n <= t_Version t0) → pr_run max batch t0 s → latest s < 2 ^ 62 - 1 →
  pr_ok max batch s ∧ kept max t0 s.
Proof.
  intros Hc Hv Hx Hrun. induction Hrun as [s Hs|s s' _ IH Hstep|s t s' _ IH Ht Hex Hs]; intros Hb.
  - destruct (opened_ok max batch t0 s Hc Hv Hx Hs) as [Hok Ht]. split; [done|]. unfold kept, latest, saved. rewrite Ht. split; [done|].
    intros n. split; [intros _ [?|?]; [done|lia]|by left].
  - pose proof (pr_step_mono s s' Hstep). destruct (IH ltac:(lia)) as [Hok Hk]. by eapply step_ok.
  - assert (latest s' = latest s) as Hl.
    { unfold NewPruningIAVLStore in Hs. injection Hs as <-. exact Ht. }
    destruct (IH ltac:(lia)) as [Hok Hk]. destruct (opened_ok max batch t s' Hc) as [Hok' Et]; [rewrite Ht; pose proof (po_latest _ _ _ Hok); lia| |done|].
    { intros n. rewrite Hex, Ht. apply (po_saved _ _ _ Hok). }
    split; [done|]. destruct Hk as [Hk0 Hk]. split; rewrite Hl; [done|]. intros n. unfold saved at 1 2. rewrite Et, Hex. apply Hk.
Qed.

Fixpoint prune_cycles (n : nat) : M PruningIAVLStore unit := match n with O => mret () | S n => prune;; prune_cycles n end.

(** Cycles that meet no error reach the end: one for each batch that is left to remove. *)
Lemma cycles_catch_up max batch s s' (k : nat) :
  config_ok max batch → 1 < batch → pr_ok max batch s → latest s < 2 ^ 62 - 1 → oldestVer s = 0 ∨ latest s - max + 1 - oldestVer s <= Z.of_nat k * (batch + 1) →
  prune_cycles k s = (Ok (), s') → latest s' = latest s ∧ ∀ n, saved s' n = true ↔ saved s n = true ∧ latest s - max < n.
Proof.
  intros Hc Hbt. revert s. induction k as [|k IH]; intros s Hok Hb Hk Hrun.
  - injection Hrun as <-. split; [done|]. intros n. split; [|tauto]. intros Hn. split; [done|]. pose proof (po_oldest _ _ _ Hok n Hbt Hn). lia.
  - cbn [prune_cycles] in Hrun. apply bind_inv in Hrun as ([] & s1 & Hp & Hrun).
    pose proof (prune_pruned max batch s Hc Hok Hb) as Hpw. unfold wp in Hpw. rewrite Hp in Hpw. destruct Hpw as ([P1 [C1 C2] P3 P4 P5 P6] & Hz & Hend). cbn [snd] in *.
    pose proof Hok as [H1 H2 H3 H4 H5]. destruct Hc as [Hc1 Hc2]. assert (pr_ok max batch s1) as Hok1.
    { split; rewrite ?C1, ?C2, ?P1; try done.
      - destruct (decide (oldestVer s = 0)) as [E|E]; [rewrite (Hz E); lia|]. lia.
      - intros m Hm. by apply H4, P4.
      - intros m _ Hm. destruct (H5 m Hbt (P4 m Hm)). split; [lia|]. apply P6; [done|lia]. }
    destruct (IH s1 Hok1) as [Hl Hs]; [by rewrite P1| |exact Hrun|].
    { rewrite P1. destruct (decide (oldestVer s = 0)) as [E|E]; [left; by rewrite (Hz E)|]. right. destruct Hk as [|Hk]; [done|].
      specialize (Hend eq_refl ltac:(lia) E). nia. }
    rewrite Hl, P1. split; [done|]. intros n. rewrite Hs, P1. split; [intros [Hn ?]; split; [by apply P4|done]|]. intros [Hn ?]. split; [|done].
    destruct (H5 n Hbt Hn). rewrite P3; [done|]. lia.
Qed.

(** C38. A pruning store is opened on any database whose versions are among those from 1 to
    its latest, and opened again after restarts.  Whatever the order of writes, saved versions
    and cycles of the pruning thread, failing ones among them: of the last [MaxVersions]
    versions all are there that were in the database or saved since, and no other version
    ever is.  With a batch size above 1, enough cycles without an error remove every older
    version. *)
Theorem pruning_keeps_last_versions max batch t0 s :
  config_ok max batch → 0 <= t_Version t0 → (∀ n, t_VersionExists t0 n = true → 1 <= n <= t_Version t0) →
  pr_run max batch t0 s → latest s < 2 ^ 62 - 1 →
  (∀ n, latest s - max < n → t_VersionExists t0 n = true ∨ t_Version t0 < n <= latest s → saved s n = true) ∧
  (∀ n, saved s n = true → t_VersionExists t0 n = true ∨ t_Version t0 < n <= latest s) ∧
  (1 < batch → ∀ k s', latest s <= Z.of_nat k * (batch + 1) → prune_cycles k s = (Ok (), s') →
    ∀ n, saved s' n = true ↔ saved s n = true ∧ latest s - max < n).
Proof.
  intros Hc Hv Hx Hrun Hb. destruct (pr_run_inv max batch t0 s Hc Hv Hx Hrun Hb) as [Hok [_ Hk]]. split_and!.
  - intros n. apply Hk.
  - intros n. apply Hk.
  - intros Hbt k s' Hkb Hcyc. eapply (cycles_catch_up max batch); try done. right. pose proof (po_latest _ _ _ Hok). destruct Hc. lia.
Qed.

End Pruning.

(** ** MultiReaderIAVLStore refines a pair of maps *)

Section Multi.
Context {IL : IavlLib} {IS : IavlSpec} {LIB : DiademLib}.
Implicit Types s : MultiReaderIAVLStore.

Inductive MEvent := MWrite (op : KVOp) | MSave.

Definition m_event (e : MEvent) : M MultiReaderIAVLStore unit :=
  match e with
  | MWrite (OpSet k v) => modify (MultiReader_Set k v)
  | MWrite (OpDelete k) => modify (MultiReader_Delete k)
  | MSave => _ ← MultiReader_SaveVersion; mret ()
  end.

(** What a store with snapshots promises: reads see the last write, snapshots the state
    that was saved last. *)
Record SnapshotSpec := mkSpec { sp_working : gmap string bytes; sp_saved : gmap string bytes }.
Definition spec_event (sp : SnapshotSpec) (e : MEvent) : SnapshotSpec :=
  match e with
  | MWrite op => mkSpec (write_op (sp_working sp) op) (sp_saved sp)
  | MSave => mkSpec (sp_working sp) (sp_working sp)
  end.

Record refines s (sp : SnapshotSpec) : Prop := {
  rf_version : 0 <= t_Version (tree (mr_store s));
  rf_tree k : t_Get (tree (mr_store s)) k = sp_working sp !! k;
  rf_batch k : k ≠ valueDBVersionKey → write_batch (valueBatch s) (valueDB s) !! k = sp_working sp !! k;
  rf_db k : k ≠ valueDBVersionKey → valueDB s !! k = sp_saved sp !! k;
  rf_last k : i_Get (lastSavedTree s) k = sp_saved sp !! k;
}.

Lemma write_batch_snoc b op d : write_batch (b ++ [op]) d = write_op (write_batch b d) op.
Proof. unfold write_batch. by rewrite foldl_app. Qed.

Lemma write_op_lookup op (d : gmap string bytes) k : write_op d op !! k = op_effect op k (d !! k).
Proof.
  destruct op; cbn; case_decide; subst; [apply lookup_insert_eq | by apply lookup_insert_ne | apply lookup_delete_eq | by apply lookup_delete_ne].
Qed.

Lemma write_refines s sp op :
  refines s sp → refines (match op with OpSet k v => MultiReader_Set k v s | OpDelete k => MultiReader_Delete k s end) (spec_event sp (MWrite op)).
Proof.
  intros [R1 R2 R3 R4 R5].
  assert (∀ k, op_effect op k (t_Get (tree (mr_store s)) k) = write_op (sp_working sp) op !! k) as Ht by (intros k; by rewrite write_op_lookup, R2).
  assert (∀ k, k ≠ valueDBVersionKey → write_batch (valueBatch s ++ [op]) (valueDB s) !! k = write_op (sp_working sp) op !! k) as Hb
    by (intros k Hk; by rewrite write_batch_snoc, !write_op_lookup, R3).
  destruct op; constructor; simpl; try done; rewrite ?t_Version_Set, ?t_Version_Remove; try done; intros k; rewrite <- Ht; simpl;
    [apply t_Get_Set | apply t_Get_Remove].
Qed.

Lemma save_refines s sp x s' : refines s sp → MultiReader_SaveVersion s = (Ok x, s') → refines s' (spec_event sp MSave).
Proof.
  intros [R1 R2 R3 R4 R5] Hs. unfold MultiReader_SaveVersion in Hs. apply bind_inv in Hs as ([h n] & s1 & Hz & Hs).
  unfold zoom, IAVLStore_SaveVersion in Hz. destruct (t_SaveVersion _) as [[[h' n'] t]|?|] eqn:Ht; [|done..].
  injection Hz as -> -> <-. destruct (t_Save _ _ _ _ Ht) as (-> & Hv & Hg & _ & (i & Hi & Hig)).
  apply bind_inv in Hs as ([] & s2 & [= <-] & Hs). apply bind_inv in Hs as ([] & s3 & Hset & Hs). apply ret_inv in Hs as [_ ->].
  unfold setLastSavedTreeToVersion, tree_of_version in Hset. simpl in Hset.
  rewrite (proj2 (Z.eqb_neq _ 0)) in Hset by lia. rewrite Hi in Hset. injection Hset as <-.
  assert (∀ k, k ≠ valueDBVersionKey → write_batch (valueBatch s ++ [OpSet valueDBVersionKey (be_encode 8 (u64 (t_Version (tree (mr_store s)) + 1)))]) (valueDB s) !! k
    = sp_working sp !! k) as Hb.
  { intros k Hk. rewrite write_batch_snoc, write_op_lookup. cbn. rewrite decide_False by done. by apply R3. }
  constructor; simpl; try done.
  - lia.
  - intros k. by rewrite Hg.
  - intros k. by rewrite Hig.
Qed.

Lemma events_refine events s s' sp :
  refines s sp → forM events m_event s = (Ok (), s') → refines s' (foldl spec_event sp events).
Proof.
  revert s sp. induction events as [|e events IH]; intros s sp Hr Hrun; [by apply ret_inv in Hrun as [_ ->]|].
  cbn in Hrun. apply bind_inv in Hrun as ([] & s1 & H1 & Hrun). apply (IH s1); [|done].
  destruct e as [[ky v|ky]|].
  - injection H1 as <-. by apply (write_refines s sp (OpSet ky v)).
  - injection H1 as <-. by apply (write_refines s sp (OpDelete ky)).
  - apply bind_inv in H1 as (x & s2 & Hsv & H1). apply ret_inv in H1 as [_ ->]. by eapply save_refines.
Qed.

Definition fresh_multi s : Prop :=
  t_Version (tree (mr_store s)) = 0 ∧ (∀ k, t_Get (tree (mr_store s)) k = None) ∧ valueDB s = ∅ ∧ valueBatch s = [] ∧
  lastSavedTree s = t_Empty.

(** A new store with a database for readers behaves as a map with snapshots, if its tree
    gives back the values that were set: reads see the last write, and every snapshot, of any
    kind, holds the state that was saved last, whatever was written since (apart from the key
    that holds the version). *)
Theorem snapshots_hold_last_saved_state s s' events sn k :
  fresh_multi s → forM events m_event s = (Ok (), s') → MultiReader_GetSnapshot s' = Ok sn → k ≠ valueDBVersionKey →
  let sp := foldl spec_event (mkSpec ∅ ∅) events in
  MultiReader_Get s' k = sp_working sp !! k ∧ Snapshot_Get sn k = sp_saved sp !! k.
Proof.
  intros (Hv & Hg & Hd & Hbt & Hl) Hrun Hsn Hk sp.
  assert (refines s (mkSpec ∅ ∅)) as Hr.
  { constructor; rewrite ?Hv, ?Hd, ?Hbt, ?Hl; try done; intros k'; rewrite ?Hg, ?i_Get_Empty; done. }
  destruct (events_refine events s s' (mkSpec ∅ ∅) Hr Hrun) as [_ R2 _ R4 R5]. split; [apply R2|].
  unfold MultiReader_GetSnapshot in Hsn.
  destruct (snapshotVersion s' =? 1); [injection Hsn as <-; by apply R4|].
  destruct (snapshotVersion s' =? 2); [injection Hsn as <-; by apply R5|].
  destruct (snapshotVersion s' =? 3); [injection Hsn as <-; by apply R5 | done].
Qed.

(** A crash between saving the tree and writing the batch is found at the next start,
    except after the first version. *)
Theorem crash_is_detected (t : MutableTree) (db : gmap string bytes) ndb sv mv ver :
  db !! valueDBVersionKey = Some (be_encode 8 ver) → 0 < ver < 2 ^ 63 - 1 → t_Version t = ver + 1 →
  NewMultiReaderIAVLStore (λ _, Ok t) db ndb sv mv =
    Err (ErrMsg (if (ndb =? 1) || (ndb =? 2) then "nodeDB is out of sync with valueDB" else "invalid AppStore.NodeDBVersion")).
Proof.
  intros Hdb Hver Ht. unfold NewMultiReaderIAVLStore. destruct ((ndb =? 1) || (ndb =? 2)); [|done]. cbn [negb]. unfold mbind, Res_bind. rewrite Hdb.
  pose proof (be_encode_length 8 ver) as Hlen. rewrite Hlen. change (8 <? 8)%nat with false. cbv iota.
  assert (String.substring 0 8 (be_encode 8 ver) = be_encode 8 ver) as ->.
  { pose proof (substring_all (be_encode 8 ver)) as H. by rewrite Hlen in H. }
  rewrite be_roundtrip by lia. rewrite (proj2 (Z.ltb_lt 0 ver)) by lia. rewrite Ht, u64_small by lia.
  by rewrite (proj2 (Z.eqb_neq (ver + 1) ver)) by lia.
Qed.
End Multi.

(** ** Reads through the cache *)

Section CacheReads.
Context {BC : BigCache} {BS : BigCacheSpec} {S : Type} {KV : KVStore S} {KVS : KVStoreSpec S}.
Implicit Types c : CachingStore S.

(** What is cached is what is stored. *)
Definition coherent c : Prop := kv_ok (cs_source c) ∧ ∀ k v, bc_Get (cs_cache c) k = Some v → kv_Get (cs_source c) k = Some v.

(** A read by the reader's methods returns what the store holds and keeps it so. *)
Lemma read_get c k : coherent c → wp (ReadOnly_Get k) (λ r c', r = Ok (kv_Get (cs_source c) k) ∧ coherent c' ∧ cs_source c' = cs_source c) c.
Proof.
  intros (Hok & Hc). unfold ReadOnly_Get. apply wp_bind, wp_gets. destruct (bc_Get (cs_cache c) k) as [d|] eqn:Hhit.
  { apply wp_ret. by rewrite (Hc _ _ Hhit). }
  apply wp_bind, wp_gets. destruct (kv_Get (cs_source c) k) as [d|] eqn:Hg; [|by apply wp_ret].
  apply wp_bind, wp_modify, wp_ret. split_and!; [done | | done]. split; [done|]. intros k' v Hv. simpl in *.
  apply bc_Get_Set in Hv. destruct (decide (k' = k)) as [->|]; [by subst | by apply Hc].
Qed.

Lemma read_has c k : coherent c → wp (ReadOnly_Has k) (λ r c', r = Ok (kv_Has (cs_source c) k) ∧ coherent c' ∧ cs_source c' = cs_source c) c.
Proof.
  intros (Hok & Hc). unfold ReadOnly_Has. rewrite kv_Has_Get by done. apply wp_bind, wp_gets. destruct (bc_Get (cs_cache c) k) as [d|] eqn:Hhit.
  { apply wp_ret. by rewrite (Hc _ _ Hhit). }
  apply wp_bind, wp_gets. destruct (kv_Get (cs_source c) k) as [d|] eqn:Hg; [|by apply wp_ret].
  apply wp_bind, wp_modify, wp_ret. split_and!; [done | | done]. split; [done|]. intros k' v Hv. simpl in *.
  apply bc_Get_Set in Hv. destruct (decide (k' = k)) as [->|]; [by subst | by apply Hc].
Qed.

(** Writes, reads and evictions, one after the other. *)
Inductive cache_event c : CachingStore S → Prop :=
  | ce_write op : cache_event c (run_op c op)
  | ce_get k r c' : ReadOnly_Get k c = (r, c') → cache_event c c'
  | ce_has k r c' : ReadOnly_Has k c = (r, c') → cache_event c c'
  | ce_evict cache' : (∀ k v, bc_Get cache' k = Some v → bc_Get (cs_cache c) k = Some v) → cache_event c (mkCachingStore (cs_source c) cache').

Lemma cache_event_coherent c c' : coherent c → cache_event c c' → coherent c'.
Proof.
  intros Hc [op|k r c1 Hr|k r c1 Hr|cache' He].
  - destruct Hc as (Hok & Hc). destruct op as [k v|k]; cbn.
    + split; [by apply kv_Set_ok|]. intros k' x Hx. simpl in *. rewrite kv_Get_Set by done. apply bc_Get_Set in Hx.
      destruct (decide (k' = k)); [by subst | by apply Hc].
    + split; [by apply kv_Delete_ok|]. intros k' x Hx. simpl in *. rewrite kv_Get_Delete by done. apply bc_Get_Delete in Hx as [Hne Hx].
      rewrite decide_False by done. by apply Hc.
  - pose proof (read_get c k Hc) as H. unfold wp in H. rewrite Hr in H. by destruct H as (_ & ? & _).
  - pose proof (read_has c k Hc) as H. unfold wp in H. rewrite Hr in H. by destruct H as (_ & ? & _).
  - destruct Hc as (Hok & Hc). split; [done|]. intros k v Hv. apply Hc. by apply He.
Qed.

(** After any sequence of writes, reads and evictions on a store whose cache was
    empty, a read through the cache returns what the store holds. *)
Theorem cached_reads_are_reads c0 c k :
  kv_ok (cs_source c0) → (∀ k, bc_Get (cs_cache c0) k = None) → rtc cache_event c0 c →
  (ReadOnly_Get k c).1 = Ok (kv_Get (cs_source c) k) ∧ (ReadOnly_Has k c).1 = Ok (kv_Has (cs_source c) k).
Proof.
  intros Hok He Hsteps. assert (coherent c0) as H0 by (split; [done|]; intros k' v; by rewrite He).
  assert (coherent c) as Hc by (clear He Hok; induction Hsteps; [done|]; eauto using cache_event_coherent).
  split; [apply (read_get c k Hc) | apply (read_has c k Hc)].
Qed.

(** A reader that misses and reads the old value, then a write, then the reader fills
    the cache: until the entry is evicted, readers get the old value. *)
Theorem racing_read_serves_old_value c k old new :
  (∀ k v cache, bc_Get (bc_Set k v cache) k = Some v) → coherent c →
  bc_Get (cs_cache c) k = None → kv_Get (cs_source c) k = Some old →
  let c' := fill k old (CachingStore_Set k new c) in
  (ReadOnly_Get k c').1 = Ok (Some old) ∧ kv_Get (cs_source c') k = Some new.
Proof.
  intros Hkeep (Hok & _) Hmiss Hold c'. split.
  - unfold ReadOnly_Get. unfold_m. unfold c'. simpl. by rewrite Hkeep.
  - simpl. rewrite kv_Get_Set by done. by rewrite decide_True.
Qed.
End CacheReads.

(** ** The log changes nothing *)

Section LogTransparent.
Context {S : Type} {KV : KVStore S} {VKV : VersionedKVStore S}.

(** A method of the log store has the result and the effect of the method below. *)
Definition transparent {A} (m : M (LogStore S) A) (m' : M S A) : Prop :=
  ∀ s, (m s).1 = (m' (ls_store s)).1 ∧ ls_store (m s).2 = (m' (ls_store s)).2.

Theorem log_store_is_transparent key val prefix :
  transparent (LogStore_Set key val) (modify (kv_Set key val)) ∧ transparent (LogStore_Delete key) (modify (kv_Delete key)) ∧
  transparent (LogStore_Get key) (gets (λ s, kv_Get s key)) ∧ transparent (LogStore_Has key) (gets (λ s, kv_Has s key)) ∧
  transparent (LogStore_Range prefix) (r ← gets (λ s, kv_Range s prefix); lift_res r) ∧
  transparent LogStore_Hash (gets vkv_Hash) ∧ transparent LogStore_Version (gets vkv_Version) ∧
  transparent LogStore_SaveVersion vkv_SaveVersion ∧ transparent LogStore_Prune vkv_Prune.
Proof.
  split_and!; intros [st lines params].
  - unfold LogStore_Set, println, below. m_eval. simpl. by repeat (case_match; simpl).
  - unfold LogStore_Delete, println, below. m_eval. simpl. by repeat (case_match; simpl).
  - unfold LogStore_Get, println, below. m_eval. simpl. by repeat (case_match; simpl).
  - unfold LogStore_Has, println, below. m_eval. simpl. by repeat (case_match; simpl).
  - unfold LogStore_Range, println. m_eval. simpl. destruct (kv_Range st prefix); simpl; [by case_match | done..].
  - unfold LogStore_Hash, println. m_eval. simpl. by case_match.
  - unfold LogStore_Version, println. m_eval. simpl. by case_match.
  - unfold LogStore_SaveVersion, println, below, zoom. simpl. destruct (vkv_SaveVersion st) as [[r|?|] st']; simpl; [by case_match..|done].
  - unfold LogStore_Prune, below, zoom. simpl. by destruct (vkv_Prune st).
Qed.
End LogTransparent.
