(* ===== verification/BlockStores.v ===== *)
(** * Access to blocks and its caches (src/store/block_store.go, block_store_lru_cache.go,
      block_store_2q_cache.go)

    [BlockStore] is the interface of the same name; the engine's store of blocks is
    behind it ([TendermintBlockStore], with the calls of the engine as an argument),
    possibly under a cache of the library golang-lru, of which [LruCache] has what is
    used.  The LRU and the 2Q cache are used by the same code.

    The chain grows while the caches are in use: [chain] is what the store reads. *)

From stdpp Require Import pretty.
From S2P Require Import Prelude Contract.

(** ** The answers of the engine *)

Record Header := mkHeader { Height : Z; LastBlockID : bytes; Time : Z; ProposerAddress : bytes }.
Record BlockMeta := mkBlockMeta { BlockID : bytes; bm_Header : Header }.
(** [ResultBlock]: the metadata and the header of the block. *)
Record ResultBlock := mkResultBlock { rb_BlockMeta : BlockMeta; rb_Block : Header }.
Record ResultBlockchainInfo := mkInfo { LastHeight : Z; BlockMetas : list BlockMeta }.
Record ResultBlockResults := mkResults { rr_Height : Z; rr_DeliverTx : list bytes }.

Definition zeroHeader : Header := mkHeader 0 "" 0 "".

Class BlockStore (chain : Type) := {
  GetBlockByHeight : chain → option Z → Res ResultBlock;
  GetBlockRangeByHeight : chain → Z → Z → Res ResultBlockchainInfo;
  GetBlockResults : chain → option Z → Res ResultBlockResults;
}.

(** ** Heights *)

Definition getHeight (currentHeight : Z) (heightPtr : option Z) : Res Z :=
  match heightPtr with
  | Some height =>
      if height <=? 0 then Err (ErrMsg "Height must be greater than 0")
      else if currentHeight <? height then Err (ErrMsg "Height must be less than or equal to the current blockchain height")
      else Ok height
  | None => Ok currentHeight
  end.

Definition filterMinMax (height min max limit : Z) : Res (Z * Z) :=
  if (min <? 0) || (max <? 0) then Err (ErrMsg "heights must be non-negative")
  else
    let min := if min =? 0 then 1 else min in
    let max := if max =? 0 then height else max in
    let max := Z.min height max in
    let min := Z.max min (i64 (max - limit + 1)) in
    if max <? min then Err (ErrMsg "min height can't be greater than max height") else Ok (min, max).

Definition filterMinMaxforCache (min max : Z) : Res (Z * Z) :=
  if (min <? 0) || (max <? 0) then Err (ErrMsg "heights must be non-negative")
  else
    let min := if min =? 0 then 1 else min in
    if max <? min then Err (ErrMsg "min height can't be greater than max height") else Ok (min, max).

(** ** The store of the engine, of whose answers a part is passed on *)

Section Tendermint.
Context {chain : Type}.
(** [core.Block], [core.BlockchainInfo] and [core.BlockResults] *)
Context (core : BlockStore chain).

Definition Tendermint_GetBlockByHeight (ch : chain) (height : option Z) : Res ResultBlock :=
  blockResult ← GetBlockByHeight ch height;
  let b := rb_Block blockResult in
  Ok (mkResultBlock (mkBlockMeta (BlockID (rb_BlockMeta blockResult)) zeroHeader)
        (mkHeader 0 (LastBlockID b) (Time b) (ProposerAddress b))).

Definition Tendermint_GetBlockRangeByHeight (ch : chain) (minHeight maxHeight : Z) : Res ResultBlockchainInfo :=
  blockResult ← GetBlockRangeByHeight ch minHeight maxHeight;
  Ok (mkInfo 0 (BlockMetas blockResult)).

Definition Tendermint_GetBlockResults (ch : chain) (height : option Z) : Res ResultBlockResults :=
  blockResult ← GetBlockResults ch height;
  Ok (mkResults 0 (rr_DeliverTx blockResult)).

Definition TendermintBlockStore : BlockStore chain := {|
  GetBlockByHeight := Tendermint_GetBlockByHeight;
  GetBlockRangeByHeight := Tendermint_GetBlockRangeByHeight;
  GetBlockResults := Tendermint_GetBlockResults;
|}.
End Tendermint.

(** ** Caches *)

(** Blocks are cached under their height, the rest under strings. *)
Inductive CacheKey := KHeight (h : Z) | KString (s : string).
Inductive CacheValue := VBlock (b : ResultBlock) | VMeta (m : BlockMeta) | VResults (r : ResultBlockResults).

#[global] Instance CacheKey_eq_dec : EqDecision CacheKey.
Proof. solve_decision. Defined.

(** A lookup may change the order of the entries. *)
Class LruCache := {
  lru_Cache : Type;
  lru_Get : CacheKey → lru_Cache → option CacheValue * lru_Cache;
  lru_Add : CacheKey → CacheValue → lru_Cache → lru_Cache;
}.

(** Entries are dropped but not changed. *)
Class LruCacheSpec `{LruCache} : Prop := {
  lru_Get_Get k k' c x : (lru_Get k' (lru_Get k c).2).1 = Some x → (lru_Get k' c).1 = Some x;
  lru_Get_Add k v c k' x : (lru_Get k' (lru_Add k v c)).1 = Some x → if decide (k' = k) then x = v else (lru_Get k' c).1 = Some x;
}.

Definition blockMetaKey (height : Z) : string := "M" +:+ pretty height.
Definition blockResultKey (height : Z) : string := "R" +:+ pretty height.

Section Cached.
Context {chain : Type} {LC : LruCache}.
(** The store below the cache. *)
Context (CachedBlockStore : BlockStore chain).

Definition look (k : CacheKey) : M lru_Cache (option CacheValue) := λ c, (Ok (lru_Get k c).1, (lru_Get k c).2).

Definition LRU_GetBlockByHeight (ch : chain) (height : option Z) : M lru_Cache ResultBlock :=
  let h := default 0 height in
  cacheData ← look (KHeight h);
  match cacheData with
  | Some (VBlock blockinfo) => mret blockinfo
  | Some _ => panic
  | None =>
      blockinfo ← lift_res (GetBlockByHeight ch height);
      modify (lru_Add (KHeight (Height (rb_Block blockinfo))) (VBlock blockinfo));;
      mret blockinfo
  end.

(** The heights from [i] on, [n] of them; an error of the store below ends the loop. *)
Fixpoint cached_metas (ch : chain) (i : Z) (n : nat) : M lru_Cache (list BlockMeta) :=
  match n with
  | O => mret []
  | S n =>
      cacheData ← look (KString (blockMetaKey i));
      match cacheData with
      | Some (VMeta blockMeta) => l ← cached_metas ch (i + 1) n; mret (blockMeta :: l)
      | Some _ => panic
      | None =>
          match GetBlockRangeByHeight ch i i with
          | Panic => panic
          | Err _ => mret []
          | Ok blockRange =>
              first ← deref (head (BlockMetas blockRange));
              let height := Height (bm_Header first) in
              let blockMeta := mkBlockMeta (BlockID first) (mkHeader height "" 0 "") in
              modify (lru_Add (KString (blockMetaKey height)) (VMeta blockMeta));;
              l ← cached_metas ch (i + 1) n;
              mret (blockMeta :: l)
          end
      end
  end.

Definition LRU_GetBlockRangeByHeight (ch : chain) (minHeight maxHeight : Z) : M lru_Cache ResultBlockchainInfo :=
  '(minHeight, maxHeight) ← lift_res (filterMinMaxforCache minHeight maxHeight);
  let minHeight := if 20 <? i64 (maxHeight - minHeight) then i64 (maxHeight - 20 + 1) else minHeight in
  l ← cached_metas ch minHeight (Z.to_nat (maxHeight - minHeight + 1));
  mret (mkInfo 0 l).

Definition LRU_GetBlockResults (ch : chain) (height : option Z) : M lru_Cache ResultBlockResults :=
  let h := default 0 height in
  cacheData ← look (KString (blockResultKey h));
  match cacheData with
  | Some (VResults blockinfo) => mret blockinfo
  | Some _ => panic
  | None =>
      blockinfo ← lift_res (GetBlockResults ch height);
      modify (lru_Add (KString (blockResultKey (rr_Height blockinfo))) (VResults blockinfo));;
      mret blockinfo
  end.

(** [TwoQueueBlockStoreCache] repeats these methods with the 2Q cache of the library. *)
Definition TwoQueue_GetBlockByHeight := LRU_GetBlockByHeight.
Definition TwoQueue_GetBlockRangeByHeight := LRU_GetBlockRangeByHeight.
Definition TwoQueue_GetBlockResults := LRU_GetBlockResults.
End Cached.

(** The kinds of store that the configuration can name. *)
Inductive BlockStoreKind := NoCache | LRU | TwoQueue.

(** [strings.EqualFold] on ASCII is equality of the lower-case strings [fold];
    [new_cache] is whether the library makes a cache of the size. *)
Definition NewBlockStore (fold : string → string) (new_cache : Z → bool) (CacheAlgorithm : string) (CacheSize : Z) : Res BlockStoreKind :=
  let made kind := if new_cache CacheSize then Ok kind else Err (ErrMsg "failed to create block store cache") in
  if String.eqb (fold CacheAlgorithm) (fold "LRU") then made LRU
  else if String.eqb (fold CacheAlgorithm) (fold "2Q") then made TwoQueue
  else if negb (String.eqb (fold CacheAlgorithm) (fold "None")) then Err (ErrMsg "Invalid value for BlockStore.CacheAlgorithm config setting")
  else Ok NoCache.
