(* ===== verification/BlockStoreTheorems.v ===== *)
(** * Caches of blocks: theorems

    Over a store whose answers name their heights, a cached store answers as the store
    below.  The engine's store leaves the heights out, and the caches over it keep one
    block as the latest for ever. *)

From stdpp Require Import pretty.
From S2P Require Import Prelude Contract BlockStores.

(** What the caches need of the store below: blocks are final, and answers name their
    heights. *)
Class FinalBlocks {chain : Type} (grows : chain → chain → Prop) (bs : BlockStore chain) : Prop := {
  fb_grows : PreOrder grows;
  fb_block ch ch' h b : grows ch ch' → GetBlockByHeight ch (Some h) = Ok b → GetBlockByHeight ch' (Some h) = Ok b;
  fb_block_height ch o b : GetBlockByHeight ch o = Ok b →
    0 < Height (rb_Block b) ∧ (∀ h, o = Some h → Height (rb_Block b) = h) ∧ GetBlockByHeight ch (Some (Height (rb_Block b))) = Ok b;
  fb_results ch ch' h r : grows ch ch' → GetBlockResults ch (Some h) = Ok r → GetBlockResults ch' (Some h) = Ok r;
  fb_results_height ch o r : GetBlockResults ch o = Ok r →
    0 < rr_Height r ∧ (∀ h, o = Some h → rr_Height r = h) ∧ GetBlockResults ch (Some (rr_Height r)) = Ok r;
  fb_range ch ch' h r : 0 < h → grows ch ch' → GetBlockRangeByHeight ch h h = Ok r → GetBlockRangeByHeight ch' h h = Ok r;
  fb_range_height ch h r : 0 < h → GetBlockRangeByHeight ch h h = Ok r → ∃ m l, BlockMetas r = m :: l ∧ Height (bm_Header m) = h;
}.

Lemma meta_key_inj h h' : blockMetaKey h = blockMetaKey h' → h = h'.
Proof. intros H. by apply (inj pretty), (inj (String.app "M")). Qed.
Lemma result_key_inj h h' : blockResultKey h = blockResultKey h' → h = h'.
Proof. intros H. by apply (inj pretty), (inj (String.app "R")). Qed.

Section Cached.
Context {chain : Type} {LC : LruCache} {LS : LruCacheSpec} (grows : chain → chain → Prop) (bs : BlockStore chain) {FB : FinalBlocks grows bs}.
Implicit Types (ch : chain) (c : lru_Cache).

(** The part of the metadata that a cached range keeps. *)
Definition short_meta (m : BlockMeta) : BlockMeta := mkBlockMeta (BlockID m) (mkHeader (Height (bm_Header m)) "" 0 "").

Definition valid_entry ch (k : CacheKey) (x : CacheValue) : Prop :=
  match k, x with
  | KHeight h, VBlock b => 0 < h ∧ GetBlockByHeight ch (Some h) = Ok b
  | KString s, VMeta m => ∃ h r m0, s = blockMetaKey h ∧ 0 < h ∧ GetBlockRangeByHeight ch h h = Ok r ∧ head (BlockMetas r) = Some m0 ∧ m = short_meta m0
  | KString s, VResults r => ∃ h, s = blockResultKey h ∧ 0 < h ∧ GetBlockResults ch (Some h) = Ok r
  | _, _ => False
  end.

Definition cache_valid ch c : Prop := ∀ k x, (lru_Get k c).1 = Some x → valid_entry ch k x.

Lemma valid_grows ch ch' c : grows ch ch' → cache_valid ch c → cache_valid ch' c.
Proof.
  intros Hg Hc k x Hx. specialize (Hc k x Hx). destruct k, x; try done; simpl in *.
  - destruct Hc as [? ?]. split; [done|]. by eapply fb_block.
  - destruct Hc as (h & r & m0 & ? & ? & Hr & ?). exists h, r, m0. split_and!; try done; [|tauto..]. by eapply fb_range.
  - destruct Hc as (h & ? & ? & Hr). exists h. split_and!; try done. by eapply fb_results.
Qed.

Lemma valid_look ch c k : cache_valid ch c → cache_valid ch (lru_Get k c).2.
Proof. intros Hc k' x Hx. apply Hc. by apply lru_Get_Get in Hx. Qed.

Lemma valid_add ch c k x : cache_valid ch c → valid_entry ch k x → cache_valid ch (lru_Add k x c).
Proof. intros Hc Hx k' x' Hx'. apply lru_Get_Add in Hx'. case_decide; [by subst | by apply Hc]. Qed.

(** *** Blocks *)
Lemma cached_block ch c o :
  cache_valid ch c → (∀ h, o = Some h → h ≠ 0) →
  wp (LRU_GetBlockByHeight bs ch o) (λ r c', r = GetBlockByHeight ch o ∧ cache_valid ch c') c.
Proof.
  intros Hc Ho. unfold LRU_GetBlockByHeight. apply wp_bind. unfold wp at 1, look. simpl.
  pose proof (valid_look ch c (KHeight (default 0 o)) Hc) as Hc'. destruct (lru_Get (KHeight (default 0 o)) c).1 as [x|] eqn:Hx.
  - specialize (Hc _ _ Hx). destruct x as [b|m|r]; [|done..]. apply wp_ret. simpl in Hc. destruct Hc as [Hpos Hb].
    split; [|done]. destruct o as [h|]; [done | simpl in Hpos; lia].
  - apply wp_bind, wp_lift_res. destruct (GetBlockByHeight ch o) as [b|?|] eqn:Hb; [|done..].
    destruct (fb_block_height _ _ _ Hb) as (Hpos & _ & Hself). apply wp_bind, wp_modify, wp_ret. split; [done|].
    by apply valid_add.
Qed.

Lemma cached_results ch c o :
  cache_valid ch c → wp (LRU_GetBlockResults bs ch o) (λ r c', r = GetBlockResults ch o ∧ cache_valid ch c') c.
Proof.
  intros Hc. unfold LRU_GetBlockResults. apply wp_bind. unfold wp at 1, look. simpl.
  set (k := KString (blockResultKey (default 0 o))). pose proof (valid_look ch c k Hc) as Hc'. destruct (lru_Get k c).1 as [x|] eqn:Hx.
  - specialize (Hc _ _ Hx). destruct x as [b|m|r]; [done| |].
    { destruct Hc as (h & ? & ? & Heq & _). by inversion Heq. }
    apply wp_ret. destruct Hc as (h & Heq & Hpos & Hr). apply result_key_inj in Heq. split; [|done].
    destruct o as [h'|]; simpl in Heq; [by subst | lia].
  - apply wp_bind, wp_lift_res. destruct (GetBlockResults ch o) as [b|?|] eqn:Hb; [|done..].
    destruct (fb_results_height _ _ _ Hb) as (Hpos & _ & Hself). apply wp_bind, wp_modify, wp_ret. split; [done|].
    apply valid_add; [done|]. exists (rr_Height b). done.
Qed.

(** *** Ranges *)

(** The metadata of the heights from [i] on, up to the first that the store does not have. *)
Fixpoint metas_below ch (i : Z) (n : nat) : list BlockMeta :=
  match n with
  | O => []
  | S n => match GetBlockRangeByHeight ch i i with
           | Ok r => match head (BlockMetas r) with Some m => short_meta m :: metas_below ch (i + 1) n | None => [] end
           | _ => []
           end
  end.

Lemma cached_metas_below ch (n : nat) i c :
  cache_valid ch c → 0 < i → (∀ h, 0 < h → GetBlockRangeByHeight ch h h ≠ Panic) →
  wp (cached_metas bs ch i n) (λ r c', r = Ok (metas_below ch i n) ∧ cache_valid ch c') c.
Proof.
  intros Hc Hi Hnp. revert i c Hc Hi. induction n as [|n IH]; intros i c Hc Hi; [by apply wp_ret|]. cbn [cached_metas metas_below].
  apply wp_bind. unfold wp at 1, look. cbn [fst snd]. set (k := KString (blockMetaKey i)).
  pose proof (valid_look ch c k Hc) as Hc'. destruct (lru_Get k c).1 as [x|] eqn:Hx.
  - specialize (Hc _ _ Hx). destruct x as [b|m|r]; [done| |].
    2: { destruct Hc as (h & Heq & _). by inversion Heq. }
    destruct Hc as (h & r & m0 & Heq & _ & Hr & Hm & ->). apply meta_key_inj in Heq as <-. rewrite Hr, Hm.
    apply wp_bind. eapply wp_mono; [apply IH; [done | lia]|]. intros r' c' (-> & Hv). by apply wp_ret.
  - destruct (GetBlockRangeByHeight ch i i) as [r|e|] eqn:Hr; [|by apply wp_ret | by destruct (Hnp i Hi)].
    destruct (fb_range_height _ _ _ Hi Hr) as (m & l & Hms & Hh). rewrite Hms. apply wp_bind. apply wp_ret. rewrite Hh.
    apply wp_bind, wp_modify, wp_bind.
    assert (mkBlockMeta (BlockID m) (mkHeader i "" 0 "") = short_meta m) as -> by (unfold short_meta; by rewrite Hh).
    eapply wp_mono; [apply IH; [|lia]|].
    + apply valid_add; [done|]. exists i, r, m. rewrite Hms. done.
    + intros r' c' (-> & Hv). by apply wp_ret.
Qed.

(** Calls of a cached store while the chain grows. *)
Inductive bs_step : chain * lru_Cache → chain * lru_Cache → Prop :=
  | bs_grow ch ch' c : grows ch ch' → bs_step (ch, c) (ch', c)
  | bs_block ch c o : (∀ h, o = Some h → h ≠ 0) → bs_step (ch, c) (ch, (LRU_GetBlockByHeight bs ch o c).2)
  | bs_range ch c lo hi : hi < 2 ^ 63 → bs_step (ch, c) (ch, (LRU_GetBlockRangeByHeight bs ch lo hi c).2)
  | bs_results ch c o : bs_step (ch, c) (ch, (LRU_GetBlockResults bs ch o c).2).

Context (Hnp : ∀ ch h, 0 < h → GetBlockRangeByHeight ch h h ≠ Panic).

Lemma wp_run {W A} (m : M W A) Q w : wp m Q w → Q (m w).1 (m w).2.
Proof. unfold wp. by destruct (m w). Qed.

Lemma filter_inv lo hi lo' hi' : filterMinMaxforCache lo hi = Ok (lo', hi') → 0 < lo' <= hi ∧ hi' = hi.
Proof.
  unfold filterMinMaxforCache. destruct (Z.ltb_spec lo 0), (Z.ltb_spec hi 0); try done. cbn [orb]. cbv zeta.
  destruct (Z.eqb_spec lo 0); [destruct (Z.ltb_spec hi 1) | destruct (Z.ltb_spec hi lo)]; try done; intros [= <- <-]; lia.
Qed.

Lemma cached_range ch c lo hi : hi < 2 ^ 63 → cache_valid ch c → wp (LRU_GetBlockRangeByHeight bs ch lo hi) (λ _ c', cache_valid ch c') c.
Proof.
  intros Hhi Hc. unfold LRU_GetBlockRangeByHeight. apply wp_bind, wp_lift_res.
  destruct (filterMinMaxforCache lo hi) as [[lo' hi']|?|] eqn:Hf; [|done..]. apply filter_inv in Hf as (Hlo & ->).
  apply wp_bind. eapply wp_mono; [apply cached_metas_below; [done | | apply Hnp]|].
  { rewrite i64_small by lia. destruct (Z.ltb_spec 20 (hi - lo')); [rewrite i64_small|]; lia. } intros r c' (-> & Hv). by apply wp_ret.
Qed.

Lemma bs_step_valid x y : cache_valid x.1 x.2 → bs_step x y → cache_valid y.1 y.2.
Proof.
  intros Hc Hst. destruct Hst as [ch ch' c Hg|ch c o Ho|ch c lo hi Hhi|ch c o]; simpl in Hc |- *.
  - exact (valid_grows ch ch' c Hg Hc).
  - exact (proj2 (wp_run _ _ _ (cached_block ch c o Hc Ho))).
  - exact (wp_run _ _ _ (cached_range ch c lo hi Hhi Hc)).
  - exact (proj2 (wp_run _ _ _ (cached_results ch c o Hc))).
Qed.

(** Over a store whose answers name their heights, after any calls while the chain
    grows, the cached store answers as the store below. *)
Theorem cached_blocks_are_blocks x ch c o h lo hi :
  cache_valid x.1 x.2 → rtc bs_step x (ch, c) → (∀ h, o = Some h → h ≠ 0) → 0 < lo <= hi → hi - lo <= 20 →
  (LRU_GetBlockByHeight bs ch o c).1 = GetBlockByHeight ch o ∧
  (LRU_GetBlockResults bs ch h c).1 = GetBlockResults ch h ∧
  (LRU_GetBlockRangeByHeight bs ch lo hi c).1 = Ok (mkInfo 0 (metas_below ch lo (Z.to_nat (hi - lo + 1)))).
Proof.
  intros H0 Hsteps Ho Hlo Hhi.
  assert (cache_valid ch c) as Hc.
  { change (cache_valid (ch, c).1 (ch, c).2). induction Hsteps; [done|]. eauto using bs_step_valid. }
  split_and!; [apply (wp_run _ _ _ (cached_block ch c o Hc Ho)) | apply (wp_run _ _ _ (cached_results ch c h Hc))|].
  pose proof (wp_run _ _ _ (cached_metas_below ch (Z.to_nat (hi - lo + 1)) lo c Hc (proj1 Hlo) (Hnp ch))) as [Hm _].
  unfold LRU_GetBlockRangeByHeight, filterMinMaxforCache, mbind, M_bind, lift_res.
  rewrite (proj2 (Z.ltb_ge lo 0)), (proj2 (Z.ltb_ge hi 0)) by lia. cbn [orb]. cbv zeta. rewrite (proj2 (Z.eqb_neq lo 0)) by lia.
  rewrite (proj2 (Z.ltb_ge hi lo)) by lia. rewrite i64_small by lia. rewrite (proj2 (Z.ltb_ge 20 (hi - lo))) by lia.
  destruct (cached_metas _ _ _ _ c) as [r c'] eqn:E. simpl in Hm. by rewrite Hm.
Qed.
End Cached.

(** The engine's store leaves out the height of a block, so that the first block that
    is asked for is cached at the place of the latest one. *)
Theorem first_block_stays_latest {chain : Type} {LC : LruCache} (core : BlockStore chain) ch ch' h b c :
  (∀ k v c, (lru_Get k (lru_Add k v c)).1 = Some v) → (lru_Get (KHeight h) c).1 = None →
  LRU_GetBlockByHeight (TendermintBlockStore core) ch (Some h) c = (Ok b, (LRU_GetBlockByHeight (TendermintBlockStore core) ch (Some h) c).2) →
  (LRU_GetBlockByHeight (TendermintBlockStore core) ch' None (LRU_GetBlockByHeight (TendermintBlockStore core) ch (Some h) c).2).1 = Ok b.
Proof.
  intros Hkeep Hmiss. unfold LRU_GetBlockByHeight at 1 2 4, look, mbind, M_bind. simpl. rewrite Hmiss. unfold lift_res.
  unfold Tendermint_GetBlockByHeight. destruct (GetBlockByHeight ch (Some h)) as [b0|?|]; simpl; [|done..].
  intros [= <-]. unfold LRU_GetBlockByHeight, look, mbind, M_bind. simpl. by rewrite Hkeep.
Qed.
