(* ===== verification/StoreWitnesses.v ===== *)
(** * Stores on a concrete tree and concrete caches

    A tree kept as maps, one for each saved version, and caches that forget nothing,
    with the theorems of AppStoreTheorems.v and BlockStoreTheorems.v applied to short
    runs. *)

From stdpp Require Import pretty.
From S2P Require Import Prelude Contract Store Middleware EventStoreTheorems AppStores AppStoreTheorems BlockStores BlockStoreTheorems.

Module StoreWitness.
Record MapTree := mkMapTree { mt_work : gmap string bytes; mt_version : Z; mt_saved : gmap Z (gmap string bytes) }.

Definition map_range (d : gmap string bytes) (s e : option bytes) : list (bytes * bytes) := db_range d s e.

#[local] Instance map_iavl : IavlLib := {|
  MutableTree := MapTree;
  ImmutableTree := gmap string bytes;
  t_Get t k := mt_work t !! k;
  t_Has t k := bool_decide (is_Some (mt_work t !! k));
  t_Set k v t := mkMapTree (<[k := v]> (mt_work t)) (mt_version t) (mt_saved t);
  t_Remove k t := mkMapTree (delete k (mt_work t)) (mt_version t) (mt_saved t);
  t_GetRange t s e := Some (map_range (mt_work t) s e);
  t_Hash t := "";
  t_Version := mt_version;
  t_SaveVersion t := Ok ("", mt_version t + 1, mkMapTree (mt_work t) (mt_version t + 1) (<[mt_version t + 1 := mt_work t]> (mt_saved t)));
  t_VersionExists t n := bool_decide (is_Some (mt_saved t !! n));
  t_DeleteVersion n t :=
    if n =? mt_version t then Err (ErrMsg "cannot delete latest saved version")
    else Ok (mkMapTree (mt_work t) (mt_version t) (delete n (mt_saved t)));
  t_GetImmutable t n := match mt_saved t !! n with Some m => Ok m | None => Err (ErrMsg "version does not exist") end;
  t_Empty := ∅;
  i_Get i k := i !! k;
  i_Has i k := bool_decide (is_Some (i !! k));
  i_GetRange i s e := Some (map_range i s e);
|}.

Lemma in_rangeb_spec s e k : in_rangeb s e k = true ↔ in_range s e k.
Proof.
  unfold in_rangeb, in_range. rewrite andb_true_iff. destruct s, e; rewrite ?Z.leb_le, ?Z.ltb_lt; naive_solver.
Qed.

#[local] Instance map_iavl_spec : IavlSpec.
Proof.
  split.
  - done.
  - intros t k v k'. cbn. case_decide; subst; [apply lookup_insert_eq | by apply lookup_insert_ne].
  - intros t k k'. cbn. case_decide; subst; [apply lookup_delete_eq | by apply lookup_delete_ne].
  - intros t s e l k v [= <-]. unfold map_range, db_range. rewrite list_elem_of_filter, merge_sort_Permutation, elem_of_map_to_list. cbn.
    rewrite in_rangeb_spec. tauto.
  - done.
  - done.
  - done.
  - done.
  - intros t h n t' [= _ <- <-]. cbn. split_and!; try done.
    + intros m. rewrite !bool_decide_eq_true. destruct (decide (m = mt_version t + 1)) as [->|Hne].
      * rewrite lookup_insert_eq. naive_solver.
      * rewrite lookup_insert_ne by done. naive_solver.
    + exists (mt_work t). by rewrite lookup_insert_eq.
  - intros t n t'. cbn. destruct (n =? mt_version t); [done|]. intros [= <-]. cbn. split_and!; try done. intros m.
    rewrite !bool_decide_eq_true. destruct (decide (m = n)) as [->|Hne].
    + rewrite lookup_delete_eq. split; [by intros [? ?] | tauto].
    + rewrite lookup_delete_ne by done. tauto.
  - done.
Qed.

Definition empty_tree : MapTree := mkMapTree ∅ 0 ∅.

(** ** Pruning: an old database, of which two versions are kept *)
Definition unprefix (k p : bytes) : option bytes := Some (String.substring (String.length p) (String.length k) k).
#[local] Instance pruning_kv : KVStore PruningIAVLStore := pruning_kvstore unprefix.

(** Versions 2, 3 and 5 are there. *)
Definition old_tree : MapTree := mkMapTree ∅ 5 {[2 := ∅; 3 := ∅; 5 := ∅]}.
Definition opened (batch : Z) (t : MapTree) : PruningIAVLStore :=
  match NewPruningIAVLStore (Ok t) 2 batch with Ok s => s | _ => mkPruning (mkIAVLStore t 2) 0 2 batch 0 end.
Definition block_of (v : bytes) (s : PruningIAVLStore) : PruningIAVLStore := (Pruning_SaveVersion (run_op s (OpSet "k" v))).2.
Definition pr6 (batch : Z) : PruningIAVLStore := (prune (block_of "6" (opened batch old_tree))).2.
(** The store is opened again, another version is saved and the thread runs. *)
Definition pr7 (batch : Z) : PruningIAVLStore := (prune (block_of "7" (opened batch (tree (pr_store (pr6 batch)))))).2.

Abbreviation run := (pr_run unprefix 2 2 old_tree).
Lemma of_block_run v s : run s → run (block_of v s).
Proof.
  intros H. eapply run_step; [eapply run_step; [exact H|apply (pr_write unprefix s (OpSet "k" v))]|]. eapply pr_save, surjective_pairing.
Qed.
Lemma prune_run s : run s → run (prune s).2.
Proof. intros H. eapply run_step; [exact H|]. eapply pr_prune, surjective_pairing. Qed.

Lemma pr7_reached : run (pr7 2).
Proof.
  apply prune_run, of_block_run. eapply (run_reopen _ _ _ _ (pr6 2)); [|done|done|done]. apply prune_run, of_block_run, run_open. done.
Qed.

Lemma old_tree_versions n : @t_VersionExists map_iavl old_tree n = true → 1 <= n <= 5.
Proof.
  cbn. unfold old_tree. cbn. rewrite bool_decide_eq_true. intros [x Hx]. apply lookup_insert_Some in Hx as [[<- _]|[_ Hx]]; [lia|].
  apply lookup_insert_Some in Hx as [[<- _]|[_ Hx]]; [lia|]. apply lookup_singleton_Some in Hx as [<- _]. lia.
Qed.

Lemma pruning_witness : saved (pr7 2) 6 = true ∧ saved (pr7 2) 7 = true ∧ (saved (pr7 2) <$> [2; 3; 4; 5]) = [false; false; false; false].
Proof.
  destruct (pruning_keeps_last_versions (IL := map_iavl) unprefix 2 2 old_tree (pr7 2)) as (H & _ & _).
  - split; lia.
  - done.
  - apply old_tree_versions.
  - exact pr7_reached.
  - vm_compute. done.
  - assert (latest (pr7 2) = 7) as Hl by (vm_compute; done). rewrite Hl in H.
    split_and!; [apply H; [lia|right; cbn; lia]|apply H; [lia|right; cbn; lia]|vm_compute; done].
Defined.

(** With a batch size of 1 the oldest version is not searched for: the versions of the old
    database stay. *)
Example small_batches_leave_old_versions : (saved (pr7 1) <$> [2; 3; 4; 5; 6; 7]) = [true; true; false; true; true; true].
Proof. vm_compute. done. Qed.

(** ** Snapshots: a version is saved, then a key is written again *)
Definition fresh : MultiReaderIAVLStore := mkMulti (mkIAVLStore empty_tree 0) ∅ [] ∅ 2.
Definition m_events : list MEvent := [MWrite (OpSet "a" "1"); MWrite (OpSet "b" "2"); MSave; MWrite (OpSet "a" "3"); MWrite (OpDelete "b")].
Definition after_events : MultiReaderIAVLStore := (forM m_events m_event fresh).2.

Lemma snapshots_witness :
  MultiReader_Get after_events "a" = Some "3" ∧ Snapshot_Get (HybridSnapshot (valueDB after_events) (lastSavedTree after_events)) "a" = Some "1".
Proof.
  pose proof (snapshots_hold_last_saved_state fresh after_events m_events
    (HybridSnapshot (valueDB after_events) (lastSavedTree after_events)) "a") as H.
  apply H; [by split_and! | vm_compute; done | done | vm_compute; done].
Defined.

(** ** The cache: a write, a read and an eviction *)
#[local] Instance map_cache : BigCache := {|
  Cache := gmap string bytes; bc_Get c k := c !! k; bc_Set k v c := <[k := v]> c; bc_Delete k c := delete k c;
|}.
#[local] Instance map_cache_spec : BigCacheSpec.
Proof.
  split.
  - intros c k v k' x. cbn. case_decide; subst; [rewrite lookup_insert_eq; congruence | by rewrite lookup_insert_ne].
  - intros c k k' x. cbn. intros H. destruct (decide (k' = k)) as [->|]; [by rewrite lookup_delete_eq in H|]. by rewrite lookup_delete_ne in H.
Qed.

#[local] Instance iavl_kv : KVStore IAVLStore := iavl_kvstore unprefix.
#[local] Instance iavl_kv_spec : KVStoreSpec IAVLStore := iavl_kvstore_spec unprefix.

Definition cold : CachingStore IAVLStore := mkCachingStore (mkIAVLStore empty_tree 0) ∅.
Definition warm : CachingStore IAVLStore := (ReadOnly_Get "a" (mkCachingStore (cs_source (run_op cold (OpSet "a" "1"))) ∅)).2.

Lemma warm_reached : rtc cache_event cold warm.
Proof.
  eapply rtc_l; [apply (ce_write _ (OpSet "a" "1"))|]. eapply rtc_l; [apply (ce_evict _ ∅); by intros k v ?|].
  eapply rtc_once, ce_get, surjective_pairing.
Qed.

Lemma cached_reads_witness : (ReadOnly_Get "a" warm).1 = Ok (Some "1") ∧ (ReadOnly_Has "b" warm).1 = Ok false.
Proof.
  split.
  - destruct (cached_reads_are_reads cold warm "a") as [-> _]; [done | done | exact warm_reached | vm_compute; done].
  - destruct (cached_reads_are_reads cold warm "b") as [_ ->]; [done | done | exact warm_reached | vm_compute; done].
Defined.

(** ** Blocks: fifty blocks, as in the stand-in of the tests, under a cache that forgets
    nothing *)
Definition Mock_GetBlockByHeight (_ : unit) (height : option Z) : Res ResultBlock :=
  h ← getHeight 50 height;
  let header := mkHeader h "" 0 "" in
  Ok (mkResultBlock (mkBlockMeta (pretty h) header) header).

Fixpoint mock_metas (i : Z) (n : nat) : Res (list BlockMeta) :=
  match n with
  | O => Ok []
  | S n => block ← Mock_GetBlockByHeight () (Some i); l ← mock_metas (i + 1) n; Ok (rb_BlockMeta block :: l)
  end.

Definition Mock_GetBlockRangeByHeight (_ : unit) (minHeight maxHeight : Z) : Res ResultBlockchainInfo :=
  let last := maxHeight in
  let maxHeight := if 20 <? i64 (maxHeight - minHeight) then i64 (minHeight + 20) else maxHeight in
  '(min, max) ← filterMinMax 50 minHeight maxHeight 20;
  l ← mock_metas min (Z.to_nat (max - min + 1));
  Ok (mkInfo last l).

Definition Mock_GetBlockResults (_ : unit) (height : option Z) : Res ResultBlockResults :=
  h ← getHeight 50 height;
  if h =? 15 then Err (ErrMsg "Error Simulation") else Ok (mkResults h []).

Definition MockBlockStore : BlockStore unit := {|
  GetBlockByHeight := Mock_GetBlockByHeight;
  GetBlockRangeByHeight := Mock_GetBlockRangeByHeight;
  GetBlockResults := Mock_GetBlockResults;
|}.

#[local] Instance list_cache : LruCache := {|
  lru_Cache := list (CacheKey * CacheValue);
  lru_Get k c := (snd <$> find (λ kv, bool_decide (kv.1 = k)) c, c);
  lru_Add k v c := (k, v) :: c;
|}.
#[local] Instance list_cache_spec : LruCacheSpec.
Proof.
  split; [done|]. intros k v c k' x. cbn. case_bool_decide as H; [subst; rewrite decide_True by done; cbn; congruence|].
  rewrite decide_False by done. done.
Qed.

Lemma mock_height o h : getHeight 50 o = Ok h → 0 < h <= 50 ∧ (∀ h', o = Some h' → h = h').
Proof.
  unfold getHeight. destruct o as [h'|]; [|intros [= <-]; split; [lia | done]].
  destruct (Z.leb_spec h' 0), (Z.ltb_spec 50 h'); try done. intros [= <-]. split; [lia | congruence].
Qed.
Lemma mock_height_self h : 0 < h <= 50 → getHeight 50 (Some h) = Ok h.
Proof. intros H. unfold getHeight. by rewrite (proj2 (Z.leb_gt h 0)), (proj2 (Z.ltb_ge 50 h)) by lia. Qed.

Lemma mock_range_one h :
  0 < h → Mock_GetBlockRangeByHeight () h h =
    if 50 <? h then Err (ErrMsg "min height can't be greater than max height") else Ok (mkInfo h [mkBlockMeta (pretty h) (mkHeader h "" 0 "")]).
Proof.
  intros Hh. unfold Mock_GetBlockRangeByHeight. rewrite Z.sub_diag. change (20 <? i64 0) with false. cbv iota zeta.
  unfold filterMinMax. rewrite (proj2 (Z.ltb_ge h 0)), (proj2 (Z.eqb_neq h 0)) by lia. cbn [orb]. cbv zeta.
  rewrite (i64_small (Z.min 50 h - 20 + 1)) by lia. destruct (Z.ltb_spec 50 h).
  - by rewrite (proj2 (Z.ltb_lt _ _)) by lia.
  - rewrite (proj2 (Z.ltb_ge _ _)) by lia. replace (Z.min 50 h) with h by lia. replace (Z.max h (h - 20 + 1)) with h by lia.
    cbn [mbind Res_bind]. replace (h - h + 1) with 1 by lia. change (Z.to_nat 1) with 1%nat. cbn [mock_metas]. unfold Mock_GetBlockByHeight. by rewrite mock_height_self by lia.
Qed.

#[local] Instance mock_final : FinalBlocks (λ _ _ : unit, True) MockBlockStore.
Proof.
  split.
  - by split.
  - by intros [] [].
  - intros [] o b. change (Mock_GetBlockByHeight () o = Ok b → 0 < Height (rb_Block b) ∧ (∀ h, o = Some h → Height (rb_Block b) = h) ∧
      Mock_GetBlockByHeight () (Some (Height (rb_Block b))) = Ok b).
    unfold Mock_GetBlockByHeight. destruct (getHeight 50 o) as [h|?|] eqn:Hh; [|done..]. intros [= <-].
    destruct (mock_height o h Hh) as [Hb Ho]. cbn [rb_Block Height]. rewrite mock_height_self by lia. split_and!; [lia | naive_solver | done].
  - by intros [] [].
  - intros [] o r. change (Mock_GetBlockResults () o = Ok r → 0 < rr_Height r ∧ (∀ h, o = Some h → rr_Height r = h) ∧
      Mock_GetBlockResults () (Some (rr_Height r)) = Ok r).
    unfold Mock_GetBlockResults. destruct (getHeight 50 o) as [h|?|] eqn:Hh; [|done..]. cbn [mbind Res_bind].
    destruct (h =? 15) eqn:H15; [done|]. intros [= <-].
    destruct (mock_height o h Hh) as [Hb Ho]. cbn [rr_Height]. rewrite mock_height_self by lia. cbn [mbind Res_bind]. rewrite H15.
    split_and!; [lia | naive_solver | done].
  - by intros [] [].
  - intros [] h r Hh. cbn. rewrite mock_range_one by done. destruct (50 <? h); [done|]. intros [= <-]. by eexists _, _.
Qed.

Definition cold_blocks : lru_Cache (LruCache := list_cache) := ([] : list (CacheKey * CacheValue)).
Definition asked : lru_Cache (LruCache := list_cache) := (LRU_GetBlockByHeight MockBlockStore () (Some 7) cold_blocks).2.

Lemma cached_blocks_witness :
  (LRU_GetBlockByHeight MockBlockStore () (Some 7) asked).1 = Mock_GetBlockByHeight () (Some 7) ∧
  (LRU_GetBlockResults MockBlockStore () None asked).1 = Mock_GetBlockResults () None ∧
  (LRU_GetBlockRangeByHeight MockBlockStore () 3 9 asked).1 = Ok (mkInfo 0 (metas_below MockBlockStore () 3 7)).
Proof.
  apply (cached_blocks_are_blocks (λ _ _ : unit, True) MockBlockStore) with (x := ((), cold_blocks)); [|done| |naive_solver lia|lia|lia].
  - intros [] h Hh. cbn. rewrite mock_range_one by done. by destruct (50 <? h).
  - apply rtc_once. by apply (bs_block (λ _ _ : unit, True) MockBlockStore () cold_blocks (Some 7)); naive_solver lia.
Defined.
End StoreWitness.
