(* ===== verification/Outcomes.v ===== *)
(** * Outcomes of methods and lists that are updated in place

    [post m Q w]: whenever [m] succeeds from [w], its result satisfies [Q].  The lemmas on
    [alter_first] follow a write through a pointer into a list. *)

From S2P Require Import Prelude Contract DposTypes DposHandlers.

(** ** What holds after a run that succeeds *)

Definition post {W A} (m : M W A) (Q : A → W → Prop) (w : W) : Prop := ∀ a w', m w = (Ok a, w') → Q a w'.

Section Post.
Context {W : Type}.
Implicit Types w : W.

Lemma post_ret {A} (a : A) (Q : A → W → Prop) w : Q a w → post (mret a) Q w.
Proof. intros H a' w' [= <- <-]. done. Qed.
Lemma post_bind {A B} (m : M W A) (k : A → M W B) (Q : B → W → Prop) w :
  post m (λ a, post (k a) Q) w → post (m ≫= k) Q w.
Proof. intros H b w' Hrun. apply bind_inv in Hrun as (a & w1 & Hm & Hk). by eapply H. Qed.
Lemma post_gets {A} (f : W → A) (Q : A → W → Prop) w : Q (f w) w → post (gets f) Q w.
Proof. intros H a w' [= <- <-]. done. Qed.
Lemma post_modify (f : W → W) (Q : unit → W → Prop) w : Q () (f w) → post (modify f) Q w.
Proof. intros H a w' [= <- <-]. done. Qed.
Lemma post_deref {A} (o : option A) (Q : A → W → Prop) w : (∀ a, o = Some a → Q a w) → post (deref o) Q w.
Proof. intros H a w' Hd. apply deref_inv in Hd as [-> ->]. by apply H. Qed.
Lemma post_lift {A} (r : Res A) (Q : A → W → Prop) w : (∀ a, r = Ok a → Q a w) → post (lift_res r) Q w.
Proof. intros H a w' [= -> <-]. by apply H. Qed.
Lemma post_guard (c : bool) e (Q : unit → W → Prop) w : (c = false → Q () w) → post (guard_not c e) Q w.
Proof. intros H a w'. destruct c; [done|]. intros [= <- <-]. by apply H. Qed.
Lemma post_throw {A} e (Q : A → W → Prop) w : post (throw e) Q w.
Proof. by intros a w' ?. Qed.
Lemma post_mono {A} (m : M W A) (Q Q' : A → W → Prop) w : post m Q w → (∀ a w', Q a w' → Q' a w') → post m Q' w.
Proof. intros H HQ a w' Hrun. by apply HQ, H. Qed.
End Post.

(** One step into a method. *)
Ltac post_step :=
  match goal with
  | |- post (mbind _ _) _ _ => apply post_bind
  | |- post (mret _) _ _ => apply post_ret
  | |- post (throw _) _ _ => apply post_throw
  | |- post (gets _) _ _ => apply post_gets
  | |- post (modify _) _ _ => apply post_modify
  | |- post (deref _) _ _ => apply post_deref; intros ? ?
  | |- post (lift_res _) _ _ => apply post_lift; intros ? ?
  | |- post (guard_not _ _) _ _ => apply post_guard; intros ?
  | |- post (if ?c then _ else _) _ _ => destruct c eqn:?
  | |- post (match ?c with _ => _ end) _ _ => destruct c eqn:?
  end.

(** ** Lists *)

Section Alter.
Context {A : Type} (p : A → bool) (f : A → A).

Lemma alter_first_none l : List.find p l = None → alter_first p f l = l.
Proof. induction l as [|x l IH]; [done|]. cbn. destruct (p x); [done|]. intros H. by rewrite IH. Qed.

Lemma alter_first_sum (g : A → Z) l x : List.find p l = Some x → sumZ g (alter_first p f l) = sumZ g l - g x + g (f x).
Proof.
  unfold sumZ. induction l as [|y l IH]; [done|]. cbn. destruct (p y); [intros [= ->]; cbn; lia|]. intros H. cbn. rewrite IH by done. lia.
Qed.

Lemma alter_first_forall (P : A → Prop) l : (∀ x, List.find p l = Some x → P x → P (f x)) → Forall P l → Forall P (alter_first p f l).
Proof.
  induction l as [|y l IH]; [done|]. cbn. intros Hf [Hy Hl]%Forall_cons. destruct (p y); [constructor; auto|].
  constructor; [done|]. by apply IH.
Qed.

Lemma find_elem l x : List.find p l = Some x → x ∈ l ∧ p x = true.
Proof. intros H. apply List.find_some in H as [H ?]. split; [by apply list_elem_of_In | done]. Qed.
End Alter.

Lemma go_sort_forall {A} (less : A → A → bool) (P : A → Prop) l : Forall P l → Forall P (go_sort less l).
Proof. by rewrite go_sort_permutation. Qed.
Lemma go_sort_sum {A} (less : A → A → bool) (g : A → Z) l : sumZ g (go_sort less l) = sumZ g l.
Proof. apply sumZ_permutation, go_sort_permutation. Qed.
