(* ===== verification/Dpos1.v ===== *)
(** * The first dpos contract (src/builtin/plugins/dpos)

    Voters distribute an allocation of votes over the candidates; an election weighs the
    votes with the coins of the voters and makes the strongest candidates witnesses.

    The store has one field per family of keys.  A Go list holds pointers: a write
    through what [Get] returns is [alter_first] on the list.  The token is any [ERC20],
    with [total_supply] for its total supply. *)

From S2P Require Import Prelude Contract DposTypes DposHandlers.

(** ** Data *)

Record Params1 := mkParams1 {
  p1_CoinContractAddress : option Address;
  p1_WitnessCount : Z;
  p1_VoteAllocation : Z;
  p1_ElectionCycleLength : Z;
  p1_MinPowerFraction : Z;
  p1_WitnessSalary : Z;
}.

Record Candidate1 := mkCandidate1 { c1_PubKey : bytes; c1_Address : Address }.
Record Witness := mkWitness { wi_PubKey : bytes; wi_VoteTotal : Z; wi_PowerTotal : Z }.
Record Vote1 := mkVote1 { vo_VoterAddress : Address; vo_CandidateAddress : Address; vo_Amount : Z }.
Record Voter := mkVoter { vr_Address : Address; vr_Balance : Z }.
Record State1 := mkState1 { s1_Params : Params1; s1_Witnesses : list Witness; s1_LastElectionTime : Z }.

Record FullVote := mkFullVote { fv_CandidateAddress : Address; fv_VoteSize : Z; fv_Power : Z }.
Record VoteResult := mkVoteResult { vt_CandidateAddress : Address; vt_VoteTotal : Z; vt_PowerTotal : Z }.

Record Dpos1Store := mkDpos1Store {
  t_state : option State1;
  t_candidates : option (list Candidate1);
  t_voters : gmap bytes Voter;
  t_votes : gmap bytes (list Vote1);
}.

Definition empty_dpos1_store : Dpos1Store := mkDpos1Store None None ∅ ∅.

Record World1 (L : Type) := mkWorld1 { w1_store : Dpos1Store; w1_ledger : L }.
Arguments mkWorld1 {L}.
Arguments w1_store {L}.
Arguments w1_ledger {L}.

(** ** Storage (storage.go) *)

Section Storage.
Context {LIB : DiademLib}.

(** [Less] of [byPubkey]. *)
Definition lessWitnessKey (x y : Witness) : bool := bytes_compare (wi_PubKey x) (wi_PubKey y) <? 0.
Definition sortWitnesses (witnesses : list Witness) : list Witness := go_sort lessWitnessKey witnesses.

(** [VoteList] *)
Definition vote_of (addr : Address) (v : Vote1) : bool := local_compare (Local addr) (Local (vo_VoterAddress v)) =? 0.
Definition VoteList_Get (vl : list Vote1) (addr : Address) : option Vote1 := List.find (vote_of addr) vl.
(** When the voter is found, the assignment goes to the loop variable. *)
Definition VoteList_Set (vote : Vote1) (vl : list Vote1) : list Vote1 :=
  if existsb (vote_of (vo_VoterAddress vote)) vl then vl else vl ++ [vote].

Definition lessVote (x y : Vote1) : bool :=
  let diff := local_compare (Local (vo_VoterAddress x)) (Local (vo_VoterAddress y)) in
  if diff =? 0 then
    let diff := local_compare (Local (vo_CandidateAddress x)) (Local (vo_CandidateAddress y)) in
    if diff =? 0 then vo_Amount x <? vo_Amount y else diff <? 0
  else diff <? 0.
Definition sortVotes (votes : list Vote1) : list Vote1 := go_sort lessVote votes.

(** [CandidateList] *)
Definition candidate_at (addr : Address) (c : Candidate1) : bool := local_compare (Local (c1_Address c)) (Local addr) =? 0.
Definition Candidates_Get (cl : list Candidate1) (addr : Address) : option Candidate1 := List.find (candidate_at addr) cl.
Definition Candidates_Set (cand : Candidate1) (cl : list Candidate1) : list Candidate1 :=
  if existsb (λ c, local_compare (Local (c1_Address cand)) (Local (c1_Address c)) =? 0) cl then cl else cl ++ [cand].
(** The loop declares a variable [addr] of its own, which hides the parameter. *)
Definition Candidates_Delete (addr : Address) (cl : list Candidate1) : list Candidate1 :=
  filter (λ cand, negb (let candAddr := c1_Address cand in let addr := c1_Address cand in
                        local_compare (Local candAddr) (Local addr) =? 0) = true) cl.

Definition lessCandidate1 (x y : Candidate1) : bool := local_compare (Local (c1_Address x)) (Local (c1_Address y)) <? 0.
Definition sortCandidates1 (cands : list Candidate1) : list Candidate1 := go_sort lessCandidate1 cands.

Definition saveCandidates (cl : list Candidate1) (s : Dpos1Store) : Dpos1Store :=
  mkDpos1Store (t_state s) (Some (sortCandidates1 cl)) (t_voters s) (t_votes s).
Definition loadCandidates (s : Dpos1Store) : list Candidate1 := default [] (t_candidates s).

Definition voterKey (addr : Address) : bytes := prefix_key ["voter"; address_bytes addr].
Definition saveVoter (v : Voter) (s : Dpos1Store) : Dpos1Store :=
  mkDpos1Store (t_state s) (t_candidates s) (<[voterKey (vr_Address v) := v]> (t_voters s)) (t_votes s).
Definition loadVoter (s : Dpos1Store) (addr : Address) (defaultBalance : Z) : Voter :=
  default (mkVoter addr defaultBalance) (t_voters s !! voterKey addr).

Definition voteSetKey (addr : Address) : bytes := prefix_key ["votes"; address_bytes addr].
Definition saveVoteSet (candAddr : Address) (vs : list Vote1) (s : Dpos1Store) : Dpos1Store :=
  mkDpos1Store (t_state s) (t_candidates s) (t_voters s) (<[voteSetKey candAddr := sortVotes vs]> (t_votes s)).
Definition loadVoteSet (s : Dpos1Store) (candAddr : Address) : list Vote1 := default [] (t_votes s !! voteSetKey candAddr).

Definition saveState1 (state : State1) (s : Dpos1Store) : Dpos1Store :=
  mkDpos1Store (Some state) (t_candidates s) (t_voters s) (t_votes s).
Definition loadState1 (s : Dpos1Store) : Res State1 := match t_state s with Some state => Ok state | None => Err ErrNotFound end.
End Storage.

(** ** Elections (election.go) *)

Section Election.
Context {LIB : DiademLib}.

(** [Less] of [byPower]: the difference is one of 64-bit integers. *)
Definition lessPower (x y : VoteResult) : bool :=
  let diff := i64 (i64 (vt_PowerTotal x) - i64 (vt_PowerTotal y)) in
  let diff := if diff =? 0 then address_compare (vt_CandidateAddress x) (vt_CandidateAddress y) else diff in
  diff <? 0.

Definition add_vote (resultSet : gmap string VoteResult) (vote : FullVote) : gmap string VoteResult :=
  let key := address_string (fv_CandidateAddress vote) in
  let res := default (mkVoteResult (fv_CandidateAddress vote) 0 0) (resultSet !! key) in
  <[key := mkVoteResult (vt_CandidateAddress res) (u64 (vt_VoteTotal res + fv_VoteSize vote)) (u64 (vt_PowerTotal res + fv_Power vote))]> resultSet.

(** The results in descending order. *)
Definition runElection (votes : list FullVote) : list VoteResult :=
  let resultSet := foldl add_vote ∅ votes in
  let results := (map_to_list resultSet).*2 in
  go_sort (λ x y, lessPower y x) results.
End Election.

(** ** Methods (dpos.go) *)

Definition decimals : Z := 18.
Definition errCandidateNotRegistered : error := ErrMsg "candidate is not registered".

(** [sciNot(m, n)] *)
Definition sciNot (m n : Z) : Z := 10 ^ n * m.
Definition balanceToPower (n : Z) : Z := u64 (n / sciNot 1 decimals).

(** [time.Unix(a, 0).Sub(time.Unix(b, 0))], a duration in nanoseconds, which saturates. *)
Definition time_sub (a b : Z) : Z := Z.max (- 2 ^ 63) (Z.min (2 ^ 63 - 1) ((a - b) * 10 ^ 9)).

Section Methods.
Context {LIB : DiademLib} {L : Type} {TOKEN : ERC20 L} (total_supply : Address → L → Res Z).
Abbreviation W := (World1 L).

Definition read {A} (f : Dpos1Store → A) : M W A := gets (λ w, f (w1_store w)).
Definition write (f : Dpos1Store → Dpos1Store) : M W unit := modify (λ w, mkWorld1 (f (w1_store w)) (w1_ledger w)).
Definition get_state1 : M W State1 := λ w, (loadState1 (w1_store w), w).

Definition Init1 (ctx : Ctx) (params : option Params1) (validators : list Validator) : M W unit :=
  params ← deref params;
  let allocation := if p1_VoteAllocation params =? 0 then p1_WitnessCount params else p1_VoteAllocation params in
  coin ← match p1_CoinContractAddress params with Some a => mret a | None => ctx_resolve ctx "coin" end;
  let params := mkParams1 (Some coin) (p1_WitnessCount params) allocation (p1_ElectionCycleLength params)
    (p1_MinPowerFraction params) (p1_WitnessSalary params) in
  let witnesses := (λ val, mkWitness (v_PubKey val) 0 0) <$> validators in
  write (saveState1 (mkState1 params (sortWitnesses witnesses) (ctx_now ctx))).

Definition RegisterCandidate1 (ctx : Ctx) (pubKey : bytes) : M W unit :=
  let candAddr := ctx_sender ctx in
  cands ← read loadCandidates;
  guard_not (negb (local_compare (Local candAddr) (local_from_pubkey pubKey) =? 0)) (ErrMsg "public key does not match address");;
  write (saveCandidates (Candidates_Set (mkCandidate1 pubKey candAddr) cands)).

Definition UnregisterCandidate1 (ctx : Ctx) : M W unit :=
  let candAddr := ctx_sender ctx in
  cands ← read loadCandidates;
  match Candidates_Get cands candAddr with
  | None => throw errCandidateNotRegistered
  | Some _ => write (saveCandidates (Candidates_Delete candAddr cands))
  end.

Definition ListCandidates1 (s : Dpos1Store) : list Candidate1 := loadCandidates s.

(** The amount is a signed number: a negative one takes votes back. *)
Definition Vote (ctx : Ctx) (candidateAddress : option Address) (amount : Z) : M W unit :=
  state ← get_state1;
  let voterAddr := ctx_sender ctx in
  voter ← read (λ s, loadVoter s voterAddr (p1_VoteAllocation (s1_Params state)));
  guard_not (i64 (vr_Balance voter) <? amount) (ErrMsg "insufficient votes left");;
  cands ← read loadCandidates;
  candAddr ← deref candidateAddress;
  match Candidates_Get cands candAddr with
  | None => throw errCandidateNotRegistered
  | Some _ =>
      votes ← read (λ s, loadVoteSet s candAddr);
      let vote := default (mkVote1 voterAddr candAddr 0) (VoteList_Get votes voterAddr) in
      guard_not (i64 (i64 (vo_Amount vote) + amount) <? 0) (ErrMsg "total votes for a candidate must be positive");;
      let update v := mkVote1 (vo_VoterAddress v) (vo_CandidateAddress v) (u64 (i64 (i64 (vo_Amount v) + amount))) in
      write (saveVoter (mkVoter (vr_Address voter) (u64 (i64 (i64 (vr_Balance voter) - amount)))));;
      (* the vote that [Get] found is updated in the list *)
      let votes := alter_first (vote_of voterAddr) update votes in
      write (saveVoteSet candAddr (VoteList_Set (update vote) votes))
  end.

Definition ProxyVote (ctx : Ctx) : M W unit := mret ().
Definition UnproxyVote (ctx : Ctx) : M W unit := mret ().

Definition calcVotePower (coinAddr : Address) (voter : Voter) (l : L) : Z := balanceToPower (erc20_balance coinAddr l (vr_Address voter)).

(** The votes for the candidates with their power. *)
Definition full_votes (params : Params1) (coinAddr : Address) (cands : list Candidate1) (w : W) : list FullVote :=
  cands ≫= λ cand,
    (λ vote, let voter := loadVoter (w1_store w) (vo_VoterAddress vote) (p1_VoteAllocation params) in
             mkFullVote (vo_CandidateAddress vote) (vo_Amount vote) (u64 (vo_Amount vote * calcVotePower coinAddr voter (w1_ledger w))))
    <$> loadVoteSet (w1_store w) (c1_Address cand).

(** [results[:witCount]] as witnesses; [make] with a negative length panics. *)
Definition elected_witnesses (witnessCount : Z) (cands : list Candidate1) (results : list VoteResult) : Res (list Witness) :=
  let witCount := i64 witnessCount in
  let witCount := if Z.of_nat (length results) <? witCount then Z.of_nat (length results) else witCount in
  if witCount <? 0 then Panic
  else
    foldr (λ res (acc : Res (list Witness)),
      match Candidates_Get cands (vt_CandidateAddress res) with
      | None => Panic
      | Some cand => wits ← acc; Ok (mkWitness (c1_PubKey cand) (vt_VoteTotal res) (vt_PowerTotal res) :: wits)
      end) (Ok []) (take (Z.to_nat witCount) results).

Definition pay_witness (ctx : Ctx) (coinAddr : Address) (salary : Z) (wit : Witness) : M W unit :=
  let witAddr := mkAddress (ctx_chain ctx) (local_from_pubkey (wi_PubKey wit)) in
  zoom w1_ledger (λ l w, mkWorld1 (w1_store w) l) (erc20_transfer coinAddr (ctx_contract ctx) witAddr salary).

Definition Elect1 (ctx : Ctx) : M W unit :=
  state ← get_state1;
  let params := s1_Params state in
  coinAddr ← deref (p1_CoinContractAddress params);
  let cycleLen := i64 (p1_ElectionCycleLength params * 10 ^ 9) in
  guard_not (time_sub (ctx_now ctx) (s1_LastElectionTime state) <? cycleLen) (ErrMsg "must wait before holding another election");;
  cands ← read loadCandidates;
  fullVotes ← gets (full_votes params coinAddr cands);
  let results := runElection fullVotes in
  let resultsPower := foldl (λ total res, u64 (total + vt_PowerTotal res)) 0 results in
  totalSupply ← (λ w, (total_supply coinAddr (w1_ledger w), w));
  let minPowerReq := if 0 <? p1_MinPowerFraction params then balanceToPower totalSupply / p1_MinPowerFraction params else 0 in
  guard_not (resultsPower <? minPowerReq) (ErrMsg "election did not meet the minimum power required");;
  witnesses ← lift_res (elected_witnesses (p1_WitnessCount params) cands results);
  let sortedWitnesses := sortWitnesses witnesses in
  guard_not (bool_decide (sortedWitnesses = [])) (ErrMsg "there must be at least 1 witness elected");;
  (if 0 <? p1_WitnessSalary params then
     let salary := sciNot (i64 (p1_WitnessSalary params)) decimals in
     forM (s1_Witnesses state) (pay_witness ctx coinAddr salary)
   else mret ());;
  write (saveState1 (mkState1 params sortedWitnesses (ctx_now ctx))).

Definition ListWitnesses (s : Dpos1Store) : Res (list Witness) := state ← loadState1 s; Ok (s1_Witnesses state).
End Methods.
