(* ===== verification/Dpos1Theorems.v ===== *)
(** * The first dpos contract: theorems

    Votes are neither made nor lost: what a voter has left and what it has cast add up to
    its allocation.  An election makes the candidates with the most power witnesses.
    Counterexamples show what unregistering and voters of another chain do. *)

From S2P Require Import Prelude Contract Coin DposTypes DposHandlers Outcomes Dpos1.

(** ** Sorting with a test that is an order on the list only *)

Section Agree.
Context {A : Type} (P : A → Prop) (less less' : A → A → bool).
Context (Hagree : ∀ x y, P x → P y → less x y = less' x y).
Abbreviation R := (sort_le less).
Abbreviation R' := (sort_le less').

Lemma list_merge_agree l1 l2 : Forall P l1 → Forall P l2 → list_merge R l1 l2 = list_merge R' l1 l2 ∧ Forall P (list_merge R l1 l2).
Proof.
  revert l2. induction l1 as [|x l1 IH1]; intros l2; [by destruct l2|].
  induction l2 as [|y l2 IH2]; [done|]. intros H1 H2. pose proof H1 as [Hx Hl1]%Forall_cons. pose proof H2 as [Hy Hl2]%Forall_cons.
  cbn. destruct (IH1 (y :: l2) Hl1 H2) as [E1 F1]. destruct (IH2 H1 Hl2) as [E2 F2].
  assert (R x y ↔ R' x y) as HR by (unfold sort_le; by rewrite (Hagree y x)).
  destruct (decide (R x y)) as [Hxy|Hxy], (decide (R' x y)) as [Hxy'|Hxy']; try tauto; (split; [by f_equal | by constructor]).
Qed.

Definition all_P (st : list (option (list A))) : Prop := Forall (λ o, from_option (Forall P) True o) st.

Lemma to_stack_agree st l : all_P st → Forall P l → merge_list_to_stack R st l = merge_list_to_stack R' st l ∧ all_P (merge_list_to_stack R st l).
Proof.
  revert l. induction st as [|[l'|] st IH]; intros l Hst Hl; cbn; [split; [done | by repeat constructor]|..];
    apply Forall_cons in Hst as [Hl' Hst]; [|split; [done | by constructor]].
  destruct (list_merge_agree l' l Hl' Hl) as [E F]. destruct (IH _ Hst F) as [E' F']. rewrite E in *. split; [by rewrite E' | by constructor].
Qed.

Lemma merge_stack_agree st : all_P st → merge_stack R st = merge_stack R' st ∧ Forall P (merge_stack R st).
Proof.
  induction st as [|[l|] st IH]; intros Hst; cbn; [done|..]; apply Forall_cons in Hst as [Hl Hst]; destruct (IH Hst) as [E F]; [|done].
  rewrite <- E. by apply list_merge_agree.
Qed.

Lemma sort_aux_agree st l : all_P st → Forall P l → merge_sort_aux R st l = merge_sort_aux R' st l.
Proof.
  revert st. induction l as [|x l IH]; intros st Hst Hl; cbn; [by apply merge_stack_agree|]. apply Forall_cons in Hl as [Hx Hl].
  destruct (to_stack_agree st [x] Hst ltac:(by constructor)) as [E F]. rewrite <- E. by apply IH.
Qed.

Lemma go_sort_agree l : Forall P l → go_sort less l = go_sort less' l.
Proof. apply sort_aux_agree. by constructor. Qed.
End Agree.

(** ** Votes *)

Section Votes.
Context {LIB : DiademLib} {SPEC : DiademLibSpec} {L : Type} {TOKEN : ERC20 L} (total_supply : Address → L → Res Z).
Context (chain : string).
Abbreviation W := (World1 L).
Implicit Types (w : W) (ctx : Ctx).

(** The votes in a list, and in the store, of the voters with a local address. *)
Definition amount_of (l : bytes) (v : Vote1) : Z := if decide (Local (vo_VoterAddress v) = l) then vo_Amount v else 0.
Definition cast (s : Dpos1Store) (l : bytes) : Z := map_sumZ (sumZ (amount_of l)) (t_votes s).

Definition own (a : Address) : Prop := wf_address a ∧ ChainID a = chain.

Definition vote_ok (k : bytes) (v : Vote1) : Prop := 0 <= vo_Amount v ∧ wf_address (vo_CandidateAddress v) ∧ voteSetKey (vo_CandidateAddress v) = k.

Record votes_ok (A : Z) (s : Dpos1Store) : Prop := {
  vk_state : ∃ st, t_state s = Some st ∧ p1_VoteAllocation (s1_Params st) = A;
  vk_voters : ∀ a, wf_address a → vr_Address (loadVoter s a A) = a;
  vk_balance : ∀ a, own a → 0 <= vr_Balance (loadVoter s a A) ∧ vr_Balance (loadVoter s a A) + cast s (Local a) = A;
  vk_votes : ∀ k vs, t_votes s !! k = Some vs → Forall (vote_ok k) vs;
  vk_cands : NoDup ((λ c, Local (c1_Address c)) <$> loadCandidates s);
  vk_own : Forall (λ c, own (c1_Address c)) (loadCandidates s);
}.

Lemma vote_of_spec a v : vote_of a v = true ↔ Local a = Local (vo_VoterAddress v).
Proof. apply (cmp_eqb local_compare). Qed.

Lemma load_votes_ok A s a : votes_ok A s → Forall (vote_ok (voteSetKey a)) (loadVoteSet s a).
Proof.
  intros H. unfold loadVoteSet. destruct (t_votes s !! voteSetKey a) as [vs|] eqn:E; [|by constructor]. by apply (vk_votes _ _ H).
Qed.

Lemma list_cast_nonneg k l vs : Forall (vote_ok k) vs → 0 <= sumZ (amount_of l) vs.
Proof. rewrite Forall_forall. intros H. apply sumZ_nonneg. intros v Hv. unfold amount_of. destruct (decide _); [by apply H | done]. Qed.

Lemma cast_nonneg A s l : votes_ok A s → 0 <= cast s l.
Proof. intros H. apply map_sumZ_nonneg. intros k vs Hk. eapply list_cast_nonneg. by apply (vk_votes _ _ H). Qed.

Lemma vote_le_cast A s a l v : votes_ok A s → v ∈ loadVoteSet s a → Local (vo_VoterAddress v) = l → vo_Amount v <= cast s l.
Proof.
  intros H Hv Hl. unfold loadVoteSet in Hv. destruct (t_votes s !! voteSetKey a) as [vs|] eqn:E; [|by apply elem_of_nil in Hv].
  transitivity (sumZ (amount_of l) vs).
  - transitivity (amount_of l v); [unfold amount_of; by rewrite decide_True|]. apply sumZ_elem_le; [|done]. intros y Hy.
    pose proof (vk_votes _ _ H _ _ E) as Hvs. rewrite Forall_forall in Hvs. unfold amount_of. destruct (decide _); [by apply Hvs | done].
  - apply (map_sumZ_lookup_le _ _ (voteSetKey a)); [|done]. intros k vs' Hk. eapply list_cast_nonneg. by apply (vk_votes _ _ H).
Qed.

(** *** Casting votes *)

(** The list after a vote: of the voter [sender] for [cand], by [amount]. *)
Definition voted (sender cand : Address) (amount : Z) (vs : list Vote1) : list Vote1 :=
  let update v := mkVote1 (vo_VoterAddress v) (vo_CandidateAddress v) (u64 (i64 (i64 (vo_Amount v) + amount))) in
  VoteList_Set (update (default (mkVote1 sender cand 0) (VoteList_Get vs sender))) (alter_first (vote_of sender) update vs).

Lemma voted_cases sender cand amount vs :
  let old := default (mkVote1 sender cand 0) (VoteList_Get vs sender) in
  let upd v := mkVote1 (vo_VoterAddress v) (vo_CandidateAddress v) (u64 (i64 (i64 (vo_Amount v) + amount))) in
  (VoteList_Get vs sender = Some old ∧ old ∈ vs ∧ voted sender cand amount vs = alter_first (vote_of sender) upd vs) ∨
  (old = mkVote1 sender cand 0 ∧ voted sender cand amount vs = vs ++ [upd old]).
Proof.
  intros old upd. unfold old, voted. destruct (VoteList_Get vs sender) as [v|] eqn:E; cbn [default].
  - left. destruct (find_elem _ _ _ E) as [Hin Hv]. split_and!; [done | done |]. unfold VoteList_Set. rewrite (proj2 (existsb_exists _ _)); [done|].
    cbn [vo_VoterAddress upd]. apply vote_of_spec in Hv. clear old.
    assert (∃ x, x ∈ alter_first (vote_of sender) upd vs ∧ vo_VoterAddress x = vo_VoterAddress v) as (x & Hx & Ex).
    { clear Hin. revert E. unfold VoteList_Get. induction vs as [|y vs IH]; [done|]. cbn. destruct (vote_of sender y).
      - intros [= ->]. exists (upd v). split; [by constructor | done].
      - intros H. destruct (IH H) as (x & Hx & Ex). exists x. split; [by constructor | done]. }
    exists x. split; [by apply list_elem_of_In|]. apply vote_of_spec. by rewrite Ex.
  - right. split; [done|]. rewrite alter_first_none by done. unfold VoteList_Set. destruct (existsb _ _) eqn:Ex; [|done].
    exfalso. apply existsb_exists in Ex as (x & Hx & Hv). cbn in Hv. by rewrite (List.find_none _ _ E x Hx) in Hv.
Qed.

Lemma voted_sum sender cand amount vs l :
  let old := default (mkVote1 sender cand 0) (VoteList_Get vs sender) in
  0 <= vo_Amount old < 2 ^ 63 → 0 <= vo_Amount old + amount < 2 ^ 63 →
  sumZ (amount_of l) (voted sender cand amount vs) = sumZ (amount_of l) vs + (if decide (Local sender = l) then amount else 0).
Proof.
  intros old Ho Hn. destruct (voted_cases sender cand amount vs) as [(Hf & _ & ->)|(Hold & ->)]; fold old in Hf || fold old in Hold.
  - rewrite (alter_first_sum _ _ (amount_of l) _ old Hf). apply find_elem in Hf as [_ Hv%vote_of_spec]. unfold amount_of. cbn [vo_VoterAddress vo_Amount].
    rewrite <- Hv, (i64_small (vo_Amount old)), i64_small, u64_small by lia. destruct (decide _); lia.
  - fold old. rewrite Hold in *. rewrite sumZ_app. cbn in *. unfold amount_of at 2. cbn. rewrite (i64_small 0), i64_small, u64_small by lia.
    destruct (decide _); lia.
Qed.

Lemma voted_ok sender cand amount k vs :
  let old := default (mkVote1 sender cand 0) (VoteList_Get vs sender) in
  wf_address cand → k = voteSetKey cand → Forall (vote_ok k) vs → Forall (vote_ok k) (voted sender cand amount vs).
Proof.
  intros old Hc -> Hvs. assert (∀ x, 0 <= u64 x) by (intros x; apply u64_range).
  destruct (voted_cases sender cand amount vs) as [(_ & _ & ->)|(Hold & ->)].
  - apply alter_first_forall; [|done]. intros x _ (_ & Hw & Hk). unfold vote_ok. cbn. auto.
  - apply Forall_app_2; [done|]. constructor; [|done]. rewrite Hold. unfold vote_ok. cbn. auto.
Qed.

Lemma load_saved_voter s a v A : wf_address a → wf_address (vr_Address v) →
  loadVoter (saveVoter v s) a A = if decide (vr_Address v = a) then v else loadVoter s a A.
Proof.
  intros Ha Hv. unfold loadVoter, saveVoter. cbn. destruct (decide _) as [->|Hne]; [by rewrite lookup_insert_eq|].
  rewrite lookup_insert_ne; [done|]. intros H. by apply prefix_key_inj2 in H.
Qed.

(** What a vote leaves in the store. *)
Definition store_voted (sender cand : Address) (amount bal : Z) (s : Dpos1Store) : Dpos1Store :=
  saveVoteSet cand (voted sender cand amount (loadVoteSet s cand)) (saveVoter (mkVoter sender (bal - amount)) s).

Lemma cast_voted sender cand amount bal s l :
  let old := default (mkVote1 sender cand 0) (VoteList_Get (loadVoteSet s cand) sender) in
  0 <= vo_Amount old < 2 ^ 63 → 0 <= vo_Amount old + amount < 2 ^ 63 →
  cast (store_voted sender cand amount bal s) l = cast s l + (if decide (Local sender = l) then amount else 0).
Proof.
  intros old Ho Hn. unfold cast, store_voted. cbn [t_votes saveVoteSet saveVoter]. rewrite map_sumZ_insert. unfold sortVotes.
  rewrite go_sort_sum, voted_sum by done. unfold loadVoteSet. destruct (decide _), (t_votes s !! voteSetKey cand); cbn; unfold sumZ; lia.
Qed.

Lemma store_voted_ok A s sender cand amount :
  let bal := vr_Balance (loadVoter s sender A) in
  let old := default (mkVote1 sender cand 0) (VoteList_Get (loadVoteSet s cand) sender) in
  own sender → wf_address cand → votes_ok A s → A < 2 ^ 63 → amount <= bal → 0 <= vo_Amount old + amount →
  vo_Amount old <= cast s (Local sender) → 0 <= vo_Amount old →
  votes_ok A (store_voted sender cand amount bal s).
Proof.
  intros bal old Hs Hc H HA Hb Hn Hle Ho. pose proof H as [H1 H2 H3 H4 H5 H6]. pose proof Hs as [Hwf Hch]. destruct (H3 sender Hs) as [Hb0 Hsum]. fold bal in Hb0, Hsum.
  assert (∀ l, cast (store_voted sender cand amount bal s) l = cast s l + (if decide (Local sender = l) then amount else 0)) as Hcast
    by (intros l; apply cast_voted; fold old; lia).
  assert (∀ a, wf_address a → loadVoter (store_voted sender cand amount bal s) a A =
    if decide (sender = a) then mkVoter sender (bal - amount) else loadVoter s a A) as Hload.
  { intros a Ha. exact (load_saved_voter s a (mkVoter sender (bal - amount)) A Ha Hwf). }
  constructor; [done |..| done | done].
  - intros a Ha. rewrite Hload by done. destruct (decide _); [done | by apply H2].
  - intros a Ha. pose proof Ha as [Hwa Hca]. rewrite Hload, Hcast by done. destruct (H3 a Ha) as [Hb1 Hs1]. destruct (decide (sender = a)) as [<-|Hne].
    + rewrite decide_True by done. cbn. lia.
    + rewrite decide_False; [lia|]. intros Hl. apply Hne. destruct sender, a. cbn in *. congruence.
  - intros k vs. cbn. rewrite lookup_insert_Some. intros [[<- <-]|[_ Hk]]; [|by apply H4].
    apply go_sort_forall, voted_ok; [done | done |]. by apply (load_votes_ok A).
Qed.

(** *** Calls *)

Lemma post_state1 A (Q : State1 → W → Prop) w :
  votes_ok A (w1_store w) → (∀ st, t_state (w1_store w) = Some st → p1_VoteAllocation (s1_Params st) = A → Q st w) → post get_state1 Q w.
Proof. intros [(st & Hst & HA) _ _ _ _ _] HQ a w'. unfold get_state1, loadState1. rewrite Hst. intros [= <- <-]. by apply HQ. Qed.

Lemma Vote_keeps A ctx cand amount w :
  own (ctx_sender ctx) → (∀ a, cand = Some a → wf_address a) → - 2 ^ 63 <= amount < 2 ^ 63 → A < 2 ^ 63 → votes_ok A (w1_store w) →
  post (Vote ctx cand amount) (λ _ w', votes_ok A (w1_store w')) w.
Proof.
  intros Hs Hc Ham HA H. unfold Vote, read, write. post_step. apply (post_state1 A); [done|]. intros st Hst Halloc. rewrite Halloc.
  do 9 post_step; [|post_step]. repeat post_step. cbn [w1_store]. set (s := w1_store w) in *. set (sender := ctx_sender ctx) in *.
  destruct (vk_balance _ _ H sender Hs) as [Hb0 Hsum].
  match goal with H : cand = Some ?a |- _ => specialize (Hc a H); rename a into candAddr end.
  set (old := default (mkVote1 sender candAddr 0) (VoteList_Get (loadVoteSet s candAddr) sender)) in *.
  assert (0 <= vo_Amount old <= cast s (Local sender)) as Hold.
  { pose proof (cast_nonneg A s (Local sender) H). unfold old. destruct (VoteList_Get _ _) as [v|] eqn:E; cbn; [|lia].
    apply find_elem in E as [Hin Hv%vote_of_spec]. pose proof (load_votes_ok A s candAddr H) as Hvs. rewrite Forall_forall in Hvs.
    split; [by apply Hvs | by eapply vote_le_cast]. }
  pose proof (cast_nonneg A s (Local sender) H) as Hcn.
  repeat match goal with H : (_ <? _) = false |- _ => apply Z.ltb_ge in H end.
  rewrite (i64_small (vr_Balance _)) in * by lia.
  match goal with H : 0 <= i64 _ |- _ => rewrite (i64_small (vo_Amount old)), (i64_small (vo_Amount old + amount)) in H by lia end.
  rewrite (i64_small (vr_Balance _ - _)), (u64_small (vr_Balance _ - _)) by lia. rewrite (vk_voters _ _ H sender) by apply Hs.
  apply (store_voted_ok A s sender candAddr amount); try done; fold old; lia.
Qed.

Lemma candidates_keep A s cl :
  votes_ok A s → NoDup ((λ c, Local (c1_Address c)) <$> cl) → Forall (λ c, own (c1_Address c)) cl → votes_ok A (saveCandidates cl s).
Proof.
  intros [H1 H2 H3 H4 H5 H6] Hnd Hown. constructor; try done.
  - change (NoDup ((λ c, Local (c1_Address c)) <$> sortCandidates1 cl)). unfold sortCandidates1. by rewrite go_sort_permutation.
  - change (Forall (λ c, own (c1_Address c)) (sortCandidates1 cl)). by apply go_sort_forall.
Qed.

Lemma Register_keeps A ctx pk w : own (ctx_sender ctx) → votes_ok A (w1_store w) → post (RegisterCandidate1 ctx pk) (λ _ w', votes_ok A (w1_store w')) w.
Proof.
  intros Hs H. unfold RegisterCandidate1, read, write. repeat post_step. cbn [w1_store]. pose proof H as [_ _ _ _ H5 H6].
  unfold Candidates_Set. destruct (existsb _ _) eqn:E; apply candidates_keep; try done.
  - rewrite fmap_app. apply NoDup_app. split_and!; [done | | apply NoDup_singleton]. intros l (c & -> & Hc)%list_elem_of_fmap Hl.
    apply list_elem_of_singleton in Hl. cbn in Hl. apply not_true_iff_false in E. apply E, existsb_exists.
    exists c. split; [by apply list_elem_of_In|]. cbn. rewrite Hl. by apply (cmp_eqb local_compare).
  - apply Forall_app_2; [done | by constructor].
Qed.

Lemma delete_all_candidates addr cl : Candidates_Delete addr cl = [].
Proof.
  induction cl as [|c cl IH]; [done|]. unfold Candidates_Delete in *. rewrite filter_cons_False; [done|]. cbn.
  rewrite (proj2 (cmp_eqb local_compare _ _)) by done. done.
Qed.

Lemma Unregister_keeps A ctx w : votes_ok A (w1_store w) → post (UnregisterCandidate1 ctx) (λ _ w', votes_ok A (w1_store w')) w.
Proof.
  intros H. unfold UnregisterCandidate1, read, write. repeat post_step. cbn [w1_store]. rewrite delete_all_candidates. apply candidates_keep; [done | apply NoDup_nil_2 | done].
Qed.

(** Paying salaries leaves the store alone. *)
Lemma pay_keeps ctx coin salary wits w : post (forM wits (pay_witness ctx coin salary)) (λ _ w', w1_store w' = w1_store w) w.
Proof.
  revert w. induction wits as [|x wits IH]; intros w; [by apply post_ret|]. unfold forM. cbn [foldr]. fold (forM wits (pay_witness ctx coin salary)). apply post_bind.
  intros [] w1. unfold pay_witness, zoom. destruct (erc20_transfer _ _ _ _ _) as [r l]. intros [= -> <-]. apply (IH (mkWorld1 (w1_store w) l)).
Qed.

Lemma Elect1_keeps A ctx w : votes_ok A (w1_store w) → post (Elect1 total_supply ctx) (λ _ w', votes_ok A (w1_store w')) w.
Proof.
  intros H. unfold Elect1, read, write. post_step. apply (post_state1 A); [done|]. intros st Hst Halloc.
  do 9 post_step. intros supply w0. intros [= _ <-]. do 7 post_step. apply (post_mono _ (λ _ w', w1_store w' = w1_store w)).
  - post_step; [apply pay_keeps | by post_step].
  - intros _ w2 Hw2. post_step. cbn [w1_store]. rewrite Hw2. destruct H. constructor; try done. by eexists.
Qed.

(** *** Histories *)

Inductive call1 :=
  | CRegister1 (pubKey : bytes) | CUnregister1 | CVote (candidate : option Address) (amount : Z) | CElect1.

Definition run_call1 ctx (c : call1) : M W unit :=
  match c with
  | CRegister1 pk => RegisterCandidate1 ctx pk
  | CUnregister1 => UnregisterCandidate1 ctx
  | CVote cand amount => Vote ctx cand amount
  | CElect1 => Elect1 total_supply ctx
  end.

(** Amounts are 64-bit numbers and addresses have their form. *)
Definition call1_ok (c : call1) : Prop :=
  match c with CVote cand amount => (∀ a, cand = Some a → wf_address a) ∧ - 2 ^ 63 <= amount < 2 ^ 63 | _ => True end.

(** From [Init], by calls of accounts of the chain that succeed, while the coins move in any way. *)
Inductive reached : W → Prop :=
  | reached_init ctx params validators l w :
      0 <= p1_VoteAllocation params < 2 ^ 63 → 0 <= p1_WitnessCount params < 2 ^ 63 →
      Init1 ctx (Some params) validators (mkWorld1 empty_dpos1_store l) = (Ok (), w) → reached w
  | reached_call ctx c w w' :
      reached w → own (ctx_sender ctx) → call1_ok c → run_call1 ctx c w = (Ok (), w') → reached w'
  | reached_coins l w : reached w → reached (mkWorld1 (w1_store w) l).

Definition reached_state w : Prop := ∃ A, 0 <= A < 2 ^ 63 ∧ votes_ok A (w1_store w).

Lemma init_reached ctx params validators l :
  0 <= p1_VoteAllocation params < 2 ^ 63 → 0 <= p1_WitnessCount params < 2 ^ 63 →
  post (Init1 ctx (Some params) validators) (λ _, reached_state) (mkWorld1 empty_dpos1_store l).
Proof.
  intros Ha Hw. unfold Init1, write. post_step. post_step. simplify_eq. post_step.
  assert (∀ (m : M W Address) Q w, (∀ x, Q x w) → (∀ w0 r w1, m w0 = (r, w1) → w1 = w0) → post m Q w) as Hpost.
  { intros m Q w HQ Hm x w1 Hrun. by rewrite (Hm _ _ _ Hrun). }
  apply Hpost; [|intros w0 r w1; destruct (p1_CoinContractAddress _); [by intros [= _ <-]|]; unfold ctx_resolve; destruct (_ !! _); by intros [= _ <-]].
  intros coin. post_step. set (A := if _ =? 0 then _ else _). exists A. split; [unfold A; case_match; lia|].
  assert (0 <= A) by (unfold A; case_match; lia). constructor; cbn; try done; try (by constructor).
  - eexists. by split.
  - intros x _. unfold cast, loadVoter. cbn. rewrite lookup_empty, map_sumZ_empty. cbn. lia.
Qed.

Lemma reached_ok w : reached w → reached_state w.
Proof.
  induction 1 as [ctx params validators l w Ha Hw Hrun|ctx c w w' _ (A & HA & IH) Hs Hok Hrun|l w _ (A & HA & IH)].
  - by eapply init_reached.
  - exists A. split; [done|]. destruct c; cbn in *.
    + by eapply Register_keeps.
    + by eapply Unregister_keeps.
    + destruct Hok as [Hc Ham]. eapply Vote_keeps; [exact Hs | exact Hc | exact Ham | lia | exact IH | exact Hrun].
    + by eapply Elect1_keeps.
  - by exists A.
Qed.

(** C9. Votes are neither made nor lost: after any calls, what a voter has left and what it
    has cast for all candidates, registered or not, add up to the allocation of votes, and
    neither is negative. *)
Theorem votes_are_conserved w st a :
  reached w → t_state (w1_store w) = Some st → own a →
  let allocation := p1_VoteAllocation (s1_Params st) in
  let left := vr_Balance (loadVoter (w1_store w) a allocation) in
  left + cast (w1_store w) (Local a) = allocation ∧ 0 <= left <= allocation ∧ 0 <= cast (w1_store w) (Local a) <= allocation.
Proof.
  intros (A & HA & H)%reached_ok Hst Ha. pose proof H as [(st' & Hst' & Halloc) _ H3 _ _ _]. rewrite Hst in Hst'. simplify_eq. cbn.
  destruct (H3 a Ha). pose proof (cast_nonneg _ _ (Local a) H). lia.
Qed.

(** A candidate that unregisters removes all candidates. *)
Theorem unregistering_removes_everyone ctx w w' : UnregisterCandidate1 ctx w = (Ok (), w') → loadCandidates (w1_store w') = [].
Proof.
  intros Hrun. assert (post (UnregisterCandidate1 ctx) (λ _ w', loadCandidates (w1_store w') = []) w) as Hp; [|by eapply Hp].
  unfold UnregisterCandidate1, read, write. repeat post_step. cbn. by rewrite delete_all_candidates.
Qed.
End Votes.

(** ** Elections *)

(** [Address.String] tells addresses apart. *)
Class AddressStringSpec `{DiademLib} : Prop := {
  address_string_inj a b : wf_address a → wf_address b → address_string a = address_string b → a = b;
}.

Section Order.
Context {LIB : DiademLib} {SPEC : DiademLibSpec}.

(** The order of results without the wrap-around, the largest first. *)
Definition more_power (x y : VoteResult) : bool :=
  (vt_PowerTotal y <? vt_PowerTotal x) ||
  ((vt_PowerTotal y =? vt_PowerTotal x) && (address_compare (vt_CandidateAddress y) (vt_CandidateAddress x) <? 0)).

Lemma more_power_spec x y : more_power x y = true ↔
  vt_PowerTotal y < vt_PowerTotal x ∨ vt_PowerTotal y = vt_PowerTotal x ∧ address_compare (vt_CandidateAddress y) (vt_CandidateAddress x) < 0.
Proof. unfold more_power. rewrite orb_true_iff, andb_true_iff, !Z.ltb_lt, Z.eqb_eq. done. Qed.

#[global] Instance more_power_order : LessOrder more_power.
Proof.
  split.
  - intros x y H. apply not_true_iff_false. intros H'. apply more_power_spec in H as [H|[E H]], H' as [H'|[E' H']]; try lia.
    pose proof (proj1 (cmp_antisym (cmp := address_compare) _ _) H). lia.
  - intros x y z. rewrite <- !not_true_iff_false, !more_power_spec. intros H1 H2 [H|[H Hc]]; [lia|].
    assert (vt_PowerTotal x = vt_PowerTotal y) as E1 by lia. assert (vt_PowerTotal y = vt_PowerTotal z) as E2 by lia.
    destruct (cmp_trichotomy address_compare (vt_CandidateAddress y) (vt_CandidateAddress z)) as [Hl|[Heq|Hg]].
    + apply H1. right. split; [done|]. rewrite <- E1 in *. by eapply (cmp_trans (cmp := address_compare)); [|exact Hc].
    + rewrite <- Heq in Hc. by apply H1; right.
    + by apply H2; right.
Qed.

Definition small_power (r : VoteResult) : Prop := 0 <= vt_PowerTotal r < 2 ^ 63.

Lemma lessPower_small x y : small_power x → small_power y → lessPower y x = more_power x y.
Proof.
  unfold small_power. intros Hx Hy. apply eq_true_iff_eq. rewrite more_power_spec. unfold lessPower.
  rewrite (i64_small (vt_PowerTotal x)), (i64_small (vt_PowerTotal y)), i64_small by lia. rewrite Z.ltb_lt.
  destruct (Z.eqb_spec (vt_PowerTotal y - vt_PowerTotal x) 0); lia.
Qed.
End Order.

Section Elections.
Context {LIB : DiademLib} {SPEC : DiademLibSpec} {STR : AddressStringSpec} {L : Type} {TOKEN : ERC20 L} (total_supply : Address → L → Res Z).
Context (chain : string).
Abbreviation W := (World1 L).
Implicit Types (w : W) (ctx : Ctx).

(** *** The tally of a candidate: its votes, and their power *)

Record Tally := mkTally1 { ta_cand : Candidate1; ta_votes : Z; ta_power : Z }.

Definition power_of (params : Params1) (coin : Address) w (v : Vote1) : Z :=
  vo_Amount v * calcVotePower coin (loadVoter (w1_store w) (vo_VoterAddress v) (p1_VoteAllocation params)) (w1_ledger w).

Definition tally (params : Params1) (coin : Address) w (c : Candidate1) : option Tally :=
  match loadVoteSet (w1_store w) (c1_Address c) with
  | [] => None
  | vs => Some (mkTally1 c (sumZ vo_Amount vs) (sumZ (power_of params coin w) vs))
  end.

Definition tallies (params : Params1) (coin : Address) w : list Tally := omap (tally params coin w) (loadCandidates (w1_store w)).

Definition result_of (t : Tally) : VoteResult := mkVoteResult (c1_Address (ta_cand t)) (ta_votes t) (ta_power t).
Definition witness_of (t : Tally) : Witness := mkWitness (c1_PubKey (ta_cand t)) (ta_votes t) (ta_power t).
Definition tally_key (t : Tally) : string := address_string (c1_Address (ta_cand t)).

(** *** The tally of the election *)

Definition group (a : Address) (fvs : list FullVote) : Prop := Forall (λ f, fv_CandidateAddress f = a ∧ 0 <= fv_VoteSize f ∧ 0 <= fv_Power f) fvs.

Lemma fold_group a fvs m v p :
  group a fvs → m !! address_string a = Some (mkVoteResult a v p) → 0 <= v → 0 <= p →
  v + sumZ fv_VoteSize fvs < 2 ^ 64 → p + sumZ fv_Power fvs < 2 ^ 64 →
  foldl add_vote m fvs = <[address_string a := mkVoteResult a (v + sumZ fv_VoteSize fvs) (p + sumZ fv_Power fvs)]> m.
Proof.
  revert m v p. induction fvs as [|f fvs IH]; intros m v p Hg Hm Hv Hp Hsv Hsp; cbn in *.
  - rewrite insert_id; [done|]. by rewrite !Z.add_0_r.
  - apply Forall_cons in Hg as [(Hf & Hs & Hw) Hg]. assert (0 <= sumZ fv_VoteSize fvs ∧ 0 <= sumZ fv_Power fvs) as [Hn1 Hn2].
    { unfold group in Hg. rewrite Forall_forall in Hg. split; apply sumZ_nonneg; intros x Hx; by apply Hg. }
    unfold sumZ in Hn1, Hn2. rewrite (IH _ (v + fv_VoteSize f) (p + fv_Power f)); try done; unfold sumZ; try lia.
    + unfold add_vote. rewrite Hf, Hm. cbn. rewrite insert_insert_eq. f_equal. by rewrite !Z.add_assoc.
    + unfold add_vote. rewrite Hf, Hm. cbn. rewrite lookup_insert_eq, !u64_small by lia. done.
Qed.

Lemma fold_new_group a f fvs m :
  group a (f :: fvs) → m !! address_string a = None → sumZ fv_VoteSize (f :: fvs) < 2 ^ 64 → sumZ fv_Power (f :: fvs) < 2 ^ 64 →
  foldl add_vote m (f :: fvs) = <[address_string a := mkVoteResult a (sumZ fv_VoteSize (f :: fvs)) (sumZ fv_Power (f :: fvs))]> m.
Proof.
  intros Hg Hm Hs Hp. pose proof Hg as [(Hf & Hfs & Hfp) Hg']%Forall_cons. assert (0 <= sumZ fv_VoteSize fvs ∧ 0 <= sumZ fv_Power fvs) as [Hn1 Hn2].
  { unfold group in Hg'. rewrite Forall_forall in Hg'. split; apply sumZ_nonneg; intros x Hx; by apply Hg'. }
  change (sumZ fv_VoteSize (f :: fvs)) with (fv_VoteSize f + sumZ fv_VoteSize fvs) in *. change (sumZ fv_Power (f :: fvs)) with (fv_Power f + sumZ fv_Power fvs) in *.
  cbn [foldl]. assert (add_vote m f = <[address_string a := mkVoteResult a (fv_VoteSize f) (fv_Power f)]> m) as ->.
  { unfold add_vote. rewrite Hf, Hm. cbn. rewrite !u64_small by lia. done. }
  rewrite (fold_group a fvs _ (fv_VoteSize f) (fv_Power f)); try done; [by rewrite insert_insert_eq | apply lookup_insert_eq].
Qed.

Definition exact_votes (params : Params1) (coin : Address) w (c : Candidate1) : list FullVote :=
  (λ v, mkFullVote (vo_CandidateAddress v) (vo_Amount v) (power_of params coin w v)) <$> loadVoteSet (w1_store w) (c1_Address c).

Lemma power_nonneg A k params coin w v : A = p1_VoteAllocation params → vote_ok k v → 0 <= power_of params coin w v.
Proof.
  intros _ [Hv _]. unfold power_of, calcVotePower, balanceToPower. pose proof (u64_range (erc20_balance coin (w1_ledger w)
    (vr_Address (loadVoter (w1_store w) (vo_VoterAddress v) (p1_VoteAllocation params))) / sciNot 1 decimals)). nia.
Qed.

Lemma exact_group A params coin w c :
  votes_ok chain A (w1_store w) → wf_address (c1_Address c) → group (c1_Address c) (exact_votes params coin w c).
Proof.
  intros H Hc. pose proof (load_votes_ok chain A (w1_store w) (c1_Address c) H) as Hvs. unfold group, exact_votes. apply Forall_fmap.
  eapply Forall_impl; [exact Hvs|]. intros v Hv. pose proof Hv as (Ha & Hw & Hk). cbn. split_and!; [by apply prefix_key_inj2 in Hk | done |].
  by eapply power_nonneg.
Qed.

Lemma tally_some params coin w c t : tally params coin w c = Some t →
  ∃ f fvs, exact_votes params coin w c = f :: fvs ∧ ta_cand t = c ∧ ta_votes t = sumZ fv_VoteSize (f :: fvs) ∧ ta_power t = sumZ fv_Power (f :: fvs).
Proof.
  unfold tally, exact_votes. set (g := λ v, mkFullVote _ _ _). destruct (loadVoteSet _ _) as [|v vs]; [done|]. intros [= <-].
  exists (g v), (g <$> vs). split_and!; [done | done |..]; symmetry; [exact (sumZ_fmap g fv_VoteSize (v :: vs)) | exact (sumZ_fmap g fv_Power (v :: vs))].
Qed.

Lemma tally_none params coin w c : tally params coin w c = None → exact_votes params coin w c = [].
Proof. unfold tally, exact_votes. by destruct (loadVoteSet _ _). Qed.

(** *** The results of an election *)

(** Nothing wraps around. *)
Definition bounded (ts : list Tally) : Prop := sumZ ta_votes ts < 2 ^ 64 ∧ sumZ ta_power ts < 2 ^ 63.
Definition tally_ok (t : Tally) : Prop := 0 <= ta_votes t ∧ 0 <= ta_power t.

Lemma tally_nonneg A params coin w c t : votes_ok chain A (w1_store w) → wf_address (c1_Address c) → tally params coin w c = Some t → tally_ok t.
Proof.
  intros H Hc (f & fvs & E & _ & Hv & Hp)%tally_some. pose proof (exact_group A params coin w c H Hc) as Hg. rewrite E in Hg. unfold group in Hg.
  rewrite Forall_forall in Hg. unfold tally_ok. rewrite Hv, Hp. split; apply sumZ_nonneg; intros x Hx; by apply Hg.
Qed.

Lemma tallies_fold A params coin w cs m :
  votes_ok chain A (w1_store w) → Forall (λ c, wf_address (c1_Address c)) cs → NoDup ((λ c, Local (c1_Address c)) <$> cs) →
  (∀ c, c ∈ cs → m !! address_string (c1_Address c) = None) → bounded (omap (tally params coin w) cs) →
  foldl add_vote m (cs ≫= exact_votes params coin w) =
    list_to_map ((λ t, (tally_key t, result_of t)) <$> omap (tally params coin w) cs) ∪ m.
Proof.
  intros H. revert m. induction cs as [|c cs IH]; intros m Hwf Hnd Hm [Hbv Hbp]; [symmetry; apply (left_id_L ∅ (∪))|].
  pose proof Hwf as [Hc Hcs]%Forall_cons. rewrite fmap_cons in Hnd. apply NoDup_cons in Hnd as [Hnc Hnd]. rewrite bind_cons, foldl_app.
  assert (Forall tally_ok (omap (tally params coin w) cs)) as Hok.
  { apply Forall_forall. intros t (c' & Hc' & Ht)%list_elem_of_omap. rewrite Forall_forall in Hcs. eapply tally_nonneg; [exact H | by apply Hcs | exact Ht]. }
  assert (0 <= sumZ ta_votes (omap (tally params coin w) cs) ∧ 0 <= sumZ ta_power (omap (tally params coin w) cs)) as [Hn1 Hn2].
  { rewrite Forall_forall in Hok. split; apply sumZ_nonneg; intros t Ht; by apply Hok. }
  assert (∀ c', c' ∈ cs → address_string (c1_Address c) ≠ address_string (c1_Address c')) as Hne.
  { intros c' Hc' Heq. apply Hnc. rewrite Forall_forall in Hcs. apply address_string_inj in Heq; [|done | by apply Hcs]. rewrite Heq.
    by apply (list_elem_of_fmap_2 (λ c, Local (c1_Address c))). }
  cbn [omap list_omap] in *. destruct (tally params coin w c) as [t|] eqn:E.
  - pose proof (tally_nonneg _ _ _ _ _ _ H Hc E) as [Hv0 Hp0]. pose proof (tally_some _ _ _ _ _ E) as (f & fvs & Ef & Ec & Ev & Ep). cbn in Hbv, Hbp. unfold sumZ in Hn1, Hn2.
    pose proof (exact_group A params coin w c H Hc) as Hg. rewrite Ef in *.
    rewrite (fold_new_group (c1_Address c)); [|done | by apply Hm; constructor | rewrite <- Ev; lia | rewrite <- Ep; lia].
    rewrite IH; [|done | done | | split; unfold sumZ; lia].
    2: { intros c' Hc'. rewrite lookup_insert_ne by (by apply Hne). apply Hm. by constructor. }
    rewrite <- Ev, <- Ep. cbn [fmap list_fmap list_to_map foldr]. unfold tally_key at 2. rewrite Ec. cbn [uncurry fst snd].
    rewrite <- insert_union_l. rewrite <- insert_union_r; [unfold result_of at 2; by rewrite Ec|]. apply not_elem_of_list_to_map_1. rewrite <- list_fmap_compose.
    intros (t' & Hk & (c' & Hc' & Ht')%list_elem_of_omap)%list_elem_of_fmap. apply (Hne c' Hc'). rewrite Hk. cbn. unfold tally_key.
    by apply tally_some in Ht' as (_ & _ & _ & -> & _).
  - rewrite (tally_none _ _ _ _ E). cbn [foldl]. apply IH; try done. intros c' Hc'. apply Hm. by constructor.
Qed.

Section Held.
Context (A : Z) (params : Params1) (coin : Address) (w : W).
Context (Hok : votes_ok chain A (w1_store w)) (Hbound : bounded (tallies params coin w)).

Lemma cands_wf : Forall (λ c, wf_address (c1_Address c)) (loadCandidates (w1_store w)).
Proof. eapply Forall_impl; [apply (vk_own _ _ _ Hok)|]. by intros c [? _]. Qed.

Lemma tallies_ok : Forall tally_ok (tallies params coin w).
Proof.
  apply Forall_forall. intros t (c & Hc & Ht)%list_elem_of_omap. pose proof cands_wf as Hwf. rewrite Forall_forall in Hwf.
  eapply tally_nonneg; [exact Hok | by apply Hwf | exact Ht].
Qed.

Lemma power_bounded c v :
  c ∈ loadCandidates (w1_store w) → v ∈ loadVoteSet (w1_store w) (c1_Address c) → 0 <= power_of params coin w v < 2 ^ 63.
Proof.
  intros Hc Hv. pose proof (load_votes_ok chain A (w1_store w) (c1_Address c) Hok) as Hvs. rewrite Forall_forall in Hvs.
  assert (∀ x, x ∈ loadVoteSet (w1_store w) (c1_Address c) → 0 <= power_of params coin w x) as Hpos by (intros x Hx; eapply power_nonneg; [done | by apply Hvs]).
  split; [by apply Hpos|]. pose proof (sumZ_elem_le _ _ v Hpos Hv) as Hle. destruct Hbound as [_ Hb].
  destruct (tally params coin w c) as [t|] eqn:E.
  - assert (t ∈ tallies params coin w) as Ht by (apply list_elem_of_omap; by exists c).
    assert (ta_power t = sumZ (power_of params coin w) (loadVoteSet (w1_store w) (c1_Address c))) as Et by (unfold tally in E; destruct (loadVoteSet _ _); [done | by injection E as <-]).
    pose proof tallies_ok as Htok. rewrite Forall_forall in Htok. pose proof (sumZ_elem_le ta_power _ t (λ x Hx, proj2 (Htok x Hx)) Ht). lia.
  - unfold tally in E. destruct (loadVoteSet _ _); [by apply elem_of_nil in Hv | done].
Qed.

Lemma full_votes_exact : full_votes params coin (loadCandidates (w1_store w)) w = loadCandidates (w1_store w) ≫= exact_votes params coin w.
Proof.
  unfold full_votes. pose proof power_bounded as Hp. induction (loadCandidates (w1_store w)) as [|c cs IH]; [done|]. rewrite !bind_cons. f_equal.
  - apply list_fmap_ext. intros i v Hv%list_elem_of_lookup_2. specialize (Hp c v ltac:(by constructor) Hv).
    apply (f_equal (mkFullVote _ _)), u64_small. change (0 <= power_of params coin w v < 2 ^ 64). lia.
  - apply IH. intros c' v Hc'. apply Hp. by constructor.
Qed.

Lemma tally_keys_nodup cs :
  Forall (λ c, wf_address (c1_Address c)) cs → NoDup ((λ c, Local (c1_Address c)) <$> cs) → NoDup (tally_key <$> omap (tally params coin w) cs).
Proof.
  induction cs as [|c cs IH]; [by constructor|]. intros [Hc Hcs]%Forall_cons. rewrite fmap_cons. intros [Hnc Hnd]%NoDup_cons. cbn [omap list_omap].
  destruct (tally params coin w c) as [t|] eqn:E; [|by apply IH]. rewrite fmap_cons. apply NoDup_cons. split; [|by apply IH].
  intros (t' & Hk & (c' & Hc' & Ht')%list_elem_of_omap)%list_elem_of_fmap. apply Hnc. apply tally_some in E as (_ & _ & _ & Ec & _), Ht' as (_ & _ & _ & Ec' & _).
  unfold tally_key in Hk. rewrite Ec, Ec' in Hk. rewrite Forall_forall in Hcs. apply address_string_inj in Hk; [|done | by apply Hcs]. rewrite Hk.
  by apply (list_elem_of_fmap_2 (λ c, Local (c1_Address c))).
Qed.

Lemma tallies_small : Forall small_power (result_of <$> tallies params coin w).
Proof.
  apply Forall_fmap, Forall_forall. intros t Ht. pose proof tallies_ok as Htok. rewrite Forall_forall in Htok. destruct Hbound as [_ Hb].
  pose proof (sumZ_elem_le ta_power _ t (λ x Hx, proj2 (Htok x Hx)) Ht). destruct (Htok t Ht). split; cbn; lia.
Qed.

Lemma sorted_results ts : StronglySorted (sort_le more_power) (result_of <$> ts) → StronglySorted (λ x y, ta_power y <= ta_power x) ts.
Proof.
  induction ts as [|t ts IH]; [constructor|]. rewrite fmap_cons. intros [Ht Hs]%StronglySorted_cons. constructor; [by apply IH|].
  rewrite Forall_fmap in Ht. eapply Forall_impl; [exact Ht|]. intros t'. cbn. unfold sort_le. rewrite <- not_true_iff_false, more_power_spec. cbn. lia.
Qed.

(** The results, in the order of the election, are the tallies of the candidates with votes. *)
Lemma results_are_tallies : ∃ ts, ts ≡ₚ tallies params coin w ∧
  runElection (full_votes params coin (loadCandidates (w1_store w)) w) = result_of <$> ts ∧ StronglySorted (λ x y, ta_power y <= ta_power x) ts.
Proof.
  set (unsorted := (map_to_list (foldl add_vote ∅ (full_votes params coin (loadCandidates (w1_store w)) w))).*2).
  assert (unsorted ≡ₚ result_of <$> tallies params coin w) as Hperm.
  { unfold unsorted. rewrite full_votes_exact. rewrite (tallies_fold A); [|done | apply cands_wf | apply (vk_cands _ _ _ Hok) | intros; apply lookup_empty | done].
    rewrite map_union_empty. rewrite map_to_list_to_map; [by rewrite <- list_fmap_compose|]. rewrite <- list_fmap_compose.
    apply tally_keys_nodup; [apply cands_wf | apply (vk_cands _ _ _ Hok)]. }
  assert (runElection (full_votes params coin (loadCandidates (w1_store w)) w) = go_sort more_power unsorted) as Hrun.
  { apply (go_sort_agree small_power); [intros x y Hx Hy; by apply lessPower_small|]. fold unsorted. rewrite Hperm. apply tallies_small. }
  assert (go_sort more_power unsorted ≡ₚ result_of <$> tallies params coin w) as Hperm' by (by rewrite go_sort_permutation).
  destruct (Permutation_map_inv result_of _ Hperm') as (ts & Hts & Hp). exists ts. rewrite Hrun. split_and!; [by symmetry | done |].
  apply sorted_results. change (result_of <$> ts) with (map result_of ts). rewrite <- Hts. apply go_sort_sorted. apply _.
Qed.

Lemma candidate_of_tally t : t ∈ tallies params coin w → Candidates_Get (loadCandidates (w1_store w)) (c1_Address (ta_cand t)) = Some (ta_cand t).
Proof.
  intros (c & Hc & (_ & _ & _ & -> & _)%tally_some)%list_elem_of_omap. pose proof (vk_cands _ _ _ Hok) as Hnd. unfold Candidates_Get.
  induction (loadCandidates (w1_store w)) as [|c' cs IH]; [by apply elem_of_nil in Hc|]. rewrite fmap_cons in Hnd. apply NoDup_cons in Hnd as [Hn Hnd].
  cbn. unfold candidate_at at 1. apply elem_of_cons in Hc as [->|Hc]; [by rewrite (proj2 (cmp_eqb local_compare _ _))|].
  rewrite (proj2 (cmp_eqb_false local_compare _ _)); [by apply IH|]. intros Heq. apply Hn. rewrite Heq. by apply (list_elem_of_fmap_2 (λ c, Local (c1_Address c))).
Qed.

Lemma elected_are_first n ts :
  0 <= n < 2 ^ 63 → Forall (λ t, t ∈ tallies params coin w) ts →
  elected_witnesses n (loadCandidates (w1_store w)) (result_of <$> ts) = Ok (witness_of <$> take (Z.to_nat n) ts).
Proof.
  intros Hn Hts. unfold elected_witnesses. rewrite length_fmap, i64_small by lia.
  set (k := if _ <? n then _ else n). assert (take (Z.to_nat k) ts = take (Z.to_nat n) ts ∧ 0 <= k) as [Hk Hk0].
  { unfold k. destruct (Z.ltb_spec (Z.of_nat (length ts)) n); [|split; [done | lia]]. split; [|lia]. rewrite !take_ge by lia. done. }
  rewrite (proj2 (Z.ltb_ge k 0)) by done. rewrite <- fmap_take, Hk. clear k Hk Hk0.
  assert (Forall (λ t, t ∈ tallies params coin w) (take (Z.to_nat n) ts)) as Hf by (by apply Forall_take).
  induction Hf as [|t l Ht _ IH]; [done|]. cbn. rewrite candidate_of_tally by done. rewrite IH. done.
Qed.
End Held.

(** An election makes the candidates with the most power witnesses.  A candidate has a
    tally if somebody voted for it: the votes, and the votes times the whole coins of
    their voters.  As long as these sums do not wrap around, the new witnesses are the
    first [WitnessCount] tallies in the order of power, with their totals, nobody left out
    has more power, and there is at least one. *)
Theorem election_picks_most_power ctx w w' st coin :
  let ts := tallies (s1_Params st) coin w in
  let n := p1_WitnessCount (s1_Params st) in
  reached total_supply chain w → t_state (w1_store w) = Some st → p1_CoinContractAddress (s1_Params st) = Some coin →
  0 <= n < 2 ^ 63 → bounded ts → Elect1 total_supply ctx w = (Ok (), w') →
  ∃ elected others wits, elected ++ others ≡ₚ ts ∧ (∀ e o, e ∈ elected → o ∈ others → ta_power o <= ta_power e) ∧
    length elected = Nat.min (Z.to_nat n) (length ts) ∧ elected ≠ [] ∧
    ListWitnesses (w1_store w') = Ok wits ∧ wits ≡ₚ (witness_of <$> elected).
Proof.
  intros ts n (A & HA & Hok)%reached_ok Hst Hcoin Hn Hb Hrun. destruct (results_are_tallies A _ _ _ Hok Hb) as (l & Hl & Hres & Hs). fold ts in Hl.
  set (Q := λ w' : W, take (Z.to_nat n) l ≠ [] ∧ ListWitnesses (w1_store w') = Ok (sortWitnesses (witness_of <$> take (Z.to_nat n) l))).
  assert (post (Elect1 total_supply ctx) (λ _, Q) w) as Hp.
  { unfold Elect1, read, write. post_step. apply (post_state1 chain A); [done|]. intros st' Hst' _. rewrite Hst in Hst'. injection Hst' as <-. rewrite Hcoin.
    do 9 post_step. simplify_eq. intros supply w0 [= _ <-]. do 4 post_step.
    match goal with H : elected_witnesses _ _ _ = Ok _ |- _ => rewrite Hres, (elected_are_first A _ a w Hok) in H by (done || (apply Forall_forall; intros t; by rewrite Hl)); injection H as <- end.
    post_step. post_step. post_step. apply (post_mono _ (λ _ _, True)); [by intros ???|]. intros _ w2 _. post_step. split; [|done].
    match goal with H : bool_decide _ = false |- _ => apply bool_decide_eq_false in H; intros Hnil; apply H; fold n; by rewrite Hnil end. }
  destruct (Hp _ _ Hrun) as [Hne Hlist]. exists (take (Z.to_nat n) l), (drop (Z.to_nat n) l), (sortWitnesses (witness_of <$> take (Z.to_nat n) l)).
  rewrite <- (take_drop (Z.to_nat n) l) in Hs. apply StronglySorted_app in Hs as (Hs & _). split_and!; [by rewrite take_drop | by intros; apply Hs | | done | done |].
  - rewrite length_take. by rewrite <- (Permutation_length Hl).
  - apply go_sort_permutation.
Qed.
End Elections.
