(* ===== verification/Dpos1Witnesses.v ===== *)
(** * The first dpos contract: witnesses

    Two candidates, two voters with 100 and 50 coins, one of whom takes a vote back, and
    an election of one witness.  A voter of another chain with the same local address
    takes back votes that it never cast. *)

From S2P Require Import Prelude Contract Coin DposTypes DposHandlers Outcomes Dpos1 Dpos1Theorems.

Module Dpos1Witness.
Import SimpleLib CoinWitness.

#[local] Instance string_spec : AddressStringSpec.
Proof. split. apply to_string_inj. Qed.

Definition chain : string := ChainID (sample "a").
Definition total_supply (coin : Address) (l : CoinWorld) : Res Z := TotalSupplyOf (cw_store l).
Definition ledger : CoinWorld := mkCoinWorld (sample "C") start.
Definition params : Params1 := mkParams1 (Some (sample "C")) 1 5 100 0 0.

Definition genesis : World1 CoinWorld :=
  (Init1 (sample_ctx (sample "a") 0) (Some params) [] (mkWorld1 empty_dpos1_store ledger)).2.

Definition calls : list (Ctx * call1) :=
  let by_ c now := sample_ctx (sample c) now in
  [(by_ "v" 1, CRegister1 (Local (sample "v"))); (by_ "u" 2, CRegister1 (Local (sample "u")));
   (by_ "a" 3, CVote (Some (sample "v")) 3); (by_ "b" 4, CVote (Some (sample "u")) 2); (by_ "b" 5, CVote (Some (sample "u")) (-1))].

Definition run_all (cs : list (Ctx * call1)) (w : World1 CoinWorld) : World1 CoinWorld :=
  foldl (λ w c, (run_call1 total_supply c.1 c.2 w).2) w cs.
Fixpoint all_ok (cs : list (Ctx * call1)) (w : World1 CoinWorld) : Prop :=
  match cs with [] => True | c :: cs => (run_call1 total_supply c.1 c.2 w).1 = Ok () ∧ all_ok cs (run_call1 total_supply c.1 c.2 w).2 end.

Lemma reached_run cs w :
  Forall (λ c, own chain (ctx_sender c.1) ∧ call1_ok c.2) cs → reached total_supply chain w → all_ok cs w → reached total_supply chain (run_all cs w).
Proof.
  revert w. induction cs as [|c cs IH]; intros w Hcs Hw Hok; [done|]. apply Forall_cons in Hcs as [[Ho Hc] Hcs]. destruct Hok as [Hr Hok].
  apply (IH _ Hcs); [|done]. eapply (reached_call _ _ c.1 c.2); [exact Hw | done | done | by apply run_ok].
Qed.

Definition voted_world : World1 CoinWorld := run_all calls genesis.

Lemma voted_reached : reached total_supply chain voted_world.
Proof.
  apply reached_run; [| |by vm_compute].
  - repeat constructor; cbn; intros; simplify_eq; try done; by repeat split.
  - eapply (reached_init _ _ (sample_ctx (sample "a") 0) params [] ledger); [done | done |]. apply run_ok. by vm_compute.
Qed.

Definition state_of (w : World1 CoinWorld) : State1 := default (mkState1 params [] 0) (t_state (w1_store w)).

Lemma votes_witness :
  vr_Balance (loadVoter (w1_store voted_world) (sample "b") 5) = 4 ∧ cast (w1_store voted_world) (Local (sample "b")) = 1 ∧
  vr_Balance (loadVoter (w1_store voted_world) (sample "b") 5) + cast (w1_store voted_world) (Local (sample "b")) = 5.
Proof.
  split_and!; [by vm_compute | by vm_compute |].
  apply (votes_are_conserved total_supply chain voted_world (state_of voted_world) (sample "b")).
  - apply voted_reached.
  - by vm_compute.
  - by repeat split.
Defined.

Lemma most_power_witness :
  ∃ wits, ListWitnesses (w1_store (Elect1 total_supply (sample_ctx (sample "b") 200) voted_world).2) = Ok wits ∧ length wits = 1%nat ∧
    tallies (s1_Params (state_of voted_world)) (sample "C") voted_world =
      [mkTally1 (mkCandidate1 (Local (sample "u")) (sample "u")) 1 50; mkTally1 (mkCandidate1 (Local (sample "v")) (sample "v")) 3 300].
Proof.
  destruct (election_picks_most_power total_supply chain (sample_ctx (sample "b") 200) voted_world
    (Elect1 total_supply (sample_ctx (sample "b") 200) voted_world).2 (state_of voted_world) (sample "C")) as (elected & others & wits & _ & _ & Hlen & _ & Hw & Hp).
  - apply voted_reached.
  - by vm_compute.
  - by vm_compute.
  - by vm_compute.
  - split; by vm_compute.
  - apply run_ok. by vm_compute.
  - exists wits. split_and!; [exact Hw | rewrite Hp, length_fmap, Hlen; by vm_compute | by vm_compute].
Defined.

(** ** Voters of another chain *)

Definition stranger : Address := mkAddress "other" (Local (sample "a")).
Definition robbed : World1 CoinWorld := (Vote (sample_ctx stranger 6) (Some (sample "v")) (-3) voted_world).2.

(** The stranger never voted, and takes back the three votes of [sample "a"]. *)
Example stranger_takes_votes :
  (Vote (sample_ctx stranger 6) (Some (sample "v")) (-3) voted_world).1 = Ok () ∧
  vr_Balance (loadVoter (w1_store robbed) stranger 5) = 8 ∧ cast (w1_store robbed) (Local (sample "a")) = 0 ∧
  vr_Balance (loadVoter (w1_store robbed) (sample "a") 5) = 2.
Proof. by vm_compute. Qed.
End Dpos1Witness.
