(* ===== verification/Dpos2Types.v ===== *)
(** * Data and storage of the second dpos contract (src/builtin/plugins/dposv2)

    The records, the arithmetic of util.go and the lists of storage.go.  The parameters,
    the state, the tally and the tiers have the fields of those of the third contract
    and are shared with it (DposTypes.v, DposMath.v).

    The contract keeps each of its lists under one key.  The Go lists hold pointers:
    [Get] returns a pointer into the list, and a write through it is [alter_first] on
    the list here.  Sorting is [go_sort]; where two records of a list compare equal
    (two delegations of a delegator to one validator) [sort.Sort] may put them in
    either order. *)

From Stdlib Require Import Ascii.
From S2P Require Import Prelude Contract DposTypes DposMath DposStorage DposHandlers.

(** ** Records *)

Record Delegation2 := mkDelegation2 {
  e_Validator : Address;
  e_Delegator : Address;
  e_UpdateValidator : option Address;
  e_Amount : Z;
  e_UpdateAmount : Z;
  e_Height : Z;
  e_LocktimeTier : Z;
  e_LockTime : Z;
  e_State : DelegationState;
}.

Record Candidate2 := mkCandidate2 {
  k_PubKey : bytes;
  k_Address : Address;
  k_Fee : Z;
  k_NewFee : Z;
  k_FeeDelayCounter : Z;
  k_Name : string;
  k_Description : string;
  k_Website : string;
}.

Record Distribution := mkDistribution { i_Address : Address; i_Amount : Z }.

(** The whitelist amount comes from a request, which may leave it out. *)
Record Statistic2 := mkStatistic2 {
  u_Address : Address;
  u_PubKey : bytes;
  u_DistributionTotal : Z;
  u_DelegationTotal : Z;
  u_SlashPercentage : Z;
  u_WhitelistAmount : option Z;
  u_WhitelistLocktime : Z;
}.

Definition e_with_Amount (x : Z) (d : Delegation2) : Delegation2 :=
  mkDelegation2 (e_Validator d) (e_Delegator d) (e_UpdateValidator d) x (e_UpdateAmount d) (e_Height d) (e_LocktimeTier d) (e_LockTime d) (e_State d).
Definition e_with_Validator (x : Address) (d : Delegation2) : Delegation2 :=
  mkDelegation2 x (e_Delegator d) (e_UpdateValidator d) (e_Amount d) (e_UpdateAmount d) (e_Height d) (e_LocktimeTier d) (e_LockTime d) (e_State d).
(** A pending update: its amount and its kind. *)
Definition e_with_Update (x : Z) (st : DelegationState) (d : Delegation2) : Delegation2 :=
  mkDelegation2 (e_Validator d) (e_Delegator d) (e_UpdateValidator d) (e_Amount d) x (e_Height d) (e_LocktimeTier d) (e_LockTime d) st.
Definition e_redelegating (v : Address) (d : Delegation2) : Delegation2 :=
  mkDelegation2 (e_Validator d) (e_Delegator d) (Some v) (e_Amount d) (e_UpdateAmount d) (e_Height d) (e_LocktimeTier d) (e_LockTime d) REDELEGATING.

Definition u_with_Distribution (x : Z) (s : Statistic2) : Statistic2 :=
  mkStatistic2 (u_Address s) (u_PubKey s) x (u_DelegationTotal s) (u_SlashPercentage s) (u_WhitelistAmount s) (u_WhitelistLocktime s).
Definition u_with_Slash (x : Z) (s : Statistic2) : Statistic2 :=
  mkStatistic2 (u_Address s) (u_PubKey s) (u_DistributionTotal s) (u_DelegationTotal s) x (u_WhitelistAmount s) (u_WhitelistLocktime s).
Definition u_with_Whitelist (amount : option Z) (locktime : Z) (s : Statistic2) : Statistic2 :=
  mkStatistic2 (u_Address s) (u_PubKey s) (u_DistributionTotal s) (u_DelegationTotal s) (u_SlashPercentage s) amount locktime.
Definition u_elected (pubkey : bytes) (total : Z) (s : Statistic2) : Statistic2 :=
  mkStatistic2 (u_Address s) pubkey (u_DistributionTotal s) total (u_SlashPercentage s) (u_WhitelistAmount s) (u_WhitelistLocktime s).

(** ** Arithmetic (util.go) *)

Definition basisPoints : Z := 10000.

Definition denom (granular : bool) : Z := if granular then billionth else basisPoints.

Definition CalculatePreciseFraction (frac total : Z) (granular : bool) : Z := bigDiv (total * frac) (denom granular).

Definition CalculateFraction (frac total : Z) (granular : bool) : Z :=
  CalculatePreciseFraction (if granular then basisPointsToBillionths frac else frac) total granular.

Definition calculateShare (delegation total rewards : Z) (granular : bool) : Z :=
  let frac := if IsZero total then 0 else bigDiv (delegation * denom granular) total in
  CalculatePreciseFraction frac rewards granular.

Definition calculateTierLocktime (tier electionCycleLength : Z) : Z :=
  if (tier =? TIER_ZERO) && (electionCycleLength <? TierLocktimeMap tier) then electionCycleLength else TierLocktimeMap tier.

(** A tier that is not in the map has the bonus nil, and multiplying it panics. *)
Definition calculateWeightedDelegationAmount (delegation : Delegation2) (granular : bool) : Res Z :=
  match TierBonusMap (e_LocktimeTier delegation) with
  | Some bonusPercentage => Ok (CalculateFraction bonusPercentage (e_Amount delegation) granular)
  | None => Panic
  end.

Definition calculateWeightedWhitelistAmount (statistic : Statistic2) : Res Z :=
  match TierBonusMap (TierMap (u_WhitelistLocktime statistic)), u_WhitelistAmount statistic with
  | Some bonus, Some amount => Ok (CalculateFraction bonus amount true)
  | _, _ => Panic
  end.

(** *** The repairs of the migration *)

Definition hex_digit (c : ascii) : N :=
  let n := N_of_ascii c in
  if (n <=? 57)%N then (n - 48)%N else if (n <=? 70)%N then (n - 55)%N else (n - 87)%N.
Fixpoint of_hex (s : string) : bytes :=
  match s with
  | String a (String b s) => String (ascii_of_N (16 * hex_digit a + hex_digit b)) (of_hex s)
  | _ => EmptyString
  end.

Definition plasmaValidators : list Address :=
  mkAddress "default" <$> (of_hex <$>
    ["0e99fc16e32e568971908f2ce54b967a42663a26"; "ac3211caecc45940a6d2ba006ca465a647d8464f";
     "69c48768dbac492908161be787b7a5658192df35"; "2a3a7c850586d4f80a12ac1952f88b1b69ef48e1";
     "4a1b8b15e50ce63cc6f65603ea79be09206cae70"; "0ce7b61c97a6d5083356f115288f9266553e191e"]).
Definition plasma0 : Address := mkAddress "default" (of_hex "0e99fc16e32e568971908f2ce54b967a42663a26").
Definition doubledDelegator : Address := mkAddress "default" (of_hex "Dc93E46f6d22D47De9D7E6d26ce8c3b7A13d89Cb").
Definition doubledValidator : Address := mkAddress "default" (of_hex "a38c27e8cf4a443e805065065aefb250b1e1cef2").

Section Lists.
Context {LIB : DiademLib}.

Definition same_local (a b : Address) : bool := local_compare (Local a) (Local b) =? 0.

Definition adjustValidatorIfInPlasmaValidators (delegation : Delegation2) : Address :=
  if existsb (same_local (e_Validator delegation)) plasmaValidators then plasma0 else e_Validator delegation.

Definition adjustDoubledDelegationAmount (delegation : Delegation2) : Z :=
  if same_local doubledValidator (e_Validator delegation) && same_local doubledDelegator (e_Delegator delegation)
  then bigDiv (e_Amount delegation) 2 else e_Amount delegation.

(** ** Lists (storage.go) *)

(** *** Delegations *)

Definition pair_is (validator delegator : Address) (d : Delegation2) : bool :=
  same_local (e_Validator d) validator && same_local (e_Delegator d) delegator.

Definition DelegationList_Get (dl : list Delegation2) (validator delegator : Address) : option Delegation2 :=
  List.find (pair_is validator delegator) dl.

(** What [Set] and [Set2] copy to the delegation that is already there. *)
Definition copy_fields (tier : bool) (x past : Delegation2) : Delegation2 :=
  mkDelegation2 (e_Validator past) (e_Delegator past) (e_UpdateValidator past) (e_Amount x) (e_UpdateAmount x) (e_Height x)
    (if tier then e_LocktimeTier x else e_LocktimeTier past) (e_LockTime x) (e_State x).

Definition set_delegation (tier : bool) (x : Delegation2) (dl : list Delegation2) : list Delegation2 :=
  match DelegationList_Get dl (e_Validator x) (e_Delegator x) with
  | None => dl ++ [x]
  | Some _ => alter_first (pair_is (e_Validator x) (e_Delegator x)) (copy_fields tier x) dl
  end.

Definition DelegationList_Set : Delegation2 → list Delegation2 → list Delegation2 := set_delegation false.
Definition DelegationList_Set2 : Delegation2 → list Delegation2 → list Delegation2 := set_delegation true.

(** [byValidatorAndDelegator.Less] *)
Definition lessValidatorAndDelegator (x y : Delegation2) : bool :=
  let diff := address_compare (e_Validator x) (e_Validator y) in
  let diff := if diff =? 0 then address_compare (e_Delegator x) (e_Delegator y) else diff in
  diff <? 0.
Definition sortDelegations (dl : list Delegation2) : list Delegation2 := go_sort lessValidatorAndDelegator dl.

(** *** Statistics *)

Definition stat_at (address : Address) (s : Statistic2) : bool := same_local (u_Address s) address.
Definition StatisticList_Get (sl : list Statistic2) (address : Address) : option Statistic2 := List.find (stat_at address) sl.

(** [byValidatorAddress.Less] *)
Definition lessValidatorAddress (x y : Statistic2) : bool := local_compare (Local (u_Address x)) (Local (u_Address y)) <? 0.
Definition sortStatistics (sl : list Statistic2) : list Statistic2 := go_sort lessValidatorAddress sl.

(** *** Distributions *)

Definition dist_of (delegator : Address) (d : Distribution) : bool := same_local (i_Address d) delegator.
Definition DistributionList_Get (dl : list Distribution) (delegator : Address) : option Distribution := List.find (dist_of delegator) dl.

Definition IncreaseDistribution (delegator : Address) (increase : Z) (dl : list Distribution) : list Distribution :=
  match DistributionList_Get dl delegator with
  | None => dl ++ [mkDistribution delegator increase]
  | Some _ => alter_first (dist_of delegator) (λ d, mkDistribution (i_Address d) (i_Amount d + increase)) dl
  end.

Definition ResetTotal (delegator : Address) (dl : list Distribution) : Res (list Distribution) :=
  match DistributionList_Get dl delegator with
  | None => Err (ErrMsg "Distribution record not found.")
  | Some _ => Ok (alter_first (dist_of delegator) (λ d, mkDistribution (i_Address d) 0) dl)
  end.

(** [byAddressAndAmount.Less]: larger addresses first. *)
Definition lessAddressAndAmount (x y : Distribution) : bool :=
  let diff := bytes_compare (Local (i_Address x)) (Local (i_Address y)) in
  let diff := if diff =? 0 then Z.sgn (i_Amount x - i_Amount y) else diff in
  0 <? diff.
Definition sortDistributions (dl : list Distribution) : list Distribution := go_sort lessAddressAndAmount dl.

(** *** Candidates *)

Definition cand_at (addr : Address) (c : Candidate2) : bool := same_local (k_Address c) addr.
Definition CandidateList_Get (c : list Candidate2) (addr : Address) : option Candidate2 := List.find (cand_at addr) c.
Definition GetByPubKey (c : list Candidate2) (pubkey : bytes) : option Candidate2 :=
  List.find (λ cand, bytes_compare (k_PubKey cand) pubkey =? 0) c.
(** The assignment to a candidate that is found goes to the loop variable. *)
Definition CandidateList_Set (cand : Candidate2) (c : list Candidate2) : list Candidate2 :=
  if existsb (λ candidate, same_local (k_Address cand) (k_Address candidate)) c then c else c ++ [cand].
Definition CandidateList_Delete (addr : Address) (c : list Candidate2) : list Candidate2 := remove_first (cand_at addr) c.

(** [byAddress.Less] *)
Definition lessAddress (x y : Candidate2) : bool := local_compare (Local (k_Address x)) (Local (k_Address y)) <? 0.
Definition sortCandidates (cands : list Candidate2) : list Candidate2 := go_sort lessAddress cands.
End Lists.

(** [LocalAddressFromPublicKeyV2] is a function of the client library. *)
Definition GetV2 (local_from_pubkey_v2 : bytes → bytes) (sl : list Statistic2) (address : bytes) : option Statistic2 :=
  List.find (λ stat, bytes_compare (local_from_pubkey_v2 (u_PubKey stat)) address =? 0) sl.

(** ** The store of the contract, a field per key *)

Record Dpos2Store := mkDpos2Store {
  s2_state : option State;
  s2_candidates : option (list Candidate2);
  s2_delegations : option (list Delegation2);
  s2_distributions : option (list Distribution);
  s2_statistics : option (list Statistic2);
  s2_tally : option RequestBatchTally;
}.

Definition empty_dpos2_store : Dpos2Store := mkDpos2Store None None None None None None.

Definition loadState (s : Dpos2Store) : Res State :=
  match s2_state s with Some state => Ok state | None => Err ErrNotFound end.
Definition loadCandidateList (s : Dpos2Store) : list Candidate2 := default [] (s2_candidates s).
Definition loadDelegationList (s : Dpos2Store) : list Delegation2 := default [] (s2_delegations s).
Definition loadDistributionList (s : Dpos2Store) : list Distribution := default [] (s2_distributions s).
Definition loadValidatorStatisticList (s : Dpos2Store) : list Statistic2 := default [] (s2_statistics s).
Definition loadRequestBatchTally (s : Dpos2Store) : RequestBatchTally := default (mkTally 0 0 0) (s2_tally s).

Section Save.
Context {LIB : DiademLib}.

Definition saveState (state : State) (s : Dpos2Store) : Dpos2Store :=
  mkDpos2Store (Some (st_with_Validators (sortValidators (st_Validators state)) state)) (s2_candidates s) (s2_delegations s)
    (s2_distributions s) (s2_statistics s) (s2_tally s).
Definition saveCandidateList (cl : list Candidate2) (s : Dpos2Store) : Dpos2Store :=
  mkDpos2Store (s2_state s) (Some (sortCandidates cl)) (s2_delegations s) (s2_distributions s) (s2_statistics s) (s2_tally s).
Definition saveDelegationList (dl : list Delegation2) (s : Dpos2Store) : Dpos2Store :=
  mkDpos2Store (s2_state s) (s2_candidates s) (Some (sortDelegations dl)) (s2_distributions s) (s2_statistics s) (s2_tally s).
Definition saveDistributionList (dl : list Distribution) (s : Dpos2Store) : Dpos2Store :=
  mkDpos2Store (s2_state s) (s2_candidates s) (s2_delegations s) (Some (sortDistributions dl)) (s2_statistics s) (s2_tally s).
Definition saveValidatorStatisticList (sl : list Statistic2) (s : Dpos2Store) : Dpos2Store :=
  mkDpos2Store (s2_state s) (s2_candidates s) (s2_delegations s) (s2_distributions s) (Some (sortStatistics sl)) (s2_tally s).
Definition saveRequestBatchTally (tally : RequestBatchTally) (s : Dpos2Store) : Dpos2Store :=
  mkDpos2Store (s2_state s) (s2_candidates s) (s2_delegations s) (s2_distributions s) (s2_statistics s) (Some tally).
End Save.
