(* ===== verification/Dpos2Handlers.v ===== *)
(** * Calls of the second dpos contract (src/builtin/plugins/dposv2/dpos.go)

    One definition per method; elections, rewards and the migration to the third
    contract are in Dpos2Election.v.  The world is the contract's store, the state of
    the token contracts and the events.  Every method that writes first asks whether the
    third contract has taken over.  A method whose context is static is a function of
    the store. *)

From S2P Require Import Prelude Contract DposTypes DposMath DposStorage DposHandlers Dpos2Types.

(** The context with the two feature flags that the contract asks for. *)
Record Ctx2 := mkCtx2 { c2_ctx :> Ctx; DPOSVersion3Feature : bool; DPOSVersion2_1 : bool }.

Definition errContractDisabled : error := ErrMsg "Contract disabled after migration to DPOSv3.".

Record World2 (L : Type) := mkWorld2 { w2_store : Dpos2Store; w2_ledger : L; w2_events : list DposEvent }.
Arguments mkWorld2 {L}.
Arguments w2_store {L}.
Arguments w2_ledger {L}.
Arguments w2_events {L}.

(** ** Requests *)

Record DelegateRequest := mkDelegateRequest {
  dq_ValidatorAddress : option Address; dq_Amount : option Z; dq_LocktimeTier : Z; dq_Referrer : string }.
Record RedelegateRequest := mkRedelegateRequest {
  rq_FormerValidatorAddress : option Address; rq_ValidatorAddress : option Address; rq_Amount : option Z; rq_Referrer : string }.
Record UnbondRequest := mkUnbondRequest { uq_ValidatorAddress : option Address; uq_Amount : option Z }.
Record WhitelistCandidateRequest := mkWhitelistRequest {
  wq_CandidateAddress : option Address; wq_Amount : option Z; wq_LockTime : Z }.
Record RegisterCandidateRequest := mkRegisterRequest {
  cq_PubKey : bytes; cq_Fee : Z; cq_Name : string; cq_Description : string; cq_Website : string; cq_LocktimeTier : Z }.
Record UpdateCandidateInfoRequest := mkUpdateInfoRequest { iq_Name : string; iq_Description : string; iq_Website : string }.
Inductive BatchPayload :=
  | BatchRequestV2_WhitelistCandidate (req : WhitelistCandidateRequest)
  | BatchRequestV2_Other.
Record BatchRequest := mkBatchRequest { bq_Payload : BatchPayload; bq_Meta : option BatchRequestMeta }.

Section Handlers.
Context {LIB : DiademLib} {L : Type} {TOKEN : ERC20 L}.
Abbreviation W := (World2 L).

(** ** Steps *)

Definition from_store {A} (f : Dpos2Store → A) : M W A := gets (λ w, f (w2_store w)).
Definition on_store (f : Dpos2Store → Dpos2Store) : M W unit := modify (λ w, mkWorld2 (f (w2_store w)) (w2_ledger w) (w2_events w)).
Definition emit (e : DposEvent) : M W unit := modify (λ w, mkWorld2 (w2_store w) (w2_ledger w) (w2_events w ++ [e])).
Definition get_state : M W State := λ w, (loadState (w2_store w), w).
Definition set_ledger (l : L) (w : W) : W := mkWorld2 (w2_store w) l (w2_events w).

Definition emitElectionEvent (ctx : Ctx2) : M W unit := emit (DposElectionEvent (u64 (ctx_height ctx))).
Definition emitSlashEvent (validator : Address) (slashPercentage : Z) : M W unit := emit (DposSlashEvent validator slashPercentage).
Definition emitCandidateRegistersEvent (candidate : Address) (fee : Z) : M W unit := emit (DposCandidateRegistersEvent candidate fee).
Definition emitCandidateUnregistersEvent (candidate : Address) : M W unit := emit (DposCandidateUnregistersEvent candidate).
Definition emitCandidateFeeChangeEvent (candidate : Address) (fee : Z) : M W unit := emit (DposCandidateFeeChangeEvent candidate fee).
Definition emitUpdateCandidateInfoEvent (candidate : Address) : M W unit := emit (DposUpdateCandidateInfoEvent candidate).
Definition emitDelegatorDelegatesEvent (delegator : Address) (amount : option Z) (referrer : string) : M W unit :=
  emit (DposDelegatorDelegatesEvent delegator amount referrer).
Definition emitDelegatorRedelegatesEvent (delegator : Address) (amount : option Z) (referrer : string) : M W unit :=
  emit (DposDelegatorRedelegatesEvent delegator amount referrer).
Definition emitDelegatorUnbondsEvent (delegator : Address) (amount : option Z) : M W unit :=
  emit (DposDelegatorUnbondsEvent delegator amount).

Definition loadCoin (params : Params) : M W Address := deref (p_CoinContractAddress params).

Definition ERC20_Transfer (ctx : Ctx2) (coin to : Address) (amount : Z) : M W unit :=
  zoom w2_ledger set_ledger (erc20_transfer coin (ctx_contract ctx) to amount).
Definition ERC20_TransferFrom (ctx : Ctx2) (coin from to : Address) (amount : Z) : M W unit :=
  zoom w2_ledger set_ledger (erc20_transfer_from coin (ctx_contract ctx) from to amount).
Definition ERC20Static_BalanceOf (coin owner : Address) : M W Z := gets (λ w, erc20_balance coin (w2_ledger w) owner).

(** The check at the head of every method that writes. *)
Definition not_disabled (ctx : Ctx2) : M W unit := guard_not (DPOSVersion3Feature ctx) errContractDisabled.

Definition isOracle (ctx : Ctx2) (state : State) : bool :=
  match p_OracleAddress (st_Params state) with None => false | Some oracle => same_local (ctx_sender ctx) oracle end.

(** The locked time of a tier, by version. *)
Definition tier_time (ctx : Ctx2) (params : Params) (tier : Z) : Z :=
  if DPOSVersion2_1 ctx then TierLocktimeMap tier else calculateTierLocktime tier (u64 (p_ElectionCycleLength params)).

Definition require_candidate (addr : Address) : M W unit :=
  candidates ← from_store loadCandidateList;
  match CandidateList_Get candidates addr with Some _ => mret () | None => throw errCandidateNotFound end.

Definition positive_amount (amount : option Z) : M W Z :=
  match amount with
  | Some x => if IsPositive x then mret x else throw (ErrMsg "Must Delegate a positive number of tokens.")
  | None => throw (ErrMsg "Must Delegate a positive number of tokens.")
  end.

(** [Amount] of a delegation that is added to: that of a bonded one, or zero. *)
Definition bonded_amount (prior : option Delegation2) : M W Z :=
  match prior with
  | Some p => if bool_decide (e_State p = BONDED) then mret (e_Amount p) else throw (ErrMsg "Existing delegation not in BONDED state.")
  | None => mret 0
  end.

(** ** Delegation *)

Definition Init (ctx : Ctx2) (params : option Params) (validators : list Validator) : M W unit :=
  not_disabled ctx;;
  params ← deref params;
  coinAddr ← match p_CoinContractAddress params with Some a => mret a | None => ctx_resolve ctx "coin" end;
  let params := mkParams (p_ValidatorCount params) (p_ElectionCycleLength params) (Some coinAddr) (p_OracleAddress params)
    (Some (default (scientificNotation defaultMaxYearlyReward tokenDecimals) (p_MaxYearlyReward params)))
    (Some (default (scientificNotation defaultRegistrationRequirement tokenDecimals) (p_RegistrationRequirement params)))
    (Some (default inactivitySlashPercentage (p_CrashSlashingPercentage params)))
    (Some (default doubleSignSlashPercentage (p_ByzantineSlashingPercentage params))) in
  on_store (saveState (mkState params validators 0 0 0)).

Definition Delegate (ctx : Ctx2) (req : DelegateRequest) : M W unit :=
  not_disabled ctx;;
  let delegator := ctx_sender ctx in
  validator ← deref (dq_ValidatorAddress req);
  require_candidate validator;;
  reqAmount ← positive_amount (dq_Amount req);
  state ← get_state;
  coin ← loadCoin (st_Params state);
  ERC20_TransferFrom ctx coin delegator (ctx_contract ctx) reqAmount;;
  delegations ← from_store loadDelegationList;
  let priorDelegation := DelegationList_Get delegations validator delegator in
  amount ← bonded_amount priorDelegation;
  guard_not (3 <? dq_LocktimeTier req) (ErrMsg "Invalid delegation tier");;
  let locktimeTier := TierMap (dq_LocktimeTier req) in
  let now := u64 (ctx_now ctx) in
  let tierTime := match priorDelegation with
                  | Some p => tier_time ctx (st_Params state) (if e_LocktimeTier p <=? locktimeTier then locktimeTier else e_LocktimeTier p)
                  | None => tier_time ctx (st_Params state) locktimeTier
                  end in
  let lockTime := u64 (now + tierTime) in
  guard_not (lockTime <? now) (ErrMsg "Overflow in set locktime!");;
  let delegation := mkDelegation2 validator delegator None amount reqAmount (u64 (ctx_height ctx)) locktimeTier lockTime BONDING in
  on_store (saveDelegationList (DelegationList_Set delegation delegations));;
  emitDelegatorDelegatesEvent delegator (Some reqAmount) (dq_Referrer req).

Definition Redelegate (ctx : Ctx2) (req : RedelegateRequest) : M W unit :=
  not_disabled ctx;;
  let delegator := ctx_sender ctx in
  former ← deref (rq_FormerValidatorAddress req);
  validator ← deref (rq_ValidatorAddress req);
  guard_not (same_local former validator) (ErrMsg "Redelegating self-delegations is not permitted.");;
  guard_not (match rq_Amount req with Some x => negb (IsPositive x) | None => false end)
    (ErrMsg "Must Redelegate a positive number of tokens.");;
  (if negb (same_local validator limboValidatorAddress) then require_candidate validator else mret ());;
  delegations ← from_store loadDelegationList;
  match DelegationList_Get delegations former delegator with
  | None => throw (ErrMsg "No delegation to redelegate.")
  | Some priorDelegation =>
      delegations ←
        (if match rq_Amount req with None => true | Some x => e_Amount priorDelegation =? x end then
           mret (alter_first (pair_is former delegator) (e_redelegating validator) delegations)
         else
           amount ← deref (rq_Amount req);
           if e_Amount priorDelegation <? amount then throw (ErrMsg "Redelegation amount out of range.")
           else
             let delegations := alter_first (pair_is former delegator) (e_with_Update amount UNBONDING) delegations in
             let delegation := mkDelegation2 validator (e_Delegator priorDelegation) None 0 amount (u64 (ctx_height ctx))
               (e_LocktimeTier priorDelegation) (e_LockTime priorDelegation) BONDING in
             mret (DelegationList_Set delegation delegations));
      on_store (saveDelegationList delegations);;
      emitDelegatorRedelegatesEvent delegator (rq_Amount req) (rq_Referrer req)
  end.

Definition Delegate2 (ctx : Ctx2) (req : DelegateRequest) : M W unit :=
  not_disabled ctx;;
  let delegator := ctx_sender ctx in
  (if DPOSVersion2_1 ctx then
     match dq_ValidatorAddress req with
     | None => throw (ErrMsg "Delegate2 called with req.ValidatorAddress == nil")
     | Some v => guard_not (negb (String.eqb (ChainID v) (ctx_chain ctx)))
                   (ErrMsg "Delegate2 called with invalid chainId for req.ValidatorAddress")
     end
   else mret ());;
  validator ← deref (dq_ValidatorAddress req);
  require_candidate validator;;
  reqAmount ← positive_amount (dq_Amount req);
  state ← get_state;
  coin ← loadCoin (st_Params state);
  ERC20_TransferFrom ctx coin delegator (ctx_contract ctx) reqAmount;;
  delegations ← from_store loadDelegationList;
  let priorDelegation := DelegationList_Get delegations validator delegator in
  amount ← bonded_amount priorDelegation;
  guard_not ((dq_LocktimeTier req <? 0) || (3 <? dq_LocktimeTier req)) (ErrMsg "Invalid delegation tier");;
  let locktimeTier := TierMap (dq_LocktimeTier req) in
  let locktimeTier := match priorDelegation with
                      | Some p => if locktimeTier <? e_LocktimeTier p then e_LocktimeTier p else locktimeTier
                      | None => locktimeTier
                      end in
  let tierTime := tier_time ctx (st_Params state) locktimeTier in
  let now := u64 (ctx_now ctx) in
  let lockTime := u64 (now + tierTime) in
  guard_not (lockTime <? now) (ErrMsg "Overflow in set locktime!");;
  let delegation := mkDelegation2 validator delegator None amount reqAmount (u64 (ctx_height ctx)) locktimeTier lockTime BONDING in
  on_store (saveDelegationList (DelegationList_Set2 delegation delegations));;
  emitDelegatorDelegatesEvent delegator (Some reqAmount) (dq_Referrer req).

Definition Unbond (ctx : Ctx2) (req : UnbondRequest) : M W unit :=
  not_disabled ctx;;
  let delegator := ctx_sender ctx in
  delegations ← from_store loadDelegationList;
  validator ← deref (uq_ValidatorAddress req);
  match DelegationList_Get delegations validator delegator with
  | None => throw (ErrMsg "delegation not found")
  | Some delegation =>
      amount ← deref (uq_Amount req);
      if e_Amount delegation <? amount then throw (ErrMsg "Unbond amount exceeds delegation amount.")
      else if u64 (ctx_now ctx) <? e_LockTime delegation then throw (ErrMsg "Delegation currently locked.")
      else if negb (bool_decide (e_State delegation = BONDED)) then throw (ErrMsg "Existing delegation not in BONDED state.")
      else
        on_store (saveDelegationList (alter_first (pair_is validator delegator) (e_with_Update amount UNBONDING) delegations));;
        emitDelegatorUnbondsEvent delegator (Some amount)
  end.

Definition CheckDelegation (s : Dpos2Store) (validator delegator : option Address) : Res Delegation2 :=
  match validator, delegator with
  | None, _ => Err (ErrMsg "CheckDelegation called with req.ValidatorAddress == nil")
  | _, None => Err (ErrMsg "CheckDelegation called with req.DelegatorAddress == nil")
  | Some v, Some d =>
      Ok (default (mkDelegation2 v d None 0 0 0 0 0 BONDING) (DelegationList_Get (loadDelegationList s) v d))
  end.

(** The loop of the two queries below: amount, weighted amount and the delegations. *)
Fixpoint sum_delegations (v2_1 : bool) (l : list Delegation2) : Res (Z * Z) :=
  match l with
  | [] => Ok (0, 0)
  | d :: l =>
      weightedAmount ← calculateWeightedDelegationAmount d v2_1;
      '(a, wa) ← sum_delegations v2_1 l;
      Ok (e_Amount d + a, weightedAmount + wa)
  end.

Definition TotalDelegation (ctx : Ctx2) (s : Dpos2Store) (delegator : option Address) : Res (Z * Z) :=
  match delegator with
  | None => Err (ErrMsg "TotalDelegation called with req.DelegatorAddress == nil")
  | Some a => sum_delegations (DPOSVersion2_1 ctx) (filter (λ d, same_local (e_Delegator d) a = true) (loadDelegationList s))
  end.

Definition CheckAllDelegations (ctx : Ctx2) (s : Dpos2Store) (delegator : option Address) : Res (Z * Z * list Delegation2) :=
  match delegator with
  | None => Err (ErrMsg "CheckAllDelegations called with req.DelegatorAddress == nil")
  | Some a =>
      let l := filter (λ d, same_local (e_Delegator d) a = true) (loadDelegationList s) in
      '(amount, weighted) ← sum_delegations (DPOSVersion2_1 ctx) l;
      Ok (amount, weighted, l)
  end.

(** ** Whitelist *)

Definition addCandidateToStatisticList (req : WhitelistCandidateRequest) : M W unit :=
  statistics ← from_store loadValidatorStatisticList;
  candidate ← deref (wq_CandidateAddress req);
  match StatisticList_Get statistics candidate with
  | None => on_store (saveValidatorStatisticList (statistics ++ [mkStatistic2 candidate "" 0 0 0 (wq_Amount req) (wq_LockTime req)]))
  | Some _ => throw (ErrMsg "Cannot whitelist an already whitelisted candidate.")
  end.

Definition WhitelistCandidate (ctx : Ctx2) (req : WhitelistCandidateRequest) : M W unit :=
  not_disabled ctx;;
  state ← get_state;
  guard_not (negb (isOracle ctx state)) errOnlyOracle;;
  addCandidateToStatisticList req.

(** The three methods that change the whitelist entry of a candidate. *)
Definition change_whitelist (ctx : Ctx2) (candidateAddress : option Address) (f : Statistic2 → Statistic2) : M W unit :=
  not_disabled ctx;;
  state ← get_state;
  guard_not (negb (isOracle ctx state)) errOnlyOracle;;
  statistics ← from_store loadValidatorStatisticList;
  candidate ← deref candidateAddress;
  match StatisticList_Get statistics candidate with
  | None => throw (ErrMsg "Candidate is not whitelisted.")
  | Some _ => on_store (saveValidatorStatisticList (alter_first (stat_at candidate) f statistics))
  end.

Definition RemoveWhitelistedCandidate (ctx : Ctx2) (candidateAddress : option Address) : M W unit :=
  change_whitelist ctx candidateAddress (u_with_Whitelist (Some 0) 0).
Definition ChangeWhitelistAmount (ctx : Ctx2) (candidateAddress : option Address) (amount : option Z) : M W unit :=
  change_whitelist ctx candidateAddress (λ s, u_with_Whitelist amount (u_WhitelistLocktime s) s).
Definition ChangeWhitelistLockTimeTier (ctx : Ctx2) (candidateAddress : option Address) (tier : Z) : M W unit :=
  change_whitelist ctx candidateAddress (λ s, u_with_Whitelist (u_WhitelistAmount s) tier s).

(** ** Candidates *)

(** The body of [RegisterCandidate] and [RegisterCandidate2], which only differ in the
    [NewFee] of the record. *)
Definition register (newFee : Z) (ctx : Ctx2) (req : RegisterCandidateRequest) : M W unit :=
  not_disabled ctx;;
  let candidateAddress := ctx_sender ctx in
  candidates ← from_store loadCandidateList;
  guard_not (negb (local_compare (Local candidateAddress) (local_from_pubkey (cq_PubKey req)) =? 0))
    (ErrMsg "Public key does not match address.");;
  guard_not (bool_decide (is_Some (CandidateList_Get candidates candidateAddress))) errCandidateNotFound;;
  statistics ← from_store loadValidatorStatisticList;
  state ← get_state;
  notWhitelisted ← match StatisticList_Get statistics candidateAddress with
                   | None => mret true
                   | Some st => x ← deref (u_WhitelistAmount st); mret (IsZero x)
                   end;
  (if notWhitelisted : bool then
     requirement ← deref (p_RegistrationRequirement (st_Params state));
     if IsPositive requirement then
       coin ← loadCoin (st_Params state);
       ERC20_TransferFrom ctx coin candidateAddress (ctx_contract ctx) requirement;;
       delegations ← from_store loadDelegationList;
       guard_not (3 <? cq_LocktimeTier req) (ErrMsg "Invalid locktime tier");;
       let locktimeTier := TierMap (cq_LocktimeTier req) in
       let lockTime := u64 (u64 (ctx_now ctx) + tier_time ctx (st_Params state) locktimeTier) in
       on_store (saveDelegationList (DelegationList_Set (mkDelegation2 candidateAddress candidateAddress None 0 requirement
         (u64 (ctx_height ctx)) locktimeTier lockTime BONDING) delegations))
     else mret ()
   else mret ());;
  let newCandidate := mkCandidate2 (cq_PubKey req) candidateAddress (cq_Fee req) newFee 0 (cq_Name req) (cq_Description req) (cq_Website req) in
  on_store (saveCandidateList (CandidateList_Set newCandidate candidates));;
  emitCandidateRegistersEvent candidateAddress (cq_Fee req).

Definition RegisterCandidate2 (ctx : Ctx2) (req : RegisterCandidateRequest) : M W unit := register (cq_Fee req) ctx req.
Definition RegisterCandidate (ctx : Ctx2) (req : RegisterCandidateRequest) : M W unit := register 0 ctx req.

Definition ChangeFee (ctx : Ctx2) (fee : Z) : M W unit :=
  not_disabled ctx;;
  let candidateAddress := ctx_sender ctx in
  candidates ← from_store loadCandidateList;
  match CandidateList_Get candidates candidateAddress with
  | None => throw errCandidateNotFound
  | Some _ =>
      on_store (saveCandidateList (alter_first (cand_at candidateAddress)
        (λ c, mkCandidate2 (k_PubKey c) (k_Address c) (k_Fee c) fee 0 (k_Name c) (k_Description c) (k_Website c)) candidates));;
      emitCandidateFeeChangeEvent candidateAddress fee
  end.

Definition UpdateCandidateInfo (ctx : Ctx2) (req : UpdateCandidateInfoRequest) : M W unit :=
  not_disabled ctx;;
  let candidateAddress := ctx_sender ctx in
  candidates ← from_store loadCandidateList;
  match CandidateList_Get candidates candidateAddress with
  | None => throw errCandidateNotFound
  | Some _ =>
      on_store (saveCandidateList (alter_first (cand_at candidateAddress)
        (λ c, mkCandidate2 (k_PubKey c) (k_Address c) (k_Fee c) (k_NewFee c) (k_FeeDelayCounter c) (iq_Name req) (iq_Description req) (iq_Website req))
        candidates));;
      emitUpdateCandidateInfoEvent candidateAddress
  end.

(** Slashes the delegations of a validator and its whitelist amount: the lists in
    memory.  A validator without statistic has the pointer nil. *)
Definition slashValidatorDelegations (delegations : list Delegation2) (statistic : option Statistic2) (validatorAddress : Address) (v2_1 : bool) :
    Res (list Delegation2 * Statistic2) :=
  match statistic with
  | None => Panic
  | Some statistic =>
      match u_WhitelistAmount statistic with
      | None => Panic
      | Some whitelistAmount =>
          let percentage := u_SlashPercentage statistic in
          let slash1 d := if same_local (e_Validator d) validatorAddress
                          then e_with_Amount (e_Amount d - CalculateFraction percentage (e_Amount d) v2_1) d else d in
          let whitelistAmount := if IsZero whitelistAmount then whitelistAmount
                                 else whitelistAmount - CalculateFraction percentage whitelistAmount v2_1 in
          Ok (slash1 <$> delegations, u_with_Slash 0 (u_with_Whitelist (Some whitelistAmount) (u_WhitelistLocktime statistic) statistic))
      end
  end.

Definition UnregisterCandidate (ctx : Ctx2) : M W unit :=
  not_disabled ctx;;
  let candidateAddress := ctx_sender ctx in
  candidates ← from_store loadCandidateList;
  match CandidateList_Get candidates candidateAddress with
  | None => throw errCandidateNotFound
  | Some _ =>
      delegations ← from_store loadDelegationList;
      statistics ← from_store loadValidatorStatisticList;
      (* the slashed statistic is not saved *)
      r ← lift_res (slashValidatorDelegations delegations (StatisticList_Get statistics candidateAddress) candidateAddress (DPOSVersion2_1 ctx));
      let '(delegations, _) := (r : list Delegation2 * Statistic2) in
      match DelegationList_Get delegations candidateAddress candidateAddress with
      | None => mret ()
      | Some delegation =>
          if u64 (ctx_now ctx) <? e_LockTime delegation then throw (ErrMsg "Validator's self-delegation currently locked.")
          else if negb (bool_decide (e_State delegation = BONDED)) then throw (ErrMsg "Existing delegation not in BONDED state.")
          else
            on_store (saveDelegationList (alter_first (pair_is candidateAddress candidateAddress)
              (e_with_Update (e_Amount delegation) UNBONDING) delegations))
      end;;
      on_store (saveCandidateList (CandidateList_Delete candidateAddress candidates));;
      emitCandidateUnregistersEvent candidateAddress
  end.

Definition ListCandidates (s : Dpos2Store) : list Candidate2 := loadCandidateList s.

Definition ListDelegations (s : Dpos2Store) (candidate : option Address) : Res (list Delegation2 * Z) :=
  match candidate with
  | None => Err (ErrMsg "ListDelegations called with req.Candidate == nil")
  | Some a =>
      let l := filter (λ d, same_local (e_Validator d) a = true) (loadDelegationList s) in
      Ok (l, foldl (λ total d, total + e_Amount d) 0 l)
  end.

Fixpoint list_all (s : Dpos2Store) (candidates : list Candidate2) : Res (list (list Delegation2 * Z)) :=
  match candidates with
  | [] => Ok []
  | c :: cs => response ← ListDelegations s (Some (k_Address c)); responses ← list_all s cs; Ok (response :: responses)
  end.
Definition ListAllDelegations (s : Dpos2Store) : Res (list (list Delegation2 * Z)) := list_all s (loadCandidateList s).

(** ** Rewards that were distributed *)

Definition ClaimDistribution (ctx : Ctx2) (withdrawalAddress : option Address) : M W Z :=
  not_disabled ctx;;
  distributions ← from_store loadDistributionList;
  let delegator := ctx_sender ctx in
  match DistributionList_Get distributions delegator with
  | None => throw (ErrMsg "distribution not found")
  | Some distribution =>
      state ← get_state;
      coin ← loadCoin (st_Params state);
      to ← deref withdrawalAddress;
      ERC20_Transfer ctx coin to (i_Amount distribution);;
      distributions ← lift_res (ResetTotal delegator distributions);
      on_store (saveDistributionList distributions);;
      mret (i_Amount distribution)
  end.

Definition CheckDistribution (s : Dpos2Store) (address : option Address) : Res Z :=
  match address with
  | None => Err (ErrMsg "Must provide a valid address")
  | Some a => match DistributionList_Get (loadDistributionList s) a with
              | None => Err (ErrMsg "Distribution record not found.")
              | Some d => Ok (i_Amount d)
              end
  end.

Definition GetDistributions (s : Dpos2Store) : list Distribution := loadDistributionList s.

(** ** State and oracle *)

Definition TimeUntilElection (ctx : Ctx2) (s : Dpos2Store) : Res Z :=
  state ← loadState s;
  Ok (i64 (p_ElectionCycleLength (st_Params state) - i64 (ctx_now ctx - st_LastElectionTime state))).

Definition ValidatorList (s : Dpos2Store) : Res (list Validator) := state ← loadState s; Ok (st_Validators state).

Definition validator_address (ctx : Ctx2) (v : Validator) : Address := mkAddress (ctx_chain ctx) (local_from_pubkey (v_PubKey v)).

(** [None] where the code shows a statistic without amounts. *)
Definition ListValidators (ctx : Ctx2) (s : Dpos2Store) : Res (list (Address * bytes * option Statistic2)) :=
  validators ← ValidatorList s;
  Ok ((λ v, let address := validator_address ctx v in
            (address, v_PubKey v, StatisticList_Get (loadValidatorStatisticList s) address)) <$> (validators : list Validator)).

Definition ListValidatorsSimple (ctx : Ctx2) (s : Dpos2Store) : Res (list (bytes * Address)) :=
  validators ← ValidatorList s;
  Ok ((λ v, (v_PubKey v, validator_address ctx v)) <$> (validators : list Validator)).

Definition CheckRewards (s : Dpos2Store) : Res Z := state ← loadState s; Ok (st_TotalRewardDistribution state).
Definition GetState (s : Dpos2Store) : Res State := loadState s.
Definition GetRequestBatchTally (s : Dpos2Store) : RequestBatchTally := loadRequestBatchTally s.

(** A failing whitelist request leaves the loop; an unsupported request sets the error
    and goes on. *)
Fixpoint processBatch (err : option error) (tally : RequestBatchTally) (batch : list BatchRequest) : M W (option error * RequestBatchTally) :=
  match batch with
  | [] => mret (err, tally)
  | request :: batch =>
      match bq_Payload request with
      | BatchRequestV2_WhitelistCandidate payload =>
          meta ← deref (bq_Meta request);
          if isRequestAlreadySeen meta tally then processBatch err tally batch
          else
            r ← try_ (addCandidateToStatisticList payload);
            match r with
            | inr e => mret (Some e, tally)
            | inl _ => processBatch None (mkTally (BlockNumber meta) (TxIndex meta) (LogIndex meta)) batch
            end
      | BatchRequestV2_Other => processBatch (Some (ErrMsg "unsupported type of request in request batch")) tally batch
      end
  end.

Definition ProcessRequestBatch (ctx : Ctx2) (batch : list BatchRequest) : M W unit :=
  not_disabled ctx;;
  state ← get_state;
  guard_not (negb (isOracle ctx state)) (ErrMsg "[ProcessRequestBatch] only oracle is authorized to call ProcessRequestBatch");;
  match last batch with
  | None => throw (ErrMsg "[ProcessRequestBatch] invalid Request, no batch request found")
  | Some lastRequest =>
      tally ← from_store loadRequestBatchTally;
      meta ← deref (bq_Meta lastRequest);
      guard_not (isRequestAlreadySeen meta tally) (ErrMsg "[ProcessRequestBatch] invalid Request, all events has been already seen");;
      r ← processBatch None tally batch;
      let '(err, tally) := r in
      match err with
      | Some _ => throw (ErrMsg "[ProcessRequestBatch] unable to consume one or more request")
      | None => on_store (saveRequestBatchTally tally)
      end
  end.

(** The setters check the oracle, change a parameter and save. *)
Definition set_params (ctx : Ctx2) (f : Params → Params) : M W unit :=
  not_disabled ctx;;
  state ← get_state;
  guard_not (negb (isOracle ctx state)) errOnlyOracle;;
  on_store (saveState (st_with_Params (f (st_Params state)) state)).

Definition SetElectionCycle (ctx : Ctx2) (electionCycle : Z) : M W unit :=
  set_params ctx (λ p, mkParams (p_ValidatorCount p) electionCycle (p_CoinContractAddress p) (p_OracleAddress p) (p_MaxYearlyReward p)
    (p_RegistrationRequirement p) (p_CrashSlashingPercentage p) (p_ByzantineSlashingPercentage p)).
Definition SetMaxYearlyReward (ctx : Ctx2) (maxYearlyReward : option Z) : M W unit :=
  set_params ctx (λ p, mkParams (p_ValidatorCount p) (p_ElectionCycleLength p) (p_CoinContractAddress p) (p_OracleAddress p) maxYearlyReward
    (p_RegistrationRequirement p) (p_CrashSlashingPercentage p) (p_ByzantineSlashingPercentage p)).
Definition SetRegistrationRequirement (ctx : Ctx2) (requirement : option Z) : M W unit :=
  set_params ctx (λ p, mkParams (p_ValidatorCount p) (p_ElectionCycleLength p) (p_CoinContractAddress p) (p_OracleAddress p) (p_MaxYearlyReward p)
    requirement (p_CrashSlashingPercentage p) (p_ByzantineSlashingPercentage p)).
(** The requested count is not used. *)
Definition SetValidatorCount (ctx : Ctx2) (validatorCount : Z) : M W unit := set_params ctx (λ p, p).
Definition SetOracleAddress (ctx : Ctx2) (oracle : option Address) : M W unit :=
  set_params ctx (λ p, mkParams (p_ValidatorCount p) (p_ElectionCycleLength p) (p_CoinContractAddress p) oracle (p_MaxYearlyReward p)
    (p_RegistrationRequirement p) (p_CrashSlashingPercentage p) (p_ByzantineSlashingPercentage p)).
Definition SetSlashingPercentages (ctx : Ctx2) (crash byzantine : option Z) : M W unit :=
  set_params ctx (λ p, mkParams (p_ValidatorCount p) (p_ElectionCycleLength p) (p_CoinContractAddress p) (p_OracleAddress p) (p_MaxYearlyReward p)
    (p_RegistrationRequirement p) crash byzantine).
End Handlers.
