(* ===== verification/Dpos2Election.v ===== *)
(** * Elections of the second dpos contract and the migration to the third
      (src/builtin/plugins/dposv2/dpos.go, src/migrations/dposv3_migration.go,
      src/plugin/validators_manager.go)

    [Elect] loads the lists, settles rewards and delegations in memory and saves them.
    Maps by address string are [gmap]s, and the order in which Go walks through a map
    does not matter, since the results are sorted.  [Dump] packs the contract's records
    into those of the third contract, whose model is in DposHandlers.v. *)

From S2P Require Import Prelude Contract DposTypes DposMath DposStorage DposHandlers ValidatorsManager Dpos2Types Dpos2Handlers.

Definition feeChangeDelay : Z := 2.
Definition powerCorrection : Z := 1000000000.

Section Elections.
Context {LIB : DiademLib} {L : Type} {TOKEN : ERC20 L}.
(** [LocalAddressFromPublicKeyV2] of the client library. *)
Context (local_from_pubkey_v2 : bytes → bytes).
Abbreviation W := (World2 L).

(** ** Faults *)

Definition slash (validatorAddr : bytes) (slashPercentage : Z) : M W unit :=
  statistics ← from_store loadValidatorStatisticList;
  match GetV2 local_from_pubkey_v2 statistics validatorAddr with
  | None => throw (ErrMsg "Cannot slash default validator.")
  | Some stat =>
      if slashPercentage <? u_SlashPercentage stat then mret ()
      else
        on_store (saveValidatorStatisticList (alter_first (λ s, bytes_compare (local_from_pubkey_v2 (u_PubKey s)) validatorAddr =? 0)
          (u_with_Slash (u_SlashPercentage stat + slashPercentage)) statistics));;
        emitSlashEvent (u_Address stat) slashPercentage
  end.

Definition SlashInactivity (validatorAddr : bytes) : M W unit :=
  state ← get_state; percentage ← deref (p_CrashSlashingPercentage (st_Params state)); slash validatorAddr percentage.
Definition SlashDoubleSign (validatorAddr : bytes) : M W unit :=
  state ← get_state; percentage ← deref (p_ByzantineSlashingPercentage (st_Params state)); slash validatorAddr percentage.

(** ** Rewards of the validators *)

(** What an election works on: the state and the lists, in memory. *)
Record Books := mkBooks {
  b_state : State;
  b_statistics : list Statistic2;
  b_delegations : list Delegation2;
  b_distributions : list Distribution;
  formerValidatorTotals : gmap string Z;
  delegatorRewards : gmap string Z;
}.

(** The new [DistributionTotal] of a statistic. *)
Definition rewardValidator (statistic : Statistic2) (params : Params) (totalValidatorDelegations : Z) (v2_1 : bool) : Res Z :=
  match p_MaxYearlyReward params with
  | None => Panic
  | Some maxYearlyReward =>
      let cycleSeconds := p_ElectionCycleLength params in
      let reward := CalculateFraction blockRewardPercentage (u_DelegationTotal statistic) v2_1 in
      let yearlyRewardTotal := CalculateFraction blockRewardPercentage totalValidatorDelegations v2_1 in
      let reward := if maxYearlyReward <? yearlyRewardTotal then bigDiv (reward * maxYearlyReward) yearlyRewardTotal else reward in
      let cycleSeconds := if cycleSeconds =? 0 then 2 else cycleSeconds in
      Ok (u_DistributionTotal statistic + bigDiv (reward * cycleSeconds) secondsInYear)
  end.

(** The branch of a validator without faults: the reward in all, the distributions and
    the share of the delegators. *)
Definition reward_faultless (candidate : Candidate2) (statistic : Statistic2) (v2_1 : bool) (b : Books) : Res (Z * list Distribution * Z) :=
  distributionTotal ← rewardValidator statistic (st_Params (b_state b)) (st_TotalValidatorDelegations (b_state b)) v2_1;
  let validatorShare := CalculateFraction (i64 (k_Fee candidate)) distributionTotal v2_1 in
  let distributions := IncreaseDistribution (k_Address candidate) validatorShare (b_distributions b) in
  let delegatorsShare := distributionTotal - validatorShare in
  match u_WhitelistAmount statistic with
  | None => Panic
  | Some whitelist =>
      if IsZero whitelist then Ok (distributionTotal, distributions, delegatorsShare)
      else
        amount ← (if v2_1 then calculateWeightedWhitelistAmount statistic else Ok whitelist);
        Ok (distributionTotal,
            IncreaseDistribution (k_Address candidate) (calculateShare amount (u_DelegationTotal statistic) delegatorsShare v2_1) distributions,
            delegatorsShare)
  end.

(** The body of the loop over the validators. *)
Definition reward_step (candidates : list Candidate2) (v2_1 : bool) (b : Books) (validator : Validator) : Res Books :=
  match GetByPubKey candidates (v_PubKey validator) with
  | None => Ok b
  | Some candidate =>
      let candidateAddress := k_Address candidate in
      let validatorKey := address_string candidateAddress in
      match StatisticList_Get (b_statistics b) candidateAddress with
      | None =>
          Ok (mkBooks (b_state b) (b_statistics b) (b_delegations b) (b_distributions b)
                (<[validatorKey := 0]> (formerValidatorTotals b)) (<[validatorKey := 0]> (delegatorRewards b)))
      | Some statistic =>
          if IsZero (u_SlashPercentage statistic) then
            '(distributionTotal, distributions, delegatorsShare) ← reward_faultless candidate statistic v2_1 b;
            Ok (mkBooks (st_add_rewards distributionTotal (b_state b))
                  (alter_first (stat_at candidateAddress) (u_with_Distribution 0) (b_statistics b))
                  (b_delegations b) distributions
                  (<[validatorKey := u_DelegationTotal statistic]> (formerValidatorTotals b))
                  (<[validatorKey := delegatorsShare]> (delegatorRewards b)))
          else
            '(delegations, slashed) ← slashValidatorDelegations (b_delegations b) (Some statistic) candidateAddress v2_1;
            Ok (mkBooks (st_add_rewards (u_DistributionTotal statistic) (b_state b))
                  (alter_first (stat_at candidateAddress) (λ _, u_with_Distribution 0 slashed) (b_statistics b))
                  delegations (b_distributions b)
                  (<[validatorKey := u_DelegationTotal statistic]> (formerValidatorTotals b))
                  (delegatorRewards b))
      end
  end.

Fixpoint reward_all (candidates : list Candidate2) (v2_1 : bool) (validators : list Validator) (b : Books) : Res Books :=
  match validators with
  | [] => Ok b
  | v :: vs => b ← reward_step candidates v2_1 b v; reward_all candidates v2_1 vs b
  end.

Definition rewardAndSlash (state : State) (candidates : list Candidate2) (statistics : list Statistic2)
    (delegations : list Delegation2) (distributions : list Distribution) (v2_1 : bool) : Res Books :=
  reward_all candidates v2_1 (st_Validators state) (mkBooks state statistics delegations distributions ∅ ∅).

(** ** Settling the delegations *)

(** The totals start with the whitelist amounts. *)
Fixpoint whitelist_totals (v2_1 : bool) (statistics : list Statistic2) (totals : gmap string Z) : Res (gmap string Z) :=
  match statistics with
  | [] => Ok totals
  | st :: sts =>
      match u_WhitelistAmount st with
      | None => whitelist_totals v2_1 sts totals
      | Some x =>
          if IsZero x then whitelist_totals v2_1 sts totals
          else
            amount ← (if v2_1 then calculateWeightedWhitelistAmount st else Ok x);
            whitelist_totals v2_1 sts (<[address_string (u_Address st) := amount]> totals)
      end
  end.

(** The share of a delegator in the rewards of its validator. *)
Definition delegator_reward (b : Books) (v2_1 : bool) (d : Delegation2) (distributions : list Distribution) : Res (list Distribution) :=
  let validatorKey := address_string (e_Validator d) in
  if same_local (e_Validator d) limboValidatorAddress then Ok distributions
  else
    match delegatorRewards b !! validatorKey with
    | None => Ok distributions
    | Some rewardsTotal =>
        weightedDelegation ← calculateWeightedDelegationAmount d v2_1;
        match formerValidatorTotals b !! validatorKey with
        | None => Panic
        | Some delegationTotal =>
            Ok (IncreaseDistribution (e_Delegator d) (calculateShare weightedDelegation delegationTotal rewardsTotal v2_1) distributions)
        end
    end.

(** The pending update of a delegation. *)
Definition settle_update (ctx : Ctx2) (params : Params) (d : Delegation2) : M W Delegation2 :=
  d ← match e_State d with
      | BONDING => mret (e_with_Amount (e_Amount d + e_UpdateAmount d) d)
      | UNBONDING =>
          coin ← loadCoin params;
          ERC20_Transfer ctx coin (e_Delegator d) (e_UpdateAmount d);;
          mret (e_with_Amount (e_Amount d - e_UpdateAmount d) d)
      | REDELEGATING => v ← deref (e_UpdateValidator d); mret (e_with_Validator v d)
      | BONDED => mret d
      end;
  mret (e_with_Update 0 BONDED d).

Definition add_to_totals (v2_1 : bool) (d : Delegation2) (totals : gmap string Z) : Res (gmap string Z) :=
  if same_local (e_Validator d) limboValidatorAddress then Ok totals
  else
    weightedDelegation ← calculateWeightedDelegationAmount d v2_1;
    let validatorKey := address_string (e_Validator d) in
    Ok (<[validatorKey := weightedDelegation + default 0 (totals !! validatorKey)]> totals).

(** The loop over the delegations: what is left of the list is settled in order. *)
Fixpoint settle (ctx : Ctx2) (b : Books) (todo : list Delegation2) (distributions : list Distribution) (totals : gmap string Z) :
    M W (list Delegation2 * list Distribution * gmap string Z) :=
  match todo with
  | [] => mret ([], distributions, totals)
  | d :: todo =>
      distributions ← lift_res (delegator_reward b (DPOSVersion2_1 ctx) d distributions);
      d ← settle_update ctx (st_Params (b_state b)) d;
      totals ← lift_res (add_to_totals (DPOSVersion2_1 ctx) d totals);
      '(settled, distributions, totals) ← settle ctx b todo distributions totals;
      mret (d :: settled, distributions, totals)
  end.

Definition distributeDelegatorRewards (ctx : Ctx2) (b : Books) : M W (list Delegation2 * list Distribution * gmap string Z) :=
  totals ← lift_res (whitelist_totals (DPOSVersion2_1 ctx) (b_statistics b) ∅);
  settle ctx b (b_delegations b) (b_distributions b) totals.

(** ** Elections *)

(** A change of the fee takes effect at the second election. *)
Definition step_fee (c : Candidate2) : Candidate2 :=
  if k_Fee c =? k_NewFee c then c
  else
    let counter := u64 (k_FeeDelayCounter c + 1) in
    mkCandidate2 (k_PubKey c) (k_Address c) (if counter =? feeChangeDelay then k_NewFee c else k_Fee c) (k_NewFee c) counter
      (k_Name c) (k_Description c) (k_Website c).

Fixpoint results_of (totals : list (string * Z)) : Res (list DelegationResult) :=
  match totals with
  | [] => Ok []
  | (validator, total) :: l =>
      match parse_address validator with
      | None => Panic
      | Some a => rs ← results_of l; Ok (mkDelegationResult a total :: rs)
      end
  end.

(** [delegationResults[:validatorCount]]: a negative bound panics. *)
Definition elected_results (validatorCount : Z) (results : list DelegationResult) : Res (list DelegationResult) :=
  let validatorCount := i64 validatorCount in
  let validatorCount := if Z.of_nat (length results) <? validatorCount then Z.of_nat (length results) else validatorCount in
  if validatorCount <? 0 then Panic else Ok (take (Z.to_nat validatorCount) results).

(** The body of the loop over the elected results. *)
Definition elect_result (candidates : list Candidate2) (acc : list Validator * Z * list Statistic2) (res : DelegationResult) :
    list Validator * Z * list Statistic2 :=
  let '(validators, total, statistics) := acc in
  match CandidateList_Get candidates (dr_ValidatorAddress res) with
  | None => acc
  | Some candidate =>
      let validatorPower := i64 (bigDiv (dr_DelegationTotal res) powerCorrection) in
      (validators ++ [mkValidator (k_PubKey candidate) validatorPower], total + dr_DelegationTotal res,
       match StatisticList_Get statistics (k_Address candidate) with
       | None => statistics ++ [mkStatistic2 (dr_ValidatorAddress res) (k_PubKey candidate) 0 (dr_DelegationTotal res) 0 (Some 0) 0]
       | Some _ => alter_first (stat_at (k_Address candidate)) (u_elected (k_PubKey candidate) (dr_DelegationTotal res)) statistics
       end)
  end.

Definition Elect (ctx : Ctx2) : M W unit :=
  let v2_1 := DPOSVersion2_1 ctx in
  state ← get_state;
  if i64 (ctx_now ctx - st_LastElectionTime state) <? p_ElectionCycleLength (st_Params state) then mret ()
  else
    candidates ← from_store loadCandidateList;
    match candidates with
    | [] => mret ()
    | _ =>
        let candidates := step_fee <$> candidates in
        on_store (saveCandidateList candidates);;
        delegations ← from_store loadDelegationList;
        statistics ← from_store loadValidatorStatisticList;
        if match delegations, statistics with [], [] => true | _, _ => false end then mret ()
        else
          distributions ← from_store loadDistributionList;
          (* [saveCandidateList] sorted the list in place *)
          let candidates := sortCandidates candidates in
          b ← lift_res (rewardAndSlash state candidates statistics delegations distributions v2_1);
          '(delegations, distributions, newDelegationTotals) ← distributeDelegatorRewards ctx b;
          on_store (saveDelegationList delegations);;
          on_store (saveDistributionList distributions);;
          results ← lift_res (results_of (map_to_list newDelegationTotals));
          let delegationResults := go_sort lessDelegationTotal results in
          elected ← lift_res (elected_results (p_ValidatorCount (st_Params state)) delegationResults);
          let '(validators, total, statistics) := foldl (elect_result candidates) ([], 0, b_statistics b) elected in
          on_store (saveValidatorStatisticList statistics);;
          on_store (saveState (mkState (st_Params state) validators (ctx_now ctx) total (st_TotalRewardDistribution (b_state b))));;
          emitElectionEvent ctx
    end.

(** ** The validators manager

    [BeginBlock] only logs: the calls that slash are commented out. *)

Definition Manager2_BeginBlock (votes : list VoteInfo) (evidence : list Evidence) (currentHeight : Z) : M W unit :=
  forM votes (λ voteInfo, if negb (vi_SignedLastBlock voteInfo) then mret () else mret ());;
  forM evidence (λ ev, if currentHeight - 100 <? ev_Height ev then mret () else mret ()).

Definition Manager2_ValidatorList : M W (list Validator) := λ w, (ValidatorList (w2_store w), w).

Definition Manager2_EndBlock (ctx : Ctx2) : M W (list ValidatorUpdate) :=
  oldValidatorList ← Manager2_ValidatorList;
  Elect ctx;;
  validatorList ← Manager2_ValidatorList;
  let removedValidators := MissingValidators oldValidatorList validatorList in
  mret (((λ v, mkUpdate (v_PubKey v) 0) <$> removedValidators) ++
        ((λ v, mkUpdate (v_PubKey v) (v_Power v)) <$> (validatorList : list Validator))).

(** ** Migration *)

(** [dposv3.InitializationState] *)
Record InitializationState := mkInitializationState {
  is_State : State; is_Candidates : list Candidate; is_Statistics : list ValidatorStatistic; is_Delegations : list Delegation }.

Definition dump_candidate (c : Candidate2) : Candidate :=
  mkCandidate (k_PubKey c) (k_Address c) (k_Fee c) (k_NewFee c) (k_Name c) (k_Description c) (k_Website c) REGISTERED 0.
Definition dump_statistic (s : Statistic2) : ValidatorStatistic :=
  mkStatistic (u_Address s) (u_PubKey s) (u_WhitelistAmount s) 0 (Some (u_DelegationTotal s)) (Some (u_SlashPercentage s)).
(** Rewards that were not claimed become reward delegations. *)
Definition dump_distribution (d : Distribution) : Delegation :=
  mkDelegation limboValidatorAddress (i_Address d) REWARD_DELEGATION_INDEX (i_Amount d) 0 None TIER_ZERO 0 BONDED "".

(** [LocalAddress.String] of the client library. *)
Context (local_string : bytes → string).

(** The loop over the delegations, with the number of delegations seen by pair. *)
Fixpoint dump_delegations (indices : gmap string Z) (dl : list Delegation2) : list Delegation :=
  match dl with
  | [] => []
  | d :: dl =>
      let delegationKey := local_string (Local (e_Validator d)) +:+ local_string (Local (e_Delegator d)) in
      let index := default 0 (indices !! delegationKey) in
      mkDelegation (adjustValidatorIfInPlasmaValidators d) (e_Delegator d) (u64 (DELEGATION_START_INDEX + index))
        (adjustDoubledDelegationAmount d) (e_UpdateAmount d) None (TierMap (u64 (e_LocktimeTier d))) (e_LockTime d) BONDED ""
      :: dump_delegations (<[delegationKey := u64 (index + 1)]> indices) dl
  end.

Definition Dump (ctx : Ctx2) (dposv3Address : Address) : M W InitializationState :=
  not_disabled ctx;;
  state ← get_state;
  guard_not (negb (isOracle ctx state)) errOnlyOracle;;
  candidates ← from_store loadCandidateList;
  statistics ← from_store loadValidatorStatisticList;
  distributions ← from_store loadDistributionList;
  delegations ← from_store loadDelegationList;
  coin ← loadCoin (st_Params state);
  balance ← ERC20Static_BalanceOf coin (ctx_contract ctx);
  ERC20_Transfer ctx coin dposv3Address balance;;
  mret (mkInitializationState state (dump_candidate <$> candidates) (dump_statistic <$> statistics)
    ((dump_distribution <$> distributions) ++ dump_delegations ∅ delegations)).

(** The two contracts, on the same tokens, and the flag of the third one. *)
Record MigrationWorld := mkMigration { mg_v2 : W; mg_v3 : DposStore; mg_v3_enabled : bool }.

(** [DPOSv3Migration]: [deployed] is the address of the new contract, or the error of
    deploying it; its initialization cannot fail. *)
Definition DPOSv3Migration (ctx : Ctx2) (deployed : Res Address) : M MigrationWorld unit := λ mw,
  match deployed with
  | Ok dposv3Addr =>
      match Dump ctx dposv3Addr (mg_v2 mw) with
      | (Ok i, w) =>
          let w3 := (Initialize (is_State i) (is_Candidates i) (is_Delegations i) (is_Statistics i)
                       (mkDWorld (mg_v3 mw) (w2_ledger w) [])).2 in
          (Ok (), mkMigration w (dw_store w3) true)
      | (Err e, w) => (Err e, mkMigration w (mg_v3 mw) (mg_v3_enabled mw))
      | (Panic, w) => (Panic, mkMigration w (mg_v3 mw) (mg_v3_enabled mw))
      end
  | Err e => (Err e, mw)
  | Panic => (Panic, mw)
  end.
End Elections.
