(* ===== verification/Dpos2Theorems.v ===== *)
(** * The second dpos contract: theorems

    The tokens that were delegated are in the contract, whatever calls and elections
    follow, as long as nobody redelegates a part of a delegation; counterexamples show
    what that call, registering again and unregistering do instead. *)

From S2P Require Import Prelude Contract DposTypes DposMath DposStorage DposHandlers Outcomes Dpos2Types Dpos2Handlers Dpos2Election.

(** One step into a handler. *)
Ltac pstep :=
  lazymatch goal with
  | |- post (from_store _) _ _ => apply post_gets
  | |- post (on_store _) _ _ => apply post_modify
  | |- post (emit _) _ _ => apply post_modify
  | |- post (not_disabled _) _ _ => apply post_guard; intros ?
  | |- post (emitDelegatorDelegatesEvent _ _ _) _ _ => apply post_modify
  | |- post (emitDelegatorRedelegatesEvent _ _ _) _ _ => apply post_modify
  | |- post (emitDelegatorUnbondsEvent _ _) _ _ => apply post_modify
  | |- post (emitCandidateRegistersEvent _ _) _ _ => apply post_modify
  | |- post (emitCandidateUnregistersEvent _) _ _ => apply post_modify
  | |- post (emitCandidateFeeChangeEvent _ _) _ _ => apply post_modify
  | |- post (emitUpdateCandidateInfoEvent _) _ _ => apply post_modify
  | |- post (emitElectionEvent _) _ _ => apply post_modify
  | |- _ => post_step
  end.

(** ** The books *)

(** What a delegation stands for: its amount and the tokens that are still to be bonded. *)
Definition value (d : Delegation2) : Z := e_Amount d + match e_State d with BONDING => e_UpdateAmount d | _ => 0 end.
Definition principal (dl : list Delegation2) : Z := sumZ value dl.

Lemma principal_app l1 l2 : principal (l1 ++ l2) = principal l1 + principal l2.
Proof. apply sumZ_app. Qed.

Section Backed.
Context {LIB : DiademLib} {L : Type} {TOKEN : ERC20 L} {good : L → Prop} {TSPEC : ERC20Spec L good}.
Context (contract coin : Address) (Hcontract : wf_address contract).
Abbreviation W := (World2 L).
Implicit Types (w : W) (ctx : Ctx2).

Definition dlg_ok (d : Delegation2) : Prop :=
  wf_address (e_Delegator d) ∧ e_Delegator d ≠ contract ∧ 0 <= e_Amount d ∧ 0 <= e_UpdateAmount d ∧
  (e_State d = UNBONDING → e_UpdateAmount d <= e_Amount d).

Definition no_faults (sl : list Statistic2) : Prop := Forall (λ s, u_SlashPercentage s = 0) sl.

Definition delegations w : list Delegation2 := loadDelegationList (w2_store w).
Definition statistics w : list Statistic2 := loadValidatorStatisticList (w2_store w).
Definition balance w : Z := erc20_balance coin (w2_ledger w) contract.
Definition coin_is w : Prop := ∀ st, s2_state (w2_store w) = Some st → p_CoinContractAddress (st_Params st) = Some coin.

(** The tokens of the contract cover [floor] and what was delegated. *)
Record backed (floor : Z) w : Prop := {
  bk_coin : coin_is w;
  bk_good : good (w2_ledger w);
  bk_dlg : Forall dlg_ok (delegations w);
  bk_stat : no_faults (statistics w);
  bk_bal : floor + principal (delegations w) <= balance w;
}.

Lemma value_nonneg d : dlg_ok d → 0 <= value d.
Proof. intros (_ & _ & ? & ? & _). unfold value. destruct (e_State d); lia. Qed.

Lemma set_principal t x dl :
  principal (set_delegation t x dl) =
    principal dl + value x - from_option value 0 (DelegationList_Get dl (e_Validator x) (e_Delegator x)).
Proof.
  unfold set_delegation. destruct (DelegationList_Get _ _ _) as [past|] eqn:E; cbn.
  - unfold principal. rewrite (alter_first_sum _ _ value _ past E).
    assert (value (copy_fields t x past) = value x) as -> by done. lia.
  - rewrite principal_app. cbn. lia.
Qed.

Lemma set_ok t x dl : dlg_ok x → Forall dlg_ok dl → Forall dlg_ok (set_delegation t x dl).
Proof.
  intros Hx Hdl. unfold set_delegation. destruct (DelegationList_Get _ _ _) as [past|] eqn:E.
  - apply alter_first_forall; [|done]. intros p _ (? & ? & _). destruct Hx as (_ & _ & ? & ? & ?). done.
  - by apply Forall_app_2; [|constructor].
Qed.

Lemma get_ok dl v d x : DelegationList_Get dl v d = Some x → Forall dlg_ok dl → dlg_ok x.
Proof. intros (Hin & _)%find_elem Hdl. rewrite Forall_forall in Hdl. by apply Hdl. Qed.

Lemma saved_delegations dl s : loadDelegationList (saveDelegationList dl s) = sortDelegations dl.
Proof. done. Qed.
Lemma saved_principal dl : principal (sortDelegations dl) = principal dl.
Proof. apply go_sort_sum. Qed.
Lemma saved_ok dl : Forall dlg_ok dl → Forall dlg_ok (sortDelegations dl).
Proof. apply go_sort_forall. Qed.

(** ** Calls that move tokens *)

Lemma transfer_in ctx from amount (Q : unit → W → Prop) w :
  ctx_contract ctx = contract → good (w2_ledger w) → 0 <= amount → wf_address from → from ≠ contract →
  (∀ l, good l → erc20_balance coin l contract = balance w + amount → Q () (set_ledger l w)) →
  post (ERC20_TransferFrom ctx coin from (ctx_contract ctx) amount) Q w.
Proof.
  intros Hc Hg Ha Hf Hne HQ [] w'. unfold ERC20_TransferFrom, zoom. rewrite Hc.
  destruct (erc20_transfer_from _ _ _ _ _ _) as [r l] eqn:E. intros [= -> <-].
  destruct (erc20_transfer_from_moves coin contract from contract amount _ _ Hg Ha Hcontract Hf Hcontract Hne E) as (? & _ & Hb & _).
  by apply HQ.
Qed.

Lemma transfer_out ctx to amount (Q : unit → W → Prop) w :
  ctx_contract ctx = contract → good (w2_ledger w) → 0 <= amount → wf_address to → to ≠ contract →
  (∀ l, good l → erc20_balance coin l contract = balance w - amount → Q () (set_ledger l w)) →
  post (ERC20_Transfer ctx coin to amount) Q w.
Proof.
  intros Hc Hg Ha Hf Hne HQ [] w'. unfold ERC20_Transfer, zoom. rewrite Hc.
  destruct (erc20_transfer _ _ _ _ _) as [r l] eqn:E. intros [= -> <-].
  destruct (erc20_transfer_moves coin contract to amount _ _ Hg Ha Hcontract Hf (not_eq_sym Hne) E) as (? & Hb & _).
  by apply HQ.
Qed.

Lemma post_state (Q : State → W → Prop) w :
  coin_is w → (∀ st, s2_state (w2_store w) = Some st → p_CoinContractAddress (st_Params st) = Some coin → Q st w) → post get_state Q w.
Proof.
  intros Hc H st w'. unfold get_state, loadState. destruct (s2_state (w2_store w)) as [st0|] eqn:E; [|done]. intros [= -> <-].
  apply H; auto.
Qed.

(** The sender is a user. *)
Definition user (ctx : Ctx2) : Prop := ctx_contract ctx = contract ∧ wf_address (ctx_sender ctx) ∧ ctx_sender ctx ≠ contract.

(** Saving a list whose principal grew by no more than the balance did. *)
Lemma saved_backed floor w l dl evs :
  backed floor w → good l → Forall dlg_ok dl →
  principal dl - principal (delegations w) <= erc20_balance coin l contract - balance w →
  backed floor (mkWorld2 (saveDelegationList dl (w2_store w)) l evs).
Proof.
  intros [B1 B2 B3 B4 B5] Hl Hdl Hp. constructor; try done.
  - by apply saved_ok.
  - unfold delegations, balance. cbn [w2_store w2_ledger]. rewrite saved_delegations, saved_principal. lia.
Qed.

Ltac psteps := repeat pstep.

Lemma prior_amount dl v d (Q : Z → W → Prop) w :
  Forall dlg_ok dl →
  (∀ a, 0 <= a → a = from_option value 0 (DelegationList_Get dl v d) → Q a w) →
  post (bonded_amount (DelegationList_Get dl v d)) Q w.
Proof.
  intros Hdl H. unfold bonded_amount. destruct (DelegationList_Get dl v d) as [x|] eqn:E; [|apply post_ret, H; done].
  destruct (bool_decide_reflect (e_State x = BONDED)); [|apply post_throw]. apply post_ret, H.
  - by destruct (get_ok _ _ _ _ E Hdl) as (_ & _ & ? & _).
  - cbn. unfold value. rewrite e. lia.
Qed.

(** Adding a bonding delegation after the tokens came in. *)
Lemma delegated floor w l t v d a amount h tier lock evs :
  backed floor w → good l → wf_address d → d ≠ contract → 0 <= a → 0 <= amount →
  a <= from_option value 0 (DelegationList_Get (delegations w) v d) →
  erc20_balance coin l contract = balance w + amount →
  backed floor (mkWorld2 (saveDelegationList (set_delegation t (mkDelegation2 v d None a amount h tier lock BONDING) (delegations w)) (w2_store w)) l evs).
Proof.
  intros Hbk Hl Hwf Hne Ha Ham Hprior Hb. pose proof Hbk as [_ _ B3 _ _]. apply saved_backed; [done | done | |].
  - apply set_ok; [|done]. by split_and!.
  - rewrite set_principal. cbn. unfold value at 1. cbn. lia.
Qed.

Lemma Delegate_backed floor ctx req w : user ctx → backed floor w → post (Delegate ctx req) (λ _, backed floor) w.
Proof.
  intros (Hc & Hwf & Hne) Hbk. pose proof Hbk as [B1 B2 B3 B4 B5]. unfold Delegate, require_candidate, positive_amount. psteps.
  match goal with H : IsPositive ?z = true |- _ => rename z into amount; unfold IsPositive in H; apply Z.ltb_lt in H end.
  apply post_state; [done|]. intros st Hst Hcoin. unfold loadCoin. rewrite Hcoin. pstep. pstep. simplify_eq. pstep.
  apply transfer_in; [done | done | lia | done | done |]. intros l Hl Hb. pstep. pstep. pstep. apply prior_amount; [done|].
  intros am Ham Hpr. psteps. apply (delegated floor w); try done; (lia || (rewrite Hpr; apply Z.le_refl)).
Qed.

Lemma Delegate2_backed floor ctx req w : user ctx → backed floor w → post (Delegate2 ctx req) (λ _, backed floor) w.
Proof.
  intros (Hc & Hwf & Hne) Hbk. pose proof Hbk as [B1 B2 B3 B4 B5]. unfold Delegate2. pstep. pstep. pstep.
  apply (post_mono _ (λ _ w', w' = w)); [by psteps|]. intros [] w0 ->. unfold require_candidate, positive_amount. psteps.
  match goal with H : IsPositive ?z = true |- _ => rename z into amount; unfold IsPositive in H; apply Z.ltb_lt in H end.
  apply post_state; [done|]. intros st Hst Hcoin. unfold loadCoin. rewrite Hcoin. pstep. pstep. simplify_eq. pstep.
  apply transfer_in; [done | done | lia | done | done |]. intros l Hl Hb. pstep. pstep. pstep. apply prior_amount; [done|].
  intros am Ham Hpr. psteps. apply (delegated floor w); try done; (lia || (rewrite Hpr; apply Z.le_refl)).
Qed.

(** The whole of a delegation is redelegated. *)
Lemma Redelegate_backed floor ctx former validator referrer w :
  user ctx → backed floor w → post (Redelegate ctx (mkRedelegateRequest former validator None referrer)) (λ _, backed floor) w.
Proof.
  intros Hu Hbk. pose proof Hbk as [B1 B2 B3 B4 B5]. unfold Redelegate. cbn [rq_FormerValidatorAddress rq_ValidatorAddress rq_Amount rq_Referrer].
  pstep. pstep. pstep. pstep. pstep. pstep. pstep. pstep. pstep. pstep. pstep.
  apply (post_mono _ (λ _ w', w' = w)); [unfold require_candidate; by psteps|]. intros [] w0 ->. psteps.
  destruct (get_ok _ _ _ _ Heqo B3) as (G1 & G2 & G3 & G4 & G5).
  apply saved_backed; [done | done | |].
  - apply alter_first_forall; [|done]. intros x _ (? & ? & ? & ? & ?). by split_and!.
  - unfold principal. rewrite (alter_first_sum _ _ value _ _ Heqo). unfold value at 2 3. cbn. fold (principal (delegations w)).
    unfold principal, delegations, balance. destruct (e_State _); lia.
Qed.

Lemma Unbond_backed floor ctx req w :
  (∀ a, uq_Amount req = Some a → 0 <= a) → backed floor w → post (Unbond ctx req) (λ _, backed floor) w.
Proof.
  intros Hreq Hbk. pose proof Hbk as [B1 B2 B3 B4 B5]. unfold Unbond. psteps.
  apply saved_backed; [done | done | |].
  - apply alter_first_forall; [|done]. intros x Hx (? & ? & ? & ? & ?). pose proof (eq_trans (eq_sym Hx) Heqo) as [= ->].
    split_and!; try done; cbn; [by apply Hreq | lia].
  - unfold principal. rewrite (alter_first_sum _ _ value _ _ Heqo). unfold value at 2 3. cbn.
    destruct (bool_decide_reflect (e_State d = BONDED)) as [E|]; [|done]. rewrite E. fold (principal (delegations w)).
    unfold principal, delegations, balance. lia.
Qed.

(** ** Calls that move none *)

(** Tokens and delegations are as before, the token contract and the absence of faults
    are kept. *)
Definition quiet w0 w : Prop :=
  w2_ledger w = w2_ledger w0 ∧ delegations w = delegations w0 ∧ (coin_is w0 → coin_is w) ∧
  (no_faults (statistics w0) → no_faults (statistics w)).

Lemma quiet_refl w : quiet w w.
Proof. by split_and!. Qed.

Lemma quiet_backed floor w0 w : quiet w0 w → backed floor w0 → backed floor w.
Proof.
  intros (Hl & Hd & Hc & Hs) [B1 B2 B3 B4 B5]. constructor; [auto | by rewrite Hl | by rewrite Hd | auto |].
  unfold balance. by rewrite Hl, Hd.
Qed.

Lemma preserves_post {A} floor (m : M W A) w : preserves (quiet w) m → backed floor w → post m (λ _, backed floor) w.
Proof.
  intros Hp Hbk a w' Hrun. pose proof (Hp w (quiet_refl w)) as H. unfold wp in H. rewrite Hrun in H. by eapply quiet_backed.
Qed.

Lemma quiet_state : ∀ w0, preserves (quiet w0) (get_state : M W State).
Proof. intros w0 w Hw. done. Qed.
Lemma quiet_emit w0 e : preserves (quiet w0) (emit e : M W unit).
Proof. by apply preserves_modify. Qed.
Lemma quiet_candidates w0 cs : preserves (quiet w0) (on_store (saveCandidateList cs) : M W unit).
Proof. by apply preserves_modify. Qed.
Lemma quiet_tally w0 t : preserves (quiet w0) (on_store (saveRequestBatchTally t) : M W unit).
Proof. by apply preserves_modify. Qed.
Lemma quiet_from {A} w0 (f : Dpos2Store → A) : preserves (quiet w0) (from_store f : M W A).
Proof. apply preserves_gets. Qed.
Lemma quiet_guard w0 ctx : preserves (quiet w0) (not_disabled ctx : M W unit).
Proof. apply preserves_guard_not. Qed.
Hint Resolve quiet_state quiet_emit quiet_candidates quiet_tally quiet_from quiet_guard : preserves.

Lemma quiet_statistics w0 sl :
  (no_faults (statistics w0) → no_faults sl) → preserves (quiet w0) (on_store (saveValidatorStatisticList sl) : M W unit).
Proof.
  intros Hsl. apply preserves_modify. intros w (Hl & Hd & Hc & Hs). split_and!; try done. intros H. by apply go_sort_forall, Hsl.
Qed.
Lemma quiet_set_state w0 st :
  (coin_is w0 → p_CoinContractAddress (st_Params st) = Some coin) → preserves (quiet w0) (on_store (saveState st) : M W unit).
Proof.
  intros Hst. apply preserves_modify. intros w (Hl & Hd & Hc & Hs). split_and!; try done. intros H st' [= <-]. by apply Hst.
Qed.

Lemma quiet_whitelist w0 req : preserves (quiet w0) (addCandidateToStatisticList req : M W unit).
Proof.
  unfold addCandidateToStatisticList. apply preserves_gets_bind. intros w (_ & _ & _ & Hs). pres. apply quiet_statistics.
  intros Hw0. apply Forall_app_2; [by apply Hs | by constructor].
Qed.
Hint Resolve quiet_whitelist : preserves.

Lemma quiet_change w0 ctx a f :
  (∀ s, u_SlashPercentage (f s) = u_SlashPercentage s) → preserves (quiet w0) (change_whitelist ctx a f : M W unit).
Proof.
  intros Hf. unfold change_whitelist. apply preserves_bind; [auto with preserves|]. intros _. apply preserves_bind; [auto with preserves|].
  intros st. apply preserves_bind; [auto with preserves|]. intros _. apply preserves_gets_bind. intros w (_ & _ & _ & Hs). pres.
  apply quiet_statistics. intros Hw0. apply alter_first_forall; [|by apply Hs]. intros x _ Hx. by rewrite Hf.
Qed.

Lemma quiet_params w0 ctx f :
  (∀ p, p_CoinContractAddress (f p) = p_CoinContractAddress p) → preserves (quiet w0) (set_params ctx f : M W unit).
Proof.
  intros Hf. unfold set_params. apply preserves_bind; [auto with preserves|]. intros _ w Hw. apply wp_bind. unfold wp at 1, get_state, loadState. cbn [fst snd].
  destruct (s2_state (w2_store w)) as [st|] eqn:Hst; [|done]. apply preserves_bind; [auto with preserves | | done]. intros _.
  apply quiet_set_state. intros H. cbn. rewrite Hf. by apply Hw.
Qed.

Lemma quiet_batch w0 err tally batch : preserves (quiet w0) (processBatch err tally batch : M W _).
Proof. revert err tally. induction batch as [|r batch IH]; intros err tally; cbn [processBatch]; pres; apply IH. Qed.
Hint Resolve quiet_batch : preserves.

(** ** Candidates *)

Lemma register_backed floor nf ctx req w : user ctx → backed floor w → post (register nf ctx req) (λ _, backed floor) w.
Proof.
  intros (Hc & Hwf & Hne) Hbk. pose proof Hbk as [B1 B2 B3 B4 B5]. unfold register. do 11 pstep. apply post_state; [done|].
  intros st Hst Hcoin. pstep. apply (post_mono _ (λ _ w', w' = w)); [by psteps|]. intros b w0 ->. pstep.
  apply (post_mono _ (λ _, backed floor)); [|intros [] w' Hw'; psteps; by destruct Hw'].
  destruct b; [|by pstep]. pstep. pstep. pstep; [|by pstep].
  match goal with H : IsPositive ?z = true |- _ => unfold IsPositive in H; apply Z.ltb_lt in H; rename z into amount end.
  unfold loadCoin. rewrite Hcoin. pstep. pstep. simplify_eq. pstep.
  apply transfer_in; [done | done | lia | done | done |]. intros l Hl Hb. psteps.
  apply (delegated floor w l false); try done; [lia|]. destruct (DelegationList_Get _ _ _) as [x|] eqn:E; [|done].
  cbn. by apply value_nonneg, (get_ok _ _ _ _ E).
Qed.

Lemma fraction_of_nothing x v2_1 : CalculateFraction 0 x v2_1 = 0.
Proof. unfold CalculateFraction, CalculatePreciseFraction, basisPointsToBillionths. by destruct v2_1; rewrite Z.mul_0_r. Qed.

(** Without faults nothing is slashed. *)
Lemma slash_nothing sl dl a st v2_1 r :
  no_faults sl → StatisticList_Get sl a = Some st → slashValidatorDelegations dl (Some st) a v2_1 = Ok r →
  r.1 = dl ∧ u_SlashPercentage r.2 = 0.
Proof.
  intros Hsl Hst. assert (u_SlashPercentage st = 0) as Hz.
  { apply find_elem in Hst as (Hin & _). unfold no_faults in Hsl. rewrite Forall_forall in Hsl. by apply Hsl. }
  unfold slashValidatorDelegations. destruct (u_WhitelistAmount st); [|done]. intros [= <-]. cbn. split; [|done].
  rewrite Hz. rewrite <- (list_fmap_id dl) at 2. apply list_fmap_ext. intros i d _. destruct (same_local _ _); [|done].
  rewrite fraction_of_nothing. destruct d. unfold e_with_Amount. cbn. by rewrite Z.sub_0_r.
Qed.

Lemma Unregister_backed floor ctx w : backed floor w → post (UnregisterCandidate ctx) (λ _, backed floor) w.
Proof.
  intros Hbk. pose proof Hbk as [B1 B2 B3 B4 B5]. unfold UnregisterCandidate. do 5 pstep; [|pstep]. do 6 pstep.
  match goal with H : slashValidatorDelegations _ ?o _ _ = Ok ?r |- _ => destruct o as [stat|] eqn:Hstat; [|done]; destruct r as [dl sl];
    destruct (slash_nothing _ _ _ _ _ _ B4 Hstat H) as [Hdl _] end. cbn [fst] in Hdl. subst dl.
  pstep. apply (post_mono _ (λ _, backed floor)); [|intros [] w' Hw'; psteps; by destruct Hw'].
  psteps; [|done]. apply saved_backed; [done | done | |].
  - apply alter_first_forall; [|done]. intros x Hx (? & ? & ? & ? & ?). pose proof (eq_trans (eq_sym Hx) Heqo0) as [= ->]. by split_and!.
  - unfold principal. rewrite (alter_first_sum _ _ value _ _ Heqo0). unfold value at 2 3. cbn.
    destruct (bool_decide_reflect (e_State d = BONDED)) as [E|]; [|done]. rewrite E. fold (principal (delegations w)).
    unfold principal, delegations, balance. lia.
Qed.

(** ** Elections *)

Lemma reward_step_keeps cs v2_1 b v b' :
  no_faults (b_statistics b) → reward_step cs v2_1 b v = Ok b' →
  b_delegations b' = b_delegations b ∧ no_faults (b_statistics b') ∧ st_Params (b_state b') = st_Params (b_state b).
Proof.
  intros Hs. unfold reward_step. destruct (GetByPubKey cs _) as [c|]; [|by intros [= <-]].
  destruct (StatisticList_Get _ _) as [st|] eqn:Hst; [|by intros [= <-]].
  assert (u_SlashPercentage st = 0) as Hz.
  { apply find_elem in Hst as (Hin & _). unfold no_faults in Hs. rewrite Forall_forall in Hs. by apply Hs. }
  rewrite Hz. cbn [IsZero Z.eqb]. destruct (reward_faultless _ _ _ _) as [[[dt ds] sh]|?|]; [|done..]. intros [= <-]. cbn. split_and!; [done | | done].
  by apply alter_first_forall.
Qed.

Lemma reward_all_keeps cs v2_1 vs b b' :
  no_faults (b_statistics b) → reward_all cs v2_1 vs b = Ok b' →
  b_delegations b' = b_delegations b ∧ no_faults (b_statistics b') ∧ st_Params (b_state b') = st_Params (b_state b).
Proof.
  revert b. induction vs as [|v vs IH]; intros b Hs; cbn; [by intros [= <-]|].
  destruct (reward_step cs v2_1 b v) as [b1|?|] eqn:H1; [|done..]. intros H.
  destruct (reward_step_keeps _ _ _ _ _ Hs H1) as (E1 & Hs1 & P1). destruct (IH b1 Hs1 H) as (E2 & Hs2 & P2).
  split_and!; [congruence | done | congruence].
Qed.

(** Settling a delegation pays out what leaves it. *)
Lemma settle_update_keeps ctx params d (Q : Delegation2 → W → Prop) w :
  ctx_contract ctx = contract → p_CoinContractAddress params = Some coin → good (w2_ledger w) → dlg_ok d →
  (∀ d' l, good l → dlg_ok d' → e_State d' = BONDED → erc20_balance coin l contract - value d' = balance w - value d → Q d' (set_ledger l w)) →
  post (settle_update ctx params d) Q w.
Proof.
  intros Hc Hcoin Hg (D1 & D2 & D3 & D4 & D5) HQ. unfold settle_update. pstep.
  assert (Hstay : ∀ d', e_Amount d' = value d → e_Delegator d' = e_Delegator d → 0 <= e_Amount d' → Q (e_with_Update 0 BONDED d') w).
  { intros d' Ha Hd Hn. destruct w as [s l evs]. apply (HQ _ l); [done | | done | unfold value at 1; cbn; unfold balance; cbn; lia].
    unfold dlg_ok. cbn. rewrite Hd. by split_and!. }
  unfold value in Hstay, HQ. destruct (e_State d) eqn:Hst; [pstep; pstep; apply Hstay; cbn; lia || done | pstep; pstep; apply Hstay; cbn; lia || done | |].
  - unfold loadCoin. rewrite Hcoin. pstep. pstep. simplify_eq. pstep. apply transfer_out; [done | done | done | done | done |].
    intros l Hl Hb. pstep. pstep. apply HQ; [done | | done | cbn; lia]. specialize (D5 eq_refl). by split_and!; cbn; try lia.
  - pstep. pstep. pstep. pstep. apply Hstay; cbn; lia || done.
Qed.

Lemma settle_keeps ctx b todo dist totals w :
  ctx_contract ctx = contract → p_CoinContractAddress (st_Params (b_state b)) = Some coin → good (w2_ledger w) → Forall dlg_ok todo →
  post (settle ctx b todo dist totals) (λ r w', w2_store w' = w2_store w ∧ good (w2_ledger w') ∧ Forall dlg_ok r.1.1 ∧
    Forall (λ d, e_State d = BONDED) r.1.1 ∧ balance w' - principal r.1.1 = balance w - principal todo) w.
Proof.
  intros Hc Hcoin. revert dist totals w. induction todo as [|d todo IH]; intros dist totals w Hg Hok; cbn [settle].
  { pstep. by split_and!. }
  apply Forall_cons in Hok as [Hd Hok]. pstep. pstep. pstep. apply settle_update_keeps; [done | done | done | done |].
  intros d' l Hl Hd' Hst Hb. pstep. pstep. pstep.
  eapply post_mono; [by apply IH|]. intros [[settled ds] ts] w' (E1 & E2 & E3 & E4 & E5). pstep. cbn [fst] in *.
  split_and!; [done | done | by constructor | by constructor |]. change (balance (set_ledger l w)) with (erc20_balance coin l contract) in E5.
  change (balance w' - (value d' + principal settled) = balance w - (value d + principal todo)). lia.
Qed.

Lemma elect_result_faultless cs acc res : no_faults acc.2 → no_faults (elect_result cs acc res).2.
Proof.
  destruct acc as [[vs total] sl]. intros Hs. unfold elect_result. destruct (CandidateList_Get cs _) as [c|]; [|done]. cbn in *.
  destruct (StatisticList_Get sl _); [by apply alter_first_forall | by apply Forall_app_2; [|constructor]].
Qed.

Lemma foldl_faultless cs acc l : no_faults acc.2 → no_faults (foldl (elect_result cs) acc l).2.
Proof. revert acc. induction l as [|r l IH]; intros acc H; [done|]. apply IH. by apply elect_result_faultless. Qed.

Lemma Elect_backed floor ctx w : ctx_contract ctx = contract → backed floor w → post (Elect ctx) (λ _, backed floor) w.
Proof.
  intros Hc Hbk. pose proof Hbk as [B1 B2 B3 B4 B5]. unfold Elect. pstep. apply post_state; [done|]. intros st Hst Hcoin.
  pstep; [by pstep|]. pstep. pstep. pstep; [by pstep|]. rewrite <- Heql. pstep. pstep.
  pose proof (quiet_candidates w (step_fee <$> loadCandidateList (w2_store w)) w (quiet_refl w)) as Hq.
  unfold wp in Hq. cbn in Hq. set (w1 := mkWorld2 _ _ _) in *. pose proof (quiet_backed floor w w1 Hq Hbk) as [C1 C2 C3 C4 C5].
  do 4 pstep. pstep; [pstep; by constructor|]. do 4 pstep.
  match goal with H : rewardAndSlash _ _ _ _ _ _ = Ok ?x |- _ => rename x into b; unfold rewardAndSlash in H;
    destruct (reward_all_keeps _ _ _ (mkBooks _ _ _ _ _ _) _ C4 H) as (E1 & E2 & E3) end.
  cbn in E1, E3. pstep. unfold distributeDelegatorRewards. pstep. pstep. rewrite E1.
  eapply post_mono; [apply settle_keeps; [done | by rewrite E3 | done | done]|].
  intros [[settled ds] ts] w2 (F1 & F2 & F3 & _ & F5). cbn [fst] in F3, F5. do 8 pstep.
  match goal with |- context [foldl (elect_result ?cs) ?a ?l] => pose proof (foldl_faultless cs a l E2) as Hsl; destruct (foldl (elect_result cs) a l) as [[vs total] sl] end.
  do 5 pstep. rewrite F1. constructor; try done.
  - by intros st' [= <-].
  - by apply saved_ok.
  - by apply go_sort_forall.
  - unfold delegations, balance in *. cbn [w2_store w2_ledger]. change (loadDelegationList _) with (sortDelegations settled).
    rewrite saved_principal. change (s2_delegations (w2_store w)) with (s2_delegations (w2_store w1)) in F5.
    change (default [] (s2_delegations (w2_store w1))) with (loadDelegationList (w2_store w1)) in F5. lia.
Qed.

Lemma Claim_backed floor ctx to w amount w' :
  ctx_contract ctx = contract → (∀ a, to = Some a → wf_address a ∧ a ≠ contract) → 0 <= amount → backed floor w →
  ClaimDistribution ctx to w = (Ok amount, w') → backed (floor - amount) w'.
Proof.
  intros Hc Hto Ha Hbk Hrun. pose proof Hbk as [B1 B2 B3 B4 B5].
  assert (post (ClaimDistribution ctx to) (λ a w', a = amount → backed (floor - amount) w') w) as H; [|by eapply H].
  clear Hrun. unfold ClaimDistribution. do 5 pstep; [|pstep]. pstep. apply post_state; [done|]. intros st Hst Hcoin. pstep.
  unfold loadCoin. rewrite Hcoin. pstep. simplify_eq. pstep. pstep.
  destruct (decide (i_Amount d = amount)) as [Hd|Hd].
  2: { intros x w1 Hrun Hx. exfalso. apply bind_inv in Hrun as ([] & w2 & _ & Hrun). apply bind_inv in Hrun as (dl & w3 & _ & Hrun).
    apply bind_inv in Hrun as ([] & w4 & _ & Hrun). apply ret_inv in Hrun as [-> _]. done. }
  destruct (Hto _ ltac:(done)) as (Hwf & Hne).
  pstep. apply transfer_out; [done | done | lia | done | done |]. intros l Hl Hb. psteps. intros _. constructor; try done.
  change (floor - amount + principal (delegations w) <= erc20_balance coin l contract). lia.
Qed.

(** ** Any sequence of calls *)

Inductive call :=
  | CDelegate (req : DelegateRequest) | CDelegate2 (req : DelegateRequest)
  | CRedelegateAll (former validator : option Address) (referrer : string)
  | CUnbond (req : UnbondRequest)
  | CWhitelist (req : WhitelistCandidateRequest) | CRemoveWhitelisted (a : option Address)
  | CChangeWhitelistAmount (a : option Address) (x : option Z) | CChangeWhitelistTier (a : option Address) (tier : Z)
  | CRegister (req : RegisterCandidateRequest) | CRegister2 (req : RegisterCandidateRequest)
  | CChangeFee (fee : Z) | CUpdateInfo (req : UpdateCandidateInfoRequest) | CUnregister
  | CProcessBatch (batch : list BatchRequest)
  | CSetElectionCycle (x : Z) | CSetMaxYearlyReward (x : option Z) | CSetRegistrationRequirement (x : option Z)
  | CSetValidatorCount (x : Z) | CSetOracleAddress (a : option Address) | CSetSlashingPercentages (c b : option Z)
  | CElect.

Definition run_call ctx (c : call) : M W unit :=
  match c with
  | CDelegate req => Delegate ctx req | CDelegate2 req => Delegate2 ctx req
  | CRedelegateAll former validator referrer => Redelegate ctx (mkRedelegateRequest former validator None referrer)
  | CUnbond req => Unbond ctx req
  | CWhitelist req => WhitelistCandidate ctx req | CRemoveWhitelisted a => RemoveWhitelistedCandidate ctx a
  | CChangeWhitelistAmount a x => ChangeWhitelistAmount ctx a x | CChangeWhitelistTier a t => ChangeWhitelistLockTimeTier ctx a t
  | CRegister req => RegisterCandidate ctx req | CRegister2 req => RegisterCandidate2 ctx req
  | CChangeFee fee => ChangeFee ctx fee | CUpdateInfo req => UpdateCandidateInfo ctx req | CUnregister => UnregisterCandidate ctx
  | CProcessBatch batch => ProcessRequestBatch ctx batch
  | CSetElectionCycle x => SetElectionCycle ctx x | CSetMaxYearlyReward x => SetMaxYearlyReward ctx x
  | CSetRegistrationRequirement x => SetRegistrationRequirement ctx x | CSetValidatorCount x => SetValidatorCount ctx x
  | CSetOracleAddress a => SetOracleAddress ctx a | CSetSlashingPercentages c b => SetSlashingPercentages ctx c b
  | CElect => Elect ctx
  end.

(** Amounts in requests are unsigned. *)
Definition call_ok (c : call) : Prop :=
  match c with CUnbond req => ∀ a, uq_Amount req = Some a → 0 <= a | _ => True end.

(** A call that succeeds, or a claim of rewards, which pays out [claimed]. *)
Inductive step2 w : Z → W → Prop :=
  | step_call ctx c w' : user ctx → call_ok c → run_call ctx c w = (Ok (), w') → step2 w 0 w'
  | step_claim ctx to amount w' : user ctx → (∀ a, to = Some a → wf_address a ∧ a ≠ contract) → 0 <= amount →
      ClaimDistribution ctx to w = (Ok amount, w') → step2 w amount w'.

Inductive steps2 w0 : Z → W → Prop :=
  | steps_nil : steps2 w0 0 w0
  | steps_snoc claimed c w w' : steps2 w0 claimed w → step2 w c w' → steps2 w0 (claimed + c) w'.

Lemma run_call_backed floor ctx c w : user ctx → call_ok c → backed floor w → post (run_call ctx c) (λ _, backed floor) w.
Proof.
  intros Hu Hok Hbk. pose proof Hu as (Hc & _). destruct c; cbn [run_call].
  - by apply Delegate_backed.
  - by apply Delegate2_backed.
  - by apply Redelegate_backed.
  - by apply Unbond_backed.
  - apply preserves_post; [|done]. unfold WhitelistCandidate. pres.
  - apply preserves_post; [|done]. by apply quiet_change.
  - apply preserves_post; [|done]. by apply quiet_change.
  - apply preserves_post; [|done]. by apply quiet_change.
  - by apply register_backed.
  - by apply register_backed.
  - apply preserves_post; [|done]. unfold ChangeFee. pres. apply quiet_emit.
  - apply preserves_post; [|done]. unfold UpdateCandidateInfo. pres. apply quiet_emit.
  - by apply Unregister_backed.
  - apply preserves_post; [|done]. unfold ProcessRequestBatch. pres.
  - apply preserves_post; [|done]. by apply quiet_params.
  - apply preserves_post; [|done]. by apply quiet_params.
  - apply preserves_post; [|done]. by apply quiet_params.
  - apply preserves_post; [|done]. by apply quiet_params.
  - apply preserves_post; [|done]. by apply quiet_params.
  - apply preserves_post; [|done]. by apply quiet_params.
  - by apply Elect_backed.
Qed.

(** C7. Starting from a contract without delegations, and whatever calls and elections
    succeed (a part of a delegation is never redelegated), the tokens of the contract
    cover all delegations: apart from what was paid out as claimed rewards, the contract
    keeps what it had at first and all that is delegated. *)
Theorem delegated_tokens_are_backed w0 claimed w :
  coin_is w0 → good (w2_ledger w0) → delegations w0 = [] → statistics w0 = [] → steps2 w0 claimed w →
  balance w0 + principal (delegations w) <= balance w + claimed.
Proof.
  intros Hc Hg Hd Hs Hsteps. assert (backed (balance w0 - claimed) w) as [_ _ _ _ Hb]; [|lia].
  induction Hsteps as [|claimed c w w' _ IH Hst].
  - constructor; rewrite ?Hd, ?Hs; [done | done | by constructor | by constructor|]. change (balance w0 - 0 + 0 <= balance w0). lia.
  - destruct Hst as [ctx c w' Hu Hok Hrun|ctx to amount w' Hu Hto Ha Hrun].
    + replace (balance w0 - (claimed + 0)) with (balance w0 - claimed) by lia. by eapply (run_call_backed _ ctx c w).
    + replace (balance w0 - (claimed + amount)) with (balance w0 - claimed - amount) by lia. destruct Hu as (? & _). by eapply Claim_backed.
Qed.
End Backed.

(** ** Where the books go wrong *)

Section Counterexamples.
Context {LIB : DiademLib} {SPEC : DiademLibSpec} {L : Type} {TOKEN : ERC20 L}.
Abbreviation W := (World2 L).
Implicit Types (w : W) (ctx : Ctx2).

(** The tokens of a delegation that are still to be bonded. *)
Definition pending (d : Delegation2) : Z := match e_State d with BONDING => e_UpdateAmount d | _ => 0 end.

Lemma find_alter_other {A} (p q : A → bool) f l :
  (∀ x, q x = true → p x = false ∧ p (f x) = false) → List.find p (alter_first q f l) = List.find p l.
Proof.
  intros H. induction l as [|x l IH]; [done|]. cbn. destruct (q x) eqn:E; cbn; [by destruct (H x E) as [-> ->]|]. by rewrite IH.
Qed.

Lemma redelegated_target former validator d f dl :
  same_local former validator = false → (∀ x, e_Validator (f x) = e_Validator x) →
  DelegationList_Get (alter_first (pair_is former d) f dl) validator d = DelegationList_Get dl validator d.
Proof.
  intros Hsame Hf. apply find_alter_other. intros x Hx. unfold pair_is in *. apply andb_true_iff in Hx as [Hx _]. rewrite Hf.
  unfold same_local in *. apply (cmp_eqb local_compare) in Hx. rewrite Hx, Hsame. done.
Qed.

(** Redelegating a part of a delegation to a validator to whom the delegator has another
    one overwrites the amount of that one with zero. *)
Theorem partial_redelegation_wipes_target ctx former validator amount referrer w w' prior target :
  DelegationList_Get (delegations w) former (ctx_sender ctx) = Some prior → e_Delegator prior = ctx_sender ctx →
  DelegationList_Get (delegations w) validator (ctx_sender ctx) = Some target → amount ≠ e_Amount prior →
  Redelegate ctx (mkRedelegateRequest (Some former) (Some validator) (Some amount) referrer) w = (Ok (), w') →
  principal (delegations w') = principal (delegations w) + amount - value target - pending prior.
Proof.
  intros Hprior Hd Htarget Hne Hrun.
  set (Q := λ w' : W, principal (delegations w') = principal (delegations w) + amount - value target - pending prior).
  assert (post (Redelegate ctx (mkRedelegateRequest (Some former) (Some validator) (Some amount) referrer)) (λ _, Q) w) as H; [|by eapply H].
  clear Hrun. unfold Redelegate. cbn [rq_FormerValidatorAddress rq_ValidatorAddress rq_Amount rq_Referrer].
  do 6 pstep. simplify_eq. do 4 pstep. pstep.
  match goal with H : same_local ?a ?b = false |- _ => rename H into Hsame end.
  apply (post_mono _ (λ _ w', w' = w)); [unfold require_candidate; by repeat pstep|]. intros [] w0 ->. pstep. pstep.
  change (loadDelegationList (w2_store w)) with (delegations w). rewrite Hprior. rewrite (proj2 (Z.eqb_neq (e_Amount prior) amount)) by done.
  pstep. pstep. pstep. simplify_eq. pstep; [by pstep|]. do 4 pstep. unfold Q. cbn [delegations w2_store]. unfold delegations at 1. cbn [w2_store].
  rewrite saved_delegations, saved_principal. unfold DelegationList_Set. rewrite set_principal. cbn [e_Validator e_Delegator]. rewrite Hd.
  rewrite redelegated_target by done. rewrite Htarget. unfold principal at 1. rewrite (alter_first_sum _ _ value _ _ Hprior).
  cbn [from_option]. fold (principal (delegations w)).
  assert (∀ a, value (e_with_Update a UNBONDING prior) = e_Amount prior) as -> by (intros; unfold value; cbn; lia).
  assert (value prior = e_Amount prior + pending prior) as -> by done. unfold value at 1. cbn [e_Amount e_State e_UpdateAmount]. lia.
Qed.

(** A candidate without statistic, that is one who was neither whitelisted nor elected,
    cannot unregister. *)
Theorem unregister_without_statistic_panics ctx w :
  DPOSVersion3Feature ctx = false → is_Some (CandidateList_Get (loadCandidateList (w2_store w)) (ctx_sender ctx)) →
  StatisticList_Get (statistics w) (ctx_sender ctx) = None → UnregisterCandidate ctx w = (Panic, w).
Proof.
  intros Hf [c Hc] Hs. unfold UnregisterCandidate, not_disabled. rewrite Hf. run_m. rewrite Hc. unfold statistics in Hs. by rewrite Hs.
Qed.

(** The number of validators cannot be changed. *)
Theorem validator_count_is_fixed ctx count w w' :
  SetValidatorCount ctx count w = (Ok (), w') →
  (st_Params <$> s2_state (w2_store w')) = (st_Params <$> s2_state (w2_store w)).
Proof.
  unfold SetValidatorCount, set_params. intros (u & w1 & Hg & H)%bind_inv. unfold not_disabled, guard_not in Hg. destruct (DPOSVersion3Feature ctx); [done|].
  injection Hg as _ <-. apply bind_inv in H as (st & w2 & Hst & H). unfold get_state, loadState in Hst.
  destruct (s2_state (w2_store w)) as [st0|]; [|done]. injection Hst as <- <-. apply bind_inv in H as (u' & w3 & Hg & H).
  unfold guard_not in Hg. destruct (negb _); [done|]. injection Hg as _ <-. by injection H as <-.
Qed.

(** A candidate that registered with the first method has no fee after two elections. *)
Theorem registered_fee_vanishes c :
  k_NewFee c = 0 → k_FeeDelayCounter c = 0 → k_Fee (step_fee (step_fee c)) = 0.
Proof.
  intros Hn Hz. unfold step_fee at 2. rewrite Hn, Hz. destruct (Z.eqb_spec (k_Fee c) 0) as [E|E].
  - unfold step_fee. rewrite Hn, E. done.
  - unfold step_fee. cbn [k_Fee k_NewFee k_FeeDelayCounter]. change (u64 (0 + 1) =? feeChangeDelay) with false. cbv iota.
    rewrite (proj2 (Z.eqb_neq (k_Fee c) 0)) by done. done.
Qed.

(** Registering again before the next election forgets the self-delegation that is being
    returned. *)
Theorem registering_again_wipes_self_delegation t x dl past :
  DelegationList_Get dl (e_Validator x) (e_Delegator x) = Some past → e_Amount x = 0 → e_State x = BONDING →
  principal (set_delegation t x dl) = principal dl + e_UpdateAmount x - value past.
Proof. intros Hp Ha Hst. rewrite set_principal, Hp. cbn. unfold value at 1. rewrite Ha, Hst. lia. Qed.
End Counterexamples.
