(* ===== verification/Dpos2Migration.v ===== *)
(** * From the second to the third dpos contract: theorems

    After the migration the third contract holds every delegation and every unclaimed
    reward of the second one, under keys of their own, with all its tokens, provided
    that no delegation is to one of the plasma validators.  Delegations to two of them
    fall under one key, and tokens that are still to be bonded are forgotten. *)

From stdpp Require Import pretty.
From S2P Require Import Prelude Contract DposTypes DposMath DposStorage DposHandlers Outcomes DposElection Dpos2Types Dpos2Handlers Dpos2Election Dpos2Theorems.

Section Inserts.
Context {K A : Type} `{Countable K} (key : A → K).

Definition insert_all (l : list A) (m : gmap K A) : gmap K A := foldl (λ m x, <[key x := x]> m) m l.

Lemma insert_all_cons x l m : insert_all (x :: l) m = insert_all l (<[key x := x]> m).
Proof. done. Qed.

Lemma insert_all_other l m k : k ∉ key <$> l → insert_all l m !! k = m !! k.
Proof.
  revert m. induction l as [|x l IH]; intros m Hk; [done|]. rewrite insert_all_cons, IH by set_solver. apply lookup_insert_ne. set_solver.
Qed.

Lemma insert_all_lookup l m x : NoDup (key <$> l) → x ∈ l → insert_all l m !! key x = Some x.
Proof.
  revert m. induction l as [|y l IH]; intros m Hnd Hx; [by apply elem_of_nil in Hx|].
  rewrite insert_all_cons. rewrite fmap_cons in Hnd. apply NoDup_cons in Hnd as [Hny Hnd]. apply elem_of_cons in Hx as [->|Hx]; [|by apply IH].
  rewrite insert_all_other by done. apply lookup_insert_eq.
Qed.

Lemma insert_all_size l m : NoDup (key <$> l) → (∀ x, x ∈ l → m !! key x = None) → size (insert_all l m) = (size m + length l)%nat.
Proof.
  revert m. induction l as [|y l IH]; intros m Hnd Hm; [cbn; lia|]. rewrite fmap_cons in Hnd. apply NoDup_cons in Hnd as [Hny Hnd].
  rewrite insert_all_cons, IH; [rewrite map_size_insert_None by (apply Hm; set_solver); cbn; lia | done |].
  intros x Hx. rewrite lookup_insert_ne; [apply Hm; set_solver|]. intros Heq. apply Hny. rewrite Heq. by apply list_elem_of_fmap_2.
Qed.
End Inserts.

(** [LocalAddress.String]: "0x" and two hexadecimal digits for each byte. *)
Class LocalStringSpec (local_string : bytes → string) : Prop := {
  ls_length x : String.length (local_string x) = (2 + 2 * String.length x)%nat;
  ls_inj x y : local_string x = local_string y → x = y;
}.

Section Migration.
Context {LIB : DiademLib} {SPEC : DiademLibSpec} {L : Type} {TOKEN : ERC20 L} {good : L → Prop} {TSPEC : ERC20Spec L good}.
Context (local_string : bytes → string) {LS : LocalStringSpec local_string}.
Abbreviation W := (World2 L).

(** The key of a delegation of the third contract. *)
Definition key3 (d : Delegation) : bytes := computeDelegationsKey (d_Index d) (d_Validator d) (d_Delegator d).

Lemma set_delegation3 d s : ds_delegation (SetDelegation d s) = <[key3 d := d]> (ds_delegation s).
Proof. unfold SetDelegation. by destruct (GetDelegation s _ _ _). Qed.

Lemma forM_delegations ds (w : DWorld L) :
  ∃ w', forM ds (λ d, DposHandlers.on_store (SetDelegation d)) w = (Ok (), w') ∧
    ds_delegation (dw_store w') = insert_all key3 ds (ds_delegation (dw_store w)) ∧ ds_state (dw_store w') = ds_state (dw_store w).
Proof.
  revert w. induction ds as [|d ds IH]; intros w; [by exists w|]. destruct (IH (mkDWorld (SetDelegation d (dw_store w)) (dw_ledger w) (dw_events w))) as (w' & E1 & E2 & E3).
  exists w'. split_and!; [exact E1 | rewrite E2, insert_all_cons; cbn [dw_store]; by rewrite set_delegation3 |].
  rewrite E3. cbn. unfold SetDelegation. by destruct (GetDelegation _ _ _ _).
Qed.

Lemma forM_statistics sts (w : DWorld L) :
  ∃ w', forM sts (λ st, DposHandlers.on_store (SetStatistic st)) w = (Ok (), w') ∧
    ds_delegation (dw_store w') = ds_delegation (dw_store w) ∧ ds_state (dw_store w') = ds_state (dw_store w).
Proof.
  revert w. induction sts as [|d ds IH]; intros w; [by exists w|].
  destruct (IH (mkDWorld (SetStatistic d (dw_store w)) (dw_ledger w) (dw_events w))) as (w' & E1 & E2 & E3). exists w'. by rewrite E2, E3.
Qed.

(** What the initialization leaves. *)
Lemma initialized st cs ds sts (w : DWorld L) :
  let w' := (Initialize st cs ds sts w).2 in
  ds_delegation (dw_store w') = insert_all key3 ds (ds_delegation (dw_store w)) ∧
  ds_state (dw_store w') = Some (st_with_Validators (sortValidators (st_Validators st)) st).
Proof.
  unfold Initialize. set (w1 := mkDWorld (DposStorage.saveCandidateList cs (DposStorage.saveState st (dw_store w))) (dw_ledger w) (dw_events w)).
  destruct (forM_delegations ds w1) as (w2 & E1 & E2 & E3). destruct (forM_statistics sts w2) as (w3 & F1 & F2 & F3).
  assert (Initialize st cs ds sts w = (Ok (), w3)) as Hrun.
  { unfold Initialize. rewrite (bind_ok _ _ _ () (mkDWorld (DposStorage.saveState st (dw_store w)) (dw_ledger w) (dw_events w))) by done.
    rewrite (bind_ok _ _ _ () w1) by done. by rewrite (bind_ok _ _ _ _ _ E1). }
  unfold Initialize in Hrun. rewrite Hrun. cbn [snd]. by rewrite F2, F3, E2, E3.
Qed.


Definition local20 (a : Address) : Prop := String.length (Local a) = 20%nat.

(** What is asked of a delegation: addresses of 20 bytes, a tier, and a validator other
    than the plasma validators. *)
Definition movable (d : Delegation2) : Prop :=
  local20 (e_Validator d) ∧ local20 (e_Delegator d) ∧ 0 <= e_LocktimeTier d <= 3 ∧ adjustValidatorIfInPlasmaValidators d = e_Validator d.

(** The record of the third contract for a delegation. *)
Definition carries (d : Delegation2) (d' : Delegation) : Prop :=
  d_Validator d' = e_Validator d ∧ d_Delegator d' = e_Delegator d ∧ d_Amount d' = adjustDoubledDelegationAmount d ∧
  d_UpdateAmount d' = e_UpdateAmount d ∧ d_LocktimeTier d' = e_LocktimeTier d ∧ d_LockTime d' = e_LockTime d ∧ d_State d' = BONDED.

Definition pair_key (v d : Address) : string := local_string (Local v) +:+ local_string (Local d).

Lemma pair_key_inj v d v' d' : local20 v → local20 v' → pair_key v d = pair_key v' d' → Local v = Local v' ∧ Local d = Local d'.
Proof.
  unfold local20. intros Hv Hv' H. apply append_length_inj in H as [H1 H2]; [|rewrite !ls_length, Hv, Hv'; done].
  split; by apply ls_inj.
Qed.

Lemma tier_kept t : 0 <= t <= 3 → TierMap (u64 t) = t.
Proof.
  intros Ht. rewrite u64_small by lia. unfold TierMap, TIER_ZERO, TIER_ONE, TIER_TWO, TIER_THREE.
  assert (t = 0 ∨ t = 1 ∨ t = 2 ∨ t = 3) as [->|[->|[->| ->]]] by lia; done.
Qed.

Lemma dump_carries indices dl : Forall movable dl → Forall2 carries dl (dump_delegations local_string indices dl).
Proof.
  revert indices. induction dl as [|d dl IH]; intros indices; [by constructor|]. intros [(_ & _ & Ht & Hp) Hdl]%Forall_cons. cbn [dump_delegations].
  constructor; [|by apply IH]. split_and!; try done. cbn. by apply tier_kept.
Qed.

(** Indices grow along the delegations of a pair. *)
Definition next (indices : gmap string Z) (v d : Address) : Z := default 0 (indices !! pair_key v d).
Definition room (indices : gmap string Z) (n : nat) : Prop := ∀ v d, 0 <= next indices v d ∧ next indices v d + Z.of_nat n < 2 ^ 63.

Definition bump (indices : gmap string Z) (v d : Address) : gmap string Z := <[pair_key v d := u64 (next indices v d + 1)]> indices.

Lemma next_bump indices v d v' d' n :
  room indices (S n) → next (bump indices v d) v' d' = if decide (pair_key v' d' = pair_key v d) then next indices v d + 1 else next indices v' d'.
Proof.
  intros Hr. unfold next at 1, bump. destruct (decide (pair_key v' d' = pair_key v d)) as [->|Hne].
  - rewrite lookup_insert_eq. cbn. pose proof (Hr v d). apply u64_small. lia.
  - by rewrite lookup_insert_ne.
Qed.

Lemma room_bump indices v d n : room indices (S n) → room (bump indices v d) n.
Proof.
  intros Hr v' d'. rewrite (next_bump _ _ _ _ _ n) by done. pose proof (Hr v' d'). pose proof (Hr v d). destruct (decide _); lia.
Qed.

Lemma dump_cons indices d dl :
  movable d → room indices (S (length dl)) →
  dump_delegations local_string indices (d :: dl) =
    mkDelegation (e_Validator d) (e_Delegator d) (1 + next indices (e_Validator d) (e_Delegator d)) (adjustDoubledDelegationAmount d) (e_UpdateAmount d)
      None (e_LocktimeTier d) (e_LockTime d) BONDED "" :: dump_delegations local_string (bump indices (e_Validator d) (e_Delegator d)) dl.
Proof.
  intros (_ & _ & Ht & Hp) Hr. cbn [dump_delegations]. rewrite Hp, tier_kept by done. pose proof (Hr (e_Validator d) (e_Delegator d)).
  unfold next in *. unfold pair_key in *. rewrite u64_small; [done|]. unfold DELEGATION_START_INDEX. lia.
Qed.

Lemma dump_indices indices dl x :
  Forall movable dl → room indices (length dl) → x ∈ dump_delegations local_string indices dl →
  1 + next indices (d_Validator x) (d_Delegator x) <= d_Index x ∧ local20 (d_Validator x) ∧ local20 (d_Delegator x).
Proof.
  revert indices. induction dl as [|d dl IH]; intros indices Hm Hr Hx; [by apply elem_of_nil in Hx|].
  apply Forall_cons in Hm as [Hd Hm]. rewrite dump_cons in Hx by done. destruct Hd as (H1 & H2 & _). apply elem_of_cons in Hx as [->|Hx]; [cbn; split; [lia | done]|].
  destruct (IH _ Hm (room_bump _ _ _ _ Hr) Hx) as (Hi & Hl). split; [|done].
  rewrite (next_bump _ _ _ _ _ (length dl)) in Hi by done. destruct (decide _) as [Heq|]; [|done].
  unfold next in Hi |- *. rewrite Heq. lia.
Qed.

Lemma delegation_key_inj x y :
  0 <= d_Index x → 0 <= d_Index y → local20 (d_Validator x) → local20 (d_Validator y) → local20 (d_Delegator x) → local20 (d_Delegator y) →
  key3 x = key3 y → d_Index x = d_Index y ∧ Local (d_Validator x) = Local (d_Validator y) ∧ Local (d_Delegator x) = Local (d_Delegator y).
Proof. unfold local20. intros. apply computeDelegationsKey_inj; congruence || done. Qed.

Lemma dump_keys indices dl : Forall movable dl → room indices (length dl) → NoDup (key3 <$> dump_delegations local_string indices dl).
Proof.
  revert indices. induction dl as [|d dl IH]; intros indices Hm Hr; [constructor|].
  pose proof Hm as [Hd Hm']%Forall_cons. rewrite dump_cons, fmap_cons by done. apply NoDup_cons. split; [|by apply IH, room_bump].
  intros (x & Hkey & Hx)%list_elem_of_fmap. destruct (dump_indices _ _ _ Hm' (room_bump _ _ _ _ Hr) Hx) as (Hi & H1 & H2).
  pose proof (Hr (e_Validator d) (e_Delegator d)) as [Hn _]. pose proof (room_bump _ (e_Validator d) (e_Delegator d) _ Hr (d_Validator x) (d_Delegator x)) as [Hn' _].
  destruct Hd as (G1 & G2 & _). apply delegation_key_inj in Hkey as (E1 & E2 & E3); cbn in *; try done; try lia.
  assert (pair_key (d_Validator x) (d_Delegator x) = pair_key (e_Validator d) (e_Delegator d)) as Heq by (unfold pair_key; by rewrite E2, E3).
  rewrite (next_bump _ _ _ _ _ (length dl)), decide_True in Hi by done. lia.
Qed.

(** What a migration that succeeds did. *)
Lemma migration_run ctx addr3 (mw mw' : MigrationWorld (L := L)) st coin :
  s2_state (w2_store (mg_v2 mw)) = Some st → p_CoinContractAddress (st_Params st) = Some coin →
  DPOSv3Migration local_string ctx (Ok addr3) mw = (Ok (), mw') →
  let s := w2_store (mg_v2 mw) in
  erc20_transfer coin (ctx_contract ctx) addr3 (erc20_balance coin (w2_ledger (mg_v2 mw)) (ctx_contract ctx)) (w2_ledger (mg_v2 mw))
    = (Ok (), w2_ledger (mg_v2 mw')) ∧ mg_v3_enabled mw' = true ∧
  ds_state (mg_v3 mw') = Some (st_with_Validators (sortValidators (st_Validators st)) st) ∧
  ds_delegation (mg_v3 mw') = insert_all key3 ((dump_distribution <$> loadDistributionList s) ++ dump_delegations local_string ∅ (loadDelegationList s))
    (ds_delegation (mg_v3 mw)).
Proof.
  intros Hst Hcoin. unfold DPOSv3Migration. destruct (Dump local_string ctx addr3 (mg_v2 mw)) as [[i|?|] w] eqn:Hd; [|done..]. intros [= <-].
  assert (post (Dump local_string ctx addr3) (λ i w, erc20_transfer coin (ctx_contract ctx) addr3
    (erc20_balance coin (w2_ledger (mg_v2 mw)) (ctx_contract ctx)) (w2_ledger (mg_v2 mw)) = (Ok (), w2_ledger w) ∧ is_State i = st ∧
    is_Delegations i = (dump_distribution <$> loadDistributionList (w2_store (mg_v2 mw))) ++ dump_delegations local_string ∅ (loadDelegationList (w2_store (mg_v2 mw)))) (mg_v2 mw)) as Hp.
  { unfold Dump. do 3 pstep. intros st0 w0. unfold get_state, Dpos2Types.loadState. rewrite Hst. intros [= <- <-]. do 11 pstep. unfold loadCoin. rewrite Hcoin. pstep. simplify_eq.
    pstep. apply post_gets. pstep. intros [] w1. unfold ERC20_Transfer, zoom. destruct (erc20_transfer _ _ _ _ _) as [r l] eqn:E. intros [= -> <-]. pstep. by split_and!. }
  destruct (Hp _ _ Hd) as (E1 & E2 & E3). cbn [mg_v2 mg_v3 mg_v3_enabled].
  destruct (initialized (is_State i) (is_Candidates i) (is_Delegations i) (is_Statistics i) (mkDWorld (mg_v3 mw) (w2_ledger w) [])) as (F1 & F2).
  rewrite F1, F2, E2, E3. done.
Qed.

Lemma limbo_local20 : local20 limboValidatorAddress.
Proof. done. Qed.

(** C8. The migration to the third contract loses nothing, unless delegations are to the
    plasma validators: every delegation (with its amount, lock time and tier) and every
    reward that was not claimed is found in the new contract under a key of its own, it
    holds nothing else, and it gets all tokens of the old contract. *)
Theorem migration_carries_everything (ctx : Ctx2) addr3 (mw mw' : MigrationWorld (L := L)) st coin :
  let s := w2_store (mg_v2 mw) in
  let bal w a := erc20_balance coin (w2_ledger (mg_v2 w)) a in
  s2_state s = Some st → p_CoinContractAddress (st_Params st) = Some coin → good (w2_ledger (mg_v2 mw)) → 0 <= bal mw (ctx_contract ctx) →
  wf_address (ctx_contract ctx) → wf_address addr3 → ctx_contract ctx ≠ addr3 →
  Forall movable (loadDelegationList s) → Z.of_nat (length (loadDelegationList s)) < 2 ^ 63 →
  Forall (λ d, local20 (i_Address d)) (loadDistributionList s) → NoDup ((λ d, Local (i_Address d)) <$> loadDistributionList s) →
  ds_delegation (mg_v3 mw) = ∅ → DPOSv3Migration local_string ctx (Ok addr3) mw = (Ok (), mw') →
  (∃ carried, Forall2 carries (loadDelegationList s) carried ∧
    (∀ d, d ∈ (dump_distribution <$> loadDistributionList s) ++ carried →
      GetDelegation (mg_v3 mw') (d_Index d) (d_Validator d) (d_Delegator d) = Some d) ∧
    size (ds_delegation (mg_v3 mw')) = (length (loadDistributionList s) + length (loadDelegationList s))%nat) ∧
  bal mw' (ctx_contract ctx) = 0 ∧ bal mw' addr3 = bal mw addr3 + bal mw (ctx_contract ctx) ∧ mg_v3_enabled mw' = true.
Proof.
  intros s bal Hst Hcoin Hg Hb Hwf Hwf3 Hne Hm Hlen Hd20 Hnd Hempty Hrun.
  destruct (migration_run _ _ _ _ _ _ Hst Hcoin Hrun) as (Ht & Hen & _ & Hmap). fold s in Hmap. split_and!; [|..|done].
  - assert (room ∅ (length (loadDelegationList s))) as Hroom by (intros v d; unfold next; rewrite lookup_empty; cbn; lia).
    pose proof (dump_carries ∅ (loadDelegationList s) Hm) as Hc. exists (dump_delegations local_string ∅ (loadDelegationList s)). split; [done|].
    set (l := _ ++ _) in *. assert (NoDup (key3 <$> l)) as Hkeys.
    { unfold l. rewrite fmap_app. apply NoDup_app. split_and!; [| |by apply dump_keys].
      - rewrite <- list_fmap_compose. apply NoDup_fmap_2_strong; [|exact (NoDup_fmap_1 _ _ Hnd)].
        intros x y Hx Hy Hxy. rewrite Forall_forall in Hd20. apply delegation_key_inj in Hxy as (_ & _ & Hl); try done; try (by apply Hd20).
        cbn in Hl. by eapply (NoDup_fmap_inj_in (λ d, Local (i_Address d))).
      - intros k (x & -> & (y & -> & Hy)%list_elem_of_fmap)%list_elem_of_fmap (z & Hkey & Hz)%list_elem_of_fmap.
        destruct (dump_indices _ _ _ Hm Hroom Hz) as (Hi & H1 & H2). pose proof (Hroom (d_Validator z) (d_Delegator z)) as [Hn _].
        rewrite Forall_forall in Hd20. apply delegation_key_inj in Hkey as (E & _); try done; cbn in *; try (by apply Hd20); unfold REWARD_DELEGATION_INDEX in *; lia. }
    split.
    + intros d Hd. unfold GetDelegation. rewrite Hmap, Hempty. by apply (insert_all_lookup key3).
    + rewrite Hmap, Hempty, insert_all_size; [|done|intros; apply lookup_empty]. rewrite map_size_empty. unfold l. rewrite length_app, length_fmap.
      rewrite <- (Forall2_length _ _ _ Hc). lia.
  - destruct (erc20_transfer_moves coin _ addr3 _ _ _ Hg Hb Hwf Hwf3 Hne Ht) as (_ & E & _). unfold bal in *. lia.
  - destruct (erc20_transfer_moves coin _ addr3 _ _ _ Hg Hb Hwf Hwf3 Hne Ht) as (_ & _ & E & _). unfold bal in *. lia.
Qed.

(** Two delegations of one delegator, one to each of two plasma validators, are given the
    same key: the second overwrites the first in the new contract. *)
Theorem plasma_delegations_collide d1 d2 rest :
  Local (e_Validator d1) = Local (default limboValidatorAddress (plasmaValidators !! 1%nat)) →
  Local (e_Validator d2) = Local (default limboValidatorAddress (plasmaValidators !! 2%nat)) → e_Delegator d1 = e_Delegator d2 →
  ∃ x y l, dump_delegations local_string ∅ (d1 :: d2 :: rest) = x :: y :: l ∧ key3 x = key3 y.
Proof.
  intros H1 H2 Hd. cbn [dump_delegations]. eexists _, _, _. split; [done|]. unfold key3. cbn [d_Index d_Validator d_Delegator].
  assert (∀ d i, Local (e_Validator d) = Local (default limboValidatorAddress (plasmaValidators !! i)) → (i < 6)%nat →
    adjustValidatorIfInPlasmaValidators d = plasma0) as Hadj.
  { intros d i Hl Hi. unfold adjustValidatorIfInPlasmaValidators. rewrite (proj2 (existsb_exists _ _)); [done|].
    destruct (lookup_lt_is_Some_2 plasmaValidators i) as [v Hv]; [done|]. exists v. split; [apply list_elem_of_In; by eapply list_elem_of_lookup_2|].
    rewrite Hv in Hl. unfold same_local. rewrite Hl. apply (cmp_eqb local_compare). done. }
  rewrite (Hadj d1 1%nat), (Hadj d2 2%nat), Hd by (done || lia).
  rewrite lookup_empty, lookup_insert_ne, lookup_empty; [done|]. intros Heq.
  apply append_length_inj in Heq as [Heq _]; [|rewrite !ls_length, H1, H2; done]. apply ls_inj in Heq. rewrite H1, H2 in Heq. vm_compute in Heq. done.
Qed.

(** Tokens that were to be bonded at the next election come over as the update of a
    bonded delegation, and the next election of the new contract drops them. *)
Theorem pending_delegation_is_forgotten (ctx : Ctx) d d' (w : DWorld L) :
  e_State d = BONDING → adjustDoubledDelegationAmount d = e_Amount d → carries d d' →
  settleUpdate ctx d' w = (Ok d', w) ∧ d_Amount d' = value d - e_UpdateAmount d ∧
  ∀ x w', finishUpdate ctx d' w = (Ok x, w') → d_Amount x = d_Amount d' ∧ d_UpdateAmount x = 0.
Proof.
  intros Hst Hadj (_ & _ & Ha & _ & _ & _ & Hb). unfold value. rewrite Hst. split_and!.
  - unfold settleUpdate. by rewrite Hb.
  - rewrite Ha, Hadj. lia.
  - intros x w'. unfold finishUpdate. rewrite Hb, bool_decide_false by done. rewrite andb_false_r. intros (y & w1 & _ & Hret)%bind_inv.
    apply ret_inv in Hret as [-> _]. unfold resetDelegationIfExpired. by case_match.
Qed.
End Migration.
