(* ===== verification/Dpos2Witnesses.v ===== *)
(** * The second dpos contract: witnesses

    The coin contract as the token: a delegation, an election, an unbonding and a second
    election for the books, and a migration with two delegations of one pair and a reward
    that was not claimed. *)

From Stdlib Require Import Ascii.
From S2P Require Import Prelude Contract Coin DposTypes DposMath DposStorage DposHandlers DposElection DposCallTheorems Outcomes Dpos2Types Dpos2Handlers Dpos2Election Dpos2Theorems Dpos2Migration.

(** ** [LocalAddress.String] *)

Module HexString.
Definition digit (n : N) : ascii := ascii_of_N (if (n <? 10)%N then n + 48 else n + 55)%N.
Fixpoint hex (s : bytes) : string :=
  match s with
  | EmptyString => EmptyString
  | String c s => let n := N_of_ascii c in String (digit (n / 16)) (String (digit (n mod 16)) (hex s))
  end.
Definition local_string (s : bytes) : string := "0x" +:+ hex s.

Lemma of_digits c : ascii_of_N (16 * hex_digit (digit (N_of_ascii c / 16)) + hex_digit (digit (N_of_ascii c mod 16))) = c.
Proof. by destruct c as [[] [] [] [] [] [] [] []]. Qed.

Lemma of_hex_hex s : of_hex (hex s) = s.
Proof. induction s as [|c s IH]; [done|]. cbn [hex of_hex]. by rewrite of_digits, IH. Qed.

Lemma hex_length s : String.length (hex s) = (2 * String.length s)%nat.
Proof. induction s as [|c s IH]; [done|]. cbn [hex String.length]. rewrite IH. lia. Qed.

#[global] Instance local_string_spec : LocalStringSpec local_string.
Proof.
  split.
  - intros x. change (S (S (String.length (hex x))) = (2 + 2 * String.length x)%nat). by rewrite hex_length.
  - intros x y [= H]. change (hex x = hex y) in H. by rewrite <- (of_hex_hex x), H, of_hex_hex.
Qed.
End HexString.

Module Dpos2Witness.
Import SimpleLib CoinWitness.

Definition at_time (sender : string) (now : Z) : Ctx2 := mkCtx2 (sample_ctx (sample sender) now) false true.

(** ** The books *)

(** The candidate [sample "v"]; nobody has delegated, and [sample "a"] lets the contract
    [sample "X"] spend 70 of its coins. *)
Definition params : Params := CallWitness.params.
Definition cand : Candidate2 := mkCandidate2 "v" (sample "v") 100 100 0 "" "" "".
Definition start2 : World2 CoinWorld :=
  mkWorld2 (mkDpos2Store (Some (mkState params [] 0 0 0)) (Some [cand]) None None None None) CallWitness.ledger [].

Definition calls : list (Ctx2 * call) :=
  [(at_time "a" 1000, CDelegate2 (mkDelegateRequest (Some (sample "v")) (Some 50) 0 ""));
   (at_time "b" 2000, CElect);
   (at_time "a" 100000000, CUnbond (mkUnbondRequest (Some (sample "v")) (Some 20)));
   (at_time "b" 100001000, CElect)].

Definition run_all (cs : list (Ctx2 * call)) (w : World2 CoinWorld) : World2 CoinWorld :=
  foldl (λ w c, (Dpos2Theorems.run_call c.1 c.2 w).2) w cs.
Definition settled2 : World2 CoinWorld := run_all calls start2.

Lemma steps_run cs w0 w :
  Forall (λ c, user (sample "X") c.1 ∧ call_ok c.2) cs → steps2 (sample "X") w0 0 w →
  (fix ok (l : list (Ctx2 * call)) (w : World2 CoinWorld) : Prop :=
     match l with [] => True | c :: l => (Dpos2Theorems.run_call c.1 c.2 w).1 = Ok () ∧ ok l (Dpos2Theorems.run_call c.1 c.2 w).2 end) cs w →
  steps2 (sample "X") w0 0 (run_all cs w).
Proof.
  revert w. induction cs as [|c cs IH]; intros w Hcs Hs Hok; [done|]. apply Forall_cons in Hcs as [[Hu Hc] Hcs]. destruct Hok as [Hr Hok].
  apply (IH _ Hcs); [|done]. apply (steps_snoc _ _ 0 0 w); [done|]. apply (step_call _ w c.1 c.2); [done | done |]. by apply run_ok.
Qed.

Lemma settled2_reached : steps2 (sample "X") start2 0 settled2.
Proof.
  apply steps_run; [|apply steps_nil|by vm_compute].
  repeat constructor; try done. cbn. intros a [= <-]. done.
Qed.

Lemma delegated_tokens_witness :
  principal (delegations settled2) = 30 ∧
  balance (sample "X") (sample "C") start2 + principal (delegations settled2) <= balance (sample "X") (sample "C") settled2 + 0.
Proof.
  split; [by vm_compute|].
  apply (delegated_tokens_are_backed (sample "X") (sample "C") ltac:(by repeat split) start2 0 settled2).
  - by intros st [= <-].
  - apply CallWitness.ledger_good.
  - done.
  - done.
  - apply settled2_reached.
Defined.

(** ** The migration *)

Definition dlg (delegator : string) (amount tier : Z) : Delegation2 :=
  mkDelegation2 (sample "v") (sample delegator) None amount 0 1 tier 500 BONDED.
Definition store2 : Dpos2Store :=
  mkDpos2Store (Some (mkState params [] 0 0 0)) (Some [cand]) (Some [dlg "a" 40 1; dlg "a" 20 0; dlg "b" 5 3])
    (Some [mkDistribution (sample "a") 7]) None None.
Definition before : MigrationWorld :=
  mkMigration (mkWorld2 store2 (mkCoinWorld (sample "C") (Coin.run_call (sample_ctx (sample "a") 0) (CallTransfer (sample "X") 72) start).2) [])
    empty_dpos_store false.
Definition after : MigrationWorld := (DPOSv3Migration HexString.local_string (at_time "o" 3000) (Ok (sample "Y")) before).2.

Lemma before_good : coin_wf (cw_store (w2_ledger (mg_v2 before))).
Proof.
  apply coin_reachable_wf. apply reach_call; [apply start_reachable|]. cbn. split_and!; try apply sample_wf; try (by repeat split); lia.
Qed.

Lemma everything_carried_witness :
  erc20_balance (sample "C") (w2_ledger (mg_v2 after)) (sample "Y") = 72 ∧ mg_v3_enabled after = true ∧
  size (ds_delegation (mg_v3 after)) = 4%nat ∧ (d_Amount <$> GetDelegation (mg_v3 after) 2 (sample "v") (sample "a")) = Some 20.
Proof.
  destruct (migration_carries_everything HexString.local_string (at_time "o" 3000) (sample "Y") before after (mkState params [] 0 0 0) (sample "C"))
    as ((carried & _ & _ & Hsize) & _ & Hbal & Hen).
  - done.
  - done.
  - apply before_good.
  - by vm_compute.
  - by repeat split.
  - by repeat split.
  - done.
  - repeat constructor; cbn; (done || by vm_compute).
  - done.
  - by repeat constructor.
  - apply (bool_decide_unpack _). by vm_compute.
  - done.
  - apply run_ok. by vm_compute.
  - rewrite Hbal, Hsize. split_and!; try done; by vm_compute.
Defined.
End Dpos2Witness.
