(* ===== verification/MainnetOracle.v ===== *)
(** * The oracle of the gateway (src/gateway)

    A process beside the node: it reads the logs of the gateway contract on Ethereum,
    submits them as events to the gateway of this chain, signs pending withdrawals and
    verifies who made contracts.  With the consensus on functions, [BatchSignWithdrawalFn]
    signs the withdrawals instead (oracle.go, fns.go, mainnet_client.go, config.go).

    Ethereum is a parameter: [Mainnet] is what a node answers at the time of a poll.  The
    contract of this chain is reached over the network: the class [DAppChainGateway], one
    operation per method of dappchain_gateway.go.  Iterating over the logs of a filter is
    one answer: a list or an error. *)

From Stdlib Require Import Ascii.
From S2P Require Import Prelude Contract Coin EthCoin AddressMapper Store Middleware EvmTokens Gateway EthJson.

(** ** Ethereum *)

Record RawLog := mkRawLog { rl_BlockNumber : Z; rl_TxIndex : Z; rl_TxHash : bytes }.
Record ERC721Received := mkERC721Received { x7_From : bytes; x7_TokenId : Z; x7_ContractAddress : bytes; x7_Raw : RawLog }.
Record ERC721XReceived := mkERC721XReceived { xx_From : bytes; xx_TokenId : Z; xx_Amount : Z; xx_ContractAddress : bytes; xx_Raw : RawLog }.
Record ERC20Received := mkERC20Received { x2_From : bytes; x2_Amount : Z; x2_ContractAddress : bytes; x2_Raw : RawLog }.
Record DiademCoinReceived := mkDiademCoinReceived { xd_From : bytes; xd_Amount : Z; xd_DiademCoinAddress : bytes; xd_Raw : RawLog }.
Record ETHReceived := mkETHReceived { xe_From : bytes; xe_Amount : Z; xe_Raw : RawLog }.
Record TokenWithdrawn := mkTokenWithdrawn { xw_Owner : bytes; xw_Kind : Z; xw_ContractAddress : bytes; xw_Value : Z; xw_Raw : RawLog }.

(** A transaction: [To] as the node formats it, and the sender. *)
Record EthTx := mkEthTx { et_To : string; et_From : bytes }.

(** The answers of a node; [None] is the JSON null. *)
Record Mainnet := mkMainnet {
  mn_HeaderByNumber : Res Z;
  mn_FilterERC721Received : Z → Z → Res (list ERC721Received);
  mn_FilterERC721XReceived : Z → Z → Res (list ERC721XReceived);
  mn_FilterERC20Received : Z → Z → Res (list ERC20Received);
  mn_FilterETHReceived : Z → Z → Res (list ETHReceived);
  mn_FilterDiademCoinReceived : Z → Z → Res (list DiademCoinReceived);
  mn_FilterTokenWithdrawn : Z → Z → Res (list TokenWithdrawn);
  mn_getTransactionByHash : bytes → Res (option EthTx);
  mn_getTransactionReceipt : bytes → Res (option bytes);
}.

(** What the code uses of other packages: [common.Address.Hex], [common.BytesToHash],
    [LocalAddressFromHexString], the numbers of the token kinds, and the two ways to sign a
    hash with the key. *)
Class OracleLib := {
  address_hex : bytes → string;
  BytesToHash : bytes → bytes;
  local_from_hex : string → Res bytes;
  kind_of : Z → TokenKind;
  SoliditySign : bytes → Res bytes;
  SoliditySignPrefixed : bytes → Res bytes;
}.

(** ** The gateway of this chain, over the network (dappchain_gateway.go) *)

Class DAppChainGateway (G : Type) := {
  dg_LastMainnetBlockNum : M G Z;
  dg_ProcessEventBatch (events : list MainnetEvent) : M G unit;
  dg_PendingWithdrawals (mainnetGateway : Address) : M G (list (Address * bytes));
  dg_ConfirmWithdrawalReceipt (owner : Address) (sig hash : bytes) : M G unit;
  dg_ConfirmWithdrawalReceiptV2 (owner : Address) (sig hash : bytes) : M G unit;
  dg_UnverifiedContractCreators : M G (list (Z * bytes));
  dg_VerifyContractCreators (creators : list VerifiedContractCreator) : M G unit;
}.

(** *** Its contract

    [gc_taken] are the events that were handled by accepted batches: those beyond the last
    block that the gateway knew then.  A request that does not reach the node fails before the
    call ([net]), and the answer of one that was carried out may be lost ([answer]); a
    transaction that fails changes nothing.  All calls are signed by the sender of [gx]. *)

Record GatewayChain (P E : Type) := mkGatewayChain { gc_world : GWorld P E; gc_taken : list MainnetEvent }.
Arguments mkGatewayChain {P E}.
Arguments gc_world {P E}.
Arguments gc_taken {P E}.

Section Client.
Context {LIB : DiademLib} {EVM : EvmLib} {RANGE : RangeOrder} {GLIB : GatewayLib}.
Context {P : Type} {PERM : Permissions P} {E : Type} {TOKENS : EvmTokens E}.
Context (tg : bool) (gx : GCtx) (net answer : string → Res unit).
Abbreviation GM := (M (GatewayChain P E)).

Definition StaticCall {A} (method : string) (f : GStore P → Res A) : GM A :=
  lift_res (net method);; r ← gets (λ c, f (gw_store (gc_world c))); lift_res r.

Definition unprocessed (events : list MainnetEvent) (w : GWorld P E) : list MainnetEvent :=
  filter (λ ev, gs_LastMainnetBlockNum (loadState (gw_store w)) < ev_EthBlock ev) events.

Definition transact (batch : list MainnetEvent) (m : M (GWorld P E) unit) : GM unit := λ c,
  match m (gc_world c) with
  | (Ok _, w) => (Ok (), mkGatewayChain w (gc_taken c ++ unprocessed batch (gc_world c)))
  | (r, _) => (r, c)
  end.
Definition Call (method : string) (batch : list MainnetEvent) (m : M (GWorld P E) unit) : GM unit :=
  lift_res (net method);; transact batch m;; lift_res (answer method).

(** An empty field of bytes arrives as [nil]. *)
Definition bytes_field (b : bytes) : option bytes := if decide (b = "") then None else Some b.

Definition client_LastMainnetBlockNum : GM Z := StaticCall "GetState" (λ s, Ok (gs_LastMainnetBlockNum (GetState s))).
Definition client_ProcessEventBatch (events : list MainnetEvent) : GM unit := Call "ProcessEventBatch" events (ProcessEventBatch tg gx events).
Definition client_PendingWithdrawals (mainnetGatewayAddr : Address) : GM (list (Address * bytes)) :=
  StaticCall "PendingWithdrawals" (PendingWithdrawals (Some mainnetGatewayAddr)).
Definition client_ConfirmWithdrawalReceipt (owner : Address) (sig hash : bytes) : GM unit :=
  Call "ConfirmWithdrawalReceipt" [] (ConfirmWithdrawalReceipt gx (mkConfirmReceipt (Some owner) (bytes_field sig))).
Definition client_ConfirmWithdrawalReceiptV2 (owner : Address) (sig hash : bytes) : GM unit :=
  Call "ConfirmWithdrawalReceiptV2" [] (ConfirmWithdrawalReceiptV2 gx (mkConfirmReceipt (Some owner) (bytes_field sig))).
Definition client_UnverifiedContractCreators : GM (list (Z * bytes)) := StaticCall "UnverifiedContractCreators" (λ s, Ok (UnverifiedContractCreators s)).
Definition client_VerifyContractCreators (verifiedCreators : list VerifiedContractCreator) : GM unit :=
  Call "VerifyContractCreators" [] (VerifyContractCreators gx verifiedCreators).

#[global] Instance contract_gateway : DAppChainGateway (GatewayChain P E) := {
  dg_LastMainnetBlockNum := client_LastMainnetBlockNum;
  dg_ProcessEventBatch := client_ProcessEventBatch;
  dg_PendingWithdrawals := client_PendingWithdrawals;
  dg_ConfirmWithdrawalReceipt := client_ConfirmWithdrawalReceipt;
  dg_ConfirmWithdrawalReceiptV2 := client_ConfirmWithdrawalReceiptV2;
  dg_UnverifiedContractCreators := client_UnverifiedContractCreators;
  dg_VerifyContractCreators := client_VerifyContractCreators;
}.
End Client.

(** ** Configuration (config.go) *)

Definition UnprefixedWithdrawalSigType : Z := 1.
Definition PrefixedWithdrawalSigType : Z := 2.

Record TransferGatewayConfig := mkGatewayConfig {
  WithdrawalSig : Z;
  MainnetContractHexAddress : string;
  NumMainnetBlockConfirmations : Z;
  BatchSignFnEnabled : option bool;
  WithdrawerAddressBlacklist : list string;
}.

Definition Validate (c : TransferGatewayConfig) : Res unit :=
  if NumMainnetBlockConfirmations c <? 0 then Err (ErrMsg "NumMainnetBlockConfirmations can't be negative") else Ok ().

Fixpoint parse_blacklist {LIB : DiademLib} (l : list string) : Res (list Address) :=
  match l with
  | [] => Ok []
  | s :: l =>
      match parse_address s with
      | None => Err (ErrMsg "failed to parse address in WithdrawerAddressBlacklist")
      | Some a => as_ ← parse_blacklist l; Ok (a :: as_)
      end
  end.
Definition GetWithdrawerAddressBlacklist {LIB : DiademLib} (c : TransferGatewayConfig) : Res (list Address) :=
  parse_blacklist (WithdrawerAddressBlacklist c).

(** ** State *)

(** [recentHashPool]: the hashes in hexadecimal. *)
Definition hashPool := gset string.
Definition addHash (hash : bytes) (r : hashPool) : bool * hashPool :=
  let hexEncodedHash := hex_encode hash in
  if decide (hexEncodedHash ∈ r) then (false, r) else (true, {[hexEncodedHash]} ∪ r).
Definition seenHash (hash : bytes) (r : hashPool) : bool := bool_decide (hex_encode hash ∈ r).
(** What the cleanup routine does at each tick. *)
Definition cleanup (r : hashPool) : hashPool := ∅.

Record mainnetEventInfo := mkEventInfo { ei_BlockNum : Z; ei_TxIdx : Z; ei_Event : MainnetEvent }.

Record Status := mkStatus { st_NextMainnetBlockNum : Z; st_NumMainnetEventsFetched : Z; st_NumMainnetEventsSubmitted : Z }.

(** What does not change while the oracle runs. *)
Record OracleConfig := mkOracleConfig {
  mainnetGatewayAddress : Address;
  numMainnetBlockConfirmations : Z;
  isDiademCoinOracle : bool;
  withdrawalSig : Z;
  withdrawerBlacklist : list Address;
  receiptSigningEnabled : bool;
}.

Record Oracle := mkOracle {
  startBlock : Z;
  numMainnetEventsFetched : Z;
  numMainnetEventsSubmitted : Z;
  status : Status;
  hash_pool : hashPool;
}.

Definition fresh_oracle : Oracle := mkOracle 0 0 0 (mkStatus 0 0 0) ∅.

Section Oracle.
Context {LIB : DiademLib} {GLIB : GatewayLib} {OLIB : OracleLib}.

(** [keys] is the outcome of loading the two private keys. *)
Definition createOracle (is_hex_address : string → bool) (hex_to_address : string → bytes) (keys : Res unit)
    (cfg : TransferGatewayConfig) (isDiademCoin : bool) : Res (OracleConfig * Oracle) :=
  _ ← Validate cfg;
  _ ← keys;
  if negb (is_hex_address (MainnetContractHexAddress cfg)) then Err (ErrMsg "invalid Mainnet Gateway address")
  else
    blacklist ← GetWithdrawerAddressBlacklist cfg;
    match BatchSignFnEnabled cfg with
    | None => Panic
    | Some enabled =>
        Ok (mkOracleConfig (mkAddress "eth" (hex_to_address (MainnetContractHexAddress cfg))) (u64 (NumMainnetBlockConfirmations cfg))
              isDiademCoin (WithdrawalSig cfg) blacklist (negb enabled), fresh_oracle)
    end.

(** ** Fetching events *)

(** A loop that appends what is made of each log, leaves a log out ([None]) or fails. *)
Fixpoint collect {A B} (f : A → Res (option B)) (l : list A) : Res (list B) :=
  match l with
  | [] => Ok []
  | x :: l => o ← f x; rest ← collect f l; Ok (match o with Some y => y :: rest | None => rest end)
  end.

Definition eth_account (a : bytes) : Res Address := l ← local_from_hex (address_hex a); Ok (mkAddress "eth" l).

Definition deposit_info (raw : RawLog) (kind : TokenKind) (contract : option Address) (owner : Address) (tokenID amount : option Z) : mainnetEventInfo :=
  mkEventInfo (rl_BlockNumber raw) (rl_TxIndex raw)
    (mkMainnetEvent (rl_BlockNumber raw) (Payload_Deposit (mkMainnetDeposit (Some owner) contract kind tokenID amount (rl_TxHash raw)))).

Definition erc721_info (ev : ERC721Received) : Res (option mainnetEventInfo) :=
  tokenAddr ← eth_account (x7_ContractAddress ev);
  fromAddr ← eth_account (x7_From ev);
  Ok (Some (deposit_info (x7_Raw ev) TokenKind_ERC721 (Some tokenAddr) fromAddr (Some (x7_TokenId ev)) None)).
Definition erc721x_info (ev : ERC721XReceived) : Res (option mainnetEventInfo) :=
  tokenAddr ← eth_account (xx_ContractAddress ev);
  fromAddr ← eth_account (xx_From ev);
  Ok (Some (deposit_info (xx_Raw ev) TokenKind_ERC721X (Some tokenAddr) fromAddr (Some (xx_TokenId ev)) (Some (xx_Amount ev)))).
Definition erc20_info (ev : ERC20Received) : Res (option mainnetEventInfo) :=
  tokenAddr ← eth_account (x2_ContractAddress ev);
  fromAddr ← eth_account (x2_From ev);
  Ok (Some (deposit_info (x2_Raw ev) TokenKind_ERC20 (Some tokenAddr) fromAddr None (Some (x2_Amount ev)))).
Definition diademcoin_info (ev : DiademCoinReceived) : Res (option mainnetEventInfo) :=
  tokenAddr ← eth_account (xd_DiademCoinAddress ev);
  fromAddr ← eth_account (xd_From ev);
  Ok (Some (deposit_info (xd_Raw ev) TokenKind_DiademCoin (Some tokenAddr) fromAddr None (Some (xd_Amount ev)))).
Definition eth_info (ev : ETHReceived) : Res (option mainnetEventInfo) :=
  fromAddr ← eth_account (xe_From ev);
  Ok (Some (deposit_info (xe_Raw ev) TokenKind_ETH None fromAddr None (Some (xe_Amount ev)))).

Definition withdrawal_info (isDiademCoin : bool) (ev : TokenWithdrawn) : Res (option mainnetEventInfo) :=
  let kind := kind_of (xw_Kind ev) in
  if negb (eqb isDiademCoin (kind_eqb kind TokenKind_DiademCoin)) then Ok None
  else
    tokenAddr ← eth_account (xw_ContractAddress ev);
    fromAddr ← eth_account (xw_Owner ev);
    let '(tokenID, amount) :=
      match kind with
      | TokenKind_ERC721 => (Some (xw_Value ev), None)
      | TokenKind_ERC721X | TokenKind_ERC20 | TokenKind_ETH | TokenKind_DiademCoin => (None, Some (xw_Value ev))
      | TokenKind_Other _ => (None, None)
      end in
    Ok (Some (mkEventInfo (rl_BlockNumber (xw_Raw ev)) (rl_TxIndex (xw_Raw ev))
      (mkMainnetEvent (rl_BlockNumber (xw_Raw ev))
        (Payload_Withdrawal (mkMainnetWithdrawal (Some fromAddr) (Some tokenAddr) kind tokenID amount (rl_TxHash (xw_Raw ev))))))).

Definition fetchERC721Deposits (eth : Mainnet) (a b : Z) : Res (list mainnetEventInfo) := l ← mn_FilterERC721Received eth a b; collect erc721_info l.
Definition fetchERC721XDeposits (eth : Mainnet) (a b : Z) : Res (list mainnetEventInfo) := l ← mn_FilterERC721XReceived eth a b; collect erc721x_info l.
Definition fetchERC20Deposits (eth : Mainnet) (a b : Z) : Res (list mainnetEventInfo) := l ← mn_FilterERC20Received eth a b; collect erc20_info l.
Definition fetchDiademCoinDeposits (eth : Mainnet) (a b : Z) : Res (list mainnetEventInfo) := l ← mn_FilterDiademCoinReceived eth a b; collect diademcoin_info l.
Definition fetchETHDeposits (eth : Mainnet) (a b : Z) : Res (list mainnetEventInfo) := l ← mn_FilterETHReceived eth a b; collect eth_info l.
Definition fetchTokenWithdrawals (isDiademCoin : bool) (eth : Mainnet) (a b : Z) : Res (list mainnetEventInfo) :=
  l ← mn_FilterTokenWithdrawn eth a b; collect (withdrawal_info isDiademCoin) l.

(** The [less] of [sort.Slice]. *)
Definition lessEvent (x y : mainnetEventInfo) : bool :=
  if ei_BlockNum x =? ei_BlockNum y then ei_TxIdx x <? ei_TxIdx y else ei_BlockNum x <? ei_BlockNum y.
Definition sortMainnetEvents (events : list mainnetEventInfo) : list mainnetEventInfo := go_sort lessEvent events.

Definition fetchEvents (cfg : OracleConfig) (eth : Mainnet) (start end_ : Z) : Res (list MainnetEvent) :=
  deposits ← (if isDiademCoinOracle cfg then fetchDiademCoinDeposits eth start end_
              else
                erc721Deposits ← fetchERC721Deposits eth start end_;
                erc721xDeposits ← fetchERC721XDeposits eth start end_;
                erc20Deposits ← fetchERC20Deposits eth start end_;
                ethDeposits ← fetchETHDeposits eth start end_;
                Ok (erc721Deposits ++ erc721xDeposits ++ erc20Deposits ++ ethDeposits));
  withdrawals ← fetchTokenWithdrawals (isDiademCoinOracle cfg) eth start end_;
  Ok (ei_Event <$> sortMainnetEvents (deposits ++ withdrawals)).

(** ** Contract creators (mainnet_client.go) *)

(** [Ok None] is [ethereum.NotFound]. *)
Definition ContractCreationTxByHash (eth : Mainnet) (txHash : bytes) : Res (option (bytes * bytes)) :=
  tx ← mn_getTransactionByHash eth txHash;
  match tx with
  | None => Ok None
  | Some tx =>
      if negb (String.eqb (et_To tx) "0x0") && negb (String.eqb (et_To tx) "0x") && negb (String.eqb (et_To tx) "") then Ok None
      else
        r ← mn_getTransactionReceipt eth txHash;
        match r with
        | None => Ok None
        | Some contractAddress => Ok (Some (et_From tx, contractAddress))
        end
  end.

Definition fetchMainnetContractCreator (eth : Mainnet) (unverified : Z * bytes) : Res VerifiedContractCreator :=
  tx ← ContractCreationTxByHash eth (BytesToHash unverified.2);
  Ok (match tx with
      | None => mkVerifiedCreator unverified.1 (Some (root_address "eth")) (Some (root_address "eth"))
      | Some (creator, contract) =>
          let with_local l := Some (mkAddress (ChainID (root_address "eth")) l) in
          mkVerifiedCreator unverified.1 (with_local creator) (with_local contract)
      end).

(** ** The turns of the oracle *)

Section Turns.
Context {G : Type} {GATE : DAppChainGateway G} (cfg : OracleConfig) (eth : Mainnet).

Record OWorld := mkOWorld { ow_oracle : Oracle; ow_dapp : G }.

Definition dapp {A} (m : M G A) : M OWorld A := zoom ow_dapp (λ g w, mkOWorld (ow_oracle w) g) m.
Definition on_oracle (f : Oracle → Oracle) : M OWorld unit := modify (λ w, mkOWorld (f (ow_oracle w)) (ow_dapp w)).

Definition updateStatus (o : Oracle) : Oracle :=
  mkOracle (startBlock o) (numMainnetEventsFetched o) (numMainnetEventsSubmitted o)
    (mkStatus (startBlock o) (numMainnetEventsFetched o) (numMainnetEventsSubmitted o)) (hash_pool o).
Definition add_fetched (n : nat) (o : Oracle) : Oracle :=
  mkOracle (startBlock o) (u64 (numMainnetEventsFetched o + Z.of_nat n)) (numMainnetEventsSubmitted o) (status o) (hash_pool o).
Definition add_submitted (n : nat) (o : Oracle) : Oracle :=
  mkOracle (startBlock o) (numMainnetEventsFetched o) (u64 (numMainnetEventsSubmitted o + Z.of_nat n)) (status o) (hash_pool o).
Definition set_startBlock (n : Z) (o : Oracle) : Oracle :=
  mkOracle n (numMainnetEventsFetched o) (numMainnetEventsSubmitted o) (status o) (hash_pool o).
Definition set_hash_pool (r : hashPool) (o : Oracle) : Oracle :=
  mkOracle (startBlock o) (numMainnetEventsFetched o) (numMainnetEventsSubmitted o) (status o) r.

(** [defer]: what runs at the end, whatever the outcome. *)
Definition deferred {A} (f : Oracle → Oracle) (m : M OWorld A) : M OWorld A := λ w,
  let '(r, w') := m w in (r, mkOWorld (f (ow_oracle w')) (ow_dapp w')).

Definition getLatestEthBlockNumber : Res Z := mn_HeaderByNumber eth.

Definition pollMainnet : M OWorld unit :=
  lastMainnetBlockNum ← dapp dg_LastMainnetBlockNum;
  o ← gets ow_oracle;
  let start := u64 (lastMainnetBlockNum + 1) in
  let start := if start <? startBlock o then startBlock o else start in
  latestBlock ← lift_res getLatestEthBlockNumber;
  if latestBlock <=? numMainnetBlockConfirmations cfg then mret ()
  else
    let latestBlock := latestBlock - numMainnetBlockConfirmations cfg in
    if latestBlock <? start then mret ()
    else
      events ← lift_res (fetchEvents cfg eth start latestBlock);
      match events with
      | [] => mret ()
      | _ =>
          on_oracle (λ o, updateStatus (add_fetched (length events) o));;
          dapp (dg_ProcessEventBatch events);;
          on_oracle (λ o, updateStatus (add_submitted (length events) o))
      end;;
      on_oracle (set_startBlock (u64 (latestBlock + 1))).

(** The withdrawals whose hashes were not in the pool, which has them afterwards. *)
Fixpoint filterSeenWithdrawals (withdrawals : list (Address * bytes)) (r : hashPool) : list (Address * bytes) * hashPool :=
  match withdrawals with
  | [] => ([], r)
  | withdrawal :: rest =>
      let '(added, r) := addHash withdrawal.2 r in
      let '(unseen, r) := filterSeenWithdrawals rest r in
      (if added then withdrawal :: unseen else unseen, r)
  end.

(** The first byte is the mode of the signature. *)
Definition signTransferGatewayWithdrawal (hash : bytes) : Res bytes :=
  sig ← (if withdrawalSig cfg =? UnprefixedWithdrawalSigType then SoliditySign hash
         else if withdrawalSig cfg =? PrefixedWithdrawalSigType then SoliditySignPrefixed hash
         else Err (ErrMsg "invalid withdrawal sig type"));
  Ok (String zero sig).

Definition blacklisted (tokenOwner : Address) : bool := existsb (λ a, address_compare a tokenOwner =? 0) (withdrawerBlacklist cfg).

(** [strings.HasPrefix(err.Error(), "TG006:")] *)
Definition already_signed (e : error) : bool := match e with ErrMsg msg => String.prefix "TG006:" msg | ErrNotFound => false end.

Definition signWithdrawal (summary : Address * bytes) : M OWorld unit :=
  let '(tokenOwner, hash) := summary in
  if blacklisted tokenOwner then mret ()
  else
    sig ← lift_res (signTransferGatewayWithdrawal hash);
    r ← try_ (dapp (dg_ConfirmWithdrawalReceipt tokenOwner sig hash));
    match r with
    | inl _ => mret ()
    | inr e => if already_signed e then mret () else throw e
    end.

Definition signPendingWithdrawals : M OWorld unit := deferred updateStatus (
  withdrawals ← dapp (dg_PendingWithdrawals (mainnetGatewayAddress cfg));
  o ← gets ow_oracle;
  let '(filteredWithdrawals, r) := filterSeenWithdrawals withdrawals (hash_pool o) in
  on_oracle (set_hash_pool r);;
  forM filteredWithdrawals signWithdrawal).

(** Creators that could not be fetched are left out. *)
Definition verified_creators (unverified : list (Z * bytes)) : list VerifiedContractCreator :=
  omap (λ u, match fetchMainnetContractCreator eth u with Ok v => Some v | _ => None end) unverified.

Definition verifyContractCreators : M OWorld unit := deferred updateStatus (
  unverifiedCreators ← dapp dg_UnverifiedContractCreators;
  match unverifiedCreators with
  | [] => mret ()
  | _ => dapp (dg_VerifyContractCreators (verified_creators unverifiedCreators))
  end).

Definition pollDAppChain : M OWorld unit :=
  verifyContractCreators;;
  if receiptSigningEnabled cfg then signPendingWithdrawals else mret ().

(** A turn of the loop of [Run], which drops the errors. *)
Definition Run_turn : M OWorld unit := ignore_err pollMainnet;; ignore_err pollDAppChain.
End Turns.
End Oracle.

(** ** Signing withdrawals in batches (fns.go) *)

Definition MaxWithdrawalToProcess : nat := 20.
Definition SignatureSize : nat := 65.
Definition zeros (n : nat) : bytes := Nat.iter n (String zero) "".

(** [BatchWithdrawalFnMessage] and its encoding. *)
Class FnMessageLib := {
  marshal_withdrawals : list (Address * bytes) → Res bytes;
  unmarshal_withdrawals : bytes → Res (list (Address * bytes));
}.

Section BatchSign.
Context {OLIB : OracleLib} {FLIB : FnMessageLib} {G : Type} {GATE : DAppChainGateway G}.

Record FnWorld := mkFnWorld { mappedMessage : gmap string bytes; fw_dapp : G }.
Definition on_dapp {A} (m : M G A) : M FnWorld A := zoom fw_dapp (λ g w, mkFnWorld (mappedMessage w) g) m.

(** [b[i:j]] of a slice without room behind it. *)
Definition slice (b : bytes) (i j : nat) : Res bytes := if (j <=? String.length b)%nat then Ok (String.substring i (j - i) b) else Panic.

(** The signatures of all validators for the withdrawal at an index. *)
Fixpoint validatorSignatures (i : nat) (signatures : list (option bytes)) : Res bytes :=
  match signatures with
  | [] => Ok ""
  | None :: rest => s ← validatorSignatures i rest; Ok (zeros SignatureSize +:+ s)
  | Some signature :: rest =>
      x ← slice signature (i * SignatureSize) (S i * SignatureSize);
      s ← validatorSignatures i rest; Ok (x +:+ s)
  end.

Fixpoint confirm_requests (i : nat) (messages : list (Address * bytes)) (signatures : list (option bytes)) : Res (list (Address * bytes * bytes)) :=
  match messages with
  | [] => Ok []
  | (tokenOwner, withdrawalHash) :: rest =>
      sig ← validatorSignatures i signatures;
      reqs ← confirm_requests (S i) rest signatures; Ok ((tokenOwner, withdrawalHash, sig) :: reqs)
  end.

(** The first request that is refused ends the loop. *)
Fixpoint confirm_all (reqs : list (Address * bytes * bytes)) : M FnWorld unit :=
  match reqs with
  | [] => mret ()
  | (tokenOwner, hash, sig) :: reqs =>
      r ← try_ (on_dapp (dg_ConfirmWithdrawalReceiptV2 tokenOwner sig hash));
      match r with inl _ => confirm_all reqs | inr _ => mret () end
  end.

Definition Fn_SubmitMultiSignedMessage (key : bytes) (signatures : list (option bytes)) : M FnWorld unit :=
  w ← gets id;
  match mappedMessage w !! hex_encode key with
  | None => mret ()
  | Some message =>
      match unmarshal_withdrawals message with
      | Ok messages => reqs ← lift_res (confirm_requests 0 messages signatures); confirm_all reqs
      | _ => mret ()
      end
  end.

(** [copy(buf[off:], src)] *)
Definition copy_at (off : nat) (src buf : bytes) : bytes :=
  let n := String.length buf in
  String.substring 0 off buf +:+ String.substring 0 (n - off) src +:+ String.substring (off + String.length src) n buf.

Fixpoint sign_all (i : nat) (withdrawals : list (Address * bytes)) (signature : bytes) : Res bytes :=
  match withdrawals with
  | [] => Ok signature
  | (_, hash) :: rest => sig ← SoliditySignPrefixed hash; sign_all (S i) rest (copy_at (i * SignatureSize) sig signature)
  end.

Definition Fn_GetMessageAndSignature (mainnetGateway : Address) : M FnWorld (bytes * bytes) :=
  pendingWithdrawals ← on_dapp (dg_PendingWithdrawals mainnetGateway);
  match pendingWithdrawals with
  | [] => throw (ErrMsg "no pending withdrawals, terminating...")
  | _ =>
      let pendingWithdrawals := take MaxWithdrawalToProcess pendingWithdrawals in
      signature ← lift_res (sign_all 0 pendingWithdrawals (zeros (length pendingWithdrawals * SignatureSize)));
      message ← lift_res (marshal_withdrawals pendingWithdrawals);
      mret (message, signature)
  end.

Definition Fn_MapMessage (key message : bytes) : M FnWorld unit :=
  modify (λ w, mkFnWorld (<[hex_encode key := message]> (mappedMessage w)) (fw_dapp w)).
End BatchSign.
