(* ===== verification/OracleTheorems.v ===== *)
(** * The oracle of the gateway: theorems

    Every confirmed log of Ethereum reaches the gateway in an accepted batch and is settled
    at most once and in order, with several oracles that submit overlapping batches and
    whatever fails on the way; the hashes that an oracle signs are new to it; the
    signatures that validators make for a batch of withdrawals reach their withdrawals. *)

From Stdlib Require Import Ascii.
From S2P Require Import Prelude Contract Coin EthCoin AddressMapper Store Middleware EvmTokens Gateway EthJson GatewayFrame GatewayDeposits GatewayWitnesses Outcomes MainnetOracle.

(** ** What is on Ethereum *)

(** The logs of the final chain, by event. *)
Record Logs := mkLogs {
  lg_721 : list ERC721Received; lg_721x : list ERC721XReceived; lg_20 : list ERC20Received;
  lg_eth : list ETHReceived; lg_coin : list DiademCoinReceived; lg_withdrawn : list TokenWithdrawn;
}.

Section Events.
Context {LIB : DiademLib} {OLIB : OracleLib} (cfg : OracleConfig) (logs : Logs).

Definition known {A} (f : A → Res (option mainnetEventInfo)) (l : list A) : list mainnetEventInfo :=
  omap (λ x, match f x with Ok o => o | _ => None end) l.

(** The events that the oracle is to report. *)
Definition all_events : list mainnetEventInfo :=
  (if isDiademCoinOracle cfg then known diademcoin_info (lg_coin logs)
   else known erc721_info (lg_721 logs) ++ known erc721x_info (lg_721x logs) ++ known erc20_info (lg_20 logs) ++ known eth_info (lg_eth logs)) ++
  known (withdrawal_info (isDiademCoinOracle cfg)) (lg_withdrawn logs).

Definition in_blocks (a b : Z) (x : mainnetEventInfo) : Prop := a <= ei_BlockNum x <= b.
#[global] Instance in_blocks_dec a b x : Decision (in_blocks a b x).
Proof. unfold in_blocks. apply _. Defined.
Definition events_between (a b : Z) : list mainnetEventInfo := filter (in_blocks a b) all_events.

Definition event_le (x y : mainnetEventInfo) : Prop := ei_BlockNum x < ei_BlockNum y ∨ ei_BlockNum x = ei_BlockNum y ∧ ei_TxIdx x <= ei_TxIdx y.

(** A node is honest about blocks that have their confirmations: the logs that it finds
    there are those of the final chain.  It may fail at any time. *)
Definition answers {A} (raw : A → RawLog) (all : list A) (h : Z) (f : Z → Z → Res (list A)) : Prop :=
  ∀ a b l, b <= h → f a b = Ok l → l ≡ₚ filter (λ x, a <= rl_BlockNumber (raw x) <= b) all.

Definition honest (eth : Mainnet) : Prop :=
  ∀ h, mn_HeaderByNumber eth = Ok h → 0 <= h < 2 ^ 63 ∧
    let c := h - numMainnetBlockConfirmations cfg in
    answers x7_Raw (lg_721 logs) c (mn_FilterERC721Received eth) ∧ answers xx_Raw (lg_721x logs) c (mn_FilterERC721XReceived eth) ∧
    answers x2_Raw (lg_20 logs) c (mn_FilterERC20Received eth) ∧ answers xe_Raw (lg_eth logs) c (mn_FilterETHReceived eth) ∧
    answers xd_Raw (lg_coin logs) c (mn_FilterDiademCoinReceived eth) ∧ answers xw_Raw (lg_withdrawn logs) c (mn_FilterTokenWithdrawn eth).

(** *** What is fetched *)

Lemma collect_known {A} (f : A → Res (option mainnetEventInfo)) l r : collect f l = Ok r → r = known f l.
Proof.
  revert r. induction l as [|x l IH]; intros r; cbn; [by intros [= <-]|]. destruct (f x) as [o|?|] eqn:E; [|done..]. cbn.
  destruct (collect f l) as [rest|?|]; [|done..]. intros [= <-]. rewrite (IH rest) by done. unfold known. cbn. rewrite ?E. by destruct o.
Qed.

Definition keeps_block {A} (raw : A → RawLog) (f : A → Res (option mainnetEventInfo)) : Prop :=
  ∀ x i, f x = Ok (Some i) → ei_BlockNum i = rl_BlockNumber (raw x) ∧ ev_EthBlock (ei_Event i) = ei_BlockNum i.

Lemma known_filter {A} (raw : A → RawLog) f (all : list A) a b :
  keeps_block raw f → known f (filter (λ x, a <= rl_BlockNumber (raw x) <= b) all) = filter (in_blocks a b) (known f all).
Proof.
  intros Hk. unfold known. induction all as [|x all IH]; [done|]. rewrite filter_cons. cbn [omap list_omap].
  destruct (f x) as [[i|]|?|] eqn:E.
  2-4: destruct (decide _); cbn [omap list_omap]; rewrite ?E; apply IH.
  destruct (Hk x i E) as [Hb _]. rewrite filter_cons. destruct (decide _) as [H|H]; cbn [omap list_omap]; rewrite ?E.
  - rewrite decide_True by (unfold in_blocks; by rewrite Hb). by rewrite IH.
  - rewrite decide_False by (unfold in_blocks; by rewrite Hb). apply IH.
Qed.

#[global] Instance known_proper {A} (f : A → Res (option mainnetEventInfo)) : Proper ((≡ₚ) ==> (≡ₚ)) (known f).
Proof. intros l l' H. unfold known. by rewrite H. Qed.

Lemma fetched_between {A} (raw : A → RawLog) f filt all h a b l :
  keeps_block raw f → answers raw all h filt → b <= h → (l0 ← filt a b; collect f l0) = Ok l → l ≡ₚ filter (in_blocks a b) (known f all).
Proof.
  intros Hk Hans Hb. destruct (filt a b) as [l0|?|] eqn:E; [|done..]. cbn. intros Hc%collect_known. rewrite Hc, (Hans a b l0 Hb E). by rewrite (known_filter raw).
Qed.

Ltac kb := intros x i; unfold erc721_info, erc721x_info, erc20_info, eth_info, diademcoin_info, withdrawal_info;
  repeat (match goal with |- mbind _ (eth_account ?z) = _ → _ => destruct (eth_account z) end; [|done..]; cbn [mbind Res_bind]);
  let H := fresh in intros H; injection H as <-; done.

Lemma keeps_721 : keeps_block x7_Raw erc721_info.
Proof. kb. Qed.
Lemma keeps_721x : keeps_block xx_Raw erc721x_info.
Proof. kb. Qed.
Lemma keeps_20 : keeps_block x2_Raw erc20_info.
Proof. kb. Qed.
Lemma keeps_eth : keeps_block xe_Raw eth_info.
Proof. kb. Qed.
Lemma keeps_coin : keeps_block xd_Raw diademcoin_info.
Proof. kb. Qed.
Lemma keeps_withdrawn b : keeps_block xw_Raw (withdrawal_info b).
Proof.
  intros x i. unfold withdrawal_info. destruct (negb _); [done|]. destruct (eth_account (xw_ContractAddress x)); cbn; [|done..].
  destruct (eth_account (xw_Owner x)); cbn; [|done..]. destruct (kind_of _); intros [= <-]; done.
Qed.

#[local] Instance lessEvent_order : LessOrder lessEvent.
Proof.
  split; unfold lessEvent.
  - intros x y. rewrite (Z.eqb_sym (ei_BlockNum y)). destruct (Z.eqb_spec (ei_BlockNum x) (ei_BlockNum y)); rewrite Z.ltb_lt, Z.ltb_ge; lia.
  - intros x y z. destruct (Z.eqb_spec (ei_BlockNum x) (ei_BlockNum y)), (Z.eqb_spec (ei_BlockNum y) (ei_BlockNum z)), (Z.eqb_spec (ei_BlockNum x) (ei_BlockNum z));
      rewrite !Z.ltb_ge; lia.
Qed.

Lemma lessEvent_le x y : lessEvent y x = false → event_le x y.
Proof. unfold lessEvent, event_le. destruct (Z.eqb_spec (ei_BlockNum y) (ei_BlockNum x)); rewrite Z.ltb_ge; lia. Qed.

Lemma fetched_events eth h a b evs :
  honest eth → mn_HeaderByNumber eth = Ok h → b <= h - numMainnetBlockConfirmations cfg → fetchEvents cfg eth a b = Ok evs →
  ∃ infos, evs = ei_Event <$> infos ∧ infos ≡ₚ events_between a b ∧ StronglySorted event_le infos.
Proof.
  intros Hh Hn Hb. destruct (Hh h Hn) as (_ & H1 & H2 & H3 & H4 & H5 & H6). unfold fetchEvents, events_between, all_events.
  assert (∀ deps, (if isDiademCoinOracle cfg then fetchDiademCoinDeposits eth a b
     else e7 ← fetchERC721Deposits eth a b; ex ← fetchERC721XDeposits eth a b; e2 ← fetchERC20Deposits eth a b; ee ← fetchETHDeposits eth a b; Ok (e7 ++ ex ++ e2 ++ ee)) = Ok deps →
    deps ≡ₚ filter (in_blocks a b) (if isDiademCoinOracle cfg then known diademcoin_info (lg_coin logs)
     else known erc721_info (lg_721 logs) ++ known erc721x_info (lg_721x logs) ++ known erc20_info (lg_20 logs) ++ known eth_info (lg_eth logs))) as Hdeps.
  { intros deps. destruct (isDiademCoinOracle cfg); [by intros E; eapply (fetched_between xd_Raw); [apply keeps_coin | exact H5 | exact Hb | exact E]|].
    destruct (fetchERC721Deposits eth a b) as [e7|?|] eqn:E7; [|done..]. destruct (fetchERC721XDeposits eth a b) as [ex|?|] eqn:Ex; [|done..].
    destruct (fetchERC20Deposits eth a b) as [e2|?|] eqn:E2; [|done..]. destruct (fetchETHDeposits eth a b) as [ee|?|] eqn:Ee; [|done..]. cbn. intros [= <-].
    rewrite !filter_app.
    by rewrite (fetched_between _ _ _ _ _ _ _ _ keeps_721 H1 Hb E7), (fetched_between _ _ _ _ _ _ _ _ keeps_721x H2 Hb Ex), (fetched_between _ _ _ _ _ _ _ _ keeps_20 H3 Hb E2), (fetched_between _ _ _ _ _ _ _ _ keeps_eth H4 Hb Ee). }
  match goal with |- (deposits ← ?m; _) = _ → _ => destruct m as [deps|?|]; [|done..] end. cbn. specialize (Hdeps deps eq_refl).
  destruct (fetchTokenWithdrawals _ eth a b) as [ws|?|] eqn:Ew; [|done..]. cbn. intros [= <-].
  pose proof (fetched_between _ _ _ _ _ _ _ _ (keeps_withdrawn _) H6 Hb Ew) as Hws. exists (sortMainnetEvents (deps ++ ws)). split_and!; [done|..].
  - unfold sortMainnetEvents. rewrite go_sort_permutation, filter_app. by rewrite Hdeps, Hws.
  - pose proof (go_sort_sorted lessEvent (deps ++ ws)) as Hs. unfold sortMainnetEvents. induction Hs as [|x l _ IH Hx]; constructor; [done|].
    eapply Forall_impl; [exact Hx|]. intros y. apply lessEvent_le.
Qed.

Lemma known_block {A} (raw : A → RawLog) f (l : list A) i : keeps_block raw f → i ∈ known f l → ev_EthBlock (ei_Event i) = ei_BlockNum i.
Proof. intros Hk (x & _ & Hx)%list_elem_of_omap. destruct (f x) as [o|?|] eqn:E; [|done..]. subst o. by apply (Hk x i E). Qed.

Lemma all_events_block i : i ∈ all_events → ev_EthBlock (ei_Event i) = ei_BlockNum i.
Proof.
  unfold all_events. rewrite elem_of_app. intros [Hi|Hi]; [|by eapply known_block, Hi; apply keeps_withdrawn].
  destruct (isDiademCoinOracle cfg); [by eapply known_block, Hi; apply keeps_coin|]. rewrite !elem_of_app in Hi.
  destruct Hi as [Hi|[Hi|[Hi|Hi]]]; eapply known_block, Hi; [apply keeps_721 | apply keeps_721x | apply keeps_20 | apply keeps_eth].
Qed.
End Events.

(** ** What the gateway settles *)

(** The records of what was settled: a deposit that was paid out or kept for its owner, a
    withdrawal that was completed. *)
Definition settlement (e : GEvent) : bool :=
  match e with MainnetDepositEvent _ | MainnetWithdrawalEvent _ | StoreUnclaimedToken _ => true | _ => false end.

Definition settles (e : GEvent) (ev : MainnetEvent) : Prop :=
  match e with
  | MainnetDepositEvent d => ev_Payload ev = Payload_Deposit d
  | MainnetWithdrawalEvent w => ev_Payload ev = Payload_Withdrawal w
  | StoreUnclaimedToken _ => ∃ d, ev_Payload ev = Payload_Deposit d
  | _ => False
  end.

(** What oracles see of the gateway: the last known block of Ethereum, the events that
    accepted batches brought beyond the last block known then, the records of settlement. *)
Record View (G : Type) := mkView { vw_last : G → Z; vw_taken : G → list MainnetEvent; vw_settled : G → list GEvent }.
Arguments mkView {G}.
Arguments vw_last {G}.
Arguments vw_taken {G}.
Arguments vw_settled {G}.

Definition same_view {G} (V : View G) (g g' : G) : Prop := vw_last V g' = vw_last V g ∧ vw_taken V g' = vw_taken V g ∧ vw_settled V g' = vw_settled V g.

(** An accepted batch: the last block moves to one of its events; all its events beyond
    the old last block are handled, and each settlement is for one of them that is not
    beyond the new last block. *)
Record batch_taken {G} (V : View G) (evs : list MainnetEvent) (g g' : G) : Prop := {
  bt_last : vw_last V g < vw_last V g' ∧ ∃ ev, ev ∈ evs ∧ vw_last V g' = ev_EthBlock ev;
  bt_taken : vw_taken V g' = vw_taken V g ++ filter (λ ev, vw_last V g < ev_EthBlock ev) evs;
  bt_settled : ∃ new evs', vw_settled V g' = vw_settled V g ++ new ∧
    evs' `sublist_of` filter (λ ev, vw_last V g < ev_EthBlock ev <= vw_last V g') evs ∧ Forall2 settles new evs';
}.

(** What oracles rely on.  A call that fails may have been carried out all the same; calls
    that do not submit events do not change the view. *)
Class DAppChainSpec {G : Type} (V : View G) (GATE : DAppChainGateway G) : Prop := {
  dg_last g r g' : dg_LastMainnetBlockNum g = (r, g') → g' = g ∧ ∀ n, r = Ok n → n = vw_last V g;
  dg_batch evs g r g' : 0 <= vw_last V g → dg_ProcessEventBatch evs g = (r, g') → (r ≠ Ok () ∧ g' = g) ∨ batch_taken V evs g g';
  dg_pending a g r g' : dg_PendingWithdrawals a g = (r, g') → same_view V g g';
  dg_confirm o s h g r g' : dg_ConfirmWithdrawalReceipt o s h g = (r, g') → same_view V g g';
  dg_unverified g r g' : dg_UnverifiedContractCreators g = (r, g') → same_view V g g';
  dg_verify cs g r g' : dg_VerifyContractCreators cs g = (r, g') → same_view V g g';
}.

(** ** The two halves of a poll

    Between fetching events and submitting them an oracle waits for both chains, and the
    other oracles go on. *)

Section Halves.
Context {LIB : DiademLib} {GLIB : GatewayLib} {OLIB : OracleLib} {G : Type} {GATE : DAppChainGateway G} (cfg : OracleConfig) (eth : Mainnet).
Abbreviation W := (OWorld (G := G)).

(** The events to be submitted with the last block that they cover. *)
Definition Batch : Type := list MainnetEvent * Z.

Definition plan : M W (option Batch) :=
  lastMainnetBlockNum ← dapp dg_LastMainnetBlockNum;
  o ← gets ow_oracle;
  let start := u64 (lastMainnetBlockNum + 1) in
  let start := if start <? startBlock o then startBlock o else start in
  latestBlock ← lift_res (getLatestEthBlockNumber eth);
  if latestBlock <=? numMainnetBlockConfirmations cfg then mret None
  else
    let latestBlock := latestBlock - numMainnetBlockConfirmations cfg in
    if latestBlock <? start then mret None
    else events ← lift_res (fetchEvents cfg eth start latestBlock); mret (Some (events, latestBlock)).

Definition submit (b : Batch) : M W unit :=
  match b.1 with
  | [] => mret ()
  | _ =>
      on_oracle (λ o, updateStatus (add_fetched (length b.1) o));;
      dapp (dg_ProcessEventBatch b.1);;
      on_oracle (λ o, updateStatus (add_submitted (length b.1) o))
  end;;
  on_oracle (set_startBlock (u64 (b.2 + 1))).

Lemma poll_halves w : pollMainnet cfg eth w = (plan ≫= λ b, match b with Some b => submit b | None => mret () end) w.
Proof.
  unfold pollMainnet, plan. m_eval. destruct (dapp dg_LastMainnetBlockNum w) as [[n|e|] w1]; [|done..]. m_eval.
  destruct (getLatestEthBlockNumber eth) as [h|e|]; m_eval; [|done..]. destruct (h <=? _); [done|]. destruct (_ - _ <? _); [done|].
  by destruct (fetchEvents cfg eth _ _) as [[|ev evs]|e|].
Qed.
End Halves.

(** ** Several oracles *)

(** An oracle, with the batch that it is about to submit. *)
Record Node := mkNode { nd_oracle : Oracle; nd_batch : option Batch }.
Record Net (G : Type) := mkNet { net_gate : G; net_nodes : list Node }.
Arguments mkNet {G}.
Arguments net_gate {G}.
Arguments net_nodes {G}.

Definition fresh_node : Node := mkNode fresh_oracle None.

Section Steps.
Context {LIB : DiademLib} {GLIB : GatewayLib} {OLIB : OracleLib} (cfg : OracleConfig) (logs : Logs) {G : Type} (V : View G).

(** Oracles of one configuration reach the gateway each with its own account and over
    connections that may fail in any way ([GATE]), and Ethereum through nodes of which each
    is honest about confirmed blocks.  They start, stop and start again at any time. *)
Inductive net_step : Net G → Net G → Prop :=
  | step_plan GATE eth i o g ns r w : DAppChainSpec V GATE → honest cfg logs eth → ns !! i = Some (mkNode o None) →
      plan cfg eth (mkOWorld o g) = (r, w) → net_step (mkNet g ns) (mkNet (ow_dapp w) (<[i := mkNode (ow_oracle w) (match r with Ok b => b | _ => None end)]> ns))
  | step_submit GATE i o b g ns r w : DAppChainSpec V GATE → ns !! i = Some (mkNode o (Some b)) →
      submit b (mkOWorld o g) = (r, w) → net_step (mkNet g ns) (mkNet (ow_dapp w) (<[i := mkNode (ow_oracle w) None]> ns))
  | step_dapp GATE eth i o g ns r w : DAppChainSpec V GATE → ns !! i = Some (mkNode o None) →
      pollDAppChain cfg eth (mkOWorld o g) = (r, w) → net_step (mkNet g ns) (mkNet (ow_dapp w) (<[i := mkNode (ow_oracle w) None]> ns))
  | step_cleanup i o b g ns : ns !! i = Some (mkNode o b) →
      net_step (mkNet g ns) (mkNet g (<[i := mkNode (set_hash_pool (cleanup (hash_pool o)) o) b]> ns))
  | step_restart i g ns : net_step (mkNet g ns) (mkNet g (<[i := fresh_node]> ns))
  | step_join g ns : net_step (mkNet g ns) (mkNet g (ns ++ [fresh_node]))
  | step_other g g' ns : same_view V g g' → net_step (mkNet g ns) (mkNet g' ns).

(** The gateway knows the blocks before [first] when the first oracle is started; [taken]
    and [settled] is what happened before. *)
Inductive net_run (first : Z) (taken : list MainnetEvent) (settled : list GEvent) : Net G → Prop :=
  | run_start g : 0 <= vw_last V g < 2 ^ 63 → first = vw_last V g + 1 → taken = vw_taken V g → settled = vw_settled V g →
      net_run first taken settled (mkNet g [])
  | run_step n n' : net_run first taken settled n → net_step n n' → net_run first taken settled n'.
End Steps.

(** *** Lists of events *)

Lemma filter_fmap_events {A B} (f : A → B) (P : B → Prop) `{!∀ x, Decision (P x)} (l : list A) : filter P (f <$> l) = f <$> filter (λ x, P (f x)) l.
Proof. induction l as [|x l IH]; [done|]. cbn [fmap list_fmap]. rewrite !filter_cons. destruct (decide _); cbn; by rewrite IH. Qed.

Lemma filter_submseteq_impl {A} (P Q : A → Prop) `{!∀ x, Decision (P x), !∀ x, Decision (Q x)} (l : list A) :
  (∀ x, x ∈ l → P x → Q x) → filter P l ⊆+ filter Q l.
Proof.
  induction l as [|x l IH]; intros Hpq; [done|]. rewrite !filter_cons. assert (filter P l ⊆+ filter Q l) by (apply IH; intros y Hy; apply Hpq; by right).
  destruct (decide (P x)) as [Hp|]; [rewrite decide_True by (apply Hpq; [by left|done]); by constructor|]. destruct (decide (Q x)); [by constructor|done].
Qed.

Lemma sublist_fmap_inv {A B} (f : A → B) l (k : list A) : l `sublist_of` f <$> k → ∃ l', l = f <$> l' ∧ l' `sublist_of` k.
Proof.
  revert l. induction k as [|x k IH]; intros l; cbn [fmap list_fmap]; [intros ->%sublist_nil_r; by exists []|].
  intros [H|(l0 & -> & H)]%sublist_cons_r.
  - destruct (IH l H) as (l' & -> & Hl'). exists l'. split; [done|]. by constructor.
  - destruct (IH l0 H) as (l' & -> & Hl'). exists (x :: l'). split; [done|]. by constructor.
Qed.

Lemma sorted_sublist {A} (R : A → A → Prop) l k : l `sublist_of` k → StronglySorted R k → StronglySorted R l.
Proof.
  intros Hl Hk. revert l Hl. induction Hk as [|x k _ IH Hx]; intros l; [intros ->%sublist_nil_r; constructor|].
  intros [H|(l0 & -> & H)]%sublist_cons_r; [by apply IH|]. constructor; [by apply IH|]. apply Forall_forall. intros y Hy. rewrite Forall_forall in Hx. apply Hx. by eapply elem_of_submseteq, sublist_submseteq.
Qed.

Section Submitting.
Context {LIB : DiademLib} {GLIB : GatewayLib} {OLIB : OracleLib} (cfg : OracleConfig) (logs : Logs) {G : Type} (V : View G).
Context (Hconf : 0 <= numMainnetBlockConfirmations cfg) (first : Z) (taken : list MainnetEvent) (settled : list GEvent).
Abbreviation W := (OWorld (G := G)).
Abbreviation between := (events_between cfg logs).
Implicit Types (g : G) (w : W) (new : list MainnetEvent) (n : Net G).

Lemma events_between_app a b c : a <= b <= c + 1 → between a c ≡ₚ between a (b - 1) ++ between b c.
Proof.
  intros H. unfold events_between. induction (all_events cfg logs) as [|x l IH]; [done|]. rewrite !filter_cons. unfold in_blocks.
  repeat (destruct (decide _) || idtac); rewrite ?IH; try lia; try done; [by rewrite <- Permutation_middle].
Qed.

Lemma between_block a b i : i ∈ between a b → a <= ei_BlockNum i <= b ∧ ev_EthBlock (ei_Event i) = ei_BlockNum i ∧ i ∈ all_events cfg logs.
Proof. intros [Hr Hi]%list_elem_of_filter. split_and!; [apply Hr..| |done]. by eapply all_events_block. Qed.

(** The events of the blocks from [a] to [b], in order. *)
Definition covers (a b : Z) (evs : list MainnetEvent) : Prop := ∃ infos, evs = ei_Event <$> infos ∧ infos ≡ₚ between a b ∧ StronglySorted event_le infos.

(** All events of the block are among [new]. *)
Definition block_taken (b : Z) new : Prop := ei_Event <$> between b b ⊆+ new.

Lemma block_taken_mono b new more : block_taken b new → block_taken b (new ++ more).
Proof. intros H. unfold block_taken. rewrite H. by apply submseteq_inserts_r. Qed.

(** The events of a batch beyond the block [l] include those of each block beyond it. *)
Lemma covers_block a c evs l b : covers a c evs → l < b → a <= b <= c → ei_Event <$> between b b ⊆+ filter (λ ev, l < ev_EthBlock ev) evs.
Proof.
  intros (infos & -> & Hp & _) Hl Hb. rewrite filter_fmap_events. apply fmap_submseteq. rewrite Hp. unfold events_between. rewrite list_filter_filter.
  apply filter_submseteq_impl. intros i Hi [H1 H2]. unfold in_blocks. rewrite (all_events_block cfg logs i Hi). lia.
Qed.

Lemma covers_elem a b evs ev : covers a b evs → ev ∈ evs → a <= ev_EthBlock ev <= b ∧ ev ∈ ei_Event <$> all_events cfg logs.
Proof.
  intros (infos & -> & Hp & _) (i & -> & Hi)%list_elem_of_fmap. rewrite Hp in Hi. apply between_block in Hi as (H & -> & Hi). split; [done|]. by apply list_elem_of_fmap_2.
Qed.

(** *** The invariant *)

Definition node_ok new (nd : Node) : Prop :=
  0 <= startBlock (nd_oracle nd) <= 2 ^ 63 ∧ (∀ b, first <= b < startBlock (nd_oracle nd) → block_taken b new) ∧
  ∀ evs latest, nd_batch nd = Some (evs, latest) → 0 <= latest < 2 ^ 63 ∧ ∃ start, covers start latest evs ∧ ∀ b, first <= b < start → block_taken b new.

(** The gateway has the events of all blocks up to the last one that it knows; what it has
    settled since the start are events of these blocks, each at most once and in order. *)
Record gate_ok g new : Prop := {
  go_last : 1 <= first <= vw_last V g + 1 ∧ vw_last V g < 2 ^ 63;
  go_taken : vw_taken V g = taken ++ new;
  go_blocks b : first <= b <= vw_last V g → block_taken b new;
  go_real : new ⊆ ei_Event <$> all_events cfg logs;
  go_settled : ∃ done infos, vw_settled V g = settled ++ done ∧ Forall2 settles done (ei_Event <$> infos) ∧
    infos ⊆+ between first (vw_last V g) ∧ StronglySorted event_le infos;
}.
Definition net_ok n : Prop := ∃ new, gate_ok (net_gate n) new ∧ Forall (node_ok new) (net_nodes n).

Lemma node_ok_mono nd new more : node_ok new nd → node_ok (new ++ more) nd.
Proof.
  intros (H1 & H2 & H3). split_and!; [apply H1..|by intros b Hb; apply block_taken_mono, H2|]. intros evs latest Hb. destruct (H3 evs latest Hb) as (? & s & ? & Hs).
  split; [done|]. exists s. split; [done|]. intros b Hb'. by apply block_taken_mono, Hs.
Qed.

Lemma fresh_ok new : 1 <= first → node_ok new fresh_node.
Proof. intros Hf. split_and!; [cbn; lia..|intros b Hb; cbn in Hb; lia|done]. Qed.

Lemma gate_same g g' new : same_view V g g' → gate_ok g new → gate_ok g' new.
Proof. intros (E1 & E2 & E3) [H1 H2 H3 H4 H5]. split; rewrite ?E1, ?E2, ?E3; done. Qed.

(** *** Accepted batches *)

Lemma covers_settled a c evs l l' evs' :
  covers a c evs → evs' `sublist_of` filter (λ ev, l < ev_EthBlock ev <= l') evs →
  ∃ infos, evs' = ei_Event <$> infos ∧ infos ⊆+ between (l + 1) l' ∧ StronglySorted event_le infos.
Proof.
  intros (infos & -> & Hp & Hs). rewrite filter_fmap_events. intros (infos' & -> & Hsub)%sublist_fmap_inv. exists infos'. split_and!; [done| |].
  - apply sublist_submseteq in Hsub. rewrite Hsub, Hp. unfold events_between. rewrite list_filter_filter. apply filter_submseteq_impl.
    intros i Hi [H1 _]. rewrite (all_events_block cfg logs i Hi) in H1. unfold in_blocks. lia.
  - eapply sorted_sublist, Hs. etrans; [exact Hsub|apply sublist_filter].
Qed.

Lemma settled_extend g l' done (infos : list mainnetEventInfo) snew (infos' : list mainnetEventInfo) :
  first <= vw_last V g + 1 → vw_last V g <= l' →
  Forall2 settles done (ei_Event <$> infos) → infos ⊆+ between first (vw_last V g) → StronglySorted event_le infos →
  Forall2 settles snew (ei_Event <$> infos') → infos' ⊆+ between (vw_last V g + 1) l' → StronglySorted event_le infos' →
  Forall2 settles (done ++ snew) (ei_Event <$> (infos ++ infos')) ∧ infos ++ infos' ⊆+ between first l' ∧ StronglySorted event_le (infos ++ infos').
Proof.
  intros Hf Hl F1 P1 S1 F2 P2 S2. split_and!.
  - rewrite fmap_app. by apply Forall2_app.
  - rewrite (events_between_app first (vw_last V g + 1) l') by lia. replace (vw_last V g + 1 - 1) with (vw_last V g) by lia. by apply submseteq_app.
  - apply StronglySorted_app. split_and!; [|done|done]. intros x y Hx Hy. left.
    apply (elem_of_submseteq _ _ _ Hx) in P1. apply (elem_of_submseteq _ _ _ Hy) in P2. apply between_block in P1 as [? _], P2 as [? _]. lia.
Qed.

(** All blocks that the batch covers are handled afterwards. *)
Lemma batch_ok g g' new evs start latest :
  gate_ok g new → covers start latest evs → latest < 2 ^ 63 → (∀ b, first <= b < start → block_taken b new) → batch_taken V evs g g' →
  let more := filter (λ ev, vw_last V g < ev_EthBlock ev) evs in
  gate_ok g' (new ++ more) ∧ ∀ b, first <= b <= latest → block_taken b (new ++ more).
Proof.
  intros Hok Hc Hl Hs [[Hlt (ev & Hev & Hlast)] Ht (snew & evs' & Es & Hsub & Hset)] more.
  assert (∀ b, first <= b <= latest → block_taken b (new ++ more)) as Hall.
  { intros b Hb. destruct (Z.lt_ge_cases b start); [apply block_taken_mono, Hs; lia|].
    destruct (Z.le_gt_cases b (vw_last V g)); [apply block_taken_mono, (go_blocks _ _ Hok); lia|].
    unfold block_taken. rewrite (covers_block start latest evs (vw_last V g) b Hc) by lia. by apply submseteq_inserts_l. }
  destruct (covers_elem _ _ _ _ Hc Hev) as [Hevb _]. split; [|exact Hall]. destruct Hok as [H1 H2 H3 H4 (done & infos & E1 & F1 & P1 & S1)].
  split; [lia | by rewrite Ht, H2, app_assoc | intros b Hb; apply Hall; lia | | ].
  - apply list_subseteq_app_iff_l. split; [done|]. intros x [_ Hx]%list_elem_of_filter. by apply (covers_elem _ _ _ _ Hc).
  - destruct (covers_settled _ _ _ _ _ _ Hc Hsub) as (infos' & -> & P2 & S2). exists (done ++ snew), (infos ++ infos').
    split; [by rewrite Es, E1, app_assoc|]. apply (settled_extend g); [lia|lia|assumption..].
Qed.

(** *** Steps *)

Lemma plan_start g new o : gate_ok g new → node_ok new (mkNode o None) →
  let start := u64 (vw_last V g + 1) in let start := if start <? startBlock o then startBlock o else start in
  0 <= start ∧ ∀ b, first <= b < start → block_taken b new.
Proof.
  intros [H1 _ H3 _ _] (Ho & Hb & _). cbn in *. rewrite u64_small by lia. destruct (Z.ltb_spec (vw_last V g + 1) (startBlock o)); (split; [lia|]); intros b Hb'; [apply Hb; lia|].
  apply H3. lia.
Qed.

Lemma plan_ok GATE eth g new o r w : DAppChainSpec V GATE → honest cfg logs eth → gate_ok g new → node_ok new (mkNode o None) →
  plan cfg eth (mkOWorld o g) = (r, w) →
  w = mkOWorld o g ∧ (∀ evs latest, r = Ok (Some (evs, latest)) → 0 <= latest < 2 ^ 63 ∧ ∃ start, covers start latest evs ∧ ∀ b, first <= b < start → block_taken b new) ∧
  ∀ b h, r = Ok b → mn_HeaderByNumber eth = Ok h → numMainnetBlockConfirmations cfg < h →
    match b with Some b => b.2 = h - numMainnetBlockConfirmations cfg | None => ∀ k, first <= k <= h - numMainnetBlockConfirmations cfg → block_taken k new end.
Proof.
  intros Hspec Hh Hok Hnd. unfold plan. m_eval. unfold dapp, zoom. cbn [ow_dapp ow_oracle]. destruct (dg_LastMainnetBlockNum g) as [r0 g0] eqn:El.
  apply dg_last in El as [-> Hlast]. destruct r0 as [n|e|]; [|by intros [= <- <-]..]. rewrite (Hlast n eq_refl). m_eval. cbn [ow_oracle].
  destruct (plan_start g new o Hok Hnd) as [Hs0 Hs]. cbv zeta in Hs0, Hs |- *. set (start := if _ <? _ then _ else _) in *. clearbody start.
  unfold getLatestEthBlockNumber. destruct (mn_HeaderByNumber eth) as [h|e|] eqn:Hn; m_eval; [|by intros [= <- <-]..].
  destruct (Hh h Hn) as [Hhr _]. set (c := numMainnetBlockConfirmations cfg) in *.
  destruct (Z.leb_spec h c); [intros [= <- <-]; split_and!; [done..|]; intros b h' [= <-] [= <-]; lia|].
  destruct (Z.ltb_spec (h - c) start); [intros [= <- <-]; split_and!; [done..|]; intros b h' [= <-] [= <-] _ k Hk; apply Hs; lia|].
  destruct (fetchEvents cfg eth start (h - c)) as [evs|e|] eqn:Hf; m_eval; [|by intros [= <- <-]..]. intros [= <- <-].
  split_and!; [done| |by intros b h' [= <-] [= <-]]. intros evs' latest [= <- <-]. split; [lia|]. exists start. split; [|done].
  by apply (fetched_events cfg logs eth h start (h - c)).
Qed.

(** Whatever comes of the submission, the blocks before [startBlock] are handled; when it
    succeeds, those of the batch. *)
Lemma submit_ok GATE g new o b r w : DAppChainSpec V GATE → gate_ok g new → node_ok new (mkNode o (Some b)) → submit b (mkOWorld o g) = (r, w) →
  ∃ more, gate_ok (ow_dapp w) (new ++ more) ∧ node_ok (new ++ more) (mkNode (ow_oracle w) None) ∧
    (r = Ok () → ∀ k, first <= k <= b.2 → block_taken k (new ++ more)).
Proof.
  intros Hspec Hok Hnd. pose proof Hnd as (Ho & Hb & Hbatch). destruct b as [evs latest]. destruct (Hbatch evs latest eq_refl) as (Hl & start & Hc & Hs).
  cbn [nd_oracle] in *. unfold submit. cbn [fst snd]. rewrite (u64_small (latest + 1)) by lia.
  assert (∀ new', (∀ k, first <= k <= latest → block_taken k new') → ∀ o', startBlock o' = latest + 1 → node_ok new' (mkNode o' None)) as Hdone.
  { intros new' H o' Eo. split_and!; cbn; rewrite ?Eo; [lia|lia| |done]. intros k Hk. apply H. lia. }
  assert (∀ o', startBlock o' = startBlock o → node_ok new (mkNode o' None)) as Hsame by (intros o' Eo; split_and!; cbn; rewrite ?Eo; [lia|lia|exact Hb|done]).
  destruct evs as [|ev evs].
  - m_eval. intros [= <- <-]. exists []. rewrite app_nil_r. cbn [ow_dapp ow_oracle].
    assert (∀ k, first <= k <= latest → block_taken k new) as Hall.
    { intros k Hk. destruct (Z.lt_ge_cases k start); [apply Hs; lia|]. pose proof (covers_block start latest [] (k - 1) k Hc ltac:(lia) ltac:(lia)) as H'.
      unfold block_taken. etrans; [exact H'|]. apply submseteq_nil_l. }
    split_and!; [done| by apply Hdone |done].
  - unfold dapp, zoom, on_oracle, modify. m_eval. cbn [ow_dapp ow_oracle]. destruct (dg_ProcessEventBatch (ev :: evs) g) as [r0 g0] eqn:Eb.
    apply (dg_batch (V := V)) in Eb; [|pose proof (go_last _ _ Hok); lia]. set (more := filter (λ ev, vw_last V g < ev_EthBlock ev) (ev :: evs)).
    destruct Eb as [[Hr ->]|Eb].
    + destruct r0 as [[]|e|]; [done|..]; intros [= <- <-]; exists []; rewrite app_nil_r; cbn [ow_dapp ow_oracle]; (split_and!; [done|by apply Hsame|done]).
    + destruct (batch_ok g g0 new (ev :: evs) start latest Hok Hc ltac:(lia) Hs Eb) as [Hok' Hall].
      destruct r0 as [[]|e|]; intros [= <- <-]; exists more; cbn [ow_dapp ow_oracle]; (split_and!; [done| |done]).
      * by apply Hdone.
      * apply node_ok_mono. by apply Hsame.
      * apply node_ok_mono. by apply Hsame.
Qed.
(** The other half of a turn does not change the view, nor where the oracle continues. *)
Definition turn_keeps w0 w : Prop := startBlock (ow_oracle w) = startBlock (ow_oracle w0) ∧ same_view V (ow_dapp w0) (ow_dapp w).

Lemma dapp_keeps {A} w0 (m : M G A) : (∀ g r g', m g = (r, g') → same_view V g g') → preserves (turn_keeps w0) (dapp m).
Proof.
  intros Hm [o g] [Ho (E1 & E2 & E3)]. unfold wp, dapp, zoom. cbn. destruct (m g) as [r g'] eqn:E. destruct (Hm g r g' E) as (F1 & F2 & F3).
  split; [done|]. cbn in *. split_and!; cbn; congruence.
Qed.

Lemma deferred_keeps {A} w0 f (m : M W A) :
  (∀ o, startBlock (f o) = startBlock o) → preserves (turn_keeps w0) m → preserves (turn_keeps w0) (deferred f m).
Proof. intros Hf Hm w Hw. specialize (Hm w Hw). unfold wp, deferred in *. destruct (m w) as [r w']. destruct Hm as [Ho Hv]. split; [by cbn; rewrite Hf|done]. Qed.

Lemma pollDAppChain_keeps GATE eth w0 : DAppChainSpec V GATE → preserves (turn_keeps w0) (pollDAppChain cfg eth).
Proof.
  intros Hspec. unfold pollDAppChain, verifyContractCreators, signPendingWithdrawals. apply preserves_bind.
  - apply deferred_keeps; [done|]. apply preserves_bind; [apply dapp_keeps, dg_unverified|]. intros [|u l]; [apply preserves_ret | apply dapp_keeps, dg_verify].
  - intros []. apply preserves_if; [|apply preserves_ret]. apply deferred_keeps; [done|]. apply preserves_bind; [apply dapp_keeps, dg_pending|]. intros ws.
    apply preserves_gets_bind. intros w _. destruct (filterSeenWithdrawals ws _) as [new r]. apply preserves_bind.
    { apply preserves_modify. intros w' [Ho Hv]. by split. }
    intros _. apply preserves_forM. intros [owner hash]. unfold signWithdrawal. apply preserves_if; [apply preserves_ret|].
    apply preserves_bind; [apply preserves_lift_res|]. intros sig. apply preserves_bind; [apply preserves_try, dapp_keeps, dg_confirm|].
    intros [|e]; [|apply preserves_if]; auto with preserves.
Qed.

Lemma net_step_ok n n' : net_step cfg logs V n n' → net_ok n → net_ok n'.
Proof.
  intros Hstep (new & Hg & Hns). destruct Hstep as [GATE eth i o g ns r w Hs Hh Hi Hp|GATE i o b g ns r w Hs Hi Hp|GATE eth i o g ns r w Hs Hi Hp|i o b g ns Hi|i g ns|g ns|g g' ns Hv];
    cbn [net_gate net_nodes] in *; try (pose proof (Forall_lookup_1 _ _ _ _ Hns Hi) as Ho).
  - destruct (plan_ok GATE eth g new o r w Hs Hh Hg Ho Hp) as (-> & Hb & _). exists new. split; [done|]. cbn [net_nodes]. apply Forall_insert; [done|].
    destruct Ho as (H1 & H2 & _). split_and!; cbn in *; [lia|lia|done|]. intros evs latest Hr. apply Hb. by destruct r as [b|e|]; [f_equal|..].
  - destruct (submit_ok _ _ new _ _ _ _ Hs Hg Ho Hp) as (more & Hg' & Ho' & _). exists (new ++ more). split; [done|]. cbn [net_nodes]. apply Forall_insert; [|done].
    eapply Forall_impl; [exact Hns|]. intros nd. apply node_ok_mono.
  - pose proof (pollDAppChain_keeps GATE eth (mkOWorld o g) Hs (mkOWorld o g)) as Hk. unfold wp in Hk. rewrite Hp in Hk. destruct Hk as [Eo Hv]; [by split|].
    exists new. split; [by eapply gate_same|]. cbn [net_nodes]. apply Forall_insert; [done|]. destruct Ho as (H1 & H2 & _). cbn in *. split_and!; cbn; rewrite ?Eo; [lia|lia|done|done].
  - exists new. split; [done|]. cbn [net_nodes]. by apply Forall_insert.
  - exists new. split; [done|]. cbn [net_nodes]. apply Forall_insert; [done|]. apply fresh_ok, (go_last _ _ Hg).
  - exists new. split; [done|]. cbn [net_nodes]. apply Forall_app. split; [done|]. apply Forall_singleton, fresh_ok, (go_last _ _ Hg).
  - exists new. split; [by eapply gate_same|done].
Qed.
End Submitting.

Section History.
Context {LIB : DiademLib} {GLIB : GatewayLib} {OLIB : OracleLib} (cfg : OracleConfig) (logs : Logs) {G : Type} (V : View G).

Lemma net_run_ok first taken settled n :
  0 <= numMainnetBlockConfirmations cfg → net_run cfg logs V first taken settled n → net_ok cfg logs V first taken settled n.
Proof.
  intros Hc. induction 1 as [g H -> -> ->|n n' _ IH Hstep]; [|by eapply net_step_ok]. exists []. split; [|constructor]. split; cbn; [lia|by rewrite app_nil_r|lia|set_solver|].
  exists [], []. rewrite app_nil_r. split_and!; [done|constructor|apply submseteq_nil_l|constructor].
Qed.

(** C14. Oracles together report what happens on Ethereum, and the gateway settles it once.
    Any number of oracles of one configuration run, stop and start again; between fetching
    a batch and submitting it others go on, so that batches overlap; any call to either
    chain may fail, or fail only apparently.  Nodes of Ethereum are honest about blocks with
    the configured confirmations, and the gateway knows the blocks before [first] at the
    start.  In every state: of each block from [first] up to the last one that the gateway
    knows, and up to the one where any oracle continues, all events were handed to the
    gateway by accepted batches, and no others ever were; what it settled since the start
    are events of the final chain up to its last known block, each at most once, in the
    order of blocks and transactions.  After a poll that succeeds all events of confirmed
    blocks were handed over. *)
Theorem mainnet_events_settle_once first taken settled n :
  0 <= numMainnetBlockConfirmations cfg → net_run cfg logs V first taken settled n →
  (∃ new, vw_taken V (net_gate n) = taken ++ new ∧ new ⊆ ei_Event <$> all_events cfg logs ∧
    (∀ b, first <= b <= vw_last V (net_gate n) → block_taken cfg logs b new) ∧
    ∀ nd b, nd ∈ net_nodes n → first <= b < startBlock (nd_oracle nd) → block_taken cfg logs b new) ∧
  (∃ done infos, vw_settled V (net_gate n) = settled ++ done ∧ Forall2 settles done (ei_Event <$> infos) ∧
    infos ⊆+ events_between cfg logs first (vw_last V (net_gate n)) ∧ StronglySorted event_le infos) ∧
  ∀ GATE o eth h w, DAppChainSpec V GATE → mkNode o None ∈ net_nodes n → honest cfg logs eth → mn_HeaderByNumber eth = Ok h → numMainnetBlockConfirmations cfg < h →
    pollMainnet cfg eth (mkOWorld o (net_gate n)) = (Ok (), w) →
    ∃ new, vw_taken V (ow_dapp w) = taken ++ new ∧ ∀ b, first <= b <= h - numMainnetBlockConfirmations cfg → block_taken cfg logs b new.
Proof.
  intros Hc (new & Hg & Hns)%net_run_ok; [|done]. rewrite Forall_forall in Hns. split_and!.
  - exists new. split_and!; [apply (go_taken _ _ _ _ _ _ _ _ Hg)|apply (go_real _ _ _ _ _ _ _ _ Hg)|apply (go_blocks _ _ _ _ _ _ _ _ Hg)|]. intros nd b Hnd. by apply (Hns nd Hnd).
  - apply (go_settled _ _ _ _ _ _ _ _ Hg).
  - intros GATE o eth h w Hs Ho Hh Hn Hlt. specialize (Hns _ Ho). rewrite poll_halves. intros (b & w1 & Hp & Hsub)%bind_inv.
    pose proof (plan_ok cfg logs V Hc first taken settled GATE eth _ new o _ _ Hs Hh Hg Hns Hp) as (-> & Hb & Hall). specialize (Hall b h eq_refl Hn Hlt).
    destruct b as [[evs latest]|].
    + cbn in Hall. subst latest. assert (node_ok cfg logs first new (mkNode o (Some (evs, h - numMainnetBlockConfirmations cfg)))) as Hok.
      { destruct Hns as (H1 & H2 & _). split_and!; cbn in *; [lia|lia|done|]. intros evs' l [= <- <-]. by apply Hb. }
      destruct (submit_ok cfg logs V first taken settled GATE _ new o _ _ _ Hs Hg Hok Hsub) as (more & Hg' & _ & Hk). exists (new ++ more).
      split; [apply (go_taken _ _ _ _ _ _ _ _ Hg')|]. by apply Hk.
    + injection Hsub as <-. exists new. split; [apply (go_taken _ _ _ _ _ _ _ _ Hg)|done].
Qed.
End History.

(** ** The contract keeps what oracles rely on *)

Section Contract.
Context {LIB : DiademLib} {SPEC : DiademLibSpec} {EVM : EvmLib} {RANGE : RangeOrder} {GLIB : GatewayLib}.
Context {P : Type} {PERM : Permissions P} {E : Type} {TOKENS : EvmTokens E}.
Abbreviation Chain := (GatewayChain P E).
Abbreviation World := (GWorld P E).
Implicit Types w : World.

Definition settlements (evs : list GEvent) : list GEvent := filter (λ e, settlement e = true) evs.
Definition chain_view : View Chain :=
  mkView (λ c, last_block (gc_world c)) gc_taken (λ c, settlements (gw_events (gc_world c))).

Context (tg : bool) (gx : GCtx) (net answer : string → Res unit).

(** A run that emits no record of settlement. *)
Abbreviation unsettled := (frame (P := P) (E := E) (λ _, ()) (λ e, negb (settlement e))).

Lemma unsettled_same w w' : unsettled w w' → settlements (gw_events w') = settlements (gw_events w).
Proof.
  intros (_ & new & -> & Hn). unfold settlements. rewrite filter_app. replace (filter _ new) with (@nil GEvent); [by rewrite app_nil_r|].
  symmetry. induction Hn as [|e new He _ IH]; [done|]. rewrite filter_cons, decide_False; [done|]. by destruct (settlement e).
Qed.

Lemma unsettled_run {A} (m : M World A) w r w' : (∀ w0, preserves (unsettled w0) m) → m w = (r, w') → settlements (gw_events w') = settlements (gw_events w).
Proof. intros Hm H. by eapply unsettled_same, frame_run_ok. Qed.

Lemma settled_emit e w : settlement e = true → settlements (gw_events (with_event e w)) = settlements (gw_events w) ++ [e].
Proof. intros He. cbn. unfold settlements. by rewrite filter_app, filter_cons, He. Qed.

Lemma storeUnclaimed_settles d w w' : storeUnclaimedToken d w = (Ok (), w') → ∃ u, settlements (gw_events w') = settlements (gw_events w) ++ [StoreUnclaimedToken u].
Proof.
  intros H. unfold storeUnclaimedToken in H. apply bind_inv in H as (o & w1 & [_ ->]%deref_inv & H). apply bind_inv in H as (u & w1 & [-> ->]%from_store_inv & H).
  apply bind_inv in H as (am & w1 & Ham & H). apply bind_inv in H as ([] & w2 & Hst & H). apply bind_inv in H as ([] & w3 & He & H).
  assert (w = w1) as <- by (by apply (f_equal snd) in Ham). apply unsettled_run in Hst; [|frame_tac]. apply unsettled_run in H; [|frame_tac].
  injection He as <-. eexists. rewrite H, <- Hst. by apply settled_emit.
Qed.

(** What the loop did with an event: it counts, with one record, or leaves no record. *)
Definition counted_as (counts : bool) (ev : MainnetEvent) w w' : Prop :=
  if counts then ∃ e, settlements (gw_events w') = settlements (gw_events w) ++ [e] ∧ settles e ev else settlements (gw_events w') = settlements (gw_events w).

Lemma processDeposit_counts ev d w c w' : ev_Payload ev = Payload_Deposit d → processDeposit tg gx ev d w = (Ok c, w') → counted_as c ev w w'.
Proof.
  intros Hd H. unfold processDeposit in H. apply bind_inv in H as ([] & w1 & [_ ->]%guard_not_inv & H).
  destruct (validateTokenDeposit d) as [[]|e|]; [| |done].
  2:{ apply bind_inv in H as ([] & w1 & He & H). apply ret_inv in H as [-> ->]. eapply unsettled_run, He. auto with frame. }
  apply bind_inv in H as ([] & w1 & [_ ->]%guard_not_inv & H). apply bind_inv in H as (seen & w1 & [Hseen ->]%from_store_inv & H).
  destruct (_ && seen).
  { apply bind_inv in H as ([] & w1 & He & H). apply ret_inv in H as [-> ->]. eapply unsettled_run, He. auto with frame. }
  apply bind_inv in H as (o & w1 & [_ ->]%deref_inv & H). apply bind_inv in H as (r & w1 & Hr & H). apply unsettled_run in Hr; [|frame_tac].
  apply bind_inv in H as ([] & w2 & Hout & H). apply bind_inv in H as ([] & w3 & Hsave & H). apply ret_inv in H as [-> ->].
  apply unsettled_run in Hsave; [|frame_tac]. cbn. rewrite Hsave, <- Hr. destruct r as [[]|e].
  - injection Hout as <-. exists (MainnetDepositEvent d). split; [by apply settled_emit|done].
  - apply bind_inv in Hout as ([] & w4 & [= <-] & Hout). unfold or_emit in Hout. apply bind_inv in Hout as (r & w4 & Htry & Hout). destruct r as [[]|e'].
    + apply ret_inv in Hout as [_ ->]. unfold try_ in Htry. destruct (storeUnclaimedToken d _) as [[[]|e'|] w5] eqn:Hst; [|done..]. injection Htry as <-.
      destruct (storeUnclaimed_settles d _ _ Hst) as [u Hu]. exists (StoreUnclaimedToken u). split; [|by exists d]. rewrite Hu. f_equal.
      by apply unsettled_same, (frame_run_ok _ _ (emit (MainnetProcessEventError ev e)) _ (Ok ())); [auto with frame|].
    + apply bind_inv in Hout as ([] & ? & _ & Hout). done.
Qed.

Lemma processWithdrawal_counts st ev wd w r w' :
  ev_Payload ev = Payload_Withdrawal wd → processWithdrawal tg gx st ev wd w = (Ok r, w') → counted_as (bool_decide (is_Some r)) ev w w'.
Proof.
  intros Hd H. unfold processWithdrawal in H. apply bind_inv in H as ([] & w1 & [_ ->]%guard_not_inv & H). apply bind_inv in H as ([] & w1 & [_ ->]%guard_not_inv & H).
  apply bind_inv in H as (seen & w1 & [Hseen ->]%from_store_inv & H). destruct (_ && seen).
  { apply bind_inv in H as ([] & w1 & He & H). apply ret_inv in H as [-> ->]. cbn. eapply unsettled_run, He. auto with frame. }
  apply bind_inv in H as (x & w1 & Hr & H). apply unsettled_run in Hr; [|unfold completeTokenWithdraw; frame_tac]. destruct x as [st'|e].
  - apply bind_inv in H as ([] & w2 & [= <-] & H). apply bind_inv in H as ([] & w3 & Hsave & H). apply ret_inv in H as [-> ->].
    apply unsettled_run in Hsave; [|frame_tac]. cbn. rewrite Hsave, <- Hr. exists (MainnetWithdrawalEvent wd). split; [by apply settled_emit|done].
  - apply bind_inv in H as ([] & w2 & He & H). apply ret_inv in H as [-> ->]. cbn. rewrite <- Hr. eapply unsettled_run, He. auto with frame.
Qed.

Lemma event_counts l ev w l' w' : processEvent tg gx l ev w = (Ok l', w') →
  bl_lastEthBlock l <= bl_lastEthBlock l' ∧
  (settlements (gw_events w') = settlements (gw_events w) ∨
   ∃ e, settlements (gw_events w') = settlements (gw_events w) ++ [e] ∧ settles e ev ∧ gs_LastMainnetBlockNum (bl_state l) < ev_EthBlock ev <= bl_lastEthBlock l').
Proof.
  intros H. unfold processEvent in H. apply bind_inv in H as ([] & w1 & [Hge%Z.ltb_ge ->]%guard_not_inv & H).
  destruct (Z.leb_spec (ev_EthBlock ev) (gs_LastMainnetBlockNum (bl_state l))); [apply ret_inv in H as [-> ->]; split; [done|by left]|].
  assert (∀ st, bl_lastEthBlock l <= bl_lastEthBlock (count_block ev st l) ∧ ev_EthBlock ev <= bl_lastEthBlock (count_block ev st l)) as Hcount.
  { intros st. unfold count_block. destruct (Z.ltb_spec (bl_lastEthBlock l) (ev_EthBlock ev)); cbn; lia. }
  destruct (ev_Payload ev) as [d|wd|] eqn:Hp.
  - apply bind_inv in H as (c & w1 & Hd & H). apply ret_inv in H as [-> ->]. apply processDeposit_counts in Hd; [|done]. destruct c; [|split; [done|by left]].
    destruct Hd as (e & Hs & He), (Hcount (bl_state l)). split; [done|]. right. by exists e.
  - apply bind_inv in H as (r & w1 & Hd & H). apply ret_inv in H as [-> ->]. apply processWithdrawal_counts in Hd; [|done]. destruct r as [st|]; [|split; [done|by left]].
    destruct Hd as (e & Hs & He), (Hcount st). split; [done|]. right. by exists e.
  - apply ret_inv in H as [-> ->]. split; [done|by left].
Qed.

Lemma loop_counts last evs l w l' w' : 0 <= last → loop_ok last l → foldM (processEvent tg gx) l evs w = (Ok l', w') →
  bl_lastEthBlock l <= bl_lastEthBlock l' ∧ ∃ new evs', settlements (gw_events w') = settlements (gw_events w) ++ new ∧ Forall2 settles new evs' ∧
    evs' `sublist_of` filter (λ ev, last < ev_EthBlock ev <= bl_lastEthBlock l') evs.
Proof.
  intros H0. revert l w. induction evs as [|ev evs IH]; intros l w Hl H.
  - apply ret_inv in H as [-> ->]. split; [done|]. exists [], []. by rewrite app_nil_r.
  - cbn [foldM] in H. apply bind_inv in H as (l1 & w1 & Hev & H). pose proof (loop_ok_step _ _ _ _ _ _ _ _ H0 Hl Hev) as Hl1.
    destruct (IH l1 w1 Hl1 H) as (Hle & new & evs' & Hs & Hf & Hsub). apply event_counts in Hev as [Hle1 Hev]. split; [lia|]. rewrite filter_cons.
    destruct Hev as [Hev|(e & Hev & He & Hb)].
    + exists new, evs'. rewrite Hs, Hev. split_and!; [done..|]. destruct (decide _); [by constructor|done].
    + exists (e :: new), (ev :: evs'). rewrite Hs, Hev, <- app_assoc. split_and!; [done|by constructor|]. destruct Hl as [Hlast _].
      rewrite decide_True by lia. by constructor.
Qed.

(** The last block moves to one of the events. *)
Definition loop_at (events : list MainnetEvent) (l : BatchLoop) : Prop :=
  bl_blockCount l = 0 ∨ ∃ ev, ev ∈ events ∧ bl_lastEthBlock l = ev_EthBlock ev.
Lemma loop_at_step events l ev w l' w' : ev ∈ events → loop_at events l → processEvent tg gx l ev w = (Ok l', w') → loop_at events l'.
Proof.
  intros Hev Hl H. unfold processEvent in H. apply bind_inv in H as ([] & w1 & [_ ->]%guard_not_inv & H).
  destruct (_ <=? _); [by apply ret_inv in H as [-> _]|].
  assert (∀ st, loop_at events (count_block ev st l)) as Hcount.
  { intros st. unfold count_block. destruct (_ <? _); [right; by exists ev|done]. }
  destruct (ev_Payload ev) as [d|wd|].
  - apply bind_inv in H as (c & w1 & _ & H). apply ret_inv in H as [-> _]. destruct c; [apply Hcount|done].
  - apply bind_inv in H as (r & w1 & _ & H). apply ret_inv in H as [-> _]. destruct r as [st|]; [apply Hcount|done].
  - by apply ret_inv in H as [-> _].
Qed.

Lemma batch_ok_taken events w w' : 0 <= last_block w → ProcessEventBatch tg gx events w = (Ok (), w') →
  (last_block w < last_block w' ∧ ∃ ev, ev ∈ events ∧ last_block w' = ev_EthBlock ev) ∧
  ∃ new evs', settlements (gw_events w') = settlements (gw_events w) ++ new ∧
    evs' `sublist_of` filter (λ ev, last_block w < ev_EthBlock ev <= last_block w') events ∧ Forall2 settles new evs'.
Proof.
  intros H0 H. pose proof (proj1 (batch_is_consumed_once tg gx events w w' H0 H)) as Hlt. unfold ProcessEventBatch in H.
  apply bind_inv in H as (ok & w1 & [-> ->]%from_store_inv & H). apply bind_inv in H as ([] & w1 & [_ ->]%guard_not_inv & H).
  apply bind_inv in H as (st & w1 & [-> ->]%from_store_inv & H). apply bind_inv in H as (l & w1 & Hloop & H).
  apply bind_inv in H as ([] & w2 & [Hcount%Z.eqb_neq ->]%guard_not_inv & H).
  assert (loop_at events l) as Hat.
  { apply (foldM_ok _ (λ l _, loop_at events l)) in Hloop; [done| |by left]. intros ev l1 v l2 v' Hev Hl. by eapply loop_at_step. }
  apply (loop_counts (last_block w)) in Hloop as (_ & new & evs' & Hs & Hf & Hsub); [|done|by split; [|left]]. injection H as <-.
  destruct Hat as [|Hat]; [done|]. split; [by split|]. by exists new, evs'.
Qed.

Lemma call_inv method batch m (c : Chain) r c' : Call net answer method batch m c = (r, c') →
  (∃ w, m (gc_world c) = (Ok (), w) ∧ c' = mkGatewayChain w (gc_taken c ++ unprocessed batch (gc_world c))) ∨ r ≠ Ok () ∧ c' = c.
Proof.
  unfold Call, transact. destruct (net method) as [[]|e|] eqn:En; m_eval; rewrite ?En; cbn; [|by intros [= <- <-]; right..].
  destruct (m (gc_world c)) as [[[]|e|] w]; [|by intros [= <- <-]; right..]. intros [= _ <-]. left. by exists w.
Qed.

Lemma static_call {A} method (f : GStore P → Res A) (c : Chain) r c' : StaticCall net method f c = (r, c') →
  c' = c ∧ ∀ x, r = Ok x → f (gw_store (gc_world c)) = Ok x.
Proof. unfold StaticCall. destruct (net method) as [[]|e|] eqn:En; m_eval; rewrite ?En; cbn; intros [= <- <-]; by split. Qed.

(** Calls that leave the state of the gateway alone. *)
Lemma call_keeps method m (c : Chain) r c' :
  (∀ w0, preserves (frame gs_state (λ e, negb (settlement e)) w0) m) → Call net answer method [] m c = (r, c') → same_view chain_view c c'.
Proof.
  intros Hm [(w & Hw & ->)|[_ ->]]%call_inv; [|done]. destruct (frame_run_ok _ _ m _ _ _ (Hm _) Hw) as [Hs He].
  split_and!; cbn; [by unfold last_block, loadState; rewrite Hs|by rewrite app_nil_r|]. by apply unsettled_same.
Qed.

#[global] Instance contract_gateway_spec : DAppChainSpec chain_view (contract_gateway tg gx net answer).
Proof.
  split; cbn.
  - intros c r c' [-> H]%static_call. split; [done|]. intros n [= <-]%H. done.
  - intros evs c r c' Hlast [(w & Hw & ->)|H]%call_inv; [|by left]. right. destruct (batch_ok_taken _ _ _ Hlast Hw) as [H1 H2]. by split.
  - by intros a c r c' [-> _]%static_call.
  - intros o s h c r c'. apply call_keeps. intros w0. unfold ConfirmWithdrawalReceipt, doConfirmWithdrawalReceipt. frame_tac.
  - by intros c r c' [-> _]%static_call.
  - intros cs c r c'. apply call_keeps. intros w0. unfold VerifyContractCreators, confirmContractMapping. frame_tac.
Qed.
End Contract.

(** ** Hashes that were signed *)

#[global] Instance hex_encode_inj : Inj (=) (=) hex_encode.
Proof. intros x y H. apply (f_equal hex_decode) in H. rewrite !hex_roundtrip in H. by injection H. Qed.

(** The withdrawals that the oracle goes on to sign are those that it has not seen since
    the last cleanup: each new hash once, in order, and no other; all of them are in the
    pool afterwards. *)
Theorem unseen_withdrawals_are_signed_once ws r :
  let '(new, r') := filterSeenWithdrawals ws r in
  new `sublist_of` ws ∧ NoDup new.*2 ∧ (∀ h, h ∈ new.*2 ↔ h ∈ ws.*2 ∧ seenHash h r = false) ∧
  (∀ h, seenHash h r' = true ↔ seenHash h r = true ∨ h ∈ ws.*2).
Proof.
  unfold seenHash. revert r. induction ws as [|[a hash] ws IH]; intros r; cbn [filterSeenWithdrawals].
  - split_and!; [done | constructor | set_solver | set_solver].
  - unfold addHash. cbn [snd]. destruct (decide (hex_encode hash ∈ r)) as [Hin|Hnew]; cbn.
    + specialize (IH r). destruct (filterSeenWithdrawals ws r) as [new r']. destruct IH as (Hs & Hnd & Hiff & Hr). split_and!; [by apply sublist_cons | done | |].
      * intros h. rewrite Hiff, elem_of_cons. split; [naive_solver|]. intros [[->|?] Hf]; [|done]. by rewrite bool_decide_eq_false in Hf.
      * intros h. rewrite Hr, elem_of_cons, bool_decide_eq_true. split; [tauto|]. intros [?|[->|?]]; tauto.
    + specialize (IH ({[hex_encode hash]} ∪ r)). destruct (filterSeenWithdrawals ws _) as [new r']. destruct IH as (Hs & Hnd & Hiff & Hr).
      assert (∀ h, bool_decide (hex_encode h ∈ ({[hex_encode hash]} ∪ r : gset string)) = false ↔ h ≠ hash ∧ bool_decide (hex_encode h ∈ r) = false) as Hsplit.
      { intros h. rewrite !bool_decide_eq_false, elem_of_union, elem_of_singleton. split; [|intros [? ?] [?%(inj hex_encode)|?]; done].
        intros H. split; [intros ->|]; tauto. }
      split_and!; [by apply sublist_skip | | |]; cbn.
      * constructor; [|done]. rewrite Hiff, Hsplit. naive_solver.
      * intros h. rewrite !elem_of_cons, Hiff, Hsplit. destruct (decide (h = hash)) as [->|]; [|naive_solver].
        split; [intros _|by left]. split; [by left|]. by apply bool_decide_eq_false.
      * intros h. rewrite Hr, elem_of_cons, !bool_decide_eq_true, elem_of_union, elem_of_singleton. split; [|naive_solver].
        intros [[?%(inj hex_encode)|?]|?]; naive_solver.
Qed.

(** ** Signatures of a batch *)

Lemma substring_within a b c : String.substring (String.length a) (String.length b) (a +:+ b +:+ c) = b.
Proof. induction a as [|x a IH]; [|exact IH]. cbn. induction b as [|x b IH]; [by destruct c | exact (f_equal (String x) IH)]. Qed.

Lemma substring_to_end a b n : (String.length b <= n)%nat → String.substring (String.length a) n (a +:+ b) = b.
Proof.
  intros H. induction a as [|x a IH]; [|exact IH]. change (String.substring 0 n b = b). revert n H. induction b as [|x b IH]; intros [|n] H; cbn in *; [done|done|lia|].
  f_equal. apply IH. lia.
Qed.

Lemma zeros_length n : String.length (zeros n) = n.
Proof. induction n as [|n IH]; [done|]. exact (f_equal S IH). Qed.
Lemma zeros_add n m : zeros (n + m) = zeros n +:+ zeros m.
Proof. induction n as [|n IH]; [done|]. exact (f_equal (String zero) IH). Qed.

Lemma copy_at_app pre x old rest : String.length x = String.length old → copy_at (String.length pre) x (pre +:+ old +:+ rest) = pre +:+ x +:+ rest.
Proof.
  intros Hx. unfold copy_at. rewrite !append_length. rewrite (substring_within "" pre (old +:+ rest) : String.substring 0 _ (pre +:+ old +:+ rest) = _).
  rewrite (substring_to_end "" x _ : _ → String.substring 0 _ x = _) by lia.
  rewrite Hx. rewrite <- (append_length pre old), <- (append_assoc pre old rest). rewrite substring_to_end by lia. done.
Qed.

Fixpoint join (l : list bytes) : bytes := match l with [] => "" | x :: l => x +:+ join l end.
Lemma join_app l l' : join (l ++ l') = join l +:+ join l'.
Proof. induction l as [|x l IH]; [done|]. cbn. by rewrite IH, append_assoc. Qed.
Lemma join_length k l : Forall (λ x, String.length x = k) l → String.length (join l) = (length l * k)%nat.
Proof. induction 1 as [|x l Hx _ IH]; [done|]. cbn. by rewrite append_length, Hx, IH. Qed.

(** The keys of a validator make signatures of 65 bytes. *)
Definition signs_65 (L : OracleLib) : Prop := ∀ hash sig, @SoliditySignPrefixed L hash = Ok sig → String.length sig = SignatureSize.

(** What a validator contributes for a hash: a validator that did not sign, zeros. *)
Definition signature_of (hash : bytes) (v : option OracleLib) : bytes :=
  match v with
  | Some L => match @SoliditySignPrefixed L hash with Ok sig => sig | _ => "" end
  | None => zeros SignatureSize
  end.

Definition signed_all (L : OracleLib) (ws : list (Address * bytes)) : list bytes := (λ w, signature_of w.2 (Some L)) <$> ws.

Lemma sign_all_join (L : OracleLib) ws pre s :
  signs_65 L → sign_all (length pre) ws (join pre +:+ zeros (length ws * SignatureSize)) = Ok s → Forall (λ x, String.length x = SignatureSize) pre →
  s = join (pre ++ signed_all L ws) ∧ Forall (λ x, String.length x = SignatureSize) (signed_all L ws).
Proof.
  intros HL. revert pre s. induction ws as [|[o h] ws IH]; intros pre s Hs Hpre.
  - injection Hs as <-. cbn. by rewrite app_nil_r, append_nil.
  - cbn [sign_all] in Hs. destruct (SoliditySignPrefixed h) as [sig|?|] eqn:E; [|done..]. pose proof (HL h sig E) as Hsig. cbn [mbind Res_bind] in Hs.
    rewrite <- (join_length SignatureSize pre Hpre) in Hs. change (length ((o, h) :: ws) * SignatureSize)%nat with (SignatureSize + length ws * SignatureSize)%nat in Hs.
    rewrite zeros_add, copy_at_app in Hs by (by rewrite zeros_length). destruct (IH (pre ++ [sig]) s) as [-> Hall].
    + rewrite length_app, Nat.add_1_r, join_app. cbn [join]. by rewrite append_nil, append_assoc.
    + by apply Forall_app_2; [|constructor].
    + unfold signed_all. cbn [fmap list_fmap signature_of snd]. rewrite E, <- app_assoc. split; [done|]. by constructor.
Qed.

Lemma slice_join k i x l : Forall (λ x, String.length x = k) l → l !! i = Some x → slice (join l) (i * k) (S i * k) = Ok x.
Proof.
  intros Hall Hi. pose proof (Forall_lookup_1 _ _ _ _ Hall Hi) as Hx. pose proof (take_drop_middle l i x Hi) as Hl. pose proof (lookup_lt_Some _ _ _ Hi).
  unfold slice. rewrite (proj2 (Nat.leb_le _ _)) by (rewrite (join_length k l Hall); nia). f_equal. rewrite <- Hl, join_app. cbn [join].
  replace (S i * k - i * k)%nat with (String.length x) by (cbn in *; nia). replace (i * k)%nat with (String.length (join (take i l))); [apply substring_within|].
  rewrite (join_length k) by (by apply Forall_take). rewrite length_take. lia.
Qed.

(** A validator and what the consensus collected from it for the message. *)
Definition contributed (ws : list (Address * bytes)) (v : option OracleLib) (s : option bytes) : Prop :=
  match v, s with
  | Some L, Some s => Forall (λ x, String.length x = SignatureSize) (signed_all L ws) ∧ s = join (signed_all L ws)
  | None, None => True
  | _, _ => False
  end.

Lemma validatorSignatures_join ws vs sigs i o h :
  Forall2 (contributed ws) vs sigs → ws !! i = Some (o, h) → validatorSignatures i sigs = Ok (join (signature_of h <$> vs)).
Proof.
  intros Hv Hi. induction Hv as [|v s vs sigs Hvs _ IH]; [done|]. destruct v as [L|], s as [s|]; try done; cbn [validatorSignatures].
  - destruct Hvs as [Hall ->]. rewrite (slice_join _ _ (signature_of h (Some L)) _ Hall) by (unfold signed_all; by rewrite list_lookup_fmap, Hi).
    rewrite IH. done.
  - by rewrite IH.
Qed.

Lemma confirm_requests_join ws vs sigs l i :
  Forall2 (contributed ws) vs sigs → drop i ws = l →
  confirm_requests i l sigs = Ok ((λ w, (w.1, w.2, join (signature_of w.2 <$> vs))) <$> l).
Proof.
  intros Hv. revert i. induction l as [|[o h] l IH]; intros i Hl; [done|]. cbn [confirm_requests].
  assert (ws !! i = Some (o, h)) as Hi by (rewrite <- (Nat.add_0_r i), <- lookup_drop, Hl; done).
  rewrite (validatorSignatures_join ws vs sigs i o h Hv Hi). cbn [mbind Res_bind].
  rewrite IH; [done|]. by rewrite (drop_S ws (o, h) i Hi) in Hl; injection Hl.
Qed.

(** Encoding the message of a batch. *)
Class FnMessageSpec `{FnMessageLib} : Prop := { unmarshal_marshal ws b : marshal_withdrawals ws = Ok b → unmarshal_withdrawals b = Ok ws }.

Section Batches.
Context {FLIB : FnMessageLib} {FSPEC : FnMessageSpec} {G : Type} {GATE : DAppChainGateway G}.
Abbreviation FW := (FnWorld (G := G)).

(** The validator proposed the message with this signature, in some state of its own. *)
Definition proposed (msg : bytes) (v : option OracleLib) (s : option bytes) : Prop :=
  match v, s with
  | Some L, Some s => ∃ a (w w' : FW), Fn_GetMessageAndSignature (OLIB := L) a w = (Ok (msg, s), w')
  | None, None => True
  | _, _ => False
  end.

Lemma proposed_contributed msg ws v s : (∀ L, v = Some L → signs_65 L) → unmarshal_withdrawals msg = Ok ws → proposed msg v s → contributed ws v s.
Proof.
  intros HL Hu. destruct v as [L|], s as [s|]; cbn; try done. intros (a & w & w' & H). specialize (HL L eq_refl).
  unfold Fn_GetMessageAndSignature in H. apply bind_inv in H as (pending & w1 & _ & H). destruct pending as [|p pending]; [done|].
  set (l := take _ _) in H. apply bind_inv in H as (sig & w2 & Hs & H). apply (f_equal fst) in Hs. cbn [fst lift_res] in Hs.
  apply bind_inv in H as (m & w3 & Hm & H). apply (f_equal fst) in Hm. cbn [fst lift_res] in Hm. injection H as <- <- _.
  apply unmarshal_marshal in Hm. rewrite Hm in Hu. injection Hu as <-.
  destruct (sign_all_join L l [] sig HL Hs ltac:(constructor)) as [-> Hall]. by split.
Qed.

(** C15. The signatures of a batch reach their withdrawals.  When validators propose the
    same message, each with signatures made from its own pending withdrawals and its own
    key, the collected signatures are submitted to the gateway so that each withdrawal of
    the message, in order, carries the signatures of exactly its hash by all validators in
    their order, 65 bytes each, zeros for a validator that did not sign. *)
Theorem batch_signatures_reach_their_withdrawals key msg ws vs sigs (w : FW) :
  Forall (λ v, ∀ L, v = Some L → signs_65 L) vs → unmarshal_withdrawals msg = Ok ws → Forall2 (proposed msg) vs sigs →
  (Fn_MapMessage key msg;; Fn_SubmitMultiSignedMessage key sigs) w =
  (Fn_MapMessage key msg;; confirm_all ((λ x, (x.1, x.2, join (signature_of x.2 <$> vs))) <$> ws)) w.
Proof.
  intros HL Hu Hp. assert (Forall2 (contributed ws) vs sigs) as Hc.
  { induction Hp as [|v s vs sigs Hv _ IH]; [constructor|]. apply Forall_cons in HL as [Hv' HL]. constructor; [by eapply proposed_contributed|by apply IH]. }
  unfold Fn_MapMessage, Fn_SubmitMultiSignedMessage. m_eval. cbn. rewrite lookup_insert_eq, Hu, (confirm_requests_join ws vs sigs ws 0 Hc eq_refl). done.
Qed.

(** A signature that is too short stops the whole batch: the process that submits it
    panics before any withdrawal is confirmed. *)
Theorem short_signature_blocks_the_batch key msg ws s sigs (w : FW) :
  unmarshal_withdrawals msg = Ok ws → ws ≠ [] → mappedMessage w !! hex_encode key = Some msg → (String.length s < SignatureSize)%nat →
  Fn_SubmitMultiSignedMessage key (Some s :: sigs) w = (Panic, w).
Proof.
  intros Hu Hne Hm Hs. unfold Fn_SubmitMultiSignedMessage. m_eval. cbn. rewrite Hm, Hu. destruct ws as [|[o h] ws]; [done|].
  cbn [confirm_requests validatorSignatures]. unfold slice. rewrite (proj2 (Nat.leb_gt _ _)) by (unfold SignatureSize in *; lia). done.
Qed.
End Batches.

(** ** On concrete chains

    The coin gateway of [GatewayWitness] with deposits on Ethereum and a node that answers
    all requests; two validators and a third that did not sign. *)

Module OracleWitness.
Import SimpleLib MapperWitness.
#[local] Existing Instances MapperWitness.evm GatewayWitness.glib GatewayWitness.tokens.

Definition signature (c : ascii) : bytes := Nat.iter SignatureSize (String c) "".

(** A validator signs the hash "x" with [c] and other hashes with [d]. *)
Definition keys (c d : ascii) : OracleLib := {|
  address_hex a := a; BytesToHash b := b; local_from_hex s := Ok s; kind_of n := TokenKind_DiademCoin;
  SoliditySign h := Ok (signature c); SoliditySignPrefixed h := Ok (signature (if decide (h = "x") then c else d)) |}.
#[local] Instance olib : OracleLib := keys "a" "b".

(** ** Two deposits *)

Definition cfg : OracleConfig := mkOracleConfig (sample "G") 10 true UnprefixedWithdrawalSigType [] true.
Definition log (block : Z) (tx : bytes) (amount : Z) : DiademCoinReceived :=
  mkDiademCoinReceived (Local foreign) amount (Local GatewayWitness.token) (mkRawLog block 0 tx).
Definition logs : Logs := mkLogs [] [] [] [] [log 9 "t2" 5; log 7 "t1" 3; log 15 "t3" 1] [].

(** A node at block [h] that answers all requests. *)
Definition node (h : Z) : Mainnet :=
  let ask {A} (raw : A → RawLog) (all : list A) (a b : Z) : Res (list A) := Ok (filter (λ x, a <= rl_BlockNumber (raw x) <= b) all) in
  mkMainnet (Ok h) (ask x7_Raw (lg_721 logs)) (ask xx_Raw (lg_721x logs)) (ask x2_Raw (lg_20 logs)) (ask xe_Raw (lg_eth logs))
    (ask xd_Raw (lg_coin logs)) (ask xw_Raw (lg_withdrawn logs)) (λ _, Ok None) (λ _, Ok None).

Lemma node_honest h : 0 <= h < 2 ^ 63 → honest cfg logs (node h).
Proof. intros Hh h' [= <-]. split; [exact Hh|]. split_and!; intros a b l _ [= <-]; done. Qed.

(** The client of the oracle, with an answer to the submission or without. *)
Abbreviation Chain := (GatewayChain (gset (Address * bytes * string)) unit).
Definition gate (answer : Res unit) : DAppChainGateway Chain := contract_gateway true (GatewayWitness.gx "o" linked) (λ _, Ok ()) (λ _, answer).

Definition do_plan (h : Z) (i : nat) (n : Net Chain) : Net Chain :=
  match net_nodes n !! i with
  | Some (mkNode o None) =>
      let '(r, w) := plan (GATE := gate (Ok ())) cfg (node h) (mkOWorld o (net_gate n)) in
      mkNet (ow_dapp w) (<[i := mkNode (ow_oracle w) (match r with Ok b => b | _ => None end)]> (net_nodes n))
  | _ => n
  end.
Definition do_submit (answer : Res unit) (i : nat) (n : Net Chain) : Net Chain :=
  match net_nodes n !! i with
  | Some (mkNode o (Some b)) =>
      let '(r, w) := submit (GATE := gate answer) b (mkOWorld o (net_gate n)) in mkNet (ow_dapp w) (<[i := mkNode (ow_oracle w) None]> (net_nodes n))
  | _ => n
  end.

Abbreviation run := (net_run cfg logs chain_view 6 [] []).
Lemma do_plan_run h i n : 0 <= h < 2 ^ 63 → run n → run (do_plan h i n).
Proof.
  intros Hh Hn. unfold do_plan. destruct (net_nodes n !! i) as [[o [b|]]|] eqn:Hi; [done| |done]. destruct (plan _ _ _) as [r w] eqn:Hp.
  eapply run_step; [exact Hn|]. destruct n as [g ns]. eapply step_plan; [apply contract_gateway_spec|by apply node_honest|done|exact Hp].
Qed.
Lemma do_submit_run answer i n : run n → run (do_submit answer i n).
Proof.
  intros Hn. unfold do_submit. destruct (net_nodes n !! i) as [[o [b|]]|] eqn:Hi; [|done|done]. destruct (submit _ _) as [r w] eqn:Hp.
  eapply run_step; [exact Hn|]. destruct n as [g ns]. eapply step_submit; [apply contract_gateway_spec|done|exact Hp].
Qed.

(** Two oracles fetch at different heights and submit overlapping batches; the first one
    does not get its answer. *)
Definition both : Net Chain := mkNet (mkGatewayChain GatewayWitness.genesis []) [fresh_node; fresh_node].
Definition overlapping : Net Chain := do_submit (Ok ()) 1 (do_submit (Err ErrNotFound) 0 (do_plan 20 1 (do_plan 18 0 both))).

Lemma overlapping_run : run overlapping.
Proof.
  apply do_submit_run, do_submit_run, do_plan_run; [done|]. apply do_plan_run; [done|].
  eapply run_step; [|apply (step_join _ _ _ _ [fresh_node])]. eapply run_step; [|apply (step_join _ _ _ _ [])]. by apply run_start.
Qed.

Lemma events_once_witness :
  (startBlock ∘ nd_oracle <$> net_nodes overlapping) = [0; 11] ∧ (ev_EthBlock <$> gc_taken (net_gate overlapping)) = [7; 9] ∧
  length (vw_settled chain_view (net_gate overlapping)) = 2%nat ∧
  ∃ infos, Forall2 settles (vw_settled chain_view (net_gate overlapping)) (ei_Event <$> infos) ∧ infos ⊆+ events_between cfg logs 6 9.
Proof.
  split_and!; [by vm_compute..|]. destruct (mainnet_events_settle_once cfg logs chain_view 6 [] [] overlapping) as (_ & (done & infos & E & F & P & _) & _).
  - done.
  - apply overlapping_run.
  - exists infos. rewrite E. split; [exact F|]. revert P. clear. by vm_compute (vw_last _ _).
Defined.

(** ** A batch of two withdrawals *)

#[local] Instance flib : FnMessageLib := { marshal_withdrawals ws := Ok (pack ws); unmarshal_withdrawals b := match unpack b with Some ws => Ok ws | None => Err ErrNotFound end }.
#[local] Instance flib_spec : FnMessageSpec.
Proof. split. intros ws b [= <-]. cbn. by rewrite unpack_pack. Qed.

Definition two : list (Address * bytes) := [(sample "a", "x"); (sample "b", "y")].

(** A gateway with the two withdrawals pending that keeps the requests. *)
Definition inbox : DAppChainGateway (list (Address * bytes * bytes)) := {|
  dg_LastMainnetBlockNum := mret 0; dg_ProcessEventBatch evs := mret (); dg_PendingWithdrawals a := mret two;
  dg_ConfirmWithdrawalReceipt o s h := mret (); dg_ConfirmWithdrawalReceiptV2 o s h := modify (λ l, l ++ [(o, h, s)]);
  dg_UnverifiedContractCreators := mret []; dg_VerifyContractCreators cs := mret () |}.

Definition idle : FnWorld (G := list (Address * bytes * bytes)) := mkFnWorld ∅ [].
Definition validators : list (option OracleLib) := [Some (keys "a" "b"); None; Some (keys "c" "d")].
Definition sigs : list (option bytes) := [Some (signature "a" +:+ signature "b"); None; Some (signature "c" +:+ signature "d")].

Lemma validator_keys_65 c d : signs_65 (keys c d).
Proof. intros h s [= <-]. by destruct (decide _). Qed.

Lemma reach_witness :
  fw_dapp ((Fn_MapMessage "k" (pack two);; Fn_SubmitMultiSignedMessage (GATE := inbox) "k" sigs) idle).2 =
    [(sample "a", "x", signature "a" +:+ zeros SignatureSize +:+ signature "c"); (sample "b", "y", signature "b" +:+ zeros SignatureSize +:+ signature "d")].
Proof.
  rewrite (batch_signatures_reach_their_withdrawals (GATE := inbox) "k" (pack two) two validators sigs idle).
  - by vm_compute.
  - repeat constructor; intros L [= <-]; apply validator_keys_65.
  - cbn. by rewrite unpack_pack.
  - repeat constructor; exists (sample "G"), idle, idle; by vm_compute.
Defined.
End OracleWitness.
