(* ===== verification/PlasmaOracle.v ===== *)
(** * The oracle of plasma cash (src/builtin/plugins/plasma_cash/oracle)

    Two workers.  The coin worker reads what happened to coins on Ethereum and sends it to
    the plasma contract of this chain; the block worker has the contract close a block of
    transfers and submits the roots of closed blocks to Ethereum (oracle.go).

    Both chains are reached over the network: the classes [EthPlasmaClient] and
    [DAppChainPlasmaClient], after the interfaces of the same names.  The second one is
    implemented by the plasma contract (dappchain_plasma_client.go).  Errors end in the log,
    so the texts that wrap them are left out. *)

From S2P Require Import Prelude Contract Coin AddressMapper Store Middleware PlasmaCash.

(** ** The two chains *)

(** The events of the client library, each with the place of its log. *)
Record PlasmaDepositEvent := mkDepositEvent {
  de_Slot : Z; de_DepositBlock : option Z; de_Denomination : option Z; de_From : option Address; de_Contract : option Address; de_Meta : EventMeta;
}.
(** [PlasmaCashWithdrewEvent], [StartedExitEvent] and [CoinResetEvent]. *)
Record PlasmaCoinEvent := mkCoinEvent { ce_Owner : option Address; ce_Slot : Z; ce_Meta : EventMeta }.

Class EthPlasmaClient (E : Type) := {
  ep_CurrentPlasmaBlockNum : M E Z;
  ep_LatestEthBlockNum : M E Z;
  ep_FetchDeposits (startBlock endBlock : Z) : M E (list PlasmaDepositEvent);
  ep_FetchWithdrews (startBlock endBlock : Z) : M E (list PlasmaCoinEvent);
  ep_FetchStartedExit (startBlock endBlock : Z) : M E (list PlasmaCoinEvent);
  ep_FetchCoinReset (startBlock endBlock : Z) : M E (list PlasmaCoinEvent);
  ep_SubmitPlasmaBlock (blockNum : Z) (merkleRoot : bytes) : M E unit;
}.

Class DAppChainPlasmaClient (D : Type) := {
  dp_CurrentPlasmaBlockNum : M D Z;
  dp_PlasmaBlockAt (blockNum : Z) : M D PlasmaBlock;
  dp_FinalizeCurrentPlasmaBlock : M D unit;
  dp_GetPendingTxs : M D (list PlasmaTx);
  dp_ProcessRequestBatch (requestBatch : list PlasmaRequest) : M D unit;
  dp_GetRequestBatchTally : M D PTally;
}.

(** *** The contract as the client sees it

    A request that the node does not answer fails before the call ([net]); a transaction
    that fails changes nothing. *)
Section Client.
Context {LIB : DiademLib} {EVM : EvmLib} {PL : PlasmaLib} {P : Type} {PERM : Permissions P}.
Context (ctx : Ctx) (net : string → Res unit).
Abbreviation PM := (M (PWorld P)).

Definition StaticCall {A} (method : string) (f : PStore P → Res A) : PM A :=
  lift_res (net method);; r ← gets (λ w, f (pw_store w)); lift_res r.

Definition transact {A} (m : PM A) : PM unit := λ w,
  match m w with
  | (Ok _, w') => (Ok (), w')
  | (Err e, _) => (Err e, w)
  | (Panic, _) => (Panic, w)
  end.
Definition Call {A} (method : string) (m : PM A) : PM unit := lift_res (net method);; transact m.

Definition client_GetPendingTxs : PM (list PlasmaTx) := StaticCall "GetPendingTxs" (λ s, Ok (GetPendingTxs s)).
Definition client_CurrentPlasmaBlockNum : PM Z :=
  height ← StaticCall "GetCurrentBlockRequest" (λ s, Ok (GetCurrentBlockRequest s)); deref height.
Definition client_PlasmaBlockAt (blockNum : Z) : PM PlasmaBlock := StaticCall "GetBlockRequest" (GetBlockRequest (Some blockNum)).
Definition client_FinalizeCurrentPlasmaBlock : PM unit := Call "SubmitBlockToMainnet" (SubmitBlockToMainnet ctx).
Definition client_GetRequestBatchTally : PM PTally := StaticCall "GetRequestBatchTally" (λ s, Ok (GetRequestBatchTally s)).
Definition client_ProcessRequestBatch (requestBatch : list PlasmaRequest) : PM unit :=
  Call "ProcessRequestBatch" (ProcessRequestBatch ctx requestBatch).

#[global] Instance contract_plasma : DAppChainPlasmaClient (PWorld P) := {
  dp_CurrentPlasmaBlockNum := client_CurrentPlasmaBlockNum;
  dp_PlasmaBlockAt := client_PlasmaBlockAt;
  dp_FinalizeCurrentPlasmaBlock := client_FinalizeCurrentPlasmaBlock;
  dp_GetPendingTxs := client_GetPendingTxs;
  dp_ProcessRequestBatch := client_ProcessRequestBatch;
  dp_GetRequestBatchTally := client_GetRequestBatchTally;
}.
End Client.

(** ** State *)

(** [None] is the nil pointer that the status starts with. *)
Record PlasmaBlockWorkerStatus := mkBlockStatus { LastSeenDAppChainPlasmaBlockNum : option Z; LastSeenEthPlasmaBlockNum : option Z }.
Record PlasmaCoinWorkerStatus := mkCoinStatus {
  DepositEventsProcessed : Z; WithdrawEventsProcessed : Z; StartedExitEventsProcessed : Z; CoinResetEventsProcessed : Z;
  LastSeenEthBlockNumber : Z; LastReportedRequestBatchTally : option PTally;
}.

Section Workers.
Context {E D : Type} {ETH : EthPlasmaClient E} {DAPP : DAppChainPlasmaClient D} (plasmaBlockInterval : Z).

Record PoWorld := mkPoWorld {
  po_block : PlasmaBlockWorkerStatus;
  po_coin : PlasmaCoinWorkerStatus;
  po_counter : Z;
  po_eth : E;
  po_dapp : D;
}.

Definition on_eth {A} (m : M E A) : M PoWorld A :=
  zoom po_eth (λ e w, mkPoWorld (po_block w) (po_coin w) (po_counter w) e (po_dapp w)) m.
Definition on_dapp {A} (m : M D A) : M PoWorld A :=
  zoom po_dapp (λ d w, mkPoWorld (po_block w) (po_coin w) (po_counter w) (po_eth w) d) m.
Definition on_block (f : PlasmaBlockWorkerStatus → PlasmaBlockWorkerStatus) : M PoWorld unit :=
  modify (λ w, mkPoWorld (f (po_block w)) (po_coin w) (po_counter w) (po_eth w) (po_dapp w)).
Definition on_coin (f : PlasmaCoinWorkerStatus → PlasmaCoinWorkerStatus) : M PoWorld unit :=
  modify (λ w, mkPoWorld (po_block w) (f (po_coin w)) (po_counter w) (po_eth w) (po_dapp w)).
Definition set_counter (n : Z) : M PoWorld unit :=
  modify (λ w, mkPoWorld (po_block w) (po_coin w) n (po_eth w) (po_dapp w)).

(** ** Blocks *)

(** [big.Int.Div] panics for a zero divisor. *)
Definition nextPlasmaBlockNum (current interval : Z) : Res Z := if interval =? 0 then Panic else Ok ((current / interval + 1) * interval).

Definition submitPlasmaBlockToEthereum (plasmaBlockNum : Z) (merkleRoot : bytes) : M PoWorld unit :=
  curEthPlasmaBlockNum ← on_eth ep_CurrentPlasmaBlockNum;
  if plasmaBlockNum <=? curEthPlasmaBlockNum then mret ()
  else
    guard_not (negb (String.length merkleRoot =? 32)%nat) (ErrMsg "invalid merkle root size");;
    on_eth (ep_SubmitPlasmaBlock plasmaBlockNum merkleRoot).

(** [nextPlasmaBlockNum] overwrites the number it is given, and the status points to it. *)
Definition syncPlasmaBlocksWithEthereum : M PoWorld unit :=
  curEthPlasmaBlockNum ← on_eth ep_CurrentPlasmaBlockNum;
  curDiademPlasmaBlockNum ← on_dapp dp_CurrentPlasmaBlockNum;
  on_block (λ _, mkBlockStatus (Some curDiademPlasmaBlockNum) (Some curEthPlasmaBlockNum));;
  if curDiademPlasmaBlockNum =? curEthPlasmaBlockNum then mret ()
  else
    unsubmittedPlasmaBlockNum ← lift_res (nextPlasmaBlockNum curEthPlasmaBlockNum plasmaBlockInterval);
    on_block (λ s, mkBlockStatus (LastSeenDAppChainPlasmaBlockNum s) (Some unsubmittedPlasmaBlockNum));;
    if curDiademPlasmaBlockNum <? unsubmittedPlasmaBlockNum then mret ()
    else
      block ← on_dapp (dp_PlasmaBlockAt unsubmittedPlasmaBlockNum);
      submitPlasmaBlockToEthereum unsubmittedPlasmaBlockNum (pb_MerkleHash block).

Definition sendPlasmaBlocksToEthereum : M PoWorld unit :=
  pendingTxs ← on_dapp dp_GetPendingTxs;
  (if (0 <? length pendingTxs)%nat then on_dapp dp_FinalizeCurrentPlasmaBlock else mret ());;
  syncPlasmaBlocksWithEthereum.

(** ** Coins *)

(** The [Less] of [sortableRequests] on requests with their places; the comparison of
    indices that it ends with orders requests of the same place in no particular way. *)
Definition lessRequest (x y : EventMeta * RequestData) : bool :=
  let '(a, b) := (x.1, y.1) in
  if negb (em_BlockNumber a =? em_BlockNumber b) then em_BlockNumber a <? em_BlockNumber b
  else if negb (em_TxIndex a =? em_TxIndex b) then em_TxIndex a <? em_TxIndex b
  else if negb (em_LogIndex a =? em_LogIndex b) then em_LogIndex a <? em_LogIndex b
  else false.

Definition PrepareRequestBatch (requests : list (EventMeta * RequestData)) : list PlasmaRequest :=
  (λ r, mkPlasmaRequest (Some r.1) r.2) <$> go_sort lessRequest requests.

Definition deposit_data (e : PlasmaDepositEvent) : EventMeta * RequestData :=
  (de_Meta e, Request_Deposit (mkDeposit (de_Slot e) (de_DepositBlock e) (de_Denomination e) (de_From e) (de_Contract e))).
Definition coin_data (f : CoinRequest → RequestData) (e : PlasmaCoinEvent) : EventMeta * RequestData := (ce_Meta e, f (mkCoinRequest (ce_Owner e) (ce_Slot e))).

Definition requests_of (depositEvents : list PlasmaDepositEvent) (withdrewEvents startedExitEvents coinResetEvents : list PlasmaCoinEvent) :
    list (EventMeta * RequestData) :=
  (deposit_data <$> depositEvents) ++ (coin_data Request_Withdraw <$> withdrewEvents) ++
  (coin_data Request_StartedExit <$> startedExitEvents) ++ (coin_data Request_CoinReset <$> coinResetEvents).

Definition startEthBlock (tally : PTally) : Z := if negb (pt_BlockNumber tally =? 0) then u64 (pt_BlockNumber tally + 1) else 0.

Definition sendCoinEventsToDAppChain : M PoWorld unit :=
  tally ← on_dapp dp_GetRequestBatchTally;
  latestEthBlock ← on_eth ep_LatestEthBlockNum;
  on_coin (λ s, mkCoinStatus (DepositEventsProcessed s) (WithdrawEventsProcessed s) (StartedExitEventsProcessed s) (CoinResetEventsProcessed s)
    latestEthBlock (Some tally));;
  let start := startEthBlock tally in
  if latestEthBlock <? start then mret ()
  else
    depositEvents ← on_eth (ep_FetchDeposits start latestEthBlock);
    withdrewEvents ← on_eth (ep_FetchWithdrews start latestEthBlock);
    startedExitEvents ← on_eth (ep_FetchStartedExit start latestEthBlock);
    coinResetEvents ← on_eth (ep_FetchCoinReset start latestEthBlock);
    let requests := requests_of depositEvents withdrewEvents startedExitEvents coinResetEvents in
    match requests with
    | [] => mret ()
    | _ =>
        on_dapp (dp_ProcessRequestBatch (PrepareRequestBatch requests));;
        on_coin (λ s, mkCoinStatus (i64 (DepositEventsProcessed s + Z.of_nat (length depositEvents)))
          (i64 (WithdrawEventsProcessed s + Z.of_nat (length withdrewEvents)))
          (i64 (StartedExitEventsProcessed s + Z.of_nat (length startedExitEvents)))
          (i64 (CoinResetEventsProcessed s + Z.of_nat (length coinResetEvents)))
          (LastSeenEthBlockNumber s) (LastReportedRequestBatchTally s))
    end.

(** A turn of the loop of [Run]: blocks are sent at every sixth turn. *)
Definition Run_turn : M PoWorld unit :=
  counter ← gets po_counter;
  let counter := i64 (counter + 1) in
  set_counter counter;;
  (if counter =? 6 then ignore_err sendPlasmaBlocksToEthereum;; set_counter 0 else mret ());;
  ignore_err sendCoinEventsToDAppChain.
End Workers.
Arguments PoWorld : clear implicits.
