(* ===== verification/PlasmaOracleTheorems.v ===== *)
(** * The oracle of plasma cash: theorems

    Blocks of transfers reach Ethereum complete, in order and with the roots that this
    chain computed, whatever fails and however the chains move on; what happened to coins
    on Ethereum is applied by the contract in the order in which it happened. *)

From stdpp Require Import pretty.
From S2P Require Import Prelude Contract Coin AddressMapper Store Middleware PlasmaCash PlasmaOracle.

(** The oracle and the contract number blocks alike. *)
Theorem oracle_and_contract_number_blocks_alike h : 0 <= h < 2 ^ 62 → nextPlasmaBlockNum h 1000 = Ok (round (i64 h) 1000).
Proof. intros Hh. by rewrite round_next. Qed.

(** ** Blocks *)

(** What the oracle relies on: [current] is the number of the last block on Ethereum and
    [roots] are the roots that were submitted.  A submission may take effect although it
    is reported to have failed.  The blocks of deposits lie between those of transfers. *)
Class EthPlasmaSpec (E : Type) `{EthPlasmaClient E} (current : E → Z) (roots : E → gmap Z bytes) : Prop := {
  ep_current e r e' : ep_CurrentPlasmaBlockNum e = (r, e') → e' = e ∧ ∀ n, r = Ok n → n = current e;
  ep_latest e r e' : ep_LatestEthBlockNum e = (r, e') → e' = e;
  ep_withdrews a b e r e' : ep_FetchWithdrews a b e = (r, e') → e' = e;
  ep_exits a b e r e' : ep_FetchStartedExit a b e = (r, e') → e' = e;
  ep_resets a b e r e' : ep_FetchCoinReset a b e = (r, e') → e' = e;
  ep_deposits a b e r e' : ep_FetchDeposits a b e = (r, e') → e' = e ∧
    ∀ l, r = Ok l → Forall (λ ev, ∀ n, de_DepositBlock ev = Some n → 0 < n <= current e ∧ ~ (1000 | n)) l;
  ep_submit n root e r e' : ep_SubmitPlasmaBlock n root e = (r, e') →
    e' = e ∧ r ≠ Ok () ∨ current e' = n ∧ roots e' = <[n := root]> (roots e);
}.

Section Blocks.
Context {LIB : DiademLib} {SPEC : DiademLibSpec} {EVM : EvmLib} {PL : PlasmaLib} {P : Type} {PERM : Permissions P}.
Context {E : Type} {ETH : EthPlasmaClient E} {current : E → Z} {roots : E → gmap Z bytes} {ESPEC : EthPlasmaSpec E current roots}.
Context (ctx : Ctx) (net : string → Res unit).
#[local] Instance dapp_client : DAppChainPlasmaClient (PWorld P) := contract_plasma ctx net.
Abbreviation D := (PWorld P).
Implicit Types (d : D) (e : E).

Definition height d : Z := default 0 (ps_height (pw_store d)).
Definition block_at d (n : Z) : option PlasmaBlock := ps_blocks (pw_store d) !! blockKey n.

(** The blocks of transfers are those whose numbers are multiples of 1000. *)
Record blocks_ok d e : Prop := {
  bo_height : is_Some (ps_height (pw_store d)) ∧ 0 <= height d;
  bo_closed n : 0 < n <= height d → (1000 | n) → is_Some (block_at d n);
  bo_current : 0 <= current e ∧ ∀ n, 0 < n <= current e → (1000 | n) → n <= height d;
  bo_roots n r : roots e !! n = Some r → 0 < n <= current e ∧ (1000 | n) ∧ ∃ b, block_at d n = Some b ∧ pb_MerkleHash b = r;
  bo_all n : 0 < n <= current e → (1000 | n) → is_Some (roots e !! n);
}.

#[local] Instance blockKey_inj : Inj (=) (=) blockKey.
Proof. intros x y H%prefix_key_inj1. by apply (inj pretty). Qed.

(** *** The contract *)

(** Only the height and the blocks matter. *)
Lemma blocks_ok_ext d d' e :
  ps_height (pw_store d') = ps_height (pw_store d) → ps_blocks (pw_store d') = ps_blocks (pw_store d) → blocks_ok d e → blocks_ok d' e.
Proof. intros Hh Hb [H1 H2 H3 H4 H5]. constructor; unfold height, block_at in *; rewrite ?Hh, ?Hb; done. Qed.

(** A new block: above the height, or a deposit. *)
Lemma blocks_ok_insert d d' e k b :
  ps_height (pw_store d') = ps_height (pw_store d) → ps_blocks (pw_store d') = <[blockKey k := b]> (ps_blocks (pw_store d)) →
  ~ (1000 | k) → blocks_ok d e → blocks_ok d' e.
Proof.
  intros Hh Hb Hk [H1 H2 H3 H4 H5].
  assert (∀ n, (1000 | n) → block_at d' n = block_at d n) as Hat.
  { intros n Hn. unfold block_at. rewrite Hb, lookup_insert_ne; [done|]. intros ->%(inj blockKey). done. }
  assert (height d' = height d) as Hd by (unfold height; by rewrite Hh). constructor; rewrite ?Hd, ?Hh; try done.
  - intros n Hn Hm. rewrite Hat by done. by apply H2.
  - intros n r Hr. destruct (H4 n r Hr) as (? & Hm & ?). by rewrite Hat.
Qed.

Lemma blocks_ok_height d d' e k :
  ps_height (pw_store d') = Some k → ps_blocks (pw_store d') = ps_blocks (pw_store d) → height d < k <= current e → blocks_ok d e → blocks_ok d' e.
Proof.
  intros Hh Hb Hk [H1 H2 H3 H4 H5]. assert (height d' = k) as Hd by (unfold height; by rewrite Hh).
  constructor; rewrite ?Hd, ?Hh; unfold block_at in *; rewrite ?Hb; try done.
  - split; [done|lia].
  - intros n Hn Hm. apply H2; [|done]. split; [lia|]. apply H3; [lia|done].
  - split; [apply H3|]. intros n Hn Hm. destruct H3 as [_ H3]. specialize (H3 n Hn Hm). lia.
Qed.

(** Closing a block. *)
Lemma blocks_ok_close d d' e b :
  let k := (height d / 1000 + 1) * 1000 in
  ps_height (pw_store d') = Some k → ps_blocks (pw_store d') = <[blockKey k := b]> (ps_blocks (pw_store d)) → blocks_ok d e → blocks_ok d' e.
Proof.
  intros k Hh Hb [H1 H2 H3 H4 H5]. pose proof (Z.div_mod (height d) 1000 ltac:(lia)). pose proof (Z.mod_pos_bound (height d) 1000 ltac:(lia)).
  assert (height d' = k) as Hd by (unfold height; by rewrite Hh). assert (height d < k) as Hlt by (unfold k; lia).
  assert (∀ n, n ≠ k → block_at d' n = block_at d n) as Hat.
  { intros n Hn. unfold block_at. rewrite Hb, lookup_insert_ne; [done|]. by intros ->%(inj blockKey). }
  constructor; rewrite ?Hd, ?Hh; try done.
  - split; [done|lia].
  - intros n Hn Hm. destruct (decide (n = k)) as [->|Hne]; [unfold block_at; by rewrite Hb, lookup_insert_eq|]. rewrite Hat by done. apply H2; [|done].
    destruct Hm as [m ->]. unfold k in *. nia.
  - split; [apply H3|]. intros n Hn Hm. destruct H3 as [_ H3]. specialize (H3 n Hn Hm). lia.
  - intros n r Hr. destruct (H4 n r Hr) as (Hn & Hm & Hex). split_and!; [apply Hn | apply Hn | done |]. rewrite Hat; [done|].
    destruct H3 as [_ H3]. specialize (H3 n Hn Hm). lia.
Qed.

(** The deposits of a request are those of Ethereum. *)
Definition deposit_ok e (data : RequestData) : Prop :=
  match data with Request_Deposit r => ∀ n, dep_DepositBlock r = Some n → 0 < n <= current e ∧ ~ (1000 | n) | _ => True end.

Lemma depositRequest_blocks e r : deposit_ok e (Request_Deposit r) → preserves (λ d, blocks_ok d e) (depositRequest r).
Proof.
  intros Hr d Hd. unfold depositRequest. apply wp_bind, wp_gets. cbv zeta. apply wp_bind, wp_deref. cbn in Hr. destruct (dep_DepositBlock r) as [k|]; [|done].
  destruct (Hr k eq_refl) as [Hk Hm]. apply wp_bind, wp_modify. set (d1 := mkPWorld _ _).
  assert (blocks_ok d1 e) as H1 by (by eapply (blocks_ok_insert d)). apply wp_bind. destruct (dep_From r) as [a|]; [|done]. apply wp_ret.
  apply wp_bind, wp_gets. cbv zeta. do 3 (apply wp_bind, wp_modify). apply wp_bind, wp_deref. cbn [ps_height pw_store].
  match goal with |- context [wp _ _ ?d] => set (d2 := d) end.
  assert (blocks_ok d2 e) as H2 by (by eapply (blocks_ok_ext d1)). destruct (ps_height (pw_store d)) as [h|] eqn:Hh; [|done].
  destruct (Z.ltb_spec h k); [|done]. apply wp_modify. eapply (blocks_ok_height d2 _ e k); [done|done| |done].
  unfold height, d2, d1. cbn. rewrite Hh. cbn. lia.
Qed.

Lemma on_pstore_blocks e f :
  (∀ s, ps_height (f s) = ps_height s ∧ ps_blocks (f s) = ps_blocks s) → preserves (λ d, blocks_ok d e) (on_pstore f).
Proof. intros Hf. apply preserves_modify. intros d. by apply blocks_ok_ext; apply Hf. Qed.
Lemma emit_blocks e ev : preserves (λ d, blocks_ok d e) (emit ev).
Proof. apply preserves_modify. intros d. by apply blocks_ok_ext. Qed.
#[local] Hint Resolve emit_blocks : preserves.
#[local] Hint Extern 1 (preserves _ (on_pstore _)) => apply on_pstore_blocks; intros; split; reflexivity : preserves.

Lemma runRequest_blocks e data : deposit_ok e data → preserves (λ d, blocks_ok d e) (runRequest data).
Proof.
  destruct data as [r|r|r|r|]; cbn [runRequest]; intros Hd; [by apply depositRequest_blocks| | | |apply preserves_ret].
  all: unfold coinReset, exitCoin, withdrawCoin, loadCoin, saveCoin, saveAccount, from_pstore, UnmarshalAddressPB, emitResetConfirmedEvent,
    emitExitConfirmedEvent, emitWithdrawConfirmedEvent; pres.
Qed.

Lemma batch_blocks e reqs : Forall (λ r, deposit_ok e (pr_Data r)) reqs → preserves (λ d, blocks_ok d e) (ProcessRequestBatch ctx reqs).
Proof.
  intros Hall. unfold ProcessRequestBatch, has_permission, from_pstore. do 2 (apply preserves_bind; [auto with preserves|intros ?]).
  destruct (last reqs); [|apply preserves_ret]. apply preserves_bind; [auto with preserves|]. intros t. apply preserves_bind; [auto with preserves|]. intros m.
  apply preserves_if; [apply preserves_ret|]. apply preserves_bind; [|intros []; auto with preserves]. apply preserves_try.
  intros d Hd. apply wp_foldM with (λ l _ d, Forall (λ r, deposit_ok e (pr_Data r)) l ∧ blocks_ok d e); [done|naive_solver|].
  intros r l t' d' [[Hr Hl]%Forall_cons Hd'].
  assert (preserves (λ d, blocks_ok d e) (processRequest t' r)) as Hp.
  { unfold processRequest. pose proof (runRequest_blocks e _ Hr). destruct (pr_Data r); pres. }
  eapply wp_mono; [by apply Hp|]. by intros [].
Qed.

Lemma transact_blocks {A} e (m : M D A) : preserves (λ d, blocks_ok d e) m → preserves (λ d, blocks_ok d e) (transact m).
Proof. intros Hm d Hd. specialize (Hm d Hd). unfold wp, transact in *. by destruct (m d) as [[]]. Qed.

Lemma call_blocks {A} e method (m : M D A) : preserves (λ d, blocks_ok d e) m → preserves (λ d, blocks_ok d e) (Call net method m).
Proof. intros Hm. apply preserves_bind; [auto with preserves|]. intros _. by apply transact_blocks. Qed.

Lemma finalize_blocks e d : height d < 2 ^ 62 → blocks_ok d e → wp (client_FinalizeCurrentPlasmaBlock ctx net) (λ _ d', blocks_ok d' e) d.
Proof.
  intros Hb Hd. unfold client_FinalizeCurrentPlasmaBlock, Call. apply wp_bind, wp_lift_res. destruct (net _) as [[]| |]; [|done..].
  unfold wp, transact. destruct (SubmitBlockToMainnet ctx d) as [[root|err|] d'] eqn:Hs; cbn; [|done..].
  destruct (bo_height d e Hd) as [[h Hh] H0]. unfold height in H0, Hb. rewrite Hh in H0, Hb. cbn in H0, Hb.
  pose proof (submit_block_takes_all_pending ctx d root d' h Hh (conj H0 Hb) Hs) as Hres. case_decide; [by subst d'|].
  destruct Hres as (txs & smt & Hh' & _ & _ & Hbl & _). eapply (blocks_ok_close d d' e); [| |done]; unfold height; rewrite Hh; [exact Hh'|exact Hbl].
Qed.

Lemma static_call_run {A} method (f : PStore P → Res A) d : (StaticCall net method f d).2 = d ∧
  ∀ x, (StaticCall net method f d).1 = Ok x → f (pw_store d) = Ok x.
Proof. unfold StaticCall. m_eval. destruct (net method) as [[]| |]; by split. Qed.

(** *** The workers *)

Abbreviation PW := (PoWorld E D).
Implicit Types (w : PW).
Definition synced w : Prop := blocks_ok (po_dapp w) (po_eth w).
Definition next (n : Z) : Z := (n / 1000 + 1) * 1000.

Lemma next_bounds n : n < next n <= n + 1000 ∧ (1000 | next n) ∧ ∀ m, (1000 | m) → m <= next n → m = next n ∨ m <= n.
Proof.
  unfold next. pose proof (Z.div_mod n 1000 ltac:(lia)). pose proof (Z.mod_pos_bound n 1000 ltac:(lia)).
  split_and!; [lia | lia | by exists (n / 1000 + 1) |]. intros m [k ->] Hm. nia.
Qed.

Lemma blocks_ok_submit d e e' b :
  next (current e) <= height d → block_at d (next (current e)) = Some b →
  current e' = next (current e) → roots e' = <[next (current e) := pb_MerkleHash b]> (roots e) → blocks_ok d e → blocks_ok d e'.
Proof.
  intros Hle Hb Hc Hr [H1 H2 [H3 H3'] H4 H5]. destruct (next_bounds (current e)) as (Hn & Hm & Hnext). set (n := next (current e)) in *.
  constructor; rewrite ?Hc, ?Hr; try done.
  - split; [lia|]. intros m Hm1 Hm2. lia.
  - intros m r. rewrite lookup_insert_Some. intros [[<- <-]|[Hne Hl]].
    + split_and!; [lia|lia|done|]. by exists b.
    + destruct (H4 m r Hl) as (Hm1 & Hm2 & Hex). split_and!; [lia|lia|done|done].
  - intros m Hm1 Hm2. destruct (decide (m = n)) as [->|Hne]; [by rewrite lookup_insert_eq|]. rewrite lookup_insert_ne by done. apply H5; [|done].
    destruct (Hnext m Hm2 ltac:(lia)); [done|lia].
Qed.

(** Reading from Ethereum. *)
Lemma eth_read_wp {A} (m : M E A) Q w :
  (m (po_eth w)).2 = po_eth w → Q (m (po_eth w)).1 w → wp (on_eth m) Q w.
Proof. intros He HQ. unfold wp, on_eth, zoom. destruct (m (po_eth w)) as [r e]. cbn in *. rewrite He. by destruct w. Qed.
Lemma dapp_read_wp {A} (m : M D A) Q w :
  (m (po_dapp w)).2 = po_dapp w → Q (m (po_dapp w)).1 w → wp (on_dapp m) Q w.
Proof. intros He HQ. unfold wp, on_dapp, zoom. destruct (m (po_dapp w)) as [r d]. cbn in *. rewrite He. by destruct w. Qed.

Lemma current_wp (Q : Res Z → PW → Prop) w : (∀ r, (∀ n, r = Ok n → n = current (po_eth w)) → Q r w) → wp (on_eth ep_CurrentPlasmaBlockNum) Q w.
Proof.
  intros HQ. destruct (ep_CurrentPlasmaBlockNum (po_eth w)) as [r e] eqn:Er. destruct (ep_current _ _ _ Er) as [-> Hr].
  apply eth_read_wp; rewrite Er; [done|by apply HQ].
Qed.

(** A turn leaves the plasma contract with what it had, and sends the block that is due. *)
Definition sent w w' (r : Res unit) : Prop :=
  synced w' ∧ po_dapp w' = po_dapp w ∧
  (r = Ok () → next (current (po_eth w)) <= height (po_dapp w) → current (po_eth w') = next (current (po_eth w))).

Lemma submit_wp w w0 b :
  synced w → po_eth w = po_eth w0 → po_dapp w = po_dapp w0 → next (current (po_eth w)) <= height (po_dapp w) →
  block_at (po_dapp w) (next (current (po_eth w))) = Some b →
  wp (submitPlasmaBlockToEthereum (next (current (po_eth w))) (pb_MerkleHash b)) (λ r w', sent w0 w' r) w.
Proof.
  intros Hw E1 E2 Hle Hb. unfold submitPlasmaBlockToEthereum. apply wp_bind, current_wp. intros r Hr. destruct r as [n| |]; [|by split_and!..].
  rewrite (Hr n eq_refl). destruct (next_bounds (current (po_eth w))) as [Hn _]. rewrite (proj2 (Z.leb_gt _ _)) by lia.
  apply wp_bind, wp_guard_not. destruct (negb _); [by split_and!|]. unfold wp, on_eth, zoom.
  destruct (ep_SubmitPlasmaBlock _ _ (po_eth w)) as [r e'] eqn:Es. destruct (ep_submit _ _ _ _ _ Es) as [[-> Hne]|[Hc Hroots]]; cbn.
  - split_and!; [by destruct w | by destruct w | done].
  - split_and!; [|done|by rewrite <- E1]. by eapply blocks_ok_submit.
Qed.

Lemma current_block_run d h : ps_height (pw_store d) = Some h →
  (client_CurrentPlasmaBlockNum net d).2 = d ∧ ∀ x, (client_CurrentPlasmaBlockNum net d).1 = Ok x → x = height d.
Proof.
  intros Hh. unfold client_CurrentPlasmaBlockNum, StaticCall. m_eval. destruct (net _) as [[]| |]; [|done..].
  unfold GetCurrentBlockRequest, height. rewrite Hh. split; [done|]. by intros x [= <-].
Qed.

Lemma sync_wp w : synced w → wp (syncPlasmaBlocksWithEthereum 1000) (λ r w', sent w w' r) w.
Proof.
  intros Hw. unfold syncPlasmaBlocksWithEthereum. apply wp_bind, current_wp. intros r Hr. destruct r as [n| |]; [|by split_and!..].
  rewrite (Hr n eq_refl). apply wp_bind. destruct (bo_height _ _ Hw) as [[h Hh] _].
  destruct (current_block_run (po_dapp w) h Hh) as [Hd Hx]. apply dapp_read_wp; [exact Hd|].
  cbn [dp_CurrentPlasmaBlockNum dapp_client contract_plasma].
  match goal with |- match ?x with _ => _ end => destruct x as [m| |] eqn:Em end; [|by split_and!..].
  rewrite (Hx m eq_refl). clear Hx Em. apply wp_bind, wp_modify. destruct (Z.eqb_spec (height (po_dapp w)) (current (po_eth w))) as [Heq|Hne].
  { apply wp_ret. split_and!; [done|done|]. intros _. destruct (next_bounds (current (po_eth w))) as [? _]. lia. }
  change (nextPlasmaBlockNum (current (po_eth w)) 1000) with (Ok (next (current (po_eth w)))). apply wp_bind, wp_lift_res, wp_bind, wp_modify.
  destruct (Z.ltb_spec (height (po_dapp w)) (next (current (po_eth w)))); [split_and!; [done|done|lia]|].
  destruct (next_bounds (current (po_eth w))) as (Hn & Hm & _).
  destruct (bo_closed _ _ Hw (next (current (po_eth w)))) as [b Hb]; [pose proof (bo_current _ _ Hw); lia|done|].
  destruct (static_call_run "GetBlockRequest" (GetBlockRequest (Some (next (current (po_eth w))))) (po_dapp w)) as [Hd' Hblock].
  apply wp_bind, dapp_read_wp; [exact Hd'|]. cbn [dp_PlasmaBlockAt dapp_client contract_plasma po_dapp] in *. unfold client_PlasmaBlockAt.
  match goal with |- match ?x with _ => _ end => destruct x as [b'| |] eqn:Eb end; [|by split_and!..].
  specialize (Hblock b' eq_refl). unfold GetBlockRequest in Hblock. unfold block_at in Hb. rewrite Hb in Hblock. injection Hblock as <-.
  match goal with |- wp _ _ ?w1 => by apply (submit_wp w1 w b) end.
Qed.

Lemma send_wp w : height (po_dapp w) < 2 ^ 62 → synced w →
  wp (sendPlasmaBlocksToEthereum 1000) (λ r w', synced w' ∧
    (r = Ok () → next (current (po_eth w)) <= height (po_dapp w') → current (po_eth w') = next (current (po_eth w)))) w.
Proof.
  intros Hb Hw. unfold sendPlasmaBlocksToEthereum. destruct (static_call_run "GetPendingTxs" (λ s, Ok (GetPendingTxs s)) (po_dapp w)) as [Hd _].
  apply wp_bind, dapp_read_wp; [exact Hd|]. match goal with |- match ?x with _ => _ end => destruct x as [txs| |] end; [|by split..].
  assert (∀ w1, synced w1 → po_eth w1 = po_eth w → wp (syncPlasmaBlocksWithEthereum 1000) (λ r w', synced w' ∧
    (r = Ok () → next (current (po_eth w)) <= height (po_dapp w') → current (po_eth w') = next (current (po_eth w)))) w1) as Hsync.
  { intros w1 Hw1 <-. eapply wp_mono; [by apply sync_wp|]. intros r w' (H1 & H2 & H3). split; [done|]. rewrite H2. exact H3. }
  apply wp_bind. destruct (0 <? length txs)%nat; [|by apply wp_ret, Hsync].
  pose proof (finalize_blocks (po_eth w) (po_dapp w) Hb Hw) as Hf. unfold wp, on_dapp, zoom in *. cbn [dp_FinalizeCurrentPlasmaBlock dapp_client contract_plasma].
  destruct (client_FinalizeCurrentPlasmaBlock ctx net (po_dapp w)) as [[[]|err|] d'] eqn:Ef; cbn in Hf |- *; [|by split..].
  by apply (Hsync (mkPoWorld _ _ _ _ d')).
Qed.

Lemma eth_keeps {A} (m : M E A) (Q : Res A → PW → Prop) w : (∀ e r e', m e = (r, e') → e' = e) → (∀ r, Q r w) → wp (on_eth m) Q w.
Proof. intros Hm HQ. destruct (m (po_eth w)) as [r e] eqn:Er. apply eth_read_wp; rewrite Er; [by apply (Hm _ _ _ Er)|apply HQ]. Qed.

Lemma requests_ok e deps ws xs rs :
  Forall (λ ev, ∀ n, de_DepositBlock ev = Some n → 0 < n <= current e ∧ ~ (1000 | n)) deps →
  Forall (λ r, deposit_ok e (pr_Data r)) (PrepareRequestBatch (requests_of deps ws xs rs)).
Proof.
  intros Hdeps. unfold PrepareRequestBatch. rewrite Forall_fmap, go_sort_permutation. unfold requests_of.
  rewrite !Forall_app, !Forall_fmap. split_and!; [exact Hdeps|by apply Forall_forall..].
Qed.

Lemma coin_wp w : synced w → wp sendCoinEventsToDAppChain (λ _ w', synced w') w.
Proof.
  intros Hw. unfold sendCoinEventsToDAppChain. destruct (static_call_run "GetRequestBatchTally" (λ s, Ok (GetRequestBatchTally s)) (po_dapp w)) as [Hd _].
  apply wp_bind, dapp_read_wp; [exact Hd|]. match goal with |- match ?x with _ => _ end => destruct x as [t| |] end; [|done..].
  apply wp_bind, eth_keeps; [apply ep_latest|]. intros [latest| |]; [|done..]. apply wp_bind, wp_modify. cbv zeta. destruct (_ <? _); [done|].
  set (w1 := mkPoWorld _ _ _ _ _). assert (synced w1) as Hw1 by done. apply wp_bind.
  destruct (ep_FetchDeposits (startEthBlock t) latest (po_eth w1)) as [r e] eqn:Er. destruct (ep_deposits _ _ _ _ _ Er) as [-> Hdeps].
  apply eth_read_wp; rewrite Er; [done|]. cbn [fst]. destruct r as [deps| |]; [|done..]. specialize (Hdeps deps eq_refl).
  apply wp_bind, eth_keeps; [apply ep_withdrews|]. intros [ws| |]; [|done..]. apply wp_bind, eth_keeps; [apply ep_exits|]. intros [xs| |]; [|done..].
  apply wp_bind, eth_keeps; [apply ep_resets|]. intros [rs| |]; [|done..].
  pose proof (requests_ok (po_eth w1) deps ws xs rs Hdeps) as Hreqs. destruct (requests_of deps ws xs rs) as [|q qs]; [done|]. apply wp_bind.
  pose proof (call_blocks (po_eth w1) "ProcessRequestBatch" _ (batch_blocks (po_eth w1) _ Hreqs) (po_dapp w1) Hw1) as Hcall.
  unfold wp, on_dapp, zoom in *. cbn [dp_ProcessRequestBatch dapp_client contract_plasma]. unfold client_ProcessRequestBatch.
  destruct (Call net "ProcessRequestBatch" _ (po_dapp w1)) as [[[]| |] d']; exact Hcall.
Qed.

Lemma turn_wp w : height (po_dapp w) < 2 ^ 62 → synced w → wp (Run_turn 1000) (λ _ w', synced w') w.
Proof.
  intros Hb Hw. unfold Run_turn. apply wp_bind, wp_gets. cbv zeta. apply wp_bind, wp_modify. set (w1 := mkPoWorld _ _ _ _ _).
  assert (∀ w', synced w' → wp (ignore_err sendCoinEventsToDAppChain) (λ _ w', synced w') w') as Hcoin.
  { apply preserves_ignore_err. intros w'. apply coin_wp. }
  apply wp_bind. destruct (_ =? 6); [|by apply wp_ret, Hcoin]. apply wp_bind. unfold ignore_err. apply wp_bind, wp_try.
  eapply wp_mono; [by apply (send_wp w1)|]. intros r w' [Hw' _]. destruct r as [[]| |]; [..|done]; by apply wp_ret, wp_modify, Hcoin.
Qed.

(** A history: it starts with no blocks on either chain; the oracle takes turns, Ethereum
    adds blocks of deposits, and other transactions of this chain do not touch blocks. *)
Inductive plasma_run : PW → Prop :=
  | prun_start w : ps_height (pw_store (po_dapp w)) = Some 0 → ps_blocks (pw_store (po_dapp w)) = ∅ → current (po_eth w) = 0 → roots (po_eth w) = ∅ → plasma_run w
  | prun_turn w : plasma_run w → height (po_dapp w) < 2 ^ 62 → plasma_run (Run_turn 1000 w).2
  | prun_eth w e : plasma_run w → roots e = roots (po_eth w) → current (po_eth w) <= current e →
      (∀ n, current (po_eth w) < n <= current e → ~ (1000 | n)) → plasma_run (mkPoWorld (po_block w) (po_coin w) (po_counter w) e (po_dapp w))
  | prun_chain w d : plasma_run w → ps_height (pw_store d) = ps_height (pw_store (po_dapp w)) → ps_blocks (pw_store d) = ps_blocks (pw_store (po_dapp w)) →
      plasma_run (mkPoWorld (po_block w) (po_coin w) (po_counter w) (po_eth w) d).

Lemma plasma_run_synced w : plasma_run w → synced w.
Proof.
  induction 1 as [w Hh Hb Hc Hr|w _ IH Hb|w e _ IH Hr Hle Hm|w d _ IH Hh Hb].
  - assert (height (po_dapp w) = 0) as H0 by (unfold height; by rewrite Hh). constructor; rewrite ?H0, ?Hc, ?Hr, ?Hh.
    all: try done; repeat split; try done; intros; lia.
  - by apply turn_wp.
  - destruct IH as [H1 H2 [H3 H3'] H4 H5]. assert (∀ n, 0 < n <= current e → (1000 | n) → n <= current (po_eth w)) as Hcur.
    { intros n Hn Hd. destruct (Z.lt_ge_cases (current (po_eth w)) n); [|done]. exfalso. by apply (Hm n); [lia|]. }
    constructor; cbn; rewrite ?Hr; try done.
    + split; [lia|]. intros n Hn Hd. apply H3'; [|done]. specialize (Hcur n Hn Hd). lia.
    + intros n r Hl. destruct (H4 n r Hl) as (? & ? & ?). split_and!; [lia|lia|done|done].
    + intros n Hn Hd. apply H5; [|done]. specialize (Hcur n Hn Hd). lia.
  - by apply (blocks_ok_ext (po_dapp w)).
Qed.

(** C23. Blocks of transfers reach Ethereum complete and in order.  However turns of the
    oracle, deposits on Ethereum and other transactions interleave and whatever calls fail,
    also submissions that are reported as failed but take effect, the roots on Ethereum
    are exactly those of the blocks of transfers up to its current number, without a gap,
    each with the root of the block of this chain.  When a turn of the block worker
    succeeds and a block is due, this block, the next multiple of 1000, is then on
    Ethereum. *)
Theorem plasma_blocks_reach_ethereum w : plasma_run w →
  (∀ n, is_Some (roots (po_eth w) !! n) ↔ 0 < n <= current (po_eth w) ∧ (1000 | n)) ∧
  (∀ n r, roots (po_eth w) !! n = Some r → ∃ b, block_at (po_dapp w) n = Some b ∧ pb_MerkleHash b = r) ∧
  ∀ w', height (po_dapp w) < 2 ^ 62 → sendPlasmaBlocksToEthereum 1000 w = (Ok (), w') → next (current (po_eth w)) <= height (po_dapp w') →
    current (po_eth w') = next (current (po_eth w)) ∧
    ∃ b, block_at (po_dapp w') (current (po_eth w')) = Some b ∧ roots (po_eth w') !! current (po_eth w') = Some (pb_MerkleHash b).
Proof.
  intros Hw%plasma_run_synced. split_and!.
  - intros n. split; [intros [r Hr]; by destruct (bo_roots _ _ Hw n r Hr) as (? & ? & _)|]. intros [? ?]. by apply (bo_all _ _ Hw).
  - intros n r Hr. apply (bo_roots _ _ Hw n r Hr).
  - intros w' Hb Hsend Hdue. pose proof (send_wp w Hb Hw) as Hs. unfold wp in Hs. rewrite Hsend in Hs. cbn [fst snd] in Hs. destruct Hs as [Hw' Hprog].
    specialize (Hprog eq_refl Hdue). split; [done|]. destruct (next_bounds (current (po_eth w))) as (Hn & Hm & _). pose proof (bo_current _ _ Hw) as [H0 _].
    destruct (bo_all _ _ Hw' (current (po_eth w'))) as [r Hr]; [rewrite Hprog; lia|by rewrite Hprog|].
    destruct (bo_roots _ _ Hw' _ r Hr) as (_ & _ & b & Hb' & <-). by exists b.
Qed.

End Blocks.

(** ** Coins *)

Definition tally_of (m : EventMeta) : PTally := mkPTally (em_BlockNumber m) (em_TxIndex m) (em_LogIndex m).
Definition precedes (x y : EventMeta * RequestData) : Prop := event_compare (em_triple x.1) (em_triple y.1) < 0.

Lemma lessRequest_cmp x y : lessRequest x y = (event_compare (em_triple x.1) (em_triple y.1) <? 0).
Proof.
  destruct x as [[a b c] ?], y as [[a' b' c'] ?]. unfold lessRequest, event_compare, lex_compare. cbn.
  repeat match goal with |- context [?u =? ?v] => destruct (Z.eqb_spec u v); cbn end; try lia; rewrite ?Z.ltb_irrefl; try done;
    apply eq_true_iff_eq; rewrite !Z.ltb_lt; lia.
Qed.

#[local] Instance lessRequest_order : LessOrder lessRequest.
Proof.
  destruct (less_of_cmp event_compare (λ x : EventMeta * RequestData, em_triple x.1)) as [Ha Hn].
  split; intros *; rewrite !lessRequest_cmp; [apply Ha|apply Hn].
Qed.

Section Coins.
Context {LIB : DiademLib} {EVM : EvmLib} {PL : PlasmaLib} {P : Type} {PERM : Permissions P}.
Abbreviation D := (PWorld P).
Implicit Types (d : D) (l : list (EventMeta * RequestData)).

Definition request_of (r : EventMeta * RequestData) : PlasmaRequest := mkPlasmaRequest (Some r.1) r.2.

(** Requests of later and later places that the tally does not cover are all run. *)
Lemma processRequests_all l t d :
  Forall (λ r, r.2 ≠ Request_Other ∧ isRequestAlreadySeen r.1 t = false) l → StronglySorted precedes l →
  foldM processRequest t (request_of <$> l) d =
  (forM l (λ r, runRequest r.2);; mret (foldl (λ _ r, tally_of r.1) t l)) d.
Proof.
  revert t d. induction l as [|[m data] l IH]; intros t d Hall Hs; [done|]. apply Forall_cons in Hall as [[Hother Hseen] Hall]. inversion_clear Hs as [|? ? Hs' Hp].
  assert (Forall (λ r : EventMeta * RequestData, r.2 ≠ Request_Other ∧ isRequestAlreadySeen r.1 (tally_of m) = false) l) as Hall'.
  { rewrite Forall_forall in *. intros r Hr. destruct (Hall r Hr) as [? _]. split; [done|]. apply not_true_iff_false. rewrite seen_lex.
    specialize (Hp r Hr). unfold precedes in Hp. cbn in Hp. change (pt_triple (tally_of m)) with (em_triple m).
    apply (cmp_antisym (cmp := event_compare)) in Hp. lia. }
  assert (processRequest t (request_of (m, data)) d = (runRequest data;; mret (tally_of m)) d) as Hstep.
  { unfold processRequest. cbn in Hother, Hseen |- *. destruct data; try done; m_eval; by rewrite Hseen. }
  change (request_of <$> (m, data) :: l) with (request_of (m, data) :: (request_of <$> l)). cbn [foldM forM].
  unfold mbind, M_bind at 1. rewrite Hstep. unfold forM. cbn [foldM]. m_eval. cbn [snd fst].
  destruct (runRequest data d) as [[[]| |] d1]; [|done..]. rewrite (IH (tally_of m) d1 Hall' Hs'). done.
Qed.

Lemma sorted_precedes l : StronglySorted (sort_le lessRequest) l → NoDup l.*1 → StronglySorted precedes l.
Proof.
  induction 1 as [|x l _ IH Hx]; [constructor|]. cbn. intros [Hni Hnd]%NoDup_cons. constructor; [by apply IH|].
  rewrite Forall_forall in *. intros y Hy. specialize (Hx y Hy). unfold sort_le in Hx. rewrite lessRequest_cmp, Z.ltb_ge in Hx. unfold precedes.
  destruct (cmp_trichotomy event_compare (em_triple x.1) (em_triple y.1)) as [?|[Heq|?]]; [done| |lia].
  exfalso. apply Hni. apply list_elem_of_fmap. exists y. split; [|done]. destruct x as [[]], y as [[]]. unfold em_triple in Heq. cbn in *. congruence.
Qed.

(** The events from the block after the tally are new to the contract. *)
Lemma new_events_unseen t (m : EventMeta) :
  0 <= pt_BlockNumber t < 2 ^ 63 → startEthBlock t <= em_BlockNumber m → 0 < em_BlockNumber m → isRequestAlreadySeen m t = false.
Proof.
  intros Ht Hs Hm. unfold startEthBlock in Hs. unfold isRequestAlreadySeen. destruct (Z.eqb_spec (pt_BlockNumber t) 0) as [E|E]; cbn in Hs.
  - rewrite E. rewrite (proj2 (Z.eqb_neq _ _)) by lia. cbn. apply Z.leb_gt. lia.
  - rewrite u64_small in Hs by lia. rewrite (proj2 (Z.eqb_neq _ _)) by lia. cbn. apply Z.leb_gt. lia.
Qed.

(** What happened to coins on Ethereum is applied in its order and nothing is left out:
    when the contract accepts the batch that the coin worker makes of the events of a range
    of blocks after its tally, it has run the requests of all events, in the order of
    block, transaction and log, and its tally is at the last of them. *)
Theorem coin_events_are_applied_in_order ctx deps ws xs rs d d' :
  let requests := requests_of deps ws xs rs in
  let tally := GetRequestBatchTally (pw_store d) in
  0 <= pt_BlockNumber tally < 2 ^ 63 → NoDup requests.*1 →
  Forall (λ r : EventMeta * RequestData, startEthBlock tally <= em_BlockNumber r.1 ∧ 0 < em_BlockNumber r.1) requests →
  ProcessRequestBatch ctx (PrepareRequestBatch requests) d = (Ok (), d') → requests ≠ [] →
  ∃ sorted d1, sorted ≡ₚ requests ∧ StronglySorted precedes sorted ∧ forM sorted (λ r, runRequest r.2) d = (Ok (), d1) ∧
    d' = mkPWorld (set_tally (foldl (λ _ r, tally_of r.1) tally sorted) (pw_store d1)) (pw_events d1).
Proof.
  intros requests tally Ht Hnd Hnew H Hne. set (sorted := go_sort lessRequest requests).
  assert (sorted ≡ₚ requests) as Hperm by apply go_sort_permutation.
  assert (StronglySorted precedes sorted) as Hs by (apply sorted_precedes; [apply go_sort_sorted; apply _ | by rewrite Hperm]).
  assert (Forall (λ r : EventMeta * RequestData, r.2 ≠ Request_Other ∧ isRequestAlreadySeen r.1 tally = false) sorted) as Hall.
  { rewrite Hperm. rewrite Forall_forall in *. intros r Hr. destruct (Hnew r Hr). split; [|by apply new_events_unseen].
    unfold requests, requests_of in Hr. rewrite !elem_of_app, !list_elem_of_fmap in Hr. by destruct Hr as [(?&->&_)|[(?&->&_)|[(?&->&_)|(?&->&_)]]]. }
  exists sorted. unfold ProcessRequestBatch in H. apply bind_inv in H as (p & w1 & [-> ->]%gets_inv & H).
  apply bind_inv in H as ([] & w1 & [_ ->]%guard_not_inv & H). change (PrepareRequestBatch requests) with (request_of <$> sorted) in H.
  rewrite fmap_last in H. destruct (last sorted) as [lr|] eqn:Hlast; cbn [fmap option_fmap option_map] in H.
  2: { apply last_None in Hlast. rewrite Hlast in Hperm. by apply Permutation_nil_l in Hperm. }
  apply bind_inv in H as (t & w1 & [-> ->]%gets_inv & H). fold tally in H. apply bind_inv in H as (m & w1 & [Hm ->]%deref_inv & H). injection Hm as <-.
  apply last_Some_elem_of in Hlast. rewrite Forall_forall in Hall. rewrite (proj2 (Hall lr Hlast)) in H. rewrite <- Forall_forall in Hall.
  apply bind_inv in H as (r & w1 & Hr & H). unfold try_ in Hr. rewrite (processRequests_all sorted tally d Hall Hs) in Hr.
  unfold mbind, M_bind in Hr. destruct (forM sorted _ d) as [[[]| |] d1] eqn:Erun; cbn in Hr; [|injection Hr as <- <-; done|done].
  injection Hr as <- <-. injection H as <-. by exists d1.
Qed.
End Coins.

(** ** On a concrete chain

    One transfer is pending; Ethereum is a number and the roots that it was given. *)

Module PlasmaOracleWitness.
Import SimpleLib MapperWitness.
#[local] Existing Instance MapperWitness.evm.

Definition root : bytes := "0123456789abcdef0123456789abcdef".

#[local] Instance plasma_lib : PlasmaLib := {
  diadem_tx_hash slot denomination owner previous proof := Ok (pretty slot);
  solidity_sha3_u64 slot := Ok (pretty slot);
  rlp_encode slot previous denomination owner := Ok owner;
  keccak256 b := b;
  SMT := gmap Z bytes;
  new_smt leaves := Ok leaves;
  smt_root t := root;
  smt_proof t slot := default "" (t !! slot) }.

Abbreviation Eth := (Z * gmap Z bytes)%type.
#[local] Instance eth : EthPlasmaClient Eth := {
  ep_CurrentPlasmaBlockNum := gets fst; ep_LatestEthBlockNum := mret 0;
  ep_FetchDeposits a b := mret []; ep_FetchWithdrews a b := mret []; ep_FetchStartedExit a b := mret []; ep_FetchCoinReset a b := mret [];
  ep_SubmitPlasmaBlock n r := modify (λ e, (n, <[n := r]> e.2)) }.
#[local] Instance eth_spec : EthPlasmaSpec Eth fst snd.
Proof.
  split; cbn.
  - intros e r e' [= <- <-]. split; [done|]. by intros n [= <-].
  - by intros e r e' [= <- <-].
  - by intros a b e r e' [= <- <-].
  - by intros a b e r e' [= <- <-].
  - by intros a b e r e' [= <- <-].
  - intros a b e r e' [= <- <-]. split; [done|]. by intros l [= <-].
  - intros n r e res e' [= <- <-]. by right.
Qed.

Abbreviation Chain := (PWorld (gset (Address * bytes * string))).
Definition ctx : Ctx := mkCtx (sample "o") 0 (sample "X") "diadem" 1 ∅.
Definition net (method : string) : Res unit := Ok ().
Definition chain : Chain :=
  mkPWorld (mkPStore (Some 0) [mkPlasmaTx 5 None None (Some (sample "b")) (Some (sample "a")) "" "" ""] ∅ ∅ ∅ None
    {[ (sample "o", SubmitEventsPermission, oracleRole) ]}) [].
Definition start : PoWorld Eth Chain := mkPoWorld (mkBlockStatus None None) (mkCoinStatus 0 0 0 0 0 None) 0 (0, ∅) chain.
#[local] Instance client : DAppChainPlasmaClient Chain := contract_plasma ctx net.
Definition sent_once : PoWorld Eth Chain := (sendPlasmaBlocksToEthereum 1000 start).2.

Lemma plasma_blocks_witness : fst (po_eth sent_once) = 1000 ∧ snd (po_eth sent_once) !! 1000 = Some root.
Proof.
  destruct (plasma_blocks_reach_ethereum (current := fst) (roots := snd) ctx net start) as (_ & _ & H).
  - by apply prun_start.
  - destruct (H sent_once) as [Hc (b & Hb & Hr)].
    + done.
    + unfold sent_once. apply run_ok. by vm_compute.
    + by vm_compute.
    + split; [exact Hc|]. by vm_compute.
Defined.

(** The status of the worker gives the number of the block that was due as the last one
    seen on Ethereum, where there was none. *)
Example status_shows_the_next_block : LastSeenEthPlasmaBlockNum (po_block sent_once) = Some 1000 ∧ fst (po_eth start) = 0.
Proof. by vm_compute. Qed.
End PlasmaOracleWitness.
